(* ===== verification/_CoqProject ===== *)
-Q . S2P
Prelude.v
Text.v
Json.v
RunState.v
Redact.v
Schema.v
Registry.v
RegistryFacts.v
Evolution.v
RegistryTheorems.v
Remote.v
RemoteFacts.v
RemoteTheorems.v
Identifiers.v
Inventory.v
InventoryFacts.v
InventoryTheorems.v
Protocol.v
UpdateOp.v
Channel.v
ChannelTheorems.v
Sse.v
Policy.v
Convergence.v
System.v
Fs.v
CredentialSwap.v
RunLock.v
Credentials.v
CredentialTheorems.v
CredentialHomes.v
Attachments.v
ChatHistory.v
Approvals.v
Runner.v
RunnerFacts.v
RunnerTheorems.v
Reconcile.v
Host.v
Profiles.v
ProfileTheorems.v
Workers.v
WorkerFacts.v
WorkerTheorems.v
WorkerReauth.v
WorkerSamples.v
Workdesk.v
WorkdeskTheorems.v
UpdateRequest.v
UpdateRequestTheorems.v
Bundle.v
RuntimeSwap.v
Trees.v
RuntimeSwapTheorems.v
HostPaths.v
NodeSetup.v
NodeInstall.v
StagedWrites.v
NodeSetupTheorems.v
UpdateFinish.v
UpdateFinishTheorems.v
NodeSetupSamples.v
DeviceCode.v
Provider.v
ProviderLogins.v
ProviderTheorems.v
ActiveRuns.v
Service.v
ServiceFacts.v
ServiceTheorems.v
ServiceRuns.v
Provisioning.v
ProvisioningTheorems.v
Commands.v
CommandFacts.v
CommandTheorems.v
CommandSafety.v
