(* ===== verification/Prelude.v ===== *)
(** * Asterism Node: a verification development

    Asterism Node ([src/src/*.rs]) runs agent tasks ("runs") for registered
    projects on a host, keeps their history in a SQLite registry, supervises one
    Hermes worker per project, manages the logins to the model provider, updates
    itself, and takes commands from a remote Control Plane over a WebSocket.

    ** Parts and how they interact

    A command arrives as a text frame.  [protocol.rs] decodes and validates it;
    [control.rs] admits it to the inbox ([remote.rs]), executes it and answers
    through the outbox ([remote.rs]) until the Control Plane acknowledges.
    Executing a command goes through the application service ([service.rs]),
    which works on runs, events and approvals ([registry.rs], with [runstate.rs]
    and [runpolicy.rs]) and projects ([inventory.rs]) and starts the workers of
    runs ([runner.rs], [runlock.rs], [sse.rs]); through the logins
    ([provider.rs], [credentials.rs], [credential_homes.rs],
    [credential_runtime.rs], [credential_swap.rs], [providercaps.rs]); through
    the worker manager ([workers.rs], [profiles.rs]) and provisioning
    ([provisioning.rs]); and through the task boards ([workdesk.rs]).  Whatever
    is stored passes through [redact.rs], device codes through
    [device_delivery.rs].  An update is requested by [updaterequest.rs], carried
    out by [nodeinstall.rs], [nodesetup.rs] and [bundle.rs], judged by
    [updatefinish.rs] and [convergence.rs], and journalled by [updateop.rs].

    ** Files

    Foundations.
    - [Prelude]: results, the state-and-error monad, SQL-like table operations
      and their lemmas, the [frame] hint database for "this table is not
      touched".  [Text]: the operations of Rust's [str] the node uses, on bytes,
      with UTF-8 validity.  [Json]: [serde_json::Value], and the crate as the
      classes [SerdeJson] and [SerdeJsonLaws] with a concrete instance [Codec].
      [Fs]: a disk, changed one system call at a time; any call may be refused
      and the process may stop at any of them.  [Trees], [StagedWrites]:
      directories as wholes, and files replaced by renaming.  [Host]: registry,
      disk and service manager as one state, with the class [Supervisor].

    The registry.
    - [RunState] ([runstate.rs], [runpolicy.rs]); [Redact] ([redact.rs]);
      [Identifiers] (the three alphabets of names); [Schema] (the tables);
      [Registry] ([registry.rs]), [Remote] ([remote.rs], [device_delivery.rs])
      and [Inventory] ([inventory.rs]): one definition per method, as a
      computation [M error Db result]; constraints of the tables are checked
      where SQLite checks them, and only [transaction] rolls back.
    - [RegistryFacts], [RemoteFacts], [InventoryFacts]: the invariant of each
      group of tables and that every method keeps it.  [Evolution]: how rows may
      change over time, as preorders; its module [Samples] is a concrete
      registry.  [RegistryTheorems], [RemoteTheorems], [InventoryTheorems]: the
      behaviour of the methods.  [System]: every state-changing method as one
      type [Call], and what holds after any sequence of calls.  [ActiveRuns]:
      which projects have active runs or are in Trash as the registry changes.

    The channel.
    - [Protocol] ([protocol.rs]); [Channel] and [ChannelTheorems] (one session
      of [control.rs]), over the class [Service], the interface to the rest of
      the node, whose laws are [ServiceLaws]; [Workdesk] and [WorkdeskTheorems]
      ([workdesk.rs]).
    - [Commands]: the dispatcher of [control.rs] and every command it executes,
      over the joint state [Daemon].  [CommandFacts]: what each of them may do
      to the registry.  [CommandTheorems]: the node as an instance of the
      channel's [Service] ([node_service]) that satisfies [ServiceLaws].
      [CommandSafety]: commands keep the invariant of the service.

    Runs.
    - [Sse] ([sse.rs], and the loop of [hermes.rs] that feeds it); [RunLock]
      ([runlock.rs]); [Attachments], [ChatHistory];
      [Approvals] ([approvals.rs]); [Runner], [RunnerFacts], [RunnerTheorems]
      ([runner.rs]); [Reconcile] (recovery after a restart).
    - [Service] ([service.rs]); [ServiceFacts], [ServiceTheorems]: its invariant
      and at-most-once decisions; [ServiceRuns]: ownership of runs, routing,
      retries and draining.

    Credentials.
    - [CredentialSwap], [CredentialHomes], [Credentials], [CredentialTheorems]:
      the files and the registry of credentials.  [DeviceCode] and [Provider]
      ([provider.rs]); [ProviderLogins], [ProviderTheorems].

    Projects and workers.
    - [Policy] ([policy.rs]); [Profiles], [ProfileTheorems] ([profiles.rs]);
      [Workers], [WorkerFacts], [WorkerTheorems], [WorkerReauth],
      [WorkerSamples] ([workers.rs]); [Provisioning], [ProvisioningTheorems]
      ([provisioning.rs]).

    Installation and updates.
    - [UpdateOp] ([updateop.rs]); [Convergence] ([convergence.rs]);
      [UpdateRequest], [UpdateRequestTheorems] ([updaterequest.rs],
      [runtimerelease.rs]); [Bundle] ([bundle.rs]); [RuntimeSwap],
      [RuntimeSwapTheorems]; [HostPaths] ([hostsetup.rs]); [NodeSetup],
      [NodeInstall], [NodeSetupTheorems], [NodeSetupSamples] ([nodesetup.rs],
      [nodeinstall.rs]); [UpdateFinish], [UpdateFinishTheorems]
      ([updatefinish.rs], and the part of [main.rs] that performs an update).

    Modules whose names end in [Samples] hold concrete states at which the
    theorems are applied, and sequences whose outcome is not what the source
    says it is.

    ** What the theorems show

    - Over the whole node: the registry invariant holds after every sequence of
      calls, a failed call changes nothing, history is append-only, an
      idempotency key names one run for good; a project that is being changed or
      is in Trash has no live run among its 1000 newest, which is as far as the
      registry looks, whatever commands and other tasks do.  (Two modules write
      to the database beside the registry's methods: see [System.Call].)
    - Channel: a command id is executed at most once whatever is redelivered and
      wherever sessions break off, and valid commands are answered, with an
      answer that tells their outcome and stays in the outbox; the real node
      keeps the laws these are proved from.  Reports of agents reach the outbox
      exactly once and carry what the node minted.
    - Runs: a worker submits at most once and leaves its run ended, following a
      run ends, reconciliation invents no result, automatic and human approvals
      are claimed and forwarded once, a run of another project is unknown to a
      caller, retries are linked, draining ends and refuses new work.
    - Redaction, wire and streams: what is stored of a payload is a placeholder
      or sat where no secret may sit, envelopes without floating-point numbers
      round-trip, the signed transcript is injective, chunk boundaries between
      characters do not matter, terminal colours do not hide a device code.
    - Credentials and logins: a swap refines an abstract slot under any failure;
      at most one login runs and a code belongs to its process; a stale report
      changes nothing; a usable credential is there and private.
    - Projects: ports are reserved exclusively; homes and workspaces are built
      beside their place and moved; the outcome of provisioning is what the
      registry says; reassignments and reauthorizations take or are put back, and
      a reauthorized worker answered at its own endpoint; a setting written to a
      configuration is the only one that changes; operations on workers touch
      their own unit and end.
    - Updates: the runtime tree refines an abstract runtime under any failure,
      the one in which every whole tree is lost included; a completed update was
      verified, with the workers it displaced; a report that the previous
      installation is restored is true where no links are planted; a request is
      acted on at most once; the journal keeps every event whose append
      succeeded, across handovers.

    What a theorem assumes of the other tasks of the node, of git, of links on the
    disk or of clocks is said in its comment; where the code does not see to it,
    a lemma of a [Samples] module shows what happens then.

    ** Parameters and bounds

    [serde_json], SHA-256, uuids, clocks, random bytes, the answers of file
    systems outside the modelled disk, port probes, the service manager, Hermes,
    git, tar, HTTP and the other programs of the host are parameters; what is
    relied on is stated as class laws or hypotheses, and the witnesses
    instantiate them.  What other tasks do in between is an argument as well.
    SQLite is modelled by the table operations, an [i64] overflow included.
    Time is [Z] in the unit of the source.

    Fuel: [Sse.drain_lines] and [Sse.from_utf8_lossy] take the length of the
    text, and each round removes a byte; [Provisioning.ancestry] takes the length
    of the path; [attempt_chain] one unit per run; [follow_rounds],
    [wait_until], [Convergence.rounds], the wait for an installation and
    [drain_rounds] take a number of rounds, and [following_ends],
    [worker_operations_end], [converge_terminates], [installation_wait_ends] and
    [drain_ends_and_refuses] bound the number needed; [give_tree] takes the
    length of the longest path; [reserve_attempts] is the source's own bounded
    loop; everything else is structural.

    ** Not modelled

    Storage I/O errors of SQLite, its pragmas and the upgrade of databases of
    older schema versions; connecting, authenticating, backing off and enrolling
    in [control.rs], and [identity.rs] (keys on disk; signing is a library's);
    the health document, the status page, metrics, notification streams and log
    lines; the transports and the command line ([api.rs], [client.rs],
    [daemon.rs], most of [main.rs]); Docker ([docker.rs]); inspecting a host and
    printing what was found ([hostsetup.rs]), reporting stages of an
    installation ([installreport.rs]); configuration files beyond the settings
    the modelled code reads ([nodehome.rs]); the group of a file; the
    pseudo terminal of a login; the Control Plane, which is another program. *)
From Stdlib Require Import Lia Permutation Sorted.
From stdpp Require Export base list strings numbers option.

(** ** Results, and the state monad of the registry connection *)

Inductive Result (E A : Type) : Type :=
| Ok (a : A)
| Err (e : E).
Arguments Ok {E A} a.
Arguments Err {E A} e.

Definition is_ok {E A} (r : Result E A) : bool :=
  match r with Ok _ => true | Err _ => false end.

(** A fallible computation over a mutable state [S].  An [Err] keeps the state
    reached when it was raised, so rolling back is something a computation has
    to do (see [transaction]), not something the type gives for free. *)
Definition M (E S A : Type) : Type := S -> Result E A * S.

Definition ret {E S A} (a : A) : M E S A := fun s => (Ok a, s).
Definition fail {E S A} (e : E) : M E S A := fun s => (Err e, s).
Definition bind {E S A B} (m : M E S A) (k : A -> M E S B) : M E S B :=
  fun s => match m s with
           | (Ok a, s1) => k a s1
           | (Err e, s1) => (Err e, s1)
           end.
Definition gets {E S A} (f : S -> A) : M E S A := fun s => (Ok (f s), s).
Definition state {E S} : M E S S := fun s => (Ok s, s).
Definition modify {E S} (f : S -> S) : M E S unit := fun s => (Ok tt, f s).
Definition lift {E S A} (r : Result E A) : M E S A := fun s => (r, s).
(** A read-only query that may itself fail. *)
Definition query {E S A} (f : S -> Result E A) : M E S A := fun s => (f s, s).
(** [anyhow::Context] on an option. *)
Definition context {E A} (o : option A) (e : E) : Result E A :=
  match o with Some a => Ok a | None => Err e end.
(** [Connection::transaction]: an error drops the guard, which rolls back. *)
Definition transaction {E S A} (m : M E S A) : M E S A :=
  fun s => match m s with
           | (Ok a, s') => (Ok a, s')
           | (Err e, _) => (Err e, s)
           end.

Declare Scope node_scope.
Delimit Scope node_scope with node.
Notation "'let!' x ':=' m 'in' k" := (bind m (fun x => k))
  (at level 10, x pattern, m at level 100, k at level 200) : node_scope.
Notation "m ';;;' k" := (bind m (fun _ => k))
  (at level 190, right associativity) : node_scope.
#[global] Open Scope node_scope.
#[global] Open Scope Z_scope.

Lemma bind_Ok {E S A B} (m : M E S A) (k : A -> M E S B) s b s' :
  bind m k s = (Ok b, s') <->
  exists a s1, m s = (Ok a, s1) /\ k a s1 = (Ok b, s').
Proof.
  unfold bind. destruct (m s) as [[a|e] s1]; split.
  - eauto.
  - intros (a' & s2 & H & ?). congruence.
  - done.
  - intros (a' & s2 & H & ?). congruence.
Qed.

Lemma transaction_Ok {E S A} (m : M E S A) s a s' :
  transaction m s = (Ok a, s') <-> m s = (Ok a, s').
Proof. unfold transaction. destruct (m s) as [[]]; naive_solver. Qed.

Lemma transaction_Err {E S A} (m : M E S A) s e s' :
  transaction m s = (Err e, s') -> s' = s.
Proof. unfold transaction. destruct (m s) as [[]]; naive_solver. Qed.

(** A relation between states that every atomic step of a computation
    respects, up to rollback, is respected by the whole transaction. *)
Lemma transaction_state {E S A} (P : S -> Prop) (m : M E S A) s :
  P s -> (forall a s', m s = (Ok a, s') -> P s') -> P (snd (transaction m s)).
Proof. unfold transaction. intros ? H. destruct (m s) as [[]]; naive_solver. Qed.

(** *** Frames: what a computation does not touch *)

Definition keeps_view {E S A V} (view : S -> V) (m : M E S A) : Prop :=
  forall s, view (snd (m s)) = view s.

Section Frames.
Context {E S V : Type} (view : S -> V).

Lemma kv_ret {A} (a : A) : keeps_view view (@ret E S A a).
Proof. done. Qed.
Lemma kv_fail {A} (e : E) : keeps_view view (@fail E S A e).
Proof. done. Qed.
Lemma kv_gets {A} (f : S -> A) : keeps_view view (@gets E S A f).
Proof. done. Qed.
Lemma kv_state : keeps_view view (@state E S).
Proof. done. Qed.
Lemma kv_lift {A} (r : Result E A) : keeps_view view (@lift E S A r).
Proof. done. Qed.
Lemma kv_query {A} (f : S -> Result E A) : keeps_view view (@query E S A f).
Proof. done. Qed.
Lemma kv_modify (f : S -> S) : (forall s, view (f s) = view s) -> keeps_view view (@modify E S f).
Proof. intros Hf s. apply Hf. Qed.
Lemma kv_bind {A B} (m : M E S A) (k : A -> M E S B) :
  keeps_view view m -> (forall a, keeps_view view (k a)) -> keeps_view view (bind m k).
Proof.
  intros Hm Hk s. unfold bind. specialize (Hm s). destruct (m s) as [[a|e] s1]; cbn in *; [|done].
  by rewrite Hk.
Qed.
Lemma kv_transaction {A} (m : M E S A) : keeps_view view m -> keeps_view view (transaction m).
Proof. intros Hm s. unfold transaction. specialize (Hm s). by destruct (m s) as [[]]. Qed.
End Frames.

Create HintDb frame.
#[export] Hint Resolve kv_ret kv_fail kv_gets kv_state kv_lift kv_query : frame.

(** Goes through the binds, branches and statements of a method. *)
Ltac frame_solve :=
  repeat (cbv zeta; match goal with
    | |- keeps_view _ (transaction _) => apply kv_transaction
    | |- keeps_view _ (bind _ _) => apply kv_bind; [|intros ?]
    | |- keeps_view _ (modify _) => apply kv_modify; intros ?
    | |- keeps_view _ (match ?x with _ => _ end) => destruct x
    | |- keeps_view _ _ => solve [auto with frame]
    end).

(** ** Tables: what the SQL statements of the source use of SQLite *)

Section Tables.
Context {R : Type}.
Implicit Types (t : list R) (p : R -> bool).

(** [SELECT ... WHERE p], rows in rowid order. *)
Definition select p t : list R := List.filter p t.
(** [query_row(...).optional()]. *)
Definition select_one p t : option R := List.find p t.
(** [UPDATE ... SET f WHERE p]. *)
Definition update_where p (f : R -> R) t : list R :=
  List.map (fun r => if p r then f r else r) t.
(** The number of rows a statement changed. *)
Definition changes p t : nat := length (List.filter p t).
Definition delete_where p t : list R := List.filter (fun r => negb (p r)) t.

(** [ORDER BY], stable. *)
Fixpoint insert_by (le : R -> R -> bool) (x : R) t : list R :=
  match t with
  | [] => [x]
  | y :: t' => if le x y then x :: t else y :: insert_by le x t'
  end.
Definition order_by (le : R -> R -> bool) t : list R :=
  List.fold_right (insert_by le) [] t.
(** [LIMIT n]; a negative limit is no limit. *)
Definition limit (n : Z) t : list R :=
  if n <? 0 then t else firstn (Z.to_nat n) t.

Lemma select_one_Some p t r :
  select_one p t = Some r -> In r t /\ p r = true.
Proof. apply find_some. Qed.

Lemma select_one_None p t r :
  select_one p t = None -> In r t -> p r = false.
Proof. intros H Hin. by apply (find_none _ _ H). Qed.

Lemma select_one_app p t1 t2 :
  select_one p (t1 ++ t2) =
  match select_one p t1 with Some r => Some r | None => select_one p t2 end.
Proof. induction t1 as [|a t1 IH]; cbn; [done|]. by destruct (p a). Qed.

Lemma select_app p t1 t2 : select p (t1 ++ t2) = select p t1 ++ select p t2.
Proof. apply filter_app. Qed.

Lemma In_select p t r : In r (select p t) <-> In r t /\ p r = true.
Proof. apply filter_In. Qed.

Lemma In_update_where p f t r :
  In r (update_where p f t) <->
  exists r0, In r0 t /\ r = if p r0 then f r0 else r0.
Proof. unfold update_where. rewrite in_map_iff. naive_solver. Qed.

(** Updating rows without touching a column leaves that column's list. *)
Lemma map_update_where {B} (g : R -> B) p f t :
  (forall r, In r t -> p r = true -> g (f r) = g r) ->
  List.map g (update_where p f t) = List.map g t.
Proof.
  intros H. unfold update_where. rewrite map_map. apply map_ext_in.
  intros r Hin. destruct (p r) eqn:E; auto.
Qed.

Lemma select_update_where p q f t :
  (forall r, q (f r) = q r) ->
  select q (update_where p f t) = update_where p f (select q t).
Proof.
  intros Hq. unfold select, update_where. induction t as [|r t IH]; cbn; [done|].
  destruct (p r) eqn:Ep; rewrite ?Hq; destruct (q r) eqn:Eq; cbn;
    rewrite ?Ep, IH; done.
Qed.

Lemma select_one_update_where p q f t :
  (forall r, q (f r) = q r) ->
  select_one q (update_where p f t) =
  (fun r => if p r then f r else r) <$> select_one q t.
Proof.
  intros Hq. unfold select_one, update_where. induction t as [|r t IH]; cbn; [done|].
  destruct (p r) eqn:Ep; rewrite ?Hq; destruct (q r) eqn:Eq; cbn;
    rewrite ?Ep; auto.
Qed.

Lemma update_where_id p f t :
  (forall r, In r t -> p r = true -> f r = r) -> update_where p f t = t.
Proof.
  intros H. unfold update_where. rewrite <- (map_id t) at 2. apply map_ext_in.
  intros r Hin. destruct (p r) eqn:E; auto.
Qed.

Lemma length_update_where p f t : length (update_where p f t) = length t.
Proof. apply length_map. Qed.

Lemma insert_by_perm le x t : Permutation (insert_by le x t) (x :: t).
Proof.
  induction t as [|y t IH]; cbn; [done|]. destruct (le x y); [done|].
  rewrite IH. constructor.
Qed.

Lemma order_by_perm le t : Permutation (order_by le t) t.
Proof.
  induction t as [|x t IH]; cbn; [done|].
  etransitivity; [apply insert_by_perm|]. by constructor.
Qed.

Lemma In_order_by le t r : In r (order_by le t) <-> In r t.
Proof.
  split; apply Permutation_in; [|symmetry]; apply order_by_perm.
Qed.

(** Ordering rows that already are in order changes nothing. *)
Lemma order_by_id le t :
  StronglySorted (fun a b => le a b = true) t -> order_by le t = t.
Proof.
  induction 1 as [|x t Hs IH Hall]; [done|].
  change (order_by le (x :: t)) with (insert_by le x (order_by le t)). rewrite IH.
  destruct t as [|y t]; cbn; [done|]. inversion Hall; subst. by rewrite H1.
Qed.

Lemma In_limit n t r : In r (limit n t) -> In r t.
Proof.
  unfold limit. destruct (n <? 0); [done|]. intros H.
  rewrite <- (firstn_skipn (Z.to_nat n) t). apply in_app_iff. auto.
Qed.
End Tables.

Lemma order_by_sorted {R} (le : R -> R -> bool) l :
  (forall a b, le a b = true \/ le b a = true) -> (forall a b c, le a b = true -> le b c = true -> le a c = true) ->
  StronglySorted (fun a b => le a b = true) (order_by le l).
Proof.
  intros Htot Htr. induction l as [|x l IH]; [constructor|].
  change (order_by le (x :: l)) with (insert_by le x (order_by le l)).
  induction IH as [|y t Ht IHt Hy]; cbn [insert_by]; [by repeat constructor|].
  destruct (le x y) eqn:E.
  - constructor; [by constructor|]. constructor; [done|]. eapply List.Forall_impl; [|exact Hy]. eauto.
  - constructor; [done|]. rewrite insert_by_perm. constructor; [|done].
    by destruct (Htot x y); [congruence|].
Qed.

Lemma StronglySorted_weaken {R} (P Q : R -> R -> Prop) l :
  (forall a b, P a b -> Q a b) -> StronglySorted P l -> StronglySorted Q l.
Proof.
  intros HPQ. induction 1 as [|x l _ IH Hx]; constructor; [done|]. eapply List.Forall_impl; [|exact Hx]. eauto.
Qed.

(** ** Unique columns *)

Section Unique.
Context {R B : Type}.
Implicit Types (t : list R) (g : R -> B).

Lemma NoDup_map_inj g t r1 r2 :
  List.NoDup (List.map g t) -> In r1 t -> In r2 t -> g r1 = g r2 -> r1 = r2.
Proof.
  induction t as [|r t IH]; cbn; [done|]. inversion 1 as [|? ? Hn Hnd]; subst.
  intros [->|H1] [->|H2] Heq; auto.
  - exfalso. apply Hn. rewrite Heq. by apply in_map.
  - exfalso. apply Hn. rewrite <- Heq. by apply in_map.
Qed.

Lemma NoDup_map_snoc g t r :
  List.NoDup (List.map g t) -> (forall r', In r' t -> g r' <> g r) ->
  List.NoDup (List.map g (t ++ [r])).
Proof.
  intros Hnd Hf. rewrite map_app. cbn.
  apply (Permutation_NoDup (Permutation_app_comm [g r] _)). cbn.
  constructor; [|done]. rewrite in_map_iff. intros (r' & ? & ?). by apply (Hf r').
Qed.
End Unique.

Lemma NoDup_fmap_filter {A B} (g : A -> B) p (l : list A) :
  NoDup (g <$> l) -> NoDup (g <$> List.filter p l).
Proof.
  rewrite !NoDup_ListNoDup. induction l as [|x l IH]; cbn; [done|].
  inversion 1 as [|? ? Hn Hnd]; subst. destruct (p x); [|auto]. cbn. constructor; [|auto].
  intros (y & Hy & Hin)%in_map_iff. apply Hn. apply in_map_iff. exists y.
  apply filter_In in Hin. naive_solver.
Qed.

(** Two rows that agree on a nullable unique key are the same row. *)
Definition unique_key {R K} (key : R -> option K) (t : list R) : Prop :=
  forall i j r1 r2 k, t !! i = Some r1 -> t !! j = Some r2 ->
    key r1 = Some k -> key r2 = Some k -> i = j.

Lemma unique_key_nil {R K} (key : R -> option K) : unique_key key [].
Proof. intros i j r1 r2 k H. by rewrite lookup_nil in H. Qed.

Lemma unique_key_snoc {R K} (key : R -> option K) (t : list R) r :
  unique_key key t ->
  (forall r' k, In r' t -> key r' = Some k -> key r <> Some k) ->
  unique_key key (t ++ [r]).
Proof.
  intros Hu Hf i j r1 r2 k Hi Hj H1 H2.
  apply lookup_app_Some in Hi as [Hi|[Hi1 Hi2]], Hj as [Hj|[Hj1 Hj2]].
  - eauto.
  - apply list_lookup_singleton_Some in Hj2 as [? ->].
    exfalso. eapply Hf; [|apply H1|apply H2].
    apply list_elem_of_In, list_elem_of_lookup; eauto.
  - apply list_lookup_singleton_Some in Hi2 as [? ->].
    exfalso. eapply Hf; [|apply H2|apply H1].
    apply list_elem_of_In, list_elem_of_lookup; eauto.
  - apply list_lookup_singleton_Some in Hi2 as [? ->], Hj2 as [? ->]. lia.
Qed.

(** An update that keeps the key everywhere keeps its uniqueness. *)
Lemma unique_key_update {R K} (key : R -> option K) p f (t : list R) :
  unique_key key t -> (forall r, In r t -> p r = true -> key (f r) = key r) ->
  unique_key key (update_where p f t).
Proof.
  intros Hu Hk i j r1 r2 k Hi Hj H1 H2. unfold update_where in Hi, Hj.
  change (List.map ?g ?l) with (g <$> l) in Hi, Hj.
  apply list_lookup_fmap_Some in Hi as (a & -> & Hi), Hj as (b & -> & Hj).
  assert (key (if p a then f a else a) = key a) as E1.
  { destruct (p a) eqn:E; [|done]. apply Hk; [|done].
    apply list_elem_of_In, list_elem_of_lookup; eauto. }
  assert (key (if p b then f b else b) = key b) as E2.
  { destruct (p b) eqn:E; [|done]. apply Hk; [|done].
    apply list_elem_of_In, list_elem_of_lookup; eauto. }
  rewrite E1 in H1. rewrite E2 in H2. eauto.
Qed.

(** ** Lists *)

Lemma forallb_map {A B} (f : B -> bool) (g : A -> B) l :
  List.forallb f (List.map g l) = List.forallb (fun x => f (g x)) l.
Proof. induction l as [|x l IH]; cbn; [done|]. by rewrite IH. Qed.

Lemma fold_right_map {A B C} (f : B -> C -> C) (g : A -> B) c l :
  List.fold_right f c (List.map g l) = List.fold_right (fun x => f (g x)) c l.
Proof. induction l as [|x l IH]; cbn; [done|]. by rewrite IH. Qed.

Lemma existsb_false {A} (f : A -> bool) l :
  List.existsb f l = false <-> forall x, In x l -> f x = false.
Proof.
  induction l as [|y l IH]; cbn; [naive_solver|]. rewrite orb_false_iff, IH. naive_solver.
Qed.

Lemma map_id_in {A} (f : A -> A) l : (forall x, In x l -> f x = x) -> List.map f l = l.
Proof. intros H. rewrite <- (List.map_id l) at 2. by apply map_ext_in. Qed.

(** Splits the outermost conditional of the goal. *)
Ltac split_if :=
  match goal with |- context [if ?b then _ else _] => destruct b eqn:? end.
Ltac split_if_in H :=
  match type of H with context [if ?b then _ else _] => destruct b eqn:? end.
