(* ===== verification/Text.v ===== *)
(** * Text: the part of Rust's [str] the node uses.

    A [&str] is its UTF-8 bytes.  [string] (Stdlib) is used where the source
    only compares, stores and measures text; [bytes] (a list of [ascii], one
    per byte) where it scans text.  Every operation works on bytes: the
    patterns searched for are ASCII or complete UTF-8 sequences, and on valid
    UTF-8 such a pattern matches bytes exactly where it matches characters. *)
From Stdlib Require Import Lia.
From stdpp Require Import pretty.
From S2P Require Import Prelude.

Abbreviation bytes := (list Ascii.ascii).
Abbreviation chars := String.list_ascii_of_string.
Abbreviation of_chars := String.string_of_list_ascii.

Notation "'$' s" := (String.list_ascii_of_string s%string)
  (at level 1, s constr at level 0, only parsing) : node_scope.

Definition code (c : Ascii.ascii) : N := Ascii.N_of_ascii c.
Definition char_eqb (a b : Ascii.ascii) : bool := Ascii.eqb a b.
Definition between (lo hi : N) (c : Ascii.ascii) : bool :=
  (lo <=? code c)%N && (code c <=? hi)%N.

(** ** Character classes ([char::is_ascii_*], [char::is_whitespace]) *)

Definition is_ascii_digit : Ascii.ascii -> bool := between 48 57.
Definition is_ascii_upper : Ascii.ascii -> bool := between 65 90.
Definition is_ascii_lower : Ascii.ascii -> bool := between 97 122.
Definition is_ascii_alphabetic (c : Ascii.ascii) : bool :=
  is_ascii_upper c || is_ascii_lower c.
Definition is_ascii_alphanumeric (c : Ascii.ascii) : bool :=
  is_ascii_alphabetic c || is_ascii_digit c.
Definition to_ascii_lowercase (c : Ascii.ascii) : Ascii.ascii :=
  if is_ascii_upper c then Ascii.ascii_of_N (code c + 32) else c.

(** Unicode white space by the length of its UTF-8 encoding. *)
Definition ws1 (a : Ascii.ascii) : bool := between 9 13 a || (code a =? 32)%N.
Definition ws2 (a b : Ascii.ascii) : bool :=
  (code a =? 194)%N && ((code b =? 133)%N || (code b =? 160)%N).
Definition ws3 (a b c : Ascii.ascii) : bool :=
  ((code a =? 225)%N && (code b =? 154)%N && (code c =? 128)%N)
  || ((code a =? 226)%N && (code b =? 128)%N
      && (between 128 138 c || (code c =? 168)%N || (code c =? 169)%N || (code c =? 175)%N))
  || ((code a =? 226)%N && (code b =? 129)%N && (code c =? 159)%N)
  || ((code a =? 227)%N && (code b =? 128)%N && (code c =? 128)%N).

(** [str::trim_start]; [swap] reads the encodings backwards, for [trim_end]. *)
Fixpoint trim_by (swap : bool) (s : bytes) : bytes :=
  match s with
  | [] => []
  | a :: s1 =>
      if ws1 a then trim_by swap s1 else
      match s1 with
      | [] => s
      | b :: s2 =>
          if (if swap then ws2 b a else ws2 a b) then trim_by swap s2 else
          match s2 with
          | [] => s
          | c :: s3 =>
              if (if swap then ws3 c b a else ws3 a b c) then trim_by swap s3 else s
          end
      end
  end.
Definition trim_start (s : bytes) : bytes := trim_by false s.
Definition trim_end (s : bytes) : bytes := List.rev (trim_by true (List.rev s)).
Definition trim (s : bytes) : bytes := trim_end (trim_start s).

(** Whether a white space character occurs anywhere
    ([str::contains(char::is_whitespace)]). *)
Fixpoint has_whitespace (s : bytes) : bool :=
  match s with
  | [] => false
  | a :: s1 =>
      ws1 a
      || match s1 with
         | b :: s2 =>
             ws2 a b || match s2 with c :: _ => ws3 a b c | [] => false end
         | [] => false
         end
      || has_whitespace s1
  end.

(** [str::split_whitespace]: the non-empty pieces between white space. *)
Definition piece (acc : bytes) : list bytes := match acc with [] => [] | _ => [acc] end.
Fixpoint split_ws_from (acc s : bytes) : list bytes :=
  match s with
  | [] => piece acc
  | a :: s1 =>
      if ws1 a then piece acc ++ split_ws_from [] s1 else
      match s1 with
      | [] => split_ws_from (acc ++ [a]) s1
      | b :: s2 =>
          if ws2 a b then piece acc ++ split_ws_from [] s2 else
          match s2 with
          | [] => split_ws_from (acc ++ [a]) s1
          | c :: s3 =>
              if ws3 a b c then piece acc ++ split_ws_from [] s3
              else split_ws_from (acc ++ [a]) s1
          end
      end
  end.
Definition split_whitespace (s : bytes) : list bytes := split_ws_from [] s.

(** Whether a control character occurs ([char::is_control]: U+0000 to U+001F
    and U+007F to U+009F). *)
Fixpoint has_control (s : bytes) : bool :=
  match s with
  | [] => false
  | a :: s1 =>
      between 0 31 a || (code a =? 127)%N
      || match s1 with b :: _ => (code a =? 194)%N && between 128 159 b | [] => false end
      || has_control s1
  end.

(** ** Searching *)

Fixpoint strip_prefix (p s : bytes) : option bytes :=
  match p, s with
  | [], _ => Some s
  | _ :: _, [] => None
  | a :: p', b :: s' => if char_eqb a b then strip_prefix p' s' else None
  end.
Definition starts_with (p s : bytes) : bool :=
  match strip_prefix p s with Some _ => true | None => false end.
Definition ends_with (p s : bytes) : bool :=
  starts_with (List.rev p) (List.rev s).
Fixpoint contains (p s : bytes) : bool :=
  starts_with p s || match s with [] => false | _ :: s' => contains p s' end.

(** [str::split_once] on one character. *)
Fixpoint split_once (d : Ascii.ascii) (s : bytes) : option (bytes * bytes) :=
  match s with
  | [] => None
  | c :: s' =>
      if char_eqb c d then Some ([], s')
      else match split_once d s' with
           | Some (a, b) => Some (c :: a, b)
           | None => None
           end
  end.

(** [str::split_once] on a text. *)
Fixpoint split_once_str (p s : bytes) : option (bytes * bytes) :=
  match strip_prefix p s with
  | Some rest => Some ([], rest)
  | None => match s with
            | [] => None
            | c :: s' => match split_once_str p s' with
                         | Some (a, b) => Some (c :: a, b)
                         | None => None
                         end
            end
  end.

(** The first piece of [str::split] on a class of characters. *)
Fixpoint take_until (f : Ascii.ascii -> bool) (s : bytes) : bytes :=
  match s with
  | [] => []
  | c :: s' => if f c then [] else c :: take_until f s'
  end.

(** [str::split] on one character. *)
Fixpoint split_from (d : Ascii.ascii) (acc s : bytes) : list bytes :=
  match s with
  | [] => [acc]
  | c :: s' => if char_eqb c d then acc :: split_from d [] s' else split_from d (acc ++ [c]) s'
  end.
Definition split (d : Ascii.ascii) (s : bytes) : list bytes := split_from d [] s.

(** [trim_start_matches]/[trim_end_matches]/[trim_matches] on a class. *)
Fixpoint drop_while (f : Ascii.ascii -> bool) (s : bytes) : bytes :=
  match s with
  | [] => []
  | c :: s' => if f c then drop_while f s' else s
  end.
Definition trim_end_matches (f : Ascii.ascii -> bool) (s : bytes) : bytes :=
  List.rev (drop_while f (List.rev s)).
Definition trim_matches (f : Ascii.ascii -> bool) (s : bytes) : bytes :=
  trim_end_matches f (drop_while f s).

(** ** Lines *)

Definition NL : Ascii.ascii := Ascii.ascii_of_N 10.
Definition CR : Ascii.ascii := Ascii.ascii_of_N 13.
Definition SP : Ascii.ascii := Ascii.ascii_of_N 32.
Definition TAB : Ascii.ascii := Ascii.ascii_of_N 9.

(** Drop one trailing carriage return. *)
Fixpoint strip_cr (l : bytes) : bytes :=
  match l with
  | [] => []
  | [c] => if char_eqb c CR then [] else [c]
  | c :: l' => c :: strip_cr l'
  end.

(** [str::lines]: a line ends at a line feed, which goes with the carriage
    return before it; text after the last line feed is a line when not empty. *)
Fixpoint lines_from (acc : bytes) (s : bytes) : list bytes :=
  match s with
  | [] => match acc with [] => [] | _ => [acc] end
  | c :: s' =>
      if char_eqb c NL then strip_cr acc :: lines_from [] s'
      else lines_from (acc ++ [c]) s'
  end.
Definition lines (s : bytes) : list bytes := lines_from [] s.

(** Every line followed by a newline. *)
Definition unlines (ls : list bytes) : bytes := List.concat (List.map (fun l => l ++ [NL]) ls).
Definition join (sep : bytes) (ls : list bytes) : bytes :=
  match ls with
  | [] => []
  | l :: ls' => l ++ List.concat (List.map (fun x => sep ++ x) ls')
  end.

(** ** Text kept as [string] *)

Definition len (s : string) : Z := Z.of_nat (String.length s).
Definition all_chars (f : Ascii.ascii -> bool) (s : string) : bool :=
  List.forallb f (chars s).
Definition str_contains (p s : string) : bool := contains (chars p) (chars s).
Definition str_starts_with (p s : string) : bool := starts_with (chars p) (chars s).

(** Decimal rendering of an integer ([ToString] for the integer types). *)
Definition decimal (z : Z) : string := pretty z.

(** [u16::from_str]: an optional [+], then digits, refused above 65535. *)
Fixpoint digits_from (acc : Z) (s : bytes) : option Z :=
  match s with
  | [] => Some acc
  | c :: s' =>
      if is_ascii_digit c then
        let v := acc * 10 + (Z.of_N (code c) - 48) in
        if v <=? 65535 then digits_from v s' else None
      else None
  end.
Definition parse_u16 (s : bytes) : option Z :=
  match s with
  | [] => None
  | c :: s' =>
      if (code c =? 43)%N then match s' with [] => None | _ => digits_from 0 s' end
      else digits_from 0 s
  end.

(** Lower-case hexadecimal, [width] digits ([format!("{:0width$x}")]). *)
Definition hex_digit (d : Z) : Ascii.ascii :=
  Ascii.ascii_of_N (Z.to_N (if d <? 10 then 48 + d else 87 + d)).
Fixpoint hex_fixed (width : nat) (z : Z) : bytes :=
  match width with
  | O => []
  | S w => hex_fixed w (Z.shiftr z 4) ++ [hex_digit (Z.land z 15)]
  end.

(** ** Facts *)

Lemma char_eqb_eq a b : char_eqb a b = true <-> a = b.
Proof. apply Ascii.eqb_eq. Qed.

Lemma char_eqb_refl a : char_eqb a a = true.
Proof. by apply char_eqb_eq. Qed.

Lemma char_eqb_neq a b : char_eqb a b = false <-> a <> b.
Proof. apply Ascii.eqb_neq. Qed.

Lemma strip_prefix_app p s : strip_prefix p (p ++ s) = Some s.
Proof. induction p as [|a p IH]; cbn; [done|]. by rewrite char_eqb_refl. Qed.

Lemma strip_prefix_Some p s r : strip_prefix p s = Some r <-> s = p ++ r.
Proof.
  split; [|intros ->; apply strip_prefix_app].
  revert s. induction p as [|a p IH]; intros [|b s]; cbn; [congruence..|].
  destruct (char_eqb a b) eqn:E; [|done]. apply char_eqb_eq in E as ->.
  intros ->%IH. done.
Qed.

Lemma starts_with_app p s : starts_with p (p ++ s) = true.
Proof. unfold starts_with. by rewrite strip_prefix_app. Qed.

Lemma starts_with_true p s : starts_with p s = true <-> exists r, s = p ++ r.
Proof.
  unfold starts_with. destruct (strip_prefix p s) as [r|] eqn:E.
  - apply strip_prefix_Some in E. split; eauto.
  - split; [done|]. intros [r ->]. by rewrite strip_prefix_app in E.
Qed.

Lemma contains_app a p b : contains p (a ++ p ++ b) = true.
Proof.
  induction a as [|c a IH].
  - pose proof (starts_with_app p b) as H. cbn [app]. destruct (p ++ b); cbn [contains]; by rewrite H.
  - cbn [contains app]. by rewrite IH, orb_true_r.
Qed.

Lemma split_once_Some d s a b :
  split_once d s = Some (a, b) <-> s = a ++ d :: b /\ ~ In d a.
Proof.
  revert a b. induction s as [|c s IH]; intros a b; cbn.
  { split; [done|]. intros [H _]. by destruct a. }
  destruct (char_eqb c d) eqn:E.
  - apply char_eqb_eq in E as ->. split.
    + intros [= <- <-]. split; [done|]. intros [].
    + intros [H Hn]. destruct a as [|x a]; cbn in *; [congruence|].
      injection H as -> ?. naive_solver.
  - apply char_eqb_neq in E. destruct (split_once d s) as [[a' b']|] eqn:Es.
    + assert (s = a' ++ d :: b' /\ ~ In d a') as [-> Hn] by (apply IH; done).
      split.
      * intros [= <- <-]. split; [done|]. intros [->|?]; done.
      * intros [H Hn']. destruct a as [|x a]; cbn in *; [congruence|].
        injection H as -> H.
        assert (Some (a', b') = Some (a, b)) as [= -> ->]; [|done].
        apply IH. naive_solver.
    + split; [done|]. intros [H Hn]. destruct a as [|x a]; cbn in *; [congruence|].
      injection H as -> H. exfalso.
      assert (None = Some (a, b)) as ?; [|done]. apply IH. naive_solver.
Qed.

Lemma split_from_app d acc a b :
  ~ In d a -> split_from d acc (a ++ d :: b) = (acc ++ a) :: split_from d [] b.
Proof.
  revert acc. induction a as [|c a IH]; intros acc Hn; cbn [app split_from].
  - by rewrite char_eqb_refl, app_nil_r.
  - rewrite (proj2 (char_eqb_neq c d)) by (intros ->; apply Hn; by left).
    rewrite IH by (intros ?; apply Hn; by right). by rewrite <- app_assoc.
Qed.

Lemma split_from_last d acc a : ~ In d a -> split_from d acc a = [acc ++ a].
Proof.
  revert acc. induction a as [|c a IH]; intros acc Hn; cbn [split_from]; [by rewrite app_nil_r|].
  rewrite (proj2 (char_eqb_neq c d)) by (intros ->; apply Hn; by left).
  rewrite IH by (intros ?; apply Hn; by right). by rewrite <- app_assoc.
Qed.

(** A separator splits a text into the pieces of its two sides. *)
Lemma split_from_sep d acc a b :
  split_from d acc (a ++ d :: b) = split_from d acc a ++ split_from d [] b.
Proof.
  revert acc. induction a as [|c a IH]; intros acc; cbn [app split_from].
  - by rewrite char_eqb_refl.
  - destruct (char_eqb c d); cbn [app]; by rewrite IH.
Qed.

Lemma split_once_str_Some p s a b : split_once_str p s = Some (a, b) -> s = a ++ p ++ b.
Proof.
  revert a b. induction s as [|c s IH]; intros a b; cbn [split_once_str];
    (destruct (strip_prefix p _) as [r|] eqn:E; [apply strip_prefix_Some in E; intros [= <- <-]; exact E|]).
  - done.
  - destruct (split_once_str p s) as [[a' b']|]; [|done]. intros [= <- <-]. cbn. f_equal. auto.
Qed.

Lemma take_until_spec f s :
  exists r, s = take_until f s ++ r /\ Forall (fun c => f c = false) (take_until f s)
            /\ match r with [] => True | c :: _ => f c = true end.
Proof.
  induction s as [|c s (r & E & Hf & Hr)]; [by exists []|]. cbn [take_until].
  destruct (f c) eqn:Ec; [by exists (c :: s)|]. exists r. cbn. rewrite <- E. auto.
Qed.

Lemma take_until_app f a c b :
  Forall (fun c => f c = false) a -> f c = true -> take_until f (a ++ c :: b) = a.
Proof.
  intros Ha Hc. induction Ha as [|x a Hx _ IH]; cbn [take_until app]; [by rewrite Hc|].
  rewrite Hx. by f_equal.
Qed.

Lemma chars_of_chars s : of_chars (chars s) = s.
Proof. apply String.string_of_list_ascii_of_string. Qed.

Lemma of_chars_chars l : chars (of_chars l) = l.
Proof. apply String.list_ascii_of_string_of_list_ascii. Qed.

Lemma length_chars s : length (chars s) = String.length s.
Proof. induction s; cbn; auto. Qed.

Lemma chars_append a b : chars (a +:+ b) = chars a ++ chars b.
Proof.
  induction a as [|c a IH]; [done|].
  change (chars (String c a +:+ b)) with (c :: chars (a +:+ b)). by rewrite IH.
Qed.

Lemma string_length_append a b : String.length (a +:+ b) = (String.length a + String.length b)%nat.
Proof.
  induction a as [|c a IH]; [done|].
  change (String.length (String c a +:+ b)) with (S (String.length (a +:+ b))). by rewrite IH.
Qed.

Lemma length_hex_fixed w z : length (hex_fixed w z) = w.
Proof. revert z. induction w as [|w IH]; intros z; cbn; [done|]. rewrite length_app, IH. cbn. lia. Qed.

(** ** Decimal text *)

Lemma digit_char d :
  (d < 10)%N -> is_ascii_digit (pretty_N_char d) = true
  /\ Z.of_N (code (pretty_N_char d)) - 48 = Z.of_N d.
Proof.
  intros Hd.
  assert (In d [0; 1; 2; 3; 4; 5; 6; 7; 8; 9]%N) as Hin by (cbn; lia).
  cbn in Hin. repeat destruct Hin as [<-|Hin]; done.
Qed.

(** Reading back what was written, digit by digit. *)
Lemma digits_from_pretty x s :
  (x <= 65535)%N -> digits_from 0 (chars (pretty_N_go x s)) = digits_from (Z.of_N x) (chars s).
Proof.
  revert s. induction (N.lt_wf_0 x) as [x _ IH]; intros s Hx.
  destruct (decide (x = 0%N)) as [->|Hne]; [by rewrite pretty_N_go_0|].
  rewrite pretty_N_go_step by lia. rewrite IH.
  2: apply N.div_lt; lia.
  2: { etransitivity; [apply N.Div0.div_le_upper_bound with (q := x); lia|done]. }
  destruct (digit_char (x mod 10)) as [Hd Hv]; [by apply N.mod_lt|].
  cbn [String.list_ascii_of_string digits_from]. rewrite Hd, Hv.
  assert (Z.of_N (x / 10) * 10 + Z.of_N (x mod 10) = Z.of_N x) as ->.
  { pose proof (N.div_mod' x 10). lia. }
  by rewrite (proj2 (Z.leb_le _ _)) by lia.
Qed.

Lemma pretty_digits x s :
  all_chars is_ascii_digit s = true -> all_chars is_ascii_digit (pretty_N_go x s) = true.
Proof.
  revert s. induction (N.lt_wf_0 x) as [x _ IH]; intros s Hs.
  destruct (decide (x = 0%N)) as [->|Hne]; [by rewrite pretty_N_go_0|].
  rewrite pretty_N_go_step by lia. apply IH; [apply N.div_lt; lia|].
  unfold all_chars in *. cbn. rewrite Hs, andb_true_r. apply digit_char. by apply N.mod_lt.
Qed.

Lemma decimal_u16 z :
  0 <= z <= 65535 ->
  parse_u16 (chars (decimal z)) = Some z /\ all_chars is_ascii_digit (decimal z) = true.
Proof.
  intros Hz. destruct z as [|p|p]; [done| |lia].
  assert (decimal (Z.pos p) = pretty_N_go (N.pos p) "") as -> by done.
  pose proof (pretty_digits (N.pos p) "" eq_refl) as Hd.
  pose proof (digits_from_pretty (N.pos p) "") as Hv. split; [|done].
  specialize (Hv ltac:(lia)). cbn [String.list_ascii_of_string digits_from] in Hv.
  change (Some (Z.pos p)) with (Some (Z.of_N (N.pos p))). rewrite <- Hv. unfold parse_u16, all_chars in *.
  destruct (chars (pretty_N_go (N.pos p) "")) as [|c l] eqn:E.
  - done.
  - cbn in Hd. apply andb_true_iff in Hd as [Hc _].
    destruct (N.eqb_spec (code c) 43) as [Hp|]; [|done].
    unfold is_ascii_digit, between in Hc. by rewrite Hp in Hc.
Qed.

(** ** Text without white space *)

Definition plain_char (c : Ascii.ascii) : bool := between 33 127 c.

Lemma plain_char_ws a b c :
  plain_char a = true -> plain_char b = true -> plain_char c = true ->
  ws1 a = false /\ ws2 a b = false /\ ws3 a b c = false.
Proof.
  unfold plain_char, between, ws1, ws2, ws3. rewrite !andb_true_iff, !N.leb_le. intros Ha Hb Hc.
  destruct (N.eqb_spec (code a) 194), (N.eqb_spec (code a) 225), (N.eqb_spec (code a) 226),
    (N.eqb_spec (code a) 227), (N.eqb_spec (code a) 32); try lia.
  cbn. split; [|done]. rewrite orb_false_r. unfold between.
  by rewrite (proj2 (N.leb_gt (code a) 13)), andb_false_r by lia.
Qed.

Lemma trim_by_head swap a s : plain_char a = true -> trim_by swap (a :: s) = a :: s.
Proof.
  unfold plain_char, between. rewrite andb_true_iff, !N.leb_le. intros Ha. cbn [trim_by].
  assert (forall b, ws1 a = false /\ ws2 a b = false /\ ws2 b a = false) as H2.
  { intros b. unfold ws1, ws2, between. rewrite (proj2 (N.leb_gt (code a) 13)), andb_false_r by lia.
    rewrite !(proj2 (N.eqb_neq (code a) _)) by lia. by rewrite andb_false_r. }
  assert (forall b c, ws3 a b c = false /\ ws3 c b a = false) as H3.
  { intros b c. unfold ws3, between. rewrite !(proj2 (N.eqb_neq (code a) _)) by lia.
    rewrite (proj2 (N.leb_gt 128 (code a))) by lia. cbn. by rewrite !andb_false_r. }
  destruct (H2 a) as (-> & _ & _). destruct s as [|b s]; [done|]. destruct (H2 b) as (_ & -> & ->).
  destruct s as [|c s]; [by destruct swap|]. destruct (H3 b c) as [-> ->]. by destruct swap.
Qed.

Lemma has_whitespace_plain s : List.forallb plain_char s = true -> has_whitespace s = false.
Proof.
  induction s as [|a s IH]; cbn; [done|]. intros [Ha Hs]%andb_true_iff.
  rewrite (IH Hs), orb_false_r. destruct (plain_char_ws a a a) as (-> & _ & _); [done..|].
  destruct s as [|b [|c s]]; cbn in Hs; rewrite ?andb_true_iff in Hs; [done|..];
    destruct_and?; destruct (plain_char_ws a b b) as (_ & E2 & _); try done; rewrite E2; [done|].
  by destruct (plain_char_ws a b c) as (_ & _ & ->).
Qed.

Lemma trim_by_plain swap s : List.forallb plain_char s = true -> trim_by swap s = s.
Proof.
  destruct s as [|a [|b [|c s]]]; cbn; rewrite ?andb_true_iff; [done|..]; intros; destruct_and?.
  - by destruct (plain_char_ws a a a) as (-> & _).
  - destruct (plain_char_ws a b b) as (-> & E1 & _), (plain_char_ws b a a) as (_ & E2 & _); try done.
    by destruct swap; rewrite ?E1, ?E2.
  - destruct (plain_char_ws a b c) as (-> & E1 & E3), (plain_char_ws b a a) as (_ & E2 & _),
      (plain_char_ws c b a) as (_ & _ & E4); try done.
    by destruct swap; rewrite ?E1, ?E2, ?E3, ?E4.
Qed.

Lemma trim_plain s : List.forallb plain_char s = true -> trim s = s.
Proof.
  intros Hs. unfold trim, trim_end, trim_start. rewrite (trim_by_plain false) by done.
  rewrite trim_by_plain; [apply rev_involutive|].
  rewrite forallb_forall in *. intros c Hc%in_rev. auto.
Qed.

(** Trimming never removes a plain character. *)
Lemma plain_not_ws a x y :
  plain_char a = true ->
  ws1 a = false /\ ws2 a x = false /\ ws2 x a = false
  /\ ws3 a x y = false /\ ws3 x a y = false /\ ws3 x y a = false.
Proof.
  unfold plain_char, between. rewrite andb_true_iff, !N.leb_le. intros Ha.
  unfold ws1, ws2, ws3, between. rewrite (proj2 (N.leb_gt (code a) 13)), andb_false_r by lia.
  rewrite (proj2 (N.leb_gt 128 (code a))) by lia.
  rewrite !(proj2 (N.eqb_neq (code a) _)) by lia. cbn. rewrite !andb_false_r. done.
Qed.

Lemma trim_by_keeps swap a s : plain_char a = true -> In a s -> In a (trim_by swap s).
Proof.
  intros Ha. remember (length s) as n eqn:Hn. assert (length s <= n)%nat as Hle by lia. clear Hn.
  revert s Hle. induction n as [|n IH]; intros s Hle Hin; [by destruct s; [|cbn in Hle; lia]|].
  destruct s as [|x s1]; [done|]. cbn [trim_by length] in *.
  destruct (ws1 x) eqn:E1.
  { apply IH; [lia|]. destruct Hin as [->|?]; [|done].
    by rewrite (proj1 (plain_not_ws a a a Ha)) in E1. }
  destruct s1 as [|y s2]; [done|]. cbn [length] in *.
  destruct (if swap then ws2 y x else ws2 x y) eqn:E2.
  { apply IH; [lia|]. pose proof (plain_not_ws a x x Ha) as (_ & P1 & P2 & _).
    pose proof (plain_not_ws a y y Ha) as (_ & Q1 & Q2 & _).
    destruct Hin as [->|[->|?]]; [destruct swap; congruence..|done]. }
  destruct s2 as [|z s3]; [done|]. cbn [length] in *.
  destruct (if swap then ws3 z y x else ws3 x y z) eqn:E3; [|done].
  apply IH; [lia|]. pose proof (plain_not_ws a y z Ha) as (_ & _ & _ & P1 & _ & _).
  pose proof (plain_not_ws a z y Ha) as (_ & _ & _ & _ & _ & P2).
  pose proof (plain_not_ws a x z Ha) as (_ & _ & _ & _ & Q1 & _).
  pose proof (plain_not_ws a z x Ha) as (_ & _ & _ & _ & Q2 & _).
  pose proof (plain_not_ws a x y Ha) as (_ & _ & _ & _ & _ & R1).
  pose proof (plain_not_ws a y x Ha) as (_ & _ & _ & R2 & _ & _).
  destruct Hin as [->|[->|[->|?]]]; [destruct swap; congruence..|done].
Qed.

Lemma trim_keeps a s : plain_char a = true -> In a s -> In a (trim s).
Proof.
  intros Ha Hin. unfold trim, trim_end, trim_start. rewrite <- in_rev.
  apply trim_by_keeps; [done|]. rewrite <- in_rev. by apply trim_by_keeps.
Qed.

(** Trimming twice is trimming once. *)
Definition no_ws_head (swap : bool) (s : bytes) : Prop :=
  match s with
  | [] => True
  | a :: s1 => ws1 a = false /\
      match s1 with
      | [] => True
      | b :: s2 => (if swap then ws2 b a else ws2 a b) = false /\
          match s2 with
          | [] => True
          | c :: _ => (if swap then ws3 c b a else ws3 a b c) = false
          end
      end
  end.

Lemma trim_by_no_ws swap s : no_ws_head swap (trim_by swap s).
Proof.
  remember (length s) as n eqn:Hn. assert (length s <= n)%nat as Hle by lia. clear Hn. revert s Hle.
  induction n as [|n IH]; intros s Hle; [by destruct s; [|cbn in Hle; lia]|].
  destruct s as [|a s1]; [done|]. cbn [trim_by length] in *.
  destruct (ws1 a) eqn:E1; [apply IH; lia|]. destruct s1 as [|b s2]; [by cbn|]. cbn [length] in *.
  destruct (if swap then _ else _) eqn:E2; [apply IH; lia|]. destruct s2 as [|c s3]; [by cbn|].
  cbn [length] in *. destruct (if swap then ws3 c b a else _) eqn:E3; [apply IH; lia|by cbn].
Qed.

Lemma trim_by_fixed swap s : no_ws_head swap s -> trim_by swap s = s.
Proof.
  destruct s as [|a [|b [|c s]]]; cbn [no_ws_head trim_by]; [done|by intros [-> _]|..].
  - by intros (-> & -> & _).
  - by intros (-> & -> & ->).
Qed.

Lemma trim_by_suffix swap s : exists p, s = p ++ trim_by swap s.
Proof.
  remember (length s) as n eqn:Hn. assert (length s <= n)%nat as Hle by lia. clear Hn. revert s Hle.
  induction n as [|n IH]; intros s Hle; [by destruct s; [exists []|cbn in Hle; lia]|].
  destruct s as [|a s1]; [by exists []|]. cbn [trim_by length] in *.
  destruct (ws1 a); [destruct (IH s1) as [p Hp]; [lia|]; exists (a :: p); cbn; by f_equal|].
  destruct s1 as [|b s2]; [by exists []|]. cbn [length] in *.
  destruct (if swap then _ else _); [destruct (IH s2) as [p Hp]; [lia|]; exists (a :: b :: p); cbn; by do 2 f_equal|].
  destruct s2 as [|c s3]; [by exists []|]. cbn [length] in *.
  destruct (if swap then ws3 c b a else _); [|by exists []].
  destruct (IH s3) as [p Hp]; [lia|]. exists (a :: b :: c :: p). cbn. by do 3 f_equal.
Qed.

Lemma no_ws_prefix swap a b : no_ws_head swap (a ++ b) -> no_ws_head swap a.
Proof. destruct a as [|x [|y [|z a]]]; cbn; tauto. Qed.

Lemma trim_idem s : trim (trim s) = trim s.
Proof.
  unfold trim at 1. assert (trim_start (trim s) = trim s) as ->.
  { apply trim_by_fixed. destruct (trim_by_suffix true (List.rev (trim_start s))) as [p Hp].
    pose proof (trim_by_no_ws false s) as Hs. fold (trim_start s) in Hs.
    rewrite <- (rev_involutive (trim_start s)), Hp, rev_app_distr in Hs. by apply no_ws_prefix in Hs. }
  unfold trim, trim_end at 1. unfold trim_end at 1. rewrite rev_involutive.
  rewrite (trim_by_fixed true); [done|apply trim_by_no_ws].
Qed.

(** What is left lies in the text. *)
Lemma trim_infix s : exists a b, s = a ++ trim s ++ b.
Proof.
  destruct (trim_by_suffix false s) as [p Hp]. fold (trim_start s) in Hp.
  destruct (trim_by_suffix true (List.rev (trim_start s))) as [q Hq].
  exists p, (List.rev q). rewrite Hp at 1. f_equal. unfold trim, trim_end.
  rewrite <- rev_app_distr, <- Hq. by rewrite rev_involutive.
Qed.

Lemma split_ws_plain_word acc w s :
  List.forallb plain_char w = true ->
  split_ws_from acc (w ++ SP :: s) = piece (acc ++ w) ++ split_ws_from [] s.
Proof.
  revert acc. induction w as [|a w IH]; intros acc Hw.
  - rewrite app_nil_r. reflexivity.
  - cbn [List.forallb] in Hw. apply andb_true_iff in Hw as [Ha Hw].
    assert (forall b c, ws1 a = false /\ ws2 a b = false /\ ws3 a b c = false) as Hws.
    { intros b c. unfold plain_char, between in Ha. apply andb_true_iff in Ha as [H1 H2].
      apply N.leb_le in H1, H2. unfold ws1, ws2, ws3, between.
      rewrite (proj2 (N.leb_gt (code a) 13)), andb_false_r by lia.
      by rewrite !(proj2 (N.eqb_neq (code a) _)) by lia. }
    specialize (IH (acc ++ [a]) Hw). rewrite <- app_assoc in IH. cbn [app] in IH.
    rewrite <- IH. clear IH. cbn [app split_ws_from]. destruct (Hws a a) as (-> & _ & _).
    destruct (w ++ SP :: s) as [|b [|c t]]; [done|..]; destruct (Hws b b) as (_ & -> & _); [done|].
    by destruct (Hws b c) as (_ & _ & ->).
Qed.

Lemma split_ws_last_word acc w :
  List.forallb plain_char w = true -> split_ws_from acc w = piece (acc ++ w).
Proof.
  revert acc. induction w as [|a w IH]; intros acc Hw; [by rewrite app_nil_r|].
  cbn [List.forallb] in Hw. apply andb_true_iff in Hw as [Ha Hw].
  specialize (IH (acc ++ [a]) Hw). rewrite <- app_assoc in IH. cbn [app] in IH. rewrite <- IH.
  cbn [split_ws_from]. destruct w as [|b [|c w]]; cbn [List.forallb] in Hw; rewrite ?andb_true_iff in Hw;
    destruct_and?.
  - by destruct (plain_char_ws a a a) as (-> & _).
  - by destruct (plain_char_ws a b b) as (-> & -> & _).
  - by destruct (plain_char_ws a b c) as (-> & -> & ->).
Qed.

(** Words joined by single spaces are the pieces. *)
Lemma split_whitespace_join ws :
  Forall (fun w => w <> [] /\ List.forallb plain_char w = true) ws ->
  split_whitespace (join [SP] ws) = ws.
Proof.
  unfold split_whitespace. destruct 1 as [|w ws [Hne Hw] Hws]; [done|]. cbn [join].
  revert w Hne Hw. induction Hws as [|w' ws [Hne' Hw'] Hws IH]; intros w Hne Hw; cbn [List.map List.concat].
  - rewrite app_nil_r, split_ws_last_word by done. by destruct w.
  - change ([SP] ++ w') with (SP :: w'). cbn [app]. rewrite split_ws_plain_word by done.
    rewrite IH by done. by destruct w.
Qed.

Lemma drop_while_none f s : List.forallb (fun c => negb (f c)) s = true -> drop_while f s = s.
Proof. destruct s as [|c s]; cbn; [done|]. by destruct (f c). Qed.

Lemma trim_end_matches_none f s :
  List.forallb (fun c => negb (f c)) s = true -> trim_end_matches f s = s.
Proof.
  intros Hs. unfold trim_end_matches. rewrite drop_while_none; [apply rev_involutive|].
  rewrite forallb_forall in *. intros c Hc%in_rev. auto.
Qed.

Lemma not_in_chars c s : List.existsb (char_eqb c) s = false -> ~ In c s.
Proof.
  intros He Hin. assert (List.existsb (char_eqb c) s = true) as Ht; [|congruence].
  apply existsb_exists. exists c. split; [done|apply char_eqb_refl].
Qed.

(** ** Lines of a text built from lines *)

Lemma strip_cr_none l : ~ In CR l -> strip_cr l = l.
Proof.
  induction l as [|c l IH]; intros Hn; [done|]. cbn [strip_cr]. destruct l as [|d l].
  - rewrite (proj2 (char_eqb_neq c CR)); [done|]. intros ->. apply Hn. by left.
  - f_equal. apply IH. intros Hin. apply Hn. by right.
Qed.

Lemma lines_from_line acc l s :
  ~ In NL l -> lines_from acc (l ++ NL :: s) = strip_cr (acc ++ l) :: lines_from [] s.
Proof.
  revert acc. induction l as [|c l IH]; intros acc Hn.
  - cbn [app lines_from]. by rewrite char_eqb_refl, app_nil_r.
  - cbn [app lines_from]. rewrite (proj2 (char_eqb_neq c NL)) by (intros ->; apply Hn; by left).
    rewrite IH by (intros Hin; apply Hn; by right). by rewrite <- app_assoc.
Qed.

Lemma lines_join out :
  (forall l, In l out -> ~ In NL l /\ ~ In CR l) -> out <> [] ->
  lines (join [NL] out ++ [NL]) = out.
Proof.
  intros Hout Hne. destruct out as [|l out]; [done|]. clear Hne. unfold lines. cbn [join].
  revert l Hout. induction out as [|l' out IH]; intros l Hout;
    (destruct (Hout l) as [Hn Hc]; [by left|]).
  - cbn [List.map List.concat]. rewrite app_nil_r, lines_from_line, strip_cr_none by done. done.
  - cbn [List.map List.concat]. rewrite <- !app_assoc. cbn [app].
    rewrite lines_from_line, strip_cr_none by done. cbn [app]. f_equal. rewrite app_assoc.
    apply IH. intros x Hx. apply Hout. by right.
Qed.

Lemma In_strip_cr c l : In c (strip_cr l) -> In c l.
Proof.
  induction l as [|x l IH]; [done|]. cbn [strip_cr]. destruct l as [|y l].
  - by destruct (char_eqb x CR).
  - intros [<-|Hin]; [by left|right; auto].
Qed.

Lemma In_lines_from acc s l c :
  ~ In NL acc -> In l (lines_from acc s) -> In c l -> c <> NL /\ (In c acc \/ In c s).
Proof.
  revert acc. induction s as [|x s IH]; intros acc Hacc.
  - cbn. destruct acc; [done|]. intros [<-|[]] Hc. split; [by intros ->|by left].
  - cbn [lines_from]. destruct (char_eqb x NL) eqn:E.
    + intros [<-|Hl] Hc.
      * apply In_strip_cr in Hc. split; [by intros ->|by left].
      * destruct (IH [] ltac:(by intros []) Hl Hc) as [? [[]|?]]. split; [done|]. by right; right.
    + apply char_eqb_neq in E. intros Hl Hc. destruct (IH (acc ++ [x])) as [? Hin]; [..|done|done|].
      * rewrite in_app_iff. intros [?|[->|[]]]; done.
      * split; [done|]. rewrite in_app_iff in Hin. cbn in *. tauto.
Qed.

Lemma In_lines l s : In l (lines s) -> ~ In CR s -> ~ In NL l /\ ~ In CR l.
Proof.
  intros Hl Hcr. split; intros Hc; destruct (In_lines_from [] s l _ (fun H => H) Hl Hc) as [? [[]|?]]; done.
Qed.

(** ** UTF-8 *)

Definition is_continuation (c : Ascii.ascii) : bool := between 0x80 0xBF c.
(** The second byte of a three-byte and of a four-byte character: no overlong
    form, no surrogate, nothing beyond U+10FFFF. *)
Definition second_of_three (b0 b1 : Ascii.ascii) : bool :=
  is_continuation b1
  && (negb (between 0xE0 0xE0 b0) || between 0xA0 0xBF b1)
  && (negb (between 0xED 0xED b0) || between 0x80 0x9F b1).
Definition second_of_four (b0 b1 : Ascii.ascii) : bool :=
  is_continuation b1
  && (negb (between 0xF0 0xF0 b0) || between 0x90 0xBF b1)
  && (negb (between 0xF4 0xF4 b0) || between 0x80 0x8F b1).

(** Whether the bytes are a [str]. *)
Fixpoint valid_utf8 (s : bytes) : bool :=
  match s with
  | [] => true
  | b0 :: s1 =>
      if between 0 0x7F b0 then valid_utf8 s1
      else match s1 with
           | [] => false
           | b1 :: s2 =>
               if between 0xC2 0xDF b0 then is_continuation b1 && valid_utf8 s2
               else match s2 with
                    | [] => false
                    | b2 :: s3 =>
                        if between 0xE0 0xEF b0
                        then second_of_three b0 b1 && is_continuation b2 && valid_utf8 s3
                        else match s3 with
                             | [] => false
                             | b3 :: s4 =>
                                 between 0xF0 0xF4 b0 && second_of_four b0 b1
                                 && is_continuation b2 && is_continuation b3 && valid_utf8 s4
                             end
                    end
           end
  end.

Lemma valid_utf8_app a b : valid_utf8 a = true -> valid_utf8 (a ++ b) = valid_utf8 b.
Proof.
  remember (length a) as n eqn:Hn. assert (length a <= n)%nat as Hle by lia. clear Hn. revert a Hle.
  induction n as [|n IH]; intros a Hle Ha; [by destruct a; [|cbn in Hle; lia]|].
  destruct a as [|b0 s1]; [done|]. cbn [app valid_utf8 length] in *.
  split_if; [apply IH; [lia|done]|]. destruct s1 as [|b1 s2]; [done|]. cbn [app length] in *.
  split_if; [apply andb_true_iff in Ha as [-> Ha]; apply IH; [lia|done]|].
  destruct s2 as [|b2 s3]; [done|]. cbn [app length] in *.
  split_if; [apply andb_true_iff in Ha as [-> Ha]; apply IH; [lia|done]|].
  destruct s3 as [|b3 s4]; [done|]. cbn [app length] in *.
  apply andb_true_iff in Ha as [-> Ha]. apply IH; [lia|done].
Qed.

Lemma valid_utf8_head c s : valid_utf8 (c :: s) = true -> is_continuation c = false.
Proof.
  intros Hv. destruct (is_continuation c) eqn:Ec; [exfalso|done]. revert Hv.
  unfold is_continuation, between in *. apply andb_true_iff in Ec as [Hlo Hhi].
  apply N.leb_le in Hlo, Hhi. cbn [valid_utf8]. unfold between.
  rewrite (proj2 (N.leb_gt (code c) 0x7F)), andb_false_r by lia. destruct s as [|b1 s]; [done|].
  rewrite (proj2 (N.leb_gt 0xC2 (code c))) by lia. cbn [andb]. destruct s as [|b2 s]; [done|].
  rewrite (proj2 (N.leb_gt 0xE0 (code c))) by lia. cbn [andb]. destruct s as [|b3 s]; [done|].
  by rewrite (proj2 (N.leb_gt 0xF0 (code c))) by lia.
Qed.

(** A text cut inside a character stays invalid whatever is written after it. *)
Lemma valid_utf8_torn a b :
  valid_utf8 a = false -> valid_utf8 b = true -> b <> [] -> valid_utf8 (a ++ b) = false.
Proof.
  intros Ha Hb Hne. destruct b as [|c b]; [done|]. clear Hne. apply valid_utf8_head in Hb as Hc.
  remember (length a) as n eqn:Hn. assert (length a <= n)%nat as Hle by lia. clear Hn. revert a Hle Ha.
  assert (forall x, second_of_three x c = false /\ second_of_four x c = false) as Hsec
    by (intros x; unfold second_of_three, second_of_four; by rewrite Hc).
  induction n as [|n IH]; intros a Hle Ha; [by destruct a; [|cbn in Hle; lia]|].
  destruct a as [|b0 s1]; [done|]. cbn [app valid_utf8 length] in *.
  split_if; [apply IH; [lia|done]|]. destruct s1 as [|b1 s2]; cbn [app length] in *.
  { rewrite Hc. split_if; [done|]. destruct (Hsec b0) as [-> ->].
    destruct b as [|? [|? ?]]; repeat split_if; rewrite ?andb_false_r; done. }
  split_if.
  { destruct (is_continuation b1); [|done]. cbn [andb] in *. apply IH; [lia|done]. }
  destruct s2 as [|b2 s3]; cbn [app length] in *.
  { rewrite Hc. split_if; [by rewrite andb_false_r|]. destruct b as [|? ?]; [done|]. by rewrite andb_false_r. }
  split_if.
  { destruct (second_of_three b0 b1 && is_continuation b2); [|done]. cbn [andb] in *. apply IH; [lia|done]. }
  destruct s3 as [|b3 s4]; cbn [app length] in *; [by rewrite Hc, andb_false_r|].
  destruct (_ && is_continuation b3); [|done]. cbn [andb] in *. apply IH; [lia|done].
Qed.

(** ASCII characters separate valid texts. *)
Lemma valid_utf8_ascii c s : between 0 0x7F c = true -> valid_utf8 (c :: s) = valid_utf8 s.
Proof. intros Hc. cbn [valid_utf8]. by rewrite Hc. Qed.

Lemma ascii_not_continuation c : between 0 0x7F c = true -> is_continuation c = false.
Proof.
  unfold is_continuation, between. intros [_ Hc%N.leb_le]%andb_true_iff.
  by rewrite (proj2 (N.leb_gt 0x80 (code c))) by lia.
Qed.

Lemma valid_utf8_split a c b :
  between 0 0x7F c = true -> valid_utf8 (a ++ c :: b) = true -> valid_utf8 a = true /\ valid_utf8 b = true.
Proof.
  intros Hc Hv. destruct (valid_utf8 a) eqn:Ea.
  - rewrite valid_utf8_app, valid_utf8_ascii in Hv by done. done.
  - exfalso. assert (valid_utf8 (a ++ [c]) = false) as Ht
      by (apply valid_utf8_torn; [done|by rewrite valid_utf8_ascii|done]).
    revert Hv Ht. pose proof (ascii_not_continuation c Hc) as Hnc. clear Ea. revert b.
    remember (length a) as n eqn:Hn. assert (length a <= n)%nat as Hle by lia. clear Hn. revert a Hle.
    assert (forall x, second_of_three x c = false /\ second_of_four x c = false) as Hsec
      by (intros x; unfold second_of_three, second_of_four; by rewrite Hnc).
    induction n as [|n IH]; intros a Hle b Hv Ht;
      (destruct a as [|b0 a]; [cbn [app] in Ht; by rewrite valid_utf8_ascii in Ht|]); [cbn in Hle; lia|].
    cbn [app valid_utf8 length] in *.
    destruct (between 0 127 b0); [apply (IH a ltac:(lia) b); done|].
    destruct a as [|b1 a]; cbn [app length] in *.
    { rewrite Hnc in Hv. destruct (Hsec b0) as [E3 E4]. rewrite E3, E4 in Hv.
      destruct (between 0xC2 0xDF b0); [done|]. destruct b as [|? b]; [done|].
      destruct (between 0xE0 0xEF b0); [done|]. destruct b; [done|]. by rewrite andb_false_r in Hv. }
    destruct (between 0xC2 0xDF b0).
    { apply andb_true_iff in Hv as [E Hv]. rewrite E in Ht. by apply (IH a ltac:(lia) b). }
    destruct a as [|b2 a]; cbn [app length] in *.
    { rewrite Hnc in Hv. rewrite ?andb_false_r in Hv. destruct (between 0xE0 0xEF b0); [done|].
      destruct b; [done|]. by rewrite ?andb_false_r in Hv. }
    destruct (between 0xE0 0xEF b0).
    { apply andb_true_iff in Hv as [E Hv]. rewrite E in Ht. by apply (IH a ltac:(lia) b). }
    destruct a as [|b3 a]; cbn [app length] in *; [by rewrite Hnc, ?andb_false_r in Hv|].
    apply andb_true_iff in Hv as [E Hv]. rewrite E in Ht. by apply (IH a ltac:(lia) b).
Qed.

Lemma valid_utf8_plain s : List.forallb (between 0 0x7F) s = true -> valid_utf8 s = true.
Proof.
  induction s as [|c s IH]; [done|]. cbn [List.forallb]. intros [Hc Hs]%andb_true_iff.
  rewrite valid_utf8_ascii by done. auto.
Qed.

Lemma valid_utf8_lines s l : ~ In CR s -> valid_utf8 s = true -> In l (lines s) -> valid_utf8 l = true.
Proof.
  unfold lines. cut (forall acc, ~ In CR (acc ++ s) -> valid_utf8 (acc ++ s) = true ->
    In l (lines_from acc s) -> valid_utf8 l = true); [by intros H; apply (H [])|].
  induction s as [|c s IH]; intros acc Hcr Hv.
  - rewrite app_nil_r in *. cbn. destruct acc as [|x acc]; [done|]. by intros [<-|[]].
  - cbn [lines_from]. destruct (char_eqb c NL) eqn:E.
    + apply char_eqb_eq in E as ->. apply valid_utf8_split in Hv as [Ha Hs]; [|done].
      intros [<-|Hl].
      * by rewrite strip_cr_none by (intros H; apply Hcr, in_app_iff; by left).
      * apply (IH []); [|done..]. intros H. apply Hcr, in_app_iff. by right; right.
    + apply IH; by rewrite <- app_assoc.
Qed.

Lemma valid_utf8_join out :
  (forall l, In l out -> valid_utf8 l = true) -> valid_utf8 (join [NL] out ++ [NL]) = true.
Proof.
  intros Hout. destruct out as [|l out]; [done|]. cbn [join]. rewrite <- app_assoc.
  rewrite valid_utf8_app by (apply Hout; by left).
  assert (forall x, In x out -> valid_utf8 x = true) as Hx by (intros x ?; apply Hout; by right).
  clear Hout. induction out as [|x out IH]; [done|]. cbn [List.map List.concat app].
  rewrite valid_utf8_ascii by done. rewrite <- app_assoc, valid_utf8_app by (apply Hx; by left).
  apply IH. intros y Hy. apply Hx. by right.
Qed.

Lemma In_join c out : In c (join [NL] out ++ [NL]) -> c = NL \/ exists l, In l out /\ In c l.
Proof.
  intros [Hc|[<-|[]]]%in_app_iff; [|by left]. destruct out as [|l out]; [done|].
  cbn [join] in Hc. apply in_app_iff in Hc as [Hc|Hc]; [right; exists l; split; [by left|done]|].
  apply in_concat in Hc as (y & (x & <- & Hx)%in_map_iff & [<-|Hc]); [by left|].
  right. exists x. split; [by right|done].
Qed.

Lemma lines_unlines ls : (forall l, In l ls -> ~ In NL l /\ ~ In CR l) -> lines (unlines ls) = ls.
Proof.
  unfold lines, unlines. induction ls as [|l ls IH]; intros Hl; [done|]. cbn [List.map List.concat].
  rewrite <- app_assoc. cbn [app]. destruct (Hl l) as [Hn Hc]; [by left|].
  rewrite lines_from_line, strip_cr_none by done. cbn [app]. f_equal. apply IH. intros x Hx. apply Hl. by right.
Qed.

Lemma In_unlines c ls : In c (unlines ls) -> c = NL \/ exists l, In l ls /\ In c l.
Proof.
  unfold unlines. intros (x & Hx & Hc)%in_concat. apply in_map_iff in Hx as (l & <- & Hl).
  apply in_app_iff in Hc as [Hc|[<-|[]]]; eauto.
Qed.

Lemma valid_utf8_unlines ls : (forall l, In l ls -> valid_utf8 l = true) -> valid_utf8 (unlines ls) = true.
Proof.
  unfold unlines. induction ls as [|l ls IH]; intros Hl; [done|]. cbn [List.map List.concat].
  rewrite <- app_assoc, valid_utf8_app by (apply Hl; by left). cbn [app].
  rewrite valid_utf8_ascii by done. apply IH. intros x Hx. apply Hl. by right.
Qed.
