(* ===== verification/Json.v ===== *)
(** * Json: [serde_json] values.

    [Value] is the tree the source builds and walks.  Encoding and parsing
    belong to the crate, so they are the operations of the class [SerdeJson];
    what the crate documents about them is the class [SerdeJsonLaws].  The
    module [Codec] holds one concrete instance of both, used where a statement
    has to be evaluated. *)
From Stdlib Require Import Lia.
From stdpp Require Import countable.
From S2P Require Import Prelude Text.

(** [serde_json::Number]: a [u64], a negative [i64] or a finite [f64]. *)
Inductive Number : Type :=
| PosInt (n : Z)
| NegInt (z : Z)
| Float (bits : Z).

(** [serde_json::Value]; a map is a [BTreeMap], kept as its entries in key
    order. *)
#[warnings="-register-all"]
Inductive Value : Type :=
| VNull
| VBool (b : bool)
| VNumber (n : Number)
| VString (s : string)
| VArray (items : list Value)
| VObject (map : list (string * Value)).

#[export] Instance Number_eq_dec : EqDecision Number.
Proof. solve_decision. Defined.

(** Structural induction through the nested lists. *)
Section Value_induction.
Context (P : Value -> Prop).
Context (HNull : P VNull) (HBool : forall b, P (VBool b))
        (HNumber : forall n, P (VNumber n)) (HString : forall s, P (VString s))
        (HArray : forall l, Forall P l -> P (VArray l))
        (HObject : forall m, Forall (fun e => P (snd e)) m -> P (VObject m)).

Fixpoint Value_ind' (v : Value) : P v :=
  match v with
  | VNull => HNull
  | VBool b => HBool b
  | VNumber n => HNumber n
  | VString s => HString s
  | VArray l =>
      HArray l ((fix go l := match l return Forall P l with
                | [] => @List.Forall_nil _ P
                | x :: l' => @List.Forall_cons _ P x l' (Value_ind' x) (go l')
                end) l)
  | VObject m =>
      HObject m ((fix go m := match m return Forall (fun e => P (snd e)) m with
                 | [] => @List.Forall_nil _ _
                 | (k, x) :: m' =>
                     @List.Forall_cons _ (fun e => P (snd e)) (k, x) m' (Value_ind' x) (go m')
                 end) m)
  end.
End Value_induction.

(** ** Accessors *)

Definition as_str (v : Value) : option string :=
  match v with VString s => Some s | _ => None end.
Definition as_array (v : Value) : option (list Value) :=
  match v with VArray l => Some l | _ => None end.
Definition as_object (v : Value) : option (list (string * Value)) :=
  match v with VObject m => Some m | _ => None end.
Definition as_u64 (v : Value) : option Z :=
  match v with VNumber (PosInt n) => Some n | _ => None end.

(** [Map::get], [Map::contains_key], [Value::get]. *)
Definition map_get (k : string) (m : list (string * Value)) : option Value :=
  snd <$> List.find (fun e => (fst e =? k)%string) m.
Definition contains_key (k : string) (m : list (string * Value)) : bool :=
  match map_get k m with Some _ => true | None => false end.
Definition get (k : string) (v : Value) : option Value :=
  match v with VObject m => map_get k m | _ => None end.

(** [BTreeMap::insert] on the ordered entries. *)
Fixpoint map_insert (k : string) (v : Value) (m : list (string * Value)) :
    list (string * Value) :=
  match m with
  | [] => [(k, v)]
  | (k', v') :: m' =>
      match String.compare k k' with
      | Lt => (k, v) :: m
      | Eq => (k, v) :: m'
      | Gt => (k', v') :: map_insert k v m'
      end
  end.
(** [value[key] = child] on an object; [serde_json] panics on anything else,
    which the callers of the source never reach. *)
Definition index_set (k : string) (child : Value) (v : Value) : Value :=
  match v with
  | VObject m => VObject (map_insert k child m)
  | _ => v
  end.
(** The [json!({...})] literal. *)
Definition object (es : list (string * Value)) : Value :=
  VObject (List.fold_left (fun m e => map_insert (fst e) (snd e) m) es []).
Definition null_or {A} (f : A -> Value) (o : option A) : Value :=
  match o with Some a => f a | None => VNull end.

Lemma string_compare_refl k : String.compare k k = Eq.
Proof.
  induction k as [|a k IH]; cbn; [done|]. unfold Ascii.compare.
  by rewrite N.compare_refl.
Qed.

Lemma map_get_insert_eq k v m : map_get k (map_insert k v m) = Some v.
Proof.
  unfold map_get. induction m as [|[k' v'] m IH]; cbn.
  - by rewrite String.eqb_refl.
  - destruct (String.compare k k') eqn:E; cbn; rewrite ?String.eqb_refl; cbn; [done..|].
    destruct (k' =? k)%string eqn:E2; [|done]. apply String.eqb_eq in E2 as ->.
    by rewrite string_compare_refl in E.
Qed.

Lemma map_get_insert_ne k k' v m :
  k <> k' -> map_get k (map_insert k' v m) = map_get k m.
Proof.
  intros Hne. assert ((k' =? k) = false)%string as E0 by (by apply String.eqb_neq).
  unfold map_get. induction m as [|[k2 v2] m IH]; cbn; [by rewrite E0|].
  destruct (String.compare k' k2) eqn:E; cbn; rewrite ?E0; cbn; [|done|].
  - apply String.compare_eq_iff in E as ->. by rewrite E0.
  - destruct (k2 =? k)%string; [done|]. apply IH.
Qed.

(** ** Measures *)

(** Nested containers. *)
Fixpoint depth (v : Value) : nat :=
  match v with
  | VArray l => S (List.fold_right (fun x n => Nat.max (depth x) n) 0%nat l)
  | VObject m => S (List.fold_right (fun e n => Nat.max (depth (snd e)) n) 0%nat m)
  | _ => 0%nat
  end.

(** Every number is an integer. *)
Fixpoint integral (v : Value) : bool :=
  match v with
  | VNumber (Float _) => false
  | VArray l => List.forallb integral l
  | VObject m => List.forallb (fun e => integral (snd e)) m
  | _ => true
  end.

(** Keys in strictly increasing order: what a [BTreeMap] iterates. *)
Definition key_lt (a b : string * Value) : bool :=
  match String.compare (fst a) (fst b) with Lt => true | _ => false end.
Fixpoint ascending (m : list (string * Value)) : bool :=
  match m with
  | [] => true
  | e :: m' => match m' with [] => true | e' :: _ => key_lt e e' end && ascending m'
  end.
Fixpoint ordered (v : Value) : bool :=
  match v with
  | VArray l => List.forallb ordered l
  | VObject m => ascending m && List.forallb (fun e => ordered (snd e)) m
  | _ => true
  end.

(** *** Insertion keeps the measures *)

Lemma In_map_insert e k v m : In e (map_insert k v m) -> e = (k, v) \/ In e m.
Proof.
  induction m as [|[k' v'] m IH]; cbn; [naive_solver|].
  destruct (String.compare k k'); cbn; naive_solver.
Qed.

Lemma ascending_insert k v m : ascending m = true -> ascending (map_insert k v m) = true.
Proof.
  induction m as [|[k' v'] m IH]; [done|]. cbn [map_insert].
  destruct (String.compare k k') eqn:E; cbn [ascending]; intros [H1 H2]%andb_true_iff.
  - apply String.compare_eq_iff in E as ->. rewrite H2, andb_true_r. by destruct m.
  - rewrite H1, H2. unfold key_lt. cbn. by rewrite E.
  - rewrite IH by done. rewrite andb_true_r.
    assert (String.compare k' k = Lt) as E' by (by rewrite String.compare_antisym, E).
    destruct m as [|[k2 v2] m]; cbn [map_insert]; [by unfold key_lt; cbn; rewrite E'|].
    destruct (String.compare k k2) eqn:E2; unfold key_lt; cbn; rewrite ?E'; done.
Qed.

Lemma ordered_index_set k c v :
  ordered c = true -> ordered v = true -> ordered (index_set k c v) = true.
Proof.
  destruct v as [| | | | |m]; try done. cbn. intros Hc [Ha Hm]%andb_true_iff.
  rewrite ascending_insert by done. cbn. apply forallb_forall.
  rewrite forallb_forall in Hm. intros e [->|He]%In_map_insert; auto.
Qed.

Lemma integral_index_set k c v :
  integral c = true -> integral v = true -> integral (index_set k c v) = true.
Proof.
  destruct v as [| | | | |m]; try done. cbn. intros Hc Hm. apply forallb_forall.
  rewrite forallb_forall in Hm. intros e [->|He]%In_map_insert; auto.
Qed.

Lemma depth_entries (m : list (string * Value)) n :
  (List.fold_right (fun e n => Nat.max (depth (snd e)) n) 0%nat m <= n)%nat
  <-> forall e, In e m -> (depth (snd e) <= n)%nat.
Proof.
  induction m as [|e m IH]; cbn.
  - split; [done|intros; apply Nat.le_0_l].
  - rewrite Nat.max_lub_iff, IH. naive_solver.
Qed.

Lemma depth_index_set k c v n :
  (S (depth c) <= n)%nat -> (depth v <= n)%nat -> (depth (index_set k c v) <= n)%nat.
Proof.
  destruct v as [| | | | |m]; try done. cbn. intros Hc Hm. destruct n as [|n]; [lia|].
  apply le_n_S, depth_entries. apply le_S_n in Hm. rewrite depth_entries in Hm.
  intros e [->|He]%In_map_insert; cbn; [lia|auto].
Qed.

(** ** The crate *)

(** [to_string]/[from_str] on a [Value]; [struct_to_string] writes a derived
    [Serialize] struct, whose fields keep their declared order,
    [struct_to_string_pretty] the same indented, and [struct_from_str] is the entry list a derived [Deserialize] is fed, in the
    order and multiplicity of the text. *)
Class SerdeJson : Type := {
  to_string : Value -> string;
  from_str : string -> option Value;
  struct_to_string : list (string * Value) -> string;
  struct_to_string_pretty : list (string * Value) -> string;
  struct_from_str : string -> option (list (string * Value))
}.

(** Parsing recurses at most 127 containers deep, builds ordered maps, and
    re-reads what [to_string] wrote exactly when no float is involved. *)
Class SerdeJsonLaws `{SerdeJson} : Prop := {
  from_str_to_string v :
    (depth v <= 127)%nat -> integral v = true -> ordered v = true ->
    from_str (to_string v) = Some v;
  from_str_shape s v :
    from_str s = Some v -> (depth v <= 127)%nat /\ ordered v = true;
  struct_from_str_to_string fields :
    (forall e, In e fields ->
       (depth (snd e) <= 126)%nat /\ integral (snd e) = true /\ ordered (snd e) = true) ->
    struct_from_str (struct_to_string fields) = Some fields;
  struct_from_str_pretty fields :
    (forall e, In e fields ->
       (depth (snd e) <= 126)%nat /\ integral (snd e) = true /\ ordered (snd e) = true) ->
    struct_from_str (struct_to_string_pretty fields) = Some fields;
  (** An object is written between braces. *)
  struct_pretty_braces fields :
    exists s, struct_to_string_pretty fields = String (Ascii.ascii_of_N 123) s;
  (** Control characters are escaped, so an encoded value is one line. *)
  struct_to_string_one_line fields c :
    In c (chars (struct_to_string fields)) -> c <> NL /\ c <> CR;
  (** The encoded text is a [String]. *)
  struct_to_string_utf8 fields : valid_utf8 (chars (struct_to_string fields)) = true;
  struct_to_string_pretty_utf8 fields : valid_utf8 (chars (struct_to_string_pretty fields)) = true
}.

(** ** A concrete instance *)

Module Codec.
Fixpoint enc (v : Value) : gen_tree (unit + bool + (Z * Z) + string) :=
  match v with
  | VNull => GenLeaf (inl (inl (inl tt)))
  | VBool b => GenLeaf (inl (inl (inr b)))
  | VNumber (PosInt n) => GenLeaf (inl (inr (0, n)))
  | VNumber (NegInt n) => GenLeaf (inl (inr (1, n)))
  | VNumber (Float n) => GenLeaf (inl (inr (2, n)))
  | VString s => GenLeaf (inr s)
  | VArray l => GenNode 0 (List.map enc l)
  | VObject m =>
      GenNode 1 (List.map (fun e => GenNode 2 [GenLeaf (inr (fst e)); enc (snd e)]) m)
  end.

Fixpoint dec (t : gen_tree (unit + bool + (Z * Z) + string)) : Value :=
  match t with
  | GenLeaf (inl (inl (inl tt))) => VNull
  | GenLeaf (inl (inl (inr b))) => VBool b
  | GenLeaf (inl (inr (k, n))) =>
      VNumber (if k =? 0 then PosInt n else if k =? 1 then NegInt n else Float n)
  | GenLeaf (inr s) => VString s
  | GenNode 0%nat l => VArray (List.map dec l)
  | GenNode _ l =>
      VObject (List.map (fun t => match t with
                         | GenNode _ [GenLeaf (inr k); t'] => (k, dec t')
                         | _ => (""%string, VNull)
                         end) l)
  end.

Lemma dec_enc v : dec (enc v) = v.
Proof.
  induction v as [| |[]| |l IH|m IH] using Value_ind'; cbn; try done.
  - f_equal. rewrite map_map. induction IH as [|x l E _ IHl]; cbn; [done|]. by rewrite E, IHl.
  - f_equal. rewrite map_map.
    induction IH as [|[k x] l E _ IHl]; cbn in *; [done|]. by rewrite E, IHl.
Qed.

Fixpoint bits (p : positive) : string :=
  match p with
  | xH => ""
  | xO p => String (Ascii.ascii_of_N 48) (bits p)
  | xI p => String (Ascii.ascii_of_N 49) (bits p)
  end.
Fixpoint unbits (s : string) : positive :=
  match s with
  | String c s => if Ascii.eqb c (Ascii.ascii_of_N 48) then xO (unbits s) else xI (unbits s)
  | EmptyString => xH
  end.
Lemma unbits_bits p : unbits (bits p) = p.
Proof. induction p as [p IH|p IH|]; cbn; by rewrite ?IH. Qed.

#[export] Instance codec : SerdeJson := {|
  to_string v := bits (encode (enc v));
  from_str s :=
    match dec <$> decode (unbits s) with
    | Some v => if Nat.leb (depth v) 127 && ordered v then Some v else None
    | None => None
    end;
  struct_to_string fields := bits (encode (enc (VObject fields)));
  struct_to_string_pretty fields :=
    String (Ascii.ascii_of_N 123) (bits (encode (enc (VObject fields))));
  struct_from_str s :=
    let body := match s with
                | String c s' => if Ascii.eqb c (Ascii.ascii_of_N 123) then s' else s
                | EmptyString => s
                end in
    match dec <$> decode (unbits body) with Some (VObject fields) => Some fields | _ => None end
|}.

Lemma bits_head p : match bits p with
  | String c s' => if Ascii.eqb c (Ascii.ascii_of_N 123) then s' else bits p
  | EmptyString => bits p
  end = bits p.
Proof. by destruct p. Qed.

#[export] Instance codec_laws : SerdeJsonLaws.
Proof.
  split; unfold from_str, to_string, struct_from_str, struct_to_string, struct_to_string_pretty, codec.
  - intros v Hd _ Ho. rewrite unbits_bits, decode_encode. cbn. rewrite dec_enc, Ho.
    by rewrite (proj2 (Nat.leb_le _ _) Hd).
  - intros s v. destruct (dec <$> _) as [v'|]; [|done].
    destruct (Nat.leb_spec (depth v') 127), (ordered v') eqn:E; cbn; naive_solver.
  - intros fields _. cbv zeta. rewrite bits_head, unbits_bits, decode_encode.
    cbn [fmap option_fmap option_map]. by rewrite dec_enc.
  - intros fields _. cbv zeta. rewrite Ascii.eqb_refl, unbits_bits, decode_encode.
    cbn [fmap option_fmap option_map]. by rewrite dec_enc.
  - eauto.
  - intros fields c. induction (encode (enc (VObject fields))) as [p IH|p IH|]; cbn; [..|done];
      (intros [<-|Hin]; [done|auto]).
  - intros fields. by induction (encode (enc (VObject fields))).
  - intros fields. cbn [String.list_ascii_of_string]. rewrite valid_utf8_ascii by done.
    by induction (encode (enc (VObject fields))).
Qed.
End Codec.
