(* ===== verification/RunState.v ===== *)
(** * RunState: run lifecycle states and per-run approval policy
    ([runstate.rs], [runpolicy.rs], the terminal statuses of [hermes.rs]). *)
From stdpp Require Import relations.
From S2P Require Import Prelude.

(** ** [runstate.rs] *)

Inductive RunStatus : Type :=
| Created
| Starting
| Running
| WaitingForApproval
| Recovering
| Completed
| Failed
| Cancelled
| Interrupted
| Lost.

#[export] Instance RunStatus_eq_dec : EqDecision RunStatus.
Proof. solve_decision. Defined.

Module RunStatus.
Definition as_str (st : RunStatus) : string :=
  match st with
  | Created => "created"
  | Starting => "starting"
  | Running => "running"
  | WaitingForApproval => "waiting_for_approval"
  | Recovering => "recovering"
  | Completed => "completed"
  | Failed => "failed"
  | Cancelled => "cancelled"
  | Interrupted => "interrupted"
  | Lost => "lost"
  end.

(** [Err] carries the unknown text of the message. *)
Definition parse (value : string) : Result string RunStatus :=
  if (value =? "created")%string then Ok Created
  else if (value =? "starting")%string then Ok Starting
  else if (value =? "running")%string then Ok Running
  else if (value =? "waiting_for_approval")%string then Ok WaitingForApproval
  else if (value =? "recovering")%string then Ok Recovering
  else if (value =? "completed")%string then Ok Completed
  else if (value =? "failed")%string then Ok Failed
  else if (value =? "cancelled")%string then Ok Cancelled
  else if (value =? "interrupted")%string then Ok Interrupted
  else if (value =? "lost")%string then Ok Lost
  else Err value.

Definition is_terminal (st : RunStatus) : bool :=
  match st with
  | Completed | Failed | Cancelled | Interrupted | Lost => true
  | _ => false
  end.

Definition is_active (st : RunStatus) : bool := negb (is_terminal st).

Definition is_retryable (st : RunStatus) : bool :=
  match st with Interrupted | Lost => true | _ => false end.
End RunStatus.

Record InvalidTransition : Type := { from : RunStatus; to : RunStatus }.

Definition validate_transition (from to : RunStatus) : Result InvalidTransition unit :=
  if bool_decide (from = to) then Ok tt
  else if RunStatus.is_terminal from then Err {| from := from; to := to |}
  else
    let terminal to := RunStatus.is_terminal to in
    let allowed :=
      match from with
      | Created => match to with Starting | Failed | Cancelled | Lost => true | _ => false end
      | Starting => match to with Running | Recovering => true | _ => terminal to end
      | Running => match to with WaitingForApproval | Recovering => true | _ => terminal to end
      | WaitingForApproval => match to with Running | Recovering => true | _ => terminal to end
      | Recovering => match to with Running | WaitingForApproval => true | _ => terminal to end
      | Completed | Failed | Cancelled | Interrupted | Lost => false
      end in
    if allowed then Ok tt else Err {| from := from; to := to |}.

Definition from_hermes_status (status : string) : RunStatus :=
  if (status =? "completed")%string then Completed
  else if (status =? "failed")%string then Failed
  else if (status =? "cancelled")%string then Cancelled
  else if (status =? "waiting_for_approval")%string then WaitingForApproval
  else Running.

(** [hermes::is_terminal_status]. *)
Definition is_terminal_status (status : string) : bool :=
  (status =? "completed")%string || (status =? "failed")%string
  || (status =? "cancelled")%string.

(** ** [runpolicy.rs] *)

Inductive RunApprovalPolicy : Type :=
| Manual
| AllowAllForRun.

#[export] Instance RunApprovalPolicy_eq_dec : EqDecision RunApprovalPolicy.
Proof. solve_decision. Defined.

Module RunApprovalPolicy.
Definition as_str (p : RunApprovalPolicy) : string :=
  match p with Manual => "manual" | AllowAllForRun => "allow_all_for_run" end.

Definition parse (value : string) : Result string RunApprovalPolicy :=
  if (value =? "manual")%string then Ok Manual
  else if (value =? "allow_all_for_run")%string then Ok AllowAllForRun
  else Err value.

Definition bypasses_approval (p : RunApprovalPolicy) : bool :=
  match p with AllowAllForRun => true | Manual => false end.
End RunApprovalPolicy.

Record RunPolicyState : Type := {
  policy : RunApprovalPolicy;
  enabled_by : option string;
  enabled_at : option Z;
  policy_updated_at : option Z
}.

Definition RunPolicyState_default : RunPolicyState :=
  {| policy := Manual; enabled_by := None; enabled_at := None; policy_updated_at := None |}.

(** ** Facts *)

(** Splits a chain of string comparisons. *)
Ltac split_eqb :=
  repeat match goal with
  | H : context [String.eqb ?a ?b] |- _ => destruct (String.eqb_spec a b); subst
  | |- context [String.eqb ?a ?b] => destruct (String.eqb_spec a b); subst
  end.

Lemma status_parse_as_str st : RunStatus.parse (RunStatus.as_str st) = Ok st.
Proof. by destruct st. Qed.

Lemma status_parse_Ok s st : RunStatus.parse s = Ok st -> s = RunStatus.as_str st.
Proof. unfold RunStatus.parse. intros H. split_eqb; congruence || by injection H as <-. Qed.

Lemma policy_parse_as_str p : RunApprovalPolicy.parse (RunApprovalPolicy.as_str p) = Ok p.
Proof. by destruct p. Qed.

Lemma validate_refl st : validate_transition st st = Ok tt.
Proof. unfold validate_transition. by rewrite bool_decide_eq_true_2. Qed.

Lemma validate_terminal st st' :
  RunStatus.is_terminal st = true -> validate_transition st st' = Ok tt -> st' = st.
Proof. by destruct st, st'. Qed.

Definition transition (a b : RunStatus) : Prop := validate_transition a b = Ok tt.
#[export] Instance transition_dec a b : Decision (transition a b).
Proof. unfold transition. destruct (validate_transition a b) as [[]|]; [left|right]; congruence. Defined.

(** How far into its life a status is: submission comes once, settling comes
    last. *)
Definition stage (st : RunStatus) : nat :=
  match st with
  | Created => 0
  | Starting => 1
  | Running | WaitingForApproval | Recovering => 2
  | _ => 3
  end%nat.

Lemma transition_stage a b : transition a b -> (stage a <= stage b)%nat.
Proof. destruct a, b; cbn; intros H; try lia; discriminate H. Qed.

Lemma lifecycle_stage a b : rtc transition a b -> (stage a <= stage b)%nat.
Proof. induction 1 as [|x y z H _ IH]; [done|]. apply transition_stage in H. lia. Qed.

(** The life of a run: it moves through its stages in one direction, a terminal
    status is never left, and from every live status every terminal status can
    still be reached, so no run can get stuck in the state machine. *)
Theorem run_lifecycle a b :
  (rtc transition a b -> (stage a <= stage b)%nat /\ (RunStatus.is_terminal a = true -> b = a))
  /\ (RunStatus.is_terminal a = false -> RunStatus.is_terminal b = true -> rtc transition a b).
Proof.
  split.
  - intros Hp. split; [by apply lifecycle_stage|].
    induction Hp as [|x y z H _ IH]; [done|]. intros Hx.
    apply (validate_terminal _ _ Hx) in H as ->. by apply IH.
  - intros Ha Hb. destruct a; try discriminate Ha; destruct b; try discriminate Hb;
      first [by apply rtc_once | by eapply (rtc_l _ _ Starting); [|apply rtc_once]].
Qed.

Lemma run_lifecycle_witness : rtc transition Created Interrupted.
Proof. apply (run_lifecycle Created Interrupted); reflexivity. Defined.
