(* ===== verification/Redact.v ===== *)
(** * Redact: recursive redaction before anything is journalled ([redact.rs]). *)
From Stdlib Require Import Lia.
From S2P Require Import Prelude Text Json.

Definition REDACTED : string := "[redacted]".
Definition REDACTED_ENVIRONMENT : string := "[redacted-environment]".
Definition MAX_STRING_BYTES : Z := 8 * 1024.
Definition MAX_RAW_PAYLOAD_BYTES : Z := 64 * 1024.
Definition MAX_DEPTH : nat := 32.
Definition TRUNCATED : string := "…[truncated]".

Definition SECRET_KEY_FRAGMENTS : list string :=
  ["accesstoken"; "refreshtoken"; "idtoken"; "apikey"; "apisecret"; "authorization";
   "clientsecret"; "cookie"; "credential"; "password"; "passwd"; "privatekey"; "secret";
   "sessionkey"; "setcookie"; "token"].

Definition ENVIRONMENT_KEY_FRAGMENTS : list string := ["environ"; "environment"; "envvars"].

Definition SAFE_METADATA_KEY : string := "safe_metadata".

(** ** Identifiers that may be kept *)

Inductive SafeIdentifier : Type := CredentialId.

Module SafeIdentifier.
Definition key (i : SafeIdentifier) : string :=
  match i with CredentialId => "credential_id" end.

Definition from_key (k : string) : option SafeIdentifier :=
  if (k =? "credential_id")%string then Some CredentialId else None.

Definition accepts (i : SafeIdentifier) (value : string) : bool :=
  match i with
  | CredentialId =>
      match strip_prefix $"cred-" (chars value) with
      | Some hex =>
          Nat.eqb (length hex) 16
          && List.forallb (fun b => is_ascii_digit b || between 97 102 b) hex
      | None => false
      end
  end.
End SafeIdentifier.

(** All or nothing. *)
Fixpoint safe_metadata_from (map : list (string * Value))
    (entries : list (SafeIdentifier * string)) : option Value :=
  match entries with
  | [] => Some (VObject map)
  | (identifier, value) :: rest =>
      if SafeIdentifier.accepts identifier value
      then safe_metadata_from (map_insert (SafeIdentifier.key identifier) (VString value) map) rest
      else None
  end.
Definition safe_metadata (entries : list (SafeIdentifier * string)) : option Value :=
  safe_metadata_from [] entries.

(** ** Keys and values that look like secrets *)

Definition normalize_key (key : string) : string :=
  of_chars (List.map to_ascii_lowercase (List.filter is_ascii_alphanumeric (chars key))).

Definition is_secret_key (key : string) : bool :=
  let normalized := normalize_key key in
  List.existsb (fun fragment => str_contains fragment normalized) SECRET_KEY_FRAGMENTS.

Definition is_array (v : Value) : bool :=
  match v with VArray _ => true | _ => false end.

Definition is_listing_of_credentials (key : string) (value : Value) : bool :=
  (normalize_key key =? "credentials")%string && is_array value.

Definition can_carry_secret (value : Value) : bool :=
  match value with VNumber _ | VBool _ => false | _ => true end.

Definition is_environment_key (key : string) : bool :=
  let normalized := normalize_key key in
  List.existsb (fun fragment => (normalized =? fragment)%string) ENVIRONMENT_KEY_FRAGMENTS.

Definition looks_like_secret (text : string) : bool :=
  let trimmed := trim (chars text) in
  let n := length trimmed in
  if starts_with $"eyJ" trimmed && (32 <=? n)%nat then true
  else if starts_with $"sk-" trimmed && (24 <=? n)%nat then true
  else
    let lowered := List.map to_ascii_lowercase trimmed in
    starts_with $"bearer " lowered && (16 <? n)%nat.

(** A byte index is a character boundary at the ends and before every byte that
    is not a continuation byte. *)
Definition is_char_boundary (s : bytes) (i : nat) : bool :=
  (i =? 0)%nat || match s !! i with
  | Some c => negb (between 128 191 c)
  | None => (i =? length s)%nat
  end.

(** The [while] loop of [bound_string]; it stops at 0 at the latest. *)
Fixpoint boundary_at_most (s : bytes) (i : nat) : nat :=
  match i with
  | O => O
  | S i' => if is_char_boundary s i then i else boundary_at_most s i'
  end.

Definition bound_string (text : string) (modified : bool) : string * bool :=
  if len text <=? MAX_STRING_BYTES then (text, modified)
  else
    let s := chars text in
    let stop := boundary_at_most s (Z.to_nat MAX_STRING_BYTES) in
    (of_chars (firstn stop s ++ chars TRUNCATED), true).

(** ** The walk *)

(** Threads the [modified] flag through a list, as the loops do. *)
Fixpoint map_accum {A B} (f : A -> bool -> B * bool) (l : list A) (modified : bool) :
    list B * bool :=
  match l with
  | [] => ([], modified)
  | x :: l' =>
      let '(y, m1) := f x modified in
      let '(ys, m2) := map_accum f l' m1 in
      (y :: ys, m2)
  end.

Definition walk_safe_metadata (value : Value) (modified : bool) : Value * bool :=
  match value with
  | VObject map =>
      let '(out, m) := map_accum (fun e md =>
        let '(key, child) := e in
        let valid := match SafeIdentifier.from_key key, as_str child with
                     | Some identifier, Some text => SafeIdentifier.accepts identifier text
                     | _, _ => false
                     end in
        if valid then ((key, child), md) else ((key, VString REDACTED), true)) map modified in
      (VObject out, m)
  | _ => (VString REDACTED, true)
  end.

Fixpoint walk (value : Value) (depth : nat) (modified : bool) : Value * bool :=
  if (MAX_DEPTH <=? depth)%nat then (VString REDACTED, true) else
  match value with
  | VObject map =>
      let '(out, m) := map_accum (fun e md =>
        let '(key, child) := e in
        if (key =? SAFE_METADATA_KEY)%string then
          let '(c, m1) := walk_safe_metadata child md in ((key, c), m1)
        else if is_environment_key key then ((key, VString REDACTED_ENVIRONMENT), true)
        else if is_secret_key key && can_carry_secret child
                && negb (is_listing_of_credentials key child)
        then ((key, VString REDACTED), true)
        else let '(c, m1) := walk child (S depth) md in ((key, c), m1)) map modified in
      (VObject out, m)
  | VArray items =>
      let '(out, m) := map_accum (fun item md => walk item (S depth) md) items modified in
      (VArray out, m)
  | VString text =>
      if looks_like_secret text then (VString REDACTED, true)
      else let '(t, m) := bound_string text modified in (VString t, m)
  | other => (other, modified)
  end.

Record Redacted : Type := { value : Value; modified : bool }.

Definition redact (v : Value) : Redacted :=
  let '(redacted, m) := walk v 0 false in {| value := redacted; modified := m |}.

Definition bounded_raw `{SerdeJson} (v : Value) : option string :=
  let encoded := to_string (value (redact v)) in
  if MAX_RAW_PAYLOAD_BYTES <? len encoded then None else Some encoded.

Definition text_payload (text : string) : Value :=
  let '(t, _) := bound_string text false in VString t.

(** ** The flag only accumulates *)

(** A flag-threading function whose flag is "was it already set, or did I set
    it", and whose value does not depend on the flag. *)
Definition accumulates {A B} (f : A -> bool -> B * bool) (x : A) : Prop :=
  forall m, f x m = (fst (f x false), m || snd (f x false)).

Lemma map_accum_spec {A B} (f : A -> bool -> B * bool) l m :
  Forall (accumulates f) l ->
  map_accum f l m =
  (List.map (fun x => fst (f x false)) l, m || List.existsb (fun x => snd (f x false)) l).
Proof.
  intros Hf. revert m. induction Hf as [|x l Hx _ IH]; intros m; cbn.
  - by rewrite orb_false_r.
  - rewrite Hx, IH. cbn. by rewrite orb_assoc.
Qed.

Lemma walk_safe_metadata_accumulates v : accumulates walk_safe_metadata v.
Proof.
  intros m. destruct v; cbn; try by rewrite orb_true_r.
  erewrite !map_accum_spec; [done|..];
    (apply List.Forall_forall; intros [k c] _ m'; cbn;
     repeat case_match; cbn; by rewrite ?orb_false_r, ?orb_true_r).
Qed.

Lemma bound_string_accumulates t : accumulates bound_string t.
Proof.
  intros m. unfold bound_string. destruct (len t <=? MAX_STRING_BYTES); cbn [fst snd];
    by rewrite ?orb_false_r, ?orb_true_r.
Qed.

(** The entry loop of the walk, and the per-entry decision it makes. *)
Definition walk_entry (depth : nat) (e : string * Value) (md : bool) :
    (string * Value) * bool :=
  let '(key, child) := e in
  if (key =? SAFE_METADATA_KEY)%string then
    let '(c, m1) := walk_safe_metadata child md in ((key, c), m1)
  else if is_environment_key key then ((key, VString REDACTED_ENVIRONMENT), true)
  else if is_secret_key key && can_carry_secret child
          && negb (is_listing_of_credentials key child)
  then ((key, VString REDACTED), true)
  else let '(c, m1) := walk child (S depth) md in ((key, c), m1).

Lemma walk_entry_accumulates d e :
  accumulates (fun v => walk v (S d)) (snd e) -> accumulates (walk_entry d) e.
Proof.
  destruct e as [k c]. intros Hc m. unfold walk_entry.
  destruct (k =? SAFE_METADATA_KEY)%string.
  { rewrite (walk_safe_metadata_accumulates c m).
    by destruct (walk_safe_metadata c false). }
  destruct (is_environment_key k); [by rewrite orb_true_r|].
  destruct (_ && _); [by rewrite orb_true_r|].
  cbn in Hc. rewrite (Hc m). by destruct (walk c (S d) false).
Qed.

Lemma walk_accumulates v d : accumulates (fun v => walk v d) v.
Proof.
  revert d. induction v as [|b|n|s|l IH|mp IH] using Value_ind'; intros d m; cbn [walk];
    destruct (MAX_DEPTH <=? d)%nat; try by rewrite ?orb_true_r, ?orb_false_r.
  - destruct (looks_like_secret s); [by rewrite orb_true_r|].
    rewrite (bound_string_accumulates s m). by destruct (bound_string s false).
  - assert (Forall (accumulates (fun item md => walk item (S d) md)) l) as Hl
      by (eapply List.Forall_impl; [|exact IH]; cbn; auto).
    by rewrite !(map_accum_spec _ _ _ Hl).
  - assert (Forall (accumulates (walk_entry d)) mp) as Hl.
    { eapply List.Forall_impl; [|exact IH]. cbn. intros e He.
      apply walk_entry_accumulates, He. }
    change (map_accum _ mp) with (map_accum (walk_entry d) mp).
    by rewrite !(map_accum_spec _ _ _ Hl).
Qed.

(** ** Equations for the value and for the flag *)

Definition walk_value (v : Value) (d : nat) : Value := fst (walk v d false).
Definition walk_flag (v : Value) (d : nat) : bool := snd (walk v d false).

Lemma redact_value v : value (redact v) = walk_value v 0.
Proof. unfold redact, walk_value. by destruct (walk v 0 false). Qed.

Lemma redact_modified v : modified (redact v) = walk_flag v 0.
Proof. unfold redact, walk_flag. by destruct (walk v 0 false). Qed.

Lemma walk_deep v d : (MAX_DEPTH <= d)%nat -> walk v d false = (VString REDACTED, true).
Proof. intros H. apply Nat.leb_le in H. destruct v; cbn [walk]; by rewrite H. Qed.

Lemma walk_array l d :
  (d < MAX_DEPTH)%nat ->
  walk (VArray l) d false =
  (VArray (List.map (fun x => walk_value x (S d)) l),
   List.existsb (fun x => walk_flag x (S d)) l).
Proof.
  intros H. cbn [walk]. rewrite (proj2 (Nat.leb_gt _ _) H).
  rewrite map_accum_spec; [done|]. apply List.Forall_forall. intros x _.
  apply walk_accumulates.
Qed.

Lemma walk_object m d :
  (d < MAX_DEPTH)%nat ->
  walk (VObject m) d false =
  (VObject (List.map (fun e => fst (walk_entry d e false)) m),
   List.existsb (fun e => snd (walk_entry d e false)) m).
Proof.
  intros H. cbn [walk]. rewrite (proj2 (Nat.leb_gt _ _) H).
  change (map_accum _ m) with (map_accum (walk_entry d) m).
  rewrite map_accum_spec; [done|]. apply List.Forall_forall. intros x _.
  apply walk_entry_accumulates, walk_accumulates.
Qed.

Lemma walk_string s d :
  (d < MAX_DEPTH)%nat ->
  walk (VString s) d false =
  if looks_like_secret s then (VString REDACTED, true)
  else (VString (fst (bound_string s false)), snd (bound_string s false)).
Proof.
  intros H. cbn [walk]. rewrite (proj2 (Nat.leb_gt _ _) H).
  destruct (looks_like_secret s); [done|]. by destruct (bound_string s false).
Qed.

Definition is_scalar (v : Value) : bool :=
  match v with VNull | VBool _ | VNumber _ => true | _ => false end.

Lemma walk_scalar v d :
  (d < MAX_DEPTH)%nat -> is_scalar v = true -> walk v d false = (v, false).
Proof. intros H Hv. destruct v; try done; cbn [walk]; by rewrite (proj2 (Nat.leb_gt _ _) H). Qed.

Lemma walk_entry_key d e md : fst (fst (walk_entry d e md)) = fst e.
Proof.
  destruct e as [k c]. unfold walk_entry.
  destruct (_ =? _)%string; [by destruct (walk_safe_metadata c md)|].
  destruct (is_environment_key k); [done|]. destruct (_ && _); [done|].
  by destruct (walk c (S d) md).
Qed.

(** Case analysis on one entry: what each branch leaves. *)
Lemma walk_entry_cases d k c :
  let r := walk_entry d (k, c) false in
  (k = SAFE_METADATA_KEY /\ r = ((k, fst (walk_safe_metadata c false)),
                                 snd (walk_safe_metadata c false)))
  \/ (k <> SAFE_METADATA_KEY /\ is_environment_key k = true
      /\ r = ((k, VString REDACTED_ENVIRONMENT), true))
  \/ (k <> SAFE_METADATA_KEY /\ is_environment_key k = false
      /\ is_secret_key k && can_carry_secret c && negb (is_listing_of_credentials k c) = true
      /\ r = ((k, VString REDACTED), true))
  \/ (k <> SAFE_METADATA_KEY /\ is_environment_key k = false
      /\ is_secret_key k && can_carry_secret c && negb (is_listing_of_credentials k c) = false
      /\ r = ((k, walk_value c (S d)), walk_flag c (S d))).
Proof.
  unfold walk_entry, walk_value, walk_flag.
  destruct (String.eqb_spec k SAFE_METADATA_KEY) as [->|Hk].
  { left. by destruct (walk_safe_metadata c false). }
  right. destruct (is_environment_key k); [by left|]. right.
  destruct (_ && _); [by left|]. right. by destruct (walk c (S d) false).
Qed.

(** A key that is not a reason to redact: its value is walked. *)
Definition ordinary_key (k : string) : bool :=
  negb (k =? SAFE_METADATA_KEY)%string && negb (is_environment_key k) && negb (is_secret_key k).

Lemma walk_entry_ordinary d k c :
  ordinary_key k = true -> fst (walk_entry d (k, c) false) = (k, walk_value c (S d)).
Proof.
  unfold ordinary_key, walk_entry, walk_value. rewrite !andb_true_iff, !negb_true_iff.
  intros [[-> ->] ->]. cbn [andb]. by destruct (walk c (S d) false).
Qed.

Lemma get_walk k m d :
  (d < MAX_DEPTH)%nat -> ordinary_key k = true ->
  get k (walk_value (VObject m) d) = (fun c => walk_value c (S d)) <$> map_get k m.
Proof.
  intros Hd Hk. unfold walk_value at 1. rewrite walk_object by done. cbn [fst get]. unfold map_get.
  induction m as [|[k' c] m IH]; [done|]. cbn [List.map List.find fst].
  rewrite (walk_entry_key d (k', c) false). cbn [fst].
  destruct (String.eqb_spec k' k) as [->|]; [|apply IH]. by rewrite walk_entry_ordinary.
Qed.

Lemma walk_string_value s d :
  (d < MAX_DEPTH)%nat -> looks_like_secret s = false -> len s <= MAX_STRING_BYTES ->
  walk_value (VString s) d = VString s.
Proof.
  intros Hd Hs Hl. unfold walk_value. rewrite walk_string, Hs by done. unfold bound_string.
  by rewrite (proj2 (Z.leb_le _ _) Hl).
Qed.

(** ** What a redacted payload can hold *)

Definition is_string (t : string) (v : Value) : bool :=
  match v with VString s => (s =? t)%string | _ => false end.

Definition identifier_ok (e : string * Value) : bool :=
  match snd e with
  | VString s =>
      (s =? REDACTED)%string
      || match SafeIdentifier.from_key (fst e) with
         | Some i => SafeIdentifier.accepts i s
         | None => false
         end
  | _ => false
  end.

Definition metadata_ok (v : Value) : bool :=
  match v with
  | VObject m => List.forallb identifier_ok m
  | _ => is_string REDACTED v
  end.

(** A predicate on every string in value position. *)
Fixpoint all_strings (f : string -> bool) (v : Value) : bool :=
  match v with
  | VString s => f s
  | VArray l => List.forallb (all_strings f) l
  | VObject m => List.forallb (fun e => all_strings f (snd e)) m
  | _ => true
  end.

Lemma boundary_at_most_le s i : (boundary_at_most s i <= i)%nat.
Proof. induction i as [|i IH]; cbn [boundary_at_most]; [done|]. destruct (is_char_boundary _ _); lia. Qed.

Lemma len_of_chars l : len (of_chars l) = Z.of_nat (length l).
Proof. unfold len. by rewrite <- length_chars, of_chars_chars. Qed.

Lemma bound_string_len s : len (fst (bound_string s false)) <= MAX_STRING_BYTES + len TRUNCATED.
Proof.
  unfold bound_string. destruct (Z.leb_spec (len s) MAX_STRING_BYTES) as [H|H]; cbn [fst].
  - change (len TRUNCATED) with 14. lia.
  - rewrite len_of_chars, length_app, length_firstn, !length_chars. unfold len.
    pose proof (boundary_at_most_le (chars s) (Z.to_nat MAX_STRING_BYTES)).
    assert (Z.of_nat (Z.to_nat MAX_STRING_BYTES) = MAX_STRING_BYTES) by (apply Z2Nat.id; done).
    lia.
Qed.

Lemma walk_safe_metadata_ok c : metadata_ok (fst (walk_safe_metadata c false)) = true.
Proof.
  destruct c; try done. cbn [walk_safe_metadata].
  erewrite map_accum_spec.
  - cbn [fst metadata_ok]. rewrite forallb_map. apply forallb_forall. intros [k c] _. cbn.
    destruct (SafeIdentifier.from_key k) as [i|] eqn:E; [|done].
    destruct (as_str c) as [t|] eqn:E2; [|done].
    destruct c; try done. injection E2 as ->.
    destruct (SafeIdentifier.accepts i t) eqn:E3; [|done]. cbn.
    unfold identifier_ok. cbn. rewrite E, E3. apply orb_true_r.
  - apply List.Forall_forall. intros [k c] _ m'. cbn.
    repeat case_match; cbn; by rewrite ?orb_false_r, ?orb_true_r.
Qed.

(** Walking keeps whether a child is a number, a boolean or a list, except that
    it replaces everything at the depth limit. *)
Lemma walk_value_shape c d :
  walk_value c d = VString REDACTED \/
  (can_carry_secret (walk_value c d) = can_carry_secret c
   /\ is_array (walk_value c d) = is_array c).
Proof.
  unfold walk_value. destruct (Nat.le_gt_cases MAX_DEPTH d) as [H|H].
  { left. by rewrite walk_deep. }
  right. destruct c as [|b|n|s|l|m].
  1-3: by rewrite walk_scalar.
  - rewrite walk_string by done. by destruct (looks_like_secret s).
  - by rewrite walk_array.
  - by rewrite walk_object.
Qed.

Lemma walk_all_strings f v d :
  f REDACTED = true -> f REDACTED_ENVIRONMENT = true ->
  (forall s, looks_like_secret s = false -> f (fst (bound_string s false)) = true) ->
  (forall i s, SafeIdentifier.accepts i s = true -> f s = true) ->
  all_strings f (walk_value v d) = true.
Proof.
  intros Hr He Hb Hi. revert d.
  induction v as [|b|n|s|l IH|m IH] using Value_ind'; intros d; unfold walk_value;
    (destruct (Nat.le_gt_cases MAX_DEPTH d) as [H|H]; [by rewrite walk_deep|]).
  1-3: by rewrite walk_scalar.
  - rewrite walk_string by done. destruct (looks_like_secret s) eqn:E; cbn [fst all_strings]; auto.
  - rewrite walk_array by done. cbn [fst all_strings]. rewrite forallb_map. apply forallb_forall.
    intros x Hx. rewrite List.Forall_forall in IH. by apply IH.
  - rewrite walk_object by done. cbn [fst all_strings]. rewrite forallb_map. apply forallb_forall.
    intros [k c] Hx. rewrite List.Forall_forall in IH. specialize (IH _ Hx). cbn in IH.
    destruct (walk_entry_cases d k c) as [[-> ->]|[(_ & _ & ->)|[(_ & _ & _ & ->)|(_ & _ & _ & ->)]]];
      cbn [fst snd all_strings]; auto.
    pose proof (walk_safe_metadata_ok c) as Hok.
    destruct (fst (walk_safe_metadata c false)) as [| | |t| |mm] eqn:E; cbn in Hok; try done; cbn.
    { by apply String.eqb_eq in Hok as ->. }
    rewrite forallb_forall in Hok. apply forallb_forall. intros [k' c'] Hin.
    specialize (Hok _ Hin). unfold identifier_ok in Hok. cbn in *.
    destruct c'; try done. apply orb_true_iff in Hok as [Hok|Hok].
    + by apply String.eqb_eq in Hok as ->.
    + destruct (SafeIdentifier.from_key k'); [|done]. by eapply Hi.
Qed.

(** ** Where a value sits, and what may stay there

    Described without the walk: a place is the list of steps that leads to it
    (a field is named by its key, and by its position, since nothing here needs
    keys to be unique). *)

Inductive Step : Type :=
  | Item (i : nat)
  | Field (i : nat) (key : string).

Inductive at_place : list Step -> Value -> Value -> Prop :=
  | at_here v : at_place [] v v
  | at_item i x l path w :
      l !! i = Some x -> at_place path x w -> at_place (Item i :: path) (VArray l) w
  | at_field i k c m path w :
      m !! i = Some (k, c) -> at_place path c w -> at_place (Field i k :: path) (VObject m) w.

(** A string with the shape of a credential, white space around it aside. *)
Definition credential_shaped (s : string) : Prop :=
  let t := trim (chars s) in
  (exists rest, t = $"eyJ" ++ rest /\ (32 <= length t)%nat)
  \/ (exists rest, t = $"sk-" ++ rest /\ (24 <= length t)%nat)
  \/ (exists rest, List.map to_ascii_lowercase t = $"bearer " ++ rest /\ (17 <= length t)%nat).

(** A field name that marks a secret: one of the fragments occurs in it, whatever
    the case and the punctuation. *)
Definition secret_named (k : string) : Prop :=
  exists fragment before after,
    In fragment SECRET_KEY_FRAGMENTS
    /\ chars (normalize_key k) = before ++ chars fragment ++ after.

Definition environment_named (k : string) : Prop :=
  In (normalize_key k) ENVIRONMENT_KEY_FRAGMENTS.

(** The places whose leaf [w] may stay: no field on the way is [safe_metadata] or
    an environment, and one with the name of a secret is either the number or the
    boolean itself or a list called [credentials]. *)
Fixpoint open_place (path : list Step) (w : Value) : Prop :=
  match path with
  | [] => True
  | Item _ :: rest => open_place rest w
  | Field _ k :: rest =>
      k <> SAFE_METADATA_KEY /\ ~ environment_named k
      /\ (secret_named k ->
            (rest = [] /\ ((exists n, w = VNumber n) \/ exists b, w = VBool b))
            \/ (normalize_key k = "credentials" /\ exists j rest', rest = Item j :: rest'))
      /\ open_place rest w
  end.

(** A credential id in a [safe_metadata] block. *)
Definition safe_place (path : list Step) : Prop :=
  exists i j before, path = before ++ [Field i SAFE_METADATA_KEY; Field j "credential_id"]
    /\ open_place before VNull.

Definition credential_id (s : string) : Prop :=
  exists hex, chars s = $"cred-" ++ hex /\ length hex = 16%nat
    /\ Forall (fun b => is_ascii_digit b = true \/ between 97 102 b = true) hex.

(** What is kept of the leaf [u] of the payload: the leaf itself, or the start of
    a long text and the truncation mark. *)
Definition kept_leaf (u w : Value) : Prop :=
  match u with
  | VString t =>
      ~ credential_shaped t
      /\ ((w = u /\ len t <= MAX_STRING_BYTES)
          \/ exists start rest, chars t = start ++ rest /\ Z.of_nat (length start) <= MAX_STRING_BYTES
               /\ MAX_STRING_BYTES < len t /\ w = VString (of_chars (start ++ chars TRUNCATED)))
  | _ => w = u
  end.

Definition is_leaf (v : Value) : bool :=
  match v with VArray _ | VObject _ => false | _ => true end.

Definition placeholder (w : Value) : Prop :=
  w = VString REDACTED \/ w = VString REDACTED_ENVIRONMENT.

Definition redacts_leaf (v : Value) (path : list Step) (w : Value) : Prop :=
  placeholder w
  \/ exists u, at_place path v u
       /\ ((open_place path w /\ kept_leaf u w)
           \/ (safe_place path /\ w = u /\ exists s, u = VString s /\ credential_id s)).

Lemma looks_like_secret_false s : looks_like_secret s = false -> ~ credential_shaped s.
Proof.
  unfold looks_like_secret, credential_shaped. cbv zeta.
  set (t := trim (chars s)). intros E [(r & Et & Hl)|[(r & Et & Hl)|(r & Et & Hl)]].
  - rewrite (proj2 (starts_with_true _ _)) in E by eauto.
    by rewrite (proj2 (Nat.leb_le _ _) Hl) in E.
  - destruct (_ && _); [done|].
    rewrite (proj2 (starts_with_true _ _)) in E by eauto.
    by rewrite (proj2 (Nat.leb_le _ _) Hl) in E.
  - destruct (_ && _); [done|]. destruct (_ && _); [done|].
    rewrite (proj2 (starts_with_true _ _)) in E by eauto.
    by rewrite (proj2 (Nat.ltb_lt _ _)) in E by lia.
Qed.

Lemma is_secret_key_false k : is_secret_key k = false -> ~ secret_named k.
Proof.
  intros E (f & a & b & Hf & Hk). unfold is_secret_key in E. cbv zeta in E.
  enough (List.existsb (fun f => str_contains f (normalize_key k)) SECRET_KEY_FRAGMENTS = true) by congruence.
  apply existsb_exists. exists f. split; [done|]. unfold str_contains. rewrite Hk. apply contains_app.
Qed.

Lemma is_environment_key_false k : is_environment_key k = false -> ~ environment_named k.
Proof.
  intros E Hin. unfold is_environment_key in E. cbv zeta in E.
  enough (List.existsb (fun f => (normalize_key k =? f)%string) ENVIRONMENT_KEY_FRAGMENTS = true) by congruence.
  apply existsb_exists. eexists. split; [done|]. apply String.eqb_refl.
Qed.

Lemma bound_string_kept s :
  looks_like_secret s = false -> kept_leaf (VString s) (VString (fst (bound_string s false))).
Proof.
  intros Hs%looks_like_secret_false. split; [done|]. unfold bound_string.
  destruct (Z.leb_spec (len s) MAX_STRING_BYTES) as [Hl|Hl]; cbn [fst]; [by left|]. right.
  set (n := boundary_at_most _ _). exists (firstn n (chars s)), (skipn n (chars s)).
  split; [by rewrite firstn_skipn|]. split; [|done].
  rewrite length_firstn. pose proof (boundary_at_most_le (chars s) (Z.to_nat MAX_STRING_BYTES)).
  assert (Z.of_nat (Z.to_nat MAX_STRING_BYTES) = MAX_STRING_BYTES) by (apply Z2Nat.id; done).
  fold n in H. lia.
Qed.

Lemma accepts_credential_id i s : SafeIdentifier.accepts i s = true -> credential_id s.
Proof.
  destruct i. unfold SafeIdentifier.accepts.
  destruct (strip_prefix _ (chars s)) as [h|] eqn:E; [|done].
  apply strip_prefix_Some in E. intros [H1 H2]%andb_true_iff. apply Nat.eqb_eq in H1.
  exists h. split; [done|]. split; [done|]. apply List.Forall_forall. intros b Hb.
  rewrite forallb_forall in H2. by apply orb_true_iff, H2.
Qed.

(** A leaf of what is left of a [safe_metadata] block. *)
Lemma walk_safe_metadata_leaf c path w :
  at_place path (fst (walk_safe_metadata c false)) w -> is_leaf w = true ->
  placeholder w
  \/ exists j s, path = [Field j "credential_id"] /\ at_place path c w /\ w = VString s
       /\ credential_id s.
Proof.
  destruct c as [| | | | |m].
  1-5: intros H Hl; cbn in H; inversion H; subst; by left; left.
  cbn [walk_safe_metadata]. erewrite map_accum_spec.
  2:{ apply List.Forall_forall. intros [k c] _ m'. cbn.
      repeat case_match; cbn; by rewrite ?orb_false_r, ?orb_true_r. }
  cbn [fst]. intros H Hl. inversion H as [|? ? ? ? ? E|j k c' ? rest ? E Hc]; subst; [done..|].
  rewrite list_lookup_fmap in E. destruct (m !! j) as [[k0 c]|] eqn:Em; [|done]. cbn in E.
  destruct (SafeIdentifier.from_key k0) as [i|] eqn:Ek; cbn in E.
  2:{ injection E as <- <-. inversion Hc; subst. by left; left. }
  unfold SafeIdentifier.from_key in Ek. destruct (String.eqb_spec k0 "credential_id"); [|done]. subst k0.
  destruct (as_str c) as [t|] eqn:E2; cbn in E.
  2:{ injection E as <- <-. inversion Hc; subst. by left; left. }
  destruct (SafeIdentifier.accepts i t) eqn:E3; injection E as <- <-.
  - destruct c; try done. injection E2 as ->. inversion Hc; subst. right.
    exists j, t. split; [done|]. split; [by econstructor; [|constructor]|]. split; [done|].
    by eapply accepts_credential_id.
  - inversion Hc; subst. by left; left.
Qed.

Lemma redacts_item l i x path w :
  l !! i = Some x -> redacts_leaf x path w -> redacts_leaf (VArray l) (Item i :: path) w.
Proof.
  intros Hi [Hp|(u & Hu & [[Ho Hk]|((a & b & before & -> & Ho) & H)])]; [by left|right..].
  - exists u. split; [by econstructor|]. by left.
  - exists u. split; [by econstructor|]. right. split; [|done]. by exists a, b, (Item i :: before).
Qed.

Lemma redacts_field m i k c path w :
  m !! i = Some (k, c) -> k <> SAFE_METADATA_KEY -> ~ environment_named k ->
  (secret_named k ->
     can_carry_secret c = false \/ (normalize_key k = "credentials" /\ is_array c = true)) ->
  is_leaf w = true -> redacts_leaf c path w -> redacts_leaf (VObject m) (Field i k :: path) w.
Proof.
  intros Hi Hk He Hs Hl [Hp|(u & Hu & [[Ho Hw]|((a & b & before & -> & Ho) & H)])]; [by left|right..].
  - exists u. split; [by econstructor|]. left. split; [|done]. split; [done|]. split; [done|].
    split; [|done]. intros [Hc|[Hn Hc]]%Hs.
    + left. destruct c; try done; inversion Hu; subst; cbn in Hw; subst; eauto.
    + right. split; [done|]. destruct c as [| | | |l|]; try done. inversion Hu; subst; eauto.
      cbn in Hw. by subst w.
  - exists u. split; [by econstructor|]. right. split; [|done]. exists a, b, (Field i k :: before).
    split; [done|]. split; [done|]. split; [done|]. split; [|done]. intros [Hc|[Hn Hc]]%Hs.
    + destruct c; try done; destruct before; inversion Hu.
    + right. split; [done|]. destruct c as [| | | |l|]; try done.
      destruct before as [|st before]; inversion Hu; subst; eauto.
Qed.

Lemma walk_redacts_leaf v d path w :
  at_place path (walk_value v d) w -> is_leaf w = true -> redacts_leaf v path w.
Proof.
  revert d path. induction v as [|b|n|s|l IH|m IH] using Value_ind'; intros d path; unfold walk_value;
    (destruct (Nat.le_gt_cases MAX_DEPTH d) as [H|H];
     [rewrite walk_deep by done; intros Hat _; inversion Hat; subst; by left; left|]).
  1-3: rewrite walk_scalar by done; intros Hat _; inversion Hat; subst; right;
       eexists; (split; [constructor|]); by left.
  - rewrite walk_string by done. destruct (looks_like_secret s) eqn:E; intros Hat _; inversion Hat; subst.
    { by left; left. }
    right. eexists. split; [constructor|]. left. split; [done|]. by apply bound_string_kept.
  - rewrite walk_array by done. cbn [fst]. intros Hat Hl. inversion Hat as [|i x ? rest ? Ei Hx|]; subst; [done|].
    rewrite list_lookup_fmap in Ei. destruct (l !! i) as [y|] eqn:Ey; [|done]. injection Ei as <-.
    apply (redacts_item _ _ y); [done|]. rewrite List.Forall_forall in IH.
    eapply IH; [|done..]. apply list_elem_of_In. by eapply list_elem_of_lookup_2.
  - rewrite walk_object by done. cbn [fst]. intros Hat Hl. inversion Hat as [| |i k c' ? rest ? Ei Hc]; subst; [done|].
    rewrite list_lookup_fmap in Ei. destruct (m !! i) as [[k0 c]|] eqn:Em; [|done].
    assert (fst (walk_entry d (k0, c) false) = (k, c')) as Ei' by (by injection Ei). clear Ei.
    assert (In (k0, c) m) as Hin by (apply list_elem_of_In; by eapply list_elem_of_lookup_2).
    rewrite List.Forall_forall in IH. specialize (IH _ Hin). cbn in IH.
    destruct (walk_entry_cases d k0 c) as [[-> Er]|[(Hk & He & Er)|[(Hk & He & Hs & Er)|(Hk & He & Hs & Er)]]];
      rewrite Er in Ei'; injection Ei' as <- <-.
    + destruct (walk_safe_metadata_leaf _ _ _ Hc Hl) as [Hp|(j & s & -> & Hat' & -> & Hid)]; [by left|].
      right. eexists. split; [by econstructor|]. right. split; [by exists i, j, []|]. eauto.
    + inversion Hc; subst. by left; right.
    + inversion Hc; subst. by left; left.
    + apply (redacts_field _ _ _ c); auto using is_environment_key_false.
      * intros Hn. destruct (is_secret_key k0) eqn:Ek; [|by apply is_secret_key_false in Ek].
        destruct (can_carry_secret c); [right|by left]. cbn in Hs. apply negb_false_iff in Hs.
        apply andb_true_iff in Hs as [Hs ?]. by apply String.eqb_eq in Hs.
      * by apply (IH (S d)).
Qed.

Lemma accepts_len i s : SafeIdentifier.accepts i s = true -> len s = 21.
Proof.
  destruct i. unfold SafeIdentifier.accepts.
  destruct (strip_prefix _ (chars s)) as [h|] eqn:E; [|done].
  apply strip_prefix_Some in E. intros [H _]%andb_true_iff. apply Nat.eqb_eq in H.
  unfold len. rewrite <- length_chars, E, length_app, H. done.
Qed.

Lemma depth_fold {A} (g : A -> Value) l n :
  (forall x, In x l -> (depth (g x) <= n)%nat) ->
  (List.fold_right (fun x n => Nat.max (depth (g x)) n) 0%nat l <= n)%nat.
Proof.
  induction l as [|x l IH]; cbn; intros H; [lia|].
  apply Nat.max_lub; [by apply H; left|]. apply IH. intros y Hy. apply H. by right.
Qed.

Lemma walk_depth v d : (depth (walk_value v d) <= MAX_DEPTH + 1 - d)%nat.
Proof.
  revert d. induction v as [|b|n|s|l IH|m IH] using Value_ind'; intros d; unfold walk_value;
    (destruct (Nat.le_gt_cases MAX_DEPTH d) as [H|H]; [rewrite walk_deep by done; cbn; lia|]).
  1-3: rewrite walk_scalar by done; cbn; lia.
  - rewrite walk_string by done. destruct (looks_like_secret s); cbn [fst depth]; lia.
  - rewrite walk_array by done. cbn [fst depth]. unfold MAX_DEPTH in *.
    assert (forall x, In x l -> (depth (walk_value x (S d)) <= 32 - d)%nat) as Hx.
    { intros x Hx. rewrite List.Forall_forall in IH. specialize (IH _ Hx (S d)). lia. }
    pose proof (depth_fold (fun x => walk_value x (S d)) l _ Hx) as Hd.
    rewrite fold_right_map. lia.
  - rewrite walk_object by done. cbn [fst depth]. unfold MAX_DEPTH in *.
    assert (forall e, In e m -> (depth (snd (fst (walk_entry d e false))) <= 32 - d)%nat) as Hx.
    { intros [k c] Hx. rewrite List.Forall_forall in IH. specialize (IH _ Hx (S d)). cbn in IH.
      destruct (walk_entry_cases d k c) as [[-> ->]|[(_ & _ & ->)|[(_ & _ & _ & ->)|(_ & _ & _ & ->)]]];
        cbn [fst snd depth]; try lia.
      pose proof (walk_safe_metadata_ok c) as Hok.
      destruct (fst (walk_safe_metadata c false)) as [| | |t| |mm] eqn:E; cbn in Hok; try done; cbn; [lia|].
      enough (List.fold_right (fun e n => Nat.max (depth (snd e)) n) 0%nat mm <= 0)%nat by lia.
      apply (depth_fold snd). intros e He. rewrite forallb_forall in Hok. specialize (Hok _ He).
      unfold identifier_ok in Hok. by destruct (snd e). }
    pose proof (depth_fold (fun e => snd (fst (walk_entry d e false))) m _ Hx) as Hd.
    rewrite fold_right_map. lia.
Qed.

(** ** The flag tells whether anything changed *)

Lemma walk_safe_metadata_unmodified c :
  snd (walk_safe_metadata c false) = false -> fst (walk_safe_metadata c false) = c.
Proof.
  destruct c as [| | | | |m]; try done. cbn [walk_safe_metadata].
  erewrite map_accum_spec.
  - cbn [fst snd]. rewrite orb_false_l, existsb_false. intros H. f_equal. apply map_id_in.
    intros [k c] Hin. specialize (H _ Hin). cbn in *. by split_if.
  - apply List.Forall_forall. intros [k c] _ m'. cbn.
    repeat case_match; cbn; by rewrite ?orb_false_r, ?orb_true_r.
Qed.

Lemma bound_string_unmodified s :
  snd (bound_string s false) = false -> fst (bound_string s false) = s.
Proof. unfold bound_string. by split_if. Qed.

Lemma walk_unmodified v d : walk_flag v d = false -> walk_value v d = v.
Proof.
  revert d. induction v as [|b|n|s|l IH|m IH] using Value_ind'; intros d;
    unfold walk_value, walk_flag;
    (destruct (Nat.le_gt_cases MAX_DEPTH d) as [H|H]; [by rewrite walk_deep|]).
  1-3: by rewrite walk_scalar.
  - rewrite walk_string by done. split_if; [done|]. cbn [fst snd]. intros Hm.
    by rewrite bound_string_unmodified.
  - rewrite walk_array by done. cbn [fst snd]. rewrite existsb_false. intros Hm. f_equal.
    apply map_id_in. intros x Hx. rewrite List.Forall_forall in IH. auto.
  - rewrite walk_object by done. cbn [fst snd]. rewrite existsb_false. intros Hm. f_equal.
    apply map_id_in. intros [k c] Hx. rewrite List.Forall_forall in IH.
    specialize (IH _ Hx (S d)). specialize (Hm _ Hx). cbn in IH. revert Hm.
    destruct (walk_entry_cases d k c) as [[-> ->]|[(_ & _ & ->)|[(_ & _ & _ & ->)|(_ & _ & _ & ->)]]];
      cbn [fst snd]; try done; intros Hm.
    + by rewrite walk_safe_metadata_unmodified.
    + by rewrite IH.
Qed.

(** ** Redacting twice *)

Lemma walk_safe_metadata_idem c :
  fst (walk_safe_metadata (fst (walk_safe_metadata c false)) false)
  = fst (walk_safe_metadata c false).
Proof.
  assert (forall m, fst (walk_safe_metadata (VObject m) false) =
    VObject (List.map (fun e => if match SafeIdentifier.from_key (fst e), as_str (snd e) with
              | Some i, Some t => SafeIdentifier.accepts i t | _, _ => false end
              then e else (fst e, VString REDACTED)) m)) as Heq.
  { intros m. cbn [walk_safe_metadata]. erewrite map_accum_spec.
    - cbn [fst]. f_equal. apply map_ext. intros [k c']. cbn. by repeat case_match.
    - apply List.Forall_forall. intros [k c'] _ m'. cbn.
      repeat case_match; cbn; by rewrite ?orb_false_r, ?orb_true_r. }
  destruct c as [| | | | |m]; try done. rewrite !Heq, map_map. f_equal. apply map_ext.
  intros [k c]. cbn.
  destruct (SafeIdentifier.from_key k) as [i|] eqn:Ek; cbn; [|by rewrite Ek].
  destruct (as_str c) as [t|] eqn:Et; cbn; [|rewrite Ek; by destruct i].
  destruct (SafeIdentifier.accepts i t) eqn:Ea; cbn; rewrite Ek; [by rewrite Et, Ea|].
  by destruct i.
Qed.

Lemma bound_string_short s : len s <= MAX_STRING_BYTES -> bound_string s false = (s, false).
Proof. intros H. unfold bound_string. by rewrite (proj2 (Z.leb_le _ _) H). Qed.

Definition short (s : string) : bool := len s <=? MAX_STRING_BYTES.

Lemma walk_idem v d :
  all_strings short v = true -> walk_value (walk_value v d) d = walk_value v d.
Proof.
  revert d. induction v as [|b|n|s|l IH|m IH] using Value_ind'; intros d Hs;
    unfold walk_value;
    (destruct (Nat.le_gt_cases MAX_DEPTH d) as [H|H]; [by rewrite !walk_deep|]).
  1: by rewrite !(walk_scalar VNull).
  1: by rewrite !(walk_scalar (VBool b)).
  1: by rewrite !(walk_scalar (VNumber n)).
  - cbn in Hs. apply Z.leb_le in Hs. rewrite (walk_string s), bound_string_short by done.
    destruct (looks_like_secret s) eqn:E; cbn [fst]; rewrite walk_string by done; [done|].
    by rewrite E, bound_string_short.
  - cbn in Hs. rewrite forallb_forall in Hs. rewrite List.Forall_forall in IH.
    rewrite walk_array by done. cbn [fst]. rewrite walk_array by done. cbn [fst].
    rewrite map_map. f_equal. apply map_ext_in. intros x Hx. by apply IH, Hs.
  - cbn in Hs. rewrite forallb_forall in Hs. rewrite List.Forall_forall in IH.
    rewrite walk_object by done. cbn [fst]. rewrite walk_object by done. cbn [fst].
    rewrite map_map. f_equal. apply map_ext_in. intros [k c] Hx.
    specialize (IH _ Hx (S d) (Hs _ Hx)). cbn in IH.
    destruct (walk_entry_cases d k c) as [[-> ->]|[(Hk & He & ->)|[(Hk & He & Hc & ->)|(Hk & He & Hc & ->)]]];
      cbn [fst]; apply String.eqb_neq in Hk || idtac; unfold walk_entry.
    + rewrite String.eqb_refl. pose proof (walk_safe_metadata_idem c) as Hi.
      destruct (walk_safe_metadata (fst _) false) as [c' ?]. cbn in *. by rewrite Hi.
    + by rewrite Hk, He.
    + rewrite Hk, He. split_if; [done|].
      destruct (Nat.le_gt_cases MAX_DEPTH (S d)); [by rewrite walk_deep|].
      by rewrite walk_string.
    + rewrite Hk, He. split_if.
      * destruct (walk_value_shape c (S d)) as [->|[E1 E2]]; [done|].
        unfold is_listing_of_credentials in *. rewrite E1, E2 in *. congruence.
      * unfold walk_value in *. destruct (walk (fst (walk c (S d) false)) (S d) false).
        cbn in *. by rewrite IH.
Qed.

(** ** Shape kept for the encoder *)

Lemma ascending_map f m :
  (forall e, fst (f e) = fst e) -> ascending (List.map f m) = ascending m.
Proof.
  intros Hf. induction m as [|e m IH]; [done|]. cbn [List.map ascending]. rewrite IH. f_equal.
  destruct m as [|e' m]; cbn [List.map]; [done|]. unfold key_lt. by rewrite !Hf.
Qed.

Lemma metadata_ok_encodable v :
  metadata_ok v = true -> integral v = true /\
  (ordered v = true <-> match v with VObject m => ascending m | _ => true end = true).
Proof.
  destruct v as [| | |s|l|m]; try done. cbn [metadata_ok]. rewrite forallb_forall. intros H.
  assert (forall e, In e m -> exists s, snd e = VString s) as Hs.
  { intros e He. specialize (H _ He). unfold identifier_ok in H. destruct (snd e); eauto; done. }
  split; cbn.
  - apply forallb_forall. intros e He. destruct (Hs _ He) as [s ->]. done.
  - rewrite andb_true_iff. split; [naive_solver|]. intros Ha. split; [done|].
    apply forallb_forall. intros e He. destruct (Hs _ He) as [s ->]. done.
Qed.

Lemma walk_safe_metadata_ascending c :
  ordered c = true -> ordered (fst (walk_safe_metadata c false)) = true.
Proof.
  intros Ho. apply metadata_ok_encodable; [apply walk_safe_metadata_ok|].
  destruct c as [| | | | |m]; try done. cbn in Ho. apply andb_true_iff in Ho as [Ho _].
  cbn [walk_safe_metadata]. erewrite map_accum_spec.
  - cbn [fst]. rewrite ascending_map; [done|]. intros [k c']. by split_if.
  - apply List.Forall_forall. intros [k c'] _ m'. cbn.
    repeat case_match; cbn; by rewrite ?orb_false_r, ?orb_true_r.
Qed.

Lemma walk_encodable v d :
  integral v = true -> ordered v = true ->
  integral (walk_value v d) = true /\ ordered (walk_value v d) = true.
Proof.
  revert d. induction v as [|b|n|s|l IH|m IH] using Value_ind'; intros d Hi Ho;
    unfold walk_value;
    (destruct (Nat.le_gt_cases MAX_DEPTH d) as [H|H]; [by rewrite walk_deep|]).
  1-3: by rewrite walk_scalar.
  - rewrite walk_string by done. by destruct (looks_like_secret s).
  - cbn in Hi, Ho. rewrite forallb_forall in Hi, Ho. rewrite List.Forall_forall in IH.
    rewrite walk_array by done. cbn [fst integral ordered]. rewrite !forallb_map, !forallb_forall.
    split; intros x Hx; apply IH; auto.
  - cbn in Hi, Ho. apply andb_true_iff in Ho as [Ha Ho].
    rewrite forallb_forall in Hi, Ho. rewrite List.Forall_forall in IH.
    rewrite walk_object by done. cbn [fst integral ordered].
    rewrite ascending_map, Ha by (intros e; apply walk_entry_key).
    rewrite !forallb_map, andb_true_l, !forallb_forall.
    enough (forall e, In e m -> integral (snd (fst (walk_entry d e false))) = true /\
              ordered (snd (fst (walk_entry d e false))) = true) as Hall
      by (split; intros e He; by apply Hall).
    intros [k c] Hx. specialize (IH _ Hx (S d) (Hi _ Hx) (Ho _ Hx)). cbn in IH.
    destruct (walk_entry_cases d k c) as [[-> ->]|[(_ & _ & ->)|[(_ & _ & _ & ->)|(_ & _ & _ & ->)]]];
      cbn [fst snd]; try done.
    split; [apply metadata_ok_encodable, walk_safe_metadata_ok|].
    apply walk_safe_metadata_ascending, (Ho _ Hx).
Qed.

(** A redacted payload can be read back from its stored text. *)
Lemma redacted_roundtrip `{SerdeJsonLaws} v :
  integral v = true -> ordered v = true ->
  from_str (to_string (value (redact v))) = Some (value (redact v)).
Proof.
  intros Hi Ho. rewrite redact_value. destruct (walk_encodable v 0 Hi Ho).
  apply from_str_to_string; [|done..].
  pose proof (walk_depth v 0). unfold MAX_DEPTH in *. lia.
Qed.

(** ** Theorems *)

(** C9. Redaction removes secrets wherever they sit. Take any value at any place of
    the redacted form of a payload that is not a list or an object: it is a
    placeholder; or the payload has the same value at the same place, or a longer
    text there of which it is the first 8 KiB at most and the truncation mark. In the
    latter cases the whole text of the payload does not have the shape of a
    credential (a token, an API key, a bearer header), and no field on the way there
    has the name of an environment or of a secret, with the two exemptions the code
    makes: a number or a boolean stays under such a name, and a list called
    [credentials] is gone through item by item. Under [safe_metadata] nothing but a
    [credential_id] of the form [cred-] and sixteen hexadecimal digits is kept. The
    names of the fields themselves are not redacted. *)
Theorem redact_secret_free v path w :
  at_place path (value (redact v)) w -> is_leaf w = true -> redacts_leaf v path w.
Proof. rewrite redact_value. apply walk_redacts_leaf. Qed.

(** A payload with a token in a list of credentials, a count under a secret's name
    and a credential id. *)
Definition payload1 : Value :=
  VObject [("credentials", VArray [VString "sk-0123456789abcdef01234567"; VString "primary"]);
           ("output_tokens", VBool true);
           ("safe_metadata", VObject [("credential_id", VString "cred-0123456789abcdef");
                                      ("token", VString "abc")])].

Lemma redact_secret_free_witness :
  at_place [Field 0 "credentials"; Item 1] (value (redact payload1)) (VString "primary")
  /\ redacts_leaf payload1 [Field 0 "credentials"; Item 1] (VString "primary")
  /\ redacts_leaf payload1 [Field 0 "credentials"; Item 0] (VString REDACTED)
  /\ redacts_leaf payload1 [Field 2 "safe_metadata"; Field 1 "token"] (VString REDACTED).
Proof.
  assert (at_place [Field 0 "credentials"; Item 1] (value (redact payload1)) (VString "primary")) as H1.
  { vm_compute. econstructor; [done|]. econstructor; [done|]. constructor. }
  split; [exact H1|].
  split; [exact (redact_secret_free _ _ _ H1 eq_refl)|].
  split; apply redact_secret_free; try reflexivity; vm_compute;
    (econstructor; [done|]; econstructor; [done|]; constructor).
Defined.

(** Redaction bounds what is stored and is honest about changing it: the result
    nests at most [MAX_DEPTH + 1] containers, no string exceeds the limit by more
    than the truncation mark, and a value reported as unmodified is the value that
    was given. *)
Theorem redact_bounded_and_faithful v :
  (depth (value (redact v)) <= MAX_DEPTH + 1)%nat
  /\ all_strings (fun s => len s <=? MAX_STRING_BYTES + len TRUNCATED) (value (redact v)) = true
  /\ (modified (redact v) = false -> value (redact v) = v).
Proof.
  rewrite redact_value, redact_modified. split; [|split].
  - pose proof (walk_depth v 0). lia.
  - apply walk_all_strings.
    + vm_compute; reflexivity.
    + vm_compute; reflexivity.
    + intros s _. apply Z.leb_le, bound_string_len.
    + intros i s Hs. apply Z.leb_le. rewrite (accepts_len i s Hs). vm_compute. discriminate.
  - apply walk_unmodified.
Qed.

(** Redacting again changes nothing, when no string was long enough to be cut. *)
Theorem redact_idempotent v :
  all_strings short v = true -> value (redact (value (redact v))) = value (redact v).
Proof. rewrite !redact_value. apply walk_idem. Qed.
