(* ===== verification/Schema.v ===== *)
(** * Schema: the node registry's tables (the migrations of [registry.rs]).

    One record per table row, with the columns of the schema at version 11, and
    the database as the list of rows of each table in rowid order.  [TEXT]
    columns are [string], [INTEGER] columns [Z], nullable columns [option]. *)
From S2P Require Import Prelude.

(** [runs] (migrations 1, 2 and 6). *)
Record RunRow : Type := {
  r_run_id : string;
  r_project_id : string;
  r_session_id : option string;
  r_idempotency_key : option string;
  r_runtime_kind : string;
  r_provider : option string;
  r_model : option string;
  r_status : string;
  r_created_at : Z;
  r_started_at : option Z;
  r_updated_at : Z;
  r_finished_at : option Z;
  r_last_event_seq : Z;
  r_terminal_reason : option string;
  r_error_code : option string;
  r_error_message : option string;
  r_hermes_run_id : option string;
  r_request_payload : string;
  r_result_payload : option string;
  r_recovery_note : option string;
  r_request_fingerprint : string;
  r_retry_of_run_id : option string;
  r_approval_policy : string;
  r_approval_policy_enabled_at : option Z;
  r_approval_policy_enabled_by : option string;
  r_approval_policy_updated_at : option Z
}.

(** [run_events] (migration 1). *)
Record EventRow : Type := {
  e_run_id : string;
  e_seq : Z;
  e_event_type : string;
  e_recorded_at : Z;
  e_source : string;
  e_payload : string;
  e_raw_payload : option string;
  e_redacted : bool;
  e_dedupe_key : option string
}.

(** [run_approvals] (migration 1). *)
Record ApprovalRow : Type := {
  a_run_id : string;
  a_request_seq : Z;
  a_requested_at : Z;
  a_command : option string;
  a_choices : option string;
  a_decision : option string;
  a_decided_at : option Z;
  a_resolution_seq : option Z
}.

(** [projects] (migrations 3 to 5 and 7 to 10). *)
Record ProjectRow : Type := {
  p_project_id : string;
  p_workspace_path : string;
  p_display_name : string;
  p_enabled : Z;
  p_created_at : Z;
  p_metadata : option string;
  p_runtime_endpoint : option string;
  p_runtime_ownership : string;
  p_hermes_home : option string;
  p_hermes_profile : option string;
  p_hermes_api_key_ref : option string;
  p_profile_state : string;
  p_profile_failure : option string;
  p_credential_id : option string;
  p_model : option string;
  p_suspended_at : option Z
}.

(** [remote_commands] (migration 3). *)
Record CommandRow : Type := {
  c_command_id : string;
  c_command : string;
  c_project_id : option string;
  c_received_at : Z;
  c_payload_digest : string;
  c_state : string;
  c_started_at : option Z;
  c_completed_at : option Z;
  c_response_payload : option string;
  c_error_code : option string;
  c_error_message : option string
}.

(** [outbox] (migration 3); [id] is [AUTOINCREMENT]. *)
Record OutboxRow : Type := {
  o_id : Z;
  o_kind : string;
  o_correlation_id : option string;
  o_payload : string;
  o_created_at : Z;
  o_acknowledged_at : option Z
}.

(** [event_subscriptions] (migration 3). *)
Record SubscriptionRow : Type := {
  s_run_id : string;
  s_project_id : string;
  s_acked_seq : Z;
  s_created_at : Z;
  s_updated_at : Z
}.

Record Db : Type := {
  runs : list RunRow;
  run_events : list EventRow;
  run_approvals : list ApprovalRow;
  projects : list ProjectRow;
  remote_commands : list CommandRow;
  outbox : list OutboxRow;
  outbox_sequence : Z;
  event_subscriptions : list SubscriptionRow
}.

Definition empty_db : Db :=
  {| runs := []; run_events := []; run_approvals := []; projects := [];
     remote_commands := []; outbox := []; outbox_sequence := 0;
     event_subscriptions := [] |}.

Definition on_runs (f : list RunRow -> list RunRow) (db : Db) : Db :=
  {| runs := f (runs db); run_events := run_events db; run_approvals := run_approvals db;
     projects := projects db; remote_commands := remote_commands db; outbox := outbox db;
     outbox_sequence := outbox_sequence db; event_subscriptions := event_subscriptions db |}.
Definition on_events (f : list EventRow -> list EventRow) (db : Db) : Db :=
  {| runs := runs db; run_events := f (run_events db); run_approvals := run_approvals db;
     projects := projects db; remote_commands := remote_commands db; outbox := outbox db;
     outbox_sequence := outbox_sequence db; event_subscriptions := event_subscriptions db |}.
Definition on_approvals (f : list ApprovalRow -> list ApprovalRow) (db : Db) : Db :=
  {| runs := runs db; run_events := run_events db; run_approvals := f (run_approvals db);
     projects := projects db; remote_commands := remote_commands db; outbox := outbox db;
     outbox_sequence := outbox_sequence db; event_subscriptions := event_subscriptions db |}.
Definition on_projects (f : list ProjectRow -> list ProjectRow) (db : Db) : Db :=
  {| runs := runs db; run_events := run_events db; run_approvals := run_approvals db;
     projects := f (projects db); remote_commands := remote_commands db; outbox := outbox db;
     outbox_sequence := outbox_sequence db; event_subscriptions := event_subscriptions db |}.
Definition on_commands (f : list CommandRow -> list CommandRow) (db : Db) : Db :=
  {| runs := runs db; run_events := run_events db; run_approvals := run_approvals db;
     projects := projects db; remote_commands := f (remote_commands db); outbox := outbox db;
     outbox_sequence := outbox_sequence db; event_subscriptions := event_subscriptions db |}.
Definition on_outbox (f : list OutboxRow -> list OutboxRow) (next : Z) (db : Db) : Db :=
  {| runs := runs db; run_events := run_events db; run_approvals := run_approvals db;
     projects := projects db; remote_commands := remote_commands db; outbox := f (outbox db);
     outbox_sequence := next; event_subscriptions := event_subscriptions db |}.
Definition on_subscriptions (f : list SubscriptionRow -> list SubscriptionRow) (db : Db) : Db :=
  {| runs := runs db; run_events := run_events db; run_approvals := run_approvals db;
     projects := projects db; remote_commands := remote_commands db; outbox := outbox db;
     outbox_sequence := outbox_sequence db; event_subscriptions := f (event_subscriptions db) |}.

(** ** SQL expressions *)

(** [column = ?] on a nullable column: [NULL] equals nothing. *)
Definition sql_eq (o : option string) (s : string) : bool :=
  match o with Some x => (x =? s)%string | None => false end.
Definition is_null {A} (o : option A) : bool :=
  match o with None => true | Some _ => false end.
(** [COALESCE(a, b)]. *)
Definition coalesce {A} (a b : option A) : option A :=
  match a with Some _ => a | None => b end.

(** SQLite integers are [i64]; a sum that leaves the range becomes a float,
    which reading back as [i64] refuses. *)
Definition i64_max : Z := 2 ^ 63 - 1.
Definition sql_incr (z : Z) : option Z := if z <? i64_max then Some (z + 1) else None.

Lemma sql_eq_true o s : sql_eq o s = true <-> o = Some s.
Proof.
  destruct o as [x|]; cbn; [|done]. rewrite String.eqb_eq. naive_solver.
Qed.

Lemma sql_eq_some s : sql_eq (Some s) s = true.
Proof. by apply sql_eq_true. Qed.
