(* ===== verification/Registry.v ===== *)
(** * Registry: durable run records and the append-only event journal
    ([registry.rs]).

    The operations are the methods of [Registry], over the tables of [Schema].
    The clock, the random bytes of a new run id and the process id are
    arguments.  A statement refused by a constraint of the schema is an [Err];
    other storage failures are not modelled. *)
From S2P Require Import Prelude Text Json RunState Redact Schema.

Definition SOURCE_ASTERISM : string := "asterism".
Definition SOURCE_HERMES : string := "hermes".

(** ** Data *)

Record RunRecord : Type := {
  run_id : string;
  project_id : string;
  session_id : option string;
  idempotency_key : option string;
  runtime_kind : string;
  provider : option string;
  model : option string;
  status : string;
  created_at : Z;
  started_at : option Z;
  updated_at : Z;
  finished_at : option Z;
  last_event_seq : Z;
  terminal_reason : option string;
  error_code : option string;
  error_message : option string;
  hermes_run_id : option string;
  request_payload : Value;
  result_payload : option Value;
  recovery_note : option string;
  retry_of_run_id : option string
}.

Record NewRun : Type := {
  n_project_id : string;
  n_session_id : option string;
  n_idempotency_key : option string;
  n_runtime_kind : string;
  n_provider : option string;
  n_model : option string;
  n_request_payload : Value;
  n_retry_of_run_id : option string
}.

Inductive RunCreation : Type :=
| CreatedRun (r : RunRecord)
| ExistingRun (r : RunRecord).

Definition record (c : RunCreation) : RunRecord :=
  match c with CreatedRun r | ExistingRun r => r end.
Definition is_new (c : RunCreation) : bool :=
  match c with CreatedRun _ => true | ExistingRun _ => false end.

Record RunUpdate : Type := {
  u_status : option RunStatus;
  u_hermes_run_id : option string;
  u_terminal_reason : option string;
  u_error_code : option string;
  u_error_message : option string;
  u_result_payload : option Value;
  u_recovery_note : option string
}.

Module RunUpdate.
Definition status (st : RunStatus) : RunUpdate :=
  {| u_status := Some st; u_hermes_run_id := None; u_terminal_reason := None;
     u_error_code := None; u_error_message := None; u_result_payload := None;
     u_recovery_note := None |}.
Definition with_hermes_run_id (id : string) (u : RunUpdate) : RunUpdate :=
  {| u_status := u_status u; u_hermes_run_id := Some id;
     u_terminal_reason := u_terminal_reason u; u_error_code := u_error_code u;
     u_error_message := u_error_message u; u_result_payload := u_result_payload u;
     u_recovery_note := u_recovery_note u |}.
Definition with_error (code message : string) (u : RunUpdate) : RunUpdate :=
  {| u_status := u_status u; u_hermes_run_id := u_hermes_run_id u;
     u_terminal_reason := u_terminal_reason u; u_error_code := Some code;
     u_error_message := Some message; u_result_payload := u_result_payload u;
     u_recovery_note := u_recovery_note u |}.
Definition with_terminal_reason (reason : string) (u : RunUpdate) : RunUpdate :=
  {| u_status := u_status u; u_hermes_run_id := u_hermes_run_id u;
     u_terminal_reason := Some reason; u_error_code := u_error_code u;
     u_error_message := u_error_message u; u_result_payload := u_result_payload u;
     u_recovery_note := u_recovery_note u |}.
Definition with_result (payload : Value) (u : RunUpdate) : RunUpdate :=
  {| u_status := u_status u; u_hermes_run_id := u_hermes_run_id u;
     u_terminal_reason := u_terminal_reason u; u_error_code := u_error_code u;
     u_error_message := u_error_message u; u_result_payload := Some payload;
     u_recovery_note := u_recovery_note u |}.
Definition with_recovery_note (note : string) (u : RunUpdate) : RunUpdate :=
  {| u_status := u_status u; u_hermes_run_id := u_hermes_run_id u;
     u_terminal_reason := u_terminal_reason u; u_error_code := u_error_code u;
     u_error_message := u_error_message u; u_result_payload := u_result_payload u;
     u_recovery_note := Some note |}.
End RunUpdate.

Record JournalEvent : Type := {
  j_event_type : string;
  j_source : string;
  j_payload : Value;
  j_raw : option Value;
  j_dedupe_key : option string
}.

Definition JournalEvent_asterism (event_type : string) (payload : Value) : JournalEvent :=
  {| j_event_type := event_type; j_source := SOURCE_ASTERISM; j_payload := payload;
     j_raw := None; j_dedupe_key := None |}.

Record StoredEvent : Type := {
  se_run_id : string;
  se_seq : Z;
  se_event_type : string;
  se_recorded_at : Z;
  se_source : string;
  se_payload : Value;
  se_raw_payload : option Value;
  se_redacted : bool
}.

Inductive AppendOutcome : Type :=
| Appended (seq : Z)
| Duplicate (seq : Z).

Definition outcome_seq (o : AppendOutcome) : Z :=
  match o with Appended s | Duplicate s => s end.

Record ApprovalRecord : Type := {
  ar_run_id : string;
  ar_request_seq : Z;
  ar_requested_at : Z;
  ar_command : option string;
  ar_choices : option Value;
  ar_decision : option string;
  ar_decided_at : option Z;
  ar_resolution_seq : option Z
}.

(** What a method can fail with. *)
Inductive RegistryError : Type :=
| IdempotencyConflict (project_id key existing_run_id : string)
| UnknownRun (run_id : string)
| AppendToUnknownRun (run_id : string)
| UnknownStatus (text : string)
| UnknownPolicy (text : string)
| Invalid (t : InvalidTransition)
| TerminalPolicy (run_id : string)
| ConstraintFailed (constraint : string)
| SequenceOverflow
| Vanished.

(** What the host supplies to [new_run_id]. *)
Record Host : Type := { urandom : option (list Z); process_id : Z }.

(** ** Identifiers and digests *)

Fixpoint le_bytes (n : nat) (z : Z) : list Z :=
  match n with
  | O => []
  | S n' => Z.land z 255 :: le_bytes n' (Z.shiftr z 8)
  end.

Definition new_run_id (h : Host) (now : Z) : string :=
  let bs := match urandom h with
            | Some bs => bs
            | None => le_bytes 8 now ++ le_bytes 4 (process_id h)
            end in
  String.append "arun_" (of_chars (List.concat (List.map (hex_fixed 2) bs))).

(** FNV-1a on 64 bits. *)
Definition fnv1a (encoded : bytes) : Z :=
  List.fold_left
    (fun hash b => Z.land (Z.lxor hash (Z.of_N (code b)) * 0x100000001b3) (2 ^ 64 - 1))
    encoded 0xcbf29ce484222325.

Section Methods.
Context `{SerdeJson}.

Definition fingerprint_value (v : Value) : string :=
  of_chars (hex_fixed 16 (fnv1a (chars (to_string v)))).

Definition request_fingerprint (request : NewRun) : string :=
  fingerprint_value (object
    [("project_id", VString (n_project_id request));
     ("session_id", null_or VString (n_session_id request));
     ("runtime_kind", VString (n_runtime_kind request));
     ("request", value (redact (n_request_payload request)))])%string.

(** ** Rows to records *)

Definition map_run (r : RunRow) : RunRecord :=
  {| run_id := r_run_id r; project_id := r_project_id r; session_id := r_session_id r;
     idempotency_key := r_idempotency_key r; runtime_kind := r_runtime_kind r;
     provider := r_provider r; model := r_model r; status := r_status r;
     created_at := r_created_at r; started_at := r_started_at r;
     updated_at := r_updated_at r; finished_at := r_finished_at r;
     last_event_seq := r_last_event_seq r; terminal_reason := r_terminal_reason r;
     error_code := r_error_code r; error_message := r_error_message r;
     hermes_run_id := r_hermes_run_id r;
     request_payload := default VNull (from_str (r_request_payload r));
     result_payload := match r_result_payload r with
                       | Some encoded => from_str encoded
                       | None => None
                       end;
     recovery_note := r_recovery_note r; retry_of_run_id := r_retry_of_run_id r |}.

Definition map_event (e : EventRow) : StoredEvent :=
  {| se_run_id := e_run_id e; se_seq := e_seq e; se_event_type := e_event_type e;
     se_recorded_at := e_recorded_at e; se_source := e_source e;
     se_payload := default VNull (from_str (e_payload e));
     se_raw_payload := match e_raw_payload e with
                       | Some encoded => from_str encoded
                       | None => None
                       end;
     se_redacted := e_redacted e |}.

Definition map_approval (a : ApprovalRow) : ApprovalRecord :=
  {| ar_run_id := a_run_id a; ar_request_seq := a_request_seq a;
     ar_requested_at := a_requested_at a; ar_command := a_command a;
     ar_choices := match a_choices a with Some encoded => from_str encoded | None => None end;
     ar_decision := a_decision a; ar_decided_at := a_decided_at a;
     ar_resolution_seq := a_resolution_seq a |}.

Definition is_run (id : string) (r : RunRow) : bool := (r_run_id r =? id)%string.

Definition load_run (db : Db) (id : string) : option RunRecord :=
  map_run <$> select_one (is_run id) (runs db).

(** ** Creating and reading runs *)

(** [INSERT INTO runs], under the primary key, the two partial unique indexes
    and the self-reference of [retry_of_run_id]. *)
Definition insert_run (row : RunRow) : M RegistryError Db unit :=
  let! db := state in
  if List.existsb (is_run (r_run_id row)) (runs db)
  then fail (ConstraintFailed "runs.run_id")
  else if match r_idempotency_key row with
          | Some key => List.existsb (fun r => (r_project_id r =? r_project_id row)%string
                                               && sql_eq (r_idempotency_key r) key) (runs db)
          | None => false
          end
  then fail (ConstraintFailed "runs_idempotency")
  else if match r_retry_of_run_id row with
          | Some id => negb (List.existsb (is_run id) (runs db))
                       && negb (id =? r_run_id row)%string
          | None => false
          end
  then fail (ConstraintFailed "runs.retry_of_run_id")
  else modify (on_runs (fun t => t ++ [row])).

Definition new_row (request : NewRun) (id fingerprint : string) (now : Z) : RunRow :=
  {| r_run_id := id; r_project_id := n_project_id request;
     r_session_id := n_session_id request;
     r_idempotency_key := n_idempotency_key request;
     r_runtime_kind := n_runtime_kind request; r_provider := n_provider request;
     r_model := n_model request; r_status := RunStatus.as_str Created;
     r_created_at := now; r_started_at := None; r_updated_at := now;
     r_finished_at := None; r_last_event_seq := 0; r_terminal_reason := None;
     r_error_code := None; r_error_message := None; r_hermes_run_id := None;
     r_request_payload := to_string (value (redact (n_request_payload request)));
     r_result_payload := None; r_recovery_note := None;
     r_request_fingerprint := fingerprint;
     r_retry_of_run_id := n_retry_of_run_id request;
     r_approval_policy := "manual"; r_approval_policy_enabled_at := None;
     r_approval_policy_enabled_by := None; r_approval_policy_updated_at := None |}.

(** The row an idempotency key already names. *)
Definition by_idempotency (request : NewRun) (db : Db) : option RunRow :=
  match n_idempotency_key request with
  | Some key =>
      select_one (fun r => (r_project_id r =? n_project_id request)%string
                           && sql_eq (r_idempotency_key r) key) (runs db)
  | None => None
  end.

Definition create_run (h : Host) (now stamp : Z) (request : NewRun) :
    M RegistryError Db RunCreation :=
  let fingerprint := request_fingerprint request in
  transaction (
    let! existing := gets (by_idempotency request) in
    match existing with
    | Some row =>
        if negb (r_request_fingerprint row =? fingerprint)%string then
          fail (IdempotencyConflict (n_project_id request)
                  (default ""%string (n_idempotency_key request)) (r_run_id row))
        else
          let! r := query (fun db => context (load_run db (r_run_id row)) Vanished) in
          ret (ExistingRun r)
    | None =>
        let id := new_run_id h stamp in
        insert_run (new_row request id fingerprint now) ;;;
        let! r := query (fun db => context (load_run db id) Vanished) in
        ret (CreatedRun r)
    end).

Definition run (id : string) (db : Db) : option RunRecord := load_run db id.

Definition run_by_hermes_id (hermes_id : string) (db : Db) : option RunRecord :=
  match select_one (fun r => sql_eq (r_hermes_run_id r) hermes_id) (runs db) with
  | Some r => load_run db (r_run_id r)
  | None => None
  end.

(** [ORDER BY created_at DESC, rowid DESC LIMIT ?], then one load per id. *)
Definition list_runs (project : string) (n : Z) (db : Db) : list RunRecord :=
  let rows := List.rev (select (fun r => (r_project_id r =? project)%string) (runs db)) in
  let ids := List.map r_run_id
               (limit n (order_by (fun a b => r_created_at b <=? r_created_at a) rows)) in
  omap (load_run db) ids.

Definition active_runs (project : string) (db : Db) : list RunRecord :=
  List.rev (List.filter (fun r => match RunStatus.parse (status r) with
                                  | Ok st => RunStatus.is_active st
                                  | Err _ => false
                                  end) (list_runs project 1000 db)).

(** ** State changes *)

Definition updated_row (target : RunStatus) (u : RunUpdate) (now : Z) (r : RunRow) : RunRow :=
  let started_at_marker := match target with Starting | Running => true | _ => false end in
  let finished := RunStatus.is_terminal target in
  {| r_run_id := r_run_id r; r_project_id := r_project_id r; r_session_id := r_session_id r;
     r_idempotency_key := r_idempotency_key r; r_runtime_kind := r_runtime_kind r;
     r_provider := r_provider r; r_model := r_model r;
     r_status := RunStatus.as_str target;
     r_created_at := r_created_at r;
     r_started_at := if is_null (r_started_at r) && started_at_marker then Some now
                     else r_started_at r;
     r_updated_at := now;
     r_finished_at := if finished then coalesce (r_finished_at r) (Some now)
                      else r_finished_at r;
     r_last_event_seq := r_last_event_seq r;
     r_terminal_reason := coalesce (u_terminal_reason u) (r_terminal_reason r);
     r_error_code := coalesce (u_error_code u) (r_error_code r);
     r_error_message := coalesce (u_error_message u) (r_error_message r);
     r_hermes_run_id := coalesce (u_hermes_run_id u) (r_hermes_run_id r);
     r_request_payload := r_request_payload r;
     r_result_payload :=
       coalesce ((fun v => to_string (value (redact v))) <$> u_result_payload u)
                (r_result_payload r);
     r_recovery_note := coalesce (u_recovery_note u) (r_recovery_note r);
     r_request_fingerprint := r_request_fingerprint r;
     r_retry_of_run_id := r_retry_of_run_id r;
     r_approval_policy := r_approval_policy r;
     r_approval_policy_enabled_at := r_approval_policy_enabled_at r;
     r_approval_policy_enabled_by := r_approval_policy_enabled_by r;
     r_approval_policy_updated_at := r_approval_policy_updated_at r |}.

(** The unique index on [hermes_run_id] refuses an id another run holds. *)
Definition hermes_id_taken (id : string) (u : RunUpdate) (db : Db) : bool :=
  match u_hermes_run_id u with
  | Some h => List.existsb (fun r => negb (is_run id r) && sql_eq (r_hermes_run_id r) h) (runs db)
  | None => false
  end.

Definition apply_update (id : string) (u : RunUpdate) (now : Z) : M RegistryError Db unit :=
  let! row := query (fun db => context (select_one (is_run id) (runs db)) (UnknownRun id)) in
  let! current := lift (match RunStatus.parse (r_status row) with
                        | Ok st => Ok st
                        | Err text => Err (UnknownStatus text)
                        end) in
  let target := default current (u_status u) in
  match validate_transition current target with
  | Err t => fail (Invalid t)
  | Ok _ =>
      let! taken := gets (hermes_id_taken id u) in
      if taken : bool then fail (ConstraintFailed "runs_hermes_run_id")
      else modify (on_runs (update_where (is_run id) (updated_row target u now)))
  end.

Definition update_run (id : string) (u : RunUpdate) (now : Z) : M RegistryError Db RunRecord :=
  transaction (
    apply_update id u now ;;;
    query (fun db => context (load_run db id) Vanished)).

(** ** The journal *)

Definition is_event (id : string) (e : EventRow) : bool := (e_run_id e =? id)%string.

(** [INSERT INTO run_events], under its primary key, its dedupe index and its
    reference to [runs]. *)
Definition insert_event (row : EventRow) : M RegistryError Db unit :=
  let! db := state in
  if negb (List.existsb (is_run (e_run_id row)) (runs db))
  then fail (ConstraintFailed "run_events.run_id")
  else if List.existsb (fun e => is_event (e_run_id row) e && (e_seq e =? e_seq row))
            (run_events db)
  then fail (ConstraintFailed "run_events.seq")
  else if match e_dedupe_key row with
          | Some key => List.existsb (fun e => is_event (e_run_id row) e
                                               && sql_eq (e_dedupe_key e) key) (run_events db)
          | None => false
          end
  then fail (ConstraintFailed "run_events_dedupe")
  else modify (on_events (fun t => t ++ [row])).

Definition bump_row (seq now : Z) (r : RunRow) : RunRow :=
  {| r_run_id := r_run_id r; r_project_id := r_project_id r; r_session_id := r_session_id r;
     r_idempotency_key := r_idempotency_key r; r_runtime_kind := r_runtime_kind r;
     r_provider := r_provider r; r_model := r_model r; r_status := r_status r;
     r_created_at := r_created_at r; r_started_at := r_started_at r; r_updated_at := now;
     r_finished_at := r_finished_at r; r_last_event_seq := seq;
     r_terminal_reason := r_terminal_reason r; r_error_code := r_error_code r;
     r_error_message := r_error_message r; r_hermes_run_id := r_hermes_run_id r;
     r_request_payload := r_request_payload r; r_result_payload := r_result_payload r;
     r_recovery_note := r_recovery_note r; r_request_fingerprint := r_request_fingerprint r;
     r_retry_of_run_id := r_retry_of_run_id r; r_approval_policy := r_approval_policy r;
     r_approval_policy_enabled_at := r_approval_policy_enabled_at r;
     r_approval_policy_enabled_by := r_approval_policy_enabled_by r;
     r_approval_policy_updated_at := r_approval_policy_updated_at r |}.

(** The event that already carries this dedupe key. *)
Definition by_dedupe (id : string) (event : JournalEvent) (db : Db) : option EventRow :=
  match j_dedupe_key event with
  | Some key => select_one (fun e => is_event id e && sql_eq (e_dedupe_key e) key) (run_events db)
  | None => None
  end.

Definition event_row (id : string) (event : JournalEvent) (seq now : Z) : EventRow :=
  let payload := redact (j_payload event) in
  let raw_encoded := match j_raw event with Some raw => bounded_raw raw | None => None end in
  {| e_run_id := id; e_seq := seq; e_event_type := j_event_type event; e_recorded_at := now;
     e_source := j_source event; e_payload := to_string (value payload);
     e_raw_payload := raw_encoded;
     e_redacted := modified payload || (negb (is_null (j_raw event)) && is_null raw_encoded);
     e_dedupe_key := j_dedupe_key event |}.

(** The clock is read once for the event, once for the run row and once inside
    [apply_update]. *)
Record Clock3 : Type := { t_event : Z; t_run : Z; t_update : Z }.

Definition append_event (id : string) (event : JournalEvent) (u : option RunUpdate) (t : Clock3) :
    M RegistryError Db AppendOutcome :=
  transaction (
    let! found := gets (fun db => select_one (is_run id) (runs db)) in
    match found with
    | None => fail (AppendToUnknownRun id)
    | Some row =>
        let! existing := gets (by_dedupe id event) in
        match existing with
        | Some e => ret (Duplicate (e_seq e))
        | None =>
            let! next_seq := lift (context (sql_incr (r_last_event_seq row)) SequenceOverflow) in
            insert_event (event_row id event next_seq (t_event t)) ;;;
            modify (on_runs (update_where (is_run id) (bump_row next_seq (t_run t)))) ;;;
            match u with
            | Some up => apply_update id up (t_update t)
            | None => ret tt
            end ;;;
            ret (Appended next_seq)
        end
    end).

Definition events_since (id : string) (after_seq n : Z) (db : Db) : list StoredEvent :=
  List.map map_event
    (limit n (order_by (fun a b => e_seq a <=? e_seq b)
                (select (fun e => is_event id e && (after_seq <? e_seq e)) (run_events db)))).

(** ** Approvals *)

Definition is_approval (id : string) (seq : Z) (a : ApprovalRow) : bool :=
  (a_run_id a =? id)%string && (a_request_seq a =? seq).

(** [INSERT OR IGNORE]: a duplicate key is ignored, a missing run is not. *)
Definition record_approval_request (id : string) (request_seq : Z) (command : option string)
    (choices : option Value) (now : Z) : M RegistryError Db unit :=
  let! db := state in
  if List.existsb (is_approval id request_seq) (run_approvals db) then ret tt
  else if negb (List.existsb (is_run id) (runs db))
  then fail (ConstraintFailed "run_approvals.run_id")
  else modify (on_approvals (fun t => t ++
    [{| a_run_id := id; a_request_seq := request_seq; a_requested_at := now;
        a_command := command; a_choices := to_string <$> choices; a_decision := None;
        a_decided_at := None; a_resolution_seq := None |}])).

Definition decide_row (decision : string) (now : Z) (a : ApprovalRow) : ApprovalRow :=
  {| a_run_id := a_run_id a; a_request_seq := a_request_seq a;
     a_requested_at := a_requested_at a; a_command := a_command a;
     a_choices := a_choices a; a_decision := Some decision; a_decided_at := Some now;
     a_resolution_seq := a_resolution_seq a |}.

Definition undecided (id : string) (seq : Z) (a : ApprovalRow) : bool :=
  is_approval id seq a && is_null (a_decision a).

Definition record_approval_decision (id : string) (request_seq : Z) (decision : string) (now : Z) :
    M RegistryError Db bool :=
  let! changed := gets (fun db => changes (undecided id request_seq) (run_approvals db)) in
  modify (on_approvals (update_where (undecided id request_seq) (decide_row decision now))) ;;;
  ret (changed =? 1)%nat.

Definition resolve_row (resolution_seq : Z) (a : ApprovalRow) : ApprovalRow :=
  {| a_run_id := a_run_id a; a_request_seq := a_request_seq a;
     a_requested_at := a_requested_at a; a_command := a_command a;
     a_choices := a_choices a; a_decision := a_decision a; a_decided_at := a_decided_at a;
     a_resolution_seq := Some resolution_seq |}.

Definition record_approval_resolution (id : string) (request_seq resolution_seq : Z) :
    M RegistryError Db unit :=
  modify (on_approvals (update_where (is_approval id request_seq) (resolve_row resolution_seq))).

Definition pending_approval (id : string) (db : Db) : option ApprovalRecord :=
  map_approval <$> List.hd_error (order_by (fun a b => a_request_seq b <=? a_request_seq a)
    (select (fun a => (a_run_id a =? id)%string && is_null (a_decision a)) (run_approvals db))).

Definition approvals (id : string) (db : Db) : list ApprovalRecord :=
  List.map map_approval (order_by (fun a b => a_request_seq a <=? a_request_seq b)
    (select (fun a => (a_run_id a =? id)%string) (run_approvals db))).

(** ** Approval policy *)

Definition run_approval_policy (id : string) (db : Db) : Result RegistryError RunPolicyState :=
  match select_one (is_run id) (runs db) with
  | None => Ok RunPolicyState_default
  | Some r =>
      match RunApprovalPolicy.parse (r_approval_policy r) with
      | Err text => Err (UnknownPolicy text)
      | Ok p => Ok {| policy := p; enabled_by := r_approval_policy_enabled_by r;
                      enabled_at := r_approval_policy_enabled_at r;
                      policy_updated_at := r_approval_policy_updated_at r |}
      end
  end.

Definition policy_row (p : RunApprovalPolicy) (actor : option string) (now : Z) (r : RunRow) : RunRow :=
  let enabling := RunApprovalPolicy.bypasses_approval p in
  {| r_run_id := r_run_id r; r_project_id := r_project_id r; r_session_id := r_session_id r;
     r_idempotency_key := r_idempotency_key r; r_runtime_kind := r_runtime_kind r;
     r_provider := r_provider r; r_model := r_model r; r_status := r_status r;
     r_created_at := r_created_at r; r_started_at := r_started_at r;
     r_updated_at := r_updated_at r;
     r_finished_at := r_finished_at r; r_last_event_seq := r_last_event_seq r;
     r_terminal_reason := r_terminal_reason r; r_error_code := r_error_code r;
     r_error_message := r_error_message r; r_hermes_run_id := r_hermes_run_id r;
     r_request_payload := r_request_payload r; r_result_payload := r_result_payload r;
     r_recovery_note := r_recovery_note r; r_request_fingerprint := r_request_fingerprint r;
     r_retry_of_run_id := r_retry_of_run_id r;
     r_approval_policy := RunApprovalPolicy.as_str p;
     r_approval_policy_enabled_at := if enabling then Some now else None;
     r_approval_policy_enabled_by := if enabling then actor else None;
     r_approval_policy_updated_at := Some now |}.

Definition set_run_approval_policy (id : string) (p : RunApprovalPolicy) (actor : option string)
    (now : Z) : M RegistryError Db bool :=
  let! rec := query (fun db => context (run id db) (UnknownRun id)) in
  match RunStatus.parse (status rec) with
  | Err text => fail (UnknownStatus text)
  | Ok st =>
      if RunStatus.is_terminal st then fail (TerminalPolicy id)
      else
        let! current := query (run_approval_policy id) in
        if bool_decide (policy current = p) then ret false
        else
          modify (on_runs (update_where (is_run id) (policy_row p actor now))) ;;;
          ret true
  end.

End Methods.
