(* ===== verification/RegistryFacts.v ===== *)
(** * RegistryFacts: the registry invariant, and that every method keeps it. *)
From Stdlib Require Import Lia.
From S2P Require Import Prelude Text Json RunState Redact Schema Registry.

(** ** The invariant *)

Definition run_ok (r : RunRow) : Prop :=
  (exists st, RunStatus.parse (r_status r) = Ok st
    /\ (RunStatus.is_terminal st = true -> is_Some (r_finished_at r)))
  /\ (exists p, RunApprovalPolicy.parse (r_approval_policy r) = Ok p)
  /\ 0 <= r_last_event_seq r <= i64_max.

Definition idempotency_of (r : RunRow) : option (string * string) :=
  pair (r_project_id r) <$> r_idempotency_key r.
Definition dedupe_of (e : EventRow) : option (string * string) :=
  pair (e_run_id e) <$> e_dedupe_key e.
Definition journal (id : string) (db : Db) : list EventRow :=
  select (is_event id) (run_events db).

Record wf (db : Db) : Prop := {
  wf_run_ids : NoDup (r_run_id <$> runs db);
  wf_idempotency : unique_key idempotency_of (runs db);
  wf_hermes : unique_key r_hermes_run_id (runs db);
  wf_runs : forall r, In r (runs db) -> run_ok r;
  (** The journal of a run is numbered 1, 2, ... up to its cursor, in order. *)
  wf_journal : forall r, In r (runs db) ->
    e_seq <$> journal (r_run_id r) db = seqZ 1 (r_last_event_seq r);
  wf_event_run : forall e, In e (run_events db) ->
    exists r, In r (runs db) /\ r_run_id r = e_run_id e;
  wf_dedupe : unique_key dedupe_of (run_events db);
  wf_approval_keys : NoDup ((fun a => (a_run_id a, a_request_seq a)) <$> run_approvals db);
  wf_approval_run : forall a, In a (run_approvals db) ->
    exists r, In r (runs db) /\ r_run_id r = a_run_id a
}.

Lemma wf_empty : wf empty_db.
Proof.
  split; cbn; try apply unique_key_nil; try apply NoDup_nil_2; done.
Qed.

(** ** Looking runs up *)

Lemma is_run_true id r : is_run id r = true <-> r_run_id r = id.
Proof. apply String.eqb_eq. Qed.

Lemma is_event_true id e : is_event id e = true <-> e_run_id e = id.
Proof. apply String.eqb_eq. Qed.

Lemma wf_run_unique db i j r1 r2 :
  wf db -> runs db !! i = Some r1 -> runs db !! j = Some r2 ->
  r_run_id r1 = r_run_id r2 -> i = j.
Proof.
  intros Hwf Hi Hj E. eapply NoDup_lookup; [apply (wf_run_ids _ Hwf)|..];
    rewrite list_lookup_fmap, ?Hi, ?Hj; cbn; [done|by rewrite E].
Qed.

Lemma wf_run_eq db r1 r2 :
  wf db -> In r1 (runs db) -> In r2 (runs db) -> r_run_id r1 = r_run_id r2 -> r1 = r2.
Proof.
  intros Hwf H1 H2 E.
  apply list_elem_of_In, list_elem_of_lookup in H1 as [i Hi], H2 as [j Hj].
  assert (i = j) as -> by (eapply wf_run_unique; eauto). congruence.
Qed.

Lemma select_run db id r :
  wf db -> (select_one (is_run id) (runs db) = Some r <-> In r (runs db) /\ r_run_id r = id).
Proof.
  intros Hwf. split.
  - intros [Hin Hr]%select_one_Some. by apply is_run_true in Hr.
  - intros [Hin Hr]. destruct (select_one (is_run id) (runs db)) as [r'|] eqn:E.
    + apply select_one_Some in E as [Hin' Hr']. apply is_run_true in Hr'.
      f_equal. eapply wf_run_eq; eauto; congruence.
    + eapply select_one_None in E; [|done]. apply is_run_true in Hr. congruence.
Qed.

(** ** Updating one run *)

(** What an update of a run row never changes. *)
Definition same_identity (r r' : RunRow) : Prop :=
  r_run_id r' = r_run_id r /\ idempotency_of r' = idempotency_of r.

Lemma In_updated db id f r' :
  (forall r, same_identity r (f r)) ->
  In r' (update_where (is_run id) f (runs db)) ->
  exists r, In r (runs db) /\ r_run_id r' = r_run_id r
    /\ r' = if is_run id r then f r else r.
Proof.
  intros Hf (r & Hin & ->)%In_update_where. exists r. split; [done|].
  split; [|done]. destruct (is_run id r); [|done]. apply Hf.
Qed.

Lemma run_ids_updated db id f :
  (forall r, same_identity r (f r)) ->
  r_run_id <$> update_where (is_run id) f (runs db) = r_run_id <$> runs db.
Proof. intros Hf. apply map_update_where. intros r _ _. apply Hf. Qed.

Lemma In_updated_id db id f r :
  (forall r, same_identity r (f r)) -> In r (runs db) ->
  exists r', In r' (update_where (is_run id) f (runs db)) /\ r_run_id r' = r_run_id r.
Proof.
  intros Hf Hin. exists (if is_run id r then f r else r). split.
  - apply In_update_where. eauto.
  - destruct (is_run id r); [|done]. apply Hf.
Qed.

(** Replacing one run's row by one that keeps its identity and its cursor. *)
Lemma wf_update_run db id f :
  wf db -> (forall r, same_identity r (f r)) ->
  (forall r, In r (runs db) -> r_run_id r = id ->
     run_ok (f r) /\ r_last_event_seq (f r) = r_last_event_seq r) ->
  unique_key r_hermes_run_id (update_where (is_run id) f (runs db)) ->
  wf (on_runs (update_where (is_run id) f) db).
Proof.
  intros Hwf Hf Hok Hh. split; cbn [on_runs runs run_events run_approvals]; try apply Hwf.
  - rewrite run_ids_updated by done. apply Hwf.
  - apply unique_key_update; [apply Hwf|]. intros r _ _. apply Hf.
  - done.
  - intros r' Hr'. apply In_updated in Hr' as (r & Hin & _ & ->); [|done].
    destruct (is_run id r) eqn:E; [|by apply Hwf]. apply is_run_true in E. by apply Hok.
  - intros r' Hr'. apply In_updated in Hr' as (r & Hin & -> & Heq); [|done].
    assert (r_last_event_seq r' = r_last_event_seq r) as ->.
    { subst r'. destruct (is_run id r) eqn:E; [|done]. apply is_run_true in E. by apply Hok. }
    by apply (wf_journal _ Hwf).
  - intros e He. destruct (wf_event_run _ Hwf e He) as (r & Hin & <-). by apply In_updated_id.
  - intros a Ha. destruct (wf_approval_run _ Hwf a Ha) as (r & Hin & <-). by apply In_updated_id.
Qed.

Lemma unique_hermes_same db id f :
  wf db -> (forall r, r_hermes_run_id (f r) = r_hermes_run_id r) ->
  unique_key r_hermes_run_id (update_where (is_run id) f (runs db)).
Proof. intros Hwf Hf. apply unique_key_update; [apply Hwf|]. auto. Qed.

Section Preservation.
Context `{SerdeJson}.

(** The unique index is what lets an update bind a backend id. *)
Lemma unique_hermes_updated db id u target now :
  wf db -> hermes_id_taken id u db = false ->
  unique_key r_hermes_run_id (update_where (is_run id) (updated_row target u now) (runs db)).
Proof.
  intros Hwf Hfree. unfold hermes_id_taken in Hfree.
  destruct (u_hermes_run_id u) as [h|] eqn:Eu.
  - rewrite existsb_false in Hfree.
    intros i j r1 r2 k Hi Hj H1 H2. unfold update_where in Hi, Hj.
    change (List.map ?g ?l) with (g <$> l) in Hi, Hj.
    apply list_lookup_fmap_Some in Hi as (a & -> & Hi), Hj as (b & -> & Hj).
    assert (forall x c, runs db !! x = Some c ->
      r_hermes_run_id (if is_run id c then updated_row target u now c else c) = Some k ->
      if is_run id c then k = h else k <> h /\ r_hermes_run_id c = Some k) as Hcase.
    { intros x c Hc Hk. destruct (is_run id c) eqn:E; cbn in Hk; rewrite ?Eu in Hk; cbn in Hk.
      - congruence.
      - split; [|done]. intros ->.
        assert (In c (runs db)) as Hin by (apply list_elem_of_In, list_elem_of_lookup; eauto).
        specialize (Hfree _ Hin). rewrite E in Hfree. cbn in Hfree.
        apply (not_false_iff_true (sql_eq (r_hermes_run_id c) h)); [|done].
        by apply sql_eq_true. }
    pose proof (Hcase _ _ Hi H1) as Ca. pose proof (Hcase _ _ Hj H2) as Cb.
    destruct (is_run id a) eqn:Ea, (is_run id b) eqn:Eb.
    + apply is_run_true in Ea, Eb. eapply wf_run_unique; eauto; congruence.
    + by destruct Cb.
    + by destruct Ca.
    + destruct Ca as [_ Ca], Cb as [_ Cb]. eapply (wf_hermes _ Hwf); eauto.
  - apply unique_hermes_same; [done|]. intros r. cbn. by rewrite Eu.
Qed.

Lemma updated_row_ok target u now r :
  run_ok r -> run_ok (updated_row target u now r).
Proof.
  intros (_ & Hp & Hs). split; [|done]. exists target. cbn. rewrite status_parse_as_str.
  split; [done|]. intros ->. destruct (r_finished_at r); cbn; eauto.
Qed.

(** [apply_update] either fails and changes nothing, or rewrites one row after
    a transition the state machine allows. *)
Lemma apply_update_inv id u now db res db' :
  apply_update id u now db = (res, db') ->
  match res with
  | Err _ => db' = db
  | Ok _ => exists row st,
      select_one (is_run id) (runs db) = Some row
      /\ RunStatus.parse (r_status row) = Ok st
      /\ validate_transition st (default st (u_status u)) = Ok tt
      /\ hermes_id_taken id u db = false
      /\ db' = on_runs (update_where (is_run id) (updated_row (default st (u_status u)) u now)) db
  end.
Proof.
  unfold apply_update, bind, query, lift, gets, modify, fail, context. cbn.
  destruct (select_one (is_run id) (runs db)) as [row|] eqn:Er; [|naive_solver].
  destruct (RunStatus.parse (r_status row)) as [st|] eqn:Es; [|naive_solver].
  destruct (validate_transition _ _) as [[]|] eqn:Ev; [|naive_solver].
  destruct (hermes_id_taken id u db) eqn:Eh; [naive_solver|].
  intros [= <- <-]. exists row, st. done.
Qed.

Lemma apply_update_wf id u now db res db' :
  wf db -> apply_update id u now db = (res, db') -> wf db'.
Proof.
  intros Hwf Heq%apply_update_inv. destruct res; [|by subst].
  destruct Heq as (row & st & _ & _ & _ & Hh & ->).
  apply wf_update_run; [done|by intros r|..].
  - intros r Hin _. split; [|done]. by apply updated_row_ok, Hwf.
  - by apply unique_hermes_updated.
Qed.

Lemma update_run_wf id u now db : wf db -> wf (snd (update_run id u now db)).
Proof.
  intros Hwf. unfold update_run. apply transaction_state; [done|]. intros a s'.
  rewrite bind_Ok. intros (? & s1 & H1 & H2). apply apply_update_wf in H1; [|done].
  unfold query in H2. by injection H2 as _ <-.
Qed.

(** *** The journal *)

Definition journalled (id : string) (row : EventRow) (seq now : Z) (db : Db) : Db :=
  on_runs (update_where (is_run id) (bump_row seq now)) (on_events (fun t => t ++ [row]) db).

(** The three ways an append ends. *)
Lemma append_event_inv id ev u t db res db' :
  append_event id ev u t db = (res, db') ->
  match res with
  | Err _ => db' = db
  | Ok (Duplicate s) => db' = db /\ exists e, by_dedupe id ev db = Some e /\ e_seq e = s
  | Ok (Appended s) =>
      by_dedupe id ev db = None
      /\ exists row, select_one (is_run id) (runs db) = Some row
      /\ s = r_last_event_seq row + 1 /\ s <= i64_max
      /\ let db1 := journalled id (event_row id ev s (t_event t)) s (t_run t) db in
         match u with
         | None => db' = db1
         | Some up => apply_update id up (t_update t) db1 = (Ok tt, db')
         end
  end.
Proof.
  unfold append_event. intros Heq.
  destruct res as [o|e]; [|by apply transaction_Err in Heq].
  apply transaction_Ok, bind_Ok in Heq as (found & s1 & [= <- <-] & Heq).
  destruct (select_one (is_run id) (runs db)) as [row|] eqn:Er; [|done].
  apply bind_Ok in Heq as (ex & s1 & [= <- <-] & Heq).
  destruct (by_dedupe id ev db) as [e|] eqn:Ed; [injection Heq as <- <-; by eauto|].
  apply bind_Ok in Heq as (seq & s1 & Hs & Heq). unfold lift in Hs.
  injection Hs as Hs <-. unfold sql_incr in Hs.
  destruct (r_last_event_seq row <? i64_max) eqn:Hlt; [|done]. injection Hs as <-.
  apply bind_Ok in Heq as ([] & s1 & Hins & Heq).
  apply bind_Ok in Heq as ([] & s2 & [= <-] & Heq).
  apply bind_Ok in Heq as ([] & s3 & Hu & [= <- <-]).
  assert (s1 = on_events (fun l => l ++ [event_row id ev (r_last_event_seq row + 1) (t_event t)]) db) as ->.
  { revert Hins. unfold insert_event. intros (d & s0 & [= <- <-] & Hins)%bind_Ok.
    repeat (split_if_in Hins; [done|]). by injection Hins as <-. }
  split; [done|]. exists row. apply Z.ltb_lt in Hlt.
  do 2 (split; [done|]). split; [lia|].
  destruct u; [done|]. by injection Hu as <-.
Qed.

Lemma journal_snoc id row db :
  journal id (on_events (fun t => t ++ [row]) db) =
  journal id db ++ (if is_event id row then [row] else []).
Proof. unfold journal. cbn. rewrite select_app. cbn. by destruct (is_event id row). Qed.

(** Appending the next event keeps every journal contiguous. *)
Lemma journalled_wf id ev row now1 now2 db :
  wf db -> select_one (is_run id) (runs db) = Some row ->
  by_dedupe id ev db = None -> r_last_event_seq row + 1 <= i64_max ->
  wf (journalled id (event_row id ev (r_last_event_seq row + 1) now1)
        (r_last_event_seq row + 1) now2 db).
Proof.
  intros Hwf Hrow Hd Hmax. apply select_run in Hrow as [Hin Hid]; [|done].
  assert (forall s n r, same_identity r (bump_row s n r)) as Hsame by (by intros).
  destruct (wf_runs _ Hwf _ Hin) as (_ & _ & Hseq).
  split; cbn [journalled on_runs on_events runs run_events run_approvals].
  - rewrite run_ids_updated by done. apply Hwf.
  - apply unique_key_update; [apply Hwf|]. intros r _ _. done.
  - by apply unique_hermes_same.
  - intros r' (r & Hr & _ & ->)%In_updated; [|done].
    pose proof (wf_runs _ Hwf _ Hr) as Hrok. destruct (is_run id r) eqn:E; [|done].
    destruct Hrok as (H1 & H2 & H3). split; [done|]. split; [done|]. cbn. lia.
  - intros r' (r & Hr & Hid' & Heq)%In_updated; [|done].
    unfold journalled in *. change (journal ?i (on_runs ?f ?d)) with (journal i d).
    rewrite Hid', journal_snoc, fmap_app, (wf_journal _ Hwf r Hr). subst r'.
    unfold is_event. cbn [event_row e_run_id]. unfold is_run.
    rewrite String.eqb_sym. destruct (String.eqb_spec (r_run_id r) id) as [E|E].
    + assert (r = row) as -> by (eapply wf_run_eq; eauto; congruence).
      cbn [bump_row r_last_event_seq]. rewrite seqZ_app by lia. f_equal.
      cbn [list_fmap event_row e_seq]. rewrite seqZ_cons, seqZ_nil by lia. cbn. f_equal. lia.
    + cbn. by rewrite app_nil_r.
  - intros e [He|[<-|[]]]%in_app_iff.
    + destruct (wf_event_run _ Hwf e He) as (r & Hr & <-). by apply In_updated_id.
    + destruct (In_updated_id db id (bump_row (r_last_event_seq row + 1) now2) row) as (r' & ? & ?);
        [done..|]. exists r'. cbn. split; congruence.
  - apply unique_key_snoc; [apply Hwf|]. intros e k He Hk Hk'.
    unfold dedupe_of, by_dedupe in *. cbn [event_row e_run_id e_dedupe_key] in Hk'.
    destruct (j_dedupe_key ev) as [key|]; [|done]. injection Hk' as <-.
    eapply select_one_None in Hd; [|apply He].
    destruct (e_dedupe_key e) as [key'|] eqn:Ek; [|done]. injection Hk as Hk1 Hk2.
    apply andb_false_iff in Hd as [Hd|Hd].
    + apply (not_true_iff_false (is_event id e)) in Hd. apply Hd. by apply is_event_true.
    + apply (not_true_iff_false (sql_eq _ _)) in Hd. apply Hd. apply sql_eq_true. congruence.
  - apply Hwf.
  - intros a Ha. destruct (wf_approval_run _ Hwf a Ha) as (r & Hr & <-). by apply In_updated_id.
Qed.

Lemma append_event_wf id ev u t db : wf db -> wf (snd (append_event id ev u t db)).
Proof.
  intros Hwf. destruct (append_event id ev u t db) as [res db'] eqn:E. cbn.
  apply append_event_inv in E. destruct res as [[s|s]|e].
  - destruct E as (Hd & row & Hrow & -> & Hmax & Hu). cbn in Hu.
    assert (wf (journalled id (event_row id ev (r_last_event_seq row + 1) (t_event t))
                  (r_last_event_seq row + 1) (t_run t) db)) by (by apply journalled_wf).
    destruct u as [up|]; [|by subst]. eapply apply_update_wf; [|exact Hu]. done.
  - by destruct E as [-> _].
  - by subst.
Qed.

(** *** Creation *)

Lemma create_run_inv h now stamp req db res db' :
  create_run h now stamp req db = (res, db') ->
  match res with
  | Err _ => db' = db
  | Ok (ExistingRun r) => db' = db /\ exists row, by_idempotency req db = Some row
      /\ r_request_fingerprint row = request_fingerprint req
      /\ load_run db (r_run_id row) = Some r
  | Ok (CreatedRun r) =>
      let row := new_row req (new_run_id h stamp) (request_fingerprint req) now in
      by_idempotency req db = None
      /\ (forall r', In r' (runs db) -> r_run_id r' <> new_run_id h stamp)
      /\ db' = on_runs (fun t => t ++ [row]) db
      /\ r = map_run row
  end.
Proof.
  unfold create_run. intros Heq.
  destruct res as [o|e]; [|by apply transaction_Err in Heq].
  apply transaction_Ok, bind_Ok in Heq as (ex & s1 & [= <- <-] & Heq).
  destruct (by_idempotency req db) as [row|] eqn:Ex.
  - destruct (String.eqb_spec (r_request_fingerprint row) (request_fingerprint req)) as [Ef|]; cbn in Heq; [|done].
    destruct (load_run db (r_run_id row)) as [r'|] eqn:El; [|done]. injection Heq as <- <-. by eauto.
  - apply bind_Ok in Heq as ([] & s1 & Hins & Heq).
    apply bind_Ok in Heq as (r & s2 & Hq & [= <- <-]).
    revert Hins. unfold insert_run. intros (d & s0 & [= <- <-] & Hins)%bind_Ok.
    destruct (List.existsb _ (runs db)) eqn:E1; [done|].
    repeat (split_if_in Hins; [done|]).
    injection Hins as <-. rewrite existsb_false in E1.
    assert (forall r', In r' (runs db) -> r_run_id r' <> new_run_id h stamp) as Hf.
    { intros r' Hr' Hc. specialize (E1 _ Hr'). by apply (not_true_iff_false _) in E1 as []; apply is_run_true. }
    split; [done|]. split; [done|]. unfold query, context, load_run in Hq. cbn in Hq.
    rewrite select_one_app in Hq.
    destruct (select_one _ (runs db)) as [r'|] eqn:Es.
    { apply select_one_Some in Es as [Hr' Hid]. apply is_run_true in Hid. by destruct (Hf _ Hr'). }
    cbn in Hq. unfold is_run in Hq. cbn in Hq. rewrite String.eqb_refl in Hq. cbn in Hq.
    by injection Hq as <- <-.
Qed.

Lemma create_run_wf h now stamp req db : wf db -> wf (snd (create_run h now stamp req db)).
Proof.
  intros Hwf. destruct (create_run h now stamp req db) as [res db'] eqn:E. cbn.
  apply create_run_inv in E. destruct res as [[r|r]|e]; [|by destruct E as [-> _]|by subst].
  destruct E as (Hidem & Hfresh & -> & _).
  set (row := new_row req (new_run_id h stamp) (request_fingerprint req) now).
  assert (journal (r_run_id row) db = []) as Hj.
  { destruct (journal (r_run_id row) db) as [|e l] eqn:E; [done|].
    assert (In e (journal (r_run_id row) db)) as He by (rewrite E; by left).
    apply In_select in He as [He Hid]. apply is_event_true in Hid.
    destruct (wf_event_run _ Hwf _ He) as (r' & Hr' & Hc).
    destruct (Hfresh _ Hr'). by rewrite Hc, Hid. }
  split; cbn [on_runs runs run_events run_approvals].
  - rewrite fmap_app. apply list.NoDup_app. split; [apply Hwf|split; [|apply NoDup_singleton]].
    intros x (r' & -> & Hr')%list_elem_of_fmap Hx%list_elem_of_singleton.
    apply list_elem_of_In in Hr'. by destruct (Hfresh _ Hr').
  - apply unique_key_snoc; [apply Hwf|]. intros r' k Hr' Hk Hk'.
    unfold idempotency_of, by_idempotency in *. cbn in Hk'.
    destruct (n_idempotency_key req) as [key|]; [|done]. injection Hk' as <-.
    eapply select_one_None in Hidem; [|apply Hr'].
    destruct (r_idempotency_key r') as [key'|]; [|done]. injection Hk as Hk1 Hk2.
    cbn in Hidem. by rewrite Hk1, Hk2, !String.eqb_refl in Hidem.
  - apply unique_key_snoc; [apply Hwf|]. done.
  - intros r' [Hr'|[<-|[]]]%in_app_iff; [by apply Hwf|].
    split; [|split; [by exists Manual|cbn; unfold i64_max; lia]]. by exists Created.
  - intros r' [Hr'|[<-|[]]]%in_app_iff.
    + by apply (wf_journal _ Hwf).
    + change (journal ?i (on_runs ?f ?d)) with (journal i d). by rewrite Hj.
  - intros e He. destruct (wf_event_run _ Hwf _ He) as (r' & ? & ?). exists r'.
    split; [|done]. apply in_app_iff. by left.
  - apply Hwf.
  - apply Hwf.
  - intros a Ha. destruct (wf_approval_run _ Hwf _ Ha) as (r' & ? & ?). exists r'.
    split; [|done]. apply in_app_iff. by left.
Qed.

(** *** Approvals and policy *)

(** The invariant reads three tables only. *)
Lemma wf_ext db db' :
  runs db' = runs db -> run_events db' = run_events db -> run_approvals db' = run_approvals db ->
  wf db -> wf db'.
Proof.
  intros Hr He Ha Hwf. split; unfold journal; rewrite ?Hr, ?He, ?Ha; try apply Hwf.
Qed.

Lemma wf_update_approvals db p f :
  wf db -> (forall a, a_run_id (f a) = a_run_id a /\ a_request_seq (f a) = a_request_seq a) ->
  wf (on_approvals (update_where p f) db).
Proof.
  intros Hwf Hf. split; cbn [on_approvals runs run_events run_approvals]; try apply Hwf.
  - change (?g <$> update_where p f ?t) with (List.map g (update_where p f t)).
    rewrite map_update_where; [apply Hwf|]. intros a _ _. by destruct (Hf a) as [-> ->].
  - intros a' (a & Ha & ->)%In_update_where.
    destruct (wf_approval_run _ Hwf a Ha) as (r & Hr & E). exists r. split; [done|].
    destruct (p a); [|done]. by rewrite (proj1 (Hf a)).
Qed.

Lemma record_approval_request_wf id seq cmd choices now db :
  wf db -> wf (snd (record_approval_request id seq cmd choices now db)).
Proof.
  intros Hwf. unfold record_approval_request, bind, Prelude.state, ret, fail, modify.
  destruct (List.existsb (is_approval id seq) (run_approvals db)) eqn:E1; [done|].
  destruct (List.existsb (is_run id) (runs db)) eqn:E2; [|done]. cbn [negb snd].
  rewrite existsb_false in E1. apply existsb_exists in E2 as (r & Hr & Hid).
  apply is_run_true in Hid.
  split; cbn [on_approvals runs run_events run_approvals]; try apply Hwf.
  - rewrite fmap_app. apply list.NoDup_app. split; [apply Hwf|split; [|apply NoDup_singleton]].
    intros x (a & -> & Ha)%list_elem_of_fmap Hx%list_elem_of_singleton.
    apply list_elem_of_In in Ha. specialize (E1 _ Ha). injection Hx as H1 H2. cbn in H1, H2.
    unfold is_approval in E1. by rewrite H1, H2, String.eqb_refl, Z.eqb_refl in E1.
  - intros a [Ha|[<-|[]]]%in_app_iff; [by apply Hwf|]. by exists r.
Qed.

Lemma record_approval_decision_wf id seq d now db :
  wf db -> wf (snd (record_approval_decision id seq d now db)).
Proof. intros Hwf. cbn. by apply wf_update_approvals. Qed.

Lemma record_approval_resolution_wf id seq res db :
  wf db -> wf (snd (record_approval_resolution id seq res db)).
Proof. intros Hwf. cbn. by apply wf_update_approvals. Qed.

(** Only a live run's policy changes. *)
Lemma set_run_approval_policy_inv id p actor now db res db' :
  set_run_approval_policy id p actor now db = (res, db') ->
  match res with
  | Ok true => exists row st, select_one (is_run id) (runs db) = Some row
      /\ RunStatus.parse (r_status row) = Ok st /\ RunStatus.is_terminal st = false
      /\ r_approval_policy row <> RunApprovalPolicy.as_str p
      /\ db' = on_runs (update_where (is_run id) (policy_row p actor now)) db
  | _ => db' = db
  end.
Proof.
  unfold set_run_approval_policy, fail, bind, query, context, run, load_run, run_approval_policy.
  destruct (select_one (is_run id) (runs db)) as [row|] eqn:Er; cbn; [|by intros [= <- <-]].
  destruct (RunStatus.parse (r_status row)) as [st|] eqn:Es; [|by intros [= <- <-]].
  destruct (RunStatus.is_terminal st) eqn:Et; [by intros [= <- <-]|].
  rewrite Er. destruct (RunApprovalPolicy.parse (r_approval_policy row)) as [q|] eqn:Ep; [|by intros [= <- <-]].
  cbn. case_bool_decide as Hq; unfold ret, modify; intros [= <- <-]; [done|].
  exists row, st. repeat (split; [done|]). split; [|done].
  intros Hc. rewrite Hc, policy_parse_as_str in Ep. congruence.
Qed.

Lemma set_run_approval_policy_wf id p actor now db :
  wf db -> wf (snd (set_run_approval_policy id p actor now db)).
Proof.
  intros Hwf. destruct (set_run_approval_policy id p actor now db) as [res db'] eqn:E. cbn.
  apply set_run_approval_policy_inv in E. destruct res as [[]|]; [|by subst..].
  destruct E as (row & st & _ & _ & _ & _ & ->). apply wf_update_run; [done|by intros r|..].
  - intros r Hr _. split; [|done]. destruct (wf_runs _ Hwf r Hr) as (H1 & H2 & H3).
    split; [done|]. split; [|done]. exists p. apply policy_parse_as_str.
  - by apply unique_hermes_same.
Qed.
End Preservation.
