(* ===== verification/Evolution.v ===== *)
(** * Evolution: how a registry may change over time.

    [db_evolves] relates a registry to any later one: runs are never removed
    and only move along the state machine, the journal only grows at its end,
    a decision once stored is never replaced.  It is a preorder, so showing it
    for one method call shows it for every sequence of calls. *)
From Stdlib Require Import Lia.
From stdpp Require Import relations.
From S2P Require Import Prelude Text Json RunState Redact Schema Registry RegistryFacts.

(** A value that is set once. *)
Definition sticky {A} (a b : option A) : Prop := is_Some a -> b = a.

Definition status_path (s s' : string) : Prop :=
  forall st, RunStatus.parse s = Ok st ->
    exists st', RunStatus.parse s' = Ok st' /\ rtc transition st st'.

Record run_evolves (r r' : RunRow) : Prop := {
  re_id : r_run_id r' = r_run_id r;
  re_request : r_project_id r' = r_project_id r /\ r_request_payload r' = r_request_payload r
    /\ r_request_fingerprint r' = r_request_fingerprint r
    /\ r_idempotency_key r' = r_idempotency_key r
    /\ r_retry_of_run_id r' = r_retry_of_run_id r /\ r_created_at r' = r_created_at r;
  re_status : status_path (r_status r) (r_status r');
  re_started : sticky (r_started_at r) (r_started_at r');
  re_finished : sticky (r_finished_at r) (r_finished_at r');
  re_cursor : r_last_event_seq r <= r_last_event_seq r';
  re_hermes : is_Some (r_hermes_run_id r) -> is_Some (r_hermes_run_id r');
  re_work : r_session_id r' = r_session_id r /\ r_runtime_kind r' = r_runtime_kind r
    /\ r_provider r' = r_provider r /\ r_model r' = r_model r
}.

Record approval_evolves (a a' : ApprovalRow) : Prop := {
  ae_key : a_run_id a' = a_run_id a /\ a_request_seq a' = a_request_seq a;
  ae_request : a_command a' = a_command a /\ a_choices a' = a_choices a
    /\ a_requested_at a' = a_requested_at a;
  ae_decision : is_Some (a_decision a) ->
    a_decision a' = a_decision a /\ a_decided_at a' = a_decided_at a
}.

(** Every row of [t] is still there, in its place, evolved. *)
Definition rows_evolve {R} (ev : R -> R -> Prop) (t t' : list R) : Prop :=
  forall i r, t !! i = Some r -> exists r', t' !! i = Some r' /\ ev r r'.

Record db_evolves (db db' : Db) : Prop := {
  de_runs : rows_evolve run_evolves (runs db) (runs db');
  de_events : run_events db `prefix_of` run_events db';
  de_approvals : rows_evolve approval_evolves (run_approvals db) (run_approvals db')
}.

(** ** Preorders *)

#[export] Instance sticky_preorder {A} : PreOrder (@sticky A).
Proof.
  split; [by intros ??|]. intros a b c H1 H2 Ha. specialize (H1 Ha). subst b. by apply H2.
Qed.

#[export] Instance status_path_preorder : PreOrder status_path.
Proof.
  split.
  - intros s st Hs. by exists st.
  - intros a b c H1 H2 st (st1 & E1 & P1)%H1. apply H2 in E1 as (st2 & E2 & P2).
    exists st2. split; [done|]. by etransitivity.
Qed.

#[export] Instance run_evolves_preorder : PreOrder run_evolves.
Proof.
  split.
  - intros r. split; try done; by intros ??.
  - intros a b c [] []. destruct_and!. split; try lia; try congruence; try (by etransitivity); [|by auto|];
      repeat split; congruence.
Qed.

#[export] Instance approval_evolves_preorder : PreOrder approval_evolves.
Proof.
  split; [by intros a; split|].
  intros a b c [K1 R1 D1] [K2 R2 D2]. split.
  - destruct_and!. split; congruence.
  - destruct_and!. repeat split; congruence.
  - intros Ha. destruct (D1 Ha) as [E1 F1].
    assert (is_Some (a_decision b)) as Hb by (by rewrite E1).
    destruct (D2 Hb). split; congruence.
Qed.

#[export] Instance rows_evolve_preorder {R} (ev : R -> R -> Prop) `{!PreOrder ev} :
  PreOrder (rows_evolve ev).
Proof.
  split.
  - intros t i r Hr. exists r. by split.
  - intros t1 t2 t3 H1 H2 i r (r1 & Hr1 & E1)%H1.
    apply H2 in Hr1 as (r2 & Hr2 & E2). exists r2. split; [done|]. by etransitivity.
Qed.

#[export] Instance db_evolves_preorder : PreOrder db_evolves.
Proof.
  split; [by intros db; split|]. intros a b c [] []. split; by etransitivity.
Qed.

(** ** Single steps *)

Lemma rows_evolve_snoc {R} (ev : R -> R -> Prop) `{!PreOrder ev} (t : list R) r :
  rows_evolve ev t (t ++ [r]).
Proof. intros i x Hx. exists x. split; [by apply lookup_app_l_Some|done]. Qed.

Lemma rows_evolve_update {R} (ev : R -> R -> Prop) `{!PreOrder ev} p f (t : list R) :
  (forall r, In r t -> p r = true -> ev r (f r)) -> rows_evolve ev t (update_where p f t).
Proof.
  intros Hf i r Hr. exists (if p r then f r else r). split.
  - unfold update_where. change (List.map ?g t) with (g <$> t). by rewrite list_lookup_fmap, Hr.
  - destruct (p r) eqn:E; [|done]. apply Hf; [|done].
    apply list_elem_of_In, list_elem_of_lookup. eauto.
Qed.

Lemma evolves_runs f db :
  rows_evolve run_evolves (runs db) (f (runs db)) -> db_evolves db (on_runs f db).
Proof. by split. Qed.

Lemma evolves_approvals f db :
  rows_evolve approval_evolves (run_approvals db) (f (run_approvals db)) ->
  db_evolves db (on_approvals f db).
Proof. by split. Qed.

Lemma evolves_ext db db' :
  runs db' = runs db -> run_events db' = run_events db -> run_approvals db' = run_approvals db ->
  db_evolves db db'.
Proof. intros Hr He Ha. split; by rewrite ?Hr, ?He, ?Ha. Qed.

Section Steps.
Context `{SerdeJson}.

Lemma updated_row_evolves st u now r :
  RunStatus.parse (r_status r) = Ok st ->
  validate_transition st (default st (u_status u)) = Ok tt ->
  run_evolves r (updated_row (default st (u_status u)) u now r).
Proof.
  intros Hs Hv. split; try done.
  - intros st0 Hst0. replace st0 with st by congruence. exists (default st (u_status u)). split.
    + apply status_parse_as_str.
    + by apply rtc_once.
  - intros [z Hz]. cbn. by rewrite Hz.
  - intros [z Hz]. cbn. rewrite Hz. by destruct (RunStatus.is_terminal _).
  - cbn. by destruct (u_hermes_run_id u).
Qed.

Lemma apply_update_evolves id u now db res db' :
  wf db -> apply_update id u now db = (res, db') -> db_evolves db db'.
Proof.
  intros Hwf Heq%apply_update_inv. destruct res; [|by subst].
  destruct Heq as (row & st & Hrow & Hs & Hv & _ & ->). apply evolves_runs.
  apply rows_evolve_update; [apply _|]. intros r Hr Hid. apply is_run_true in Hid.
  apply select_run in Hrow as [Hin Hrid]; [|done].
  assert (r = row) as -> by (eapply wf_run_eq; eauto; congruence).
  by apply updated_row_evolves.
Qed.

Lemma update_run_evolves id u now db : wf db -> db_evolves db (snd (update_run id u now db)).
Proof.
  intros Hwf. unfold update_run. apply (transaction_state (db_evolves db)); [done|]. intros a s'.
  rewrite bind_Ok. intros (? & s1 & H1 & H2). apply apply_update_evolves in H1; [|done].
  unfold query in H2. by injection H2 as _ <-.
Qed.

Lemma append_event_evolves id ev u t db :
  wf db -> db_evolves db (snd (append_event id ev u t db)).
Proof.
  intros Hwf. destruct (append_event id ev u t db) as [res db'] eqn:E. cbn.
  apply append_event_inv in E. destruct res as [[s|s]|e]; [|by destruct E as [-> _]|by subst].
  destruct E as (Hd & row & Hrow & -> & Hmax & Hu). cbn in Hu.
  set (ev_row := event_row id ev (r_last_event_seq row + 1) (t_event t)) in *.
  assert (wf (journalled id ev_row (r_last_event_seq row + 1) (t_run t) db)) as Hwf1
    by (by apply journalled_wf).
  assert (db_evolves db (journalled id ev_row (r_last_event_seq row + 1) (t_run t) db)) as Hev.
  { split; cbn [journalled on_runs on_events runs run_events run_approvals]; [|by eexists|done].
    apply rows_evolve_update; [apply _|]. intros r Hr Hid. apply is_run_true in Hid.
    apply select_run in Hrow as [Hin Hrid]; [|done].
    assert (r = row) as -> by (apply (wf_run_eq db); [done..|congruence]).
    split; try done; try (by intros ?). cbn. lia. }
  destruct u as [up|]; [|by subst]. etransitivity; [exact Hev|].
  eapply apply_update_evolves; [exact Hwf1|exact Hu].
Qed.

Lemma create_run_evolves h now stamp req db :
  db_evolves db (snd (create_run h now stamp req db)).
Proof.
  destruct (create_run h now stamp req db) as [res db'] eqn:E. cbn.
  apply create_run_inv in E. destruct res as [[r|r]|e]; [|by destruct E as [-> _]|by subst].
  destruct E as (_ & _ & -> & _). apply evolves_runs, rows_evolve_snoc, _.
Qed.

Lemma record_approval_request_evolves id seq cmd choices now db :
  db_evolves db (snd (record_approval_request id seq cmd choices now db)).
Proof.
  unfold record_approval_request, bind, Prelude.state, ret, fail, modify.
  repeat split_if; cbn [snd]; try done. apply evolves_approvals, rows_evolve_snoc, _.
Qed.

Lemma record_approval_decision_evolves id seq d now db :
  db_evolves db (snd (record_approval_decision id seq d now db)).
Proof.
  cbn. apply evolves_approvals, rows_evolve_update; [apply _|]. intros a _ Hu.
  apply andb_true_iff in Hu as [_ Hn]. split; try done. intros Hs. by destruct (a_decision a), Hs.
Qed.

Lemma record_approval_resolution_evolves id seq res db :
  db_evolves db (snd (record_approval_resolution id seq res db)).
Proof. cbn. by apply evolves_approvals, rows_evolve_update; [apply _|]. Qed.

Lemma set_run_approval_policy_evolves id p actor now db :
  db_evolves db (snd (set_run_approval_policy id p actor now db)).
Proof.
  destruct (set_run_approval_policy id p actor now db) as [res db'] eqn:E. cbn.
  apply set_run_approval_policy_inv in E. destruct res as [[]|]; [|by subst..].
  destruct E as (row & st & _ & _ & _ & _ & ->).
  apply evolves_runs, rows_evolve_update; [apply _|]. intros r _ _.
  split; try done; by intros ?.
Qed.
End Steps.

(** ** A small concrete registry, built by the methods themselves.

    It is the input at which the theorems with hypotheses are instantiated. *)

Module Samples.
Export Codec.

Definition host : Host :=
  {| urandom := Some [1; 2; 3; 4; 5; 6; 7; 8; 9; 10; 11; 12]; process_id := 7 |}.
Definition payload : Value := object [("input", VString "list the files")]%string.
Definition req : NewRun :=
  {| n_project_id := "demo"; n_session_id := None; n_idempotency_key := Some "k1"%string;
     n_runtime_kind := "hermes-loop"; n_provider := None; n_model := None;
     n_request_payload := payload; n_retry_of_run_id := None |}.
Definition id1 : string := new_run_id host 100.
Definition ev (key : string) : JournalEvent :=
  {| j_event_type := "tool.started"; j_source := SOURCE_HERMES; j_payload := payload;
     j_raw := None; j_dedupe_key := Some key |}.
Definition clk : Clock3 := {| t_event := 200; t_run := 201; t_update := 202 |}.

Definition db1 : Db := snd (create_run host 100 100 req empty_db).
Definition db2 : Db := snd (append_event id1 (ev "a") (Some (RunUpdate.status Starting)) clk db1).
Definition db3 : Db := snd (append_event id1 (ev "b") None clk db2).
Definition db4 : Db := snd (record_approval_request id1 2 (Some "rm"%string) None 300 db3).
Definition db5 : Db := snd (record_approval_decision id1 2 "once" 301 db4).
Definition db6 : Db := snd (update_run id1 (RunUpdate.status Failed) 400 db5).

Definition row_of (db : Db) : RunRow :=
  default (new_row req "" "" 0) (select_one (is_run id1) (runs db)).

Lemma wf1 : wf db1.
Proof. apply create_run_wf, wf_empty. Qed.
Lemma wf2 : wf db2.
Proof. apply append_event_wf, wf1. Qed.
Lemma wf3 : wf db3.
Proof. apply append_event_wf, wf2. Qed.
Lemma wf4 : wf db4.
Proof. apply record_approval_request_wf, wf3. Qed.
Lemma wf5 : wf db5.
Proof. apply record_approval_decision_wf, wf4. Qed.
Lemma wf6 : wf db6.
Proof. apply update_run_wf, wf5. Qed.

Lemma row1_in : In (row_of db1) (runs db1).
Proof. apply (select_one_Some (is_run id1)). vm_compute. reflexivity. Qed.
Lemma row3_in : In (row_of db3) (runs db3).
Proof. apply (select_one_Some (is_run id1)). vm_compute. reflexivity. Qed.
End Samples.
