(* ===== verification/RegistryTheorems.v ===== *)
(** * RegistryTheorems: what the run registry promises its callers. *)
From Stdlib Require Import Lia Sorted.
From S2P Require Import Prelude Text Json RunState Redact Schema Registry RegistryFacts Evolution.
Import Samples.

(** ** Reading the journal *)

Lemma seqs_select_all (l : list EventRow) k m after :
  e_seq <$> l = seqZ k m -> after < k -> select (fun e => after <? e_seq e) l = l.
Proof.
  revert k m. induction l as [|e l IH]; intros k m Hs Hk; [done|].
  destruct (decide (0 < m)) as [Hm|Hm]; [|by rewrite seqZ_nil in Hs by lia].
  rewrite seqZ_cons in Hs by done. injection Hs as He Hl. cbn.
  destruct (Z.ltb_spec after (e_seq e)); [|lia]. f_equal. apply (IH _ _ Hl). lia.
Qed.

Lemma seqs_select_after (l : list EventRow) k m after :
  e_seq <$> l = seqZ k m -> k <= after + 1 ->
  select (fun e => after <? e_seq e) l = skipn (Z.to_nat (after + 1 - k)) l.
Proof.
  revert k m. induction l as [|e l IH]; intros k m Hs Hk; [by rewrite skipn_nil|].
  destruct (decide (k = after + 1)) as [->|Hne].
  { rewrite (seqs_select_all _ _ _ _ Hs) by lia. by rewrite Z.sub_diag. }
  destruct (decide (0 < m)) as [Hm|Hm]; [|by rewrite seqZ_nil in Hs by lia].
  rewrite seqZ_cons in Hs by done. injection Hs as He Hl. cbn [select List.filter].
  destruct (Z.ltb_spec after (e_seq e)) as [Hlt|Hge]; [lia|].
  replace (Z.to_nat (after + 1 - k)) with (S (Z.to_nat (after + 1 - Z.succ k))) by lia.
  cbn. apply (IH _ _ Hl). lia.
Qed.

Lemma seqs_sorted (l : list EventRow) k m :
  e_seq <$> l = seqZ k m -> StronglySorted (fun a b => (e_seq a <=? e_seq b) = true) l.
Proof.
  revert k m. induction l as [|e l IH]; intros k m Hs; [constructor|].
  destruct (decide (0 < m)) as [Hm|Hm]; [|by rewrite seqZ_nil in Hs by lia].
  rewrite seqZ_cons in Hs by done. injection Hs as He Hl.
  constructor; [by eapply IH|]. apply List.Forall_forall. intros x Hx.
  assert (e_seq x ∈ e_seq <$> l) as Hin by (apply list_elem_of_fmap_2; by apply list_elem_of_In).
  change (e_seq <$> l = seqZ (Z.succ k) (Z.pred m)) in Hl.
  rewrite Hl in Hin. apply elem_of_seqZ in Hin. apply Z.leb_le. lia.
Qed.

Lemma select_and {R} (p q : R -> bool) t :
  select (fun r => p r && q r) t = select q (select p t).
Proof.
  induction t as [|r t IH]; cbn; [done|].
  unfold select in *. destruct (p r); cbn; [|done]. by destruct (q r); rewrite IH.
Qed.

Lemma StronglySorted_skipn {A} (R : A -> A -> Prop) n l :
  StronglySorted R l -> StronglySorted R (skipn n l).
Proof.
  revert l. induction n as [|n IH]; intros [|x l]; cbn; try done.
  inversion 1; subst. by apply IH.
Qed.

(** Under the invariant a page of the journal is a slice of it. *)
Lemma events_since_slice `{SerdeJson} id after n row db :
  wf db -> In row (runs db) -> r_run_id row = id -> 0 <= after -> 0 <= n ->
  events_since id after n db =
  List.map map_event (firstn (Z.to_nat n) (skipn (Z.to_nat after) (journal id db))).
Proof.
  intros Hwf Hin Hid Ha Hn. unfold events_since, limit.
  rewrite (proj2 (Z.ltb_ge n 0)) by done. do 2 f_equal.
  pose proof (wf_journal _ Hwf _ Hin) as Hj. rewrite Hid in Hj.
  rewrite select_and. change (select (is_event id) (run_events db)) with (journal id db).
  rewrite (seqs_select_after _ _ _ _ Hj) by lia. replace (after + 1 - 1) with after by lia.
  apply order_by_id, StronglySorted_skipn. by eapply seqs_sorted.
Qed.

Lemma length_journal db row :
  wf db -> In row (runs db) ->
  Z.of_nat (length (journal (r_run_id row) db)) = r_last_event_seq row.
Proof.
  intros Hwf Hin. destruct (wf_runs _ Hwf _ Hin) as (_ & _ & Hs).
  rewrite <- (length_fmap e_seq), (wf_journal _ Hwf _ Hin), length_seqZ. lia.
Qed.

(** Replaying a run's journal from any cursor is gap-free and ordered: a page
    of at most [n] events after sequence [after] carries exactly the sequence
    numbers [after + 1], [after + 2], ... up to the page size or the run's last
    event, whatever was appended to other runs in between. *)
Theorem events_since_contiguous `{SerdeJson} id after n row db :
  wf db -> In row (runs db) -> r_run_id row = id ->
  0 <= after <= r_last_event_seq row -> 0 <= n ->
  se_seq <$> events_since id after n db
  = seqZ (after + 1) (Z.min n (r_last_event_seq row - after)).
Proof.
  intros Hwf Hin Hid Ha Hn. rewrite (events_since_slice _ _ _ row) by (done || lia).
  pose proof (wf_journal _ Hwf _ Hin) as Hj. rewrite Hid in Hj.
  change (List.map map_event ?l) with (map_event <$> l). rewrite <- list_fmap_compose.
  change (se_seq ∘ map_event) with e_seq. rewrite fmap_take, fmap_drop, Hj.
  apply list_eq. intros i. destruct (decide (Z.of_nat i < n)) as [Hi|Hi].
  - rewrite lookup_take_lt, lookup_drop by lia.
    destruct (decide (Z.of_nat i < r_last_event_seq row - after)) as [Hl|Hl].
    + rewrite !lookup_seqZ_lt by lia. f_equal. lia.
    + rewrite !lookup_seqZ_ge by lia. done.
  - rewrite lookup_take_ge, lookup_seqZ_ge by lia. done.
Qed.

(** Paging loses nothing: reading [n] events and then [m] more from where the
    first page ended gives the same events as reading [n + m] at once. *)
Theorem events_since_paging `{SerdeJson} id after n m row db :
  wf db -> In row (runs db) -> r_run_id row = id ->
  0 <= after -> 0 <= n -> 0 <= m ->
  events_since id after (n + m) db
  = events_since id after n db ++ events_since id (after + n) m db.
Proof.
  intros Hwf Hin Hid Ha Hn Hm. rewrite !(events_since_slice _ _ _ row) by (done || lia).
  rewrite <- map_app. f_equal.
  rewrite !Z2Nat.inj_add by lia. by rewrite <- drop_drop, take_take_drop.
Qed.

(** ** Appending *)

Lemma insert_event_ok row db r :
  In r (runs db) -> r_run_id r = e_run_id row ->
  (forall e, In e (run_events db) -> e_run_id e = e_run_id row -> e_seq e <> e_seq row) ->
  (forall e, In e (run_events db) -> e_run_id e = e_run_id row ->
     is_Some (e_dedupe_key row) -> e_dedupe_key e <> e_dedupe_key row) ->
  insert_event row db = (Ok tt, on_events (fun l => l ++ [row]) db).
Proof.
  intros Hr Hid Hseq Hkey. unfold insert_event, bind, Prelude.state, modify.
  destruct (List.existsb (is_run (e_run_id row)) (runs db)) eqn:E1.
  2: { rewrite existsb_false in E1. specialize (E1 _ Hr). apply is_run_true in Hid. congruence. }
  cbn [negb]. split_if.
  { apply existsb_exists in Heqb as (e & He & [Hei Hes]%andb_true_iff).
    apply Z.eqb_eq in Hes. apply is_event_true in Hei. by destruct (Hseq _ He Hei). }
  destruct (e_dedupe_key row) as [key|] eqn:Ek; [|done].
  split_if; [|done].
  apply existsb_exists in Heqb0 as (e & He & [Hei Hek]%andb_true_iff).
  apply is_event_true in Hei. apply sql_eq_true in Hek. by destruct (Hkey _ He Hei); [eauto|].
Qed.

(** Appending to a known run below the sequence limit, with no earlier event
    under the same dedupe key, succeeds with the next sequence number; the event
    is then the only one after the old cursor, and no other run's journal moves. *)
Theorem append_event_next `{SerdeJson} id ev t row db :
  wf db -> In row (runs db) -> r_run_id row = id ->
  by_dedupe id ev db = None -> r_last_event_seq row < i64_max ->
  let seq := r_last_event_seq row + 1 in
  exists db', append_event id ev None t db = (Ok (Appended seq), db')
    /\ events_since id (r_last_event_seq row) 10 db' = [map_event (event_row id ev seq (t_event t))]
    /\ forall other, other <> id -> journal other db' = journal other db.
Proof.
  intros Hwf Hin Hid Hd Hmax seq.
  set (db' := journalled id (event_row id ev seq (t_event t)) seq (t_run t) db).
  assert (select_one (is_run id) (runs db) = Some row) as Hrow by (by apply select_run).
  destruct (wf_runs _ Hwf _ Hin) as (_ & _ & Hs).
  assert (wf db') as Hwf' by (apply journalled_wf; [done..|lia]).
  exists db'. split; [|split].
  - unfold append_event, transaction, bind, gets, lift. rewrite Hrow, Hd. unfold sql_incr.
    rewrite (proj2 (Z.ltb_lt _ _)) by done. cbn [context].
    rewrite (insert_event_ok _ _ row); [done|done|done|..]; cbn [event_row e_run_id e_seq e_dedupe_key].
    + intros e He Hei Hc.
      assert (e_seq e ∈ e_seq <$> journal id db) as Hj.
      { apply list_elem_of_fmap_2, list_elem_of_In, In_select. by rewrite is_event_true. }
      rewrite <- Hid, (wf_journal _ Hwf _ Hin) in Hj. apply elem_of_seqZ in Hj. lia.
    + intros e He Hei [key Hk]. unfold by_dedupe in Hd. rewrite Hk in *.
      pose proof (select_one_None _ _ _ Hd He) as Hn. apply andb_false_iff in Hn as [Hn|Hn].
      * apply is_event_true in Hei. congruence.
      * intros Hc. apply sql_eq_true in Hc. congruence.
  - rewrite (events_since_slice _ _ _ (bump_row seq (t_run t) row)); [|done| |done|lia|done].
    + change (journal id db') with (journal id (on_events (fun l => l ++ [event_row id ev seq (t_event t)]) db)).
      rewrite journal_snoc. cbn [event_row is_event e_run_id]. unfold is_event. cbn.
      rewrite String.eqb_refl. pose proof (length_journal db row Hwf Hin) as Hl. rewrite Hid in Hl.
      rewrite drop_app_length' by lia. done.
    + apply In_update_where. exists row. split; [done|]. by rewrite (proj2 (is_run_true id row) Hid).
  - intros other Ho.
    change (journal other db') with (journal other (on_events (fun l => l ++ [event_row id ev seq (t_event t)]) db)).
    rewrite journal_snoc. unfold is_event. cbn. apply String.eqb_neq in Ho.
    by rewrite String.eqb_sym, Ho, app_nil_r.
Qed.

Lemma apply_update_events `{SerdeJson} id u now db res db' :
  apply_update id u now db = (res, db') -> run_events db' = run_events db.
Proof.
  intros Heq%apply_update_inv. destruct res; [|by subst]. by destruct Heq as (? & ? & _ & _ & _ & _ & ->).
Qed.

Lemma apply_update_known `{SerdeJson} id u now db res db' r :
  apply_update id u now db = (res, db') -> In r (runs db) ->
  exists r', In r' (runs db') /\ r_run_id r' = r_run_id r.
Proof.
  intros Heq%apply_update_inv Hr. destruct res; [|subst; eauto].
  destruct Heq as (? & ? & _ & _ & _ & _ & ->). by apply In_updated_id.
Qed.

(** Delivering the same backend event twice journals it once: after an append
    under a dedupe key, any later append to that run under the same key answers
    [Duplicate] with the sequence number of the first and changes nothing, even if
    its payload differs. *)
Theorem append_event_dedupe `{SerdeJson} id ev ev' u u' t t' seq key db db' :
  append_event id ev u t db = (Ok (Appended seq), db') ->
  j_dedupe_key ev = Some key -> j_dedupe_key ev' = Some key ->
  append_event id ev' u' t' db' = (Ok (Duplicate seq), db').
Proof.
  intros (Hd & row & Hrow & -> & _ & Hu)%append_event_inv Hk Hk'. cbv zeta in Hu.
  set (ev_row := event_row id ev (r_last_event_seq row + 1) (t_event t)) in *.
  set (db1 := journalled id ev_row (r_last_event_seq row + 1) (t_run t) db) in *.
  apply select_one_Some in Hrow as [Hin Hid%is_run_true].
  assert (run_events db' = run_events db ++ [ev_row]) as He.
  { destruct u as [up|]; [|by subst]. apply apply_update_events in Hu. by rewrite Hu. }
  assert (exists r, In r (runs db') /\ r_run_id r = id) as (r & Hr & Hrid).
  { destruct (In_updated_id db id (bump_row (r_last_event_seq row + 1) (t_run t)) row)
      as (r1 & Hr1 & Hr1id); [done..|].
    destruct u as [up|]; [|subst; eauto; exists r1; split; congruence].
    destruct (apply_update_known _ _ _ _ _ _ r1 Hu Hr1) as (r2 & ? & ?). exists r2. split; congruence. }
  assert (by_dedupe id ev' db' = Some ev_row) as Hd'.
  { unfold by_dedupe in *. rewrite Hk', He, select_one_app. rewrite Hk in Hd. rewrite Hd. cbn.
    unfold is_event. cbn. by rewrite String.eqb_refl, Hk, sql_eq_some. }
  unfold append_event, transaction, bind, gets.
  destruct (select_one (is_run id) (runs db')) as [r'|] eqn:Es.
  - rewrite Hd'. done.
  - apply is_run_true in Hrid. by rewrite (select_one_None _ _ _ Es Hr) in Hrid.
Qed.

(** ** Creating *)

Lemma by_idempotency_snoc `{SerdeJson} req row db :
  n_idempotency_key req = r_idempotency_key row -> is_Some (n_idempotency_key req) ->
  r_project_id row = n_project_id req -> by_idempotency req db = None ->
  by_idempotency req (on_runs (fun l => l ++ [row]) db) = Some row.
Proof.
  intros Hk [key Hs] Hp. unfold by_idempotency. rewrite Hs in *. cbn. intros Hn.
  rewrite select_one_app, Hn. cbn. by rewrite <- Hk, Hp, String.eqb_refl, sql_eq_some.
Qed.

(** The run that [create_run] answers with holds the key of the request. *)
Lemma created_row `{SerdeJson} h now stamp req c db db' :
  wf db -> is_Some (n_idempotency_key req) -> create_run h now stamp req db = (Ok c, db') ->
  exists row, In row (runs db') /\ r_project_id row = n_project_id req
    /\ r_idempotency_key row = n_idempotency_key req
    /\ r_request_fingerprint row = request_fingerprint req /\ r_run_id row = run_id (record c).
Proof.
  intros Hwf [key Hk] Hinv%create_run_inv. destruct c as [r|r].
  - destruct Hinv as (_ & _ & -> & ->). eexists. split; [apply in_app_iff; right; by left|]. done.
  - destruct Hinv as (-> & row & Hb & Hf & Hl). unfold by_idempotency in Hb. rewrite Hk in *.
    apply select_one_Some in Hb as [Hin [Hp Hk']%andb_true_iff]. apply String.eqb_eq in Hp.
    apply sql_eq_true in Hk'. exists row. do 4 (split; [done|]).
    unfold load_run in Hl. destruct (select_one _ _) as [row'|] eqn:Es; [|done]. injection Hl as <-.
    apply select_one_Some in Es as [_ Hid%is_run_true]. by rewrite <- Hid.
Qed.

(** A row with a key is the one the key finds. *)
Lemma by_idempotency_row `{SerdeJson} req row key db :
  wf db -> In row (runs db) -> r_project_id row = n_project_id req ->
  n_idempotency_key req = Some key -> r_idempotency_key row = Some key -> by_idempotency req db = Some row.
Proof.
  intros Hwf Hin Hp Hk Hrk. unfold by_idempotency. rewrite Hk.
  destruct (select_one _ (runs db)) as [r'|] eqn:Es.
  - apply select_one_Some in Es as [Hr' [Hp' Hk']%andb_true_iff].
    apply String.eqb_eq in Hp'. apply sql_eq_true in Hk'. f_equal.
    apply list_elem_of_In, list_elem_of_lookup in Hin as [i Hi], Hr' as [j Hj].
    assert (i = j) as ->; [|congruence].
    eapply (wf_idempotency _ Hwf); eauto; unfold idempotency_of;
      rewrite ?Hrk, ?Hk', ?Hp, ?Hp'; done.
  - pose proof (select_one_None _ _ _ Es Hin) as Hn. cbn in Hn.
    by rewrite Hp, String.eqb_refl, Hrk, sql_eq_some in Hn.
Qed.

(** The same request again, while the row is there. *)
Lemma create_run_again `{SerdeJson} h now stamp req row db :
  wf db -> In row (runs db) -> r_project_id row = n_project_id req ->
  is_Some (n_idempotency_key req) -> r_idempotency_key row = n_idempotency_key req ->
  r_request_fingerprint row = request_fingerprint req ->
  create_run h now stamp req db = (Ok (ExistingRun (map_run row)), db).
Proof.
  intros Hwf Hin Hp [key Hk] Hrk Hf. pose proof (by_idempotency_row req row key db Hwf Hin Hp Hk ltac:(congruence)) as Hb.
  unfold create_run, transaction, bind, gets. rewrite Hb, Hf, String.eqb_refl. cbn.
  unfold query, context, load_run. by rewrite (proj2 (select_run _ _ _ Hwf) (conj Hin eq_refl)).
Qed.

(** Reusing an idempotency key of the same project for a different request is
    refused as a conflict that names the run holding the key, and stores nothing. *)
Theorem create_run_conflict `{SerdeJson} h now stamp req row key db :
  wf db -> In row (runs db) -> r_project_id row = n_project_id req ->
  n_idempotency_key req = Some key -> r_idempotency_key row = Some key ->
  r_request_fingerprint row <> request_fingerprint req ->
  create_run h now stamp req db
  = (Err (IdempotencyConflict (n_project_id req) key (r_run_id row)), db).
Proof.
  intros Hwf Hin Hp Hk Hrk Hf.
  pose proof (by_idempotency_row req row key db Hwf Hin Hp Hk Hrk) as Hb.
  unfold create_run, transaction, bind, gets. rewrite Hb.
  apply String.eqb_neq in Hf. rewrite Hf. cbn. by rewrite Hk.
Qed.

(** What a new run starts as: its record reads back the redacted request
    exactly, in state [created], with an empty journal and the [manual] approval
    policy, even when it is a retry of a run whose policy was [allow_all_for_run]. *)
Theorem create_run_fresh `{SerdeJsonLaws} h now stamp req r db db' :
  wf db -> integral (n_request_payload req) = true -> ordered (n_request_payload req) = true ->
  create_run h now stamp req db = (Ok (CreatedRun r), db') ->
  request_payload r = value (redact (n_request_payload req))
  /\ status r = RunStatus.as_str Created /\ last_event_seq r = 0
  /\ retry_of_run_id r = n_retry_of_run_id req
  /\ run (run_id r) db' = Some r
  /\ events_since (run_id r) 0 10 db' = []
  /\ run_approval_policy (run_id r) db' = Ok RunPolicyState_default.
Proof.
  intros Hwf Hi Ho Heq. pose proof (create_run_wf h now stamp req db Hwf) as Hwf'.
  rewrite Heq in Hwf'. cbn in Hwf'.
  apply create_run_inv in Heq as (_ & Hfresh & -> & ->).
  set (row := new_row req (new_run_id h stamp) (request_fingerprint req) now) in *.
  assert (In row (runs (on_runs (fun t => t ++ [row]) db))) as Hin
    by (apply in_app_iff; right; by left).
  assert (select_one (is_run (r_run_id row)) (runs (on_runs (fun t => t ++ [row]) db)) = Some row) as Hs
    by (by apply select_run).
  split; [cbn; by rewrite redacted_roundtrip|]. do 3 (split; [done|]). split.
  { unfold run, load_run. change (run_id (map_run row)) with (r_run_id row). by rewrite Hs. }
  split.
  - change (run_id (map_run row)) with (r_run_id row).
    rewrite (events_since_slice _ _ _ row) by done.
    pose proof (length_journal _ _ Hwf' Hin) as Hl. cbn [row new_row r_last_event_seq] in Hl.
    destruct (journal (r_run_id row) _); [done|]. cbn in Hl. lia.
  - unfold run_approval_policy. change (run_id (map_run row)) with (r_run_id row). by rewrite Hs.
Qed.

(** ** Approvals *)

Lemma changes_zero {R} (p : R -> bool) t :
  (forall r, In r t -> p r = false) -> changes p t = 0%nat.
Proof.
  intros Hp. unfold changes. induction t as [|r t IH]; cbn; [done|].
  rewrite (Hp r) by (by left). apply IH. intros x Hx. apply Hp. by right.
Qed.

(** An approval is decided at most once: after a decision was accepted, no
    later state of the registry accepts another one for that request, and the
    first decision is still the stored one. *)
Theorem approval_decided_once `{SerdeJson} id seq d d2 now now2 db db1 db2 :
  wf db -> record_approval_decision id seq d now db = (Ok true, db1) ->
  db_evolves db1 db2 -> wf db2 ->
  record_approval_decision id seq d2 now2 db2 = (Ok false, db2)
  /\ exists a, In a (run_approvals db2) /\ a_run_id a = id /\ a_request_seq a = seq
       /\ a_decision a = Some d /\ a_decided_at a = Some now.
Proof.
  intros Hwf Heq Hev Hwf2. cbn in Heq. injection Heq as Hc <-. apply Nat.eqb_eq in Hc.
  unfold changes in Hc.
  destruct (List.filter (undecided id seq) (run_approvals db)) as [|a l] eqn:Ef; [done|].
  assert (In a (select (undecided id seq) (run_approvals db))) as Ha
    by (unfold select; rewrite Ef; by left).
  apply In_select in Ha as [Ha Hu]. pose proof Hu as [Hk Hnull]%andb_true_iff.
  apply andb_true_iff in Hk as [Hk1 Hk2]. apply String.eqb_eq in Hk1. apply Z.eqb_eq in Hk2.
  apply list_elem_of_In, list_elem_of_lookup in Ha as [i Hi].
  destruct (de_approvals _ _ Hev i (decide_row d now a)) as (a' & Hi' & Hae).
  { cbn. unfold update_where. change (List.map ?g ?l) with (g <$> l).
    by rewrite list_lookup_fmap, Hi; cbn; rewrite Hu. }
  destruct Hae as [[K1 K2] _ Hdec]. destruct Hdec as [D1 D2]; [done|]. cbn in *.
  assert (forall b, In b (run_approvals db2) -> undecided id seq b = false) as Hnone.
  { intros b Hb. destruct (undecided id seq b) eqn:Eb; [|done].
    apply andb_true_iff in Eb as [Eb Ebn]. apply andb_true_iff in Eb as [Eb1 Eb2].
    apply String.eqb_eq in Eb1. apply Z.eqb_eq in Eb2.
    apply list_elem_of_In, list_elem_of_lookup in Hb as [j Hj].
    assert (i = j) as <-.
    { eapply NoDup_lookup; [apply (wf_approval_keys _ Hwf2)|..];
        rewrite list_lookup_fmap, ?Hi', ?Hj; cbn; [done|]. congruence. }
    rewrite Hi' in Hj. injection Hj as <-. by rewrite D1 in Ebn. }
  split.
  - unfold record_approval_decision, bind, gets, modify, ret. rewrite changes_zero by done.
    cbn. f_equal. unfold on_approvals. rewrite update_where_id; [by destruct db2|].
    intros b Hb Hbu. by rewrite Hnone in Hbu.
  - exists a'. split; [apply list_elem_of_In, list_elem_of_lookup; eauto|].
    repeat split; congruence.
Qed.

(** ** The theorems at the sample registry *)

Lemma events_since_contiguous_witness : se_seq <$> events_since id1 1 5 db3 = [2].
Proof.
  rewrite (events_since_contiguous id1 1 5 (row_of db3));
    [vm_compute; reflexivity|apply wf3|apply row3_in|vm_compute; reflexivity|vm_compute; done|done].
Defined.

Lemma events_since_paging_witness :
  events_since id1 0 (1 + 1) db3 = events_since id1 0 1 db3 ++ events_since id1 (0 + 1) 1 db3.
Proof.
  apply (events_since_paging id1 0 1 1 (row_of db3));
    [apply wf3|apply row3_in|vm_compute; reflexivity|lia|lia|lia].
Defined.

Lemma append_event_next_witness :
  exists db', append_event id1 (ev "c") None clk db3 = (Ok (Appended 3), db').
Proof.
  destruct (append_event_next id1 (ev "c") clk (row_of db3) db3) as (db' & Heq & _);
    [apply wf3|apply row3_in|vm_compute; reflexivity..|].
  exists db'. exact Heq.
Defined.

Lemma append_event_dedupe_witness :
  append_event id1 (ev "b") None clk db3 = (Ok (Duplicate 2), db3).
Proof.
  apply (append_event_dedupe id1 (ev "b") (ev "b") None None clk clk 2 "b" db2 db3);
    vm_compute; reflexivity.
Defined.

(** The same key for other work. *)
Definition other_req : NewRun :=
  {| n_project_id := "demo"; n_session_id := Some "s"%string; n_idempotency_key := Some "k1"%string;
     n_runtime_kind := "hermes-loop"; n_provider := None; n_model := None;
     n_request_payload := payload; n_retry_of_run_id := None |}.

Lemma create_run_conflict_witness :
  create_run host 900 900 other_req db1 = (Err (IdempotencyConflict "demo" "k1" id1), db1).
Proof.
  apply (create_run_conflict host 900 900 other_req (row_of db1) "k1" db1);
    [apply wf1|apply row1_in|vm_compute; reflexivity..|vm_compute; discriminate].
Defined.

Lemma create_run_fresh_witness : request_payload (map_run (row_of db1)) = payload.
Proof.
  destruct (create_run_fresh host 100 100 req (map_run (row_of db1)) empty_db db1) as [Heq _];
    [apply wf_empty|vm_compute; reflexivity..|].
  rewrite Heq. vm_compute. reflexivity.
Defined.

Lemma approval_decided_once_witness :
  record_approval_decision id1 2 "deny" 500 db6 = (Ok false, db6).
Proof.
  destruct (approval_decided_once id1 2 "once" "deny" 301 500 db4 db5 db6) as [Heq _];
    [apply wf4|vm_compute; reflexivity|apply update_run_evolves, wf5|apply wf6|exact Heq].
Defined.
