(* ===== verification/Remote.v ===== *)
(** * Remote: command inbox, response outbox and event subscriptions
    ([remote.rs]), and the durable form of a device authorization
    ([device_delivery.rs]). *)
From S2P Require Import Prelude Text Json RunState Redact Schema Registry.

Definition MAX_STORED_PAYLOAD_BYTES : Z := 64 * 1024.
Definition MAX_OUTBOX_DEPTH : Z := 1024.

Inductive CommandState : Type :=
| Received
| Accepted
| Executing
| CmdCompleted
| Rejected
| CmdFailed.

#[export] Instance CommandState_eq_dec : EqDecision CommandState.
Proof. solve_decision. Defined.

Module CommandState.
Definition as_str (s : CommandState) : string :=
  match s with
  | Received => "received"
  | Accepted => "accepted"
  | Executing => "executing"
  | CmdCompleted => "completed"
  | Rejected => "rejected"
  | CmdFailed => "failed"
  end.

Definition parse (value : string) : Result string CommandState :=
  if (value =? "received")%string then Ok Received
  else if (value =? "accepted")%string then Ok Accepted
  else if (value =? "executing")%string then Ok Executing
  else if (value =? "completed")%string then Ok CmdCompleted
  else if (value =? "rejected")%string then Ok Rejected
  else if (value =? "failed")%string then Ok CmdFailed
  else Err value.

Definition is_terminal (s : CommandState) : bool :=
  match s with CmdCompleted | Rejected | CmdFailed => true | _ => false end.
End CommandState.

Record RemoteCommandRecord : Type := {
  rc_command_id : string;
  rc_command : string;
  rc_project_id : option string;
  rc_received_at : Z;
  rc_payload_digest : string;
  rc_state : string;
  rc_started_at : option Z;
  rc_completed_at : option Z;
  rc_response_payload : option Value;
  rc_error_code : option string;
  rc_error_message : option string
}.

Inductive CommandAdmission : Type :=
| Fresh (r : RemoteCommandRecord)
| DuplicateCommand (r : RemoteCommandRecord)
| PayloadMismatch (stored_digest : string).

Record OutboxEntry : Type := {
  oe_id : Z;
  oe_kind : string;
  oe_correlation_id : option string;
  oe_payload : Value;
  oe_created_at : Z
}.

Record HistoryScrub : Type := {
  hs_commands : nat;
  hs_outbox_entries : nat;
  hs_wal_truncated : bool
}.

Record EventSubscription : Type := {
  es_run_id : string;
  es_project_id : string;
  es_acked_seq : Z
}.

Inductive RemoteError : Type :=
| UnknownRemoteCommand (id : string)
| OutboxFull
| RemoteConstraint (constraint : string)
| RemoteVanished.

(** ** [device_delivery.rs] *)

Definition REDACTED_MARKER : string := "device_authorization".
Definition MATERIAL_FIELDS : list string := ["user_code"; "verification_uri"].

Record DeviceDelivery : Type := {
  dd_command_id : string;
  dd_credential_id : string;
  dd_verification_uri : string;
  dd_user_code : string;
  dd_expires_in_seconds : Z
}.

(** Sets the metadata when the identifier validates. *)
Definition with_metadata (credential_id : string) (v : Value) : Value :=
  match safe_metadata [(CredentialId, credential_id)] with
  | Some metadata => index_set SAFE_METADATA_KEY metadata v
  | None => v
  end.

Definition durable_result (credential_id : string) (expires_in_seconds : option Z) : Value :=
  let result := object [("redacted", VString REDACTED_MARKER);
                        ("delivery", VString "transient")]%string in
  let result := match expires_in_seconds with
                | Some seconds =>
                    index_set "expires_in_seconds" (VNumber (PosInt seconds)) result
                | None => result
                end in
  with_metadata credential_id result.

Definition delivery_durable_result (d : DeviceDelivery) : Value :=
  durable_result (dd_credential_id d) (Some (dd_expires_in_seconds d)).

Definition frame_payload (d : DeviceDelivery) : Value :=
  with_metadata (dd_credential_id d) (object
    [("command_id", VString (dd_command_id d));
     ("verification_uri", VString (dd_verification_uri d));
     ("user_code", VString (dd_user_code d));
     ("expires_in_seconds", VNumber (PosInt (dd_expires_in_seconds d)))]%string).

Definition carries_material (result : Value) : bool :=
  match as_object result with
  | Some m => List.existsb (fun field => contains_key field m) MATERIAL_FIELDS
  | None => false
  end.

Definition scrubbed (result : Value) : Value :=
  let credential_id :=
    match get SAFE_METADATA_KEY result with
    | Some metadata =>
        match get (SafeIdentifier.key CredentialId) metadata with
        | Some v => match as_str v with
                    | Some i => if SafeIdentifier.accepts CredentialId i then i else ""%string
                    | None => ""%string
                    end
        | None => ""%string
        end
    | None => ""%string
    end in
  let expires := match get "expires_in_seconds" result with
                 | Some v => as_u64 v
                 | None => None
                 end in
  index_set "delivery" (VString "scrubbed") (durable_result credential_id expires).

Section Methods.
Context `{SerdeJson}.

(** ** Payloads and rows *)

(** Redact, then replace what is still oversized by a note of its size. *)
Definition bounded_payload (v : Value) : string :=
  let encoded := to_string (value (redact v)) in
  if MAX_STORED_PAYLOAD_BYTES <? len encoded then
    to_string (object [("truncated", VBool true);
                       ("bytes", VNumber (PosInt (len encoded)))]%string)
  else encoded.

Definition map_command (c : CommandRow) : RemoteCommandRecord :=
  {| rc_command_id := c_command_id c; rc_command := c_command c;
     rc_project_id := c_project_id c; rc_received_at := c_received_at c;
     rc_payload_digest := c_payload_digest c; rc_state := c_state c;
     rc_started_at := c_started_at c; rc_completed_at := c_completed_at c;
     rc_response_payload := match c_response_payload c with
                            | Some text => from_str text
                            | None => None
                            end;
     rc_error_code := c_error_code c; rc_error_message := c_error_message c |}.

Definition map_outbox (o : OutboxRow) : OutboxEntry :=
  {| oe_id := o_id o; oe_kind := o_kind o; oe_correlation_id := o_correlation_id o;
     oe_payload := default VNull (from_str (o_payload o)); oe_created_at := o_created_at o |}.

Definition is_command (id : string) (c : CommandRow) : bool := (c_command_id c =? id)%string.

Definition load_command (db : Db) (id : string) : option RemoteCommandRecord :=
  map_command <$> select_one (is_command id) (remote_commands db).

(** ** Inbox *)

Definition admit_remote_command (command_id command : string) (project_id : option string)
    (payload_digest : string) (now : Z) : M RemoteError Db CommandAdmission :=
  transaction (
    let! existing := gets (fun db => select_one (is_command command_id) (remote_commands db)) in
    match existing with
    | Some c =>
        if negb (c_payload_digest c =? payload_digest)%string
        then ret (PayloadMismatch (c_payload_digest c))
        else
          let! r := query (fun db => context (load_command db command_id) RemoteVanished) in
          ret (DuplicateCommand r)
    | None =>
        modify (on_commands (fun t => t ++
          [{| c_command_id := command_id; c_command := command; c_project_id := project_id;
              c_received_at := now; c_payload_digest := payload_digest;
              c_state := CommandState.as_str Received; c_started_at := None;
              c_completed_at := None; c_response_payload := None; c_error_code := None;
              c_error_message := None |}])) ;;;
        let! r := query (fun db => context (load_command db command_id) RemoteVanished) in
        ret (Fresh r)
    end).

Definition state_row (s : CommandState) (now : Z) (c : CommandRow) : CommandRow :=
  {| c_command_id := c_command_id c; c_command := c_command c; c_project_id := c_project_id c;
     c_received_at := c_received_at c; c_payload_digest := c_payload_digest c;
     c_state := CommandState.as_str s;
     c_started_at := if bool_decide (s = Executing) && is_null (c_started_at c) then Some now
                     else c_started_at c;
     c_completed_at := c_completed_at c; c_response_payload := c_response_payload c;
     c_error_code := c_error_code c; c_error_message := c_error_message c |}.

Definition set_remote_command_state (command_id : string) (s : CommandState) (now : Z) :
    M RemoteError Db unit :=
  modify (on_commands (update_where (is_command command_id) (state_row s now))).

Definition complete_row (s : CommandState) (response : option string)
    (error_code error_message : option string) (now : Z) (c : CommandRow) : CommandRow :=
  {| c_command_id := c_command_id c; c_command := c_command c; c_project_id := c_project_id c;
     c_received_at := c_received_at c; c_payload_digest := c_payload_digest c;
     c_state := CommandState.as_str s; c_started_at := c_started_at c;
     c_completed_at := Some now; c_response_payload := response;
     c_error_code := error_code; c_error_message := error_message |}.

Definition complete_remote_command (command_id : string) (s : CommandState)
    (response : option Value) (error_code error_message : option string) (now : Z) :
    M RemoteError Db RemoteCommandRecord :=
  let encoded := bounded_payload <$> response in
  modify (on_commands (update_where (is_command command_id)
            (complete_row s encoded error_code error_message now))) ;;;
  query (fun db => context (load_command db command_id) (UnknownRemoteCommand command_id)).

Definition remote_command (id : string) (db : Db) : option RemoteCommandRecord :=
  load_command db id.

Definition interrupted_remote_commands (db : Db) : list RemoteCommandRecord :=
  List.map map_command (order_by (fun a b => c_received_at a <=? c_received_at b)
    (select (fun c => (c_state c =? "received")%string || (c_state c =? "accepted")%string
                      || (c_state c =? "executing")%string) (remote_commands db))).

(** ** Outbox *)

Definition pending (o : OutboxRow) : bool := is_null (o_acknowledged_at o).

Definition outbox_depth (db : Db) : Z := Z.of_nat (changes pending (outbox db)).

Definition enqueue_outbox (kind : string) (correlation_id : option string) (payload : Value)
    (now : Z) : M RemoteError Db Z :=
  let! depth := gets outbox_depth in
  if MAX_OUTBOX_DEPTH <=? depth then fail OutboxFull
  else
    let! db := state in
    match sql_incr (outbox_sequence db) with
    | None => fail (RemoteConstraint "outbox.id")
    | Some next =>
        modify (on_outbox (fun t => t ++
          [{| o_id := next; o_kind := kind; o_correlation_id := correlation_id;
              o_payload := bounded_payload payload; o_created_at := now;
              o_acknowledged_at := None |}]) next) ;;;
        ret next
    end.

Definition pending_outbox (n : Z) (db : Db) : list OutboxEntry :=
  List.map map_outbox
    (limit n (order_by (fun a b => o_id a <=? o_id b) (select pending (outbox db)))).

Definition ack_row (now : Z) (o : OutboxRow) : OutboxRow :=
  {| o_id := o_id o; o_kind := o_kind o; o_correlation_id := o_correlation_id o;
     o_payload := o_payload o; o_created_at := o_created_at o;
     o_acknowledged_at := Some now |}.

Definition ack_where (p : OutboxRow -> bool) (now : Z) (db : Db) : Db :=
  on_outbox (update_where (fun o => p o && pending o) (ack_row now)) (outbox_sequence db) db.

Definition acknowledge_outbox (id : Z) (now : Z) : M RemoteError Db unit :=
  modify (ack_where (fun o => o_id o =? id) now).

Definition acknowledge_outbox_correlation (correlation_id : string) (now : Z) :
    M RemoteError Db nat :=
  let! changed := gets (fun db => changes (fun o => sql_eq (o_correlation_id o) correlation_id
                                                    && pending o) (outbox db)) in
  modify (ack_where (fun o => sql_eq (o_correlation_id o) correlation_id) now) ;;;
  ret changed.

(** ** Device authorization history *)

Definition AUTHORIZE : string := "credentials.authorize".

(** The responses to rewrite, with their new text. *)
Definition scrub_commands (db : Db) : list (string * string) :=
  omap (fun c =>
    match c_response_payload c with
    | Some text =>
        match from_str text with
        | Some v => if carries_material v
                    then Some (c_command_id c, to_string (scrubbed v)) else None
        | None => None
        end
    | None => None
    end) (select (fun c => (c_command c =? AUTHORIZE)%string && negb (is_null (c_response_payload c)))
            (remote_commands db)).

(** Whether an outbox entry answers a [credentials.authorize] command. *)
Definition answers_authorize (db : Db) (o : OutboxRow) : bool :=
  match o_correlation_id o with
  | Some id => List.existsb (fun c => is_command id c && (c_command c =? AUTHORIZE)%string)
                 (remote_commands db)
  | None => false
  end.

Definition scrub_outbox (db : Db) : list (Z * string) :=
  omap (fun o =>
    match from_str (o_payload o) with
    | Some v =>
        match get "result" v with
        | Some result =>
            if carries_material result
            then Some (o_id o, to_string (index_set "result" (scrubbed result) v)) else None
        | None => None
        end
    | None => None
    end) (select (answers_authorize db) (outbox db)).

Definition set_response (text : string) (c : CommandRow) : CommandRow :=
  {| c_command_id := c_command_id c; c_command := c_command c; c_project_id := c_project_id c;
     c_received_at := c_received_at c; c_payload_digest := c_payload_digest c;
     c_state := c_state c; c_started_at := c_started_at c;
     c_completed_at := c_completed_at c; c_response_payload := Some text;
     c_error_code := c_error_code c; c_error_message := c_error_message c |}.

Definition set_payload (text : string) (o : OutboxRow) : OutboxRow :=
  {| o_id := o_id o; o_kind := o_kind o; o_correlation_id := o_correlation_id o;
     o_payload := text; o_created_at := o_created_at o;
     o_acknowledged_at := o_acknowledged_at o |}.

(** One transaction for every rewrite; [wal_truncated] is what the checkpoint
    that follows reports. *)
Definition scrub_device_authorization_history (wal_truncated : bool) :
    M RemoteError Db HistoryScrub :=
  let! commands := gets scrub_commands in
  let! entries := gets scrub_outbox in
  match commands, entries with
  | [], [] => ret {| hs_commands := 0; hs_outbox_entries := 0; hs_wal_truncated := false |}
  | _, _ =>
      transaction (
        modify (fun db => List.fold_left (fun db e =>
          on_commands (update_where (is_command (fst e)) (set_response (snd e))) db) commands db) ;;;
        modify (fun db => List.fold_left (fun db e =>
          on_outbox (update_where (fun o => o_id o =? fst e) (set_payload (snd e)))
            (outbox_sequence db) db) entries db)) ;;;
      ret {| hs_commands := length commands; hs_outbox_entries := length entries;
             hs_wal_truncated := wal_truncated |}
  end.

(** ** Subscriptions *)

Definition is_subscription (id : string) (s : SubscriptionRow) : bool := (s_run_id s =? id)%string.

Definition map_subscription (s : SubscriptionRow) : EventSubscription :=
  {| es_run_id := s_run_id s; es_project_id := s_project_id s; es_acked_seq := s_acked_seq s |}.

Definition subscription (run_id : string) (db : Db) : option EventSubscription :=
  map_subscription <$> select_one (is_subscription run_id) (event_subscriptions db).

Definition touch_subscription (now : Z) (s : SubscriptionRow) : SubscriptionRow :=
  {| s_run_id := s_run_id s; s_project_id := s_project_id s; s_acked_seq := s_acked_seq s;
     s_created_at := s_created_at s; s_updated_at := now |}.

(** [INSERT ... ON CONFLICT(run_id) DO UPDATE SET updated_at]. *)
Definition upsert_subscription (project_id run_id : string) (from_seq now : Z) :
    M RemoteError Db EventSubscription :=
  let! db := state in
  (if List.existsb (is_subscription run_id) (event_subscriptions db)
   then modify (on_subscriptions (update_where (is_subscription run_id) (touch_subscription now)))
   else if negb (List.existsb (is_run run_id) (runs db))
   then fail (RemoteConstraint "event_subscriptions.run_id")
   else modify (on_subscriptions (fun t => t ++
     [{| s_run_id := run_id; s_project_id := project_id; s_acked_seq := Z.max from_seq 0;
         s_created_at := now; s_updated_at := now |}]))) ;;;
  query (fun db => context (subscription run_id db) RemoteVanished).

Definition advance_row (acked_seq now : Z) (s : SubscriptionRow) : SubscriptionRow :=
  {| s_run_id := s_run_id s; s_project_id := s_project_id s;
     s_acked_seq := Z.max (s_acked_seq s) acked_seq; s_created_at := s_created_at s;
     s_updated_at := now |}.

Definition acknowledge_events (run_id : string) (acked_seq now : Z) : M RemoteError Db unit :=
  modify (on_subscriptions (update_where (is_subscription run_id) (advance_row acked_seq now))).

Definition subscriptions (db : Db) : list EventSubscription :=
  List.map map_subscription
    (order_by (fun a b => String.leb (s_run_id a) (s_run_id b)) (event_subscriptions db)).

Definition remove_subscription (run_id : string) : M RemoteError Db unit :=
  modify (on_subscriptions (delete_where (is_subscription run_id))).

End Methods.
