(* ===== verification/RemoteFacts.v ===== *)
(** * RemoteFacts: the invariant of the inbox, the outbox and the
    subscriptions, how they evolve, and that every method of [remote.rs]
    respects both. *)
From Stdlib Require Import Lia Sorted.
From S2P Require Import Prelude Text Json RunState Redact Schema Registry RegistryFacts Evolution.
From S2P Require Import Remote.

(** ** The invariant *)

Definition id_lt (a b : OutboxRow) : Prop := o_id a < o_id b.

Record remote_ok (db : Db) : Prop := {
  ro_command_ids : NoDup (c_command_id <$> remote_commands db);
  (** Rows are in id order, and ids are never reused. *)
  ro_outbox_sorted : StronglySorted id_lt (outbox db);
  ro_outbox_ids : forall o, In o (outbox db) -> o_id o <= outbox_sequence db;
  ro_subscription_ids : NoDup (s_run_id <$> event_subscriptions db);
  ro_acked : forall s, In s (event_subscriptions db) -> 0 <= s_acked_seq s
}.

Lemma remote_ok_empty : remote_ok empty_db.
Proof. split; cbn; try done; try apply NoDup_nil_2. constructor. Qed.

Lemma remote_ok_ext db db' :
  remote_commands db' = remote_commands db -> outbox db' = outbox db ->
  outbox_sequence db' = outbox_sequence db ->
  event_subscriptions db' = event_subscriptions db -> remote_ok db -> remote_ok db'.
Proof.
  intros Hc Ho Hn Hs []. split; rewrite ?Hc, ?Ho, ?Hn, ?Hs; done.
Qed.

(** ** Evolution *)

Record command_evolves (c c' : CommandRow) : Prop := {
  ce_id : c_command_id c' = c_command_id c;
  ce_command : c_command c' = c_command c /\ c_project_id c' = c_project_id c;
  ce_digest : c_payload_digest c' = c_payload_digest c;
  ce_received : c_received_at c' = c_received_at c;
  ce_started : sticky (c_started_at c) (c_started_at c')
}.

Record entry_evolves (o o' : OutboxRow) : Prop := {
  oe_same : o_id o' = o_id o /\ o_kind o' = o_kind o
    /\ o_correlation_id o' = o_correlation_id o /\ o_created_at o' = o_created_at o;
  oe_acknowledged : sticky (o_acknowledged_at o) (o_acknowledged_at o')
}.

(** Commands and outbox entries are never forgotten, and an acknowledgement is
    never taken back. *)
Record remote_evolves (db db' : Db) : Prop := {
  rv_commands : rows_evolve command_evolves (remote_commands db) (remote_commands db');
  rv_outbox : rows_evolve entry_evolves (outbox db) (outbox db');
  rv_sequence : outbox_sequence db <= outbox_sequence db'
}.

#[export] Instance command_evolves_preorder : PreOrder command_evolves.
Proof.
  split; [by intros c; split|]. intros a b c [] []. destruct_and!.
  split; try congruence; [split; congruence|by etransitivity].
Qed.

#[export] Instance entry_evolves_preorder : PreOrder entry_evolves.
Proof.
  split; [by intros o; split|]. intros a b c [] []. destruct_and!.
  split; [repeat split; congruence|by etransitivity].
Qed.

#[export] Instance remote_evolves_preorder : PreOrder remote_evolves.
Proof.
  split; [by intros db; split|]. intros a b c [] []. split; [by etransitivity..|lia].
Qed.

Lemma remote_evolves_ext db db' :
  remote_commands db' = remote_commands db -> outbox db' = outbox db ->
  outbox_sequence db' = outbox_sequence db -> remote_evolves db db'.
Proof. intros Hc Ho Hs. split; rewrite ?Hc, ?Ho, ?Hs; done. Qed.

(** ** Looking up *)

Lemma is_command_true id c : is_command id c = true <-> c_command_id c = id.
Proof. apply String.eqb_eq. Qed.

Lemma is_subscription_true id s : is_subscription id s = true <-> s_run_id s = id.
Proof. apply String.eqb_eq. Qed.

Lemma select_command db id c :
  remote_ok db ->
  (select_one (is_command id) (remote_commands db) = Some c
   <-> In c (remote_commands db) /\ c_command_id c = id).
Proof.
  intros Hok. split.
  - intros [Hin Hc]%select_one_Some. by apply is_command_true in Hc.
  - intros [Hin Hc]. destruct (select_one (is_command id) (remote_commands db)) as [c'|] eqn:E.
    + apply select_one_Some in E as [Hin' Hc'%is_command_true]. f_equal.
      eapply (NoDup_map_inj c_command_id); [|done..|congruence].
      apply NoDup_ListNoDup, Hok.
    + eapply select_one_None in E; [|done]. apply is_command_true in Hc. congruence.
Qed.

Lemma select_subscription db id s :
  remote_ok db ->
  (select_one (is_subscription id) (event_subscriptions db) = Some s
   <-> In s (event_subscriptions db) /\ s_run_id s = id).
Proof.
  intros Hok. split.
  - intros [Hin Hc]%select_one_Some. by apply is_subscription_true in Hc.
  - intros [Hin Hc]. destruct (select_one _ _) as [s'|] eqn:E.
    + apply select_one_Some in E as [Hin' Hc'%is_subscription_true]. f_equal.
      eapply (NoDup_map_inj s_run_id); [|done..|congruence].
      apply NoDup_ListNoDup, Hok.
    + eapply select_one_None in E; [|done]. apply is_subscription_true in Hc. congruence.
Qed.

(** ** Table updates *)

Section Steps.
Context `{SerdeJson}.

Lemma commands_update_ok p f db :
  remote_ok db -> (forall c, c_command_id (f c) = c_command_id c) ->
  remote_ok (on_commands (update_where p f) db).
Proof.
  intros [] Hf. split; try done. cbn.
  change (?g <$> update_where p f ?t) with (List.map g (update_where p f t)).
  rewrite map_update_where; [done|]. by intros.
Qed.

Lemma commands_update_evolves p f db :
  (forall c, command_evolves c (f c)) -> remote_evolves db (on_commands (update_where p f) db).
Proof. intros Hf. split; [|done..]. by apply rows_evolve_update; [apply _|]. Qed.

Lemma StronglySorted_update p f (t : list OutboxRow) :
  (forall o, o_id (f o) = o_id o) -> StronglySorted id_lt t ->
  StronglySorted id_lt (update_where p f t).
Proof.
  intros Hf. induction 1 as [|o t Hs IH Hall]; [constructor|].
  change (update_where p f (o :: t)) with ((if p o then f o else o) :: update_where p f t).
  constructor; [done|]. apply List.Forall_forall. intros x (o' & Ho' & ->)%In_update_where.
  rewrite List.Forall_forall in Hall. specialize (Hall _ Ho'). unfold id_lt in *.
  destruct (p o), (p o'); by rewrite ?Hf.
Qed.

Lemma changes_update_le (p q : OutboxRow -> bool) f t :
  (forall o, q (f o) = true -> q o = true) ->
  (changes q (update_where p f t) <= changes q t)%nat.
Proof.
  intros Hq. unfold changes, update_where. induction t as [|o t IH]; cbn; [done|].
  specialize (Hq o). destruct (p o); destruct (q o) eqn:E; cbn; try lia;
    destruct (q (f o)) eqn:E'; cbn; try lia; discriminate Hq; done.
Qed.

Lemma outbox_update_ok p f db :
  remote_ok db -> (forall o, entry_evolves o (f o)) ->
  remote_ok (on_outbox (update_where p f) (outbox_sequence db) db).
Proof.
  intros [] Hf.
  assert (forall o, o_id (f o) = o_id o) as Hid by (intros o; apply Hf).
  split; cbn [on_outbox remote_commands outbox outbox_sequence event_subscriptions]; try done.
  - by apply StronglySorted_update.
  - intros o' (o & Ho & ->)%In_update_where. destruct (p o); rewrite ?Hid; auto.
Qed.

(** The bound on what waits for an acknowledgement.  It is kept apart: what
    [enqueue_outbox] and acknowledgements do keeps it, but reports of task cards
    are queued without looking at it. *)
Definition outbox_bounded (db : Db) : Prop := outbox_depth db <= MAX_OUTBOX_DEPTH.
Lemma outbox_bounded_ext db db' : outbox db' = outbox db -> outbox_bounded db -> outbox_bounded db'.
Proof. unfold outbox_bounded, outbox_depth. by intros ->. Qed.
Lemma outbox_update_bounded p f n db :
  outbox_bounded db -> (forall o, entry_evolves o (f o)) -> outbox_bounded (on_outbox (update_where p f) n db).
Proof.
  unfold outbox_bounded, outbox_depth. intros Hb Hf. etransitivity; [|exact Hb]. apply inj_le, changes_update_le.
  intros o. unfold pending. destruct (Hf o) as [_ Hs]. destruct (o_acknowledged_at o); [|done].
  rewrite Hs by eauto. done.
Qed.

Lemma outbox_update_evolves p f db :
  (forall o, entry_evolves o (f o)) ->
  remote_evolves db (on_outbox (update_where p f) (outbox_sequence db) db).
Proof. intros Hf. split; [done| |done]. by apply rows_evolve_update; [apply _|]. Qed.

Lemma subscriptions_update_ok p f db :
  remote_ok db -> (forall s, s_run_id (f s) = s_run_id s) ->
  (forall s, 0 <= s_acked_seq s -> 0 <= s_acked_seq (f s)) ->
  remote_ok (on_subscriptions (update_where p f) db).
Proof.
  intros [] Hid Hf. split; try done; cbn.
  - change (?g <$> update_where p f ?t) with (List.map g (update_where p f t)).
    rewrite map_update_where; [done|]. by intros.
  - intros s' (s & Hs & ->)%In_update_where. destruct (p s); auto.
Qed.

(** ** Inbox *)

Lemma admit_inv id command project digest now db res db' :
  admit_remote_command id command project digest now db = (res, db') ->
  match res with
  | Ok (Fresh r) => select_one (is_command id) (remote_commands db) = None
      /\ exists c, db' = on_commands (fun t => t ++ [c]) db /\ r = map_command c
           /\ c_command_id c = id /\ c_payload_digest c = digest /\ c_command c = command
           /\ c_state c = CommandState.as_str Received
  | Ok (DuplicateCommand r) => db' = db
      /\ exists c, select_one (is_command id) (remote_commands db) = Some c
           /\ c_payload_digest c = digest /\ r = map_command c
  | Ok (PayloadMismatch stored) => db' = db
      /\ exists c, select_one (is_command id) (remote_commands db) = Some c
           /\ c_payload_digest c = stored /\ stored <> digest
  | Err _ => False
  end.
Proof.
  unfold admit_remote_command, transaction, bind, gets, query, modify, context, load_command.
  destruct (select_one (is_command id) (remote_commands db)) as [c|] eqn:Es.
  - destruct (c_payload_digest c =? digest)%string eqn:Ed; cbn.
    + apply String.eqb_eq in Ed. rewrite Es. cbn. intros [= <- <-]. eauto 10.
    + apply String.eqb_neq in Ed. intros [= <- <-]. eauto 10.
  - cbn. rewrite select_one_app, Es. cbn.
    unfold is_command. cbn. rewrite String.eqb_refl. cbn. intros [= <- <-]. split; [done|]. eexists. repeat split.
Qed.

Lemma admit_ok id command project digest now db :
  remote_ok db -> remote_ok (snd (admit_remote_command id command project digest now db)).
Proof.
  intros Hok. destruct (admit_remote_command id command project digest now db) as [res db'] eqn:E.
  apply admit_inv in E. cbn. destruct res as [[r|r|s]|]; [|by destruct E as [-> _]..|done].
  destruct E as (Hn & c & -> & _ & Hid & _). destruct Hok. split; try done. cbn.
  rewrite fmap_app. apply list.NoDup_app. split; [done|split; [|apply NoDup_singleton]].
  intros x (c' & -> & Hc')%list_elem_of_fmap Hx%list_elem_of_singleton.
  apply list_elem_of_In in Hc'. pose proof (select_one_None _ _ _ Hn Hc') as Hf.
  by rewrite (proj2 (is_command_true id c')) in Hf by congruence.
Qed.

Lemma admit_evolves id command project digest now db :
  remote_evolves db (snd (admit_remote_command id command project digest now db)).
Proof.
  destruct (admit_remote_command id command project digest now db) as [res db'] eqn:E.
  apply admit_inv in E. cbn. destruct res as [[r|r|s]|]; [|by destruct E as [-> _]..|done].
  destruct E as (_ & c & -> & _). split; [|done..]. apply rows_evolve_snoc, _.
Qed.

Lemma state_row_evolves s now c : command_evolves c (state_row s now c).
Proof.
  split; try done. intros [z Hz]. cbn. rewrite Hz. cbn. by rewrite andb_false_r.
Qed.

Lemma set_state_ok id s now db :
  remote_ok db -> remote_ok (snd (set_remote_command_state id s now db)).
Proof. intros. by apply commands_update_ok. Qed.
Lemma set_state_evolves id s now db :
  remote_evolves db (snd (set_remote_command_state id s now db)).
Proof. apply commands_update_evolves. intros c. apply state_row_evolves. Qed.

Lemma complete_ok id s r ec em now db :
  remote_ok db -> remote_ok (snd (complete_remote_command id s r ec em now db)).
Proof. intros. by apply commands_update_ok. Qed.
Lemma complete_evolves id s r ec em now db :
  remote_evolves db (snd (complete_remote_command id s r ec em now db)).
Proof. by apply commands_update_evolves. Qed.

(** ** Outbox *)

Lemma enqueue_inv kind corr payload now db res db' :
  enqueue_outbox kind corr payload now db = (res, db') ->
  match res with
  | Ok id => outbox_depth db < MAX_OUTBOX_DEPTH /\ id = outbox_sequence db + 1
      /\ db' = on_outbox (fun t => t ++
           [{| o_id := id; o_kind := kind; o_correlation_id := corr;
               o_payload := bounded_payload payload; o_created_at := now;
               o_acknowledged_at := None |}]) id db
  | Err e => db' = db /\ (e = OutboxFull <-> MAX_OUTBOX_DEPTH <= outbox_depth db)
  end.
Proof.
  unfold enqueue_outbox, bind, gets, Prelude.state, fail, ret, modify, sql_incr.
  destruct (Z.leb_spec MAX_OUTBOX_DEPTH (outbox_depth db)); [by intros [= <- <-]|].
  split_if; intros [= <- <-]; [done|]. split; [done|]. split; [done|lia].
Qed.

Lemma changes_app {R} (p : R -> bool) t1 t2 :
  changes p (t1 ++ t2) = (changes p t1 + changes p t2)%nat.
Proof. unfold changes. by rewrite List.filter_app, length_app. Qed.

Lemma StronglySorted_snoc {A} (R : A -> A -> Prop) t x :
  StronglySorted R t -> (forall y, In y t -> R y x) -> StronglySorted R (t ++ [x]).
Proof.
  induction 1 as [|y t Hs IH Hall]; intros Hx; cbn; [repeat constructor|].
  constructor; [apply IH; intros z Hz; apply Hx; by right|].
  apply List.Forall_app. split; [done|]. constructor; [|constructor]. apply Hx. by left.
Qed.

(** A row with the next id. *)
Lemma outbox_snoc_ok db o :
  remote_ok db -> o_id o = outbox_sequence db + 1 ->
  remote_ok (on_outbox (fun t => t ++ [o]) (outbox_sequence db + 1) db).
Proof.
  intros [] Hid. split; cbn [on_outbox remote_commands outbox outbox_sequence event_subscriptions]; try done.
  - apply StronglySorted_snoc; [done|]. intros o' Ho. unfold id_lt. specialize (ro_outbox_ids0 _ Ho). lia.
  - intros o' [Ho|[<-|[]]]%in_app_iff; [|lia]. specialize (ro_outbox_ids0 _ Ho). lia.
Qed.
Lemma outbox_snoc_evolves db o : remote_evolves db (on_outbox (fun t => t ++ [o]) (outbox_sequence db + 1) db).
Proof. split; cbn; [done|apply rows_evolve_snoc, _|lia]. Qed.

Lemma enqueue_ok kind corr payload now db :
  remote_ok db -> remote_ok (snd (enqueue_outbox kind corr payload now db)).
Proof.
  intros Hok. destruct (enqueue_outbox kind corr payload now db) as [res db'] eqn:E.
  apply enqueue_inv in E. cbn. destruct res as [id|e]; [|by destruct E as [-> _]].
  destruct E as (_ & -> & ->). by apply outbox_snoc_ok.
Qed.
Lemma enqueue_bounded kind corr payload now db :
  outbox_bounded db -> outbox_bounded (snd (enqueue_outbox kind corr payload now db)).
Proof.
  intros Hb. destruct (enqueue_outbox kind corr payload now db) as [res db'] eqn:E.
  apply enqueue_inv in E. cbn. destruct res as [id|e]; [|by destruct E as [-> _]].
  destruct E as (Hd & -> & ->). unfold outbox_bounded, outbox_depth in *. cbn [outbox on_outbox]. rewrite changes_app. cbn. lia.
Qed.

Lemma enqueue_evolves kind corr payload now db :
  remote_evolves db (snd (enqueue_outbox kind corr payload now db)).
Proof.
  destruct (enqueue_outbox kind corr payload now db) as [res db'] eqn:E.
  apply enqueue_inv in E. cbn. destruct res as [id|e]; [|by destruct E as [-> _]].
  destruct E as (_ & -> & ->). apply outbox_snoc_evolves.
Qed.

(** Only pending entries are acknowledged, so restrict the update to them. *)
Lemma ack_where_guarded p now db :
  ack_where p now db =
  on_outbox (update_where (fun o => p o && pending o)
               (fun o => if pending o then ack_row now o else o)) (outbox_sequence db) db.
Proof.
  unfold ack_where, on_outbox, update_where. f_equal. apply map_ext. intros o.
  by destruct (p o), (pending o).
Qed.

Lemma ack_guarded_evolves now o : entry_evolves o (if pending o then ack_row now o else o).
Proof.
  unfold pending. destruct (o_acknowledged_at o) eqn:E; cbn; [done|].
  split; [done|]. rewrite E. by intros [].
Qed.

Lemma ack_where_ok p now db : remote_ok db -> remote_ok (ack_where p now db).
Proof. intros. rewrite ack_where_guarded. apply outbox_update_ok; [done|apply ack_guarded_evolves]. Qed.
Lemma ack_where_evolves p now db : remote_evolves db (ack_where p now db).
Proof. rewrite ack_where_guarded. apply outbox_update_evolves, ack_guarded_evolves. Qed.

Lemma ack_where_bounded p now db : outbox_bounded db -> outbox_bounded (ack_where p now db).
Proof. intros. rewrite ack_where_guarded. apply outbox_update_bounded; [done|apply ack_guarded_evolves]. Qed.

(** ** Device authorization history *)

Lemma fold_left_state {S X} (P : S -> Prop) (f : S -> X -> S) l s :
  (forall s x, P s -> P (f s x)) -> P s -> P (List.fold_left f l s).
Proof. intros Hf. revert s. induction l as [|x l IH]; cbn; auto. Qed.

Lemma scrub_steps (P : Db -> Prop) wal db :
  (forall db id text, P db -> P (on_commands (update_where (is_command id) (set_response text)) db)) ->
  (forall db id text, P db -> P (on_outbox (update_where (fun o => o_id o =? id) (set_payload text))
                                   (outbox_sequence db) db)) ->
  P db -> P (snd (scrub_device_authorization_history wal db)).
Proof.
  intros H1 H2 Hdb. unfold scrub_device_authorization_history, bind, gets.
  assert (P (List.fold_left (fun db e =>
          on_outbox (update_where (fun o => o_id o =? fst e) (set_payload (snd e)))
            (outbox_sequence db) db) (scrub_outbox db)
       (List.fold_left (fun db e =>
          on_commands (update_where (is_command (fst e)) (set_response (snd e))) db)
          (scrub_commands db) db))) as HP.
  { apply fold_left_state; [intros; by apply H2|]. apply fold_left_state; [intros; by apply H1|done]. }
  destruct (scrub_commands db), (scrub_outbox db); exact Hdb || exact HP.
Qed.

Lemma scrub_ok wal db :
  remote_ok db -> remote_ok (snd (scrub_device_authorization_history wal db)).
Proof.
  apply scrub_steps; intros; [by apply commands_update_ok|by apply outbox_update_ok].
Qed.

Lemma scrub_bounded wal db :
  outbox_bounded db -> outbox_bounded (snd (scrub_device_authorization_history wal db)).
Proof. apply scrub_steps; intros; [by eapply outbox_bounded_ext|by apply outbox_update_bounded]. Qed.

Lemma scrub_evolves wal db :
  remote_evolves db (snd (scrub_device_authorization_history wal db)).
Proof.
  apply (scrub_steps (remote_evolves db)); [..|done]; intros db' ? ? Hdb';
    etransitivity; try exact Hdb'.
  - by apply commands_update_evolves.
  - by apply outbox_update_evolves.
Qed.

(** ** Subscriptions *)

Lemma upsert_inv project id from now db res db' :
  upsert_subscription project id from now db = (res, db') ->
  match select_one (is_subscription id) (event_subscriptions db) with
  | Some s => res = Ok (map_subscription (touch_subscription now s))
      /\ db' = on_subscriptions (update_where (is_subscription id) (touch_subscription now)) db
  | None =>
      if List.existsb (is_run id) (runs db) then
        res = Ok {| es_run_id := id; es_project_id := project; es_acked_seq := Z.max from 0 |}
        /\ db' = on_subscriptions (fun t => t ++
             [{| s_run_id := id; s_project_id := project; s_acked_seq := Z.max from 0;
                 s_created_at := now; s_updated_at := now |}]) db
      else res = Err (RemoteConstraint "event_subscriptions.run_id") /\ db' = db
  end.
Proof.
  unfold upsert_subscription, bind, Prelude.state, query, context, subscription.
  destruct (select_one (is_subscription id) (event_subscriptions db)) as [s|] eqn:Es.
  - apply select_one_Some in Es as Es'. destruct Es' as [Hin Hid].
    rewrite (proj2 (existsb_exists _ _)) by eauto. cbn.
    rewrite (select_one_update_where _ (is_subscription id)) by done. rewrite Es. cbn.
    rewrite Hid. by intros [= <- <-].
  - rewrite (proj2 (existsb_false _ _)).
    2: { intros s Hs. by apply (select_one_None _ _ _ Es). }
    destruct (List.existsb (is_run id) (runs db)); cbn; [|by intros [= <- <-]].
    rewrite select_one_app, Es. cbn. unfold is_subscription. cbn.
    rewrite String.eqb_refl. by intros [= <- <-].
Qed.

Lemma upsert_ok project id from now db :
  remote_ok db -> remote_ok (snd (upsert_subscription project id from now db)).
Proof.
  intros Hok. destruct (upsert_subscription project id from now db) as [res db'] eqn:E.
  apply upsert_inv in E. cbn.
  destruct (select_one (is_subscription id) (event_subscriptions db)) as [s|] eqn:Es.
  - destruct E as [_ ->]. by apply subscriptions_update_ok.
  - destruct (List.existsb _ _); destruct E as [_ ->]; [|done]. destruct Hok. split; try done; cbn.
    + rewrite fmap_app. apply list.NoDup_app. split; [done|split; [|apply NoDup_singleton]].
      intros x (s & -> & Hs)%list_elem_of_fmap Hx%list_elem_of_singleton. cbn in Hx.
      apply list_elem_of_In in Hs. pose proof (select_one_None _ _ _ Es Hs) as Hf.
      by rewrite (proj2 (is_subscription_true _ _) Hx) in Hf.
    + intros s [Hs|[<-|[]]]%in_app_iff; [auto|]. cbn. lia.
Qed.

Lemma acknowledge_events_ok id acked now db :
  remote_ok db -> remote_ok (snd (acknowledge_events id acked now db)).
Proof. intros. apply subscriptions_update_ok; [done..|]. cbn. lia. Qed.

Lemma remove_subscription_ok id db :
  remote_ok db -> remote_ok (snd (remove_subscription id db)).
Proof.
  intros []. split; try done; cbn.
  - by apply NoDup_fmap_filter.
  - intros s [Hs _]%filter_In. auto.
Qed.
End Steps.
