(* ===== verification/RemoteTheorems.v ===== *)
(** * RemoteTheorems: at-most-once commands, the durable outbox, subscription
    cursors, and device codes that do not stay in command history. *)
From Stdlib Require Import Lia Sorted.
From S2P Require Import Prelude Text Json RunState Redact Schema Registry RegistryFacts Evolution.
From S2P Require Import RegistryTheorems Remote RemoteFacts.
Import Samples.

(** ** Inbox *)

(** A command is admitted for execution at most once: after an admission
    answered [Fresh], in every later state of the registry the same id is answered
    by its stored record when the payload digest is the same and by
    [PayloadMismatch] when it is not, and neither changes the registry. *)
Theorem remote_command_admitted_once `{SerdeJson} id command project digest now r db db1 db2
    command2 project2 digest2 now2 :
  admit_remote_command id command project digest now db = (Ok (Fresh r), db1) ->
  remote_evolves db1 db2 -> remote_ok db2 ->
  exists c, In c (remote_commands db2) /\ c_command_id c = id /\ c_payload_digest c = digest
    /\ c_command c = command
    /\ admit_remote_command id command2 project2 digest2 now2 db2
       = (Ok (if (digest =? digest2)%string then DuplicateCommand (map_command c)
              else PayloadMismatch digest), db2).
Proof.
  intros (_ & c & -> & _ & Hid & Hdig & Hcmd & _)%admit_inv Hev Hok.
  destruct (rv_commands _ _ Hev (length (remote_commands db)) c) as (c' & Hc' & Hce).
  { cbn. by rewrite lookup_app_r, Nat.sub_diag by lia. }
  destruct Hce as [Hid' [Hcmd' _] Hdig' _ _].
  assert (In c' (remote_commands db2)) as Hin
    by (apply list_elem_of_In, list_elem_of_lookup; eauto).
  exists c'. split; [done|]. do 3 (split; [congruence|]).
  assert (select_one (is_command id) (remote_commands db2) = Some c') as Hs
    by (apply select_command; [done|split; [done|congruence]]).
  unfold admit_remote_command, transaction, bind, gets, query, context, load_command.
  rewrite Hs, Hdig', Hdig. destruct (digest =? digest2)%string; [|done].
  cbn. by rewrite Hs.
Qed.

(** The stored form of a payload, read back. *)
Lemma bounded_payload_roundtrip `{SerdeJsonLaws} v :
  integral v = true -> ordered v = true ->
  len (to_string (value (redact v))) <= MAX_STORED_PAYLOAD_BYTES ->
  from_str (bounded_payload v) = Some (value (redact v)).
Proof.
  intros Hi Ho Hl. unfold bounded_payload. rewrite (proj2 (Z.ltb_ge _ _) Hl).
  by apply redacted_roundtrip.
Qed.

(** A redelivered command replays the outcome of its execution: once a
    command was completed with a response, delivering it again answers with that
    terminal record, whose response is the redacted response given. *)
Theorem remote_command_replays_outcome `{SerdeJsonLaws} id s v ec em now r db db1 c
    command2 project2 now2 :
  remote_ok db -> In c (remote_commands db) -> c_command_id c = id ->
  integral v = true -> ordered v = true ->
  len (to_string (value (redact v))) <= MAX_STORED_PAYLOAD_BYTES ->
  complete_remote_command id s (Some v) ec em now db = (Ok r, db1) ->
  admit_remote_command id command2 project2 (c_payload_digest c) now2 db1
    = (Ok (DuplicateCommand r), db1)
  /\ rc_response_payload r = Some (value (redact v))
  /\ rc_state r = CommandState.as_str s /\ rc_completed_at r = Some now
  /\ rc_error_code r = ec /\ rc_error_message r = em.
Proof.
  intros Hok Hin Hid Hi Ho Hl Heq.
  assert (select_one (is_command id) (remote_commands db) = Some c) as Hs by (by apply select_command).
  unfold complete_remote_command, bind, modify, query, context, load_command in Heq. cbn in Heq.
  rewrite (select_one_update_where _ (is_command id)) in Heq by done.
  rewrite Hs in Heq. cbn in Heq. rewrite (proj2 (is_command_true id c) Hid) in Heq.
  injection Heq as <- <-. split.
  - unfold admit_remote_command, transaction, bind, gets, query, context, load_command. cbn.
    rewrite (select_one_update_where _ (is_command id)) by done. rewrite Hs. cbn.
    rewrite (proj2 (is_command_true id c) Hid). cbn. rewrite String.eqb_refl. cbn.
    rewrite (select_one_update_where _ (is_command id)) by done. rewrite Hs. cbn.
    by rewrite (proj2 (is_command_true id c) Hid).
  - cbn. by rewrite bounded_payload_roundtrip.
Qed.

(** ** Outbox *)

Lemma StronglySorted_select (p : OutboxRow -> bool) t :
  StronglySorted id_lt t -> StronglySorted (fun a b => (o_id a <=? o_id b) = true) (select p t).
Proof.
  induction 1 as [|o t Hs IH Hall]; cbn; [constructor|]. destruct (p o); [|done].
  constructor; [done|]. rewrite List.Forall_forall in *. intros x [Hx _]%In_select.
  apply Z.leb_le. specialize (Hall _ Hx). unfold id_lt in Hall. lia.
Qed.

Lemma pending_rows `{SerdeJson} n db :
  remote_ok db -> pending_outbox n db = List.map map_outbox (limit n (select pending (outbox db))).
Proof.
  intros Hok. unfold pending_outbox. rewrite order_by_id; [done|].
  apply StronglySorted_select, Hok.
Qed.

Lemma pending_all `{SerdeJson} n db :
  remote_ok db -> outbox_depth db <= n ->
  pending_outbox n db = List.map map_outbox (select pending (outbox db)).
Proof.
  intros Hok Hn. rewrite pending_rows by done. unfold limit, outbox_depth, changes in *.
  rewrite (proj2 (Z.ltb_ge n 0)) by lia. rewrite firstn_all2; [done|]. unfold select. lia.
Qed.

(** The outbox is a bounded first-in first-out queue: below the bound an
    entry is accepted under a new id, becomes the last pending entry, and its
    payload reads back as the redacted payload given; at the bound it is refused
    and nothing changes. *)
Theorem outbox_enqueue `{SerdeJsonLaws} kind corr payload now n db :
  remote_ok db -> outbox_sequence db < i64_max -> outbox_depth db < n ->
  integral payload = true -> ordered payload = true ->
  len (to_string (value (redact payload))) <= MAX_STORED_PAYLOAD_BYTES ->
  if MAX_OUTBOX_DEPTH <=? outbox_depth db
  then enqueue_outbox kind corr payload now db = (Err OutboxFull, db)
  else exists id db', enqueue_outbox kind corr payload now db = (Ok id, db')
    /\ (forall o, In o (outbox db) -> o_id o < id)
    /\ pending_outbox n db' = pending_outbox n db ++
         [{| oe_id := id; oe_kind := kind; oe_correlation_id := corr;
             oe_payload := value (redact payload); oe_created_at := now |}].
Proof.
  intros Hok Hseq Hn Hi Ho Hl.
  destruct (enqueue_outbox kind corr payload now db) as [res db'] eqn:E.
  pose proof (enqueue_ok kind corr payload now db Hok) as Hok'. rewrite E in Hok'. cbn in Hok'.
  pose proof E as Hinv%enqueue_inv.
  destruct (Z.leb_spec MAX_OUTBOX_DEPTH (outbox_depth db)) as [Hf|Hf].
  - destruct res as [id|e]; [lia|]. destruct Hinv as [-> Hiff]. by rewrite (proj2 Hiff).
  - assert (exists id, res = Ok id) as [id ->].
    { unfold enqueue_outbox, bind, gets, Prelude.state, sql_incr, fail, ret, modify in E.
      rewrite (proj2 (Z.leb_gt _ _) Hf), (proj2 (Z.ltb_lt _ _) Hseq) in E.
      injection E as <- _. eauto. }
    destruct Hinv as (_ & Hid & Hdb'). exists id, db'. split; [done|]. split.
    { intros o Hin. pose proof (ro_outbox_ids _ Hok _ Hin). lia. }
    rewrite (pending_all n db) by (done || lia). rewrite pending_all; [|done|].
    + rewrite Hdb'. cbn [on_outbox outbox]. rewrite select_app, map_app. f_equal. cbn.
      unfold map_outbox. cbn. by rewrite bounded_payload_roundtrip.
    + rewrite Hdb'. unfold outbox_depth in *. cbn [on_outbox outbox]. rewrite changes_app. cbn. lia.
Qed.

Lemma select_pending_ack p now t :
  select pending (update_where (fun o => p o && pending o) (ack_row now) t)
  = select (fun o => negb (p o)) (select pending t).
Proof.
  unfold select, update_where. induction t as [|o t IH]; cbn; [done|].
  destruct (p o) eqn:Ep, (pending o) eqn:Eq; cbn; rewrite ?Eq, ?Ep; cbn; by rewrite ?IH.
Qed.

Lemma ack_where_twice p now now2 db : ack_where p now2 (ack_where p now db) = ack_where p now db.
Proof.
  unfold ack_where, on_outbox. cbn. f_equal. apply update_where_id.
  intros o' (o & Ho & ->)%In_update_where [Hp Hq]%andb_true_iff. destruct (p o) eqn:Ep; cbn in *.
  - destruct (pending o) eqn:Eq; cbn in *; [done|congruence].
  - congruence.
Qed.

Lemma filter_map_swap {A B} (f : A -> B) (p : B -> bool) l :
  List.filter p (List.map f l) = List.map f (List.filter (fun x => p (f x)) l).
Proof. induction l as [|x l IH]; cbn; [done|]. destruct (p (f x)); cbn; by rewrite IH. Qed.

(** An acknowledgement removes exactly the entries it names from the pending
    queue and keeps the order of the others; it is never undone, and a second
    acknowledgement of the same entries changes nothing. *)
Theorem outbox_acknowledge `{SerdeJson} corr now now2 n db :
  remote_ok db -> outbox_depth db <= n ->
  let db' := snd (acknowledge_outbox_correlation corr now db) in
  fst (acknowledge_outbox_correlation corr now db)
    = Ok (length (List.filter (fun e => sql_eq (oe_correlation_id e) corr) (pending_outbox n db)))
  /\ pending_outbox n db'
     = List.filter (fun e => negb (sql_eq (oe_correlation_id e) corr)) (pending_outbox n db)
  /\ acknowledge_outbox_correlation corr now2 db' = (Ok 0%nat, db')
  /\ remote_evolves db db'.
Proof.
  intros Hok Hn db'.
  assert (db' = ack_where (fun o => sql_eq (o_correlation_id o) corr) now db) as Hdb' by done.
  assert (select pending (outbox db')
    = select (fun o => negb (sql_eq (o_correlation_id o) corr)) (select pending (outbox db))) as Hp
    by (rewrite Hdb'; apply select_pending_ack).
  assert (outbox_depth db' <= n) as Hn'.
  { etransitivity; [|apply Hn]. unfold outbox_depth, changes.
    change (List.filter pending ?t) with (select pending t). rewrite Hp.
    apply inj_le, List.filter_length_le. }
  assert (remote_ok db') as Hok' by (rewrite Hdb'; by apply ack_where_ok).
  rewrite !pending_all by done. split; [|split; [|split]].
  - unfold acknowledge_outbox_correlation, bind, gets, modify, ret, changes. cbn [fst]. f_equal.
    rewrite filter_map_swap, length_map.
    change (List.filter ?p ?t) with (select p t). cbn [map_outbox oe_correlation_id].
    rewrite <- select_and. f_equal. apply filter_ext. intros o. apply andb_comm.
  - by rewrite Hp, filter_map_swap.
  - unfold acknowledge_outbox_correlation, bind, gets, modify, ret. rewrite Hdb'. f_equal.
    + f_equal. apply changes_zero. intros o' (o & Ho & ->)%In_update_where.
      destruct (sql_eq (o_correlation_id o) corr) eqn:Es; cbn; [|by rewrite Es].
      destruct (pending o) eqn:Eq; cbn; rewrite Es; [done|by rewrite Eq].
    + apply ack_where_twice.
  - rewrite Hdb'. apply ack_where_evolves.
Qed.

(** A result too large to store is not truncated but replaced: its outbox
    entry then carries neither the result nor the command id the wrapper had, only
    a note of the size, so a receiver cannot tell which command it answers. *)
Theorem oversized_result_loses_its_command `{SerdeJsonLaws} kind corr payload now id db db' :
  remote_ok db -> MAX_STORED_PAYLOAD_BYTES < len (to_string (value (redact payload))) ->
  enqueue_outbox kind corr payload now db = (Ok id, db') ->
  exists entry, pending_outbox (-1) db' = pending_outbox (-1) db ++ [entry] /\ oe_id entry = id
    /\ oe_payload entry = object [("truncated", VBool true);
         ("bytes", VNumber (PosInt (len (to_string (value (redact payload))))))]%string
    /\ get "command_id" (oe_payload entry) = None.
Proof.
  intros Hok Hl Heq. pose proof (enqueue_ok kind corr payload now db Hok) as Hok'.
  rewrite Heq in Hok'. cbn in Hok'. apply enqueue_inv in Heq as (_ & _ & Hdb').
  rewrite !pending_rows by done. rewrite Hdb'. unfold limit.
  change (-1 <? 0) with true. cbn [on_outbox outbox].
  rewrite select_app, map_app. eexists. split; [done|]. cbn.
  unfold bounded_payload. rewrite (proj2 (Z.ltb_lt _ _) Hl).
  rewrite from_str_to_string; [done|by apply Nat.leb_le|done|done].
Qed.

(** ** Subscriptions *)

(** A subscription cursor never moves backwards: an acknowledgement raises it
    to the larger of the two positions, and subscribing again, from whatever
    position, keeps the cursor already recorded. *)
Theorem subscription_cursor_monotone `{SerdeJson} id acked now s project from now2 db :
  remote_ok db -> subscription id db = Some s ->
  let db1 := snd (acknowledge_events id acked now db) in
  subscription id db1 = Some {| es_run_id := es_run_id s; es_project_id := es_project_id s;
                                es_acked_seq := Z.max (es_acked_seq s) acked |}
  /\ (forall id2, id2 <> id -> subscription id2 db1 = subscription id2 db)
  /\ fst (upsert_subscription project id from now2 db1) =
     context (subscription id db1) RemoteVanished
  /\ subscription id (snd (upsert_subscription project id from now2 db1)) = subscription id db1.
Proof.
  intros Hok Hs db1. unfold subscription in *.
  destruct (select_one (is_subscription id) (event_subscriptions db)) as [row|] eqn:Er; [|done].
  injection Hs as <-.
  assert (select_one (is_subscription id) (event_subscriptions db1)
          = Some (advance_row acked now row)) as H1.
  { unfold db1. cbn. rewrite (select_one_update_where _ (is_subscription id)) by done. rewrite Er. cbn.
    apply select_one_Some in Er as [_ ->]. done. }
  rewrite H1. split; [done|]. split.
  { intros id2 Hne. unfold db1. cbn. rewrite (select_one_update_where _ (is_subscription id2)) by done.
    destruct (select_one (is_subscription id2) _) as [row2|] eqn:E2; [|done]. cbn.
    apply select_one_Some in E2 as [_ E2%is_subscription_true].
    split_if; [|done]. apply is_subscription_true in Heqb. congruence. }
  destruct (upsert_subscription project id from now2 db1) as [res db2] eqn:Eu.
  apply upsert_inv in Eu. rewrite H1 in Eu. destruct Eu as [-> ->]. split; [done|].
  cbn [snd on_subscriptions event_subscriptions].
  rewrite (select_one_update_where _ (is_subscription id)) by done. rewrite H1. cbn.
  by split_if.
Qed.

(** ** The theorems at a sample inbox and outbox *)

Definition rdb1 : Db :=
  snd (admit_remote_command "cmd-1" "runs.create" (Some "demo"%string) "d1" 10 db6).
Definition rdb2 : Db := snd (set_remote_command_state "cmd-1" Executing 11 rdb1).
Definition rdb3 : Db :=
  snd (complete_remote_command "cmd-1" CmdCompleted (Some payload) None None 12 rdb2).
Definition rdb4 : Db :=
  snd (enqueue_outbox "command_result" (Some "cmd-1"%string) payload 13 rdb3).
Definition rdb5 : Db := snd (upsert_subscription "demo" id1 1 14 rdb4).

Lemma rok0 : remote_ok db6.
Proof. apply (remote_ok_ext empty_db); [vm_compute; reflexivity..|apply remote_ok_empty]. Qed.
Lemma rok1 : remote_ok rdb1.
Proof. apply admit_ok, rok0. Qed.
Lemma rok2 : remote_ok rdb2.
Proof. apply set_state_ok, rok1. Qed.
Lemma rok3 : remote_ok rdb3.
Proof. apply complete_ok, rok2. Qed.
Lemma rok4 : remote_ok rdb4.
Proof. apply enqueue_ok, rok3. Qed.
Lemma rok5 : remote_ok rdb5.
Proof. apply upsert_ok, rok4. Qed.

Definition command_of (db : Db) : CommandRow :=
  default {| c_command_id := ""; c_command := ""; c_project_id := None; c_received_at := 0;
             c_payload_digest := ""; c_state := ""; c_started_at := None; c_completed_at := None;
             c_response_payload := None; c_error_code := None; c_error_message := None |}
    (select_one (is_command "cmd-1") (remote_commands db)).

Lemma remote_command_admitted_once_witness :
  exists r, admit_remote_command "cmd-1" "runs.create" None "d1" 99 rdb3
            = (Ok (DuplicateCommand r), rdb3).
Proof.
  destruct (remote_command_admitted_once "cmd-1" "runs.create" (Some "demo"%string) "d1" 10
              (map_command (command_of rdb1)) db6 rdb1 rdb3 "runs.create" None "d1" 99)
    as (c & _ & _ & _ & _ & Heq);
    [vm_compute; reflexivity| |apply rok3|exists (map_command c); exact Heq].
  transitivity rdb2; [apply set_state_evolves|apply complete_evolves].
Defined.

Lemma remote_command_replays_outcome_witness :
  admit_remote_command "cmd-1" "runs.create" None "d1" 99 rdb3
  = (Ok (DuplicateCommand (map_command (command_of rdb3))), rdb3).
Proof.
  apply (remote_command_replays_outcome "cmd-1" CmdCompleted payload None None 12
           (map_command (command_of rdb3)) rdb2 rdb3 (command_of rdb2) "runs.create" None 99);
    [apply rok2| |vm_compute; reflexivity..|vm_compute; discriminate|vm_compute; reflexivity].
  apply (select_one_Some (is_command "cmd-1")). vm_compute. reflexivity.
Defined.

Lemma outbox_enqueue_witness :
  exists id db', enqueue_outbox "command_result" None payload 20 rdb4 = (Ok id, db')
    /\ oe_id <$> pending_outbox 10 db' = [1; id].
Proof.
  assert ((MAX_OUTBOX_DEPTH <=? outbox_depth rdb4) = false) as E by (vm_compute; reflexivity).
  assert (len (to_string (value (redact payload))) <= MAX_STORED_PAYLOAD_BYTES) as Hl
    by (vm_compute; discriminate).
  pose proof (fun H1 H2 => outbox_enqueue "command_result" None payload 20 10 rdb4
    rok4 H1 H2 eq_refl eq_refl Hl) as H.
  rewrite E in H. destruct H as (id & db' & Heq & _ & Hp); [vm_compute; reflexivity..|].
  exists id, db'. split; [exact Heq|]. rewrite Hp. vm_compute. reflexivity.
Defined.

Lemma outbox_acknowledge_witness :
  pending_outbox 10 (snd (acknowledge_outbox_correlation "cmd-1" 30 rdb4)) = [].
Proof.
  destruct (outbox_acknowledge "cmd-1" 30 31 10 rdb4) as (_ & Hp & _);
    [apply rok4|vm_compute; discriminate|].
  rewrite Hp. vm_compute. reflexivity.
Defined.

(** A result of several thousand characters. *)
Definition large : Value :=
  object [("command_id", VString "cmd-1");
          ("result", VString (of_chars (repeat (Ascii.ascii_of_N 97) (Z.to_nat 5000))))]%string.

Lemma oversized_result_loses_its_command_witness :
  exists db' entry, enqueue_outbox "command_result" (Some "cmd-1"%string) large 20 rdb3 = (Ok 1, db')
    /\ pending_outbox (-1) db' = [entry] /\ get "command_id" (oe_payload entry) = None.
Proof.
  destruct (oversized_result_loses_its_command "command_result" (Some "cmd-1"%string) large 20 1
              rdb3 (snd (enqueue_outbox "command_result" (Some "cmd-1"%string) large 20 rdb3)))
    as (entry & Hp & _ & _ & Hn); [apply rok3|vm_compute; reflexivity..|].
  exists (snd (enqueue_outbox "command_result" (Some "cmd-1"%string) large 20 rdb3)), entry.
  split; [vm_compute; reflexivity|]. split; [rewrite Hp; vm_compute; reflexivity|exact Hn].
Defined.

Lemma subscription_cursor_monotone_witness :
  subscription id1 (snd (acknowledge_events id1 0 40 rdb5))
  = Some {| es_run_id := id1; es_project_id := "demo"; es_acked_seq := 1 |}.
Proof.
  destruct (subscription_cursor_monotone id1 0 40
              {| es_run_id := id1; es_project_id := "demo"; es_acked_seq := 1 |} "demo" 0 41 rdb5)
    as [Hs _]; [apply rok5|vm_compute; reflexivity|exact Hs].
Defined.

(** ** A device code is delivered without being kept
    ([device_delivery.rs] and the history scrub of [remote.rs]). *)

(** ** What is stored *)

(** The part of a durable result that does not depend on the credential. *)
Definition plain_result (expires : option Z) : Value :=
  match expires with
  | Some seconds => VObject [("delivery", VString "transient");
      ("expires_in_seconds", VNumber (PosInt seconds)); ("redacted", VString REDACTED_MARKER)]%string
  | None => VObject [("delivery", VString "transient"); ("redacted", VString REDACTED_MARKER)]%string
  end.

Lemma durable_result_cases (P : Value -> Prop) credential_id expires :
  (SafeIdentifier.accepts CredentialId credential_id = true ->
     P (index_set SAFE_METADATA_KEY (VObject [("credential_id"%string, VString credential_id)])
          (plain_result expires))) ->
  P (plain_result expires) -> P (durable_result credential_id expires).
Proof.
  intros H1 H2. unfold durable_result, with_metadata, safe_metadata, safe_metadata_from.
  destruct (SafeIdentifier.accepts CredentialId credential_id); destruct expires; auto.
Qed.

Lemma durable_result_unmodified credential_id expires :
  redact (durable_result credential_id expires)
  = {| value := durable_result credential_id expires; modified := false |}.
Proof.
  apply durable_result_cases; intros; destruct expires;
    cbv -[SafeIdentifier.accepts]; rewrite ?H; reflexivity.
Qed.

(** What command history keeps of a device authorization: the result holds
    neither the link nor the code, is stored without any redaction touching it, and
    is the same for two deliveries that differ only in the link, the code and the
    command that asked. *)
Theorem device_result_keeps_no_code d command_id uri code :
  carries_material (delivery_durable_result d) = false
  /\ carries_material (frame_payload d) = true
  /\ redact (delivery_durable_result d)
     = {| value := delivery_durable_result d; modified := false |}
  /\ delivery_durable_result
       {| dd_command_id := command_id; dd_credential_id := dd_credential_id d;
          dd_verification_uri := uri; dd_user_code := code;
          dd_expires_in_seconds := dd_expires_in_seconds d |} = delivery_durable_result d.
Proof.
  split; [|split; [|split; [apply durable_result_unmodified|done]]].
  - unfold delivery_durable_result. by apply durable_result_cases.
  - unfold frame_payload, with_metadata, safe_metadata, safe_metadata_from.
    by destruct (SafeIdentifier.accepts CredentialId (dd_credential_id d)).
Qed.

(** ** Scrubbing *)

Definition encodable (v : Value) : Prop :=
  (depth v <= 126)%nat /\ integral v = true /\ ordered v = true.

Lemma scrubbed_is v : exists credential_id expires,
  scrubbed v = index_set "delivery" (VString "scrubbed") (durable_result credential_id expires).
Proof. unfold scrubbed. eauto. Qed.

Lemma scrubbed_no_material v : carries_material (scrubbed v) = false.
Proof.
  destruct (scrubbed_is v) as (c & e & ->). apply durable_result_cases; intros; by destruct e.
Qed.

Lemma scrubbed_encodable v : encodable (scrubbed v).
Proof.
  destruct (scrubbed_is v) as (c & e & ->).
  apply durable_result_cases; intros; destruct e; (split; [by apply Nat.leb_le|done]).
Qed.

Section Scrub.
Context `{SerdeJsonLaws}.

(** A sequence of keyed single-row updates, on one row. *)
Lemma In_fold_updates {R K X} (sel : K -> R -> bool) (set : string -> R -> R) (g : R -> X)
    (l : list (K * string)) (t : list R) r' :
  (forall k x r, sel k (set x r) = sel k r) -> (forall x r, g (set x r) = g r) ->
  In r' (List.fold_left (fun t e => update_where (sel (fst e)) (set (snd e)) t) l t) ->
  exists r, In r t /\ g r' = g r /\ (forall k, sel k r' = sel k r)
    /\ ((r' = r /\ forall e, In e l -> sel (fst e) r = false)
        \/ (exists e r0, In e l /\ sel (fst e) r = true /\ r' = set (snd e) r0)).
Proof.
  intros Hsel Hg. revert t. induction l as [|e l IH]; intros t Hin.
  { exists r'. split; [done|]. split; [done|]. split; [done|]. left. done. }
  destruct (IH _ Hin) as (r1 & (r & Hr & ->)%In_update_where & Hg1 & Hk1 & Hcase).
  exists r. split; [done|]. destruct (sel (fst e) r) eqn:Ee.
  - split; [by rewrite Hg1, Hg|]. split; [intros k; by rewrite Hk1, Hsel|].
    right. destruct Hcase as [[-> _]|(e' & r0 & He' & Hi & ->)].
    + exists e, r. split; [by left|done].
    + exists e', r0. split; [by right|]. split; [by rewrite <- (Hsel _ (snd e))|done].
  - split; [done|]. split; [done|]. destruct Hcase as [[-> Hall]|(e' & r0 & He' & Hi & ->)].
    + left. split; [done|]. intros e' [<-|He']; auto.
    + right. exists e', r0. split; [by right|done].
Qed.

Lemma In_fold_unmatched {R K} (sel : K -> R -> bool) (set : string -> R -> R)
    (l : list (K * string)) (t : list R) r :
  (forall e, In e l -> sel (fst e) r = false) -> In r t ->
  In r (List.fold_left (fun t e => update_where (sel (fst e)) (set (snd e)) t) l t).
Proof.
  revert t. induction l as [|e l IH]; intros t Hn Hr; cbn; [done|]. apply IH.
  - intros e' He'. apply Hn. by right.
  - apply In_update_where. exists r. split; [done|]. by rewrite (Hn e) by (by left).
Qed.

Lemma fold_commands (l : list (string * string)) db :
  List.fold_left (fun db e =>
    on_commands (update_where (is_command (fst e)) (set_response (snd e))) db) l db
  = on_commands (List.fold_left (fun t e =>
      update_where (is_command (fst e)) (set_response (snd e)) t) l) db.
Proof. revert db. induction l as [|e l IH]; intros db; cbn; [by destruct db|]. by rewrite IH. Qed.

Lemma fold_outbox (l : list (Z * string)) db :
  List.fold_left (fun db e =>
    on_outbox (update_where (fun o => o_id o =? fst e) (set_payload (snd e)))
      (outbox_sequence db) db) l db
  = on_outbox (List.fold_left (fun t e =>
      update_where (fun o => o_id o =? fst e) (set_payload (snd e)) t) l) (outbox_sequence db) db.
Proof. revert db. induction l as [|e l IH]; intros db; cbn; [by destruct db|]. by rewrite IH. Qed.

(** The registry after the scrub, in both of its branches. *)
Lemma scrub_state wal db :
  snd (scrub_device_authorization_history wal db)
  = on_outbox (List.fold_left (fun t e =>
      update_where (fun o => o_id o =? fst e) (set_payload (snd e)) t) (scrub_outbox db))
      (outbox_sequence db)
      (on_commands (List.fold_left (fun t e =>
        update_where (is_command (fst e)) (set_response (snd e)) t) (scrub_commands db)) db).
Proof.
  unfold scrub_device_authorization_history, bind, gets, transaction, modify, ret.
  destruct (scrub_commands db) as [|c cs] eqn:Ec, (scrub_outbox db) as [|o os] eqn:Eo;
    rewrite ?fold_outbox, ?fold_commands; cbn [snd]; [by destruct db|..];
    rewrite ?fold_outbox; try done.
Qed.

Lemma In_scrub_commands e db :
  In e (scrub_commands db) <-> exists c text v, In c (remote_commands db)
    /\ c_command c = AUTHORIZE /\ c_response_payload c = Some text /\ from_str text = Some v
    /\ carries_material v = true /\ e = (c_command_id c, to_string (scrubbed v)).
Proof.
  unfold scrub_commands. rewrite <- list_elem_of_In, list_elem_of_omap. split.
  - intros (c & Hc & He). apply list_elem_of_In, In_select in Hc as [Hc [Ha _]%andb_true_iff].
    apply String.eqb_eq in Ha. repeat case_match; try done. naive_solver.
  - intros (c & text & v & Hc & Ha & Ht & Hv & Hm & ->). exists c. split.
    + apply list_elem_of_In, In_select. split; [done|]. by rewrite Ha, Ht.
    + by rewrite Ht, Hv, Hm.
Qed.

Lemma In_scrub_outbox e db :
  In e (scrub_outbox db) <-> exists o v r, In o (outbox db) /\ answers_authorize db o = true
    /\ from_str (o_payload o) = Some v /\ get "result" v = Some r /\ carries_material r = true
    /\ e = (o_id o, to_string (index_set "result" (scrubbed r) v)).
Proof.
  unfold scrub_outbox. rewrite <- list_elem_of_In, list_elem_of_omap. split.
  - intros (o & Ho & He). apply list_elem_of_In, In_select in Ho as [Ho Ha].
    repeat case_match; try done. naive_solver.
  - intros (o & v & r & Ho & Ha & Hv & Hr & Hm & ->). exists o. split.
    + by apply list_elem_of_In, In_select.
    + by rewrite Hv, Hr, Hm.
Qed.

Lemma scrub_commands_done wal db :
  remote_ok db -> scrub_commands (snd (scrub_device_authorization_history wal db)) = [].
Proof.
  intros Hok. destruct (scrub_commands (snd _)) as [|e l] eqn:E; [done|exfalso].
  assert (In e (e :: l)) as He by (by left). rewrite <- E in He. clear E l.
  apply In_scrub_commands in He as (c' & text & v & Hc' & Ha & Ht & Hv & Hm & _).
  rewrite scrub_state in Hc'. cbn [on_outbox on_commands remote_commands] in Hc'.
  apply (In_fold_updates is_command set_response c_command) in Hc'
    as (c & Hc & Hcmd & _ & [[-> Hn]|(e0 & r0 & He0 & _ & ->)]); [| |done..].
  - assert (is_command (c_command_id c) c = false) as Hf.
    { apply (Hn (c_command_id c, to_string (scrubbed v))). apply In_scrub_commands. naive_solver. }
    by rewrite (proj2 (is_command_true _ _)) in Hf.
  - apply In_scrub_commands in He0 as (c0 & text0 & v0 & _ & _ & _ & _ & _ & ->). cbn in Ht.
    injection Ht as <-. destruct (scrubbed_encodable v0) as (Hd & Hi & Ho).
    rewrite from_str_to_string in Hv by (done || lia). injection Hv as <-.
    by rewrite scrubbed_no_material in Hm.
Qed.

(** The scrub changes neither the commands' ids nor their kinds. *)
Lemma answers_authorize_scrub wal db o o' :
  o_correlation_id o' = o_correlation_id o ->
  answers_authorize (snd (scrub_device_authorization_history wal db)) o' = true ->
  answers_authorize db o = true.
Proof.
  intros Ho. unfold answers_authorize. rewrite Ho. destruct (o_correlation_id o) as [id|]; [|done].
  intros (c' & Hc' & [Hid Ha]%andb_true_iff)%existsb_exists.
  rewrite scrub_state in Hc'. cbn [on_outbox on_commands remote_commands] in Hc'.
  apply (In_fold_updates is_command set_response c_command) in Hc'
    as (c & Hc & Hcmd & Hk & _); [|done..].
  apply existsb_exists. exists c. split; [done|]. by rewrite <- Hk, <- Hcmd, Hid, Ha.
Qed.

Lemma scrub_outbox_done wal db :
  remote_ok db ->
  (forall o v, In o (outbox db) -> from_str (o_payload o) = Some v -> integral v = true) ->
  scrub_outbox (snd (scrub_device_authorization_history wal db)) = [].
Proof.
  intros Hok Hint. destruct (scrub_outbox (snd _)) as [|e l] eqn:E; [done|exfalso].
  assert (In e (e :: l)) as He by (by left). rewrite <- E in He. clear E l.
  apply In_scrub_outbox in He as (o' & v & r & Ho' & Ha & Hv & Hr & Hm & _).
  rewrite scrub_state in Ho'. cbn [on_outbox on_commands outbox] in Ho'.
  apply (In_fold_updates (fun id o => o_id o =? id) set_payload o_correlation_id) in Ho'
    as (o & Hin & Hcorr & _ & [[-> Hn]|(e0 & o0 & He0 & _ & ->)]); [| |done..].
  - apply (answers_authorize_scrub wal db o o) in Ha; [|done].
    assert ((o_id o =? o_id o) = false) as Hf.
    { apply (Hn (o_id o, to_string (index_set "result" (scrubbed r) v))).
      apply In_scrub_outbox. naive_solver. }
    by rewrite Z.eqb_refl in Hf.
  - apply In_scrub_outbox in He0 as (o1 & v1 & r1 & Hin1 & _ & Hv1 & Hr1 & _ & ->). cbn in Hv.
    destruct (scrubbed_encodable r1) as (Hd & Hi & Ho).
    destruct (from_str_shape _ _ Hv1) as [Hd1 Ho1].
    rewrite from_str_to_string in Hv; [|apply depth_index_set; lia
      |apply integral_index_set; [done|by eapply Hint]|by apply ordered_index_set].
    injection Hv as <-. destruct v1 as [| | | | |m1]; try done. cbn [get index_set] in Hr.
    rewrite map_get_insert_eq in Hr. injection Hr as <-. by rewrite scrubbed_no_material in Hm.
Qed.

Lemma scrub_commands_frame wal db c :
  remote_ok db -> c_command c <> AUTHORIZE ->
  In c (remote_commands (snd (scrub_device_authorization_history wal db)))
  <-> In c (remote_commands db).
Proof.
  intros Hok Hne. rewrite scrub_state. cbn [on_outbox on_commands remote_commands].
  assert (forall e c0, In e (scrub_commands db) -> In c0 (remote_commands db) ->
            c_command c0 <> AUTHORIZE -> is_command (fst e) c0 = false) as Hother.
  { intros e c0 He Hc0 Hn. destruct (is_command (fst e) c0) eqn:Ei; [|done]. exfalso. apply Hn.
    apply In_scrub_commands in He as (c1 & ? & ? & Hc1 & Ha & _ & _ & _ & ->).
    apply is_command_true in Ei. cbn in Ei.
    assert (c0 = c1) as ->; [|done].
    eapply (NoDup_map_inj c_command_id); [|done..]. apply NoDup_ListNoDup, Hok. }
  split.
  - intros Hc'. apply (In_fold_updates is_command set_response c_command) in Hc'
      as (c0 & Hc0 & Hcmd & _ & [[-> _]|(e & r0 & He & Hi & _)]); [done| |done..].
    rewrite (Hother e c0) in Hi; congruence.
  - intros Hc. apply In_fold_unmatched; [|done]. intros e He. by apply Hother.
Qed.
End Scrub.

(** The history scrub leaves no device code behind: afterwards no stored
    response of a [credentials.authorize] command and no outbox entry answering one
    carries the link or the code, every other command's row is as it was, and
    running the scrub again finds nothing to change. *)
Theorem scrub_removes_device_codes `{SerdeJsonLaws} wal wal2 db :
  remote_ok db ->
  (forall o v, In o (outbox db) -> from_str (o_payload o) = Some v -> integral v = true) ->
  let db' := snd (scrub_device_authorization_history wal db) in
  (forall c text v, In c (remote_commands db') -> c_command c = AUTHORIZE ->
     c_response_payload c = Some text -> from_str text = Some v -> carries_material v = false)
  /\ (forall o v r, In o (outbox db') -> answers_authorize db' o = true ->
        from_str (o_payload o) = Some v -> get "result" v = Some r -> carries_material r = false)
  /\ (forall c, c_command c <> AUTHORIZE -> In c (remote_commands db') <-> In c (remote_commands db))
  /\ scrub_device_authorization_history wal2 db'
     = (Ok {| hs_commands := 0; hs_outbox_entries := 0; hs_wal_truncated := false |}, db').
Proof.
  intros Hok Hint db'.
  pose proof (scrub_commands_done wal db Hok) as Hc.
  pose proof (scrub_outbox_done wal db Hok Hint) as Ho.
  split; [|split; [|split]].
  - intros c text v Hin Ha Ht Hv. destruct (carries_material v) eqn:Em; [exfalso|done].
    assert (In (c_command_id c, to_string (scrubbed v)) (scrub_commands db')) as Hf
      by (apply In_scrub_commands; naive_solver).
    unfold db' in Hf. by rewrite Hc in Hf.
  - intros o v r Hin Ha Hv Hr. destruct (carries_material r) eqn:Em; [exfalso|done].
    assert (In (o_id o, to_string (index_set "result" (scrubbed r) v)) (scrub_outbox db')) as Hf
      by (apply In_scrub_outbox; naive_solver).
    unfold db' in Hf. by rewrite Ho in Hf.
  - intros c. by apply scrub_commands_frame.
  - unfold scrub_device_authorization_history at 1, bind, gets. unfold db'. by rewrite Hc, Ho.
Qed.

(** ** The scrub at a history that still holds a code *)

Definition old_result : Value :=
  object [("user_code", VString "ABCD-1234"); ("verification_uri", VString "https://login.example")]%string.
Definition old_history : Db :=
  {| runs := []; run_events := []; run_approvals := []; projects := [];
     remote_commands :=
       [{| c_command_id := "cmd-1"; c_command := AUTHORIZE; c_project_id := None;
           c_received_at := 1; c_payload_digest := "d"; c_state := "completed";
           c_started_at := None; c_completed_at := Some 2;
           c_response_payload := Some (to_string old_result); c_error_code := None;
           c_error_message := None |}];
     outbox :=
       [{| o_id := 1; o_kind := "command_result"; o_correlation_id := Some "cmd-1"%string;
           o_payload := to_string (object [("result", old_result)]%string); o_created_at := 3;
           o_acknowledged_at := None |}];
     outbox_sequence := 1; event_subscriptions := [] |}.

Lemma old_history_ok : remote_ok old_history.
Proof.
  split; cbn.
  - apply NoDup_singleton.
  - repeat constructor.
  - intros o [<-|[]]. done.
  - apply NoDup_nil_2.
  - done.
Qed.

Lemma scrub_removes_device_codes_witness :
  fst (scrub_device_authorization_history true old_history)
    = Ok {| hs_commands := 1; hs_outbox_entries := 1; hs_wal_truncated := true |}
  /\ let db' := snd (scrub_device_authorization_history true old_history) in
     scrub_device_authorization_history true db'
     = (Ok {| hs_commands := 0; hs_outbox_entries := 0; hs_wal_truncated := false |}, db').
Proof.
  split; [vm_compute; reflexivity|].
  apply (scrub_removes_device_codes true true old_history); [apply old_history_ok|].
  intros o v [<-|[]]. cbn [o_payload]. rewrite from_str_to_string by (vm_compute; (reflexivity || lia)).
  intros [= <-]. vm_compute. reflexivity.
Defined.
