(* ===== verification/Identifiers.v ===== *)
(** * Identifiers: the closed alphabets of ids that reach paths, URLs and
    configuration files ([service.rs] [validate_identifier], [credentials.rs]
    [validate_id], [providercaps.rs] [validate_model_id]). *)
From Stdlib Require Import Lia.
From S2P Require Import Prelude Text.

Inductive IdError : Type :=
| IdLength
| IdAlphabet
| IdDotDot.

Definition one_of (cs : string) (c : Ascii.ascii) : bool :=
  List.existsb (char_eqb c) (chars cs).

Definition validate_identifier (value : string) : Result IdError unit :=
  if (value =? "")%string || (128 <? len value) then Err IdLength
  else if negb (all_chars (fun c => is_ascii_alphanumeric c || one_of "-_." c) value)
  then Err IdAlphabet
  else if str_contains ".." value then Err IdDotDot
  else Ok tt.

(** [credentials::MAX_ID_LENGTH] and [providercaps::MAX_ID_LENGTH]. *)
Definition MAX_ID_LENGTH : Z := 64.

Definition is_safe_token (value : string) : bool :=
  negb (value =? "")%string
  && all_chars (fun c => is_ascii_lower c || is_ascii_digit c || one_of "-" c) value.

Definition validate_id (id : string) : Result IdError unit :=
  if (id =? "")%string || (MAX_ID_LENGTH <? len id) then Err IdLength
  else if negb (is_safe_token id) then Err IdAlphabet
  else Ok tt.

Definition validate_model_id (id : string) : Result IdError unit :=
  if (id =? "")%string || (MAX_ID_LENGTH <? len id) then Err IdLength
  else if negb (all_chars (fun c => is_ascii_alphanumeric c || one_of ".-_:" c) id)
  then Err IdAlphabet
  else Ok tt.

(** ** Facts *)

(** What a path or URL segment may hold without being read as anything else:
    printable ASCII, no separator, no [..]. *)
Definition path_safe (s : string) : Prop :=
  s <> ""%string /\ len s <= 128
  /\ (forall c, In c (chars s) -> (33 <= code c <= 126)%N /\ ~ In c $"/\:%?#&")
  /\ str_contains ".." s = false.

Lemma one_of_true cs c : one_of cs c = true <-> In c (chars cs).
Proof.
  unfold one_of. rewrite existsb_exists. split.
  - intros (x & Hx & ->%char_eqb_eq). done.
  - intros H. exists c. split; [done|apply char_eqb_refl].
Qed.

Lemma between_true lo hi c : between lo hi c = true <-> (lo <= code c <= hi)%N.
Proof. unfold between. rewrite andb_true_iff, !N.leb_le. done. Qed.

Lemma alphanumeric_codes c :
  is_ascii_alphanumeric c = true ->
  (48 <= code c <= 57 \/ 65 <= code c <= 90 \/ 97 <= code c <= 122)%N.
Proof.
  unfold is_ascii_alphanumeric, is_ascii_alphabetic, is_ascii_upper, is_ascii_lower, is_ascii_digit.
  rewrite !orb_true_iff, !between_true. tauto.
Qed.

Lemma validate_identifier_path_safe s : validate_identifier s = Ok tt -> path_safe s.
Proof.
  unfold validate_identifier. intros H.
  repeat split_if_in H; try done.
  apply orb_false_iff in Heqb as [Hne Hlen]. apply String.eqb_neq in Hne. apply Z.ltb_ge in Hlen.
  apply negb_false_iff in Heqb0. unfold all_chars in Heqb0. rewrite forallb_forall in Heqb0.
  split; [done|]. split; [done|]. split; [|done]. intros c Hc. specialize (Heqb0 _ Hc).
  apply orb_true_iff in Heqb0 as [Ha%alphanumeric_codes|Ho%one_of_true].
  - split; [lia|]. intros Hin. cbn in Hin. repeat destruct Hin as [<-|Hin]; cbn in Ha; lia.
  - split; [|intros Hin]; cbn in Ho; destruct Ho as [<-|[<-|[<-|[]]]]; try (cbn; lia);
      by (apply one_of_true in Hin; vm_compute in Hin).
Qed.

Lemma validate_identifier_dot : validate_identifier "." = Ok tt.
Proof. reflexivity. Qed.
