(* ===== verification/Inventory.v ===== *)
(** * Inventory: the projects this node may act on ([inventory.rs]). *)
From S2P Require Import Prelude Text Json RunState Redact Schema Registry Identifiers.

(** ** Data *)

Inductive RuntimeOwnership : Type := ManagedContainer | External.

Module RuntimeOwnership.
Definition as_str (o : RuntimeOwnership) : string :=
  match o with ManagedContainer => "managed_container" | External => "external" end.
Definition parse (value : string) : Result string RuntimeOwnership :=
  if (value =? "managed_container")%string then Ok ManagedContainer
  else if (value =? "external")%string then Ok External
  else Err value.
Definition owns_container (o : RuntimeOwnership) : bool :=
  match o with ManagedContainer => true | External => false end.
End RuntimeOwnership.

Inductive ProfileState : Type :=
| ProfilePending
| Provisioning
| ProfileReady
| ProfileFailed
| ProfileDisabled.

Module ProfileState.
Definition as_str (s : ProfileState) : string :=
  match s with
  | ProfilePending => "pending"
  | Provisioning => "provisioning"
  | ProfileReady => "ready"
  | ProfileFailed => "failed"
  | ProfileDisabled => "disabled"
  end.
Definition parse (value : string) : Result string ProfileState :=
  if (value =? "pending")%string then Ok ProfilePending
  else if (value =? "provisioning")%string then Ok Provisioning
  else if (value =? "ready")%string then Ok ProfileReady
  else if (value =? "failed")%string then Ok ProfileFailed
  else if (value =? "disabled")%string then Ok ProfileDisabled
  else Err value.
Definition runnable (s : ProfileState) : bool :=
  match s with ProfileReady => true | _ => false end.
End ProfileState.

Record RegisteredProject : Type := {
  rp_project_id : string;
  rp_workspace_path : string;
  rp_display_name : string;
  rp_enabled : bool;
  rp_created_at : Z;
  rp_metadata : option Value;
  rp_credential_id : option string;
  rp_model : option string;
  rp_suspended_at : option Z;
  rp_runtime_endpoint : option string;
  rp_runtime_ownership : RuntimeOwnership;
  rp_hermes_home : option string;
  rp_hermes_profile : option string;
  rp_hermes_api_key_ref : option string;
  rp_profile_state : ProfileState;
  rp_profile_failure : option string
}.

Inductive InvError : Type :=
| BadIdentifier (e : IdError)
| BadCredential (e : IdError)
| BadModel (e : IdError)
| WorkspaceUnreachable
| WorkspaceNotDirectory
| WorkspaceIsRoot
| AlreadyRegistered (project_id : string)
| NotRegistered (project_id : string)
| EndpointEmpty
| EndpointScheme
| EndpointWhitespace
| EndpointRequired
| RunStillActive (run_id status : string)
| InvConstraint (constraint : string)
| CorruptRow (text : string)
| NoFreePort
| RangeKeptChanging
| ProjectVanished.

(** What the file system answers about a path. *)
Record FileSystem : Type := {
  canonicalize : string -> option string;
  is_dir : string -> bool
}.

(** ** Endpoints *)

(** The text after the last [d], or all of it. *)
Definition after_last (d : Ascii.ascii) (s : bytes) : bytes :=
  List.rev ((fix go (s : bytes) : bytes :=
    match s with
    | [] => []
    | c :: s' => if char_eqb c d then [] else c :: go s'
    end) (List.rev s)).

Definition COLON : Ascii.ascii := Ascii.ascii_of_N 58.
Definition SLASH : Ascii.ascii := Ascii.ascii_of_N 47.

Definition endpoint_port (endpoint : string) : option Z :=
  parse_u16 (trim_end_matches (fun c => char_eqb c SLASH) (after_last COLON (chars endpoint))).

Definition endpoint_of (port : Z) : string := ("http://127.0.0.1:" ++ decimal port)%string.

Definition validate_runtime_endpoint (endpoint : string) : Result InvError unit :=
  let trimmed := trim (chars endpoint) in
  match trimmed with
  | [] => Err EndpointEmpty
  | _ =>
      if negb (starts_with $"http://" trimmed || starts_with $"https://" trimmed)
      then Err EndpointScheme
      else if has_whitespace trimmed then Err EndpointWhitespace
      else Ok tt
  end.

(** [if let Some(value) = option { validate(value)?; }]. *)
Definition validate_opt {A E} (f : A -> Result E unit) (o : option A) : Result E unit :=
  match o with Some a => f a | None => Ok tt end.
(** [map_err]. *)
Definition map_err {E F A} (f : E -> F) (r : Result E A) : Result F A :=
  match r with Ok a => Ok a | Err e => Err (f e) end.

Section Methods.
Context `{SerdeJson}.

(** ** Reading *)

Definition is_project (id : string) (p : ProjectRow) : bool := (p_project_id p =? id)%string.

Definition map_project (p : ProjectRow) : Result InvError RegisteredProject :=
  match ProfileState.parse (p_profile_state p), RuntimeOwnership.parse (p_runtime_ownership p) with
  | Err text, _ => Err (CorruptRow text)
  | _, Err text => Err (CorruptRow text)
  | Ok profile_state, Ok ownership => Ok
      {| rp_project_id := p_project_id p; rp_workspace_path := p_workspace_path p;
         rp_display_name := p_display_name p; rp_enabled := negb (p_enabled p =? 0);
         rp_created_at := p_created_at p;
         rp_metadata := match p_metadata p with Some text => from_str text | None => None end;
         rp_credential_id := p_credential_id p; rp_model := p_model p;
         rp_suspended_at := p_suspended_at p; rp_runtime_endpoint := p_runtime_endpoint p;
         rp_runtime_ownership := ownership; rp_hermes_home := p_hermes_home p;
         rp_hermes_profile := p_hermes_profile p; rp_hermes_api_key_ref := p_hermes_api_key_ref p;
         rp_profile_state := profile_state; rp_profile_failure := p_profile_failure p |}
  end.

Definition project (id : string) (db : Db) : Result InvError (option RegisteredProject) :=
  match select_one (is_project id) (projects db) with
  | None => Ok None
  | Some p => match map_project p with Ok r => Ok (Some r) | Err e => Err e end
  end.

Fixpoint collect_projects (rows : list ProjectRow) : Result InvError (list RegisteredProject) :=
  match rows with
  | [] => Ok []
  | p :: rows' =>
      match map_project p with
      | Err e => Err e
      | Ok r => match collect_projects rows' with Ok rs => Ok (r :: rs) | Err e => Err e end
      end
  end.

Definition list_projects (db : Db) : Result InvError (list RegisteredProject) :=
  collect_projects (order_by (fun a b => String.leb (p_project_id a) (p_project_id b)) (projects db)).

Definition resolve_remote_project (id : string) (db : Db) :
    Result InvError (option RegisteredProject) :=
  match validate_identifier id with
  | Err _ => Ok None
  | Ok _ =>
      match project id db with
      | Ok (Some p) => Ok (if rp_enabled p then Some p else None)
      | r => r
      end
  end.

Definition projects_using_credential (credential_id : string) (db : Db) : list string :=
  List.map p_project_id
    (order_by (fun a b => String.leb (p_project_id a) (p_project_id b))
      (select (fun p => sql_eq (p_credential_id p) credential_id) (projects db))).

Definition allocated_endpoints (db : Db) : list string := omap p_runtime_endpoint (projects db).

Definition remote_view (p : RegisteredProject) : Value :=
  object [("project_id", VString (rp_project_id p)); ("display_name", VString (rp_display_name p));
          ("enabled", VBool (rp_enabled p));
          ("created_at", VNumber (if (rp_created_at p <? 0)%Z then NegInt (rp_created_at p)
                                  else PosInt (rp_created_at p)));
          ("runtime_ownership", VString (RuntimeOwnership.as_str (rp_runtime_ownership p)));
          ("profile_state", VString (ProfileState.as_str (rp_profile_state p)));
          ("profile_failure", null_or VString (rp_profile_failure p));
          ("model", null_or VString (rp_model p));
          ("metadata", null_or id (rp_metadata p))]%string.

(** ** Registration *)

(** The primary key and the unique indexes of [projects]. *)
Definition same_key (key : ProjectRow -> option string) (a b : ProjectRow) : bool :=
  match key a with Some k => sql_eq (key b) k | None => false end.

Definition insert_project (row : ProjectRow) : M InvError Db unit :=
  let! db := state in
  if List.existsb (is_project (p_project_id row)) (projects db)
  then fail (InvConstraint "projects.project_id")
  else if List.existsb (same_key (fun p => Some (p_workspace_path p)) row) (projects db)
  then fail (InvConstraint "projects_workspace_path")
  else modify (on_projects (fun t => t ++ [row])).

Definition register_project (fs : FileSystem) (now : Z) (project_id workspace : string)
    (display_name : option string) (metadata : option Value) (runtime_endpoint : option string)
    (ownership : RuntimeOwnership) : M InvError Db RegisteredProject :=
  lift (map_err BadIdentifier (validate_identifier project_id)) ;;;
  let! canonical := lift (context (canonicalize fs workspace) WorkspaceUnreachable) in
  if negb (is_dir fs canonical) then fail WorkspaceNotDirectory
  else if (canonical =? "/")%string then fail WorkspaceIsRoot
  else
    let! existing := gets (fun db => select_one (is_project project_id) (projects db)) in
    match existing with
    | Some _ => fail (AlreadyRegistered project_id)
    | None =>
        lift (validate_opt validate_runtime_endpoint runtime_endpoint) ;;;
        if match ownership with External => is_null runtime_endpoint | _ => false end
        then fail EndpointRequired
        else
          insert_project
            {| p_project_id := project_id; p_workspace_path := canonical;
               p_display_name := default project_id display_name; p_enabled := 1;
               p_created_at := now; p_metadata := to_string <$> metadata;
               p_runtime_endpoint := runtime_endpoint;
               p_runtime_ownership := RuntimeOwnership.as_str ownership; p_hermes_home := None;
               p_hermes_profile := None; p_hermes_api_key_ref := None;
               p_profile_state := "pending"; p_profile_failure := None; p_credential_id := None;
               p_model := None; p_suspended_at := None |} ;;;
          let! found := query (project project_id) in
          lift (context found ProjectVanished)
    end.

Definition unregister_project (project_id : string) : M InvError Db unit :=
  let! found := query (project project_id) in
  match found with
  | None => fail (NotRegistered project_id)
  | Some _ =>
      let! active := gets (active_runs project_id) in
      match active with
      | r :: _ => fail (RunStillActive (run_id r) (status r))
      | [] => modify (on_projects (delete_where (is_project project_id)))
      end
  end.

(** [UPDATE projects SET ... WHERE project_id = ?1], refused when no row changed. *)
Definition update_project (id : string) (f : ProjectRow -> ProjectRow) : M InvError Db unit :=
  let! changed := gets (fun db => changes (is_project id) (projects db)) in
  modify (on_projects (update_where (is_project id) f)) ;;;
  if Nat.eqb changed 0 then fail (NotRegistered id) else ret tt.

(** ** Provisioning *)

Definition profile_row (hermes_home hermes_profile endpoint api_key_ref : string)
    (s : ProfileState) (p : ProjectRow) : ProjectRow :=
  {| p_project_id := p_project_id p; p_workspace_path := p_workspace_path p;
     p_display_name := p_display_name p; p_enabled := p_enabled p; p_created_at := p_created_at p;
     p_metadata := p_metadata p; p_runtime_endpoint := Some endpoint;
     p_runtime_ownership := p_runtime_ownership p; p_hermes_home := Some hermes_home;
     p_hermes_profile := Some hermes_profile; p_hermes_api_key_ref := Some api_key_ref;
     p_profile_state := ProfileState.as_str s; p_profile_failure := None;
     p_credential_id := p_credential_id p; p_model := p_model p;
     p_suspended_at := p_suspended_at p |}.

Definition set_profile_runtime (project_id hermes_home hermes_profile endpoint api_key_ref : string)
    (s : ProfileState) : M InvError Db unit :=
  lift (validate_runtime_endpoint endpoint) ;;;
  let! db := state in
  let others := delete_where (is_project project_id) (projects db) in
  let known := List.existsb (is_project project_id) (projects db) in
  if known && List.existsb (fun p => sql_eq (p_hermes_profile p) hermes_profile) others
  then fail (InvConstraint "projects_hermes_profile")
  else if known && List.existsb (fun p => sql_eq (p_hermes_home p) hermes_home) others
  then fail (InvConstraint "projects_hermes_home")
  else update_project project_id (profile_row hermes_home hermes_profile endpoint api_key_ref s).

Definition set_profile_state (project_id : string) (s : ProfileState) (failure : option string) :
    M InvError Db unit :=
  update_project project_id (fun p =>
    {| p_project_id := p_project_id p; p_workspace_path := p_workspace_path p;
       p_display_name := p_display_name p; p_enabled := p_enabled p;
       p_created_at := p_created_at p; p_metadata := p_metadata p;
       p_runtime_endpoint := p_runtime_endpoint p; p_runtime_ownership := p_runtime_ownership p;
       p_hermes_home := p_hermes_home p; p_hermes_profile := p_hermes_profile p;
       p_hermes_api_key_ref := p_hermes_api_key_ref p;
       p_profile_state := ProfileState.as_str s; p_profile_failure := failure;
       p_credential_id := p_credential_id p; p_model := p_model p;
       p_suspended_at := p_suspended_at p |}).

Definition bind_existing_profile (project_id hermes_home hermes_profile endpoint api_key_ref : string) :
    M InvError Db bool :=
  let! already := gets (fun db => select_one (is_project project_id) (projects db)) in
  match already with
  | None => fail (NotRegistered project_id)
  | Some p =>
      match p_hermes_home p with
      | Some _ => ret false
      | None =>
          set_profile_runtime project_id hermes_home hermes_profile endpoint api_key_ref
            ProfileReady ;;;
          ret true
      end
  end.

(** ** Ports *)

Definition endpoint_row (endpoint : option string) (p : ProjectRow) : ProjectRow :=
  {| p_project_id := p_project_id p; p_workspace_path := p_workspace_path p;
     p_display_name := p_display_name p; p_enabled := p_enabled p; p_created_at := p_created_at p;
     p_metadata := p_metadata p; p_runtime_endpoint := endpoint;
     p_runtime_ownership := p_runtime_ownership p; p_hermes_home := p_hermes_home p;
     p_hermes_profile := p_hermes_profile p; p_hermes_api_key_ref := p_hermes_api_key_ref p;
     p_profile_state := p_profile_state p; p_profile_failure := p_profile_failure p;
     p_credential_id := p_credential_id p; p_model := p_model p;
     p_suspended_at := p_suspended_at p |}.

Definition contains_port (port : Z) (l : list Z) : bool := List.existsb (Z.eqb port) l.

Definition taken_ports (reserved : list Z) (db : Db) : list Z :=
  reserved ++ omap endpoint_port (allocated_endpoints db).

(** The rows the claim's [UPDATE] changes. *)
Definition claimable (project_id endpoint : string) (db : Db) (p : ProjectRow) : bool :=
  is_project project_id p && is_null (p_runtime_endpoint p)
  && negb (List.existsb (fun other => sql_eq (p_runtime_endpoint other) endpoint) (projects db)).

Definition claim (project_id endpoint : string) : M InvError Db nat :=
  transaction (
    let! db := state in
    modify (on_projects (update_where (claimable project_id endpoint db) (endpoint_row (Some endpoint)))) ;;;
    ret (changes (claimable project_id endpoint db) (projects db))).

(** One attempt per round.  Between choosing a port and claiming it the host is
    probed without holding a lock: [elsewhere k] is what other connections
    commit in that window when [k] attempts are left. *)
Fixpoint reserve_attempts (attempts : nat) (elsewhere : nat -> Db -> Db) (project_id : string)
    (range : list Z) (reserved : list Z) (occupied : Z -> bool) : M InvError Db string :=
  match attempts with
  | O => fail RangeKeptChanging
  | S remaining =>
      let! existing := gets (fun db => select_one (is_project project_id) (projects db)) in
      match existing with
      | None => fail (NotRegistered project_id)
      | Some p =>
          match p_runtime_endpoint p with
          | Some endpoint => ret endpoint
          | None =>
              let! taken := gets (taken_ports reserved) in
              match List.find (fun port => negb (contains_port port taken)
                                           && negb (occupied port)) range with
              | None => fail NoFreePort
              | Some port =>
                  modify (elsewhere remaining) ;;;
                  let! claimed := claim project_id (endpoint_of port) in
                  if Nat.eqb claimed 1 then ret (endpoint_of port)
                  else reserve_attempts remaining elsewhere project_id range reserved occupied
              end
          end
      end
  end.

(** [first..=last]. *)
Definition port_range (first last : Z) : list Z := seqZ first (last - first + 1).

Definition reserve_endpoint (elsewhere : nat -> Db -> Db) (project_id : string) (first last : Z)
    (reserved : list Z) (occupied : Z -> bool) : M InvError Db string :=
  let range := port_range first last in
  reserve_attempts (Nat.max (length range) 1) elsewhere project_id range reserved occupied.

Definition release_endpoint (project_id : string) : M InvError Db unit :=
  modify (on_projects (update_where
    (fun p => is_project project_id p && negb (p_profile_state p =? "ready")%string)
    (endpoint_row None))).

Definition set_project_runtime_endpoint (project_id : string) (endpoint : option string) :
    M InvError Db RegisteredProject :=
  lift (validate_opt validate_runtime_endpoint endpoint) ;;;
  update_project project_id (endpoint_row endpoint) ;;;
  let! found := query (project project_id) in
  lift (context found ProjectVanished).

(** ** Assignments *)

Definition assigned_row (credential_id model : option string) (suspended_at : option Z)
    (p : ProjectRow) : ProjectRow :=
  {| p_project_id := p_project_id p; p_workspace_path := p_workspace_path p;
     p_display_name := p_display_name p; p_enabled := p_enabled p; p_created_at := p_created_at p;
     p_metadata := p_metadata p; p_runtime_endpoint := p_runtime_endpoint p;
     p_runtime_ownership := p_runtime_ownership p; p_hermes_home := p_hermes_home p;
     p_hermes_profile := p_hermes_profile p; p_hermes_api_key_ref := p_hermes_api_key_ref p;
     p_profile_state := p_profile_state p; p_profile_failure := p_profile_failure p;
     p_credential_id := credential_id; p_model := model; p_suspended_at := suspended_at |}.

Definition set_project_credential (project_id : string) (credential_id : option string) :
    M InvError Db unit :=
  lift (map_err BadCredential (validate_opt validate_id credential_id)) ;;;
  update_project project_id (fun p => assigned_row credential_id (p_model p) (p_suspended_at p) p).

Definition set_project_model (project_id : string) (model : option string) : M InvError Db unit :=
  lift (map_err BadModel (validate_opt validate_model_id model)) ;;;
  update_project project_id (fun p =>
    assigned_row (p_credential_id p) model (p_suspended_at p) p).

Definition set_project_suspended (project_id : string) (at_ : option Z) : M InvError Db unit :=
  update_project project_id (fun p => assigned_row (p_credential_id p) (p_model p) at_ p).

End Methods.
