(* ===== verification/InventoryFacts.v ===== *)
(** * InventoryFacts: the inventory invariant, and that every method of
    [inventory.rs] keeps it. *)
From Stdlib Require Import Lia.
From S2P Require Import Prelude Text Json RunState Redact Schema Registry RegistryFacts Identifiers.
From S2P Require Import Inventory.

(** ** The invariant *)

Record project_ok (p : ProjectRow) : Prop := {
  po_id : validate_identifier (p_project_id p) = Ok tt;
  po_state : exists s, ProfileState.parse (p_profile_state p) = Ok s;
  po_ownership : exists o, RuntimeOwnership.parse (p_runtime_ownership p) = Ok o;
  po_endpoint : validate_opt validate_runtime_endpoint (p_runtime_endpoint p) = Ok tt;
  po_credential : validate_opt validate_id (p_credential_id p) = Ok tt;
  po_model : validate_opt validate_model_id (p_model p) = Ok tt
}.

Record inventory_ok (db : Db) : Prop := {
  io_ids : NoDup (p_project_id <$> projects db);
  io_workspaces : NoDup (p_workspace_path <$> projects db);
  (** No two projects share Hermes state. *)
  io_homes : unique_key p_hermes_home (projects db);
  io_profiles : unique_key p_hermes_profile (projects db);
  io_rows : forall p, In p (projects db) -> project_ok p
}.

Lemma inventory_ok_empty : inventory_ok empty_db.
Proof. split; cbn; try apply unique_key_nil; try apply NoDup_nil_2; done. Qed.

Lemma inventory_ok_ext db db' : projects db' = projects db -> inventory_ok db -> inventory_ok db'.
Proof. intros E []. split; by rewrite E. Qed.

Lemma is_project_true id p : is_project id p = true <-> p_project_id p = id.
Proof. apply String.eqb_eq. Qed.

Lemma project_unique db p1 p2 :
  inventory_ok db -> In p1 (projects db) -> In p2 (projects db) ->
  p_project_id p1 = p_project_id p2 -> p1 = p2.
Proof. intros Hok. apply NoDup_map_inj, NoDup_ListNoDup, Hok. Qed.

Lemma select_project db id p :
  inventory_ok db ->
  (select_one (is_project id) (projects db) = Some p <-> In p (projects db) /\ p_project_id p = id).
Proof.
  intros Hok. split.
  - intros [Hin Hp]%select_one_Some. by apply is_project_true in Hp.
  - intros [Hin Hp]. destruct (select_one _ _) as [p'|] eqn:E.
    + apply select_one_Some in E as [Hin' Hp'%is_project_true]. f_equal.
      eapply project_unique; eauto; congruence.
    + eapply select_one_None in E; [|done]. apply is_project_true in Hp. congruence.
Qed.

Lemma profile_state_roundtrip s : ProfileState.parse (ProfileState.as_str s) = Ok s.
Proof. by destruct s. Qed.
Lemma ownership_roundtrip o : RuntimeOwnership.parse (RuntimeOwnership.as_str o) = Ok o.
Proof. by destruct o. Qed.

(** Under the invariant every row can be read. *)
Lemma map_project_ok `{SerdeJson} p :
  project_ok p -> exists r, map_project p = Ok r /\ rp_project_id r = p_project_id p
    /\ rp_workspace_path r = p_workspace_path p /\ rp_enabled r = negb (p_enabled p =? 0)
    /\ rp_runtime_endpoint r = p_runtime_endpoint p.
Proof.
  intros [_ [s Hs] [o Ho] _ _ _]. unfold map_project. rewrite Hs, Ho. eauto 10.
Qed.

(** ** Ports and endpoints *)

Lemma after_last_app d a b : ~ In d b -> after_last d (a ++ d :: b) = b.
Proof.
  intros Hn. unfold after_last. rewrite rev_app_distr. cbn [List.rev]. rewrite <- app_assoc.
  rewrite <- (rev_involutive b) at 2. f_equal.
  assert (~ In d (List.rev b)) as Hr by (by rewrite <- in_rev). clear Hn.
  induction (List.rev b) as [|c l IH]; cbn; [by rewrite char_eqb_refl|].
  cbn in Hr. rewrite (proj2 (char_eqb_neq c d)) by naive_solver. f_equal. apply IH. naive_solver.
Qed.

Lemma digit_plain c :
  is_ascii_digit c = true -> plain_char c = true /\ char_eqb c SLASH = false /\ c <> COLON.
Proof.
  unfold is_ascii_digit, plain_char. rewrite !between_true. intros Hc.
  split; [lia|]. split; [apply char_eqb_neq|]; intros ->; cbn in Hc; lia.
Qed.

(** A port is read back from the endpoint made for it. *)
Lemma endpoint_roundtrip port :
  0 <= port <= 65535 ->
  endpoint_port (endpoint_of port) = Some port
  /\ validate_runtime_endpoint (endpoint_of port) = Ok tt.
Proof.
  intros [Hp Hd]%decimal_u16. unfold endpoint_port, validate_runtime_endpoint, endpoint_of.
  unfold all_chars in Hd. rewrite forallb_forall in Hd.
  change (chars ("http://127.0.0.1:" ++ decimal port))
    with ($"http://127.0.0.1" ++ COLON :: chars (decimal port)).
  split.
  - rewrite after_last_app by (intros Hin%Hd%digit_plain; naive_solver).
    rewrite trim_end_matches_none; [done|]. apply forallb_forall. intros c Hc%Hd%digit_plain.
    by destruct Hc as (_ & -> & _).
  - rewrite trim_plain, has_whitespace_plain; [done|..].
    1-2: rewrite forallb_app; cbn; apply forallb_forall; intros c Hc%Hd; by apply digit_plain.
Qed.

Lemma In_port_range first last port : In port (port_range first last) <-> first <= port <= last.
Proof. unfold port_range. rewrite <- list_elem_of_In, elem_of_seqZ. lia. Qed.

(** ** Preservation *)

Section Steps.
Context `{SerdeJson}.

(** An update that leaves the unique columns alone. *)
Lemma projects_update_ok p f db :
  inventory_ok db ->
  (forall r, p_project_id (f r) = p_project_id r /\ p_workspace_path (f r) = p_workspace_path r) ->
  unique_key p_hermes_home (update_where p f (projects db)) ->
  unique_key p_hermes_profile (update_where p f (projects db)) ->
  (forall r, In r (projects db) -> p r = true -> project_ok r -> project_ok (f r)) ->
  inventory_ok (on_projects (update_where p f) db).
Proof.
  intros Hok Hf Hh Hp Hr. split; cbn [on_projects projects]; try done.
  1-2: change (?g <$> update_where p f ?t) with (List.map g (update_where p f t));
       rewrite map_update_where; [apply Hok|]; intros r _ _; apply Hf.
  intros r' (r & Hin & ->)%In_update_where. pose proof (io_rows _ Hok _ Hin).
  destruct (p r) eqn:E; auto.
Qed.

Lemma projects_update_plain p f db :
  inventory_ok db ->
  (forall r, p_project_id (f r) = p_project_id r /\ p_workspace_path (f r) = p_workspace_path r
             /\ p_hermes_home (f r) = p_hermes_home r
             /\ p_hermes_profile (f r) = p_hermes_profile r) ->
  (forall r, In r (projects db) -> p r = true -> project_ok r -> project_ok (f r)) ->
  inventory_ok (on_projects (update_where p f) db).
Proof.
  intros Hok Hf Hr. apply projects_update_ok; try done.
  - intros r. by destruct (Hf r) as (? & ? & _).
  - apply unique_key_update; [apply Hok|]. intros r _ _. apply Hf.
  - apply unique_key_update; [apply Hok|]. intros r _ _. apply Hf.
Qed.

Lemma update_project_inv id f db res db' :
  update_project id f db = (res, db') ->
  match res with
  | Ok _ => db' = on_projects (update_where (is_project id) f) db
      /\ exists p, In p (projects db) /\ p_project_id p = id
  | Err e => db' = db /\ e = NotRegistered id
      /\ forall p, In p (projects db) -> p_project_id p <> id
  end.
Proof.
  unfold update_project, bind, gets, modify, ret, fail, changes.
  destruct (List.filter (is_project id) (projects db)) as [|p l] eqn:E; cbn; intros [= <- <-].
  - assert (forall p, In p (projects db) -> is_project id p = false) as Hn.
    { intros p Hp. destruct (is_project id p) eqn:Ep; [|done].
      assert (In p (List.filter (is_project id) (projects db))) as Hin by (by apply filter_In).
      by rewrite E in Hin. }
    split; [|split; [done|]].
    + unfold on_projects. rewrite update_where_id; [by destruct db|]. intros r Hr Hc.
      by rewrite Hn in Hc.
    + intros p Hp Hid. apply is_project_true in Hid. by rewrite Hn in Hid.
  - split; [done|]. assert (In p (List.filter (is_project id) (projects db))) as Hp
      by (rewrite E; by left).
    apply filter_In in Hp as [? Hid%is_project_true]. eauto.
Qed.

Lemma update_project_ok id f db :
  inventory_ok db ->
  (forall r, p_project_id (f r) = p_project_id r /\ p_workspace_path (f r) = p_workspace_path r
             /\ p_hermes_home (f r) = p_hermes_home r
             /\ p_hermes_profile (f r) = p_hermes_profile r) ->
  (forall r, project_ok r -> project_ok (f r)) ->
  inventory_ok (snd (update_project id f db)).
Proof.
  intros Hok Hf Hr. destruct (update_project id f db) as [res db'] eqn:E. cbn.
  apply update_project_inv in E. destruct res; destruct E as [-> _]; [|done].
  apply projects_update_plain; auto.
Qed.

(** Where every read-only prefix of a method leaves the registry alone. *)
Lemma lift_then {A B} (r : Result InvError A) (k : A -> M InvError Db B) db :
  bind (lift r) k db = match r with Ok a => k a db | Err e => (Err e, db) end.
Proof. unfold bind, lift. by destruct r. Qed.

Lemma set_profile_state_ok id s failure db :
  inventory_ok db -> inventory_ok (snd (set_profile_state id s failure db)).
Proof.
  intros Hok. apply update_project_ok; [done..|]. intros r []. split; try done.
  exists s. apply profile_state_roundtrip.
Qed.

Lemma set_project_credential_ok id c db :
  inventory_ok db -> inventory_ok (snd (set_project_credential id c db)).
Proof.
  intros Hok. unfold set_project_credential. rewrite lift_then.
  destruct (validate_opt validate_id c) as [[]|] eqn:E; cbn [map_err]; [|done].
  apply update_project_ok; [done..|]. intros r []. by split.
Qed.

Lemma set_project_model_ok id m db :
  inventory_ok db -> inventory_ok (snd (set_project_model id m db)).
Proof.
  intros Hok. unfold set_project_model. rewrite lift_then.
  destruct (validate_opt validate_model_id m) as [[]|] eqn:E; cbn [map_err]; [|done].
  apply update_project_ok; [done..|]. intros r []. by split.
Qed.

Lemma set_project_suspended_ok id at_ db :
  inventory_ok db -> inventory_ok (snd (set_project_suspended id at_ db)).
Proof. intros Hok. apply update_project_ok; [done..|]. intros r []. by split. Qed.

Lemma endpoint_row_ok e r :
  validate_opt validate_runtime_endpoint e = Ok tt -> project_ok r -> project_ok (endpoint_row e r).
Proof. intros He []. by split. Qed.

Lemma set_project_runtime_endpoint_ok id e db :
  inventory_ok db -> inventory_ok (snd (set_project_runtime_endpoint id e db)).
Proof.
  intros Hok. unfold set_project_runtime_endpoint. rewrite lift_then.
  destruct (validate_opt validate_runtime_endpoint e) as [[]|] eqn:E; [|done].
  pose proof (update_project_ok id (endpoint_row e) db Hok) as Hu.
  unfold bind, query, lift. destruct (update_project id (endpoint_row e) db) as [[]]; cbn in *.
  - destruct (project id _); (apply Hu; [done|intros; by apply endpoint_row_ok]).
  - apply Hu; [done|intros; by apply endpoint_row_ok].
Qed.

Lemma release_endpoint_ok id db : inventory_ok db -> inventory_ok (snd (release_endpoint id db)).
Proof. intros Hok. apply projects_update_plain; [done..|]. intros r _ _. by apply endpoint_row_ok. Qed.

(** Giving one project a value no other project has. *)
Lemma unique_key_assign (key : ProjectRow -> option string) id f k db :
  inventory_ok db -> unique_key key (projects db) ->
  (forall r, key (f r) = Some k) ->
  List.existsb (fun p => sql_eq (key p) k) (delete_where (is_project id) (projects db)) = false ->
  unique_key key (update_where (is_project id) f (projects db)).
Proof.
  intros Hok Hu Hf Hno i j r1 r2 k' Hi Hj H1 H2. unfold update_where in Hi, Hj.
  change (List.map ?g ?l) with (g <$> l) in Hi, Hj.
  apply list_lookup_fmap_Some in Hi as (a & -> & Hi), Hj as (b & -> & Hj).
  assert (forall r x, projects db !! x = Some r -> is_project id r = false -> key r <> Some k) as Hothers.
  { intros r x Hx Hr Hk. rewrite existsb_false in Hno.
    assert (In r (delete_where (is_project id) (projects db))) as Hin.
    { apply filter_In. rewrite Hr. split; [|done]. apply list_elem_of_In, list_elem_of_lookup. eauto. }
    specialize (Hno _ Hin). cbn in Hno. by rewrite Hk, sql_eq_some in Hno. }
  destruct (is_project id a) eqn:Ea, (is_project id b) eqn:Eb; rewrite ?Hf in H1, H2.
  - apply is_project_true in Ea, Eb. eapply NoDup_lookup; [apply (io_ids _ Hok)|..];
      rewrite list_lookup_fmap, ?Hi, ?Hj; cbn; [done|]. congruence.
  - exfalso. apply (Hothers b j); congruence.
  - exfalso. apply (Hothers a i); congruence.
  - eauto.
Qed.

Lemma no_others_unknown {B} (key : ProjectRow -> option B) id f db :
  List.existsb (is_project id) (projects db) = false -> unique_key key (projects db) ->
  unique_key key (update_where (is_project id) f (projects db)).
Proof.
  intros E Hu. rewrite update_where_id; [done|]. intros r Hr Hc. rewrite existsb_false in E.
  by rewrite E in Hc.
Qed.

Lemma set_profile_runtime_ok id home profile endpoint key s db :
  inventory_ok db -> inventory_ok (snd (set_profile_runtime id home profile endpoint key s db)).
Proof.
  intros Hok. unfold set_profile_runtime. rewrite lift_then.
  destruct (validate_runtime_endpoint endpoint) as [[]|] eqn:Ee; [|done].
  unfold bind at 1, Prelude.state. cbv beta iota zeta. split_if; [done|]. split_if; [done|].
  destruct (update_project _ _ db) as [res db'] eqn:E. cbn. apply update_project_inv in E.
  destruct res; destruct E as [-> _]; [|done].
  apply projects_update_ok; [done|done|..].
  - destruct (List.existsb (is_project id) (projects db)) eqn:Ek.
    + eapply unique_key_assign; [done|apply Hok|done|done].
    + apply no_others_unknown; [done|apply Hok].
  - destruct (List.existsb (is_project id) (projects db)) eqn:Ek.
    + eapply unique_key_assign; [done|apply Hok|done|done].
    + apply no_others_unknown; [done|apply Hok].
  - intros r _ _ []. split; try done. exists s. apply profile_state_roundtrip.
Qed.

Lemma bind_existing_profile_ok id home profile endpoint key db :
  inventory_ok db -> inventory_ok (snd (bind_existing_profile id home profile endpoint key db)).
Proof.
  intros Hok. unfold bind_existing_profile. unfold bind at 1, gets.
  destruct (select_one _ _) as [p|]; [|done]. destruct (p_hermes_home p); [done|].
  pose proof (set_profile_runtime_ok id home profile endpoint key ProfileReady db Hok) as Hs.
  unfold bind. by destruct (set_profile_runtime _ _ _ _ _ _ db) as [[]].
Qed.

Lemma register_project_inv fs now id workspace name metadata endpoint ownership db res db' :
  register_project fs now id workspace name metadata endpoint ownership db = (res, db') ->
  match res with
  | Ok r => exists row canonical,
      db' = on_projects (fun t => t ++ [row]) db /\ project_ok row
      /\ p_project_id row = id /\ p_workspace_path row = canonical
      /\ canonicalize fs workspace = Some canonical
      /\ is_dir fs canonical = true /\ canonical <> "/"%string
      /\ p_hermes_home row = None /\ p_hermes_profile row = None
      /\ map_project row = Ok r
      /\ (forall p, In p (projects db) -> p_project_id p <> id /\ p_workspace_path p <> canonical)
  | Err _ => db' = db
  end.
Proof.
  unfold register_project. rewrite lift_then.
  destruct (validate_identifier id) as [[]|] eqn:Ei; cbn [map_err]; [|by intros [= <- <-]].
  rewrite lift_then. destruct (canonicalize fs workspace) as [canonical|] eqn:Ec; cbn [context];
    [|by intros [= <- <-]].
  destruct (is_dir fs canonical) eqn:Ed; cbn [negb]; [|by intros [= <- <-]].
  destruct (canonical =? "/")%string eqn:Er; [by intros [= <- <-]|]. apply String.eqb_neq in Er.
  unfold bind at 1, gets. destruct (select_one _ _) eqn:Es; [by intros [= <- <-]|].
  rewrite lift_then. destruct (validate_opt validate_runtime_endpoint endpoint) as [[]|] eqn:Ee;
    [|by intros [= <- <-]].
  split_if; [by intros [= <- <-]|]. unfold bind, insert_project, Prelude.state, bind, modify, fail.
  cbn [p_project_id p_workspace_path]. split_if; [by intros [= <- <-]|].
  split_if; [by intros [= <- <-]|]. unfold query, lift, project.
  cbn [on_projects projects]. rewrite select_one_app, Es.
  cbn [select_one List.find is_project p_project_id]. unfold is_project. cbn [p_project_id].
  rewrite String.eqb_refl.
  unfold map_project. cbn [p_profile_state p_runtime_ownership]. rewrite ownership_roundtrip. cbn.
  intros [= <- <-]. eexists _, canonical. split; [done|]. split.
  { split; try done; [by exists ProfilePending|]. exists ownership. apply ownership_roundtrip. }
  repeat (split; [done|]). split.
  { unfold map_project. cbn. by rewrite ownership_roundtrip. }
  intros p Hp. rewrite existsb_false in Heqb0, Heqb1. specialize (Heqb0 _ Hp). specialize (Heqb1 _ Hp).
  split.
  - intros <-. by rewrite (proj2 (is_project_true _ p)) in Heqb0.
  - intros <-. unfold same_key in Heqb1. cbn in Heqb1. by rewrite String.eqb_refl in Heqb1.
Qed.

Lemma register_project_ok fs now id workspace name metadata endpoint ownership db :
  inventory_ok db ->
  inventory_ok (snd (register_project fs now id workspace name metadata endpoint ownership db)).
Proof.
  intros Hok.
  destruct (register_project fs now id workspace name metadata endpoint ownership db) as [res db'] eqn:E.
  cbn. apply register_project_inv in E. destruct res as [r|]; [|by subst].
  destruct E as (row & canonical & -> & Hrow & Hid & Hw & _ & _ & _ & Hh & Hp & _ & Hnew).
  split; cbn [on_projects projects].
  - rewrite fmap_app. apply list.NoDup_app. split; [apply Hok|split; [|apply NoDup_singleton]].
    intros x (p & -> & Hin)%list_elem_of_fmap Hx%list_elem_of_singleton. cbn in Hx.
    apply list_elem_of_In in Hin. destruct (Hnew _ Hin). congruence.
  - rewrite fmap_app. apply list.NoDup_app. split; [apply Hok|split; [|apply NoDup_singleton]].
    intros x (p & -> & Hin)%list_elem_of_fmap Hx%list_elem_of_singleton. cbn in Hx.
    apply list_elem_of_In in Hin. destruct (Hnew _ Hin). congruence.
  - apply unique_key_snoc; [apply Hok|]. by rewrite Hh.
  - apply unique_key_snoc; [apply Hok|]. by rewrite Hp.
  - intros p [Hin|[<-|[]]]%in_app_iff; [by apply Hok|done].
Qed.

Lemma unique_key_filter {R B} (key : R -> option B) q (t : list R) :
  unique_key key t -> unique_key key (List.filter q t).
Proof.
  induction t as [|r t IH]; intros Hu; cbn; [done|].
  assert (unique_key key t) as Ht.
  { intros i j r1 r2 k Hi Hj H1 H2. specialize (Hu (S i) (S j) r1 r2 k Hi Hj H1 H2). lia. }
  destruct (q r); [|by apply IH]. intros i j r1 r2 k Hi Hj H1 H2.
  assert (forall x n, List.filter q t !! n = Some x -> exists m, t !! m = Some x) as Hsub.
  { intros x n Hx. apply list_elem_of_lookup, list_elem_of_In.
    apply (filter_In q). apply list_elem_of_In, list_elem_of_lookup. eauto. }
  destruct i as [|i], j as [|j]; cbn in Hi, Hj; [done|..].
  - injection Hi as ->. destruct (Hsub _ _ Hj) as [m Hm].
    by specialize (Hu 0%nat (S m) r1 r2 k eq_refl Hm H1 H2).
  - injection Hj as ->. destruct (Hsub _ _ Hi) as [m Hm].
    by specialize (Hu (S m) 0%nat r1 r2 k Hm eq_refl H1 H2).
  - f_equal. by apply (IH Ht i j r1 r2 k).
Qed.

Lemma unregister_project_inv id db res db' :
  unregister_project id db = (res, db') ->
  match res with
  | Ok _ => db' = on_projects (delete_where (is_project id)) db /\ active_runs id db = []
  | Err _ => db' = db
  end.
Proof.
  unfold unregister_project, bind, query, gets, modify, fail.
  destruct (project id db) as [[p|]|]; try by intros [= <- <-].
  destruct (active_runs id db) eqn:E; by intros [= <- <-].
Qed.

Lemma unregister_project_ok id db :
  inventory_ok db -> inventory_ok (snd (unregister_project id db)).
Proof.
  intros Hok. destruct (unregister_project id db) as [res db'] eqn:E. cbn.
  apply unregister_project_inv in E. destruct res; [|by subst]. destruct E as [-> _].
  split; cbn [on_projects projects]; unfold delete_where.
  - apply NoDup_fmap_filter, Hok.
  - apply NoDup_fmap_filter, Hok.
  - apply unique_key_filter, Hok.
  - apply unique_key_filter, Hok.
  - intros p [Hp _]%filter_In. by apply Hok.
Qed.

(** ** Claiming a port *)

Lemma claim_state id endpoint db :
  claim id endpoint db
  = (Ok (changes (claimable id endpoint db) (projects db)),
     on_projects (update_where (claimable id endpoint db) (endpoint_row (Some endpoint))) db).
Proof. reflexivity. Qed.

Lemma claim_ok id port db :
  inventory_ok db -> 0 <= port <= 65535 -> inventory_ok (snd (claim id (endpoint_of port) db)).
Proof.
  intros Hok Hport. rewrite claim_state. cbn [snd]. apply projects_update_plain; [done..|].
  intros r _ _. apply endpoint_row_ok. cbn. by apply endpoint_roundtrip.
Qed.

Lemma reserve_attempts_ok n elsewhere id range reserved occupied db :
  (forall k db, inventory_ok db -> inventory_ok (elsewhere k db)) ->
  (forall port, In port range -> 0 <= port <= 65535) ->
  inventory_ok db ->
  inventory_ok (snd (reserve_attempts n elsewhere id range reserved occupied db)).
Proof.
  intros He Hr. revert db. induction n as [|n IH]; intros db Hok; [done|].
  cbn [reserve_attempts]. unfold bind at 1, gets at 1.
  destruct (select_one _ _) as [p|]; [|done]. destruct (p_runtime_endpoint p); [done|].
  unfold bind at 1, gets at 1. destruct (List.find _ range) as [port|] eqn:Ef; [|done].
  unfold bind at 1, modify at 1. unfold bind at 1. rewrite claim_state.
  apply find_some in Ef as [Hin _].
  pose proof (claim_ok id port (elsewhere n db) (He n db Hok) (Hr _ Hin)) as Hc.
  rewrite claim_state in Hc. cbn [snd] in Hc. split_if; [done|]. by apply IH.
Qed.
End Steps.
