(* ===== verification/InventoryTheorems.v ===== *)
(** * InventoryTheorems: isolation between projects. *)
From Stdlib Require Import Lia.
From stdpp Require Import pretty.
From stdpp Require Import relations.
From S2P Require Import Prelude Text Json RunState Redact Schema Registry RegistryFacts Identifiers.
From S2P Require Import Inventory InventoryFacts Evolution.
Import Samples.

(** ** Ports *)

Lemma contains_port_true port l : contains_port port l = true <-> In port l.
Proof.
  unfold contains_port. rewrite existsb_exists. split.
  - intros (x & Hx & ->%Z.eqb_eq). done.
  - intros Hin. exists port. split; [done|apply Z.eqb_refl].
Qed.

Lemma claimable_true id e db p :
  claimable id e db p = true <->
  p_project_id p = id /\ p_runtime_endpoint p = None
  /\ forall q, In q (projects db) -> p_runtime_endpoint q <> Some e.
Proof.
  unfold claimable. rewrite !andb_true_iff, is_project_true, negb_true_iff, existsb_false. split.
  - intros [[Hid Hn] Ha]. split; [done|]. split; [by destruct (p_runtime_endpoint p)|].
    intros q Hq He. specialize (Ha _ Hq). cbn in Ha. by rewrite He, sql_eq_some in Ha.
  - intros (Hid & -> & Ha). split; [done|]. intros q Hq. destruct (sql_eq _ _) eqn:E; [|done].
    apply sql_eq_true in E. by destruct (Ha q).
Qed.

Lemma changes_pos {R} (q : R -> bool) t r : In r t -> q r = true -> (1 <= changes q t)%nat.
Proof.
  intros Hin Hq. unfold changes. assert (In r (List.filter q t)) as Hf by (by apply filter_In).
  destruct (List.filter q t); [done|cbn; lia].
Qed.

Lemma changes_unique db id (q : ProjectRow -> bool) :
  inventory_ok db -> (forall p, q p = true -> p_project_id p = id) ->
  (changes q (projects db) <= 1)%nat.
Proof.
  intros Hok Hq. unfold changes.
  destruct (List.filter q (projects db)) as [|a [|b l]] eqn:E; cbn; [lia..|exfalso].
  pose proof (NoDup_fmap_filter p_project_id q _ (io_ids _ Hok)) as Hnd.
  rewrite E, NoDup_ListNoDup in Hnd. inversion Hnd as [|? ? Hn _]; subst.
  assert (forall x, In x (a :: b :: l) -> p_project_id x = id) as Hid.
  { rewrite <- E. intros x [_ Hx]%filter_In. auto. }
  apply Hn. left. rewrite (Hid a), (Hid b) by (cbn; auto). done.
Qed.

(** What other connections did, and nothing else. *)
Definition others_only (elsewhere : nat -> Db -> Db) : Db -> Db -> Prop :=
  rtc (fun db db' => exists k, db' = elsewhere k db).

(** C34. A port reserved for a project is exclusive, whatever other connections commit
    while the host is probed, as long as the inventory they leave is well formed: the
    endpoint that is returned is the project's in the resulting inventory; and either
    this call claimed it, then its port is in the range, not reserved and not
    occupied, and no other project has that endpoint; or the project had it already
    or was given it meanwhile, and this call has written nothing at all. *)
Theorem reserve_endpoint_exclusive elsewhere id first last reserved occupied db e db' :
  (forall k db, inventory_ok db -> inventory_ok (elsewhere k db)) ->
  0 <= first -> last <= 65535 -> inventory_ok db ->
  reserve_endpoint elsewhere id first last reserved occupied db = (Ok e, db') ->
  inventory_ok db'
  /\ (exists q, In q (projects db') /\ p_project_id q = id /\ p_runtime_endpoint q = Some e)
  /\ (((exists port, e = endpoint_of port /\ first <= port <= last /\ ~ In port reserved /\ occupied port = false)
       /\ forall q, In q (projects db') -> p_runtime_endpoint q = Some e -> p_project_id q = id)
      \/ others_only elsewhere db db').
Proof.
  intros Hpres Hfirst Hlast. unfold reserve_endpoint. set (range := port_range first last).
  revert db. induction (Nat.max (length range) 1) as [|n IH]; intros db Hok; [done|].
  cbn [reserve_attempts]. unfold bind at 1, gets at 1.
  destruct (select_one _ _) as [p|] eqn:Es; [|done]. apply select_project in Es as [Hp Hid]; [|done].
  destruct (p_runtime_endpoint p) as [e0|] eqn:Ee.
  { intros [= <- <-]. split; [done|]. split; [by exists p|]. right. apply rtc_refl. }
  unfold bind at 1, gets at 1. destruct (List.find _ range) as [port|] eqn:Ef; [|done].
  unfold bind at 1, modify at 1. unfold bind at 1. rewrite claim_state.
  apply find_some in Ef as [Hin [Ht%negb_true_iff Ho%negb_true_iff]%andb_true_iff].
  apply In_port_range in Hin.
  pose proof (Hpres n db Hok) as Hok1. set (db1 := elsewhere n db) in *.
  pose proof (claim_ok id port db1 Hok1 ltac:(lia)) as Hok2. rewrite claim_state in Hok2. cbn [snd] in Hok2.
  destruct (Nat.eqb_spec (changes (claimable id (endpoint_of port) db1) (projects db1)) 1) as [Hc|Hc].
  - intros [= <- <-]. unfold changes in Hc.
    destruct (List.filter _ (projects db1)) as [|q0 l] eqn:E; [done|].
    assert (In q0 (List.filter (claimable id (endpoint_of port) db1) (projects db1))) as Hq0 by (rewrite E; by left).
    apply filter_In in Hq0 as [Hq0 Hcq]. split; [done|]. split; [|left; split].
    + exists (endpoint_row (Some (endpoint_of port)) q0).
      split; [|split; [by apply claimable_true in Hcq as [? _]|done]].
      apply In_update_where. exists q0. by rewrite Hcq.
    + exists port. split; [done|]. split; [done|]. split; [|done]. intros Hr.
      rewrite (proj2 (contains_port_true _ _)) in Ht; [done|]. apply in_app_iff. by left.
    + intros q' (q & Hq & ->)%In_update_where He. destruct (claimable _ _ _ q) eqn:Ecq.
      * by apply claimable_true in Ecq as [? _].
      * apply claimable_true in Hcq as (_ & _ & Hno). by destruct (Hno q Hq).
  - assert (on_projects (update_where (claimable id (endpoint_of port) db1) (endpoint_row (Some (endpoint_of port)))) db1 = db1) as ->.
    { unfold on_projects. rewrite update_where_id; [by destruct db1|]. intros q Hq Ecq. exfalso. apply Hc.
      pose proof (changes_pos _ _ _ Hq Ecq).
      pose proof (changes_unique db1 id (claimable id (endpoint_of port) db1) Hok1) as Hle.
      specialize (Hle (fun p H => proj1 (proj1 (claimable_true _ _ _ _) H))). lia. }
    intros E. destruct (IH db1 Hok1 E) as (H1 & H2 & [H3|H3]); (split; [done|]; split; [done|]); [by left|right].
    eapply rtc_l; [by exists n|done].
Qed.

(** No two projects listen on the same port. *)
Definition distinct_ports (db : Db) : Prop :=
  forall p q port, In p (projects db) -> In q (projects db) ->
    (p_runtime_endpoint p ≫= endpoint_port) = Some port ->
    (p_runtime_endpoint q ≫= endpoint_port) = Some port -> p = q.

(** Without interference a reservation succeeds at the first attempt with the
    smallest port of the range that is free, or fails and changes nothing when none
    is; and handing out ports this way never makes two projects share one. *)
Theorem reserve_endpoint_least_free id first last reserved occupied p db :
  0 <= first -> last <= 65535 -> inventory_ok db -> distinct_ports db ->
  In p (projects db) -> p_project_id p = id -> p_runtime_endpoint p = None ->
  match List.find (fun port => negb (contains_port port (taken_ports reserved db))
                               && negb (occupied port)) (port_range first last) with
  | Some port => exists db',
      reserve_endpoint (fun _ db => db) id first last reserved occupied db
      = (Ok (endpoint_of port), db') /\ distinct_ports db'
  | None => reserve_endpoint (fun _ db => db) id first last reserved occupied db
            = (Err NoFreePort, db)
  end.
Proof.
  intros Hfirst Hlast Hok Hdist Hp Hid Hnone. unfold reserve_endpoint.
  destruct (Nat.max (length (port_range first last)) 1) as [|n] eqn:En; [lia|].
  cbn [reserve_attempts]. unfold bind, gets.
  assert (select_one (is_project id) (projects db) = Some p) as Hs by (by apply select_project).
  rewrite !Hs, !Hnone.
  destruct (List.find _ (port_range first last)) as [port|] eqn:Ef; [|done].
  apply find_some in Ef as [Hin [Ht%negb_true_iff _]%andb_true_iff]. apply In_port_range in Hin.
  destruct (endpoint_roundtrip port) as [Hport _]; [lia|].
  assert (forall q e, In q (projects db) -> p_runtime_endpoint q = Some e ->
            endpoint_port e <> Some port) as Hfree.
  { intros q e Hq He Hpe. rewrite (proj2 (contains_port_true _ _)) in Ht; [done|].
    apply in_app_iff. right. apply list_elem_of_In, list_elem_of_omap. exists e. split; [|done].
    apply list_elem_of_omap. exists q. split; [by apply list_elem_of_In|done]. }
  assert (claimable id (endpoint_of port) db p = true) as Hcp.
  { apply claimable_true. repeat split; try done. intros q Hq He. by destruct (Hfree q _ Hq He). }
  unfold modify. rewrite claim_state.
  assert (changes (claimable id (endpoint_of port) db) (projects db) = 1%nat) as ->.
  { pose proof (changes_pos _ _ _ Hp Hcp).
    pose proof (changes_unique db id (claimable id (endpoint_of port) db) Hok) as Hle.
    specialize (Hle (fun p H => proj1 (proj1 (claimable_true _ _ _ _) H))). lia. }
  eexists. split; [reflexivity|]. cbn [on_projects projects].
  assert (forall q', In q' (update_where (claimable id (endpoint_of port) db)
             (endpoint_row (Some (endpoint_of port))) (projects db)) ->
           q' = endpoint_row (Some (endpoint_of port)) p \/ In q' (projects db)) as Hcases.
  { intros q' (q & Hq & ->)%In_update_where. destruct (claimable _ _ _ q) eqn:E; [left|by right].
    apply claimable_true in E as [Hqid _]. f_equal. eapply project_unique; eauto; congruence. }
  intros a b port' Ha Hb Hpa Hpb. apply Hcases in Ha as [->|Ha], Hb as [->|Hb]; [done|..].
  - cbn in Hpa. rewrite Hport in Hpa. injection Hpa as <-.
    destruct (p_runtime_endpoint b) as [e|] eqn:Eb; [|done]. by destruct (Hfree b e).
  - cbn in Hpb. rewrite Hport in Hpb. injection Hpb as <-.
    destruct (p_runtime_endpoint a) as [e|] eqn:Ea; [|done]. by destruct (Hfree a e).
  - eauto.
Qed.

(** ** Unregistering *)

Lemma In_active_runs `{SerdeJson} id row st db :
  wf db -> In row (runs db) -> r_project_id row = id ->
  (length (select (fun r => (r_project_id r =? id)%string) (runs db)) <= 1000)%nat ->
  RunStatus.parse (r_status row) = Ok st -> RunStatus.is_active st = true ->
  In (map_run row) (active_runs id db).
Proof.
  intros Hwf Hin Hid Hlen Hs Ha. unfold active_runs. apply -> in_rev. apply filter_In.
  split; [|by cbn; rewrite Hs]. apply list_elem_of_In, list_elem_of_omap.
  exists (r_run_id row). split.
  - apply list_elem_of_In, in_map. unfold limit. change (1000 <? 0) with false. cbv iota.
    rewrite firstn_all2.
    + apply In_order_by, in_rev. rewrite rev_involutive. apply In_select. by rewrite Hid, String.eqb_refl.
    + rewrite (Permutation_length (order_by_perm _ _)), length_rev. lia.
  - unfold load_run. by rewrite (proj2 (select_run _ _ _ Hwf) (conj Hin eq_refl)).
Qed.

(** A project of at most 1000 runs is not removed while one of them is still
    live: the request is refused and nothing changes. *)
Theorem unregister_refuses_live_project `{SerdeJson} id p row st db :
  wf db -> inventory_ok db -> In p (projects db) -> p_project_id p = id ->
  In row (runs db) -> r_project_id row = id ->
  (length (select (fun r => (r_project_id r =? id)%string) (runs db)) <= 1000)%nat ->
  RunStatus.parse (r_status row) = Ok st -> RunStatus.is_terminal st = false ->
  exists run_id status, unregister_project id db = (Err (RunStillActive run_id status), db).
Proof.
  intros Hwf Hok Hp Hpid Hin Hid Hlen Hs Ht.
  assert (In (map_run row) (active_runs id db)) as Ha.
  { apply (In_active_runs id row st); try done. by destruct st. }
  destruct (map_project_ok p (io_rows _ Hok _ Hp)) as (r & Hr & _).
  unfold unregister_project, bind, query, gets, project.
  rewrite (proj2 (select_project _ _ _ Hok) (conj Hp Hpid)), Hr.
  destruct (active_runs id db) as [|a l]; [done|]. by eexists _, _.
Qed.

(** *** A project with a longer history *)

Definition aged_row (id status : string) (finished : option Z) : RunRow :=
  {| r_run_id := id; r_project_id := "demo"; r_session_id := None; r_idempotency_key := None;
     r_runtime_kind := "hermes-loop"; r_provider := None; r_model := None; r_status := status;
     r_created_at := 0; r_started_at := None; r_updated_at := 0; r_finished_at := finished;
     r_last_event_seq := 0; r_terminal_reason := None; r_error_code := None;
     r_error_message := None; r_hermes_run_id := None; r_request_payload := "{}";
     r_result_payload := None; r_recovery_note := None; r_request_fingerprint := "";
     r_retry_of_run_id := None; r_approval_policy := "manual";
     r_approval_policy_enabled_at := None; r_approval_policy_enabled_by := None;
     r_approval_policy_updated_at := None |}.

Definition live_row : RunRow := aged_row "live" "running" None.
Definition done_rows : list RunRow :=
  (fun i => aged_row (String (Ascii.ascii_of_N 114) (decimal i)) "completed" (Some 1)) <$> seqZ 1 1000.

Definition demo_project : ProjectRow :=
  {| p_project_id := "demo"; p_workspace_path := "/srv/demo"; p_display_name := "demo";
     p_enabled := 1; p_created_at := 0; p_metadata := None; p_runtime_endpoint := None;
     p_runtime_ownership := "managed_container"; p_hermes_home := None; p_hermes_profile := None;
     p_hermes_api_key_ref := None; p_profile_state := "ready"; p_profile_failure := None;
     p_credential_id := None; p_model := None; p_suspended_at := None |}.

Definition aged_db : Db :=
  {| runs := live_row :: done_rows; run_events := []; run_approvals := [];
     projects := [demo_project]; remote_commands := []; outbox := []; outbox_sequence := 0;
     event_subscriptions := [] |}.

Lemma In_done_rows r : In r done_rows -> exists i,
  r = aged_row (String (Ascii.ascii_of_N 114) (decimal i)) "completed" (Some 1).
Proof. intros Hin. apply list_elem_of_In, list_elem_of_fmap in Hin as (i & -> & _). eauto. Qed.

Lemma NoDup_done_rows : NoDup (r_run_id <$> done_rows).
Proof.
  unfold done_rows. rewrite <- list_fmap_compose. apply NoDup_fmap_2; [|apply NoDup_seqZ].
  intros i j. cbn. intros [= E]. by apply (inj pretty) in E.
Qed.

Lemma length_done_rows : length done_rows = Z.to_nat 1000.
Proof. unfold done_rows. by rewrite length_fmap, length_seqZ. Qed.

#[local] Opaque done_rows.

Lemma aged_ids : NoDup (r_run_id <$> runs aged_db).
Proof.
  cbn [aged_db runs]. rewrite fmap_cons. apply NoDup_cons_2.
  - intros (r & Hr & Hin)%list_elem_of_fmap. apply list_elem_of_In, In_done_rows in Hin as [i ->].
    discriminate Hr.
  - apply NoDup_done_rows.
Qed.

Lemma aged_wf : wf aged_db.
Proof.
  assert (forall r, In r (runs aged_db) -> r_idempotency_key r = None /\ r_hermes_run_id r = None
            /\ r_last_event_seq r = 0 /\ run_ok r) as Hall.
  { intros r [<-|[i ->]%In_done_rows]; (split; [done|]); (split; [done|]); (split; [done|]);
      (split; [|split; [by exists Manual|cbn; unfold i64_max; lia]]).
    - by exists Running.
    - exists Completed. split; [done|]. by eexists. }
  split; try apply NoDup_nil_2; try apply unique_key_nil; try done.
  - apply aged_ids.
  - intros i j r1 r2 k H1 _ Hk _. destruct (Hall r1) as (E & _).
    { apply list_elem_of_In, list_elem_of_lookup. eauto. }
    unfold idempotency_of in Hk. by rewrite E in Hk.
  - intros i j r1 r2 k H1 _ Hk _. destruct (Hall r1) as (_ & E & _).
    { apply list_elem_of_In, list_elem_of_lookup. eauto. }
    congruence.
  - intros r Hr. by apply Hall.
  - intros r Hr. destruct (Hall r Hr) as (_ & _ & -> & _). done.
Qed.

Lemma aged_inventory_ok : inventory_ok aged_db.
Proof.
  split; cbn [aged_db projects]; try apply NoDup_singleton.
  - intros i j r1 r2 k Hi _ Hk _. apply list_lookup_singleton_Some in Hi as [_ <-]. done.
  - intros i j r1 r2 k Hi _ Hk _. apply list_lookup_singleton_Some in Hi as [_ <-]. done.
  - intros p [<-|[]]. split; try done; [by exists ProfileReady|by exists ManagedContainer].
Qed.

Lemma order_by_total {R} (le : R -> R -> bool) t :
  (forall a b, In a t -> In b t -> le a b = true) -> order_by le t = t.
Proof.
  induction t as [|x t IH]; intros H; [done|].
  change (order_by le (x :: t)) with (insert_by le x (order_by le t)).
  rewrite IH by (intros; apply H; by right).
  destruct t as [|y t]; cbn; [done|]. rewrite H; [done|by left|right; by left].
Qed.

Lemma select_everything {R} (p : R -> bool) t :
  (forall r, In r t -> p r = true) -> select p t = t.
Proof.
  intros H. unfold select. induction t as [|r t IH]; cbn; [done|].
  rewrite H by (by left). f_equal. apply IH. intros x Hx. apply H. by right.
Qed.

Lemma aged_active `{SerdeJson} : active_runs "demo" aged_db = [].
Proof.
  unfold active_runs. cut (forall r, In r (list_runs "demo" 1000 aged_db) ->
    RunStatus.parse (status r) = Ok Completed).
  { intros Hall. induction (list_runs "demo" 1000 aged_db) as [|r l IH]; [done|]. cbn.
    rewrite (Hall r) by (by left). cbn. apply IH. intros x Hx. apply Hall. by right. }
  assert (forall r, In r (runs aged_db) -> r_project_id r = "demo"%string /\ r_created_at r = 0) as Hrow.
  { by intros r [<-|[i ->]%In_done_rows]. }
  intros r Hr. unfold list_runs in Hr. apply list_elem_of_In, list_elem_of_omap in Hr as (id & Hid & Hl).
  rewrite select_everything in Hid.
  2: { intros x Hx. destruct (Hrow x Hx) as [-> _]. done. }
  rewrite order_by_total in Hid.
  2: { intros a b Ha%in_rev Hb%in_rev. destruct (Hrow a Ha) as [_ ->], (Hrow b Hb) as [_ ->]. done. }
  unfold limit in Hid. change (1000 <? 0) with false in Hid. cbv iota in Hid.
  cbn [aged_db runs List.rev] in Hid.
  rewrite firstn_app, length_rev, length_done_rows, Nat.sub_diag in Hid.
  cbn [firstn] in Hid. rewrite app_nil_r in Hid. apply list_elem_of_In, in_map_iff in Hid as (x & <- & Hx).
  rewrite firstn_all2 in Hx by (rewrite length_rev, length_done_rows; lia).
  apply in_rev in Hx.
  unfold load_run in Hl. rewrite (proj2 (select_run aged_db (r_run_id x) x aged_wf)) in Hl.
  - injection Hl as <-. apply In_done_rows in Hx as [i ->]. done.
  - split; [by right|done].
Qed.

Lemma unregister_idle `{SerdeJson} id p db :
  project id db = Ok (Some p) -> active_runs id db = [] ->
  unregister_project id db = (Ok tt, on_projects (delete_where (is_project id)) db).
Proof. intros Hp Ha. unfold unregister_project, bind, query, gets. by rewrite Hp, Ha. Qed.

(** The refusal looks at the newest 1000 runs only: there is a well-formed
    registry in which a project has a running run and is removed all the same,
    which leaves that run without its project. *)
Theorem unregister_overlooks_old_run `{SerdeJson} :
  wf aged_db /\ inventory_ok aged_db
  /\ In live_row (runs aged_db) /\ r_project_id live_row = "demo"%string
  /\ RunStatus.parse (r_status live_row) = Ok Running
  /\ unregister_project "demo" aged_db
     = (Ok tt, on_projects (delete_where (is_project "demo")) aged_db).
Proof.
  split; [apply aged_wf|]. split; [apply aged_inventory_ok|]. split; [by left|].
  split; [done|]. split; [done|].
  eapply unregister_idle; [reflexivity|apply aged_active].
Qed.

(** ** Identifiers *)

(** Whatever project the Control Plane names, a resolved project is a
    registered and enabled one with exactly that id, and the id is safe as one
    path or URL segment: printable ASCII without separators or [..]. *)
Theorem resolve_remote_project_confined `{SerdeJson} id r db :
  inventory_ok db -> resolve_remote_project id db = Ok (Some r) ->
  path_safe id /\ rp_project_id r = id /\ rp_enabled r = true
  /\ exists p, In p (projects db) /\ p_project_id p = id
       /\ rp_workspace_path r = p_workspace_path p.
Proof.
  intros Hok. unfold resolve_remote_project, project.
  destruct (validate_identifier id) as [[]|] eqn:Ei; [|done]. apply validate_identifier_path_safe in Ei.
  destruct (select_one _ _) as [p|] eqn:Es; [|done]. apply select_project in Es as [Hp Hid]; [|done].
  destruct (map_project_ok p (io_rows _ Hok _ Hp)) as (r' & -> & Hr1 & Hr2 & Hr3 & _).
  destruct (rp_enabled r') eqn:Ee; [|done]. intros [= <-]. split; [done|]. split; [congruence|].
  split; [done|]. eauto.
Qed.

(** ** The theorems at a sample inventory *)

Definition fs0 : FileSystem := {| canonicalize s := Some s; is_dir _ := true |}.
Definition idb : Db :=
  snd (register_project fs0 50 "demo" "/srv/demo" None None None ManagedContainer db2).
Definition project_of (db : Db) : ProjectRow :=
  default demo_project (select_one (is_project "demo") (projects db)).

Lemma idb_ok : inventory_ok idb.
Proof.
  apply register_project_ok. apply (inventory_ok_ext empty_db); [reflexivity|apply inventory_ok_empty].
Qed.
Lemma idb_wf : wf idb.
Proof. apply (wf_ext db2); [vm_compute; reflexivity..|apply wf2]. Qed.
Lemma idb_project : In (project_of idb) (projects idb).
Proof. apply (select_one_Some (is_project "demo")). vm_compute. reflexivity. Qed.

(** Another project takes the first free port while the host is probed. *)
Definition idb2 : Db := snd (register_project fs0 60 "other" "/srv/other" None None None ManagedContainer idb).
Definition other_takes (k : nat) (db : Db) : Db := snd (claim "other" (endpoint_of 9002) db).

Lemma reserve_endpoint_exclusive_witness :
  let '(r, db') := reserve_endpoint other_takes "demo" 9000 9010 [9000] (fun p => p =? 9001) idb2 in
  r = Ok "http://127.0.0.1:9003"%string
  /\ (exists q, In q (projects db') /\ p_project_id q = "demo"%string
        /\ p_runtime_endpoint q = Some "http://127.0.0.1:9003"%string)
  /\ exists q, In q (projects db') /\ p_project_id q = "other"%string
        /\ p_runtime_endpoint q = Some "http://127.0.0.1:9002"%string.
Proof.
  assert (inventory_ok idb2) as Hok by (apply register_project_ok, idb_ok).
  pose proof (reserve_endpoint_exclusive other_takes "demo" 9000 9010 [9000] (fun p => p =? 9001) idb2
    "http://127.0.0.1:9003") as H.
  assert (fst (reserve_endpoint other_takes "demo" 9000 9010 [9000] (fun p => p =? 9001) idb2)
          = Ok "http://127.0.0.1:9003"%string) as E by (vm_compute; reflexivity).
  assert (exists q, In q (projects (snd (reserve_endpoint other_takes "demo" 9000 9010 [9000] (fun p => p =? 9001) idb2)))
            /\ p_project_id q = "other"%string /\ p_runtime_endpoint q = Some "http://127.0.0.1:9002"%string) as Ho.
  { exists (default demo_project (select_one (is_project "other")
      (projects (snd (reserve_endpoint other_takes "demo" 9000 9010 [9000] (fun p => p =? 9001) idb2))))).
    split; [apply (select_one_Some (is_project "other")); vm_compute; reflexivity|]. split; vm_compute; reflexivity. }
  destruct (reserve_endpoint _ _ _ _ _ _ idb2) as [r db']. cbn in E. subst r. split; [done|]. split; [|exact Ho].
  apply (H db'); [|lia|lia|exact Hok|reflexivity]. intros k db Hdb. apply claim_ok; [done|lia].
Defined.

Lemma reserve_endpoint_least_free_witness :
  exists db', reserve_endpoint (fun _ db => db) "demo" 9000 9010 [9000] (fun p => p =? 9001) idb
              = (Ok "http://127.0.0.1:9002"%string, db').
Proof.
  assert (distinct_ports idb) as Hd.
  { intros p q port Hp Hq E1 _. exfalso.
    assert (projects idb = [project_of idb]) as Ep by (vm_compute; reflexivity).
    rewrite Ep in Hp. destruct Hp as [<-|[]]. vm_compute in E1. discriminate. }
  destruct (reserve_endpoint_least_free "demo" 9000 9010 [9000] (fun p => p =? 9001)
              (project_of idb) idb) as (db' & Heq & _);
    [lia|lia|apply idb_ok|exact Hd|apply idb_project|vm_compute; reflexivity..|].
  exists db'. exact Heq.
Defined.

Lemma unregister_refuses_live_project_witness :
  exists run_id status, unregister_project "demo" idb = (Err (RunStillActive run_id status), idb).
Proof.
  apply (unregister_refuses_live_project "demo" (project_of idb) (row_of idb) Starting idb);
    [apply idb_wf|apply idb_ok|apply idb_project|vm_compute; reflexivity| | | | | ].
  - apply (select_one_Some (is_run id1)). vm_compute. reflexivity.
  - vm_compute. reflexivity.
  - apply Nat.leb_le. vm_compute. reflexivity.
  - vm_compute. reflexivity.
  - vm_compute. reflexivity.
Defined.

Lemma resolve_remote_project_confined_witness : path_safe "demo".
Proof.
  destruct (map_project_ok (project_of idb) (io_rows _ idb_ok _ idb_project)) as (r & Hr & _).
  apply (resolve_remote_project_confined "demo" r idb); [apply idb_ok|].
  unfold resolve_remote_project, project.
  assert (select_one (is_project "demo") (projects idb) = Some (project_of idb)) as ->
    by (vm_compute; reflexivity).
  assert (validate_identifier "demo" = Ok tt) as -> by reflexivity. rewrite Hr.
  assert (rp_enabled r = true) as ->; [|reflexivity].
  vm_compute in Hr. injection Hr as <-. reflexivity.
Defined.
