(* ===== verification/Protocol.v ===== *)
(** * Protocol: the wire protocol between node and Control Plane
    ([protocol.rs]).

    A derived [Serialize]/[Deserialize] is modelled on the list of fields; the
    text of one frame belongs to [serde_json].  SHA-256 is the parameter
    [sha256] of the definitions that use it. *)
From Stdlib Require Import Lia.
From stdpp Require Import pretty.
From S2P Require Import Prelude Text Json Schema.

Definition SUPPORTED_VERSIONS : list Z := [1].
Definition PROTOCOL_VERSION : Z := 1.
Definition MAX_FRAME_BYTES : Z := 1024 * 1024.
Definition MAX_COMMAND_PAYLOAD_BYTES : Z := 128 * 1024.
Definition AUTH_DOMAIN : string := "asterism-node-auth/v1".

(** ** Error codes *)

Inductive ErrorCode : Type :=
| MalformedFrame
| FrameTooLarge
| UnsupportedVersion
| UnknownMessageType
| NotAuthenticated
| AuthenticationFailed
| ChallengeExpired
| ChallengeReplayed
| UnknownNode
| PayloadTooLarge
| UnknownCommand
| ForbiddenCommand
| ProjectNotRegistered
| DuplicatePayloadMismatch
| CommandFailed
| Internal.

Module ErrorCode.
Definition as_str (c : ErrorCode) : string :=
  match c with
  | MalformedFrame => "malformed_frame"
  | FrameTooLarge => "frame_too_large"
  | UnsupportedVersion => "unsupported_version"
  | UnknownMessageType => "unknown_message_type"
  | NotAuthenticated => "not_authenticated"
  | AuthenticationFailed => "authentication_failed"
  | ChallengeExpired => "challenge_expired"
  | ChallengeReplayed => "challenge_replayed"
  | UnknownNode => "unknown_node"
  | PayloadTooLarge => "payload_too_large"
  | UnknownCommand => "unknown_command"
  | ForbiddenCommand => "forbidden_command"
  | ProjectNotRegistered => "project_not_registered"
  | DuplicatePayloadMismatch => "duplicate_payload_mismatch"
  | CommandFailed => "command_failed"
  | Internal => "internal"
  end.
End ErrorCode.

Record ProtocolError : Type := { pe_code : ErrorCode; pe_message : string }.

Module message_types.
Definition CLIENT_HELLO : string := "client.hello".
Definition SERVER_CHALLENGE : string := "server.challenge".
Definition CLIENT_AUTHENTICATE : string := "client.authenticate".
Definition SERVER_READY : string := "server.ready".
Definition CLIENT_HEARTBEAT : string := "client.heartbeat".
Definition SERVER_HEARTBEAT_ACK : string := "server.heartbeat.ack".
Definition SERVER_COMMAND : string := "server.command".
Definition CLIENT_COMMAND_ACCEPTED : string := "client.command.accepted".
Definition CLIENT_COMMAND_RESULT : string := "client.command.result".
Definition SERVER_COMMAND_RESULT_ACK : string := "server.command.result.ack".
Definition CLIENT_EVENT : string := "client.event".
Definition SERVER_EVENT_ACK : string := "server.event.ack".
Definition CLIENT_UPDATE_PROGRESS : string := "client.update.progress".
Definition SERVER_UPDATE_PROGRESS_ACK : string := "server.update.progress.ack".
Definition CLIENT_TASK_REPORT : string := "client.task.report".
Definition SERVER_TASK_REPORT_ACK : string := "server.task.report.ack".
Definition CLIENT_DEVICE_AUTHORIZATION : string := "client.device_authorization".
Definition SERVER_DEVICE_AUTHORIZATION_ACK : string := "server.device_authorization.ack".
Definition ERROR : string := "error".
End message_types.

(** ** Envelope *)

Record Envelope : Type := {
  protocol_version : Z;
  message_id : string;
  message_type : string;
  timestamp : Z;
  correlation_id : option string;
  payload : Value
}.

(** [message_id] and [timestamp] are what the uuid and the clock supply. *)
Definition Envelope_new (message_id : string) (now : Z) (message_type : string) (payload : Value) :
    Envelope :=
  {| protocol_version := PROTOCOL_VERSION; message_id := message_id; message_type := message_type;
     timestamp := now; correlation_id := None; payload := payload |}.

Definition correlate (id : string) (e : Envelope) : Envelope :=
  {| protocol_version := protocol_version e; message_id := message_id e;
     message_type := message_type e; timestamp := timestamp e; correlation_id := Some id;
     payload := payload e |}.

(** *** Derived serialization *)

Definition integer (z : Z) : Value := VNumber (if z <? 0 then NegInt z else PosInt z).

Definition envelope_fields (e : Envelope) : list (string * Value) :=
  [("protocol_version"%string, integer (protocol_version e));
   ("message_id"%string, VString (message_id e));
   ("type"%string, VString (message_type e));
   ("timestamp"%string, integer (timestamp e))]
  ++ match correlation_id e with Some id => [("correlation_id"%string, VString id)] | None => [] end
  ++ [("payload"%string, payload e)].

Inductive Field (A : Type) : Type :=
| Missing
| Present (a : A)
| Refused.
Arguments Missing {A}.
Arguments Present {A} a.
Arguments Refused {A}.

(** A field of a derived [Deserialize]: a repeated field is an error, and so is
    a value of the wrong type. *)
Definition field {A} (read : Value -> option A) (name : string) (fields : list (string * Value)) :
    Field A :=
  match List.filter (fun e => (fst e =? name)%string) fields with
  | [] => Missing
  | [(_, v)] => match read v with Some a => Present a | None => Refused end
  | _ => Refused
  end.
Definition required {A} (f : Field A) : option A :=
  match f with Present a => Some a | _ => None end.
Definition optional {A} (f : Field (option A)) : option (option A) :=
  match f with Present a => Some a | Missing => Some None | Refused => None end.

Definition as_integer (lo hi : Z) (v : Value) : option Z :=
  match v with
  | VNumber (PosInt n) | VNumber (NegInt n) => if (lo <=? n) && (n <=? hi) then Some n else None
  | _ => None
  end.
Definition as_u16 : Value -> option Z := as_integer 0 65535.
Definition as_i64 : Value -> option Z := as_integer (- 2 ^ 63) i64_max.
(** [Option<String>]: [null] is [None]. *)
Definition as_opt_str (v : Value) : option (option string) :=
  match v with VNull => Some None | VString s => Some (Some s) | _ => None end.

Definition envelope_of (fields : list (string * Value)) : option Envelope :=
  version ← required (field as_u16 "protocol_version" fields);
  id ← required (field as_str "message_id" fields);
  kind ← required (field as_str "type" fields);
  time ← required (field as_i64 "timestamp" fields);
  correlation ← optional (field as_opt_str "correlation_id" fields);
  body ← required (field Some "payload" fields);
  Some {| protocol_version := version; message_id := id; message_type := kind; timestamp := time;
          correlation_id := correlation; payload := body |}.

(** The texts of [serde_json]'s errors (reading a frame, reading a command) and
    the [Debug] form of a string, which rests on Unicode tables. *)
Class ErrorText : Type := {
  text_error : string -> string;
  value_error : Value -> string;
  debug_str : string -> string
}.

Section Wire.
Context `{SerdeJson} `{ErrorText}.

(** [None] is the refusal of an outgoing frame over the limit. *)
Definition encode (e : Envelope) : option string :=
  let text := struct_to_string (envelope_fields e) in
  if MAX_FRAME_BYTES <? len text then None else Some text.

Definition outside (lo hi : Z) (s : string) : bool := (len s <? lo) || (hi <? len s).

Definition decode (text : string) : Result ProtocolError Envelope :=
  if MAX_FRAME_BYTES <? len text
  then Err {| pe_code := FrameTooLarge; 
    pe_message := "frame of " +:+ decimal (len text) +:+ " bytes exceeds " +:+ decimal MAX_FRAME_BYTES |}
  else
    match struct_from_str text ≫= envelope_of with
    | None => Err {| pe_code := MalformedFrame; pe_message := "invalid frame: " +:+ text_error text |}
    | Some e =>
        if negb (List.existsb (Z.eqb (protocol_version e)) SUPPORTED_VERSIONS)
        then Err {| pe_code := UnsupportedVersion; 
          pe_message := "protocol version " +:+ decimal (protocol_version e) +:+ " is not supported" |}
        else if outside 1 128 (message_id e)
        then Err {| pe_code := MalformedFrame; pe_message := "message_id must be 1..=128 characters" |}
        else if outside 1 64 (message_type e)
        then Err {| pe_code := MalformedFrame; pe_message := "type must be 1..=64 characters" |}
        else Ok e
    end.

Definition into_envelope (id : string) (now : Z) (err : ProtocolError) (correlation : option string) :
    Envelope :=
  let envelope := Envelope_new id now message_types.ERROR
    (object [("code", VString (ErrorCode.as_str (pe_code err)));
             ("message", VString (pe_message err))]%string) in
  match correlation with Some c => correlate c envelope | None => envelope end.

(** ** Commands *)

Definition ALLOWED_COMMANDS : list string :=
  ["capabilities.get"; "projects.list"; "runs.create"; "runs.list"; "runs.get"; "runs.cancel";
   "runs.retry"; "runs.approval_policy"; "project.provision"; "project.resume"; "project.suspend";
   "project.credential.assign"; "project.model.select"; "approvals.resolve"; "events.subscribe";
   "events.unsubscribe"; "node.drain"; "node.update"; "provider.status"; "credentials.list";
   "credentials.authorize"; "credentials.cancel"; "credentials.rename"; "credentials.reauthorize";
   "credentials.revoke"; "provider.authorize"; "provider.cancel"]%string.

Definition is_allowed_command (name : string) : bool :=
  List.existsb (String.eqb name) ALLOWED_COMMANDS.

Record RemoteCommand : Type := {
  command_id : string;
  command : string;
  command_project_id : option string;
  command_payload : Value
}.

Definition validate (c : RemoteCommand) : Result ProtocolError unit :=
  if outside 1 128 (command_id c)
  then Err {| pe_code := MalformedFrame; pe_message := "command_id must be 1..=128 characters" |}
  else if negb (is_allowed_command (command c))
  then Err {| pe_code := ForbiddenCommand; 
    pe_message := "command " +:+ debug_str (command c) +:+ " is not permitted" |}
  else if MAX_COMMAND_PAYLOAD_BYTES <? len (to_string (command_payload c))
  then Err {| pe_code := PayloadTooLarge; 
    pe_message := "payload of " +:+ decimal (len (to_string (command_payload c))) +:+ " bytes exceeds "
                  +:+ decimal MAX_COMMAND_PAYLOAD_BYTES |}
  else Ok tt.

(** Lower-case hexadecimal of the digest bytes. *)
Definition digest_json (sha256 : string -> list Z) (v : Value) : string :=
  of_chars (List.concat (List.map (hex_fixed 2) (sha256 (to_string v)))).

(** What makes two deliveries "the same command"; the id is not part of it. *)
Definition fingerprint_input (c : RemoteCommand) : Value :=
  object [("command", VString (command c));
          ("project_id", null_or VString (command_project_id c));
          ("payload", command_payload c)]%string.

Definition fingerprint (sha256 : string -> list Z) (c : RemoteCommand) : string :=
  digest_json sha256 (fingerprint_input c).

(** ** Handshake *)

Definition negotiate_version (client server : list Z) : option Z :=
  let shared := List.filter (fun v => List.existsb (Z.eqb v) server) client in
  list.last (order_by Z.leb shared).

Record AuthTranscriptInput : Type := {
  at_protocol_version : Z;
  at_node_id : string;
  at_instance_id : string;
  at_session_id : string;
  at_client_nonce : string;
  at_server_nonce : string;
  at_issued_at : Z;
  at_expires_at : Z;
  at_capabilities_digest : string
}.

(** Ten string fields under sorted keys. *)
Definition transcript_fields (i : AuthTranscriptInput) : Value :=
  object [("domain", VString AUTH_DOMAIN);
          ("protocol_version", VString (decimal (at_protocol_version i)));
          ("node_id", VString (at_node_id i));
          ("instance_id", VString (at_instance_id i));
          ("session_id", VString (at_session_id i));
          ("client_nonce", VString (at_client_nonce i));
          ("server_nonce", VString (at_server_nonce i));
          ("issued_at", VString (decimal (at_issued_at i)));
          ("expires_at", VString (decimal (at_expires_at i)));
          ("capabilities_digest", VString (at_capabilities_digest i))]%string.

Definition auth_transcript (i : AuthTranscriptInput) : string := to_string (transcript_fields i).

End Wire.

(** ** Theorems *)

(** C35. An envelope that this node encodes is read back as it was: every field
    survives, the correlation id included when there is one. It is stated for
    envelopes of this protocol's version, with ids of the lengths [decode] admits and
    a timestamp of 64 bits, whose payload nests at most 126 containers (the parser
    stops at 128), has its keys in order and holds no floating-point number: a number
    with a fraction, which an event of the backend may carry, is not covered, since
    the parser is built without exact reading of floats. *)
Theorem envelope_roundtrip `{SerdeJsonLaws} `{ErrorText} e text :
  protocol_version e = PROTOCOL_VERSION ->
  outside 1 128 (message_id e) = false -> outside 1 64 (message_type e) = false ->
  - 2 ^ 63 <= timestamp e <= i64_max ->
  (depth (payload e) <= 126)%nat -> integral (payload e) = true -> ordered (payload e) = true ->
  encode e = Some text -> decode text = Ok e.
Proof.
  intros Hv Hid Hty Hts Hd Hi Ho. unfold encode, decode.
  destruct (MAX_FRAME_BYTES <? len _) eqn:El; [done|]. intros [= <-]. rewrite El.
  rewrite struct_from_str_to_string.
  2: { intros f Hf. unfold envelope_fields in Hf. cbn in Hf.
       destruct (correlation_id e); cbn in Hf;
         repeat destruct Hf as [<-|Hf]; cbn [snd]; unfold integer; try split_if; try done;
         (split; [cbn; lia|done]). }
  cbn [mbind option_bind].
  assert (envelope_of (envelope_fields e) = Some e) as ->.
  { destruct e as [v id ty ts corr body]. cbn in *. subst v. unfold envelope_of, envelope_fields.
    assert (as_i64 (integer ts) = Some ts) as Hz.
    { unfold as_i64, as_integer, integer. destruct (ts <? 0);
        by rewrite !(proj2 (Z.leb_le _ _)) by lia. }
    assert (as_u16 (integer PROTOCOL_VERSION) = Some PROTOCOL_VERSION) as Hu by reflexivity.
    destruct corr; cbn -[as_i64 as_u16 integer PROTOCOL_VERSION]; by rewrite Hu, Hz. }
  rewrite Hv, Hid, Hty. done.
Qed.

(** A frame that decodes is within every limit the protocol states, whatever
    its text was. *)
Theorem decode_bounds `{SerdeJson} `{ErrorText} text e :
  decode text = Ok e ->
  len text <= MAX_FRAME_BYTES /\ In (protocol_version e) SUPPORTED_VERSIONS
  /\ 1 <= len (message_id e) <= 128 /\ 1 <= len (message_type e) <= 64.
Proof.
  unfold decode, outside. destruct (Z.ltb_spec MAX_FRAME_BYTES (len text)); [done|].
  destruct (struct_from_str text ≫= envelope_of) as [e'|]; [|done].
  destruct (List.existsb _ SUPPORTED_VERSIONS) eqn:Ev; [|done]. cbn [negb].
  destruct (Z.ltb_spec (len (message_id e')) 1), (Z.ltb_spec 128 (len (message_id e')));
    try done; cbn [orb].
  destruct (Z.ltb_spec (len (message_type e')) 1), (Z.ltb_spec 64 (len (message_type e')));
    try done. intros [= <-].
  apply existsb_exists in Ev as (v & Hv & ->%Z.eqb_eq). repeat split; done || lia.
Qed.

Lemma last_sorted (t : list Z) v :
  Sorted.StronglySorted Z.le t -> list.last t = Some v -> In v t /\ forall x, In x t -> x <= v.
Proof.
  induction 1 as [|y t Hs IH Hall]; [done|]. destruct t as [|z t].
  - intros [= <-]. split; [by left|]. intros x [->|Hx]; [lia|by destruct Hx].
  - intros Hlast. destruct (IH Hlast) as [Hin Hmax]. split; [by right|].
    intros x [->|Hx]; [|auto]. rewrite List.Forall_forall in Hall. auto.
Qed.

Lemma insert_by_sorted x (t : list Z) :
  Sorted.StronglySorted Z.le t -> Sorted.StronglySorted Z.le (insert_by Z.leb x t).
Proof.
  induction 1 as [|y t Hs IH Hall]; cbn; [repeat constructor|]. destruct (Z.leb_spec x y).
  - constructor; [by constructor|]. constructor; [done|].
    eapply List.Forall_impl; [|exact Hall]. cbn. lia.
  - constructor; [done|]. apply List.Forall_forall. intros z Hz.
    apply (Permutation_in _ (insert_by_perm _ _ _)) in Hz as [<-|Hz]; [lia|].
    rewrite List.Forall_forall in Hall. auto.
Qed.

Lemma last_order_by (l : list Z) v :
  list.last (order_by Z.leb l) = Some v -> In v l /\ forall x, In x l -> x <= v.
Proof.
  intros Hlast. apply last_sorted in Hlast as [Hin Hmax].
  - split; [by apply In_order_by in Hin|]. intros x Hx. by apply Hmax, In_order_by.
  - clear Hlast. induction l as [|x l IH]; [constructor|]. by apply insert_by_sorted.
Qed.

(** Version negotiation picks the greatest version both sides support, and
    fails exactly when they have none in common. *)
Theorem negotiate_version_greatest client server :
  match negotiate_version client server with
  | Some v => In v client /\ In v server /\ forall w, In w client -> In w server -> w <= v
  | None => forall w, In w client -> ~ In w server
  end.
Proof.
  unfold negotiate_version. set (shared := List.filter _ client).
  assert (forall w, In w shared <-> In w client /\ In w server) as Hs.
  { intros w. unfold shared. rewrite filter_In, existsb_exists. split.
    - intros [Hc (x & Hx & ->%Z.eqb_eq)]. done.
    - intros [Hc Hw]. split; [done|]. exists w. split; [done|apply Z.eqb_refl]. }
  destruct (list.last (order_by Z.leb shared)) as [v|] eqn:E.
  - apply last_order_by in E as [Hv Hmax]. apply Hs in Hv as [? ?]. split; [done|]. split; [done|].
    intros w Hc Hw. by apply Hmax, Hs.
  - intros w Hc Hw. apply last_None in E.
    assert (In w (order_by Z.leb shared)) as Hin by (by apply In_order_by, Hs). by rewrite E in Hin.
Qed.

(** A signature covers every field of the handshake: two inputs that give the
    same transcript are the same input, so a signature made for one challenge,
    node, session or capability set is never a signature for another. *)
Theorem auth_transcript_injective `{SerdeJsonLaws} i j :
  auth_transcript i = auth_transcript j -> i = j.
Proof.
  unfold auth_transcript. intros E.
  assert (from_str (to_string (transcript_fields i)) = from_str (to_string (transcript_fields j))) as E'
    by (by rewrite E).
  rewrite !from_str_to_string in E' by (done || (apply Nat.leb_le; done)).
  destruct i, j. unfold transcript_fields in E'. cbn in E'. injection E'. intros.
  repeat match goal with H : decimal _ = decimal _ |- _ => apply (inj pretty) in H end.
  congruence.
Qed.

(** ** The theorems at sample frames *)

Module ProtocolSamples.
Import Codec.

#[export] Instance plain_texts : ErrorText :=
  {| text_error := fun _ => "syntax"%string; value_error := fun _ => "missing field"%string;
     debug_str := fun s => s |}.

Definition heartbeat : Envelope :=
  correlate "m-0" (Envelope_new "m-1" 1700000000000 message_types.CLIENT_HEARTBEAT
    (object [("drain", VBool false)]%string)).
Definition heartbeat_text : string := struct_to_string (envelope_fields heartbeat).

Lemma envelope_roundtrip_witness : decode heartbeat_text = Ok heartbeat.
Proof.
  apply (envelope_roundtrip heartbeat heartbeat_text);
    [reflexivity..|vm_compute; split; discriminate|apply Nat.leb_le; reflexivity
    |reflexivity|reflexivity|vm_compute; reflexivity].
Defined.

Lemma decode_bounds_witness : len heartbeat_text <= MAX_FRAME_BYTES.
Proof. apply (decode_bounds heartbeat_text heartbeat). vm_compute. reflexivity. Defined.

Definition challenge (version : Z) : AuthTranscriptInput :=
  {| at_protocol_version := version; at_node_id := "n"; at_instance_id := "i";
     at_session_id := "s"; at_client_nonce := "c"; at_server_nonce := "v"; at_issued_at := 5;
     at_expires_at := 30005; at_capabilities_digest := "d" |}.

Lemma auth_transcript_injective_witness : challenge PROTOCOL_VERSION = challenge 1.
Proof. apply auth_transcript_injective. reflexivity. Defined.
End ProtocolSamples.
