(* ===== verification/UpdateOp.v ===== *)
(** * UpdateOp: the journal of a managed update ([updateop.rs]).

    A journal is the text of its file.  The types of [evidence] and
    [failure_detail] are kept as their JSON values.  The directory of journals
    is the list of operation ids with their files, oldest first. *)
From Stdlib Require Import Lia Sorted.
From stdpp Require Import gmap.
From S2P Require Import Prelude Text Json Identifiers Protocol.

Definition MAX_OPERATION_ID : Z := 64.
Definition KEEP_JOURNALS : nat := 8.

Record ProgressEvent : Type := {
  pr_operation_id : string;
  pr_seq : Z;
  pr_state : string;
  pr_bytes_done : option Z;
  pr_bytes_total : option Z;
  pr_failure_code : option string;
  pr_at : Z;
  pr_evidence : option Value;
  pr_failure_detail : option Value
}.

Definition validate_operation_id (id : string) : Result IdError unit :=
  if (id =? "")%string then Err IdLength
  else if MAX_OPERATION_ID <? len id then Err IdLength
  else if negb (all_chars (fun c => is_ascii_alphanumeric c || one_of "-_" c) id) then Err IdAlphabet
  else Ok tt.

(** ** Derived serialization of one event *)

Definition opt_field {A} (name : string) (f : A -> Value) (o : option A) : list (string * Value) :=
  match o with Some a => [(name, f a)] | None => [] end.

Definition event_fields (e : ProgressEvent) : list (string * Value) :=
  [("operation_id"%string, VString (pr_operation_id e)); ("seq"%string, integer (pr_seq e));
   ("state"%string, VString (pr_state e))]
  ++ opt_field "bytes_done" integer (pr_bytes_done e)
  ++ opt_field "bytes_total" integer (pr_bytes_total e)
  ++ opt_field "failure_code" VString (pr_failure_code e)
  ++ [("at"%string, integer (pr_at e))]
  ++ opt_field "evidence" id (pr_evidence e)
  ++ opt_field "failure_detail" id (pr_failure_detail e).

Definition u64_max : Z := 2 ^ 64 - 1.
(** [+ 1] and [fetch_add(1)] on a [u64]. *)
Definition u64_succ (z : Z) : Z := (z + 1) mod 2 ^ 64.
Definition as_u64' : Value -> option Z := as_integer 0 u64_max.
(** [Option<T>]: [null] is [None]. *)
Definition as_opt {A} (read : Value -> option A) (v : Value) : option (option A) :=
  match v with VNull => Some None | _ => Some <$> read v end.

Definition event_of (fields : list (string * Value)) : option ProgressEvent :=
  op ← required (field as_str "operation_id" fields);
  seq ← required (field as_u64' "seq" fields);
  st ← required (field as_str "state" fields);
  done_ ← optional (field (as_opt as_u64') "bytes_done" fields);
  total ← optional (field (as_opt as_u64') "bytes_total" fields);
  code ← optional (field (as_opt as_str) "failure_code" fields);
  at_ ← required (field as_u64' "at" fields);
  ev ← optional (field (as_opt Some) "evidence" fields);
  detail ← optional (field (as_opt Some) "failure_detail" fields);
  Some {| pr_operation_id := op; pr_seq := seq; pr_state := st; pr_bytes_done := done_;
          pr_bytes_total := total; pr_failure_code := code; pr_at := at_; pr_evidence := ev;
          pr_failure_detail := detail |}.

(** What the types of the source guarantee of an event. *)
Definition in_u64 (z : Z) : Prop := 0 <= z <= u64_max.
Definition json_ok (v : Value) : Prop :=
  (depth v <= 126)%nat /\ integral v = true /\ ordered v = true /\ v <> VNull.
Record event_ok (e : ProgressEvent) : Prop := {
  eo_seq : in_u64 (pr_seq e);
  eo_done : forall z, pr_bytes_done e = Some z -> in_u64 z;
  eo_total : forall z, pr_bytes_total e = Some z -> in_u64 z;
  eo_at : in_u64 (pr_at e);
  eo_evidence : forall v, pr_evidence e = Some v -> json_ok v;
  eo_detail : forall v, pr_failure_detail e = Some v -> json_ok v
}.

(** [Delivered]: the last sequence number confirmed of each operation. *)
Abbreviation Delivered := (gmap string Z).

Section Journals.
Context `{SerdeJson}.

Definition parse_line (line : bytes) : option ProgressEvent :=
  struct_from_str (of_chars line) ≫= event_of.

(** [sort_by_key], stable, then [dedup_by_key] on neighbours. *)
Fixpoint dedup_seq (l : list ProgressEvent) : list ProgressEvent :=
  match l with
  | [] => []
  | e :: l' =>
      match dedup_seq l' with
      | [] => [e]
      | e' :: l'' => if pr_seq e =? pr_seq e' then e :: l'' else e :: e' :: l''
      end
  end.

(** [read_to_string] fails on a file that is not UTF-8. *)
Definition read_journal (file : bytes) : list ProgressEvent :=
  if valid_utf8 file
  then dedup_seq (order_by (fun a b => pr_seq a <=? pr_seq b) (omap parse_line (lines file)))
  else [].

Record Journal : Type := { jn_operation_id : string; jn_next_seq : Z }.

(** The file is created when missing, so it is [] then. *)
Definition Journal_open (operation_id : string) (file : bytes) : Result IdError Journal :=
  match validate_operation_id operation_id with
  | Err e => Err e
  | Ok _ =>
      Ok {| jn_operation_id := operation_id;
            jn_next_seq := match list.last (read_journal file) with
                           | Some e => u64_succ (pr_seq e)
                           | None => 1
                           end |}
  end.

(** How writing one line can end: the file takes it, cannot be opened, or takes
    only its first [n] bytes before the write fails. *)
Inductive Written : Type := Appended | NotOpened | Torn (n : nat).
Inductive JournalError : Type := CannotOpen | CannotAppend.

(** The number is taken before anything is written, and stays taken when the
    writing fails. *)
Definition append_event (st : string) (bytes_ : option (Z * option Z)) (failure_code : option string)
    (evidence failure_detail : option Value) (now : Z) (io : Written) (j : Journal) (file : bytes) :
    Result JournalError ProgressEvent * Journal * bytes :=
  let e := {| pr_operation_id := jn_operation_id j; pr_seq := jn_next_seq j; pr_state := st;
              pr_bytes_done := fst <$> bytes_; pr_bytes_total := bytes_ ≫= snd;
              pr_failure_code := failure_code; pr_at := now; pr_evidence := evidence;
              pr_failure_detail := failure_detail |} in
  let j' := {| jn_operation_id := jn_operation_id j; jn_next_seq := u64_succ (jn_next_seq j) |} in
  let line := chars (struct_to_string (event_fields e)) ++ [NL] in
  match io with
  | NotOpened => (Err CannotOpen, j', file)
  | Torn n => (Err CannotAppend, j', file ++ firstn n line)
  | Appended => (Ok e, j', file ++ line)
  end.

(** [append] and [append_outcome]. *)
Definition append st bytes_ failure_code := append_event st bytes_ failure_code None None.
Definition append_outcome st failure_code evidence failure_detail :=
  append_event st None failure_code evidence failure_detail.

(** ** Delivery *)

Definition seq_for (operation_id : string) (d : Delivered) : Z := default 0 (d !! operation_id).

Definition record (operation_id : string) (seq : Z) (d : Delivered) : Delivered :=
  let entry := default 0 (d !! operation_id) in
  <[operation_id := if entry <? seq then seq else entry]> d.

(** The journals of the directory, oldest first. *)
Definition undelivered (journals : list (string * bytes)) (d : Delivered) : list ProgressEvent :=
  List.concat (List.map (fun '(op, file) =>
    List.filter (fun e => seq_for op d <? pr_seq e) (read_journal file)) journals).

Definition prune_journals (journals : list (string * bytes)) : list (string * bytes) :=
  skipn (length journals - KEEP_JOURNALS) journals.

End Journals.

(** ** One line per event *)

Lemma as_integer_roundtrip lo hi z : lo <= z <= hi -> as_integer lo hi (integer z) = Some z.
Proof. intros Hz. unfold as_integer, integer. destruct (z <? 0); by rewrite !(proj2 (Z.leb_le _ _)) by lia. Qed.

Lemma as_opt_u64 z : in_u64 z -> as_opt as_u64' (integer z) = Some (Some z).
Proof.
  intros Hz. unfold as_opt. assert (as_u64' (integer z) = Some z) as E by (by apply as_integer_roundtrip).
  destruct (integer z) eqn:Ei; try done; by rewrite E.
Qed.

Lemma as_opt_json v : json_ok v -> as_opt Some v = Some (Some v).
Proof. intros (_ & _ & _ & Hn). by destruct v. Qed.

Lemma event_of_fields e : event_ok e -> event_of (event_fields e) = Some e.
Proof.
  intros []. destruct e as [op seq st dn tot code at_ ev det]. cbn in *.
  assert (as_u64' (integer seq) = Some seq) as Hs by (by apply as_integer_roundtrip).
  assert (as_u64' (integer at_) = Some at_) as Ha by (by apply as_integer_roundtrip).
  assert (match dn with Some z => as_opt as_u64' (integer z) = Some (Some z) | None => True end) as Hd
    by (destruct dn; [apply as_opt_u64; auto|done]).
  assert (match tot with Some z => as_opt as_u64' (integer z) = Some (Some z) | None => True end) as Ht
    by (destruct tot; [apply as_opt_u64; auto|done]).
  assert (match ev with Some v => as_opt Some v = Some (Some v) | None => True end) as He
    by (destruct ev; [apply as_opt_json; auto|done]).
  assert (match det with Some v => as_opt Some v = Some (Some v) | None => True end) as Hdt
    by (destruct det; [apply as_opt_json; auto|done]).
  unfold event_of, event_fields.
  destruct dn, tot, code, ev, det; cbn -[as_u64' as_opt integer];
    rewrite ?Hs, ?Ha, ?Hd, ?Ht, ?He, ?Hdt; cbn -[as_u64' as_opt integer];
    rewrite ?Hs, ?Ha, ?Hd, ?Ht, ?He, ?Hdt; done.
Qed.

Section Lines.
Context `{SerdeJsonLaws}.

Definition text_of (e : ProgressEvent) : bytes := chars (struct_to_string (event_fields e)).
Definition file_of (es : list ProgressEvent) : bytes :=
  List.concat (List.map (fun e => text_of e ++ [NL]) es).

Lemma text_one_line e : ~ In NL (text_of e) /\ ~ In CR (text_of e).
Proof. split; intros Hin; by destruct (struct_to_string_one_line (event_fields e) _ Hin). Qed.

Lemma lines_file es s : lines (file_of es ++ s) = List.map text_of es ++ lines s.
Proof.
  induction es as [|e es IH]; [done|]. unfold lines, file_of in *. cbn [List.map List.concat].
  rewrite <- !app_assoc. cbn [app]. destruct (text_one_line e) as [H1 H2].
  rewrite lines_from_line by done. cbn [app]. rewrite strip_cr_none by done. by rewrite IH.
Qed.

Lemma parse_text e : event_ok e -> parse_line (text_of e) = Some e.
Proof.
  intros He. unfold parse_line, text_of. rewrite chars_of_chars, struct_from_str_to_string.
  - by apply event_of_fields.
  - intros f Hf. destruct He. unfold event_fields in Hf.
    rewrite !in_app_iff in Hf. cbn in Hf.
    assert (forall z, (depth (integer z) <= 126)%nat /\ integral (integer z) = true
              /\ ordered (integer z) = true) as Hint.
    { intros z. unfold integer. destruct (z <? 0); (split; [cbn; lia|done]). }
    assert (forall s, (depth (VString s) <= 126)%nat /\ integral (VString s) = true
              /\ ordered (VString s) = true) as Hstr by (intros s; split; [cbn; lia|done]).
    unfold opt_field in Hf.
    repeat match goal with
           | H : _ \/ _ |- _ => destruct H
           | H : In _ (match ?o with _ => _ end) |- _ => destruct o eqn:?; cbn in H
           | H : False |- _ => destruct H
           | H : _ = f |- _ => rewrite <- H; cbn [snd]
           end; auto.
    + by destruct (eo_evidence0 v eq_refl) as (? & ? & ? & _).
    + by destruct (eo_detail0 v eq_refl) as (? & ? & ? & _).
Qed.

(** Events in sequence order. *)
Definition ascending_seq (es : list ProgressEvent) : Prop :=
  StronglySorted (fun a b => pr_seq a < pr_seq b) es.

Lemma dedup_ascending es : ascending_seq es -> dedup_seq es = es.
Proof.
  induction 1 as [|e es Hs IH Hall]; [done|]. cbn. rewrite IH. destruct es as [|e' es]; [done|].
  inversion Hall; subst. destruct (Z.eqb_spec (pr_seq e) (pr_seq e')); [lia|done].
Qed.

Lemma order_ascending es :
  ascending_seq es -> order_by (fun a b => pr_seq a <=? pr_seq b) es = es.
Proof.
  intros Ha. apply order_by_id. induction Ha as [|e es Hs IH Hall]; constructor; [done|].
  eapply List.Forall_impl; [|exact Hall]. intros x Hx. apply Z.leb_le. cbn in Hx. lia.
Qed.

Lemma ascending_sorted es : ascending_seq es -> StronglySorted Z.lt (pr_seq <$> es).
Proof.
  induction 1 as [|e es Hs IH Hf]; [constructor|]. rewrite fmap_cons. constructor; [done|].
  rewrite List.Forall_forall in *. intros z Hz. change (In z (List.map pr_seq es)) in Hz.
  apply in_map_iff in Hz as (x & <- & Hx). by apply Hf.
Qed.

Lemma omap_parse es : (forall e, In e es -> event_ok e) -> omap parse_line (List.map text_of es) = es.
Proof.
  induction es as [|e es IH]; intros Hok; [done|]. cbn. rewrite parse_text by (apply Hok; by left).
  f_equal. apply IH. intros x Hx. apply Hok. by right.
Qed.

Lemma valid_file es s : valid_utf8 (file_of es ++ s) = valid_utf8 s.
Proof.
  induction es as [|e es IH]; [done|]. unfold file_of in *. cbn [List.map List.concat].
  rewrite <- !app_assoc, valid_utf8_app by apply struct_to_string_utf8. exact IH.
Qed.

Lemma read_file es s :
  (forall e, In e es -> event_ok e) -> ascending_seq es ->
  valid_utf8 s = true -> omap parse_line (lines s) = [] ->
  read_journal (file_of es ++ s) = es.
Proof.
  intros Hok Ha Hu Hs. unfold read_journal. rewrite valid_file, Hu. rewrite lines_file, omap_app, Hs, app_nil_r, omap_parse by done.
  by rewrite order_ascending, dedup_ascending.
Qed.

(** ** Sessions: a process opens the journal and appends, then another does *)

Record Report : Type := {
  rt_state : string;
  rt_bytes : option (Z * option Z);
  rt_failure_code : option string;
  rt_evidence : option Value;
  rt_failure_detail : option Value;
  rt_at : Z
}.

Record report_ok (r : Report) : Prop := {
  rt_bytes_ok : forall d t, rt_bytes r = Some (d, t) ->
    in_u64 d /\ forall z, t = Some z -> in_u64 z;
  rt_at_ok : in_u64 (rt_at r);
  rt_evidence_ok : forall v, rt_evidence r = Some v -> json_ok v;
  rt_detail_ok : forall v, rt_failure_detail r = Some v -> json_ok v
}.

(** The event that reports [r] under the number [seq]. *)
Definition event_at (op : string) (seq : Z) (r : Report) : ProgressEvent :=
  {| pr_operation_id := op; pr_seq := seq; pr_state := rt_state r; pr_bytes_done := fst <$> rt_bytes r;
     pr_bytes_total := rt_bytes r ≫= snd; pr_failure_code := rt_failure_code r; pr_at := rt_at r;
     pr_evidence := rt_evidence r; pr_failure_detail := rt_failure_detail r |}.

(** The events of one process whose append succeeded, and the file it leaves. *)
Fixpoint append_all (rs : list (Report * Written)) (j : Journal) (file : bytes) :
    list ProgressEvent * bytes :=
  match rs with
  | [] => ([], file)
  | (r, io) :: rest =>
      let '(res, j', file') := append_event (rt_state r) (rt_bytes r) (rt_failure_code r)
                                 (rt_evidence r) (rt_failure_detail r) (rt_at r) io j file in
      let '(es, file'') := append_all rest j' file' in
      (match res with Ok e => e :: es | Err _ => es end, file'')
  end.

Fixpoint sessions (op : string) (batches : list (list (Report * Written))) (file : bytes) :
    Result IdError (list ProgressEvent * bytes) :=
  match batches with
  | [] => Ok ([], file)
  | rs :: rest =>
      match Journal_open op file with
      | Err e => Err e
      | Ok j =>
          let '(es, file') := append_all rs j file in
          match sessions op rest file' with
          | Ok (es', file'') => Ok (es ++ es', file'')
          | Err e => Err e
          end
      end
  end.

(** Nothing of a line that fails is in the file. *)
Definition whole_lines (io : Written) : Prop := match io with Torn n => n = O | _ => True end.

(** The reports whose writing succeeds. *)
Definition succeeding (rs : list (Report * Written)) : list Report :=
  List.map fst (List.filter (fun x => match snd x with Appended => true | _ => false end) rs).

(** A journal of [es], with ascending numbers from 1 to [top]. *)
Definition journal_of (op : string) (top : Z) (es : list ProgressEvent) : Prop :=
  ascending_seq es
  /\ forall e, In e es -> event_ok e /\ pr_operation_id e = op /\ 1 <= pr_seq e <= top.

Lemma journal_read op top es s :
  journal_of op top es -> valid_utf8 s = true -> omap parse_line (lines s) = [] ->
  read_journal (file_of es ++ s) = es.
Proof.
  intros [Hn Hall] Hu Hs. apply read_file; [|done..]. intros e He. by apply Hall.
Qed.

Lemma journal_open op top es s :
  validate_operation_id op = Ok tt -> journal_of op top es ->
  valid_utf8 s = true -> omap parse_line (lines s) = [] -> 0 <= top < u64_max ->
  exists next, Journal_open op (file_of es ++ s) = Ok {| jn_operation_id := op; jn_next_seq := next |}
    /\ 1 <= next <= top + 1 /\ forall e, In e es -> pr_seq e < next.
Proof.
  intros Hv Hj Hu Hs Hmax. unfold Journal_open. rewrite Hv, (journal_read op top) by done.
  eexists. split; [done|]. destruct Hj as [Ha Hall]. destruct (list.last es) as [e|] eqn:E.
  - apply last_Some in E as [l ->].
    destruct (Hall e) as (_ & _ & He); [apply in_app_iff; right; by left|].
    unfold u64_succ, u64_max in *. rewrite Z.mod_small by lia. split; [lia|].
    intros x [Hx|[<-|[]]]%in_app_iff; [|lia].
    assert (pr_seq x < pr_seq e); [|lia]. clear -Ha Hx. induction l as [|y l IH]; [done|].
    cbn in Ha. inversion Ha as [|? ? Hs Hf]; subst. destruct Hx as [->|Hx]; [|by apply IH].
    rewrite List.Forall_forall in Hf. apply Hf, in_app_iff. right. by left.
  - apply last_None in E as ->. split; [lia|]. by intros e [].
Qed.

(** One more event at the end. *)
Lemma journal_grows op top es next r :
  journal_of op top es -> 1 <= next <= top + 1 -> next <= u64_max -> (forall e, In e es -> pr_seq e < next) ->
  report_ok r -> journal_of op (top + 1) (es ++ [event_at op next r]).
Proof.
  intros [Ha Hall] Hn Hmax Hlt [Hb Hat Hev Hdt]. split.
  - clear -Ha Hlt. induction Ha as [|e es Hs IH Hf]; cbn; [by repeat constructor|].
    constructor; [apply IH; intros x Hx; apply Hlt; by right|].
    apply List.Forall_forall. intros x [Hx|[<-|[]]]%in_app_iff.
    + rewrite List.Forall_forall in Hf. by apply Hf.
    + cbn. apply Hlt. by left.
  - intros x [Hx|[<-|[]]]%in_app_iff.
    { destruct (Hall x Hx) as (? & ? & ?). split; [done|]; split; [done|lia]. }
    split; [|cbn; split; [done|lia]]. split; cbn; try done.
    + unfold in_u64. lia.
    + intros z Hz. destruct (rt_bytes r) as [[d t]|]; [|done]. injection Hz as <-.
      by destruct (Hb d t eq_refl).
    + intros z Hz. destruct (rt_bytes r) as [[d t]|]; [|done]. cbn in Hz.
      destruct (Hb d t eq_refl) as [_ Ht]. by apply Ht.
Qed.

Lemma journal_top op top top' es : journal_of op top es -> top <= top' -> journal_of op top' es.
Proof.
  intros [Ha Hall] Ht. split; [done|]. intros e He. destruct (Hall e He) as (? & ? & ?).
  split; [done|]; split; [done|lia].
Qed.

Lemma file_of_snoc es e : file_of (es ++ [e]) = file_of es ++ text_of e ++ [NL].
Proof. unfold file_of. rewrite map_app, concat_app. cbn. by rewrite app_nil_r. Qed.

(** Events that report what was reported. *)
Definition reports (op : string) : list ProgressEvent -> list Report -> Prop :=
  List.Forall2 (fun e r => e = event_at op (pr_seq e) r).

Lemma append_all_spec op rs : forall es top next,
  journal_of op top es -> 1 <= next <= top + 1 -> (forall e, In e es -> pr_seq e < next) ->
  (forall r io, In (r, io) rs -> report_ok r /\ whole_lines io) ->
  top + Z.of_nat (length rs) < u64_max ->
  exists news, append_all rs {| jn_operation_id := op; jn_next_seq := next |} (file_of es)
               = (news, file_of (es ++ news))
    /\ journal_of op (top + Z.of_nat (length rs)) (es ++ news) /\ reports op news (succeeding rs).
Proof.
  induction rs as [|[r io] rs IH]; intros es top next Hj Hn Hlt Hok Hmax; cbn [append_all].
  { exists []. rewrite app_nil_r, Z.add_0_r. split; [done|]. split; [done|constructor]. }
  destruct (Hok r io) as [Hr Hio]; [by left|]. cbn [length] in *.
  assert (u64_succ next = next + 1) as Hsucc by (unfold u64_succ, u64_max in *; rewrite Z.mod_small; lia).
  assert (forall r' io', In (r', io') rs -> report_ok r' /\ whole_lines io') as Hok' by (intros; apply Hok; by right).
  assert (forall res file', file' = file_of es ->
    exists news, (let '(es', file'') := append_all rs {| jn_operation_id := op; jn_next_seq := next + 1 |} file' in
                  (match res : Result JournalError ProgressEvent with Ok e => e :: es' | Err _ => es' end, file''))
        = (match res with Ok e => e :: news | Err _ => news end, file_of (es ++ news))
      /\ journal_of op (top + Z.of_nat (S (length rs))) (es ++ news) /\ reports op news (succeeding rs)) as Hfail.
  { intros res file' ->. destruct (IH es (top + 1) (next + 1)) as (news & E & Hj' & Hrep);
      [apply (journal_top op top); [done|lia]|lia|intros e He; specialize (Hlt e He); lia|done|lia|].
    rewrite E. exists news. split; [done|]. split; [|done]. eapply journal_top; [exact Hj'|lia]. }
  unfold append_event. cbn [jn_operation_id jn_next_seq]. rewrite Hsucc. destruct io as [| |n].
  - change {| pr_operation_id := op |} with (event_at op next r).
    change (chars _) with (text_of (event_at op next r)). rewrite <- file_of_snoc.
    destruct (IH (es ++ [event_at op next r]) (top + 1) (next + 1)) as (news & E & Hj' & Hrep); [..|done|lia|].
    + apply journal_grows; try done; lia.
    + lia.
    + intros e [He|[<-|[]]]%in_app_iff; [specialize (Hlt e He)|cbn]; lia.
    + rewrite E. exists (event_at op next r :: news). rewrite <- app_assoc in *. split; [done|].
      split; [eapply journal_top; [exact Hj'|lia]|]. by constructor.
  - by apply (Hfail (Err CannotOpen)).
  - cbn in Hio. subst n. cbn [firstn]. rewrite app_nil_r. by apply (Hfail (Err CannotAppend)).
Qed.

(** Ascending numbers in a range as long as the list are all of the range. *)
Lemma ascending_length es lo hi :
  ascending_seq es -> (forall e, In e es -> lo <= pr_seq e <= hi) -> Z.of_nat (length es) <= Z.max 0 (hi - lo + 1).
Proof.
  intros Ha. revert lo. induction Ha as [|e es Hs IH Hf]; intros lo Hall; [cbn; lia|].
  rewrite List.Forall_forall in Hf. pose proof (Hall e ltac:(by left)).
  specialize (IH (pr_seq e + 1)). cbn [length]. enough (Z.of_nat (length es) <= Z.max 0 (hi - (pr_seq e + 1) + 1)) by lia.
  apply IH. intros x Hx. specialize (Hf x Hx). cbn in Hf. pose proof (Hall x ltac:(by right)). lia.
Qed.

Lemma ascending_seqZ es lo :
  ascending_seq es -> (forall e, In e es -> lo <= pr_seq e <= lo + Z.of_nat (length es) - 1) ->
  pr_seq <$> es = seqZ lo (Z.of_nat (length es)).
Proof.
  intros Ha. revert lo. induction Ha as [|e es Hs IH Hf]; intros lo Hall; [done|].
  rewrite List.Forall_forall in Hf. cbn [length] in *. pose proof (Hall e ltac:(by left)).
  pose proof (ascending_length es (pr_seq e + 1) (lo + Z.of_nat (length es)) Hs) as Hl.
  assert (forall x, In x es -> pr_seq e + 1 <= pr_seq x <= lo + Z.of_nat (length es)) as Hr.
  { intros x Hx. specialize (Hf x Hx). cbn in Hf. pose proof (Hall x ltac:(by right)). lia. }
  specialize (Hl Hr). assert (pr_seq e = lo) as E by lia.
  rewrite seqZ_cons by lia. rewrite fmap_cons, E. f_equal.
  replace (Z.pred (Z.of_nat (S (length es)))) with (Z.of_nat (length es)) by lia.
  apply IH. intros x Hx. specialize (Hr x Hx). lia.
Qed.

Lemma succeeding_app a b : succeeding (a ++ b) = succeeding a ++ succeeding b.
Proof. unfold succeeding. by rewrite List.filter_app, map_app. Qed.

Lemma sessions_spec op batches : forall es top,
  validate_operation_id op = Ok tt ->
  (forall r io, In (r, io) (List.concat batches) -> report_ok r /\ whole_lines io) ->
  journal_of op top es -> 0 <= top -> top + Z.of_nat (length (List.concat batches)) < u64_max ->
  exists news, sessions op batches (file_of es) = Ok (news, file_of (es ++ news))
    /\ journal_of op (top + Z.of_nat (length (List.concat batches))) (es ++ news)
    /\ reports op news (succeeding (List.concat batches)).
Proof.
  induction batches as [|rs rest IH]; intros es top Hv Hok Hj Ht Hmax; cbn [sessions List.concat] in *.
  { exists []. rewrite app_nil_r, Z.add_0_r. split; [done|]. split; [done|constructor]. }
  rewrite length_app, Nat2Z.inj_add in *.
  destruct (journal_open op top es [] Hv Hj eq_refl eq_refl) as (next & Ho & Hn & Hlt); [lia|].
  rewrite app_nil_r in Ho. rewrite Ho.
  destruct (append_all_spec op rs es top next Hj Hn Hlt) as (news & Ea & Hj' & Hrep); [|lia|].
  { intros r io Hin. apply Hok, in_app_iff. by left. }
  rewrite Ea. destruct (IH (es ++ news) (top + Z.of_nat (length rs)) Hv) as (more & Es & Hj2 & Hrep2); [|done|lia|lia|].
  { intros r io Hin. apply Hok, in_app_iff. by right. }
  rewrite Es. exists (news ++ more). rewrite app_assoc, Z.add_assoc, succeeding_app. split; [done|].
  split; [done|]. by apply List.Forall2_app.
Qed.

End Lines.

(** C37. An update's history survives the processes that write it: however many
    processes open the journal in turn, and whichever of their appends fail, as long
    as a failing one leaves no part of its line in the file, the journal reads back
    exactly the events whose append succeeded, with what was reported in each, in
    order, under numbers that ascend from 1 and are never used twice across the
    handovers; when no append fails the numbers have no gap. (A failed append keeps
    the number it took. An append that fails after part of its line was written is
    [torn_line_swallows_next_event].) *)
Theorem update_journal_survives_handover `{SerdeJsonLaws} op batches :
  validate_operation_id op = Ok tt ->
  (forall r io, In (r, io) (List.concat batches) -> report_ok r /\ whole_lines io) ->
  Z.of_nat (length (List.concat batches)) < u64_max ->
  exists es file, sessions op batches [] = Ok (es, file) /\ read_journal file = es
    /\ reports op es (succeeding (List.concat batches))
    /\ StronglySorted Z.lt (pr_seq <$> es)
    /\ (forall e, In e es -> 1 <= pr_seq e <= Z.of_nat (length (List.concat batches)))
    /\ (Forall (fun x => snd x = Appended) (List.concat batches) ->
        pr_seq <$> es = seqZ 1 (Z.of_nat (length (List.concat batches)))).
Proof.
  intros Hv Hok Hmax.
  destruct (sessions_spec op batches [] 0 Hv Hok) as (es & Hs & Hj & Hrep); [|lia|lia|].
  { split; [constructor|by intros e []]. }
  cbn [app] in *. rewrite Z.add_0_l in Hj. exists es, (file_of es). split; [exact Hs|].
  split; [rewrite <- (app_nil_r (file_of es)); by eapply (journal_read op)|]. split; [done|].
  destruct Hj as [Ha Hall]. split; [by apply ascending_sorted|].
  split; [intros e He; by destruct (Hall e He) as (_ & _ & ?)|].
  intros Hf. assert (length es = length (List.concat batches)) as Hl.
  { rewrite (List.Forall2_length Hrep). unfold succeeding. rewrite length_map.
    clear -Hf. induction Hf as [|[r io] l Hx _ IH]; [done|]. cbn in Hx. subst io. cbn. by rewrite IH. }
  rewrite <- Hl. apply ascending_seqZ; [done|]. intros e He.
  destruct (Hall e He) as (_ & _ & ?). rewrite Hl. lia.
Qed.

(** A torn last line costs more than itself.  Cut between two characters, it
    also costs the event appended next: that append continues on the same line,
    and when the line so made does not parse, the event is not in the journal
    although its append succeeded.  Cut inside a character, it makes the whole
    file unreadable as text: every earlier event is gone from what is read, the
    next process numbers from 1 again, and nothing it appends is read either. *)
Theorem torn_line_swallows_next_event `{SerdeJsonLaws} op top es torn r j e j' file' :
  validate_operation_id op = Ok tt -> journal_of op top es -> 0 <= top < u64_max ->
  ~ In NL torn -> ~ In CR torn -> omap parse_line (lines torn) = [] ->
  Journal_open op (file_of es ++ torn) = Ok j ->
  append_event (rt_state r) (rt_bytes r) (rt_failure_code r) (rt_evidence r) (rt_failure_detail r)
    (rt_at r) Appended j (file_of es ++ torn) = (Ok e, j', file') ->
  (valid_utf8 torn = true -> parse_line (torn ++ text_of e) = None ->
   (forall x, In x es -> pr_seq x < pr_seq e) /\ read_journal file' = es)
  /\ (valid_utf8 torn = false ->
   pr_seq e = 1 /\ read_journal (file_of es ++ torn) = [] /\ read_journal file' = []).
Proof.
  intros Hv Hj Hmax Hn Hc Ht Ho Ha. unfold append_event in Ha. injection Ha as He _ <-.
  rewrite He, <- app_assoc. change (chars (struct_to_string (event_fields e))) with (text_of e).
  destruct (text_one_line e) as [H1 H2]. split.
  - intros Hu Hp. destruct (journal_open op top es torn) as (next & Ho' & _ & Hlt); [done..|].
    rewrite Ho' in Ho. injection Ho as <-.
    split; [by rewrite <- He|]. apply (journal_read op top); [done|..].
    + by rewrite !valid_utf8_app by (done || apply struct_to_string_utf8).
    + rewrite (app_assoc torn). unfold lines. rewrite lines_from_line.
      * cbn. rewrite strip_cr_none by (rewrite in_app_iff; tauto). by rewrite Hp.
      * rewrite in_app_iff. tauto.
  - intros Hu. unfold Journal_open, read_journal in *. rewrite !valid_file in *. rewrite Hu, Hv in Ho.
    injection Ho as <-. split; [by rewrite <- He|]. rewrite Hu. split; [done|].
    rewrite valid_utf8_torn; [done..| |by destruct (text_of e)].
    by rewrite valid_utf8_app by apply struct_to_string_utf8.
Qed.

(** Acknowledging update progress never loses an event and never repeats an
    acknowledged one: after [record op seq] an event of a journal of [op] is still
    to be sent exactly when it was before and its number is above [seq], and the
    other operations' events are unaffected. *)
Theorem update_progress_delivery `{SerdeJson} op seq journals d e o file :
  In (o, file) journals ->
  (forall o' f', In (o', f') journals -> forall x, In x (read_journal f') -> pr_operation_id x = o') ->
  In e (read_journal file) ->
  (In e (undelivered journals (record op seq d)) <->
   In e (undelivered journals d) /\ (o = op -> seq < pr_seq e)).
Proof.
  intros Hin Hall He.
  assert (forall d', In e (undelivered journals d') <-> seq_for o d' < pr_seq e) as Hu.
  { intros d'. unfold undelivered. rewrite in_concat. split.
    - intros (l & Hl & Hel). apply in_map_iff in Hl as ([o' f'] & <- & Hj).
      apply filter_In in Hel as [Hx Hlt]. apply Z.ltb_lt in Hlt.
      replace o with o'; [done|]. rewrite <- (Hall _ _ Hj _ Hx). by apply (Hall _ file).
    - intros Hlt. eexists. split; [apply in_map_iff; exists (o, file); split; [done|exact Hin]|].
      apply filter_In. split; [done|]. by apply Z.ltb_lt. }
  rewrite !Hu. unfold seq_for, record. destruct (decide (o = op)) as [->|Hne].
  - rewrite lookup_insert_eq. cbn. destruct (Z.ltb_spec (default 0 (d !! op)) seq); naive_solver lia.
  - rewrite lookup_insert_ne by done. naive_solver.
Qed.

(** ** The theorems at a sample update *)

Module UpdateSamples.
Import Codec.

Definition report (st : string) : Report :=
  {| rt_state := st; rt_bytes := Some (1, None); rt_failure_code := None; rt_evidence := None;
     rt_failure_detail := None; rt_at := 7 |}.

Lemma report_fine st : report_ok (report st).
Proof.
  split; cbn.
  - intros d t [= <- <-]. split; [vm_compute; split; discriminate|discriminate].
  - vm_compute. split; discriminate.
  - discriminate.
  - discriminate.
Qed.

(** The updater hands over to the binary it installed; one of its appends finds
    the file unopenable. *)
Definition handed_over : list (list (Report * Written)) :=
  [[(report "downloading", Appended); (report "verifying", NotOpened); (report "staged", Appended)];
   [(report "complete", Appended)]].

Lemma update_journal_survives_handover_witness :
  exists es file, sessions "op-1" handed_over [] = Ok (es, file) /\ read_journal file = es
    /\ es = [event_at "op-1" 1 (report "downloading"); event_at "op-1" 3 (report "staged");
              event_at "op-1" 4 (report "complete")].
Proof.
  destruct (update_journal_survives_handover "op-1" handed_over)
    as (es & file & Hs & Hr & _); [reflexivity| |vm_compute; reflexivity|].
  - intros r io Hin. cbn in Hin.
    repeat (destruct Hin as [Hin|Hin]; [injection Hin as <- <-; split; [apply report_fine|exact I]|]).
    destruct Hin.
  - exists es, file. split; [exact Hs|]. split; [exact Hr|]. vm_compute in Hs.
    injection Hs as <- _. reflexivity.
Defined.

(** Half of a two-byte character, and a complete line that is no event. *)
Definition torn : bytes := [Ascii.ascii_of_N 0xC3].
Definition cut : bytes := $"0".
Definition journal1 : Journal := {| jn_operation_id := "op-1"; jn_next_seq := 1 |}.
Definition completed_at1 : ProgressEvent := event_at "op-1" 1 (report "complete").
Definition after (tail : bytes) : bytes :=
  snd (append_event "complete" (Some (1, None)) None None None 7 Appended journal1 tail).
Definition journal2 : Journal := {| jn_operation_id := "op-1"; jn_next_seq := 2 |}.

Lemma torn_line_swallows_next_event_witness :
  (pr_seq completed_at1 = 1 /\ read_journal torn = [] /\ read_journal (after torn) = [])
  /\ read_journal (after cut) = [].
Proof.
  assert (journal_of "op-1" 0 []) as Hj by (split; [constructor|intros e []]).
  split.
  - refine (proj2 (torn_line_swallows_next_event "op-1" 0 [] torn (report "complete") journal1
             completed_at1 journal2 (after torn) _ Hj _ _ _ _ _ _) _);
      first [apply not_in_chars; reflexivity | vm_compute; reflexivity | by vm_compute].
  - refine (proj2 (proj1 (torn_line_swallows_next_event "op-1" 0 [] cut (report "complete") journal1
             completed_at1 journal2 (after cut) _ Hj _ _ _ _ _ _) _ _));
      first [apply not_in_chars; reflexivity | vm_compute; reflexivity | by vm_compute].
Defined.

Definition one_event : ProgressEvent * bytes :=
  (event_at "op-1" 1 {| rt_state := "complete"; rt_bytes := None; rt_failure_code := None;
                        rt_evidence := None; rt_failure_detail := None; rt_at := 7 |},
   snd (append_event "complete" None None None None 7 Appended journal1 [])).

Lemma update_progress_delivery_witness :
  ~ In (fst one_event) (undelivered [("op-1"%string, snd one_event)] (record "op-1" 1 ∅)).
Proof.
  assert (read_journal (snd one_event) = [fst one_event]) as Hr by (vm_compute; reflexivity).
  assert (forall o' f', In (o', f') [("op-1"%string, snd one_event)] ->
            forall x, In x (read_journal f') -> pr_operation_id x = o') as Hown.
  { intros o' f' [E|[]] x Hx. assert (o' = "op-1"%string) as -> by congruence.
    assert (f' = snd one_event) as -> by congruence. rewrite Hr in Hx.
    destruct Hx as [<-|[]]. reflexivity. }
  assert (In (fst one_event) (read_journal (snd one_event))) as He by (rewrite Hr; by left).
  assert (In ("op-1"%string, snd one_event) [("op-1"%string, snd one_event)]) as Hj by (by left).
  pose proof (update_progress_delivery "op-1" 1 _ ∅ _ "op-1" _ Hj Hown He) as [Hd _].
  intros Hin. destruct (Hd Hin) as [_ Hlt]. specialize (Hlt eq_refl). vm_compute in Hlt. discriminate.
Defined.
End UpdateSamples.
