(* ===== verification/Channel.v ===== *)
(** * Channel: serving one session of the control channel ([control.rs]): the
    serving loop, frame dispatch, admitting, executing and durably answering a
    command, and the pumps.

    What a command does belongs to the service behind the channel: the class
    [Service] lists what the channel asks of it.  Everything the channel itself
    does to the registry and the socket is spelled out.

    The rest of the node works on the same registry at the same time, and a
    session can end at any moment: the socket may break, the daemon may be
    killed.  [ch_fate] decides both, one entry per action (a send, a registry
    call, a service call): [Some f] lets the action happen after the rest of the
    node has done [f]; [None], or no entry left, stops the handler right there
    with the state reached so far.  A registry method is one action.  Metrics
    and log lines are not modelled. *)
From Stdlib Require Import Lia.
From S2P Require Import Prelude Text Json RunState Redact Schema Registry RegistryFacts Evolution.
From S2P Require Import Remote RemoteFacts Protocol UpdateOp.

Definition OUTBOX_COMMAND_RESULT : string := "command.result".
Definition OUTBOX_TASK_REPORT : string := "task.report".
Definition RUN_ENDING_EVENTS : list string := ["asterism.run.terminal"; "asterism.reconciled"]%string.

(** The uuid and the clock reading of the n-th action, and the digest. *)
Class Environment : Type := {
  fresh_id : nat -> string;
  clock : nat -> Z;
  sha256 : string -> list Z
}.

(** The host state [W] and what the channel asks of the service.  Running tasks,
    logins, workers and the files of the update journal are part of [W].  A
    command that gives no outcome ended the task that serves the channel. *)
Class Service (W : Type) : Type := {
  execute : RemoteCommand -> W * Db -> option (Result ProtocolError Value) * (W * Db);
  apply_finished_reauthorization : W * Db -> W * Db;
  deliverable_device_code : W -> option DeviceDelivery * W;
  device_delivery_sent : DeviceDelivery -> W -> W;
  device_delivery_acknowledged : string -> W -> W;
  cancel_undelivered : bool -> W -> W;
  drain_task_board : string -> W * Db -> W * Db;
  pump_task_boards : W * Db -> W * Db;
  heartbeat_payload : W * Db -> Value;
  journals : W -> list (string * bytes);
  delivered : W -> Delivered;
  save_delivered : Delivered -> W -> W
}.

(** [ch_attempted] records each command whose execution was begun. *)
Record Channel (W : Type) : Type := {
  ch_db : Db;
  ch_host : W;
  ch_fate : list (option (W * Db -> W * Db));
  ch_made : nat;
  ch_sent : list Envelope;
  ch_attempted : list RemoteCommand
}.
Arguments ch_db {W} c.
Arguments ch_host {W} c.
Arguments ch_fate {W} c.
Arguments ch_made {W} c.
Arguments ch_sent {W} c.
Arguments ch_attempted {W} c.

Inductive ChannelError : Type :=
| Interrupted
| FrameRefused
| RegistryFailure (e : RemoteError)
| MalformedAck
| ReportedByPeer (code message : string)
| SessionClosed
| SocketFailure
| HeartbeatTimeout.

(** [serde_json::from_value] into [RemoteCommand]; a missing payload is [null]. *)
Definition command_of (v : Value) : option RemoteCommand :=
  fields ← as_object v;
  id ← required (field as_str "command_id" fields);
  name ← required (field as_str "command" fields);
  project ← optional (field as_opt_str "project_id" fields);
  let body := match field Some "payload" fields with Present b => b | _ => VNull end in
  Some {| command_id := id; command := name; command_project_id := project;
          command_payload := body |}.

(** [EventAck]. *)
Definition event_ack_of (v : Value) : option (string * Z) :=
  fields ← as_object v;
  run ← required (field as_str "run_id" fields);
  seq ← required (field as_i64 "acked_seq" fields);
  Some (run, seq).

Definition str_at (k : string) (v : Value) : option string :=
  match get k v with Some x => as_str x | None => None end.

(** Only failures of the registry leave the session open. *)
Definition is_storage_error (e : ChannelError) : bool :=
  match e with RegistryFailure (RemoteConstraint _) => true | _ => false end.

Section Session.
Context {W : Type} `{SerdeJson} `{ErrorText} `{Environment} `{Service W}.

Implicit Types c : Channel W.
Abbreviation Act := (M ChannelError (Channel W)).

(** ** Actions *)

Definition action {A} (f : Channel W -> Result ChannelError A * Channel W) : Act A :=
  fun c =>
    let rest := List.tl (ch_fate c) in
    match ch_fate c with
    | Some g :: _ =>
        let w := g (ch_host c, ch_db c) in
        f {| ch_db := snd w; ch_host := fst w; ch_fate := rest; ch_made := S (ch_made c);
             ch_sent := ch_sent c; ch_attempted := ch_attempted c |}
    | _ =>
        (Err Interrupted,
         {| ch_db := ch_db c; ch_host := ch_host c; ch_fate := rest; ch_made := ch_made c;
            ch_sent := ch_sent c; ch_attempted := ch_attempted c |})
    end.

Definition with_db (db : Db) c : Channel W :=
  {| ch_db := db; ch_host := ch_host c; ch_fate := ch_fate c; ch_made := ch_made c;
     ch_sent := ch_sent c; ch_attempted := ch_attempted c |}.
Definition with_world (w : W * Db) c : Channel W :=
  {| ch_db := snd w; ch_host := fst w; ch_fate := ch_fate c; ch_made := ch_made c;
     ch_sent := ch_sent c; ch_attempted := ch_attempted c |}.
Definition with_sent (e : Envelope) c : Channel W :=
  {| ch_db := ch_db c; ch_host := ch_host c; ch_fate := ch_fate c; ch_made := ch_made c;
     ch_sent := ch_sent c ++ [e]; ch_attempted := ch_attempted c |}.
Definition with_attempt (cmd : RemoteCommand) c : Channel W :=
  {| ch_db := ch_db c; ch_host := ch_host c; ch_fate := ch_fate c; ch_made := ch_made c;
     ch_sent := ch_sent c; ch_attempted := ch_attempted c ++ [cmd] |}.

(** A registry call, at the current clock reading. *)
Definition registry {A} (m : Z -> M RemoteError Db A) : Act A :=
  action (fun c => match m (clock (ch_made c)) (ch_db c) with
                   | (Ok a, db) => (Ok a, with_db db c)
                   | (Err e, db) => (Err (RegistryFailure e), with_db db c)
                   end).

(** [Registry::open] scrubs device codes out of old history; a scrub that fails
    is only reported. *)
Definition opened (db : Db) : Db := snd (scrub_device_authorization_history true db).
Definition open_registry : Act unit := registry (fun _ db => (Ok tt, opened db)).

(** A call of the service. *)
Definition on_host (f : W * Db -> W * Db) : Act unit :=
  action (fun c => (Ok tt, with_world (f (ch_host c, ch_db c)) c)).
Definition on_service (f : W -> W) : Act unit := on_host (fun w => (f (fst w), snd w)).

(** [Envelope::new], [correlate] and [send]: a frame over the limit is refused
    before anything is written. *)
Definition send (kind : string) (body : Value) (correlation : option string) : Act unit :=
  action (fun c =>
    let e := Envelope_new (fresh_id (ch_made c)) (clock (ch_made c)) kind body in
    let e := match correlation with Some id => correlate id e | None => e end in
    match encode e with
    | Some _ => (Ok tt, with_sent e c)
    | None => (Err FrameRefused, c)
    end).

Definition send_error (err : ProtocolError) (correlation : option string) : Act unit :=
  send message_types.ERROR
    (object [("code", VString (ErrorCode.as_str (pe_code err)));
             ("message", VString (pe_message err))]%string) correlation.

(** Runs a command.  An interruption may come at any point of it, so the
    attempt is recorded first. *)
Definition run_command (cmd : RemoteCommand) : Act (Result ProtocolError Value) :=
  fun c => action (fun c => let '(outcome, w) := execute cmd (ch_host c, ch_db c) in
                            (match outcome with Some r => Ok r | None => Err Interrupted end, with_world w c))
                  (with_attempt cmd c).

(** A device code is sent once, after its login was told to expect the
    confirmation; a code whose frame cannot be sent cancels its login. *)
Definition deliver_device_authorization (d : DeviceDelivery) : Act unit :=
  on_service (device_delivery_sent d) ;;;
  fun c =>
    match send message_types.CLIENT_DEVICE_AUTHORIZATION (frame_payload d)
            (Some (dd_command_id d)) c with
    | (Ok _, c') => (Ok tt, c')
    | (Err e, c') => (Err e, with_world (cancel_undelivered true (ch_host c'), ch_db c') c')
    end.

Definition deliver_ready_device_code : Act unit :=
  let! ready := action (fun c => let '(ready, w) := deliverable_device_code (ch_host c) in
                                 (Ok ready, with_world (w, ch_db c) c)) in
  match ready with
  | None => ret tt
  | Some d => deliver_device_authorization d
  end.

Definition settle_logins : Act unit :=
  on_host apply_finished_reauthorization ;;; deliver_ready_device_code.

(** ** Outbox *)

Definition entry_type (e : OutboxEntry) : string :=
  if (oe_kind e =? OUTBOX_TASK_REPORT)%string then message_types.CLIENT_TASK_REPORT
  else message_types.CLIENT_COMMAND_RESULT.

Fixpoint send_entries (entries : list OutboxEntry) : Act unit :=
  match entries with
  | [] => ret tt
  | e :: rest => send (entry_type e) (oe_payload e) (oe_correlation_id e) ;;; send_entries rest
  end.

Definition flush_outbox : Act unit :=
  open_registry ;;;
  let! entries := registry (fun _ => gets (pending_outbox 64)) in
  send_entries entries.

(** ** Subscriptions *)

Definition delivery (s : EventSubscription) (e : StoredEvent) : Value :=
  object [("project_id", VString (es_project_id s)); ("run_id", VString (se_run_id e));
          ("seq", integer (se_seq e)); ("event_type", VString (se_event_type e));
          ("recorded_at", integer (se_recorded_at e)); ("payload", se_payload e)]%string.

Definition is_run_ending_event (event_type : string) : bool :=
  List.existsb (String.eqb event_type) RUN_ENDING_EVENTS.

Fixpoint pump_events (s : EventSubscription) (events : list StoredEvent) : Act unit :=
  match events with
  | [] => ret tt
  | e :: rest =>
      (if is_run_ending_event (se_event_type e) then on_host (drain_task_board (se_run_id e)) else ret tt) ;;;
      send message_types.CLIENT_EVENT (delivery s e) None ;;;
      pump_events s rest
  end.

Fixpoint pump_each (subs : list EventSubscription) : Act unit :=
  match subs with
  | [] => ret tt
  | s :: rest =>
      let! events := registry (fun _ => gets (events_since (es_run_id s) (es_acked_seq s) 128)) in
      pump_events s events ;;;
      pump_each rest
  end.

Definition pump_subscriptions : Act unit :=
  open_registry ;;;
  let! subs := registry (fun _ => gets subscriptions) in
  pump_each subs.

(** ** Commands *)

Definition result_body (r : RemoteCommandRecord) (deduplicated : bool) : Value :=
  object ([("command_id", VString (rc_command_id r)); ("state", VString (rc_state r));
           ("result", null_or id (rc_response_payload r));
           ("error_code", null_or VString (rc_error_code r));
           ("error_message", null_or VString (rc_error_message r))]%string
          ++ (if deduplicated then [("deduplicated"%string, VBool true)] else [])).

Definition answer (r : RemoteCommandRecord) (deduplicated : bool) : Act unit :=
  registry (enqueue_outbox OUTBOX_COMMAND_RESULT (Some (rc_command_id r))
              (result_body r deduplicated)) ;;; ret tt.

Definition handle_command (e : Envelope) : Act unit :=
  let correlation := Some (message_id e) in
  match command_of (payload e) with
  | None => send_error {| pe_code := MalformedFrame; 
                 pe_message := "malformed command: " +:+ value_error (payload e) |} correlation
  | Some cmd =>
      match validate cmd with
      | Err err => send_error err correlation
      | Ok _ =>
          open_registry ;;;
          let! depth := registry (fun _ => gets outbox_depth) in
          if MAX_OUTBOX_DEPTH <=? depth
          then send_error {| pe_code := Internal;
                 pe_message := "the response outbox is full; refusing new commands" |} correlation
          else
            let! admission := registry (admit_remote_command (command_id cmd) (command cmd)
                                (command_project_id cmd) (fingerprint sha256 cmd)) in
            match admission with
            | PayloadMismatch _ =>
                send_error {| pe_code := DuplicatePayloadMismatch;
                  pe_message := "this command id was already used with a different payload" |}
                  correlation
            | DuplicateCommand r => answer r true ;;; flush_outbox
            | Fresh _ =>
                send message_types.CLIENT_COMMAND_ACCEPTED
                  (object [("command_id", VString (command_id cmd))]%string) correlation ;;;
                registry (set_remote_command_state (command_id cmd) Executing) ;;;
                let! outcome := run_command cmd in
                open_registry ;;;
                let! r := registry (match outcome with
                  | Ok v => complete_remote_command (command_id cmd) CmdCompleted (Some v) None None
                  | Err err => complete_remote_command (command_id cmd) CmdFailed None
                                 (Some (ErrorCode.as_str (pe_code err))) (Some (pe_message err))
                  end) in
                answer r false ;;;
                settle_logins ;;;
                flush_outbox
            end
      end
  end.

(** ** Frames *)

Definition acknowledge (k : string) (v : Value) : Act unit :=
  match str_at k v with
  | Some id => open_registry ;;; registry (acknowledge_outbox_correlation id) ;;; ret tt
  | None => ret tt
  end.

Definition acknowledge_device_code (v : Value) : Act unit :=
  match str_at "command_id" v with
  | Some id => on_service (device_delivery_acknowledged id)
  | None => ret tt
  end.

(** The cursor is loaded, advanced and saved. *)
Definition record_update_progress_ack (v : Value) : Act unit :=
  match str_at "operation_id" v with
  | None => ret tt
  | Some operation_id =>
      match get "seq" v ≫= as_u64 with
      | None => ret tt
      | Some seq => on_service (fun w => save_delivered (record operation_id seq (delivered w)) w)
      end
  end.

Definition dispatch_frame (e : Envelope) : Act unit :=
  let kind := message_type e in
  if (kind =? message_types.SERVER_HEARTBEAT_ACK)%string then ret tt
  else if (kind =? message_types.SERVER_COMMAND)%string then handle_command e
  else if (kind =? message_types.SERVER_COMMAND_RESULT_ACK)%string
  then acknowledge "command_id" (payload e)
  else if (kind =? message_types.SERVER_TASK_REPORT_ACK)%string
  then acknowledge "report_id" (payload e)
  else if (kind =? message_types.SERVER_DEVICE_AUTHORIZATION_ACK)%string
  then acknowledge_device_code (payload e)
  else if (kind =? message_types.SERVER_UPDATE_PROGRESS_ACK)%string
  then record_update_progress_ack (payload e)
  else if (kind =? message_types.SERVER_EVENT_ACK)%string then
    match event_ack_of (payload e) with
    | None => fail MalformedAck
    | Some (run, seq) => open_registry ;;; registry (acknowledge_events run seq)
    end
  else if (kind =? message_types.ERROR)%string
  then fail (ReportedByPeer (default "unknown" (str_at "code" (payload e)))
                            (default "no detail" (str_at "message" (payload e))))
  else send_error {| pe_code := UnknownMessageType; 
                     pe_message := "unsupported message type " +:+ debug_str kind |}
         (Some (message_id e)).

Definition handle_frame (text : string) : Act unit :=
  match decode text with
  | Err err => send_error err None
  | Ok e =>
      fun c => match dispatch_frame e c with
               | (Ok _, c') => (Ok tt, c')
               | (Err err, c') =>
                   if is_storage_error err
                   then send_error {| pe_code := Internal;
                          pe_message := "the Node could not record this command durably" |}
                          (Some (message_id e)) c'
                   else (Err err, c')
               end
  end.

(** ** The serving loop *)

(** Journalled update progress the Control Plane has not confirmed, at most 32
    events a tick. *)
Fixpoint send_progress (events : list ProgressEvent) : Act unit :=
  match events with
  | [] => ret tt
  | e :: rest =>
      send message_types.CLIENT_UPDATE_PROGRESS (object (event_fields e)) None ;;;
      send_progress rest
  end.

Definition flush_update_progress : Act unit :=
  let! pending := action (fun c =>
    (Ok (undelivered (journals (ch_host c)) (delivered (ch_host c))), c)) in
  send_progress (firstn 32 pending).

(** [survive_storage_failure]. *)
Definition survive (m : Act unit) : Act unit :=
  fun c => match m c with
           | (Err e, c') => if is_storage_error e then (Ok tt, c') else (Err e, c')
           | r => r
           end.

Definition pump_tick : Act unit :=
  survive pump_subscriptions ;;;
  on_host pump_task_boards ;;;
  survive flush_outbox ;;;
  survive flush_update_progress ;;;
  survive settle_logins ;;;
  on_service (cancel_undelivered false).

Definition heartbeat : Act unit :=
  open_registry ;;;
  let! body := action (fun c => (Ok (heartbeat_payload (ch_host c, ch_db c)), c)) in
  send message_types.CLIENT_HEARTBEAT body None.

(** What the loop wakes up for. *)
Inductive Wake : Type :=
| Shutdown
| TextMessage (text : string)
| Ping
| Pong
| Closed
| OtherMessage
| SocketError
| HeartbeatTick
| PumpTick.

(** [HeartbeatConfig]. *)
Record HeartbeatConfig : Type := { interval_ms : Z; missed_limit : Z }.

Definition silence_limit (cfg : HeartbeatConfig) : Z :=
  Z.max (interval_ms cfg) 1000 * Z.max (missed_limit cfg) 1.

(** The session lives to see a list of wake-ups, each at a monotonic time. *)
Fixpoint serve_loop (cfg : HeartbeatConfig) (last_pong : Z) (wakes : list (Z * Wake)) : Act unit :=
  match wakes with
  | [] => fail Interrupted
  | (now, w) :: rest =>
      match w with
      | Shutdown => ret tt
      | TextMessage text => handle_frame text ;;; serve_loop cfg now rest
      | Ping => action (fun c => (Ok tt, c)) ;;; serve_loop cfg last_pong rest
      | Pong => serve_loop cfg now rest
      | Closed => fail SessionClosed
      | OtherMessage => serve_loop cfg last_pong rest
      | SocketError => fail SocketFailure
      | HeartbeatTick =>
          if silence_limit cfg <? now - last_pong then fail HeartbeatTimeout
          else heartbeat ;;; serve_loop cfg last_pong rest
      | PumpTick => pump_tick ;;; serve_loop cfg last_pong rest
      end
  end.

Definition serve (cfg : HeartbeatConfig) (start : Z) (wakes : list (Z * Wake)) : Act unit :=
  flush_outbox ;;; serve_loop cfg start wakes.

End Session.
