(* ===== verification/ChannelTheorems.v ===== *)
(** * ChannelTheorems: at-most-once execution over the whole channel, and
    durable answers. *)
From Stdlib Require Import Lia.
From stdpp Require Import relations.
From S2P Require Import Prelude Text Json RunState Redact Schema Registry RegistryFacts Evolution.
From S2P Require Import Remote RemoteFacts Protocol Channel.

(** The rest of the node uses the registry through its methods, each of which
    keeps the inbox and outbox sound and never forgets a command
    (see [System.v] for every one of them). *)
Definition respects {W} (f : W * Db -> W * Db) : Prop :=
  forall w, remote_ok (snd w) -> remote_ok (snd (f w)) /\ remote_evolves (snd w) (snd (f w)).

Class ServiceLaws (W : Type) `{Service W} : Prop := {
  execute_respects cmd : respects (fun w => snd (execute cmd w));
  reauthorization_respects : respects apply_finished_reauthorization;
  drain_respects run : respects (drain_task_board run);
  pump_boards_respects : respects pump_task_boards
}.

Section Channel.
Context {W : Type} `{SerdeJson} `{ErrorText} `{Environment} `{ServiceLaws W}.

Abbreviation Act := (M ChannelError (Channel W)).
Implicit Types c : Channel W.

(** ** Facts that survive everything but an execution *)

(** What happens beside the channel is what the registry's methods allow. *)
Definition fate_ok (o : option (W * Db -> W * Db)) : Prop :=
  match o with Some f => respects f | None => True end.
Definition fair (fate : list (option (W * Db -> W * Db))) : Prop :=
  forall o, In o fate -> fate_ok o.

(** A property of the registry and of the attempts made so far that later
    registry activity cannot take back. *)
Record stable (R : Db -> list RemoteCommand -> Prop) : Prop := {
  st_ok : forall db l, R db l -> remote_ok db;
  st_evolves : forall db db' l, R db l -> remote_ok db' -> remote_evolves db db' -> R db' l
}.

Definition holds (R : Db -> list RemoteCommand -> Prop) c : Prop :=
  fair (ch_fate c) /\ R (ch_db c) (ch_attempted c).
Definition keeps (R : Db -> list RemoteCommand -> Prop) {A} (m : Act A) : Prop :=
  forall c, holds R c -> holds R (snd (m c)).

Definition sound {A} (m : M RemoteError Db A) : Prop :=
  forall db, remote_ok db -> remote_ok (snd (m db)) /\ remote_evolves db (snd (m db)).

Lemma fair_tl fate : fair fate -> fair (List.tl fate).
Proof. intros Hf o Ho. apply Hf. destruct fate; [done|by right]. Qed.

Lemma keeps_ret R {A} (a : A) : keeps R (ret a).
Proof. by intros c. Qed.

Lemma keeps_bind R {A B} (m : Act A) (k : A -> Act B) :
  keeps R m -> (forall a, keeps R (k a)) -> keeps R (bind m k).
Proof.
  intros Hm Hk c Hc. specialize (Hm c Hc). unfold bind. destruct (m c) as [[a|e] c1]; [|done].
  by apply Hk.
Qed.

Lemma keeps_Ok R {A} (m : Act A) c a c' : keeps R m -> m c = (Ok a, c') -> holds R c -> holds R c'.
Proof. intros Hk E Hc. specialize (Hk c Hc). by rewrite E in Hk. Qed.

(** An action runs in a state the rest of the node may have moved on. *)
Lemma keeps_action R {A} (f : Channel W -> Result ChannelError A * Channel W) :
  stable R -> keeps R f -> keeps R (action f).
Proof.
  intros HR Hf c [Hfair Hc]. unfold action. pose proof (fair_tl _ Hfair) as Htl.
  destruct (ch_fate c) as [|[g|] l]; [by split| |by split].
  apply Hf. split; [exact Htl|].
  destruct (Hfair (Some g) (or_introl eq_refl) (ch_host c, ch_db c)) as [Hok Hev];
    [by apply (st_ok _ HR _ _ Hc)|]. by eapply (st_evolves _ HR).
Qed.

Lemma keeps_registry R {A} (m : Z -> M RemoteError Db A) :
  stable R -> (forall now, sound (m now)) -> keeps R (registry m).
Proof.
  intros HR Hm. apply keeps_action; [done|]. intros c [Hf Hc]. pose proof (st_ok _ HR _ _ Hc) as Hok.
  destruct (Hm (clock (ch_made c)) (ch_db c) Hok) as [Hok' Hev].
  destruct (m (clock (ch_made c)) (ch_db c)) as [[a|e] db]; (split; [done|]); by eapply (st_evolves _ HR).
Qed.

Lemma keeps_send R kind body corr : stable R -> keeps R (send kind body corr).
Proof. intros HR. apply keeps_action; [done|]. intros c Hc. cbv beta zeta. by case_match. Qed.

Lemma keeps_world R f :
  stable R -> respects f -> forall c, holds R c -> holds R (with_world (f (ch_host c, ch_db c)) c).
Proof.
  intros HR Hf c [Hfair Hc].
  destruct (Hf (ch_host c, ch_db c)) as [Hok Hev]; [by apply (st_ok _ HR _ _ Hc)|].
  split; [done|]. by eapply (st_evolves _ HR).
Qed.

Lemma keeps_on_host R f : stable R -> respects f -> keeps R (on_host f).
Proof. intros HR Hf. apply keeps_action; [done|]. intros c Hc. by apply keeps_world. Qed.

Lemma keeps_on_service R f : stable R -> keeps R (on_service f).
Proof. intros HR. apply keeps_on_host; [done|]. by intros w Hw. Qed.

Lemma keeps_open R : stable R -> keeps R open_registry.
Proof.
  intros HR. apply keeps_registry; [done|]. intros now db Hok. cbn.
  split; [by apply scrub_ok|apply scrub_evolves].
Qed.

Lemma keeps_survive R m : keeps R m -> keeps R (survive m).
Proof.
  intros Hm c Hc. specialize (Hm c Hc). unfold survive.
  destruct (m c) as [[]]; [done|]. by split_if.
Qed.

(** Read-only calls. *)
Lemma sound_gets {A} (f : Db -> A) : sound (gets f).
Proof. by intros db. Qed.

Lemma sound_enqueue kind corr body now : sound (enqueue_outbox kind corr body now).
Proof. intros db Hok. split; [by apply enqueue_ok|apply enqueue_evolves]. Qed.
Lemma sound_set_state id s now : sound (set_remote_command_state id s now).
Proof. intros db Hok. split; [by apply set_state_ok|apply set_state_evolves]. Qed.
Lemma sound_complete id s r ec em now : sound (complete_remote_command id s r ec em now).
Proof. intros db Hok. split; [by apply complete_ok|apply complete_evolves]. Qed.
Lemma sound_admit id command project digest now :
  sound (admit_remote_command id command project digest now).
Proof. intros db Hok. split; [by apply admit_ok|apply admit_evolves]. Qed.
Lemma sound_ack id now : sound (acknowledge_outbox_correlation id now).
Proof. intros db Hok. split; [by apply ack_where_ok|apply ack_where_evolves]. Qed.
Lemma sound_ack_events run seq now : sound (acknowledge_events run seq now).
Proof. intros db Hok. split; [by apply acknowledge_events_ok|by apply remote_evolves_ext]. Qed.

Create HintDb channel.
Hint Resolve keeps_ret keeps_bind keeps_send keeps_registry keeps_open keeps_on_host
  keeps_on_service keeps_survive sound_gets sound_enqueue sound_set_state sound_complete sound_admit
  sound_ack sound_ack_events : channel.
Hint Resolve execute_respects reauthorization_respects drain_respects pump_boards_respects : channel.

Lemma keeps_fail R {A} e : keeps R (@fail _ _ A e).
Proof. by intros c. Qed.
Hint Resolve keeps_fail : channel.

Lemma keeps_send_entries R es : stable R -> keeps R (send_entries es).
Proof. intros HR. induction es; cbn [send_entries]; auto with channel. Qed.
Hint Resolve keeps_send_entries : channel.

Lemma keeps_flush R : stable R -> keeps R flush_outbox.
Proof. intros HR. unfold flush_outbox. auto 6 with channel. Qed.
Hint Resolve keeps_flush : channel.

Lemma keeps_deliver R d : stable R -> keeps R (deliver_device_authorization d).
Proof.
  intros HR. apply keeps_bind; [auto with channel|]. intros _ c Hc.
  pose proof (keeps_send R message_types.CLIENT_DEVICE_AUTHORIZATION (frame_payload d)
                (Some (dd_command_id d)) HR c Hc) as Hs.
  by destruct (send _ _ _ _) as [[] c'].
Qed.
Hint Resolve keeps_deliver : channel.

Lemma keeps_settle R : stable R -> keeps R settle_logins.
Proof.
  intros HR. apply keeps_bind; [auto with channel|]. intros _. apply keeps_bind.
  - apply keeps_action; [done|]. intros c Hc. by destruct (deliverable_device_code _).
  - intros [d|]; auto with channel.
Qed.
Hint Resolve keeps_settle : channel.

Lemma keeps_answer R r d : stable R -> keeps R (answer r d).
Proof. intros HR. unfold answer. auto 6 with channel. Qed.
Hint Resolve keeps_answer : channel.

Lemma keeps_pump_events R s es : stable R -> keeps R (pump_events s es).
Proof.
  intros HR. induction es as [|e es IH]; cbn [pump_events]; [auto with channel|].
  apply keeps_bind; [split_if; auto with channel|]. auto with channel.
Qed.
Hint Resolve keeps_pump_events : channel.

Lemma keeps_pump R : stable R -> keeps R pump_subscriptions.
Proof.
  intros HR. apply keeps_bind; [auto with channel|]. intros _.
  apply keeps_bind; [auto with channel|]. intros subs.
  induction subs as [|s subs IH]; cbn [pump_each]; auto 6 with channel.
Qed.
Hint Resolve keeps_pump : channel.

Lemma keeps_progress R : stable R -> keeps R flush_update_progress.
Proof.
  intros HR. apply keeps_bind; [apply keeps_action; [done|by intros c]|].
  intros pending.
  induction (firstn 32 pending); cbn [send_progress]; auto with channel.
Qed.
Hint Resolve keeps_progress : channel.

Lemma keeps_pump_tick R : stable R -> keeps R pump_tick.
Proof. intros HR. unfold pump_tick. auto 20 with channel. Qed.

Lemma keeps_heartbeat R : stable R -> keeps R heartbeat.
Proof.
  intros HR. apply keeps_bind; [auto with channel|]. intros _. apply keeps_bind; [apply keeps_action; [done|by intros c]|].
  auto with channel.
Qed.
Hint Resolve keeps_pump_tick keeps_heartbeat : channel.

(** ** The invariant *)

Definition known (id : string) (db : Db) : Prop :=
  exists row, In row (remote_commands db) /\ c_command_id row = id.

(** Every attempted command is in the inbox, and none was attempted twice. *)
Definition inbox_ok (db : Db) (l : list RemoteCommand) : Prop :=
  remote_ok db /\ NoDup (command_id <$> l) /\ forall cmd, In cmd l -> known (command_id cmd) db.

(** An admitted command that was not attempted yet. *)
Definition admitted (id : string) (db : Db) (l : list RemoteCommand) : Prop :=
  inbox_ok db l /\ ~ In id (List.map command_id l) /\ known id db.

Lemma known_evolves id db db' : known id db -> remote_evolves db db' -> known id db'.
Proof.
  intros (row & Hin & Hid) Hev. apply list_elem_of_In, list_elem_of_lookup in Hin as [i Hi].
  destruct (rv_commands _ _ Hev i row Hi) as (row' & Hi' & Hce). exists row'. split.
  - apply list_elem_of_In, list_elem_of_lookup. eauto.
  - rewrite (ce_id _ _ Hce). done.
Qed.

Lemma inbox_ok_stable : stable inbox_ok.
Proof.
  split; [by intros db l (? & _)|]. intros db db' l (_ & Hnd & Hk) Hok Hev.
  split; [done|]. split; [done|]. intros cmd Hc. eapply known_evolves; eauto.
Qed.

Lemma admitted_stable id : stable (admitted id).
Proof.
  split; [by intros db l ((? & _) & _)|]. intros db db' l (Hi & Hn & Hk) Hok Hev.
  split; [by eapply (st_evolves _ inbox_ok_stable)|]. split; [done|]. by eapply known_evolves.
Qed.

Hint Resolve inbox_ok_stable admitted_stable : channel.

(** From a fact to the invariant across a sequence. *)
Lemma bind_from R {A B} (m : Act A) (k : A -> Act B) c :
  (forall c, holds R c -> holds inbox_ok c) -> keeps R m -> holds R c ->
  (forall a c', m c = (Ok a, c') -> holds R c' -> holds inbox_ok (snd (k a c'))) ->
  holds inbox_ok (snd (bind m k c)).
Proof.
  intros Hinv Hm Hc Hk. specialize (Hm c Hc). unfold bind.
  destruct (m c) as [[a|e] c'] eqn:E; cbn in *; auto.
Qed.

Lemma admitted_inbox id c : holds (admitted id) c -> holds inbox_ok c.
Proof. by intros [? [? _]]. Qed.

(** Executing an admitted command leads back to the invariant. *)
Lemma run_command_ok cmd {B} (k : _ -> Act B) c :
  holds (admitted (command_id cmd)) c -> (forall o, keeps inbox_ok (k o)) ->
  holds inbox_ok (snd (bind (run_command cmd) k c)).
Proof.
  intros (Hf & (Hok & Hnd & Hk) & Hn & Hid) Hkeep.
  assert (holds inbox_ok (with_attempt cmd c)) as Hc.
  { split; [done|]. split; [done|]. split.
    - cbn. rewrite fmap_app. apply list.NoDup_app. split; [done|]. split; [|apply NoDup_singleton].
      intros x Hx ->%list_elem_of_singleton. apply Hn. by apply list_elem_of_In in Hx.
    - intros cmd' [Hin|[<-|[]]]%in_app_iff; auto. }
  assert (holds inbox_ok (snd (run_command cmd c))) as Hr.
  { unfold run_command. revert Hc. apply (keeps_action inbox_ok); [apply inbox_ok_stable|]. intros c1 Hc1.
    pose proof (keeps_world inbox_ok (fun w => snd (execute cmd w)) inbox_ok_stable
                  (execute_respects cmd) c1 Hc1) as Hw.
    cbn in *. by destruct (execute _ _) as [o w]. }
  unfold bind. destruct (run_command cmd c) as [[o|e] c1]; [|done]. by apply Hkeep.
Qed.

Lemma admission_fresh cmd digest r c c' :
  holds inbox_ok c ->
  registry (admit_remote_command (command_id cmd) (command cmd) (command_project_id cmd) digest) c
    = (Ok (Fresh r), c') ->
  holds (admitted (command_id cmd)) c'.
Proof.
  intros Hc. unfold registry, action. destruct (ch_fate c) as [|[g|] fate] eqn:Ef; [done| |done].
  destruct (admit_remote_command _ _ _ _ _ _) as [[a|e] db] eqn:Ea; [|done]. intros [= -> <-].
  destruct Hc as [Hfair Hc]. rewrite Ef in Hfair. cbn [snd fst ch_db ch_made] in Ea.
  assert (inbox_ok (snd (g (ch_host c, ch_db c))) (ch_attempted c)) as Hc1.
  { destruct (Hfair (Some g) (or_introl eq_refl) (ch_host c, ch_db c)) as [Hok Hev]; [by apply Hc|].
    by eapply (st_evolves _ inbox_ok_stable). }
  split; [by apply (fair_tl _ Hfair)|].
  pose proof (sound_admit (command_id cmd) (command cmd) (command_project_id cmd) digest
    (clock (S (ch_made c))) _ (st_ok _ inbox_ok_stable _ _ Hc1)) as [Hok' Hev'].
  rewrite Ea in Hok', Hev'. cbn in *. split; [by eapply (st_evolves _ inbox_ok_stable)|].
  apply admit_inv in Ea as (Hn & row & Hdb & _ & Hid & _). split.
  - intros (cmd' & Heq & Hin)%in_map_iff. destruct Hc1 as (_ & _ & Hknown).
    destruct (Hknown cmd' Hin) as (row' & Hrow' & Hid'). rewrite Heq in Hid'.
    pose proof (select_one_None _ _ _ Hn Hrow') as Hf. by rewrite (proj2 (is_command_true _ _) Hid') in Hf.
  - exists row. split; [|done]. rewrite Hdb. cbn. apply in_app_iff. right. by left.
Qed.

Lemma handle_command_ok e : keeps inbox_ok (handle_command e).
Proof.
  unfold handle_command. destruct (command_of (payload e)) as [cmd|]; [|apply keeps_send, inbox_ok_stable].
  destruct (validate cmd); [|apply keeps_send, inbox_ok_stable].
  apply keeps_bind; [auto with channel|]. intros _.
  apply keeps_bind; [auto with channel|]. intros depth.
  destruct (MAX_OUTBOX_DEPTH <=? depth); [apply keeps_send, inbox_ok_stable|].
  intros c Hc. apply (bind_from inbox_ok); [done|auto with channel|done|].
  intros [r|r|s] c1 Ead Hc1.
  - apply (admission_fresh _ _ _ _ _ Hc) in Ead.
    apply (bind_from (admitted (command_id cmd))); [apply admitted_inbox|auto with channel|done|].
    intros _ c2 _ Hc2.
    apply (bind_from (admitted (command_id cmd))); [apply admitted_inbox|auto with channel|done|].
    intros _ c3 _ Hc3. apply run_command_ok; [done|]. intros outcome.
    apply keeps_bind; [auto with channel|]. intros _.
    apply keeps_bind; [destruct outcome; auto with channel|]. auto 10 with channel.
  - revert Hc1. apply keeps_bind; auto with channel.
  - revert Hc1. apply keeps_send, inbox_ok_stable.
Qed.

Lemma handle_frame_ok text : keeps inbox_ok (handle_frame text).
Proof.
  unfold handle_frame. destruct (decode text) as [e|]; [|apply keeps_send, inbox_ok_stable].
  assert (keeps inbox_ok (dispatch_frame e)) as Hd.
  { assert (forall k v, keeps inbox_ok (acknowledge k v)) as Hack.
    { intros k v. unfold acknowledge. destruct (str_at k v); auto 6 with channel. }
    unfold dispatch_frame. cbv zeta.
    split_if; [apply keeps_ret|]. split_if; [apply handle_command_ok|].
    do 2 (split_if; [apply Hack|]). split_if.
    { unfold acknowledge_device_code. destruct (str_at _ _); auto with channel. }
    split_if.
    { unfold record_update_progress_ack. destruct (str_at _ _); [|auto with channel].
      destruct (_ ≫= _); auto with channel. }
    split_if.
    { destruct (event_ack_of _) as [[run seq]|]; auto 6 with channel. }
    split_if; [by intros c|apply keeps_send, inbox_ok_stable]. }
  intros c Hc. specialize (Hd c Hc). destruct (dispatch_frame _ _) as [[]]; [done|].
  split_if; [|done]. revert Hd. apply keeps_send, inbox_ok_stable.
Qed.

Lemma serve_ok cfg start wakes : keeps inbox_ok (serve cfg start wakes).
Proof.
  apply keeps_bind; [auto with channel|]. intros _. revert start.
  induction wakes as [|[now w] wakes IH]; intros last_pong; cbn [serve_loop]; [apply keeps_fail|].
  destruct w; auto with channel.
  - apply keeps_bind; [apply handle_frame_ok|auto].
  - apply keeps_bind; [|auto]. apply keeps_action; [apply inbox_ok_stable|by intros c].
  - split_if; auto with channel.
Qed.

(** ** Everything that can happen to the channel *)

Inductive channel_step : Channel W -> Channel W -> Prop :=
(** Part of a session: it serves, and breaks off or ends. *)
| step_serve cfg start wakes c : channel_step c (snd (serve cfg start wakes c))
(** A new session, after a disconnect or a restart of the daemon. *)
| step_session c fate :
    fair fate ->
    channel_step c {| ch_db := ch_db c; ch_host := ch_host c; ch_fate := fate;
                      ch_made := ch_made c; ch_sent := []; ch_attempted := ch_attempted c |}
(** The local API, the runners, the updater, while no session is open. *)
| step_elsewhere c host db :
    remote_ok db -> remote_evolves (ch_db c) db -> channel_step c (with_world (host, db) c).

Lemma channel_step_ok c c' : channel_step c c' -> holds inbox_ok c -> holds inbox_ok c'.
Proof.
  intros [] Hc; [revert Hc; apply serve_ok|by destruct Hc|].
  destruct Hc. split; [done|]. by eapply (st_evolves _ inbox_ok_stable).
Qed.

Lemma channel_reachable_ok c c' : rtc channel_step c c' -> holds inbox_ok c -> holds inbox_ok c'.
Proof. induction 1; [done|]. eauto using channel_step_ok. Qed.

(** C1. At-most-once execution: however often and in whatever order the Control
    Plane delivers frames, wherever sessions break off or the daemon restarts,
    and whatever the rest of the node does to the registry in between any two
    actions of the channel, no command id is ever executed twice. *)
Theorem command_executed_at_most_once c0 c :
  remote_ok (ch_db c0) -> fair (ch_fate c0) -> ch_attempted c0 = [] -> rtc channel_step c0 c ->
  NoDup (command_id <$> ch_attempted c).
Proof.
  intros Hok Hf Hn Hr. apply (channel_reachable_ok _ _ Hr). split; [done|]. split; [done|].
  rewrite Hn. split; [apply NoDup_nil_2|done].
Qed.

(** Refused means untouched: a frame whose command does not parse or does not
    validate (a name outside the allowed list included) is handled by sending an
    error frame and nothing else; on a quiet node neither the registry nor the
    host changes, nothing is executed, and what is sent is that error. *)
Theorem invalid_command_changes_nothing e c :
  match command_of (payload e) with
  | None => True
  | Some cmd => is_ok (validate cmd) = false
  end ->
  (forall f w, In (Some f) (ch_fate c) -> f w = w) ->
  let c' := snd (handle_command e c) in
  ch_db c' = ch_db c /\ ch_host c' = ch_host c /\ ch_attempted c' = ch_attempted c
  /\ exists frames, ch_sent c' = ch_sent c ++ frames
       /\ forall f, In f frames -> message_type f = message_types.ERROR
            /\ correlation_id f = Some (message_id e).
Proof.
  intros Hbad Hquiet.
  assert (exists err, handle_command e = send_error err (Some (message_id e))) as [err ->].
  { unfold handle_command. destruct (command_of (payload e)) as [cmd|]; [|eauto].
    destruct (validate cmd); [done|eauto]. }
  unfold send_error, send, action. destruct (ch_fate c) as [|[g|] fate]; cbn -[encode].
  1,3: repeat (split; [done|]); exists []; by rewrite app_nil_r.
  rewrite (Hquiet g) by (by left). destruct (encode _); cbn.
  - repeat (split; [done|]). eexists. split; [done|]. by intros f [<-|[]].
  - repeat (split; [done|]). exists []. by rewrite app_nil_r.
Qed.

(** ** Durable answers *)

(** What an answer says of a command on record. *)
Record tells (row : CommandRow) (redelivered : bool) (body : Value) : Prop := {
  tl_id : get "command_id" body = Some (VString (c_command_id row));
  tl_state : get "state" body = Some (VString (c_state row));
  tl_result : get "result" body = Some (default VNull (c_response_payload row ≫= from_str));
  tl_code : get "error_code" body = Some (null_or VString (c_error_code row));
  tl_message : get "error_message" body = Some (null_or VString (c_error_message row));
  tl_again : get "deduplicated" body = if redelivered then Some (VBool true) else None
}.

(** The record of a command that was executed with this outcome. *)
Definition ended_with (cmd : RemoteCommand) (outcome : Result ProtocolError Value) (row : CommandRow) : Prop :=
  c_command_id row = command_id cmd /\
  match outcome with
  | Ok v => c_state row = "completed"%string /\ c_response_payload row = Some (bounded_payload v)
            /\ c_error_code row = None /\ c_error_message row = None
  | Err err => c_state row = "failed"%string /\ c_response_payload row = None
               /\ c_error_code row = Some (ErrorCode.as_str (pe_code err)) /\ c_error_message row = Some (pe_message err)
  end.

(** Where an answer comes from: the command was executed, once, and this is its
    outcome; or it was on record, and nothing was executed. *)
Definition source (cmd : RemoteCommand) (before now : list RemoteCommand) (row : CommandRow) (redelivered : bool) : Prop :=
  if redelivered then
    now = before /\ exists db, In row (remote_commands db) /\ c_command_id row = command_id cmd
      /\ c_payload_digest row = fingerprint sha256 cmd
  else
    now = before ++ [cmd] /\ exists w outcome, fst (execute cmd w) = Some outcome /\ ended_with cmd outcome row.

(** An answer to [cmd] was queued after the outbox had reached [n], and every
    registry since then still has it, acknowledged or not. *)
Definition answered (cmd : RemoteCommand) (n : Z) (before : list RemoteCommand) (db : Db) (now : list RemoteCommand) : Prop :=
  remote_ok db /\ exists db1 o row redelivered body,
    remote_evolves db1 db /\ In o (outbox db1) /\ o_acknowledged_at o = None
    /\ o_correlation_id o = Some (command_id cmd) /\ o_kind o = OUTBOX_COMMAND_RESULT /\ n < o_id o
    /\ o_payload o = bounded_payload body /\ tells row redelivered body /\ source cmd before now row redelivered.
Definition outbox_from (n : Z) (db : Db) (_ : list RemoteCommand) : Prop :=
  remote_ok db /\ n <= outbox_sequence db.
(** [outbox_from], with the attempts made so far. *)
Definition outbox_at (n : Z) (l : list RemoteCommand) (db : Db) (now : list RemoteCommand) : Prop :=
  outbox_from n db now /\ now = l.
(** Nothing was attempted, or the command is on record. *)
Definition on_record (cmd : RemoteCommand) (db : Db) : Prop :=
  exists row, In row (remote_commands db) /\ c_command_id row = command_id cmd
    /\ c_payload_digest row = fingerprint sha256 cmd.
Definition recorded (cmd : RemoteCommand) (db : Db) (_ : list RemoteCommand) : Prop := remote_ok db /\ on_record cmd db.
Definition untouched (cmd : RemoteCommand) (l : list RemoteCommand) (db : Db) (now : list RemoteCommand) : Prop :=
  remote_ok db /\ (now = l \/ on_record cmd db).

Lemma outbox_from_stable n : stable (outbox_from n).
Proof. split; [by intros db l [? _]|]. intros db db' l [_ Hn] Hok []. split; [done|lia]. Qed.
Lemma outbox_at_stable n l : stable (outbox_at n l).
Proof.
  split; [by intros db l' [[? _] _]|]. intros db db' l' [Hf ->] Hok Hev. split; [|done].
  by eapply (st_evolves _ (outbox_from_stable n)).
Qed.
Lemma on_record_evolves cmd db db' : on_record cmd db -> remote_evolves db db' -> on_record cmd db'.
Proof.
  intros (row & Hin & Hid & Hd) Hev. apply list_elem_of_In, list_elem_of_lookup in Hin as [i Hi].
  destruct (rv_commands _ _ Hev i row Hi) as (row' & Hi' & Hce). exists row'.
  split; [apply list_elem_of_In, list_elem_of_lookup; eauto|].
  rewrite (ce_id _ _ Hce), (ce_digest _ _ Hce). done.
Qed.
Lemma recorded_stable cmd : stable (recorded cmd).
Proof. split; [by intros db l [? _]|]. intros db db' l [_ Hr] Hok Hev. split; [done|]. by eapply on_record_evolves. Qed.
Lemma untouched_stable cmd l : stable (untouched cmd l).
Proof.
  split; [by intros db l' [? _]|]. intros db db' l' [_ Hr] Hok Hev. split; [done|].
  destruct Hr as [|Hr]; [by left|right]. by eapply on_record_evolves.
Qed.

Lemma answered_stable cmd n l : stable (answered cmd n l).
Proof.
  split; [by intros db l' [? _]|]. intros db db' l' (_ & db1 & o & row & rd & body & Hev1 & Hrest) Hok Hev. split; [done|].
  exists db1, o, row, rd, body. split; [by etransitivity|done].
Qed.

Hint Resolve outbox_from_stable outbox_at_stable recorded_stable untouched_stable answered_stable : channel.

Lemma registry_Ok {A} (m : Z -> M RemoteError Db A) c a c' :
  registry m c = (Ok a, c') ->
  ch_attempted c' = ch_attempted c /\ ch_sent c' = ch_sent c
  /\ exists now db, m now db = (Ok a, ch_db c')
       /\ forall R, stable R -> holds R c -> R db (ch_attempted c) /\ fair (ch_fate c').
Proof.
  unfold registry, action. destruct (ch_fate c) as [|[g|] fate] eqn:Ef; [done| |done].
  destruct (m _ _) as [[a'|e] db] eqn:E; [|done]. intros [= -> <-]. split; [done|]. split; [done|].
  eexists _, _. split; [exact E|]. intros R HR [Hfair Hc]. rewrite Ef in Hfair.
  split; [|by apply (fair_tl _ Hfair)].
  destruct (Hfair (Some g) (or_introl eq_refl) (ch_host c, ch_db c)) as [Hok Hev];
    [by apply (st_ok _ HR _ _ Hc)|]. by eapply (st_evolves _ HR).
Qed.

Lemma complete_id id s v ec em now db r db' :
  complete_remote_command id s v ec em now db = (Ok r, db') ->
  exists row, r = map_command row /\ c_command_id row = id /\ c_state row = CommandState.as_str s
    /\ c_response_payload row = bounded_payload <$> v /\ c_error_code row = ec /\ c_error_message row = em.
Proof.
  unfold complete_remote_command, bind, modify, query, context, load_command.
  destruct (select_one (is_command id) _) as [row|] eqn:E; [|done]. intros [= <- _]. exists row. split; [done|].
  apply select_one_Some in E as [Hin Hid%is_command_true]. split; [done|].
  apply In_update_where in Hin as (row0 & _ & ->). destruct (is_command id row0) eqn:E0; [done|].
  apply is_command_true in Hid. congruence.
Qed.

Lemma result_body_tells row d : tells row d (result_body (map_command row) d).
Proof. by destruct d; split; cbn; destruct (c_response_payload row). Qed.

Lemma answer_Ok cmd row d n l l0 c c' :
  c_command_id row = command_id cmd -> source cmd l0 l row d ->
  holds (outbox_at n l) c -> answer (map_command row) d c = (Ok tt, c') -> holds (answered cmd n l0) c'.
Proof.
  intros Hid Hsrc Hc. unfold answer. rewrite bind_Ok.
  intros (id & c1 & (Hl & _ & now & db & E & HR)%registry_Ok & [= <-]).
  destruct (HR _ (outbox_at_stable n l) Hc) as [[[Hok Hn] Hl'] Hfair]. split; [done|].
  pose proof (enqueue_ok OUTBOX_COMMAND_RESULT (Some (rc_command_id (map_command row))) (result_body (map_command row) d) now _ Hok) as Hok'.
  rewrite E in Hok'. split; [done|]. apply enqueue_inv in E as (_ & -> & Edb).
  exists (ch_db c1). eexists _, row, d, (result_body (map_command row) d).
  split; [reflexivity|]. rewrite Edb. split; [cbn; apply in_app_iff; right; by left|]. cbn -[result_body]. rewrite Hid.
  do 3 (split; [done|]). split; [lia|]. split; [done|]. split; [apply result_body_tells|]. by rewrite Hl, Hl'.
Qed.

Lemma send_Ok kind body corr c c' :
  send kind body corr c = (Ok tt, c') ->
  ch_attempted c' = ch_attempted c
  /\ exists f, ch_sent c' = ch_sent c ++ [f] /\ payload f = body
    /\ message_type f = kind /\ correlation_id f = corr.
Proof.
  unfold send, action. destruct (ch_fate c) as [|[g|] fate]; [done| |done]. cbv beta zeta.
  destruct (encode _); [|done]. intros [= <-]. split; [done|]. eexists. split; [reflexivity|].
  by destruct corr.
Qed.

(** Completing, answering and delivering an executed command. *)
Lemma completed_is_answered cmd n l0 outcome w c c' :
  fst (execute cmd w) = Some outcome -> holds (outbox_at n (l0 ++ [cmd])) c ->
  (open_registry ;;;
   let! r := registry (match outcome with
     | Ok v => complete_remote_command (command_id cmd) CmdCompleted (Some v) None None
     | Err err => complete_remote_command (command_id cmd) CmdFailed None
                    (Some (ErrorCode.as_str (pe_code err))) (Some (pe_message err))
     end) in
   answer r false ;;; settle_logins ;;; flush_outbox) c = (Ok tt, c') ->
  holds (answered cmd n l0) c'.
Proof.
  intros Hx Hc. rewrite bind_Ok. intros (? & c1 & E1 & Hrest).
  apply (keeps_Ok (outbox_at n (l0 ++ [cmd]))) in E1; [|auto with channel|done].
  rewrite bind_Ok in Hrest. destruct Hrest as (r & c2 & E2 & Hrest).
  assert (exists row, r = map_command row /\ ended_with cmd outcome row) as (row & -> & Hend).
  { apply registry_Ok in E2 as (_ & _ & now & db & E2 & _).
    destruct outcome; apply complete_id in E2 as (row & -> & ? & ? & ? & ? & ?); by exists row. }
  apply (keeps_Ok (outbox_at n (l0 ++ [cmd]))) in E2; [|destruct outcome; auto with channel|done].
  rewrite bind_Ok in Hrest. destruct Hrest as ([] & c3 & E3 & Hrest).
  apply (answer_Ok cmd row false n (l0 ++ [cmd]) l0) in E3; [|apply Hend| |done].
  - eapply keeps_Ok; [|exact Hrest|exact E3]. auto with channel.
  - split; [done|]. by exists w, outcome.
Qed.

(** Executing leaves the outbox where it was or further, and is noted. *)
Lemma run_command_at n l cmd c o c' :
  run_command cmd c = (Ok o, c') -> holds (outbox_at n l) c ->
  holds (outbox_at n (l ++ [cmd])) c' /\ exists w, fst (execute cmd w) = Some o.
Proof.
  intros E [Hf [Ho Hl]]. split.
  - refine (keeps_Ok (outbox_at n (l ++ [cmd])) (action _) _ _ _ _ E _); [|split; [done|]; by cbn; rewrite Hl].
    apply keeps_action; [apply outbox_at_stable|]. intros c1 Hc1.
    pose proof (keeps_world _ (fun w => snd (execute cmd w)) (outbox_at_stable n (l ++ [cmd])) (execute_respects cmd) c1 Hc1) as Hw.
    cbn in *. by destruct (execute _ _) as [o' w].
  - unfold run_command, action in E. destruct (ch_fate (with_attempt cmd c)) as [|[g|] fate]; [done| |done].
    cbv beta zeta in E. match type of E with context [execute cmd ?w] => exists w; destruct (execute cmd w) as [[r|] w'] end;
      [|done]. by injection E as <- _.
Qed.

Lemma keeps_run_command cmd R :
  stable R -> (forall db l l', R db l -> R db l') -> keeps R (run_command cmd).
Proof.
  intros HR Hl c [Hf Hc]. unfold run_command.
  refine (keeps_action R _ HR _ _ _); [|split; [done|]; by eapply Hl]. intros c1 Hc1.
  pose proof (keeps_world R (fun w => snd (execute cmd w)) HR (execute_respects cmd) c1 Hc1) as Hw.
  cbn in *. by destruct (execute _ _) as [o' w].
Qed.

(** However handling a valid command ends, what was attempted is on record. *)
Lemma handle_command_recorded e cmd c :
  remote_ok (ch_db c) -> fair (ch_fate c) -> command_of (payload e) = Some cmd -> validate cmd = Ok tt ->
  holds (untouched cmd (ch_attempted c)) (snd (handle_command e c)).
Proof.
  intros Hok Hfair Hcmd Hv. set (l := ch_attempted c).
  assert (holds (untouched cmd l) c) as Hc by (split; [done|]; split; [done|by left]).
  revert Hc. generalize c. clear Hok Hfair. change (keeps (untouched cmd l) (handle_command e)).
  unfold handle_command. rewrite Hcmd, Hv. apply keeps_bind; [auto with channel|]. intros _.
  apply keeps_bind; [auto with channel|]. intros depth. split_if; [apply keeps_send; auto with channel|].
  intros c1 Hc1. unfold bind at 1.
  assert (keeps (untouched cmd l) (registry (admit_remote_command (command_id cmd) (command cmd)
            (command_project_id cmd) (fingerprint sha256 cmd)))) as Hkeep by auto with channel.
  destruct (registry _ c1) as [[adm|err] c2] eqn:Ea.
  2: { pose proof (Hkeep c1 Hc1) as Hk. by rewrite Ea in Hk. }
  pose proof (keeps_Ok (untouched cmd l) _ _ _ _ Hkeep Ea Hc1) as Hc2.
  destruct adm as [r|r|stored].
  - assert (holds (recorded cmd) c2) as Hr.
    { apply registry_Ok in Ea as (_ & _ & now & db & Ea & _). apply admit_inv in Ea as (_ & row & Edb & _ & Hid & Hd & _).
      split; [apply Hc2|]. split; [apply Hc2|]. exists row. rewrite Edb. split; [apply in_app_iff; right; by left|]. done. }
    assert (forall c, holds (recorded cmd) c -> holds (untouched cmd l) c) as Himp
      by (intros c' (Hf & Hk & Hrec); split; [done|]; split; [done|by right]).
    apply Himp. revert Hr. generalize c2.
    apply (keeps_bind (recorded cmd)); [auto with channel|]. intros _.
    apply keeps_bind; [auto with channel|]. intros _.
    apply keeps_bind; [by apply keeps_run_command; [auto with channel|]|]. intros outcome.
    apply keeps_bind; [auto with channel|]. intros _.
    apply keeps_bind; [destruct outcome; auto with channel|]. intros r'. auto 10 with channel.
  - revert Hc2. generalize c2. apply (keeps_bind (untouched cmd l)); auto with channel.
  - revert Hc2. generalize c2. apply keeps_send. auto with channel.
Qed.


(** ** What a flush sends *)

Lemma send_entries_Ok es c c' :
  send_entries es c = (Ok tt, c') ->
  exists fs, ch_sent c' = ch_sent c ++ fs
    /\ List.map payload fs = List.map oe_payload es
    /\ List.map message_type fs = List.map entry_type es
    /\ List.map correlation_id fs = List.map oe_correlation_id es.
Proof.
  revert c. induction es as [|e es IH]; intros c.
  - intros [= <-]. exists []. by rewrite app_nil_r.
  - cbn [send_entries]. rewrite bind_Ok. intros ([] & c1 & (_ & f & Hf & Hp & Ht & Hc)%send_Ok & Hr).
    apply IH in Hr as (fs & Hfs & Hps & Hts & Hcs). exists (f :: fs). split.
    + by rewrite Hfs, Hf, <- app_assoc.
    + cbn. by rewrite Hp, Hc, Ht, Hps, Hcs, Hts.
Qed.

(** One pass over the outbox sends, in order, the 64 oldest entries that were
    unacknowledged when it read them, each as the kind of frame it is, with its
    payload and under its correlation id; it forgets no entry and takes no
    acknowledgement back.  Entries behind those 64 are not sent. *)
Theorem flush_outbox_sends_oldest c c' :
  remote_ok (ch_db c) -> fair (ch_fate c) -> flush_outbox c = (Ok tt, c') ->
  remote_evolves (ch_db c) (ch_db c') /\
  exists db frames, remote_evolves (ch_db c) db /\ ch_sent c' = ch_sent c ++ frames
    /\ List.map payload frames = List.map oe_payload (pending_outbox 64 db)
    /\ List.map message_type frames = List.map entry_type (pending_outbox 64 db)
    /\ List.map correlation_id frames = List.map oe_correlation_id (pending_outbox 64 db)
    /\ (length frames <= 64)%nat.
Proof.
  intros Hok Hfair E. set (R db (_ : list RemoteCommand) := remote_ok db /\ remote_evolves (ch_db c) db).
  assert (stable R) as HR.
  { split; [by intros db l [? _]|]. intros db db' l [_ Hev] Hok' Hev'. split; [done|by etransitivity]. }
  assert (holds R c) as Hc by (split; [done|]; split; [done|reflexivity]).
  pose proof (keeps_Ok R _ _ _ _ (keeps_flush R HR) E Hc) as [_ [_ Hev]]. split; [done|].
  unfold flush_outbox in E. rewrite bind_Ok in E. destruct E as (? & c1 & Eo & E).
  pose proof (keeps_Ok R _ _ _ _ (keeps_open R HR) Eo Hc) as Hc1.
  apply registry_Ok in Eo as (_ & Hs1 & _). rewrite bind_Ok in E.
  destruct E as (es & c2 & (_ & Hs2 & now & db & Eg & HRdb)%registry_Ok & E).
  injection Eg as <- _. apply send_entries_Ok in E as (fs & Hfs & Hp & Ht & Hcor).
  exists db, fs. split; [by apply (HRdb R HR Hc1)|]. split; [congruence|]. repeat (split; [done|]).
  rewrite <- (length_map payload), Hp, length_map. unfold pending_outbox, limit.
  rewrite length_map. change (64 <? 0) with false. cbv iota. apply firstn_le_length.
Qed.

End Channel.

(** ** A session that receives the same command twice *)

Module ChannelSamples.
Import Codec ProtocolSamples.

#[export] Instance environment : Environment :=
  {| fresh_id := fun n => decimal (Z.of_nat n); clock := fun n => 1000 + Z.of_nat n;
     sha256 := fun s => [len s mod 256] |}.

(** A service that lists no projects, has no login under way and no journal. *)
#[export] Instance idle : Service unit :=
  {| execute := fun _ w => (Some (Ok (object [("projects", VArray [])]%string)), w);
     apply_finished_reauthorization := fun w => w;
     deliverable_device_code := fun w => (None, w);
     device_delivery_sent := fun _ w => w;
     device_delivery_acknowledged := fun _ w => w;
     cancel_undelivered := fun _ w => w;
     drain_task_board := fun _ w => w;
     pump_task_boards := fun w => w;
     heartbeat_payload := fun _ => VNull;
     journals := fun _ => [];
     delivered := fun _ => ∅;
     save_delivered := fun _ w => w |}.

#[export] Instance idle_laws : ServiceLaws unit.
Proof. split; by intros. Qed.

Definition quiet (n : nat) : list (option (unit * Db -> unit * Db)) := repeat (Some id) n.

Lemma quiet_fair n : fair (quiet n).
Proof. intros o Ho. apply repeat_spec in Ho as ->. by intros w. Qed.

Definition cmd : RemoteCommand :=
  {| command_id := "cmd-1"; command := "projects.list"; command_project_id := None;
     command_payload := VNull |}.
Definition envelope : Envelope :=
  Envelope_new "m-1" 5 message_types.SERVER_COMMAND
    (object [("command_id", VString "cmd-1"); ("command", VString "projects.list")]%string).
Definition text : string := struct_to_string (envelope_fields envelope).
Definition start : Channel unit :=
  {| ch_db := empty_db; ch_host := tt; ch_fate := quiet 60; ch_made := 0; ch_sent := [];
     ch_attempted := [] |}.
Definition config : HeartbeatConfig := {| interval_ms := 15000; missed_limit := 3 |}.
(** The same command twice in one session, with a pump in between. *)
Definition served : Channel unit :=
  snd (serve config 0 [(1, TextMessage text); (2, PumpTick); (3, TextMessage text); (4, Shutdown)] start).

Lemma command_executed_at_most_once_witness :
  ch_attempted served = [cmd] /\ NoDup (command_id <$> ch_attempted served).
Proof.
  split; [vm_compute; reflexivity|].
  apply (command_executed_at_most_once start); [apply remote_ok_empty|apply quiet_fair|reflexivity|].
  apply rtc_once, step_serve.
Defined.

Definition forbidden : Envelope :=
  Envelope_new "m-2" 5 message_types.SERVER_COMMAND
    (object [("command_id", VString "cmd-2"); ("command", VString "host.shell")]%string).

Lemma invalid_command_changes_nothing_witness :
  ch_db (snd (handle_command forbidden start)) = empty_db.
Proof.
  apply (invalid_command_changes_nothing forbidden start); [vm_compute; reflexivity|].
  intros f w Hf. apply repeat_spec in Hf. injection Hf as ->. reflexivity.
Defined.

Definition handled : Channel unit := snd (handle_command envelope start).


Definition pending_one : Channel unit :=
  {| ch_db := ch_db handled; ch_host := tt; ch_fate := quiet 4; ch_made := 0;
     ch_sent := []; ch_attempted := [] |}.

Lemma start_ok : holds inbox_ok start.
Proof.
  split; [apply quiet_fair|]. split; [apply remote_ok_empty|]. split; [apply NoDup_nil_2|].
  by intros x [].
Qed.

Lemma handled_ok : remote_ok (ch_db handled).
Proof. unfold handled. destruct (handle_command_ok envelope start start_ok) as [_ [Hok _]]. exact Hok. Qed.

Lemma flush_outbox_sends_oldest_witness :
  (length (ch_sent (snd (flush_outbox pending_one))) <= 64)%nat.
Proof.
  assert (flush_outbox pending_one = (Ok tt, snd (flush_outbox pending_one))) as E
    by (vm_compute; reflexivity).
  destruct (flush_outbox_sends_oldest pending_one _ handled_ok (quiet_fair 4) E)
    as (_ & db & frames & _ & Hs & _ & _ & _ & Hl).
  rewrite Hs. exact Hl.
Defined.
End ChannelSamples.
