(* ===== verification/Sse.v ===== *)
(** * Sse: the incremental server-sent-event parser ([sse.rs]). *)
From Stdlib Require Import Lia.
From S2P Require Import Prelude Text Json.

Record SseEvent : Type := { sse_event : option bytes; sse_data : bytes }.

Record SseParser : Type := {
  buffer : bytes;
  event_name : option bytes;
  data_lines : list bytes
}.

Definition SseParser_default : SseParser :=
  {| buffer := []; event_name := None; data_lines := [] |}.

Definition with_buffer (b : bytes) (p : SseParser) : SseParser :=
  {| buffer := b; event_name := event_name p; data_lines := data_lines p |}.

Definition json_data `{SerdeJson} (e : SseEvent) : option Value := from_str (of_chars (sse_data e)).

(** [Vec::is_empty] and [Option::is_none], then both are taken. *)
Definition finish_event (p : SseParser) : option SseEvent * SseParser :=
  match data_lines p, event_name p with
  | [], None => (None, p)
  | _, _ => (Some {| sse_event := event_name p; sse_data := join [NL] (data_lines p) |},
             {| buffer := buffer p; event_name := None; data_lines := [] |})
  end.

Definition CHAR_COLON : Ascii.ascii := Ascii.ascii_of_N 58.

Definition strip_space (value : bytes) : bytes := default value (strip_prefix [SP] value).

(** One complete line, without its line feed. *)
Definition take_line (raw : bytes) (p : SseParser) : list SseEvent * SseParser :=
  let line := strip_cr raw in
  match line with
  | [] => match finish_event p with
          | (Some e, p') => ([e], p')
          | (None, p') => ([], p')
          end
  | c :: _ =>
      if char_eqb c CHAR_COLON then ([], p)
      else
        let '(field, value) :=
          match split_once CHAR_COLON line with
          | Some (field, value) => (field, strip_space value)
          | None => (line, [])
          end in
        ([], if bool_decide (field = $"event")
             then {| buffer := buffer p; event_name := Some value; data_lines := data_lines p |}
             else if bool_decide (field = $"data")
             then {| buffer := buffer p; event_name := event_name p;
                     data_lines := data_lines p ++ [value] |}
             else p)
  end.

(** [while let Some(newline) = self.buffer.find('\n')].  Each round removes at
    least the line feed, so the length of the buffer bounds the rounds. *)
Fixpoint drain_lines (rounds : nat) (p : SseParser) : list SseEvent * SseParser :=
  match rounds with
  | O => ([], p)
  | S rounds' =>
      match split_once NL (buffer p) with
      | None => ([], p)
      | Some (line, rest) =>
          let '(events, p1) := take_line line (with_buffer rest p) in
          let '(more, p2) := drain_lines rounds' p1 in
          (events ++ more, p2)
      end
  end.

Definition push (chunk : bytes) (p : SseParser) : list SseEvent * SseParser :=
  let p' := with_buffer (buffer p ++ chunk) p in
  drain_lines (length (buffer p')) p'.

Definition finish (p : SseParser) : option SseEvent :=
  let p' := match buffer p with
            | [] => p
            | line => match strip_prefix $"data:" line with
                      | Some value => {| buffer := []; event_name := event_name p;
                                         data_lines := data_lines p ++ [strip_space value] |}
                      | None => with_buffer [] p
                      end
            end in
  fst (finish_event p').

(** A whole stream, received in the given chunks. *)
Fixpoint push_all (chunks : list bytes) (p : SseParser) : list SseEvent * SseParser :=
  match chunks with
  | [] => ([], p)
  | c :: rest =>
      let '(events, p1) := push c p in
      let '(more, p2) := push_all rest p1 in
      (events ++ more, p2)
  end.

(** *** The bytes of the network ([hermes.rs], [stream_events])

    [String::from_utf8_lossy]: one character from the front of the bytes, or the
    longest beginning of one (at least a byte), which is replaced. The result is
    whether it is a whole character and how many bytes it takes. *)
Definition scan_char (s : bytes) : bool * nat :=
  match s with
  | [] => (true, 0)
  | b0 :: s1 =>
      if between 0 0x7F b0 then (true, 1)
      else match s1 with
      | [] => (false, 1)
      | b1 :: s2 =>
          if between 0xC2 0xDF b0 then if is_continuation b1 then (true, 2) else (false, 1)
          else if between 0xE0 0xEF b0 then
            if second_of_three b0 b1 then
              match s2 with
              | b2 :: _ => if is_continuation b2 then (true, 3) else (false, 2)
              | [] => (false, 2)
              end
            else (false, 1)
          else if between 0xF0 0xF4 b0 && second_of_four b0 b1 then
            match s2 with
            | b2 :: s3 =>
                if is_continuation b2 then
                  match s3 with
                  | b3 :: _ => if is_continuation b3 then (true, 4) else (false, 3)
                  | [] => (false, 3)
                  end
                else (false, 2)
            | [] => (false, 2)
            end
          else (false, 1)
      end
  end%nat.

Definition REPLACEMENT_CHARACTER : bytes :=
  [Ascii.ascii_of_N 0xEF; Ascii.ascii_of_N 0xBF; Ascii.ascii_of_N 0xBD].

(** Every round takes at least one byte, so the length bounds the rounds. *)
Fixpoint lossy_rounds (rounds : nat) (s : bytes) : bytes :=
  match rounds, s with
  | S rounds', _ :: _ =>
      let '(whole, n) := scan_char s in
      (if whole then firstn n s else REPLACEMENT_CHARACTER) ++ lossy_rounds rounds' (skipn n s)
  | _, _ => []
  end.
Definition from_utf8_lossy (s : bytes) : bytes := lossy_rounds (length s) s.

(** The loop of [stream_events] over the chunks of the response body, each of
    them decoded on its own, and the end of the stream. *)
Definition received (chunks : list bytes) : list SseEvent :=
  let '(events, p) := push_all (List.map from_utf8_lossy chunks) SseParser_default in
  events ++ option_list (finish p).

(** ** The reference: one character at a time *)

Definition feed (c : Ascii.ascii) (p : SseParser) : list SseEvent * SseParser :=
  if char_eqb c NL then take_line (buffer p) (with_buffer [] p)
  else ([], with_buffer (buffer p ++ [c]) p).

Fixpoint feed_all (s : bytes) (p : SseParser) : list SseEvent * SseParser :=
  match s with
  | [] => ([], p)
  | c :: s' =>
      let '(events, p1) := feed c p in
      let '(more, p2) := feed_all s' p1 in
      (events ++ more, p2)
  end.

(** The buffer between two calls holds an incomplete line. *)
Definition pending_line (p : SseParser) : Prop := ~ In NL (buffer p).

Lemma feed_all_app s1 s2 p :
  feed_all (s1 ++ s2) p =
  let '(e1, p1) := feed_all s1 p in let '(e2, p2) := feed_all s2 p1 in (e1 ++ e2, p2).
Proof.
  revert p. induction s1 as [|c s1 IH]; intros p; cbn.
  - by destruct (feed_all s2 p).
  - destruct (feed c p) as [e p1]. rewrite IH. destruct (feed_all s1 p1) as [e1 p2].
    destruct (feed_all s2 p2) as [e2 p3]. by rewrite app_assoc.
Qed.

Lemma with_buffer_twice b b' p : with_buffer b (with_buffer b' p) = with_buffer b p.
Proof. done. Qed.

Lemma with_buffer_id p : with_buffer (buffer p) p = p.
Proof. by destruct p. Qed.

(** Characters of an incomplete line only accumulate. *)
Lemma feed_all_line s p :
  ~ In NL s -> feed_all s p = ([], with_buffer (buffer p ++ s) p).
Proof.
  revert p. induction s as [|c s IH]; intros p Hn; cbn.
  - by rewrite app_nil_r, with_buffer_id.
  - unfold feed. rewrite (proj2 (char_eqb_neq c NL)) by (intros ->; apply Hn; by left).
    rewrite IH by (intros H; apply Hn; by right). cbn. by rewrite <- app_assoc.
Qed.

(** A line's fate does not depend on what is buffered behind it. *)
Lemma take_line_buffer line b p :
  let '(e, p1) := take_line line (with_buffer [] p) in
  take_line line (with_buffer b p) = (e, with_buffer b p1).
Proof.
  unfold take_line. destruct (strip_cr line) as [|c l].
  - unfold finish_event. cbn. by destruct (data_lines p), (event_name p).
  - destruct (char_eqb c CHAR_COLON); [done|].
    destruct (split_once CHAR_COLON (c :: l)) as [[f v]|]; cbn;
      repeat case_bool_decide; done.
Qed.

Lemma take_line_keeps_buffer line p : buffer (snd (take_line line p)) = buffer p.
Proof.
  unfold take_line. destruct (strip_cr line) as [|c l].
  - unfold finish_event. by destruct (data_lines p), (event_name p).
  - destruct (char_eqb c CHAR_COLON); [done|].
    destruct (split_once CHAR_COLON (c :: l)) as [[f v]|]; cbn;
      repeat case_bool_decide; done.
Qed.

Lemma split_once_None d s : split_once d s = None <-> ~ In d s.
Proof.
  induction s as [|c s IH]; cbn; [naive_solver|]. destruct (char_eqb c d) eqn:E.
  - apply char_eqb_eq in E as ->. naive_solver.
  - apply char_eqb_neq in E. destruct (split_once d s) as [[]|]; naive_solver.
Qed.

(** Draining the buffer is feeding it to a parser with an empty one. *)
Lemma drain_lines_feed rounds p :
  (length (buffer p) <= rounds)%nat ->
  drain_lines rounds p = feed_all (buffer p) (with_buffer [] p).
Proof.
  revert p. induction rounds as [|n IH]; intros p Hlen; cbn [drain_lines].
  - destruct p as [[|] ? ?]; [done|cbn in Hlen; lia].
  - destruct (split_once NL (buffer p)) as [[line rest]|] eqn:E.
    + apply split_once_Some in E as [Hb Hn]. rewrite Hb, feed_all_app. cbn [feed_all].
      rewrite feed_all_line by done. cbn [with_buffer buffer app].
      change (feed NL _) with (take_line line (with_buffer [] p)). pose proof (take_line_buffer line rest p) as Ht.
      pose proof (take_line_keeps_buffer line (with_buffer [] p)) as Hk.
      destruct (take_line line (with_buffer [] p)) as [e p1]. rewrite Ht. cbn in Hk.
      rewrite IH by (rewrite Hb, length_app in Hlen; cbn in *; lia).
      assert (with_buffer [] (with_buffer rest p1) = p1) as ->
        by (rewrite with_buffer_twice, <- Hk; apply with_buffer_id).
      change (buffer (with_buffer rest p1)) with rest. by destruct (feed_all rest p1).
    + apply split_once_None in E. rewrite feed_all_line by done.
      cbn [with_buffer buffer app]. by destruct p.
Qed.

Lemma push_feed chunk p : pending_line p -> push chunk p = feed_all chunk p.
Proof.
  intros Hp. unfold push. rewrite drain_lines_feed by done. cbn.
  rewrite with_buffer_twice, feed_all_app, feed_all_line by done. cbn.
  rewrite with_buffer_twice, with_buffer_id. by destruct (feed_all chunk p).
Qed.

Lemma feed_all_pending s p : pending_line p -> pending_line (snd (feed_all s p)).
Proof.
  revert p. induction s as [|c s IH]; intros p Hp; [done|]. cbn.
  assert (pending_line (snd (feed c p))) as H1.
  { unfold feed. destruct (char_eqb c NL) eqn:E.
    - unfold pending_line. rewrite take_line_keeps_buffer. by intros [].
    - apply char_eqb_neq in E. cbn. intros [?|[Hc|[]]]%in_app_iff; done. }
  destruct (feed c p) as [e p1]. cbn in H1. specialize (IH p1 H1).
  by destruct (feed_all s p1).
Qed.

Lemma push_all_feed chunks p : pending_line p -> push_all chunks p = feed_all (List.concat chunks) p.
Proof.
  revert p. induction chunks as [|c rest IH]; intros p Hp; [done|].
  cbn [push_all List.concat]. rewrite push_feed, feed_all_app by done. pose proof (feed_all_pending c p Hp) as H1.
  destruct (feed_all c p) as [e p1]. cbn in H1. by rewrite IH.
Qed.

Lemma lossy_rounds_valid n s :
  (length s <= n)%nat -> valid_utf8 s = true -> lossy_rounds n s = s.
Proof.
  revert s. induction n as [|n IH]; intros s Hl Hv; [by destruct s; [|cbn in Hl; lia]|].
  destruct s as [|b0 s1]; [done|]. cbn [lossy_rounds valid_utf8 scan_char length] in *.
  split_if; [cbn; f_equal; apply IH; [lia|done]|]. destruct s1 as [|b1 s2]; [done|]. cbn [length] in *.
  split_if.
  { apply andb_true_iff in Hv as [-> Hv]. cbn. do 2 f_equal. apply IH; [lia|done]. }
  destruct s2 as [|b2 s3]; [done|]. cbn [length] in *. split_if.
  { apply andb_true_iff in Hv as [[-> ->]%andb_true_iff Hv]. cbn. do 3 f_equal. apply IH; [lia|done]. }
  destruct s3 as [|b3 s4]; [done|]. cbn [length] in *.
  rewrite !andb_true_iff in Hv. destruct Hv as ((((-> & ->) & ->) & ->) & Hv). cbn.
  do 4 f_equal. apply IH; [lia|done].
Qed.

Lemma from_utf8_lossy_valid s : valid_utf8 s = true -> from_utf8_lossy s = s.
Proof. by apply lossy_rounds_valid. Qed.

Lemma received_feed chunks :
  Forall (fun c => valid_utf8 c = true) chunks ->
  received chunks =
  let '(events, p) := feed_all (List.concat chunks) SseParser_default in
  events ++ option_list (finish p).
Proof.
  intros Hv. unfold received. rewrite push_all_feed by (by intros []).
  assert (List.map from_utf8_lossy chunks = chunks) as ->; [|done].
  induction Hv as [|c l Hc _ IH]; [done|]. cbn. by rewrite from_utf8_lossy_valid, IH.
Qed.

(** C36. The network may cut the event stream of a run anywhere but inside a
    character: however the bytes of the response are cut, as long as every chunk is
    UTF-8 text of its own, the events handed on and their order are the same, also
    when a chunk ends inside a line, between carriage return and line feed, inside an
    event, or at the end of the stream. Each chunk is decoded on its own, so the
    restriction is needed: see [cut_character_is_lost]. *)
Theorem sse_chunking_irrelevant chunks chunks' :
  Forall (fun c => valid_utf8 c = true) chunks -> Forall (fun c => valid_utf8 c = true) chunks' ->
  List.concat chunks = List.concat chunks' -> received chunks = received chunks'.
Proof. intros H H' E. rewrite !received_feed by done. by rewrite E. Qed.

Lemma sse_chunking_irrelevant_witness :
  received [$"data: "; $"é"; [CR]; [NL; NL] ++ $"data: b"] = received [$"data: é" ++ [CR; NL; NL] ++ $"data: b"]
  /\ received [$"data: é" ++ [CR; NL; NL] ++ $"data: b"]
     = [{| sse_event := None; sse_data := $"é" |}; {| sse_event := None; sse_data := $"b" |}].
Proof.
  split; [|vm_compute; reflexivity].
  apply sse_chunking_irrelevant; [repeat constructor..|reflexivity].
Defined.

(** A chunk that ends inside a character: both halves are replaced, and the event
    that is handed on is not the one that was sent. *)
Lemma cut_character_is_lost :
  let sent := $"data: é" ++ [NL; NL] in
  firstn 7 sent ++ skipn 7 sent = sent
  /\ received [sent] = [{| sse_event := None; sse_data := $"é" |}]
  /\ received [firstn 7 sent; skipn 7 sent]
     = [{| sse_event := None; sse_data := REPLACEMENT_CHARACTER ++ REPLACEMENT_CHARACTER |}].
Proof. vm_compute. repeat split. Qed.
