(* ===== verification/Policy.v ===== *)
(** * Policy: the runtime policy of a project and the settings it reads and
    writes ([policy.rs]).

    A configuration file is the bytes of its text.  The reader recognises
    section headers at column zero and their indented [key: value] children,
    and nothing else of YAML. *)
From Stdlib Require Import Lia.
From S2P Require Import Prelude Text.

Record RuntimeConfiguration : Type := {
  openai_runtime : option bytes;
  approvals_mode : option bytes
}.

Definition is_text (s : string) (o : option bytes) : bool := bool_decide (o = Some (chars s)).

Definition uses_native_codex (c : RuntimeConfiguration) : bool :=
  is_text "codex_app_server" (openai_runtime c).
Definition approvals_bypassed (c : RuntimeConfiguration) : bool :=
  is_text "off" (approvals_mode c).

Definition CODEX_WARNING : string :=
  "UNSAFE RUNTIME: native codex_app_server is running with approvals.mode=off. " +:+
  "Every Codex permission request is auto-approved and no approval.request event " +:+
  "reaches the Asterism API. This mode is for controlled testing only; stop the " +:+
  "project as soon as the test completes.".
Definition CODEX_REASON : string :=
  "model.openai_runtime=codex_app_server requires approvals.mode=off to execute, " +:+
  "which auto-approves every Codex request and emits no approval.request events. " +:+
  "Use the default Hermes agent loop (model.openai_runtime=auto), or pass " +:+
  "--unsafe-allow-codex-approval-bypass for a controlled, supervised test.".

Inductive PolicyDecision : Type :=
| Allow
| AllowWithOverride (warning : string)
| Deny (reason : string).

Definition evaluate (c : RuntimeConfiguration) (override_flag : bool) : PolicyDecision :=
  if negb (uses_native_codex c && approvals_bypassed c) then Allow
  else if override_flag then AllowWithOverride CODEX_WARNING
  else Deny CODEX_REASON.

Record UnsafeRuntime : Type := { unsafe_project_id : string; unsafe_reason : string }.

(** The warning of an override is printed. *)
Definition enforce (project_id : string) (c : RuntimeConfiguration) (override_flag : bool) :
    Result UnsafeRuntime unit :=
  match evaluate c override_flag with
  | Allow | AllowWithOverride _ => Ok tt
  | Deny reason => Err {| unsafe_project_id := project_id; unsafe_reason := reason |}
  end.

Inductive OverrideError : Type := OverrideMissing | OverrideNotApplicable.

Definition require_override_for_unsafe_test (c : RuntimeConfiguration) (override_flag : bool) :
    Result OverrideError unit :=
  if negb override_flag then Err OverrideMissing
  else if negb (uses_native_codex c) then Err OverrideNotApplicable
  else Ok tt.

(** ** Lines *)

Definition COLON : Ascii.ascii := Ascii.ascii_of_N 58.
Definition HASH : Ascii.ascii := Ascii.ascii_of_N 35.
Definition SINGLE : Ascii.ascii := Ascii.ascii_of_N 39.
Definition DOUBLE : Ascii.ascii := Ascii.ascii_of_N 34.

Fixpoint strip_comment_from (in_single in_double : bool) (line : bytes) : bytes :=
  match line with
  | [] => []
  | ch :: rest =>
      if char_eqb ch SINGLE && negb in_double then ch :: strip_comment_from (negb in_single) in_double rest
      else if char_eqb ch DOUBLE && negb in_single
      then ch :: strip_comment_from in_single (negb in_double) rest
      else if char_eqb ch HASH && negb in_single && negb in_double then []
      else ch :: strip_comment_from in_single in_double rest
  end.
Definition strip_comment (line : bytes) : bytes := strip_comment_from false false line.

Definition is_empty (s : bytes) : bool := match s with [] => true | _ => false end.
Definition is_indent (c : Ascii.ascii) : bool := char_eqb c SP || char_eqb c TAB.
Definition indented (line : bytes) : bool :=
  match line with c :: _ => is_indent c | [] => false end.

(** Whether a line without its comment is the header of [section]. *)
Definition opens (section line : bytes) : bool :=
  bool_decide (trim_end_matches (fun c => char_eqb c COLON) (trim_end line) = section)
  && ends_with [COLON] (trim_end line).

Fixpoint take_while (f : Ascii.ascii -> bool) (s : bytes) : bytes :=
  match s with
  | [] => []
  | c :: s' => if f c then c :: take_while f s' else []
  end.

(** ** Reading *)

Definition is_quote (c : Ascii.ascii) : bool := char_eqb c DOUBLE || char_eqb c SINGLE.

Fixpoint lookup_lines (section key : bytes) (in_section : bool) (ls : list bytes) : option bytes :=
  match ls with
  | [] => None
  | raw :: rest =>
      let without_comment := strip_comment raw in
      if is_empty (trim without_comment) then lookup_lines section key in_section rest
      else if negb (indented without_comment)
      then lookup_lines section key (opens section without_comment) rest
      else if negb in_section then lookup_lines section key in_section rest
      else match strip_prefix (key ++ [COLON]) (trim without_comment) with
           | Some value =>
               let value := trim_matches is_quote (trim value) in
               if is_empty value then None else Some value
           | None => lookup_lines section key in_section rest
           end
  end.

Definition lookup (body section key : bytes) : option bytes :=
  lookup_lines section key false (lines body).

Definition parse_runtime_configuration (body : bytes) : RuntimeConfiguration :=
  {| openai_runtime := lookup body $"model" $"openai_runtime";
     approvals_mode := lookup body $"approvals" $"mode" |}.

(** [None] when the file cannot be read. *)
Definition read_runtime_configuration (file : option bytes) : option RuntimeConfiguration :=
  match file with
  | Some body => if valid_utf8 body then Some (parse_runtime_configuration body) else None
  | None => None
  end.

(** ** Writing *)

Record SetState : Type := {
  st_in_section : bool;
  st_wrote : bool;
  st_section_seen : bool;
  st_indent : bytes
}.

Definition setting (indent key value : bytes) : bytes := indent ++ key ++ $": " ++ value.

(** The lines one line of the file becomes. *)
Definition set_line (section key value raw : bytes) (st : SetState) : list bytes * SetState :=
  let without_comment := strip_comment raw in
  if negb (is_empty (trim without_comment)) && negb (indented without_comment) then
    let leaving := st_in_section st && negb (st_wrote st) in
    let entered := opens section without_comment in
    ((if leaving then [setting (st_indent st) key value] else []) ++ [raw],
     {| st_in_section := entered; st_wrote := st_wrote st || leaving;
        st_section_seen := st_section_seen st || entered; st_indent := st_indent st |})
  else if st_in_section st && negb (st_wrote st) then
    let trimmed := trim without_comment in
    let indent := if is_empty trimmed then st_indent st else take_while is_indent without_comment in
    if starts_with (key ++ [COLON]) trimmed
    then ([setting indent key value],
          {| st_in_section := st_in_section st; st_wrote := true;
             st_section_seen := st_section_seen st; st_indent := indent |})
    else ([raw],
          {| st_in_section := st_in_section st; st_wrote := st_wrote st;
             st_section_seen := st_section_seen st; st_indent := indent |})
  else ([raw], st).

Fixpoint set_lines (section key value : bytes) (st : SetState) (ls : list bytes) :
    list bytes * SetState :=
  match ls with
  | [] => ([], st)
  | raw :: rest =>
      let '(out, st1) := set_line section key value raw st in
      let '(more, st2) := set_lines section key value st1 rest in
      (out ++ more, st2)
  end.

Definition set_start : SetState :=
  {| st_in_section := false; st_wrote := false; st_section_seen := false; st_indent := $"  " |}.

(** What is appended when the key was written nowhere. *)
Definition set_tail (section key value : bytes) (st : SetState) : list bytes :=
  if st_wrote st then []
  else (if st_section_seen st then [] else [section ++ [COLON]])
       ++ [setting (st_indent st) key value].

Definition set_setting (body section key value : bytes) : bytes :=
  let '(out, st) := set_lines section key value set_start (lines body) in
  join [NL] (out ++ set_tail section key value st) ++ [NL].

(** ** Callers: pinning a project's model, and the start guard ([main.rs]) *)

Definition CONTAINER_WORKSPACE_DIR : bytes := $"/workspace".

Definition set_opt (section key : bytes) (value : option bytes) (body : bytes) : bytes :=
  match value with Some v => set_setting body section key v | None => body end.

(** The new text of the file, and whether it differs from the old; [None] when
    there is no readable file. *)
Definition pin_model_configuration (file : option bytes) (model provider : option bytes) :
    option (bytes * bool) :=
  match file with
  | None => None
  | Some original =>
      if negb (valid_utf8 original) then None
      else
        let updated := set_opt $"model" $"default" model original in
        let updated := set_opt $"model" $"provider" provider updated in
        let updated := set_setting updated $"terminal" $"cwd" CONTAINER_WORKSPACE_DIR in
        Some (updated, negb (bool_decide (updated = original)))
  end.

(** A project without a configuration file has nothing to refuse. *)
Definition enforce_runtime_policy (project_id : string) (file : option bytes) (override_flag : bool) :
    option (Result UnsafeRuntime unit) :=
  match file with
  | None => Some (Ok tt)
  | Some _ =>
      match read_runtime_configuration file with
      | Some c => Some (enforce project_id c override_flag)
      | None => None
      end
  end.

(** ** Words: what sections, keys and values are made of *)

Definition word_char (c : Ascii.ascii) : bool :=
  plain_char c && negb (char_eqb c SINGLE) && negb (char_eqb c DOUBLE) && negb (char_eqb c HASH).
Definition word (s : bytes) : bool := negb (is_empty s) && List.forallb word_char s.
(** A section or a key also has no colon. *)
Definition name (s : bytes) : bool := word s && List.forallb (fun c => negb (char_eqb c COLON)) s.

Definition good_indent (i : bytes) : bool := negb (is_empty i) && List.forallb is_indent i.

Lemma word_inv s : word s = true -> List.forallb word_char s = true /\ exists c s', s = c :: s'.
Proof. unfold word. intros [Hn Hw]%andb_true_iff. split; [done|]. destruct s; [done|]. eauto. Qed.

Lemma word_char_inv c :
  word_char c = true -> plain_char c = true /\ c <> SINGLE /\ c <> DOUBLE /\ c <> HASH.
Proof.
  unfold word_char. rewrite !andb_true_iff, !negb_true_iff. intros [[[Hp H1] H2] H3].
  by rewrite char_eqb_neq in H1, H2, H3.
Qed.

Lemma word_char_no_indent c : word_char c = true -> is_indent c = false.
Proof.
  intros [Hp _]%word_char_inv. unfold is_indent. apply orb_false_iff.
  split; apply char_eqb_neq; by intros ->.
Qed.

Lemma is_indent_ws c : is_indent c = true -> ws1 c = true.
Proof. unfold is_indent. intros [->%char_eqb_eq| ->%char_eqb_eq]%orb_true_iff; done. Qed.

Lemma strip_comment_plain l :
  (forall c, In c l -> c <> SINGLE /\ c <> DOUBLE /\ c <> HASH) -> strip_comment l = l.
Proof.
  unfold strip_comment. induction l as [|c l IH]; intros Hl; [done|]. cbn [strip_comment_from].
  destruct (Hl c) as (H1 & H2 & H3); [by left|].
  rewrite (proj2 (char_eqb_neq _ _) H1), (proj2 (char_eqb_neq _ _) H2), (proj2 (char_eqb_neq _ _) H3).
  cbn [andb]. f_equal. apply IH. intros x Hx. apply Hl. by right.
Qed.

Lemma trim_indent i c s :
  List.forallb is_indent i = true -> word_char c = true -> trim_start (i ++ c :: s) = c :: s.
Proof.
  intros Hi Hc. unfold trim_start. induction i as [|x i IH]; cbn [app].
  - apply trim_by_head. by apply word_char_inv in Hc as [? _].
  - cbn in Hi. apply andb_true_iff in Hi as [Hx Hi]. cbn [trim_by]. rewrite (is_indent_ws _ Hx). auto.
Qed.

Lemma trim_end_last s c : plain_char c = true -> trim_end (s ++ [c]) = s ++ [c].
Proof.
  intros Hc. unfold trim_end. rewrite rev_app_distr. cbn [rev app].
  rewrite trim_by_head by done. cbn. by rewrite rev_involutive.
Qed.

Lemma word_last s : word s = true -> exists s' c, s = s' ++ [c] /\ plain_char c = true.
Proof.
  intros [Hw (c & s' & ->)]%word_inv. destruct (exists_last (l := c :: s')) as (t & x & E); [done|].
  exists t, x. split; [done|]. rewrite E, forallb_app in Hw. apply andb_true_iff in Hw as [_ Hx].
  cbn in Hx. rewrite andb_true_r in Hx. by apply word_char_inv in Hx as [? _].
Qed.

Lemma take_while_indent i c s :
  List.forallb is_indent i = true -> is_indent c = false -> take_while is_indent (i ++ c :: s) = i.
Proof.
  intros Hi Hc. induction i as [|x i IH]; cbn; [by rewrite Hc|].
  cbn in Hi. apply andb_true_iff in Hi as [-> Hi]. by rewrite IH.
Qed.

Lemma take_while_good w : indented w = true -> good_indent (take_while is_indent w) = true.
Proof.
  unfold good_indent. destruct w as [|c w]; [done|]. cbn [indented take_while]. intros E. rewrite E.
  assert (forall l, List.forallb is_indent (take_while is_indent l) = true) as Hall.
  { induction l as [|x l IH]; [done|]. cbn. destruct (is_indent x) eqn:Ex; [|done]. cbn. by rewrite Ex. }
  cbn. by rewrite E, Hall.
Qed.

(** Two names followed by a colon are prefixes of one another only when equal. *)
Lemma name_prefix k k' s :
  name k = true -> name k' = true -> k <> k' ->
  strip_prefix (k' ++ [COLON]) (k ++ COLON :: s) = None.
Proof.
  unfold name. intros [_ Hk]%andb_true_iff [_ Hk']%andb_true_iff. revert k' Hk'.
  induction k as [|c k IH]; intros [|c' k'] Hk' Hne;
    cbn [app strip_prefix List.forallb] in *; rewrite ?andb_true_iff in *; destruct_and?.
  - done.
  - assert (char_eqb c' COLON = false) as -> by (by apply negb_true_iff). done.
  - assert (char_eqb COLON c = false) as ->; [|done]. apply char_eqb_neq. intros <-.
    by rewrite char_eqb_refl in *.
  - destruct (char_eqb c' c) eqn:E; [|done]. apply char_eqb_eq in E as ->. apply IH; [done..|congruence].
Qed.

(** ** What one line says *)

(** The reading of a line both functions share. *)
Inductive reading : Type :=
| Blank
| Header (line : bytes)
| Child (line : bytes).

Definition read_line (raw : bytes) : reading :=
  let w := strip_comment raw in
  if is_empty (trim w) then Blank else if indented w then Child w else Header w.

Lemma lookup_cons section key b raw rest :
  lookup_lines section key b (raw :: rest) =
  match read_line raw with
  | Blank => lookup_lines section key b rest
  | Header w => lookup_lines section key (opens section w) rest
  | Child w =>
      if b then
        match strip_prefix (key ++ [COLON]) (trim w) with
        | Some v => let v := trim_matches is_quote (trim v) in if is_empty v then None else Some v
        | None => lookup_lines section key b rest
        end
      else lookup_lines section key b rest
  end.
Proof.
  cbn [lookup_lines]. unfold read_line. destruct (is_empty (trim (strip_comment raw))); [done|].
  destruct (indented (strip_comment raw)); [|done]. by destruct b.
Qed.

Lemma read_header section : name section = true -> read_line (section ++ [COLON]) = Header (section ++ [COLON]).
Proof.
  unfold name. intros [Hw _]%andb_true_iff. pose proof Hw as [Hall (c & s' & Es)]%word_inv.
  assert (word_char c = true) as Hc by (rewrite Es in Hall; cbn in Hall; by apply andb_true_iff in Hall as [? _]).
  unfold read_line. rewrite strip_comment_plain.
  - rewrite Es. cbn [app indented]. rewrite (word_char_no_indent _ Hc).
    assert (trim (c :: s' ++ [COLON]) <> []) as Hne; [|by destruct (trim _)].
    unfold trim. pose proof (trim_indent [] c (s' ++ [COLON]) eq_refl Hc) as Ht. cbn [app] in Ht. rewrite Ht.
    change (c :: s' ++ [COLON]) with ((c :: s') ++ [COLON]). rewrite trim_end_last by done. by destruct s'.
  - intros x [Hx|[<-|[]]]%in_app_iff; [|done]. rewrite forallb_forall in Hall.
    by destruct (word_char_inv _ (Hall _ Hx)) as (_ & ?).
Qed.

Lemma opens_header section section' :
  name section = true -> opens section' (section ++ [COLON]) = bool_decide (section = section').
Proof.
  unfold name. intros [Hw Hc]%andb_true_iff. unfold opens. rewrite trim_end_last by done.
  assert (trim_end_matches (fun c => char_eqb c COLON) (section ++ [COLON]) = section) as ->.
  { unfold trim_end_matches. rewrite rev_app_distr. cbn [rev app drop_while]. rewrite char_eqb_refl.
    by apply trim_end_matches_none. }
  unfold ends_with. rewrite rev_app_distr. cbn. by rewrite andb_true_r.
Qed.

Section Setting.
Context (key value : bytes) (key_name : name key = true) (value_word : word value = true).

Lemma setting_chars i c :
  good_indent i = true -> In c (setting i key value) -> is_indent c = true \/ word_char c = true.
Proof.
  intros [_ Hi]%andb_true_iff. pose proof key_name as [[Hk _]%word_inv _]%andb_true_iff.
  pose proof value_word as [Hv _]%word_inv. rewrite forallb_forall in Hi, Hk, Hv.
  unfold setting. rewrite !in_app_iff. intros [Hc|[Hc|[Hc|Hc]]]; auto.
  cbn in Hc. destruct Hc as [<-|[<-|[]]]; [by right|by left].
Qed.

Lemma setting_one_line i : good_indent i = true -> ~ In NL (setting i key value) /\ ~ In CR (setting i key value).
Proof. intros Hi. split; intros [H|H]%(setting_chars i _ Hi); by vm_compute in H. Qed.

Lemma setting_trim i : good_indent i = true -> trim (setting i key value) = key ++ COLON :: SP :: value.
Proof.
  intros [_ Hi]%andb_true_iff. pose proof key_name as [[Hk (c & k & Ek)]%word_inv _]%andb_true_iff.
  assert (word_char c = true) as Hc by (rewrite Ek in Hk; cbn in Hk; by apply andb_true_iff in Hk as [? _]).
  destruct (word_last _ value_word) as (v & x & Ev & Hx).
  unfold trim, setting. rewrite Ek, Ev. cbn [app]. rewrite trim_indent by done.
  change ($": " ++ v ++ [x]) with (COLON :: SP :: v ++ [x]).
  change (c :: k ++ COLON :: SP :: v ++ [x]) with ((c :: k) ++ (COLON :: SP :: v) ++ [x]).
  rewrite app_assoc, trim_end_last by done. by rewrite <- app_assoc.
Qed.

Lemma read_setting i : good_indent i = true -> read_line (setting i key value) = Child (setting i key value).
Proof.
  intros Hi. unfold read_line. rewrite strip_comment_plain.
  - rewrite setting_trim by done. assert (is_empty (key ++ COLON :: SP :: value) = false) as ->
      by (by destruct key). apply andb_true_iff in Hi as [Hne Hi]. destruct i as [|c i]; [done|].
    cbn [setting app indented]. cbn in Hi. by apply andb_true_iff in Hi as [-> _].
  - intros c [Hc|Hc]%(setting_chars i _ Hi); [|by apply word_char_inv in Hc as (_ & ?)].
    by repeat split; intros ->.
Qed.

(** Reading the line back. *)
Lemma lookup_setting section i rest :
  good_indent i = true -> lookup_lines section key true (setting i key value :: rest) = Some value.
Proof.
  intros Hi. rewrite lookup_cons, read_setting, setting_trim by done.
  change (key ++ COLON :: SP :: value) with (key ++ [COLON] ++ SP :: value).
  rewrite app_assoc, strip_prefix_app. pose proof value_word as [Hv (c & v & Ev)]%word_inv.
  assert (trim (SP :: value) = value) as ->.
  { destruct (word_last _ value_word) as (t & x & Et & Hx). unfold trim. rewrite Ev in *.
    assert (word_char c = true) as Hc by (cbn in Hv; by apply andb_true_iff in Hv as [? _]).
    pose proof (trim_indent [SP] c v eq_refl Hc) as Ht. cbn [app] in Ht. rewrite Ht, Et.
    by apply trim_end_last. }
  assert (List.forallb (fun c => negb (is_quote c)) value = true) as Hq.
  { rewrite forallb_forall in *. intros x Hx. apply Hv, word_char_inv in Hx as (_ & H1 & H2 & _).
    unfold is_quote. by rewrite (proj2 (char_eqb_neq _ _) H1), (proj2 (char_eqb_neq _ _) H2). }
  unfold trim_matches. rewrite drop_while_none, trim_end_matches_none by done. by rewrite Ev.
Qed.

Lemma lookup_setting_other section key' b i rest :
  good_indent i = true -> name key' = true -> (b = true -> key <> key') ->
  lookup_lines section key' b (setting i key value :: rest) = lookup_lines section key' b rest.
Proof.
  intros Hi Hk Hne. rewrite lookup_cons, read_setting, setting_trim by done.
  destruct b; [|done]. rewrite name_prefix by auto. done.
Qed.
End Setting.

(** ** What writing does, line by line *)

Definition with_indent (indent : bytes) (st : SetState) : SetState :=
  {| st_in_section := st_in_section st; st_wrote := st_wrote st;
     st_section_seen := st_section_seen st; st_indent := indent |}.
Definition written (indent : bytes) (st : SetState) : SetState :=
  {| st_in_section := st_in_section st; st_wrote := true;
     st_section_seen := st_section_seen st; st_indent := indent |}.
Definition entering (section w : bytes) (st : SetState) : SetState :=
  {| st_in_section := opens section w;
     st_wrote := st_wrote st || (st_in_section st && negb (st_wrote st));
     st_section_seen := st_section_seen st || opens section w; st_indent := st_indent st |}.

Lemma set_line_spec section key value raw st :
  set_line section key value raw st =
  match read_line raw with
  | Blank => ([raw], st)
  | Header w =>
      ((if st_in_section st && negb (st_wrote st) then [setting (st_indent st) key value] else []) ++ [raw],
       entering section w st)
  | Child w =>
      if st_in_section st && negb (st_wrote st) then
        let indent := take_while is_indent w in
        if starts_with (key ++ [COLON]) (trim w)
        then ([setting indent key value], written indent st)
        else ([raw], with_indent indent st)
      else ([raw], st)
  end.
Proof.
  unfold set_line, read_line. destruct (trim (strip_comment raw)) as [|c t] eqn:Et; cbn [is_empty negb andb].
  - split_if; [|done]. rewrite ?Et. assert (starts_with (key ++ [COLON]) [] = false) as -> by (by destruct key).
    by destruct st.
  - destruct (indented (strip_comment raw)); [|done]. cbn [negb andb]. rewrite ?Et. done.
Qed.

(** While the key is not written, the section was seen exactly when it is the
    current one, and the indentation is one. *)
Record pending_ok (st : SetState) : Prop := {
  po_seen : st_wrote st = false -> st_section_seen st = st_in_section st;
  po_indent : good_indent (st_indent st) = true
}.

Lemma read_child_indent raw w : read_line raw = Child w -> good_indent (take_while is_indent w) = true.
Proof.
  unfold read_line. split_if; [done|]. destruct (indented (strip_comment raw)) eqn:E; [|done].
  intros [= <-]. by apply take_while_good.
Qed.

Lemma set_line_pending section key value raw st :
  pending_ok st -> pending_ok (snd (set_line section key value raw st)).
Proof.
  intros [Hs Hi]. rewrite set_line_spec. destruct (read_line raw) as [|w|w] eqn:E; [done|split; cbn; [|done]|].
  - intros [Hw Hl]%orb_false_iff. rewrite Hw in *. cbn in Hl. rewrite andb_true_r in Hl.
    by rewrite Hs, Hl by done.
  - pose proof (read_child_indent _ _ E) as Hg. repeat split_if; split; cbn; done.
Qed.

(** Once written, the rest of the file is copied. *)
Lemma set_lines_written section key value ls st :
  st_wrote st = true -> fst (set_lines section key value st ls) = ls
    /\ st_wrote (snd (set_lines section key value st ls)) = true.
Proof.
  revert st. induction ls as [|raw ls IH]; intros st Hw; [done|]. cbn [set_lines].
  assert (set_line section key value raw st
    = ([raw], snd (set_line section key value raw st))
    /\ st_wrote (snd (set_line section key value raw st)) = true) as [-> Hw'].
  { rewrite set_line_spec, Hw. destruct (read_line raw); cbn; rewrite ?andb_false_r; cbn; rewrite ?Hw; done. }
  destruct (IH _ Hw') as [IH1 IH2]. destruct (set_lines _ _ _ _ ls) as [more st2]. cbn in *. by rewrite IH1.
Qed.

(** The lines of the new file. *)
Definition new_lines (section key value : bytes) (st : SetState) (ls : list bytes) : list bytes :=
  let '(out, st') := set_lines section key value st ls in out ++ set_tail section key value st'.

Lemma new_lines_nil section key value st :
  new_lines section key value st [] = set_tail section key value st.
Proof. done. Qed.

Lemma new_lines_cons section key value st raw ls :
  new_lines section key value st (raw :: ls) =
  fst (set_line section key value raw st)
    ++ new_lines section key value (snd (set_line section key value raw st)) ls.
Proof.
  unfold new_lines. cbn [set_lines]. destruct (set_line _ _ _ _ _) as [out st1]. cbn [fst snd].
  destruct (set_lines _ _ _ st1 ls) as [more st2]. by rewrite <- app_assoc.
Qed.

Lemma new_lines_written section key value st ls :
  st_wrote st = true -> new_lines section key value st ls = ls.
Proof.
  intros Hw. destruct (set_lines_written section key value ls st Hw) as [H1 H2]. unfold new_lines.
  destruct (set_lines _ _ _ _ _) as [out st']. cbn in *. subst out. unfold set_tail. by rewrite H2, app_nil_r.
Qed.

Section Writing.
Context (section key value : bytes).
Context (section_name : name section = true) (key_name : name key = true) (value_word : word value = true).

Lemma In_new_lines l st ls :
  pending_ok st -> In l (new_lines section key value st ls) ->
  In l ls \/ l = section ++ [COLON] \/ exists i, good_indent i = true /\ l = setting i key value.
Proof.
  revert st. induction ls as [|raw ls IH]; intros st Hok.
  - rewrite new_lines_nil. unfold set_tail. destruct (st_wrote st); [done|].
    intros [Hl|[<-|[]]]%in_app_iff; [|right; right; eexists; split; [apply Hok|done]].
    destruct (st_section_seen st); [done|]. destruct Hl as [<-|[]]. auto.
  - rewrite new_lines_cons. intros [Hl|Hl]%in_app_iff.
    + rewrite set_line_spec in Hl. destruct (read_line raw) as [|w|w] eqn:E.
      * destruct Hl as [<-|[]]. by left; left.
      * apply in_app_iff in Hl as [Hl|[<-|[]]]; [|by left; left].
        destruct (_ && _); [|done]. destruct Hl as [<-|[]]. right; right. eexists. split; [apply Hok|done].
      * cbv zeta in Hl. destruct (_ && _); [|destruct Hl as [<-|[]]; by left; left].
        destruct (starts_with _ _); destruct Hl as [<-|[]]; [|by left; left].
        right; right. eexists. split; [by eapply read_child_indent|done].
    + apply IH in Hl; [|by apply set_line_pending]. destruct Hl as [?|?]; [by left; right|by right].
Qed.

(** Reading the key back. *)
Lemma lookup_new_lines st ls :
  pending_ok st -> st_wrote st = false ->
  lookup_lines section key (st_in_section st) (new_lines section key value st ls) = Some value.
Proof.
  revert st. induction ls as [|raw ls IH]; intros st Hok Hw.
  - rewrite new_lines_nil. unfold set_tail. rewrite Hw, (po_seen _ Hok Hw). pose proof (po_indent _ Hok) as Hi.
    destruct (st_in_section st); cbn [app]; [by apply lookup_setting|].
    rewrite lookup_cons, read_header, opens_header by done. rewrite bool_decide_eq_true_2 by done.
    by apply lookup_setting.
  - rewrite new_lines_cons. pose proof (set_line_pending section key value raw st Hok) as Hok'.
    rewrite set_line_spec in *. rewrite Hw in *. rewrite andb_true_r in *.
    destruct (read_line raw) as [|w|w] eqn:E.
    + cbn [fst snd app]. rewrite lookup_cons, E. by apply IH.
    + destruct (st_in_section st) eqn:Ei; cbn [fst snd app]; [apply lookup_setting; [done..|apply Hok]|].
      rewrite lookup_cons, E. apply (IH (entering section w st)); [exact Hok'|]. cbn. by rewrite Hw, Ei.
    + pose proof (read_child_indent _ _ E) as Hg. destruct (st_in_section st) eqn:Ei.
      * cbv zeta in *. unfold starts_with in *. destruct (strip_prefix (key ++ [COLON]) (trim w)) eqn:Ep;
          cbn [fst snd app]; [by apply lookup_setting|].
        rewrite lookup_cons, E, Ep. rewrite <- Ei at 1. apply (IH (with_indent _ st)); [exact Hok'|exact Hw].
      * cbn [fst snd app]. rewrite lookup_cons, E. rewrite <- Ei at 1. by apply IH.
Qed.

(** Every other setting reads as before. *)
Lemma lookup_new_lines_other section' key' b st ls :
  pending_ok st -> name key' = true -> (section, key) <> (section', key') ->
  (st_in_section st = true -> b = true -> section = section') ->
  lookup_lines section' key' b (new_lines section key value st ls) = lookup_lines section' key' b ls.
Proof.
  intros Hok Hk Hne Hb. destruct (st_wrote st) eqn:Hw; [by rewrite new_lines_written|].
  revert st b Hok Hb Hw. induction ls as [|raw ls IH]; intros st b Hok Hb Hw.
  - rewrite new_lines_nil. unfold set_tail. rewrite Hw, (po_seen _ Hok Hw). pose proof (po_indent _ Hok) as Hi.
    destruct (st_in_section st); cbn [app].
    + rewrite lookup_setting_other; [done..|]. intros -> ->. by rewrite Hb in Hne.
    + rewrite lookup_cons, read_header, opens_header by done. rewrite lookup_setting_other; [done..|].
      intros ->%bool_decide_eq_true_1. naive_solver.
  - rewrite new_lines_cons. pose proof (set_line_pending section key value raw st Hok) as Hok'.
    rewrite set_line_spec in *. rewrite Hw in *. rewrite andb_true_r in *.
    rewrite (lookup_cons _ _ _ raw ls). destruct (read_line raw) as [|w|w] eqn:E.
    + cbn [fst snd app]. rewrite lookup_cons, E. by apply IH.
    + assert (lookup_lines section' key' (opens section' w)
        (new_lines section key value (entering section w st) ls) = lookup_lines section' key' (opens section' w) ls) as Hr.
      { destruct (st_in_section st) eqn:Ei.
        - apply f_equal, new_lines_written. cbn. by rewrite Hw, Ei.
        - apply IH; [exact Hok'| |cbn; by rewrite Hw, Ei]. cbn. unfold opens.
          intros [<-%bool_decide_eq_true_1 _]%andb_true_iff [?%bool_decide_eq_true_1 _]%andb_true_iff. done. }
      destruct (st_in_section st) eqn:Ei; cbn [fst snd app].
      * rewrite lookup_setting_other; [|done..|apply Hok|done|intros -> ->; by rewrite Hb in Hne].
        by rewrite lookup_cons, E.
      * by rewrite lookup_cons, E.
    + pose proof (read_child_indent _ _ E) as Hg. destruct (st_in_section st) eqn:Ei.
      2: { cbn [fst snd app]. rewrite lookup_cons, E. destruct b; [|by apply IH; [| rewrite Ei|]].
           rewrite IH; [done..|by rewrite Ei|done]. }
      cbv zeta in *. unfold starts_with in *.
      destruct (strip_prefix (key ++ [COLON]) (trim w)) as [v|] eqn:Ep; cbn [fst snd app].
      * rewrite new_lines_written by done.
        rewrite lookup_setting_other; [|done..|intros -> ->; by rewrite Hb in Hne].
        destruct b; [|done]. assert (section = section') as <- by auto.
        apply strip_prefix_Some in Ep. rewrite Ep, <- app_assoc. cbn [app].
        rewrite name_prefix; [done..|]. intros ->. done.
      * rewrite lookup_cons, E. rewrite (IH (with_indent _ st)); [done|exact Hok'|intros _ Hb1; apply Hb; auto|exact Hw].
Qed.

(** A line that was written is written again as it is. *)
Lemma set_line_again i st :
  good_indent i = true -> st_in_section st = true -> st_wrote st = false ->
  set_line section key value (setting i key value) st = ([setting i key value], written i st).
Proof.
  intros Hi Hs Hw. rewrite set_line_spec, read_setting, setting_trim, Hs, Hw by done. cbn [negb andb].
  assert (take_while is_indent (setting i key value) = i) as ->.
  { pose proof key_name as [[Hk (c & k & Ek)]%word_inv _]%andb_true_iff. unfold setting. rewrite Ek.
    apply andb_true_iff in Hi as [_ Hi]. cbn [app]. apply take_while_indent; [done|].
    apply word_char_no_indent. rewrite Ek in Hk. cbn in Hk. by apply andb_true_iff in Hk as [? _]. }
  change (key ++ COLON :: SP :: value) with (key ++ [COLON] ++ SP :: value).
  by rewrite app_assoc, starts_with_app.
Qed.

Lemma new_lines_again st ls :
  pending_ok st -> st_wrote st = false ->
  new_lines section key value st (new_lines section key value st ls) = new_lines section key value st ls.
Proof.
  assert (forall i st rest, good_indent i = true -> st_in_section st = true -> st_wrote st = false ->
    new_lines section key value st (setting i key value :: rest) = setting i key value :: rest) as Hset.
  { intros i st' rest Hi Hs Hw. rewrite new_lines_cons, set_line_again by done. cbn [fst snd app].
    by rewrite new_lines_written. }
  revert st. induction ls as [|raw ls IH]; intros st Hok Hw; pose proof (po_indent _ Hok) as Hi.
  - rewrite new_lines_nil. unfold set_tail. rewrite Hw, (po_seen _ Hok Hw).
    destruct (st_in_section st) eqn:Ei; cbn [app]; [by apply Hset|].
    rewrite new_lines_cons, set_line_spec, read_header, Hw, Ei by done. cbn [fst snd app andb negb]. f_equal.
    apply Hset; [done|..]; cbn; [by rewrite opens_header, bool_decide_eq_true_2|by rewrite Hw, Ei].
  - rewrite (new_lines_cons _ _ _ st raw ls).
    pose proof (set_line_pending section key value raw st Hok) as Hok'.
    assert (forall st1, set_line section key value raw st = ([raw], st1) -> st_wrote st1 = false ->
      new_lines section key value st (fst (set_line section key value raw st) ++
        new_lines section key value (snd (set_line section key value raw st)) ls)
      = fst (set_line section key value raw st)
        ++ new_lines section key value (snd (set_line section key value raw st)) ls) as Hcopy.
    { intros st1 E Hw1. rewrite E in *. cbn [fst snd app]. rewrite new_lines_cons, E. cbn [fst snd app].
      f_equal. by apply IH. }
    pose proof (set_line_spec section key value raw st) as E. rewrite Hw, andb_true_r in E.
    destruct (read_line raw) as [|w|w] eqn:Er; [by apply (Hcopy st)| |].
    + destruct (st_in_section st) eqn:Ei.
      * rewrite E. cbn [fst snd app]. by apply Hset.
      * apply (Hcopy (entering section w st)); [done|]. cbn. by rewrite Hw, Ei.
    + pose proof (read_child_indent _ _ Er) as Hg. destruct (st_in_section st) eqn:Ei; [|by apply (Hcopy st)].
      cbv zeta in E. destruct (starts_with (key ++ [COLON]) (trim w)).
      * rewrite E. cbn [fst snd app]. by apply Hset.
      * by apply (Hcopy (with_indent (take_while is_indent w) st)).
Qed.

(** The new text, as lines. *)
Lemma set_start_ok : pending_ok set_start.
Proof. by split. Qed.

Lemma set_setting_text body :
  set_setting body section key value
  = join [NL] (new_lines section key value set_start (lines body)) ++ [NL].
Proof. unfold set_setting, new_lines. by destruct (set_lines _ _ _ _ _). Qed.

Lemma name_chars s c : name s = true -> In c s -> word_char c = true.
Proof. intros [[Hw _]%word_inv _]%andb_true_iff. rewrite forallb_forall in Hw. auto. Qed.

Lemma new_line_chars l c body :
  ~ In CR body -> In l (new_lines section key value set_start (lines body)) -> In c l -> c <> NL /\ c <> CR.
Proof.
  intros Hcr Hl Hc. apply In_new_lines in Hl; [|apply set_start_ok].
  assert (forall x, is_indent x = true \/ word_char x = true -> x <> NL /\ x <> CR) as Hx
    by (intros x [H|H]; split; intros ->; vm_compute in H; discriminate H).
  destruct Hl as [Hl|[->|(i & Hi & ->)]].
  - destruct (In_lines l body Hl Hcr) as [Hn Hr]. split; intros ->; contradiction.
  - apply Hx. apply in_app_iff in Hc as [Hc|[<-|[]]]; [|by right]. right. exact (name_chars section c section_name Hc).
  - apply Hx. by apply (setting_chars key value key_name value_word i).
Qed.

Lemma lines_set_setting body :
  ~ In CR body ->
  lines (set_setting body section key value) = new_lines section key value set_start (lines body).
Proof.
  intros Hcr. rewrite set_setting_text. apply lines_join.
  - intros l Hl. split; intros Hc; by destruct (new_line_chars l _ body Hcr Hl Hc).
  - intros E. pose proof (lookup_new_lines set_start (lines body) set_start_ok eq_refl) as Hl.
    by rewrite E in Hl.
Qed.

Lemma set_setting_no_cr body : ~ In CR body -> ~ In CR (set_setting body section key value).
Proof.
  intros Hcr Hc. rewrite set_setting_text in Hc. apply In_join in Hc as [?|(l & Hl & Hc)]; [done|].
  by destruct (new_line_chars l _ body Hcr Hl Hc).
Qed.

Lemma set_setting_valid body :
  ~ In CR body -> valid_utf8 body = true -> valid_utf8 (set_setting body section key value) = true.
Proof.
  intros Hcr Hv. rewrite set_setting_text. apply valid_utf8_join. intros l Hl.
  apply In_new_lines in Hl; [|apply set_start_ok].
  assert (forall x, is_indent x = true \/ word_char x = true -> between 0 0x7F x = true) as Hx.
  { intros x [H|H]; [by apply orb_true_iff in H as [->%char_eqb_eq| ->%char_eqb_eq]|].
    apply word_char_inv in H as [H _]. unfold plain_char, between in *.
    apply andb_true_iff in H as [_ ->]. by rewrite andb_true_r, (proj2 (N.leb_le _ _) (N.le_0_l _)). }
  destruct Hl as [Hl|[->|(i & Hi & ->)]].
  - by eapply valid_utf8_lines.
  - apply valid_utf8_plain, forallb_forall. intros c [Hc|[<-|[]]]%in_app_iff; [|done].
    apply Hx. right. exact (name_chars section c section_name Hc).
  - apply valid_utf8_plain, forallb_forall. intros c Hc. apply Hx.
    by apply (setting_chars key value key_name value_word i).
Qed.
End Writing.

(** Every other section and key reads after a write as it did before. *)
Lemma set_setting_frame body section key value section' key' :
  name section = true -> name key = true -> word value = true -> ~ In CR body ->
  name key' = true -> (section, key) <> (section', key') ->
  lookup (set_setting body section key value) section' key' = lookup body section' key'.
Proof.
  intros Hs Hk Hv Hcr Hk' Hne. unfold lookup. rewrite lines_set_setting by done.
  by apply lookup_new_lines_other.
Qed.

Lemma set_setting_lookup body section key value :
  name section = true -> name key = true -> word value = true -> ~ In CR body ->
  lookup (set_setting body section key value) section key = Some value.
Proof.
  intros Hs Hk Hv Hcr. unfold lookup. rewrite lines_set_setting by done.
  by apply (lookup_new_lines section key value Hs Hk Hv set_start), eq_refl.
Qed.

(** A value that may be absent. *)
Definition opt_word (value : option bytes) : bool :=
  match value with Some v => word v | None => true end.

Lemma set_opt_spec section key value body :
  name section = true -> name key = true -> opt_word value = true -> ~ In CR body ->
  valid_utf8 body = true ->
  ~ In CR (set_opt section key value body) /\ valid_utf8 (set_opt section key value body) = true
  /\ lookup (set_opt section key value body) section key
     = (match value with Some v => Some v | None => lookup body section key end)
  /\ forall section' key', name key' = true -> (section, key) <> (section', key') ->
       lookup (set_opt section key value body) section' key' = lookup body section' key'.
Proof.
  intros Hs Hk Hv Hcr Hu. destruct value as [v|]; [|done]. cbn [set_opt opt_word] in *.
  split; [by apply set_setting_no_cr|]. split; [by apply set_setting_valid|].
  split; [by apply set_setting_lookup|]. intros. by apply set_setting_frame.
Qed.

(** ** Theorems *)

(** C28. A setting that was written is the one that is read, and the only one that
    changed: in any file without carriage returns, with the section or without, with
    the key or without, a value without quotes, blanks and comment signs, under names
    that have no colon either, reads back exactly, every other section and key reads
    as before, and writing the same again changes nothing. *)
Theorem set_setting_exact body section key value :
  name section = true -> name key = true -> word value = true -> ~ In CR body ->
  let body' := set_setting body section key value in
  lookup body' section key = Some value
  /\ (forall section' key', name key' = true -> (section, key) <> (section', key') ->
       lookup body' section' key' = lookup body section' key')
  /\ set_setting body' section key value = body'.
Proof.
  intros Hs Hk Hv Hcr body'. unfold body'. split; [by apply set_setting_lookup|].
  split; [intros; by apply set_setting_frame|].
  rewrite (set_setting_text section key value (set_setting _ _ _ _)), lines_set_setting by done.
  rewrite new_lines_again by (done || apply set_start_ok). by rewrite <- set_setting_text.
Qed.

(** Pinning a project's model cannot loosen its runtime policy: after the pins
    are written the chosen model, provider and workspace read back, and the
    decision whether the project may start is the one the file gave before. *)
Theorem pinning_preserves_policy body model provider updated changed :
  ~ In CR body -> opt_word model = true -> opt_word provider = true ->
  pin_model_configuration (Some body) model provider = Some (updated, changed) ->
  (forall m, model = Some m -> lookup updated $"model" $"default" = Some m)
  /\ (forall p, provider = Some p -> lookup updated $"model" $"provider" = Some p)
  /\ lookup updated $"terminal" $"cwd" = Some CONTAINER_WORKSPACE_DIR
  /\ forall project_id override_flag,
       enforce_runtime_policy project_id (Some updated) override_flag
       = enforce_runtime_policy project_id (Some body) override_flag.
Proof.
  intros Hcr Hm Hp. cbn [pin_model_configuration]. destruct (valid_utf8 body) eqn:Hu; [|done].
  cbn [negb]. cbv zeta. intros [<- _]%(inj Some)%pair_eq.
  destruct (set_opt_spec $"model" $"default" model body eq_refl eq_refl Hm Hcr Hu) as (C1 & U1 & L1 & F1).
  set (b1 := set_opt $"model" $"default" model body) in *.
  destruct (set_opt_spec $"model" $"provider" provider b1 eq_refl eq_refl Hp C1 U1) as (C2 & U2 & L2 & F2).
  set (b2 := set_opt $"model" $"provider" provider b1) in *.
  destruct (set_opt_spec $"terminal" $"cwd" (Some CONTAINER_WORKSPACE_DIR) b2 eq_refl eq_refl eq_refl C2 U2)
    as (C3 & U3 & L3 & F3).
  cbn [set_opt] in *. set (b3 := set_setting b2 _ _ _) in *. split; [|split; [|split; [done|]]].
  - intros m ->. by rewrite F3, F2, L1.
  - intros p ->. by rewrite F3, L2.
  - intros id flag. unfold enforce_runtime_policy, read_runtime_configuration. cbv beta iota. rewrite U3, Hu.
    unfold parse_runtime_configuration. by rewrite !F3, !F2, !F1.
Qed.

(** The guard reads block style only: written as flow mappings, the refused
    combination is not recognised and starts without the override. *)
Definition flow_style : bytes :=
  $"model: {openai_runtime: codex_app_server}" ++ [NL] ++ $"approvals: {mode: off}" ++ [NL].

Lemma flow_style_is_not_refused : enforce_runtime_policy "p" (Some flow_style) false = Some (Ok tt).
Proof. vm_compute. reflexivity. Qed.

(** ** The theorems at a sample configuration *)

Definition config : bytes :=
  $"approvals:" ++ [NL] ++ $"  mode: 'off'  # test" ++ [NL] ++ $"model:" ++ [NL]
  ++ $"  openai_runtime: codex_app_server" ++ [NL].

Lemma config_no_cr : ~ In CR config.
Proof. apply not_in_chars. reflexivity. Qed.

Lemma set_setting_exact_witness :
  lookup (set_setting config $"approvals" $"mode" $"manual") $"approvals" $"mode" = Some $"manual".
Proof.
  apply (set_setting_exact config $"approvals" $"mode" $"manual"); [reflexivity..|apply config_no_cr].
Defined.

Lemma pinning_preserves_policy_witness :
  enforce_runtime_policy "p" (fst <$> pin_model_configuration (Some config) (Some $"gpt-5.1") None) false
  = Some (Err {| unsafe_project_id := "p"; unsafe_reason := CODEX_REASON |}).
Proof.
  destruct (pinning_preserves_policy config (Some $"gpt-5.1") None
    (fst (default ([], false) (pin_model_configuration (Some config) (Some $"gpt-5.1") None)))
    (snd (default ([], false) (pin_model_configuration (Some config) (Some $"gpt-5.1") None))))
    as (_ & _ & _ & Hp); [apply config_no_cr|reflexivity|reflexivity|vm_compute; reflexivity|].
  etransitivity; [|exact (Hp "p"%string false)]. vm_compute. reflexivity.
Defined.
