(* ===== verification/Convergence.v ===== *)
(** * Convergence: waiting until restarted services are the processes they are
    meant to be ([convergence.rs]).

    The host is observed once per target and round: [control i] is what systemd,
    [/proc] and the file system answer in round [i], and [now i] the monotonic
    clock at its start.  Paths are lists of components.  The loop is run with a
    number of rounds; [converge_terminates] gives one that is always enough. *)
From Stdlib Require Import Lia.
From S2P Require Import Prelude Text.

Inductive ActiveState : Type :=
| Active | Activating | Deactivating | Reloading | Inactive | StateFailed | StateUnknown.

#[export] Instance ActiveState_eq_dec : EqDecision ActiveState.
Proof. solve_decision. Defined.

Definition ActiveState_parse (raw : string) : ActiveState :=
  let text := of_chars (trim (chars raw)) in
  if (text =? "active")%string then Active
  else if (text =? "activating")%string then Activating
  else if (text =? "deactivating")%string then Deactivating
  else if (text =? "reloading")%string then Reloading
  else if (text =? "inactive")%string then Inactive
  else if (text =? "failed")%string then StateFailed
  else StateUnknown.

Record UnitStatus : Type := { us_active_state : ActiveState; us_main_pid : option Z }.

(** ** Paths *)

Abbreviation Path := (list string).

Fixpoint path_starts_with (prefix p : Path) : bool :=
  match prefix, p with
  | [], _ => true
  | a :: prefix', b :: p' => (a =? b)%string && path_starts_with prefix' p'
  | _ :: _, [] => false
  end.

Definition file_name (p : Path) : option string := list.last p.
Definition parent (p : Path) : Path := removelast p.

(** Everything before the last dot, unless that is nothing. *)
Definition DOT : Ascii.ascii := Ascii.ascii_of_N 46.
Definition file_stem (name : string) : string :=
  match split_once DOT (List.rev (chars name)) with
  | Some (_, (_ :: _) as before) => of_chars (List.rev before)
  | _ => name
  end.
Definition with_extension (ext : string) (p : Path) : Path :=
  match file_name p with
  | Some name =>
      if (name =? "..")%string then p
      else parent p ++ [(file_stem name ++ "." ++ ext)%string]
  | None => p
  end.

(** ** What a process executes *)

Record ProcessImage : Type := { im_path : Path; im_device : Z; im_inode : Z }.

Inductive Expectation : Type :=
| RuntimeTree (opt : Path)
| ExpectedFile (file : Path).

Inductive ExecutableClass : Type :=
| Expected | Previous | Deleted | Replaced | Outside | Unreadable | NoProcess.

#[export] Instance ExecutableClass_eq_dec : EqDecision ExecutableClass.
Proof. solve_decision. Defined.

Definition previous_runtime_root (opt : Path) : Path := parent opt ++ [".asterism-previous"%string].

(** The device and inode of the file at a path now. *)
Definition classify (metadata : Path -> option (Z * Z)) (expect : Expectation)
    (image : option ProcessImage) : ExecutableClass :=
  match image with
  | None => Unreadable
  | Some image =>
      if match file_name (im_path image) with
         | Some name => ends_with $" (deleted)" (chars name)
         | None => false
         end
      then Deleted
      else
        let matches_disk path :=
          match metadata path with
          | Some (device, inode) => (device =? im_device image) && (inode =? im_inode image)
          | None => false
          end in
        match expect with
        | RuntimeTree opt =>
            if path_starts_with (previous_runtime_root opt) (im_path image) then Previous
            else if path_starts_with opt (im_path image) then
              if matches_disk (im_path image) then Expected else Replaced
            else Outside
        | ExpectedFile file =>
            if bool_decide (im_path image = file) then
              if matches_disk file then Expected else Replaced
            else if bool_decide (im_path image = with_extension "previous" file) then Previous
            else Outside
        end
  end.

(** ** Observations *)

Inductive Role : Type :=
| NodeRole
| HostHermes
| ProjectWorker (project_id : string).

Record Target : Type := { tg_unit : string; tg_role : Role; tg_expect : Expectation }.

Record Observation : Type := {
  ob_active_state : ActiveState;
  ob_main_pid : option Z;
  ob_executable : ExecutableClass;
  ob_identity : option (Z * Z)
}.

Abbreviation Held := (Z * (Z * Z))%type.

Definition good (o : Observation) : bool :=
  bool_decide (ob_active_state o = Active)
  && match ob_main_pid o with Some _ => true | None => false end
  && bool_decide (ob_executable o = Expected).

Definition key (o : Observation) : option Held :=
  match ob_main_pid o, ob_identity o with
  | Some pid, Some identity => Some (pid, identity)
  | _, _ => None
  end.

(** [ServiceControl] and the file system, in one round. *)
Record Control : Type := {
  unit_status : string -> option UnitStatus;
  process_image : Z -> option ProcessImage;
  metadata : Path -> option (Z * Z)
}.

Definition observe (c : Control) (t : Target) : Observation :=
  let status := default {| us_active_state := StateUnknown; us_main_pid := None |}
                  (unit_status c (tg_unit t)) in
  match us_main_pid status with
  | None => {| ob_active_state := us_active_state status; ob_main_pid := None;
               ob_executable := NoProcess; ob_identity := None |}
  | Some pid =>
      let image := process_image c pid in
      {| ob_active_state := us_active_state status; ob_main_pid := Some pid;
         ob_executable := classify (metadata c) (tg_expect t) image;
         ob_identity := (fun i => (im_device i, im_inode i)) <$> image |}
  end.

(** ** The loop *)

Record Policy : Type := { deadline : Z; interval : Z; settle : Z }.

Record Converged : Type := { cv_role : Role; cv_main_pid : Z }.

Inductive Reason : Type := NotActive | NoMainProcess | WrongExecutable | Unsettled.

Record NotConverged : Type := { nc_role : Role; nc_reason : Reason; nc_last : Observation }.

Definition from_last (role : Role) (last : Observation) : NotConverged :=
  {| nc_role := role;
     nc_reason :=
       if negb (bool_decide (ob_active_state last = Active)) then NotActive
       else if match ob_main_pid last with None => true | Some _ => false end then NoMainProcess
       else if negb (bool_decide (ob_executable last = Expected)) then WrongExecutable
       else Unsettled;
     nc_last := last |}.

Record Watch : Type := {
  w_last : option Observation;
  w_since : option (Z * Held);
  w_done : option Z
}.

Definition fresh_watch : Watch := {| w_last := None; w_since := None; w_done := None |}.

(** [Instant::duration_since] saturates at zero. *)
Definition duration_since (later earlier : Z) : Z := Z.max 0 (later - earlier).

Definition look (c : Control) (now : Z) (p : Policy) (t : Target) (w : Watch) : Watch :=
  match w_done w with
  | Some _ => w
  | None =>
      let seen := observe c t in
      match good seen, key seen with
      | true, Some k =>
          match w_since w with
          | Some (since, held) =>
              if bool_decide (held = k) then
                {| w_last := Some seen; w_since := w_since w;
                   w_done := if settle p <=? duration_since now since then Some (fst k) else None |}
              else {| w_last := Some seen; w_since := Some (now, k); w_done := None |}
          | None => {| w_last := Some seen; w_since := Some (now, k); w_done := None |}
          end
      | _, _ => {| w_last := Some seen; w_since := None; w_done := None |}
      end
  end.

Definition is_done (w : Watch) : bool := match w_done w with Some _ => true | None => false end.

Definition unseen : Observation :=
  {| ob_active_state := StateUnknown; ob_main_pid := None; ob_executable := NoProcess;
     ob_identity := None |}.

Section Loop.
Context (control : nat -> Control) (now : nat -> Z) (p : Policy) (targets : list Target).

Definition look_all (i : nat) (watches : list Watch) : list Watch :=
  List.map (fun '(t, w) => look (control i) (now i) p t w) (List.combine targets watches).

Definition report_ok (watches : list Watch) : list Converged :=
  List.map (fun '(t, w) => {| cv_role := tg_role t; cv_main_pid := default 0 (w_done w) |})
    (List.combine targets watches).

Definition report_failures (watches : list Watch) : list NotConverged :=
  List.map (fun '(t, w) => from_last (tg_role t) (default unseen (w_last w)))
    (List.filter (fun '(_, w) => negb (is_done w)) (List.combine targets watches)).

(** [None] when the rounds run out before the loop returns. *)
Fixpoint rounds (n i : nat) (started : Z) (watches : list Watch) :
    option (Result (list NotConverged) (list Converged)) :=
  match n with
  | O => None
  | S n' =>
      let watches' := look_all i watches in
      if List.forallb is_done watches' then Some (Ok (report_ok watches'))
      else if deadline p <=? duration_since (now i) started
      then Some (Err (report_failures watches'))
      else rounds n' (S i) started watches'
  end.

Definition converge (n : nat) (started : Z) : option (Result (list NotConverged) (list Converged)) :=
  rounds n 0 started (List.map (fun _ => fresh_watch) targets).

(** ** Soundness *)

(** In every round from [i] to [j] the target is good and is the same process
    executing the same file. *)
Definition steady (t : Target) (i j : nat) (k : Held) : Prop :=
  forall m, (i <= m <= j)%nat ->
    good (observe (control m) t) = true /\ key (observe (control m) t) = Some k.

(** Held that way for the settling time. *)
Definition settled (t : Target) (n : nat) (pid : Z) : Prop :=
  exists i j identity, (i <= j < n)%nat /\ settle p <= duration_since (now j) (now i)
    /\ steady t i j (pid, identity).

Record watch_ok (n : nat) (t : Target) (w : Watch) : Prop := {
  wo_done : forall pid, w_done w = Some pid -> settled t n pid;
  wo_since : w_done w = None -> forall since k, w_since w = Some (since, k) ->
    exists i, (i < n)%nat /\ since = now i /\ steady t i (n - 1) k
}.

Lemma settled_mono t n pid : settled t n pid -> settled t (S n) pid.
Proof. intros (i & j & id & Hij & H). exists i, j, id. split; [lia|done]. Qed.

Lemma look_ok n t w : watch_ok n t w -> watch_ok (S n) t (look (control n) (now n) p t w).
Proof.
  intros [Hd Hs]. unfold look. destruct (w_done w) as [pid|] eqn:Ed.
  { split; rewrite Ed; [|done]. intros pid' [= <-]. by apply settled_mono, Hd. }
  destruct (good (observe (control n) t)) eqn:Eg; [|by split].
  destruct (key (observe (control n) t)) as [k|] eqn:Ek; [|by split].
  assert (steady t n n k) as Hn.
  { intros m Hm. replace m with n by lia. done. }
  assert (watch_ok (S n) t {| w_last := Some (observe (control n) t); w_since := Some (now n, k);
                              w_done := None |}) as Hfresh.
  { split; [done|]. intros _ since k' [= <- <-]. exists n. split; [lia|]. split; [done|].
    by replace (S n - 1)%nat with n by lia. }
  destruct (w_since w) as [[since held]|] eqn:Es; [|done].
  case_bool_decide as Hk; [|done]. subst held.
  destruct (Hs eq_refl since k eq_refl) as (i & Hi & -> & Hsteady).
  assert (steady t i n k) as Hall.
  { intros m Hm. destruct (decide (m = n)) as [->|]; [done|]. apply Hsteady. lia. }
  split; cbn.
  - intros pid. destruct (Z.leb_spec (settle p) (duration_since (now n) (now i))); [|done].
    intros [= <-]. exists i, n, (snd k). split; [lia|]. split; [done|]. by destruct k.
  - intros _ since' k' [= <- <-]. exists i. split; [lia|]. split; [done|].
    by rewrite Nat.sub_0_r.
Qed.

Definition watches_ok (n : nat) (watches : list Watch) : Prop :=
  length watches = length targets
  /\ forall k t w, targets !! k = Some t -> watches !! k = Some w -> watch_ok n t w.

Lemma look_all_lookup i watches k :
  length watches = length targets ->
  look_all i watches !! k =
  match targets !! k, watches !! k with
  | Some t, Some w => Some (look (control i) (now i) p t w)
  | _, _ => None
  end.
Proof.
  unfold look_all. change (List.map ?f ?l) with (f <$> l). rewrite list_lookup_fmap.
  revert watches k. generalize targets. clear targets.
  induction targets as [|t ts IH]; intros [|w ws] [|k] Hl; cbn in *; try done.
  apply IH. lia.
Qed.

Lemma look_all_ok n watches : watches_ok n watches -> watches_ok (S n) (look_all n watches).
Proof.
  intros [Hl Hw]. split.
  - unfold look_all. rewrite length_map, length_combine. lia.
  - intros k t w Ht. rewrite look_all_lookup, Ht by done. destruct (watches !! k) as [w0|] eqn:Ew; [|done].
    intros [= <-]. apply look_ok. eauto.
Qed.

Lemma watches_start : watches_ok 0 (List.map (fun _ => fresh_watch) targets).
Proof.
  split; [apply length_map|]. intros k t w _ Hw. change (List.map ?f ?l) with (f <$> l) in Hw.
  apply list_lookup_fmap_Some in Hw as (? & -> & _). by split.
Qed.

(** The rounds at which a loop that returned did so. *)
Lemma rounds_returns n i started watches r :
  watches_ok i watches -> rounds n i started watches = Some r ->
  exists j watches', watches_ok j watches' /\
    ((List.forallb is_done watches' = true /\ r = Ok (report_ok watches'))
     \/ (List.forallb is_done watches' = false /\ r = Err (report_failures watches'))).
Proof.
  revert i watches. induction n as [|n IH]; intros i watches Hw; [done|]. cbn [rounds].
  apply look_all_ok in Hw. destruct (List.forallb is_done (look_all i watches)) eqn:Ef.
  { intros [= <-]. eauto 10. }
  destruct (deadline p <=? duration_since (now i) started).
  { intros [= <-]. eauto 10. }
  by apply IH.
Qed.

Lemma combine_lookup {A B} (l1 : list A) (l2 : list B) k a b :
  l1 !! k = Some a -> l2 !! k = Some b -> List.combine l1 l2 !! k = Some (a, b).
Proof.
  revert l2 k. induction l1 as [|x l1 IH]; intros [|y l2] [|k]; cbn; try done.
  - intros [= ->] [= ->]. done.
  - apply IH.
Qed.

Lemma watch_exists (watches : list Watch) k t :
  length watches = length targets -> targets !! k = Some t -> is_Some (watches !! k).
Proof. intros Hl Ht. apply lookup_lt_is_Some. rewrite Hl. by eapply lookup_lt_Some. Qed.

End Loop.

(** Nothing is declared converged from a single look: when the wait succeeds,
    every target is reported, in order, with a process that was active, had that
    same pid and executed the same expected file by device and inode in every
    round of a span at least as long as the settling time. *)
Theorem converge_sound control now p targets n started l :
  converge control now p targets n started = Some (Ok l) ->
  length l = length targets
  /\ forall k t, targets !! k = Some t ->
       exists pid rounds_seen, l !! k = Some {| cv_role := tg_role t; cv_main_pid := pid |}
         /\ settled control now p t rounds_seen pid.
Proof.
  intros Hc. apply rounds_returns in Hc as (j & watches & [Hl Hw] & Hcase); [|apply watches_start].
  destruct Hcase as [[Hall [= ->]]|[_ Hbad]]; [|done]. split.
  { unfold report_ok. rewrite length_map, length_combine. lia. }
  intros k t Ht. destruct (watch_exists targets watches k t Hl Ht) as [w Hk].
  rewrite forallb_forall in Hall.
  assert (is_done w = true) as Hd by (apply Hall, list_elem_of_In, list_elem_of_lookup; eauto).
  unfold is_done in Hd. destruct (w_done w) as [pid|] eqn:Ed; [|done].
  exists pid, j. split; [|by apply (wo_done _ _ _ _ _ _ (Hw k t w Ht Hk))].
  unfold report_ok. change (List.map ?f ?l) with (f <$> l). rewrite list_lookup_fmap.
  by rewrite (combine_lookup _ _ _ _ _ Ht Hk); cbn; rewrite Ed.
Qed.

(** A failed wait accounts for every target: each one either did settle or is
    in the report, and the report is not empty. *)
Theorem converge_failure_complete control now p targets n started l :
  converge control now p targets n started = Some (Err l) ->
  l <> [] /\ forall k t, targets !! k = Some t ->
    (exists pid rounds_seen, settled control now p t rounds_seen pid)
    \/ exists e, In e l /\ nc_role e = tg_role t
         /\ (nc_reason e = Unsettled -> good (nc_last e) = true).
Proof.
  intros Hc. apply rounds_returns in Hc as (j & watches & [Hl Hw] & Hcase); [|apply watches_start].
  destruct Hcase as [[_ Hbad]|[Hall [= ->]]]; [done|].
  assert (forall k t w, targets !! k = Some t -> watches !! k = Some w -> is_done w = false ->
    In (from_last (tg_role t) (default unseen (w_last w))) (report_failures targets watches)) as Hin.
  { intros k t w Ht Hk Hd. unfold report_failures. apply in_map_iff. exists (t, w). split; [done|].
    apply filter_In. split; [|by rewrite Hd].
    apply list_elem_of_In, list_elem_of_lookup. exists k. by apply combine_lookup. }
  split.
  - destruct (List.existsb (fun w => negb (is_done w)) watches) eqn:Ee.
    + apply existsb_exists in Ee as (w & Hin' & Hd%negb_true_iff).
      apply list_elem_of_In, list_elem_of_lookup in Hin' as [k Hk].
      assert (is_Some (targets !! k)) as [t Ht]
        by (apply lookup_lt_is_Some; rewrite <- Hl; by eapply lookup_lt_Some).
      intros E. specialize (Hin k t w Ht Hk Hd). by rewrite E in Hin.
    + rewrite existsb_false in Ee. rewrite (proj2 (forallb_forall _ _)) in Hall; [done|].
      intros w Hw'. specialize (Ee w Hw'). by apply negb_false_iff in Ee.
  - intros k t Ht. destruct (watch_exists targets watches k t Hl Ht) as [w Hk].
    destruct (is_done w) eqn:Ed.
    + left. unfold is_done in Ed. destruct (w_done w) as [pid|] eqn:Ep; [|done].
      exists pid, j. by apply (wo_done _ _ _ _ _ _ (Hw k t w Ht Hk)).
    + right. eexists. split; [by apply (Hin k t w)|]. split; [done|].
      unfold from_last, good. cbn. destruct (default unseen (w_last w)) as [st pid ex ident]. cbn.
      repeat case_bool_decide; cbn; try done; destruct pid; done.
Qed.

(** The wait ends: when the clock advances by at least the polling interval per
    round, it returns within [deadline / interval + 2] rounds, whatever the
    services do. *)
Theorem converge_terminates control now p targets started n :
  0 < interval p -> 0 <= deadline p -> started <= now 0%nat ->
  (forall i, now i + interval p <= now (S i)) ->
  (Z.to_nat (deadline p / interval p) + 2 <= n)%nat ->
  is_Some (converge control now p targets n started).
Proof.
  intros Hi Hd H0 Hstep Hn. unfold converge.
  assert (forall i, started + Z.of_nat i * interval p <= now i) as Hnow.
  { induction i as [|i IH]; [lia|]. specialize (Hstep i). lia. }
  set (watches := List.map _ targets). clearbody watches.
  assert (forall m i w, (Z.to_nat (deadline p / interval p) + 2 <= m + i)%nat -> (1 <= m)%nat ->
            is_Some (rounds control now p targets m i started w)) as Hgen.
  { induction m as [|m IH]; intros i w Hm H1; [lia|]. cbn [rounds].
    destruct (List.forallb _ _); [by eexists|].
    destruct (Z.leb_spec (deadline p) (duration_since (now i) started)) as [|Hlt]; [by eexists|].
    apply IH; [lia|]. unfold duration_since in Hlt. specialize (Hnow i).
    assert (Z.of_nat i <= deadline p / interval p) as Hle.
    { apply Z.div_le_lower_bound; [done|]. lia. }
    lia. }
  apply Hgen; lia.
Qed.

(** ** The theorems at a sample restart *)

Module ConvergenceSamples.
Definition exe : Path := ["usr"; "bin"; "asterism"]%string.
Definition node : Target := {| tg_unit := "asterism"; tg_role := NodeRole; tg_expect := ExpectedFile exe |}.
(** Before round 1 the main process is still the service manager. *)
Definition control (i : nat) : Control :=
  {| unit_status u := Some {| us_active_state := Active; us_main_pid := Some 7 |};
     process_image pid :=
       Some (match i with
             | O => {| im_path := ["usr"; "lib"; "systemd"]%string; im_device := 1; im_inode := 2 |}
             | _ => {| im_path := exe; im_device := 1; im_inode := 9 |}
             end);
     metadata path := if bool_decide (path = exe) then Some (1, 9) else None |}.
Definition now (i : nat) : Z := Z.of_nat i.
Definition policy (d : Z) : Policy := {| deadline := d; interval := 1; settle := 2 |}.

Lemma converge_sound_witness :
  exists pid rounds_seen, settled control now (policy 9) node rounds_seen pid.
Proof.
  destruct (converge_sound control now (policy 9) [node] 10 0
              [{| cv_role := NodeRole; cv_main_pid := 7 |}]) as [_ Hs]; [vm_compute; reflexivity|].
  destruct (Hs 0%nat node eq_refl) as (pid & n & _ & Hset). exists pid, n. exact Hset.
Defined.

Lemma converge_failure_complete_witness :
  converge control now (policy 0) [node] 10 0
    = Some (Err [{| nc_role := NodeRole; nc_reason := WrongExecutable;
                    nc_last := observe (control 0) node |}])
  /\ [{| nc_role := NodeRole; nc_reason := WrongExecutable;
         nc_last := observe (control 0) node |}] <> [].
Proof.
  split; [vm_compute; reflexivity|].
  apply (converge_failure_complete control now (policy 0) [node] 10 0). vm_compute. reflexivity.
Defined.

Lemma converge_terminates_witness : is_Some (converge control now (policy 9) [node] 11 0).
Proof.
  apply (converge_terminates control now (policy 9) [node] 0 11);
    [reflexivity|vm_compute; discriminate|vm_compute; discriminate
    |intros i; unfold now; cbn [policy interval]; lia|vm_compute; lia].
Defined.
End ConvergenceSamples.
