(* ===== verification/System.v ===== *)
(** * System: every registry call of the node, in any order.

    [Call] names the state-changing methods of [registry.rs], [remote.rs] and
    [inventory.rs] with their arguments; [perform] runs one.  The theorems hold
    in every registry a sequence of calls can reach. *)
From Stdlib Require Import Lia.
From stdpp Require Import relations.
From S2P Require Import Prelude Text Json RunState Redact Schema Registry RegistryFacts Evolution.
From S2P Require Import Remote RemoteFacts Identifiers Inventory InventoryFacts InventoryTheorems.
From S2P Require Import RegistryTheorems ChannelTheorems.

(** Every method of the registry that writes, with its arguments.

    Two modules of the node also write through [Registry::connection] and are not
    calls: [workdesk::enqueue_report] inserts into the outbox without its depth
    bound ([Workdesk.enqueue_report]; the channel's laws of [CommandTheorems.v]
    cover it, the invariant of this file does not), and [workdesk::record_binding]
    and its readers keep [task_cards], a table of their own that [Db] leaves out
    and [Workdesk.v] models. *)
Inductive Call : Type :=
(** [registry.rs] *)
| CreateRun (h : Host) (now stamp : Z) (request : NewRun)
| UpdateRun (id : string) (u : RunUpdate) (now : Z)
| AppendEvent (id : string) (ev : JournalEvent) (u : option RunUpdate) (t : Clock3)
| ApprovalRequest (id : string) (seq : Z) (command : option string) (choices : option Value) (now : Z)
| ApprovalDecision (id : string) (seq : Z) (decision : string) (now : Z)
| ApprovalResolution (id : string) (seq resolution : Z)
| SetApprovalPolicy (id : string) (p : RunApprovalPolicy) (actor : option string) (now : Z)
(** [remote.rs] *)
| AdmitCommand (id command : string) (project : option string) (digest : string) (now : Z)
| SetCommandState (id : string) (s : CommandState) (now : Z)
| CompleteCommand (id : string) (s : CommandState) (response : option Value)
    (code message : option string) (now : Z)
| EnqueueOutbox (kind : string) (correlation : option string) (payload : Value) (now : Z)
| AcknowledgeOutbox (id now : Z)
| AcknowledgeCorrelation (id : string) (now : Z)
| ScrubHistory (wal : bool)
| UpsertSubscription (project run : string) (from now : Z)
| AcknowledgeEvents (run : string) (seq now : Z)
| RemoveSubscription (run : string)
(** [inventory.rs] *)
| RegisterProject (fs : FileSystem) (now : Z) (id workspace : string) (name : option string)
    (metadata : option Value) (endpoint : option string) (ownership : RuntimeOwnership)
| UnregisterProject (id : string)
| SetProfileRuntime (id home profile endpoint key : string) (s : ProfileState)
| SetProfileState (id : string) (s : ProfileState) (failure : option string)
| BindExistingProfile (id home profile endpoint key : string)
| ReserveEndpoint (id : string) (first last : Z) (reserved : list Z) (occupied : Z -> bool)
| ReleaseEndpoint (id : string)
| SetRuntimeEndpoint (id : string) (endpoint : option string)
| SetCredential (id : string) (credential : option string)
| SetModel (id : string) (model : option string)
| SetSuspended (id : string) (at_ : option Z).

(** Whether a call returned [Ok], and the registry it left. *)
Definition outcome {E A} (r : Result E A * Db) : bool * Db := (is_ok (fst r), snd r).

Section System.
Context `{SerdeJson}.

Definition perform (c : Call) (db : Db) : bool * Db :=
  match c with
  | CreateRun h now stamp request => outcome (create_run h now stamp request db)
  | UpdateRun id u now => outcome (update_run id u now db)
  | AppendEvent id ev u t => outcome (append_event id ev u t db)
  | ApprovalRequest id seq command choices now =>
      outcome (record_approval_request id seq command choices now db)
  | ApprovalDecision id seq decision now => outcome (record_approval_decision id seq decision now db)
  | ApprovalResolution id seq resolution => outcome (record_approval_resolution id seq resolution db)
  | SetApprovalPolicy id p actor now => outcome (set_run_approval_policy id p actor now db)
  | AdmitCommand id command project digest now =>
      outcome (admit_remote_command id command project digest now db)
  | SetCommandState id s now => outcome (set_remote_command_state id s now db)
  | CompleteCommand id s response code message now =>
      outcome (complete_remote_command id s response code message now db)
  | EnqueueOutbox kind correlation payload now => outcome (enqueue_outbox kind correlation payload now db)
  | AcknowledgeOutbox id now => outcome (acknowledge_outbox id now db)
  | AcknowledgeCorrelation id now => outcome (acknowledge_outbox_correlation id now db)
  | ScrubHistory wal => outcome (scrub_device_authorization_history wal db)
  | UpsertSubscription project run from now => outcome (upsert_subscription project run from now db)
  | AcknowledgeEvents run seq now => outcome (acknowledge_events run seq now db)
  | RemoveSubscription run => outcome (remove_subscription run db)
  | RegisterProject fs now id workspace name metadata endpoint ownership =>
      outcome (register_project fs now id workspace name metadata endpoint ownership db)
  | UnregisterProject id => outcome (unregister_project id db)
  | SetProfileRuntime id home profile endpoint key s =>
      outcome (set_profile_runtime id home profile endpoint key s db)
  | SetProfileState id s failure => outcome (set_profile_state id s failure db)
  | BindExistingProfile id home profile endpoint key =>
      outcome (bind_existing_profile id home profile endpoint key db)
  | ReserveEndpoint id first last reserved occupied =>
      outcome (reserve_endpoint (fun _ db => db) id first last reserved occupied db)
  | ReleaseEndpoint id => outcome (release_endpoint id db)
  | SetRuntimeEndpoint id endpoint => outcome (set_project_runtime_endpoint id endpoint db)
  | SetCredential id credential => outcome (set_project_credential id credential db)
  | SetModel id model => outcome (set_project_model id model db)
  | SetSuspended id at_ => outcome (set_project_suspended id at_ db)
  end.

Definition performed (cs : list Call) (db : Db) : Db :=
  List.fold_left (fun db c => snd (perform c db)) cs db.

(** Ports are [u16]. *)
Definition well_typed (c : Call) : Prop :=
  match c with
  | ReserveEndpoint _ first last _ _ => 0 <= first /\ last <= 65535
  | _ => True
  end.

Inductive call_step : Db -> Db -> Prop :=
| call c db : well_typed c -> call_step db (snd (perform c db)).

(** ** Which tables a call leaves alone *)

Definition run_tables (db : Db) : list RunRow * list EventRow * list ApprovalRow :=
  (runs db, run_events db, run_approvals db).
Definition remote_tables (db : Db) :
    list CommandRow * list OutboxRow * Z * list SubscriptionRow :=
  (remote_commands db, outbox db, outbox_sequence db, event_subscriptions db).

Inductive Group : Type := RunsGroup | RemoteGroup | InventoryGroup.

Definition group (c : Call) : Group :=
  match c with
  | CreateRun _ _ _ _ | UpdateRun _ _ _ | AppendEvent _ _ _ _ | ApprovalRequest _ _ _ _ _
  | ApprovalDecision _ _ _ _ | ApprovalResolution _ _ _ | SetApprovalPolicy _ _ _ _ => RunsGroup
  | AdmitCommand _ _ _ _ _ | SetCommandState _ _ _ | CompleteCommand _ _ _ _ _ _
  | EnqueueOutbox _ _ _ _ | AcknowledgeOutbox _ _ | AcknowledgeCorrelation _ _ | ScrubHistory _
  | UpsertSubscription _ _ _ _ | AcknowledgeEvents _ _ _ | RemoveSubscription _ => RemoteGroup
  | _ => InventoryGroup
  end.

(** The registry methods. *)
Section Views.
Context {V : Type} (view : Db -> V).
Context (on_runs_view : forall f db, view (on_runs f db) = view db).
Context (on_events_view : forall f db, view (on_events f db) = view db).
Context (on_approvals_view : forall f db, view (on_approvals f db) = view db).

Lemma kv_apply_update id u now : keeps_view view (apply_update id u now).
Proof. unfold apply_update. frame_solve. all: by rewrite on_runs_view. Qed.

Lemma kv_insert_event row : keeps_view view (insert_event row).
Proof. unfold insert_event. frame_solve. all: by rewrite on_events_view. Qed.

Lemma kv_registry c db : group c = RunsGroup -> view (snd (perform c db)) = view db.
Proof.
  destruct c; intros Hg; try discriminate Hg; cbn [perform outcome snd].
  - revert db. change (keeps_view view (create_run h now stamp request)).
    unfold create_run, insert_run. frame_solve. all: by rewrite on_runs_view.
  - revert db. change (keeps_view view (update_run id u now)).
    unfold update_run. frame_solve. apply kv_apply_update.
  - revert db. change (keeps_view view (append_event id ev u t)). unfold append_event.
    repeat first [apply kv_insert_event | apply kv_apply_update | progress frame_solve].
    all: by rewrite on_runs_view.
  - revert db. change (keeps_view view (record_approval_request id seq command choices now)).
    unfold record_approval_request. frame_solve. all: by rewrite on_approvals_view.
  - apply on_approvals_view.
  - apply on_approvals_view.
  - revert db. change (keeps_view view (set_run_approval_policy id p actor now)).
    unfold set_run_approval_policy. frame_solve. all: by rewrite on_runs_view.
Qed.
End Views.

Section RemoteViews.
Context {V : Type} (view : Db -> V).
Context (on_commands_view : forall f db, view (on_commands f db) = view db).
Context (on_outbox_view : forall f n db, view (on_outbox f n db) = view db).
Context (on_subscriptions_view : forall f db, view (on_subscriptions f db) = view db).

Lemma kv_remote c db : group c = RemoteGroup -> view (snd (perform c db)) = view db.
Proof.
  destruct c; intros Hg; try discriminate Hg; cbn [perform outcome snd];
    try apply on_commands_view; try apply on_outbox_view; try apply on_subscriptions_view.
  - revert db. change (keeps_view view (admit_remote_command id command project digest now)).
    unfold admit_remote_command. frame_solve. all: by rewrite on_commands_view.
  - revert db. change (keeps_view view (enqueue_outbox kind correlation payload now)).
    unfold enqueue_outbox. frame_solve. all: by rewrite on_outbox_view.
  - apply (scrub_steps (fun db' => view db' = view db)); [..|done]; intros;
      by rewrite ?on_commands_view, ?on_outbox_view.
  - revert db. change (keeps_view view (upsert_subscription project run from now)).
    unfold upsert_subscription. frame_solve. all: by rewrite on_subscriptions_view.
Qed.
End RemoteViews.

Section InventoryViews.
Context {V : Type} (view : Db -> V).
Context (on_projects_view : forall f db, view (on_projects f db) = view db).

Lemma kv_update_project id f : keeps_view view (update_project id f).
Proof. unfold update_project. frame_solve. by rewrite on_projects_view. Qed.
Hint Resolve kv_update_project : frame.

Lemma kv_set_profile_runtime id home profile endpoint key s :
  keeps_view view (set_profile_runtime id home profile endpoint key s).
Proof. unfold set_profile_runtime. frame_solve. Qed.
Hint Resolve kv_set_profile_runtime : frame.

Lemma kv_reserve n id range reserved occupied :
  keeps_view view (reserve_attempts n (fun _ db => db) id range reserved occupied).
Proof.
  induction n as [|n IH]; cbn [reserve_attempts]; [auto with frame|].
  repeat first [exact IH | progress frame_solve | progress unfold claim]; [done|].
  by rewrite on_projects_view.
Qed.

Lemma kv_inventory c db : group c = InventoryGroup -> view (snd (perform c db)) = view db.
Proof.
  destruct c; intros Hg; try discriminate Hg; cbn [perform outcome snd]; revert db.
  - change (keeps_view view (register_project fs now id workspace name metadata endpoint ownership)).
    unfold register_project, insert_project. frame_solve. all: by rewrite on_projects_view.
  - change (keeps_view view (unregister_project id)). unfold unregister_project. frame_solve.
    by rewrite on_projects_view.
  - apply kv_set_profile_runtime.
  - apply kv_update_project.
  - change (keeps_view view (bind_existing_profile id home profile endpoint key)).
    unfold bind_existing_profile. frame_solve.
  - apply kv_reserve.
  - intros db. apply on_projects_view.
  - change (keeps_view view (set_project_runtime_endpoint id endpoint)).
    unfold set_project_runtime_endpoint. frame_solve.
  - change (keeps_view view (set_project_credential id credential)).
    unfold set_project_credential. frame_solve.
  - change (keeps_view view (set_project_model id model)). unfold set_project_model. frame_solve.
  - apply kv_update_project.
Qed.
End InventoryViews.

(** ** The invariant of the whole registry *)

Definition subscriptions_known (db : Db) : Prop :=
  forall s, In s (event_subscriptions db) -> exists r, In r (runs db) /\ r_run_id r = s_run_id s.

Record node_ok (db : Db) : Prop := {
  no_runs : wf db;
  no_remote : remote_ok db;
  no_depth : outbox_bounded db;
  no_inventory : inventory_ok db;
  no_subscriptions : subscriptions_known db
}.

Lemma node_ok_empty : node_ok empty_db.
Proof. split; [apply wf_empty|apply remote_ok_empty|done|apply inventory_ok_empty|by intros s []]. Qed.

Lemma run_tables_inv db db' : run_tables db' = run_tables db ->
  runs db' = runs db /\ run_events db' = run_events db /\ run_approvals db' = run_approvals db.
Proof. intros [= ? ? ?]. done. Qed.

Lemma remote_tables_inv db db' : remote_tables db' = remote_tables db ->
  remote_commands db' = remote_commands db /\ outbox db' = outbox db
  /\ outbox_sequence db' = outbox_sequence db /\ event_subscriptions db' = event_subscriptions db.
Proof. intros [= ? ? ? ?]. done. Qed.

(** *** Runs *)

Lemma runs_call c db :
  node_ok db -> group c = RunsGroup ->
  wf (snd (perform c db)) /\ db_evolves db (snd (perform c db)).
Proof.
  intros [Hwf _ _ _]. destruct c; intros Hg; try discriminate Hg; cbn [perform outcome snd]; split;
    auto using create_run_wf, create_run_evolves, update_run_wf, update_run_evolves, append_event_wf,
      append_event_evolves, record_approval_request_wf, record_approval_request_evolves,
      record_approval_decision_wf, record_approval_decision_evolves, record_approval_resolution_wf,
      record_approval_resolution_evolves, set_run_approval_policy_wf, set_run_approval_policy_evolves.
Qed.

Lemma evolves_known db db' id :
  db_evolves db db' -> (exists r, In r (runs db) /\ r_run_id r = id) ->
  exists r, In r (runs db') /\ r_run_id r = id.
Proof.
  intros Hev (r & Hin & Hid). apply list_elem_of_In, list_elem_of_lookup in Hin as [i Hi].
  destruct (de_runs _ _ Hev i r Hi) as (r' & Hi' & Hre). exists r'. split.
  - apply list_elem_of_In, list_elem_of_lookup. eauto.
  - rewrite (re_id _ _ Hre). done.
Qed.

(** *** Remote *)

Lemma remote_call c db :
  remote_ok db -> group c = RemoteGroup ->
  remote_ok (snd (perform c db)) /\ remote_evolves db (snd (perform c db)).
Proof.
  intros Hok. destruct c; intros Hg; try discriminate Hg; cbn [perform outcome snd]; split;
    auto using admit_ok, admit_evolves, set_state_ok, set_state_evolves, complete_ok, complete_evolves,
      enqueue_ok, enqueue_evolves, ack_where_ok, ack_where_evolves, scrub_ok, scrub_evolves, upsert_ok,
      acknowledge_events_ok, remove_subscription_ok; try by apply remote_evolves_ext.
  - by apply ack_where_ok.
  - apply ack_where_evolves.
  - by apply ack_where_ok.
  - apply ack_where_evolves.
  - destruct (upsert_subscription project run from now db) as [res db'] eqn:E. cbn.
    apply upsert_inv in E. repeat case_match; destruct E as [_ ->]; try done;
      by apply remote_evolves_ext.
Qed.

Lemma remote_call_bounded c db :
  outbox_bounded db -> group c = RemoteGroup -> outbox_bounded (snd (perform c db)).
Proof.
  intros Hb. destruct c; intros Hg; try discriminate Hg; cbn [perform outcome snd];
    auto using enqueue_bounded, scrub_bounded; try (by eapply outbox_bounded_ext; [|exact Hb]); try by apply ack_where_bounded.
  - eapply outbox_bounded_ext; [|exact Hb]. destruct (admit_remote_command id command project digest now db) as [res db'] eqn:E.
    apply admit_inv in E. cbn. destruct res as [[]|]; [|by destruct E as [-> _]..|by subst]. by destruct E as (_ & c & -> & _).
  - eapply outbox_bounded_ext; [|exact Hb]. destruct (upsert_subscription project run from now db) as [res db'] eqn:E. cbn.
    apply upsert_inv in E. repeat case_match; by destruct E as [_ ->].
Qed.

Lemma remote_call_subscriptions c db :
  group c = RemoteGroup -> subscriptions_known db -> subscriptions_known (snd (perform c db)).
Proof.
  intros Hg Hk.
  assert (runs (snd (perform c db)) = runs db) as Hr
    by (by apply (kv_remote runs)).
  cut (forall s, In s (event_subscriptions (snd (perform c db))) ->
         (exists s0, In s0 (event_subscriptions db) /\ s_run_id s = s_run_id s0)
         \/ exists r, In r (runs db) /\ r_run_id r = s_run_id s).
  { intros Hcut s Hs. rewrite Hr. destruct (Hcut s Hs) as [(s0 & Hs0 & ->)|?]; [by apply Hk|done]. }
  assert (forall s, In s (event_subscriptions db) ->
            (exists s0, In s0 (event_subscriptions db) /\ s_run_id s = s_run_id s0)
            \/ exists r, In r (runs db) /\ r_run_id r = s_run_id s) as Hsame by eauto.
  clear Hr Hk. destruct c; try discriminate Hg; cbn [perform outcome snd]; try exact Hsame.
  - destruct (admit_remote_command id command project digest now db) as [res db'] eqn:E.
    apply admit_inv in E. cbn. destruct res as [[]|]; [|by destruct E as [-> _]..|done].
    by destruct E as (_ & c & -> & _).
  - destruct (enqueue_outbox kind correlation payload now db) as [res db'] eqn:E.
    apply enqueue_inv in E. cbn. destruct res; [|by destruct E as [-> _]]. by destruct E as (_ & _ & ->).
  - assert (event_subscriptions (snd (scrub_device_authorization_history wal db))
            = event_subscriptions db) as ->; [|done].
    by apply (scrub_steps (fun db' => event_subscriptions db' = event_subscriptions db)).
  - destruct (upsert_subscription project run from now db) as [res db'] eqn:E. cbn.
    apply upsert_inv in E. destruct (select_one _ _) as [s0|].
    + destruct E as [_ ->]. intros s (s1 & Hs1 & ->)%In_update_where. left. exists s1.
      split; [done|]. by destruct (is_subscription run s1).
    + destruct (List.existsb (is_run run) (runs db)) eqn:Ee; destruct E as [_ ->]; [|done].
      intros s [Hs|[<-|[]]]%in_app_iff; [auto|]. right.
      apply existsb_exists in Ee as (r & Hin & Hid%is_run_true). by exists r.
  - intros s (s1 & Hs1 & ->)%In_update_where. left. exists s1. split; [done|].
    by destruct (is_subscription run s1).
  - intros s [Hs _]%filter_In. auto.
Qed.

(** *** Inventory *)

Lemma inventory_call c db :
  inventory_ok db -> group c = InventoryGroup -> well_typed c -> inventory_ok (snd (perform c db)).
Proof.
  intros Hok. destruct c; intros Hg Ht; try discriminate Hg; cbn [perform outcome snd];
    auto using register_project_ok, unregister_project_ok, set_profile_runtime_ok,
      set_profile_state_ok, bind_existing_profile_ok, release_endpoint_ok,
      set_project_runtime_endpoint_ok, set_project_credential_ok, set_project_model_ok,
      set_project_suspended_ok.
  apply reserve_attempts_ok; [done| |done]. intros port Hp%In_port_range. cbn in Ht. lia.
Qed.

(** *** Every call *)

(** What the channel asks of the rest of the node holds of anything that works
    through registry calls: any number of them, chosen in any way. *)
Lemma call_respects c db :
  remote_ok db -> remote_ok (snd (perform c db)) /\ remote_evolves db (snd (perform c db)).
Proof.
  intros Hok. destruct (group c) eqn:Eg; [|by apply remote_call|].
  - pose proof (kv_registry remote_tables (fun _ _ => eq_refl) (fun _ _ => eq_refl)
                  (fun _ _ => eq_refl) c db Eg) as (R1 & R2 & R3 & R4)%remote_tables_inv.
    split; [by eapply remote_ok_ext|by apply remote_evolves_ext].
  - pose proof (kv_inventory remote_tables (fun _ _ => eq_refl) c db Eg)
      as (R1 & R2 & R3 & R4)%remote_tables_inv.
    split; [by eapply remote_ok_ext|by apply remote_evolves_ext].
Qed.

Lemma performed_respects {W} (plan : W * Db -> list Call) (host : W * Db -> W) :
  respects (fun w => (host w, performed (plan w) (snd w))).
Proof.
  intros w. generalize (plan w) as cs. destruct w as [w db]. cbn [snd]. intros cs Hok. revert db Hok.
  induction cs as [|c cs IH]; intros db Hok; [done|].
  destruct (call_respects c db Hok) as [Hok1 Hev1]. destruct (IH _ Hok1) as [Hok2 Hev2].
  split; [exact Hok2|]. by etransitivity.
Qed.

Lemma perform_ok c db :
  well_typed c -> node_ok db ->
  node_ok (snd (perform c db)) /\ db_evolves db (snd (perform c db))
  /\ remote_evolves db (snd (perform c db)).
Proof.
  intros Ht Hok. pose proof Hok as [Hwf Hrem Hdep Hinv Hsub]. destruct (group c) eqn:Eg.
  - destruct (runs_call c db Hok Eg) as [Hwf' Hev].
    pose proof (kv_registry remote_tables (fun _ _ => eq_refl) (fun _ _ => eq_refl)
                  (fun _ _ => eq_refl) c db Eg) as Hr.
    pose proof (kv_registry projects (fun _ _ => eq_refl) (fun _ _ => eq_refl)
                  (fun _ _ => eq_refl) c db Eg) as Hp.
    apply remote_tables_inv in Hr as (R1 & R2 & R3 & R4).
    split; [split; [done|by eapply remote_ok_ext|by eapply outbox_bounded_ext|by eapply inventory_ok_ext|]|].
    + intros s. rewrite R4. intros Hs. eapply evolves_known; [exact Hev|]. by apply Hsub.
    + split; [done|]. by apply remote_evolves_ext.
  - destruct (remote_call c db Hrem Eg) as [Hrem' Hev].
    pose proof (kv_remote run_tables (fun _ _ => eq_refl) (fun _ _ _ => eq_refl)
                  (fun _ _ => eq_refl) c db Eg) as Hr.
    pose proof (kv_remote projects (fun _ _ => eq_refl) (fun _ _ _ => eq_refl)
                  (fun _ _ => eq_refl) c db Eg) as Hp.
    apply run_tables_inv in Hr as (R1 & R2 & R3).
    split; [split; [by eapply wf_ext|done|by apply remote_call_bounded|by eapply inventory_ok_ext|]|].
    + by apply remote_call_subscriptions.
    + split; [by apply evolves_ext|done].
  - pose proof (inventory_call c db Hinv Eg Ht) as Hinv'.
    pose proof (kv_inventory run_tables (fun _ _ => eq_refl) c db Eg) as Hr.
    pose proof (kv_inventory remote_tables (fun _ _ => eq_refl) c db Eg) as Hm.
    apply run_tables_inv in Hr as (R1 & R2 & R3).
    apply remote_tables_inv in Hm as (M1 & M2 & M3 & M4).
    split; [split; [by eapply wf_ext|by eapply remote_ok_ext|by eapply outbox_bounded_ext|done|]|].
    + intros s. rewrite M4, R1. apply Hsub.
    + split; [by apply evolves_ext|by apply remote_evolves_ext].
Qed.

Lemma reachable_ok db db' :
  rtc call_step db db' -> node_ok db ->
  node_ok db' /\ db_evolves db db' /\ remote_evolves db db'.
Proof.
  induction 1 as [db|db db1 db2 [c db0 Ht] _ IH]; intros Hok; [done|].
  destruct (perform_ok c db0 Ht Hok) as (Hok1 & Hev1 & Hrv1).
  destruct (IH Hok1) as (Hok2 & Hev2 & Hrv2). split; [done|]. split; by etransitivity.
Qed.

(** *** Failed calls *)

Lemma update_project_Err id f db e db' : update_project id f db = (Err e, db') -> db' = db.
Proof. by intros [-> _]%update_project_inv. Qed.

Lemma complete_unknown id s r ec em now db e db' :
  complete_remote_command id s r ec em now db = (Err e, db') -> db' = db.
Proof.
  unfold complete_remote_command, bind, modify, query, context, load_command.
  cbn [on_commands remote_commands]. rewrite (select_one_update_where _ (is_command id)) by done.
  destruct (select_one (is_command id) (remote_commands db)) as [c|] eqn:Es; [done|].
  intros [= _ <-]. unfold on_commands. rewrite update_where_id; [by destruct db|].
  intros c Hc Hi. by rewrite (select_one_None _ _ _ Es Hc) in Hi.
Qed.

(** The row that was just written can be read back. *)
Lemma set_project_runtime_endpoint_Err id endpoint db e db' :
  inventory_ok db -> set_project_runtime_endpoint id endpoint db = (Err e, db') -> db' = db.
Proof.
  intros Hok. unfold set_project_runtime_endpoint. rewrite lift_then.
  destruct (validate_opt validate_runtime_endpoint endpoint) as [[]|] eqn:Ev; [|by intros [= _ <-]].
  pose proof (update_project_ok id (endpoint_row endpoint) db Hok) as Hok'.
  unfold bind. destruct (update_project id (endpoint_row endpoint) db) as [res db1] eqn:Eu.
  cbn in Hok'. specialize (Hok' ltac:(done) ltac:(intros; by apply endpoint_row_ok)).
  pose proof Eu as Hinv%update_project_inv. destruct res as [[]|e0].
  - destruct Hinv as (Hdb1 & p & Hp & Hid). unfold query, lift, project.
    assert (In (endpoint_row endpoint p) (projects db1)) as Hp1.
    { rewrite Hdb1. apply In_update_where. exists p. by rewrite (proj2 (is_project_true _ _) Hid). }
    rewrite (proj2 (select_project db1 id (endpoint_row endpoint p) Hok') (conj Hp1 Hid)).
    destruct (map_project_ok _ (io_rows _ Hok' _ Hp1)) as (r & -> & _). done.
  - destruct Hinv as [-> _]. by intros [= _ <-].
Qed.

Lemma reserve_endpoint_Err id first last reserved occupied db e db' :
  0 <= first -> last <= 65535 -> inventory_ok db ->
  reserve_endpoint (fun _ db => db) id first last reserved occupied db = (Err e, db') -> db' = db.
Proof.
  intros Hf Hl Hok. unfold reserve_endpoint. revert db Hok.
  induction (Nat.max _ 1) as [|n IH]; intros db Hok; [by intros [= _ <-]|].
  cbn [reserve_attempts]. unfold bind at 1, gets at 1.
  destruct (select_one (is_project id) (projects db)) as [p|] eqn:Es; [|by intros [= _ <-]].
  destruct (p_runtime_endpoint p) eqn:Ee; [done|]. unfold bind at 1, gets at 1.
  destruct (List.find _ _) as [port|] eqn:Ef; [|by intros [= _ <-]].
  unfold bind at 1, modify at 1. unfold bind at 1. rewrite claim_state.
  destruct (Nat.eqb_spec (changes (claimable id (endpoint_of port) db) (projects db)) 1) as [|Hne];
    [done|]. intros Hrest.
  assert (on_projects (update_where (claimable id (endpoint_of port) db)
            (endpoint_row (Some (endpoint_of port)))) db = db) as Hsame.
  { unfold on_projects. rewrite update_where_id; [by destruct db|]. intros q Hq Hcq. exfalso.
    apply Hne. pose proof (changes_pos _ _ _ Hq Hcq).
    pose proof (changes_unique db id (claimable id (endpoint_of port) db) Hok) as Hle.
    specialize (Hle (fun p H => proj1 (proj1 (claimable_true _ _ _ _) H))). lia. }
  rewrite Hsame in Hrest. by eapply IH.
Qed.

Lemma set_profile_runtime_Err id home profile endpoint key s db e db' :
  set_profile_runtime id home profile endpoint key s db = (Err e, db') -> db' = db.
Proof.
  unfold set_profile_runtime. rewrite lift_then.
  destruct (validate_runtime_endpoint endpoint) as [[]|]; [|by intros [= _ <-]].
  unfold bind at 1, Prelude.state. cbv beta iota zeta. split_if; [by intros [= _ <-]|].
  split_if; [by intros [= _ <-]|]. apply update_project_Err.
Qed.

Lemma bind_existing_profile_Err id home profile endpoint key db e db' :
  bind_existing_profile id home profile endpoint key db = (Err e, db') -> db' = db.
Proof.
  unfold bind_existing_profile. unfold bind at 1, gets. destruct (select_one _ _) as [p|];
    [|by intros [= _ <-]]. destruct (p_hermes_home p); [done|]. unfold bind.
  destruct (set_profile_runtime id home profile endpoint key ProfileReady db) as [[]] eqn:E; [done|].
  intros [= _ <-]. by apply set_profile_runtime_Err in E.
Qed.

Lemma lifted_update_Err {X} (r : Result InvError X) id f db e db' :
  (lift r ;;; update_project id f) db = (Err e, db') -> db' = db.
Proof. rewrite lift_then. destruct r; [apply update_project_Err|by intros [= _ <-]]. Qed.

Lemma outcome_false {E A} (m : M E Db A) db db' :
  outcome (m db) = (false, db') -> exists e, m db = (Err e, db').
Proof. unfold outcome. destruct (m db) as [[a|e] db1]; [done|]. intros [= <-]. eauto. Qed.
End System.

(** ** What holds in every registry the node can reach. *)

Import Samples.

(** C2. The registry invariant: whatever sequence of registry calls the node makes,
    failed ones included, run ids, idempotency keys and Hermes run ids stay unique,
    every journal is numbered 1, 2, ... up to its run's cursor, every stored status
    parses and terminal runs are finished, command ids and outbox ids are unique
    and the outbox bounded, no two projects share a workspace, a Hermes home or a
    profile, and every subscription has its run. *)
Theorem registry_invariant `{SerdeJson} db :
  rtc call_step empty_db db -> node_ok db.
Proof. intros Hr. by apply (reachable_ok _ _ Hr node_ok_empty). Qed.

(** C21. A call that reports an error has changed nothing: in every registry that
    satisfies the invariant, a failed method leaves all tables as they were. *)
Theorem failed_call_changes_nothing `{SerdeJson} c db db' :
  well_typed c -> node_ok db -> perform c db = (false, db') -> db' = db.
Proof.
  intros Ht [Hwf Hrem _ Hinv _]. destruct c; cbn [perform]; intros [e E]%outcome_false.
  - by apply create_run_inv in E.
  - by eapply transaction_Err.
  - by apply append_event_inv in E.
  - revert E. unfold record_approval_request, bind, Prelude.state, fail, modify.
    repeat (split_if; [by intros [= _ <-]|]). done.
  - done.
  - done.
  - by apply set_run_approval_policy_inv in E.
  - by apply admit_inv in E.
  - done.
  - by eapply complete_unknown.
  - by apply enqueue_inv in E as [-> _].
  - done.
  - done.
  - revert E. unfold scrub_device_authorization_history, bind, gets, transaction, modify, ret.
    by destruct (scrub_commands db), (scrub_outbox db).
  - apply upsert_inv in E. destruct (select_one _ _); [by destruct E|].
    destruct (List.existsb _ _); by destruct E.
  - done.
  - done.
  - by apply register_project_inv in E.
  - by apply unregister_project_inv in E.
  - by eapply set_profile_runtime_Err.
  - by eapply update_project_Err.
  - by eapply bind_existing_profile_Err.
  - destruct Ht. by eapply reserve_endpoint_Err.
  - done.
  - by eapply set_project_runtime_endpoint_Err.
  - by eapply lifted_update_Err.
  - by eapply lifted_update_Err.
  - by eapply update_project_Err.
Qed.

(** C20. History is append-only: at any later time every run is still there with the
    request it was created from, its status lies further along the state machine,
    and the journal has only grown at its end; in particular a run that reached a
    terminal status keeps that status and its finishing time forever. *)
Theorem history_is_append_only `{SerdeJson} db db' r :
  node_ok db -> rtc call_step db db' -> In r (runs db) ->
  run_events db `prefix_of` run_events db'
  /\ exists r', In r' (runs db') /\ r_run_id r' = r_run_id r
       /\ r_request_payload r' = r_request_payload r
       /\ r_request_fingerprint r' = r_request_fingerprint r
       /\ r_last_event_seq r <= r_last_event_seq r'
       /\ forall st, RunStatus.parse (r_status r) = Ok st ->
            exists st', RunStatus.parse (r_status r') = Ok st' /\ rtc transition st st'
              /\ (RunStatus.is_terminal st = true -> st' = st /\ r_finished_at r' = r_finished_at r).
Proof.
  intros Hok Hr Hin. destruct (reachable_ok _ _ Hr Hok) as (_ & Hev & _).
  split; [apply Hev|]. pose proof Hin as Hin'.
  apply list_elem_of_In, list_elem_of_lookup in Hin as [i Hi].
  destruct (de_runs _ _ Hev i r Hi) as (r' & Hi' & [Hid Hreq Hst _ Hfin Hcur]).
  exists r'. split; [apply list_elem_of_In, list_elem_of_lookup; eauto|]. split; [done|].
  destruct Hreq as (_ & Hpay & Hfp & _). split; [done|]. split; [done|]. split; [done|].
  intros st Hs. destruct (Hst st Hs) as (st' & Hs' & Hpath). exists st'. split; [done|]. split; [done|].
  intros Hterm. split.
  - clear -Hpath Hterm. induction Hpath as [|a b c Hab _ IH]; [done|].
    apply (validate_terminal _ _ Hterm) in Hab as ->. by apply IH.
  - apply Hfin. destruct (wf_runs _ (no_runs _ Hok) r Hin') as ((st0 & Hs0 & Hf0) & _).
    apply Hf0. congruence.
Qed.

(** C32. An idempotency key names one run for good: once a request with a key has
    produced or found a run, the same request finds that run again, after any further
    calls of the registry, on any clock and after any restart, answers with the run
    as it then is, and changes nothing. *)
Theorem create_run_idempotent `{SerdeJson} h h2 now now2 stamp stamp2 req c db db1 db2 :
  node_ok db -> is_Some (n_idempotency_key req) ->
  create_run h now stamp req db = (Ok c, db1) -> rtc call_step db1 db2 ->
  exists r, create_run h2 now2 stamp2 req db2 = (Ok (ExistingRun r), db2)
    /\ run_id r = run_id (record c) /\ run (run_id (record c)) db2 = Some r.
Proof.
  intros Hok Hk Hc Hr. destruct (created_row _ _ _ _ _ _ _ (no_runs _ Hok) Hk Hc) as (row & Hin & Hp & Hrk & Hf & Hid).
  assert (node_ok db1) as Hok1.
  { destruct (perform_ok (CreateRun h now stamp req) db I Hok) as [Hok1 _]. cbn in Hok1. by rewrite Hc in Hok1. }
  destruct (reachable_ok _ _ Hr Hok1) as (Hok2 & Hev & _).
  apply list_elem_of_In, list_elem_of_lookup in Hin as [i Hi].
  destruct (de_runs _ _ Hev i row Hi) as (row' & Hi' & Hre). destruct (re_request _ _ Hre) as (Hp' & _ & Hf' & Hk' & _).
  assert (In row' (runs db2)) as Hin' by (apply list_elem_of_In, list_elem_of_lookup; eauto).
  pose proof (re_id _ _ Hre) as Hid'. exists (map_run row'). split.
  - apply create_run_again; try done; try congruence. apply Hok2.
  - split; [cbn; congruence|]. unfold run, load_run.
    assert (r_run_id row' = run_id (record c)) as Hrid by congruence.
    by rewrite (proj2 (select_run _ _ row' (no_runs _ Hok2)) (conj Hin' Hrid)).
Qed.

(** ** What is stored is redacted *)

Section Redaction.
Context `{SerdeJson}.

Definition redacted_text (text : string) : Prop :=
  exists v, text = to_string (value (redact v)).

Record stored_redacted (db : Db) : Prop := {
  sr_events : forall e, In e (run_events db) ->
    redacted_text (e_payload e) /\ forall raw, e_raw_payload e = Some raw -> redacted_text raw;
  sr_runs : forall r, In r (runs db) ->
    redacted_text (r_request_payload r)
    /\ forall result, r_result_payload r = Some result -> redacted_text result
}.

Lemma redacted_value v : redacted_text (to_string (value (redact v))).
Proof. by eexists. Qed.

Lemma sr_update_runs db id f :
  stored_redacted db -> (forall r, r_request_payload (f r) = r_request_payload r) ->
  (forall r, r_result_payload (f r) = r_result_payload r
     \/ exists v, r_result_payload (f r) = Some (to_string (value (redact v)))) ->
  stored_redacted (on_runs (update_where (is_run id) f) db).
Proof.
  intros [He Hr] H1 H2. split; [done|]. intros r' (r & Hin & ->)%In_update_where.
  destruct (is_run id r); [|by apply Hr]. rewrite H1. split; [by apply Hr|].
  intros result. destruct (H2 r) as [->|[v ->]]; [by apply Hr|]. intros [= <-]. apply redacted_value.
Qed.

Lemma sr_apply_update id u now db res db' :
  apply_update id u now db = (res, db') -> stored_redacted db -> stored_redacted db'.
Proof.
  intros E%apply_update_inv Hs. destruct res; [|by subst].
  destruct E as (row & st & _ & _ & _ & _ & ->). apply sr_update_runs; [done..|].
  intros r. cbn. destruct (u_result_payload u) as [v|]; cbn; [right; eauto|by left].
Qed.

Lemma sr_create_run h now stamp req db :
  stored_redacted db -> stored_redacted (snd (create_run h now stamp req db)).
Proof.
  intros Hs. destruct (create_run h now stamp req db) as [res db'] eqn:E. cbn.
  apply create_run_inv in E. destruct res as [[]|]; [|by destruct E as [-> _]|by subst].
  destruct E as (_ & _ & -> & _). destruct Hs as [He Hr]. split; [done|].
  intros r' [Hin|[<-|[]]]%in_app_iff; [by apply Hr|]. split; [apply redacted_value|done].
Qed.

Lemma sr_append_event id ev u t db :
  stored_redacted db -> stored_redacted (snd (append_event id ev u t db)).
Proof.
  intros Hs. destruct (append_event id ev u t db) as [res db'] eqn:E. cbn.
  apply append_event_inv in E. destruct res as [[]|]; [|by destruct E as [-> _]|by subst].
  destruct E as (_ & row & _ & -> & _ & Hu). cbv zeta in Hu.
  assert (stored_redacted (journalled id (event_row id ev (r_last_event_seq row + 1) (t_event t))
            (r_last_event_seq row + 1) (t_run t) db)) as Hj.
  { apply sr_update_runs; [|done|by left]. destruct Hs as [He Hr]. split; [|done].
    intros e [Hin|[<-|[]]]%in_app_iff; [by apply He|]. cbn. split; [apply redacted_value|].
    intros raw. destruct (j_raw ev) as [v|]; [|done]. unfold bounded_raw. cbv zeta.
    destruct (MAX_RAW_PAYLOAD_BYTES <? _); [done|]. intros [= <-]. apply redacted_value. }
  destruct u as [up|]; [|by subst]. by eapply sr_apply_update.
Qed.

Lemma sr_ext db db' :
  runs db' = runs db -> run_events db' = run_events db -> stored_redacted db -> stored_redacted db'.
Proof. intros Hr He []. split; by rewrite ?Hr, ?He. Qed.

Lemma sr_perform c db : stored_redacted db -> stored_redacted (snd (perform c db)).
Proof.
  intros Hs. destruct (group c) eqn:Eg.
  - destruct c; try discriminate Eg; cbn [perform outcome snd].
    + by apply sr_create_run.
    + unfold update_run. apply (transaction_state stored_redacted); [done|]. intros a s'.
      rewrite bind_Ok. intros (? & s1 & H1 & [= _ <-]). by eapply sr_apply_update.
    + by apply sr_append_event.
    + destruct (record_approval_request id seq command choices now db) as [res db'] eqn:E.
      revert E. unfold record_approval_request, bind, Prelude.state, fail, modify.
      repeat (split_if; [by intros [= <- <-]|]). intros [= <- <-]. by apply (sr_ext db).
    + by apply (sr_ext db).
    + by apply (sr_ext db).
    + destruct (set_run_approval_policy id p actor now db) as [res db'] eqn:E. cbn.
      apply set_run_approval_policy_inv in E. destruct res as [[]|]; [|by subst..].
      destruct E as (row & st & _ & _ & _ & _ & ->). by apply sr_update_runs; [..|left].
  - pose proof (kv_remote run_tables (fun _ _ => eq_refl) (fun _ _ _ => eq_refl)
                  (fun _ _ => eq_refl) c db Eg) as (? & ? & _)%run_tables_inv.
    by apply (sr_ext db).
  - pose proof (kv_inventory run_tables (fun _ _ => eq_refl) c db Eg) as (? & ? & _)%run_tables_inv.
    by apply (sr_ext db).
Qed.
End Redaction.

(** No secret is stored with a run: in every reachable registry each event
    payload, raw payload, request and result is the text of the redacted form of
    a value, as [Redact] describes it. *)
Theorem stored_runs_are_redacted `{SerdeJson} db :
  rtc call_step empty_db db -> stored_redacted db.
Proof.
  intros Hr. assert (stored_redacted empty_db) as H0 by (by split).
  induction Hr as [|a b c [call a' _] _ IH]; [done|]. by apply IH, sr_perform.
Qed.

(** ** The theorems at the sample registry *)

Definition calls1 : list Call :=
  [CreateRun host 100 100 req; AppendEvent id1 (ev "a") (Some (RunUpdate.status Starting)) clk;
   UpdateRun id1 (RunUpdate.status Failed) 400; UpdateRun id1 (RunUpdate.status Running) 500].

Lemma performed_reachable cs db :
  (forall c, In c cs -> well_typed c) -> rtc call_step db (performed cs db).
Proof.
  revert db. induction cs as [|c cs IH]; intros db Ht; [apply rtc_refl|]. cbn.
  eapply rtc_l; [apply call, Ht; by left|]. apply IH. intros c' Hc'. apply Ht. by right.
Qed.

Lemma registry_invariant_witness : node_ok (performed calls1 empty_db).
Proof.
  apply registry_invariant, performed_reachable.
  intros c Hc. repeat destruct Hc as [<-|Hc]; exact I || destruct Hc.
Defined.

Lemma failed_call_changes_nothing_witness :
  snd (perform (UpdateRun id1 (RunUpdate.status Running) 500) db6) = db6.
Proof.
  apply (failed_call_changes_nothing (UpdateRun id1 (RunUpdate.status Running) 500) db6);
    [exact I| |vm_compute; reflexivity].
  split; [apply wf6| | | |].
  - apply (remote_ok_ext empty_db); [vm_compute; reflexivity..|apply remote_ok_empty].
  - vm_compute. congruence.
  - apply (inventory_ok_ext empty_db); [vm_compute; reflexivity|apply inventory_ok_empty].
  - intros s Hs. vm_compute in Hs. destruct Hs.
Defined.

Lemma history_is_append_only_witness :
  exists r', In r' (runs (performed calls1 (performed calls1 empty_db)))
    /\ r_run_id r' = id1 /\ RunStatus.parse (r_status r') = Ok Failed.
Proof.
  assert (forall c, In c calls1 -> well_typed c) as Ht
    by (intros c Hc; repeat destruct Hc as [<-|Hc]; exact I || destruct Hc).
  assert (node_ok (performed calls1 empty_db)) as Hok.
  { by apply (reachable_ok empty_db _ (performed_reachable calls1 empty_db Ht)), node_ok_empty. }
  assert (In (row_of (performed calls1 empty_db)) (runs (performed calls1 empty_db))) as Hin
    by (apply (select_one_Some (is_run id1)); vm_compute; reflexivity).
  destruct (history_is_append_only _ (performed calls1 (performed calls1 empty_db)) _ Hok
              (performed_reachable calls1 _ Ht) Hin) as (_ & r' & Hr' & Hid & _ & _ & _ & Hst).
  exists r'. split; [exact Hr'|]. split.
  - rewrite Hid. vm_compute. reflexivity.
  - destruct (Hst Failed) as (st' & Hp & _ & Hterm); [vm_compute; reflexivity|].
    destruct (Hterm eq_refl) as [-> _]. exact Hp.
Defined.

(** The run has started and failed since; the request still finds it. *)
Lemma create_run_idempotent_witness :
  exists r, create_run host 900 900 req (performed calls1 db1) = (Ok (ExistingRun r), performed calls1 db1)
    /\ run_id r = id1 /\ status r = RunStatus.as_str Failed.
Proof.
  assert (forall c, In c calls1 -> well_typed c) as Ht
    by (intros c Hc; repeat destruct Hc as [<-|Hc]; exact I || destruct Hc).
  destruct (create_run_idempotent host host 100 900 100 900 req (CreatedRun (map_run (row_of db1))) empty_db db1
              (performed calls1 db1)) as (r & Hc & Hid & Hr);
    [apply node_ok_empty|by exists "k1"%string|vm_compute; reflexivity|by apply performed_reachable|].
  exists r. split; [exact Hc|]. split; [exact Hid|].
  assert (status <$> run (run_id (record (CreatedRun (map_run (row_of db1))))) (performed calls1 db1)
          = Some (RunStatus.as_str Failed)) as Hs by (vm_compute; reflexivity).
  rewrite Hr in Hs. by injection Hs.
Defined.

Lemma stored_runs_are_redacted_witness : stored_redacted (performed calls1 empty_db).
Proof.
  apply stored_runs_are_redacted, performed_reachable.
  intros c Hc. repeat destruct Hc as [<-|Hc]; exact I || destruct Hc.
Defined.
