(* ===== verification/Fs.v ===== *)
(** * Fs: the file-system calls the node makes, one system call at a time.

    A disk is a finite map from paths to nodes, together with a plan that says
    what becomes of each following state-changing call: it goes through, the
    system refuses it, or the process stops there.  A program over the disk is
    thereby run under every choice of failures and crash points by quantifying
    over the plan.  Reads answer truthfully.  Ancestors of a path are plain
    directories: only the last component of a path may be a link. *)
From Stdlib Require Import Lia.
From stdpp Require Import gmap.
From S2P Require Import Prelude Text.

Inductive FileKind : Type := RegularFile | Directory | Symlink | OtherKind.
#[export] Instance FileKind_eq_dec : EqDecision FileKind.
Proof. solve_decision. Defined.

(** What [lstat] and the contents say; the body of a link is its target. *)
Record Node : Type := { f_kind : FileKind; f_owner : Z; f_mode : Z; f_body : bytes }.

#[export] Instance Node_eq_dec : EqDecision Node.
Proof. solve_decision. Defined.

Inductive Fate : Type := Goes | Fails | Stops.

Record Disk : Type := { nodes : gmap string Node; plan : list Fate }.

Inductive IoError : Type := NotFound | AlreadyExists | IoFailed.
#[export] Instance IoError_eq_dec : EqDecision IoError.
Proof. solve_decision. Defined.

(** [Crashed] is the process ending: no handler of the program sees it.
    [Refused] is a [bail!] of the program with its text; the text that
    [with_context] puts in front of an [Io] error is not kept. *)
Inductive FsError : Type :=
| Crashed
| Io (e : IoError)
| Refused (message : string).

(** The account and the umask of the node.  Modes are written in hexadecimal:
    [0x1FF] is 0777, [0x1C0] 0700, [0x1B6] 0666, [0x180] 0600, [0x3F] 077. *)
Class Process : Type := { euid : Z; umask : Z }.

(** [Path::join]. *)
Definition path_join (dir name : string) : string :=
  if str_starts_with "/" name then name
  else if (dir =? "")%string || ends_with $"/" (chars dir) then dir +:+ name
  else dir +:+ "/" +:+ name.

Lemma path_join_inj dir a b :
  str_starts_with "/" a = false -> str_starts_with "/" b = false ->
  path_join dir a = path_join dir b -> a = b.
Proof.
  unfold path_join. intros -> ->. destruct (_ || _); intros H%(inj (String.append dir)); [done|].
  by apply (inj (String.append "/")) in H.
Qed.

Lemma path_join_longer dir name :
  str_starts_with "/" name = false -> name <> ""%string ->
  (String.length dir < String.length (path_join dir name))%nat.
Proof.
  unfold path_join. intros -> Hne. destruct name as [|c name]; [done|].
  destruct (_ || _); rewrite !string_length_append; cbn; lia.
Qed.

Definition SLASH : Ascii.ascii := Ascii.ascii_of_N 47.
Definition DOT : Ascii.ascii := Ascii.ascii_of_N 46.

(** [Path::parent] of a path without trailing separators. *)
Definition parent (path : string) : option string :=
  match split_once SLASH (List.rev (chars path)) with
  | Some (name, dir) =>
      match name, dir with
      | [], [] => None
      | _, [] => Some "/"%string
      | _, _ => Some (of_chars (List.rev dir))
      end
  | None => if (path =? "")%string then None else Some ""%string
  end.

(** [Path::with_extension]: the file name up to its last dot, unless that is
    its first character, and the new extension. *)
Definition with_extension (path ext : string) : string :=
  let r := List.rev (chars path) in
  let (name, dir) := match split_once SLASH r with
                     | Some (name, dir) => (name, SLASH :: dir)
                     | None => (r, [])
                     end in
  let stem := match split_once DOT name with
              | Some (_, (_ :: _) as stem) => stem
              | _ => name
              end in
  of_chars (List.rev dir ++ List.rev stem ++ DOT :: chars ext).

(** ** Reading *)

(** Follows a link in the last component, as long as the kernel does. *)
Fixpoint resolve (hops : nat) (n : gmap string Node) (path : string) : option string :=
  match n !! path with
  | None => None
  | Some x =>
      if bool_decide (f_kind x = Symlink) then
        match hops with O => None | S h => resolve h n (of_chars (f_body x)) end
      else Some path
  end.
Definition MAX_HOPS : nat := 40.

Definition exists_ (n : gmap string Node) (path : string) : bool :=
  match resolve MAX_HOPS n path with Some _ => true | None => false end.

(** [Path::is_file] and [Path::is_dir] follow links. *)
Definition has_kind (k : FileKind) (n : gmap string Node) (path : string) : bool :=
  match resolve MAX_HOPS n path with
  | Some p => match n !! p with Some x => bool_decide (f_kind x = k) | None => false end
  | None => false
  end.
Definition is_file : gmap string Node -> string -> bool := has_kind RegularFile.
Definition is_dir : gmap string Node -> string -> bool := has_kind Directory.

Definition symlink_metadata (n : gmap string Node) (path : string) : option Node := n !! path.

(** ** State-changing calls *)

Definition syscall {A} (effect : gmap string Node -> Result IoError (A * gmap string Node)) :
    M FsError Disk A :=
  fun d =>
    match plan d with
    | Stops :: p => (Err Crashed, {| nodes := nodes d; plan := p |})
    | Fails :: p => (Err (Io IoFailed), {| nodes := nodes d; plan := p |})
    | f =>
        let p := List.tl f in
        match effect (nodes d) with
        | Ok (a, n) => (Ok a, {| nodes := n; plan := p |})
        | Err e => (Err (Io e), {| nodes := nodes d; plan := p |})
        end
    end.

Definition rename (src dst : string) : M FsError Disk unit :=
  syscall (fun n =>
    match n !! src with
    | None => Err NotFound
    | Some x =>
        match n !! dst with
        | Some y => if bool_decide (f_kind y = Directory) then Err IoFailed
                    else Ok (tt, <[dst := x]> (delete src n))
        | None => Ok (tt, <[dst := x]> (delete src n))
        end
    end).

Definition remove_file (path : string) : M FsError Disk unit :=
  syscall (fun n =>
    match n !! path with
    | None => Err NotFound
    | Some x => if bool_decide (f_kind x = Directory) then Err IoFailed else Ok (tt, delete path n)
    end).

Definition with_mode (m : Z) (x : Node) : Node :=
  {| f_kind := f_kind x; f_owner := f_owner x; f_mode := m; f_body := f_body x |}.
Definition with_owner (o : Z) (x : Node) : Node :=
  {| f_kind := f_kind x; f_owner := o; f_mode := f_mode x; f_body := f_body x |}.
Definition with_body (b : bytes) (x : Node) : Node :=
  {| f_kind := f_kind x; f_owner := f_owner x; f_mode := f_mode x; f_body := b |}.

(** [chmod], [chown] and [open] follow links. *)
Definition through (path : string) (f : Node -> Node) : gmap string Node -> Result IoError (unit * gmap string Node) :=
  fun n => match resolve MAX_HOPS n path with
           | None => Err NotFound
           | Some p => match n !! p with
                       | None => Err NotFound
                       | Some x => Ok (tt, <[p := f x]> n)
                       end
           end.
Definition set_permissions (path : string) (m : Z) : M FsError Disk unit :=
  syscall (through path (with_mode m)).
Definition set_owner (path : string) (o : Z) : M FsError Disk unit :=
  syscall (through path (with_owner o)).
(** [File::open] and [sync_all], which change no name and no content. *)
Definition sync (path : string) : M FsError Disk unit := syscall (through path (fun x => x)).

Definition create_dir `{Process} (path : string) : M FsError Disk unit :=
  syscall (fun n =>
    match n !! path with
    | Some _ => Err AlreadyExists
    | None => Ok (tt, <[path := {| f_kind := Directory; f_owner := euid;
                                   f_mode := Z.ldiff 0x1FF umask; f_body := [] |}]> n)
    end).

(** [create_dir_all] on a path whose parent exists. *)
Definition create_dir_all `{Process} (path : string) : M FsError Disk unit :=
  syscall (fun n =>
    match resolve MAX_HOPS n path with
    | Some p => match n !! p with
                | Some x => if bool_decide (f_kind x = Directory) then Ok (tt, n) else Err AlreadyExists
                | None => Err IoFailed
                end
    | None => match n !! path with
              | Some _ => Err AlreadyExists
              | None => Ok (tt, <[path := {| f_kind := Directory; f_owner := euid;
                                             f_mode := Z.ldiff 0x1FF umask; f_body := [] |}]> n)
              end
    end).

Definition symlink `{Process} (target path : string) : M FsError Disk unit :=
  syscall (fun n =>
    match n !! path with
    | Some _ => Err AlreadyExists
    | None => Ok (tt, <[path := {| f_kind := Symlink; f_owner := euid; f_mode := 0x1FF;
                                   f_body := chars target |}]> n)
    end).

(** [fs::write]: open and truncate, then the contents.  Writing through a link
    that leads nowhere creates a file this map has no path for, and is
    refused. *)
Definition open_truncate `{Process} (path : string) : M FsError Disk unit :=
  syscall (fun n =>
    match resolve MAX_HOPS n path with
    | Some p => match n !! p with
                | Some x => if bool_decide (f_kind x = Directory) then Err IoFailed
                            else Ok (tt, <[p := with_body [] x]> n)
                | None => Err IoFailed
                end
    | None => match n !! path with
              | Some _ => Err IoFailed
              | None => Ok (tt, <[path := {| f_kind := RegularFile; f_owner := euid;
                                             f_mode := Z.ldiff 0x1B6 umask; f_body := [] |}]> n)
              end
    end).
Definition write `{Process} (path : string) (body : bytes) : M FsError Disk unit :=
  open_truncate path ;;; syscall (through path (with_body body)).

(** [fs::read]. *)
Definition read (n : gmap string Node) (path : string) : Result IoError bytes :=
  match resolve MAX_HOPS n path with
  | None => Err NotFound
  | Some p => match n !! p with
              | None => Err NotFound
              | Some x => if bool_decide (f_kind x = RegularFile) then Ok (f_body x) else Err IoFailed
              end
  end.

(** [fs::read_to_string]. *)
Definition read_to_string (n : gmap string Node) (path : string) : Result IoError bytes :=
  match read n path with
  | Err e => Err e
  | Ok body => if valid_utf8 body then Ok body else Err IoFailed
  end.

(** [path] and everything below it. *)
Definition below (path key : string) : bool :=
  (path =? key)%string || str_starts_with (String.append path "/") key.
Definition remove_dir_all (path : string) : M FsError Disk unit :=
  syscall (fun n =>
    match n !! path with
    | None => Err NotFound
    | Some _ => Ok (tt, filter (fun e => below path (fst e) = false) n)
    end).

(** [rename] of a directory, which takes along what is below it; the new name
    may be that of an empty directory. *)
Definition relocate (src dst key : string) : string :=
  match strip_prefix (chars src) (chars key) with
  | Some rest => dst +:+ of_chars rest
  | None => key
  end.
Definition move_tree (src dst : string) (n : gmap string Node) : gmap string Node :=
  list_to_map (List.map (fun e => (relocate src dst (fst e), snd e))
                 (map_to_list (filter (fun e => below src (fst e) = true) n)))
  ∪ filter (fun e => below src (fst e) = false) n.
Definition occupied_below (path : string) (n : gmap string Node) : bool :=
  List.existsb (fun e => below path (fst e) && negb (fst e =? path)%string) (map_to_list n).
Definition rename_dir (src dst : string) : M FsError Disk unit :=
  syscall (fun n =>
    match n !! src with
    | None => Err NotFound
    | Some x =>
        if negb (bool_decide (f_kind x = Directory)) || occupied_below dst n then Err IoFailed
        else match n !! dst with
             | Some y => if bool_decide (f_kind y = Directory) then Ok (tt, move_tree src dst n) else Err IoFailed
             | None => Ok (tt, move_tree src dst n)
             end
    end).

(** ** Handlers *)

(** What is left when an error is dropped, [let _ = ...]: everything but the
    end of the process. *)
Definition ignore_errors {A} (m : M FsError Disk A) : M FsError Disk (option A) :=
  fun d => match m d with
           | (Ok a, d') => (Ok (Some a), d')
           | (Err Crashed, d') => (Err Crashed, d')
           | (Err _, d') => (Ok None, d')
           end.
Definition look {A} (f : gmap string Node -> A) : M FsError Disk A := gets (fun d => f (nodes d)).

(** ** Every state a program can leave behind *)

(** [leaves Q m] holds of the nodes on disk after [m], however it ends. *)
Definition leaves {A} (P : gmap string Node -> Prop) (m : M FsError Disk A)
    (Q : Result FsError A -> gmap string Node -> Prop) : Prop :=
  forall d, P (nodes d) -> Q (fst (m d)) (nodes (snd (m d))).

Section Leaves.
Context {A B : Type}.
Implicit Types (P R : gmap string Node -> Prop).

Lemma leaves_ret (a : A) P (Q : Result FsError A -> gmap string Node -> Prop) :
  (forall n, P n -> Q (Ok a) n) -> leaves P (ret a) Q.
Proof. intros HQ d Hd. by apply HQ. Qed.

Lemma leaves_fail e P (Q : Result FsError A -> gmap string Node -> Prop) :
  (forall n, P n -> Q (Err e) n) -> leaves P (fail e) Q.
Proof. intros HQ d Hd. by apply HQ. Qed.

Lemma leaves_bind (m : M FsError Disk A) (k : A -> M FsError Disk B) P
    (Q1 : A -> gmap string Node -> Prop) (Q : Result FsError B -> gmap string Node -> Prop) :
  leaves P m (fun r n => match r with Ok a => Q1 a n | Err e => Q (Err e) n end) ->
  (forall a, leaves (Q1 a) (k a) Q) ->
  leaves P (bind m k) Q.
Proof.
  intros Hm Hk d Hd. specialize (Hm d Hd). unfold bind. destruct (m d) as [[a|e] d1]; cbn in *; [|done].
  by apply Hk.
Qed.

Lemma leaves_look (f : gmap string Node -> A) P (Q : Result FsError A -> gmap string Node -> Prop) :
  (forall n, P n -> Q (Ok (f n)) n) -> leaves P (look f) Q.
Proof. intros HQ d Hd. by apply HQ. Qed.

Lemma leaves_syscall (effect : gmap string Node -> Result IoError (A * gmap string Node)) P
    (Q : Result FsError A -> gmap string Node -> Prop) :
  (forall n, P n -> Q (Err Crashed) n /\ Q (Err (Io IoFailed)) n
     /\ match effect n with Ok (a, n') => Q (Ok a) n' | Err e => Q (Err (Io e)) n end) ->
  leaves P (syscall effect) Q.
Proof.
  intros HQ d Hd. destruct (HQ _ Hd) as (H1 & H2 & H3). unfold syscall.
  destruct (plan d) as [|[] p]; cbn; try done; by destruct (effect (nodes d)) as [[a n]|e].
Qed.

Lemma leaves_mono (m : M FsError Disk A) P P' (Q Q' : Result FsError A -> gmap string Node -> Prop) :
  leaves P' m Q' -> (forall n, P n -> P' n) -> (forall r n, Q' r n -> Q r n) -> leaves P m Q.
Proof. intros Hm HP HQ d Hd. apply HQ, Hm, HP, Hd. Qed.
End Leaves.

(** The path of a regular file is itself. *)
Lemma resolve_file hops n path x :
  n !! path = Some x -> f_kind x <> Symlink -> resolve hops n path = Some path.
Proof. intros Hx Hk. destruct hops; cbn; rewrite Hx; by case_bool_decide. Qed.

Lemma exists_absent n path : n !! path = None -> exists_ n path = false.
Proof. intros Hx. unfold exists_, MAX_HOPS. cbn [resolve]. by rewrite Hx. Qed.

Lemma exists_file n path x :
  n !! path = Some x -> f_kind x <> Symlink -> exists_ n path = true.
Proof. intros Hx Hk. unfold exists_. by rewrite (resolve_file _ _ _ x). Qed.

Lemma through_file n path x f :
  n !! path = Some x -> f_kind x <> Symlink -> through path f n = Ok (tt, <[path := f x]> n).
Proof. intros Hx Hk. unfold through. by rewrite (resolve_file _ _ _ x), Hx. Qed.

(** ** Replacing a file by a staged one *)

Section Replace.
Context `{Process} (path staging : string) (Hst : staging <> path).

(** What is at the path, and nothing but a file or a directory beside it. *)
Definition untouched (o : option Node) (n : gmap string Node) : Prop :=
  n !! path = o
  /\ (forall x, n !! staging = Some x -> f_kind x = RegularFile \/ f_kind x = Directory).
Definition staged (o : option Node) (q : Node -> Prop) (n : gmap string Node) : Prop :=
  n !! path = o /\ exists x, n !! staging = Some x /\ f_kind x = RegularFile /\ q x.

Lemma leaves_open o :
  leaves (untouched o) (open_truncate staging)
    (fun r n => match r with Ok _ => staged o (fun _ => True) n | Err _ => n !! path = o end).
Proof.
  apply leaves_syscall. intros n [Hp Hs]. split; [done|]. split; [done|].
  destruct (n !! staging) as [x|] eqn:Ex.
  - assert (f_kind x <> Symlink) as Hk by (destruct (Hs x eq_refl); congruence).
    rewrite (resolve_file _ _ _ x), Ex by done. case_bool_decide as Hd; [done|].
    split; [by rewrite lookup_insert_ne|]. exists (with_body [] x).
    rewrite lookup_insert_eq. destruct (Hs x eq_refl); naive_solver.
  - assert (resolve MAX_HOPS n staging = None) as ->
      by (unfold MAX_HOPS; cbn [resolve]; by rewrite Ex).
    split; [by rewrite lookup_insert_ne|]. eexists. by rewrite lookup_insert_eq.
Qed.

(** Changing the staged file through its own name. *)
Lemma leaves_staged o (q q' : Node -> Prop) (f : Node -> Node) :
  (forall x, f_kind (f x) = f_kind x) -> (forall x, q x -> q' (f x)) ->
  leaves (staged o q) (syscall (through staging f))
    (fun r n => match r with Ok _ => staged o q' n | Err _ => n !! path = o end).
Proof.
  intros Hk Hq. apply leaves_syscall. intros n (Hp & x & Hx & Hr & Hqx). split; [done|]. split; [done|].
  rewrite (through_file _ _ x) by congruence. split; [by rewrite lookup_insert_ne|].
  exists (f x). rewrite lookup_insert_eq, Hk. auto.
Qed.

(** The file is the old one until the rename, and then the new one. *)
Lemma replace_leaves o body mode :
  (forall x, o = Some x -> f_kind x <> Directory) ->
  leaves (untouched o) (write staging body ;;; set_permissions staging mode ;;; rename staging path)
    (fun r n => match r with
                | Ok _ => exists x, n !! path = Some x /\ f_kind x = RegularFile /\ f_mode x = mode
                                    /\ f_body x = body
                | Err _ => n !! path = o
                end).
Proof.
  intros Ho. apply leaves_bind with (Q1 := fun _ => staged o (fun x => f_body x = body)).
  { apply leaves_bind with (Q1 := fun _ => staged o (fun _ => True)); [apply leaves_open|].
    intros _. by apply leaves_staged. }
  intros _. apply leaves_bind with (Q1 := fun _ => staged o (fun x => f_mode x = mode /\ f_body x = body)).
  { by apply leaves_staged. }
  intros _. apply leaves_syscall. intros n (Hp & x & Hx & Hr & Hm & Hb). split; [done|]. split; [done|].
  rewrite Hx. assert (match n !! path with
    | Some y => if bool_decide (f_kind y = Directory) then Err IoFailed
                else Ok (tt, <[path := x]> (delete staging n))
    | None => Ok (tt, <[path := x]> (delete staging n))
    end = Ok (tt, <[path := x]> (delete staging n))) as ->.
  { rewrite Hp. destruct o as [y|]; [|done]. by rewrite bool_decide_eq_false_2 by auto. }
  exists x. by rewrite lookup_insert_eq.
Qed.
End Replace.

(** ** Paths in a directory *)

(** A directory path to which [path_join] adds a separator. *)
Definition plain_dir (dir : string) : Prop := dir <> ""%string /\ ends_with $"/" (chars dir) = false.
(** A name that is one component. *)
Definition plain_name (name : string) : Prop := name <> ""%string /\ ~ In SLASH (chars name).

Lemma ends_with_last c a b : b <> [] -> ends_with [c] (a ++ b) = ends_with [c] b.
Proof.
  intros Hb. unfold ends_with. rewrite rev_app_distr.
  destruct (List.rev b) as [|x r] eqn:E; [|unfold starts_with; cbn [List.rev app strip_prefix]; by destruct (char_eqb c x)].
  exfalso. apply Hb. by rewrite <- (rev_involutive b), E.
Qed.

Lemma chars_nil s : chars s = [] <-> s = ""%string.
Proof. destruct s; split; done. Qed.

Lemma plain_name_relative name : plain_name name -> str_starts_with "/" name = false.
Proof.
  intros [Hne Hs]. destruct (str_starts_with "/" name) eqn:E; [|done]. exfalso. apply Hs.
  apply starts_with_true in E as [r ->]. by left.
Qed.

Lemma plain_name_end name : plain_name name -> ends_with $"/" (chars name) = false.
Proof.
  intros [Hne Hs]. destruct (ends_with $"/" (chars name)) eqn:E; [|done]. exfalso. apply Hs.
  unfold ends_with in E. apply starts_with_true in E as [r E]. apply in_rev. rewrite E. by left.
Qed.

Lemma path_join_plain dir name :
  plain_dir dir -> str_starts_with "/" name = false -> path_join dir name = dir +:+ "/" +:+ name.
Proof. unfold path_join. intros [Hne ->] ->. apply String.eqb_neq in Hne. by rewrite Hne. Qed.

Lemma plain_join dir name : plain_name name -> plain_dir (path_join dir name).
Proof.
  intros Hn. unfold path_join. rewrite (plain_name_relative name) by done.
  pose proof (plain_name_end name Hn) as He. destruct Hn as [Hne _].
  assert (chars name <> []) as Hc by (by rewrite chars_nil).
  destruct (_ || _); split.
  - intros E. apply Hc. apply (f_equal chars) in E. rewrite chars_append in E. by apply app_eq_nil in E as [].
  - rewrite chars_append. change $"/" with [SLASH] in *. by rewrite ends_with_last.
  - intros E. apply (f_equal chars) in E. rewrite !chars_append in E. by destruct (chars dir); discriminate E.
  - rewrite !chars_append, app_assoc. change $"/" with [SLASH] in *. by rewrite ends_with_last.
Qed.

Lemma parent_join dir name : plain_dir dir -> plain_name name -> parent (path_join dir name) = Some dir.
Proof.
  intros Hd Hn. rewrite path_join_plain by (done || by apply plain_name_relative).
  destruct Hd as [Hdne _], Hn as [Hne Hs]. unfold parent. rewrite !chars_append.
  assert (split_once SLASH (List.rev (chars dir ++ chars "/" ++ chars name))
          = Some (List.rev (chars name), List.rev (chars dir))) as ->.
  { apply split_once_Some. rewrite !rev_app_distr. cbn [List.rev chars app]. split.
    - by rewrite <- app_assoc.
    - by rewrite <- in_rev. }
  destruct (List.rev (chars dir)) as [|c r] eqn:E.
  { apply (f_equal (@List.rev _)) in E. rewrite rev_involutive in E. by apply chars_nil in E. }
  rewrite <- E, rev_involutive, chars_of_chars. by destruct (List.rev (chars name)).
Qed.

(** What is below a path, relative to it. *)
Definition rooted (rel : string) : bool := (rel =? "")%string || str_starts_with "/" rel.

Lemma string_chars_inj a b : chars a = chars b -> a = b.
Proof. intros E. by rewrite <- (chars_of_chars a), E, chars_of_chars. Qed.

Lemma below_spec path key : below path key = true <-> exists rel, key = path +:+ rel /\ rooted rel = true.
Proof.
  unfold below, rooted, str_starts_with. rewrite orb_true_iff, String.eqb_eq, starts_with_true. split.
  - intros [->|[r E]].
    + exists ""%string. split; [|done]. apply string_chars_inj. by rewrite chars_append, app_nil_r.
    + exists (of_chars ($"/" ++ r)). split.
      * apply string_chars_inj. rewrite E, !chars_append, of_chars_chars. by rewrite <- app_assoc.
      * by rewrite of_chars_chars, starts_with_app, orb_true_r.
  - intros (rel & -> & [->%String.eqb_eq|[r E]%starts_with_true]%orb_true_iff).
    + left. apply string_chars_inj. by rewrite chars_append, app_nil_r.
    + right. exists r. by rewrite !chars_append, E, app_assoc.
Qed.

Lemma below_rel path rel : rooted rel = true -> below path (path +:+ rel) = true.
Proof. intros Hr. apply below_spec. eauto. Qed.

(** ** A tree built in a fresh directory *)

Section Tree.
Context `{Process} (staging : string) (n0 : gmap string Node).

Definition outside (n : gmap string Node) : Prop :=
  forall k, below staging k = false -> n !! k = n0 !! k.
(** Nothing else has changed, and below the directory is exactly [t]. *)
Definition built (t n : gmap string Node) : Prop :=
  outside n /\ forall rel, rooted rel = true -> n !! (staging +:+ rel) = t !! rel.
Definition or_outside {A} (Q : gmap string Node -> Prop) (r : Result FsError A) (n : gmap string Node) : Prop :=
  match r with Ok _ => Q n | Err _ => outside n end.

Lemma built_insert t n rel x :
  rooted rel = true -> built t n -> built (<[rel := x]> t) (<[staging +:+ rel := x]> n).
Proof.
  intros Hr [Ho Hb]. split.
  - intros k Hk. rewrite lookup_insert_ne; [by apply Ho|]. intros <-. by rewrite below_rel in Hk.
  - intros rel' Hr'. destruct (decide (rel = rel')) as [<-|Hne]; [by rewrite !lookup_insert_eq|].
    rewrite !lookup_insert_ne; [by apply Hb|done|]. by intros ->%(inj (String.append staging)).
Qed.

Lemma leaves_built (f : gmap string Node -> Result IoError (unit * gmap string Node)) t rel x :
  rooted rel = true -> (forall n, built t n -> f n = Ok (tt, <[staging +:+ rel := x]> n)) ->
  leaves (built t) (syscall f) (or_outside (built (<[rel := x]> t))).
Proof.
  intros Hr Hf. apply leaves_syscall. intros n Hn. split; [by destruct Hn|]. split; [by destruct Hn|].
  rewrite Hf by done. by apply built_insert.
Qed.

Lemma leaves_then t t' {A B} (m : M FsError Disk A) (k : M FsError Disk B) Q :
  leaves (built t) m (or_outside (built t')) -> leaves (built t') k (or_outside Q) ->
  leaves (built t) (m ;;; k) (or_outside Q).
Proof. intros Hm Hk. by apply leaves_bind with (Q1 := fun _ => built t'); [|intros ?]. Qed.

Lemma resolve_absent hops n path : n !! path = None -> resolve hops n path = None.
Proof. intros Hp. destruct hops; cbn; by rewrite Hp. Qed.

Definition new_dir : Node :=
  {| f_kind := Directory; f_owner := euid; f_mode := Z.ldiff 0x1FF umask; f_body := [] |}.
Definition new_file (body : bytes) : Node :=
  {| f_kind := RegularFile; f_owner := euid; f_mode := Z.ldiff 0x1B6 umask; f_body := body |}.
Definition new_link (target : string) : Node :=
  {| f_kind := Symlink; f_owner := euid; f_mode := 0x1FF; f_body := chars target |}.

Lemma tree_create_dir t rel :
  rooted rel = true -> t !! rel = None ->
  leaves (built t) (create_dir_all (staging +:+ rel)) (or_outside (built (<[rel := new_dir]> t))).
Proof.
  intros Hr Ht. apply leaves_built; [done|]. intros n [_ Hb]. specialize (Hb rel Hr). rewrite Ht in Hb.
  by rewrite resolve_absent, Hb.
Qed.

Lemma tree_dir_there t rel x :
  rooted rel = true -> t !! rel = Some x -> f_kind x = Directory ->
  leaves (built t) (create_dir_all (staging +:+ rel)) (or_outside (built t)).
Proof.
  intros Hr Ht Hk. apply leaves_syscall. intros n Hn. split; [by destruct Hn|]. split; [by destruct Hn|].
  destruct Hn as [Ho Hb]. pose proof (Hb rel Hr) as Hx. rewrite Ht in Hx.
  rewrite (resolve_file _ _ _ x), Hx by congruence. by rewrite bool_decide_eq_true_2.
Qed.

Lemma tree_through t rel x f :
  rooted rel = true -> t !! rel = Some x -> f_kind x <> Symlink ->
  leaves (built t) (syscall (through (staging +:+ rel) f)) (or_outside (built (<[rel := f x]> t))).
Proof.
  intros Hr Ht Hk. apply leaves_built; [done|]. intros n [_ Hb]. specialize (Hb rel Hr). rewrite Ht in Hb.
  by rewrite (through_file _ _ x).
Qed.

Lemma tree_symlink t rel target :
  rooted rel = true -> t !! rel = None ->
  leaves (built t) (symlink target (staging +:+ rel)) (or_outside (built (<[rel := new_link target]> t))).
Proof.
  intros Hr Ht. apply leaves_built; [done|]. intros n [_ Hb]. specialize (Hb rel Hr). rewrite Ht in Hb.
  by rewrite Hb.
Qed.

Lemma tree_write t rel body :
  rooted rel = true -> t !! rel = None ->
  leaves (built t) (write (staging +:+ rel) body) (or_outside (built (<[rel := new_file body]> t))).
Proof.
  intros Hr Ht. eapply leaves_then.
  - apply (leaves_built _ t rel (new_file [])); [done|]. intros n [_ Hb]. specialize (Hb rel Hr).
    rewrite Ht in Hb. by rewrite resolve_absent, Hb.
  - eapply leaves_mono; [eapply (tree_through _ rel (new_file [])); [done|by rewrite lookup_insert_eq|done]|done|].
    intros [[]|e] n; cbn [or_outside]; [|done]. by rewrite insert_insert_eq.
Qed.

End Tree.

(** ** Moving a tree *)

Lemma relocate_rel src dst rel : relocate src dst (src +:+ rel) = dst +:+ rel.
Proof. unfold relocate. rewrite chars_append, strip_prefix_app. by rewrite chars_of_chars. Qed.

Lemma moved_lookup src dst (n : gmap string Node) k x :
  (list_to_map (List.map (fun e => (relocate src dst (fst e), snd e))
     (map_to_list (filter (fun e => below src (fst e) = true) n))) : gmap string Node) !! k = Some x
  <-> exists rel, rooted rel = true /\ k = dst +:+ rel /\ n !! (src +:+ rel) = Some x.
Proof.
  set (g := fun e : string * Node => (relocate src dst (fst e), snd e)).
  assert (forall e, e ∈ map_to_list (filter (fun e => below src (fst e) = true) n) <->
            exists rel, rooted rel = true /\ e.1 = src +:+ rel /\ n !! (src +:+ rel) = Some e.2) as Hel.
  { intros [k' y]. rewrite elem_of_map_to_list, map_lookup_filter_Some, below_spec. cbn. naive_solver. }
  rewrite <- elem_of_list_to_map.
  - change (List.map g ?l) with (g <$> l). rewrite list_elem_of_fmap. split.
    + intros ([k' y] & [= -> ->] & (rel & Hr & Hk & Hn)%Hel). cbn in *. subst k'.
      rewrite relocate_rel. eauto.
    + intros (rel & Hr & -> & Hn). exists (src +:+ rel, x). unfold g. cbn. rewrite relocate_rel.
      split; [done|]. apply Hel. eauto.
  - change (List.map g ?l) with (g <$> l). rewrite <- list_fmap_compose.
    apply NoDup_fmap_2_strong; [|apply NoDup_map_to_list].
    intros [k1 y1] [k2 y2] (r1 & _ & H1 & Hn1)%Hel (r2 & _ & H2 & Hn2)%Hel. unfold g. cbn in *. subst.
    rewrite !relocate_rel. intros ->%(inj (String.append dst)). congruence.
Qed.

(** A finished tree takes the place of the name it is moved to, and nothing
    else changes. *)
Lemma move_tree_built src dst n0 t n :
  below src dst = false -> below dst src = false -> built src n0 t n ->
  (forall k, below dst k = true -> k <> dst -> n !! k = None) -> is_Some (t !! "")%string ->
  (forall rel, rooted rel = true -> move_tree src dst n !! (dst +:+ rel) = t !! rel)
  /\ (forall k, below src k = false -> below dst k = false -> move_tree src dst n !! k = n0 !! k).
Proof.
  intros Hsd Hds [Ho Hb] Hempty Ht. unfold move_tree.
  set (moved := list_to_map _ : gmap string Node).
  assert (forall k x, moved !! k = Some x <->
    exists rel, rooted rel = true /\ k = dst +:+ rel /\ n !! (src +:+ rel) = Some x) as Hm
    by apply moved_lookup. clearbody moved. split.
  - intros rel Hr.
    destruct (moved !! (dst +:+ rel)) as [x|] eqn:E.
    + rewrite (lookup_union_Some_l _ _ _ _ E).
      apply Hm in E as (rel' & Hr' & ->%(inj (String.append dst)) & Hn). by rewrite <- Hb.
    + rewrite lookup_union_r by done. destruct (t !! rel) as [x|] eqn:Et.
      { exfalso. rewrite <- Hb in Et by done.
        assert (exists rel0, rooted rel0 = true /\ dst +:+ rel = dst +:+ rel0 /\ n !! (src +:+ rel0) = Some x)
          as Hx%Hm by eauto. congruence. }
      apply map_lookup_filter_None. left. apply Hempty; [by apply below_rel|].
      intros Heq. assert (rel = ""%string) as ->; [|destruct Ht as [? Ht]; congruence].
      apply (inj (String.append dst)). rewrite Heq. apply string_chars_inj. by rewrite chars_append, app_nil_r.
  - intros k Hs Hd.
    destruct (moved !! k) as [x|] eqn:E.
    { apply Hm in E as (rel & Hr & -> & _). by rewrite below_rel in Hd. }
    rewrite lookup_union_r, <- Ho by done.
    destruct (n !! k) as [x|] eqn:En.
    + by apply map_lookup_filter_Some.
    + apply map_lookup_filter_None. by left.
Qed.

(** ** Rewriting a file in place *)

Lemma resolve_insert hops n path p x y :
  resolve hops n path = Some p -> n !! p = Some x -> f_kind x <> Symlink -> f_kind y <> Symlink ->
  resolve hops (<[p := y]> n) path = Some p.
Proof.
  revert path. induction hops as [|hops IH]; intros path Hr Hx Hk Hy; cbn [resolve] in *.
  all: destruct (n !! path) as [z|] eqn:Ez; [|done].
  all: destruct (decide (p = path)) as [->|Hne];
    [rewrite lookup_insert_eq; by rewrite bool_decide_eq_false_2|rewrite lookup_insert_ne, Ez by done].
  all: case_bool_decide; [|congruence].
  - done.
  - by apply IH.
Qed.

(** A path that leads to a regular file, with these contents if they are known. *)
Definition holds_text (path : string) (body : option bytes) (n : gmap string Node) : Prop :=
  exists p x, resolve MAX_HOPS n path = Some p /\ n !! p = Some x /\ f_kind x = RegularFile
    /\ forall t, body = Some t -> f_body x = t.

Lemma holds_text_read path t n : holds_text path (Some t) n <-> read n path = Ok t.
Proof.
  unfold read. split.
  - intros (p & x & -> & -> & Hk & Hb). rewrite bool_decide_eq_true_2 by done. by rewrite (Hb t).
  - intros Hr. destruct (resolve _ _ _) as [p|] eqn:Ep; [|done]. destruct (n !! p) as [x|] eqn:Ex; [|done].
    case_bool_decide; [|done]. injection Hr as <-. exists p, x. split_and!; try done. by intros t [= <-].
Qed.

Lemma holds_text_weaken path body n : holds_text path body n -> holds_text path None n.
Proof. intros (p & x & Hr & Hx & Hk & _). by exists p, x. Qed.

Lemma write_holds `{Process} path body new :
  leaves (holds_text path body) (write path new)
    (fun r n => holds_text path (match r with Ok _ => Some new | Err _ => None end) n).
Proof.
  assert (forall t b n p x, resolve MAX_HOPS n path = Some p -> n !! p = Some x -> f_kind x = RegularFile ->
    (forall t', b = Some t' -> t = t') -> holds_text path b (<[p := with_body t x]> n)) as Hput.
  { intros t b n p x Hr Hx Hk Hb. exists p, (with_body t x). rewrite lookup_insert_eq.
    split; [by apply (resolve_insert _ _ _ _ x); try congruence; cbn; congruence|]. done. }
  unfold write. apply leaves_bind with (Q1 := fun _ => holds_text path None).
  - apply leaves_syscall. intros n Hn. apply holds_text_weaken in Hn as Hw. split; [done|]. split; [done|].
    destruct Hn as (p & x & Hr & Hx & Hk & _). rewrite Hr, Hx, bool_decide_eq_false_2 by congruence. by apply Hput.
  - intros _. apply leaves_syscall. intros n Hn. split; [done|]. split; [done|].
    destruct Hn as (p & x & Hr & Hx & Hk & _). unfold through. rewrite Hr, Hx. apply Hput; try done.
    by intros t [= <-].
Qed.
