(* ===== verification/CredentialSwap.v ===== *)
(** * CredentialSwap: replacing what one credential holds ([credential_swap.rs]).

    The three moves of a reauthorization over one credential home, run one
    system call at a time under arbitrary failures and crashes ([Fs]), and the
    abstract slot they implement: a home holds one credential, or the old one
    with a proposed replacement, or the old one set aside. *)
From Stdlib Require Import Lia.
From stdpp Require Import gmap.
From S2P Require Import Prelude Text Fs.

Definition CREDENTIAL_FILE : string := "auth.json".
Definition ROLLBACK_FILE : string := "auth.json.rollback".
Definition STAGING_ROOT : string := "reauth".

(** ** The code *)

Definition chown (path : string) (uid : Z) : M FsError Disk unit :=
  let! m := look (fun n => symlink_metadata n path) in
  match m with
  | None => fail (Io NotFound)
  | Some x => if f_owner x =? uid then ret tt else set_owner path uid
  end.

(** [StagingHome::create]; the nonce is a fresh uuid. *)
Definition staging_create `{Process} (node_home : string) (uid : Z) (nonce : string) :
    M FsError Disk string :=
  let root := path_join node_home STAGING_ROOT in
  create_dir_all root ;;;
  set_permissions root 0x1C0 ;;;
  let path := path_join root nonce in
  create_dir path ;;;
  set_permissions path 0x1C0 ;;;
  chown path uid ;;;
  ret path.
(** [StagingHome::store] and [drop]. *)
Definition staging_store (path : string) : string := path_join path CREDENTIAL_FILE.
Definition staging_drop (path : string) : M FsError Disk (option unit) :=
  ignore_errors (remove_dir_all path).

Definition check_plain_private_file (n : gmap string Node) (path : string) (uid : Z) (what : string) :
    Result FsError unit :=
  match symlink_metadata n path with
  | None => Err (Io NotFound)
  | Some x =>
      if bool_decide (f_kind x = Symlink) then Err (Refused (what +:+ " is a symlink"))
      else if negb (bool_decide (f_kind x = RegularFile))
      then Err (Refused (what +:+ " is not a regular file"))
      else if negb (f_owner x =? uid)
      then Err (Refused (what +:+ " is owned by uid " +:+ decimal (f_owner x)
                         +:+ ", not " +:+ decimal uid))
      else if negb (Z.land (Z.land (f_mode x) 0x1FF) 0x3F =? 0)
      then Err (Refused (what +:+ " is open beyond its owner"))
      else Ok tt
  end.

Definition fsync_file_and_parent (path : string) : M FsError Disk unit :=
  sync path ;;;
  match parent path with Some p => sync p | None => ret tt end.

Inductive SwapState : Type := Settled | Swapped | Interrupted.

Definition live_file (home : string) : string := path_join home CREDENTIAL_FILE.
Definition rollback_file (home : string) : string := path_join home ROLLBACK_FILE.

Definition swap_state (n : gmap string Node) (home : string) : SwapState :=
  match exists_ n (live_file home), exists_ n (rollback_file home) with
  | true, false => Settled
  | true, true => Swapped
  | false, true => Interrupted
  | false, false => Settled
  end.

Definition swap_in (home staged : string) (uid : Z) : M FsError Disk unit :=
  let! c := look (fun n => check_plain_private_file n staged uid "the staged credential store") in
  lift c ;;;
  let live := live_file home in
  let rollback := rollback_file home in
  let! here := look (fun n => exists_ n live) in
  (if here : bool then
     let! c := look (fun n => check_plain_private_file n live uid "this credential's store") in
     lift c
   else ret tt) ;;;
  let! waiting := look (fun n => exists_ n rollback) in
  if waiting : bool
  then fail (Refused "this credential already has a swap waiting to be accepted")
  else
    set_permissions staged 0x180 ;;;
    fsync_file_and_parent staged ;;;
    let! here := look (fun n => exists_ n live) in
    (if here : bool then rename live rollback else ret tt) ;;;
    rename staged live ;;;
    sync home.

Definition roll_back (home : string) : M FsError Disk unit :=
  let live := live_file home in
  let rollback := rollback_file home in
  let! waiting := look (fun n => exists_ n rollback) in
  if negb waiting then fail (Refused "this credential has nothing to roll back to")
  else
    let! here := look (fun n => exists_ n live) in
    (if here : bool then remove_file live else ret tt) ;;;
    rename rollback live ;;;
    sync home.

Definition accept (home : string) : M FsError Disk unit :=
  let rollback := rollback_file home in
  let! waiting := look (fun n => exists_ n rollback) in
  if waiting : bool then remove_file rollback ;;; sync home else ret tt.

(** ** The abstract slot *)

Inductive Slot : Type :=
| Vacant
| Held (x : Node)
| Proposed (old new : Node)
| Aside (old : Node).

(** What a call may do to the slot; [true] when it reports success. *)
Inductive slot_swap (new : Node) : bool -> Slot -> Slot -> Prop :=
| swap_refused s : slot_swap new false s s
| swap_set_aside old : slot_swap new false (Held old) (Aside old)
| swap_proposed ok old : slot_swap new ok (Held old) (Proposed old new)
| swap_first ok : slot_swap new ok Vacant (Held new).

Inductive slot_roll_back : bool -> Slot -> Slot -> Prop :=
| back_refused s : slot_roll_back false s s
| back_set_aside old new : slot_roll_back false (Proposed old new) (Aside old)
| back_restored ok old new : slot_roll_back ok (Proposed old new) (Held old)
| back_recovered ok old : slot_roll_back ok (Aside old) (Held old).

Inductive slot_accept : bool -> Slot -> Slot -> Prop :=
| accept_refused s : slot_accept false s s
| accept_nothing x : slot_accept true (Held x) (Held x)
| accept_vacant : slot_accept true Vacant Vacant
| accept_new ok old new : slot_accept ok (Proposed old new) (Held new)
| accept_dropped ok old : slot_accept ok (Aside old) Vacant.

(** A reauthorization leaves its login's result at a path of its own and then
    makes one of the three moves. *)
Inductive Op : Type :=
| Swap (staged : string) (new : Node)
| RollBack
| Accept.

Definition installed (new : Node) : Node := with_mode 0x180 new.

Definition slot_step (op : Op) : bool -> Slot -> Slot -> Prop :=
  match op with
  | Swap _ new => slot_swap (installed new)
  | RollBack => slot_roll_back
  | Accept => slot_accept
  end.

Definition place (path : string) (x : Node) (d : Disk) : Disk :=
  {| nodes := <[path := x]> (nodes d); plan := plan d |}.

Definition perform (home : string) (uid : Z) (op : Op) : M FsError Disk unit :=
  match op with
  | Swap staged new => modify (place staged new) ;;; swap_in home staged uid
  | RollBack => roll_back home
  | Accept => accept home
  end.

(** The slot a home on disk stands for. *)
Definition slot_of (l r : option Node) : Slot :=
  match l, r with
  | Some x, None => Held x
  | Some new, Some old => Proposed old new
  | None, Some old => Aside old
  | None, None => Vacant
  end.
Definition view (home : string) (n : gmap string Node) : Slot :=
  slot_of (n !! live_file home) (n !! rollback_file home).

(** No link and no directory where the two files belong. *)
Definition plain (o : option Node) : Prop :=
  match o with Some x => f_kind x = RegularFile | None => True end.
Definition plain_home (home : string) (n : gmap string Node) : Prop :=
  plain (n !! live_file home) /\ plain (n !! rollback_file home).

Definition aside_of (home : string) (op : Op) : Prop :=
  match op with
  | Swap staged _ => staged <> live_file home /\ staged <> rollback_file home
  | _ => True
  end.

(** ** The refinement *)

Section Refinement.
Context (home : string) (uid : Z).
Let live := live_file home.
Let rollback := rollback_file home.

Lemma live_rollback : live <> rollback.
Proof.
  unfold live, rollback, live_file, rollback_file. by intros H%path_join_inj.
Qed.
(** The two names hold [l] and [r], as files. *)
Definition files (l r : option Node) (n : gmap string Node) : Prop :=
  n !! live = l /\ n !! rollback = r /\ plain l /\ plain r.

Lemma files_exists l r n :
  files l r n -> exists_ n live = (if l is Some _ then true else false)
                 /\ exists_ n rollback = (if r is Some _ then true else false).
Proof.
  intros (Hl & Hr & Pl & Pr). split.
  - destruct l as [x|]; [|by rewrite (exists_absent _ _ Hl)].
    by rewrite (exists_file _ _ x) by (cbn in Pl; congruence).
  - destruct r as [x|]; [|by rewrite (exists_absent _ _ Hr)].
    by rewrite (exists_file _ _ x) by (cbn in Pr; congruence).
Qed.

(** A call that only touches other names. *)
Lemma files_insert l r n p x :
  p <> live -> p <> rollback -> files l r n -> files l r (<[p := x]> n).
Proof. intros Hl Hr (? & ? & ?). split_and!; rewrite ?lookup_insert_ne by done; tauto. Qed.

Lemma files_same l r n p x : n !! p = Some x -> files l r n -> files l r (<[p := x]> n).
Proof. intros Hx. by rewrite insert_id. Qed.

Lemma resolve_lookup hops n p q : resolve hops n p = Some q -> exists x, n !! q = Some x.
Proof.
  revert p. induction hops as [|h IH]; intros p; cbn; destruct (n !! p) as [x|] eqn:E; try done.
  - case_bool_decide; [done|]. intros [= <-]. eauto.
  - case_bool_decide; [apply IH|]. intros [= <-]. eauto.
Qed.

(** Syncing changes nothing, whether it works or not. *)
Lemma leaves_sync (P : gmap string Node -> Prop) (Q : Result FsError unit -> gmap string Node -> Prop) path :
  (forall r n, P n -> Q r n) -> leaves P (sync path) Q.
Proof.
  intros HQ. apply leaves_syscall. intros n Hn. split_and!; [by apply HQ..|].
  unfold through. destruct (resolve _ _ _) as [q|] eqn:E; [|by apply HQ].
  destruct (resolve_lookup _ _ _ _ E) as [x Hx]. rewrite Hx, insert_id by done. by apply HQ.
Qed.

Lemma leaves_fsync (P : gmap string Node -> Prop) (Q : Result FsError unit -> gmap string Node -> Prop) path :
  (forall r n, P n -> Q r n) -> leaves P (fsync_file_and_parent path) Q.
Proof.
  intros HQ. apply leaves_bind with (Q1 := fun _ => P).
  - apply leaves_sync. intros [] n Hn; [done|by apply HQ].
  - intros _. destruct (parent path); [by apply leaves_sync|]. apply leaves_ret. intros; by apply HQ.
Qed.

Lemma check_plain_Ok n path u what x :
  n !! path = Some x -> check_plain_private_file n path u what = Ok tt -> f_kind x = RegularFile.
Proof.
  unfold check_plain_private_file, symlink_metadata. intros ->.
  repeat case_bool_decide; cbn; done.
Qed.

(** Renaming a file onto a free or plain name of the home. *)
Lemma leaves_rename (P : gmap string Node -> Prop) (Q : Result FsError unit -> gmap string Node -> Prop) src dst :
  (forall n, P n -> exists x, n !! src = Some x /\ plain (n !! dst)
     /\ (forall e, Q (Err e) n) /\ Q (Ok tt) (<[dst := x]> (delete src n))) ->
  leaves P (rename src dst) Q.
Proof.
  intros H. apply leaves_syscall. intros n Hn. destruct (H n Hn) as (x & Hx & Hp & He & Hok).
  split_and!; [done..|]. rewrite Hx. destruct (n !! dst) as [y|]; [|done].
  cbn in Hp. by rewrite bool_decide_eq_false_2 by congruence.
Qed.

Lemma leaves_remove (P : gmap string Node -> Prop) (Q : Result FsError unit -> gmap string Node -> Prop) path :
  (forall n, P n -> exists x, n !! path = Some x /\ f_kind x = RegularFile
     /\ (forall e, Q (Err e) n) /\ Q (Ok tt) (delete path n)) ->
  leaves P (remove_file path) Q.
Proof.
  intros H. apply leaves_syscall. intros n Hn. destruct (H n Hn) as (x & Hx & Hp & He & Hok).
  split_and!; [done..|]. rewrite Hx. by rewrite bool_decide_eq_false_2 by congruence.
Qed.

(** What each call leaves, from any pair of files. *)
Definition becomes (step : bool -> Slot -> Slot -> Prop) (s : Slot) (r : Result FsError unit)
    (n : gmap string Node) : Prop :=
  plain_home home n /\ step (is_ok r) s (view home n).

Lemma files_becomes step s l r n (res : Result FsError unit) :
  files l r n -> step (is_ok res) s (slot_of l r) -> becomes step s res n.
Proof.
  intros (Hl & Hr & Pl & Pr) Hs. unfold becomes, plain_home, view.
  fold live rollback. by rewrite Hl, Hr.
Qed.

(** The two renames, once the checks are passed. *)
Lemma swap_moves l staged new :
  staged <> live -> staged <> rollback -> f_kind new = RegularFile ->
  leaves (fun n => files l None n /\ n !! staged = Some new)
    (let! here := look (fun n => exists_ n live) in
     (if here : bool then rename live rollback else ret tt) ;;;
     rename staged live ;;; sync home)
    (becomes (slot_swap new) (slot_of l None)).
Proof.
  intros Hsl Hsr Hk. pose proof live_rollback as Hlr.
  apply leaves_bind with (Q1 := fun here n =>
    (files l None n /\ n !! staged = Some new) /\ here = (if l is Some _ then true else false)).
  { apply leaves_look. intros n Hn. split; [done|]. by apply (files_exists l None n (proj1 Hn)). }
  intros here. apply leaves_bind with (Q1 := fun _ n => files None l n /\ n !! staged = Some new).
  - destruct l as [old|].
    + destruct here; [|intros d [_ Hd]; done]. apply leaves_rename.
      intros n [[Hf Hs] _]. pose proof Hf as (Hl & Hr & Pl & Pr). exists old.
      split; [done|]. split; [by rewrite Hr|]. split.
      * intros e. apply files_becomes with (Some old) None; [done|]. constructor.
      * split; [|by rewrite lookup_insert_ne, lookup_delete_ne by congruence].
        split; [by rewrite lookup_insert_ne, lookup_delete_eq by congruence|].
        by split; [rewrite lookup_insert_eq|].
    + destruct here; [intros d [_ Hd]; done|]. apply leaves_ret. naive_solver.
  - intros _. apply leaves_bind with (Q1 := fun _ n => files (Some new) l n).
    + apply leaves_rename. intros n [Hf Hs]. pose proof Hf as (Hl & Hr & Pl & Pr). exists new.
      split; [done|]. split; [by rewrite Hl|]. split.
      * intros e. apply files_becomes with None l; [done|]. destruct l; constructor.
      * split; [by rewrite lookup_insert_eq|].
        split; [by rewrite lookup_insert_ne, lookup_delete_ne by congruence|done].
    + intros _. apply leaves_sync. intros r n Hf. apply files_becomes with (Some new) l; [done|].
      destruct l; constructor.
Qed.

Lemma swap_in_slot l r staged new :
  staged <> live -> staged <> rollback ->
  leaves (fun n => files l r n /\ n !! staged = Some new) (swap_in home staged uid)
    (becomes (slot_swap (installed new)) (slot_of l r)).
Proof.
  intros Hsl Hsr. set (pre := fun n => files l r n /\ n !! staged = Some new).
  assert (forall e n, pre n -> becomes (slot_swap (installed new)) (slot_of l r) (Err e) n) as Hno.
  { intros e n [Hf _]. apply files_becomes with l r; [done|]. constructor. }
  apply leaves_bind with (Q1 := fun c n => pre n /\ (c = Ok tt -> f_kind new = RegularFile)).
  { apply leaves_look. intros n Hn. split; [done|]. apply check_plain_Ok, Hn. }
  intros [[]|e]; [|intros d [Hd _]; by apply Hno].
  apply leaves_bind with (Q1 := fun _ n => pre n /\ f_kind new = RegularFile).
  { intros d [Hd Hk]. cbn. auto. }
  intros _. apply leaves_bind with (Q1 := fun _ n => pre n /\ f_kind new = RegularFile).
  { apply leaves_look. auto. }
  intros here. apply leaves_bind with (Q1 := fun _ n => pre n /\ f_kind new = RegularFile).
  { destruct here; [|by apply leaves_ret].
    apply leaves_bind with (Q1 := fun _ n => pre n /\ f_kind new = RegularFile);
      [by apply leaves_look|]. intros [[]|e]; intros d [Hd Hk]; cbn; auto. }
  intros _. apply leaves_bind with (Q1 := fun waiting n => (pre n /\ f_kind new = RegularFile)
    /\ waiting = (if r is Some _ then true else false)).
  { apply leaves_look. intros n Hn. split; [done|]. apply (files_exists l r n), Hn. }
  intros waiting. destruct r as [old|].
  { destruct waiting; [|intros d [_ Hd]; done]. apply leaves_fail. intros n [[Hn _] _]. auto. }
  destruct waiting; [intros d [_ Hd]; done|].
  apply leaves_bind with (Q1 := fun _ n => (files l None n /\ n !! staged = Some (installed new))
    /\ f_kind new = RegularFile).
  { apply leaves_syscall. intros n [[Hn Hk] _]. split; [by apply Hno|]. split; [by apply Hno|].
    destruct Hn as [Hf Hs]. rewrite (through_file _ _ new) by congruence.
    split; [|done]. split; [by apply files_insert|]. by rewrite lookup_insert_eq. }
  intros _. apply leaves_bind with (Q1 := fun _ n => (files l None n /\ n !! staged = Some (installed new))
    /\ f_kind new = RegularFile).
  { apply leaves_fsync. intros [[]|e] n Hn; [done|]. destruct Hn as [[Hf _] _].
    apply files_becomes with l None; [done|]. constructor. }
  intros _ d [Hd Hk]. by apply (swap_moves l staged (installed new)).
Qed.

Lemma roll_back_slot l r :
  leaves (files l r) (roll_back home) (becomes slot_roll_back (slot_of l r)).
Proof.
  unfold roll_back. cbv zeta. fold live rollback.
  pose proof live_rollback as Hlr. pose proof (not_eq_sym Hlr) as Hrl.
  assert (forall e n, files l r n -> becomes slot_roll_back (slot_of l r) (Err e) n) as Hno.
  { intros e n Hf. apply files_becomes with l r; [done|]. constructor. }
  apply leaves_bind with (Q1 := fun waiting n => files l r n /\ waiting = (if r is Some _ then true else false)).
  { apply leaves_look. intros n Hn. split; [done|]. by apply (files_exists l r n). }
  intros waiting. destruct r as [old|]; destruct waiting; cbn [negb]; try (intros d [_ Hd]; done).
  2: { apply leaves_fail. intros n [Hn _]. auto. }
  apply leaves_bind with (Q1 := fun here n => files l (Some old) n /\ here = (if l is Some _ then true else false)).
  { apply leaves_look. intros n [Hn _]. split; [done|]. by apply (files_exists l (Some old) n). }
  intros here. apply leaves_bind with (Q1 := fun _ => files None (Some old)).
  - destruct l as [new|]; destruct here; try (intros d [_ Hd]; done).
    + apply leaves_remove. intros n [Hf _]. pose proof Hf as (Hl & Hr & Pl & Pr). exists new.
      split; [done|]. split; [done|]. split; [by intros e; apply Hno|].
      split; [by rewrite lookup_delete_eq|]. by split; [rewrite lookup_delete_ne by done|].
    + apply leaves_ret. naive_solver.
  - intros _. apply leaves_bind with (Q1 := fun _ => files (Some old) None).
    + apply leaves_rename. intros n Hf. pose proof Hf as (Hl & Hr & Pl & Pr). exists old.
      split; [done|]. split; [by rewrite Hl|]. split.
      * intros e. apply files_becomes with None (Some old); [done|]. destruct l; constructor.
      * split; [by rewrite lookup_insert_eq|].
        by split; [rewrite lookup_insert_ne, lookup_delete_eq by done|].
    + intros _. apply leaves_sync. intros res n Hf. apply files_becomes with (Some old) None; [done|].
      destruct l; constructor.
Qed.

Lemma accept_slot l r :
  leaves (files l r) (accept home) (becomes slot_accept (slot_of l r)).
Proof.
  unfold accept. cbv zeta. fold live rollback.
  pose proof live_rollback as Hlr. pose proof (not_eq_sym Hlr) as Hrl.
  apply leaves_bind with (Q1 := fun waiting n => files l r n /\ waiting = (if r is Some _ then true else false)).
  { apply leaves_look. intros n Hn. split; [done|]. by apply (files_exists l r n). }
  intros waiting. destruct r as [old|]; destruct waiting; try (intros d [_ Hd]; done).
  - apply leaves_bind with (Q1 := fun _ => files l None).
    + apply leaves_remove. intros n [Hf _]. pose proof Hf as (Hl & Hr & Pl & Pr). exists old.
      split; [done|]. split; [done|]. split.
      * intros e. apply files_becomes with l (Some old); [done|]. constructor.
      * split; [by rewrite lookup_delete_ne by done|]. by split; [rewrite lookup_delete_eq|].
    + intros _. apply leaves_sync. intros res n Hf. apply files_becomes with l None; [done|].
      destruct l; constructor.
  - apply leaves_ret. intros n [Hf _]. apply files_becomes with l None; [done|]. destruct l; constructor.
Qed.

Lemma plain_home_files n : plain_home home n -> files (n !! live) (n !! rollback) n.
Proof. intros [Hl Hr]. done. Qed.

Lemma perform_refines op d :
  aside_of home op -> plain_home home (nodes d) ->
  plain_home home (nodes (snd (perform home uid op d)))
  /\ slot_step op (is_ok (fst (perform home uid op d))) (view home (nodes d))
       (view home (nodes (snd (perform home uid op d)))).
Proof.
  intros Ha Hp. apply plain_home_files in Hp as Hf. destruct op as [staged new| |].
  - destruct Ha as (Hsl & Hsr). set (d1 := place staged new d).
    change (perform home uid (Swap staged new) d) with (swap_in home staged uid d1).
    apply (swap_in_slot (nodes d !! live) (nodes d !! rollback) staged new); [done..|].
    split; [by apply files_insert|]. cbn. by rewrite lookup_insert_eq.
  - apply (roll_back_slot (nodes d !! live) (nodes d !! rollback)). done.
  - apply (accept_slot (nodes d !! live) (nodes d !! rollback)). done.
Qed.
End Refinement.

(** ** Sequences of moves *)

(** The node runs the moves one after the other; a crash or an error ends one
    move, and the next begins from what is on disk. *)
Fixpoint perform_all (home : string) (uid : Z) (ops : list Op) (d : Disk) : list bool * Disk :=
  match ops with
  | [] => ([], d)
  | op :: ops' =>
      let (r, d1) := perform home uid op d in
      let (rs, d2) := perform_all home uid ops' d1 in
      (is_ok r :: rs, d2)
  end.

Inductive slot_run : list Op -> list bool -> Slot -> Slot -> Prop :=
| run_nil s : slot_run [] [] s s
| run_cons op ops ok oks s s1 s2 :
    slot_step op ok s s1 -> slot_run ops oks s1 s2 -> slot_run (op :: ops) (ok :: oks) s s2.

(** C25. One credential home under any sequence of swaps, rollbacks and
    acceptances, with any system call failing and the process stopping at any
    call, implements the abstract slot: what is reported and what is on disk
    after the sequence is a run of the slot's own steps. *)
Theorem credential_home_refines_slot home uid ops d :
  Forall (aside_of home) ops -> plain_home home (nodes d) ->
  slot_run ops (fst (perform_all home uid ops d)) (view home (nodes d))
    (view home (nodes (snd (perform_all home uid ops d)))).
Proof.
  intros Hops. revert d. induction Hops as [|op ops Hop Hops IH]; intros d Hd; cbn; [constructor|].
  destruct (perform_refines home uid op d Hop Hd) as [Hp Hs].
  destruct (perform home uid op d) as [r d1]. specialize (IH d1 Hp).
  destruct (perform_all home uid ops d1) as [rs d2]. econstructor; [exact Hs|exact IH].
Qed.

(** ** Attempts: how the callers compose the moves

    [WorkerManager::swap_credential_material] swaps and, when a worker does not
    come back on the new material, rolls back; [perform_reauthorization] accepts
    when all did.  [proven] is what the workers said. *)
Record Attempt : Type := { at_staged : string; at_new : Node; at_proven : bool }.

Definition attempt (home : string) (uid : Z) (a : Attempt) : M FsError Disk unit :=
  modify (place (at_staged a) (at_new a)) ;;;
  swap_in home (at_staged a) uid ;;;
  if at_proven a then ignore_errors (accept home) ;;; ret tt
  else ignore_errors (roll_back home) ;;; ret tt.

Fixpoint attempts (home : string) (uid : Z) (l : list Attempt) (d : Disk) : Disk :=
  match l with
  | [] => d
  | a :: l' => attempts home uid l' (snd (attempt home uid a d))
  end.

(** The credential a home would be put back to. *)
Definition recoverable (s : Slot) : option Node :=
  match s with
  | Vacant => None
  | Held x => Some x
  | Proposed old _ => Some old
  | Aside old => Some old
  end.
Definition in_flight (s : Slot) : Prop :=
  match s with Proposed _ _ | Aside _ => True | _ => False end.

(** One attempt on the slot. *)
Inductive slot_attempt (a : Attempt) : Slot -> Slot -> Prop :=
| attempt_refused s : slot_attempt a s s
| attempt_aside old : slot_attempt a (Held old) (Aside old)
| attempt_proposed old : slot_attempt a (Held old) (Proposed old (installed (at_new a)))
| attempt_replaced old : at_proven a = true -> slot_attempt a (Held old) (Held (installed (at_new a)))
| attempt_first : slot_attempt a Vacant (Held (installed (at_new a))).

Lemma ignore_errors_state {A} (m : M FsError Disk A) d :
  snd (ignore_errors m d) = snd (m d).
Proof. unfold ignore_errors. by destruct (m d) as [[a|[]] d']. Qed.

Lemma attempt_state home uid a d :
  let p := perform home uid (Swap (at_staged a) (at_new a)) d in
  snd (attempt home uid a d)
  = if is_ok (fst p) then snd ((if at_proven a then accept home else roll_back home) (snd p)) else snd p.
Proof.
  assert (forall (m : M FsError Disk unit) d0,
    snd (bind (ignore_errors m) (fun _ => ret tt) d0) = snd (m d0)) as Hi.
  { intros m d0. rewrite <- (ignore_errors_state m d0). unfold bind, ret.
    by destruct (ignore_errors m d0) as [[]]. }
  cbv zeta. set (d0 := place (at_staged a) (at_new a) d).
  change (perform home uid _ d) with (swap_in home (at_staged a) uid d0).
  change (attempt home uid a d) with (bind (swap_in home (at_staged a) uid) (fun _ =>
    if at_proven a then ignore_errors (accept home) ;;; ret tt
    else ignore_errors (roll_back home) ;;; ret tt) d0).
  unfold bind at 1. destruct (swap_in home (at_staged a) uid d0) as [[[]|e] d1]; [|done].
  cbn [fst snd is_ok]. destruct (at_proven a); apply Hi.
Qed.

Lemma attempt_refines home uid a d :
  aside_of home (Swap (at_staged a) (at_new a)) -> plain_home home (nodes d) ->
  plain_home home (nodes (snd (attempt home uid a d)))
  /\ slot_attempt a (view home (nodes d)) (view home (nodes (snd (attempt home uid a d)))).
Proof.
  intros Ha Hp. pose proof (perform_refines home uid _ d Ha Hp) as [Hp1 Hs].
  rewrite attempt_state. set (p := perform home uid _ d) in *. cbn [slot_step] in Hs.
  destruct (is_ok (fst p)); [|split; [done|]; inversion Hs; subst; constructor].
  destruct (at_proven a) eqn:Epr.
  - destruct (perform_refines home uid Accept (snd p) I Hp1) as [Hp2 Hs2]. split; [done|].
    revert Hs Hs2. cbn [perform slot_step]. generalize (view home (nodes d)), (view home (nodes (snd p))).
    intros s s1 Hs Hs2. inversion Hs; subst; inversion Hs2; subst; by constructor.
  - destruct (perform_refines home uid RollBack (snd p) I Hp1) as [Hp2 Hs2]. split; [done|].
    revert Hs Hs2. cbn [perform slot_step]. generalize (view home (nodes d)), (view home (nodes (snd p))).
    intros s s1 Hs Hs2. inversion Hs; subst; inversion Hs2; subst; by constructor.
Qed.

Lemma slot_attempt_recoverable a s s' old :
  slot_attempt a s s' -> recoverable s = Some old ->
  exists x, recoverable s' = Some x
    /\ (x = old \/ (at_proven a = true /\ x = installed (at_new a))).
Proof.
  destruct 1 as [s|o|o|o Hp|]; cbn [recoverable]; intros H; try discriminate H.
  - exists old. split; [done|by left].
  - exists o. split; [done|left; congruence].
  - exists o. split; [done|left; congruence].
  - exists (installed (at_new a)). split; [done|by right].
Qed.

(** However many reauthorizations are tried, whatever fails and wherever the
    node stops, a home that held a credential can be put back to one: the
    credential it held at first, or one that an attempt installed after every
    worker had proven it. *)
Theorem reauthorization_never_loses_the_credential home uid l d old :
  Forall (fun a => aside_of home (Swap (at_staged a) (at_new a))) l ->
  plain_home home (nodes d) -> recoverable (view home (nodes d)) = Some old ->
  exists x, recoverable (view home (nodes (attempts home uid l d))) = Some x
    /\ (x = old \/ exists a, In a l /\ at_proven a = true /\ x = installed (at_new a)).
Proof.
  intros Hl. revert d old. induction Hl as [|a l Ha Hl IH]; intros d old Hd Hr; cbn; [by eauto|].
  destruct (attempt_refines home uid a d Ha Hd) as [Hp Hs].
  assert (exists x, recoverable (view home (nodes (snd (attempt home uid a d)))) = Some x
    /\ (x = old \/ (at_proven a = true /\ x = installed (at_new a)))) as (x & Hx & Hor).
  { by apply (slot_attempt_recoverable _ _ _ _ Hs). }
  destruct (IH _ x Hp Hx) as (y & Hy & Hory). exists y. split; [done|].
  destruct Hory as [->|(a' & Hin & Hpr & ->)]; [|right; exists a'; naive_solver].
  destruct Hor as [->|[Hpr ->]]; [by left|right; exists a; naive_solver].
Qed.

(** Nothing clears a swap that was cut short: once a home is left with a
    proposed replacement or with its credential set aside, every later
    reauthorization is refused and leaves the home as it was. *)
Theorem interrupted_swap_blocks_reauthorization home uid l d :
  Forall (fun a => aside_of home (Swap (at_staged a) (at_new a))) l ->
  plain_home home (nodes d) -> in_flight (view home (nodes d)) ->
  view home (nodes (attempts home uid l d)) = view home (nodes d).
Proof.
  intros Hl. revert d. induction Hl as [|a l Ha Hl IH]; intros d Hd Hf; cbn; [done|].
  destruct (attempt_refines home uid a d Ha Hd) as [Hp Hs].
  assert (view home (nodes (snd (attempt home uid a d))) = view home (nodes d)) as E.
  { revert Hs Hf. generalize (view home (nodes d)), (view home (nodes (snd (attempt home uid a d)))).
    intros s s' Hs Hf. by destruct Hs. }
  rewrite IH; [exact E|exact Hp|]. change (in_flight (view home (nodes (snd (attempt home uid a d))))).
  by rewrite E.
Qed.

(** ** At a concrete home *)

Module Sample.
Definition home : string := "/h".
Definition file (body : string) : Node :=
  {| f_kind := RegularFile; f_owner := 7; f_mode := 0x180; f_body := chars body |}.
Definition folder : Node := {| f_kind := Directory; f_owner := 7; f_mode := 0x1C0; f_body := [] |}.
Definition disk (p : list Fate) : Disk :=
  {| nodes := <["/h" := folder]> (<["/h/auth.json" := file "old"]> (<["/s" := folder]> ∅)); plan := p |}.
Definition login (proven : bool) : Attempt :=
  {| at_staged := "/s/auth.json"; at_new := file "new"; at_proven := proven |}.
(** The sixth call, the second rename, is refused. *)
Definition second_rename_fails : list Fate := [Goes; Goes; Goes; Goes; Fails].
End Sample.

Lemma credential_home_refines_slot_witness :
  slot_run [Swap "/s/auth.json" (Sample.file "new"); RollBack; Swap "/s/auth.json" (Sample.file "new"); Accept]
    [true; true; true; true] (Held (Sample.file "old")) (Held (Sample.file "new")).
Proof.
  apply (credential_home_refines_slot Sample.home 7
    [Swap "/s/auth.json" (Sample.file "new"); RollBack; Swap "/s/auth.json" (Sample.file "new"); Accept]
    (Sample.disk [])); [|done].
  repeat constructor; done.
Defined.

Lemma reauthorization_never_loses_the_credential_witness :
  exists x, recoverable (view Sample.home (nodes (attempts Sample.home 7
    [Sample.login false; Sample.login true] (Sample.disk [Goes; Goes; Goes; Stops])))) = Some x.
Proof.
  destruct (reauthorization_never_loses_the_credential Sample.home 7
    [Sample.login false; Sample.login true] (Sample.disk [Goes; Goes; Goes; Stops]) (Sample.file "old"))
    as (x & Hx & _).
  - repeat constructor; done.
  - done.
  - reflexivity.
  - exists x. exact Hx.
Defined.

(** A refused rename, no crash involved: the swap reports an error with the
    credential moved away. *)
Lemma failed_swap_moves_the_credential :
  let (r, d) := perform Sample.home 7 (Swap "/s/auth.json" (Sample.file "new"))
                  (Sample.disk Sample.second_rename_fails) in
  r = Err (Io IoFailed) /\ view Sample.home (nodes d) = Aside (Sample.file "old")
  /\ swap_state (nodes d) Sample.home = Interrupted.
Proof. vm_compute. auto. Qed.

Lemma interrupted_swap_blocks_reauthorization_witness :
  let d := snd (perform Sample.home 7 (Swap "/s/auth.json" (Sample.file "new"))
                 (Sample.disk Sample.second_rename_fails)) in
  view Sample.home (nodes (attempts Sample.home 7 [Sample.login true; Sample.login true] d))
  = view Sample.home (nodes d).
Proof.
  intros d. apply (interrupted_swap_blocks_reauthorization Sample.home 7).
  - repeat constructor; done.
  - vm_compute. auto.
  - vm_compute. auto.
Defined.
