(* ===== verification/RunLock.v ===== *)
(** * RunLock: single-flight run admission of one project ([runlock.rs]).

    The state of a project's directory as the code uses it: who holds the
    advisory lock on [run.lock] (an open file description, or nobody), and the
    contents of [active-run.json].  The kernel gives the lock to one open file
    description at a time and takes it back when that is closed. *)
From Stdlib Require Import Lia.
From S2P Require Import Prelude Text Json RunState Schema Protocol UpdateOp.

Definition RUN_CONFLICT_CODE : string := "run_conflict".

Inductive ConflictReason : Type :=
| LockHeld
| ActiveRunning (run_id status : string).
Record RunConflict : Type := { rc_project_id : string; rc_reason : ConflictReason }.

(** [Display]. *)
Definition conflict_text (c : RunConflict) : string :=
  match rc_reason c with
  | LockHeld => "project " +:+ rc_project_id c
      +:+ " already has an active run: the run lock is held by another Asterism Node process"
  | ActiveRunning id st => "project " +:+ rc_project_id c +:+ " already has an active run: "
      +:+ id +:+ " is " +:+ st
  end.

Inductive AdmissionDecision : Type :=
| Admit
| Reject (run_id status : string).

Record ActiveRun : Type := {
  ac_run_id : string;
  ac_session_id : option string;
  ac_started_at_unix : Z
}.

(** [active-run.json] is [None] when there is no such file. *)
Record ProjectFiles : Type := { lock_holder : option nat; active_file : option bytes }.

Definition try_lock (project_id : string) (handle : nat) : M RunConflict ProjectFiles nat :=
  fun f => match lock_holder f with
           | Some _ => (Err {| rc_project_id := project_id; rc_reason := LockHeld |}, f)
           | None => (Ok handle, {| lock_holder := Some handle; active_file := active_file f |})
           end.
(** Dropping a [ProjectRunLock], or the end of its process. *)
Definition release (handle : nat) (f : ProjectFiles) : ProjectFiles :=
  if bool_decide (lock_holder f = Some handle)
  then {| lock_holder := None; active_file := active_file f |} else f.

Section Sidecar.
Context `{SerdeJson}.

Definition active_fields (r : ActiveRun) : list (string * Value) :=
  [("run_id", VString (ac_run_id r)); ("session_id", null_or VString (ac_session_id r));
   ("started_at_unix", VNumber (PosInt (ac_started_at_unix r)))]%string.
Definition active_of (fields : list (string * Value)) : option ActiveRun :=
  id ← required (field as_str "run_id" fields);
  session ← optional (field as_opt_str "session_id" fields);
  started ← required (field as_u64' "started_at_unix" fields);
  Some {| ac_run_id := id; ac_session_id := session; ac_started_at_unix := started |}.

(** [read_to_string] refuses a file that is not UTF-8. *)
Definition read_active_run (f : ProjectFiles) : Result string (option ActiveRun) :=
  match active_file f with
  | None => Ok None
  | Some body =>
      if negb (valid_utf8 body) then Err "failed to read active-run.json"%string
      else if bool_decide (trim body = []) then Ok None
      else Ok (struct_from_str (of_chars body) ≫= active_of)
  end.

Definition record_active_run (r : ActiveRun) (f : ProjectFiles) : ProjectFiles :=
  {| lock_holder := lock_holder f; active_file := Some (chars (struct_to_string_pretty (active_fields r))) |}.
Definition clear_active_run (f : ProjectFiles) : ProjectFiles :=
  {| lock_holder := lock_holder f; active_file := None |}.
End Sidecar.

Definition classify_recorded_run (run : option ActiveRun) (status : option string) : AdmissionDecision :=
  match run with
  | None => Admit
  | Some r =>
      match status with
      | None => Admit
      | Some st => if is_terminal_status st then Admit else Reject (ac_run_id r) st
      end
  end.

Definition conflict_from_decision (project_id : string) (d : AdmissionDecision) : option RunConflict :=
  match d with
  | Admit => None
  | Reject id st => Some {| rc_project_id := project_id; rc_reason := ActiveRunning id st |}
  end.

(** ** Facts *)

Definition active_ok (r : ActiveRun) : Prop := in_u64 (ac_started_at_unix r).

Lemma active_of_fields r : active_ok r -> active_of (active_fields r) = Some r.
Proof.
  intros [H1 H2]. destruct r as [id session t]. cbn in *. unfold active_of, active_fields.
  destruct session; cbn; by rewrite !(proj2 (Z.leb_le _ _)) by done.
Qed.

Lemma active_fields_ok r e :
  In e (active_fields r) ->
  (depth (snd e) <= 126)%nat /\ integral (snd e) = true /\ ordered (snd e) = true.
Proof.
  intros [<-|[<-|[<-|[]]]]; [|destruct (ac_session_id r)|]; cbn; (split; [lia|done]).
Qed.

(** What is recorded is read back, and clearing forgets it. *)
Lemma active_run_roundtrip `{SerdeJsonLaws} r f :
  active_ok r ->
  read_active_run (record_active_run r f) = Ok (Some r)
  /\ read_active_run (clear_active_run (record_active_run r f)) = Ok None.
Proof.
  intros Hr. split; [|done]. unfold read_active_run, record_active_run. cbn [active_file].
  rewrite struct_to_string_pretty_utf8. cbn [negb]. destruct (struct_pretty_braces (active_fields r)) as [s Hs].
  rewrite bool_decide_eq_false_2.
  - rewrite chars_of_chars, struct_from_str_pretty; [cbn [mbind option_bind]; by rewrite active_of_fields|].
    by apply active_fields_ok.
  - intros Ht. assert (In (Ascii.ascii_of_N 123) []) as [].
    rewrite <- Ht. apply trim_keeps; [reflexivity|]. rewrite Hs. by left.
Qed.

(** A damaged record blocks nothing. *)
Lemma unreadable_record_admits `{SerdeJson} f body :
  active_file f = Some body -> valid_utf8 body = true -> struct_from_str (of_chars body) = None ->
  read_active_run f = Ok None.
Proof.
  intros Hf Hu Hp. unfold read_active_run. rewrite Hf, Hu. cbn [negb].
  case_bool_decide; [done|]. by rewrite Hp.
Qed.
