(* ===== verification/Credentials.v ===== *)
(** * Credentials: what the node records about its provider credentials
    ([credentials.rs], [providercaps.rs]).

    The pool listing of Hermes, the reconciliation of the registry with it, the
    state of a provider, and the catalogue of providers and models.  SHA-256 and
    the JSON encoding of the registry file are parameters. *)
From Stdlib Require Import Lia.
From stdpp Require Import gmap.
From S2P Require Import Prelude Text Fs Identifiers.

(** ** Data ([credentials.rs]) *)

Definition MAX_CREDENTIALS : nat := 16.
Definition MAX_LABEL_LENGTH : Z := 64.
Definition ADOPTED_LABEL : string := "Existing credential".

Inductive CredentialState : Type :=
| Required
| Authorizing
| Authorized
| AttemptFailed
| Revoked
| Reauthorizing
| ReauthorizationRequired
| RuntimeMissing.
#[export] Instance CredentialState_eq_dec : EqDecision CredentialState.
Proof. solve_decision. Defined.

Module CredentialState.
Definition wire (st : CredentialState) : string :=
  match st with
  | Required => "required"
  | Authorizing => "authorizing"
  | Authorized => "authorized"
  | AttemptFailed => "failed"
  | Revoked => "revoked"
  | Reauthorizing => "reauthorizing"
  | ReauthorizationRequired => "reauthorization_required"
  | RuntimeMissing => "runtime_missing"
  end.
Definition reauthorizable (st : CredentialState) : bool :=
  match st with
  | Authorized | ReauthorizationRequired | RuntimeMissing | Required | AttemptFailed => true
  | _ => false
  end.
Definition runnable (st : CredentialState) : bool :=
  match st with Authorized => true | _ => false end.
End CredentialState.

Inductive CredentialStorage : Type := Isolated | LegacySharedPool.
#[export] Instance CredentialStorage_eq_dec : EqDecision CredentialStorage.
Proof. solve_decision. Defined.
Definition storage_wire (s : CredentialStorage) : string :=
  match s with Isolated => "isolated" | LegacySharedPool => "legacy_shared_pool" end.

Record Credential : Type := {
  cr_id : string;
  cr_provider_id : string;
  cr_auth_method : string;
  cr_label : string;
  cr_state : CredentialState;
  cr_storage : CredentialStorage;
  cr_pool_entry : option string;
  cr_generation : Z;
  cr_created_at : Z;
  cr_updated_at : Z
}.
#[export] Instance Credential_eq_dec : EqDecision Credential.
Proof. solve_decision. Defined.

Record CredentialSummary : Type := {
  cs_id : string;
  cs_provider_id : string;
  cs_auth_method : string;
  cs_label : string;
  cs_state : string;
  cs_storage : string;
  cs_created_at : Z;
  cs_updated_at : Z
}.
Definition summary (c : Credential) : CredentialSummary :=
  {| cs_id := cr_id c; cs_provider_id := cr_provider_id c; cs_auth_method := cr_auth_method c;
     cs_label := cr_label c; cs_state := CredentialState.wire (cr_state c);
     cs_storage := storage_wire (cr_storage c); cs_created_at := cr_created_at c;
     cs_updated_at := cr_updated_at c |}.

Record PoolEntry : Type := { pe_id : string; pe_kind : string }.

(** ** The pool listing *)

Definition POOL_KINDS : list string := ["oauth"; "api-key"; "api_key"]%string.
Definition is_pool_kind (field : bytes) : bool :=
  List.existsb (fun k => (k =? of_chars field)%string) POOL_KINDS.

Definition is_usable_pool_id (id : string) : bool :=
  negb (id =? "")%string && (len id <=? MAX_LABEL_LENGTH) && negb (has_control (chars id)).

Definition HASH : Ascii.ascii := Ascii.ascii_of_N 35.

(** [(2..fields.len()).rev().find(...)]. *)
Definition kind_at (fields : list bytes) : option nat :=
  List.find (fun position => match fields !! position with
                             | Some f => is_pool_kind f
                             | None => false
                             end)
    (List.rev (seq 2 (length fields - 2))).

Definition parse_pool_line (line : bytes) : option PoolEntry :=
  match strip_prefix [HASH] (trim line) with
  | None => None
  | Some rest =>
      let fields := split_whitespace rest in
      match fields with
      | [] => None
      | index :: _ =>
          if negb (List.forallb is_ascii_digit index) then None
          else match kind_at fields with
               | None => None
               | Some at_ =>
                   let id := of_chars (join [SP] (List.firstn (at_ - 1) (List.skipn 1 fields))) in
                   if negb (is_usable_pool_id id) then None
                   else Some {| pe_id := id;
                                pe_kind := of_chars (List.nth at_ fields []) |}
               end
      end
  end.

Definition parse_pool_listing (text : bytes) : list PoolEntry :=
  omap parse_pool_line (lines text).

Inductive LabelError : Type := LabelLength | LabelControl.
Definition validate_label (label : string) : Result LabelError unit :=
  let trimmed := trim (chars label) in
  if bool_decide (trimmed = []) || (MAX_LABEL_LENGTH <? Z.of_nat (length trimmed)) then Err LabelLength
  else if has_control trimmed then Err LabelControl
  else Ok tt.

(** ** The registry *)

Section WithDigest.
Context (sha256 : string -> list Z).

Definition adopted_id (provider_id pool_entry : string) : string :=
  let digest := sha256 (provider_id +:+ "/" +:+ pool_entry) in
  "cred-" +:+ of_chars (List.concat (List.map (hex_fixed 2) (List.firstn 8 digest))).

Definition get (id : string) (l : list Credential) : option Credential :=
  List.find (fun c => (cr_id c =? id)%string) l.

Definition with_state (st : CredentialState) (now : Z) (c : Credential) : Credential :=
  {| cr_id := cr_id c; cr_provider_id := cr_provider_id c; cr_auth_method := cr_auth_method c;
     cr_label := cr_label c; cr_state := st; cr_storage := cr_storage c;
     cr_pool_entry := cr_pool_entry c; cr_generation := cr_generation c;
     cr_created_at := cr_created_at c; cr_updated_at := now |}.
Definition bound_to (entry : string) (now : Z) (c : Credential) : Credential :=
  {| cr_id := cr_id c; cr_provider_id := cr_provider_id c; cr_auth_method := cr_auth_method c;
     cr_label := cr_label c; cr_state := Authorized; cr_storage := cr_storage c;
     cr_pool_entry := Some entry; cr_generation := cr_generation c;
     cr_created_at := cr_created_at c; cr_updated_at := now |}.
Definition adopted (provider_id entry : string) (now : Z) : Credential :=
  {| cr_id := adopted_id provider_id entry; cr_provider_id := provider_id;
     cr_auth_method := "device_authorization"; cr_label := ADOPTED_LABEL;
     cr_state := Authorized; cr_storage := LegacySharedPool; cr_pool_entry := Some entry;
     cr_generation := 0; cr_created_at := now; cr_updated_at := now |}.

(** A row of the shared pool for this provider. *)
Definition pooled (provider_id : string) (c : Credential) : bool :=
  bool_decide (cr_storage c = LegacySharedPool) && (cr_provider_id c =? provider_id)%string.
Definition bound (provider_id entry : string) (c : Credential) : bool :=
  pooled provider_id c && bool_decide (cr_pool_entry c = Some entry).
Definition waiting (provider_id entry : string) (c : Credential) : bool :=
  pooled provider_id c && bool_decide (cr_pool_entry c = None) && (cr_label c =? entry)%string
  && match cr_state c with Authorizing | AttemptFailed => true | _ => false end.

(** [iter_mut().find(p)] and an update of what it found. *)
Fixpoint update_first (p : Credential -> bool) (f : Credential -> Credential) (l : list Credential) :
    option (list Credential) :=
  match l with
  | [] => None
  | c :: l' => if p c then Some (f c :: l')
               else match update_first p f l' with Some r => Some (c :: r) | None => None end
  end.

(** The first loop of [reconcile]: bind or adopt what the pool holds. *)
Fixpoint adopt (provider_id : string) (pool : list PoolEntry) (now : Z) (l : list Credential) :
    list Credential * bool :=
  match pool with
  | [] => (l, false)
  | entry :: pool' =>
      if List.existsb (bound provider_id (pe_id entry)) l then adopt provider_id pool' now l
      else match update_first (waiting provider_id (pe_id entry)) (bound_to (pe_id entry) now) l with
           | Some l' => (fst (adopt provider_id pool' now l'), true)
           | None =>
               if (MAX_CREDENTIALS <=? length l)%nat then (l, false)
               else (fst (adopt provider_id pool' now (l ++ [adopted provider_id (pe_id entry) now])), true)
           end
  end.

Definition holds (pool : list PoolEntry) (c : Credential) : bool :=
  match cr_pool_entry c with
  | Some id => List.existsb (fun e => (pe_id e =? id)%string) pool
  | None => false
  end.

(** The second loop: [None] leaves the row alone. *)
Definition wanted (pool : list PoolEntry) (c : Credential) : option CredentialState :=
  match holds pool c, cr_state c with
  | true, Authorized => None
  | true, _ => Some Authorized
  | false, Authorized => Some Required
  | false, _ => None
  end.
Definition judge (provider_id : string) (pool : list PoolEntry) (now : Z) (c : Credential) : Credential :=
  if pooled provider_id c then
    match wanted pool c with Some st => with_state st now c | None => c end
  else c.
Definition judged (provider_id : string) (pool : list PoolEntry) (c : Credential) : bool :=
  pooled provider_id c && match wanted pool c with Some _ => true | None => false end.

Definition reconcile (provider_id : string) (pool : list PoolEntry) (now : Z) (l : list Credential) :
    list Credential * bool :=
  let (l1, changed) := adopt provider_id pool now l in
  (List.map (judge provider_id pool now) l1, changed || List.existsb (judged provider_id pool) l1).

Definition summaries (l : list Credential) : list CredentialSummary := List.map summary l.

Definition rank (st : CredentialState) : Z :=
  match st with
  | Authorized => 7
  | Reauthorizing => 6
  | Authorizing => 5
  | ReauthorizationRequired => 4
  | RuntimeMissing => 3
  | AttemptFailed => 2
  | Required => 1
  | Revoked => 0
  end.
Definition provider_state (provider_id : string) (l : list Credential) : option CredentialState :=
  List.fold_left
    (fun best c =>
       match best with
       | None => Some (cr_state c)
       | Some current => if rank current <? rank (cr_state c) then Some (cr_state c) else best
       end)
    (List.filter (fun c => (cr_provider_id c =? provider_id)%string) l) None.
End WithDigest.

(** ** The file

    [serde_json] on the registry is the pair [to_vec_pretty] and
    [from_slice]. *)
Class RegistryCodec : Type := {
  to_vec_pretty : list Credential -> bytes;
  from_slice : bytes -> option (list Credential)
}.
Class RegistryCodecLaws `{RegistryCodec} : Prop := {
  from_slice_to_vec l : from_slice (to_vec_pretty l) = Some l
}.

Definition registry_path (node_home : string) : string := path_join node_home "node/credentials.json".

Definition load `{RegistryCodec} (path : string) (n : gmap string Node) : list Credential :=
  match read n path with
  | Ok raw => default [] (from_slice raw)
  | Err _ => []
  end.

Definition save `{Process} `{RegistryCodec} (path : string) (l : list Credential) : M FsError Disk unit :=
  match parent path with
  | Some dir => create_dir_all dir
  | None => ret tt
  end ;;;
  let staging := with_extension path "tmp" in
  write staging (to_vec_pretty l) ;;;
  set_permissions staging 0x180 ;;;
  rename staging path.

(** ** The catalogue ([providercaps.rs]) *)

Definition SCHEMA_VERSION : Z := 2.
Definition MAX_PROVIDERS : Z := 8.
Definition MAX_AUTH_METHODS : Z := 4.
Definition MAX_MODELS : Z := 32.
Definition MAX_DISPLAY_NAME_LENGTH : Z := 64.

Inductive AuthMethod : Type := DeviceAuthorization.
Definition auth_method_wire (m : AuthMethod) : string :=
  match m with DeviceAuthorization => "device_authorization" end.
Inductive Availability : Type := Available | Unavailable.
Inductive UnavailableReason : Type := LauncherMissing.
Record ModelCapability : Type := { mc_id : string; mc_display_name : string }.
Record ProviderCapability : Type := {
  pc_id : string;
  pc_display_name : string;
  pc_auth_methods : list AuthMethod;
  pc_availability : Availability;
  pc_unavailable_reason : option UnavailableReason;
  pc_models : list ModelCapability
}.
Record Snapshot : Type := {
  sn_schema_version : Z;
  sn_runtime_release : string;
  sn_reported_at : Z;
  sn_providers : list ProviderCapability
}.

Definition OPENAI_CODEX_MODELS : list (string * string) :=
  [("gpt-5.6-sol", "GPT-5.6 Sol"); ("gpt-5.6-terra", "GPT-5.6 Terra");
   ("gpt-5.6-luna", "GPT-5.6 Luna"); ("gpt-5.5", "GPT-5.5"); ("gpt-5.4", "GPT-5.4")]%string.

Definition snapshot (n : gmap string Node) (hermes_binary runtime_release : string) (now : Z) : Snapshot :=
  let runtime_installed := exists_ n hermes_binary in
  {| sn_schema_version := SCHEMA_VERSION; sn_runtime_release := runtime_release; sn_reported_at := now;
     sn_providers :=
       [{| pc_id := "openai-codex"; pc_display_name := "OpenAI Codex";
           pc_auth_methods := [DeviceAuthorization];
           pc_availability := if runtime_installed then Available else Unavailable;
           pc_unavailable_reason := if runtime_installed then None else Some LauncherMissing;
           pc_models := if runtime_installed
                        then List.map (fun m => {| mc_id := fst m; mc_display_name := snd m |})
                               OPENAI_CODEX_MODELS
                        else [] |}] |}.

Inductive BoundsError : Type :=
| TooManyProviders (n : Z)
| ProviderIdLength (id : string)
| ProviderIdAlphabet (id : string)
| ProviderTwice (id : string)
| ProviderNameLength (id : string)
| AuthMethodCount (id : string)
| TooManyModels (id : string)
| ModelIdRefused (e : IdError)
| ModelNameLength (id : string)
| ModelTwice (id : string).

Definition name_usable (s : string) : bool :=
  negb (s =? "")%string && (len s <=? MAX_DISPLAY_NAME_LENGTH).

Fixpoint models_within (seen : list string) (models : list ModelCapability) : Result BoundsError unit :=
  match models with
  | [] => Ok tt
  | m :: ms =>
      match validate_model_id (mc_id m) with
      | Err e => Err (ModelIdRefused e)
      | Ok _ =>
          if negb (name_usable (mc_display_name m)) then Err (ModelNameLength (mc_id m))
          else if bool_decide (mc_id m ∈ seen) then Err (ModelTwice (mc_id m))
          else models_within (mc_id m :: seen) ms
      end
  end.

Definition provider_within (p : ProviderCapability) : Result BoundsError unit :=
  if negb (name_usable (pc_display_name p)) then Err (ProviderNameLength (pc_id p))
  else if bool_decide (pc_auth_methods p = []) || (MAX_AUTH_METHODS <? Z.of_nat (length (pc_auth_methods p)))
  then Err (AuthMethodCount (pc_id p))
  else if MAX_MODELS <? Z.of_nat (length (pc_models p)) then Err (TooManyModels (pc_id p))
  else models_within [] (pc_models p).

Fixpoint providers_within (seen : list string) (providers : list ProviderCapability) :
    Result BoundsError unit :=
  match providers with
  | [] => Ok tt
  | p :: ps =>
      if (pc_id p =? "")%string || (MAX_ID_LENGTH <? len (pc_id p)) then Err (ProviderIdLength (pc_id p))
      else if negb (all_chars (fun c => is_ascii_lower c || is_ascii_digit c || one_of "-" c) (pc_id p))
      then Err (ProviderIdAlphabet (pc_id p))
      else if bool_decide (pc_id p ∈ seen) then Err (ProviderTwice (pc_id p))
      else match provider_within p with
           | Err e => Err e
           | Ok _ => providers_within (pc_id p :: seen) ps
           end
  end.

Definition within_bounds (s : Snapshot) : Result BoundsError unit :=
  if MAX_PROVIDERS <? Z.of_nat (length (sn_providers s))
  then Err (TooManyProviders (Z.of_nat (length (sn_providers s))))
  else providers_within [] (sn_providers s).

Definition supports (s : Snapshot) (provider_id model : string) : bool :=
  List.existsb (fun p => List.existsb (fun m => (mc_id m =? model)%string) (pc_models p))
    (List.filter (fun p => (pc_id p =? provider_id)%string) (sn_providers s)).
