(* ===== verification/CredentialTheorems.v ===== *)
(** * CredentialTheorems: the registry agrees with the pool, listings read
    back, and the registry file is replaced whole. *)
From Stdlib Require Import Lia.
From stdpp Require Import gmap relations.
From S2P Require Import Prelude Text Json Fs Identifiers Credentials.

(** ** Reconciliation, step by step *)

Section Reconcile.
Context (sha256 : string -> list Z) (p : string).
Implicit Types (l : list Credential) (pool : list PoolEntry).

Lemma update_first_Some q f l l' :
  update_first q f l = Some l' ->
  exists l1 c l2, l = l1 ++ c :: l2 /\ q c = true /\ l' = l1 ++ f c :: l2.
Proof.
  revert l'. induction l as [|c l IH]; intros l'; cbn [update_first]; [done|].
  destruct (q c) eqn:Eq.
  - intros [= <-]. by exists [], c, l.
  - destruct (update_first q f l) as [r|]; [|done]. intros [= <-].
    destruct (IH r eq_refl) as (l1 & c' & l2 & -> & ? & ->). by exists (c :: l1), c', l2.
Qed.

Lemma update_first_None q f l : update_first q f l = None -> List.existsb q l = false.
Proof.
  induction l as [|c l IH]; cbn [update_first List.existsb]; [done|]. destruct (q c); [done|].
  destruct (update_first q f l); [done|]. auto.
Qed.

(** One iteration of the first loop that changes something. *)
Inductive adopt_step (now : Z) : list Credential -> list Credential -> Prop :=
| bind_step l1 c l2 e :
    List.existsb (bound p e) (l1 ++ c :: l2) = false -> waiting p e c = true ->
    adopt_step now (l1 ++ c :: l2) (l1 ++ bound_to e now c :: l2)
| push_step l e :
    List.existsb (bound p e) l = false -> (length l < MAX_CREDENTIALS)%nat ->
    adopt_step now l (l ++ [adopted sha256 p e now]).

Lemma adopt_steps pool now l : rtc (adopt_step now) l (fst (adopt sha256 p pool now l)).
Proof.
  revert l. induction pool as [|e pool IH]; intros l; cbn [adopt]; [done|].
  destruct (List.existsb _ l) eqn:Eb; [apply IH|].
  destruct (update_first _ _ l) as [l'|] eqn:Eu.
  - apply update_first_Some in Eu as (l1 & c & l2 & -> & Hw & ->).
    eapply rtc_l; [|apply IH]. by constructor.
  - destruct (Nat.leb_spec MAX_CREDENTIALS (length l)); [done|].
    eapply rtc_l; [|apply IH]. by constructor.
Qed.

Lemma waiting_spec e c :
  waiting p e c = true -> pooled p c = true /\ cr_pool_entry c = None /\ cr_label c = e.
Proof.
  unfold waiting. rewrite !andb_true_iff, bool_decide_eq_true, String.eqb_eq. naive_solver.
Qed.

Lemma pooled_bound_to e now c : pooled p (bound_to e now c) = pooled p c.
Proof. done. Qed.
Lemma pooled_adopted e now : pooled p (adopted sha256 p e now) = true.
Proof. unfold pooled. cbn. by rewrite String.eqb_refl. Qed.
Lemma bound_bound_to e now c : pooled p c = true -> bound p e (bound_to e now c) = true.
Proof. unfold bound. rewrite pooled_bound_to. intros ->. by rewrite bool_decide_eq_true_2. Qed.
Lemma bound_adopted e now : bound p e (adopted sha256 p e now) = true.
Proof. unfold bound. rewrite pooled_adopted. by rewrite bool_decide_eq_true_2. Qed.

(** A bound entry stays bound, and rows are only added. *)
Lemma adopt_step_mono now l l' e :
  adopt_step now l l' ->
  (List.existsb (bound p e) l = true -> List.existsb (bound p e) l' = true)
  /\ (length l <= length l')%nat /\ (length l' <= Nat.max MAX_CREDENTIALS (length l))%nat.
Proof.
  destruct 1 as [l1 c l2 e' Hb Hw|l e' Hb Hlen]; rewrite !length_app; cbn [length].
  - split; [|lia]. rewrite !existsb_app. cbn [List.existsb]. apply waiting_spec in Hw as (Hp & Hn & _).
    unfold bound at 2. rewrite Hn. rewrite bool_decide_eq_false_2, andb_false_r by done. cbn [orb].
    intros [->| ->]%orb_true_iff; by rewrite ?orb_true_r.
  - split; [|unfold MAX_CREDENTIALS in *; lia]. rewrite existsb_app. by intros ->.
Qed.

Lemma adopt_mono now l l' e :
  rtc (adopt_step now) l l' ->
  (List.existsb (bound p e) l = true -> List.existsb (bound p e) l' = true)
  /\ (length l <= length l')%nat /\ (length l' <= Nat.max MAX_CREDENTIALS (length l))%nat.
Proof.
  induction 1 as [l|l1 l2 l3 Hs _ IH]; [split; [done|lia]|].
  apply (adopt_step_mono _ _ _ e) in Hs as (H1 & H2 & H3). destruct IH as (I1 & I2 & I3).
  split; [auto|]. split; lia.
Qed.

(** What reconciliation never touches of a row. *)
Definition identity (c : Credential) : string * string * string * string * CredentialStorage * Z * Z :=
  (cr_id c, cr_provider_id c, cr_auth_method c, cr_label c, cr_storage c, cr_generation c, cr_created_at c).

Lemma adopt_identity now l l' :
  rtc (adopt_step now) l l' ->
  exists new, List.map identity l' = List.map identity l ++ List.map identity new
    /\ Forall (fun c => pooled p c = true) new
    /\ List.filter (fun c => negb (pooled p c)) l' = List.filter (fun c => negb (pooled p c)) l.
Proof.
  induction 1 as [l|l1 l2 l3 Hs _ IH]; [exists []; by rewrite app_nil_r|].
  destruct IH as (new & Hk & Hp & Hf). destruct Hs as [a c b e Hb Hw|l e Hb Hlen].
  - exists new. rewrite Hk, Hf, !map_app, !List.filter_app. split; [done|]. split; [done|].
    f_equal. cbn [List.filter]. rewrite pooled_bound_to. by apply waiting_spec in Hw as (-> & _ & _).
  - exists (adopted sha256 p e now :: new). rewrite Hk, Hf, map_app, List.filter_app, <- app_assoc.
    cbn [List.filter]. rewrite pooled_adopted. split; [done|]. split; [|by rewrite app_nil_r].
    constructor; [apply pooled_adopted|done].
Qed.

(** The pool entries that have a row. *)
Definition bindings l : list string :=
  omap (fun c => if pooled p c then cr_pool_entry c else None) l.

Lemma In_bindings e l : e ∈ bindings l <-> List.existsb (bound p e) l = true.
Proof.
  unfold bindings. rewrite list_elem_of_omap, existsb_exists. unfold bound.
  setoid_rewrite andb_true_iff. setoid_rewrite bool_decide_eq_true. split.
  - intros (c & Hc & E). exists c. apply list_elem_of_In in Hc. by destruct (pooled p c).
  - intros (c & Hc & Hp & E). exists c. apply list_elem_of_In in Hc. by rewrite Hp.
Qed.

Lemma adopt_bindings now l l' :
  rtc (adopt_step now) l l' -> NoDup (bindings l) -> NoDup (bindings l').
Proof.
  induction 1 as [l|l1 l2 l3 Hs _ IH]; [done|]. intros Hnd. apply IH. clear IH.
  destruct Hs as [a c b e Hb Hw|l e Hb Hlen].
  - apply waiting_spec in Hw as (Hp & Hn & _).
    assert (e ∉ bindings (a ++ c :: b)) as Hnin by (rewrite In_bindings; congruence).
    unfold bindings in *. rewrite !omap_app in *. cbn [omap list_omap] in *.
    rewrite pooled_bound_to, Hp. rewrite Hp, Hn in Hnd, Hnin. cbn.
    rewrite list.NoDup_app in Hnd. rewrite list.NoDup_app. rewrite elem_of_app in Hnin.
    destruct Hnd as (H1 & H2 & H3). split; [done|]. split; [|by constructor; naive_solver].
    intros x Hx. rewrite elem_of_cons. naive_solver.
  - assert (e ∉ bindings l) as Hnin by (rewrite In_bindings; congruence).
    unfold bindings in *. rewrite omap_app. cbn [omap list_omap].
    rewrite pooled_adopted. cbn. apply list.NoDup_app. split; [done|]. split; [|apply NoDup_singleton].
    intros x Hx ->%list_elem_of_singleton. done.
Qed.

(** Every entry gets a row unless the registry is full. *)
Lemma adopt_covers pool now l e :
  (length (fst (adopt sha256 p pool now l)) < MAX_CREDENTIALS)%nat -> In e pool ->
  List.existsb (bound p (pe_id e)) (fst (adopt sha256 p pool now l)) = true.
Proof.
  revert l. induction pool as [|e' pool IH]; intros l; [done|]. cbn [adopt].
  destruct (List.existsb _ l) eqn:Eb.
  { intros Hlen [<-|Hin]; [|auto]. by apply (adopt_mono now l _ (pe_id e') (adopt_steps pool now l)). }
  destruct (update_first _ _ l) as [l'|] eqn:Eu.
  - apply update_first_Some in Eu as (l1 & c & l2 & -> & Hw & ->). apply waiting_spec in Hw as (Hp & _).
    cbn [fst]. intros Hlen [<-|Hin]; [|auto].
    apply (adopt_mono now _ _ _ (adopt_steps pool now _)). rewrite existsb_app. cbn [List.existsb].
    by rewrite bound_bound_to, orb_true_r.
  - destruct (Nat.leb_spec MAX_CREDENTIALS (length l)); cbn [fst]; [lia|].
    intros Hlen [<-|Hin]; [|auto]. apply (adopt_mono now _ _ _ (adopt_steps pool now _)).
    rewrite existsb_app. cbn [List.existsb]. by rewrite bound_adopted, orb_true_r.
Qed.

(** *** The second loop *)

Section Judge.
Context (pool : list PoolEntry).

Lemma judge_keeps now c :
  identity (judge p pool now c) = identity c /\ pooled p (judge p pool now c) = pooled p c
  /\ cr_pool_entry (judge p pool now c) = cr_pool_entry c.
Proof. unfold judge. destruct (pooled p c) eqn:E; [|done]. by destruct (wanted pool c). Qed.

Lemma judge_bound now e c : bound p e (judge p pool now c) = bound p e c.
Proof. unfold bound. by destruct (judge_keeps now c) as (_ & -> & ->). Qed.

Lemma judge_agrees now c :
  pooled p c = true ->
  cr_state (judge p pool now c) = Authorized <-> holds pool (judge p pool now c) = true.
Proof.
  intros Hp. unfold judge. rewrite Hp. unfold wanted.
  destruct (holds pool c) eqn:Eh, (cr_state c) eqn:Es; unfold holds in *; cbn;
    rewrite ?Eh, ?Es; naive_solver.
Qed.

Lemma judge_done now c : judged p pool (judge p pool now c) = false.
Proof.
  unfold judged. destruct (judge_keeps now c) as (_ & -> & _).
  destruct (pooled p c) eqn:Hp; [|done]. pose proof (judge_agrees now c Hp) as Ha.
  destruct Ha as [H1 H2]. unfold wanted. destruct (holds pool _).
  - by rewrite H2.
  - destruct (cr_state (judge p pool now c)); try done. by specialize (H1 eq_refl).
Qed.

Lemma judge_idem now now' c : judge p pool now' (judge p pool now c) = judge p pool now c.
Proof.
  pose proof (judge_done now c) as Hd. unfold judged in Hd. unfold judge at 1.
  destruct (pooled p (judge p pool now c)); [|done]. by destruct (wanted pool _).
Qed.

Lemma judge_waiting now e c : waiting p e (judge p pool now c) = true -> waiting p e c = true.
Proof.
  unfold judge. destruct (pooled p c) eqn:Hp; [|done]. unfold wanted.
  destruct (holds pool c), (cr_state c) eqn:Es; try done;
    unfold waiting; cbn; rewrite andb_false_r; done.
Qed.
End Judge.

(** *** Running it again *)

Fixpoint settled l pool : Prop :=
  match pool with
  | [] => True
  | e :: pool' =>
      if List.existsb (bound p (pe_id e)) l then settled l pool'
      else List.existsb (waiting p (pe_id e)) l = false /\ (MAX_CREDENTIALS <= length l)%nat
  end.

Lemma settled_adopt pool now l : settled l pool -> adopt sha256 p pool now l = (l, false).
Proof.
  induction pool as [|e pool IH]; cbn [settled adopt]; [done|].
  destruct (List.existsb (bound p _) l); [done|]. intros [Hw Hlen].
  destruct (update_first _ _ l) as [l'|] eqn:Eu.
  - apply update_first_Some in Eu as (l1 & c & l2 & -> & Hc & ->).
    rewrite existsb_app in Hw. cbn [List.existsb] in Hw. by rewrite Hc, orb_true_r in Hw.
  - by rewrite (proj2 (Nat.leb_le _ _)).
Qed.

Lemma adopt_settled pool now l : settled (fst (adopt sha256 p pool now l)) pool.
Proof.
  revert l. induction pool as [|e pool IH]; intros l; [done|]. cbn [settled adopt].
  destruct (List.existsb (bound p (pe_id e)) l) eqn:Eb.
  { destruct (adopt_mono now l _ (pe_id e) (adopt_steps pool now l)) as (Hm & _). by rewrite Hm. }
  destruct (update_first _ _ l) as [l'|] eqn:Eu.
  - cbn [fst]. destruct (adopt_mono now l' _ (pe_id e) (adopt_steps pool now l')) as (Hm & _).
    rewrite Hm; [apply IH|]. apply update_first_Some in Eu as (l1 & c & l2 & -> & Hw & ->).
    apply waiting_spec in Hw as (Hp & _). rewrite existsb_app. cbn [List.existsb].
    by rewrite bound_bound_to, orb_true_r.
  - destruct (Nat.leb_spec MAX_CREDENTIALS (length l)); cbn [fst].
    + rewrite Eb. split; [by apply update_first_None in Eu|done].
    + set (l' := l ++ _).
      destruct (adopt_mono now l' _ (pe_id e) (adopt_steps pool now l')) as (Hm & _).
      rewrite Hm; [apply IH|]. unfold l'. rewrite existsb_app. cbn [List.existsb].
      by rewrite bound_adopted, orb_true_r.
Qed.

Lemma existsb_map_ext {A B} (f : B -> bool) (g : A -> B) (h : A -> bool) (xs : list A) :
  (forall x, f (g x) = h x) -> List.existsb f (List.map g xs) = List.existsb h xs.
Proof. intros Hf. induction xs as [|x xs IH]; cbn; [done|]. by rewrite Hf, IH. Qed.

Lemma settled_judge pool0 pool now l :
  settled l pool -> settled (List.map (judge p pool0 now) l) pool.
Proof.
  induction pool as [|e pool IH]; [done|]. cbn [settled].
  rewrite (existsb_map_ext _ _ (bound p (pe_id e))) by (intros; apply judge_bound).
  destruct (List.existsb _ l); [done|]. intros [Hw Hlen]. rewrite length_map. split; [|done].
  apply existsb_false. intros c (c0 & <- & Hin)%in_map_iff. rewrite existsb_false in Hw.
  specialize (Hw c0 Hin). destruct (waiting p (pe_id e) (judge p pool0 now c0)) eqn:E; [|done].
  apply judge_waiting in E. congruence.
Qed.

Lemma reconcile_fst pool now l :
  fst (reconcile sha256 p pool now l) = List.map (judge p pool now) (fst (adopt sha256 p pool now l)).
Proof. unfold reconcile. by destruct (adopt sha256 p pool now l). Qed.

Lemma map_judge_identity pool now l : List.map identity (List.map (judge p pool now) l) = List.map identity l.
Proof. rewrite map_map. apply map_ext. intros c. apply judge_keeps. Qed.

Lemma map_judge_bindings pool now l : bindings (List.map (judge p pool now) l) = bindings l.
Proof.
  assert (forall c l, bindings (c :: l) = match (if pooled p c then cr_pool_entry c else None) with
    | Some e => e :: bindings l | None => bindings l end) as Hcons by done.
  induction l as [|c l IH]; [done|]. cbn [List.map]. rewrite !Hcons, IH.
  by destruct (judge_keeps pool now c) as (_ & -> & ->).
Qed.

Lemma filter_map_judge pool now l :
  List.filter (fun c => negb (pooled p c)) (List.map (judge p pool now) l)
  = List.filter (fun c => negb (pooled p c)) l.
Proof.
  induction l as [|c l IH]; [done|]. cbn [List.map List.filter].
  destruct (judge_keeps pool now c) as (_ & -> & _). rewrite IH. unfold judge.
  by destruct (pooled p c).
Qed.

(** After reconciling with the pool, a credential of the shared pool is
    authorized exactly when the pool holds its entry; every entry of the pool
    has a row unless the registry is full; no entry has two; and the registry
    stays within its bound. *)
Theorem reconcile_agrees_with_pool pool now l :
  let l' := fst (reconcile sha256 p pool now l) in
  (forall c, In c l' -> pooled p c = true -> (cr_state c = Authorized <-> holds pool c = true))
  /\ (forall e, In e pool -> List.existsb (bound p (pe_id e)) l' = true \/ (MAX_CREDENTIALS <= length l')%nat)
  /\ (NoDup (bindings l) -> NoDup (bindings l'))
  /\ (length l' <= Nat.max MAX_CREDENTIALS (length l))%nat.
Proof.
  cbv zeta. rewrite reconcile_fst, length_map, map_judge_bindings.
  pose proof (adopt_steps pool now l) as Hs. split_and!.
  - intros c (c0 & <- & _)%in_map_iff. destruct (judge_keeps pool now c0) as (_ & -> & _). apply judge_agrees.
  - intros e He. rewrite (existsb_map_ext _ _ (bound p (pe_id e))) by (intros; apply judge_bound).
    destruct (Nat.le_gt_cases MAX_CREDENTIALS (length (fst (adopt sha256 p pool now l)))); [by right|].
    left. by apply adopt_covers.
  - by apply (adopt_bindings now).
  - by apply (adopt_mono now l _ "" Hs).
Qed.

(** Reconciling twice is reconciling once: with the same pool the second
    pass changes nothing and says so. *)
Theorem reconcile_idempotent pool now now' l :
  let l' := fst (reconcile sha256 p pool now l) in
  reconcile sha256 p pool now' l' = (l', false).
Proof.
  cbv zeta. rewrite reconcile_fst. set (l1 := fst (adopt sha256 p pool now l)).
  unfold reconcile. rewrite settled_adopt by (apply settled_judge, adopt_settled).
  f_equal.
  - rewrite map_map. apply map_ext. intros c. apply judge_idem.
  - apply existsb_false. intros c (c0 & <- & _)%in_map_iff. apply judge_done.
Qed.

Lemma reconcile_keeps pool now l :
  let l' := fst (reconcile sha256 p pool now l) in
  (exists new, List.map identity l' = List.map identity l ++ List.map identity new
     /\ Forall (fun c => pooled p c = true) new)
  /\ List.filter (fun c => negb (pooled p c)) l' = List.filter (fun c => negb (pooled p c)) l.
Proof.
  cbv zeta. rewrite reconcile_fst, map_judge_identity, filter_map_judge.
  destruct (adopt_identity now l _ (adopt_steps pool now l)) as (new & Hk & Hp & Hf). eauto.
Qed.

(** Reconciling never removes, renames or reorders a credential, and never
    touches one that is not of this provider's shared pool: rows keep their id,
    provider, method, label, storage, generation and age, and new rows are
    entries of the pool at the end. *)
Theorem reconcile_keeps_credentials pool now l :
  let l' := fst (reconcile sha256 p pool now l) in
  (exists new, List.map identity l' = List.map identity l ++ List.map identity new
     /\ Forall (fun c => pooled p c = true) new)
  /\ List.filter (fun c => negb (pooled p c)) l' = List.filter (fun c => negb (pooled p c)) l.
Proof. apply reconcile_keeps. Qed.

(** A registry that could not be read starts empty, and reconciling it brings
    back no credential that lives in a home of its own. *)
Lemma lost_registry_forgets_isolated pool now c :
  In c (fst (reconcile sha256 p pool now [])) -> cr_storage c = LegacySharedPool.
Proof.
  intros Hin. destruct (reconcile_keeps pool now []) as [_ Hf]. cbn in Hf.
  destruct (pooled p c) eqn:Hp.
  - unfold pooled in Hp. apply andb_true_iff in Hp as [Hp _]. by apply bool_decide_eq_true in Hp.
  - exfalso. assert (In c []) as []. rewrite <- Hf. apply filter_In. by rewrite Hp.
Qed.
End Reconcile.

(** ** The state of a provider *)

Lemma provider_state_fold l acc :
  exists best, List.fold_left (fun best c => match best with
       | None => Some (cr_state c)
       | Some current => if rank current <? rank (cr_state c) then Some (cr_state c) else best
       end) l (Some acc) = Some best
    /\ rank acc <= rank best /\ (forall c, In c l -> rank (cr_state c) <= rank best)
    /\ (best = acc \/ exists c, In c l /\ cr_state c = best).
Proof.
  revert acc. induction l as [|c l IH]; intros acc; cbn [List.fold_left].
  - exists acc. split_and!; [done|lia|done|by left].
  - destruct (Z.ltb_spec (rank acc) (rank (cr_state c))) as [Hlt|Hge].
    + destruct (IH (cr_state c)) as (best & -> & H1 & H2 & H3). exists best.
      split_and!; [done|lia|..].
      * intros c' [<-|Hin]; auto.
      * right. destruct H3 as [->|(c' & ? & ?)]; [exists c|exists c']; naive_solver.
    + destruct (IH acc) as (best & -> & H1 & H2 & H3). exists best. split_and!; [done|done|..].
      * intros c' [<-|Hin]; [lia|auto].
      * destruct H3 as [->|(c' & ? & ?)]; [by left|right; exists c'; naive_solver].
Qed.

(** A provider is in the best state any of its credentials is in, and has no
    state only when it has no credential. *)
Lemma provider_state_best p l :
  match provider_state p l with
  | None => forall c, In c l -> cr_provider_id c <> p
  | Some best =>
      (exists c, In c l /\ cr_provider_id c = p /\ cr_state c = best)
      /\ forall c, In c l -> cr_provider_id c = p -> rank (cr_state c) <= rank best
  end.
Proof.
  unfold provider_state.
  assert (forall c, In c (List.filter (fun c => (cr_provider_id c =? p)%string) l)
                    <-> In c l /\ cr_provider_id c = p) as Hin.
  { intros c. by rewrite filter_In, String.eqb_eq. }
  destruct (List.filter _ l) as [|c l0]; cbn [List.fold_left].
  - intros c Hc Hp. by apply (Hin c).
  - destruct (provider_state_fold l0 (cr_state c)) as (best & -> & H1 & H2 & H3). split.
    + destruct H3 as [->|(c' & Hc' & <-)].
      * exists c. destruct (proj1 (Hin c)) as [? ?]; [by left|done].
      * exists c'. destruct (proj1 (Hin c')) as [? ?]; [by right|done].
    + intros c' Hc' Hp. destruct (proj2 (Hin c') (conj Hc' Hp)) as [<-|?]; auto.
Qed.

(** ** Reading a listing back *)

Lemma find_rev_seq (q : nat -> bool) a n k :
  (a <= k < a + n)%nat -> q k = true -> (forall j, (k < j < a + n)%nat -> q j = false) ->
  List.find q (List.rev (seq a n)) = Some k.
Proof.
  intros Hk Hq Hj. replace n with ((k - a) + S (n - 1 - (k - a)))%nat by lia.
  rewrite seq_app. cbn [seq]. rewrite rev_app_distr. cbn [List.rev]. rewrite <- app_assoc.
  replace (a + (k - a))%nat with k by lia.
  change (select_one q (List.rev (seq (S k) (n - 1 - (k - a))) ++ [k] ++ List.rev (seq a (k - a))) = Some k).
  rewrite select_one_app.
  destruct (select_one q (List.rev _)) as [j|] eqn:E.
  - apply select_one_Some in E as [Hin Hqj]. apply in_rev, in_seq in Hin.
    rewrite Hj in Hqj by lia. done.
  - cbn. by rewrite Hq.
Qed.

(** One line of [hermes auth list]: an index, the words of the id, its type and
    whatever follows. *)
Record Listed : Type := { li_index : bytes; li_words : list bytes; li_kind : bytes; li_rest : list bytes }.

Definition listed_line (x : Listed) : bytes :=
  SP :: SP :: HASH :: join [SP] (li_index x :: li_words x ++ li_kind x :: li_rest x).
Definition listed_entry (x : Listed) : PoolEntry :=
  {| pe_id := of_chars (join [SP] (li_words x)); pe_kind := of_chars (li_kind x) |}.
Definition word (w : bytes) : Prop := w <> [] /\ List.forallb plain_char w = true.
Definition listed_ok (x : Listed) : Prop :=
  word (li_index x) /\ List.forallb is_ascii_digit (li_index x) = true
  /\ li_words x <> [] /\ Forall word (li_words x)
  /\ word (li_kind x) /\ is_pool_kind (li_kind x) = true
  /\ Forall word (li_rest x) /\ Forall (fun w => is_pool_kind w = false) (li_rest x)
  /\ is_usable_pool_id (pe_id (listed_entry x)) = true.

Lemma join_last ws :
  ws <> [] -> Forall word ws -> exists s c, join [SP] ws = s ++ [c] /\ plain_char c = true.
Proof.
  intros Hne Hw. assert (exists ws' w, ws = ws' ++ [w]) as (ws' & w & ->).
  { exists (removelast ws), (List.last ws []). by apply app_removelast_last. }
  apply Forall_app in Hw as [_ Hw]. inversion Hw as [|? ? [Hn Hp] _]; subst.
  assert (exists w' c, w = w' ++ [c]) as (w' & c & ->).
  { exists (removelast w), (List.last w NL). by apply app_removelast_last. }
  rewrite forallb_app in Hp. apply andb_true_iff in Hp as [_ Hp]. cbn in Hp.
  rewrite andb_true_r in Hp. destruct ws' as [|x ws']; cbn [join app].
  - exists w', c. by rewrite app_nil_r.
  - exists (x ++ List.concat (List.map (fun y => [SP] ++ y) ws') ++ [SP] ++ w'), c.
    rewrite map_app, concat_app. cbn [List.map List.concat]. rewrite app_nil_r, <- !app_assoc. done.
Qed.

Lemma trim_padded s c :
  plain_char HASH = true -> plain_char c = true ->
  trim (SP :: SP :: HASH :: s ++ [c]) = HASH :: s ++ [c].
Proof.
  intros Hh Hc. unfold trim, trim_start.
  change (trim_by false (SP :: SP :: ?r)) with (trim_by false r). rewrite trim_by_head by done. unfold trim_end.
  replace (List.rev (HASH :: s ++ [c])) with (c :: List.rev s ++ [HASH])
    by (cbn [List.rev]; by rewrite rev_app_distr).
  rewrite trim_by_head by done. cbn [List.rev]. rewrite rev_app_distr, rev_involutive. done.
Qed.

Lemma kind_at_fields index words kind rest :
  words <> [] -> is_pool_kind kind = true -> Forall (fun w => is_pool_kind w = false) rest ->
  kind_at (index :: words ++ kind :: rest) = Some (S (length words)).
Proof.
  intros Hne Hk Hr. unfold kind_at. apply find_rev_seq.
  - cbn [length]. rewrite length_app. cbn. destruct words; [done|]. cbn. lia.
  - change ((index :: words ++ kind :: rest) !! S (length words)) with ((words ++ kind :: rest) !! length words).
    by rewrite list_lookup_middle.
  - intros j Hj. destruct j as [|j]; [lia|].
    change ((index :: words ++ kind :: rest) !! S j) with ((words ++ kind :: rest) !! j).
    rewrite lookup_app_r by lia. destruct (j - length words)%nat as [|i] eqn:E; [lia|].
    change ((kind :: rest) !! S i) with (rest !! i).
    destruct (rest !! i) as [w|] eqn:Ew; [|done]. rewrite Forall_lookup in Hr. exact (Hr i w Ew).
Qed.

Lemma parse_listed x : listed_ok x -> parse_pool_line (listed_line x) = Some (listed_entry x).
Proof.
  intros (Hi & Hd & Hne & Hw & Hk & Hkind & Hr & Hnk & Hu).
  assert (Forall word (li_index x :: li_words x ++ li_kind x :: li_rest x)) as Hall.
  { constructor; [done|]. apply Forall_app. split; [done|]. by constructor. }
  edestruct (fun H => join_last _ H Hall) as (s & c & Hj & Hc); [done|].
  unfold parse_pool_line, listed_line. rewrite Hj, trim_padded, <- Hj by done.
  change (HASH :: join [SP] ?ws) with ([HASH] ++ join [SP] ws). rewrite strip_prefix_app.
  rewrite split_whitespace_join by done. rewrite Hd. cbn [negb].
  rewrite kind_at_fields by done. cbn [List.skipn Nat.sub]. rewrite Nat.sub_0_r, drop_0, take_app_length.
  change (of_chars (join [SP] (li_words x))) with (pe_id (listed_entry x)). rewrite Hu. cbn [negb].
  f_equal. unfold listed_entry. f_equal. cbn [List.nth]. rewrite app_nth2 by lia. by rewrite Nat.sub_diag.
Qed.

(** What [hermes auth list] prints is read back entry by entry, ids with
    spaces included: the id of an entry is all the words between its index and
    its type, whatever the heading and the trailing columns say. *)
Theorem pool_listing_reads_back heading xs :
  parse_pool_line heading = None -> Forall listed_ok xs ->
  (forall l, In l (heading :: List.map listed_line xs) -> ~ In NL l /\ ~ In CR l) ->
  parse_pool_listing (join [NL] (heading :: List.map listed_line xs) ++ [NL]) = List.map listed_entry xs.
Proof.
  intros Hh Hxs Hl. unfold parse_pool_listing. rewrite lines_join by done.
  change (omap parse_pool_line (heading :: List.map listed_line xs)) with
    (match parse_pool_line heading with
     | Some y => y :: omap parse_pool_line (List.map listed_line xs)
     | None => omap parse_pool_line (List.map listed_line xs) end). rewrite Hh. clear Hl Hh.
  induction Hxs as [|x xs Hx _ IH]; [done|]. cbn [List.map].
  change (omap parse_pool_line (listed_line x :: List.map listed_line xs)) with
    (match parse_pool_line (listed_line x) with
     | Some y => y :: omap parse_pool_line (List.map listed_line xs)
     | None => omap parse_pool_line (List.map listed_line xs) end).
  by rewrite parse_listed, IH.
Qed.

(** ** Replacing the registry file *)

Section Save.
Context `{Process} `{RegistryCodecLaws}.
Context (path dir : string) (l : list Credential).
Context (Hdir : parent path = Some dir) (Hdp : dir <> path).
Let staging := with_extension path "tmp".
Context (Hst : staging <> path).

Definition saved (n : gmap string Node) : Prop :=
  exists x, n !! path = Some x /\ f_kind x = RegularFile /\ f_mode x = 0x180
            /\ f_body x = to_vec_pretty l.

Lemma leaves_create_dir o (Q : Result FsError unit -> gmap string Node -> Prop) :
  (forall r n, untouched path staging o n -> Q r n) -> leaves (untouched path staging o) (create_dir_all dir) Q.
Proof.
  intros HQ. apply leaves_syscall. intros n Hn. split; [by apply HQ|]. split; [by apply HQ|].
  destruct (resolve MAX_HOPS n dir) as [q|].
  - destruct (n !! q) as [x|]; [|by apply HQ]. case_bool_decide; by apply HQ.
  - destruct (n !! dir) as [x|] eqn:Ed; [by apply HQ|]. apply HQ. destruct Hn as [Hp Hs].
    split; [by rewrite lookup_insert_ne|]. intros x.
    destruct (decide (dir = staging)) as [<-|Hne].
    + rewrite lookup_insert_eq. intros [= <-]. by right.
    + rewrite lookup_insert_ne by done. apply Hs.
Qed.

Lemma save_leaves o :
  (forall x, o = Some x -> f_kind x <> Directory) ->
  leaves (untouched path staging o) (save path l)
    (fun r n => match r with Ok _ => saved n | Err _ => n !! path = o end).
Proof.
  intros Ho. unfold save. rewrite Hdir. apply leaves_bind with (Q1 := fun _ => untouched path staging o).
  { apply leaves_create_dir. intros [] n Hn; [done|apply Hn]. }
  intros _. cbv zeta. by apply replace_leaves.
Qed.
End Save.

(** The registry file is replaced whole: whatever call fails and wherever the
    node stops, what [load] reads afterwards is the old registry or, once
    [save] succeeded, the new one, in a file only its owner can read. *)
Theorem save_is_atomic `{Process} `{RegistryCodecLaws} path dir l d :
  parent path = Some dir -> dir <> path -> with_extension path "tmp" <> path ->
  (forall x, nodes d !! path = Some x -> f_kind x = RegularFile) ->
  (forall x, nodes d !! with_extension path "tmp" = Some x -> f_kind x = RegularFile \/ f_kind x = Directory) ->
  let d' := snd (save path l d) in
  match fst (save path l d) with
  | Ok _ => load path (nodes d') = l /\ f_mode <$> nodes d' !! path = Some 0x180
  | Err _ => load path (nodes d') = load path (nodes d) /\ nodes d' !! path = nodes d !! path
  end.
Proof.
  intros Hdir Hdp Hst Ho Hs. cbv zeta.
  pose proof (save_leaves path dir l Hdir Hdp Hst (nodes d !! path)
    ltac:(intros x Hx; rewrite (Ho x Hx); done) d (conj eq_refl Hs)) as Hl.
  unfold load, read.
  destruct (save path l d) as [[[]|e] d']; cbn [fst snd] in *.
  - destruct Hl as (x & Hx & Hk & Hm & Hb). rewrite (resolve_file _ _ _ x), Hx by congruence.
    rewrite bool_decide_eq_true_2, Hb, from_slice_to_vec by done. split; [done|]. cbn. by rewrite Hm.
  - split; [|done]. destruct (nodes d !! path) as [x|] eqn:Ex.
    + rewrite !(resolve_file _ _ path x), Hl, Ex by (done || rewrite (Ho x eq_refl); done). done.
    + unfold MAX_HOPS. cbn [resolve]. by rewrite Hl, Ex.
Qed.

(** ** At concrete inputs *)

Module CredentialSamples.
Definition state_number (st : CredentialState) : Z := rank st.
Definition state_of_number (z : Z) : CredentialState :=
  if z =? 7 then Authorized else if z =? 6 then Reauthorizing else if z =? 5 then Authorizing
  else if z =? 4 then ReauthorizationRequired else if z =? 3 then RuntimeMissing
  else if z =? 2 then AttemptFailed else if z =? 1 then Required else Revoked.

Definition fields (c : Credential) :=
  (cr_id c, cr_provider_id c, cr_auth_method c, cr_label c, state_number (cr_state c),
   bool_decide (cr_storage c = Isolated), cr_pool_entry c, cr_generation c, cr_created_at c, cr_updated_at c).
Definition of_fields x : Credential :=
  let '(a, b, c, d, st, iso, e, g, t1, t2) := x in
  {| cr_id := a; cr_provider_id := b; cr_auth_method := c; cr_label := d; cr_state := state_of_number st;
     cr_storage := if iso : bool then Isolated else LegacySharedPool; cr_pool_entry := e;
     cr_generation := g; cr_created_at := t1; cr_updated_at := t2 |}.
Lemma of_fields_fields c : of_fields (fields c) = c.
Proof. destruct c as [? ? ? ? [] [] ? ? ? ?]; done. Qed.

#[export] Instance codec : RegistryCodec := {|
  to_vec_pretty l := chars (Codec.bits (encode (List.map fields l)));
  from_slice raw := List.map of_fields <$> decode (Codec.unbits (of_chars raw))
|}.
#[export] Instance codec_laws : RegistryCodecLaws.
Proof.
  split. intros l. unfold from_slice, to_vec_pretty, codec.
  rewrite chars_of_chars, Codec.unbits_bits, decode_encode. cbn [fmap option_fmap option_map].
  rewrite map_map. f_equal. by apply map_id_in; intros; apply of_fields_fields.
Qed.
#[export] Instance process : Process := {| euid := 7; umask := 0x12 |}.

Definition second_account : Listed :=
  {| li_index := $"2"; li_words := [$"Second"; $"account"]; li_kind := $"oauth"; li_rest := [$"device_code"] |}.
Definition first_account : Listed :=
  {| li_index := $"1"; li_words := [$"openai-codex-oauth-1"]; li_kind := $"oauth"; li_rest := [$"device_code"] |}.

Definition folder : Node := {| f_kind := Directory; f_owner := 7; f_mode := 0x1ED; f_body := [] |}.
Definition disk (p : list Fate) : Disk := {| nodes := <["/n" := folder]> ∅; plan := p |}.
End CredentialSamples.
Import CredentialSamples.

Lemma pool_listing_reads_back_witness :
  parse_pool_listing (join [NL] ($"openai-codex (2 credentials):"
    :: List.map listed_line [CredentialSamples.first_account; CredentialSamples.second_account]) ++ [NL])
  = [{| pe_id := "openai-codex-oauth-1"; pe_kind := "oauth" |}; {| pe_id := "Second account"; pe_kind := "oauth" |}].
Proof.
  apply (pool_listing_reads_back ($"openai-codex (2 credentials):")
    [CredentialSamples.first_account; CredentialSamples.second_account]).
  - reflexivity.
  - repeat constructor; done.
  - intros l [<-|[<-|[<-|[]]]]; split; apply not_in_chars; reflexivity.
Defined.

Lemma save_is_atomic_witness :
  load "/n/c.json" (nodes (snd (save "/n/c.json" [] (CredentialSamples.disk [Goes; Goes; Goes; Stops]))))
  = load "/n/c.json" (nodes (CredentialSamples.disk [])).
Proof.
  apply (save_is_atomic "/n/c.json" "/n" [] (CredentialSamples.disk [Goes; Goes; Goes; Stops])).
  - reflexivity.
  - done.
  - done.
  - done.
  - done.
Defined.
