(* ===== verification/CredentialHomes.v ===== *)
(** * CredentialHomes: where isolated credentials live and what their stores say
    ([credential_homes.rs], [credential_runtime.rs]).

    Paths are judged byte for byte, directories and files by their metadata,
    and stores by the records they parse to; the JSON reading of a store is the
    parameter [StoreCodec]. *)
From Stdlib Require Import Lia.
From stdpp Require Import gmap.
From S2P Require Import Prelude Text Fs Identifiers Credentials CredentialSwap.

(** ** [credential_homes.rs] *)

Definition ROOT_NAME : string := "credentials".
Definition LOCK_FILE : string := "auth.lock".

Definition managed_root (node_home : string) : string := path_join node_home ROOT_NAME.
Definition home (root credential_id : string) : Result IdError string :=
  match validate_id credential_id with
  | Err e => Err e
  | Ok _ => Ok (path_join root credential_id)
  end.
Definition credential_file (root credential_id : string) : Result IdError string :=
  match home root credential_id with
  | Err e => Err e
  | Ok h => Ok (path_join h CREDENTIAL_FILE)
  end.
Definition lock_file (root credential_id : string) : Result IdError string :=
  match home root credential_id with
  | Err e => Err e
  | Ok h => Ok (path_join h LOCK_FILE)
  end.

(** [{mode:o}] of a nine-bit mode. *)
Definition octal (m : Z) : string :=
  of_chars (match drop_while (fun c => (code c =? 48)%N)
                    (List.map (fun k => hex_digit (Z.land (Z.shiftr m k) 7)) [6; 3; 0]) with
            | [] => $"0"
            | ds => ds
            end).

Definition check_private_dir (x : Node) (uid : Z) (what : string) : Result FsError unit :=
  if bool_decide (f_kind x = Symlink) then Err (Refused (what +:+ " is a symlink"))
  else if negb (bool_decide (f_kind x = Directory)) then Err (Refused (what +:+ " is not a directory"))
  else if negb (f_owner x =? uid)
  then Err (Refused (what +:+ " is owned by uid " +:+ decimal (f_owner x) +:+ ", not " +:+ decimal uid))
  else
    let mode := Z.land (f_mode x) 0x1FF in
    if negb (Z.land mode 0x3F =? 0)
    then Err (Refused (what +:+ " is open beyond its owner (mode " +:+ octal mode +:+ ")"))
    else Ok tt.

Definition ensure_root `{Process} (root : string) (uid : Z) : M FsError Disk unit :=
  let! found := look (fun n => symlink_metadata n root) in
  match found with
  | Some _ => ret tt
  | None =>
      match parent root with Some p => create_dir_all p | None => ret tt end ;;;
      create_dir root ;;;
      set_permissions root 0x1C0
  end ;;;
  let! now := look (fun n => symlink_metadata n root) in
  match now with
  | None => fail (Io NotFound)
  | Some x => lift (check_private_dir x uid "the credential root")
  end.

(** The texts of [credentials::validate_id]. *)
Definition id_error_text (e : IdError) : string :=
  match e with
  | IdLength => "a credential id must be between 1 and 64 characters"
  | _ => "a credential id may hold only lowercase letters, digits and dashes"
  end.

Definition create_home `{Process} (root credential_id : string) (uid : Z) : M FsError Disk string :=
  ensure_root root uid ;;;
  match home root credential_id with
  | Err e => fail (Refused (id_error_text e))
  | Ok h => create_dir h ;;; set_permissions h 0x1C0 ;;; ret h
  end.

Inductive HomeState : Type :=
| Ready
| HomeMissing
| HomeInvalid
| CredentialMissing
| CredentialUnreadable.

Definition inspect (n : gmap string Node) (root credential_id : string) (uid : Z) : HomeState :=
  match home root credential_id with
  | Err _ => HomeInvalid
  | Ok h =>
      match symlink_metadata n root with
      | None => HomeMissing
      | Some x =>
          if negb (is_ok (check_private_dir x uid "the credential root")) then HomeInvalid
          else match symlink_metadata n h with
          | None => HomeMissing
          | Some x =>
              if negb (is_ok (check_private_dir x uid "the credential home")) then HomeInvalid
              else match symlink_metadata n (path_join h CREDENTIAL_FILE) with
              | None => CredentialMissing
              | Some x =>
                  if bool_decide (f_kind x = Symlink) || negb (bool_decide (f_kind x = RegularFile))
                  then CredentialUnreadable
                  else if negb (f_owner x =? uid) || negb (Z.land (f_mode x) 0x3F =? 0)
                  then CredentialUnreadable
                  else if bool_decide (f_body x = []) then CredentialUnreadable
                  else Ready
              end
          end
      end
  end.

(** *** Links *)

Inductive LinkTarget : Type :=
| LinkMissing
| NotALink
| SharedPool
| IsolatedLink (id : string)
| Elsewhere.
#[export] Instance LinkTarget_eq_dec : EqDecision LinkTarget.
Proof. solve_decision. Defined.

(** [Path::components]: repeated separators and interior [.] segments vanish. *)
Inductive Component : Type := RootDir | CurDir | ParentDir | Normal (s : bytes).
#[export] Instance Component_eq_dec : EqDecision Component.
Proof. solve_decision. Defined.
Definition segment (s : bytes) : option Component :=
  if bool_decide (s = []) then None
  else if bool_decide (s = [DOT]) then None
  else if bool_decide (s = [DOT; DOT]) then Some ParentDir
  else Some (Normal s).
Definition components (path : string) : list Component :=
  let segments := split SLASH (chars path) in
  (if str_starts_with "/" path then [RootDir]
   else match segments with s :: _ => if bool_decide (s = [DOT]) then [CurDir] else [] | [] => [] end)
  ++ omap segment segments.
(** The components left by [Path::strip_prefix]. *)
Fixpoint strip_components (base l : list Component) : option (list Component) :=
  match base, l with
  | [], _ => Some l
  | _ :: _, [] => None
  | a :: base', b :: l' => if bool_decide (a = b) then strip_components base' l' else None
  end.

Definition classify_target (target root shared_pool : string) : LinkTarget :=
  if (target =? shared_pool)%string then SharedPool
  else match strip_components (components root) (components target) with
       | Some [Normal id; Normal file] =>
           if negb (of_chars file =? CREDENTIAL_FILE)%string then Elsewhere
           else match credential_file root (of_chars id) with
                | Ok expected => if (expected =? target)%string then IsolatedLink (of_chars id) else Elsewhere
                | Err _ => Elsewhere
                end
       | _ => Elsewhere
       end.

Definition classify_link (n : gmap string Node) (link root shared_pool : string) : LinkTarget :=
  match symlink_metadata n link with
  | None => LinkMissing
  | Some x => if negb (bool_decide (f_kind x = Symlink)) then NotALink
              else classify_target (of_chars (f_body x)) root shared_pool
  end.

Definition is_plain_absolute (path : string) : bool :=
  match strip_prefix [SLASH] (chars path) with
  | None => false
  | Some rest =>
      negb (bool_decide (rest = []))
      && List.forallb (fun s => negb (bool_decide (s = [])) && negb (bool_decide (s = [DOT]))
                                && negb (bool_decide (s = [DOT; DOT]))) (split SLASH rest)
  end.

(** The last component of a path ([Path::file_name]). *)
Definition file_name (path : string) : string :=
  of_chars (List.last (split SLASH (chars path)) []).

Definition swap_link `{Process} (target link : string) (replace_file : bool) (nonce : string) :
    M FsError Disk unit :=
  if negb (is_plain_absolute target)
  then fail (Refused "a credential link target must be a plain absolute path")
  else
    let! found := look (fun n => symlink_metadata n link) in
    match found with
    | Some x =>
        if bool_decide (f_kind x = Symlink) then ret tt
        else if bool_decide (f_kind x = RegularFile) && replace_file then ret tt
        else fail (Refused (file_name link +:+ " is not a link, and is not replaced"))
    | None => ret tt
    end ;;;
    match parent link with
    | None => fail (Refused "a credential link must have a parent directory")
    | Some dir =>
        let staging := path_join dir ("." +:+ file_name link +:+ ".asterism-" +:+ nonce) in
        symlink target staging ;;;
        (fun d => match rename staging link d with
                  | (Err Crashed, d') => (Err Crashed, d')
                  | (Err e, d') => (ignore_errors (remove_file staging) ;;; fail e) d'
                  | r => r
                  end)
    end.

Definition remove_link (link : string) : M FsError Disk unit :=
  let! found := look (fun n => symlink_metadata n link) in
  match found with
  | Some x => if bool_decide (f_kind x = Symlink) then remove_file link else ret tt
  | None => ret tt
  end.

Inductive ReferenceState : Type :=
| RefLegacySharedPool
| RefIsolated
| RefCredentialHomeMissing
| RefLinkTargetInvalid
| RefCredentialUnreadable
| RefCredentialUnavailable.

Module ReferenceState.
Definition wire (s : ReferenceState) : string :=
  match s with
  | RefLegacySharedPool => "legacy_shared_pool"
  | RefIsolated => "isolated"
  | RefCredentialHomeMissing => "credential_home_missing"
  | RefLinkTargetInvalid => "link_target_invalid"
  | RefCredentialUnreadable => "credential_unreadable"
  | RefCredentialUnavailable => "credential_unavailable"
  end.
Definition is_healthy (s : ReferenceState) : bool :=
  match s with RefLegacySharedPool | RefIsolated => true | _ => false end.
End ReferenceState.

Definition reference_state (n : gmap string Node) (link root shared_pool : string)
    (assignment : option string) (uid : Z) (authorized : string -> bool) : ReferenceState :=
  let target := classify_link n link root shared_pool in
  match assignment with
  | None => match target with SharedPool => RefLegacySharedPool | _ => RefLinkTargetInvalid end
  | Some id =>
      match inspect n root id uid with
      | HomeMissing => RefCredentialHomeMissing
      | HomeInvalid | CredentialUnreadable => RefCredentialUnreadable
      | CredentialMissing => RefCredentialUnavailable
      | Ready =>
          if negb (bool_decide (target = IsolatedLink id)) then RefLinkTargetInvalid
          else if negb (authorized id) then RefCredentialUnavailable
          else RefIsolated
      end
  end.

(** ** [credential_runtime.rs] *)

Definition STATUS_DEAD : string := "dead".
Definition TERMINAL_STATUS_CODE : Z := 401.
Definition TERMINAL_REASONS : list string :=
  ["token_invalidated"; "token_revoked"; "invalid_token"; "invalid_grant"; "unauthorized_client";
   "refresh_token_reused"]%string.

Record RecordMetadata : Type := {
  rm_label : option string;
  rm_auth_type : option string;
  rm_source : option string;
  rm_last_status : option string;
  rm_last_error_code : option Z;
  rm_last_error_reason : option string
}.
(** The [credential_pool] of a store. *)
Definition StoreMetadata : Type := gmap string (list RecordMetadata).

(** [serde_json::from_slice] at [StoreMetadata]. *)
Class StoreCodec : Type := { parse_store : bytes -> option StoreMetadata }.

Inductive RuntimeVerdict : Type :=
| Usable
| Dead (reason : string)
| VerdictMissing
| Unreadable.

Definition matches (r : RecordMetadata) (credential_id : string) : bool :=
  bool_decide (rm_label r = Some credential_id).

Definition lowercase (s : bytes) : bytes := List.map to_ascii_lowercase s.

Definition dead_reason (r : RecordMetadata) : option string :=
  if negb (bool_decide (rm_last_status r = Some STATUS_DEAD)) then None
  else if negb (bool_decide (rm_last_error_code r = Some TERMINAL_STATUS_CODE)) then None
  else match rm_last_error_reason r with
       | None => None
       | Some text =>
           let reason := of_chars (lowercase (trim (chars text))) in
           if bool_decide (reason ∈ TERMINAL_REASONS) then Some reason else None
       end.

Definition judge_record (r : RecordMetadata) : RuntimeVerdict :=
  match dead_reason r with Some reason => Dead reason | None => Usable end.

Definition verdict `{StoreCodec} (n : gmap string Node) (store provider_id credential_id : string) :
    RuntimeVerdict :=
  match read n store with
  | Err NotFound => VerdictMissing
  | Err _ => Unreadable
  | Ok raw =>
      match parse_store raw with
      | None => Unreadable
      | Some parsed =>
          match parsed !! provider_id with
          | None => VerdictMissing
          | Some records =>
              match List.find (fun r => matches r credential_id) records with
              | None => VerdictMissing
              | Some r => judge_record r
              end
          end
      end
  end.

Inductive StagedRejection : Type :=
| StagedUnreadable
| RecordCount (n : nat)
| WrongProvider
| WrongLabel
| WrongAuthMethod
| NotUsable.
Definition rejection_code (r : StagedRejection) : string :=
  match r with
  | StagedUnreadable => "staged_store_unreadable"
  | RecordCount _ => "staged_store_record_count"
  | WrongProvider => "staged_store_wrong_provider"
  | WrongLabel => "staged_store_wrong_label"
  | WrongAuthMethod => "staged_store_wrong_auth_method"
  | NotUsable => "staged_store_not_usable"
  end.

Definition total_records (m : StoreMetadata) : nat :=
  map_fold (fun _ rs acc => (length rs + acc)%nat) 0%nat m.

Definition device_login (r : RecordMetadata) : bool :=
  bool_decide (rm_auth_type r = Some "oauth"%string)
  && match rm_source r with Some s => str_contains "device_code" s | None => false end.

Definition accept_staged `{StoreCodec} (n : gmap string Node)
    (store provider_id credential_id auth_method : string) : Result StagedRejection unit :=
  match read n store with
  | Err _ => Err StagedUnreadable
  | Ok raw =>
      match parse_store raw with
      | None => Err StagedUnreadable
      | Some parsed =>
          if negb (total_records parsed =? 1)%nat then Err (RecordCount (total_records parsed))
          else match parsed !! provider_id with
          | None | Some [] => Err WrongProvider
          | Some (r :: _) =>
              if negb (matches r credential_id) then Err WrongLabel
              else if (auth_method =? "device_authorization")%string && negb (device_login r)
              then Err WrongAuthMethod
              else match dead_reason r with Some _ => Err NotUsable | None => Ok tt end
          end
      end
  end.

(** ** Paths *)

Lemma segment_name s :
  s <> [] -> ~ In SLASH s -> s <> [DOT] -> s <> [DOT; DOT] ->
  omap segment (split SLASH s) = [Normal s].
Proof.
  intros Hne Hs H1 H2. unfold split. rewrite split_from_last by done. cbn.
  unfold segment. by rewrite !bool_decide_eq_false_2.
Qed.

Lemma split_from_head d acc a : exists h t, split_from d acc a = h :: t.
Proof. revert acc. induction a as [|c a IH]; intros acc; cbn; [eauto|]. destruct (char_eqb c d); eauto. Qed.

(** The marker a path's components begin with. *)
Definition lead (path : string) : list Component :=
  if str_starts_with "/" path then [RootDir]
  else match split SLASH (chars path) with
       | s :: _ => if bool_decide (s = [DOT]) then [CurDir] else []
       | [] => []
       end.

Lemma components_lead path : components path = lead path ++ omap segment (split SLASH (chars path)).
Proof. done. Qed.

Lemma lead_sep a b : a <> [] -> lead (of_chars (a ++ SLASH :: b)) = lead (of_chars a).
Proof.
  intros Hne. unfold lead, str_starts_with. rewrite !of_chars_chars. unfold split.
  rewrite split_from_sep. destruct a as [|c a]; [done|]. cbn [app].
  assert (forall s, starts_with (chars "/") (c :: s) = char_eqb SLASH c) as Hst.
  { intros s. unfold starts_with. change (chars "/") with [SLASH]. cbn [strip_prefix].
    by destruct (char_eqb SLASH c). }
  rewrite !Hst. destruct (char_eqb SLASH c); [done|].
  by destruct (split_from_head SLASH [] (c :: a)) as (h & t & ->).
Qed.

Lemma lead_slash b : lead (of_chars (SLASH :: b)) = [RootDir].
Proof. unfold lead, str_starts_with. by rewrite of_chars_chars. Qed.

Lemma components_join root name :
  name <> ""%string -> ~ In SLASH (chars name) -> name <> "."%string -> name <> ".."%string ->
  components (path_join root name) = components root ++ [Normal (chars name)].
Proof.
  intros Hne Hs H1 H2.
  assert (omap segment (split SLASH (chars name)) = [Normal (chars name)]) as Hseg.
  { apply segment_name; [by destruct name|done|..].
    - intros E. apply H1. by rewrite <- (chars_of_chars name), E.
    - intros E. apply H2. by rewrite <- (chars_of_chars name), E. }
  assert (str_starts_with "/" name = false) as Hns.
  { destruct name as [|c name]; [done|]. unfold str_starts_with, starts_with.
    change (chars "/") with [SLASH]. cbn [String.list_ascii_of_string strip_prefix].
    destruct (char_eqb SLASH c) eqn:E; [|done]. apply char_eqb_eq in E. exfalso. apply Hs. by left. }
  unfold path_join. rewrite Hns. destruct (String.eqb_spec root "") as [->|Hr]; cbn [orb].
  - change ("" +:+ name) with name. rewrite components_lead, Hseg. unfold lead. rewrite Hns.
    unfold split. rewrite split_from_last by done. cbn [app]. rewrite bool_decide_eq_false_2; [done|].
    intros E. apply H1. by rewrite <- (chars_of_chars name), E.
  - assert (chars root <> []) as Hcr by (by destruct root).
    destruct (ends_with (chars "/") (chars root)) eqn:Ee.
    + unfold ends_with in Ee. apply starts_with_true in Ee as [r Er].
      assert (chars root = List.rev r ++ [SLASH]) as Hroot.
      { rewrite <- (rev_involutive (chars root)), Er. cbn. done. }
      rewrite !components_lead.
      assert (root +:+ name = of_chars (List.rev r ++ SLASH :: chars name)) as ->.
      { rewrite <- (chars_of_chars (root +:+ name)), chars_append, Hroot, <- app_assoc. done. }
      rewrite of_chars_chars. unfold split at 1. rewrite split_from_sep, omap_app.
      fold (split SLASH (chars name)). rewrite Hseg, Hroot. unfold split. rewrite split_from_sep, omap_app.
      cbn [split_from omap list_omap]. change (segment []) with (@None Component). cbn iota.
      rewrite app_nil_r, app_assoc. f_equal. f_equal.
      rewrite <- (chars_of_chars root), Hroot. destruct (List.rev r) as [|c r']; [cbn [app]; by rewrite !lead_slash|].
      by rewrite !lead_sep.
    + rewrite !components_lead.
      assert (root +:+ "/" +:+ name = of_chars (chars root ++ SLASH :: chars name)) as ->.
      { rewrite <- (chars_of_chars (root +:+ "/" +:+ name)), !chars_append. done. }
      rewrite of_chars_chars. unfold split at 1. rewrite split_from_sep, omap_app.
      fold (split SLASH (chars name)). rewrite Hseg, app_assoc. f_equal. f_equal.
      rewrite lead_sep by done. by rewrite chars_of_chars.
Qed.

Lemma strip_components_app a b : strip_components a (a ++ b) = Some b.
Proof. induction a as [|x a IH]; cbn; [done|]. by rewrite bool_decide_eq_true_2. Qed.

Lemma valid_id_name id :
  validate_id id = Ok tt ->
  id <> ""%string /\ ~ In SLASH (chars id) /\ id <> "."%string /\ id <> ".."%string.
Proof.
  unfold validate_id. destruct (_ || _) eqn:E; [done|]. apply orb_false_iff in E as [E _].
  destruct (is_safe_token id) eqn:Et; [|done]. intros _. unfold is_safe_token in Et.
  apply andb_true_iff in Et as [_ Et]. unfold all_chars in Et. rewrite forallb_forall in Et.
  split; [by apply String.eqb_neq in E|]. split; [|split; intros ->].
  - intros Hin. specialize (Et _ Hin). vm_compute in Et. done.
  - specialize (Et DOT ltac:(by left)). by vm_compute in Et.
  - specialize (Et DOT ltac:(by left)). by vm_compute in Et.
Qed.

(** ** What the checks mean *)

Lemma credential_file_components root id target :
  credential_file root id = Ok target ->
  strip_components (components root) (components target) = Some [Normal (chars id); Normal $"auth.json"].
Proof.
  unfold credential_file, home. destruct (validate_id id) as [[]|] eqn:Ev; [|done]. intros [= <-].
  apply valid_id_name in Ev as (H1 & H2 & H3 & H4).
  assert (~ In SLASH (chars CREDENTIAL_FILE)) as Hs by (apply not_in_chars; reflexivity).
  rewrite components_join, components_join, <- app_assoc by done. apply strip_components_app.
Qed.

Lemma classify_isolated target root shared_pool id :
  target <> shared_pool ->
  classify_target target root shared_pool = IsolatedLink id <-> credential_file root id = Ok target.
Proof.
  intros Hne. unfold classify_target. rewrite (proj2 (String.eqb_neq _ _) Hne). split.
  - destruct (strip_components _ _) as [[|[| | |i] [|[| | |f] [|]]]|]; try done.
    destruct (of_chars f =? CREDENTIAL_FILE)%string; [|done]. cbn [negb].
    destruct (credential_file root (of_chars i)) as [e|] eqn:Ec; [|done].
    destruct (String.eqb_spec e target) as [->|]; [|done]. intros [= <-]. done.
  - intros Hc. rewrite (credential_file_components _ _ _ Hc), (chars_of_chars id).
    change (of_chars $"auth.json" =? CREDENTIAL_FILE)%string with true. cbn [negb].
    by rewrite Hc, String.eqb_refl.
Qed.

(** A project's link is read as an assignment to a credential exactly when it
    is, byte for byte, the one target that credential's validated id has under
    the managed root: no other spelling of that path and no path elsewhere
    counts. *)
Theorem classify_target_exact target root shared_pool id :
  target <> shared_pool ->
  classify_target target root shared_pool = IsolatedLink id <-> credential_file root id = Ok target.
Proof. apply classify_isolated. Qed.

(** A file or directory that is this account's alone. *)
Definition private (uid : Z) (kind : FileKind) (o : option Node) : Prop :=
  exists x, o = Some x /\ f_kind x = kind /\ f_owner x = uid /\ Z.land (f_mode x) 0x3F = 0.

Lemma land_077 m : Z.land (Z.land m 0x1FF) 0x3F = Z.land m 0x3F.
Proof. by rewrite <- Z.land_assoc. Qed.

Lemma check_private_dir_Ok (n : gmap string Node) path uid what :
  (exists x, n !! path = Some x /\ is_ok (check_private_dir x uid what) = true)
  <-> private uid Directory (n !! path).
Proof.
  unfold private. split; intros (x & Hx & H); exists x; (split; [done|]).
  - unfold check_private_dir in H. cbv zeta in H. rewrite land_077 in H.
    case_bool_decide as Hs; [done|]. case_bool_decide as Hk; [|done]. cbn [negb] in H.
    destruct (Z.eqb_spec (f_owner x) uid); [|done]. cbn [negb] in H.
    destruct (Z.eqb_spec (Z.land (f_mode x) 63) 0); done.
  - destruct H as (Hk & Ho & Hm). unfold check_private_dir. cbv zeta.
    rewrite land_077, Hk, Ho, Hm. by rewrite bool_decide_eq_false_2, bool_decide_eq_true_2, Z.eqb_refl.
Qed.

Lemma inspect_Ready (n : gmap string Node) root id uid :
  inspect n root id uid = Ready <->
  exists h x, home root id = Ok h /\ private uid Directory (n !! root) /\ private uid Directory (n !! h)
    /\ n !! path_join h CREDENTIAL_FILE = Some x /\ private uid RegularFile (Some x) /\ f_body x <> [].
Proof.
  unfold inspect, symlink_metadata. destruct (home root id) as [h|] eqn:Eh.
  2: { split; [done|]. intros (h & x & ? & _). done. }
  pose proof (check_private_dir_Ok n root uid "the credential root") as Hr.
  pose proof (check_private_dir_Ok n h uid "the credential home") as Hh.
  destruct (n !! root) as [xr|] eqn:Er; [|by split; [|intros (? & ? & ? & (? & ? & _) & _)]].
  destruct (is_ok (check_private_dir xr _ _)) eqn:Cr.
  2: { split; [done|]. intros (? & ? & ? & Hp & _). apply Hr in Hp as (y & [= <-] & ?). congruence. }
  cbn [negb]. destruct (n !! h) as [xh|] eqn:Ehh.
  2: { split; [done|]. intros (h' & x & E & _ & Hp & _). injection E as <-. rewrite Ehh in Hp.
       by destruct Hp as (? & ? & _). }
  destruct (is_ok (check_private_dir xh _ _)) eqn:Ch.
  2: { split; [done|]. intros (h' & x & E & _ & Hp & _). injection E as <-. rewrite Ehh in Hp.
       apply Hh in Hp as (y & [= <-] & ?). congruence. }
  cbn [negb]. destruct (n !! path_join h CREDENTIAL_FILE) as [x|] eqn:Ex.
  2: { split; [done|]. intros (h' & x & E & _ & _ & Hx & _). injection E as <-. congruence. }
  split.
  - intros Hi. exists h, x. split; [done|]. split; [apply Hr; eauto|]. split; [rewrite Ehh; apply Hh; eauto|].
    split; [done|]. case_bool_decide as Hs; [done|]. cbn [orb] in Hi.
    case_bool_decide as Hk; [|done]. cbn [negb] in Hi.
    destruct (Z.eqb_spec (f_owner x) uid) as [Ho|]; [|done]. cbn [negb orb] in Hi.
    destruct (Z.eqb_spec (Z.land (f_mode x) 63) 0) as [Hm|]; [|done]. cbn [negb] in Hi.
    case_bool_decide as Hb; [done|]. split; [|done]. by exists x.
  - intros (h' & x' & E & _ & _ & Hx & (y & Hy & Hk & Ho & Hm) & Hb). injection E as <-.
    rewrite Ex in Hx. injection Hx as <-. injection Hy as <-. rewrite Hk, Ho, Hm.
    rewrite bool_decide_eq_false_2, bool_decide_eq_true_2, Z.eqb_refl by done. cbn.
    by rewrite bool_decide_eq_false_2.
Qed.

(** A project assigned a credential is reported healthy exactly when all of
    it is true: the root, the home and the store are private to the runtime's
    account, the store is a non-empty regular file, the project's link is
    exactly this credential's target, and the registry authorizes it. *)
Theorem reference_healthy_iff (n : gmap string Node) link root shared_pool id uid authorized :
  (forall f, credential_file root id = Ok f -> f <> shared_pool) ->
  ReferenceState.is_healthy (reference_state n link root shared_pool (Some id) uid authorized) = true
  <-> inspect n root id uid = Ready /\ authorized id = true
      /\ exists l f, n !! link = Some l /\ f_kind l = Symlink
         /\ credential_file root id = Ok f /\ of_chars (f_body l) = f.
Proof.
  intros Hsp. unfold reference_state.
  assert (classify_link n link root shared_pool = IsolatedLink id <->
    exists l f, n !! link = Some l /\ f_kind l = Symlink
         /\ credential_file root id = Ok f /\ of_chars (f_body l) = f) as Hlink.
  { unfold classify_link, symlink_metadata. destruct (n !! link) as [l|]; [|naive_solver].
    case_bool_decide as Hk; cbn [negb]; [|naive_solver]. split.
    - intros Hc. assert (of_chars (f_body l) <> shared_pool) as Hne.
      { intros E. unfold classify_target in Hc. by rewrite E, String.eqb_refl in Hc. }
      apply classify_isolated in Hc; [|done]. eauto 10.
    - intros (l' & f & [= <-] & _ & Hc & <-). apply classify_isolated; auto. }
  rewrite <- Hlink. destruct (inspect n root id uid); try (split; [done|intros [? _]; done]).
  case_bool_decide as Hl; cbn [negb]; [|split; [done|naive_solver]].
  destruct (authorized id); cbn [negb]; split; done || naive_solver.
Qed.

(** ** Replacing a link *)

Section SwapLink.
Context `{Process} (target link nonce : string) (replace_file : bool).

(** The names a new link is prepared under. *)
Definition stage_of (k : string) : Prop :=
  exists dir x, parent link = Some dir /\ k = path_join dir ("." +:+ file_name link +:+ ".asterism-" +:+ x).
(** Whatever was on disk under another name is still there, and nothing is new
    but perhaps a prepared link. *)
Definition kept_but (n0 n : gmap string Node) : Prop :=
  (forall k x, k <> link -> n0 !! k = Some x -> n !! k = Some x)
  /\ (forall k, k <> link -> ~ stage_of k -> n !! k = n0 !! k).
Definition leads (n : gmap string Node) : Prop :=
  exists x, n !! link = Some x /\ f_kind x = Symlink /\ f_body x = chars target.
(** A link may be replaced, and a plain file if the caller says so. *)
Definition replaceable (o : option Node) : Prop :=
  forall x, o = Some x -> f_kind x = Symlink \/ (f_kind x = RegularFile /\ replace_file = true).
Definition swapped (n0 : gmap string Node) (r : Result FsError unit) (n : gmap string Node) : Prop :=
  kept_but n0 n
  /\ match r with
     | Ok _ => replaceable (n0 !! link) /\ leads n
     | Err _ => n !! link = n0 !! link
     end.

(** The new link stands beside the old one. *)
Definition beside (staging : string) (n0 n : gmap string Node) : Prop :=
  n0 !! staging = None /\ exists x, f_kind x = Symlink /\ f_body x = chars target /\ n = <[staging := x]> n0.

Lemma beside_swapped staging n0 n e :
  staging <> link -> stage_of staging -> beside staging n0 n -> swapped n0 (Err e) n.
Proof.
  intros Hst Hsg (Hn & x & _ & _ & ->). split; [split|by rewrite lookup_insert_ne].
  - intros k y _ Hy. rewrite lookup_insert_ne; [done|]. congruence.
  - intros k _ Hk. rewrite lookup_insert_ne; [done|]. by intros <-.
Qed.

Lemma rename_or_clean staging n0 :
  staging <> link -> stage_of staging -> replaceable (n0 !! link) ->
  leaves (beside staging n0)
    (fun d => match rename staging link d with
              | (Err Crashed, d') => (Err Crashed, d')
              | (Err e, d') => (ignore_errors (remove_file staging) ;;; fail e) d'
              | r => r
              end)
    (swapped n0).
Proof.
  intros Hst Hsg Ho d Hb.
  assert (leaves (beside staging n0) (rename staging link)
    (fun r n => match r with Ok _ => swapped n0 (Ok tt) n | Err _ => beside staging n0 n end)) as Hr.
  { apply leaves_syscall. intros n Hn. split; [done|]. split; [done|]. destruct Hn as (Hn & x & Hk & Hx & ->).
    rewrite lookup_insert_eq, lookup_insert_ne by done.
    assert (swapped n0 (Ok tt) (<[link := x]> (delete staging (<[staging := x]> n0)))) as Hnew.
    { split; [split|split; [done|]; exists x; by rewrite lookup_insert_eq].
      - intros k y Hkl Hy. rewrite lookup_insert_ne, lookup_delete_ne, lookup_insert_ne by congruence. done.
      - intros k Hkl Hks. assert (staging <> k) by congruence.
        by rewrite lookup_insert_ne, lookup_delete_ne, lookup_insert_ne by congruence. }
    destruct (n0 !! link) as [z|] eqn:E; [|done].
    rewrite bool_decide_eq_false_2; [done|]. destruct (Ho z eq_refl) as [|[]]; congruence. }
  specialize (Hr d Hb). destruct (rename staging link d) as [[[]|e] d']; cbn [fst snd] in *; [done|].
  assert (forall e0, swapped n0 (Err e0) (nodes (snd ((ignore_errors (remove_file staging) ;;;
    @fail FsError Disk unit e0) d')))) as Hclean.
  { intros e0. pose proof (beside_swapped staging n0 _ e0 Hst Hsg Hr) as [Hkept Hl].
    unfold bind, fail, ignore_errors, remove_file, syscall. destruct Hr as (Hn & x & Hk & Hx & E).
    assert (swapped n0 (Err e0) (delete staging (nodes d'))) as Hdel.
    { rewrite E, delete_insert_id by done. by repeat split. }
    assert (nodes d' !! staging = Some x) as Es by (rewrite E; apply lookup_insert_eq).
    destruct (plan d') as [|[] pl]; cbn [fst snd nodes]; rewrite ?Es, ?bool_decide_eq_false_2 by congruence;
      solve [exact Hdel|by split]. }
  assert (forall e0, exists e1, fst ((ignore_errors (remove_file staging) ;;;
    @fail FsError Disk unit e0) d') = Err e1) as Hbad.
  { intros e0. unfold bind, fail. destruct (ignore_errors _ d') as [[]]; eauto. }
  destruct e as [|e|m]; [by apply (beside_swapped staging)|..];
    (destruct (Hbad (Io e)) as [e1 He1] || destruct (Hbad (Refused m)) as [e1 He1]); rewrite He1; apply Hclean.
Qed.

Lemma swap_link_leaves dir n0 :
  parent link = Some dir ->
  path_join dir ("." +:+ file_name link +:+ ".asterism-" +:+ nonce) <> link ->
  leaves (fun n => n = n0) (swap_link target link replace_file nonce) (swapped n0).
Proof.
  intros Hdir Hst. set (staging := path_join dir _) in Hst.
  assert (forall e, swapped n0 (Err e) n0) as Hno by by repeat split.
  assert (stage_of staging) as Hsg by by eexists _, _.
  unfold swap_link. destruct (is_plain_absolute target); cbn [negb]; [|apply leaves_fail; by intros n ->].
  apply leaves_bind with (Q1 := fun found n => n = n0 /\ found = n0 !! link).
  { apply leaves_look. by intros n ->. }
  intros found. apply leaves_bind with (Q1 := fun _ n => n = n0 /\ replaceable (n0 !! link)).
  { intros d [Hd ->]. assert (forall e, swapped n0 (Err e) (nodes d)) as Hno' by (intros e; rewrite Hd; apply Hno).
    unfold replaceable in *. destruct (n0 !! link) as [x|] eqn:E; [|done].
    case_bool_decide as Hk; [split; [done|intros y [= <-]; by left]|].
    case_bool_decide as Hf; cbn [andb]; [|by apply Hno'].
    destruct replace_file; [|by apply Hno']. split; [done|]. intros y [= <-]. by right. }
  intros _. rewrite Hdir. cbv zeta. fold staging.
  apply leaves_bind with (Q1 := fun _ n => beside staging n0 n /\ replaceable (n0 !! link)).
  { apply leaves_syscall. intros n [-> Hc]. split; [done|]. split; [done|].
    destruct (n0 !! staging) as [y|] eqn:E; [done|]. split; [|done]. split; [done|].
    eexists. split; [|split; [|reflexivity]]; done. }
  intros _ d [Hb Hc]. by apply (rename_or_clean staging n0).
Qed.
End SwapLink.

Lemma file_name_join dir name : plain_dir dir -> plain_name name -> file_name (path_join dir name) = name.
Proof.
  intros Hd Hn. rewrite path_join_plain by (done || by apply plain_name_relative). destruct Hn as [_ Hs].
  unfold file_name, split. rewrite !chars_append. change (chars "/" ++ chars name) with (SLASH :: chars name).
  rewrite split_from_sep, (split_from_last SLASH [] (chars name) Hs). cbn [app].
  by rewrite last_last, chars_of_chars.
Qed.

(** The link of a name in a directory. *)
Lemma swap_join_leaves `{Process} dir name target nonce replace_file n0 :
  plain_dir dir -> plain_name name ->
  leaves (fun n => n = n0) (swap_link target (path_join dir name) replace_file nonce)
    (swapped target (path_join dir name) replace_file n0).
Proof.
  intros Hd Hn. apply (swap_link_leaves _ _ _ _ dir); [by apply parent_join|].
  rewrite file_name_join by done. intros E%path_join_inj; [|done|by apply plain_name_relative].
  apply (f_equal String.length) in E. rewrite !string_length_append in E.
  change (String.length ".") with 1%nat in E. lia.
Qed.

Lemma remove_link_leaves link n0 :
  leaves (fun n => n = n0) (remove_link link)
    (fun r n => kept_but link n0 n
       /\ match r with
          | Ok _ => forall x, n !! link = Some x -> f_kind x <> Symlink /\ n0 !! link = Some x
          | Err _ => n !! link = n0 !! link
          end).
Proof.
  unfold remove_link. apply leaves_bind with (Q1 := fun found n => n = n0 /\ found = n0 !! link).
  { apply leaves_look. by intros n ->. }
  intros found. assert (kept_but link n0 n0) as Hk by by split.
  destruct found as [x|]; [|apply leaves_ret; intros n [-> E]; split; [done|]; rewrite <- E; done].
  case_bool_decide as Hx.
  - apply leaves_syscall. intros n [-> E]. split; [done|]. split; [done|]. rewrite <- E.
    rewrite bool_decide_eq_false_2 by congruence. split.
    + split; [intros k y Hne Hy|intros k Hne _]; by rewrite lookup_delete_ne.
    + intros y Hy. by rewrite lookup_delete_eq in Hy.
  - apply leaves_ret. intros n [-> E]. split; [done|]. intros y Hy. rewrite <- E in Hy. by injection Hy as <-.
Qed.

(** Either the link is as it was, or it leads to the target. *)
Definition old_or_new (target link : string) (o : option Node) (ok : bool) (n : gmap string Node) : Prop :=
  (ok = false /\ n !! link = o) \/ leads target link n.

(** Pointing a project at another credential is one step for a reader: with
    any call failing and the node stopping anywhere, the link is still what it
    was or already leads to the new target, and after success it does. *)
Theorem swap_link_is_atomic `{Process} target link nonce replace_file dir d :
  parent link = Some dir ->
  path_join dir ("." +:+ file_name link +:+ ".asterism-" +:+ nonce) <> link ->
  let (r, d') := swap_link target link replace_file nonce d in
  old_or_new target link (nodes d !! link) (is_ok r) (nodes d').
Proof.
  intros Hdir Hst.
  pose proof (swap_link_leaves target link nonce replace_file dir (nodes d) Hdir Hst d eq_refl) as Hs.
  destruct (swap_link target link replace_file nonce d) as [[[]|e] d']; cbn [fst snd] in Hs.
  - right. apply Hs.
  - left. split; [done|]. apply Hs.
Qed.

(** ** A staged store that is accepted *)

Lemma total_one (m : StoreMetadata) p r rs :
  total_records m = 1%nat -> m !! p = Some (r :: rs) -> rs = [].
Proof.
  intros Ht Hp. unfold total_records in Ht.
  rewrite (map_fold_delete_L _ _ p (r :: rs) m) in Ht by (done || intros; lia).
  destruct rs; [done|]. cbn in Ht. lia.
Qed.

Lemma accept_staged_Ok `{StoreCodec} n store p id method :
  accept_staged n store p id method = Ok tt ->
  exists raw parsed r, read n store = Ok raw /\ parse_store raw = Some parsed
    /\ total_records parsed = 1%nat /\ parsed !! p = Some [r] /\ matches r id = true
    /\ dead_reason r = None /\ (method = "device_authorization"%string -> device_login r = true).
Proof.
  unfold accept_staged. destruct (read n store) as [raw|]; [|done].
  destruct (parse_store raw) as [parsed|] eqn:Ep; [|done].
  destruct (Nat.eqb_spec (total_records parsed) 1) as [Ht|]; [|done]. cbn [negb].
  destruct (parsed !! p) as [[|r rs]|] eqn:Er; try done.
  destruct (matches r id) eqn:Em; [|done]. cbn [negb].
  destruct ((method =? "device_authorization")%string && negb (device_login r)) eqn:Ed; [done|].
  destruct (dead_reason r) eqn:Edr; [done|]. intros _.
  assert (rs = []) as -> by (eapply total_one; eauto). exists raw, parsed, r. split_and!; try done.
  intros ->. rewrite String.eqb_refl in Ed. cbn [andb] in Ed. by destruct (device_login r).
Qed.

(** A reauthorization that was accepted and swapped in serves: when the
    staged store passes the check and the swap succeeds, the credential's own
    store holds exactly that record and the runtime's verdict on it is usable. *)
Theorem accepted_swap_is_usable `{StoreCodec} home uid staged p id method d :
  staged <> live_file home -> staged <> rollback_file home -> plain_home home (nodes d) ->
  accept_staged (nodes d) staged p id method = Ok tt ->
  is_ok (fst (swap_in home staged uid d)) = true ->
  verdict (nodes (snd (swap_in home staged uid d))) (live_file home) p id = Usable.
Proof.
  intros Hsl Hsr Hp Ha Hok. apply accept_staged_Ok in Ha as (raw & parsed & r & Hr & Hps & _ & Hl & Hm & Hd & _).
  assert (exists new, nodes d !! staged = Some new /\ f_kind new = RegularFile) as (new & Hn & Hk).
  { unfold swap_in, bind, look, gets, lift in Hok. unfold check_plain_private_file, symlink_metadata in Hok.
    destruct (nodes d !! staged) as [new|]; [|done]. exists new. split; [done|].
    case_bool_decide as H1; [done|]. case_bool_decide as H2; [done|]. done. }
  pose proof (swap_in_slot home uid (nodes d !! live_file home) (nodes d !! rollback_file home) staged new
    Hsl Hsr d (conj (plain_home_files home (nodes d) Hp) Hn)) as [Hp' Hs].
  rewrite Hok in Hs.
  assert (nodes (snd (swap_in home staged uid d)) !! live_file home = Some (installed new)) as Hlive.
  { revert Hs. unfold view.
    destruct (nodes (snd (swap_in home staged uid d)) !! live_file home) as [a|],
      (nodes (snd (swap_in home staged uid d)) !! rollback_file home) as [b|]; cbn [slot_of];
      intros Hs; inversion Hs; by subst. }
  unfold verdict, read. rewrite (resolve_file _ _ _ (installed new)), Hlive by (done || by cbn; rewrite Hk).
  cbn [installed with_mode f_kind f_body]. rewrite bool_decide_eq_true_2 by done.
  unfold read in Hr. rewrite (resolve_file _ _ _ new), Hn in Hr by (done || by rewrite Hk).
  rewrite bool_decide_eq_true_2 in Hr by done. injection Hr as ->.
  rewrite Hps, Hl. cbn [List.find]. rewrite Hm. unfold judge_record. by rewrite Hd.
Qed.

(** A verdict of death is the runtime's own, for one of its terminal reasons. *)
Lemma dead_verdict_is_terminal `{StoreCodec} n store p id reason :
  verdict n store p id = Dead reason -> reason ∈ TERMINAL_REASONS.
Proof.
  unfold verdict. destruct (read n store) as [raw|[]]; try done. destruct (parse_store raw) as [m|]; [|done].
  destruct (m !! p) as [rs|]; [|done]. destruct (List.find _ rs) as [r|]; [|done].
  unfold judge_record. destruct (dead_reason r) as [x|] eqn:E; [|done]. intros [= <-]. revert E.
  unfold dead_reason. do 2 (destruct (negb _); [done|]). destruct (rm_last_error_reason r); [|done].
  case_bool_decide as Hin; [|done]. by intros [= <-].
Qed.

(** ** At concrete inputs *)

Module HomeSamples.
Definition record : RecordMetadata :=
  {| rm_label := Some "cred-1"%string; rm_auth_type := Some "oauth"%string;
     rm_source := Some "device_code"%string; rm_last_status := None; rm_last_error_code := None;
     rm_last_error_reason := None |}.
#[export] Instance codec : StoreCodec :=
  {| parse_store raw := if bool_decide (raw = $"store") then Some {["p"%string := [record]]} else None |}.
#[export] Instance process : Process := {| euid := 7; umask := 0x12 |}.
Definition folder : Node := {| f_kind := Directory; f_owner := 7; f_mode := 0x1C0; f_body := [] |}.
Definition file : Node := {| f_kind := RegularFile; f_owner := 7; f_mode := 0x180; f_body := $"store" |}.
Definition link : Node :=
  {| f_kind := Symlink; f_owner := 7; f_mode := 0x1FF; f_body := $"/c/cred-1/auth.json" |}.
Definition disk (p : list Fate) : Disk :=
  {| nodes := <["/c" := folder]> (<["/c/cred-1" := folder]> (<["/c/cred-1/auth.json" := file]>
                (<["/p/auth.json" := link]> (<["/s" := folder]> (<["/s/auth.json" := file]> ∅))))); plan := p |}.
End HomeSamples.
Import HomeSamples.

Lemma classify_target_exact_witness :
  classify_target "/c/cred-1/auth.json" "/c" "/pool" = IsolatedLink "cred-1".
Proof. apply (classify_target_exact "/c/cred-1/auth.json" "/c" "/pool" "cred-1"); [done|reflexivity]. Defined.

Lemma reference_healthy_iff_witness :
  ReferenceState.is_healthy
    (reference_state (nodes (disk [])) "/p/auth.json" "/c" "/pool" (Some "cred-1"%string) 7 (fun _ => true)) = true.
Proof.
  apply (reference_healthy_iff (nodes (disk [])) "/p/auth.json" "/c" "/pool" "cred-1" 7 (fun _ => true)).
  - intros f Hf. assert (f = "/c/cred-1/auth.json"%string) as -> by (vm_compute in Hf; congruence). done.
  - split; [reflexivity|]. split; [reflexivity|]. exists link, "/c/cred-1/auth.json"%string. done.
Defined.

Lemma swap_link_is_atomic_witness :
  let (r, d') := swap_link "/c/cred-2/auth.json" "/p/auth.json" false "ab" (disk [Goes; Fails]) in
  old_or_new "/c/cred-2/auth.json" "/p/auth.json" (Some link) (is_ok r) (nodes d').
Proof.
  apply (swap_link_is_atomic "/c/cred-2/auth.json" "/p/auth.json" "ab" false "/p" (disk [Goes; Fails]));
    [reflexivity|done].
Defined.

Lemma accepted_swap_is_usable_witness :
  verdict (nodes (snd (swap_in "/c/cred-1" "/s/auth.json" 7 (disk [])))) "/c/cred-1/auth.json" "p" "cred-1" = Usable.
Proof.
  apply (accepted_swap_is_usable "/c/cred-1" 7 "/s/auth.json" "p" "cred-1" "device_authorization" (disk []));
    [done|done|done|vm_compute; reflexivity|vm_compute; reflexivity].
Defined.
