(* ===== verification/Attachments.v ===== *)
(** * Attachments: image links on a chat turn ([attachments.rs]). *)
From Stdlib Require Import Lia.
From S2P Require Import Prelude Text Json Redact.

Module attachments.

Definition MAX_ATTACHMENTS : nat := 4.
Definition MAX_URL_BYTES : nat := 2048.
Definition MAX_ALT_BYTES : nat := 200.

Inductive AttachmentKind : Type := ImageUrl.
Definition as_str (k : AttachmentKind) : string := match k with ImageUrl => "image_url" end.

Record Attachment : Type := { kind : AttachmentKind; url : string; alt : option string }.

(** The messages of [bail!], in the order they are tried. *)
Inductive AttachmentError : Type :=
| NotAnArray
| TooMany (got : nat)
| UnsupportedType (kind : string)
| MissingUrl
| UrlTooLong
| NotAbsolute
| NotHttp (scheme : string)
| NoHost
| EmbedsCredentials
| HasWhitespace
| LabelTooLong.

Definition is_one_of (cs : bytes) (c : Ascii.ascii) : bool := List.existsb (char_eqb c) cs.

(** [split([...]).next().unwrap_or_default()]. *)
Definition authority_of (rest : bytes) : bytes := take_until (is_one_of $"/?#") rest.

Definition validate_url (url : bytes) : Result AttachmentError unit :=
  if (MAX_URL_BYTES <? length url)%nat then Err UrlTooLong
  else match split_once_str $"://" url with
       | None => Err NotAbsolute
       | Some (scheme, rest) =>
           if negb (bool_decide (scheme = $"http") || bool_decide (scheme = $"https"))
           then Err (NotHttp (of_chars scheme))
           else
             let authority := authority_of rest in
             if bool_decide (authority = []) then Err NoHost
             else if is_one_of authority (Ascii.ascii_of_N 64) then Err EmbedsCredentials
             else if has_whitespace url then Err HasWhitespace
             else Ok tt
       end.

(** [.and_then(Value::as_str).map(str::trim).filter(|text| !text.is_empty())]. *)
Definition trimmed_text (v : option Value) : option bytes :=
  match v ≫= Json.as_str with
  | None => None
  | Some text => let t := trim (chars text) in if bool_decide (t = []) then None else Some t
  end.

Definition parse_one (item : Value) : Result AttachmentError Attachment :=
  let kind := default "" (get "type" item ≫= Json.as_str) in
  if negb (kind =? as_str ImageUrl)%string then Err (UnsupportedType kind)
  else match trimmed_text (get "url" item) with
       | None => Err MissingUrl
       | Some url =>
           match validate_url url with
           | Err e => Err e
           | Ok _ =>
               let alt := trimmed_text (get "alt" item) in
               match alt with
               | Some a => if (MAX_ALT_BYTES <? length a)%nat then Err LabelTooLong
                           else Ok {| kind := ImageUrl; url := of_chars url; alt := Some (of_chars a) |}
               | None => Ok {| kind := ImageUrl; url := of_chars url; alt := None |}
               end
           end
       end.

(** [iter().map(f).collect::<Result<Vec<_>>>()]: the first error wins. *)
Fixpoint collect {A B E} (f : A -> Result E B) (l : list A) : Result E (list B) :=
  match l with
  | [] => Ok []
  | x :: l' => match f x with
               | Err e => Err e
               | Ok y => match collect f l' with Err e => Err e | Ok ys => Ok (y :: ys) end
               end
  end.

Definition parse (value : option Value) : Result AttachmentError (list Attachment) :=
  match value with
  | None => Ok []
  | Some VNull => Ok []
  | Some v =>
      match as_array v with
      | None => Err NotAnArray
      | Some items => if (MAX_ATTACHMENTS <? length items)%nat then Err (TooMany (length items))
                      else collect parse_one items
      end
  end.

Definition redact (url : string) : string :=
  match split_once_str $"://" (chars url) with
  | None => "<invalid-url>"
  | Some (scheme, rest) =>
      let path := take_until (is_one_of $"?#") rest in
      let truncated := if (length path <? length rest)%nat then path ++ $"?<redacted>" else path in
      of_chars (scheme ++ $"://" ++ truncated)
  end.

Definition hermes_input (text : string) (attachments : list Attachment) : Value :=
  match attachments with
  | [] => VString text
  | _ =>
      let parts := object [("type", VString "text"); ("text", VString text)]%string
        :: List.map (fun a => object [("type", VString "image_url");
                                      ("image_url", object [("url", VString (url a))])]%string) attachments in
      VArray [object [("role", VString "user"); ("content", VArray parts)]%string]
  end.

(** One entry of the suffix. *)
Definition mention (a : Attachment) : string :=
  match alt a with
  | Some alt => alt +:+ " <" +:+ url a +:+ ">"
  | None => "<" +:+ url a +:+ ">"
  end.
Fixpoint mentions (l : list Attachment) : string :=
  match l with [] => "" | a :: l' => ", " +:+ mention a +:+ mentions l' end.
Definition history_suffix (attachments : list Attachment) : string :=
  match attachments with
  | [] => ""
  | a :: l => String NL ("[attached images: " +:+ mention a +:+ mentions l +:+ "]")
  end.

(** [Serialize] for [Attachment], into a [Value]. *)
Definition to_value (a : Attachment) : Value :=
  object ([("type", VString (as_str (kind a))); ("url", VString (url a))]%string
          ++ match alt a with Some t => [("alt"%string, VString t)] | None => [] end).

End attachments.

(** ** Facts *)

Import attachments.

Lemma is_one_of_In cs c : is_one_of cs c = true <-> In c cs.
Proof.
  unfold is_one_of. rewrite existsb_exists. split.
  - intros (x & Hx & E). apply char_eqb_eq in E. by subst.
  - intros Hc. exists c. split; [done|apply char_eqb_refl].
Qed.

(** What a link has to look like: scheme, host without user info, rest. *)
Definition plain_link (u : bytes) : Prop :=
  u <> [] /\ (length u <= MAX_URL_BYTES)%nat /\ has_whitespace u = false
  /\ exists scheme authority rest,
       u = scheme ++ $"://" ++ authority ++ rest
       /\ (scheme = $"http" \/ scheme = $"https")
       /\ authority <> []
       /\ (forall c, In c authority -> ~ In c $"/?#@")
       /\ match rest with [] => True | c :: _ => In c $"/?#" end.

Lemma authority_of_spec rest :
  exists r, rest = authority_of rest ++ r /\ (forall c, In c (authority_of rest) -> ~ In c $"/?#")
            /\ match r with [] => True | c :: _ => In c $"/?#" end.
Proof.
  destruct (take_until_spec (is_one_of $"/?#") rest) as (r & E & Hf & Hr).
  exists r. split; [done|]. split.
  - intros c Hc Hin. rewrite List.Forall_forall in Hf. apply is_one_of_In in Hin.
    by rewrite (Hf c Hc) in Hin.
  - destruct r as [|c r]; [done|]. by apply is_one_of_In.
Qed.

Lemma validate_url_Ok u : u <> [] -> validate_url u = Ok tt -> plain_link u.
Proof.
  unfold validate_url. intros Hne. destruct (MAX_URL_BYTES <? length u)%nat eqn:El; [done|].
  apply Nat.ltb_ge in El. destruct (split_once_str _ u) as [[scheme rest]|] eqn:E; [|done].
  apply split_once_str_Some in E. case_bool_decide as H1; [|case_bool_decide as H2; [|done]]; cbn [orb negb];
    (case_bool_decide as Ha; [done|]; destruct (is_one_of _ _) eqn:E64; [done|];
     destruct (has_whitespace u) eqn:Ew; [done|]; intros _; do 3 (split; [done|]);
     destruct (authority_of_spec rest) as (r & Er & Hc & Hr); exists scheme, (authority_of rest), r;
     split; [by rewrite <- Er|]; split; [tauto|]; split; [done|]; split; [|done];
     intros c Hin [Hx|[Hx|[Hx|[Hx|[]]]]]; try (subst c; apply (Hc _ Hin); cbn; tauto);
     assert (~ In (Ascii.ascii_of_N 64) (authority_of rest)) as Hat by (rewrite <- is_one_of_In; congruence);
     subst c; exact (Hat Hin)).
Qed.

Lemma collect_Ok {A B E} (f : A -> Result E B) l ys :
  collect f l = Ok ys <-> Forall2 (fun x y => f x = Ok y) l ys.
Proof.
  split.
  - revert ys. induction l as [|x l IH]; intros ys; cbn [collect].
    + intros [= <-]. constructor.
    + destruct (f x) as [y|] eqn:Ex; [|done]. destruct (collect f l) as [zs|]; [|done].
      intros [= <-]. constructor; auto.
  - induction 1 as [|x y l ys Hx _ IH]; cbn [collect]; [done|]. by rewrite Hx, IH.
Qed.

(** What one accepted item says of the attachment it becomes. *)
Definition accepted (item : Value) (a : Attachment) : Prop :=
  get "type" item = Some (VString "image_url")
  /\ (exists text, get "url" item = Some (VString text) /\ chars (url a) = trim (chars text))
  /\ plain_link (chars (url a)) /\ trim (chars (url a)) = chars (url a)
  /\ match alt a with
     | None => True
     | Some t => (String.length t <= MAX_ALT_BYTES)%nat /\ t <> EmptyString /\ trim (chars t) = chars t
                 /\ exists text, get "alt" item = Some (VString text) /\ chars t = trim (chars text)
     end.

Lemma trimmed_text_Some v t :
  trimmed_text v = Some t -> t <> [] /\ exists text, v = Some (VString text) /\ t = trim (chars text).
Proof.
  unfold trimmed_text. destruct v as [[]|]; cbn; try done. case_bool_decide as Ht; [done|].
  intros [= <-]. eauto.
Qed.

Lemma parse_one_Ok item a : parse_one item = Ok a -> accepted item a.
Proof.
  unfold parse_one. destruct (_ =? _)%string eqn:Ek; [|done]. cbn [negb].
  assert (get "type" item = Some (VString "image_url")) as Ht.
  { destruct (get "type" item) as [[]|]; cbn in Ek; try done. apply String.eqb_eq in Ek. by subst. }
  destruct (trimmed_text (get "url" item)) as [u|] eqn:Eu; [|done].
  apply trimmed_text_Some in Eu as (Hne & text & Hu & ->).
  destruct (validate_url _) as [[]|] eqn:Ev; [|done]. apply validate_url_Ok in Ev; [|done].
  assert (forall o, match o with
    | None => True
    | Some t => (String.length t <= MAX_ALT_BYTES)%nat /\ t <> EmptyString /\ trim (chars t) = chars t
                /\ exists text, get "alt" item = Some (VString text) /\ chars t = trim (chars text)
    end -> accepted item {| kind := ImageUrl; url := of_chars (trim (chars text)); alt := o |}) as Hok.
  { intros o Ho. split; [done|]. cbn [url alt]. rewrite of_chars_chars.
    split; [by eexists|]. split; [done|]. split; [apply trim_idem|done]. }
  destruct (trimmed_text (get "alt" item)) as [t|] eqn:Ea; [|intros [= <-]; by apply Hok].
  apply trimmed_text_Some in Ea as (Hnt & ltext & Hl & ->).
  destruct (MAX_ALT_BYTES <? _)%nat eqn:El; [done|]. intros [= <-]. apply Hok.
  apply Nat.ltb_ge in El. rewrite <- length_chars, of_chars_chars, trim_idem. split; [done|].
  split; [intros He; apply Hnt; by rewrite <- (of_chars_chars (trim _)), He|]. eauto.
Qed.

(** ** Attachments through the registry *)



(** What keeps an attachment readable. *)
Definition valid (a : Attachment) : Prop :=
  validate_url (chars (url a)) = Ok tt /\ plain_link (chars (url a)) /\ trim (chars (url a)) = chars (url a)
  /\ match alt a with
     | None => True
     | Some t => (String.length t <= MAX_ALT_BYTES)%nat /\ t <> EmptyString /\ trim (chars t) = chars t
     end.

Lemma parse_one_valid item a : parse_one item = Ok a -> valid a.
Proof.
  intros H. destruct (parse_one_Ok _ _ H) as (_ & _ & Hp & Ht & Ha). split; [|split; [done|split; [done|]]].
  - unfold parse_one in H. repeat (case_match; try done); try discriminate H; injection H as <-; cbn [url];
      rewrite of_chars_chars; by match goal with u : unit |- _ => destruct u end.
  - destruct (alt a); [|done]. tauto.
Qed.

Lemma trimmed_text_string t :
  t <> EmptyString -> trim (chars t) = chars t -> trimmed_text (Some (VString t)) = Some (chars t).
Proof.
  intros Hn Ht. unfold trimmed_text. cbn [mbind option_bind Json.as_str]. rewrite Ht.
  rewrite bool_decide_eq_false_2; [done|]. intros He. apply Hn. by rewrite <- (chars_of_chars t), He.
Qed.

Lemma parse_one_to_value a : valid a -> parse_one (to_value a) = Ok a.
Proof.
  intros (Hv & (Hne & _) & Ht & Ha). destruct a as [[] u o]. cbn [url alt] in *.
  assert (get "type" (to_value {| kind := ImageUrl; url := u; alt := o |}) = Some (VString "image_url")
    /\ get "url" (to_value {| kind := ImageUrl; url := u; alt := o |}) = Some (VString u)
    /\ get "alt" (to_value {| kind := ImageUrl; url := u; alt := o |}) = VString <$> o) as (E1 & E2 & E3)
    by (by destruct o).
  unfold parse_one. rewrite E1, E2, E3. cbn [mbind option_bind Json.as_str default as_str].
  rewrite String.eqb_refl. cbn [negb]. rewrite trimmed_text_string by (done || by intros ->).
  rewrite Hv, chars_of_chars. destruct o as [t|]; [|done]. destruct Ha as (Hl & Hn & Htt).
  cbn [fmap option_fmap option_map]. rewrite trimmed_text_string by done.
  by rewrite length_chars, (proj2 (Nat.ltb_ge _ _) Hl), chars_of_chars.
Qed.

(** A label that looks like a secret is the one thing redaction changes. *)
Definition redact_alt (a : Attachment) : Attachment :=
  {| kind := kind a; url := url a;
     alt := (fun t => if looks_like_secret t then REDACTED else t) <$> alt a |}.

Lemma link_not_secret u : plain_link (chars u) -> looks_like_secret u = false \/ trim (chars u) <> chars u.
Proof.
  intros (_ & _ & _ & sc & au & r & E & Hs & _).
  destruct (decide (trim (chars u) = chars u)) as [Ht|]; [left|by right].
  unfold looks_like_secret. rewrite Ht, E. by destruct Hs as [-> | ->].
Qed.

Lemma to_value_labelled u t :
  to_value {| kind := ImageUrl; url := u; alt := Some t |}
  = VObject [("alt", VString t); ("type", VString "image_url"); ("url", VString u)]%string.
Proof. reflexivity. Qed.

Lemma to_value_bare u :
  to_value {| kind := ImageUrl; url := u; alt := None |}
  = VObject [("type", VString "image_url"); ("url", VString u)]%string.
Proof. reflexivity. Qed.

Lemma walk_attachment a d :
  (S d < MAX_DEPTH)%nat -> valid a -> walk_value (to_value a) d = to_value (redact_alt a).
Proof.
  intros Hd (_ & Hp & Ht & Ha). destruct (link_not_secret _ Hp) as [Hs|]; [|done].
  pose proof Hp as (_ & Hl & _). rewrite length_chars in Hl. destruct a as [[] u o]. cbn [url alt] in *.
  assert (forall t, (String.length t <= MAX_URL_BYTES)%nat -> len t <= MAX_STRING_BYTES) as Hb.
  { intros t. unfold len, MAX_STRING_BYTES, MAX_URL_BYTES. lia. }
  assert (walk_value (VString u) (S d) = VString u) as Eu by (apply walk_string_value; auto).
  assert (walk_value (VString "image_url") (S d) = VString "image_url") as Ei
    by (apply walk_string_value; [done|reflexivity|by vm_compute]).
  unfold walk_value at 1. destruct o as [t|]; cbn [redact_alt alt kind url fmap option_fmap option_map].
  - rewrite !to_value_labelled, walk_object by lia. cbn [fst List.map].
    rewrite !walk_entry_ordinary by reflexivity. rewrite Eu, Ei. destruct Ha as (Hlt & _ & _).
    assert (walk_value (VString t) (S d) = VString (if looks_like_secret t then REDACTED else t)) as ->; [|done].
    destruct (looks_like_secret t) eqn:Es; [unfold walk_value; rewrite walk_string by lia; by rewrite Es|].
    apply walk_string_value; [done..|]. apply Hb. unfold MAX_ALT_BYTES, MAX_URL_BYTES in *. lia.
  - rewrite !to_value_bare, walk_object by lia. cbn [fst List.map].
    rewrite !walk_entry_ordinary by reflexivity. by rewrite Eu, Ei.
Qed.

Lemma redact_alt_valid a : valid a -> valid (redact_alt a).
Proof.
  intros (? & ? & ? & Ha). do 3 (split; [done|]). destruct a as [k u [t|]]; cbn in *; [|done].
  destruct (looks_like_secret t); [|done]. split; [unfold MAX_ALT_BYTES; cbn; lia|done].
Qed.

(** The request a run is created with ([Service::start_run]). *)
Definition request_payload_of (input : string) (instructions : option string) (l : list Attachment) : Value :=
  object [("input", VString input); ("instructions", null_or VString instructions);
          ("attachments", VArray (List.map to_value l))]%string.

(** C40. The attachments of a turn are taken all or not at all, in the order they
    were given, at most four of them; and every link that is taken is an
    [http] or [https] link of bounded length, with a host and no user
    information in it, without white space, and with a bounded label. *)
Theorem accepted_attachments value l :
  parse value = Ok l ->
  (l = [] /\ (value = None \/ value = Some VNull))
  \/ exists items, value = Some (VArray items) /\ (length items <= MAX_ATTACHMENTS)%nat
                   /\ Forall2 accepted items l.
Proof.
  unfold parse. destruct value as [v|]; [|intros [= <-]; auto].
  destruct v as [| | | |items|]; cbn [as_array]; try done; [intros [= <-]; auto|].
  destruct (MAX_ATTACHMENTS <? length items)%nat eqn:En; [done|]. intros Hc. right. exists items.
  split; [done|]. split; [by apply Nat.ltb_ge|]. apply collect_Ok in Hc.
  eapply Forall2_impl; [apply parse_one_Ok|exact Hc].
Qed.

Lemma collect_stored d l :
  (S d < MAX_DEPTH)%nat -> Forall valid l ->
  collect parse_one (List.map (fun v => walk_value v d) (List.map to_value l)) = Ok (List.map redact_alt l).
Proof.
  intros Hd Hl. apply collect_Ok. induction Hl as [|a l Ha _ IH]; cbn [List.map]; [constructor|].
  constructor; [|done]. rewrite walk_attachment by done. by apply parse_one_to_value, redact_alt_valid.
Qed.

(** An attachment survives being stored with its run: what the worker reads
    back out of the redacted request, for the submission and for every later
    transcript, are the accepted links in the same order; the only thing
    redaction can change is a label that looks like a secret. *)
Theorem stored_attachments_read_back value l input instructions :
  parse value = Ok l ->
  parse (get "attachments" (Redact.value (Redact.redact (request_payload_of input instructions l))))
  = Ok (List.map redact_alt l).
Proof.
  intros H. assert ((length l <= MAX_ATTACHMENTS)%nat /\ Forall valid l) as [Hn Hv].
  { unfold parse in H. destruct value as [v|]; [|injection H as <-; split; [cbn; lia|constructor]].
    destruct v as [| | | |items|]; cbn [as_array] in H; try done; [injection H as <-; split; [cbn; lia|constructor]|].
    destruct (MAX_ATTACHMENTS <? length items)%nat eqn:En; [done|]. apply collect_Ok in H.
    apply Nat.ltb_ge in En. split; [by rewrite <- (Forall2_length H)|].
    clear En. induction H; constructor; eauto using parse_one_valid. }
  rewrite redact_value. unfold request_payload_of, object. cbn [List.fold_left fst snd].
  rewrite get_walk by (reflexivity || (unfold MAX_DEPTH; lia)).
  assert (map_get "attachments" (map_insert "attachments" (VArray (List.map to_value l))
    (map_insert "instructions" (null_or VString instructions) (map_insert "input" (VString input) [])))
    = Some (VArray (List.map to_value l))) as -> by (apply map_get_insert_eq).
  cbn [fmap option_fmap option_map]. unfold walk_value at 1. rewrite walk_array by (unfold MAX_DEPTH; lia).
  cbn [fst parse as_array]. rewrite !length_map, (proj2 (Nat.ltb_ge _ _) Hn).
  apply collect_stored; [unfold MAX_DEPTH; lia|done].
Qed.

Definition sample_item : Value :=
  object [("type", VString "image_url"); ("url", VString " https://cdn.example/a.png?sig=1 ");
          ("alt", VString "a chart")]%string.
Definition sample_attachment : Attachment :=
  {| kind := ImageUrl; url := "https://cdn.example/a.png?sig=1"; alt := Some "a chart" |}.

Lemma accepted_attachments_witness :
  parse (Some (VArray [sample_item])) = Ok [sample_attachment]
  /\ Forall2 accepted [sample_item] [sample_attachment].
Proof.
  assert (parse (Some (VArray [sample_item])) = Ok [sample_attachment]) as H by (vm_compute; reflexivity).
  split; [exact H|]. destruct (accepted_attachments _ _ H) as [[E _]|(items & E & _ & HF)]; [discriminate E|].
  injection E as <-. exact HF.
Defined.

Lemma stored_attachments_read_back_witness :
  parse (get "attachments" (Redact.value (Redact.redact
    (request_payload_of "what is this?" None [sample_attachment])))) = Ok [sample_attachment].
Proof.
  apply (stored_attachments_read_back (Some (VArray [sample_item])) [sample_attachment]).
  vm_compute. reflexivity.
Defined.

(** What goes into a log does not depend on the query or the fragment. *)
Lemma redact_drops_query scheme path c query :
  List.forallb (fun x => negb (char_eqb x (Ascii.ascii_of_N 58))) scheme = true ->
  Forall (fun x => is_one_of $"?#" x = false) path -> In c $"?#" ->
  redact (of_chars (scheme ++ $"://" ++ path ++ c :: query))
  = of_chars (scheme ++ $"://" ++ path ++ $"?<redacted>").
Proof.
  intros Hs Hp Hc. unfold redact. rewrite of_chars_chars.
  assert (split_once_str $"://" (scheme ++ $"://" ++ path ++ c :: query) = Some (scheme, path ++ c :: query)) as ->.
  { clear Hp Hc. induction scheme as [|x s IH]; [reflexivity|]. cbn in Hs. apply andb_true_iff in Hs as [Hx Hs].
    change ((x :: s) ++ ?r) with (x :: (s ++ r)). cbn [split_once_str].
    assert (strip_prefix $"://" (x :: s ++ $"://" ++ path ++ c :: query) = None) as ->.
    { apply negb_true_iff, char_eqb_neq in Hx. cbn [strip_prefix String.list_ascii_of_string].
      by rewrite (proj2 (char_eqb_neq _ _)) by (intros E; by apply Hx). }
    by rewrite IH. }
  rewrite take_until_app by (done || by apply is_one_of_In).
  rewrite (proj2 (Nat.ltb_lt _ _)); [done|]. rewrite length_app. cbn. lia.
Qed.
