(* ===== verification/ChatHistory.v ===== *)
(** * ChatHistory: the transcript sent with a continued run ([chathistory.rs]).

    The walk over retries ([attempt_chain]) is a [while] loop over a stack and
    takes fuel, one unit per entry taken from the stack; [attempt_chain_exact]
    shows that one per run is enough. *)
From Stdlib Require Import Lia Sorted Permutation.
From S2P Require Import Prelude Text Json RunState Schema Registry Attachments.

Module chathistory.

Record HistoryLimits : Type := { max_turns : nat; max_bytes : nat }.
Definition DEFAULT_MAX_TURNS : nat := 20.
Definition DEFAULT_MAX_BYTES : nat := Z.to_nat (64 * 1024).
Definition HistoryLimits_default : HistoryLimits :=
  {| max_turns := DEFAULT_MAX_TURNS; max_bytes := DEFAULT_MAX_BYTES |}.

Record HistoryMessage : Type := { role : string; content : string }.
Record BuiltHistory : Type := { messages : list HistoryMessage; omitted_turns : nat; bytes : nat }.
Definition is_empty (b : BuiltHistory) : bool := match messages b with [] => true | _ => false end.
Definition truncated (b : BuiltHistory) : bool := (0 <? omitted_turns b)%nat.

Record Turn : Type := { t_created_at : Z; user : string; assistant : string }.

Definition text_field (v : Value) (key : string) : option string :=
  of_chars <$> attachments.trimmed_text (get key v).

(** Newest first, completed only, the first with an output. *)
Fixpoint find_answer (attempts : list RunRecord) : option string :=
  match attempts with
  | [] => None
  | r :: rest =>
      match RunStatus.parse (status r) with
      | Ok Completed =>
          match result_payload r ≫= (fun p => text_field p "output") with
          | Some out => Some out
          | None => find_answer rest
          end
      | _ => find_answer rest
      end
  end.
Definition latest_completed_answer (attempts : list RunRecord) : option string :=
  find_answer (List.rev attempts).

Definition retries_of (runs : list RunRecord) (parent : string) : list RunRecord :=
  List.filter (fun r => sql_eq (retry_of_run_id r) parent) runs.

(** The [while] loop; the top of the frontier is its head. *)
Fixpoint walk_retries (fuel : nat) (runs chain : list RunRecord) (frontier : list string) :
    option (list RunRecord) :=
  match frontier with
  | [] => Some chain
  | parent :: rest =>
      match fuel with
      | O => None
      | S fuel' =>
          let found := retries_of runs parent in
          walk_retries fuel' runs (chain ++ found) (List.rev (List.map run_id found) ++ rest)
      end
  end.

Definition older (a b : RunRecord) : bool := created_at a <=? created_at b.
Definition attempt_chain (runs : list RunRecord) (root_id : string) : option (list RunRecord) :=
  order_by older <$>
  walk_retries (length runs) runs (List.filter (fun r => (run_id r =? root_id)%string) runs) [root_id].

(** What the loop body of [collect_turns] pushes for one run. *)
Definition turn_of (runs : list RunRecord) (session current : string) (run : RunRecord) :
    option (list Turn) :=
  if (run_id run =? current)%string then Some []
  else if negb (sql_eq (session_id run) session) then Some []
  else if negb (is_null (retry_of_run_id run)) then Some []
  else match text_field (request_payload run) "input" with
       | None => Some []
       | Some user =>
           let images := match attachments.parse (get "attachments" (request_payload run)) with
                         | Ok l => l
                         | Err _ => []
                         end in
           let user := user +:+ attachments.history_suffix images in
           attempts ← attempt_chain runs (run_id run);
           match latest_completed_answer attempts with
           | None => Some []
           | Some assistant =>
               Some [{| t_created_at := created_at run; user := user; assistant := assistant |}]
           end
       end.

Fixpoint collect_from (runs : list RunRecord) (session current : string) (todo : list RunRecord) :
    option (list Turn) :=
  match todo with
  | [] => Some []
  | r :: todo' =>
      here ← turn_of runs session current r;
      rest ← collect_from runs session current todo';
      Some (here ++ rest)
  end.
Definition collect_turns (runs : list RunRecord) (session current : string) : option (list Turn) :=
  collect_from runs session current runs.

Definition messages_of (turns : list Turn) : list HistoryMessage :=
  List.concat (List.map (fun t => [{| role := "user"; content := user t |};
                                   {| role := "assistant"; content := assistant t |}]) turns).

Section Build.
Context `{SerdeJson}.

(** [serde_json::to_vec] of the messages: a compact array of structs. *)
Definition to_vec (ms : list HistoryMessage) : Text.bytes :=
  $"[" ++ join $"," (List.map (fun m => chars (struct_to_string
     [("role", VString (role m)); ("content", VString (content m))]%string)) ms) ++ $"]".
Definition serialized_bytes (turns : list Turn) : nat := length (to_vec (messages_of turns)).

(** The [while] loop: whole turns, oldest first. *)
Fixpoint drop_oldest (max : nat) (turns : list Turn) (omitted : nat) : list Turn * nat :=
  match turns with
  | [] => ([], omitted)
  | _ :: rest => if (max <? serialized_bytes turns)%nat then drop_oldest max rest (S omitted)
                 else (turns, omitted)
  end.

Definition build_from (turns : list Turn) (limits : HistoryLimits) : BuiltHistory :=
  let turns := order_by (fun a b => t_created_at a <=? t_created_at b) turns in
  let omitted := (length turns - max_turns limits)%nat in
  let '(turns, omitted) := drop_oldest (max_bytes limits) (skipn omitted turns) omitted in
  {| messages := messages_of turns; omitted_turns := omitted; bytes := serialized_bytes turns |}.

Definition build (runs : list RunRecord) (session current : string) (limits : HistoryLimits) :
    option BuiltHistory :=
  turns ← collect_turns runs session current;
  Some (build_from turns limits).
End Build.
End chathistory.
Import chathistory.

(** ** The walk over retries *)

Section Walk.
Context (runs : list RunRecord) (root : RunRecord).
Hypothesis ids : NoDup (run_id <$> runs).
Hypothesis root_in : In root runs.
Hypothesis root_root : retry_of_run_id root = None.

(** A root and every retry, and retry of a retry, of it. *)
Inductive descends : RunRecord -> Prop :=
| descends_root : descends root
| descends_retry p r :
    descends p -> In r runs -> retry_of_run_id r = Some (run_id p) -> descends r.

Lemma same_run a b : In a runs -> In b runs -> run_id a = run_id b -> a = b.
Proof. intros. by eapply (NoDup_map_inj run_id); [apply NoDup_ListNoDup| | |]. Qed.

Lemma descends_in r : descends r -> In r runs.
Proof. by destruct 1. Qed.

Lemma In_retries r p : In r (retries_of runs p) <-> In r runs /\ retry_of_run_id r = Some p.
Proof. unfold retries_of. by rewrite filter_In, sql_eq_true. Qed.

(** What the loop keeps: [popped] are the ids taken from the stack. *)
Record walking (popped : list string) (chain : list RunRecord) (frontier : list string) : Prop := {
  w_seen : NoDup (popped ++ frontier);
  w_chain : Permutation (run_id <$> chain) (popped ++ frontier);
  w_sound : forall r, In r chain -> descends r;
  w_parent : forall r p, In r chain -> retry_of_run_id r = Some p -> In p popped;
  w_done : forall r p, In p popped -> In r runs -> retry_of_run_id r = Some p -> In r chain;
  w_root : In root chain
}.

Lemma only_root l :
  NoDup (run_id <$> l) -> In root l -> (forall x, In x l -> run_id x = run_id root -> x = root) ->
  List.filter (fun r => (run_id r =? run_id root)%string) l = [root].
Proof.
  induction l as [|x l IH]; [done|]. cbn [fmap list_fmap]. intros [Hx Hl]%list.NoDup_cons Hin Hu.
  cbn [List.filter]. destruct (String.eqb_spec (run_id x) (run_id root)) as [E|E].
  - assert (x = root) as -> by (apply Hu; [by left|done]). f_equal.
    clear IH Hl Hin Hu E. induction l as [|y l IH]; [done|]. cbn [fmap list_fmap] in Hx.
    apply not_elem_of_cons in Hx as [Hy Hx]. cbn [List.filter].
    rewrite (proj2 (String.eqb_neq _ _)) by done. auto.
  - destruct Hin as [->|Hin]; [done|]. apply IH; [done..|]. intros y Hy. apply Hu. by right.
Qed.

Lemma walking_start : walking [] (List.filter (fun r => (run_id r =? run_id root)%string) runs) [run_id root].
Proof.
  rewrite only_root; [|done..|intros x Hx; by apply same_run].
  split; cbn; [apply NoDup_singleton|done| | |done|by left].
  - intros r [<-|[]]. constructor.
  - intros r p [<-|[]]. congruence.
Qed.

Lemma retries_ids p : NoDup (run_id <$> retries_of runs p).
Proof. by apply (NoDup_fmap_filter run_id). Qed.

Lemma walking_step popped chain parent rest :
  walking popped chain (parent :: rest) ->
  walking (popped ++ [parent]) (chain ++ retries_of runs parent)
          (List.rev (List.map run_id (retries_of runs parent)) ++ rest).
Proof.
  intros W. pose proof (w_seen _ _ _ W) as Hs. pose proof (w_chain _ _ _ W) as Hc.
  assert (~ In parent popped) as Hpn.
  { apply list.NoDup_app in Hs as (_ & Hd & _). intros Hp. apply (Hd parent); [by apply list_elem_of_In|]. by left. }
  assert (forall r, In r chain -> ~ In r (retries_of runs parent)) as Hnew.
  { intros r Hr [_ Hp]%In_retries. by apply Hpn, (w_parent _ _ _ W r). }
  assert (Permutation (run_id <$> (chain ++ retries_of runs parent))
    ((popped ++ [parent]) ++ List.rev (List.map run_id (retries_of runs parent)) ++ rest)) as Hperm.
  { rewrite fmap_app, Hc, <- !app_assoc. cbn [app]. apply Permutation_app_head. constructor.
    rewrite Permutation_app_comm. apply Permutation_app_tail. apply Permutation_rev. }
  split; [|done|..].
  - rewrite <- Hperm, fmap_app. apply list.NoDup_app. split; [by rewrite Hc|]. split; [|apply retries_ids].
    intros x (r & -> & Hr)%list_elem_of_fmap (r' & E & Hr')%list_elem_of_fmap.
    apply list_elem_of_In in Hr, Hr'. apply (Hnew r Hr).
    assert (r = r') as ->; [|done]. apply same_run; [| |done].
    + eapply descends_in, (w_sound _ _ _ W); eauto.
    + by apply In_retries in Hr' as [? _].
  - intros r [Hr|Hr]%in_app_iff; [by apply (w_sound _ _ _ W)|]. apply In_retries in Hr as [Hr Hp].
    assert (parent ∈ run_id <$> chain) as (q & -> & Hq)%list_elem_of_fmap.
    { rewrite Hc. apply elem_of_app. right. by left. }
    apply (descends_retry q); [|done..]. by apply (w_sound _ _ _ W), list_elem_of_In.
  - intros r p [Hr|Hr]%in_app_iff Hp; apply in_app_iff; [left; by eapply (w_parent _ _ _ W)|].
    right. apply In_retries in Hr as [_ Hr]. rewrite Hr in Hp. injection Hp as <-. by left.
  - intros r p [Hp|[<-|[]]]%in_app_iff Hr Hrp; apply in_app_iff; [left; by eapply (w_done _ _ _ W)|].
    right. by apply In_retries.
  - apply in_app_iff. left. apply (w_root _ _ _ W).
Qed.

(** Every id on the stack or taken from it is a run of its own. *)
Lemma walking_length popped chain frontier :
  walking popped chain frontier -> (length popped + length frontier <= length runs)%nat.
Proof.
  intros W. rewrite <- length_app, <- (Permutation_length (w_chain _ _ _ W)), length_fmap.
  rewrite <- (length_fmap run_id), <- (length_fmap run_id runs). apply submseteq_length, NoDup_submseteq.
  - rewrite (w_chain _ _ _ W). apply W.
  - intros x (r & -> & Hr)%list_elem_of_fmap. apply list_elem_of_fmap_2, list_elem_of_In.
    eapply descends_in, (w_sound _ _ _ W). by apply list_elem_of_In.
Qed.

Lemma walk_retries_total fuel popped chain frontier :
  walking popped chain frontier -> (length runs <= length popped + fuel)%nat ->
  exists chain' popped', walk_retries fuel runs chain frontier = Some chain' /\ walking popped' chain' [].
Proof.
  revert popped chain frontier. induction fuel as [|fuel IH]; intros popped chain frontier W Hf;
    (destruct frontier as [|parent rest]; [by exists chain, popped|]).
  - apply walking_length in W. cbn in W. lia.
  - cbn [walk_retries]. apply (IH (popped ++ [parent])); [by apply walking_step|].
    rewrite length_app. cbn. lia.
Qed.

Lemma walking_end popped chain :
  walking popped chain [] -> NoDup chain /\ forall r, In r chain <-> descends r.
Proof.
  intros W. pose proof (w_chain _ _ _ W) as Hc. pose proof (w_seen _ _ _ W) as Hs. rewrite app_nil_r in Hc, Hs. split.
  - apply (NoDup_fmap_1 run_id). by rewrite Hc.
  - intros r. split; [apply (w_sound _ _ _ W)|]. induction 1 as [|p r Hp IH Hr E]; [apply W|].
    eapply (w_done _ _ _ W); [|done..]. apply list_elem_of_In. rewrite <- Hc.
    by apply list_elem_of_fmap_2, list_elem_of_In.
Qed.
End Walk.

Lemma older_sorted l : StronglySorted (fun a b => older a b = true) (order_by older l).
Proof.
  apply order_by_sorted; unfold older; intros *; rewrite !Z.leb_le; lia.
Qed.

Lemma attempt_chain_ok runs root :
  NoDup (run_id <$> runs) -> In root runs -> retry_of_run_id root = None ->
  exists chain, attempt_chain runs (run_id root) = Some chain
    /\ NoDup chain /\ (forall r, In r chain <-> descends runs root r)
    /\ StronglySorted (fun a b => created_at a <= created_at b) chain.
Proof.
  intros Hn Hin Hr.
  destruct (walk_retries_total runs root Hn Hin (length runs) _ _ _ (walking_start runs root Hn Hin Hr))
    as (chain & popped & E & W); [cbn; lia|].
  destruct (walking_end runs root _ _ W) as [Hnd Hd].
  exists (order_by older chain). unfold attempt_chain. rewrite E. split; [done|].
  split; [by rewrite order_by_perm|]. split; [intros r; by rewrite In_order_by|].
  eapply StronglySorted_weaken; [|apply older_sorted]. intros a b. by rewrite <- Z.leb_le.
Qed.

(** Collecting the attempts at a turn always ends, also when the registry
    holds runs that retry each other in a circle, and finds the root, its
    retries and their retries, each once, oldest first. *)
Theorem attempt_chain_exact runs root :
  NoDup (run_id <$> runs) -> In root runs -> retry_of_run_id root = None ->
  exists chain, attempt_chain runs (run_id root) = Some chain
    /\ NoDup chain /\ (forall r, In r chain <-> descends runs root r)
    /\ StronglySorted (fun a b => created_at a <= created_at b) chain.
Proof. apply attempt_chain_ok. Qed.

(** ** Building the transcript *)

Section BuildFacts.
Context `{SerdeJson}.

Lemma drop_oldest_spec max turns omitted :
  exists k, drop_oldest max turns omitted = (skipn k turns, (omitted + k)%nat)
    /\ (k <= length turns)%nat
    /\ (skipn k turns = [] \/ (serialized_bytes (skipn k turns) <= max)%nat)
    /\ forall k', (k' < k)%nat -> (max < serialized_bytes (skipn k' turns))%nat.
Proof.
  revert omitted. induction turns as [|t turns IH]; intros omitted; cbn [drop_oldest].
  - exists 0%nat. cbn. rewrite Nat.add_0_r. split; [done|]. split; [lia|]. split; [by left|lia].
  - destruct (max <? serialized_bytes (t :: turns))%nat eqn:E.
    + apply Nat.ltb_lt in E. destruct (IH (S omitted)) as (k & -> & Hk & Hb & Hmin). exists (S k).
      cbn [skipn length]. split; [f_equal; lia|]. split; [lia|]. split; [done|].
      intros [|k'] Hlt; [done|]. apply Hmin. lia.
    + apply Nat.ltb_ge in E. exists 0%nat. cbn [skipn]. rewrite Nat.add_0_r.
      split; [done|]. split; [lia|]. split; [by right|lia].
Qed.

(** C39. The transcript is the newest turns, whole and in order: it keeps within
    the turn limit and the byte limit, says exactly how many older turns were
    left out, and leaves out no turn it could have kept. *)
Theorem history_is_newest_suffix turns limits :
  let sorted := order_by (fun a b => t_created_at a <=? t_created_at b) turns in
  let built := build_from turns limits in
  let kept k := skipn k sorted in
  messages built = messages_of (kept (omitted_turns built))
  /\ bytes built = serialized_bytes (kept (omitted_turns built))
  /\ (length (kept (omitted_turns built)) <= max_turns limits)%nat
  /\ (messages built = [] \/ (bytes built <= max_bytes limits)%nat)
  /\ StronglySorted (fun a b => t_created_at a <= t_created_at b) sorted
  /\ Permutation sorted turns
  /\ (forall k, (k < omitted_turns built)%nat ->
        (max_turns limits < length (kept k))%nat \/ (max_bytes limits < serialized_bytes (kept k))%nat).
Proof.
  intros sorted built kept. subst built. unfold build_from. fold sorted.
  destruct (drop_oldest_spec (max_bytes limits) (skipn (length sorted - max_turns limits) sorted)
              (length sorted - max_turns limits)) as (k & -> & Hk & Hb & Hmin).
  cbn [messages omitted_turns bytes]. subst kept. cbn beta.
  rewrite length_skipn in Hk. rewrite skipn_skipn, Nat.add_comm in Hb |- *.
  split; [done|]. split; [done|]. split; [rewrite length_skipn; lia|]. split; [|split; [|split]].
  - destruct Hb as [->|Hb]; [by left|by right].
  - eapply StronglySorted_weaken; [|apply order_by_sorted]; cbn beta.
    + intros a b. by rewrite <- Z.leb_le.
    + intros a b. rewrite !Z.leb_le. lia.
    + intros a b c. rewrite !Z.leb_le. lia.
  - apply order_by_perm.
  - intros j Hj. rewrite length_skipn.
    destruct (decide (j < length sorted - max_turns limits)%nat) as [|Hge]; [left; lia|]. right.
    specialize (Hmin (j - (length sorted - max_turns limits))%nat ltac:(lia)).
    rewrite skipn_skipn in Hmin. by replace (j - _ + _)%nat with j in Hmin by lia.
Qed.

Lemma collect_from_total runs session current todo :
  (forall r, In r todo -> exists l, turn_of runs session current r = Some l) ->
  exists turns, collect_from runs session current todo = Some turns
    /\ forall t, In t turns <-> exists r l, In r todo /\ turn_of runs session current r = Some l /\ In t l.
Proof.
  induction todo as [|r todo IH]; intros Hall.
  - exists []. split; [done|]. intros t. split; [done|]. by intros (? & ? & [] & _).
  - destruct (Hall r) as [here Eh]; [by left|]. destruct IH as (turns & E & Hin); [intros; apply Hall; by right|].
    exists (here ++ turns). cbn [collect_from]. rewrite Eh, E. split; [done|]. intros t.
    rewrite in_app_iff, Hin. split.
    + intros [Ht|(r' & l & Hr' & El & Ht)]; [exists r, here|exists r', l]; cbn; auto.
    + intros (r' & l & [<-|Hr'] & El & Ht); [left; by rewrite Eh in El; injection El as <-|right; eauto 6].
Qed.

(** The answer found is the newest one. *)
Definition answer_of (r : RunRecord) : option string :=
  match RunStatus.parse (status r) with
  | Ok Completed => result_payload r ≫= (fun p => text_field p "output")
  | _ => None
  end.

Lemma find_answer_spec l out :
  find_answer l = Some out ->
  exists a r b, l = a ++ r :: b /\ answer_of r = Some out /\ (forall x, In x a -> answer_of x = None).
Proof.
  induction l as [|x l IH]; [done|]. cbn [find_answer].
  assert (match answer_of x with Some o => Some o | None => find_answer l end = Some out ->
    exists a r b, x :: l = a ++ r :: b /\ answer_of r = Some out /\ (forall y, In y a -> answer_of y = None)) as Hgen.
  { destruct (answer_of x) as [o|] eqn:E.
    - intros [= ->]. by exists [], x, l.
    - intros (a & r & b & -> & Hr & Ha)%IH. exists (x :: a), r, b. split; [done|]. split; [done|].
      by intros y [<-|Hy]; [|apply Ha]. }
  unfold answer_of in Hgen at 1. destruct (RunStatus.parse (status x)) as [[]|]; try apply Hgen.
Qed.

Lemma latest_answer_newest chain out :
  StronglySorted (fun a b => created_at a <= created_at b) chain ->
  latest_completed_answer chain = Some out ->
  exists r, In r chain /\ answer_of r = Some out
    /\ forall x, In x chain -> answer_of x <> None -> created_at x <= created_at r.
Proof.
  intros Hs (a & r & b & E & Hr & Ha)%find_answer_spec.
  assert (chain = List.rev b ++ r :: List.rev a) as ->.
  { rewrite <- (rev_involutive chain), E, rev_app_distr. cbn. by rewrite <- app_assoc. }
  exists r. split; [apply in_elt|]. split; [done|]. intros x Hx Hne.
  apply in_app_iff in Hx as [Hx|[<-|Hx]]; [|lia|by apply in_rev, Ha in Hx].
  clear E Ha. induction (List.rev b) as [|y l IH]; [done|]. inversion Hs as [|? ? Hs' Hy]; subst.
  destruct Hx as [<-|Hx]; [|auto]. rewrite List.Forall_forall in Hy. apply Hy, in_elt.
Qed.

Lemma turn_of_spec runs session current root l t :
  NoDup (run_id <$> runs) -> In root runs -> turn_of runs session current root = Some l -> In t l ->
  exists question attempt,
    run_id root <> current /\ session_id root = Some session
    /\ retry_of_run_id root = None /\ t_created_at t = created_at root
    /\ text_field (request_payload root) "input" = Some question
    /\ (exists suffix, user t = question +:+ suffix)
    /\ descends runs root attempt /\ answer_of attempt = Some (assistant t)
    /\ forall r, descends runs root r -> answer_of r <> None -> created_at r <= created_at attempt.
Proof.
  intros Hn Hr. unfold turn_of.
  destruct (String.eqb_spec (run_id root) current) as [|Hc]; [by intros [= <-]|].
  destruct (sql_eq (session_id root) session) eqn:Es; cbn [negb]; [|by intros [= <-]].
  apply sql_eq_true in Es. destruct (retry_of_run_id root) eqn:Er; cbn [is_null negb]; [by intros [= <-]|].
  destruct (text_field (request_payload root) "input") as [q|] eqn:Eq; [|by intros [= <-]].
  destruct (attempt_chain_ok runs root Hn Hr Er) as (chain & -> & _ & Hd & Hs). cbn [mbind option_bind].
  destruct (latest_completed_answer chain) as [out|] eqn:Ea; [|by intros [= <-]].
  intros [= <-] [<-|[]]. destruct (latest_answer_newest chain out Hs Ea) as (r & Hrc & Hra & Hnew).
  exists q, r. cbn [t_created_at user assistant]. repeat (split; [by eauto|]).
  split; [by apply Hd|]. split; [done|]. intros x Hx. by apply Hnew, Hd.
Qed.

Lemma turn_of_total runs session current r :
  NoDup (run_id <$> runs) -> In r runs -> exists l, turn_of runs session current r = Some l.
Proof.
  intros Hn Hr. unfold turn_of.
  destruct (run_id r =? current)%string; [eauto|]. destruct (negb (sql_eq _ _)); [eauto|].
  destruct (retry_of_run_id r) eqn:Er; cbn [is_null negb]; [eauto|].
  destruct (text_field _ _); [|eauto].
  destruct (attempt_chain_ok runs r Hn Hr Er) as (chain & -> & _). cbn. case_match; eauto.
Qed.

(** Building the transcript succeeds on the runs of any registry, and a turn of
    it is one question with the answer that stood: the question is asked by a
    root run of this session other than the current one, and the answer is the
    output of a completed attempt at it, the newest that has one. *)
Theorem turns_are_answered_questions runs session current limits :
  NoDup (run_id <$> runs) ->
  exists turns, collect_turns runs session current = Some turns
    /\ build runs session current limits = Some (build_from turns limits)
    /\ forall t, In t turns ->
         exists root question attempt,
           In root runs /\ run_id root <> current /\ session_id root = Some session
           /\ retry_of_run_id root = None /\ t_created_at t = created_at root
           /\ text_field (request_payload root) "input" = Some question
           /\ (exists suffix, user t = question +:+ suffix)
           /\ descends runs root attempt /\ answer_of attempt = Some (assistant t)
           /\ forall r, descends runs root r -> answer_of r <> None -> created_at r <= created_at attempt.
Proof.
  intros Hn.
  destruct (collect_from_total runs session current runs) as (turns & E & Hin).
  { intros r. by apply turn_of_total. }
  exists turns. split; [done|]. split; [unfold build, collect_turns; by rewrite E|].
  intros t (r & l & Hr & El & Ht)%Hin. destruct (turn_of_spec runs session current r l t) as (q & a & ?); [done..|]. by exists r, q, a.
Qed.
End BuildFacts.

(** ** A sample conversation *)

(** A question whose first attempt was interrupted, its retry, and two runs that
    name each other as the run they retry. *)
Definition attempt (id : string) (st : RunStatus) (at_ : Z) (retry : option string) : RunRecord :=
  {| run_id := id; project_id := "p"; session_id := Some "s"; idempotency_key := None;
     runtime_kind := "hermes"; provider := None; model := None; status := RunStatus.as_str st;
     created_at := at_; started_at := None; updated_at := at_; finished_at := None; last_event_seq := 0;
     terminal_reason := None; error_code := None; error_message := None; hermes_run_id := None;
     request_payload := object [("input", VString "what now?")]%string;
     result_payload := if RunStatus.is_terminal st then Some (object [("output", VString (id +:+ " says"))])
                       else None;
     recovery_note := None; retry_of_run_id := retry |}%string.
Definition sample_runs : list RunRecord :=
  [attempt "a" Interrupted 1 None; attempt "b" Completed 2 (Some "a"%string);
   attempt "c" Completed 3 (Some "d"%string); attempt "d" Completed 4 (Some "c"%string)].

Lemma sample_ids : NoDup (run_id <$> sample_runs).
Proof. apply (bool_decide_unpack (NoDup (run_id <$> sample_runs))). vm_compute. exact I. Qed.

Lemma attempt_chain_exact_witness :
  exists chain, attempt_chain sample_runs "a" = Some chain
    /\ forall r, In r chain <-> descends sample_runs (attempt "a" Interrupted 1 None) r.
Proof.
  destruct (attempt_chain_exact sample_runs (attempt "a" Interrupted 1 None) sample_ids)
    as (chain & E & _ & H & _); [by left|reflexivity|]. by exists chain.
Defined.

Lemma turns_are_answered_questions_witness :
  exists turns, collect_turns sample_runs "s" "z" = Some turns
    /\ turns = [{| t_created_at := 1; user := "what now?"; assistant := "b says" |}].
Proof.
  destruct (@turns_are_answered_questions Codec.codec sample_runs "s" "z" HistoryLimits_default sample_ids)
    as (turns & E & _). exists turns. split; [exact E|].
  vm_compute in E. by injection E as <-.
Defined.
