(* ===== verification/Approvals.v ===== *)
(** * Approvals: the persistent allowlist of an installed Hermes
    ([approvals.rs]).

    The [hermes] program is an argument of the operations: given its arguments
    it answers with its output, read as text, and may change the disk. *)
From Stdlib Require Import Lia.
From stdpp Require Import gmap.
From S2P Require Import Prelude Text Json Fs.

Inductive PolicySource : Type := InstallerManaged | ExternalUnmanaged.

Record ApprovalPolicy : Type := {
  ap_project_id : string;
  ap_runtime_ownership : string;
  ap_state : string;
  ap_approvals_mode : option bytes;
  ap_persistent_allowlist : list bytes;
  ap_persistent_allowlist_count : nat;
  ap_restart_required : bool;
  ap_source : PolicySource;
  ap_unavailable_reason : option string
}.

Record HermesCli : Type := { cli_binary : string; cli_home : string }.

(** [HermesCli::from_metadata]. *)
Definition from_metadata `{SerdeJson} (metadata_path : string) (n : gmap string Node) : option HermesCli :=
  match read n metadata_path with
  | Err _ => None
  | Ok text =>
      if negb (valid_utf8 text) then None
      else
        value ← from_str (of_chars text);
        binary ← get "hermes_cli" value ≫= as_str;
        home ← get "hermes_home" value ≫= as_str;
        if is_file n binary then Some {| cli_binary := binary; cli_home := home |} else None
  end.

(** ** Reading the rules *)

Definition ESC : Ascii.ascii := Ascii.ascii_of_N 27.
Definition QUOTE : Ascii.ascii := Ascii.ascii_of_N 34.

(** [skipping] inside an escape sequence, which ends with a letter. *)
Fixpoint plain_from (skipping : bool) (text : bytes) : bytes :=
  match text with
  | [] => []
  | c :: rest =>
      if skipping then plain_from (negb (is_ascii_alphabetic c)) rest
      else if char_eqb c ESC then plain_from true rest
      else c :: plain_from false rest
  end.
Definition plain (text : bytes) : bytes := plain_from false text.

Definition parse_entry (line : bytes) : option bytes :=
  match strip_prefix $"- " (trim line) with
  | None => None
  | Some entry =>
      let e := trim_matches (char_eqb QUOTE) (trim entry) in
      if bool_decide (e = []) then None else Some e
  end.
Definition parse_allowlist (output : bytes) : list bytes := omap parse_entry (lines (plain output)).

(** ** Rewriting the file *)

Definition is_key_line (line : bytes) : bool := starts_with $"command_allowlist:" (trim_start line).
Definition is_item_line (line : bytes) : bool := starts_with $"- " (trim_start line).

Fixpoint drop_items (ls : list bytes) : list bytes :=
  match ls with
  | [] => []
  | l :: rest => if is_item_line l then drop_items rest else ls
  end.
Definition allowlist_block (entries : list bytes) : list bytes :=
  $"command_allowlist:" :: List.map (fun e => $"- " ++ e) entries.

(** The loop over the lines; [None] when no block was found. *)
Fixpoint rewrite_lines (entries : list bytes) (ls : list bytes) : option (list bytes) :=
  match ls with
  | [] => None
  | l :: rest =>
      if is_key_line l then Some (allowlist_block entries ++ drop_items rest)
      else (fun out => l :: out) <$> rewrite_lines entries rest
  end.

Section Files.
Context `{Process}.

Definition rewrite_allowlist (path : string) (entries : list bytes) : M FsError Disk unit :=
  let! metadata := look (fun n => symlink_metadata n path) in
  match metadata with
  | None => fail (Io NotFound)
  | Some node =>
      if bool_decide (f_kind node = Symlink) then fail (Refused "is a symlink; refusing to write through it")
      else if negb (bool_decide (f_kind node = RegularFile)) then fail (Refused "is not a regular file")
      else
        let! original := look (fun n => read n path) in
        match original with
        | Err e => fail (Io e)
        | Ok body =>
            if negb (valid_utf8 body) then fail (Io IoFailed)
            else match rewrite_lines entries (lines body) with
                 | None => fail (Refused "no command_allowlist block found")
                 | Some out =>
                     let temp := with_extension path "asterism-tmp" in
                     write temp (unlines out) ;;;
                     set_permissions temp (f_mode node) ;;;
                     rename temp path
                 end
        end
  end.

Section Cli.
Context (hermes : list string -> M FsError Disk bytes).

Definition config_path : M FsError Disk string :=
  let! out := hermes ["config"; "path"]%string in ret (of_chars (trim out)).

(** Total: a failing program makes the policy [unavailable]. *)
Definition show (cli : bool) (project_id ownership : string) : M FsError Disk ApprovalPolicy :=
  if negb cli then
    ret {| ap_project_id := project_id; ap_runtime_ownership := ownership; ap_state := "unavailable";
           ap_approvals_mode := None; ap_persistent_allowlist := []; ap_persistent_allowlist_count := 0;
           ap_restart_required := false; ap_source := ExternalUnmanaged;
           ap_unavailable_reason := Some "this runtime was not provisioned by this Node's installer, so its configuration location is unknown and will not be guessed" |}
  else
    let! mode := ignore_errors (hermes ["config"; "get"; "approvals.mode"]%string) in
    let! listed := ignore_errors (hermes ["config"; "get"; "command_allowlist"]%string) in
    let mode := option_map (fun text => trim (plain text)) mode in
    let allowlist := match listed with Some text => parse_allowlist text | None => [] end in
    ret {| ap_project_id := project_id; ap_runtime_ownership := ownership;
           ap_state := match mode with Some _ => "available" | None => "unavailable" end;
           ap_approvals_mode := mode; ap_persistent_allowlist := allowlist;
           ap_persistent_allowlist_count := length allowlist;
           ap_restart_required := false; ap_source := InstallerManaged; ap_unavailable_reason := None |}.

Definition clear : M FsError Disk nat :=
  let! listed := hermes ["config"; "get"; "command_allowlist"]%string in
  let before := parse_allowlist listed in
  match before with
  | [] => ret 0%nat
  | _ => hermes ["config"; "unset"; "command_allowlist"]%string ;;; ret (length before)
  end.

Definition revoke (category : bytes) : M FsError Disk (list bytes) :=
  let! path := config_path in
  let! listed := hermes ["config"; "get"; "command_allowlist"]%string in
  let before := parse_allowlist listed in
  if negb (List.existsb (fun e => bool_decide (e = category)) before)
  then fail (Refused "no persistent approval category is configured")
  else
    let after := List.filter (fun e => negb (bool_decide (e = category))) before in
    match after with
    | [] => hermes ["config"; "unset"; "command_allowlist"]%string ;;; ret after
    | _ => rewrite_allowlist path after ;;; ret after
    end.
End Cli.
End Files.

(** ** Choices offered to the operator *)

Definition supported_choices (raw : option Value) : option Value :=
  items ← raw ≫= as_array;
  Some (VArray (List.filter (fun c => negb (match as_str c with
                                             | Some s => (s =? "always")%string
                                             | None => false
                                             end)) items)).

(** ** Facts *)

(** Nothing that would write a permanent rule is offered, and nothing else is
    taken away. *)
Lemma supported_choices_spec raw items :
  supported_choices raw = Some (VArray items) ->
  (forall v, In v items -> v <> VString "always")
  /\ exists all, raw = Some (VArray all)
       /\ forall v, In v all -> v <> VString "always" -> In v items.
Proof.
  unfold supported_choices. destruct raw as [[]|]; cbn; try done. intros [= <-]. split.
  - intros v [_ Hv]%filter_In ->. done.
  - eexists. split; [done|]. intros v Hv Hne. apply filter_In. split; [done|].
    destruct v; cbn; try done. destruct (String.eqb_spec s "always") as [->|]; done.
Qed.

Lemma rewrite_lines_spec entries ls out :
  rewrite_lines entries ls = Some out ->
  exists pre key items post,
    ls = pre ++ key :: items ++ post
    /\ out = pre ++ allowlist_block entries ++ post
    /\ (forall l, In l pre -> is_key_line l = false) /\ is_key_line key = true
    /\ (forall l, In l items -> is_item_line l = true)
    /\ match post with [] => True | l :: _ => is_item_line l = false end.
Proof.
  revert out. induction ls as [|l ls IH]; intros out; cbn [rewrite_lines]; [done|].
  destruct (is_key_line l) eqn:Ek.
  - intros [= <-]. exists [], l.
    assert (exists items, ls = items ++ drop_items ls /\ (forall x, In x items -> is_item_line x = true)
      /\ match drop_items ls with [] => True | x :: _ => is_item_line x = false end) as (items & E & Hi & Hp).
    { clear. induction ls as [|x ls (items & E & Hi & Hp)]; [by exists []|]. cbn [drop_items].
      destruct (is_item_line x) eqn:Ex; [|by exists []]. exists (x :: items). cbn. rewrite <- E.
      split; [done|]. split; [|done]. intros y [<-|Hy]; auto. }
    exists items, (drop_items ls). by rewrite <- E.
  - destruct (rewrite_lines entries ls) as [o|]; [|done]. intros [= <-].
    destruct (IH o eq_refl) as (pre & key & items & post & -> & -> & Hpre & Hk & Hi & Hp).
    exists (l :: pre), key, items, post. do 2 (split; [done|]). split; [|done]. intros x [<-|Hx]; auto.
Qed.

(** Entries that a list prints and reads back. *)
Definition clean_entry (e : bytes) : Prop :=
  e <> [] /\ trim e = e /\ trim_matches (char_eqb QUOTE) e = e
  /\ ~ In NL e /\ ~ In CR e /\ ~ In ESC e.

Lemma plain_no_escape s : ~ In ESC s -> plain s = s.
Proof.
  unfold plain. induction s as [|c s IH]; [done|]. intros Hn. cbn [plain_from].
  rewrite (proj2 (char_eqb_neq c ESC)) by (intros ->; apply Hn; by left). f_equal. apply IH.
  intros ?. apply Hn. by right.
Qed.

Lemma no_ws_head_trim e : no_ws_head false (trim e) /\ no_ws_head true (List.rev (trim e)).
Proof.
  split.
  - pose proof (trim_idem e) as Hi. rewrite <- Hi. unfold trim at 1, trim_end.
    destruct (trim_by_suffix true (List.rev (trim_start (trim e)))) as [p Hp].
    pose proof (trim_by_no_ws false (trim e)) as Hs. fold (trim_start (trim e)) in Hs.
    rewrite <- (rev_involutive (trim_start (trim e))), Hp, rev_app_distr in Hs. by apply no_ws_prefix in Hs.
  - unfold trim, trim_end. rewrite rev_involutive. apply trim_by_no_ws.
Qed.

Lemma trim_of_ends s : no_ws_head false s -> no_ws_head true (List.rev s) -> trim s = s.
Proof.
  intros H1 H2. unfold trim, trim_start. rewrite (trim_by_fixed false) by done. unfold trim_end.
  rewrite (trim_by_fixed true) by done. apply rev_involutive.
Qed.

(** An item line is its own trimmed form. *)
Lemma no_ws_snoc s a : s <> [] -> plain_char a = true -> no_ws_head true s -> no_ws_head true (s ++ [SP; a]).
Proof.
  intros Hne Ha. destruct s as [|x [|y [|z s]]]; [done| | |done]; cbn [app no_ws_head].
  - intros [Hx _]. split; [done|]. split; [|].
    + unfold ws2. change (code SP) with 32%N. reflexivity.
    + by destruct (plain_not_ws a SP x Ha) as (_ & _ & _ & -> & _).
  - intros (Hx & Hy & _). split; [done|]. split; [done|].
    unfold ws3. change (code SP) with 32%N. reflexivity.
Qed.

Lemma trim_item e : clean_entry e -> trim ($"- " ++ e) = $"- " ++ e.
Proof.
  intros (Hne & Ht & _). apply trim_of_ends.
  - cbn [app]. pose proof (trim_by_head false (Ascii.ascii_of_N 45) (SP :: e) eq_refl) as E.
    change ($"- ") with [Ascii.ascii_of_N 45; SP]. cbn [app]. rewrite <- E. apply trim_by_no_ws.
  - rewrite rev_app_distr. change (List.rev $"- ") with [SP; Ascii.ascii_of_N 45].
    apply no_ws_snoc; [|done|].
    + intros E. apply Hne. by rewrite <- (rev_involutive e), E.
    + rewrite <- Ht. apply no_ws_head_trim.
Qed.

Lemma parse_item e : clean_entry e -> parse_entry ($"- " ++ e) = Some e.
Proof.
  intros He. unfold parse_entry. rewrite trim_item, strip_prefix_app by done.
  destruct He as (Hne & -> & -> & _). by rewrite bool_decide_eq_false_2.
Qed.

(** The block that is written lists exactly the entries. *)
Lemma allowlist_roundtrip entries :
  Forall clean_entry entries ->
  parse_allowlist (unlines (allowlist_block entries)) = entries.
Proof.
  intros He. rewrite List.Forall_forall in He. unfold parse_allowlist.
  assert (forall l, In l (allowlist_block entries) -> ~ In NL l /\ ~ In CR l /\ ~ In ESC l) as Hl.
  { intros l [<-|Hl]; [repeat split; apply not_in_chars; reflexivity|].
    apply in_map_iff in Hl as (e & <- & Hin). destruct (He e Hin) as (_ & _ & _ & H1 & H2 & H3).
    repeat split; rewrite in_app_iff; (intros [[E|[E|[]]]|?]; [discriminate E..|done]). }
  rewrite plain_no_escape.
  - rewrite lines_unlines by (intros l Hin; by destruct (Hl l Hin) as (? & ? & _)).
    unfold allowlist_block. cbn [omap list_omap].
    assert (parse_entry $"command_allowlist:" = None) as -> by reflexivity. clear Hl.
    induction entries as [|e l IH]; [done|]. cbn [List.map omap list_omap].
    rewrite parse_item by (apply He; by left). f_equal. apply IH. intros x Hx. apply He. by right.
  - intros [E|(l & Hin & Hc)]%In_unlines; [done|]. by destruct (Hl l Hin) as (_ & _ & ?).
Qed.

(** What a rewrite does to the text of the file. *)
Definition replaces_block (entries : list bytes) (old new : bytes) : Prop :=
  exists pre key items post,
    lines old = pre ++ key :: items ++ post
    /\ new = unlines (pre ++ allowlist_block entries ++ post)
    /\ (forall l, In l pre -> is_key_line l = false) /\ is_key_line key = true
    /\ (forall l, In l items -> is_item_line l = true)
    /\ match post with [] => True | l :: _ => is_item_line l = false end.

Section RewriteFacts.
Context `{Process} (path : string).
Let temp := with_extension path "asterism-tmp".

Lemma rewrite_leaves entries o :
  temp <> path ->
  leaves (untouched path temp o) (rewrite_allowlist path entries)
    (fun r n => match r with
                | Ok _ => exists x x', o = Some x /\ n !! path = Some x' /\ f_kind x = RegularFile
                    /\ f_kind x' = RegularFile /\ f_mode x' = f_mode x
                    /\ replaces_block entries (f_body x) (f_body x')
                | Err _ => n !! path = o
                end).
Proof.
  intros Ht. unfold rewrite_allowlist.
  apply leaves_bind with (Q1 := fun m n => m = o /\ untouched path temp o n).
  { apply leaves_look. intros n Hn. split; [apply Hn|done]. }
  intros m. destruct o as [x|].
  2: { destruct m; [intros d [? _]; done|]. apply leaves_fail. by intros n [_ [Hn _]]. }
  destruct m as [node|]; [|intros d [? _]; done].
  case_bool_decide as Hs; [apply leaves_fail; by intros n [_ [Hn _]]|].
  case_bool_decide as Hr; cbn [negb]; [|apply leaves_fail; by intros n [_ [Hn _]]].
  apply leaves_bind with (Q1 := fun r n => node = x /\ r = Ok (f_body x) /\ untouched path temp (Some x) n).
  { apply leaves_look. intros n [[= ->] Hn]. split; [done|]. split; [|done]. unfold read.
    destruct Hn as [Hn _]. rewrite (resolve_file _ _ _ x), Hn by done. by rewrite bool_decide_eq_true_2. }
  intros [body|e]; [|intros d (_ & ? & _); done].
  destruct (decide (body = f_body x)) as [->|]; [|intros d (_ & [= ?] & _); done].
  destruct (valid_utf8 (f_body x)); cbn [negb]; [|apply leaves_fail; by intros n (_ & _ & [Hn _])].
  destruct (rewrite_lines entries (lines (f_body x))) as [out|] eqn:E;
    [|apply leaves_fail; by intros n (_ & _ & [Hn _])].
  cbv zeta. fold temp. destruct (decide (node = x)) as [->|]; [|intros d (? & _); done].
  eapply leaves_mono; [apply (replace_leaves path temp Ht (Some x))|by intros n (_ & _ & Hn)|].
  - intros y [= <-]. by rewrite Hr.
  - intros [u|e] n; [|done]. intros (x' & Hx & Hk & Hm & Hb). exists x, x'. repeat (split; [done|]).
    destruct (rewrite_lines_spec _ _ _ E) as (pre & key & items & post & E1 & -> & Hrest).
    exists pre, key, items, post. by rewrite Hb.
Qed.
End RewriteFacts.

(** Revoking a rule: if it succeeds and rules are left, the file at the path
    Hermes named has the same mode and the same lines before and after the
    [command_allowlist] block, which now lists the remaining rules, all but the
    revoked one, in their order.  If it fails, or the node stops anywhere in
    between, the file is as it was. *)
Theorem revoke_replaces_one_block `{Process} hermes category path listed d :
  let temp := with_extension path "asterism-tmp" in
  hermes ["config"; "path"]%string d = (Ok (chars path), d) -> trim (chars path) = chars path ->
  hermes ["config"; "get"; "command_allowlist"]%string d = (Ok listed, d) ->
  List.filter (fun e => negb (bool_decide (e = category))) (parse_allowlist listed) <> [] ->
  temp <> path -> (forall x, nodes d !! temp = Some x -> f_kind x = RegularFile \/ f_kind x = Directory) ->
  let d' := snd (revoke hermes category d) in
  match fst (revoke hermes category d) with
  | Ok after =>
      ~ In category after
      /\ (forall e, e <> category -> In e after <-> In e (parse_allowlist listed))
      /\ exists x x', nodes d !! path = Some x /\ nodes d' !! path = Some x'
           /\ f_mode x' = f_mode x /\ replaces_block after (f_body x) (f_body x')
  | Err _ => nodes d' !! path = nodes d !! path
  end.
Proof.
  intros temp Hp Htp Hg Hne Ht Hs. cbv zeta. unfold revoke, config_path, bind. rewrite Hp. cbn [ret].
  rewrite Hg, Htp, chars_of_chars. destruct (List.existsb _ _); cbn [negb]; [|done].
  set (after := List.filter _ _) in *. destruct after as [|e0 rest] eqn:Ea; [done|].
  pose proof (rewrite_leaves path (e0 :: rest) (nodes d !! path) Ht d (conj eq_refl Hs)) as Hl.
  destruct (rewrite_allowlist path (e0 :: rest) d) as [[[]|e] d']; cbn [fst snd] in Hl |- *; [|done].
  destruct Hl as (x & x' & E1 & E2 & _ & _ & E3 & E4). rewrite <- Ea. unfold after.
  split; [intros [_ Hc]%filter_In; by rewrite bool_decide_eq_true_2 in Hc|]. split.
  - intros e Hce. rewrite filter_In, bool_decide_eq_false_2 by done. cbn. tauto.
  - exists x, x'. fold after. by rewrite Ea.
Qed.

(** The text outside the block is kept line by line, not byte by byte: a
    carriage return before a line end is lost, and so are the quotes of the
    entries that stay. *)
Lemma rewrite_normalises_lines :
  let text := $"a: 1" ++ [CR; NL] ++ $"command_allowlist:" ++ [CR; NL] ++ $"- x" ++ [CR; NL]
              ++ $"- " ++ [QUOTE] ++ $"y: z" ++ [QUOTE; CR; NL] in
  parse_allowlist text = [$"x"; $"y: z"]
  /\ unlines <$> rewrite_lines [$"y: z"] (lines text)
     = Some ($"a: 1" ++ [NL] ++ $"command_allowlist:" ++ [NL] ++ $"- y: z" ++ [NL]).
Proof. vm_compute. done. Qed.

Module ApprovalSamples.
#[export] Instance process : Process := {| euid := 7; umask := 0x12 |}.
Definition config : bytes :=
  unlines [$"model: m"; $"command_allowlist:"; $"- recursive delete"; $"- git push"; $"approvals:"; $"  mode: on"].
Definition node : Node := {| f_kind := RegularFile; f_owner := 7; f_mode := 0x180; f_body := config |}.
Definition disk : Disk := {| nodes := <["/h/config.yaml"%string := node]> ∅; plan := [] |}.
Definition listed : bytes := unlines [$"- recursive delete"; $"- git push"].
Definition hermes (args : list string) : M FsError Disk bytes :=
  match args with
  | ["config"; "path"]%string => ret $"/h/config.yaml"
  | ["config"; "get"; _]%string => ret listed
  | _ => fail (Io IoFailed)
  end.
End ApprovalSamples.
Import ApprovalSamples.

Lemma revoke_replaces_one_block_witness :
  let r := revoke hermes $"recursive delete" disk in
  fst r = Ok [$"git push"]
  /\ exists x x', nodes disk !! "/h/config.yaml"%string = Some x
       /\ nodes (snd r) !! "/h/config.yaml"%string = Some x'
       /\ f_mode x' = f_mode x /\ replaces_block [$"git push"] (f_body x) (f_body x').
Proof.
  pose proof (revoke_replaces_one_block hermes $"recursive delete" "/h/config.yaml"
    listed disk) as H. cbv zeta in H.
  assert (fst (revoke hermes $"recursive delete" disk) = Ok [$"git push"]) as E
    by (vm_compute; reflexivity).
  rewrite E in H. cbv zeta. split; [exact E|]. destruct H as (_ & _ & Hx).
  - reflexivity.
  - vm_compute. reflexivity.
  - reflexivity.
  - vm_compute. discriminate.
  - vm_compute. discriminate.
  - intros x Hx. vm_compute in Hx. discriminate Hx.
  - exact Hx.
Defined.
