(* ===== verification/Runner.v ===== *)
(** * Runner: executing a run and reconciling a project ([runner.rs], and the
    client calls of [hermes.rs] it makes).

    A worker shares the registry with the rest of the node.  Before each of its
    steps the other tasks may have made any registry calls and time may have
    passed: this is the [Tick] the environment supplies for the step.  Hermes
    answers each call as it likes, depending on the calls made so far.  The
    closure that handles events mutates two variables of the worker, which are
    fields of the state because they keep their values when it fails. *)
From Stdlib Require Import Lia.
From S2P Require Import Prelude Text Json RunState Redact Schema Registry Remote Inventory.
From S2P Require Import System Sse RunLock Attachments ChatHistory Approvals.
Import chathistory.

Definition ERROR_RUN_CONFLICT : string := "run_conflict".
Definition ERROR_SUBMISSION_FAILED : string := "submission_failed".
Definition ERROR_STREAM_BROKEN : string := "stream_broken".

(** Milliseconds. *)
Definition STREAM_RESUME_DELAY : Z := 1000.
Definition STREAM_IDLE_BUDGET : Z := 900 * 1000.

Definition EVENT_RUN_ACCEPTED : string := "asterism.run.accepted".
Definition EVENT_RUN_SUBMITTED : string := "asterism.run.submitted".
Definition EVENT_RUN_RESUMED : string := "asterism.run.resumed".
Definition EVENT_RUN_TERMINAL : string := "asterism.run.terminal".
Definition EVENT_RECONCILED : string := "asterism.reconciled".
Definition EVENT_RECOVERING : string := "asterism.run.recovering".
Definition EVENT_APPROVAL_AUTO_RESOLVED : string := "approval.auto_resolved".
Definition AUTO_APPROVAL_CHOICE : string := "once".
Definition HISTORY_SCAN_LIMIT : Z := 200.

(** ** Pure decisions *)

Record NormalizedEvent : Type := {
  ne_event_type : string;
  ne_payload : Value;
  ne_raw : Value;
  ne_dedupe_key : string
}.

Definition normalize_event `{SerdeJson} (event : SseEvent) : NormalizedEvent :=
  let parsed := json_data event in
  let payload := match parsed with
                 | Some v => v
                 | None => object [("text", VString (of_chars (sse_data event)))]%string
                 end in
  let event_type := match sse_event event with
                    | Some name => of_chars name
                    | None => default "unknown"%string (get "event" payload ≫= as_str)
                    end in
  let timestamp := match get "timestamp" payload with Some v => to_string v | None => ""%string end in
  {| ne_event_type := event_type; ne_payload := payload;
     ne_raw := default (VString (of_chars (sse_data event))) parsed;
     ne_dedupe_key := event_type +:+ ":" +:+ timestamp +:+ ":" +:+ fingerprint_value payload |}.

Definition status_update_for (event_type : string) (current : RunStatus) : option RunStatus :=
  if (event_type =? "approval.request")%string then Some WaitingForApproval
  else if bool_decide (current = WaitingForApproval) && negb (str_starts_with "approval." event_type)
  then Some Running
  else None.

Definition failure_reason (status_value : Value) (from_event : option string) : option string :=
  match get "error" status_value ≫= as_str with
  | Some message =>
      if negb (bool_decide (trim (chars message) = [])) then Some message
      else match from_event with
           | Some m => let t := trim (chars m) in if bool_decide (t = []) then None else Some (of_chars t)
           | None => None
           end
  | None => match from_event with
            | Some m => let t := trim (chars m) in if bool_decide (t = []) then None else Some (of_chars t)
            | None => None
            end
  end.

Definition status_of (v : Value) : option string := get "status" v ≫= as_str.

(** [{:?}] of a [str], but for characters beyond ASCII, which are kept. *)
Definition debug_char (c : Ascii.ascii) : Text.bytes :=
  let n := code c in
  if (n =? 34)%N || (n =? 92)%N then [Ascii.ascii_of_N 92; c]
  else if (n =? 9)%N then $"\t" else if (n =? 10)%N then $"\n" else if (n =? 13)%N then $"\r"
  else if (n =? 0)%N then $"\0"
  else if between 1 31 c || (n =? 127)%N
  then $"\u{" ++ drop_while (char_eqb (Ascii.ascii_of_N 48)) (hex_fixed 2 (Z.of_N n)) ++ $"}"
  else [c].
Definition debug_str (s : string) : string :=
  let q := Ascii.ascii_of_N 34 in of_chars (q :: List.concat (List.map debug_char (chars s)) ++ [q]).
Definition NEVER_SUBMITTED : string := "run was never submitted to Hermes and no worker claimed it".
Definition CUT_SHORT : string :=
  "Hermes no longer knows this run; events were journalled but no terminal status was observed".
Definition NO_EVIDENCE : string := "Hermes no longer knows this run and no events were ever journalled".

Definition reconcile_decision (current : RunStatus) (backend_status : option string)
    (journalled_events : Z) : RunStatus * string :=
  match backend_status with
  | Some st => (from_hermes_status st,
                "Hermes still reports this run as " +:+ debug_str st +:+ "; adopted its status")
  | None =>
      if bool_decide (current = Created) then (Lost, NEVER_SUBMITTED)
      else if 0 <? journalled_events then (Interrupted, CUT_SHORT)
      else (Lost, NO_EVIDENCE)
  end.

(** ** The state a worker acts on *)

Record StartRunRequest : Type := {
  sr_input : Value;
  sr_session_id : option string;
  sr_instructions : option string;
  sr_conversation_history : list HistoryMessage
}.
Record StartRunResponse : Type := { sp_run_id : string; sp_status : string }.

(** The log of calls notes who held the project's lock when a run was submitted. *)
Inductive HermesCall : Type :=
| StatusCall (id : string)
| StartCall (request : StartRunRequest) (holder : option nat)
| StreamCall (id : string)
| ResolveCall (id choice : string) (resolve_all : bool).

(** The backend: its answers to the client, given the calls before.  [None] is
    "not found"; an [Err] is anything else that is not an answer.  A stream is
    the events it delivers and how it broke off, if it did. *)
Class Hermes : Type := {
  status_reply : list HermesCall -> string -> Result string (option Value);
  start_reply : list HermesCall -> StartRunRequest -> Result string StartRunResponse;
  stream_reply : list HermesCall -> string -> list SseEvent * option string;
  resolve_reply : list HermesCall -> string -> string -> bool -> Result string Value
}.

(** What happens around one step of the worker. *)
Record Tick : Type := { wall : Clock3; passes : Z; meanwhile : list Call }.

Record PendingAutoResolution : Type := {
  pa_run_id : string;
  pa_hermes_run_id : string;
  request_seq : Z;
  pa_enabled_by : option string
}.

Record World : Type := {
  w_db : Db;
  w_files : ProjectFiles;
  w_calls : list HermesCall;
  w_spawned : list PendingAutoResolution;
  w_step : nat;
  w_mono : Z;
  observed_status : RunStatus;
  failure_message : option string
}.

Definition on_db (f : Db -> Db) (w : World) : World :=
  {| w_db := f (w_db w); w_files := w_files w; w_calls := w_calls w; w_spawned := w_spawned w;
     w_step := w_step w; w_mono := w_mono w; observed_status := observed_status w;
     failure_message := failure_message w |}.
Definition on_files (f : ProjectFiles -> ProjectFiles) (w : World) : World :=
  {| w_db := w_db w; w_files := f (w_files w); w_calls := w_calls w; w_spawned := w_spawned w;
     w_step := w_step w; w_mono := w_mono w; observed_status := observed_status w;
     failure_message := failure_message w |}.
Definition on_calls (f : list HermesCall -> list HermesCall) (w : World) : World :=
  {| w_db := w_db w; w_files := w_files w; w_calls := f (w_calls w); w_spawned := w_spawned w;
     w_step := w_step w; w_mono := w_mono w; observed_status := observed_status w;
     failure_message := failure_message w |}.
Definition spawn (p : PendingAutoResolution) (w : World) : World :=
  {| w_db := w_db w; w_files := w_files w; w_calls := w_calls w; w_spawned := w_spawned w ++ [p];
     w_step := w_step w; w_mono := w_mono w; observed_status := observed_status w;
     failure_message := failure_message w |}.
Definition set_observed (st : RunStatus) (w : World) : World :=
  {| w_db := w_db w; w_files := w_files w; w_calls := w_calls w; w_spawned := w_spawned w;
     w_step := w_step w; w_mono := w_mono w; observed_status := st;
     failure_message := failure_message w |}.
Definition set_failure (m : option string) (w : World) : World :=
  {| w_db := w_db w; w_files := w_files w; w_calls := w_calls w; w_spawned := w_spawned w;
     w_step := w_step w; w_mono := w_mono w; observed_status := observed_status w;
     failure_message := m |}.
Definition advance (ms : Z) (w : World) : World :=
  {| w_db := w_db w; w_files := w_files w; w_calls := w_calls w; w_spawned := w_spawned w;
     w_step := w_step w; w_mono := w_mono w + ms; observed_status := observed_status w;
     failure_message := failure_message w |}.
Definition next_step (w : World) : World :=
  {| w_db := w_db w; w_files := w_files w; w_calls := w_calls w; w_spawned := w_spawned w;
     w_step := S (w_step w); w_mono := w_mono w; observed_status := observed_status w;
     failure_message := failure_message w |}.

Inductive RunnerError : Type :=
| RegistryFailed (e : RegistryError)
| BackendFailed (text : string)
| NoSuchRun (run_id : string)
| VanishedRun (run_id : string)
| BadStatus (text : string)
| ClientRefused (text : string)
| BadAttachments (e : attachments.AttachmentError)
| SidecarUnreadable (text : string)
| HistoryUnbounded.

Record WorkerContext : Type := {
  x_project_id : string;
  x_run_id : string;
  x_base_url : string;
  x_api_key : string;
  x_history_limits : HistoryLimits
}.

(** [HermesClient::new]. *)
Definition HermesClient_new (base_url api_key : string) : Result RunnerError unit :=
  let base_url := of_chars (trim_end_matches (char_eqb (Ascii.ascii_of_N 47)) (chars base_url)) in
  if negb (str_starts_with "http://127.0.0.1:" base_url) && negb (str_starts_with "http://localhost:" base_url)
  then Err (ClientRefused "Phase A only permits a loopback Hermes API URL")
  else if len api_key <? 16 then Err (ClientRefused "Hermes API key must be at least 16 characters")
  else Ok tt.

(** A [Result] a program handles instead of propagating it. *)
Definition attempt_of {E S A} (m : M E S A) : M E S (Result E A) :=
  fun s => let (r, s') := m s in (Ok r, s').

Section Worker.
Context `{SerdeJson} `{Hermes}.
(** The environment, and how an error of the registry reads. *)
Context (env : nat -> Tick) (describe : RegistryError -> string).

Definition error_text (e : RunnerError) : string :=
  match e with
  | RegistryFailed e => describe e
  | BackendFailed t | BadStatus t | ClientRefused t | SidecarUnreadable t => t
  | NoSuchRun id => "unknown run " +:+ id
  | VanishedRun id => "run " +:+ id +:+ " vanished while finalizing"
  | BadAttachments _ => "attachment refused"
  | HistoryUnbounded => "history"
  end.

(** One step: the others act, time passes, the clock is read. *)
Definition tick : M RunnerError World Clock3 :=
  fun w =>
    let t := env (w_step w) in
    (Ok (wall t), next_step (advance (passes t) (on_db (performed (meanwhile t)) w))).
Definition registry {A} (m : Clock3 -> M RegistryError Db A) : M RunnerError World A :=
  let! t := tick in
  fun w => match m t (w_db w) with
           | (Ok a, db') => (Ok a, on_db (fun _ => db') w)
           | (Err e, db') => (Err (RegistryFailed e), on_db (fun _ => db') w)
           end.
Definition read_registry {A} (f : Db -> A) : M RunnerError World A :=
  let! _ := tick in gets (fun w => f (w_db w)).
Definition hermes_call (c : HermesCall) : M RunnerError World (list HermesCall) :=
  let! _ := tick in
  let! before := gets w_calls in
  modify (on_calls (fun l => l ++ [c])) ;;;
  ret before.

Definition try_run_status (id : string) : M RunnerError World (option Value) :=
  let! before := hermes_call (StatusCall id) in
  match status_reply before id with
  | Ok v => ret v
  | Err text => fail (BackendFailed text)
  end.
Definition start_run (request : StartRunRequest) : M RunnerError World StartRunResponse :=
  let! holder := gets (fun w => lock_holder (w_files w)) in
  let! before := hermes_call (StartCall request holder) in
  match start_reply before request with
  | Ok r => ret r
  | Err text => fail (BackendFailed text)
  end.
Definition resolve_approval (id choice : string) (all : bool) : M RunnerError World Value :=
  let! before := hermes_call (ResolveCall id choice all) in
  match resolve_reply before id choice all with
  | Ok v => ret v
  | Err text => fail (BackendFailed text)
  end.

(** ** Ending a run *)

Definition insert_status (st : RunStatus) (payload : Value) : Value :=
  index_set "status" (VString (RunStatus.as_str st)) payload.

Definition finalize (id : string) (st : RunStatus) (u : RunUpdate) (payload : Value) :
    M RunnerError World RunRecord :=
  registry (append_event id (JournalEvent_asterism EVENT_RUN_TERMINAL (insert_status st payload)) (Some u)) ;;;
  let! found := read_registry (run id) in
  match found with
  | Some r => ret r
  | None => fail (VanishedRun id)
  end.

(** [Failed] with an error code, its text and the reason. *)
Definition failed_with (st : RunStatus) (code message reason : string) : RunUpdate :=
  RunUpdate.with_terminal_reason reason (RunUpdate.with_error code message (RunUpdate.status st)).
Definition error_payload (code message : string) : Value :=
  object [("error", VString code); ("message", VString message)]%string.

Definition refuse_conflict (id : string) (message : string) : M RunnerError World RunRecord :=
  finalize id Failed (failed_with Failed ERROR_RUN_CONFLICT message "refused by single-flight admission")
    (error_payload ERROR_RUN_CONFLICT message).

(** ** Following a run *)

Section Follow.
Context (ctx : WorkerContext) (hermes_run_id : string).

(** The part of the closure after an [approval.request] was journalled. *)
Definition on_approval_request (seq : Z) (payload : Value) : M RunnerError World unit :=
  registry (fun t => record_approval_request (x_run_id ctx) seq (get "command" payload ≫= as_str)
                       (supported_choices (get "choices" payload)) (t_event t)) ;;;
  let! state := registry (fun _ => query (run_approval_policy (x_run_id ctx))) in
  if RunApprovalPolicy.bypasses_approval (policy state) then
    let! claimed := registry (fun t => record_approval_decision (x_run_id ctx) seq AUTO_APPROVAL_CHOICE (t_event t)) in
    if claimed : bool then
      modify (spawn {| pa_run_id := x_run_id ctx; pa_hermes_run_id := hermes_run_id;
                       request_seq := seq; pa_enabled_by := enabled_by state |})
    else ret tt
  else ret tt.

Definition on_event (event : SseEvent) : M RunnerError World unit :=
  let n := normalize_event event in
  let! observed := gets observed_status in
  let update := status_update_for (ne_event_type n) observed in
  modify (fun w => match update with Some st => set_observed st w | None => w end) ;;;
  let! outcome := registry (append_event (x_run_id ctx)
    {| j_event_type := ne_event_type n; j_source := SOURCE_HERMES; j_payload := ne_payload n;
       j_raw := Some (ne_raw n); j_dedupe_key := Some (ne_dedupe_key n) |}
    (RunUpdate.status <$> update)) in
  modify (fun w => if (ne_event_type n =? "run.failed")%string then
                     match get "error" (ne_payload n) ≫= as_str with
                     | Some message => set_failure (Some message) w
                     | None => w
                     end
                   else w) ;;;
  if (ne_event_type n =? "approval.request")%string
  then on_approval_request (outcome_seq outcome) (ne_payload n)
  else ret tt.

Fixpoint deliver (events : list SseEvent) : M RunnerError World unit :=
  match events with
  | [] => ret tt
  | e :: rest => on_event e ;;; deliver rest
  end.

Definition stream_events : M RunnerError World unit :=
  let! before := hermes_call (StreamCall hermes_run_id) in
  let (events, broken) := stream_reply before hermes_run_id in
  deliver events ;;;
  match broken with
  | Some text => fail (BackendFailed text)
  | None => ret tt
  end.

Definition current_seq : M RunnerError World Z :=
  read_registry (fun db => match run (x_run_id ctx) db with Some r => last_event_seq r | None => 0 end).

Definition terminal_update (st : RunStatus) (v : Value) (failure : option string) : RunUpdate :=
  let u := RunUpdate.with_terminal_reason "terminal status reported by Hermes"
             (RunUpdate.with_result v (RunUpdate.status st)) in
  if bool_decide (st = Failed) then
    match failure_reason v failure with
    | Some message => RunUpdate.with_error "hermes_run_failed" message u
    | None => u
    end
  else u.

(** What one round of the loop decides: [None] is to go round again. *)
Definition round (last_progress last_seq : Z) (last_error : option string) :
    M RunnerError World (Result (Z * Z * option string) (Result RunnerError RunRecord)) :=
  let! streamed := attempt_of stream_events in
  let last_error := match streamed with Err e => Some (error_text e) | Ok _ => last_error end in
  let! replied := attempt_of (try_run_status hermes_run_id) in
  match match replied with Ok (Some v) => Some v | _ => None end with
  | None =>
      let message := default "Hermes no longer knows this run"%string last_error in
      let! record := attempt_of (finalize (x_run_id ctx) Interrupted
        (failed_with Interrupted ERROR_STREAM_BROKEN message "Hermes lost the run before a terminal status")
        (error_payload ERROR_STREAM_BROKEN message)) in
      ret (Ok record)
  | Some v =>
      let st := match status_of v with Some s => from_hermes_status s | None => Interrupted end in
      if RunStatus.is_terminal st then
        let! failure := gets failure_message in
        let! record := attempt_of (finalize (x_run_id ctx) st (terminal_update st v failure)
          (object [("hermes_status", default VNull (get "status" v))]%string)) in
        ret (Ok record)
      else
        let! seq := current_seq in
        let! now := gets w_mono in
        let last_progress := if negb (seq =? last_seq) then now else last_progress in
        if STREAM_IDLE_BUDGET <=? now - last_progress then
          let message := "no new events for 900s while Hermes still reported the run as active"%string in
          let! record := attempt_of (finalize (x_run_id ctx) Interrupted
            (failed_with Interrupted ERROR_STREAM_BROKEN message
               "event stream stalled while the run was still active")
            (error_payload ERROR_STREAM_BROKEN message)) in
          ret (Ok record)
        else
          modify (advance STREAM_RESUME_DELAY) ;;;
          ret (Err (last_progress, seq, last_error))
  end.

(** [loop], with a number of rounds; [None] when they are used up. *)
Fixpoint follow_rounds (rounds : nat) (last_progress last_seq : Z) (last_error : option string) :
    M RunnerError World (option (Result RunnerError RunRecord)) :=
  match rounds with
  | O => ret None
  | S rounds' =>
      let! r := round last_progress last_seq last_error in
      match r with
      | Ok record => ret (Some record)
      | Err (last_progress, last_seq, last_error) =>
          follow_rounds rounds' last_progress last_seq last_error
      end
  end.

Definition follow_to_terminal (rounds : nat) : M RunnerError World (option RunRecord) :=
  modify (set_observed Running) ;;; modify (set_failure None) ;;;
  let! started := gets w_mono in
  let! seq := current_seq in
  let! r := follow_rounds rounds started seq None in
  match r with
  | None => ret None
  | Some record =>
      modify (on_files clear_active_run) ;;;
      modify (on_files clear_active_run) ;;;
      let! rec := lift record in
      ret (Some rec)
  end.
End Follow.

(** ** Executing a run *)

Section Execute.
Context (ctx : WorkerContext) (rounds : nat).

(** The history of a run with a session; omitted turns are journalled. *)
Definition session_history (r : RunRecord) : M RunnerError World (list HistoryMessage) :=
  match session_id r with
  | None => ret []
  | Some session =>
      let! recent := read_registry (list_runs (project_id r) HISTORY_SCAN_LIMIT) in
      match build recent session (run_id r) (x_history_limits ctx) with
      | None => fail HistoryUnbounded
      | Some built =>
          (if truncated built then
             registry (append_event (x_run_id ctx)
               {| j_event_type := "conversation.history_truncated"; j_source := SOURCE_ASTERISM;
                  j_payload := object
                    [("omitted_turns", VNumber (PosInt (Z.of_nat (omitted_turns built))));
                     ("sent_messages", VNumber (PosInt (Z.of_nat (length (messages built)))));
                     ("sent_bytes", VNumber (PosInt (Z.of_nat (chathistory.bytes built))));
                     ("max_turns", VNumber (PosInt (Z.of_nat (max_turns (x_history_limits ctx)))));
                     ("max_bytes", VNumber (PosInt (Z.of_nat (max_bytes (x_history_limits ctx)))))]%string;
                  j_raw := None; j_dedupe_key := None |} None) ;;; ret tt
           else ret tt) ;;;
          ret (messages built)
      end
  end.

(** From acceptance to the accepted submission; [Err] is the record of a run
    Hermes refused. *)
Definition submit (r : RunRecord) : M RunnerError World (Result RunRecord string) :=
  registry (append_event (x_run_id ctx)
    (JournalEvent_asterism EVENT_RUN_ACCEPTED (object [("project_id", VString (x_project_id ctx))]%string))
    (Some (RunUpdate.status Starting))) ;;;
  let input_text := default ""%string (get "input" (request_payload r) ≫= as_str) in
  match attachments.parse (get "attachments" (request_payload r)) with
  | Err e => fail (BadAttachments e)
  | Ok images =>
      let input := attachments.hermes_input input_text images in
      let instructions := get "instructions" (request_payload r) ≫= as_str in
      let! history := session_history r in
      let! response := attempt_of (start_run
        {| sr_input := input; sr_session_id := session_id r; sr_instructions := instructions;
           sr_conversation_history := history |}) in
      match response with
      | Err e =>
          let message := error_text e in
          modify (on_files clear_active_run) ;;;
          let! record := finalize (x_run_id ctx) Failed
            (failed_with Failed ERROR_SUBMISSION_FAILED message "Hermes rejected the submission")
            (error_payload ERROR_SUBMISSION_FAILED message) in
          ret (Err record)
      | Ok response =>
          let id := sp_run_id response in
          registry (append_event (x_run_id ctx)
            (JournalEvent_asterism EVENT_RUN_SUBMITTED
               (object [("hermes_run_id", VString id); ("hermes_status", VString (sp_status response))]%string))
            (Some (RunUpdate.with_hermes_run_id id (RunUpdate.status Running)))) ;;;
          let! t := tick in
          modify (on_files (record_active_run
            {| ac_run_id := id; ac_session_id := session_id r; ac_started_at_unix := t_event t / 1000 |})) ;;;
          ret (Ok id)
      end
  end.

(** Whether a recorded run stands in the way. *)
Definition admission : M RunnerError World (option RunConflict) :=
  let! files := gets w_files in
  match read_active_run files with
  | Err e => fail (SidecarUnreadable e)
  | Ok None => ret None
  | Ok (Some recorded) =>
      let! reply := try_run_status (ac_run_id recorded) in
      let decision := classify_recorded_run (Some recorded) (reply ≫= status_of) in
      match conflict_from_decision (x_project_id ctx) decision with
      | Some conflict => ret (Some conflict)
      | None => modify (on_files clear_active_run) ;;; ret None
      end
  end.

(** [execute_run] once it holds the lock; the run is the row read before. *)
Definition execute_locked (r : RunRecord) : M RunnerError World (option RunRecord) :=
  let! _ := lift (HermesClient_new (x_base_url ctx) (x_api_key ctx)) in
  let! conflict := admission in
  match conflict with
  | Some c => let! rec := refuse_conflict (x_run_id ctx) (conflict_text c) in ret (Some rec)
  | None =>
      match hermes_run_id r with
      | Some id =>
          registry (append_event (x_run_id ctx)
            (JournalEvent_asterism EVENT_RUN_RESUMED
               (object [("hermes_run_id", VString id);
                        ("resumed_from_seq", VNumber (PosInt (last_event_seq r)))]%string)) None) ;;;
          follow_to_terminal ctx id rounds
      | None =>
          let! submitted := submit r in
          match submitted with
          | Err record => ret (Some record)
          | Ok id => follow_to_terminal ctx id rounds
          end
      end
  end.

(** The lock is dropped, and with it released, on every way out.  [handle] is
    the open file description of this worker. *)
Definition execute_run (handle : nat) : M RunnerError World (option RunRecord) :=
  let! found := read_registry (run (x_run_id ctx)) in
  match found with
  | None => fail (NoSuchRun (x_run_id ctx))
  | Some r =>
      let! files := gets w_files in
      match try_lock (x_project_id ctx) handle files with
      | (Err conflict, _) =>
          let! rec := refuse_conflict (x_run_id ctx) (conflict_text conflict) in ret (Some rec)
      | (Ok _, locked) =>
          modify (on_files (fun _ => locked)) ;;;
          let! result := attempt_of (execute_locked r) in
          modify (on_files (release handle)) ;;;
          lift result
      end
  end.
End Execute.

(** ** The task that forwards a claimed approval *)

(** The client it makes is the worker's own, which [HermesClient_new] accepted. *)
Definition auto_resolution (p : PendingAutoResolution) : M RunnerError World unit :=
  let! response := attempt_of (resolve_approval (pa_hermes_run_id p) AUTO_APPROVAL_CHOICE false) in
  let (result, detail) := match response with
                          | Ok _ => ("resolved"%string, None)
                          | Err e => ("failed"%string, Some (error_text e))
                          end in
  let! appended := attempt_of (registry (append_event (pa_run_id p)
    {| j_event_type := EVENT_APPROVAL_AUTO_RESOLVED; j_source := SOURCE_ASTERISM;
       j_payload := object
         [("run_id", VString (pa_run_id p)); ("approval_seq", VNumber (PosInt (request_seq p)));
          ("policy", VString (RunApprovalPolicy.as_str AllowAllForRun));
          ("choice", VString AUTO_APPROVAL_CHOICE); ("enabled_by", null_or VString (pa_enabled_by p));
          ("result", VString result); ("detail", null_or VString detail)]%string;
       j_raw := None; j_dedupe_key := Some ("auto-approval:" +:+ decimal (request_seq p)) |} None)) in
  match appended with
  | Ok outcome => registry (fun _ => record_approval_resolution (pa_run_id p) (request_seq p) (outcome_seq outcome))
  | Err _ => ret tt
  end.

(** ** Reconciling a project *)

Record Reconciliation : Type := {
  rec_run_id : string;
  rec_previous_status : string;
  rec_new_status : string;
  rec_note : string
}.

Definition reconcile_run (r : RunRecord) : M RunnerError World (option Reconciliation) :=
  match RunStatus.parse (status r) with
  | Err text => fail (BadStatus text)
  | Ok current =>
      (if negb (is_null (hermes_run_id r)) && negb (bool_decide (current = Recovering))
          && is_ok (validate_transition current Recovering)
       then registry (append_event (run_id r)
              (JournalEvent_asterism EVENT_RECOVERING
                 (object [("previous_status", VString (RunStatus.as_str current))]%string))
              (Some (RunUpdate.status Recovering))) ;;; ret tt
       else ret tt) ;;;
      let! backend_status :=
        match hermes_run_id r with
        | Some id => let! reply := attempt_of (try_run_status id) in
                     ret (match reply with Ok (Some v) => status_of v | _ => None end)
        | None => ret None
        end in
      let (new_status, note) := reconcile_decision current backend_status (last_event_seq r) in
      if bool_decide (new_status = current) then ret None
      else
        let u := RunUpdate.with_recovery_note note (RunUpdate.status new_status) in
        let u := if RunStatus.is_terminal new_status && negb (bool_decide (new_status = Completed))
                 then RunUpdate.with_terminal_reason "resolved by Asterism reconciliation" u else u in
        registry (append_event (run_id r)
          (JournalEvent_asterism EVENT_RECONCILED
             (object [("previous_status", VString (RunStatus.as_str current));
                      ("new_status", VString (RunStatus.as_str new_status));
                      ("reason", VString note);
                      ("backend_status", null_or VString backend_status)]%string))
          (Some u)) ;;;
        ret (Some {| rec_run_id := run_id r; rec_previous_status := RunStatus.as_str current;
                     rec_new_status := RunStatus.as_str new_status; rec_note := note |})
  end.

Fixpoint reconcile_runs (rs : list RunRecord) : M RunnerError World (list Reconciliation) :=
  match rs with
  | [] => ret []
  | r :: rest =>
      let! here := reconcile_run r in
      let! others := reconcile_runs rest in
      ret (match here with Some o => o :: others | None => others end)
  end.

Definition reconcile_project (project : string) (handle : nat) : M RunnerError World (list Reconciliation) :=
  let! files := gets w_files in
  match try_lock project handle files with
  | (Err _, _) => ret []
  | (Ok _, locked) =>
      modify (on_files (fun _ => locked)) ;;;
      let! result := attempt_of (
        let! active := read_registry (active_runs project) in
        let! outcomes := reconcile_runs active in
        modify (on_files clear_active_run) ;;;
        ret outcomes) in
      modify (on_files (release handle)) ;;;
      lift result
  end.

Definition append_note (id event_type : string) (payload : Value) : M RunnerError World Z :=
  let! outcome := registry (append_event id
    {| j_event_type := event_type; j_source := SOURCE_ASTERISM; j_payload := payload;
       j_raw := None; j_dedupe_key := None |} None) in
  ret (outcome_seq outcome).
End Worker.
