(* ===== verification/RunnerFacts.v ===== *)
(** * RunnerFacts: what every piece of a worker does to the world. *)
From Stdlib Require Import Lia.
From stdpp Require Import relations.
From S2P Require Import Prelude Text Json RunState Redact Schema Registry RegistryFacts Evolution.
From S2P Require Import Remote RemoteFacts Inventory InventoryFacts System Sse RunLock.
From S2P Require Import Attachments ChatHistory Approvals Runner.

(** ** Relations that every step respects *)

Definition moves {E S A} (R : S -> S -> Prop) (m : M E S A) : Prop := forall s, R s (snd (m s)).

Section Moves.
Context {E S : Type} (R : S -> S -> Prop) `{!PreOrder R}.

Lemma moves_ret {A} (a : A) : moves R (@ret E S A a).
Proof. intros s. cbn. reflexivity. Qed.
Lemma moves_fail {A} (e : E) : moves R (@fail E S A e).
Proof. intros s. cbn. reflexivity. Qed.
Lemma moves_gets {A} (f : S -> A) : moves R (@gets E S A f).
Proof. intros s. cbn. reflexivity. Qed.
Lemma moves_lift {A} (r : Result E A) : moves R (@lift E S A r).
Proof. intros s. cbn. reflexivity. Qed.
Lemma moves_modify (f : S -> S) : (forall s, R s (f s)) -> moves R (@modify E S f).
Proof. intros Hf s. apply Hf. Qed.
Lemma moves_bind {A B} (m : M E S A) (k : A -> M E S B) :
  moves R m -> (forall a, moves R (k a)) -> moves R (bind m k).
Proof.
  intros Hm Hk s. unfold bind. specialize (Hm s). destruct (m s) as [[a|e] s1]; cbn in *; [|done].
  etransitivity; [exact Hm|apply Hk].
Qed.
Lemma moves_attempt {A} (m : M E S A) : moves R m -> moves R (attempt_of m).
Proof. intros Hm s. unfold attempt_of. specialize (Hm s). by destruct (m s). Qed.
End Moves.

Create HintDb moves.
#[export] Hint Resolve moves_ret moves_fail moves_gets moves_lift : moves.

(** Goes through the binds, branches and handlers of a program. *)
Ltac moves_solve :=
  repeat (cbv zeta; match goal with
    | |- moves _ (bind _ _) => apply moves_bind; [apply _| |intros ?]
    | |- moves _ (attempt_of _) => apply moves_attempt
    | |- moves _ (match ?x with _ => _ end) => destruct x
    | |- moves _ _ => solve [auto with moves typeclass_instances]
    end).

(** ** What a worker does to the registry, the clock and the backend *)

Section Reaches.
Context `{SerdeJson} `{Hermes} (env : nat -> Tick) (describe : RegistryError -> string).

(** Time does not go back, and the other tasks make well-typed calls. *)
Definition fair_env : Prop :=
  forall n, 0 <= passes (env n) /\ (forall c, In c (meanwhile (env n)) -> well_typed c).
Context (Henv : fair_env).

(** The registry changes by calls of the node, time does not go back, and the
    calls to Hermes are extended by ones that satisfy [P]. *)
Record reaches (P : HermesCall -> Prop) (w w' : World) : Prop := {
  rs_db : rtc call_step (w_db w) (w_db w');
  rs_calls : exists new, w_calls w' = w_calls w ++ new /\ (forall c, In c new -> P c);
  rs_mono : w_mono w <= w_mono w'
}.

#[global] Instance reaches_preorder P : PreOrder (reaches P).
Proof.
  split.
  - intros w. split; [apply rtc_refl| |lia]. exists []. by rewrite app_nil_r.
  - intros w1 w2 w3 [D1 (n1 & C1 & P1) M1] [D2 (n2 & C2 & P2) M2].
    split; [by etransitivity| |lia]. exists (n1 ++ n2). rewrite C2, C1, app_assoc. split; [done|].
    intros c [Hc|Hc]%in_app_iff; auto.
Qed.

Lemma reaches_mono (P Q : HermesCall -> Prop) w w' :
  (forall c, P c -> Q c) -> reaches P w w' -> reaches Q w w'.
Proof. intros HPQ [D (new & C & HP) Hm]. split; [done| |done]. exists new. eauto. Qed.

Lemma moves_mono {A} (P Q : HermesCall -> Prop) (m : M RunnerError World A) :
  (forall c, P c -> Q c) -> moves (reaches P) m -> moves (reaches Q) m.
Proof. intros HPQ Hm w. eapply reaches_mono, Hm. done. Qed.

(** Only local variables and files of the worker change. *)
Lemma reaches_local P f :
  (forall w, w_db (f w) = w_db w /\ w_calls (f w) = w_calls w /\ w_mono w <= w_mono (f w)) ->
  moves (reaches P) (@modify RunnerError World f).
Proof.
  intros Hf. apply moves_modify. intros w. destruct (Hf w) as (E1 & E2 & E3).
  split; [rewrite E1; apply rtc_refl| |done]. exists []. by rewrite app_nil_r.
Qed.

Lemma calls_reachable cs db :
  (forall c, In c cs -> well_typed c) -> rtc call_step db (performed cs db).
Proof.
  revert db. induction cs as [|c cs IH]; intros db Ht; [apply rtc_refl|].
  eapply rtc_l; [apply call, Ht; by left|]. apply IH. intros c' Hc'. apply Ht. by right.
Qed.

Lemma moves_tick P : moves (reaches P) (tick env).
Proof.
  intros w. destruct (Henv (w_step w)) as [Hp Ht].
  split; cbn; [by apply calls_reachable| |lia]. exists []. by rewrite app_nil_r.
Qed.

(** A method call is a call of the node, or leaves the registry alone. *)
Definition is_call {A} (m : M RegistryError Db A) : Prop :=
  forall db, rtc call_step db (snd (m db)).

Lemma is_call_perform {A} (m : M RegistryError Db A) c :
  well_typed c -> (forall db, snd (m db) = snd (perform c db)) -> is_call m.
Proof. intros Ht Hm db. rewrite Hm. by apply rtc_once, call. Qed.

Lemma is_call_append id ev u t : is_call (append_event id ev u t).
Proof. by apply (is_call_perform _ (AppendEvent id ev u t)). Qed.
Lemma is_call_request id seq c ch now : is_call (record_approval_request id seq c ch now).
Proof. by apply (is_call_perform _ (ApprovalRequest id seq c ch now)). Qed.
Lemma is_call_decision id seq d now : is_call (record_approval_decision id seq d now).
Proof. by apply (is_call_perform _ (ApprovalDecision id seq d now)). Qed.
Lemma is_call_resolution id seq res : is_call (record_approval_resolution id seq res).
Proof. by apply (is_call_perform _ (ApprovalResolution id seq res)). Qed.
Lemma is_call_query {A} (f : Db -> Result RegistryError A) : is_call (query f).
Proof. intros db. apply rtc_refl. Qed.
Hint Resolve is_call_append is_call_request is_call_decision is_call_resolution is_call_query : moves.

Lemma moves_registry {A} P (m : Clock3 -> M RegistryError Db A) :
  (forall t, is_call (m t)) -> moves (reaches P) (registry env m).
Proof.
  intros Hm. unfold registry. apply moves_bind; [apply _|apply moves_tick|]. intros t w.
  specialize (Hm t (w_db w)). destruct (m t (w_db w)) as [[a|e] db'];
    (split; [exact Hm| |cbn; lia]; exists []; by rewrite app_nil_r).
Qed.

Lemma moves_read {A} P (f : Db -> A) : moves (reaches P) (read_registry env f).
Proof. unfold read_registry. apply moves_bind; [apply _|apply moves_tick|]. auto with moves typeclass_instances. Qed.

Lemma moves_call (P : HermesCall -> Prop) c : P c -> moves (reaches P) (hermes_call env c).
Proof.
  intros Hc. unfold hermes_call. apply moves_bind; [apply _|apply moves_tick|]. intros _.
  apply moves_bind; [apply _|by auto with moves typeclass_instances|]. intros before.
  apply moves_bind; [apply _| |by auto with moves typeclass_instances].
  apply moves_modify. intros w. split; cbn; [apply rtc_refl| |lia]. exists [c].
  split; [done|]. by intros c' [<-|[]].
Qed.
Hint Resolve moves_tick moves_read moves_call : moves.
Hint Extern 1 (moves _ (registry _ _)) => apply moves_registry; intros ?; auto with moves : moves.
Hint Extern 1 (moves _ (modify _)) => apply reaches_local; intros ?; cbn; repeat case_match; cbn; (split; [done|split; [done|lia]]) : moves.

Lemma moves_try_status (P : HermesCall -> Prop) id :
  P (StatusCall id) -> moves (reaches P) (try_run_status env id).
Proof. intros. unfold try_run_status. moves_solve. Qed.
Lemma moves_start (P : HermesCall -> Prop) req : (forall h, P (StartCall req h)) -> moves (reaches P) (start_run env req).
Proof. intros. unfold start_run. moves_solve. Qed.
Hint Resolve moves_try_status moves_start : moves.

Lemma moves_finalize P id st u p : moves (reaches P) (finalize env id st u p).
Proof. unfold finalize. moves_solve. Qed.
Lemma moves_refuse P id m : moves (reaches P) (refuse_conflict env id m).
Proof. apply moves_finalize. Qed.
Hint Resolve moves_finalize moves_refuse : moves.

(** *** Following *)

Definition follows (id : string) (c : HermesCall) : Prop := c = StreamCall id \/ c = StatusCall id.

Lemma moves_on_event P ctx id e : moves (reaches P) (on_event env ctx id e).
Proof. unfold on_event, on_approval_request. moves_solve. Qed.
Hint Resolve moves_on_event : moves.

Lemma moves_deliver P ctx id es : moves (reaches P) (deliver env ctx id es).
Proof. induction es as [|e es IH]; cbn [deliver]; moves_solve. Qed.
Hint Resolve moves_deliver : moves.

Lemma moves_sleep P : moves (reaches P) (@modify RunnerError World (advance STREAM_RESUME_DELAY)).
Proof. apply reaches_local. intros w. unfold STREAM_RESUME_DELAY. cbn. repeat split. lia. Qed.
Hint Resolve moves_sleep : moves.

Lemma moves_round ctx id p q e : moves (reaches (follows id)) (round env describe ctx id p q e).
Proof.
  unfold round, stream_events, current_seq.
  assert (follows id (StreamCall id)) by (by left). assert (follows id (StatusCall id)) by (by right).
  moves_solve.
Qed.
Hint Resolve moves_round : moves.

Lemma moves_follow_rounds ctx id n p q e :
  moves (reaches (follows id)) (follow_rounds env describe ctx id n p q e).
Proof.
  revert p q e. induction n as [|n IH]; intros p q e; cbn [follow_rounds]; moves_solve.
Qed.
Hint Resolve moves_follow_rounds : moves.

Lemma moves_follow ctx id n : moves (reaches (follows id)) (follow_to_terminal env describe ctx id n).
Proof. unfold follow_to_terminal, current_seq. moves_solve. Qed.

(** *** Executing *)

Definition is_start (c : HermesCall) : bool := match c with StartCall _ _ => true | _ => false end.
Definition not_start (c : HermesCall) : Prop := is_start c = false.

Lemma follow_no_start ctx id n : moves (reaches not_start) (follow_to_terminal env describe ctx id n).
Proof. eapply moves_mono; [|apply moves_follow]. by intros c [-> | ->]. Qed.
Hint Resolve follow_no_start : moves.

Lemma moves_session_history P ctx r : moves (reaches P) (session_history env ctx r).
Proof. unfold session_history. moves_solve. Qed.
Hint Resolve moves_session_history : moves.

Lemma moves_admission ctx : moves (reaches not_start) (admission env ctx).
Proof. unfold admission. assert (forall id, not_start (StatusCall id)) by done. moves_solve. Qed.
Hint Resolve moves_admission : moves.

Lemma moves_submit ctx r : moves (reaches (fun _ => True)) (submit env describe ctx r).
Proof. unfold submit. moves_solve. Qed.
Hint Resolve moves_submit : moves.

Lemma moves_execute ctx n h : moves (reaches (fun _ => True)) (execute_run env describe ctx n h).
Proof.
  assert (forall id, moves (reaches (fun _ => True)) (follow_to_terminal env describe ctx id n)).
  { intros id. eapply moves_mono; [|apply moves_follow]. done. }
  assert (moves (reaches (fun _ => True)) (admission env ctx)).
  { eapply moves_mono; [|apply moves_admission]. done. }
  unfold execute_run, execute_locked. moves_solve.
Qed.

Lemma moves_auto_resolution p : moves (reaches (fun _ => True)) (auto_resolution env describe p).
Proof. unfold auto_resolution, resolve_approval. moves_solve. Qed.

(** *** Reconciling *)

Lemma moves_reconcile_run r : moves (reaches not_start) (reconcile_run env r).
Proof. unfold reconcile_run. assert (forall id, not_start (StatusCall id)) by done. moves_solve. Qed.
Hint Resolve moves_reconcile_run : moves.

Lemma moves_reconcile_runs rs : moves (reaches not_start) (reconcile_runs env rs).
Proof. induction rs as [|r rs IH]; cbn [reconcile_runs]; moves_solve. Qed.
Hint Resolve moves_reconcile_runs : moves.

Lemma moves_reconcile p h : moves (reaches not_start) (reconcile_project env p h).
Proof. unfold reconcile_project. moves_solve. Qed.
End Reaches.

#[export] Hint Resolve is_call_append is_call_request is_call_decision is_call_resolution is_call_query
  moves_tick moves_read moves_call moves_try_status moves_start moves_finalize moves_refuse moves_on_event
  moves_deliver moves_sleep follow_no_start moves_session_history moves_admission moves_reconcile_run
  moves_reconcile_runs : moves.
#[export] Hint Extern 1 (moves _ (registry _ _)) => apply moves_registry; [done|intros ?; auto with moves] : moves.
#[export] Hint Extern 1 (moves _ (modify _)) =>
  apply reaches_local; intros ?; cbn; repeat case_match; cbn; (split; [done|split; [done|lia]]) : moves.

(** ** Rows over time *)

Section Rows.
Context `{SerdeJson}.

Lemma row_after db db' r :
  node_ok db -> rtc call_step db db' -> In r (runs db) ->
  node_ok db' /\ exists r', In r' (runs db') /\ run_evolves r r'.
Proof.
  intros Hok Hr Hin. destruct (reachable_ok _ _ Hr Hok) as (Hok' & Hev & _). split; [done|].
  apply list_elem_of_In, list_elem_of_lookup in Hin as [i Hi].
  destruct (de_runs _ _ Hev i r Hi) as (r' & Hi' & Hre). exists r'. split; [|done].
  apply list_elem_of_In, list_elem_of_lookup. eauto.
Qed.

Lemma run_Some db id rec :
  node_ok db -> run id db = Some rec <-> exists r, In r (runs db) /\ r_run_id r = id /\ rec = map_run r.
Proof.
  intros Hok. unfold run, load_run. split.
  - destruct (select_one (is_run id) (runs db)) as [r|] eqn:E; [|done]. intros [= <-].
    apply (select_run db) in E as [? ?]; [|apply Hok]. eauto.
  - intros (r & Hin & Hid & ->). by rewrite (proj2 (select_run db id r (no_runs _ Hok)) (conj Hin Hid)).
Qed.

(** The run a record was read from is the one found later. *)
Lemma run_later db db' id rec :
  node_ok db -> rtc call_step db db' -> run id db = Some rec ->
  exists r r', In r (runs db) /\ rec = map_run r /\ run id db' = Some (map_run r') /\ run_evolves r r'.
Proof.
  intros Hok Hr (r & Hin & Hid & ->)%run_Some; [|done].
  destruct (row_after db db' r Hok Hr Hin) as (Hok' & r' & Hin' & Hev). exists r, r'.
  split; [done|]. split; [done|]. split; [|done]. apply run_Some; [done|]. exists r'.
  split; [done|]. split; [|done]. by rewrite (re_id _ _ Hev).
Qed.

Lemma terminal_path st st' :
  rtc transition st st' -> RunStatus.is_terminal st = true -> st' = st.
Proof.
  induction 1 as [|a b c Hab _ IH]; [done|]. intros Ht.
  apply (validate_terminal _ _ Ht) in Hab as ->. by apply IH.
Qed.

Lemma run_terminal_later db db' id rec st :
  node_ok db -> rtc call_step db db' -> run id db = Some rec ->
  RunStatus.parse (status rec) = Ok st -> RunStatus.is_terminal st = true ->
  exists rec', run id db' = Some rec' /\ RunStatus.parse (status rec') = Ok st.
Proof.
  intros Hok Hr Hrec Hst Ht. destruct (run_later db db' id rec Hok Hr Hrec) as (r & r' & _ & -> & E & Hev).
  exists (map_run r'). split; [done|]. destruct (re_status _ _ Hev st Hst) as (st' & Hst' & Hp).
  by rewrite (terminal_path _ _ Hp Ht) in Hst'.
Qed.

(** What an append with an update leaves in the row. *)
Lemma append_updates id ev u t db db' o st :
  node_ok db -> j_dedupe_key ev = None -> u_status u = Some st ->
  append_event id ev (Some u) t db = (Ok o, db') ->
  exists r, In r (runs db') /\ r_run_id r = id /\ r_status r = RunStatus.as_str st
    /\ (is_Some (u_hermes_run_id u) -> is_Some (r_hermes_run_id r)).
Proof.
  intros Hok Hd Hu E. apply append_event_inv in E. destruct o as [s|s].
  - destruct E as (_ & row & Hrow & _ & _ & E). cbv zeta in E.
    apply apply_update_inv in E as (row1 & st1 & Hrow1 & _ & _ & _ & ->).
    rewrite Hu. cbn [default]. exists (updated_row st u (t_update t) row1).
    apply select_one_Some in Hrow1 as [Hin1 Hid1]. split.
    + apply In_update_where. exists row1. by rewrite Hid1.
    + apply is_run_true in Hid1. split; [done|]. split; [done|]. cbn. by destruct (u_hermes_run_id u).
  - destruct E as (_ & e & E & _). unfold by_dedupe in E. by rewrite Hd in E.
Qed.
End Rows.

(** ** How a worker ends a run *)

Section Finalize.
Context `{SerdeJson} `{Hermes} (env : nat -> Tick) (Henv : fair_env env).

Lemma tick_eq w : exists t,
  tick env w = (Ok t, snd (tick env w)) /\ rtc call_step (w_db w) (w_db (snd (tick env w)))
  /\ w_calls (snd (tick env w)) = w_calls w.
Proof.
  exists (wall (env (w_step w))). split; [done|]. split; [|done].
  apply (rs_db (fun _ => True)), moves_tick, Henv.
Qed.

Lemma runner_registry_Ok {A} (m : Clock3 -> M RegistryError Db A) w a w' :
  registry env m w = (Ok a, w') ->
  exists t db1, rtc call_step (w_db w) db1 /\ m t db1 = (Ok a, w_db w').
Proof.
  unfold registry. intros (t & w1 & Ht & Hm)%bind_Ok. exists t, (w_db w1).
  destruct (tick_eq w) as (t' & E & Hr & _). rewrite Ht in E, Hr. split; [exact Hr|].
  destruct (m t (w_db w1)) as [[x|e] db']; [|done]. by injection Hm as <- <-.
Qed.

Lemma read_Ok {A} (f : Db -> A) w a w' :
  read_registry env f w = (Ok a, w') -> rtc call_step (w_db w) (w_db w') /\ a = f (w_db w').
Proof.
  unfold read_registry. intros (t & w1 & Ht & [= <- <-])%bind_Ok.
  destruct (tick_eq w) as (t' & E & Hr & _). rewrite Ht in E, Hr. done.
Qed.

Lemma steps_ok db db' : rtc call_step db db' -> node_ok db -> node_ok db'.
Proof. intros Hr Hok. by apply (reachable_ok _ _ Hr). Qed.

Lemma finalize_Ok id st u p w r w' :
  node_ok (w_db w) -> u_status u = Some st -> RunStatus.is_terminal st = true ->
  finalize env id st u p w = (Ok r, w') ->
  run id (w_db w') = Some r /\ RunStatus.parse (status r) = Ok st.
Proof.
  intros Hok Hu Ht. unfold finalize. intros (o & w1 & H1 & H2)%bind_Ok.
  apply runner_registry_Ok in H1 as (t & db1 & Hr1 & Happ). pose proof (steps_ok _ _ Hr1 Hok) as Hok1.
  destruct (append_updates _ (JournalEvent_asterism _ _) _ _ _ _ _ _ Hok1 eq_refl Hu Happ)
    as (row & Hin & Hid & Hst & _).
  assert (node_ok (w_db w1)) as Hok2.
  { eapply steps_ok; [|exact Hok1]. pose proof (is_call_append id
      (JournalEvent_asterism EVENT_RUN_TERMINAL (insert_status st p)) (Some u) t db1) as Hc.
    by rewrite Happ in Hc. }
  apply bind_Ok in H2 as (found & w2 & [Hr2 ->]%read_Ok & H2).
  assert (run id (w_db w1) = Some (map_run row)) as Hrow by (apply run_Some; eauto).
  destruct (run_terminal_later _ _ _ _ st Hok2 Hr2 Hrow) as (rec & Hrec & Hp);
    [cbn; by rewrite Hst, status_parse_as_str|done|].
  rewrite Hrec in H2. by injection H2 as <- <-.
Qed.
End Finalize.

(** ** A project with one run, and a backend, at which the theorems
    about workers are applied. *)

Module RunnerSamples.
Import Samples.
(** Nothing happens around the worker. *)
Definition calm (n : nat) : Tick := {| wall := clk; passes := 0; meanwhile := [] |}.
Lemma calm_fair : fair_env calm.
Proof. intros n. split; [done|]. by intros c []. Qed.

Definition says (st : string) : Value := object [("status", VString st)]%string.

(** A backend that accepts every run as "h1", streams one approval request, and
    reports [st] whenever it is asked. *)
Definition backend (st : string) : Hermes := {|
  status_reply _ _ := Ok (Some (says st));
  start_reply _ _ := Ok {| sp_run_id := "h1"; sp_status := "running" |};
  stream_reply _ _ := ([{| sse_event := Some $"approval.request"; sse_data := $"x" |}], None);
  resolve_reply _ _ _ _ := Ok VNull
|}.

Definition world (db : Db) : World :=
  {| w_db := db; w_files := {| lock_holder := None; active_file := None |}; w_calls := []; w_spawned := [];
     w_step := 0; w_mono := 0; observed_status := Running; failure_message := None |}.
Definition ctx1 : WorkerContext :=
  {| x_project_id := "demo"; x_run_id := id1; x_base_url := "http://127.0.0.1:8642"; x_api_key := "0123456789abcdef";
     x_history_limits := chathistory.HistoryLimits_default |}.

(** A fresh run, and the same run while Hermes executes it. *)
Definition fresh_calls : list Call := [CreateRun host 100 100 req].
Definition live_calls : list Call :=
  fresh_calls ++ [UpdateRun id1 (RunUpdate.status Starting) 200;
                  UpdateRun id1 (RunUpdate.with_hermes_run_id "h1" (RunUpdate.status Running)) 300].

Lemma sample_ok cs : (forall c, In c cs -> well_typed c) -> node_ok (performed cs empty_db).
Proof.
  intros Ht. apply (reachable_ok empty_db); [|apply node_ok_empty]. by apply calls_reachable.
Qed.
Lemma fresh_ok : node_ok (performed fresh_calls empty_db).
Proof. apply sample_ok. by intros c [<-|[]]. Qed.
Lemma live_ok : node_ok (performed live_calls empty_db).
Proof. apply sample_ok. by intros c [<-|[<-|[<-|[]]]]. Qed.
Definition quiet_text (e : RegistryError) : string := "registry error".
End RunnerSamples.
