(* ===== verification/RunnerTheorems.v ===== *)
(** * RunnerTheorems: what holds of workers, and of the approvals they forward
    on their own ([runner.rs]). *)
From Stdlib Require Import Lia.
From stdpp Require Import relations.
From S2P Require Import Prelude Text Json RunState Redact Schema Registry RegistryFacts Evolution.
From S2P Require Import Remote RemoteFacts Inventory InventoryFacts System Sse RunLock.
From S2P Require Import Attachments ChatHistory Approvals Runner RunnerFacts.
Import RunnerSamples.
Import Samples.

Section Workers.
Context `{SerdeJson} `{Hermes} (env : nat -> Tick) (describe : RegistryError -> string).
Context (Henv : fair_env env).

(** ** The calls a worker makes *)

Lemma attempt_Ok {E S A} (m : M E S A) s r s' : attempt_of m s = (Ok r, s') -> m s = (r, s').
Proof. unfold attempt_of. destruct (m s) as [x y]. by intros [= -> ->]. Qed.

Lemma hermes_call_Ok c w before w' :
  hermes_call env c w = (Ok before, w') ->
  before = w_calls w /\ w_calls w' = w_calls w ++ [c] /\ rtc call_step (w_db w) (w_db w')
  /\ w_files w' = w_files w.
Proof.
  unfold hermes_call. intros (t & w1 & Ht & Hm)%bind_Ok.
  destruct (tick_eq env Henv w) as (t' & E & Hr & Hc). rewrite Ht in E, Hr, Hc. cbn in Hr, Hc.
  apply bind_Ok in Hm as (b & w2 & [= <- <-] & Hm). apply bind_Ok in Hm as ([] & w3 & [= <-] & [= <- <-]).
  cbn. rewrite Hc. repeat split; try done. unfold tick in Ht. by injection Ht as _ <-.
Qed.

Lemma try_status_eq id w :
  exists w', try_run_status env id w
    = (match status_reply (w_calls w) id with Ok v => Ok v | Err t => Err (BackendFailed t) end, w')
  /\ w_calls w' = w_calls w ++ [StatusCall id] /\ rtc call_step (w_db w) (w_db w')
  /\ w_files w' = w_files w.
Proof.
  unfold try_run_status. destruct (hermes_call env (StatusCall id) w) as [[b|e] w1] eqn:E.
  - destruct (hermes_call_Ok _ _ _ _ E) as (-> & Hc & Hr & Hf). unfold bind. rewrite E.
    exists w1. split; [|done]. by destruct (status_reply (w_calls w) id).
  - exfalso. revert E. unfold hermes_call, bind, tick, gets, modify, ret. done.
Qed.

Lemma no_calls w w' : reaches (fun _ => False) w w' -> w_calls w' = w_calls w.
Proof.
  intros [_ (new & -> & Hn) _]. destruct new as [|c new]; [by rewrite app_nil_r|].
  exfalso. apply (Hn c). by left.
Qed.

(** The request a worker makes of a run. *)
Definition request_for (r : RunRecord) (req : StartRunRequest) : Prop :=
  exists images, attachments.parse (get "attachments" (request_payload r)) = Ok images
    /\ sr_input req = attachments.hermes_input
         (default ""%string (get "input" (request_payload r) ≫= as_str)) images
    /\ sr_session_id req = session_id r
    /\ sr_instructions req = (get "instructions" (request_payload r) ≫= as_str).

(** A program that makes no calls leaves the log. *)
Lemma quiet {A} (m : M RunnerError World A) w :
  moves (reaches (fun _ => False)) m -> w_calls (snd (m w)) = w_calls w.
Proof. intros Hm. apply no_calls, Hm. Qed.

(** The run has been moved to [starting] since. *)
Definition started_since (id : string) (w : World) : Prop :=
  exists db rec, rtc call_step (w_db w) db /\ run id db = Some rec /\ RunStatus.parse (status rec) = Ok Starting.

Lemma started_earlier id P w w' : reaches P w w' -> started_since id w' -> started_since id w.
Proof. intros [Hr _ _] (db & rec & Hr' & Hrest). exists db, rec. split; [by etransitivity|done]. Qed.

Lemma append_starts id ev w o w' :
  node_ok (w_db w) -> j_dedupe_key ev = None ->
  registry env (append_event id ev (Some (RunUpdate.status Starting))) w = (Ok o, w') -> started_since id w.
Proof.
  intros Hok Hd E. pose proof E as (t & db1 & Hr & Happ)%runner_registry_Ok; [|done].
  pose proof (steps_ok _ _ Hr Hok) as Hok1.
  destruct (append_updates _ _ (RunUpdate.status Starting) _ _ _ _ Starting Hok1 Hd eq_refl Happ) as (row & Hin & Hid & Hst & _).
  assert (rtc call_step db1 (w_db w')) as Hr1.
  { pose proof (is_call_append id ev (Some (RunUpdate.status Starting)) t db1) as Hc. by rewrite Happ in Hc. }
  exists (w_db w'), (map_run row). split; [by etransitivity|]. split; [|cbn; by rewrite Hst].
  apply run_Some; [by apply (steps_ok _ _ Hr1)|]. eauto.
Qed.

(** What a piece of a worker does to the project's files. *)
Lemma files_tick : keeps_view w_files (tick env).
Proof. by intros w. Qed.
Lemma files_registry {A} (m : Clock3 -> M RegistryError Db A) : keeps_view w_files (registry env m).
Proof. unfold registry. apply kv_bind; [apply files_tick|]. intros t w. by destruct (m t (w_db w)) as [[]]. Qed.
Lemma files_read {A} (f : Db -> A) : keeps_view w_files (read_registry env f).
Proof. unfold read_registry. apply kv_bind; [apply files_tick|]. by intros _ w. Qed.
Hint Resolve files_tick @files_registry @files_read : frame.
Lemma files_history ctx r : keeps_view w_files (session_history env ctx r).
Proof. unfold session_history. frame_solve. Qed.

(** At most the submission itself. *)
Definition submission (id : string) (r : RunRecord) (w w' : World) : Prop :=
  w_calls w' = w_calls w
  \/ exists req, w_calls w' = w_calls w ++ [StartCall req (lock_holder (w_files w))]
       /\ request_for r req /\ started_since id w.

Lemma submit_calls ctx r w :
  node_ok (w_db w) -> submission (x_run_id ctx) r w (snd (submit env describe ctx r w)).
Proof.
  intros Hok. unfold submit. unfold bind at 1.
  pose proof (quiet (registry env (append_event (x_run_id ctx) (JournalEvent_asterism EVENT_RUN_ACCEPTED
    (object [("project_id", VString (x_project_id ctx))]%string)) (Some (RunUpdate.status Starting)))) w
    ltac:(apply moves_registry; [done|intros t; apply is_call_append])) as Hq.
  match goal with |- context [registry env ?m w] => pose proof (files_registry m w) as Hf1 end.
  destruct (registry _ _ w) as [[o|e] w1] eqn:Eacc; cbn [snd] in *; [|by left].
  apply append_starts in Eacc; [|done..].
  destruct (attachments.parse _) as [images|] eqn:Ep; [|by left].
  unfold bind at 1. pose proof (quiet (session_history env ctx r) w1 ltac:(by apply moves_session_history)) as Hh.
  pose proof (files_history ctx r w1) as Hf2.
  destruct (session_history env ctx r w1) as [[history|e] w2]; cbn [snd] in *; [|left; congruence].
  unfold bind at 1, attempt_of at 1, start_run at 1. set (req := {| sr_input := _ |}).
  unfold bind at 1, gets at 1. rewrite Hf2, Hf1. set (holder := lock_holder (w_files w)).
  unfold bind at 1. destruct (hermes_call env (StartCall req holder) w2) as [[b|e] w3] eqn:E.
  2: { exfalso. revert E. unfold hermes_call, bind, tick, gets, modify, ret. done. }
  destruct (hermes_call_Ok _ _ _ _ E) as (-> & Hc & _ & _). rewrite Hh, Hq in Hc.
  right. exists req. fold holder. split; [|by split; [exists images|]]. rewrite <- Hc.
  destruct (start_reply (w_calls w2) req) as [response|t];
    [unfold ret at 1|unfold fail at 1]; cbv beta iota zeta;
    match goal with |- w_calls (snd (?m w3)) = _ => apply (quiet m) end;
    moves_solve.
Qed.

(** What a recorded run has to look like not to stand in the way. *)
Definition out_of_the_way (before : list HermesCall) (recorded : ActiveRun) : Prop :=
  exists reply, status_reply before (ac_run_id recorded) = Ok reply
    /\ match reply ≫= status_of with None => True | Some s => is_terminal_status s = true end.

Lemma admission_calls ctx w w' :
  admission env ctx w = (Ok None, w') ->
  lock_holder (w_files w') = lock_holder (w_files w) /\
  ((read_active_run (w_files w) = Ok None /\ w_calls w' = w_calls w)
  \/ exists recorded, read_active_run (w_files w) = Ok (Some recorded)
       /\ w_calls w' = w_calls w ++ [StatusCall (ac_run_id recorded)]
       /\ out_of_the_way (w_calls w) recorded).
Proof.
  unfold admission. intros (files & w1 & [= <- <-] & Hm)%bind_Ok.
  destruct (read_active_run (w_files w)) as [[recorded|]|e] eqn:Er; [|injection Hm as <-; split; [done|by left]|done].
  apply bind_Ok in Hm as (reply & w1 & Hr & Hm).
  destruct (try_status_eq (ac_run_id recorded) w) as (w2 & E & Hc & _ & Hf). rewrite Hr in E.
  injection E as E <-. destruct (status_reply (w_calls w) (ac_run_id recorded)) as [reply'|] eqn:Es; [|done].
  injection E as ->.
  unfold classify_recorded_run in Hm. destruct (reply' ≫= status_of) as [s|] eqn:Ess.
  - destruct (is_terminal_status s) eqn:Et; [|done]. apply bind_Ok in Hm as ([] & w3 & [= <-] & [= <-]).
    split; [cbn; by rewrite Hf|]. right. exists recorded. do 2 (split; [done|]). exists reply'. by rewrite Ess.
  - apply bind_Ok in Hm as ([] & w3 & [= <-] & [= <-]).
    split; [cbn; by rewrite Hf|]. right. exists recorded. do 2 (split; [done|]). exists reply'. by rewrite Ess.
Qed.

Lemma not_start_calls w w' :
  reaches not_start w w' -> exists new, w_calls w' = w_calls w ++ new /\ Forall not_start new.
Proof. intros [_ (new & E & Hn) _]. exists new. split; [done|]. by apply List.Forall_forall. Qed.

(** The registry as a worker that starts in [w] first reads it. *)
Definition first_read (w : World) : Db := w_db (snd (tick env w)).

(** What the calls of one execution look like. *)
Definition submits (ctx : WorkerContext) (handle : nat) (w : World) (new : list HermesCall) : Prop :=
  exists pre req post r,
    new = pre ++ StartCall req (Some handle) :: post /\ Forall not_start pre /\ Forall not_start post
    /\ run (x_run_id ctx) (first_read w) = Some r
    /\ hermes_run_id r = None /\ request_for r req /\ started_since (x_run_id ctx) w
    /\ lock_holder (w_files w) = None
    /\ forall recorded, read_active_run (w_files w) = Ok (Some recorded) -> out_of_the_way (w_calls w) recorded.

Definition locked_calls (id : string) (r : RunRecord) (w w' : World) : Prop :=
  (exists new, w_calls w' = w_calls w ++ new /\ Forall not_start new)
  \/ exists pre req post,
       w_calls w' = w_calls w ++ pre ++ StartCall req (lock_holder (w_files w)) :: post
       /\ Forall not_start pre /\ Forall not_start post /\ hermes_run_id r = None /\ request_for r req
       /\ started_since id w
       /\ forall recorded, read_active_run (w_files w) = Ok (Some recorded) -> out_of_the_way (w_calls w) recorded.

Lemma execute_locked_calls ctx n r w :
  node_ok (w_db w) -> locked_calls (x_run_id ctx) r w (snd (execute_locked env describe ctx n r w)).
Proof.
  intros Hok.
  assert (forall w', reaches not_start w w' -> locked_calls (x_run_id ctx) r w w') as Hquiet by (intros w' Hr; left; by apply not_start_calls).
  unfold execute_locked. unfold bind at 1. destruct (HermesClient_new _ _); [|by apply Hquiet].
  unfold lift. unfold bind at 1.
  pose proof (moves_admission env Henv ctx w) as Ha. destruct (admission env ctx w) as [[[c|]|e] w1] eqn:Ea;
    cbn [snd] in Ha; [|destruct (hermes_run_id r) as [id|] eqn:Eh|by apply Hquiet].
  - match goal with |- locked_calls (x_run_id ctx) r w (snd (?m w1)) => assert (moves (reaches not_start) m) as Hm by moves_solve end.
    apply Hquiet. by etransitivity; [|apply Hm].
  - match goal with |- locked_calls (x_run_id ctx) r w (snd (?m w1)) => assert (moves (reaches not_start) m) as Hm by moves_solve end.
    apply Hquiet. by etransitivity; [|apply Hm].
  - unfold bind at 1. pose proof (submit_calls ctx r w1 (steps_ok _ _ (rs_db _ _ _ Ha) Hok)) as Hs. pose proof (moves_submit env describe Henv ctx r w1) as Hr.
    assert (forall w', reaches not_start (snd (submit env describe ctx r w1)) w' -> locked_calls (x_run_id ctx) r w w') as Hafter.
    { intros w' (post & Hpost & Hfp)%not_start_calls. destruct (not_start_calls _ _ Ha) as (pre & Hpre & Hfpre).
      unfold locked_calls. destruct (admission_calls ctx w w1 Ea) as [Hlock Hadm].
      destruct Hs as [Hs|(req & Hs & Hreq & Hstart)]; rewrite Hpost, Hs, Hpre, ?Hlock.
      - left. exists (pre ++ post). rewrite app_assoc. split; [done|]. by apply Forall_app.
      - right. exists pre, req, post. rewrite <- !app_assoc. do 5 (split; [done|]).
        split; [by eapply started_earlier|].
        intros recorded Hrec. destruct Hadm as [[E _]|(rec' & E & _ & Hout)]; [congruence|].
        rewrite E in Hrec. by injection Hrec as <-. }
    destruct (submit env describe ctx r w1) as [[[id|record]|e] w2]; cbn [snd] in *.
    + apply Hafter. by apply (follow_no_start env describe).
    + apply Hafter. reflexivity.
    + apply Hafter. reflexivity.
Qed.

Lemma worker_calls ctx n handle w :
  node_ok (w_db w) ->
  exists new, w_calls (snd (execute_run env describe ctx n handle w)) = w_calls w ++ new
    /\ (Forall not_start new \/ submits ctx handle w new).
Proof.
  intros Hok.
  set (Q := fun w' : World => exists new, w_calls w' = w_calls w ++ new /\ (Forall not_start new \/ submits ctx handle w new)).
  change (Q (snd (execute_run env describe ctx n handle w))).
  assert (forall w', reaches not_start w w' -> Q w') as Hquiet
    by (intros w' (new & E & Hn)%not_start_calls; exists new; auto).
  unfold execute_run. unfold bind at 1.
  pose proof (moves_read env Henv not_start (run (x_run_id ctx)) w) as Hr1.
  destruct (read_registry env (run (x_run_id ctx)) w) as [[found|e] w1] eqn:E; cbn [snd] in Hr1; [|by apply Hquiet].
  destruct (read_Ok env Henv _ _ _ _ E) as [Hdb ->].
  assert (w_files w1 = w_files w /\ w_calls w1 = w_calls w /\ w_db w1 = first_read w) as (Hf & Hc & Hread).
  { unfold read_registry, bind, tick, gets in E. by injection E as _ <-. }
  destruct (run (x_run_id ctx) (w_db w1)) as [r|] eqn:Er; [|by apply Hquiet].
  unfold bind at 1, gets at 1. rewrite Hf. unfold try_lock.
  destruct (lock_holder (w_files w)) as [h|] eqn:El.
  - match goal with |- Q (snd (?m w1)) => assert (moves (reaches not_start) m) as Hm by moves_solve end.
    apply Hquiet. by etransitivity; [|apply Hm].
  - unfold bind at 1, modify at 1. set (w2 := on_files _ w1).
    unfold bind at 1, attempt_of. pose proof (execute_locked_calls ctx n r w2 (steps_ok _ _ Hdb Hok)) as Hl.
    destruct (execute_locked env describe ctx n r w2) as [res w3]; cbn [snd] in Hl.
    unfold bind, modify, lift. cbn [snd]. unfold Q. cbn [w_calls on_files].
    unfold locked_calls in Hl. cbn [w2 w_calls on_files w_files] in Hl. rewrite Hc in Hl.
    destruct Hl as [(new & -> & Hn)|(pre & req & post & -> & Hpre & Hpost & Hh & Hreq & Hstart & Hout)]; eexists;
      (split; [done|]); [by left|right].
    exists pre, req, post, r. rewrite <- Hread. do 6 (split; [done|]).
    split; [|done]. by apply (started_earlier _ not_start w w1).
Qed.

(** C6. Single flight and one submission: in one execution a worker submits to
    Hermes at most once; the lock of the project was free when the worker came
    and is the worker's own when the submission goes out; the run had no Hermes
    run when the worker read it, and the request is the one stored in the record
    it read; and a recorded run was found to be finished or unknown to Hermes
    before. *)
Theorem worker_submits_at_most_once ctx n handle w :
  node_ok (w_db w) ->
  exists new, w_calls (snd (execute_run env describe ctx n handle w)) = w_calls w ++ new
    /\ (Forall not_start new \/ submits ctx handle w new).
Proof. apply worker_calls. Qed.

(** ** How an execution ends *)

(** Calls made since the log was [base]. *)
Definition since (base : list HermesCall) (w : World) : Prop := exists l, w_calls w = base ++ l.
(** Hermes reported the status of its run [hid], in answer to a call made since. *)
Definition reported (base : list HermesCall) (hid : string) (st : RunStatus) (w : World) : Prop :=
  exists pre post v s, w_calls w = base ++ pre ++ StatusCall hid :: post
    /\ status_reply (base ++ pre) hid = Ok (Some v) /\ status_of v = Some s /\ from_hermes_status s = st.
(** Hermes took a submission made since as its run [hid]. *)
Definition submitted_as (base : list HermesCall) (hid : string) (w : World) : Prop :=
  exists pre req holder post resp, w_calls w = base ++ pre ++ StartCall req holder :: post
    /\ start_reply (base ++ pre) req = Ok resp /\ sp_run_id resp = hid.

Lemma since_refl w : since (w_calls w) w.
Proof. exists []. by rewrite app_nil_r. Qed.
Lemma since_later base P w w' : reaches P w w' -> since base w -> since base w'.
Proof. intros [_ (new & E & _) _] [l Hl]. exists (l ++ new). by rewrite E, Hl, app_assoc. Qed.
Lemma reported_later base hid st P w w' : reaches P w w' -> reported base hid st w -> reported base hid st w'.
Proof.
  intros [_ (new & E & _) _] (pre & post & v & s & Ew & Hrest).
  exists pre, (post ++ new), v, s. rewrite E, Ew, <- !app_assoc. done.
Qed.
Lemma submitted_later base hid P w w' : reaches P w w' -> submitted_as base hid w -> submitted_as base hid w'.
Proof.
  intros [_ (new & E & _) _] (pre & req & holder & post & resp & Ew & Hrest).
  exists pre, req, holder, (post ++ new), resp. rewrite E, Ew, <- !app_assoc. done.
Qed.
(** The answer to a call just made. *)
Lemma reported_now base w hid w' v s :
  since base w -> w_calls w' = w_calls w ++ [StatusCall hid] -> status_reply (w_calls w) hid = Ok (Some v) ->
  status_of v = Some s -> reported base hid (from_hermes_status s) w'.
Proof.
  intros [l Hl] Hc Hv Hs. exists l, [], v, s. rewrite Hc, Hl, <- app_assoc. split; [done|]. by rewrite <- Hl.
Qed.

(** A record of a finished run, as it stands in the registry: it failed or was
    interrupted, or Hermes reported its status for one of the runs in [mine]. *)
Definition ended (base : list HermesCall) (mine : string -> Prop) (id : string) (rec : RunRecord) (w : World) : Prop :=
  run id (w_db w) = Some rec
  /\ exists st, RunStatus.parse (status rec) = Ok st /\ RunStatus.is_terminal st = true
       /\ (st = Failed \/ st = Interrupted \/ exists hid, mine hid /\ reported base hid st w).

Lemma ended_mine base (mine mine' : string -> Prop) id rec w :
  (forall hid, mine hid -> mine' hid) -> ended base mine id rec w -> ended base mine' id rec w.
Proof. intros Hm (Hr & st & Hp & Ht & [?|[?|(hid & Hh & Hrep)]]); (split; [done|]); exists st; eauto 10. Qed.

Lemma finalize_ended base (mine : string -> Prop) id st u p w rec w' :
  node_ok (w_db w) -> u_status u = Some st -> RunStatus.is_terminal st = true ->
  (st = Failed \/ st = Interrupted \/ exists hid, mine hid /\ reported base hid st w) ->
  finalize env id st u p w = (Ok rec, w') -> ended base mine id rec w'.
Proof.
  intros Hok Hu Ht Hst E. destruct (finalize_Ok env Henv id st u p w rec w' Hok Hu Ht E) as [Hr Hp].
  split; [done|]. exists st. split; [done|]. split; [done|]. destruct Hst as [?|[?|(hid & Hm & Hrep)]]; auto.
  right; right. exists hid. split; [done|]. eapply (reported_later _ _ _ (fun _ => True)); [|exact Hrep].
  pose proof (moves_finalize env Henv (fun _ => True) id st u p w) as Hmv. by rewrite E in Hmv.
Qed.

Lemma terminal_update_status st v f : u_status (terminal_update st v f) = Some st.
Proof. unfold terminal_update. case_bool_decide; [destruct (failure_reason v f)|]; done. Qed.

Lemma node_ok_moves {A} P (m : M RunnerError World A) w res w' :
  moves (reaches P) m -> m w = (res, w') -> node_ok (w_db w) -> node_ok (w_db w').
Proof. intros Hm E Hok. pose proof (Hm w) as [Hr _ _]. rewrite E in Hr. by apply (steps_ok _ _ Hr). Qed.

Lemma round_ended base ctx id p q e w rec w' :
  node_ok (w_db w) -> since base w -> round env describe ctx id p q e w = (Ok (Ok (Ok rec)), w') ->
  ended base (eq id) (x_run_id ctx) rec w'.
Proof.
  intros Hok Hsince. unfold round. intros (streamed & w1 & Es%attempt_Ok & Hm)%bind_Ok.
  assert (moves (reaches (fun _ => True)) (stream_events env ctx id)) as Hst
    by (unfold stream_events; moves_solve).
  pose proof (node_ok_moves _ _ _ _ _ Hst Es Hok) as Hok1.
  assert (since base w1) as Hsince1 by (specialize (Hst w); rewrite Es in Hst; by apply (since_later _ _ _ _ Hst)).
  clear Hst Es.
  apply bind_Ok in Hm as (replied & w2 & Er%attempt_Ok & Hm).
  destruct (try_status_eq id w1) as (w2' & E2 & Hc & Hdb & _). rewrite Er in E2. injection E2 as -> <-.
  pose proof (steps_ok _ _ Hdb Hok1) as Hok2.
  destruct (status_reply (w_calls w1) id) as [[v|]|t] eqn:Ev.
  - destruct (RunStatus.is_terminal _) eqn:Et.
    + apply bind_Ok in Hm as (failure & w3 & [= <- <-] & Hm).
      apply bind_Ok in Hm as (record & w4 & Ef%attempt_Ok & [= -> <-]).
      eapply finalize_ended; [exact Hok2|apply terminal_update_status|exact Et| |exact Ef].
      destruct (status_of v) as [s|] eqn:Es; [|by auto]. right; right.
      exists id. split; [done|]. by apply (reported_now base w1 id w2 v).
    + apply bind_Ok in Hm as (seq & w3 & Hseq & Hm). apply bind_Ok in Hm as (now & w4 & [= <- <-] & Hm).
      assert (moves (reaches (fun _ => True)) (current_seq env ctx)) as Hcs
        by (unfold current_seq; moves_solve).
      pose proof (node_ok_moves _ _ _ _ _ Hcs Hseq Hok2) as Hok3.
      destruct (STREAM_IDLE_BUDGET <=? _).
      * apply bind_Ok in Hm as (record & w4 & Ef%attempt_Ok & [= -> <-]).
        by apply (finalize_ended base (eq id) _ Interrupted _ _ _ _ _ Hok3) in Ef; auto.
      * by apply bind_Ok in Hm as ([] & w4 & _ & Hm).
  - apply bind_Ok in Hm as (record & w4 & Ef%attempt_Ok & [= -> <-]).
    by apply (finalize_ended base (eq id) _ Interrupted _ _ _ _ _ Hok2) in Ef; auto.
  - apply bind_Ok in Hm as (record & w4 & Ef%attempt_Ok & [= -> <-]).
    by apply (finalize_ended base (eq id) _ Interrupted _ _ _ _ _ Hok2) in Ef; auto.
Qed.

Lemma follow_rounds_ended base ctx id n p q e w rec w' :
  node_ok (w_db w) -> since base w -> follow_rounds env describe ctx id n p q e w = (Ok (Some (Ok rec)), w') ->
  ended base (eq id) (x_run_id ctx) rec w'.
Proof.
  revert p q e w. induction n as [|n IH]; intros p q e w Hok Hsince; cbn [follow_rounds]; [done|].
  intros (r & w1 & Er & Hm)%bind_Ok. destruct r as [record|[[p' q'] e']].
  - injection Hm as -> <-. by eapply round_ended.
  - pose proof (moves_round env describe Henv ctx id p q e w) as Hr. rewrite Er in Hr.
    eapply IH; [|by apply (since_later _ _ _ _ Hr)|exact Hm]. by apply (steps_ok _ _ (rs_db _ _ _ Hr)).
Qed.

(** Only files of the project changed since. *)
Lemma ended_files base mine id rec f w : ended base mine id rec (on_files f w) <-> ended base mine id rec w.
Proof. done. Qed.

Lemma follow_ended base ctx id n w rec w' :
  node_ok (w_db w) -> since base w -> follow_to_terminal env describe ctx id n w = (Ok (Some rec), w') ->
  ended base (eq id) (x_run_id ctx) rec w' /\ active_file (w_files w') = None.
Proof.
  intros Hok Hsince. unfold follow_to_terminal. intros ([] & w1 & [= <-] & Hm)%bind_Ok.
  apply bind_Ok in Hm as ([] & w1 & [= <-] & Hm). apply bind_Ok in Hm as (t & w1 & [= <- <-] & Hm).
  apply bind_Ok in Hm as (seq & w1 & Hseq & Hm).
  assert (moves (reaches (fun _ => True)) (current_seq env ctx)) as Hcs by (unfold current_seq; moves_solve).
  pose proof (node_ok_moves _ _ _ _ _ Hcs Hseq Hok) as Hok1.
  assert (since base w1) as Hsince1.
  { specialize (Hcs (set_failure None (set_observed Running w))). rewrite Hseq in Hcs. by apply (since_later _ _ _ _ Hcs). }
  apply bind_Ok in Hm as ([record|] & w2 & Hf & Hm); [|done].
  apply bind_Ok in Hm as ([] & w3 & [= <-] & Hm). apply bind_Ok in Hm as ([] & w3 & [= <-] & Hm).
  apply bind_Ok in Hm as (rec' & w3 & [= -> <-] & [= <- <-]). split; [|done].
  apply ended_files, ended_files. by eapply follow_rounds_ended.
Qed.

(** The lock file of the project while a run is refused. *)
Lemma kv_finalize id st u p : keeps_view w_files (finalize env id st u p).
Proof.
  unfold finalize, registry, read_registry, tick. intros w. unfold bind, gets, ret, fail.
  repeat case_match; simplify_eq; done.
Qed.

Lemma refuse_ended base mine id m w rec w' :
  node_ok (w_db w) -> refuse_conflict env id m w = (Ok rec, w') -> ended base mine id rec w'.
Proof. intros Hok Ef. by apply (finalize_ended base mine _ Failed _ _ _ _ _ Hok) in Ef; auto. Qed.

(** Once a run was executed it is over, or Hermes' id of it is recorded. *)
Definition settled (id : string) (db : Db) : Prop :=
  exists rec, run id db = Some rec
    /\ (is_Some (hermes_run_id rec)
        \/ exists st, RunStatus.parse (status rec) = Ok st /\ RunStatus.is_terminal st = true).

Lemma ended_settled base mine id rec w : ended base mine id rec w -> settled id (w_db w).
Proof. intros (Hr & st & Hp & Ht & _). exists rec. split; [done|]. right. eauto. Qed.

Lemma settled_later id db db' :
  node_ok db -> rtc call_step db db' -> settled id db -> settled id db'.
Proof.
  intros Hok Hr (rec & Hrun & [Hh|(st & Hp & Ht)]).
  - destruct (run_later db db' id rec Hok Hr Hrun) as (r & r' & _ & -> & Hr' & Hev).
    exists (map_run r'). split; [done|]. left. by apply (re_hermes _ _ Hev).
  - destruct (run_terminal_later db db' id rec st Hok Hr Hrun Hp Ht) as (rec' & Hr' & Hp').
    exists rec'. split; [done|]. right. eauto.
Qed.

Lemma start_run_Ok base req w resp w' :
  since base w -> start_run env req w = (Ok resp, w') -> submitted_as base (sp_run_id resp) w'.
Proof.
  intros [l Hl]. unfold start_run. intros (holder & w1 & [= <- <-] & Hm)%bind_Ok.
  apply bind_Ok in Hm as (before & w2 & Hc%hermes_call_Ok & Hm). destruct Hc as (-> & Hc & _).
  destruct (start_reply (w_calls w) req) as [resp'|] eqn:Er; [|done]. injection Hm as <- <-.
  exists l, req, (lock_holder (w_files w)), [], resp'. rewrite Hc, Hl, <- app_assoc. split; [done|]. by rewrite <- Hl.
Qed.

Lemma submit_Ok base (mine : string -> Prop) ctx r w x w' :
  node_ok (w_db w) -> since base w -> submit env describe ctx r w = (Ok x, w') ->
  match x with
  | Ok hid => settled (x_run_id ctx) (w_db w') /\ submitted_as base hid w'
  | Err rec => ended base mine (x_run_id ctx) rec w'
  end.
Proof.
  intros Hok Hsince. unfold submit. intros (o & w1 & E1 & Hm)%bind_Ok.
  assert (reaches (fun _ => True) w w1) as Hr1.
  { match type of E1 with registry env ?m w = _ =>
      pose proof (moves_registry env Henv (fun _ => True) m ltac:(intros t; apply is_call_append) w) as Hr end.
    by rewrite E1 in Hr. }
  pose proof (steps_ok _ _ (rs_db _ _ _ Hr1) Hok) as Hok1.
  destruct (attachments.parse _) as [images|]; [|done].
  apply bind_Ok in Hm as (history & w2 & E2 & Hm).
  pose proof (node_ok_moves _ _ _ _ _ (moves_session_history env Henv (fun _ => True) ctx r) E2 Hok1) as Hok2.
  assert (since base w2) as Hsince2.
  { pose proof (moves_session_history env Henv (fun _ => True) ctx r w1) as Hr2. rewrite E2 in Hr2.
    by apply (since_later _ _ _ _ Hr2), (since_later _ _ _ _ Hr1). }
  apply bind_Ok in Hm as (response & w3 & E3%attempt_Ok & Hm).
  assert (node_ok (w_db w3)) as Hok3.
  { eapply node_ok_moves; [|exact E3|exact Hok2]. by apply (moves_start env Henv (fun _ => True)). }
  destruct response as [response|e].
  - pose proof (start_run_Ok base _ _ _ _ Hsince2 E3) as Hsub.
    apply bind_Ok in Hm as (o2 & w4 & E4 & Hm). pose proof E4 as (t & db1 & Hr & Happ)%runner_registry_Ok; [|done].
    pose proof (steps_ok _ _ Hr Hok3) as Hdb1.
    destruct (append_updates _ (JournalEvent_asterism _ _) (RunUpdate.with_hermes_run_id _ (RunUpdate.status Running))
      _ _ _ _ Running Hdb1 eq_refl eq_refl Happ) as (row & Hin & Hid & _ & Hh).
    assert (reaches (fun _ => True) w3 w4) as Hr4.
    { match type of E4 with registry env ?m w3 = _ =>
        pose proof (moves_registry env Henv (fun _ => True) m ltac:(intros t'; apply is_call_append) w3) as Hr4 end.
      by rewrite E4 in Hr4. }
    pose proof (steps_ok _ _ (rs_db _ _ _ Hr4) Hok3) as Hok4.
    assert (settled (x_run_id ctx) (w_db w4)) as Hs.
    { exists (map_run row). split; [by apply run_Some; eauto|]. left. apply Hh. cbn. eauto. }
    apply bind_Ok in Hm as (t2 & w5 & E5 & Hm). apply bind_Ok in Hm as ([] & w6 & [= <-] & [= <- <-]).
    destruct (tick_eq env Henv w4) as (t' & _ & Hr5 & Hc5). rewrite E5 in Hr5, Hc5. cbn [snd] in Hr5, Hc5.
    split; [by apply (settled_later _ (w_db w4))|]. apply (submitted_later _ _ _ _ _ Hr4) in Hsub.
    unfold submitted_as in *. cbn [on_files w_calls]. by rewrite Hc5.
  - apply bind_Ok in Hm as ([] & w4 & [= <-] & Hm). apply bind_Ok in Hm as (rec' & w5 & Ef & [= <- <-]).
    by apply (finalize_ended base mine _ Failed) in Ef; auto.
Qed.


(** The Hermes runs a worker works on: the one recorded in the run it read, and
    the one Hermes took its submission as. *)
Definition works_on (base : list HermesCall) (r : RunRecord) (w' : World) (hid : string) : Prop :=
  hermes_run_id r = Some hid \/ submitted_as base hid w'.
(** What an execution of the run whose record is [r] leaves. *)
Definition executed (base : list HermesCall) (id : string) (r : RunRecord) (o : option RunRecord) (w' : World) : Prop :=
  settled id (w_db w') /\ (forall rec, o = Some rec -> ended base (works_on base r w') id rec w').

Lemma execute_locked_Ok base ctx n r w o w' :
  node_ok (w_db w) -> since base w -> run (x_run_id ctx) (w_db w) = Some r ->
  execute_locked env describe ctx n r w = (Ok o, w') -> executed base (x_run_id ctx) r o w'.
Proof.
  intros Hok Hsince Hrun. unfold execute_locked. intros ([] & w1 & [= _ <-] & Hm)%bind_Ok.
  apply bind_Ok in Hm as (conflict & w1 & Ea & Hm).
  pose proof (moves_admission env Henv ctx w) as Ha. rewrite Ea in Ha.
  pose proof (rs_db _ _ _ Ha) as Hr1. pose proof (steps_ok _ _ Hr1 Hok) as Hok1.
  apply (since_later _ _ _ _ Ha) in Hsince. cbn [snd] in *.
  assert (forall id w2, settled (x_run_id ctx) (w_db w2) -> node_ok (w_db w2) -> since base w2 ->
    (hermes_run_id r = Some id \/ submitted_as base id w2) ->
    follow_to_terminal env describe ctx id n w2 = (Ok o, w') -> executed base (x_run_id ctx) r o w') as Hfollow.
  { intros id w2 Hs Hok2 Hs2 Hid Ef. pose proof (moves_follow env describe Henv ctx id n w2) as Hr.
    rewrite Ef in Hr. split; [by apply (settled_later _ (w_db w2)); [|apply (rs_db _ _ _ Hr)|]|].
    intros rec ->. apply (follow_ended base ctx id n w2) in Ef as [He _]; [|done..].
    eapply ended_mine; [|exact He]. intros hid <-. destruct Hid as [?|Hid]; [by left|]. right. by apply (submitted_later _ _ _ _ _ Hr). }
  destruct conflict as [c|].
  { apply bind_Ok in Hm as (rec & w2 & Ef & [= <- <-]). apply (refuse_ended base (works_on base r w2)) in Ef; [|done].
    split; [by eapply ended_settled|]. by intros rec' [= <-]. }
  destruct (hermes_run_id r) as [id|] eqn:Eh.
  - apply bind_Ok in Hm as (o2 & w2 & E2 & Hm).
    assert (reaches (fun _ => True) w1 w2) as Hr2.
    { match type of E2 with registry env ?m w1 = _ =>
        pose proof (moves_registry env Henv (fun _ => True) m ltac:(intros t'; apply is_call_append) w1) as Hr2 end.
      by rewrite E2 in Hr2. }
    apply (Hfollow id w2); [|by apply (steps_ok _ _ (rs_db _ _ _ Hr2))|by apply (since_later _ _ _ _ Hr2)|by left|done].
    apply (settled_later _ (w_db w)); [done|etransitivity; [exact Hr1|apply (rs_db _ _ _ Hr2)]|].
    exists r. split; [done|]. left. by rewrite Eh.
  - apply bind_Ok in Hm as (x & w2 & E2 & Hm).
    pose proof (submit_Ok base (works_on base r w2) _ _ _ _ _ Hok1 Hsince E2) as Hx.
    pose proof (moves_submit env describe Henv ctx r w1) as Hr2. rewrite E2 in Hr2.
    pose proof (steps_ok _ _ (rs_db _ _ _ Hr2) Hok1) as Hok2.
    destruct x as [id|rec].
    + destruct Hx as [Hs Hsub]. apply (Hfollow id w2); [done|done|by apply (since_later _ _ _ _ Hr2)|by right|done].
    + injection Hm as <- <-. split; [by eapply ended_settled|]. by intros rec' [= <-].
Qed.

Lemma execute_run_Ok ctx n handle w o w' :
  node_ok (w_db w) -> execute_run env describe ctx n handle w = (Ok o, w') ->
  exists r, run (x_run_id ctx) (first_read w) = Some r /\ executed (w_calls w) (x_run_id ctx) r o w'.
Proof.
  intros Hok. unfold execute_run. intros (found & w1 & E & Hm)%bind_Ok.
  assert (w_calls w1 = w_calls w /\ w_db w1 = first_read w) as [Hc Hread].
  { unfold read_registry, bind, tick, gets in E. by injection E as _ <-. }
  apply (read_Ok env Henv) in E as [Hdb ->]. pose proof (steps_ok _ _ Hdb Hok) as Hok1. rewrite <- Hread.
  destruct (run (x_run_id ctx) (w_db w1)) as [r|] eqn:Er; [|done]. exists r. split; [done|].
  apply bind_Ok in Hm as (files & w2 & [= <- <-] & Hm). unfold try_lock in Hm.
  destruct (lock_holder (w_files w1)) as [h|].
  - apply bind_Ok in Hm as (rec & w2 & Ef & [= <- <-]). apply (refuse_ended (w_calls w) (works_on (w_calls w) r w2)) in Ef; [|done].
    split; [by eapply ended_settled|]. by intros rec' [= <-].
  - apply bind_Ok in Hm as ([] & w2 & [= <-] & Hm). apply bind_Ok in Hm as (res & w2 & El%attempt_Ok & Hm).
    apply bind_Ok in Hm as ([] & w3 & [= <-] & [= -> <-]).
    apply (execute_locked_Ok (w_calls w) ctx n r) in El; [exact El|done| |done]. exists []. by rewrite app_nil_r.
Qed.

(** C7. A worker that finishes leaves the run finished, in the registry as in the
    record it returns.  The status is failed or interrupted, or it is the one
    Hermes reported, in answer to a call this worker made, for the Hermes run of
    this very run: the one its record named when the worker read it, or the one
    Hermes took this worker's submission as. *)
Theorem finished_worker_leaves_run_ended ctx n handle w rec w' :
  node_ok (w_db w) -> execute_run env describe ctx n handle w = (Ok (Some rec), w') ->
  run (x_run_id ctx) (w_db w') = Some rec
  /\ exists r st, run (x_run_id ctx) (first_read w) = Some r
       /\ RunStatus.parse (status rec) = Ok st /\ RunStatus.is_terminal st = true
       /\ (st = Failed \/ st = Interrupted
           \/ exists hid, (hermes_run_id r = Some hid \/ submitted_as (w_calls w) hid w')
                /\ reported (w_calls w) hid st w').
Proof.
  intros Hok E. destruct (execute_run_Ok ctx n handle w (Some rec) w' Hok E) as (r & Hr & _ & He).
  destruct (He rec eq_refl) as (Hrun & st & Hst). split; [done|]. by exists r, st.
Qed.

(** A run is not submitted twice: after a worker for it returned without an
    error, whatever happens in the registry afterwards, no later worker for the
    same run submits it to Hermes. *)
Theorem executed_run_is_not_resubmitted ctx n handle w o w1 ctx2 n2 handle2 w2 :
  node_ok (w_db w) -> execute_run env describe ctx n handle w = (Ok o, w1) ->
  rtc call_step (w_db w1) (w_db w2) -> x_run_id ctx2 = x_run_id ctx ->
  exists new, w_calls (snd (execute_run env describe ctx2 n2 handle2 w2)) = w_calls w2 ++ new
    /\ Forall not_start new.
Proof.
  intros Hok E Hr Hid. destruct (execute_run_Ok ctx n handle w o w1 Hok E) as (r0 & _ & Hs & _).
  pose proof (node_ok_moves _ _ _ _ _ (moves_execute env describe Henv ctx n handle) E Hok) as Hok1.
  pose proof (steps_ok _ _ Hr Hok1) as Hok2. apply (settled_later _ _ _ Hok1 Hr) in Hs.
  destruct (worker_calls ctx2 n2 handle2 w2 Hok2) as (new & Hc & [Hn|Hsub]); [by exists new|exfalso].
  destruct Hsub as (pre & req & post & r & _ & _ & _ & Hrun & Hh & _ & Hstart & _).
  assert (rtc call_step (w_db w2) (first_read w2)) as Hr1 by (by destruct (tick_eq env Henv w2) as (t & _ & Hr1 & _)).
  rewrite Hid in *. destruct Hs as (rec & Hrec & [Hsome|(st & Hp & Ht)]).
  - destruct (run_later _ _ _ _ Hok2 Hr1 Hrec) as (row & row' & _ & -> & Hrun' & Hev).
    apply (re_hermes _ _ Hev) in Hsome. rewrite Hrun in Hrun'. injection Hrun' as ->.
    cbn in Hh. rewrite Hh in Hsome. by destruct Hsome.
  - destruct Hstart as (db2 & rec2 & Hr2 & Hrun2 & Hp2).
    destruct (run_terminal_later _ _ _ _ _ Hok2 Hr2 Hrec Hp Ht) as (rec3 & Hrun3 & Hp3).
    rewrite Hrun2 in Hrun3. injection Hrun3 as <-. rewrite Hp2 in Hp3. by injection Hp3 as <-.
Qed.

(** ** Following ends *)

(** The journal's length as the worker reads it. *)
Definition seq_of (id : string) (w : World) : Z :=
  match run id (w_db w) with Some r => last_event_seq r | None => 0 end.

Lemma seq_later P w w' id r :
  node_ok (w_db w) -> run id (w_db w) = Some r -> reaches P w w' ->
  seq_of id w <= seq_of id w' <= i64_max /\ exists r', run id (w_db w') = Some r'.
Proof.
  intros Hok Hr [Hdb _ _]. destruct (run_later _ _ _ _ Hok Hdb Hr) as (row & row' & _ & -> & Hr' & Hev).
  unfold seq_of. rewrite Hr, Hr'. cbn [map_run last_event_seq]. split; [|by eexists].
  split; [apply (re_cursor _ _ Hev)|]. pose proof (steps_ok _ _ Hdb Hok) as Hok'.
  apply run_Some in Hr' as (x & Hin & _ & Heq); [|done].
  assert (r_last_event_seq row' = r_last_event_seq x) as -> by (by injection Heq).
  by apply (wf_runs _ (no_runs _ Hok') x Hin).
Qed.

Lemma current_seq_Ok ctx w q w' :
  current_seq env ctx w = (Ok q, w') ->
  q = seq_of (x_run_id ctx) w' /\ reaches (fun _ => True) w w'.
Proof.
  intros E. assert (moves (reaches (fun _ => True)) (current_seq env ctx)) as Hm
    by (unfold current_seq; moves_solve). specialize (Hm w). rewrite E in Hm. split; [|done].
  by apply read_Ok in E as [_ ->].
Qed.

(** A round that goes round again: it slept, and either the journal had grown
    or the time without progress is within the budget. *)
Lemma round_again ctx id p q e w p' q' e' w' :
  round env describe ctx id p q e w = (Ok (Err (p', q', e')), w') ->
  exists now, w_mono w <= now /\ w_mono w' = now + 1000 /\ q' = seq_of (x_run_id ctx) w'
    /\ p' = (if q' =? q then p else now) /\ now - p' < STREAM_IDLE_BUDGET.
Proof.
  unfold round. intros (streamed & w1 & Es%attempt_Ok & Hm)%bind_Ok.
  assert (w_mono w <= w_mono w1) as H1.
  { assert (moves (reaches (fun _ => True)) (stream_events env ctx id)) as Hst
      by (unfold stream_events; moves_solve). specialize (Hst w). rewrite Es in Hst. apply Hst. }
  apply bind_Ok in Hm as (replied & w2 & Er%attempt_Ok & Hm).
  assert (w_mono w1 <= w_mono w2) as H2.
  { pose proof (moves_try_status env Henv (fun _ => True) id I w1) as Hst. rewrite Er in Hst. apply Hst. }
  destruct (match replied with Ok (Some v) => Some v | _ => None end) as [v|];
    [|by apply bind_Ok in Hm as (? & ? & _ & Hm)].
  destruct (RunStatus.is_terminal _).
  { apply bind_Ok in Hm as (? & ? & _ & Hm). by apply bind_Ok in Hm as (? & ? & _ & Hm). }
  apply bind_Ok in Hm as (seq & w3 & Hseq & Hm). apply bind_Ok in Hm as (now & w4 & [= <- <-] & Hm).
  destruct (current_seq_Ok ctx _ _ _ Hseq) as [-> Hr3].
  destruct (STREAM_IDLE_BUDGET <=? _) eqn:Eb; [by apply bind_Ok in Hm as (? & ? & _ & Hm)|].
  apply Z.leb_gt in Eb. apply bind_Ok in Hm as ([] & w4 & [= <-] & [= <- <- <- <-]).
  exists (w_mono w3). split; [pose proof (rs_mono _ _ _ Hr3); lia|]. split; [done|]. split; [done|].
  change (seq_of (x_run_id ctx) (advance STREAM_RESUME_DELAY w3)) with (seq_of (x_run_id ctx) w3).
  destruct (Z.eqb_spec (seq_of (x_run_id ctx) w3) q); done.
Qed.

Lemma follow_rounds_bound ctx id n p q e w w' k r :
  node_ok (w_db w) -> run (x_run_id ctx) (w_db w) = Some r ->
  q <= seq_of (x_run_id ctx) w -> p + 1000 * k <= w_mono w -> 0 <= k <= 900 ->
  follow_rounds env describe ctx id n p q e w = (Ok None, w') ->
  Z.of_nat n + k <= 900 * (1 + (seq_of (x_run_id ctx) w' - q)).
Proof.
  revert p q e w k r. induction n as [|n IH]; intros p q e w k r Hok Hrun Hq Hp Hk; cbn [follow_rounds].
  - intros [= <-]. lia.
  - intros (x & w1 & Er & Hm)%bind_Ok. destruct x as [record|[[p' q'] e']]; [done|].
    pose proof (moves_round env describe Henv ctx id p q e w) as Hr. rewrite Er in Hr. cbn in Hr.
    destruct (seq_later _ _ _ _ _ Hok Hrun Hr) as [[Hmono _] [r' Hrun']].
    pose proof (steps_ok _ _ (rs_db _ _ _ Hr) Hok) as Hok1.
    destruct (round_again _ _ _ _ _ _ _ _ _ _ Er) as (now & Hnow & Hw1 & Hq' & Hp' & Hb).
    unfold STREAM_IDLE_BUDGET in Hb. destruct (Z.eqb_spec q' q) as [Heq|Hne].
    + specialize (IH p' q' e' w1 (k + 1) r' Hok1 Hrun' ltac:(lia) ltac:(lia) ltac:(lia) Hm). lia.
    + specialize (IH p' q' e' w1 1 r' Hok1 Hrun' ltac:(lia) ltac:(lia) ltac:(lia) Hm). lia.
Qed.

Lemma follow_bound ctx id n w w' r :
  node_ok (w_db w) -> run (x_run_id ctx) (w_db w) = Some r ->
  follow_to_terminal env describe ctx id n w = (Ok None, w') ->
  Z.of_nat n <= 900 * (1 + (seq_of (x_run_id ctx) w' - seq_of (x_run_id ctx) w)).
Proof.
  intros Hok Hrun. unfold follow_to_terminal. intros ([] & w1 & [= <-] & Hm)%bind_Ok.
  apply bind_Ok in Hm as ([] & w1 & [= <-] & Hm). apply bind_Ok in Hm as (t & w1 & [= <- <-] & Hm).
  apply bind_Ok in Hm as (seq & w1 & Hseq & Hm).
  destruct (current_seq_Ok ctx _ _ _ Hseq) as [-> Hr1].
  set (w0 := set_failure None (set_observed Running w)) in *.
  destruct (seq_later _ w0 w1 (x_run_id ctx) r Hok Hrun Hr1) as [[Hle _] [r' Hrun']].
  pose proof (steps_ok _ _ (rs_db _ _ _ Hr1) Hok) as Hok1.
  apply bind_Ok in Hm as ([record|] & w2 & Hf & Hm).
  { apply bind_Ok in Hm as ([] & ? & _ & Hm). apply bind_Ok in Hm as ([] & ? & _ & Hm).
    by apply bind_Ok in Hm as (? & ? & _ & Hm). }
  injection Hm as <-.
  pose proof (follow_rounds_bound ctx id n (w_mono w) (seq_of (x_run_id ctx) w1) None w1 w2 0 r' Hok1 Hrun' ltac:(lia)
    ltac:(pose proof (rs_mono _ _ _ Hr1) as Hm1; change (w_mono w0) with (w_mono w) in Hm1; lia) ltac:(lia) Hf).
  change (seq_of (x_run_id ctx) w0) with (seq_of (x_run_id ctx) w) in Hle. lia.
Qed.

(** C23. Following a run ends.  While it goes on, there are at most 900 rounds for
    every event the journal gains, whatever Hermes answers and whatever the other
    tasks do; as a journal is finite, some number of rounds is always enough. *)
Theorem following_ends ctx id w r :
  node_ok (w_db w) -> run (x_run_id ctx) (w_db w) = Some r ->
  (forall n w', follow_to_terminal env describe ctx id n w = (Ok None, w') ->
     Z.of_nat n <= 900 * (1 + (seq_of (x_run_id ctx) w' - seq_of (x_run_id ctx) w)))
  /\ exists rounds : Z, forall n, rounds < Z.of_nat n ->
       fst (follow_to_terminal env describe ctx id n w) <> Ok None.
Proof.
  intros Hok Hrun. assert (forall n w', follow_to_terminal env describe ctx id n w = (Ok None, w') ->
    Z.of_nat n <= 900 * (1 + (seq_of (x_run_id ctx) w' - seq_of (x_run_id ctx) w))) as Hb
    by (intros n w'; by eapply follow_bound). split; [done|].
  exists (900 * (1 + (i64_max - seq_of (x_run_id ctx) w))). intros n Hn E.
  destruct (follow_to_terminal env describe ctx id n w) as [res w'] eqn:Ef. cbn in E. subst res.
  specialize (Hb n w' Ef). pose proof (moves_follow env describe Henv ctx id n w) as Hr. rewrite Ef in Hr.
  destruct (seq_later _ _ _ _ _ Hok Hrun Hr) as [[_ Hmax] _]. cbn in Hmax. lia.
Qed.
End Workers.

(** ** At the sample project *)

Definition fresh_world : World := world (performed fresh_calls empty_db).
Definition live_world : World := world (performed live_calls empty_db).

Lemma worker_submits_at_most_once_witness :
  exists new, w_calls (snd (@execute_run codec (backend "completed") calm quiet_text ctx1 5 1 fresh_world)) = [] ++ new
    /\ @submits codec (backend "completed") calm ctx1 1 fresh_world new.
Proof.
  destruct (@worker_submits_at_most_once codec (backend "completed") calm quiet_text calm_fair ctx1 5 1 fresh_world
              fresh_ok) as (new & Hc & [Hn|Hs]);
    [|exists new; split; [exact Hc|exact Hs]].
  exfalso. assert (List.existsb is_start new = true) as (c & Hin & Hstart)%existsb_exists.
  { change (w_calls fresh_world ++ new) with new in Hc. rewrite <- Hc. vm_compute. reflexivity. }
  rewrite List.Forall_forall in Hn. specialize (Hn c Hin). unfold not_start in Hn. congruence.
Defined.

Lemma finished_worker_leaves_run_ended_witness :
  exists rec w', @execute_run codec (backend "completed") calm quiet_text ctx1 5 1 fresh_world = (Ok (Some rec), w')
    /\ run id1 (w_db w') = Some rec /\ RunStatus.parse (status rec) = Ok Completed
    /\ exists hid, @submitted_as (backend "completed") [] hid w' /\ @reported (backend "completed") [] hid Completed w'.
Proof.
  destruct (@execute_run codec (backend "completed") calm quiet_text ctx1 5 1 fresh_world) as [[[rec|]|e] w'] eqn:E;
    [|vm_compute in E; discriminate E..].
  exists rec, w'. split; [reflexivity|].
  destruct (@finished_worker_leaves_run_ended codec (backend "completed") calm quiet_text calm_fair ctx1 5 1
    fresh_world rec w' fresh_ok E) as (Hr & r & st & Hread & Hp & _ & Hwhy).
  assert (RunStatus.parse (status rec) = Ok Completed) as Hc by (vm_compute in E; injection E as <- _; reflexivity).
  split; [exact Hr|]. split; [exact Hc|]. rewrite Hc in Hp. injection Hp as <-.
  destruct Hwhy as [Hf|[Hf|(hid & [Hold|Hnew] & Hrep)]]; [discriminate Hf..| |exists hid; split; [exact Hnew|exact Hrep]].
  exfalso. assert (hermes_run_id r = None) by (vm_compute in Hread; injection Hread as <-; reflexivity). congruence.
Defined.

Lemma executed_run_is_not_resubmitted_witness :
  let w1 := snd (@execute_run codec (backend "completed") calm quiet_text ctx1 5 1 fresh_world) in
  exists new, w_calls (snd (@execute_run codec (backend "completed") calm quiet_text ctx1 5 2 w1)) = w_calls w1 ++ new
    /\ Forall not_start new.
Proof.
  destruct (@execute_run codec (backend "completed") calm quiet_text ctx1 5 1 fresh_world) as [[o|e] w1] eqn:E;
    [|vm_compute in E; discriminate E].
  apply (@executed_run_is_not_resubmitted codec (backend "completed") calm quiet_text calm_fair ctx1 5 1
    fresh_world o w1 ctx1 5 2 w1 fresh_ok E); [apply rtc_refl|reflexivity].
Defined.

Lemma following_ends_witness :
  exists rounds : Z, forall n, rounds < Z.of_nat n ->
    fst (@follow_to_terminal codec (backend "running") calm quiet_text ctx1 "h1" n live_world) <> Ok None.
Proof.
  apply (@following_ends codec (backend "running") calm quiet_text calm_fair ctx1 "h1" live_world
    (map_run (row_of (performed live_calls empty_db)))); [exact live_ok|vm_compute; reflexivity].
Defined.

(** ** Approvals a run's policy answers are answered once
    ([runner.rs], the event closure and [spawn_auto_resolution]). *)

(** The stored decision on an approval is the automatic one. *)
Definition decided_auto (id : string) (seq : Z) (db : Db) : Prop :=
  exists a, In a (run_approvals db) /\ a_run_id a = id /\ a_request_seq a = seq
            /\ a_decision a = Some AUTO_APPROVAL_CHOICE.

Definition claim_key (p : PendingAutoResolution) : string * Z := (pa_run_id p, request_seq p).

(** Every task that was spawned owns the stored decision, and no two tasks were
    spawned for the same approval. *)
Record claims_ok (w : World) : Prop := {
  co_node : node_ok (w_db w);
  co_once : NoDup (claim_key <$> w_spawned w);
  co_decided : forall p, In p (w_spawned w) -> decided_auto (pa_run_id p) (request_seq p) (w_db w)
}.

Definition keeps_claims (w w' : World) : Prop := claims_ok w -> claims_ok w'.
#[export] Instance keeps_claims_preorder : PreOrder keeps_claims.
Proof. split; [by intros ??|]. intros a b c H1 H2 Ha. auto. Qed.

Section Claims.
Context `{SerdeJson} `{Hermes} (env : nat -> Tick) (describe : RegistryError -> string).
Context (Henv : fair_env env).

Lemma decided_later id seq db db' :
  node_ok db -> rtc call_step db db' -> decided_auto id seq db -> decided_auto id seq db'.
Proof.
  intros Hok Hr (a & Hin & Hid & Hseq & Hd). destruct (reachable_ok _ _ Hr Hok) as (_ & Hev & _).
  apply list_elem_of_In, list_elem_of_lookup in Hin as [i Hi].
  destruct (de_approvals _ _ Hev i a Hi) as (a' & Hi' & [[K1 K2] _ Hdec]). exists a'.
  split; [apply list_elem_of_In, list_elem_of_lookup; eauto|]. rewrite K1, K2. split; [done|]. split; [done|].
  destruct Hdec as [-> _]; [by rewrite Hd|done].
Qed.

Lemma claims_move P w w' : reaches P w w' -> w_spawned w' = w_spawned w -> keeps_claims w w'.
Proof.
  intros [Hr _ _] Hs [Hok Hn Hd]. split; rewrite ?Hs; [by apply (reachable_ok _ _ Hr)|done|].
  intros p Hp. apply (decided_later _ _ (w_db w)); auto.
Qed.

Lemma claims_quiet {A} (m : M RunnerError World A) :
  moves (reaches (fun _ => True)) m -> keeps_view w_spawned m -> moves keeps_claims m.
Proof. intros Hm Hv w. eapply claims_move; [apply Hm|apply Hv]. Qed.

Lemma kvs_tick : keeps_view w_spawned (tick env).
Proof. done. Qed.
Lemma kvs_registry {A} (m : Clock3 -> M RegistryError Db A) : keeps_view w_spawned (registry env m).
Proof.
  unfold registry. apply kv_bind; [apply kvs_tick|]. intros t w. by destruct (m t (w_db w)) as [[]].
Qed.

Lemma claims_registry {A} (m : Clock3 -> M RegistryError Db A) :
  (forall t, is_call (m t)) -> moves keeps_claims (registry env m).
Proof. intros Hm. apply claims_quiet; [by apply moves_registry|apply kvs_registry]. Qed.
Lemma claims_tick : moves keeps_claims (tick env).
Proof. apply claims_quiet; [by apply moves_tick|done]. Qed.
Lemma claims_read {A} (f : Db -> A) : moves keeps_claims (read_registry env f).
Proof. apply claims_quiet; [by apply moves_read|done]. Qed.
Lemma claims_call c : moves keeps_claims (hermes_call env c).
Proof. apply claims_quiet; [by apply moves_call|done]. Qed.
Lemma claims_local f :
  (forall w, w_db (f w) = w_db w /\ w_spawned (f w) = w_spawned w) ->
  moves keeps_claims (@modify RunnerError World f).
Proof. intros Hf w [H1 H2 H3]. destruct (Hf w) as [E1 E2]. cbn. split; by rewrite ?E1, ?E2. Qed.

Hint Resolve claims_tick claims_read claims_call : moves.
Hint Extern 1 (moves keeps_claims (registry _ _)) =>
  apply claims_registry; intros ?; auto with moves : moves.
Hint Extern 1 (moves keeps_claims (modify _)) =>
  apply claims_local; intros ?; cbn; repeat case_match; done : moves.

(** Winning the decision means that it was open, so no task owns it yet. *)
Lemma claim_is_fresh id hermes_id seq who :
  moves keeps_claims (
    let! claimed := registry env (fun t => record_approval_decision id seq AUTO_APPROVAL_CHOICE (t_event t)) in
    if claimed : bool
    then modify (spawn {| pa_run_id := id; pa_hermes_run_id := hermes_id; request_seq := seq; pa_enabled_by := who |})
    else ret tt).
Proof.
  intros w Hw. unfold bind at 1, registry, bind at 1.
  pose proof (claims_tick w Hw) as H1. destruct (tick env w) as [[t|e] w1]; cbn [snd] in H1; [|done].
  set (db1 := w_db w1) in *. change (record_approval_decision id seq AUTO_APPROVAL_CHOICE (t_event t) db1) with
    (Ok (changes (undecided id seq) (run_approvals db1) =? 1)%nat : Result RegistryError bool,
     on_approvals (update_where (undecided id seq) (decide_row AUTO_APPROVAL_CHOICE (t_event t))) db1).
  set (db2 := on_approvals _ db1). cbv beta iota.
  assert (claims_ok (on_db (fun _ => db2) w1)) as H2.
  { apply (claims_move (fun _ => True) w1); [|done|done]. split; [| |cbn; lia].
    - apply (is_call_decision id seq AUTO_APPROVAL_CHOICE (t_event t) db1).
    - exists []. by rewrite app_nil_r. }
  destruct (Nat.eqb_spec (changes (undecided id seq) (run_approvals db1)) 1) as [Hc|]; [|exact H2].
  assert (exists a, In a (run_approvals db1) /\ undecided id seq a = true) as (a & Ha & Hu).
  { unfold changes in Hc. destruct (List.filter (undecided id seq) (run_approvals db1)) as [|a l] eqn:E; [done|].
    exists a. apply filter_In. rewrite E. by left. }
  pose proof Hu as [Hia Hnull]%andb_true_iff. apply andb_true_iff in Hia as [Hid%String.eqb_eq Hseq%Z.eqb_eq].
  cbn [snd modify]. destruct H2 as [Hok2 Hn2 Hd2]. cbn in Hok2, Hn2, Hd2. split; cbn.
  - exact Hok2.
  - rewrite fmap_app. apply list.NoDup_app. split; [done|]. split; [|apply NoDup_singleton].
    intros k (p & -> & Hp)%list_elem_of_fmap Hk%list_elem_of_singleton. apply list_elem_of_In in Hp.
    destruct (co_decided _ H1 p Hp) as (a' & Ha' & Hid' & Hseq' & Hdec).
    assert (a' = a) as ->.
    { apply (NoDup_map_inj (fun a => (a_run_id a, a_request_seq a)) (run_approvals db1)); [|done|done|].
      - apply NoDup_ListNoDup, (wf_approval_keys _ (no_runs _ (co_node _ H1))).
      - unfold claim_key in Hk. cbn in Hk. injection Hk as K1 K2. congruence. }
    by rewrite Hdec in Hnull.
  - intros p [Hp| [<-|[]]]%in_app_iff; [by apply Hd2|]. cbn.
    exists (decide_row AUTO_APPROVAL_CHOICE (t_event t) a). split; [|done].
    apply In_update_where. exists a. by rewrite Hu.
Qed.

Lemma claims_approval_request ctx hid seq payload :
  moves keeps_claims (on_approval_request env ctx hid seq payload).
Proof.
  unfold on_approval_request. apply moves_bind; [apply _| |intros _]; [moves_solve|].
  apply moves_bind; [apply _| |intros st]; [moves_solve|].
  destruct (RunApprovalPolicy.bypasses_approval (policy st)); [apply claim_is_fresh|moves_solve].
Qed.
Hint Resolve claims_approval_request : moves.

Lemma claims_on_event ctx hid e : moves keeps_claims (on_event env ctx hid e).
Proof. unfold on_event. moves_solve. Qed.
Hint Resolve claims_on_event : moves.
Lemma claims_deliver ctx hid es : moves keeps_claims (deliver env ctx hid es).
Proof. induction es as [|e es IH]; cbn [deliver]; moves_solve. Qed.
Hint Resolve claims_deliver : moves.
Lemma claims_finalize id st u p : moves keeps_claims (finalize env id st u p).
Proof. unfold finalize. moves_solve. Qed.
Hint Resolve claims_finalize : moves.
Lemma claims_round ctx hid p q e : moves keeps_claims (round env describe ctx hid p q e).
Proof. unfold round, stream_events, current_seq, try_run_status. moves_solve. Qed.
Hint Resolve claims_round : moves.
Lemma claims_follow_rounds ctx hid n p q e : moves keeps_claims (follow_rounds env describe ctx hid n p q e).
Proof. revert p q e. induction n as [|n IH]; intros p q e; cbn [follow_rounds]; moves_solve. Qed.
Hint Resolve claims_follow_rounds : moves.
Lemma claims_follow ctx hid n : moves keeps_claims (follow_to_terminal env describe ctx hid n).
Proof. unfold follow_to_terminal, current_seq. moves_solve. Qed.
Hint Resolve claims_follow : moves.

(** C22. Under a policy that answers approvals by itself, each approval is forwarded
    at most once: through any execution, with any replies of Hermes and any
    decisions made meanwhile by others, no two tasks are ever spawned for the
    same approval, and every task that is spawned holds the one decision stored
    for it, which an operator's later click can no longer change. *)
Theorem auto_approval_is_claimed_once ctx n handle w :
  claims_ok w -> claims_ok (snd (execute_run env describe ctx n handle w)).
Proof.
  revert w. change (moves keeps_claims (execute_run env describe ctx n handle)).
  unfold execute_run, execute_locked, refuse_conflict, admission, submit, session_history, start_run, try_run_status.
  moves_solve.
Qed.

(** The policy that is obeyed is the one stored at that moment. *)
Lemma manual_run_spawns_nothing ctx hid seq payload w :
  (forall db st, rtc call_step (w_db w) db -> run_approval_policy (x_run_id ctx) db = Ok st -> policy st = Manual) ->
  w_spawned (snd (on_approval_request env ctx hid seq payload w)) = w_spawned w.
Proof.
  intros Hp. unfold on_approval_request. unfold bind at 1.
  pose proof (kvs_registry (fun t => record_approval_request (x_run_id ctx) seq (get "command" payload ≫= as_str)
    (supported_choices (get "choices" payload)) (t_event t)) w) as H1.
  assert (reaches (fun _ => True) w (snd (registry env (fun t => record_approval_request (x_run_id ctx) seq
    (get "command" payload ≫= as_str) (supported_choices (get "choices" payload)) (t_event t)) w))) as Hr
    by (apply moves_registry; [done|intros t; apply is_call_request]).
  destruct (registry env _ w) as [[a|e] w1]; cbn [snd] in *; [|done].
  unfold bind at 1. pose proof (kvs_registry (fun _ => query (run_approval_policy (x_run_id ctx))) w1) as H2.
  destruct (registry env (fun _ => query (run_approval_policy (x_run_id ctx))) w1) as [[st|e] w2] eqn:E;
    cbn [snd] in *; [|congruence].
  apply runner_registry_Ok in E as (t & db1 & Hdb & Hq); [|done].
  unfold query in Hq. injection Hq as Hq _. rewrite (Hp db1 st); [cbn; congruence| |done].
  by etransitivity; [apply (rs_db _ _ _ Hr)|].
Qed.
End Claims.

(** ** At the sample project *)

Definition trusted_calls : list Call := fresh_calls ++ [SetApprovalPolicy id1 AllowAllForRun None 150].
Lemma trusted_ok : node_ok (performed trusted_calls empty_db).
Proof. apply sample_ok. by intros c [<-|[<-|[]]]. Qed.

Lemma auto_approval_is_claimed_once_witness :
  let w' := snd (@execute_run codec (backend "completed") calm quiet_text ctx1 5 1
                   (world (performed trusted_calls empty_db))) in
  claims_ok w' /\ claim_key <$> w_spawned w' = [(id1, 3)].
Proof.
  cbv zeta. split; [|vm_compute; reflexivity].
  apply (@auto_approval_is_claimed_once codec (backend "completed") calm quiet_text calm_fair).
  split; [exact trusted_ok|apply NoDup_nil_2|by intros p []].
Defined.
