(* ===== verification/Reconcile.v ===== *)
(** * Reconcile: what reconciliation decides ([runner.rs], and the choice of runs to resume in [service.rs]). *)
From Stdlib Require Import Lia.
From stdpp Require Import relations.
From S2P Require Import Prelude Text Json RunState Redact Schema Registry RegistryFacts Evolution.
From S2P Require Import Remote RemoteFacts Inventory InventoryFacts System Sse RunLock.
From S2P Require Import Attachments ChatHistory Approvals Runner RunnerFacts RunnerTheorems.
Import RunnerSamples.
Import Samples.

(** [Service::reconcile]: the runs that are supervised again afterwards. *)
Definition resumable `{SerdeJson} (project : string) (db : Db) : list string :=
  List.map run_id (List.filter (fun r => negb (is_null (hermes_run_id r))
    && match RunStatus.parse (status r) with Ok (Running | WaitingForApproval) => true | _ => false end)
    (active_runs project db)).

Section Facts.
Context `{SerdeJson} `{Hermes} (env : nat -> Tick) (describe : RegistryError -> string).
Context (Henv : fair_env env).

(** ** What reconciliation concludes *)

(** A status that was concluded for the run whose record is [r]: Hermes reported
    it, in answer to a call made since, for the Hermes run that [r] names; or it
    says that the outcome is not known. *)
Definition concluded (base : list HermesCall) (r : RunRecord) (o : Reconciliation) (w : World) : Prop :=
  rec_run_id o = run_id r /\
  exists st, rec_new_status o = RunStatus.as_str st
    /\ (st = Lost \/ st = Interrupted \/ exists hid, hermes_run_id r = Some hid /\ reported base hid st w)
    /\ (RunStatus.is_terminal st = true ->
        exists rec, run (run_id r) (w_db w) = Some rec /\ RunStatus.parse (status rec) = Ok st).

Lemma concluded_later base r o P w w' :
  node_ok (w_db w) -> reaches P w w' -> concluded base r o w -> concluded base r o w'.
Proof.
  intros Hok Hr (Hid & st & Hst & Hwhy & Hrun). split; [done|]. exists st. split; [done|]. split.
  - destruct Hwhy as [?|[?|(hid & Hh & Hrep)]]; auto. right; right. exists hid. split; [done|]. by eapply reported_later.
  - intros Ht. destruct (Hrun Ht) as (rec & Hrec & Hp).
    by apply (run_terminal_later _ _ _ _ st Hok (rs_db _ _ _ Hr) Hrec Hp).
Qed.

(** What Hermes said about the run, as the code reads it. *)
Definition backend_of (r : RunRecord) : M RunnerError World (option string) :=
  match hermes_run_id r with
  | Some id => let! reply := attempt_of (try_run_status env id) in
               ret (match reply with Ok (Some v) => status_of v | _ => None end)
  | None => ret None
  end.

Lemma backend_of_Ok base r w b w' :
  since base w -> backend_of r w = (Ok b, w') ->
  forall s, b = Some s -> exists hid, hermes_run_id r = Some hid /\ reported base hid (from_hermes_status s) w'.
Proof.
  intros Hsince. unfold backend_of. destruct (hermes_run_id r) as [id|]; [|by intros [= <- _]].
  intros (reply & w1 & Er%attempt_Ok & [= <- <-])%bind_Ok s Hs.
  destruct (try_status_eq env Henv id w) as (w2 & E & Hc & _). rewrite Er in E. injection E as -> <-.
  destruct (status_reply (w_calls w) id) as [[v|]|t] eqn:Ev; [|done..].
  exists id. split; [done|]. by apply (reported_now base w id w1 v).
Qed.

Lemma moves_backend_of r : moves (reaches not_start) (backend_of r).
Proof. unfold backend_of. assert (forall id, not_start (StatusCall id)) by done. moves_solve. Qed.

Lemma reconcile_decision_cases current b n :
  let st := fst (reconcile_decision current b n) in
  st = Lost \/ st = Interrupted \/ exists s, b = Some s /\ st = from_hermes_status s.
Proof.
  unfold reconcile_decision. destruct b as [s|]; cbn; [eauto|].
  case_bool_decide; [by left|]. destruct (0 <? n); cbn; auto.
Qed.

Lemma reconcile_run_concluded base r w o w' :
  node_ok (w_db w) -> since base w -> reconcile_run env r w = (Ok (Some o), w') -> concluded base r o w'.
Proof.
  intros Hok Hsince. unfold reconcile_run. destruct (RunStatus.parse (status r)) as [current|]; [|done].
  intros ([] & w1 & E1 & Hm)%bind_Ok.
  assert (reaches (fun _ => True) w w1) as Hr1.
  { match type of E1 with ?m w = _ => assert (moves (reaches (fun _ => True)) m) as Hmv by moves_solve end.
    specialize (Hmv w). by rewrite E1 in Hmv. }
  pose proof (steps_ok _ _ (rs_db _ _ _ Hr1) Hok) as Hok1. apply (since_later _ _ _ _ Hr1) in Hsince.
  apply bind_Ok in Hm as (b & w2 & E2 & Hm). change (backend_of r w1 = (Ok b, w2)) in E2.
  pose proof (node_ok_moves _ _ _ _ _ (moves_backend_of r) E2 Hok1) as Hok2.
  pose proof (backend_of_Ok base _ _ _ _ Hsince E2) as Hrep.
  pose proof (reconcile_decision_cases current b (last_event_seq r)) as Hcases.
  destruct (reconcile_decision current b (last_event_seq r)) as [st note]. cbn in Hcases.
  case_bool_decide; [done|]. cbv zeta in Hm. apply bind_Ok in Hm as (out & w3 & E3 & [= <- <-]).
  set (u := if RunStatus.is_terminal st && _ then _ else _) in E3.
  assert (u_status u = Some st) as Hu by (unfold u; clear; by case_match).
  pose proof E3 as (t & db1 & Hr & Happ)%runner_registry_Ok; [|done].
  pose proof (steps_ok _ _ Hr Hok2) as Hdb1.
  destruct (append_updates _ (JournalEvent_asterism _ _) u _ _ _ _ st Hdb1 eq_refl Hu Happ)
    as (row & Hin & Hid & Hst & _).
  assert (reaches (fun _ => True) w2 w3) as Hr3.
  { assert (moves (reaches (fun _ => True)) (registry env (append_event (run_id r) (JournalEvent_asterism
      EVENT_RECONCILED (object [("previous_status", VString (RunStatus.as_str current));
        ("new_status", VString (RunStatus.as_str st)); ("reason", VString note);
        ("backend_status", null_or VString b)]%string)) (Some u)))) as Hmv by moves_solve.
    specialize (Hmv w2). by rewrite E3 in Hmv. }
  split; [done|]. exists st. cbn [rec_new_status]. split; [done|]. split.
  - destruct Hcases as [?|[?|(s & -> & ->)]]; auto. right; right. destruct (Hrep s eq_refl) as (hid & Hh & Hs).
    exists hid. split; [done|]. by eapply reported_later.
  - intros _. exists (map_run row). split; [|cbn; by rewrite Hst, status_parse_as_str].
    apply run_Some; [by apply (steps_ok _ _ (rs_db _ _ _ Hr3))|]. eauto.
Qed.

Lemma reconcile_runs_concluded base rs w os w' :
  node_ok (w_db w) -> since base w -> reconcile_runs env rs w = (Ok os, w') ->
  Forall (fun o => exists r, In r rs /\ concluded base r o w') os.
Proof.
  revert w os. induction rs as [|r rs IH]; intros w os Hok Hsince; cbn [reconcile_runs]; [intros [= <- _]; constructor|].
  intros (here & w1 & E1 & Hm)%bind_Ok. apply bind_Ok in Hm as (rest & w2 & E2 & [= <- <-]).
  pose proof (moves_reconcile_run env Henv r w) as Hr1. rewrite E1 in Hr1.
  pose proof (steps_ok _ _ (rs_db _ _ _ Hr1) Hok) as Hok1.
  assert (Forall (fun o => exists r0, In r0 (r :: rs) /\ concluded base r0 o w2) rest) as Hrest.
  { eapply List.Forall_impl; [|exact (IH w1 rest Hok1 (since_later _ _ _ _ Hr1 Hsince) E2)].
    intros o (r0 & Hin & Ho). exists r0. split; [by right|done]. }
  destruct here as [o|]; [|done]. constructor; [|done].
  pose proof (moves_reconcile_runs env Henv rs w1) as Hr. rewrite E2 in Hr. exists r. split; [by left|].
  by apply (concluded_later base r o _ w1 w2 Hok1 Hr), (reconcile_run_concluded base r w).
Qed.

(** C24. Reconciliation never invents a result: while a worker holds the project it
    does nothing at all, and every change it reports is to one of the project's
    active runs as it read them, and either says that the run was interrupted or
    lost, or is to the status Hermes gave, in answer to a call made by this
    reconciliation, for the Hermes run that the record of that very run names; a
    terminal status it reports is the one in the registry.  It submits nothing. *)
Theorem reconciliation_never_invents_a_result project handle w os w' :
  node_ok (w_db w) -> reconcile_project env project handle w = (Ok os, w') ->
  (is_Some (lock_holder (w_files w)) -> os = [] /\ w' = w)
  /\ Forall (fun o => exists r, In r (active_runs project (first_read env w)) /\ concluded (w_calls w) r o w') os
  /\ exists new, w_calls w' = w_calls w ++ new /\ Forall not_start new.
Proof.
  intros Hok E. split; [|split].
  - intros [h Hh]. revert E. unfold reconcile_project. intros (files & w1 & [= <- <-] & Hm)%bind_Ok.
    unfold try_lock in Hm. rewrite Hh in Hm. by injection Hm as <- <-.
  - revert E. unfold reconcile_project. intros (files & w1 & [= <- <-] & Hm)%bind_Ok.
    unfold try_lock in Hm. destruct (lock_holder (w_files w)) as [h|]; [injection Hm as <- <-; constructor|].
    apply bind_Ok in Hm as ([] & w1 & [= <-] & Hm). apply bind_Ok in Hm as (res & w2 & Eb%attempt_Ok & Hm).
    apply bind_Ok in Hm as ([] & w3 & [= <-] & [= -> <-]).
    apply bind_Ok in Eb as (active & w3 & Er & Eb).
    assert (w_calls w3 = w_calls w /\ w_db w3 = first_read env w) as [Hc Hread].
    { unfold read_registry, bind, tick, gets in Er. by injection Er as _ <-. }
    apply (read_Ok env Henv) in Er as [Hr ->]. rewrite Hread in Eb.
    apply bind_Ok in Eb as (outs & w4 & Eo & Eb). apply bind_Ok in Eb as ([] & w5 & [= <-] & [= <- <-]).
    assert (since (w_calls w) w3) as Hsince by (exists []; by rewrite app_nil_r).
    exact (reconcile_runs_concluded _ _ _ _ _ (steps_ok _ _ Hr Hok) Hsince Eo).
  - pose proof (moves_reconcile env Henv project handle w) as Hr. rewrite E in Hr. by apply not_start_calls.
Qed.
End Facts.

(** ** At the sample project *)

Lemma reconciliation_never_invents_a_result_witness :
  exists os w', @reconcile_project codec (backend "completed") calm "demo" 1 live_world = (Ok os, w')
    /\ List.map rec_new_status os = ["completed"%string]
    /\ Forall (fun o => exists r, In r (active_runs "demo" (first_read calm live_world))
                         /\ @concluded codec (backend "completed") [] r o w') os.
Proof.
  destruct (@reconcile_project codec (backend "completed") calm "demo" 1 live_world) as [[os|e] w'] eqn:E;
    [|vm_compute in E; discriminate E].
  exists os, w'. split; [reflexivity|]. split.
  - vm_compute in E. injection E as <- _. reflexivity.
  - by apply (@reconciliation_never_invents_a_result codec (backend "completed") calm calm_fair "demo" 1
      live_world os w' live_ok E).
Defined.

(** A run that Hermes still executes, as it was when the worker died, is left in
    [recovering] by the first pass, which reports no change; it is then not among
    the runs that are supervised again, and the record that kept other runs out
    is gone although the run is live. *)
Definition recorded_world : World :=
  on_files (record_active_run {| ac_run_id := "h1"; ac_session_id := None; ac_started_at_unix := 0 |}) live_world.

Lemma live_run_is_left_recovering :
  let w' := snd (@reconcile_project codec (backend "running") calm "demo" 1 recorded_world) in
  fst (@reconcile_project codec (backend "running") calm "demo" 1 recorded_world) = Ok []
  /\ status <$> run id1 (w_db live_world) = Some "running"%string
  /\ status <$> run id1 (w_db w') = Some "recovering"%string
  /\ resumable "demo" (w_db live_world) = [id1]
  /\ resumable "demo" (w_db w') = []
  /\ active_file (w_files recorded_world) <> None /\ active_file (w_files w') = None.
Proof. vm_compute. by repeat split. Qed.

(** A backend that cannot be reached is taken for one that forgot the run. *)
Definition unreachable : Hermes := {|
  status_reply _ _ := Err "connection refused"%string;
  start_reply _ _ := Err "connection refused"%string;
  stream_reply _ _ := ([], Some "connection refused"%string);
  resolve_reply _ _ _ _ := Err "connection refused"%string
|}.
Lemma unreachable_backend_interrupts_run :
  status <$> run id1 (w_db (snd (@reconcile_project codec unreachable calm "demo" 1 live_world))) = Some "lost"%string
  /\ exists rec w', @execute_run codec unreachable calm quiet_text ctx1 5 1 live_world = (Ok (Some rec), w')
       /\ status rec = "interrupted"%string.
Proof. split; [vm_compute; reflexivity|]. eexists _, _. split; vm_compute; reflexivity. Qed.

(** The address check looks at the text in front of a host, not at the host. *)
Lemma client_accepts_other_hosts :
  HermesClient_new "http://127.0.0.1:80@example.org" "0123456789abcdef" = Ok tt.
Proof. vm_compute. reflexivity. Qed.

(** A long prompt is submitted as it was stored: cut. *)
Lemma long_input_is_cut input images :
  MAX_STRING_BYTES < len input -> looks_like_secret input = false ->
  exists kept, get "input" (value (redact (request_payload_of input None images)))
                 = Some (VString (of_chars (kept ++ chars TRUNCATED)))
    /\ (length kept <= Z.to_nat MAX_STRING_BYTES)%nat.
Proof.
  intros Hl Hs. rewrite redact_value. unfold request_payload_of, object. cbn [List.fold_left fst snd].
  rewrite get_walk by (reflexivity || (unfold MAX_DEPTH; lia)).
  rewrite !map_get_insert_ne by done. rewrite map_get_insert_eq. cbn [fmap option_fmap option_map].
  unfold walk_value. rewrite walk_string, Hs by (unfold MAX_DEPTH; lia). unfold bound_string.
  rewrite (proj2 (Z.leb_gt _ _) Hl). cbn [fst]. eexists. split; [done|].
  rewrite length_firstn. pose proof (boundary_at_most_le (chars input) (Z.to_nat MAX_STRING_BYTES)). lia.
Qed.
