(* ===== verification/Host.v ===== *)
(** * Host: what the node acts on when it manages a project's worker.

    The registry, the disk and the service manager as one state, and programs
    over it.  The service manager ([workers.rs] [ServiceControl]), the health
    endpoint of a worker ([WorkerHealth]), the clock and random bytes are the
    class [Supervisor]: each call answers anything and may change the host, and
    a control call may also be the moment the node's process ends.  Before
    every use of the registry the other tasks of the node may have changed it
    ([meanwhile]).  What was asked of the service manager, and what the health
    checks answered, is logged. *)
From stdpp Require Import gmap.
From S2P Require Import Prelude Text Schema Identifiers Inventory Fs.

(** How a program ends when it does not return: with its error, because the
    process ended, or because the rounds given to a loop ran out. *)
Inductive Outcome (E : Type) : Type :=
| Ended
| Unfinished
| Failed (e : E).
Arguments Ended {E}.
Arguments Unfinished {E}.
Arguments Failed {E} e.

(** The errors that [anyhow] carries; a [Bail] keeps its text. *)
Inductive NodeError : Type :=
| OnDisk (e : FsError)
| OnRegistry (e : InvError)
| OnControl (text : string)
| OnId (e : IdError)
| Bail (message : string).

Inductive Verb : Type := Start | Stop | Restart.
#[export] Instance Verb_eq_dec : EqDecision Verb.
Proof. solve_decision. Defined.

Class Supervisor : Type := {
  host : Type;
  control : Verb -> string -> host -> Result (option string) unit * host;
  is_active : string -> host -> Result (option string) bool * host;
  main_pid : string -> host -> Result (option string) (option Z) * host;
  healthy : string -> bytes -> host -> bool * host;
  instant : host -> Z;
  sleep : Z -> host -> host;
  nonce : host -> string * host;
  meanwhile : host -> Db -> Db * host
}.

Inductive HostEvent : Type :=
| Did (v : Verb) (unit : string)
| Observed (unit : string) (active : bool)
| Answered (endpoint : string) (ok : bool).

(** A worker was started or stopped; a look at it is not logged as that. *)
Definition touches (e : HostEvent) : option string :=
  match e with Did _ u => Some u | _ => None end.

Section Programs.
Context `{Supervisor}.

Record Site : Type := {
  s_db : Db;
  s_disk : Disk;
  s_host : host;
  s_log : list HostEvent
}.

Definition at_host (h : host) (s : Site) : Site :=
  {| s_db := s_db s; s_disk := s_disk s; s_host := h; s_log := s_log s |}.
Definition at_disk (d : Disk) (s : Site) : Site :=
  {| s_db := s_db s; s_disk := d; s_host := s_host s; s_log := s_log s |}.
Definition at_db (db : Db) (s : Site) : Site :=
  {| s_db := db; s_disk := s_disk s; s_host := s_host s; s_log := s_log s |}.
Definition logged (e : HostEvent) (s : Site) : Site :=
  {| s_db := s_db s; s_disk := s_disk s; s_host := s_host s; s_log := s_log s ++ [e] |}.

(** A program with the errors [E]. *)
Definition Prog (E A : Type) : Type := M (Outcome E) Site A.

Definition throw {E A} (e : E) : Prog E A := fail (Failed e).
(** [map_err]. *)
Definition mapping {E F A} (f : E -> F) (m : Prog E A) : Prog F A :=
  fun s => match m s with
           | (Ok a, s') => (Ok a, s')
           | (Err Ended, s') => (Err Ended, s')
           | (Err Unfinished, s') => (Err Unfinished, s')
           | (Err (Failed e), s') => (Err (Failed (f e)), s')
           end.
(** Matching on a result instead of returning it with [?]. *)
Definition attempt {E F A} (m : Prog E A) : Prog F (Result E A) :=
  fun s => match m s with
           | (Ok a, s') => (Ok (Ok a), s')
           | (Err Ended, s') => (Err Ended, s')
           | (Err Unfinished, s') => (Err Unfinished, s')
           | (Err (Failed e), s') => (Ok (Err e), s')
           end.
Definition checked {E F A} (f : E -> F) (r : Result E A) : Prog F A :=
  match r with Ok a => ret a | Err e => throw (f e) end.

Definition on_disk {A} (m : M FsError Disk A) : Prog NodeError A :=
  fun s => let (r, d) := m (s_disk s) in
           (match r with
            | Ok a => Ok a
            | Err Crashed => Err Ended
            | Err e => Err (Failed (OnDisk e))
            end, at_disk d s).
Definition on_registry {A} (m : M InvError Db A) : Prog NodeError A :=
  fun s => let (db0, h) := meanwhile (s_host s) (s_db s) in
           let (r, db) := m db0 in
           (match r with Ok a => Ok a | Err e => Err (Failed (OnRegistry e)) end, at_host h (at_db db s)).

(** A control call fails with a text, or with the end of the process. *)
Definition told {A} (r : Result (option string) A) : Result (Outcome NodeError) A :=
  match r with
  | Ok a => Ok a
  | Err (Some text) => Err (Failed (OnControl text))
  | Err None => Err Ended
  end.
(** [start], [stop] and [restart] of the service manager. *)
Definition ask (v : Verb) (unit_name : string) : Prog NodeError unit :=
  fun s => let (r, h) := control v unit_name (s_host s) in
           (told r, logged (Did v unit_name) (at_host h s)).
Definition ask_active (unit_name : string) : Prog NodeError bool :=
  fun s => let (r, h) := is_active unit_name (s_host s) in
           (told r, match r with
                    | Ok b => logged (Observed unit_name b) (at_host h s)
                    | Err _ => at_host h s
                    end).
Definition ask_pid (unit_name : string) : Prog NodeError (option Z) :=
  fun s => let (r, h) := main_pid unit_name (s_host s) in (told r, at_host h s).
Definition ask_health {E} (endpoint : string) (api_key : bytes) : Prog E bool :=
  fun s => let (b, h) := healthy endpoint api_key (s_host s) in
           (Ok b, logged (Answered endpoint b) (at_host h s)).
Definition clock {E} : Prog E Z := gets (fun s => instant (s_host s)).
Definition pause {E} (d : Z) : Prog E unit := modify (fun s => at_host (sleep d (s_host s)) s).
Definition draw {E} : Prog E string :=
  fun s => let (x, h) := nonce (s_host s) in (Ok x, at_host h s).

(** ** Triples *)

(** From a state that satisfies [P], the program ends in a result and state
    that satisfy [Q], however it ends. *)
Definition ensures {E A} (P : Site -> Prop) (m : Prog E A) (Q : Result (Outcome E) A -> Site -> Prop) : Prop :=
  forall s, P s -> Q (fst (m s)) (snd (m s)).

Lemma checked_Ok {E F A B} (f : E -> F) (a : A) (k : A -> Prog F B) : bind (checked f (Ok a)) k = k a.
Proof. reflexivity. Qed.
Lemma ensures_bind {E A B} P (m : Prog E A) (k : A -> Prog E B) R Q :
  ensures P m (fun r s => match r with Ok a => R a s | Err e => Q (Err e) s end) ->
  (forall a, ensures (R a) (k a) Q) -> ensures P (bind m k) Q.
Proof.
  intros Hm Hk s Hs. specialize (Hm s Hs). unfold bind.
  destruct (m s) as [[a|e] s1]; cbn [fst snd] in *; [|done]. by apply Hk.
Qed.
(** The same with something known of the result. *)
Lemma ensures_bind_known {E A B} P (m : Prog E A) (k : A -> Prog E B) R (T : A -> Prop) Q :
  ensures P m (fun r s => match r with Ok a => R s /\ T a | Err e => Q (Err e) s end) ->
  (forall a, T a -> ensures R (k a) Q) -> ensures P (bind m k) Q.
Proof. intros Hm Hk. apply ensures_bind with (R := fun a s => R s /\ T a); [done|]. intros a s [Hs Ha]. by apply Hk. Qed.
Lemma ensures_ret {E A} P (a : A) Q : (forall s, P s -> Q (Ok a) s) -> ensures P (@ret (Outcome E) Site A a) Q.
Proof. intros HQ s Hs. by apply HQ. Qed.
Lemma ensures_fail {E A} P e Q :
  (forall s, P s -> Q (Err e) s) -> ensures P (@fail (Outcome E) Site A e) Q.
Proof. intros HQ s Hs. by apply HQ. Qed.
Lemma ensures_mapping {E F A} P (f : E -> F) (m : Prog E A) Q Q' :
  ensures P m Q' ->
  (forall r s, Q' r s -> Q (match r with
     | Ok a => Ok a | Err (Failed e) => Err (Failed (f e)) | Err Ended => Err Ended
     | Err Unfinished => Err Unfinished end) s) ->
  ensures P (mapping f m) Q.
Proof.
  intros Hm HQ s Hs. specialize (Hm s Hs). unfold mapping.
  destruct (m s) as [[a|[| |e]] s']; cbn [fst snd] in *; by apply HQ in Hm.
Qed.
Lemma ensures_attempt {E F A} P (m : Prog E A) (Q : Result (Outcome F) (Result E A) -> Site -> Prop) Q' :
  ensures P m Q' ->
  (forall r s, Q' r s -> Q (match r with
     | Ok a => Ok (Ok a) | Err (Failed e) => Ok (Err e) | Err Ended => Err Ended
     | Err Unfinished => Err Unfinished end) s) ->
  ensures P (attempt m) Q.
Proof.
  intros Hm HQ s Hs. specialize (Hm s Hs). unfold attempt.
  destruct (m s) as [[a|[| |e]] s']; cbn [fst snd] in *; by apply HQ in Hm.
Qed.
Lemma ensures_disk {A} P (m : M FsError Disk A) Q N N' :
  leaves N m N' -> (forall s, P s -> N (nodes (s_disk s))) ->
  (forall s r d, P s -> N' r (nodes d) -> Q (match r with
     | Ok a => Ok a | Err Crashed => Err Ended | Err e => Err (Failed (OnDisk e)) end) (at_disk d s)) ->
  ensures P (on_disk m) Q.
Proof.
  intros Hm HP HQ s Hs. specialize (Hm (s_disk s) (HP s Hs)). unfold on_disk.
  destruct (m (s_disk s)) as [r d]. exact (HQ s r d Hs Hm).
Qed.
Lemma ensures_mono {E A} P P' (m : Prog E A) Q Q' :
  ensures P' m Q' -> (forall s, P s -> P' s) -> (forall r s, Q' r s -> Q r s) -> ensures P m Q.
Proof. intros Hm HP HQ s Hs. by apply HQ, Hm, HP. Qed.
Lemma ensures_gets {E A} P (f : Site -> A) Q :
  (forall s, P s -> Q (Ok (f s)) s) -> ensures P (@gets (Outcome E) Site A f) Q.
Proof. intros HQ s Hs. by apply HQ. Qed.

(** A property of the disk alone. *)
Definition disk_is (N : gmap string Node -> Prop) (s : Site) : Prop := N (nodes (s_disk s)).

Lemma ensures_registry {A} N (m : M InvError Db A) :
  ensures (disk_is N) (on_registry m) (fun _ => disk_is N).
Proof. intros s Hs. unfold on_registry. destruct (meanwhile _ _) as [db h]. by destruct (m db) as [[a|e] db']. Qed.
Lemma ensures_draw {E} N : ensures (disk_is N) (@draw E) (fun _ => disk_is N).
Proof. intros s Hs. unfold draw. by destruct (nonce _). Qed.
Lemma ensures_checked {E F A} P (f : E -> F) (r : Result E A) : ensures P (checked f r) (fun _ => P).
Proof. by destruct r; intros s Hs. Qed.
Lemma ensures_quiet {E A B} N (m : Prog E A) (k : A -> Prog E B) Q :
  ensures (disk_is N) m (fun _ => disk_is N) -> (forall e s, disk_is N s -> Q (Err e) s) ->
  (forall a, ensures (disk_is N) (k a) Q) -> ensures (disk_is N) (bind m k) Q.
Proof.
  intros Hm He Hk. eapply ensures_bind; [|exact Hk]. eapply ensures_mono; [exact Hm|done|].
  intros [a|e] s Hs; [done|by apply He].
Qed.
Lemma ensures_on_disk {A} N (m : M FsError Disk A) N' :
  leaves N m N' ->
  ensures (disk_is N) (on_disk m) (fun r s => exists r', N' r' (nodes (s_disk s))
    /\ r = match r' with Ok a => Ok a | Err Crashed => Err Ended | Err e => Err (Failed (OnDisk e)) end).
Proof. intros Hm. eapply ensures_disk; [exact Hm|done|]. intros s r d Hs Hr. eauto. Qed.
End Programs.
