(* ===== verification/Profiles.v ===== *)
(** * Profiles: a project's own Hermes home ([profiles.rs], and
    [default_profile_name] of [service.rs]).

    Building a home, its files and links, reading a worker's key, and bringing
    an existing home up to its credential assignment.  Paths on the disk of
    [Fs]; the process id, the worker key's random bytes and the answers of
    [canonicalize] are arguments. *)
From Stdlib Require Import Lia.
From stdpp Require Import gmap.
From S2P Require Import Prelude Text Json Schema Identifiers Inventory Fs CredentialHomes Host.

Definition HOST_PROFILE : string := "asterism-host".

Record CredentialPaths : Type := {
  cp_home_root : string;
  cp_shared_auth : string;
  cp_codex_auth : string;
  cp_credential_root : string
}.

Record ProvisionSettings : Type := {
  ps_home_root : string;
  ps_shared_auth : string;
  ps_codex_auth : string;
  ps_credential_root : string;
  ps_first_port : Z;
  ps_last_port : Z;
  ps_reserved_ports : list Z;
  ps_production_home : string;
  ps_runtime_uid : Z
}.

(** [ProvisionSettings::credentials]. *)
Definition credentials (s : ProvisionSettings) : CredentialPaths :=
  {| cp_home_root := ps_home_root s; cp_shared_auth := ps_shared_auth s;
     cp_codex_auth := ps_codex_auth s; cp_credential_root := ps_credential_root s |}.

Record ProfileLayout : Type := { pl_home : string; pl_profile : string }.

Definition layout (s : ProvisionSettings) (profile : string) : ProfileLayout :=
  {| pl_home := path_join (ps_home_root s) profile; pl_profile := profile |}.

Module ProfileLayout.
Definition config (l : ProfileLayout) : string := path_join (pl_home l) "config.yaml".
Definition runtime_env (l : ProfileLayout) : string := path_join (pl_home l) "runtime.env".
Definition auth (l : ProfileLayout) : string := path_join (pl_home l) "auth.json".
Definition auth_lock (l : ProfileLayout) : string := path_join (pl_home l) LOCK_FILE.
Definition codex_home (l : ProfileLayout) : string := path_join (pl_home l) ".codex".
Definition codex_auth (l : ProfileLayout) : string := path_join (codex_home l) "auth.json".
Definition complete (l : ProfileLayout) (n : gmap string Node) : bool :=
  is_file n (config l) && is_file n (runtime_env l).
End ProfileLayout.

Inductive CredentialLink : Type :=
| Created
| AlreadyCorrect
| Repaired
| KeptExistingFile
| Mismatched.
#[export] Instance CredentialLink_eq_dec : EqDecision CredentialLink.
Proof. solve_decision. Defined.

(** The target of a link found by [symlink_metadata], and equality of [Path]s,
    which is by components. *)
Definition link_body (x : Node) : string := of_chars (f_body x).
Definition same_path (a b : string) : bool := bool_decide (components a = components b).

Section Links.
Context `{Process}.

Definition link_to_host_credential (target link nonce : string) : M FsError Disk CredentialLink :=
  if negb (str_starts_with "/" target) then fail (Refused "the host credential path must be absolute")
  else if List.existsb (fun c => bool_decide (c = ParentDir)) (components target)
  then fail (Refused "the host credential path must not climb out of itself")
  else
    let! found := look (fun n => symlink_metadata n link) in
    match found with
    | Some x =>
        if bool_decide (f_kind x = Symlink) then
          if same_path (link_body x) target then ret AlreadyCorrect
          else swap_link target link false nonce ;;; ret Repaired
        else ret KeptExistingFile
    | None =>
        match parent link with Some p => create_dir_all p | None => ret tt end ;;;
        symlink target link ;;;
        ret Created
    end.

(** [CredentialPaths::store_for]. *)
Definition store_for (p : CredentialPaths) (assignment : option string) : Result IdError string :=
  match assignment with
  | Some id => credential_file (cp_credential_root p) id
  | None => Ok (cp_shared_auth p)
  end.

Definition point_link (target link : string) (live : bool) (nonce : string) : M FsError Disk CredentialLink :=
  let! found := look (fun n => symlink_metadata n link) in
  match found with
  | Some x =>
      if live && bool_decide (f_kind x = Symlink) && negb (same_path (link_body x) target)
      then ret Mismatched
      else link_to_host_credential target link nonce
  | None => link_to_host_credential target link nonce
  end.

Definition point_lock (target link : string) (live : bool) (nonce : string) : M FsError Disk CredentialLink :=
  let! found := look (fun n => symlink_metadata n link) in
  match found with
  | Some x =>
      if bool_decide (f_kind x = Symlink) then
        if same_path (link_body x) target then ret AlreadyCorrect
        else if live then ret Mismatched
        else swap_link target link true nonce ;;; ret Repaired
      else if live then ret Mismatched
      else swap_link target link true nonce ;;; ret Repaired
  | None => swap_link target link true nonce ;;; ret Created
  end.
End Links.

(** Validated rather than escaped: it becomes a unit name and a directory. *)
Definition validate_profile_name (profile : string) : Result NodeError unit :=
  if (profile =? "")%string || (72 <? len profile)
  then Err (Bail "profile name must be between 1 and 72 characters")
  else if negb (all_chars (fun c => is_ascii_lower c || is_ascii_digit c || one_of "-" c) profile)
  then Err (Bail "profile name must be lowercase alphanumeric or dashes")
  else if str_starts_with "-" profile || ends_with $"-" (chars profile)
  then Err (Bail "profile name must not start or end with a dash")
  else Ok tt.

(** [service::default_profile_name]; ids are ASCII. *)
Definition default_profile_name (project_id : string) : string :=
  "asterism-project-"
    +:+ of_chars (firstn 48 (List.map (fun c => if is_ascii_alphanumeric c then to_ascii_lowercase c
                                                else Ascii.ascii_of_N 45) (chars project_id))).

(** [Path::starts_with], by components. *)
Definition path_within (path base : string) : bool :=
  match strip_components (components base) (components path) with Some _ => true | None => false end.

Definition validate_home (s : ProvisionSettings) (fs : FileSystem) (home workspace : string) :
    Result NodeError unit :=
  if same_path home (ps_production_home s)
  then Err (Bail "refusing to use the production Hermes home for a project")
  else
    let workspace := default workspace (canonicalize fs workspace) in
    if path_within home workspace
    then Err (Bail "refusing to place a Hermes home inside a project workspace")
    else if negb (path_within home (ps_home_root s))
    then Err (Bail "refusing a Hermes home outside the configured root")
    else Ok tt.

(** [generate_api_key] from the 32 random bytes. *)
Definition generate_api_key (random : list Z) : bytes := List.concat (List.map (hex_fixed 2) random).

Definition KEY_PREFIX : bytes := $"API_SERVER_KEY=".

Definition read_worker_key (path : string) (expected_uid : Z) (n : gmap string Node) :
    Result NodeError bytes :=
  match symlink_metadata n path with
  | None => Err (OnDisk (Io NotFound))
  | Some x =>
      if bool_decide (f_kind x = Symlink)
      then Err (Bail "worker credential must be a regular file, not a symlink")
      else if negb (bool_decide (f_kind x = RegularFile))
      then Err (Bail "worker credential must be a regular file")
      else if negb (f_owner x =? expected_uid)
      then Err (Bail ("worker credential is owned by uid " +:+ decimal (f_owner x) +:+ ", not "
                      +:+ decimal expected_uid))
      else
        let mode := Z.land (f_mode x) 0x1FF in
        if negb (Z.land mode 0x3F =? 0)
        then Err (Bail ("worker credential mode " +:+ octal mode +:+ " is readable beyond its owner"))
        else match read_to_string n path with
             | Err e => Err (OnDisk (Io e))
             | Ok contents =>
                 match omap (strip_prefix KEY_PREFIX) (lines contents) with
                 | value :: _ => Ok (trim value)
                 | [] => Err (Bail "worker credential contains no API_SERVER_KEY")
                 end
             end
  end.

(** The lines of [runtime.env] and [config.yaml]. *)
Definition runtime_env_lines (l : ProfileLayout) (port : Z) (api_key : bytes) : list bytes :=
  let home := chars (pl_home l) in
  let home_parent := chars (default (pl_home l) (parent (pl_home l))) in
  [$"# Generated by Asterism. One project's Hermes worker.";
   $"HOME=" ++ home_parent;
   $"HERMES_HOME=" ++ home;
   $"HERMES_CONFIG_DIR=" ++ home;
   $"CODEX_HOME=" ++ home ++ $"/.codex";
   $"API_SERVER_ENABLED=true";
   $"API_SERVER_HOST=127.0.0.1";
   $"API_SERVER_PORT=" ++ chars (decimal port);
   KEY_PREFIX ++ api_key;
   $"PYTHONUNBUFFERED=1"].
Definition render_runtime_env (l : ProfileLayout) (port : Z) (api_key : bytes) : bytes :=
  unlines (runtime_env_lines l port api_key).

(** [workdesk::config_lines]. *)
Definition config_lines : list bytes := [$"kanban:"; $"  dispatch_in_gateway: false"].
Definition config_file_lines (workspace : string) (port : Z) : list bytes :=
  [$"# Generated by Asterism. Do not edit: provisioning rewrites this file.";
   $"model:"; $"  provider: openai-codex";
   $"database:"; $"  journal_mode: wal";
   $"terminal:"; $"  backend: local"; $"  cwd: " ++ chars workspace;
   $"approvals:"; $"  mode: manual";
   $"api_server:"; $"  enabled: true"; $"  host: 127.0.0.1"; $"  port: " ++ chars (decimal port)]
  ++ config_lines.
Definition render_config (workspace : string) (port : Z) : bytes :=
  unlines (config_file_lines workspace port).

Section Homes.
Context `{SerdeJson} `{Process} `{Supervisor}.

Definition reconcile_credentials (paths : CredentialPaths) (profile : string)
    (assignment : option string) (live : bool) : Prog NodeError (list (string * CredentialLink)) :=
  checked id (validate_profile_name profile) ;;;
  let l := {| pl_home := path_join (cp_home_root paths) profile; pl_profile := profile |} in
  let! there := on_disk (look (fun n => Fs.is_dir n (pl_home l))) in
  if negb there then ret []
  else
    let! store := checked OnId (store_for paths assignment) in
    let! x := draw in
    let! hermes := on_disk (point_link store (ProfileLayout.auth l) live x) in
    let! lock :=
      match assignment with
      | Some id =>
          let! target := checked OnId (lock_file (cp_credential_root paths) id) in
          let! x := draw in
          let! o := on_disk (point_lock target (ProfileLayout.auth_lock l) live x) in
          ret [("lock"%string, o)]
      | None =>
          if live then ret []
          else
            let! found := on_disk (look (fun n => symlink_metadata n (ProfileLayout.auth_lock l))) in
            match found with
            | Some x =>
                if bool_decide (f_kind x = Symlink)
                then on_disk (remove_link (ProfileLayout.auth_lock l)) ;;; ret [("lock"%string, Repaired)]
                else ret []
            | None => ret []
            end
      end in
    let! codex := on_disk (look (fun n => Fs.is_dir n (ProfileLayout.codex_home l))) in
    (if codex : bool then ret tt else on_disk (create_dir_all (ProfileLayout.codex_home l))) ;;;
    on_disk (set_permissions (ProfileLayout.codex_home l) 0x1C0) ;;;
    let! x := draw in
    let! linked := on_disk (link_to_host_credential (cp_codex_auth paths) (ProfileLayout.codex_auth l) x) in
    ret (("hermes"%string, hermes) :: lock ++ [("codex"%string, linked)]).

Record ProvisionedProfile : Type := {
  pp_profile : string;
  pp_home : string;
  pp_endpoint : string;
  pp_api_key_ref : string;
  pp_created : bool
}.

(** The closure [build] of [provision_project_profile]: everything is written
    into the staging directory, the worker's key last. *)
Definition build (s : ProvisionSettings) (profile staging workspace : string) (port : Z)
    (random : list Z) (n1 n2 : string) : M FsError Disk unit :=
  let staged := {| pl_home := staging; pl_profile := profile |} in
  create_dir_all staging ;;;
  set_permissions staging 0x1C0 ;;;
  create_dir_all (path_join staging "sessions") ;;;
  create_dir_all (path_join staging "memories") ;;;
  create_dir_all (path_join staging "logs") ;;;
  write (ProfileLayout.config staged) (render_config workspace port) ;;;
  set_permissions (ProfileLayout.config staged) 0x180 ;;;
  link_to_host_credential (ps_shared_auth s) (ProfileLayout.auth staged) n1 ;;;
  create_dir_all (ProfileLayout.codex_home staged) ;;;
  set_permissions (ProfileLayout.codex_home staged) 0x1C0 ;;;
  link_to_host_credential (ps_codex_auth s) (ProfileLayout.codex_auth staged) n2 ;;;
  write (ProfileLayout.runtime_env staged)
    (render_runtime_env (layout s profile) port (generate_api_key random)) ;;;
  set_permissions (ProfileLayout.runtime_env staged) 0x180.

(** What is done when building or committing fails. *)
Definition abandon {A} (project_id staging : string) (e : NodeError) : Prog NodeError A :=
  on_disk (ignore_errors (remove_dir_all staging)) ;;;
  on_registry (release_endpoint project_id) ;;;
  on_registry (set_profile_state project_id ProfileFailed (Some "profile_home_failed"%string)) ;;;
  throw e.

Definition staging_dir (s : ProvisionSettings) (profile : string) (pid : Z) : string :=
  path_join (ps_home_root s) (".provisioning-" +:+ profile +:+ "-" +:+ decimal pid).

(** Built beside the target and renamed into place. *)
Definition construct_home (s : ProvisionSettings) (project_id profile workspace : string) (port pid : Z)
    (random : list Z) : Prog NodeError unit :=
  let staging := staging_dir s profile pid in
  on_disk (ignore_errors (remove_dir_all staging)) ;;;
  let! n1 := draw in
  let! n2 := draw in
  let! built := attempt (on_disk (build s profile staging workspace port random n1 n2)) in
  match built with
  | Err e => abandon project_id staging e
  | Ok _ =>
      let! moved := attempt (on_disk (rename_dir staging (pl_home (layout s profile)))) in
      match moved with
      | Err e => abandon project_id staging e
      | Ok _ => ret tt
      end
  end.

Definition provision_project_profile (s : ProvisionSettings) (fs : FileSystem)
    (elsewhere : nat -> Db -> Db) (occupied : Z -> bool) (pid : Z) (random : list Z)
    (project_id : string) : Prog NodeError ProvisionedProfile :=
  let! found := on_registry (query (project project_id)) in
  let! p := checked Bail (context found ("project " +:+ project_id +:+ " is not registered")) in
  let profile := default_profile_name project_id in
  checked id (validate_profile_name profile) ;;;
  if (profile =? HOST_PROFILE)%string
  then throw (Bail ("project " +:+ project_id +:+ " resolves to the reserved host profile name"))
  else
    let l := layout s profile in
    let workspace := rp_workspace_path p in
    checked id (validate_home s fs (pl_home l) workspace) ;;;
    on_registry (set_profile_state project_id Provisioning None) ;;;
    let! endpoint := on_registry (reserve_endpoint elsewhere project_id (ps_first_port s)
                                    (ps_last_port s) (ps_reserved_ports s) occupied) in
    let! port := checked Bail (context (endpoint_port endpoint)
                                 ("reserved endpoint " +:+ endpoint +:+ " names no port")) in
    let done created :=
      on_registry (set_profile_runtime project_id (pl_home l) profile endpoint
                     (ProfileLayout.runtime_env l) Provisioning) ;;;
      ret {| pp_profile := profile; pp_home := pl_home l; pp_endpoint := endpoint;
             pp_api_key_ref := ProfileLayout.runtime_env l; pp_created := created |} in
    let! whole := on_disk (look (ProfileLayout.complete l)) in
    if whole : bool then done false
    else
      on_disk (create_dir_all (ps_home_root s)) ;;;
      construct_home s project_id profile workspace port pid random ;;;
      done true.
End Homes.
