(* ===== verification/ProfileTheorems.v ===== *)
(** * ProfileTheorems: a project's Hermes home is built whole or not at all,
    its key reads back, and reconciling its links destroys nothing. *)
From Stdlib Require Import Lia.
From stdpp Require Import gmap pretty.
From S2P Require Import Prelude Text Json Schema Identifiers Inventory InventoryFacts Fs CredentialHomes Host Profiles.

Lemma append_empty_r s : s +:+ "" = s.
Proof. apply string_chars_inj. by rewrite chars_append, app_nil_r. Qed.

(** ** Building the home *)

Section Build.
Context `{Process} (s : ProvisionSettings) (profile workspace staging : string) (port : Z) (random : list Z).
Context (Hst : plain_dir staging) (n0 : gmap string Node).

Lemma tree_link t rel prel dir target x :
  rooted rel = true -> t !! rel = None ->
  parent (staging +:+ rel) = Some (staging +:+ prel) -> rooted prel = true ->
  t !! prel = Some dir -> f_kind dir = Directory ->
  leaves (built staging n0 t) (link_to_host_credential target (staging +:+ rel) x)
    (or_outside staging n0 (built staging n0 (<[rel := new_link target]> t))).
Proof.
  intros Hr Ht Hp Hpr Hd Hk. unfold link_to_host_credential.
  destruct (negb _); [apply leaves_fail; by intros n []|].
  destruct (List.existsb _ _); [apply leaves_fail; by intros n []|].
  apply leaves_bind with (Q1 := fun found n => found = None /\ built staging n0 t n).
  { apply leaves_look. intros n Hn. split; [|done]. unfold symlink_metadata.
    destruct Hn as [_ Hb]. by rewrite Hb. }
  intros [y|]; [by intros d [? _]|]. rewrite Hp.
  eapply leaves_mono with (P' := built staging n0 t); [|by intros n [_ ?]|by intros r n ?].
  eapply leaves_then; [by apply (tree_dir_there staging n0 t prel dir)|].
  eapply leaves_then; [by apply tree_symlink|]. by apply leaves_ret.
Qed.

Definition home_dir : Node := with_mode 0x1C0 new_dir.
Definition private_file (body : bytes) : Node := with_mode 0x180 (new_file body).

(** What a finished home holds, by path relative to it. *)
Definition home_tree : gmap string Node :=
  list_to_map
    [("", home_dir); ("/sessions", new_dir); ("/memories", new_dir); ("/logs", new_dir);
     ("/config.yaml", private_file (render_config workspace port));
     ("/auth.json", new_link (ps_shared_auth s));
     ("/.codex", home_dir); ("/.codex/auth.json", new_link (ps_codex_auth s));
     ("/runtime.env", private_file (render_runtime_env (layout s profile) port (generate_api_key random)))]%string.

Lemma built_ext t t' n : t = t' -> built staging n0 t n -> built staging n0 t' n.
Proof. by intros ->. Qed.

Lemma build_leaves n1 n2 :
  leaves (built staging n0 ∅) (build s profile staging workspace port random n1 n2)
    (or_outside staging n0 (built staging n0 home_tree)).
Proof.
  assert (forall name, plain_name name -> path_join staging name = staging +:+ ("/" +:+ name)) as Hj
    by (intros; by apply path_join_plain, plain_name_relative).
  assert (forall name, plain_name name -> parent (staging +:+ ("/" +:+ name)) = Some (staging +:+ "")) as Hp.
  { intros name Hn. rewrite <- Hj by done. rewrite append_empty_r. by apply parent_join. }
  assert (forall name, In name ["sessions"; "memories"; "logs"; "config.yaml"; "auth.json"; ".codex"; "runtime.env"]%string
            -> plain_name name) as Hnames.
  { intros name Hin. split; [|intros Hs]; cbn in Hin;
      repeat (destruct Hin as [<-|Hin]; [vm_compute in *; intuition discriminate|]); done. }
  assert (plain_dir (staging +:+ "/.codex")) as Hc.
  { change "/.codex"%string with ("/" +:+ ".codex"). rewrite <- Hj by (apply Hnames; cbn; tauto).
    apply plain_join, Hnames. cbn. tauto. }
  assert (path_join (staging +:+ "/.codex") "auth.json" = staging +:+ "/.codex/auth.json") as Hca.
  { rewrite path_join_plain by done. apply string_chars_inj. rewrite !chars_append. by rewrite <- app_assoc. }
  assert (parent (staging +:+ "/.codex/auth.json") = Some (staging +:+ "/.codex")) as Hpc.
  { rewrite <- Hca. apply parent_join; [done|]. apply Hnames. cbn. tauto. }
  unfold build, ProfileLayout.config, ProfileLayout.auth, ProfileLayout.codex_auth, ProfileLayout.codex_home,
    ProfileLayout.runtime_env, set_permissions. cbn [pl_home].
  rewrite !Hj by (apply Hnames; cbn; tauto). clear Hj.
  change ("/" +:+ "sessions") with "/sessions"%string. change ("/" +:+ "memories") with "/memories"%string.
  change ("/" +:+ "logs") with "/logs"%string. change ("/" +:+ "config.yaml") with "/config.yaml"%string.
  change ("/" +:+ "auth.json") with "/auth.json"%string. change ("/" +:+ ".codex") with "/.codex"%string.
  change ("/" +:+ "runtime.env") with "/runtime.env"%string. rewrite Hca.
  pose proof (tree_create_dir staging n0 ∅ "") as Hroot.
  pose proof (fun t => tree_through staging n0 t "") as Hmode. rewrite append_empty_r in Hroot, Hmode.
  eapply leaves_then; [by apply Hroot|].
  eapply leaves_then; [by apply (Hmode _ new_dir)|].
  do 3 (eapply leaves_then; [by apply tree_create_dir|]).
  eapply leaves_then; [by apply tree_write|].
  eapply leaves_then; [by apply (tree_through _ _ _ _ (new_file (render_config workspace port)))|].
  eapply leaves_then; [apply (tree_link _ _ "" home_dir); [done|done|apply (Hp "auth.json"%string), Hnames; cbn; tauto|done..]|].
  eapply leaves_then; [by apply tree_create_dir|].
  eapply leaves_then; [by apply (tree_through _ _ _ _ new_dir)|].
  eapply leaves_then; [by apply (tree_link _ _ "/.codex" home_dir)|].
  eapply leaves_then; [by apply tree_write|].
  eapply leaves_mono; [|intros n Hn; exact Hn|].
  { by apply (tree_through _ _ _ _ (new_file (render_runtime_env (layout s profile) port (generate_api_key random)))). }
  intros [[]|e] n; [|done]. cbn [or_outside]. apply built_ext. vm_compute. reflexivity.
Qed.
End Build.

(** ** Names *)

Lemma profile_char c :
  (if is_ascii_alphanumeric c then to_ascii_lowercase c else Ascii.ascii_of_N 45) <> SLASH.
Proof. destruct c as [[] [] [] [] [] [] [] []]; by vm_compute. Qed.

Lemma default_profile_slash id : ~ In SLASH (chars (default_profile_name id)).
Proof.
  unfold default_profile_name. rewrite chars_append, of_chars_chars, in_app_iff.
  intros [Hin|Hin]; [vm_compute in Hin; naive_solver|].
  set (l := List.map _ _) in Hin. assert (In SLASH l) as (c & Hc & _)%in_map_iff.
  { rewrite <- (firstn_skipn 48 l). apply in_app_iff. by left. }
  by apply profile_char in Hc.
Qed.

Lemma decimal_slash z : ~ In SLASH (chars (decimal z)).
Proof.
  assert (forall p, ~ In SLASH (chars (pretty_N_go (N.pos p) ""))) as Hp.
  { intros p Hin. assert (all_chars is_ascii_digit (pretty_N_go (N.pos p) "") = true) as Hd by by apply pretty_digits.
    unfold all_chars in Hd. rewrite forallb_forall in Hd. by apply Hd in Hin. }
  unfold decimal, pretty, pretty_Z. destruct z as [|p|p]; [vm_compute; naive_solver|apply Hp|].
  change (chars (?a +:+ ?b)) with (chars (a +:+ b)). rewrite chars_append.
  intros [Hin|Hin]%in_app_iff; [vm_compute in Hin; naive_solver|by apply Hp in Hin].
Qed.

(** Siblings whose names begin differently share nothing. *)
Lemma join_base root : exists base, forall name, str_starts_with "/" name = false -> path_join root name = base +:+ name.
Proof.
  destruct ((root =? "")%string || ends_with $"/" (chars root)) eqn:E.
  - exists root. intros name Hn. unfold path_join. by rewrite Hn, E.
  - exists (root +:+ "/"). intros name Hn. unfold path_join. rewrite Hn, E.
    apply string_chars_inj. rewrite !chars_append. by rewrite app_assoc.
Qed.

Lemma below_sibling root a b k :
  plain_name a -> plain_name b -> head (chars a) <> head (chars b) ->
  below (path_join root a) k = true -> below (path_join root b) k = false.
Proof.
  intros Ha Hb Hne Hk. destruct (below (path_join root b) k) eqn:E; [exfalso|done].
  destruct (join_base root) as [base Hj]. rewrite !Hj in * by (by apply plain_name_relative).
  apply below_spec in Hk as (r1 & -> & _), E as (r2 & E & _). apply (f_equal chars) in E.
  rewrite !chars_append, <- !app_assoc in E. apply app_inv_head in E.
  destruct Ha as [Ha _], Hb as [Hb _]. rewrite <- chars_nil in Ha, Hb.
  destruct (chars a), (chars b); cbn in *; naive_solver.
Qed.

Lemma join_not_root root name rel : plain_name name -> path_join root name +:+ rel <> root.
Proof.
  intros Hn E. apply (f_equal String.length) in E. rewrite string_length_append in E.
  pose proof (path_join_longer root name (plain_name_relative name Hn) (proj1 Hn)). lia.
Qed.

Section Provision.
Context `{SerdeJson} `{Process} `{Supervisor}.
Context (s : ProvisionSettings) (fs : FileSystem) (elsewhere : nat -> Db -> Db) (occupied : Z -> bool).
Context (pid : Z) (random : list Z) (project_id : string).

Definition profile_of : string := default_profile_name project_id.
Definition home_of : string := pl_home (layout s profile_of).
Definition staging_of : string := staging_dir s profile_of pid.

Lemma profile_plain : plain_name profile_of.
Proof. split; [done|apply default_profile_slash]. Qed.

Lemma staging_name_plain : plain_name (".provisioning-" +:+ profile_of +:+ "-" +:+ decimal pid).
Proof.
  split; [done|]. rewrite !chars_append, !in_app_iff.
  intros [Hin|[Hin|[Hin|Hin]]]; [vm_compute in Hin; naive_solver|by apply default_profile_slash in Hin
    |vm_compute in Hin; naive_solver|by apply decimal_slash in Hin].
Qed.

Lemma home_not_staging k : below home_of k = true -> below staging_of k = false.
Proof. apply below_sibling; [apply profile_plain|apply staging_name_plain|done]. Qed.

(** The home is as it was; or it is whole.  Nothing else has changed, but for
    the attempt's own directory and perhaps the root of all homes. *)
Definition frame (n0 n : gmap string Node) : Prop :=
  forall k, below home_of k = false -> below staging_of k = false -> k <> ps_home_root s -> n !! k = n0 !! k.
Definition home_kept (n0 n : gmap string Node) : Prop :=
  frame n0 n /\ forall k, below home_of k = true -> n !! k = n0 !! k.
Definition home_whole (n0 n : gmap string Node) : Prop :=
  frame n0 n /\ exists workspace port, forall rel, rooted rel = true ->
    n !! (home_of +:+ rel) = home_tree s profile_of workspace port random !! rel.
Definition fresh_staging (n0 : gmap string Node) : Prop := forall k, below staging_of k = true -> n0 !! k = None.

(** Before the build: nothing has changed but the root of all homes. *)
Definition rooted_in (n0 n1 : gmap string Node) : Prop := forall k, k <> ps_home_root s -> n1 !! k = n0 !! k.

Lemma rooted_kept n0 n : rooted_in n0 n -> home_kept n0 n.
Proof.
  intros Hr. split; [by intros k _ _ Hk; apply Hr|]. intros k (rel & -> & _)%below_spec. apply Hr.
  apply join_not_root, profile_plain.
Qed.

Lemma rooted_built n0 n1 : fresh_staging n0 -> rooted_in n0 n1 -> built staging_of n1 ∅ n1.
Proof.
  intros Hf Hr. split; [done|]. intros rel Hrel. rewrite Hr by (apply join_not_root, staging_name_plain).
  rewrite lookup_empty. apply Hf. by apply below_rel.
Qed.

Lemma outside_kept n0 n1 n : rooted_in n0 n1 -> outside staging_of n1 n -> home_kept n0 n.
Proof.
  intros Hr Ho. split.
  - intros k _ Hs Hk. rewrite Ho by done. by apply Hr.
  - intros k Hk. rewrite Ho by (by apply home_not_staging). apply Hr.
    apply below_spec in Hk as (rel & -> & _). apply join_not_root, profile_plain.
Qed.

Lemma commit_leaves n0 n1 workspace port :
  rooted_in n0 n1 ->
  leaves (built staging_of n1 (home_tree s profile_of workspace port random)) (rename_dir staging_of home_of)
    (fun r n => match r with Ok _ => home_whole n0 n | Err _ => outside staging_of n1 n end).
Proof.
  intros Hr. apply leaves_syscall. intros n Hb. split; [by destruct Hb|]. split; [by destruct Hb|].
  assert (below home_of staging_of = false) as Hhs.
  { destruct (below home_of staging_of) eqn:E; [|done]. apply home_not_staging in E.
    rewrite <- (append_empty_r staging_of) in E at 2. by rewrite below_rel in E. }
  assert (below staging_of home_of = false) as Hsh.
  { apply home_not_staging. rewrite <- (append_empty_r home_of) at 2. by apply below_rel. }
  assert (forall k, below home_of k = true -> k <> home_of -> occupied_below home_of n = false -> n !! k = None) as Hocc.
  { intros k Hk Hne Hocc. destruct (n !! k) as [x|] eqn:E; [exfalso|done].
    unfold occupied_below in Hocc. rewrite existsb_false in Hocc. specialize (Hocc (k, x)). cbn [fst] in Hocc.
    rewrite Hk, (proj2 (String.eqb_neq _ _) Hne) in Hocc. cbn in Hocc. discriminate Hocc.
    by apply list_elem_of_In, elem_of_map_to_list. }
  assert (occupied_below home_of n = false -> home_whole n0 (move_tree staging_of home_of n)) as Hmove.
  { intros Ho. destruct (move_tree_built staging_of home_of n1 _ n Hsh Hhs Hb) as [Hin Hout]; [by auto|done|].
    split; [|by eauto]. intros k Hk Hs Hroot. rewrite Hout by done. by apply Hr. }
  destruct (n !! staging_of) as [x|]; [|by destruct Hb].
  destruct (negb _ || _) eqn:E; [by destruct Hb|]. apply orb_false_iff in E as [_ E].
  destruct (n !! home_of) as [y|]; [|auto]. destruct (bool_decide _); [auto|by destruct Hb].
Qed.

Lemma create_root_leaves n0 :
  leaves (fun n => n = n0) (create_dir_all (ps_home_root s)) (fun _ n => rooted_in n0 n).
Proof.
  apply leaves_syscall. intros n ->. split; [by intros k|]. split; [by intros k|].
  destruct (resolve _ _ _) as [p|].
  - destruct (n0 !! p) as [x|]; [destruct (bool_decide _)|]; by intros k.
  - destruct (n0 !! ps_home_root s); [by intros k|]. intros k Hk. by rewrite lookup_insert_ne.
Qed.

Lemma clean_kept n0 n1 :
  rooted_in n0 n1 ->
  leaves (outside staging_of n1) (ignore_errors (remove_dir_all staging_of)) (fun _ => outside staging_of n1).
Proof.
  intros Hr d Hd. unfold ignore_errors, remove_dir_all, syscall.
  assert (outside staging_of n1 (filter (fun e => below staging_of (fst e) = false) (nodes d))) as Hf.
  { intros k Hk. rewrite <- Hd by done. destruct (nodes d !! k) eqn:E.
    - by apply map_lookup_filter_Some.
    - apply map_lookup_filter_None. by left. }
  destruct (plan d) as [|[] p]; cbn [fst snd nodes List.tl]; try done;
    by destruct (nodes d !! staging_of).
Qed.

Lemma no_staging_left n1 :
  built staging_of n1 ∅ n1 ->
  leaves (fun n => n = n1) (ignore_errors (remove_dir_all staging_of)) (fun _ n => n = n1).
Proof.
  intros [_ Hb] d Hd. specialize (Hb "" eq_refl). rewrite append_empty_r, lookup_empty in Hb.
  unfold ignore_errors, remove_dir_all, syscall.
  destruct (plan d) as [|[] p]; cbn [fst snd nodes List.tl]; try done; rewrite Hd, Hb; done.
Qed.

(** How an attempt may leave the disk, and what it may claim. *)
Definition provisioned (n0 : gmap string Node) (r : Result (Outcome NodeError) ProvisionedProfile) (n : gmap string Node) : Prop :=
  match r with
  | Ok p => pp_api_key_ref p = ProfileLayout.runtime_env (layout s profile_of)
            /\ ProfileLayout.complete (layout s profile_of) n = true
            /\ (if pp_created p then home_whole n0 n else home_kept n0 n)
  | Err _ => home_kept n0 n \/ home_whole n0 n
  end.

Lemma whole_complete n0 n : home_whole n0 n -> ProfileLayout.complete (layout s profile_of) n = true.
Proof.
  intros [_ (workspace & port & Hw)]. assert (plain_dir home_of) as Hd by apply plain_join, profile_plain.
  unfold ProfileLayout.complete, ProfileLayout.config, ProfileLayout.runtime_env.
  change (pl_home (layout s profile_of)) with home_of. rewrite !path_join_plain by done.
  assert (forall rel x, rooted rel = true -> home_tree s profile_of workspace port random !! rel = Some x ->
    f_kind x = RegularFile -> is_file n (home_of +:+ rel) = true) as Hf.
  { intros rel x Hr Hx Hk. unfold is_file, has_kind. rewrite <- Hw in Hx by done.
    rewrite (resolve_file _ _ _ x), Hx by congruence. by rewrite bool_decide_eq_true_2. }
  apply andb_true_iff. split; eapply Hf; [done|vm_compute; reflexivity|done|done|vm_compute; reflexivity|done].
Qed.

(** The last steps leave the disk alone. *)
Lemma done_ensures {A} n0 (K : gmap string Node -> Prop) (m : M InvError Db A) p :
  (forall n, K n -> provisioned n0 (Ok p) n) -> (forall n, K n -> home_kept n0 n \/ home_whole n0 n) ->
  ensures (disk_is K) (on_registry m ;;; ret p) (fun r st => provisioned n0 r (nodes (s_disk st))).
Proof.
  intros Hok Herr. apply ensures_quiet; [apply ensures_registry|by intros e st Hst; apply Herr|].
  intros _. apply ensures_ret. intros st Hst. by apply Hok.
Qed.

Lemma abandon_ensures n0 n1 e :
  rooted_in n0 n1 ->
  ensures (disk_is (outside staging_of n1)) (abandon (A := unit) project_id staging_of e)
    (fun r st => r <> Ok tt /\ home_kept n0 (nodes (s_disk st))).
Proof.
  intros Hr. assert (forall e st, disk_is (outside staging_of n1) st ->
    @Err (Outcome NodeError) unit e <> Ok tt /\ home_kept n0 (nodes (s_disk st))) as Hk.
  { intros e' st Hst. split; [done|]. by eapply outside_kept. }
  unfold abandon. eapply ensures_bind with (R := fun _ => disk_is (outside staging_of n1)).
  - eapply ensures_mono; [apply ensures_on_disk, (clean_kept n0 n1 Hr)|done|].
    intros r st (r' & Hn & ->). destruct r' as [|[]]; [exact Hn|by apply Hk..].
  - intros _. do 2 (apply ensures_quiet; [apply ensures_registry|by apply Hk|intros _]).
    apply ensures_fail. by apply Hk.
Qed.

Lemma construct_ensures n0 n1 workspace port :
  fresh_staging n0 -> rooted_in n0 n1 ->
  ensures (disk_is (fun n => n = n1)) (construct_home s project_id profile_of workspace port pid random)
    (fun r st => match r with
                 | Ok _ => home_whole n0 (nodes (s_disk st))
                 | Err _ => home_kept n0 (nodes (s_disk st)) \/ home_whole n0 (nodes (s_disk st))
                 end).
Proof.
  intros Hf Hr. pose proof (rooted_built n0 n1 Hf Hr) as Hb. pose proof (rooted_kept n0 n1 Hr) as Hkept.
  unfold construct_home. change (staging_dir s profile_of pid) with staging_of.
  eapply ensures_bind with (R := fun _ => disk_is (fun n => n = n1)).
  { eapply ensures_mono; [by apply ensures_on_disk, no_staging_left|done|].
    intros r st (r' & Hn & ->). destruct r' as [|[]]; [exact Hn|left; cbn [disk_is] in Hn; rewrite Hn; exact Hkept..]. }
  intros _. do 2 (apply ensures_quiet; [apply ensures_draw|intros e st Hst; left; unfold disk_is in Hst; rewrite Hst; exact Hkept|intros ?]).
  eapply ensures_bind with (R := fun built st => match built with
    | Ok _ => disk_is (Fs.built staging_of n1 (home_tree s profile_of workspace port random)) st
    | Err _ => disk_is (outside staging_of n1) st end).
  { eapply ensures_attempt.
    - eapply ensures_mono; [apply ensures_on_disk, (build_leaves s profile_of workspace staging_of port random
        (plain_join _ _ staging_name_plain) n1)|intros st Hst; unfold disk_is in *; by rewrite Hst|by intros r st Hst; exact Hst].
    - intros r st (r' & Hn & ->). destruct r' as [[]|[]]; cbn [or_outside] in Hn; [exact Hn|..|exact Hn|exact Hn].
      left. by eapply outside_kept. }
  assert (forall e, ensures (disk_is (outside staging_of n1)) (abandon (A := unit) project_id staging_of e)
    (fun r st => match r with Ok _ => home_whole n0 (nodes (s_disk st))
     | Err _ => home_kept n0 (nodes (s_disk st)) \/ home_whole n0 (nodes (s_disk st)) end)) as Hab.
  { intros e. eapply ensures_mono; [by apply abandon_ensures|done|]. intros [[]|e'] st [? ?]; [done|by left]. }
  intros [[]|e]; [|apply Hab].
  eapply ensures_bind with (R := fun moved st => match moved with
    | Ok _ => disk_is (home_whole n0) st | Err _ => disk_is (outside staging_of n1) st end).
  { eapply ensures_attempt; [apply ensures_on_disk, (commit_leaves n0 n1 workspace port Hr)|].
    intros r st (r' & Hn & ->). destruct r' as [[]|[]]; [exact Hn|..|exact Hn|exact Hn].
    left. by eapply outside_kept. }
  intros [[]|e]; [|apply Hab]. by apply ensures_ret.
Qed.

Lemma provision_leaves st :
  fresh_staging (nodes (s_disk st)) ->
  let (r, st') := provision_project_profile s fs elsewhere occupied pid random project_id st in
  provisioned (nodes (s_disk st)) r (nodes (s_disk st')).
Proof.
  intros Hf. set (n0 := nodes (s_disk st)) in *.
  enough (ensures (disk_is (fun n => n = n0)) (provision_project_profile s fs elsewhere occupied pid random project_id)
    (fun r st => provisioned n0 r (nodes (s_disk st)))) as He.
  { specialize (He st eq_refl). by destruct (provision_project_profile _ _ _ _ _ _ _ _) as [r st']. }
  assert (home_kept n0 n0) as Hsame by (by apply rooted_kept).
  assert (forall e n, n = n0 -> provisioned n0 (Err e) n) as Herr by (by left; subst).
  unfold provision_project_profile.
  apply ensures_quiet; [apply ensures_registry|auto|]. intros found.
  apply ensures_quiet; [apply ensures_checked|auto|]. intros p.
  apply ensures_quiet; [apply ensures_checked|auto|]. intros _.
  split_if; [by apply ensures_fail|].
  apply ensures_quiet; [apply ensures_checked|auto|]. intros _.
  apply ensures_quiet; [apply ensures_registry|auto|]. intros _.
  apply ensures_quiet; [apply ensures_registry|auto|]. intros endpoint.
  apply ensures_quiet; [apply ensures_checked|auto|]. intros port.
  change (default_profile_name project_id) with profile_of.
  eapply ensures_bind with (R := fun whole st => nodes (s_disk st) = n0
    /\ whole = ProfileLayout.complete (layout s profile_of) n0).
  { eapply ensures_disk; [apply (leaves_look _ (fun n => n = n0)
      (fun r n => n = n0 /\ r = Ok (ProfileLayout.complete (layout s profile_of) n0)))|done|].
    - by intros n ->.
    - intros st1 r d _ [Hn ->]. by split. }
  intros [|].
  { intros st1 [Hn Hc]. apply (done_ensures n0 (fun n => n = n0)); [|by left; subst|done].
    intros n ->. split; [done|]. split; [|done]. by rewrite <- Hc. }
  eapply ensures_bind with (R := fun _ => disk_is (rooted_in n0)).
  { eapply ensures_mono; [apply ensures_on_disk, (create_root_leaves n0)|by intros st1 [? _]|].
    intros r st1 (r' & Hn & ->). destruct r' as [|[]]; [exact Hn|left; by apply rooted_kept..]. }
  intros _. eapply ensures_bind with (R := fun _ => disk_is (home_whole n0)).
  { intros st1 Hst1. pose proof (construct_ensures n0 _ (rp_workspace_path p) port Hf Hst1 st1 eq_refl) as Hc.
    by destruct (construct_home _ _ _ _ _ _ _ _) as [[[]|e] st2]. }
  intros _. apply done_ensures; [|by right]. intros n Hn. split; [done|]. split; [by eapply whole_complete|done].
Qed.
(** Provisioning a project's Hermes home is all or nothing: whatever call
    fails and wherever the node stops, the home is exactly as it was or holds
    every file, mode and link of a finished home, and nothing outside it has
    changed but the attempt's own staging directory and the root of all homes.
    An attempt that succeeds left a complete home: a new one, or the one that
    was there, untouched. *)
Theorem provisioning_is_all_or_nothing st :
  fresh_staging (nodes (s_disk st)) ->
  let (r, st') := provision_project_profile s fs elsewhere occupied pid random project_id st in
  provisioned (nodes (s_disk st)) r (nodes (s_disk st')).
Proof. apply provision_leaves. Qed.
End Provision.

(** ** The worker's key *)

Lemma hex_digit_plain d : plain_char (hex_digit (Z.land d 15)) = true.
Proof.
  change 15 with (Z.ones 4). rewrite Z.land_ones by lia.
  pose proof (Z.mod_pos_bound d (2 ^ 4) ltac:(lia)) as Hb. change (2 ^ 4) with 16 in *.
  set (m := d mod 16) in *. clearbody m.
  assert (In m [0; 1; 2; 3; 4; 5; 6; 7; 8; 9; 10; 11; 12; 13; 14; 15]) as Hin by (cbn; lia).
  cbn in Hin. repeat (destruct Hin as [<-|Hin]; [done|]). done.
Qed.

Lemma hex_fixed_plain w z : List.forallb plain_char (hex_fixed w z) = true.
Proof.
  revert z. induction w as [|w IH]; intros z; cbn [hex_fixed]; [done|].
  rewrite forallb_app, IH. cbn [List.forallb andb]. by rewrite hex_digit_plain.
Qed.

Lemma api_key_plain random : List.forallb plain_char (generate_api_key random) = true.
Proof.
  unfold generate_api_key. induction random as [|b l IH]; [done|]. cbn [List.map List.concat].
  by rewrite forallb_app, hex_fixed_plain, IH.
Qed.

(** Text that fits on one line of a file. *)
Definition one_line (l : bytes) : Prop := (~ In NL l /\ ~ In CR l) /\ valid_utf8 l = true.

Lemma plain_one_line l : List.forallb plain_char l = true -> one_line l.
Proof.
  intros Hl. rewrite forallb_forall in Hl. split.
  - split; intros Hin%Hl; discriminate Hin.
  - apply valid_utf8_plain. apply forallb_forall. intros c Hc%Hl.
    unfold plain_char, between in *. rewrite andb_true_iff, !N.leb_le in *. lia.
Qed.

Lemma one_line_app a b : one_line a -> one_line b -> one_line (a ++ b).
Proof.
  intros [[Ha1 Ha2] Ha] [[Hb1 Hb2] Hb]. split; [rewrite !in_app_iff; tauto|]. by rewrite valid_utf8_app.
Qed.

Lemma decimal_plain z : List.forallb plain_char (chars (decimal z)) = true.
Proof.
  assert (forall p, List.forallb plain_char (chars (pretty_N_go (N.pos p) "")) = true) as Hp.
  { intros p. apply forallb_forall. intros c Hin.
    assert (all_chars is_ascii_digit (pretty_N_go (N.pos p) "") = true) as Hd by by apply pretty_digits.
    unfold all_chars in Hd. rewrite forallb_forall in Hd. by apply Hd, digit_plain in Hin as []. }
  unfold decimal, pretty, pretty_Z. destruct z as [|p|p]; [done|apply Hp|]. rewrite chars_append, forallb_app. apply andb_true_iff. split; [done|apply Hp].
Qed.

Section Key.
Context (s : ProvisionSettings) (profile : string) (port : Z) (random : list Z).
Context (Hroot : plain_dir (ps_home_root s)) (Hline : one_line (chars (ps_home_root s))).
Context (Hp : plain_name profile) (Hpl : one_line (chars profile)).

Lemma runtime_env_one_line l :
  In l (runtime_env_lines (layout s profile) port (generate_api_key random)) -> one_line l.
Proof.
  unfold runtime_env_lines. cbn [pl_home layout]. rewrite parent_join by done. cbn [default].
  rewrite path_join_plain, !chars_append by (done || by apply plain_name_relative).
  pose proof (plain_one_line _ (decimal_plain port)) as Hd. pose proof (plain_one_line _ (api_key_plain random)) as Hk.
  assert (forall t, List.forallb (fun c => negb (char_eqb c NL || char_eqb c CR) && between 0 127 c) (chars t) = true
            -> one_line (chars t)) as Hc.
  { intros t Ht. rewrite forallb_forall in Ht. split.
    - split; intros Hin%Ht; discriminate Hin.
    - apply valid_utf8_plain, forallb_forall. intros c Hin%Ht. by apply andb_true_iff in Hin as []. }
  intros Hin. cbn [In] in Hin.
  repeat (destruct Hin as [<-|Hin]; [repeat (apply one_line_app); try done; by apply Hc|]). done.
Qed.

(** The key of a finished home reads back. *)
Lemma runtime_env_key :
  omap (strip_prefix KEY_PREFIX) (lines (render_runtime_env (layout s profile) port (generate_api_key random)))
  = [generate_api_key random].
Proof.
  unfold render_runtime_env. rewrite lines_unlines.
  - unfold runtime_env_lines. cbn [omap list_omap]. by rewrite strip_prefix_app.
  - intros l Hl. by apply runtime_env_one_line in Hl as [].
Qed.
End Key.

Lemma profile_char_plain c :
  plain_char (if is_ascii_alphanumeric c then to_ascii_lowercase c else Ascii.ascii_of_N 45) = true.
Proof. destruct c as [[] [] [] [] [] [] [] []]; by vm_compute. Qed.

Lemma default_profile_line id : one_line (chars (default_profile_name id)).
Proof.
  apply plain_one_line. unfold default_profile_name. rewrite chars_append, of_chars_chars, forallb_app.
  apply andb_true_iff. split; [done|]. apply forallb_forall. intros c Hin.
  set (l := List.map _ _) in Hin. assert (In c l) as (x & <- & _)%in_map_iff; [|apply profile_char_plain].
  rewrite <- (firstn_skipn 48 l). apply in_app_iff. by left.
Qed.

(** The worker key of a home that was just built reads back from the file
    the registry points at, byte for byte, under the owner and mode the reader
    insists on. *)
Theorem provisioned_key_reads_back `{SerdeJson} `{Process} `{Supervisor}
    s fs elsewhere occupied pid random project_id st p st' :
  fresh_staging s pid project_id (nodes (s_disk st)) ->
  plain_dir (ps_home_root s) -> one_line (chars (ps_home_root s)) ->
  provision_project_profile s fs elsewhere occupied pid random project_id st = (Ok p, st') ->
  pp_created p = true ->
  read_worker_key (pp_api_key_ref p) euid (nodes (s_disk st')) = Ok (generate_api_key random).
Proof.
  intros Hf Hroot Hline E Hc.
  pose proof (provision_leaves s fs elsewhere occupied pid random project_id st Hf) as Hl. rewrite E in Hl.
  destruct Hl as (-> & _ & Hw). rewrite Hc in Hw. destruct Hw as (_ & workspace & port & Hw).
  set (n := nodes (s_disk st')) in *. set (profile := profile_of project_id) in *.
  assert (plain_name profile) as Hp by apply profile_plain.
  set (x := private_file (render_runtime_env (layout s profile) port (generate_api_key random))).
  assert (n !! ProfileLayout.runtime_env (layout s profile) = Some x) as Hx.
  { unfold ProfileLayout.runtime_env. cbn [pl_home layout].
    rewrite path_join_plain by (done || by apply plain_join).
    change (path_join (ps_home_root s) profile) with (home_of s project_id).
    change ("/" +:+ "runtime.env") with "/runtime.env"%string. by rewrite Hw. }
  unfold read_worker_key, symlink_metadata. rewrite Hx. cbn [f_kind f_owner f_mode x private_file with_mode new_file].
  rewrite bool_decide_eq_false_2, bool_decide_eq_true_2, Z.eqb_refl by done. cbn [negb].
  change (negb (Z.land (Z.land 384 511) 63 =? 0)) with false. cbv iota.
  unfold read_to_string, read. rewrite (resolve_file _ _ _ x), Hx by done. cbn [f_kind f_body x private_file with_mode new_file].
  rewrite bool_decide_eq_true_2 by done.
  pose proof (default_profile_line project_id) as Hpl.
  unfold render_runtime_env at 1. rewrite valid_utf8_unlines.
  - rewrite (runtime_env_key s profile port random Hroot Hline Hp Hpl). by rewrite trim_plain by apply api_key_plain.
  - intros l Hl. by apply (runtime_env_one_line s profile port random Hroot Hline Hp Hpl) in Hl as [].
Qed.
