(* ===== verification/Workers.v ===== *)
(** * Workers: supervising one Hermes worker per project ([workers.rs]).

    Every operation of [WorkerManager], over the registry, the disk and the
    service manager of [Host].  Error texts are kept as the errors they are
    made of; [WorkerLifecycle] and the typed failure codes are the source's.
    The two waiting loops take a number of rounds. *)
From Stdlib Require Import Lia.
From stdpp Require Import gmap.
From S2P Require Import Prelude Text Json Schema Identifiers Inventory Fs CredentialSwap CredentialHomes Policy Host Profiles.

Definition WORKER_UNIT_TEMPLATE : string := "asterism-hermes@".

Definition unit_name (profile : string) : Result NodeError string :=
  match validate_profile_name profile with
  | Err e => Err e
  | Ok _ => Ok (WORKER_UNIT_TEMPLATE +:+ profile +:+ ".service")
  end.

Record ManagedWorker : Type := { mw_project_id : string; mw_profile : string; mw_unit : string }.

Record WorkerBinding : Type := {
  wb_project_id : string;
  wb_profile : string;
  wb_unit : string;
  wb_endpoint : string;
  wb_api_key_ref : string;
  wb_credential_id : option string
}.

Inductive Reassignment : Type := ReassignUnchanged | ReassignApplied.
Inductive ModelSelection : Type := ModelUnchanged | ModelApplied.
Inductive WorkerLifecycle : Type := Stopped | Running | NotManaged.
Definition lifecycle_wire (l : WorkerLifecycle) : string :=
  match l with Stopped => "stopped" | Running => "running" | NotManaged => "not_managed" end.

Record ReassignFailure : Type := {
  rf_code : string;
  rf_restored : bool;
  rf_detail : NodeError
}.
(** [ReassignFailure::untouched], and a failure that changed something. *)
Definition refusal (code : string) (detail : NodeError) : ReassignFailure :=
  {| rf_code := code; rf_restored := true; rf_detail := detail |}.
Definition unrestored (code : string) (detail : NodeError) : ReassignFailure :=
  {| rf_code := code; rf_restored := false; rf_detail := detail |}.

Record WorkerTimings : Type := { startup : Z; poll : Z }.
(** Milliseconds. *)
Definition default_timings : WorkerTimings := {| startup := 60000; poll := 500 |}.

Section Reading.
Context `{SerdeJson}.

Fixpoint workers_of (ps : list RegisteredProject) : Result NodeError (list ManagedWorker) :=
  match ps with
  | [] => Ok []
  | p :: ps' =>
      if negb (RuntimeOwnership.owns_container (rp_runtime_ownership p)) then workers_of ps'
      else match rp_hermes_profile p with
           | None => workers_of ps'
           | Some profile =>
               match unit_name profile with
               | Err e => Err e
               | Ok u =>
                   match workers_of ps' with
                   | Err e => Err e
                   | Ok ws => Ok ({| mw_project_id := rp_project_id p; mw_profile := profile; mw_unit := u |} :: ws)
                   end
               end
           end
  end.
Definition managed_workers (db : Db) : Result NodeError (list ManagedWorker) :=
  match list_projects db with
  | Err e => Err (OnRegistry e)
  | Ok ps => workers_of ps
  end.

(** [WorkerManager::binding]. *)
Definition binding (project_id : string) (db : Db) : Result NodeError WorkerBinding :=
  match project project_id db with
  | Err e => Err (OnRegistry e)
  | Ok None => Err (Bail ("project " +:+ project_id +:+ " is not registered"))
  | Ok (Some p) =>
      if negb (rp_enabled p) then Err (Bail ("project " +:+ project_id +:+ " is disabled"))
      else match rp_hermes_profile p with
      | None => Err (Bail ("project " +:+ project_id +:+ " has no Hermes profile"))
      | Some profile =>
          if (profile =? HOST_PROFILE)%string
          then Err (Bail ("project " +:+ project_id +:+ " must not be routed to the reserved host profile"))
          else match rp_runtime_endpoint p with
          | None => Err (Bail ("project " +:+ project_id +:+ " has no endpoint"))
          | Some endpoint =>
              match rp_hermes_api_key_ref p with
              | None => Err (Bail ("project " +:+ project_id +:+ " has no worker credential"))
              | Some reference =>
                  if (reference =? "")%string
                  then Err (Bail ("project " +:+ project_id +:+ " has no worker credential"))
                  else match unit_name profile with
                  | Err e => Err e
                  | Ok u => Ok {| wb_project_id := project_id; wb_profile := profile; wb_unit := u;
                                  wb_endpoint := endpoint; wb_api_key_ref := reference;
                                  wb_credential_id := rp_credential_id p |}
                  end
              end
          end
      end
  end.
End Reading.

(** The fields of [WorkerManager] that do not change. *)
Record WorkerManager : Type := {
  wm_timings : WorkerTimings;
  wm_runtime_uid : Z;
  wm_credentials : option CredentialPaths
}.

Section Manager.
Context `{SerdeJson} `{Process} `{Supervisor} (wm : WorkerManager) (rounds : nat).

(** The registry as a reader finds it after taking its lock. *)
Definition read_registry {A} (f : Db -> Result NodeError A) : Prog NodeError A :=
  fun s => let (db, h) := meanwhile (s_host s) (s_db s) in
           (match f db with Ok a => Ok a | Err e => Err (Failed e) end, at_host h (at_db db s)).
Definition worker_key (path : string) : Prog NodeError bytes :=
  fun s => (match read_worker_key path (wm_runtime_uid wm) (nodes (s_disk s)) with
            | Ok k => Ok k
            | Err e => Err (Failed e)
            end, s).
(** [let _ = ...] and [.ok()]. *)
Definition ignoring {E A} (m : Prog NodeError A) : Prog E (option A) :=
  let! r := attempt m in ret (match r with Ok a => Some a | Err _ => None end).
Definition succeeds {E A} (m : Prog NodeError A) : Prog E bool :=
  let! r := attempt m in ret (is_ok r).

(** A program that has no errors of its own. *)
Definition infallible {E A} (m : Prog Empty_set A) : Prog E A := mapping (fun e : Empty_set => match e with end) m.

(** *** Waiting for a worker *)

Fixpoint wait_until {E} (n : nat) (deadline : Z) (endpoint : string) (api_key : bytes) : Prog E bool :=
  match n with
  | O => fail Unfinished
  | S n' =>
      let! up := ask_health endpoint api_key in
      if up : bool then ret true
      else
        let! now := clock in
        if deadline <=? now then ret false
        else pause (poll (wm_timings wm)) ;;; wait_until n' deadline endpoint api_key
  end.
Definition wait_healthy {E} (endpoint : string) (api_key : bytes) : Prog E bool :=
  let! now := clock in
  wait_until rounds (now + startup (wm_timings wm)) endpoint api_key.

(** [WorkerManager::reconcile_credentials]: reported, never fatal. *)
Definition reconcile_binding (b : WorkerBinding) (live : bool) : Prog NodeError unit :=
  match wm_credentials wm with
  | None => ret tt
  | Some paths =>
      let! _ := ignoring (reconcile_credentials paths (wb_profile b) (wb_credential_id b) live) in ret tt
  end.

Definition ensure_running (project_id : string) : Prog NodeError WorkerBinding :=
  let! b := read_registry (binding project_id) in
  let! api_key := worker_key (wb_api_key_ref b) in
  let! active := ask_active (wb_unit b) in
  reconcile_binding b active ;;;
  (if active : bool then ret tt else ask Start (wb_unit b)) ;;;
  let! up := wait_healthy (wb_endpoint b) api_key in
  if up : bool then
    on_registry (set_profile_state project_id ProfileReady None) ;;; ret b
  else
    on_registry (set_profile_state project_id ProfileFailed (Some "worker_unhealthy"%string)) ;;;
    throw (Bail ("worker for project " +:+ project_id +:+ " did not become healthy")).

(** *** Trash and back *)

(** The project as [suspend_worker] and [resume_worker] read it. *)
Definition project_or_refusal (project_id : string) : Prog ReassignFailure RegisteredProject :=
  let! found := mapping (refusal "project_state_unreadable") (on_registry (query (project project_id))) in
  checked id (context found (refusal "project_not_registered" (Bail project_id))).

Definition suspend_worker (project_id : string) (now_millis : Z) : Prog ReassignFailure WorkerLifecycle :=
  let! p := project_or_refusal project_id in
  match rp_runtime_ownership p with
  | External => ret NotManaged
  | ManagedContainer =>
      match rp_suspended_at p with
      | None => mapping (refusal "project_state_unreadable")
                  (on_registry (set_project_suspended project_id (Some now_millis)))
      | Some _ => ret tt
      end ;;;
      match rp_profile_state p, rp_hermes_profile p with
      | ProfileReady, Some profile =>
          let! u := checked (refusal "project_not_ready") (unit_name profile) in
          let! active := mapping (refusal "worker_stop_failed") (ask_active u) in
          (if active : bool then mapping (unrestored "worker_stop_failed") (ask Stop u) else ret tt) ;;;
          let! still := mapping (unrestored "worker_stop_failed") (ask_active u) in
          if still : bool
          then throw (unrestored "worker_stop_failed" (Bail "the unit is still active after it was stopped"))
          else ret Stopped
      | _, _ => ret Stopped
      end
  end.

Definition resume_worker (project_id : string) : Prog ReassignFailure WorkerLifecycle :=
  let! p := project_or_refusal project_id in
  match rp_runtime_ownership p with
  | External => ret NotManaged
  | ManagedContainer =>
      match rp_suspended_at p with
      | Some _ => mapping (refusal "project_state_unreadable")
                    (on_registry (set_project_suspended project_id None))
      | None => ret tt
      end ;;;
      match rp_hermes_profile p with
      | None => ret Running
      | Some _ => mapping (unrestored "worker_unhealthy") (ensure_running project_id) ;;; ret Running
      end
  end.

(** *** Moving a worker to another credential *)

Definition apply_links (paths : CredentialPaths) (l : ProfileLayout) (assignment : option string) :
    Prog NodeError unit :=
  let! store := checked OnId (store_for paths assignment) in
  let! x := draw in
  on_disk (swap_link store (ProfileLayout.auth l) false x) ;;;
  match assignment with
  | Some id =>
      let! lock := checked OnId (lock_file (cp_credential_root paths) id) in
      let! x := draw in
      on_disk (swap_link lock (ProfileLayout.auth_lock l) true x)
  | None => on_disk (remove_link (ProfileLayout.auth_lock l))
  end.

(** The code and the detail of a step that failed. *)
Definition Step (A : Type) : Type := Prog (string * NodeError) A.
Definition coded {A} (code : string) (m : Prog NodeError A) : Step A := mapping (pair code) m.

(** The process serving is not the one from before. *)
Definition new_process (u : string) (pid_before : option Z) (message : string) : Step unit :=
  let! after := attempt (ask_pid u) in
  match pid_before, after with
  | Some before, Ok (Some now) =>
      if before =? now
      then throw ("worker_not_restarted"%string, Bail message)
      else ret tt
  | _, _ => ret tt
  end.

(** The end of both switches: start the worker and believe the change only
    when it answers, the change reads back and the process is a new one. *)
Definition start_and_check (b : WorkerBinding) (api_key : bytes) (pid_before : option Z)
    (reads_back : gmap string Node -> bool) (otherwise : string * NodeError) : Step unit :=
  coded "worker_restart_failed" (ask Start (wb_unit b)) ;;;
  let! up := wait_healthy (wb_endpoint b) api_key in
  if negb up then throw ("worker_unhealthy"%string, Bail "the worker did not answer its health check")
  else
    let! ok := gets (fun s => reads_back (nodes (s_disk s))) in
    if ok : bool
    then new_process (wb_unit b) pid_before "the process serving is the one from before the change"
    else throw otherwise.

(** How both changes end: a step that fails is followed by putting things
    back, and the failure says whether that worked. *)
Definition transition {A} (applied : A) (switch : Step unit) (restore : Prog Empty_set bool) :
    Prog ReassignFailure A :=
  let! done := attempt switch in
  match done with
  | Ok _ => ret applied
  | Err (code, detail) =>
      let! restored := infallible restore in
      throw {| rf_code := code; rf_restored := restored; rf_detail := detail |}
  end.

Definition switch_credential (paths : CredentialPaths) (b : WorkerBinding) (l : ProfileLayout)
    (api_key : bytes) (requested : option string) (desired : string) (active : bool)
    (pid_before : option Z) : Step unit :=
  (if active then coded "worker_restart_failed" (ask Stop (wb_unit b)) else ret tt) ;;;
  coded "credential_link_invalid" (apply_links paths l requested) ;;;
  coded "assignment_not_recorded" (on_registry (set_project_credential (wb_project_id b) requested)) ;;;
  start_and_check b api_key pid_before
    (fun n => match symlink_metadata n (ProfileLayout.auth l) with
              | Some x => bool_decide (f_kind x = Symlink) && same_path (link_body x) desired
              | None => false
              end)
    ("credential_link_invalid"%string, Bail "the credential reference did not read back as requested").

Definition restore_credential (paths : CredentialPaths) (b : WorkerBinding) (l : ProfileLayout)
    (api_key : bytes) (previous previous_target : option string) (was_active : bool) :
    Prog Empty_set bool :=
  let! _ := ignoring (ask Stop (wb_unit b)) in
  let! link_back :=
    match previous_target with
    | Some target =>
        let! x := draw in succeeds (on_disk (swap_link target (ProfileLayout.auth l) false x))
    | None => succeeds (on_disk (remove_link (ProfileLayout.auth l)))
    end in
  let! lock_back :=
    match previous with
    | Some id =>
        match lock_file (cp_credential_root paths) id with
        | Ok lock => let! x := draw in succeeds (on_disk (swap_link lock (ProfileLayout.auth_lock l) true x))
        | Err _ => ret false
        end
    | None => succeeds (on_disk (remove_link (ProfileLayout.auth_lock l)))
    end in
  let! recorded := succeeds (on_registry (set_project_credential (wb_project_id b) previous)) in
  let! running :=
    if was_active then
      let! started := succeeds (ask Start (wb_unit b)) in
      if started : bool then wait_healthy (wb_endpoint b) api_key else ret false
    else ret true in
  let restored := link_back && lock_back && recorded && running in
  (if restored then ret tt
   else let! _ := ignoring (on_registry (set_profile_state (wb_project_id b) ProfileFailed
                                           (Some "worker_unhealthy"%string))) in ret tt) ;;;
  ret restored.

(** The binding and the key, as [reassign_credential] and [select_model] take
    them first. *)
Definition ready_binding (project_id : string) : Prog ReassignFailure (WorkerBinding * bytes) :=
  let! b := mapping (refusal "project_not_ready") (read_registry (binding project_id)) in
  let! api_key := mapping (refusal "project_not_ready") (worker_key (wb_api_key_ref b)) in
  ret (b, api_key).

Definition home_layout (paths : CredentialPaths) (b : WorkerBinding) : ProfileLayout :=
  {| pl_home := path_join (cp_home_root paths) (wb_profile b); pl_profile := wb_profile b |}.

Definition pid_if (active : bool) (u : string) : Prog ReassignFailure (option Z) :=
  if active then let! pid := ignoring (ask_pid u) in ret (default None pid) else ret None.

Definition reassign_credential (project_id : string) (requested : option string) :
    Prog ReassignFailure Reassignment :=
  match wm_credentials wm with
  | None => throw (refusal "credential_paths_unavailable"
                     (Bail "this worker manager was not given credential paths"))
  | Some paths =>
      let! (b, api_key) := ready_binding project_id in
      let! desired := checked (fun e => refusal "credential_id_invalid" (OnId e)) (store_for paths requested) in
      let l := home_layout paths b in
      let! found := mapping (refusal "") (on_disk (look (fun n => symlink_metadata n (ProfileLayout.auth l)))) in
      let! previous_target :=
        match found with
        | Some x =>
            if bool_decide (f_kind x = Symlink) then ret (Some (link_body x))
            else throw (refusal "credential_link_occupied"
                          (Bail "the project's credential reference is a file, not a link"))
        | None => ret None
        end in
      let previous := wb_credential_id b in
      let! active := mapping (refusal "worker_restart_failed") (ask_active (wb_unit b)) in
      let! up :=
        if active && match previous_target with Some t => same_path t desired | None => false end
           && bool_decide (previous = requested)
        then ask_health (wb_endpoint b) api_key else ret false in
      if up : bool then ret ReassignUnchanged
      else
        let! pid_before := pid_if active (wb_unit b) in
        transition ReassignApplied
          (switch_credential paths b l api_key requested desired active pid_before)
          (restore_credential paths b l api_key previous previous_target active)
  end.

(** *** Choosing the model *)

Definition switch_model (b : WorkerBinding) (config : string) (before : bytes) (api_key : bytes)
    (model : string) (active : bool) (pid_before : option Z) : Step unit :=
  (if active then coded "worker_restart_failed" (ask Stop (wb_unit b)) else ret tt) ;;;
  coded "worker_configuration_unwritable"
    (on_disk (write config (set_setting before $"model" $"default" (chars model)))) ;;;
  coded "model_not_recorded" (on_registry (set_project_model (wb_project_id b) (Some model))) ;;;
  start_and_check b api_key pid_before
    (fun n => match read_to_string n config with
              | Ok text => bool_decide (lookup text $"model" $"default" = Some (chars model))
              | Err _ => false
              end)
    ("model_not_applied"%string, Bail "the worker's configuration did not read back as the model requested").

Definition restore_model (b : WorkerBinding) (config : string) (before : bytes) (api_key : bytes)
    (previous_model : option string) (was_active : bool) : Prog Empty_set bool :=
  let! _ := ignoring (ask Stop (wb_unit b)) in
  let! written := succeeds (on_disk (write config before)) in
  let! recorded := succeeds (on_registry (set_project_model (wb_project_id b) previous_model)) in
  let! running :=
    if was_active then
      let! started := succeeds (ask Start (wb_unit b)) in
      if started : bool then wait_healthy (wb_endpoint b) api_key else ret false
    else ret true in
  let restored := written && recorded && running in
  (if restored then ret tt
   else let! _ := ignoring (on_registry (set_profile_state (wb_project_id b) ProfileFailed
                                           (Some "worker_unhealthy"%string))) in ret tt) ;;;
  ret restored.

Definition select_model (project_id model : string) : Prog ReassignFailure ModelSelection :=
  match validate_model_id model with
  | Err _ => throw (refusal "model_id_invalid" (Bail "the model identifier is not one this Node will write"))
  | Ok _ =>
      let! (b, api_key) := ready_binding project_id in
      match wm_credentials wm with
      | None => throw (refusal "credential_paths_unavailable"
                         (Bail "this worker manager was not given profile paths"))
      | Some paths =>
          let config := ProfileLayout.config (home_layout paths b) in
          let! text := mapping (refusal "") (on_disk (look (fun n => read_to_string n config))) in
          let! before := checked (fun e => refusal "worker_configuration_unreadable" (OnDisk (Io e))) text in
          let! found := ignoring (on_registry (query (project project_id))) in
          let previous_model := match found with Some (Some p) => rp_model p | _ => None end in
          let! active := mapping (refusal "worker_restart_failed") (ask_active (wb_unit b)) in
          let! up :=
            if active && bool_decide (lookup before $"model" $"default" = Some (chars model))
               && bool_decide (previous_model = Some model)
            then ask_health (wb_endpoint b) api_key else ret false in
          if up : bool then ret ModelUnchanged
          else
            let! pid_before := pid_if active (wb_unit b) in
            transition ModelApplied
              (switch_model b config before api_key model active pid_before)
              (restore_model b config before api_key previous_model active)
      end
  end.

(** *** Replacing what a credential holds *)

Record SwapTarget : Type := {
  st_binding : WorkerBinding;
  st_api_key : bytes;
  st_active : bool;
  st_pid_before : option Z
}.

Fixpoint swap_targets (project_ids : list string) : Prog ReassignFailure (list SwapTarget) :=
  match project_ids with
  | [] => ret []
  | id :: rest =>
      let! (b, api_key) := ready_binding id in
      let! active := mapping (refusal "worker_restart_failed") (ask_active (wb_unit b)) in
      let! pid := pid_if active (wb_unit b) in
      let! others := swap_targets rest in
      ret ({| st_binding := b; st_api_key := api_key; st_active := active; st_pid_before := pid |} :: others)
  end.

Fixpoint stop_targets (ts : list SwapTarget) : Prog ReassignFailure unit :=
  match ts with
  | [] => ret tt
  | t :: rest =>
      (if st_active t then mapping (refusal "worker_restart_failed") (ask Stop (wb_unit (st_binding t)))
       else ret tt) ;;;
      stop_targets rest
  end.

Fixpoint start_and_prove (ts : list SwapTarget) : Step unit :=
  match ts with
  | [] => ret tt
  | t :: rest =>
      if negb (st_active t) then start_and_prove rest
      else
        let b := st_binding t in
        coded "worker_restart_failed" (ask Start (wb_unit b)) ;;;
        let! up := wait_healthy (wb_endpoint b) (st_api_key t) in
        if negb up then throw ("worker_unhealthy"%string, Bail "a worker did not answer its health check")
        else
          new_process (wb_unit b) (st_pid_before t) "a worker is still served by the process from before" ;;;
          start_and_prove rest
  end.

Fixpoint restart_all (ts : list SwapTarget) : Prog Empty_set bool :=
  match ts with
  | [] => ret true
  | t :: rest =>
      if negb (st_active t) then restart_all rest
      else
        let! started := succeeds (ask Start (wb_unit (st_binding t))) in
        let! up := if started : bool then wait_healthy (wb_endpoint (st_binding t)) (st_api_key t)
                   else ret false in
        let! others := restart_all rest in
        ret (up && others)
  end.

Fixpoint stop_quietly (ts : list SwapTarget) : Prog Empty_set unit :=
  match ts with
  | [] => ret tt
  | t :: rest => let! _ := ignoring (ask Stop (wb_unit (st_binding t))) in stop_quietly rest
  end.

(** The end of the swap: every worker comes back on the new material, or the
    old one is put back and the same workers brought up on it. *)
Definition prove_or_roll_back (ts : list SwapTarget) (home : string) : Prog ReassignFailure unit :=
  let! proved := attempt (start_and_prove ts) in
  match proved with
  | Ok _ => ret tt
  | Err (code, detail) =>
      infallible (stop_quietly ts) ;;;
      let! rolled_back := succeeds (on_disk (roll_back home)) in
      let! restored := if rolled_back : bool then infallible (restart_all ts) else ret false in
      throw {| rf_code := code; rf_restored := restored; rf_detail := detail |}
  end.

Definition swap_credential_material (project_ids : list string) (home staged : string) (uid : Z) :
    Prog ReassignFailure unit :=
  let! ts := swap_targets project_ids in
  stop_targets ts ;;;
  let! moved := attempt (on_disk (swap_in home staged uid)) in
  match moved with
  | Err e =>
      let! restored := infallible (restart_all ts) in
      throw {| rf_code := "credential_swap_failed"; rf_restored := restored; rf_detail := e |}
  | Ok _ => prove_or_roll_back ts home
  end.

(** *** One worker, and all of them after a boot *)

Definition stop_owned_worker (project_id : string) : Prog NodeError unit :=
  let! b := read_registry (binding project_id) in ask Stop (wb_unit b).
Definition restart_owned_worker (project_id : string) : Prog NodeError unit :=
  let! b := read_registry (binding project_id) in ask Restart (wb_unit b).
Definition health_check (project_id : string) : Prog NodeError bool :=
  let! b := read_registry (binding project_id) in
  let! api_key := worker_key (wb_api_key_ref b) in
  ask_health (wb_endpoint b) api_key.

(** What a boot starts. *)
Definition to_restore (p : RegisteredProject) : bool :=
  rp_enabled p
  && match rp_profile_state p with ProfileReady => true | _ => false end
  && match rp_runtime_ownership p with External => false | ManagedContainer => true end
  && is_null (rp_suspended_at p).

Fixpoint restore_workers (ps : list RegisteredProject) : Prog NodeError (list (string * NodeError)) :=
  match ps with
  | [] => ret []
  | p :: rest =>
      if to_restore p then
        let! r := attempt (ensure_running (rp_project_id p)) in
        let! failures := restore_workers rest in
        ret (match r with Ok _ => failures | Err e => (rp_project_id p, e) :: failures end)
      else restore_workers rest
  end.
Definition reconcile_workers : Prog NodeError (list (string * NodeError)) :=
  let! found := ignoring (on_registry (query list_projects)) in
  restore_workers (default [] found).
End Manager.
