(* ===== verification/WorkerFacts.v ===== *)
(** * WorkerFacts: what every operation on a worker leaves alone.

    What is said of the disk and of the service manager holds whatever the other
    tasks of the node do to the registry.  What is said of the project's columns
    holds while nobody else moves the project to another profile, credential, model
    or state of sleep ([settled]).  The lock that [workers.rs] takes per project
    does not see to that: resuming writes [suspended_at] before it takes the lock,
    every command of the Control Plane builds a manager with locks of its own, and
    the command line writes to the registry from another process. *)
From Stdlib Require Import Lia.
From stdpp Require Import gmap.
From S2P Require Import Prelude Text Json Schema Identifiers Inventory InventoryFacts Fs CredentialSwap CredentialHomes Policy Host Profiles ProfileTheorems Workers.

(** The columns of a project that its worker depends on. *)
Record Held : Type := {
  h_profile : option string;
  h_credential : option string;
  h_model : option string;
  h_suspended_at : option Z
}.
Definition held_row (p : ProjectRow) : Held :=
  {| h_profile := p_hermes_profile p; h_credential := p_credential_id p; h_model := p_model p;
     h_suspended_at := p_suspended_at p |}.
Definition held (id : string) (db : Db) : option Held :=
  held_row <$> select_one (is_project id) (projects db).

Definition settled `{Supervisor} (id : string) : Prop := forall h db, held id (fst (meanwhile h db)) = held id db.

Lemma held_update id id' f db :
  (forall p, p_project_id (f p) = p_project_id p) ->
  held id (on_projects (update_where (is_project id') f) db)
  = (fun p => held_row (if is_project id' p then f p else p)) <$> select_one (is_project id) (projects db).
Proof.
  intros Hf. unfold held. cbn [projects on_projects]. rewrite select_one_update_where.
  - by destruct (select_one _ _).
  - intros r. unfold is_project. by rewrite Hf.
Qed.

(** An update of a project's row: it changed the row, or there is none. *)
Lemma update_project_held id f db :
  (forall p, p_project_id (f p) = p_project_id p) ->
  match update_project id f db with
  | (Ok _, db') => exists p, select_one (is_project id) (projects db) = Some p
                             /\ held id db' = Some (held_row (f p))
  | (Err _, db') => held id db' = held id db
  end.
Proof.
  intros Hf. unfold update_project, gets, modify, bind. cbn [fst snd].
  destruct (Nat.eqb_spec (changes (is_project id) (projects db)) 0) as [Hz|Hz]; cbn [fail ret].
  - unfold fail. rewrite held_update by done. unfold held. unfold select_one.
    destruct (List.find _ _) as [p|] eqn:E; [|done]. exfalso. apply find_some in E as [Hin Hp].
    unfold changes in Hz. apply length_zero_iff_nil in Hz.
    assert (In p (List.filter (is_project id) (projects db))) as Hx by by apply filter_In. by rewrite Hz in Hx.
  - unfold ret. rewrite held_update by done. unfold select_one.
    destruct (List.find (is_project id) (projects db)) as [p|] eqn:E.
    + exists p. split; [done|]. apply find_some in E as [_ Hp]. cbn. by rewrite Hp.
    + exfalso. apply Hz. unfold changes. apply length_zero_iff_nil.
      destruct (List.filter _ _) as [|p l] eqn:Ef; [done|].
      assert (In p (List.filter (is_project id) (projects db))) as [Hin Hp]%filter_In by (rewrite Ef; by left).
      by rewrite (find_none _ _ E p Hin) in Hp.
Qed.

Section Columns.
Context `{SerdeJson}.

Lemma set_credential_held id c db :
  match set_project_credential id c db with
  | (Ok _, db') => exists h, held id db = Some h
      /\ held id db' = Some {| h_profile := h_profile h; h_credential := c; h_model := h_model h;
                               h_suspended_at := h_suspended_at h |}
  | (Err _, db') => held id db' = held id db
  end.
Proof.
  unfold set_project_credential, lift, bind. destruct (map_err _ _); [|done].
  pose proof (update_project_held id (fun p => assigned_row c (p_model p) (p_suspended_at p) p) db ltac:(done)) as Hu.
  destruct (update_project _ _ _) as [[]]; [|done]. destruct Hu as (p & Hp & ->).
  exists (held_row p). unfold held. by rewrite Hp.
Qed.

Lemma set_model_held id m db :
  match set_project_model id m db with
  | (Ok _, db') => exists h, held id db = Some h
      /\ held id db' = Some {| h_profile := h_profile h; h_credential := h_credential h; h_model := m;
                               h_suspended_at := h_suspended_at h |}
  | (Err _, db') => held id db' = held id db
  end.
Proof.
  unfold set_project_model, lift, bind. destruct (map_err _ _); [|done].
  pose proof (update_project_held id (fun p => assigned_row (p_credential_id p) m (p_suspended_at p) p) db ltac:(done)) as Hu.
  destruct (update_project _ _ _) as [[]]; [|done]. destruct Hu as (p & Hp & ->).
  exists (held_row p). unfold held. by rewrite Hp.
Qed.

Lemma set_suspended_held id t db :
  match set_project_suspended id t db with
  | (Ok _, db') => exists h, held id db = Some h
      /\ held id db' = Some {| h_profile := h_profile h; h_credential := h_credential h; h_model := h_model h;
                               h_suspended_at := t |}
  | (Err _, db') => held id db' = held id db
  end.
Proof.
  unfold set_project_suspended.
  pose proof (update_project_held id (fun p => assigned_row (p_credential_id p) (p_model p) t p) db ltac:(done)) as Hu.
  destruct (update_project _ _ _) as [[]]; [|done]. destruct Hu as (p & Hp & ->).
  exists (held_row p). unfold held. by rewrite Hp.
Qed.

Lemma set_state_held id s f db : held id (snd (set_profile_state id s f db)) = held id db.
Proof.
  unfold set_profile_state. match goal with |- context [update_project id ?g db] => set (u := g) end.
  pose proof (update_project_held id u db ltac:(done)) as Hu.
  destruct (update_project id u db) as [[]]; [|done]. destruct Hu as (p & Hp & E). cbn [snd].
  rewrite E. unfold held. by rewrite Hp.
Qed.

(** What a project reads as. *)
Lemma project_held id db p :
  project id db = Ok (Some p) ->
  held id db = Some {| h_profile := rp_hermes_profile p; h_credential := rp_credential_id p;
                       h_model := rp_model p; h_suspended_at := rp_suspended_at p |}.
Proof.
  unfold project, held. destruct (select_one _ _) as [r|]; [|done]. unfold map_project.
  destruct (ProfileState.parse _); [|done]. destruct (RuntimeOwnership.parse _); [|done]. by intros [= <-].
Qed.

Lemma binding_held id db b :
  binding id db = Ok b ->
  wb_project_id b = id /\ unit_name (wb_profile b) = Ok (wb_unit b) /\ wb_profile b <> HOST_PROFILE
  /\ exists h, held id db = Some h /\ h_profile h = Some (wb_profile b) /\ h_credential h = wb_credential_id b.
Proof.
  unfold binding. destruct (project id db) as [[p|]|] eqn:E; try done. apply project_held in E.
  destruct (rp_enabled p); [|done]. cbn [negb]. destruct (rp_hermes_profile p) as [profile|]; [|done].
  destruct (String.eqb_spec profile HOST_PROFILE) as [|Hne]; [done|].
  destruct (rp_runtime_endpoint p); [|done]. destruct (rp_hermes_api_key_ref p) as [ref|]; [|done].
  destruct (ref =? "")%string; [done|]. destruct (unit_name profile) as [u|] eqn:Eu; [|done].
  intros [= <-]. cbn. repeat (split; [done|]). eauto.
Qed.

Lemma unit_name_inj a b u : unit_name a = Ok u -> unit_name b = Ok u -> a = b.
Proof.
  unfold unit_name. destruct (validate_profile_name a); [|done]. destruct (validate_profile_name b); [|done].
  intros [= <-] [= E]. apply (f_equal chars) in E. rewrite !chars_append in E.
  apply app_inv_head, app_inv_tail in E. symmetry. by apply string_chars_inj.
Qed.
End Columns.

(** ** Only the project's own unit *)

Definition prof (id : string) (db : Db) : option (option string) := h_profile <$> held id db.

Create HintDb confined.

Section Confined.
Context `{SerdeJson} `{Process} `{Supervisor} (ids : string -> Prop) (Hset : forall id, ids id -> settled id).
Context (db0 : Db) (log : list HostEvent).

(** The units of some projects, with the profiles they had in [db0]. *)
Definition own (u : string) : Prop :=
  exists id profile, ids id /\ prof id db0 = Some (Some profile) /\ unit_name profile = Ok u.
Definition confined (s : Site) : Prop :=
  (forall id, ids id -> prof id (s_db s) = prof id db0)
  /\ exists new, s_log s = log ++ new /\ forall e u, In e new -> touches e = Some u -> own u.
Definition confines {E A} (m : Prog E A) : Prop := ensures confined m (fun _ => confined).

Lemma confined_db s db h :
  (forall id, ids id -> prof id db = prof id (s_db s)) -> confined s -> confined (at_host h (at_db db s)).
Proof. intros E [Hp Hn]. split; [|done]. cbn [s_db at_host at_db]. intros id Hid. rewrite E by done. by apply Hp. Qed.
Lemma confined_log s h e :
  (forall u, touches e = Some u -> own u) -> confined s -> confined (logged e (at_host h s)).
Proof.
  intros He [Hp (new & El & Hn)]. split; [done|]. exists (new ++ [e]). split.
  - cbn [s_log logged at_host]. by rewrite El, app_assoc.
  - intros e' u [Hin|[<-|[]]]%in_app_iff; [by apply Hn|by apply He].
Qed.

Lemma confines_bind {E A B} (m : Prog E A) (k : A -> Prog E B) :
  confines m -> (forall a, confines (k a)) -> confines (bind m k).
Proof. intros Hm Hk. eapply ensures_bind; [|exact Hk]. eapply ensures_mono; [exact Hm|done|]. by intros []. Qed.
Lemma confines_ret {E A} (a : A) : confines (@ret (Outcome E) Site A a).
Proof. by intros s. Qed.
Lemma confines_fail {E A} e : confines (@fail (Outcome E) Site A e).
Proof. by intros s. Qed.
Lemma confines_throw {E A} (e : E) : confines (@throw _ E A e).
Proof. by intros s. Qed.
Lemma confines_mapping {E F A} (f : E -> F) (m : Prog E A) : confines m -> confines (mapping f m).
Proof. intros Hm. eapply ensures_mapping; [exact Hm|]. done. Qed.
Lemma confines_coded {A} code (m : Prog NodeError A) : confines m -> confines (coded code m).
Proof. apply confines_mapping. Qed.
Lemma confines_attempt {E F A} (m : Prog E A) : confines m -> confines (@attempt _ E F A m).
Proof. intros Hm. eapply ensures_attempt; [exact Hm|]. done. Qed.
Lemma confines_checked_bind {E F A B} (f : E -> F) (r : Result E A) (k : A -> Prog F B) :
  (forall a, r = Ok a -> confines (k a)) -> confines (bind (checked f r) k).
Proof. intros Hk. destruct r as [a|e]; [|by intros s]. by apply Hk. Qed.
Lemma confines_checked {E F A} (f : E -> F) (r : Result E A) : confines (checked f r).
Proof. by destruct r; intros s. Qed.
Lemma confines_disk {A} (m : M FsError Disk A) : confines (on_disk m).
Proof. intros s Hs. unfold on_disk. by destruct (m (s_disk s)). Qed.
Lemma meanwhile_prof h db id : ids id -> prof id (fst (meanwhile h db)) = prof id db.
Proof. intros Hid. unfold prof. by rewrite Hset. Qed.
Lemma confines_registry {A} (m : M InvError Db A) :
  (forall id db, prof id (snd (m db)) = prof id db) -> confines (on_registry m).
Proof.
  intros Hm s Hs. unfold on_registry. pose proof (meanwhile_prof (s_host s) (s_db s)) as Hw.
  destruct (meanwhile _ _) as [db h]. specialize (fun id => Hm id db) as Hm'. destruct (m db) as [r db']. cbn [fst snd] in *.
  apply confined_db; [|done]. intros id Hid. rewrite Hm'. by apply Hw.
Qed.
Lemma confines_read {A} (f : Db -> Result NodeError A) : confines (read_registry f).
Proof.
  intros s Hs. unfold read_registry. pose proof (meanwhile_prof (s_host s) (s_db s)) as Hw.
  destruct (meanwhile _ _) as [db h]. by apply confined_db.
Qed.
Lemma confines_key wm path : confines (worker_key wm path).
Proof. by intros s. Qed.
Lemma confines_ask v u : own u -> confines (ask v u).
Proof.
  intros Hu s Hs. unfold ask. destruct (control _ _ _) as [r h]. apply confined_log; [|done]. by intros u' [= <-].
Qed.
Lemma confines_active u : confines (ask_active u).
Proof.
  intros s Hs. unfold ask_active. destruct (is_active _ _) as [[b|e] h]; [by apply confined_log|]. by apply Hs.
Qed.
Lemma confines_pid u : confines (ask_pid u).
Proof. intros s Hs. unfold ask_pid. by destruct (main_pid _ _) as [r h]. Qed.
Lemma confines_health {E} e k : confines (@ask_health _ E e k).
Proof. intros s Hs. unfold ask_health. destruct (healthy _ _ _) as [b h]. by apply confined_log. Qed.
Lemma confines_gets {E A} (f : Site -> A) : confines (@gets (Outcome E) Site A f).
Proof. by intros s. Qed.
Lemma confines_clock {E} : confines (@clock _ E).
Proof. by intros s. Qed.
Lemma confines_pause {E} d : confines (@pause _ E d).
Proof. by intros s. Qed.
Lemma confines_draw {E} : confines (@draw _ E).
Proof. intros s Hs. unfold draw. by destruct (nonce _). Qed.

(** The registry calls of these operations leave the profile alone. *)
Lemma prof_query {A} (f : Db -> Result InvError A) id db : prof id (snd (query f db)) = prof id db.
Proof. done. Qed.
Lemma held_other id id' f db :
  (forall p, p_project_id (f p) = p_project_id p) -> (forall p, h_profile (held_row (f p)) = h_profile (held_row p)) ->
  prof id (snd (update_project id' f db)) = prof id db.
Proof.
  intros Hf Hp. unfold update_project, gets, modify, bind. cbn [fst snd].
  assert (prof id (on_projects (update_where (is_project id') f) db) = prof id db) as E.
  { unfold prof. rewrite held_update by done. unfold held.
    destruct (select_one _ _) as [p|]; [|done]. cbn. f_equal. destruct (is_project id' p); [apply Hp|done]. }
  by destruct (Nat.eqb _ _).
Qed.
Lemma prof_state id' st f id db : prof id (snd (set_profile_state id' st f db)) = prof id db.
Proof. by apply held_other. Qed.
Lemma prof_credential id' c id db : prof id (snd (set_project_credential id' c db)) = prof id db.
Proof. unfold set_project_credential, lift, bind. destruct (map_err _ _); [|done]. by apply held_other. Qed.
Lemma prof_model id' m id db : prof id (snd (set_project_model id' m db)) = prof id db.
Proof. unfold set_project_model, lift, bind. destruct (map_err _ _); [|done]. by apply held_other. Qed.
Lemma prof_suspended id' t id db : prof id (snd (set_project_suspended id' t db)) = prof id db.
Proof. by apply held_other. Qed.

(** A result with a property. *)
Definition yields {E A} (m : Prog E A) (R : A -> Prop) : Prop :=
  ensures confined m (fun r s => confined s /\ forall a, r = Ok a -> R a).
Lemma confines_yields {E A B} (m : Prog E A) R (k : A -> Prog E B) :
  yields m R -> (forall a, R a -> confines (k a)) -> confines (bind m k).
Proof.
  intros Hm Hk. eapply ensures_bind with (R := fun a s => confined s /\ R a).
  - eapply ensures_mono; [exact Hm|done|]. intros [a|e] s [Hs Ha]; [|done]. auto.
  - intros a s [Hs Ha]. by apply Hk.
Qed.
Lemma yields_mapping {E F A} (f : E -> F) (m : Prog E A) R : yields m R -> yields (mapping f m) R.
Proof. intros Hm. eapply ensures_mapping; [exact Hm|]. intros [a|[]] s [Hs Ha]; (split; [done|]); [|done..].
  intros a' [= <-]. by apply Ha.
Qed.
Lemma yields_bind {E A B} (m : Prog E A) R R' (k : A -> Prog E B) :
  yields m R -> (forall a, R a -> yields (k a) R') -> yields (bind m k) R'.
Proof.
  intros Hm Hk. eapply ensures_bind with (R := fun a s => confined s /\ R a).
  - eapply ensures_mono; [exact Hm|done|]. intros [a|e] s [Hs Ha]; [auto|]. by split.
  - intros a s [Hs Ha]. by apply Hk.
Qed.
Lemma yields_any {E A} (m : Prog E A) : confines m -> yields m (fun _ => True).
Proof. intros Hm. eapply ensures_mono; [exact Hm|done|]. done. Qed.

(** The binding of the project names its own unit. *)
Lemma yields_binding id : ids id -> yields (read_registry (binding id)) (fun b => own (wb_unit b)).
Proof.
  intros Hid s Hs. unfold read_registry. pose proof (meanwhile_prof (s_host s) (s_db s)) as Hw.
  destruct (meanwhile _ _) as [db h] eqn:Em. cbn [fst] in Hw.
  destruct (binding id db) as [b|e] eqn:E; (split; [by apply confined_db|]); [|done].
  intros b' [= <-]. apply binding_held in E as (_ & Hu & _ & hd & Hh & Hpr & _).
  exists id, (wb_profile b). split; [done|]. split; [|done]. destruct Hs as [Hs _]. rewrite <- Hs, <- Hw by done.
  unfold prof. rewrite Hh. cbn. by rewrite Hpr.
Qed.
Lemma confines_binding {B} id (k : WorkerBinding -> Prog NodeError B) :
  ids id -> (forall b, own (wb_unit b) -> confines (k b)) -> confines (bind (read_registry (binding id)) k).
Proof. intros Hid. by apply confines_yields, yields_binding. Qed.
End Confined.

#[export] Hint Resolve confines_ret confines_fail confines_throw confines_checked confines_disk confines_key
  confines_active confines_pid confines_health confines_gets confines_clock confines_pause confines_draw confines_read
  prof_query prof_state prof_credential prof_model prof_suspended : confined.

Ltac confined_solve :=
  repeat (cbv zeta; match goal with
    | |- confines _ _ _ (bind _ _) => apply confines_bind; [|intros ?]
    | |- confines _ _ _ (mapping _ _) => apply confines_mapping
    | |- confines _ _ _ (coded _ _) => apply confines_coded
    | |- confines _ _ _ (infallible _) => apply confines_mapping
    | |- confines _ _ _ (attempt _) => apply confines_attempt
    | |- confines _ _ _ (ignoring _) => unfold ignoring
    | |- confines _ _ _ (succeeds _) => unfold succeeds
    | |- confines _ _ _ (ask _ _) => by apply confines_ask
    | |- confines _ _ _ (on_registry _) => apply confines_registry; [assumption|auto with confined]
    | |- confines _ _ _ (match ?x with _ => _ end) => destruct x
    | |- confines _ _ _ _ => solve [auto with confined]
    end).

Section Operations.
Context `{SerdeJson} `{Process} `{Supervisor} (wm : WorkerManager) (rounds : nat) (ids : string -> Prop).
Context (Hset : forall id, ids id -> settled id) (db0 : Db) (log : list HostEvent) (id : string) (Hid : ids id).

Lemma confines_wait {E} deadline endpoint key n : confines ids db0 log (@wait_until _ wm E n deadline endpoint key).
Proof. induction n as [|n IH]; cbn [wait_until]; confined_solve. Qed.
Hint Resolve confines_wait : confined.
Lemma confines_wait_healthy {E} endpoint key : confines ids db0 log (@wait_healthy _ wm rounds E endpoint key).
Proof. unfold wait_healthy. confined_solve. Qed.
Hint Resolve confines_wait_healthy : confined.
Lemma confines_reconcile b live : confines ids db0 log (reconcile_binding wm b live).
Proof. unfold reconcile_binding, reconcile_credentials. confined_solve. Qed.
Hint Resolve confines_reconcile : confined.
Lemma confines_ensure_running : confines ids db0 log (ensure_running wm rounds id).
Proof. unfold ensure_running. apply confines_binding; [done..|]. intros b Hb. confined_solve. Qed.
Hint Resolve confines_ensure_running : confined.
Lemma confines_resume : confines ids db0 log (resume_worker wm rounds id).
Proof. unfold resume_worker, project_or_refusal. confined_solve. Qed.
Lemma confines_stop : confines ids db0 log (stop_owned_worker id).
Proof. unfold stop_owned_worker. apply confines_binding; [done..|]. intros b Hb. confined_solve. Qed.
Lemma confines_restart : confines ids db0 log (restart_owned_worker id).
Proof. unfold restart_owned_worker. apply confines_binding; [done..|]. intros b Hb. confined_solve. Qed.

(** The project as it is read names its own unit. *)
Lemma confines_project {B} (k : RegisteredProject -> Prog ReassignFailure B) :
  (forall p, (forall profile u, rp_hermes_profile p = Some profile -> unit_name profile = Ok u -> own ids db0 u) ->
     confines ids db0 log (k p)) ->
  confines ids db0 log (bind (project_or_refusal id) k).
Proof.
  intros Hk s Hs. unfold project_or_refusal, bind, mapping, on_registry, query.
  pose proof (meanwhile_prof ids Hset (s_host s) (s_db s)) as Hw. destruct (meanwhile _ _) as [db h]. cbn [fst] in Hw.
  destruct (project id db) as [[p|]|e] eqn:E; [|by apply confined_db..].
  cbn. apply Hk; [|by apply confined_db]. apply project_held in E. intros profile u Hp Hu.
  exists id, profile. split; [done|]. split; [|done]. destruct Hs as [Hs _]. rewrite <- Hs, <- Hw by done.
  unfold prof. rewrite E. cbn. by rewrite Hp.
Qed.
Lemma confines_suspend now : confines ids db0 log (suspend_worker id now).
Proof.
  unfold suspend_worker. apply confines_project. intros p Hp. destruct (rp_runtime_ownership p); [|confined_solve].
  apply confines_bind; [confined_solve|]. intros _.
  destruct (rp_profile_state p); [confined_solve|confined_solve| |confined_solve..].
  destruct (rp_hermes_profile p) as [profile|] eqn:E; [|confined_solve].
  apply confines_checked_bind. intros u Hu. specialize (Hp profile u eq_refl Hu). confined_solve.
Qed.

Lemma yields_ready : yields ids db0 log (ready_binding wm id) (fun x => own ids db0 (wb_unit (fst x))).
Proof.
  eapply yields_bind; [by apply yields_mapping, yields_binding|]. intros b Hb.
  eapply yields_bind; [apply yields_any; confined_solve|]. intros key _ s Hs. split; [done|]. by intros x [= <-].
Qed.

Lemma confines_reassign requested : confines ids db0 log (reassign_credential wm rounds id requested).
Proof.
  unfold reassign_credential. destruct (wm_credentials wm) as [paths|]; [|confined_solve].
  eapply confines_yields; [apply yields_ready|]. intros [b key] Hb. cbn [fst] in Hb.
  unfold transition, switch_credential, start_and_check, restore_credential, apply_links, new_process, pid_if. confined_solve.
Qed.

Lemma confines_select model : confines ids db0 log (select_model wm rounds id model).
Proof.
  unfold select_model. destruct (validate_model_id model); [|confined_solve].
  eapply confines_yields; [apply yields_ready|]. intros [b key] Hb. cbn [fst] in Hb.
  unfold transition, switch_model, start_and_check, restore_model, new_process, pid_if. confined_solve.
Qed.
End Operations.

(** ** What is on disk and what is recorded *)

Create HintDb silent.

Section Silent.
Context `{SerdeJson} `{Process} `{Supervisor} (id : string).

(** Neither the disk nor, if nobody else writes them, the project's columns change. *)
Definition silent {E A} (m : Prog E A) : Prop :=
  forall s, nodes (s_disk (snd (m s))) = nodes (s_disk s)
    /\ (settled id -> held id (s_db (snd (m s))) = held id (s_db s)).

Lemma silent_bind {E A B} (m : Prog E A) (k : A -> Prog E B) :
  silent m -> (forall a, silent (k a)) -> silent (bind m k).
Proof.
  intros Hm Hk s. specialize (Hm s). unfold bind. destruct (m s) as [[a|e] s1]; cbn [snd] in *; [|done].
  destruct Hm as [Hm1 Hm2], (Hk a s1) as [Hk1 Hk2]. split; [congruence|]. intros Hset. rewrite Hk2; auto.
Qed.
Lemma silent_ret {E A} (a : A) : silent (@ret (Outcome E) Site A a).
Proof. done. Qed.
Lemma silent_fail {E A} e : silent (@fail (Outcome E) Site A e).
Proof. done. Qed.
Lemma silent_throw {E A} (e : E) : silent (@throw _ E A e).
Proof. done. Qed.
Lemma silent_checked {E F A} (f : E -> F) (r : Result E A) : silent (checked f r).
Proof. by destruct r. Qed.
Lemma silent_mapping {E F A} (f : E -> F) (m : Prog E A) : silent m -> silent (mapping f m).
Proof. intros Hm s. specialize (Hm s). unfold mapping. by destruct (m s) as [[a|[]] s']. Qed.
Lemma silent_coded {A} code (m : Prog NodeError A) : silent m -> silent (coded code m).
Proof. apply silent_mapping. Qed.
Lemma silent_attempt {E F A} (m : Prog E A) : silent m -> silent (@attempt _ E F A m).
Proof. intros Hm s. specialize (Hm s). unfold attempt. by destruct (m s) as [[a|[]] s']. Qed.
Lemma silent_ask v u : silent (ask v u).
Proof. intros s. unfold ask. by destruct (control _ _ _). Qed.
Lemma silent_active u : silent (ask_active u).
Proof. intros s. unfold ask_active. by destruct (is_active _ _) as [[]]. Qed.
Lemma silent_pid u : silent (ask_pid u).
Proof. intros s. unfold ask_pid. by destruct (main_pid _ _). Qed.
Lemma silent_health {E} e k : silent (@ask_health _ E e k).
Proof. intros s. unfold ask_health. by destruct (healthy _ _ _). Qed.
Lemma silent_gets {E A} (f : Site -> A) : silent (@gets (Outcome E) Site A f).
Proof. done. Qed.
Lemma silent_clock {E} : silent (@clock _ E).
Proof. done. Qed.
Lemma silent_pause {E} d : silent (@pause _ E d).
Proof. done. Qed.
Lemma silent_draw {E} : silent (@draw _ E).
Proof. intros s. unfold draw. by destruct (nonce _). Qed.
Lemma silent_look {A} (f : gmap string Node -> A) : silent (on_disk (look f)).
Proof. done. Qed.
Lemma silent_key wm path : silent (worker_key wm path).
Proof. done. Qed.
Lemma silent_read {A} (f : Db -> Result NodeError A) : silent (read_registry f).
Proof.
  intros s. unfold read_registry. split; [by destruct (meanwhile _ _)|]. intros Hset.
  pose proof (Hset (s_host s) (s_db s)) as Hw. by destruct (meanwhile _ _) as [db h].
Qed.
Lemma silent_registry {A} (m : M InvError Db A) :
  (forall db, held id (snd (m db)) = held id db) -> silent (on_registry m).
Proof.
  intros Hm s. unfold on_registry. assert (settled id -> held id (fst (meanwhile (s_host s) (s_db s))) = held id (s_db s)) as Hw
    by (intros Hset; apply Hset).
  destruct (meanwhile _ _) as [db h]. specialize (Hm db). destruct (m db) as [r db']. cbn in *. split; [done|].
  intros Hset. rewrite Hm. auto.
Qed.

(** The disk satisfies [N] and, if nobody else writes them, the project's columns are [h]. *)
Definition fact (N : gmap string Node -> Prop) (h : option Held) (s : Site) : Prop :=
  N (nodes (s_disk s)) /\ (settled id -> held id (s_db s) = h).

Lemma fact_silent {E A} N h (m : Prog E A) s : silent m -> fact N h s -> fact N h (snd (m s)).
Proof. intros Hm [Hn Hh]. destruct (Hm s) as [E1 E2]. split; [congruence|]. intros Hset. rewrite E2; auto. Qed.
Lemma ensures_silent {E A} N h (m : Prog E A) : silent m -> ensures (fact N h) m (fun _ => fact N h).
Proof. intros Hm s. by apply fact_silent. Qed.
(** A silent step of a program, whose errors are allowed where it stands. *)
Lemma ensures_skip {E A B} N h (m : Prog E A) (k : A -> Prog E B) Q :
  silent m -> (forall e s, fact N h s -> Q (Err e) s) -> (forall a, ensures (fact N h) (k a) Q) ->
  ensures (fact N h) (bind m k) Q.
Proof.
  intros Hm He Hk. eapply ensures_bind; [|exact Hk]. eapply ensures_mono; [by apply ensures_silent|done|].
  intros [a|e] s Hs; [done|by apply He].
Qed.
Lemma fact_mono (N N' : gmap string Node -> Prop) h s : (forall n, N n -> N' n) -> fact N h s -> fact N' h s.
Proof. intros HN [Hn Hh]. split; auto. Qed.

(** A write to the disk, and a write to the registry. *)
Lemma ensures_fact_disk {A} N h (m : M FsError Disk A) N' :
  leaves N m N' ->
  ensures (fact N h) (on_disk m) (fun r s => exists r', fact (N' r') h s
    /\ r = match r' with Ok a => Ok a | Err Crashed => Err Ended | Err e => Err (Failed (OnDisk e)) end).
Proof.
  intros Hm s [Hn Hh]. specialize (Hm (s_disk s) Hn). unfold on_disk.
  destruct (m (s_disk s)) as [r d]. exists r. by split.
Qed.
Lemma ensures_fact_registry {A} N h (m : M InvError Db A) (h' : option Held) :
  (forall db, held id db = h -> match m db with
     | (Ok _, db') => held id db' = h' | (Err _, db') => held id db' = h end) ->
  ensures (fact N h) (on_registry m) (fun r s => match r with Ok _ => fact N h' s | Err _ => fact N h s end).
Proof.
  intros Hm s [Hn Hh]. unfold on_registry.
  assert (settled id -> held id (fst (meanwhile (s_host s) (s_db s))) = h) as Hw by (intros Hset; rewrite (Hset _ _); auto).
  destruct (meanwhile _ _) as [db hs]. cbn [fst] in Hw. specialize (Hm db).
  destruct (m db) as [[a|e] db']; (split; [done|]; intros Hset; apply Hm; auto).
Qed.
End Silent.

#[export] Hint Resolve silent_ret silent_fail silent_throw silent_checked silent_ask silent_active silent_pid
  silent_health silent_gets silent_clock silent_pause silent_draw silent_look silent_key silent_read : silent.

Ltac silent_solve :=
  repeat (cbv zeta; match goal with
    | |- silent _ (bind _ _) => apply silent_bind; [|intros ?]
    | |- silent _ (mapping _ _) => apply silent_mapping
    | |- silent _ (coded _ _) => apply silent_coded
    | |- silent _ (infallible _) => apply silent_mapping
    | |- silent _ (attempt _) => apply silent_attempt
    | |- silent _ (ignoring _) => unfold ignoring
    | |- silent _ (succeeds _) => unfold succeeds
    | |- silent _ (match ?x with _ => _ end) => destruct x
    | |- silent _ _ => solve [auto with silent]
    end).

Section Waiting.
Context `{SerdeJson} `{Process} `{Supervisor} (wm : WorkerManager) (rounds : nat) (id : string).

Lemma silent_wait {E} deadline endpoint key n : silent id (@wait_until _ wm E n deadline endpoint key).
Proof. induction n as [|n IH]; cbn [wait_until]; silent_solve. Qed.
Lemma silent_wait_healthy {E} endpoint key : silent id (@wait_healthy _ wm rounds E endpoint key).
Proof. unfold wait_healthy. pose proof (@silent_wait E). silent_solve. Qed.
Lemma silent_new_process u pid text : silent id (new_process u pid text).
Proof. unfold new_process. silent_solve. Qed.
Lemma silent_pid_if active u : silent id (pid_if active u).
Proof. unfold pid_if. silent_solve. Qed.
Lemma silent_query {A} (f : Db -> Result InvError A) : silent id (on_registry (query f)).
Proof. by apply silent_registry. Qed.
Lemma silent_ready : silent id (ready_binding wm id).
Proof. unfold ready_binding. silent_solve. Qed.
Lemma silent_state st f : silent id (on_registry (set_profile_state id st f)).
Proof. apply silent_registry. intros db. apply set_state_held. Qed.
End Waiting.
#[export] Hint Resolve silent_wait silent_wait_healthy silent_new_process silent_pid_if silent_query silent_ready
  silent_state : silent.

Lemma ensures_succeeds `{Supervisor} {E A} P (m : Prog NodeError A) (Q : Result (Outcome E) bool -> Site -> Prop) Q' :
  ensures P m Q' ->
  (forall r s, Q' r s -> Q (match r with
     | Ok _ => Ok true | Err (Failed e) => Ok false | Err Ended => Err Ended | Err Unfinished => Err Unfinished end) s) ->
  ensures P (succeeds m) Q.
Proof.
  intros Hm HQ s Hs. specialize (Hm s Hs). unfold succeeds, bind, attempt.
  destruct (m s) as [[a|[| |e]] s']; cbn [fst snd ret is_ok] in *; by apply HQ in Hm.
Qed.

(** A change that is taken back when it fails. *)
Lemma transition_ensures `{Supervisor} {A} (applied : A) (switch : Step unit) (restore : Prog Empty_set bool)
    P (Good Mid Back : Site -> Prop) :
  ensures P switch (fun r s => match r with Ok _ => Good s | Err _ => Mid s end) ->
  ensures Mid restore (fun r s => Mid s /\ (r = Ok true -> Back s)) ->
  ensures P (transition applied switch restore)
    (fun r s => match r with
                | Ok a => a = applied /\ Good s
                | Err (Failed f) => rf_restored f = true -> Back s
                | Err _ => Mid s
                end).
Proof.
  intros Hs Hr. unfold transition.
  eapply ensures_bind with (R := fun done s => match done with Ok _ => Good s | Err _ => Mid s end).
  { eapply ensures_attempt; [exact Hs|]. by intros [[]|[]] s. }
  intros [[]|[code detail]]; [by apply ensures_ret|].
  eapply ensures_bind with (R := fun restored s => restored = true -> Back s).
  { eapply ensures_mapping; [exact Hr|]. intros [restored|[| |[]]] s [Hm Hb]; [|done..]. intros ->. auto. }
  intros restored. by apply ensures_fail.
Qed.

(** ** A worker that was started and answered *)

Section Served.
Context `{SerdeJson} `{Process} `{Supervisor} (wm : WorkerManager) (rounds : nat) (id : string).

Definition started (u : string) (s : Site) : Prop := exists log, s_log s = log ++ [Did Start u].
(** The last thing that happened is that the worker, started, answered. *)
Definition served (u endpoint : string) (s : Site) : Prop :=
  exists log k, s_log s = log ++ Did Start u :: replicate k (Answered endpoint false) ++ [Answered endpoint true].

Lemma wait_serves {E} u endpoint key deadline n log k :
  ensures (fun s => s_log s = log ++ Did Start u :: replicate k (Answered endpoint false))
    (@wait_until _ wm E n deadline endpoint key)
    (fun r s => r = Ok true -> served u endpoint s).
Proof.
  revert k. induction n as [|n IH]; intros k s Hs; [done|]. cbn [wait_until]. unfold bind, ask_health.
  destruct (healthy _ _ _) as [[|] hs]; cbn.
  - intros _. exists log, k. cbn [s_log logged at_host]. by rewrite Hs, <- app_assoc.
  - destruct (deadline <=? _); [done|]. apply (IH (S k)). cbn [s_log logged at_host]. rewrite Hs, <- app_assoc.
    cbn [app]. f_equal. f_equal. rewrite <- replicate_cons_app. done.
Qed.

Lemma wait_healthy_serves {E} u endpoint key :
  ensures (started u) (@wait_healthy _ wm rounds E endpoint key) (fun r s => r = Ok true -> served u endpoint s).
Proof.
  intros s [log Hs]. unfold wait_healthy, bind, clock, gets. cbn [fst snd].
  apply (wait_serves u endpoint key _ rounds log 0). by rewrite Hs.
Qed.

Lemma ask_starts u : ensures (fun _ => True) (ask Start u) (fun _ => started u).
Proof. intros s _. unfold ask. destruct (control _ _ _) as [r hs]. by eexists. Qed.

Lemma ensures_and {E A} P P' (m : Prog E A) Q Q' :
  ensures P m Q -> ensures P' m Q' -> ensures (fun s => P s /\ P' s) m (fun r s => Q r s /\ Q' r s).
Proof. intros Hm Hm' s [Hs Hs']. split; auto. Qed.

Lemma new_process_log (P : list HostEvent -> Prop) u pid text :
  ensures (fun s => P (s_log s)) (new_process u pid text) (fun _ s => P (s_log s)).
Proof.
  intros s Hs. unfold new_process, bind, attempt, ask_pid. destruct (main_pid _ _) as [[o|[]] hs]; cbn; try done.
  - destruct pid, o; try done. by destruct (_ =? _).
  - by destruct pid.
Qed.

Lemma start_and_check_fact N hh b api_key pid_before (check : gmap string Node -> bool) otherwise :
  ensures (fact id N hh) (start_and_check wm rounds b api_key pid_before check otherwise)
    (fun r s => fact id N hh s
       /\ (r = Ok tt -> served (wb_unit b) (wb_endpoint b) s /\ check (nodes (s_disk s)) = true)).
Proof.
  unfold start_and_check. eapply ensures_bind with (R := fun _ s => fact id N hh s /\ started (wb_unit b) s).
  { assert (ensures (fun _ => True) (coded "worker_restart_failed" (ask Start (wb_unit b))) (fun _ => started (wb_unit b))) as Hst.
    { eapply ensures_mapping; [apply ask_starts|]. by intros r s Hr. }
    assert (silent id (coded "worker_restart_failed" (ask Start (wb_unit b)))) as Hsil by silent_solve.
    eapply ensures_mono; [apply (ensures_and _ _ _ _ _ (ensures_silent id N hh _ Hsil) Hst)|by intros s Hs|].
    intros [a|e] s [Hs Hs']; [done|]. by split. }
  intros _. eapply ensures_bind with (R := fun up s => fact id N hh s /\ (up = true -> served (wb_unit b) (wb_endpoint b) s)).
  { eapply ensures_mono; [apply (ensures_and _ _ _ _ _ (ensures_silent id N hh _ (silent_wait_healthy wm rounds id (wb_endpoint b) api_key))
      (wait_healthy_serves (wb_unit b) (wb_endpoint b) api_key))|by intros s Hs|].
    intros [up|e] s [Hs Hsv]; [|by split]. split; [done|]. intros ->. auto. }
  intros [|]; cbn [negb]; [|apply ensures_fail; intros s [Hs _]; by split].
  eapply ensures_bind with (R := fun ok s => (fact id N hh s /\ check (nodes (s_disk s)) = ok) /\ served (wb_unit b) (wb_endpoint b) s).
  { apply ensures_gets. intros s [Hs Hsv]. auto. }
  intros [|]; [|apply ensures_fail; intros s [[Hs _] _]; by split].
  intros s [[Hs Hc] Hsv].
  pose proof (silent_new_process id (wb_unit b) pid_before "the process serving is the one from before the change" s) as [E1 E2].
  pose proof (new_process_log (fun log => exists l k, log = l ++ Did Start (wb_unit b) :: replicate k (Answered (wb_endpoint b) false)
    ++ [Answered (wb_endpoint b) true]) (wb_unit b) pid_before "the process serving is the one from before the change" s Hsv) as Hl.
  destruct Hs as [Hn Hh]. split; [split; [congruence|]; intros Hset; rewrite E2; auto|]. intros _. split; [exact Hl|congruence].
Qed.
End Served.
