(* ===== verification/WorkerTheorems.v ===== *)
(** * WorkerTheorems: changing a worker's credential or model, putting it to
    sleep and waiting for it. *)
From Stdlib Require Import Lia.
From stdpp Require Import gmap.
From S2P Require Import Prelude Text Json Schema Identifiers Inventory InventoryFacts Fs CredentialSwap CredentialHomes Policy Host Profiles ProfileTheorems Workers WorkerFacts.

(** ** Whose unit is touched *)

Inductive Operation : Type :=
| EnsureRunning
| SuspendWorker (now : Z)
| ResumeWorker
| ReassignCredential (requested : option string)
| SelectModel (model : string)
| StopWorker
| RestartWorker.

Section Operations.
Context `{SerdeJson} `{Process} `{Supervisor} (wm : WorkerManager) (rounds : nat) (id : string) (Hset : settled id).

Definition operate (op : Operation) (s : Site) : Site :=
  match op with
  | EnsureRunning => snd (ensure_running wm rounds id s)
  | SuspendWorker now => snd (suspend_worker id now s)
  | ResumeWorker => snd (resume_worker wm rounds id s)
  | ReassignCredential requested => snd (reassign_credential wm rounds id requested s)
  | SelectModel model => snd (select_model wm rounds id model s)
  | StopWorker => snd (stop_owned_worker id s)
  | RestartWorker => snd (restart_owned_worker id s)
  end.

(** An operation on one project's worker starts, stops and restarts exactly
    one unit, the one of the project's own profile and never another project's,
    however the service manager, the disk and the worker behave. *)
Theorem worker_operations_touch_their_own_unit op s :
  inventory_ok (s_db s) ->
  exists new, s_log (operate op s) = s_log s ++ new
    /\ forall v u, In (Did v u) new ->
         exists p profile, In p (projects (s_db s)) /\ p_project_id p = id
           /\ p_hermes_profile p = Some profile /\ unit_name profile = Ok u
           /\ forall q other, In q (projects (s_db s)) -> p_project_id q <> id ->
                p_hermes_profile q = Some other -> unit_name other <> Ok u.
Proof.
  intros Hok. set (ids := fun i => i = id). assert (forall i, ids i -> settled i) as Hall by by intros i ->.
  assert (ids id) as Hown by done.
  assert (confined ids (s_db s) (s_log s) s) as Hs.
  { split; [done|]. exists []. rewrite app_nil_r. by split. }
  assert (confined ids (s_db s) (s_log s) (operate op s)) as [_ (new & Hl & Hn)].
  { destruct op; cbn [operate].
    - by apply confines_ensure_running.
    - by apply confines_suspend.
    - by apply confines_resume.
    - by apply confines_reassign.
    - by apply confines_select.
    - by apply confines_stop.
    - by apply confines_restart. }
  exists new. split; [done|]. intros v u Hin. destruct (Hn _ u Hin eq_refl) as (i & profile & -> & Hp & Hu).
  unfold prof, held in Hp. destruct (select_one _ _) as [p|] eqn:E; [|done]. injection Hp as Hp.
  apply select_project in E as [Hinp Hid]; [|done]. exists p, profile. repeat (split; [done|]).
  intros q other Hq Hne Ho Hu'. apply Hne. rewrite <- Hid. f_equal.
  assert (profile = other) as <- by (by eapply unit_name_inj).
  apply list_elem_of_In, list_elem_of_lookup in Hq as [i Hi], Hinp as [j Hj].
  assert (i = j) as -> by (by eapply (io_profiles _ Hok)). congruence.
Qed.
End Operations.

(** ** Paths of a home *)

Lemma valid_profile_plain profile : validate_profile_name profile = Ok tt -> plain_name profile.
Proof.
  unfold validate_profile_name. intros Hv. repeat split_if_in Hv; try done.
  apply orb_false_iff in Heqb as [Hne _]. apply String.eqb_neq in Hne. split; [done|]. intros Hin.
  apply negb_false_iff in Heqb0. unfold all_chars in Heqb0. rewrite forallb_forall in Heqb0.
  by apply Heqb0 in Hin.
Qed.

Lemma unit_plain profile u : unit_name profile = Ok u -> plain_name profile.
Proof.
  unfold unit_name. destruct (validate_profile_name profile) as [[]|] eqn:E; [|done]. intros _.
  by apply valid_profile_plain.
Qed.

(** ** What a link says *)

Definition view (n : gmap string Node) (path : string) : option (FileKind * bytes) :=
  (fun x => (f_kind x, f_body x)) <$> n !! path.

Lemma leads_view target link n : leads target link n <-> view n link = Some (Symlink, chars target).
Proof.
  unfold leads, view. split.
  - intros (x & -> & Hk & Hb). cbn. by rewrite Hk, Hb.
  - destruct (n !! link) as [x|]; cbn; [|done]. intros [= Hk Hb]. eauto.
Qed.

Lemma view_kept link other n0 n :
  other <> link -> ~ stage_of link other -> kept_but link n0 n -> view n other = view n0 other.
Proof. unfold view. intros Hne Hst [_ Hk]. by rewrite Hk. Qed.

(** Names without a leading dot are not names a link is prepared under. *)
Lemma not_stage dir a b : plain_dir dir -> plain_name a -> plain_name b -> head (chars a) <> Some DOT ->
  ~ stage_of (path_join dir b) (path_join dir a).
Proof.
  intros Hd Ha Hb Hdot (dir' & x & Hp & E). rewrite parent_join in Hp by done. injection Hp as <-.
  apply path_join_inj in E as ->; [by apply Hdot|by apply plain_name_relative|done].
Qed.

(** ** Moving to another credential *)

Definition with_credential (c : option string) (h : Held) : Held :=
  {| h_profile := h_profile h; h_credential := c; h_model := h_model h; h_suspended_at := h_suspended_at h |}.
Definition with_model (m : option string) (h : Held) : Held :=
  {| h_profile := h_profile h; h_credential := h_credential h; h_model := m; h_suspended_at := h_suspended_at h |}.

Section HomeLinks.
Context `{Process} (home : string) (Hhome : plain_dir home).

Definition auth_of : string := path_join home "auth.json".
Definition lock_of : string := path_join home LOCK_FILE.

Lemma link_names : plain_name "auth.json" /\ plain_name LOCK_FILE.
Proof. split; (split; [done|]); vm_compute; intuition discriminate. Qed.
Lemma auth_not_lock : auth_of <> lock_of.
Proof. intros E. apply path_join_inj in E; done. Qed.
Lemma auth_stage : ~ stage_of lock_of auth_of.
Proof. destruct link_names. by apply not_stage. Qed.

Lemma swap_auth_leaves target x v :
  leaves (fun n => view n auth_of = v) (swap_link target auth_of false x)
    (fun r n => match r with
                | Ok _ => view n auth_of = Some (Symlink, chars target)
                | Err _ => view n auth_of = v
                end).
Proof.
  intros d Hd. destruct link_names as [Ha _].
  destruct (swap_join_leaves home "auth.json" target x false (nodes d) Hhome Ha d eq_refl) as [_ Hs].
  destruct (swap_link _ _ _ _ d) as [[[]|e] d']; cbn [fst snd] in *.
  - apply leads_view, Hs.
  - rewrite <- Hd. unfold view, auth_of. by rewrite Hs.
Qed.

Lemma swap_lock_leaves target x v :
  leaves (fun n => view n auth_of = v) (swap_link target lock_of true x)
    (fun r n => view n auth_of = v /\ (is_ok r = true -> leads target lock_of n)).
Proof.
  intros d Hd. destruct link_names as [_ Hl].
  destruct (swap_join_leaves home LOCK_FILE target x true (nodes d) Hhome Hl d eq_refl) as [Hk Hs].
  split.
  - rewrite <- Hd. by apply (view_kept lock_of); [apply auth_not_lock|apply auth_stage|].
  - change (path_join home LOCK_FILE) with lock_of in Hs.
    destruct (swap_link _ _ _ _ d) as [[[]|e] d']; [|done]. intros _. apply Hs.
Qed.

Lemma remove_lock_leaves v :
  leaves (fun n => view n auth_of = v) (remove_link lock_of)
    (fun r n => view n auth_of = v /\ (is_ok r = true -> forall x, n !! lock_of = Some x -> f_kind x <> Symlink)).
Proof.
  intros d Hd. destruct (remove_link_leaves lock_of (nodes d) d eq_refl) as [Hk Hs]. split.
  - rewrite <- Hd. by apply (view_kept lock_of); [apply auth_not_lock|apply auth_stage|].
  - destruct (remove_link _ d) as [[[]|e] d']; [|done]. intros _ x Hx. by apply Hs.
Qed.

Lemma remove_auth_leaves (P : option (FileKind * bytes) -> Prop) :
  (forall k body, P (Some (k, body)) -> k = Symlink) ->
  leaves (fun n => P (view n auth_of)) (remove_link auth_of)
    (fun r n => match r with Ok _ => view n auth_of = None | Err _ => P (view n auth_of) end).
Proof.
  intros HP d Hd. destruct (remove_link_leaves auth_of (nodes d) d eq_refl) as [_ Hs].
  destruct (remove_link _ d) as [[[]|e] d']; cbn [fst snd] in *.
  - unfold view in *. destruct (nodes d' !! auth_of) as [x|]; [|done]. destruct (Hs x eq_refl) as [Hk Hx].
    rewrite Hx in Hd. by apply HP in Hd.
  - unfold view in *. by rewrite Hs.
Qed.
End HomeLinks.

Section Reassign.
Context `{SerdeJson} `{Process} `{Supervisor} (wm : WorkerManager) (rounds : nat) (id : string).
Context (paths : CredentialPaths) (b : WorkerBinding) (Hid : wb_project_id b = id).
Context (Hunit : unit_name (wb_profile b) = Ok (wb_unit b)).
Context (requested : option string) (desired : string) (Hdes : store_for paths requested = Ok desired).
Context (h : Held) (old : option string).

Definition reassign_home : string := path_join (cp_home_root paths) (wb_profile b).
Definition link_as (o : option string) : option (FileKind * bytes) := (fun t => (Symlink, chars t)) <$> o.
(** The lock that belongs to an assignment. *)
Definition lock_state (assignment : option string) (n : gmap string Node) : Prop :=
  match assignment with
  | Some i => exists lock, lock_file (cp_credential_root paths) i = Ok lock /\ leads lock (lock_of reassign_home) n
  | None => forall x, n !! lock_of reassign_home = Some x -> f_kind x <> Symlink
  end.
(** Before, after, and anywhere between. *)
Definition placed (o : option string) (n : gmap string Node) : Prop := view n (auth_of reassign_home) = link_as o.
Definition between (n : gmap string Node) : Prop := placed old n \/ placed (Some desired) n.
Definition moving (s : Site) : Prop := exists c, fact id between (Some (with_credential c h)) s.

Lemma reassign_home_plain : plain_dir reassign_home.
Proof. apply plain_join. by eapply unit_plain. Qed.

Lemma apply_links_fact l hh :
  pl_home l = reassign_home ->
  ensures (fact id (placed old) hh) (apply_links paths l requested)
    (fun r s => match r with
                | Ok _ => fact id (fun n => placed (Some desired) n /\ lock_state requested n) hh s
                | Err _ => fact id between hh s
                end).
Proof.
  intros Hl. pose proof reassign_home_plain as Hp. unfold apply_links. rewrite Hdes, checked_Ok.
  unfold ProfileLayout.auth, ProfileLayout.auth_lock. rewrite Hl.
  assert (forall s, fact id (placed old) hh s -> fact id between hh s) as Hold
    by (intros s; apply fact_mono; by left).
  assert (forall s, fact id (placed (Some desired)) hh s -> fact id between hh s) as Hnew
    by (intros s; apply fact_mono; by right).
  apply ensures_skip; [apply silent_draw|intros _; exact Hold|]. intros x.
  eapply ensures_bind with (R := fun _ => fact id (placed (Some desired)) hh).
  { eapply ensures_mono; [apply ensures_fact_disk, (swap_auth_leaves reassign_home Hp desired x (link_as old))|done|].
    intros r s (r' & Hs & ->). destruct r' as [|[]]; [exact Hs|by apply Hold..]. }
  intros _. destruct requested as [i|]; cbn [lock_state].
  - destruct (lock_file (cp_credential_root paths) i) as [lock|e]; [|apply ensures_fail; exact Hnew].
    rewrite checked_Ok. apply ensures_skip; [apply silent_draw|intros _; exact Hnew|]. intros y.
    eapply ensures_mono; [apply ensures_fact_disk, (swap_lock_leaves reassign_home Hp lock y (link_as (Some desired)))|done|].
    intros r s (r' & [[Hv Hlk] Hh] & ->). destruct r' as [[]|e]; [|destruct e; apply Hnew; by split].
    split; [|done]. split; [done|]. exists lock. auto.
  - eapply ensures_mono; [apply ensures_fact_disk, (remove_lock_leaves reassign_home Hp (link_as (Some desired)))|done|].
    intros r s (r' & [[Hv Hlk] Hh] & ->). destruct r' as [[]|e]; [|destruct e; apply Hnew; by split].
    split; [|done]. split; [done|]. auto.
Qed.

Lemma switch_fact l api_key active pid_before :
  pl_home l = reassign_home ->
  ensures (fact id (placed old) (Some h))
    (switch_credential wm rounds paths b l api_key requested desired active pid_before)
    (fun r s => match r with
                | Ok _ => fact id (fun n => placed (Some desired) n /\ lock_state requested n)
                            (Some (with_credential requested h)) s
                          /\ served (wb_unit b) (wb_endpoint b) s
                | Err _ => moving s
                end).
Proof.
  intros Hl. unfold switch_credential.
  assert (with_credential (h_credential h) h = h) as Eh by by destruct h.
  assert (forall hh s, fact id (placed old) (Some (with_credential hh h)) s -> moving s) as Hold
    by (intros hh s Hs; exists hh; revert Hs; apply fact_mono; by left).
  assert (forall hh s, fact id between (Some (with_credential hh h)) s -> moving s) as Hmid by (intros hh s Hs; by exists hh).
  rewrite <- Eh. apply ensures_skip; [silent_solve|intros _; apply Hold|]. intros _.
  eapply ensures_bind with (R := fun _ => fact id (fun n => placed (Some desired) n /\ lock_state requested n)
    (Some (with_credential (h_credential h) h))).
  { eapply ensures_mapping; [by apply apply_links_fact|]. intros [[]|[]] s Hs; [exact Hs|by eapply Hmid..]. }
  intros _. eapply ensures_bind with (R := fun _ => fact id (fun n => placed (Some desired) n /\ lock_state requested n)
    (Some (with_credential requested h))).
  { assert (forall hh s, fact id (fun n => placed (Some desired) n /\ lock_state requested n) (Some (with_credential hh h)) s ->
      moving s) as Hnew by (intros hh s Hs; exists hh; revert Hs; apply fact_mono; intros n []; by right).
    eapply ensures_mapping; [apply (ensures_fact_registry id _ _ _ (Some (with_credential requested h)))|].
    - intros db Hdb. pose proof (set_credential_held id requested db) as Hc. rewrite Hid.
      destruct (set_project_credential _ _ _) as [[]]; [|congruence]. destruct Hc as (h' & E1 & ->).
      rewrite Hdb in E1. by injection E1 as <-.
    - intros [[]|[]] s Hs; [exact Hs|by eapply Hnew..]. }
  intros _. eapply ensures_mono; [apply start_and_check_fact|done|].
  intros [[]|e] s [Hs Hok]; [split; [done|]; by apply Hok|].
  exists requested. revert Hs. apply fact_mono. intros n []. by right.
Qed.

Lemma restore_link_fact v hc l :
  pl_home l = reassign_home ->
  ensures (fact id (placed v) hc)
    (match old with
     | Some target => let! x := draw in succeeds (on_disk (swap_link target (ProfileLayout.auth l) false x))
     | None => succeeds (on_disk (remove_link (ProfileLayout.auth l)))
     end : Prog Empty_set bool)
    (fun r s => match r with
                | Ok ok => fact id (placed (if ok then old else v)) hc s
                | Err _ => fact id (placed v) hc s
                end).
Proof.
  intros Hl. pose proof reassign_home_plain as Hp. unfold ProfileLayout.auth. rewrite Hl.
  destruct old as [target|].
  - apply ensures_skip; [apply silent_draw|done|]. intros x.
    eapply ensures_succeeds; [apply ensures_fact_disk, (swap_auth_leaves reassign_home Hp target x (link_as v))|].
    intros r s (r' & Hs & ->). by destruct r' as [|[]].
  - eapply ensures_succeeds; [apply ensures_fact_disk, (remove_auth_leaves reassign_home (fun o => o = link_as v))|].
    + intros k body. by destruct v; intros [= -> _].
    + intros r s (r' & Hs & ->). by destruct r' as [|[]].
Qed.

Lemma restore_lock_fact v hc l prev :
  pl_home l = reassign_home ->
  ensures (fact id (placed v) hc)
    (match prev with
     | Some i =>
         match lock_file (cp_credential_root paths) i with
         | Ok lock => let! x := draw in succeeds (on_disk (swap_link lock (ProfileLayout.auth_lock l) true x))
         | Err _ => ret false
         end
     | None => succeeds (on_disk (remove_link (ProfileLayout.auth_lock l)))
     end : Prog Empty_set bool)
    (fun r s => match r with
                | Ok ok => fact id (fun n => placed v n /\ (ok = true -> lock_state prev n)) hc s
                | Err _ => fact id (placed v) hc s
                end).
Proof.
  intros Hl. pose proof reassign_home_plain as Hp. unfold ProfileLayout.auth_lock. rewrite Hl.
  destruct prev as [i|]; cbn [lock_state].
  - destruct (lock_file _ i) as [lock|e]; [|by apply ensures_ret; intros s [Hv Hh]].
    apply ensures_skip; [apply silent_draw|done|]. intros x.
    eapply ensures_succeeds; [apply ensures_fact_disk, (swap_lock_leaves reassign_home Hp lock x (link_as v))|].
    intros r s (r' & [[Hv Hlk] Hh] & ->). destruct r' as [[]|[]]; [|by split|by repeat split..].
    split; [|done]. split; [done|]. intros _. exists lock. auto.
  - eapply ensures_succeeds; [apply ensures_fact_disk, (remove_lock_leaves reassign_home Hp (link_as v))|].
    intros r s (r' & [[Hv Hlk] Hh] & ->). destruct r' as [[]|[]]; [|by split|by repeat split..].
    split; [|done]. split; [done|]. auto.
Qed.

Lemma record_fact N c prev :
  ensures (fact id N (Some (with_credential c h)))
    (succeeds (on_registry (set_project_credential (wb_project_id b) prev)) : Prog Empty_set bool)
    (fun r s => match r with
                | Ok ok => fact id N (Some (with_credential (if ok then prev else c) h)) s
                | Err _ => fact id N (Some (with_credential c h)) s
                end).
Proof.
  eapply ensures_succeeds; [apply (ensures_fact_registry id _ _ _ (Some (with_credential prev h)))|].
  - intros db Hdb. pose proof (set_credential_held id prev db) as Hc. rewrite Hid.
    destruct (set_project_credential _ _ _) as [[]]; [|congruence]. destruct Hc as (h' & E1 & ->).
    rewrite Hdb in E1. by injection E1 as <-.
  - by intros [[]|[]] s Hs.
Qed.

Lemma restore_fact l api_key was_active :
  pl_home l = reassign_home ->
  ensures moving (restore_credential wm rounds paths b l api_key (h_credential h) old was_active)
    (fun r s => moving s
       /\ (r = Ok true -> fact id (fun n => placed old n /\ lock_state (h_credential h) n) (Some h) s)).
Proof.
  intros Hl s0 (c & Hbet & Hh).
  assert (exists v, placed v (nodes (s_disk s0)) /\ (v = old \/ v = Some desired)) as (v & Hv & Hvs)
    by (destruct Hbet; eauto).
  assert (forall v' c' N s, (v' = old \/ v' = Some desired) -> (forall n, N n -> placed v' n) ->
    fact id N (Some (with_credential c' h)) s -> moving s) as Hmv.
  { intros v' c' N s Hor HN [Hn Hh']. exists c'. split; [|done]. destruct Hor as [-> | ->]; [left|right]; auto. }
  assert (with_credential (h_credential h) h = h) as Eh by by destruct h.
  enough (ensures (fact id (placed v) (Some (with_credential c h)))
    (restore_credential wm rounds paths b l api_key (h_credential h) old was_active)
    (fun r s => moving s
       /\ (r = Ok true -> fact id (fun n => placed old n /\ lock_state (h_credential h) n) (Some h) s))) as He
    by (by apply He).
  clear s0 Hbet Hh Hv. unfold restore_credential.
  apply ensures_skip; [silent_solve|intros e s Hs; split; [by eapply Hmv|done]|]. intros _.
  eapply ensures_bind with (R := fun ok s => fact id (placed (if ok : bool then old else v)) (Some (with_credential c h)) s).
  { eapply ensures_mono; [by apply (restore_link_fact v)|done|].
    intros [ok|e] s Hs; [done|]. split; [by eapply Hmv|done]. }
  intros link_back. set (v1 := if link_back then old else v).
  assert (v1 = old \/ v1 = Some desired) as Hv1 by (unfold v1; destruct link_back; auto).
  eapply ensures_bind with (R := fun ok s => fact id (fun n => placed v1 n /\ (ok = true -> lock_state (h_credential h) n))
    (Some (with_credential c h)) s).
  { eapply ensures_mono; [by apply (restore_lock_fact v1)|done|].
    intros [ok|e] s Hs; [done|]. split; [by eapply Hmv|done]. }
  intros lock_back. set (N := fun n => placed v1 n /\ (lock_back = true -> lock_state (h_credential h) n)).
  assert (forall n, N n -> placed v1 n) as HN by (by intros n []).
  eapply ensures_bind with (R := fun ok s => fact id N (Some (with_credential (if ok : bool then h_credential h else c) h)) s).
  { eapply ensures_mono; [apply record_fact|done|]. intros [ok|e] s Hs; [done|]. split; [by eapply Hmv|done]. }
  intros recorded. set (c1 := if recorded then h_credential h else c).
  apply ensures_skip; [silent_solve|intros e s Hs; split; [by eapply Hmv|done]|]. intros running. cbv zeta.
  apply ensures_skip; [unfold ignoring; rewrite Hid; silent_solve|intros e s Hs; split; [by eapply Hmv|done]|]. intros _.
  apply ensures_ret. intros s Hs. split; [by eapply Hmv|]. intros [= Hr].
  rewrite !andb_true_iff in Hr. destruct Hr as [[[-> ->] ->] _]. destruct Hs as [[Hp Hlk] Hh].
  split; [split; [done|auto]|]. intros Hset. rewrite (Hh Hset). unfold c1. by rewrite Eh.
Qed.
End Reassign.

Section ReadyBinding.
Context `{SerdeJson} `{Process} `{Supervisor} (wm : WorkerManager) (rounds : nat) (id : string).

(** The registry as an operation finds it. *)
Definition registry_now (s : Site) : Db := fst (meanwhile (s_host s) (s_db s)).

Lemma ready_binding_fact s b :
  binding id (registry_now s) = Ok b ->
  ensures (fun s1 => s1 = s) (ready_binding wm id)
    (fun r s1 => fact id (fun n => n = nodes (s_disk s)) (held id (s_db s)) s1
       /\ match r with Ok (b', _) => b' = b | Err (Failed f) => rf_restored f = true | _ => True end).
Proof.
  intros Hb s1 ->. split.
  { apply fact_silent; [by apply silent_ready|done]. }
  unfold ready_binding, registry_now in *. unfold bind, mapping, read_registry at 1.
  destruct (meanwhile _ _) as [db hs]. cbn [fst] in Hb. rewrite Hb.
  unfold worker_key. by destruct (read_worker_key _ _ _).
Qed.
End ReadyBinding.

(** How a reassignment may end. *)
Section ReassignOutcome.
Context `{SerdeJson} `{Process} `{Supervisor} (id : string) (paths : CredentialPaths) (b : WorkerBinding).

Definition reassigned (requested : option string) (s : Site) (r : Result (Outcome ReassignFailure) Reassignment)
    (s' : Site) : Prop :=
  let auth := auth_of (reassign_home paths b) in
  let n := nodes (s_disk s) in
  let n' := nodes (s_disk s') in
  match r with
  | Ok ReassignUnchanged =>
      n' = n /\ (settled id -> held id (s_db s') = held id (s_db s)) /\ wb_credential_id b = requested
      /\ exists desired target, store_for paths requested = Ok desired
           /\ view n auth = Some (Symlink, chars target) /\ same_path target desired = true
  | Ok ReassignApplied =>
      exists desired, store_for paths requested = Ok desired
        /\ view n' auth = Some (Symlink, chars desired) /\ lock_state paths b requested n'
        /\ (settled id -> exists h, held id (s_db s) = Some h /\ held id (s_db s') = Some (with_credential requested h))
        /\ served (wb_unit b) (wb_endpoint b) s'
  | Err (Failed f) =>
      rf_restored f = true -> view n' auth = view n auth /\ (settled id -> held id (s_db s') = held id (s_db s))
  | Err _ => view n' auth = view n auth
             \/ exists desired, store_for paths requested = Ok desired /\ view n' auth = Some (Symlink, chars desired)
  end.
End ReassignOutcome.

(** C27. Moving a worker to another credential either takes or is put back.  When
    it is reported as applied, the project's link leads to the store of the
    requested credential, the lock belongs to it, and the worker was started and
    answered since; when a failure is reported as restored, the link says exactly
    what it said before; and if the node stops anywhere, the link leads to the old
    store or to the new one, never nowhere.  So much holds whatever others do to
    the registry meanwhile.  The registry records the requested credential, or
    after a restored failure what it recorded before, provided nobody else writes
    the project's profile, credential, model or state of sleep meanwhile; the
    project's lock does not rule that out. *)
Theorem reassignment_takes_or_is_put_back `{SerdeJson} `{Process} `{Supervisor} wm rounds id paths requested s b :
  wm_credentials wm = Some paths -> binding id (registry_now s) = Ok b ->
  let (r, s') := reassign_credential wm rounds id requested s in
  reassigned id paths b requested s r s'.
Proof.
  intros Hp Hb. pose proof (binding_held _ _ _ Hb) as (Hid & Hunit & _ & h & Hnow & _ & Hcred).
  assert (settled id -> held id (s_db s) = Some h) as Hh by (intros Hset; rewrite <- Hnow; symmetry; apply Hset).
  enough (ensures (fun s1 => s1 = s) (reassign_credential wm rounds id requested) (reassigned id paths b requested s)) as He
    by (specialize (He s eq_refl); by destruct (reassign_credential _ _ _ _ _)).
  unfold reassign_credential. rewrite Hp.
  set (P := fact id (fun n => n = nodes (s_disk s)) (held id (s_db s))).
  assert (forall f s1, P s1 -> reassigned id paths b requested s (Err (Failed f)) s1) as Hsame
    by (intros f s1 [E1 E2] _; by rewrite E1).
  assert (forall e s1, P s1 -> reassigned id paths b requested s (Err e) s1) as Herr.
  { intros [| |f] s1 [E1 E2]; [left; by rewrite E1..|by apply Hsame]. }
  eapply ensures_bind_known with (R := P) (T := fun x => fst x = b).
  { eapply ensures_mono; [by apply (ready_binding_fact wm id s b)|done|].
    intros [[b' key]|e] s1 [Hs1 Hr]; [by split|]. by apply Herr. }
  intros [b' key] Eb. cbn [fst] in Eb. subst b'.
  destruct (store_for paths requested) as [desired|e] eqn:Hdes; [|by apply ensures_fail, Hsame].
  rewrite checked_Ok. cbv zeta.
  eapply ensures_bind_known with (R := P) (T := fun found => found = nodes (s_disk s) !! auth_of (reassign_home paths b)).
  { eapply ensures_mapping.
    - apply (ensures_fact_disk id _ _ _ (fun r n => n = nodes (s_disk s) /\ r = Ok (nodes (s_disk s) !! auth_of (reassign_home paths b)))).
      apply leaves_look. intros n ->. done.
    - intros r s1 (r' & [[Hn ->] Hd] & ->). done. }
  intros found ->.
  eapply ensures_bind_known with (R := P) (T := fun old => view (nodes (s_disk s)) (auth_of (reassign_home paths b)) = link_as old).
  { unfold view. destruct (nodes (s_disk s) !! _) as [x|]; [|by apply ensures_ret].
    case_bool_decide as Hk; [|apply ensures_fail, Hsame].
    apply ensures_ret. intros s1 Hs1. split; [done|]. cbn. unfold link_body. by rewrite Hk, of_chars_chars. }
  intros old Hold. rewrite <- Hcred.
  apply ensures_skip; [silent_solve|exact Herr|]. intros active.
  eapply ensures_bind_known with (R := P) (T := fun up => up = true ->
    h_credential h = requested /\ exists t, old = Some t /\ same_path t desired = true).
  { destruct (active && _ && _) eqn:Ec; [|by apply ensures_ret].
    apply andb_true_iff in Ec as [[_ Ho]%andb_true_iff Eq%bool_decide_eq_true].
    eapply ensures_mono; [apply ensures_silent, silent_health|done|]. intros [up|e] s1 Hs1; [|by apply Herr].
    split; [done|]. intros _. split; [done|]. destruct old as [t|]; [eauto|done]. }
  intros [|] Hup.
  { destruct (Hup eq_refl) as (Hc & t & -> & Ht). apply ensures_ret. intros s1 [E1 E2].
    split; [done|]. split; [done|]. split; [congruence|]. by exists desired, t. }
  apply ensures_skip; [by apply silent_pid_if|exact Herr|]. intros pid_before.
  assert (forall s1, P s1 -> fact id (placed paths b old) (Some h) s1) as Hpre.
  { intros s1 [E1 E2]. split; [unfold placed; by rewrite E1|]. intros Hset. rewrite E2; auto. }
  eapply ensures_mono.
  - apply (transition_ensures _ _ _ _ _ _ _
      (switch_fact wm rounds id paths b Hid Hunit requested desired Hdes h old (home_layout paths b) key active pid_before eq_refl)
      (restore_fact wm rounds id paths b Hid Hunit desired h old (home_layout paths b) key active eq_refl)).
  - exact Hpre.
  - intros [a|[| |f]] s1; [intros (-> & ((Hv & Hlk) & Hd) & Hsv); exists desired; split_and!; try done; intros Hset; exists h; auto|..].
    1-2: intros (c & [Hl|Hl] & _); [left; by rewrite Hold|right; by exists desired].
    intros Hback Hf. destruct (Hback Hf) as [[Hv _] Hd]. split; [rewrite Hold; exact Hv|]. intros Hset. rewrite Hd; auto using eq_sym.
Qed.

(** ** Choosing the model *)

Section Model.
Context `{SerdeJson} `{Process} `{Supervisor} (wm : WorkerManager) (rounds : nat) (id : string) (Hset : settled id).
Context (b : WorkerBinding) (Hid : wb_project_id b = id) (config : string) (before : bytes) (model : string) (h : Held).

Definition configured : bytes := set_setting before $"model" $"default" (chars model).
Definition reads_model (n : gmap string Node) : bool :=
  match read_to_string n config with
  | Ok text => bool_decide (lookup text $"model" $"default" = Some (chars model))
  | Err _ => false
  end.
Definition choosing (s : Site) : Prop := exists m, fact id (holds_text config None) (Some (with_model m h)) s.

Lemma record_model_fact N m m' :
  ensures (fact id N (Some (with_model m h))) (on_registry (set_project_model (wb_project_id b) m'))
    (fun r s => match r with Ok _ => fact id N (Some (with_model m' h)) s
                           | Err _ => fact id N (Some (with_model m h)) s end).
Proof.
  apply (ensures_fact_registry id). intros db Hdb. pose proof (set_model_held id m' db) as Hc. rewrite Hid.
  destruct (set_project_model _ _ _) as [[]]; [|congruence]. destruct Hc as (h' & E1 & ->).
  rewrite Hdb in E1. by injection E1 as <-.
Qed.

Lemma switch_model_fact api_key active pid_before :
  ensures (fact id (holds_text config (Some before)) (Some h))
    (switch_model wm rounds b config before api_key model active pid_before)
    (fun r s => match r with
                | Ok _ => fact id (holds_text config (Some configured)) (Some (with_model (Some model) h)) s
                          /\ served (wb_unit b) (wb_endpoint b) s /\ reads_model (nodes (s_disk s)) = true
                | Err _ => choosing s
                end).
Proof.
  assert (with_model (h_model h) h = h) as Eh by by destruct h.
  assert (forall t m s, fact id (holds_text config t) (Some (with_model m h)) s -> choosing s) as Hc.
  { intros t m s Hs. exists m. revert Hs. apply fact_mono. intros n. apply holds_text_weaken. }
  unfold switch_model. rewrite <- Eh at 1.
  apply ensures_skip; [silent_solve|intros _; apply Hc|]. intros _.
  eapply ensures_bind with (R := fun _ => fact id (holds_text config (Some configured)) (Some (with_model (h_model h) h))).
  { eapply ensures_mapping; [apply ensures_fact_disk, (write_holds config (Some before))|].
    intros r s (r' & Hs & ->). destruct r' as [[]|[]]; [exact Hs|by eapply Hc..]. }
  intros _. eapply ensures_bind with (R := fun _ => fact id (holds_text config (Some configured)) (Some (with_model (Some model) h))).
  { eapply ensures_mapping; [apply (record_model_fact _ (h_model h) (Some model))|].
    intros [[]|[]] s Hs; [exact Hs|by eapply Hc..]. }
  intros _. eapply ensures_mono; [apply start_and_check_fact|done|].
  intros [[]|e] s [Hs Hok]; [split; [done|]; by apply Hok|by eapply Hc].
Qed.

Lemma restore_model_fact api_key was_active :
  ensures choosing (restore_model wm rounds b config before api_key (h_model h) was_active)
    (fun r s => choosing s /\ (r = Ok true -> fact id (holds_text config (Some before)) (Some h) s)).
Proof.
  assert (with_model (h_model h) h = h) as Eh by by destruct h.
  assert (forall t m s, fact id (holds_text config t) (Some (with_model m h)) s -> choosing s) as Hc.
  { intros t m s Hs. exists m. revert Hs. apply fact_mono. intros n. apply holds_text_weaken. }
  intros s0 (m & Hs0). revert s0 Hs0. unfold restore_model.
  refine (_ : ensures (fact id (holds_text config None) (Some (with_model m h))) _
    (fun r s => choosing s /\ (r = Ok true -> fact id (holds_text config (Some before)) (Some h) s))).
  apply ensures_skip; [silent_solve|intros e s Hs; split; [by eapply Hc|done]|]. intros _.
  eapply ensures_bind with (R := fun ok s => fact id (holds_text config (if ok : bool then Some before else None)) (Some (with_model m h)) s).
  { eapply ensures_succeeds; [apply ensures_fact_disk, (write_holds config None)|].
    intros r s (r' & Hs & ->). destruct r' as [[]|[]]; [exact Hs|split; [by eapply Hc|done]|exact Hs..]. }
  intros written.
  eapply ensures_bind with (R := fun ok s => fact id (holds_text config (if written then Some before else None))
    (Some (with_model (if ok : bool then h_model h else m) h)) s).
  { eapply ensures_succeeds; [apply (record_model_fact _ m (h_model h))|].
    intros [[]|[]] s Hs; [exact Hs|split; [by eapply Hc|done]..|exact Hs]. }
  intros recorded.
  apply ensures_skip; [silent_solve|intros e s Hs; split; [by eapply Hc|done]|]. intros running. cbv zeta.
  apply ensures_skip; [unfold ignoring; rewrite Hid; silent_solve|intros e s Hs; split; [by eapply Hc|done]|]. intros _.
  apply ensures_ret. intros s Hs. split; [by eapply Hc|]. intros [= Hr].
  rewrite !andb_true_iff in Hr. destruct Hr as [[-> ->] _]. by rewrite Eh in Hs.
Qed.
End Model.

(** The other tasks keep the inventory's invariant (see [System]). *)
Definition keeps_inventory `{Supervisor} : Prop :=
  forall hs db, inventory_ok db -> inventory_ok (fst (meanwhile hs db)).

Section SelectOutcome.
Context `{SerdeJson} `{Process} `{Supervisor} (id : string) (paths : CredentialPaths) (b : WorkerBinding) (model : string).

Definition model_config : string := ProfileLayout.config (home_layout paths b).
Definition selected (s : Site) (r : Result (Outcome ReassignFailure) ModelSelection) (s' : Site) : Prop :=
  let n := nodes (s_disk s) in
  let n' := nodes (s_disk s') in
  match r with
  | Ok ModelUnchanged =>
      n' = n /\ held id (s_db s') = held id (s_db s) /\ reads_model model_config model n = true
      /\ exists h, held id (s_db s) = Some h /\ h_model h = Some model
  | Ok ModelApplied =>
      exists before h, read n model_config = Ok before /\ read n' model_config = Ok (configured before model)
        /\ lookup (configured before model) $"model" $"default" = Some (chars model)
        /\ held id (s_db s) = Some h /\ held id (s_db s') = Some (with_model (Some model) h)
        /\ served (wb_unit b) (wb_endpoint b) s'
  | Err (Failed f) =>
      rf_restored f = true -> read n' model_config = read n model_config /\ held id (s_db s') = held id (s_db s)
  | Err _ => True
  end.
End SelectOutcome.

Lemma inventory_project `{SerdeJson} id db h :
  inventory_ok db -> held id db = Some h -> exists p, project id db = Ok (Some p) /\ rp_model p = h_model h.
Proof.
  intros Hok. unfold project, held. destruct (select_one (is_project id) (projects db)) as [r|] eqn:E; [|done].
  intros [= <-]. apply select_project in E as [Hin _]; [|done].
  destruct (map_project_ok r (io_rows _ Hok r Hin)) as (p & Hp & _). rewrite Hp. exists p. split; [done|].
  unfold map_project in Hp. destruct (ProfileState.parse _); [|done]. destruct (RuntimeOwnership.parse _); [|done].
  by injection Hp as <-.
Qed.

Section Select.
Context `{SerdeJson} `{Process} `{Supervisor} (wm : WorkerManager) (rounds : nat) (id : string) (Hset : settled id).
Context (Hinv : keeps_inventory).

(** Reading the model that is to be put back if need be. *)
Lemma read_model_fact N h :
  ensures (fun s => fact id N (Some h) s /\ inventory_ok (s_db s))
    (ignoring (on_registry (query (project id))) : Prog ReassignFailure _)
    (fun r s => fact id N (Some h) s /\ exists p, r = Ok (Some (Some p)) /\ rp_model p = h_model h).
Proof.
  intros s [Hf Hok]. split; [apply fact_silent; [silent_solve|done]|].
  unfold ignoring, bind, attempt, on_registry, query.
  pose proof (Hset (s_host s) (s_db s)) as Hw. pose proof (Hinv (s_host s) _ Hok) as Hok'.
  destruct (meanwhile _ _) as [db hs]. cbn [fst] in *. destruct Hf as [_ Hh]. specialize (Hh Hset).
  destruct (inventory_project id db h Hok' ltac:(congruence)) as (p & -> & Hm). exists p. by split.
Qed.

Lemma ready_inventory s :
  inventory_ok (s_db s) -> inventory_ok (s_db (snd (ready_binding wm id s))).
Proof.
  intros Hok. unfold ready_binding, bind, mapping, read_registry, worker_key.
  pose proof (Hinv (s_host s) _ Hok) as Hok'. destruct (meanwhile _ _) as [db hs]. cbn [fst] in Hok'.
  destruct (binding id db) as [b|]; [|done]. cbn. by destruct (read_worker_key _ _ _).
Qed.
End Select.

(** Choosing a model either takes or is put back.  When it is reported as
    applied, the worker's configuration is the one before with exactly that
    setting written, it reads back as the model, the registry records it, and
    the worker was started and answered since; when a failure is reported as
    restored, the configuration file and the registry are as they were. *)
Theorem model_choice_takes_or_is_put_back `{SerdeJson} `{Process} `{Supervisor} wm rounds id paths model s b :
  settled id -> keeps_inventory -> inventory_ok (s_db s) ->
  wm_credentials wm = Some paths -> binding id (registry_now s) = Ok b ->
  let (r, s') := select_model wm rounds id model s in
  selected id paths b model s r s'.
Proof.
  intros Hset Hinv Hok Hp Hb. pose proof (binding_held _ _ _ Hb) as (Hid & _ & _ & h & Hh & _ & _).
  unfold registry_now in Hh. rewrite Hset in Hh.
  enough (ensures (fun s1 => s1 = s) (select_model wm rounds id model) (selected id paths b model s)) as He
    by (specialize (He s eq_refl); by destruct (select_model _ _ _ _ _)).
  set (P := fact id (fun n => n = nodes (s_disk s)) (Some h)).
  assert (forall e s1, P s1 -> selected id paths b model s (Err e) s1) as Herr.
  { intros [| |f] s1 [E1 E2]; try done. specialize (E2 Hset). intros _. split; congruence. }
  unfold select_model. destruct (validate_model_id model); [|apply ensures_fail; intros s1 ->; by apply Herr].
  eapply ensures_bind_known with (R := fun s1 => P s1 /\ inventory_ok (s_db s1)) (T := fun x => fst x = b).
  { intros s1 ->. pose proof (ready_binding_fact wm id s b Hb s eq_refl) as [Hf Hr]. rewrite Hh in Hf.
    pose proof (ready_inventory wm id Hinv s Hok) as Hi.
    destruct (ready_binding wm id s) as [[[b' key]|e] s1]; [|by apply Herr].
    split; [by split|exact Hr]. }
  intros [b' key] Eb. cbn [fst] in Eb. subst b'. rewrite Hp. cbv zeta. fold (model_config paths b).
  eapply ensures_bind_known with (R := fun s1 => P s1 /\ inventory_ok (s_db s1))
    (T := fun text => text = read_to_string (nodes (s_disk s)) (model_config paths b)).
  { intros s1 [[E1 E2] Hi]. cbn. by rewrite E1. }
  intros text ->. destruct (read_to_string _ _) as [before|e] eqn:Er; [|apply ensures_fail; intros s1 [Hs1 _]; by apply Herr].
  rewrite checked_Ok.
  eapply ensures_bind_known with (R := P) (T := fun found => exists p, found = Some (Some p) /\ rp_model p = h_model h).
  { eapply ensures_mono; [apply (read_model_fact id Hset Hinv (fun n => n = nodes (s_disk s)) h)|done|].
    intros r s1 [Hs1 (p & -> & Hm)]. eauto. }
  intros found (p & -> & Hm). rewrite Hm.
  apply ensures_skip; [silent_solve|exact Herr|]. intros active.
  assert (holds_text (model_config paths b) (Some before) (nodes (s_disk s))) as Ht.
  { apply holds_text_read. unfold read_to_string in Er. destruct (read _ _); [|done].
    destruct (valid_utf8 _); [congruence|done]. }
  eapply ensures_bind_known with (R := P) (T := fun up => up = true ->
    lookup before $"model" $"default" = Some (chars model) /\ h_model h = Some model).
  { destruct (active && _ && _) eqn:Ec; [|by apply ensures_ret].
    apply andb_true_iff in Ec as [[_ E1%bool_decide_eq_true]%andb_true_iff E2%bool_decide_eq_true].
    eapply ensures_mono; [apply ensures_silent, silent_health|done|]. intros [up|e] s1 Hs1; [done|by apply Herr]. }
  intros [|] Hup.
  { destruct (Hup eq_refl) as (E1 & E2). apply ensures_ret. intros s1 [E3 E4]. specialize (E4 Hset). split; [done|]. split; [congruence|].
    split; [|by exists h]. unfold reads_model. rewrite Er. by rewrite bool_decide_eq_true_2. }
  apply ensures_skip; [by apply silent_pid_if|exact Herr|]. intros pid_before.
  eapply ensures_mono.
  - apply (transition_ensures _ _ _ _ _ _ _
      (switch_model_fact wm rounds id b Hid (model_config paths b) before model h key active pid_before)
      (restore_model_fact wm rounds id b Hid (model_config paths b) before h key active)).
  - intros s1 [E1 E2]. split; [by rewrite E1|done].
  - apply holds_text_read in Ht. intros [sel|[| |f]] s1; [|done|done|].
    + intros (-> & [Hc%holds_text_read Hd] & Hsv & Hr). specialize (Hd Hset). exists before, h. split_and!; try done.
      unfold reads_model, read_to_string in Hr. rewrite Hc in Hr. destruct (valid_utf8 _); [|done].
      by apply bool_decide_eq_true in Hr.
    + intros Hback Hf. destruct (Hback Hf) as [Hc%holds_text_read Hd]. specialize (Hd Hset). split; congruence.
Qed.

(** ** Waiting ends *)

(** Time does not go backwards, and a pause lasts at least as long as asked. *)
Record fair_clock `{Supervisor} : Prop := {
  fc_health : forall e k hs, instant hs <= instant (snd (healthy e k hs));
  fc_sleep : forall d hs, 0 <= d -> instant hs + d <= instant (sleep d hs)
}.

Create HintDb finishes.

Section Finishing.
Context `{SerdeJson} `{Process} `{Supervisor} (wm : WorkerManager) (rounds : nat).
Context (Hclock : fair_clock) (Hpoll : 0 < poll (wm_timings wm)) (Hstart : 0 <= startup (wm_timings wm)).
Context (Hrounds : startup (wm_timings wm) <= poll (wm_timings wm) * (Z.of_nat rounds - 1)).

Definition finishes {E A} (m : Prog E A) : Prop := forall s, fst (m s) <> Err Unfinished.

Lemma finishes_bind {E A B} (m : Prog E A) (k : A -> Prog E B) :
  finishes m -> (forall a, finishes (k a)) -> finishes (bind m k).
Proof.
  intros Hm Hk s. specialize (Hm s). unfold bind. destruct (m s) as [[a|e] s1]; cbn [fst] in *; [apply Hk|congruence].
Qed.
Lemma finishes_ret {E A} (a : A) : finishes (@ret (Outcome E) Site A a).
Proof. done. Qed.
Lemma finishes_throw {E A} (e : E) : finishes (@throw _ E A e).
Proof. done. Qed.
Lemma finishes_checked {E F A} (f : E -> F) (r : Result E A) : finishes (checked f r).
Proof. by destruct r. Qed.
Lemma finishes_mapping {E F A} (f : E -> F) (m : Prog E A) : finishes m -> finishes (mapping f m).
Proof. intros Hm s. specialize (Hm s). unfold mapping. by destruct (m s) as [[a|[]] s']. Qed.
Lemma finishes_attempt {E F A} (m : Prog E A) : finishes m -> finishes (@attempt _ E F A m).
Proof. intros Hm s. specialize (Hm s). unfold attempt. by destruct (m s) as [[a|[]] s']. Qed.
Lemma finishes_disk {A} (m : M FsError Disk A) : finishes (on_disk m).
Proof. intros s. unfold on_disk. by destruct (m (s_disk s)) as [[a|[]] d]. Qed.
Lemma finishes_registry {A} (m : M InvError Db A) : finishes (on_registry m).
Proof. intros s. unfold on_registry. destruct (meanwhile _ _) as [db hs]. by destruct (m db) as [[]]. Qed.
Lemma finishes_read {A} (f : Db -> Result NodeError A) : finishes (read_registry f).
Proof. intros s. unfold read_registry. destruct (meanwhile _ _) as [db hs]. by destruct (f db). Qed.
Lemma finishes_key path : finishes (worker_key wm path).
Proof. intros s. unfold worker_key. by destruct (read_worker_key _ _ _). Qed.
Lemma finishes_ask v u : finishes (ask v u).
Proof. intros s. unfold ask. by destruct (control _ _ _) as [[a|[t|]] hs]. Qed.
Lemma finishes_active u : finishes (ask_active u).
Proof. intros s. unfold ask_active. by destruct (is_active _ _) as [[a|[t|]] hs]. Qed.
Lemma finishes_pid u : finishes (ask_pid u).
Proof. intros s. unfold ask_pid. by destruct (main_pid _ _) as [[a|[t|]] hs]. Qed.
Lemma finishes_health {E} e k : finishes (@ask_health _ E e k).
Proof. intros s. unfold ask_health. by destruct (healthy _ _ _). Qed.
Lemma finishes_gets {E A} (f : Site -> A) : finishes (@gets (Outcome E) Site A f).
Proof. done. Qed.
Lemma finishes_draw {E} : finishes (@draw _ E).
Proof. intros s. unfold draw. by destruct (nonce _). Qed.

(** The rounds that are left cover the time that is left. *)
Lemma wait_until_finishes {E} endpoint key deadline n s :
  deadline - instant (s_host s) <= poll (wm_timings wm) * (Z.of_nat n - 1) -> (0 < n)%nat ->
  fst (@wait_until _ wm E n deadline endpoint key s) <> Err Unfinished.
Proof.
  revert s. induction n as [|n IH]; intros s Hn Hpos; [lia|]. cbn [wait_until]. unfold bind, ask_health.
  pose proof (fc_health Hclock endpoint key (s_host s)) as Hm.
  destruct (healthy endpoint key (s_host s)) as [[|] hs] eqn:Eh; [done|]. cbn [fst snd] in *.
  unfold clock, gets, pause, modify. cbn [s_host logged at_host].
  destruct (Z.leb_spec deadline (instant hs)) as [|Hlt]; [done|].
  pose proof (fc_sleep Hclock (poll (wm_timings wm)) hs ltac:(lia)) as Hs.
  apply IH; cbn [s_host logged at_host].
  - nia.
  - destruct n; [|lia]. nia.
Qed.

Lemma wait_healthy_finishes {E} endpoint key : finishes (@wait_healthy _ wm rounds E endpoint key).
Proof.
  intros s. unfold wait_healthy, bind, clock, gets. cbn [fst snd]. destruct (decide (rounds = 0%nat)) as [->|Hne].
  - exfalso. change (Z.of_nat 0) with 0 in Hrounds. lia.
  - apply wait_until_finishes; lia.
Qed.

#[local] Hint Resolve finishes_ret finishes_throw finishes_checked finishes_disk finishes_registry finishes_read
  finishes_key finishes_ask finishes_active finishes_pid finishes_health finishes_gets finishes_draw
  wait_healthy_finishes : finishes.

Ltac finishes_solve :=
  repeat (cbv zeta; match goal with
    | |- finishes (bind _ _) => apply finishes_bind; [|intros ?]
    | |- finishes (mapping _ _) => apply finishes_mapping
    | |- finishes (coded _ _) => apply finishes_mapping
    | |- finishes (infallible _) => apply finishes_mapping
    | |- finishes (attempt _) => apply finishes_attempt
    | |- finishes (ignoring _) => unfold ignoring
    | |- finishes (succeeds _) => unfold succeeds
    | |- finishes (match ?x with _ => _ end) => destruct x
    | |- finishes _ => solve [auto with finishes]
    end).

(** How an operation ended. *)
Definition ran_out (id : string) (op : Operation) (s : Site) : Prop :=
  match op with
  | EnsureRunning => fst (ensure_running wm rounds id s) = Err Unfinished
  | SuspendWorker now => fst (suspend_worker id now s) = Err Unfinished
  | ResumeWorker => fst (resume_worker wm rounds id s) = Err Unfinished
  | ReassignCredential requested => fst (reassign_credential wm rounds id requested s) = Err Unfinished
  | SelectModel model => fst (select_model wm rounds id model s) = Err Unfinished
  | StopWorker => fst (stop_owned_worker id s) = Err Unfinished
  | RestartWorker => fst (restart_owned_worker id s) = Err Unfinished
  end.

Lemma ensure_running_finishes id : finishes (ensure_running wm rounds id).
Proof. unfold ensure_running, reconcile_binding, reconcile_credentials. finishes_solve. Qed.

(** C38. Every operation on a worker ends: a wait takes at most the startup time
    divided by the polling interval, and one more round, whatever the worker
    answers and however long it takes to. *)
Theorem worker_operations_end id op s : ~ ran_out id op s.
Proof.
  pose proof (ensure_running_finishes id) as Hens. destruct op; cbn [ran_out].
  - apply Hens.
  - revert s. change (finishes (suspend_worker id now)). unfold suspend_worker, project_or_refusal. finishes_solve.
  - revert s. change (finishes (resume_worker wm rounds id)). unfold resume_worker, project_or_refusal. finishes_solve.
  - revert s. change (finishes (reassign_credential wm rounds id requested)).
    unfold reassign_credential, ready_binding, transition, switch_credential, start_and_check, restore_credential,
      apply_links, new_process, pid_if. finishes_solve.
  - revert s. change (finishes (select_model wm rounds id model)).
    unfold select_model, ready_binding, transition, switch_model, start_and_check, restore_model, new_process, pid_if.
    finishes_solve.
  - revert s. change (finishes (stop_owned_worker id)). unfold stop_owned_worker. finishes_solve.
  - revert s. change (finishes (restart_owned_worker id)). unfold restart_owned_worker. finishes_solve.
Qed.
End Finishing.
