(* ===== verification/WorkerReauth.v ===== *)
(** * WorkerReauth: replacing what a credential holds, for every worker that
    reads it ([swap_credential_material] of [workers.rs]). *)
From Stdlib Require Import Lia.
From stdpp Require Import gmap.
From S2P Require Import Prelude Text Json Schema Identifiers Inventory InventoryFacts Fs CredentialSwap CredentialHomes Policy Host Profiles ProfileTheorems Workers WorkerFacts WorkerTheorems.

Section Reports.
Context `{Supervisor}.

(** A program that leaves the disk alone, and what it adds to the log. *)
Definition adds {E A} (m : Prog E A) (Q : Result (Outcome E) A -> list HostEvent -> Prop) : Prop :=
  forall s, nodes (s_disk (snd (m s))) = nodes (s_disk s)
    /\ exists new, s_log (snd (m s)) = s_log s ++ new /\ Q (fst (m s)) new.

Lemma adds_mono {E A} (m : Prog E A) (Q Q' : Result (Outcome E) A -> list HostEvent -> Prop) :
  adds m Q -> (forall r new, Q r new -> Q' r new) -> adds m Q'.
Proof. intros Hm HQ s. destruct (Hm s) as [Hd (new & Hl & Hq)]. split; [done|]. exists new. auto. Qed.
Lemma adds_bind {E A B} (m : Prog E A) (k : A -> Prog E B) Q1 (Q : Result (Outcome E) B -> list HostEvent -> Prop) :
  adds m Q1 -> (forall e new, Q1 (Err e) new -> Q (Err e) new) ->
  (forall a new, Q1 (Ok a) new -> adds (k a) (fun r new' => Q r (new ++ new'))) -> adds (bind m k) Q.
Proof.
  intros Hm He Hk s. destruct (Hm s) as [Hd (new & Hl & Hq)]. unfold bind.
  destruct (m s) as [[a|e] s1]; cbn [fst snd] in *; [|by eauto].
  destruct (Hk a new Hq s1) as [Hd' (new' & Hl' & Hq')]. split; [congruence|]. exists (new ++ new').
  split; [|done]. by rewrite Hl', Hl, app_assoc.
Qed.
Lemma adds_ret {E A} (a : A) (Q : Result (Outcome E) A -> list HostEvent -> Prop) :
  Q (Ok a) [] -> adds (ret a) Q.
Proof. intros HQ s. split; [done|]. exists []. by rewrite app_nil_r. Qed.
Lemma adds_fail {E A} e (Q : Result (Outcome E) A -> list HostEvent -> Prop) :
  Q (Err e) [] -> adds (fail e) Q.
Proof. intros HQ s. split; [done|]. exists []. by rewrite app_nil_r. Qed.
Lemma adds_mapping {E F A} (f : E -> F) (m : Prog E A) Q1 (Q : Result (Outcome F) A -> list HostEvent -> Prop) :
  adds m Q1 ->
  (forall r new, Q1 r new -> Q (match r with
     | Ok a => Ok a | Err (Failed e) => Err (Failed (f e)) | Err Ended => Err Ended
     | Err Unfinished => Err Unfinished end) new) ->
  adds (mapping f m) Q.
Proof.
  intros Hm HQ s. destruct (Hm s) as [Hd (new & Hl & Hq)]. unfold mapping.
  destruct (m s) as [[a|[| |e]] s1]; cbn [fst snd] in *; (split; [done|]; exists new; split; [done|]; by apply HQ in Hq).
Qed.
Lemma adds_attempt {E F A} (m : Prog E A) Q1 (Q : Result (Outcome F) (Result E A) -> list HostEvent -> Prop) :
  adds m Q1 ->
  (forall r new, Q1 r new -> Q (match r with
     | Ok a => Ok (Ok a) | Err (Failed e) => Ok (Err e) | Err Ended => Err Ended
     | Err Unfinished => Err Unfinished end) new) ->
  adds (attempt m) Q.
Proof.
  intros Hm HQ s. destruct (Hm s) as [Hd (new & Hl & Hq)]. unfold attempt.
  destruct (m s) as [[a|[| |e]] s1]; cbn [fst snd] in *; (split; [done|]; exists new; split; [done|]; by apply HQ in Hq).
Qed.
Lemma adds_ask v u : adds (ask v u) (fun _ new => new = [Did v u]).
Proof. intros s. unfold ask. destruct (control _ _ _). split; [done|]. by exists [Did v u]. Qed.
Lemma adds_pid u : adds (ask_pid u) (fun _ new => new = []).
Proof. intros s. unfold ask_pid. destruct (main_pid _ _). split; [done|]. exists []. by rewrite app_nil_r. Qed.
Lemma adds_active u : adds (ask_active u) (fun _ new => forall v w, ~ In (Did v w) new).
Proof.
  intros s. unfold ask_active. destruct (is_active _ _) as [[b|] hs]; (split; [done|]).
  - exists [Observed u b]. split; [done|]. intros v w [|[]]. done.
  - exists []. split; [by rewrite app_nil_r|]. by intros v w [].
Qed.
Lemma adds_read {A} (f : Db -> Result NodeError A) : adds (read_registry f) (fun _ new => new = []).
Proof. intros s. unfold read_registry. destruct (meanwhile _ _). split; [done|]. exists []. by rewrite app_nil_r. Qed.
Lemma adds_key wm path : adds (worker_key wm path) (fun _ new => new = []).
Proof. intros s. split; [done|]. exists []. by rewrite app_nil_r. Qed.
End Reports.

Section Reauthorize.
Context `{SerdeJson} `{Process} `{Supervisor} (wm : WorkerManager) (rounds : nat).

(** A worker is started and answers, and no worker is stopped from then on. *)
Definition brought_up (u endpoint : string) (log : list HostEvent) : Prop :=
  exists a k c, log = a ++ Did Start u :: replicate k (Answered endpoint false) ++ Answered endpoint true :: c
    /\ forall w, ~ In (Did Stop w) c.
Definition stops_nothing (log : list HostEvent) : Prop := forall w, ~ In (Did Stop w) log.
Definition all_up (ts : list SwapTarget) (log : list HostEvent) : Prop :=
  forall t, In t ts -> st_active t = true -> brought_up (wb_unit (st_binding t)) (wb_endpoint (st_binding t)) log.

Lemma brought_up_before u e log log' : brought_up u e log -> brought_up u e (log' ++ log).
Proof. intros (a & k & c & -> & Hc). exists (log' ++ a), k, c. by rewrite <- app_assoc. Qed.
Lemma brought_up_after u e log log' : stops_nothing log' -> brought_up u e log -> brought_up u e (log ++ log').
Proof.
  intros Hs (a & k & c & -> & Hc). exists a, k, (c ++ log'). split.
  - by rewrite <- app_assoc; cbn [app]; rewrite <- app_assoc.
  - intros w [Hin|Hin]%in_app_iff; [by eapply Hc|by eapply Hs].
Qed.
Lemma stops_nothing_app log log' : stops_nothing log -> stops_nothing log' -> stops_nothing (log ++ log').
Proof. intros Ha Hb w [Hin|Hin]%in_app_iff; [by eapply Ha|by eapply Hb]. Qed.

(** What a wait adds. *)
Definition waited (endpoint : string) (up : bool) (log : list HostEvent) : Prop :=
  exists k, log = replicate k (Answered endpoint false) ++ (if up then [Answered endpoint true] else []).

Lemma waited_stops_nothing endpoint up log : waited endpoint up log -> stops_nothing log.
Proof.
  intros [k ->] w [Hin|Hin]%in_app_iff; [|by destruct up; [destruct Hin as [|[]]|]].
  apply list_elem_of_In, elem_of_replicate in Hin as [? _]. done.
Qed.

Lemma adds_wait {E} endpoint key deadline n :
  adds (@wait_until _ wm E n deadline endpoint key)
    (fun r new => waited endpoint (match r with Ok up => up | Err _ => false end) new).
Proof.
  induction n as [|n IH]; cbn [wait_until]; [apply adds_fail; by exists 0%nat|].
  eapply adds_bind with (Q1 := fun r new => exists up, r = Ok up /\ new = [Answered endpoint up]).
  { intros s. unfold ask_health. destruct (healthy _ _ _) as [up hs]. split; [done|].
    exists [Answered endpoint up]. split; [done|]. by exists up. }
  { by intros e new (up & ? & _). }
  intros up ? (? & [= <-] & ->). destruct up; [apply adds_ret; by exists 0%nat|].
  eapply adds_bind with (Q1 := fun r new => (exists now, r = Ok now) /\ new = []).
  { intros s. split; [done|]. exists []. rewrite app_nil_r. split; [done|]. by split; [eexists|]. }
  { by intros e new [[now ?] _]. }
  intros now ? [_ ->]. destruct (deadline <=? now); [apply adds_ret; by exists 1%nat|].
  eapply adds_bind with (Q1 := fun r new => r = Ok tt /\ new = []); [|by intros e new [? _]|].
  { intros s. split; [done|]. exists []. by rewrite app_nil_r. }
  intros ? ? [_ ->]. eapply adds_mono; [exact IH|]. intros r new [k ->]. by exists (S k).
Qed.
Lemma adds_wait_healthy {E} endpoint key :
  adds (@wait_healthy _ wm rounds E endpoint key)
    (fun r new => waited endpoint (match r with Ok up => up | Err _ => false end) new).
Proof.
  unfold wait_healthy. eapply adds_bind with (Q1 := fun _ new => new = []); [|by intros e new ->; exists 0%nat|].
  { intros s. split; [done|]. exists []. by rewrite app_nil_r. }
  intros now ? ->. apply adds_wait.
Qed.
Lemma adds_new_process u pid text : adds (new_process u pid text) (fun _ new => new = []).
Proof.
  unfold new_process. eapply adds_bind with (Q1 := fun _ new => new = []); [|done|].
  { eapply adds_attempt; [apply adds_pid|done]. }
  intros after ? ->. destruct pid, after as [[]|]; try by apply adds_ret.
  destruct (_ =? _); [by apply adds_fail|by apply adds_ret].
Qed.

(** Nothing is started or stopped. *)
Definition idle (log : list HostEvent) : Prop := forall v w, ~ In (Did v w) log.
Lemma idle_app log log' : idle log -> idle log' -> idle (log ++ log').
Proof. intros Ha Hb v w [Hin|Hin]%in_app_iff; [by eapply Ha|by eapply Hb]. Qed.
Lemma idle_nil : idle [].
Proof. by intros v w []. Qed.

Lemma adds_idle {E A B} (m : Prog E A) (k : A -> Prog E B) :
  adds m (fun _ => idle) -> (forall a, adds (k a) (fun _ => idle)) -> adds (bind m k) (fun _ => idle).
Proof.
  intros Hm Hk. eapply adds_bind; [exact Hm|done|]. intros a new Hn. eapply adds_mono; [apply Hk|].
  intros r new' Hn'. by apply idle_app.
Qed.
Lemma adds_pid_if active u : adds (pid_if active u) (fun _ => idle).
Proof.
  unfold pid_if, ignoring. destruct active; [|apply adds_ret, idle_nil].
  do 2 (apply adds_idle; [|intros ?; apply adds_ret, idle_nil]).
  eapply adds_attempt; [apply adds_pid|]. intros r new ->. apply idle_nil.
Qed.
Lemma adds_swap_targets ids : adds (swap_targets wm ids) (fun _ => idle).
Proof.
  induction ids as [|id ids IH]; cbn [swap_targets]; [apply adds_ret, idle_nil|].
  apply adds_idle.
  { unfold ready_binding. apply adds_idle; [|intros b; apply adds_idle; [|intros key; apply adds_ret, idle_nil]].
    - eapply adds_mapping; [apply adds_read|]. intros r new ->. apply idle_nil.
    - eapply adds_mapping; [apply adds_key|]. intros r new ->. apply idle_nil. }
  intros [b key]. apply adds_idle; [by eapply adds_mapping; [apply adds_active|]|]. intros active.
  apply adds_idle; [apply adds_pid_if|]. intros pid. apply adds_idle; [exact IH|]. intros ts. apply adds_ret, idle_nil.
Qed.

(** The registry as it stood when the [k]-th of the projects was looked up. *)
Definition stood (ids : list string) (s : Site) (k : nat) : Db := s_db (snd (swap_targets wm (firstn (S k) ids) s)).

(** One round of [swap_targets]. *)
Definition one_target (id : string) : Prog ReassignFailure SwapTarget :=
  let! (b, api_key) := ready_binding wm id in
  let! active := mapping (refusal "worker_restart_failed") (ask_active (wb_unit b)) in
  let! pid := pid_if active (wb_unit b) in
  ret {| st_binding := b; st_api_key := api_key; st_active := active; st_pid_before := pid |}.
Lemma swap_targets_cons id rest s :
  swap_targets wm (id :: rest) s
  = match one_target id s with
    | (Ok t, s1) => match swap_targets wm rest s1 with (Ok ts, s2) => (Ok (t :: ts), s2) | (Err e, s2) => (Err e, s2) end
    | (Err e, s1) => (Err e, s1)
    end.
Proof.
  cbn [swap_targets]. unfold one_target, bind. destruct (ready_binding wm id s) as [[[b key]|e] s1]; [|done].
  destruct (mapping _ (ask_active _) s1) as [[active|e] s2]; [|done].
  by destruct (pid_if active (wb_unit b) s2) as [[pid|e] s3].
Qed.
Lemma one_target_looks id s t s1 :
  one_target id s = (Ok t, s1) ->
  s_db s1 = registry_now s /\ binding id (registry_now s) = Ok (st_binding t)
  /\ s_log s1 = s_log s ++ [Observed (wb_unit (st_binding t)) (st_active t)].
Proof.
  unfold one_target. intros Ht. apply bind_Ok in Ht as ([b key] & s2 & Hb & Ht).
  apply bind_Ok in Ht as (active & s3 & Ha & Ht). apply bind_Ok in Ht as (pid & s4 & Hp & Ht). injection Ht as <- <-.
  cbn [st_binding st_active].
  assert (s_db s2 = registry_now s /\ s_log s2 = s_log s /\ binding id (registry_now s) = Ok b) as (Hd2 & Hl2 & Hb2).
  { unfold ready_binding in Hb. apply bind_Ok in Hb as (b' & s5 & Hr & Hb). apply bind_Ok in Hb as (k & s6 & Hk & Hb).
    injection Hb as -> -> <-. unfold mapping, worker_key in Hk. destruct (read_worker_key _ _ _); [|done]. injection Hk as _ <-.
    unfold mapping, read_registry, registry_now in *. destruct (meanwhile _ _) as [db h]. cbn [fst].
    destruct (binding id db) as [b'|]; [|done]. by injection Hr as -> <-. }
  assert (s_db s3 = s_db s2 /\ s_log s3 = s_log s2 ++ [Observed (wb_unit b) active]) as [Hd3 Hl3].
  { unfold mapping, ask_active in Ha. destruct (is_active _ _) as [[x|[]] h]; try done. by injection Ha as -> <-. }
  assert (s_db s4 = s_db s3 /\ s_log s4 = s_log s3) as [Hd4 Hl4].
  { unfold pid_if in Hp. destruct active; [|by injection Hp as _ <-]. unfold ignoring, attempt, ask_pid, bind in Hp.
    destruct (main_pid _ _) as [[x|[]] h]; try done; by injection Hp as _ <-. }
  rewrite Hd4, Hd3, Hd2, Hl4, Hl3, Hl2. auto.
Qed.
Lemma swap_targets_head id rest s ts s' :
  swap_targets wm (id :: rest) s = (Ok ts, s') ->
  exists t ts' s1, ts = t :: ts' /\ one_target id s = (Ok t, s1) /\ swap_targets wm rest s1 = (Ok ts', s')
    /\ forall l, snd (swap_targets wm (id :: l) s) = snd (swap_targets wm l s1).
Proof.
  rewrite swap_targets_cons. destruct (one_target id s) as [[t|e] s1] eqn:Ht; [|done].
  destruct (swap_targets wm rest s1) as [[ts'|e] s2] eqn:Hr; [|done]. intros [= <- <-]. exists t, ts', s1. split_and!; try done.
  intros l. rewrite swap_targets_cons, Ht. by destruct (swap_targets wm l s1) as [[]].
Qed.
Lemma swap_targets_looked ids s ts s' :
  swap_targets wm ids s = (Ok ts, s') ->
  s_log s' = s_log s ++ List.map (fun t => Observed (wb_unit (st_binding t)) (st_active t)) ts
  /\ forall k t, ts !! k = Some t -> exists id, ids !! k = Some id /\ binding id (stood ids s k) = Ok (st_binding t).
Proof.
  revert s ts. induction ids as [|id ids IH]; intros s ts Hts.
  { injection Hts as <- <-. by rewrite app_nil_r. }
  apply swap_targets_head in Hts as (t & ts' & s1 & -> & Ht1 & Hts & Hrest). apply one_target_looks in Ht1 as (Hdb & Hb & Hl).
  destruct (IH s1 ts' Hts) as [Hl' Hk]. split; [by rewrite Hl', Hl, <- app_assoc|].
  intros [|k] t' Ht; cbn in Ht.
  - injection Ht as <-. exists id. split; [done|]. unfold stood. change (firstn 1 (id :: ids)) with [id].
    rewrite Hrest. change (snd (swap_targets wm [] s1)) with s1. by rewrite Hdb.
  - destruct (Hk k t' Ht) as (id' & Hid & Hb'). exists id'. split; [done|]. unfold stood in *.
    change (firstn (S (S k)) (id :: ids)) with (id :: firstn (S k) ids). by rewrite Hrest.
Qed.

(** Only running workers are stopped, and nothing is started meanwhile. *)
Definition stops_of (ts : list SwapTarget) (log : list HostEvent) : Prop :=
  forall v u, In (Did v u) log -> exists t, In t ts /\ st_active t = true /\ wb_unit (st_binding t) = u.
Definition stops_all (ts : list SwapTarget) (log : list HostEvent) : Prop :=
  forall t, In t ts -> st_active t = true -> In (Did Stop (wb_unit (st_binding t))) log.
Lemma adds_stop_targets ts :
  adds (stop_targets ts) (fun r log => stops_of ts log /\ (is_ok r = true -> stops_all ts log)).
Proof.
  assert (forall l, stops_of l []) as Hnil by by intros l v u [].
  induction ts as [|t ts IH]; cbn [stop_targets]; [apply adds_ret; split; [done|by intros _ t []]|].
  assert (forall log, stops_of ts log -> stops_of (t :: ts) log) as Hmore.
  { intros log Hl v u Hin. destruct (Hl v u Hin) as (t' & Ht' & Ha & <-). exists t'. split; [by right|done]. }
  eapply adds_bind with (Q1 := fun _ log => stops_of (t :: ts) log
    /\ (st_active t = true -> In (Did Stop (wb_unit (st_binding t))) log)); [|by intros e new [? _]|].
  - destruct (st_active t) eqn:E; [|apply adds_ret; by split].
    eapply adds_mapping; [apply adds_ask|]. intros r new ->. split; [|intros _; by left].
    intros v u [[= <- <-]|[]]. exists t. split; [by left|done].
  - intros _ new [Hn Ht]. eapply adds_mono; [exact IH|]. intros r new' [Hn' Hall]. split.
    + intros v u [Hin|Hin]%in_app_iff; [by eapply Hn|]. by apply (Hmore new' Hn' v u).
    + intros Hok t' [<-|Hin] Ha; apply in_app_iff; [left; auto|right; by apply Hall].
Qed.

(** A start followed by a wait that ends well. *)
Lemma started_up u e log : waited e true log -> brought_up u e (Did Start u :: log).
Proof. intros [k ->]. exists [], k, []. split; [done|]. by intros w []. Qed.
Lemma stops_nothing_start u log : stops_nothing log -> stops_nothing (Did Start u :: log).
Proof. intros Hl w [|Hin]; [done|by eapply Hl]. Qed.

Lemma all_up_cons t ts log log' :
  (st_active t = true -> brought_up (wb_unit (st_binding t)) (wb_endpoint (st_binding t)) log) ->
  stops_nothing log' -> all_up ts log' -> all_up (t :: ts) (log ++ log').
Proof.
  intros Ht Hs Hts t' [<-|Hin] Ha; [apply brought_up_after; auto|]. by apply brought_up_before, Hts.
Qed.

Definition came_up (ts : list SwapTarget) (ok : bool) (log : list HostEvent) : Prop :=
  stops_nothing log /\ (ok = true -> all_up ts log).

Lemma adds_start_and_prove ts :
  adds (start_and_prove wm rounds ts) (fun r => came_up ts (is_ok r)).
Proof.
  induction ts as [|t ts IH]; cbn [start_and_prove]; [apply adds_ret; split; [by intros w []|by intros _ t []]|].
  destruct (st_active t) eqn:Ea; cbn [negb].
  2: { eapply adds_mono; [exact IH|]. intros r new [Hs Hu]. split; [done|]. intros Hr t' [<-|Hin] Ha; [congruence|].
       by apply Hu. }
  set (b := st_binding t). eapply adds_bind with (Q1 := fun _ new => new = [Did Start (wb_unit b)]).
  { eapply adds_mapping; [apply adds_ask|]. by intros r new ->. }
  { intros e new ->. split; [|done]. apply stops_nothing_start. by intros w []. }
  intros _ ? ->. eapply adds_bind; [apply adds_wait_healthy|..].
  { intros e new Hw. split; [|done]. apply stops_nothing_start. exact (waited_stops_nothing _ _ _ Hw). }
  intros up waits Hw. pose proof (waited_stops_nothing _ _ _ Hw) as Hs.
  destruct up; cbn [negb]; [|apply adds_fail; split; [|done]; rewrite app_nil_r; by apply stops_nothing_start].
  eapply adds_bind; [apply adds_new_process|..].
  { intros e new ->. split; [|done]. rewrite app_nil_r. by apply stops_nothing_start. }
  intros _ ? ->. eapply adds_mono; [exact IH|]. intros r new [Hn Hu]. cbn [app].
  change (Did Start (wb_unit b) :: waits ++ new) with ((Did Start (wb_unit b) :: waits) ++ new). split.
  - apply stops_nothing_app; [by apply stops_nothing_start|done].
  - intros Hr. apply all_up_cons; [|done|auto]. intros _. by apply started_up.
Qed.

(** Neither stopping nor starting asks whether a worker is active. *)
Definition no_look (log : list HostEvent) : Prop := forall u b, ~ In (Observed u b) log.
Lemma adds_no_look {E A B} (m : Prog E A) (k : A -> Prog E B) :
  adds m (fun _ => no_look) -> (forall a, adds (k a) (fun _ => no_look)) -> adds (bind m k) (fun _ => no_look).
Proof.
  intros Hm Hk. eapply adds_bind; [exact Hm|done|]. intros a new Hn. eapply adds_mono; [apply Hk|].
  intros r new' Hn' u b [Hin|Hin]%in_app_iff; [by eapply Hn|by eapply Hn'].
Qed.
Lemma no_look_nil : no_look [].
Proof. by intros u b []. Qed.
Lemma no_look_did v u : no_look [Did v u].
Proof. by intros u' b [|[]]. Qed.
Lemma stop_targets_no_look ts : adds (stop_targets ts) (fun _ => no_look).
Proof.
  induction ts as [|t ts IH]; cbn [stop_targets]; [apply adds_ret, no_look_nil|]. apply adds_no_look; [|by intros ?].
  destruct (st_active t); [|apply adds_ret, no_look_nil]. eapply adds_mapping; [apply adds_ask|]. intros r new ->. apply no_look_did.
Qed.
Lemma start_and_prove_no_look ts : adds (start_and_prove wm rounds ts) (fun _ => no_look).
Proof.
  induction ts as [|t ts IH]; cbn [start_and_prove]; [apply adds_ret, no_look_nil|]. destruct (negb _); [exact IH|].
  apply adds_no_look. { eapply adds_mapping; [apply adds_ask|]. intros r new ->. apply no_look_did. }
  intros _. apply adds_no_look.
  { eapply adds_mono; [apply adds_wait_healthy|]. intros r new [k ->] u b [Hin|Hin]%in_app_iff.
    - apply list_elem_of_In, elem_of_replicate in Hin as [? _]. done.
    - by destruct (match r with Ok up => up | Err _ => false end); [destruct Hin as [|[]]|]. }
  intros up. destruct (negb up); [apply adds_fail, no_look_nil|]. apply adds_no_look; [|by intros _].
  eapply adds_mono; [apply adds_new_process|]. intros r new ->. apply no_look_nil.
Qed.
Lemma adds_both {E A} (m : Prog E A) Q Q' : adds m Q -> adds m Q' -> adds m (fun r log => Q r log /\ Q' r log).
Proof.
  intros Hm Hm' s. destruct (Hm s) as [Hd (new & Hl & Hq)]. destruct (Hm' s) as [_ (new' & Hl' & Hq')].
  rewrite Hl in Hl'. apply app_inv_head in Hl' as <-. split; [done|]. by exists new.
Qed.

Lemma adds_restart_all ts : adds (restart_all wm rounds ts) (fun _ _ => True).
Proof.
  induction ts as [|t ts IH]; cbn [restart_all]; [by apply adds_ret|]. destruct (negb _); [exact IH|].
  eapply adds_bind with (Q1 := fun _ _ => True); [|done|].
  { unfold succeeds. eapply adds_bind with (Q1 := fun _ _ => True); [|done|intros; by apply adds_ret].
    by eapply adds_attempt; [apply adds_ask|]. }
  intros started ? _. eapply adds_bind with (Q1 := fun _ _ => True); [|done|].
  { destruct started; [|by apply adds_ret]. by eapply adds_mono; [apply adds_wait_healthy|]. }
  intros up ? _. eapply adds_bind with (Q1 := fun _ _ => True); [|done|intros; by apply adds_ret].
  by eapply adds_mono; [exact IH|].
Qed.
Lemma adds_stop_quietly ts : adds (stop_quietly ts) (fun _ _ => True).
Proof.
  induction ts as [|t ts IH]; cbn [stop_quietly]; [by apply adds_ret|].
  eapply adds_bind with (Q1 := fun _ _ => True); [|done|intros _ ? _; by eapply adds_mono; [exact IH|]].
  unfold ignoring. eapply adds_bind with (Q1 := fun _ _ => True); [|done|intros; by apply adds_ret].
  by eapply adds_attempt; [apply adds_ask|].
Qed.

(** A program that adds to the log only, where a property of the disk stands. *)
Lemma adds_disk {E A} N (m : Prog E A) Q : adds m Q -> ensures (disk_is N) m (fun _ => disk_is N).
Proof. intros Hm s Hs. destruct (Hm s) as [Hd _]. unfold disk_is in *. by rewrite Hd. Qed.
Lemma infallible_disk {E A} N (m : Prog Empty_set A) Q :
  adds m Q ->
  ensures (disk_is N) (@infallible _ E A m) (fun r s => disk_is N s /\ match r with Err (Failed _) => False | _ => True end).
Proof. intros Hm. eapply ensures_mapping; [by eapply adds_disk|]. by intros [a|[| |[]]] s Hs. Qed.

Section Material.
Context (home staged : string) (uid : Z) (old new : Node) (ids : list string).

Definition holds_old (n : gmap string Node) : Prop :=
  plain_home home n /\ recoverable (CredentialSwap.view home n) = Some old.
Definition moved_in (n : gmap string Node) : Prop :=
  plain_home home n /\ CredentialSwap.view home n = Proposed old (installed new).
Definition put_back (n : gmap string Node) : Prop := plain_home home n /\ CredentialSwap.view home n = CredentialSwap.Held old.

Lemma moved_in_holds n : moved_in n -> holds_old n.
Proof. intros [Hp Hv]. split; [done|]. by rewrite Hv. Qed.
Lemma put_back_holds n : put_back n -> holds_old n.
Proof. intros [Hp Hv]. split; [done|]. by rewrite Hv. Qed.
Lemma put_back_files n : put_back n -> files home (Some old) None n.
Proof.
  intros [[Pl Pr] Hv]. unfold CredentialSwap.view, slot_of in Hv. unfold files.
  destruct (n !! live_file home), (n !! rollback_file home); try done. by injection Hv as ->.
Qed.
Lemma moved_in_files n : moved_in n -> files home (Some (installed new)) (Some old) n.
Proof.
  intros [[Pl Pr] Hv]. unfold CredentialSwap.view, slot_of in Hv. unfold files.
  destruct (n !! live_file home), (n !! rollback_file home); try done. by injection Hv as -> ->.
Qed.

Lemma swap_in_leaves :
  staged <> live_file home -> staged <> rollback_file home ->
  leaves (fun n => put_back n /\ n !! staged = Some new) (swap_in home staged uid)
    (fun r n => holds_old n /\ (r = Ok tt -> moved_in n)).
Proof.
  intros Hl Hr d [Hb Hs]. pose proof (swap_in_slot home uid (Some old) None staged new Hl Hr d) as Hsw.
  specialize (Hsw (conj (put_back_files _ Hb) Hs)). destruct (swap_in home staged uid d) as [r d']. cbn [fst snd] in *.
  destruct Hsw as [Hp Hst]. cbn [slot_of] in Hst. unfold holds_old, moved_in.
  inversion Hst as [? E1 E2 E3|? E1 E2 E3|? ? E1 E2 E3|]; subst; cbn; (split; [done|]); intros ->; done.
Qed.
Lemma roll_back_leaves :
  leaves moved_in (roll_back home) (fun r n => holds_old n /\ (r = Ok tt -> put_back n)).
Proof.
  intros d Hm. pose proof (roll_back_slot home _ _ d (moved_in_files _ Hm)) as Hrb.
  destruct (roll_back home d) as [r d']. cbn [fst snd] in *. destruct Hrb as [Hp Hst]. cbn [slot_of] in Hst.
  unfold holds_old, put_back.
  inversion Hst as [? E1 E2 E3|? ? E1 E2 E3|? ? ? E1 E2 E3|]; subst; cbn; (split; [done|]); intros ->; done.
Qed.

(** How the replacement of a credential's material ends. *)
Definition reauthorized (s : Site) (r : Result (Outcome ReassignFailure) unit) (s' : Site) : Prop :=
  let slot := CredentialSwap.view home (nodes (s_disk s')) in
  recoverable slot = Some old
  /\ match r with
     | Ok _ =>
         slot = Proposed old (installed new)
         /\ exists log, s_log s' = s_log s ++ log
            /\ (forall u, In (Observed u true) log -> In (Did Stop u) log)
            /\ forall u, In (Did Stop u) log ->
                 exists k id b, ids !! k = Some id /\ binding id (stood ids s k) = Ok b /\ wb_unit b = u
                   /\ brought_up u (wb_endpoint b) log
     | Err (Failed f) =>
         rf_restored f = true -> rf_code f <> "credential_swap_failed"%string -> slot = CredentialSwap.Held old
     | Err _ => True
     end.

Lemma prove_or_put_back ts :
  ensures (disk_is moved_in) (prove_or_roll_back wm rounds ts home)
    (fun r s => match r with
                | Ok _ => disk_is moved_in s
                | Err (Failed f) => disk_is holds_old s /\ (rf_restored f = true -> disk_is put_back s)
                | Err _ => disk_is holds_old s
                end).
Proof.
  unfold prove_or_roll_back.
  assert (forall s, disk_is moved_in s -> disk_is holds_old s) as Hmh by (intros s; apply moved_in_holds).
  assert (forall s, disk_is put_back s -> disk_is holds_old s) as Hbh by (intros s; apply put_back_holds).
  eapply ensures_bind with (R := fun _ => disk_is moved_in).
  { eapply ensures_attempt; [eapply adds_disk, adds_start_and_prove|]. intros [a|[]] s Hs; auto. }
  intros [[]|[code detail]]; [by apply ensures_ret|].
  eapply ensures_bind with (R := fun _ => disk_is moved_in).
  { eapply ensures_mono; [eapply (infallible_disk moved_in), adds_stop_quietly|done|].
    intros [a|[| |f]] s [Hs Hf]; [auto|auto..|done]. }
  intros _. eapply ensures_bind with (R := fun ok s => disk_is holds_old s /\ (ok = true -> disk_is put_back s)).
  { eapply ensures_succeeds; [apply ensures_on_disk, roll_back_leaves|].
    intros r s (r' & [Hh Hb] & ->). destruct r' as [[]|[]]; try exact Hh; (split; [exact Hh|]); try done. intros _. by apply Hb. }
  intros rolled_back. eapply ensures_bind with (R := fun ok s => disk_is holds_old s /\ (ok = true -> disk_is put_back s)).
  { destruct rolled_back; [|apply ensures_ret; by intros s [Hs _]].
    eapply ensures_mono; [eapply (infallible_disk put_back), adds_restart_all|by intros s [_ Hs]; auto|].
    intros [a|[| |f]] s [Hs Hf]; [auto|auto..|done]. }
  intros restored. apply ensures_fail. intros s [Hh Hb]. auto.
Qed.

Lemma prove_log ts s r s' :
  prove_or_roll_back wm rounds ts home s = (Ok r, s') ->
  exists log, s_log s' = s_log s ++ log /\ came_up ts true log /\ no_look log.
Proof.
  destruct (adds_both _ _ _ (adds_start_and_prove ts) (start_and_prove_no_look ts) s) as [_ (log & Hl & Hup & Hno)]. unfold prove_or_roll_back, bind at 1, attempt.
  destruct (start_and_prove wm rounds ts s) as [[[]|[| |[code detail]]] s1]; try done.
  - cbn. intros [= _ <-]. by exists log.
  - unfold bind at 1. destruct (infallible (stop_quietly ts) s1) as [[[]|e] s2]; [|done].
    unfold bind at 1. destruct (succeeds _ s2) as [[ok|e] s3]; [|done].
    unfold bind at 1. destruct ok; [destruct (infallible _ s3) as [[]]; done|done].
Qed.

End Material.
End Reauthorize.

(** ** Projects in the trash stay down, and what a boot wakes. *)

(** ** Suspending *)

Section Suspend.
Context `{SerdeJson} `{Process} `{Supervisor} (id : string).

(** The project is recorded as asleep. *)
Definition asleep (s : Site) : Prop := exists h t, held id (s_db s) = Some h /\ h_suspended_at h = Some t.

(** A program that does not reach the registry. *)
Definition offline {E A} (m : Prog E A) : Prop := forall s, s_db (snd (m s)) = s_db s.
Lemma offline_mapping {E F A} (f : E -> F) (m : Prog E A) : offline m -> offline (mapping f m).
Proof. intros Hm s. specialize (Hm s). unfold mapping. by destruct (m s) as [[a|[]] s']. Qed.
Lemma offline_active u : offline (ask_active u).
Proof. intros s. unfold ask_active. by destruct (is_active _ _) as [[]]. Qed.
Lemma offline_ask v u : offline (ask v u).
Proof. intros s. unfold ask. by destruct (control _ _ _). Qed.
Lemma asleep_keeps {E A} (m : Prog E A) : offline m -> ensures asleep m (fun _ => asleep).
Proof. intros Hm s (h & t & Hh & Ht). exists h, t. by rewrite Hm. Qed.

(** The project as it is read. *)
Lemma project_or_refusal_read s :
  ensures (fun s1 => s1 = s) (project_or_refusal id)
    (fun r s1 => s_log s1 = s_log s /\ forall p, r = Ok p ->
       project id (registry_now s) = Ok (Some p) /\ (rp_suspended_at p <> None -> asleep s1)).
Proof.
  intros s1 ->. unfold project_or_refusal, registry_now, bind, mapping, on_registry, query.
  destruct (meanwhile _ _) as [db hs]. cbn [fst]. destruct (project id db) as [[p|]|e] eqn:E; (split; [done|]); try done.
  intros p' [= <-]. split; [done|]. intros Hne. apply project_held in E. cbn.
  destruct (rp_suspended_at p) as [t|]; [|done]. eexists _, t. split; [exact E|done].
Qed.

Lemma set_asleep now log :
  ensures (fun s => s_log s = log)
    (mapping (refusal "project_state_unreadable") (on_registry (set_project_suspended id (Some now))))
    (fun r s => s_log s = log /\ (r = Ok tt -> asleep s)).
Proof.
  intros s Hs. unfold mapping, on_registry. destruct (meanwhile _ _) as [db hs].
  pose proof (set_suspended_held id (Some now) db) as Hh.
  destruct (set_project_suspended _ _ _) as [[[]|e] db']; (split; [done|]); [|done].
  intros _. destruct Hh as (h & _ & Hh). eexists _, now. by split.
Qed.

(** A stop in the log, after the first [log] events. *)
Definition stopped_since (log : list HostEvent) (s : Site) : Prop :=
  exists new u, s_log s = log ++ new /\ In (Did Stop u) new.

(** Putting a project to sleep is recorded before its worker is stopped: from
    the first stop on, wherever the node stops or fails, the registry says the
    project sleeps.  A worker is reported as stopped only when the project is
    recorded as asleep and, if it has a ready worker, the unit was observed
    inactive last. *)
Theorem sleep_is_recorded_first now s :
  let (r, s') := suspend_worker id now s in
  (stopped_since (s_log s) s' -> asleep s')
  /\ (r = Ok Stopped -> asleep s'
      /\ forall p profile u, project id (registry_now s) = Ok (Some p) -> rp_profile_state p = ProfileReady ->
           rp_hermes_profile p = Some profile -> unit_name profile = Ok u ->
           exists log, s_log s' = log ++ [Observed u false]).
Proof.
  set (log := s_log s).
  set (seen := fun r s1 => r = @Ok (Outcome ReassignFailure) _ Stopped -> asleep s1
    /\ forall p profile u, project id (registry_now s) = Ok (Some p) -> rp_profile_state p = ProfileReady ->
         rp_hermes_profile p = Some profile -> unit_name profile = Ok u -> exists log, s_log s1 = log ++ [Observed u false]).
  enough (ensures (fun s1 => s1 = s) (suspend_worker id now) (fun r s1 => (s_log s1 = log \/ asleep s1) /\ seen r s1)) as He.
  { specialize (He s eq_refl). destruct (suspend_worker id now s) as [r s']. cbn [fst snd] in He; destruct He as [[El|Ha] Hr]; (split; [|done]).
    - intros (new & u & E & Hin). rewrite El in E. rewrite <- (app_nil_r log) in E at 1.
      apply app_inv_head in E as <-. done.
    - done. }
  unfold suspend_worker.
  eapply ensures_bind_known with (R := fun s1 => s_log s1 = log /\ forall p, project id (registry_now s) = Ok (Some p) ->
      rp_suspended_at p <> None -> asleep s1)
    (T := fun p => project id (registry_now s) = Ok (Some p)).
  { eapply ensures_mono; [apply (project_or_refusal_read s)|done|]. intros [p|e] s1 [El Hp]; [|split; [by left|done]].
    destruct (Hp p eq_refl) as [E Ha]. split; [|done]. split; [done|]. intros p' E'. rewrite E in E'. by injection E' as <-. }
  intros p Hp. destruct (rp_runtime_ownership p); [|apply ensures_ret; intros s1 [El _]; split; [by left|done]].
  eapply ensures_bind with (R := fun _ => asleep).
  { destruct (rp_suspended_at p) eqn:Es.
    - apply ensures_ret. intros s1 [_ Ha]. apply (Ha p Hp). by rewrite Es.
    - eapply ensures_mono; [apply (set_asleep now log)|by intros s1 [El _]|].
      intros [[]|e] s1 [El Ha]; [by apply Ha|split; [by left|done]]. }
  intros _. assert (forall e s1, asleep s1 -> (s_log s1 = log \/ asleep s1) /\ seen (Err e) s1) as Herr by (by split; [right|]).
  assert (rp_profile_state p <> ProfileReady \/ rp_hermes_profile p = None ->
    ensures asleep (@ret (Outcome ReassignFailure) Site _ Stopped) (fun r s1 => (s_log s1 = log \/ asleep s1) /\ seen r s1)) as Hnone.
  { intros Hor. apply ensures_ret. intros s1 Ha. split; [by right|]. intros _. split; [done|].
    intros p' profile u E. rewrite Hp in E. injection E as <-. destruct Hor; congruence. }
  destruct (rp_profile_state p) eqn:Est; [apply Hnone; by left|apply Hnone; by left| |apply Hnone; by left..].
  destruct (rp_hermes_profile p) as [profile|] eqn:Epr; [|apply Hnone; by right].
  destruct (unit_name profile) as [u|e] eqn:Eu; [|apply ensures_fail; intros s1 Ha; by apply Herr]. rewrite checked_Ok.
  eapply ensures_bind with (R := fun _ => asleep).
  { eapply ensures_mono; [apply asleep_keeps, offline_mapping, offline_active|done|]. intros [a|e] s1 Ha; auto. }
  intros active. eapply ensures_bind with (R := fun _ => asleep).
  { destruct active; [|by apply ensures_ret].
    eapply ensures_mono; [apply asleep_keeps, offline_mapping, offline_ask|done|]. intros [a|e] s1 Ha; auto. }
  intros _. eapply ensures_bind with (R := fun still s1 => asleep s1 /\ exists l, s_log s1 = l ++ [Observed u still]).
  { intros s1 Ha. pose proof (asleep_keeps _ (offline_active u) s1 Ha) as Ha'. unfold mapping, ask_active in *.
    destruct (is_active _ _) as [[still|[t|]] hs]; [|by apply Herr..]. split; [done|]. by eexists. }
  intros [|]; [apply ensures_fail; intros s1 [Ha _]; by apply Herr|].
  apply ensures_ret. intros s1 [Ha Hl]. split; [by right|]. intros _. split; [done|].
  intros p' profile' u' E. rewrite Hp in E. injection E as <-. rewrite Epr. intros _ [= <-] Hu. assert (u' = u) as -> by congruence. exact Hl.
Qed.
End Suspend.

(** ** After a boot *)

Lemma collect_projects_In `{SerdeJson} rows ps p :
  collect_projects rows = Ok ps -> In p ps -> exists row, In row rows /\ map_project row = Ok p.
Proof.
  revert ps. induction rows as [|row rows IH]; intros ps; cbn [collect_projects]; [by intros [= <-]|].
  destruct (map_project row) as [r|e] eqn:E; [|done]. destruct (collect_projects rows) as [rs|e]; [|done].
  intros [= <-] [<-|Hin]; [exists row; split; [by left|done]|].
  destruct (IH rs eq_refl Hin) as (row' & ? & ?). exists row'. split; [by right|done].
Qed.

(** The rows a boot starts workers for. *)
Definition restorable (p : ProjectRow) : Prop :=
  p_enabled p <> 0 /\ ProfileState.parse (p_profile_state p) = Ok ProfileReady
  /\ RuntimeOwnership.parse (p_runtime_ownership p) = Ok ManagedContainer /\ p_suspended_at p = None.

Lemma to_restore_row `{SerdeJson} row p :
  map_project row = Ok p -> to_restore p = true -> restorable row /\ rp_project_id p = p_project_id row.
Proof.
  unfold map_project, to_restore, restorable. destruct (ProfileState.parse _) as [st|]; [|done].
  destruct (RuntimeOwnership.parse _) as [o|]; [|done]. intros [= <-]. cbn.
  rewrite !andb_true_iff. intros [[[He Hst] Ho] Hsus]. destruct st, o; try done.
  destruct (p_suspended_at row); [done|]. apply negb_true_iff, Z.eqb_neq in He. done.
Qed.

Section Boot.
Context `{SerdeJson} `{Process} `{Supervisor} (wm : WorkerManager) (rounds : nat) (Hall : forall id, settled id).

Lemma restore_workers_confined (ids : string -> Prop) db log ps :
  (forall p, In p ps -> to_restore p = true -> ids (rp_project_id p)) ->
  confines ids db log (restore_workers wm rounds ps).
Proof.
  induction ps as [|p ps IH]; intros Hps; cbn [restore_workers]; [by apply confines_ret|].
  assert (confines ids db log (restore_workers wm rounds ps)) as Hrest by (apply IH; intros q Hq; apply Hps; by right).
  destruct (to_restore p) eqn:E; [|done].
  apply confines_bind; [apply confines_attempt, confines_ensure_running; [auto|]; by apply Hps; [left|]|].
  intros r. apply confines_bind; [done|]. intros fs. apply confines_ret.
Qed.

(** After a boot only workers that should run are started: a unit is touched
    only if it is the unit of a project that is enabled, ready, managed here and
    not asleep, and so never the unit of a project in the trash. *)
Theorem boot_wakes_only_what_should_run s :
  inventory_ok (registry_now s) ->
  exists new, s_log (snd (reconcile_workers wm rounds s)) = s_log s ++ new
    /\ forall v u, In (Did v u) new ->
         exists p profile, In p (projects (registry_now s)) /\ restorable p
           /\ p_hermes_profile p = Some profile /\ unit_name profile = Ok u
           /\ forall q other, In q (projects (registry_now s)) -> ~ restorable q ->
                p_hermes_profile q = Some other -> unit_name other <> Ok u.
Proof.
  intros Hok. unfold reconcile_workers, ignoring, bind, attempt, on_registry, query, registry_now in *.
  destruct (meanwhile (s_host s) (s_db s)) as [db hs]. cbn [fst] in Hok.
  destruct (list_projects db) as [ps|e] eqn:El; cbn [fst snd ret default];
    [|exists []; by rewrite app_nil_r].
  set (s1 := at_host hs (at_db db s)).
  set (ids := fun i => exists row, In row (projects db) /\ restorable row /\ p_project_id row = i).
  assert (confined ids db (s_log s) (snd (restore_workers wm rounds ps s1))) as [_ (new & Hl & Hn)].
  { apply restore_workers_confined; [|split; [done|]; exists []; by rewrite app_nil_r].
    intros p Hp Hr. unfold list_projects in El. destruct (collect_projects_In _ _ _ El Hp) as (row & Hin & Hm).
    apply In_order_by in Hin. destruct (to_restore_row _ _ Hm Hr). by exists row. }
  exists new. split; [done|]. intros v u Hin. destruct (Hn _ u Hin eq_refl) as (i & profile & (row & Hrow & Hre & <-) & Hp & Hu).
  unfold prof, held in Hp. destruct (select_one _ _) as [p|] eqn:E; [|done]. injection Hp as Hp.
  apply select_project in E as [Hinp Hid]; [|done].
  assert (p = row) as -> by (by eapply project_unique). exists row, profile. repeat (split; [done|]).
  intros q other Hq Hnr Ho Hu'. apply Hnr. assert (profile = other) as <- by (by eapply unit_name_inj).
  apply list_elem_of_In, list_elem_of_lookup in Hq as [a Ha], Hrow as [c Hc].
  assert (a = c) as -> by (by eapply (io_profiles _ Hok)). congruence.
Qed.
End Boot.
