(* ===== verification/WorkerSamples.v ===== *)
(** * WorkerSamples: a project provisioned on an empty host, at which the
    theorems about homes and workers are applied; and what some failures leave. *)
From Stdlib Require Import Lia.
From stdpp Require Import gmap.
From S2P Require Import Prelude Text Json Schema Identifiers Inventory InventoryFacts Fs CredentialSwap CredentialHomes Policy Host Profiles ProfileTheorems Workers WorkerFacts WorkerTheorems WorkerReauth.
Import Json.Codec.

#[export] Instance account : Process := {| euid := 7; umask := 0x12 |}.

(** A service manager that does as it is told, except for the verbs and units
    it is set to refuse; every start is a new process. *)
Record Machine : Type := {
  m_up : gset string;
  m_starts : Z;
  m_time : Z;
  m_refused : list (Verb * string);
  m_answers : bool
}.
Definition told_to (v : Verb) (u : string) (m : Machine) : Machine :=
  {| m_up := match v with Stop => m_up m ∖ {[u]} | _ => {[u]} ∪ m_up m end;
     m_starts := match v with Stop => m_starts m | _ => m_starts m + 1 end;
     m_time := m_time m; m_refused := m_refused m; m_answers := m_answers m |}.
#[export] Instance machine : Supervisor := {|
  host := Machine;
  control v u m := if bool_decide ((v, u) ∈ m_refused m) then (Err (Some "refused"%string), m) else (Ok tt, told_to v u m);
  is_active u m := (Ok (bool_decide (u ∈ m_up m)), m);
  main_pid u m := (Ok (Some (m_starts m)), m);
  healthy _ _ m := (m_answers m, m);
  instant := m_time;
  sleep d m := {| m_up := m_up m; m_starts := m_starts m; m_time := m_time m + d; m_refused := m_refused m;
                  m_answers := m_answers m |};
  nonce m := ("ab"%string, m);
  meanwhile m db := (db, m)
|}.

Definition settings : ProvisionSettings := {|
  ps_home_root := "/w"; ps_shared_auth := "/a/auth.json"; ps_codex_auth := "/a/codex.json";
  ps_credential_root := "/c"; ps_first_port := 9000; ps_last_port := 9010; ps_reserved_ports := [];
  ps_production_home := "/p"; ps_runtime_uid := 7
|}.
Definition real : FileSystem := {| canonicalize s := Some s; Inventory.is_dir _ := true |}.
Definition folder : Node := {| f_kind := Directory; f_owner := 7; f_mode := 0x1C0; f_body := [] |}.
Definition file (body : string) : Node :=
  {| f_kind := RegularFile; f_owner := 7; f_mode := 0x180; f_body := chars body |}.

Definition registered : Db :=
  snd (register_project real 50 "demo" "/srv/demo" None None None ManagedContainer empty_db).
Definition quiet : Machine := {| m_up := ∅; m_starts := 0; m_time := 0; m_refused := []; m_answers := true |}.
Definition bare : Site :=
  {| s_db := registered;
     s_disk := {| nodes := <["/a" := folder]> (<["/a/auth.json" := file "pool"]> (<["/c" := folder]>
                  (<["/c/cred-1" := folder]> (<["/c/cred-1/auth.json" := file "one"]>
                  (<["/s" := folder]> (<["/s/auth.json" := file "new"]> ∅)))))); plan := [] |};
     s_host := quiet; s_log := [] |}.
Definition provisioning := provision_project_profile settings real (fun _ db => db) (fun _ => false) 40 (seqZ 0 32) "demo" bare.
Definition manager : WorkerManager :=
  {| wm_timings := default_timings; wm_runtime_uid := 7; wm_credentials := Some (credentials settings) |}.
(** Sixty seconds at two checks a second, and one more. *)
Definition enough : nat := 121.
Definition running : Site := snd (ensure_running manager enough "demo" (snd provisioning)).
Definition demo_unit : string := "asterism-hermes@asterism-project-demo.service".


Lemma machine_settled id : settled id.
Proof. done. Qed.
Lemma machine_fair : fair_clock.
Proof. split; cbn; lia. Qed.
Lemma machine_inventory : keeps_inventory.
Proof. by intros hs db Hok. Qed.
Lemma running_ok : inventory_ok (s_db running).
Proof.
  apply (inventory_ok_ext (snd (set_profile_state "demo" ProfileReady None
    (snd (set_profile_runtime "demo" "/w/asterism-project-demo" "asterism-project-demo" "http://127.0.0.1:9000"
       "/w/asterism-project-demo/runtime.env" Provisioning registered))))); [vm_compute; reflexivity|].
  apply set_profile_state_ok, set_profile_runtime_ok, register_project_ok, inventory_ok_empty.
Qed.

(** ** The theorems at the sample *)

Definition demo_binding : WorkerBinding :=
  {| wb_project_id := "demo"; wb_profile := "asterism-project-demo"; wb_unit := demo_unit;
     wb_endpoint := "http://127.0.0.1:9000"; wb_api_key_ref := "/w/asterism-project-demo/runtime.env";
     wb_credential_id := None |}.

Lemma bare_fresh : fresh_staging settings 40 "demo" (nodes (s_disk bare)).
Proof.
  intros k Hk. destruct (nodes (s_disk bare) !! k) as [x|] eqn:E; [|done]. exfalso.
  assert (k ∈ (dom (nodes (s_disk bare)) : gset string)) as Hin by (apply elem_of_dom; eauto).
  assert (forallb (fun k => negb (below (staging_of settings 40 "demo") k)) (elements (dom (nodes (s_disk bare)) : gset string)) = true)
    as Hall by (vm_compute; reflexivity).
  rewrite forallb_forall in Hall. specialize (Hall k). rewrite <- list_elem_of_In, elem_of_elements, Hk in Hall. by apply Hall in Hin.
Qed.

Lemma provisioning_is_all_or_nothing_witness :
  provisioned settings 40 (seqZ 0 32) "demo" (nodes (s_disk bare)) (fst provisioning) (nodes (s_disk (snd provisioning))).
Proof.
  pose proof (provisioning_is_all_or_nothing settings real (fun _ db => db) (fun _ => false) 40 (seqZ 0 32) "demo" bare bare_fresh) as Hp.
  fold provisioning in Hp. by destruct provisioning.
Defined.

Lemma provisioned_key_reads_back_witness :
  read_worker_key "/w/asterism-project-demo/runtime.env" euid (nodes (s_disk (snd provisioning)))
  = Ok (generate_api_key (seqZ 0 32)).
Proof.
  apply (provisioned_key_reads_back settings real (fun _ db => db) (fun _ => false) 40 (seqZ 0 32) "demo" bare
    {| pp_profile := "asterism-project-demo"; pp_home := "/w/asterism-project-demo"; pp_endpoint := "http://127.0.0.1:9000";
       pp_api_key_ref := "/w/asterism-project-demo/runtime.env"; pp_created := true |} (snd provisioning)).
  - apply bare_fresh.
  - by split.
  - by apply plain_one_line.
  - vm_compute. reflexivity.
  - done.
Defined.

Lemma worker_operations_touch_their_own_unit_witness :
  exists new, s_log (operate manager enough "demo" (SuspendWorker 99) running) = s_log running ++ new
    /\ In (Did Stop demo_unit) new.
Proof.
  destruct (worker_operations_touch_their_own_unit manager enough "demo" (machine_settled "demo")
    (SuspendWorker 99) running running_ok) as (new & Hl & _).
  exists new. split; [exact Hl|]. vm_compute in Hl. injection Hl as <-. right. left. reflexivity.
Defined.

Lemma reassignment_takes_or_is_put_back_witness :
  reassigned "demo" (credentials settings) demo_binding (Some "cred-1"%string) running
    (Ok ReassignApplied) (snd (reassign_credential manager enough "demo" (Some "cred-1"%string) running)).
Proof.
  pose proof (reassignment_takes_or_is_put_back manager enough "demo" (credentials settings) (Some "cred-1"%string) running
    demo_binding eq_refl) as Hr.
  assert (fst (reassign_credential manager enough "demo" (Some "cred-1"%string) running) = Ok ReassignApplied) as E
    by (vm_compute; reflexivity).
  destruct (reassign_credential _ _ _ _ _) as [r s']. cbn [fst snd] in *. subst r. apply Hr. vm_compute. reflexivity.
Defined.

Lemma model_choice_takes_or_is_put_back_witness :
  selected "demo" (credentials settings) demo_binding "gpt-5" running
    (Ok ModelApplied) (snd (select_model manager enough "demo" "gpt-5" running)).
Proof.
  pose proof (model_choice_takes_or_is_put_back manager enough "demo" (credentials settings) "gpt-5" running
    demo_binding (machine_settled "demo") machine_inventory running_ok eq_refl) as Hr.
  assert (fst (select_model manager enough "demo" "gpt-5" running) = Ok ModelApplied) as E by (vm_compute; reflexivity).
  destruct (select_model _ _ _ _ _) as [r s']. cbn [fst snd] in *. subst r. apply Hr. vm_compute. reflexivity.
Defined.

Lemma worker_operations_end_witness : ~ ran_out manager enough "demo" (SelectModel "gpt-5") running.
Proof. apply (worker_operations_end manager enough machine_fair); vm_compute; congruence. Defined.

Lemma sleep_is_recorded_first_witness :
  asleep "demo" (snd (suspend_worker "demo" 99 running))
  /\ exists log, s_log (snd (suspend_worker "demo" 99 running)) = log ++ [Observed demo_unit false].
Proof.
  pose proof (sleep_is_recorded_first "demo" 99 running) as Hs.
  assert (fst (suspend_worker "demo" 99 running) = Ok Stopped) as E by (vm_compute; reflexivity).
  destruct (suspend_worker "demo" 99 running) as [r s']. cbn [fst snd] in *. subst r.
  destruct Hs as [_ Hs]. destruct (Hs eq_refl) as [Ha Hl]. split; [exact Ha|].
  destruct (project "demo" (registry_now running)) as [[p|]|] eqn:Ep; [|vm_compute in Ep; congruence..].
  apply (Hl p "asterism-project-demo"%string); [reflexivity|vm_compute in Ep; injection Ep as <-; reflexivity..|reflexivity].
Defined.

Lemma boot_wakes_only_what_should_run_witness :
  let booted := {| s_db := s_db running; s_disk := s_disk running; s_host := quiet; s_log := [] |} in
  exists new, s_log (snd (reconcile_workers manager enough booted)) = new
    /\ In (Did Start demo_unit) new.
Proof.
  intros booted.
  destruct (boot_wakes_only_what_should_run manager enough machine_settled booted) as (new & Hl & _); [apply running_ok|].
  exists new. split; [exact Hl|]. vm_compute in Hl. subst new. right. left. reflexivity.
Defined.


(** ** What some failures leave *)

Definition with_plan (p : list Fate) (s : Site) : Site :=
  at_disk {| nodes := nodes (s_disk s); plan := p |} s.
Definition with_refused (r : list (Verb * string)) (s : Site) : Site :=
  let m := s_host s in
  at_host {| m_up := m_up m; m_starts := m_starts m; m_time := m_time m; m_refused := r; m_answers := m_answers m |} s.

(** A rename that is refused half way is reported as restored once the workers
    answer again, although no credential is live any more. *)
Lemma failed_move_is_reported_restored :
  let (r, s) := swap_credential_material manager enough ["demo"%string] "/c/cred-1" "/s/auth.json" 7
                  (with_plan [Goes; Goes; Goes; Goes; Fails] running) in
  r = Err (Failed {| rf_code := "credential_swap_failed"; rf_restored := true; rf_detail := OnDisk (Io IoFailed) |})
  /\ CredentialSwap.view "/c/cred-1" (nodes (s_disk s)) = Aside (file "one").
Proof. vm_compute. auto. Qed.

(** Two projects on one credential. *)
Definition registered2 : Site :=
  at_db (snd (register_project real 60 "beta" "/srv/beta" None None None ManagedContainer (s_db running))) running.
Definition running2 : Site :=
  snd (ensure_running manager enough "beta"
    (snd (provision_project_profile settings real (fun _ db => db) (fun _ => false) 40 (seqZ 32 32) "beta" registered2))).
Definition beta_unit : string := "asterism-hermes@asterism-project-beta.service".

(** The second worker refuses to stop: reported as restored, with the first one
    stopped and left so. *)
Lemma refused_stop_leaves_others_down :
  m_up (s_host running2) = {[demo_unit; beta_unit]} /\
  let (r, s) := swap_credential_material manager enough ["demo"; "beta"]%string "/c/cred-1" "/s/auth.json" 7
                  (with_refused [(Stop, beta_unit)] running2) in
  (exists f, r = Err (Failed f) /\ rf_restored f = true) /\ m_up (s_host s) = {[beta_unit]}.
Proof. split; [vm_compute; reflexivity|]. vm_compute. split; [eexists; split; reflexivity|reflexivity]. Qed.

(** A home that holds something but is not complete is never finished: the
    staged one cannot be renamed onto it. *)
Definition with_remnant : Site :=
  let d := s_disk bare in
  at_disk {| nodes := <["/w" := folder]> (<["/w/asterism-project-demo" := folder]>
                (<["/w/asterism-project-demo/config.yaml" := file "x"]> (nodes d))); plan := [] |} bare.
Lemma remnant_home_blocks_provisioning :
  exists e, fst (provision_project_profile settings real (fun _ db => db) (fun _ => false) 40 (seqZ 0 32) "demo" with_remnant)
            = Err (Failed e).
Proof. vm_compute. eexists. reflexivity. Qed.

(** A project id may end in an underscore; the profile name made of it is refused. *)
Lemma trailing_separator_is_never_provisioned :
  is_ok (validate_identifier "demo_") = true
  /\ is_ok (validate_profile_name (default_profile_name "demo_")) = false.
Proof. vm_compute. auto. Qed.
(** Different projects may get one profile name. *)
Lemma profile_names_collide :
  is_ok (validate_identifier "demo.a") = true /\ is_ok (validate_identifier "demo-a") = true
  /\ default_profile_name "demo.a" = default_profile_name "demo-a".
Proof. vm_compute. auto. Qed.
