(* ===== verification/Workdesk.v ===== *)
(** * Workdesk: the reports of an executing agent ([workdesk.rs], and the board
    functions of [control.rs]).

    An agent writes rows into the board of its project's home; the node reads
    them and queues them for the Control Plane, stamped from the card it minted
    itself.  A board is another program's database, written by anybody with
    access to the home, so a column may hold anything ([Cell]).

    The node's tables and the boards are shared: before every use the rest of
    the world may have changed them, a use may fail, and the process may stop
    there ([Chance]).  One transaction is one use. *)
From Stdlib Require Import Lia.
From stdpp Require Import gmap.
From S2P Require Import Prelude Text Json Schema Remote Inventory Protocol Channel Fs.

Definition DISPATCHABLE_CARD_STATES : list string := ["todo"; "ready"; "scheduled"; "triage"]%string.
Definition MINTED_CARD_STATE : string := "running".
Definition is_dispatchable_state (state : string) : bool :=
  List.existsb (String.eqb state) DISPATCHABLE_CARD_STATES.

(** ** What a command says about a task *)

Record CardBinding : Type := {
  cb_card_id : string;
  cb_project_id : string;
  cb_task_id : string;
  cb_run_id : string;
  cb_generation : Z
}.
Record TaskBinding : Type := { tb_task_id : string; tb_generation : Z }.

Inductive MalformedTask : Type :=
| NotAnObject
| MissingTaskId
| EmptyTaskId
| MissingGeneration
| NegativeGeneration.

Module MalformedTask.
Definition slug (m : MalformedTask) : string :=
  match m with
  | NotAnObject => "task_not_an_object"
  | MissingTaskId => "task_id_missing"
  | EmptyTaskId => "task_id_empty"
  | MissingGeneration => "task_generation_missing"
  | NegativeGeneration => "task_generation_negative"
  end.
Definition message (m : MalformedTask) : string :=
  match m with
  | NotAnObject => "The run named a task in a shape this Node cannot read."
  | MissingTaskId => "The run named a task without an id."
  | EmptyTaskId => "The run named a task whose id is empty."
  | MissingGeneration => "The run named a task without an execution generation."
  | NegativeGeneration => "The run named a task with an impossible execution generation."
  end.
Definition identifiable (m : MalformedTask) : bool :=
  match m with MissingGeneration | NegativeGeneration => true | _ => false end.
End MalformedTask.

Inductive TaskAttachment : Type :=
| Absent
| Malformed (reason : MalformedTask) (task_id : option string)
| Attached (b : TaskBinding).

(** [TaskAttachment::from_payload]. *)
Definition from_payload (payload : Value) : TaskAttachment :=
  match get "task" payload with
  | None | Some VNull => Absent
  | Some task =>
      match as_object task with
      | None => Malformed NotAnObject None
      | Some fields =>
          match map_get "task_id" fields ≫= as_str with
          | None => Malformed MissingTaskId None
          | Some raw_id =>
              let task_id := of_chars (trim (chars raw_id)) in
              if (task_id =? "")%string then Malformed EmptyTaskId None
              else match map_get "generation" fields ≫= as_i64 with
              | None => Malformed MissingGeneration (Some task_id)
              | Some generation =>
                  if generation <? 0 then Malformed NegativeGeneration (Some task_id)
                  else Attached {| tb_task_id := task_id; tb_generation := generation |}
              end
          end
      end
  end.

(** ** Reports *)

Inductive AgentReport : Type :=
| Activity (note : string)
| Note (body : string)
| Blocked (reason kind : string)
| ResultReady (summary : string) (artifacts : list string)
| CompletionRequested (summary : string) (artifacts : list string)
| Plan (steps : list string).

Inductive ReportStream : Type := Event | Comment.
#[export] Instance ReportStream_eq_dec : EqDecision ReportStream.
Proof. solve_decision. Defined.
Definition tag (s : ReportStream) : string :=
  match s with Event => "event" | Comment => "comment" end.

Record StampedReport : Type := {
  sr_report_id : string;
  sr_task_id : string;
  sr_run_id : string;
  sr_generation : Z;
  sr_source_seq : Z;
  sr_report : AgentReport
}.

Definition stamp (b : CardBinding) (stream : ReportStream) (source_seq : Z) (report : AgentReport) : StampedReport :=
  {| sr_report_id := cb_card_id b +:+ ":" +:+ tag stream +:+ ":" +:+ decimal source_seq;
     sr_task_id := cb_task_id b; sr_run_id := cb_run_id b; sr_generation := cb_generation b;
     sr_source_seq := source_seq; sr_report := report |}.

(** The derived serialization, fields in their declared order. *)
Definition texts (l : list string) : Value := VArray (List.map VString l).
Definition report_value (r : AgentReport) : Value :=
  VObject match r with
  | Activity note => [("report", VString "activity"); ("note", VString note)]
  | Note body => [("report", VString "note"); ("body", VString body)]
  | Blocked reason kind => [("report", VString "blocked"); ("reason", VString reason); ("kind", VString kind)]
  | ResultReady summary artifacts =>
      [("report", VString "result_ready"); ("summary", VString summary); ("artifacts", texts artifacts)]
  | CompletionRequested summary artifacts =>
      [("report", VString "completion_requested"); ("summary", VString summary); ("artifacts", texts artifacts)]
  | Plan steps => [("report", VString "plan"); ("steps", texts steps)]
  end%string.
Definition stamped_fields (r : StampedReport) : list (string * Value) :=
  [("report_id", VString (sr_report_id r)); ("task_id", VString (sr_task_id r));
   ("run_id", VString (sr_run_id r)); ("generation", integer (sr_generation r));
   ("source_seq", integer (sr_source_seq r)); ("report", report_value (sr_report r))]%string.

(** ** The node's cards and the boards *)

Record CardRow : Type := {
  k_binding : CardBinding;
  k_created_at : Z;
  k_forwarded_event_seq : Z;
  k_forwarded_comment_seq : Z;
  k_closed_at : option Z
}.

(** A column of somebody else's table. *)
Inductive Cell : Type := CNull | CText (s : string) | COther.

Record BoardTask : Type := {
  t_id : string;
  t_title : string;
  t_body : string;
  t_status : Cell;
  t_result : Cell;
  t_block_kind : Cell;
  t_created_by : string;
  t_created_at : Z
}.
Record BoardEvent : Type := { ev_id : Z; ev_task_id : string; ev_kind : Cell; ev_payload : Cell }.
Record BoardComment : Type := { co_id : Z; co_task_id : string; co_body : Cell }.
(** [None] for the tasks: the table is not there yet. *)
Record Board : Type := {
  board_tasks : option (list BoardTask);
  board_events : list BoardEvent;
  board_comments : list BoardComment
}.

Record Shared : Type := {
  sh_db : Db;
  sh_cards : list CardRow;
  sh_boards : gmap string Board
}.
Inductive Chance : Type :=
| Proceed (others : Shared -> Shared)
| Unavailable
| Halted.
Record World : Type := { shared : Shared; chances : list Chance }.

Inductive DeskError : Type :=
| ProcessEnded
| NotAvailable
| BadColumn
| NotBound (card_id run_id : string)
| DeskConstraint (what : string)
| NoTasksTable
| MintRefused
| ProjectGone (project_id : string)
| NoHermesHome (project_id : string)
| OnInventory (e : InvError).

Abbreviation Act := (M DeskError World).

Definition step {A} (m : M DeskError Shared A) : Act A :=
  fun w =>
    let go f rest := let (r, sh) := m (f (shared w)) in (r, {| shared := sh; chances := rest |}) in
    match chances w with
    | [] => go (fun sh => sh) []
    | Proceed others :: rest => go others rest
    | Unavailable :: rest => (Err NotAvailable, {| shared := shared w; chances := rest |})
    | Halted :: rest => (Err ProcessEnded, {| shared := shared w; chances := rest |})
    end.

Definition on_cards (f : list CardRow -> list CardRow) (sh : Shared) : Shared :=
  {| sh_db := sh_db sh; sh_cards := f (sh_cards sh); sh_boards := sh_boards sh |}.
Definition on_tables (f : Db -> Db) (sh : Shared) : Shared :=
  {| sh_db := f (sh_db sh); sh_cards := sh_cards sh; sh_boards := sh_boards sh |}.
Definition on_board (path : string) (b : Board) (sh : Shared) : Shared :=
  {| sh_db := sh_db sh; sh_cards := sh_cards sh; sh_boards := <[path := b]> (sh_boards sh) |}.

Definition is_card (card_id : string) (k : CardRow) : bool := (cb_card_id (k_binding k) =? card_id)%string.
Definition of_run (run_id : string) (k : CardRow) : bool := (cb_run_id (k_binding k) =? run_id)%string.

(** The mark of one stream, raised to [cursor]. *)
Definition with_mark (stream : ReportStream) (cursor : Z) (k : CardRow) : CardRow :=
  {| k_binding := k_binding k; k_created_at := k_created_at k;
     k_forwarded_event_seq :=
       match stream with Event => Z.max (k_forwarded_event_seq k) cursor | Comment => k_forwarded_event_seq k end;
     k_forwarded_comment_seq :=
       match stream with Event => k_forwarded_comment_seq k | Comment => Z.max (k_forwarded_comment_seq k) cursor end;
     k_closed_at := k_closed_at k |}.
Definition with_marks (events comments : Z) (k : CardRow) : CardRow :=
  {| k_binding := k_binding k; k_created_at := k_created_at k;
     k_forwarded_event_seq := Z.max (k_forwarded_event_seq k) events;
     k_forwarded_comment_seq := Z.max (k_forwarded_comment_seq k) comments;
     k_closed_at := k_closed_at k |}.

(** ** Bindings *)

Definition record_binding (b : CardBinding) (now : Z) : M DeskError Shared unit :=
  let! sh := state in
  if List.existsb (is_card (cb_card_id b)) (sh_cards sh) then fail (DeskConstraint "task_cards.card_id")
  else if List.existsb (of_run (cb_run_id b)) (sh_cards sh) then fail (DeskConstraint "task_cards.run_id")
  else if negb (List.existsb (is_project (cb_project_id b)) (projects (sh_db sh)))
  then fail (DeskConstraint "task_cards.project_id")
  else modify (on_cards (fun t => t ++
         [{| k_binding := b; k_created_at := now; k_forwarded_event_seq := 0; k_forwarded_comment_seq := 0;
             k_closed_at := None |}])).

Definition binding_for_run (run_id : string) (sh : Shared) : option CardBinding :=
  k_binding <$> select_one (of_run run_id) (sh_cards sh).
Definition binding_for_card (card_id : string) (sh : Shared) : option CardBinding :=
  k_binding <$> select_one (is_card card_id) (sh_cards sh).

Definition close_card (run_id : string) (now : Z) : M DeskError Shared unit :=
  modify (on_cards (update_where (fun k => of_run run_id k && is_null (k_closed_at k)) (fun k =>
    {| k_binding := k_binding k; k_created_at := k_created_at k;
       k_forwarded_event_seq := k_forwarded_event_seq k; k_forwarded_comment_seq := k_forwarded_comment_seq k;
       k_closed_at := Some now |}))).

Definition forwarded_marks (card_id : string) (sh : Shared) : Z * Z :=
  match select_one (is_card card_id) (sh_cards sh) with
  | Some k => (k_forwarded_event_seq k, k_forwarded_comment_seq k)
  | None => (0, 0)
  end.
Definition advance_marks (card_id : string) (events comments : Z) : M DeskError Shared unit :=
  modify (on_cards (update_where (is_card card_id) (with_marks events comments))).
Definition open_cards (sh : Shared) : list (CardBinding * Z * Z) :=
  List.map (fun k => (k_binding k, k_forwarded_event_seq k, k_forwarded_comment_seq k))
    (order_by (fun a b => k_created_at a <=? k_created_at b)
       (select (fun k => is_null (k_closed_at k)) (sh_cards sh))).

(** [unregister_project] on the whole file: the cards of the project go with it
    ([ON DELETE CASCADE]). *)
Definition unregister_with_cards `{SerdeJson} (project_id : string) : M DeskError Shared unit :=
  let! sh := state in
  match unregister_project project_id (sh_db sh) with
  | (Ok _, db) =>
      modify (fun sh => on_cards (delete_where (fun k => (cb_project_id (k_binding k) =? project_id)%string))
                          (on_tables (fun _ => db) sh))
  | (Err e, _) => fail (OnInventory e)
  end.

(** ** Queueing *)

Definition QUOTE_MARK : Ascii.ascii := Ascii.ascii_of_N 34.
Definition quoted (s : string) : string := String QUOTE_MARK (s +:+ String QUOTE_MARK EmptyString).

Section Bridge.
Context `{SerdeJson}.

Definition board_path (home : string) : string := path_join home "kanban.db".

Definition COLON_SIGN : Ascii.ascii := Ascii.ascii_of_N 58.
(** [report_id.split(':').next()]. *)
Definition card_of (report_id : string) : string :=
  of_chars (default [] (List.head (split COLON_SIGN (chars report_id)))).

Definition bound_to_run (card_id : string) (r : StampedReport) (k : CardRow) : bool :=
  is_card card_id k && of_run (sr_run_id r) k && (cb_generation (k_binding k) =? sr_generation r).

(** The outbox row and the cursor, in one transaction. *)
Definition enqueue_report (r : StampedReport) (stream : ReportStream) (cursor now : Z) : M DeskError Shared Z :=
  let payload := struct_to_string (stamped_fields r) in
  transaction (
    let card_id := card_of (sr_report_id r) in
    let! sh := state in
    if negb (List.existsb (bound_to_run card_id r) (sh_cards sh)) then fail (NotBound card_id (sr_run_id r))
    else match sql_incr (outbox_sequence (sh_db sh)) with
    | None => fail (DeskConstraint "outbox.id")
    | Some id =>
        modify (on_tables (on_outbox (fun t => t ++
          [{| o_id := id; o_kind := OUTBOX_TASK_REPORT; o_correlation_id := Some (sr_report_id r);
              o_payload := payload; o_created_at := now; o_acknowledged_at := None |}]) id)) ;;;
        modify (on_cards (update_where (is_card card_id) (with_mark stream cursor))) ;;;
        ret id
    end).

(** ** Reading a board *)

Definition text_of_cell (c : Cell) : Result DeskError string :=
  match c with CText s => Ok s | _ => Err BadColumn end.
Definition opt_text (c : Cell) : Result DeskError (option string) :=
  match c with CNull => Ok None | CText s => Ok (Some s) | COther => Err BadColumn end.

Definition trimmed (s : string) : string := of_chars (trim (chars s)).
Definition payload_field (payload : option string) (name : string) : option string :=
  match (raw ← payload; v ← from_str raw; x ← get name v; as_str x) with
  | Some t => if (trimmed t =? "")%string then None else Some (trimmed t)
  | None => None
  end.
Definition payload_artifacts (payload : option string) : list string :=
  match (raw ← payload; v ← from_str raw; x ← get "artifacts" v; as_array x) with
  | Some items => omap as_str items
  | None => []
  end.
Definition or_else {A} (a b : option A) : option A := match a with Some _ => a | None => b end.

Definition report_for_event (kind : string) (payload result block_kind : option string) : option AgentReport :=
  let summary := or_else (payload_field payload "summary") result in
  if (kind =? "heartbeat")%string then
    Some (Activity (default "still working"%string (payload_field payload "note")))
  else if (kind =? "blocked")%string then
    Some (Blocked (default "The agent stopped without saying why."%string (payload_field payload "reason"))
                  (default "needs_input"%string block_kind))
  else if (kind =? "review")%string then
    (fun s => ResultReady s (payload_artifacts payload)) <$> summary
  else if (kind =? "completed")%string || (kind =? "done")%string then
    (fun s => CompletionRequested s (payload_artifacts payload)) <$> summary
  else None.

Record BoardPass : Type := {
  bp_reports : list (ReportStream * Z * AgentReport);
  bp_event_cursor : Z;
  bp_comment_cursor : Z
}.

Fixpoint read_events (rows : list BoardEvent) (result block_kind : option string) (cursor : Z) :
    Result DeskError (list (ReportStream * Z * AgentReport) * Z) :=
  match rows with
  | [] => Ok ([], cursor)
  | ev :: rest =>
      match text_of_cell (ev_kind ev), opt_text (ev_payload ev) with
      | Ok kind, Ok payload =>
          match read_events rest result block_kind (Z.max cursor (ev_id ev)) with
          | Ok (found, last) =>
              Ok (match report_for_event kind payload result block_kind with
                  | Some report => (Event, ev_id ev, report) :: found
                  | None => found
                  end, last)
          | Err e => Err e
          end
      | _, _ => Err BadColumn
      end
  end.
Fixpoint read_comments (rows : list BoardComment) (cursor : Z) :
    Result DeskError (list (ReportStream * Z * AgentReport) * Z) :=
  match rows with
  | [] => Ok ([], cursor)
  | co :: rest =>
      match text_of_cell (co_body co) with
      | Ok body =>
          match read_comments rest (Z.max cursor (co_id co)) with
          | Ok (found, last) =>
              Ok (if (trimmed body =? "")%string then found else (Comment, co_id co, Note body) :: found, last)
          | Err e => Err e
          end
      | Err e => Err e
      end
  end.

Definition board_at (path : string) (sh : Shared) : Result DeskError Board :=
  context (sh_boards sh !! path) NotAvailable.
(** The card's status, result and block kind, when the card is there. *)
Definition card_columns (path card_id : string) (sh : Shared) :
    Result DeskError (option (option string * option string)) :=
  match board_at path sh with
  | Err e => Err e
  | Ok b =>
      match board_tasks b with
      | None => Err NotAvailable
      | Some tasks =>
          match select_one (fun t => (t_id t =? card_id)%string) tasks with
          | None => Ok None
          | Some t =>
              match text_of_cell (t_status t), opt_text (t_result t), opt_text (t_block_kind t) with
              | Ok _, Ok result, Ok block_kind => Ok (Some (result, block_kind))
              | _, _, _ => Err BadColumn
              end
          end
      end
  end.
Definition events_after (path card_id : string) (after : Z) (sh : Shared) : Result DeskError (list BoardEvent) :=
  match board_at path sh with
  | Err e => Err e
  | Ok b => Ok (order_by (fun a b => ev_id a <=? ev_id b)
                  (select (fun ev => (ev_task_id ev =? card_id)%string && (after <? ev_id ev)) (board_events b)))
  end.
Definition comments_after (path card_id : string) (after : Z) (sh : Shared) : Result DeskError (list BoardComment) :=
  match board_at path sh with
  | Err e => Err e
  | Ok b => Ok (order_by (fun a b => co_id a <=? co_id b)
                  (select (fun co => (co_task_id co =? card_id)%string && (after <? co_id co)) (board_comments b)))
  end.

Definition read_board (path card_id : string) (after_event after_comment : Z) : Act BoardPass :=
  let! card := step (query (card_columns path card_id)) in
  match card with
  | None => ret {| bp_reports := []; bp_event_cursor := after_event; bp_comment_cursor := after_comment |}
  | Some (result, block_kind) =>
      let! events := step (query (events_after path card_id after_event)) in
      let! (es, event_cursor) := lift (read_events events result block_kind after_event) in
      let! comments := step (query (comments_after path card_id after_comment)) in
      let! (cs, comment_cursor) := lift (read_comments comments after_comment) in
      ret {| bp_reports := es ++ cs; bp_event_cursor := event_cursor; bp_comment_cursor := comment_cursor |}
  end.

(** ** Draining *)

Fixpoint queue_reports (b : CardBinding) (now : Z) (reports : list (ReportStream * Z * AgentReport)) : Act nat :=
  match reports with
  | [] => ret 0%nat
  | (stream, source_seq, report) :: rest =>
      step (enqueue_report (stamp b stream source_seq report) stream source_seq now) ;;;
      let! queued := queue_reports b now rest in
      ret (S queued)
  end.
Definition drain_card (path : string) (b : CardBinding) (after_event after_comment now : Z) : Act nat :=
  let! pass := read_board path (cb_card_id b) after_event after_comment in
  let! queued := queue_reports b now (bp_reports pass) in
  step (advance_marks (cb_card_id b) (bp_event_cursor pass) (bp_comment_cursor pass)) ;;;
  ret queued.

(** [drain_task_board] up to its log line: what the closure returns. *)
Definition drain_run (run_id : string) (now : Z) : Act nat :=
  step (modify (on_tables opened)) ;;;
  let! found := step (gets (binding_for_run run_id)) in
  match found with
  | None => ret 0%nat
  | Some b =>
      let! (events, comments) := step (gets (forwarded_marks (cb_card_id b))) in
      let! p := step (query (fun sh => map_err OnInventory (project (cb_project_id b) (sh_db sh)))) in
      let! p := lift (context p (ProjectGone (cb_project_id b))) in
      let! home := lift (context (rp_hermes_home p) (NoHermesHome (rp_project_id p))) in
      drain_card (board_path home) b events comments now
  end.
(** Any failure but the end of the process is logged and swallowed. *)
Definition swallow {A} (m : Act A) : Act unit :=
  fun w => match m w with
           | (Err ProcessEnded, w') => (Err ProcessEnded, w')
           | (_, w') => (Ok tt, w')
           end.
Definition drain_task_board (run_id : string) (now : Z) : Act unit := swallow (drain_run run_id now).

Fixpoint drain_each (now : Z) (cards : list (CardBinding * Z * Z)) : Act unit :=
  match cards with
  | [] => ret tt
  | (b, _, _) :: rest => drain_task_board (cb_run_id b) now ;;; drain_each now rest
  end.
Definition pump_task_boards (now : Z) : Act unit :=
  swallow (
    step (modify (on_tables opened)) ;;;
    let! cards := step (gets open_cards) in
    drain_each now cards).

(** ** Minting *)

(** Opening creates an empty board; the table may be missing, and another
    program's constraints may refuse the row. *)
Definition mint_card (path : string) (b : CardBinding) (title goal : string) (now : Z) (accepted : bool) :
    M DeskError Shared unit :=
  let! sh := state in
  match sh_boards sh !! path with
  | None => modify (on_board path {| board_tasks := None; board_events := []; board_comments := [] |}) ;;; fail NoTasksTable
  | Some board =>
      match board_tasks board with
      | None => fail NoTasksTable
      | Some tasks =>
          if accepted then
            modify (on_board path {|
              board_tasks := Some (tasks ++
                [{| t_id := cb_card_id b; t_title := title; t_body := goal; t_status := CText MINTED_CARD_STATE;
                    t_result := CNull; t_block_kind := CNull; t_created_by := "asterism"; t_created_at := now |}]);
              board_events := board_events board; board_comments := board_comments board |})
          else fail MintRefused
      end
  end.

Definition DASH : Ascii.ascii := Ascii.ascii_of_N 45.
(** [format!("ast-{}", new_message_id().replace('-', ""))]. *)
Definition new_card_id (message_id : string) : string :=
  "ast-" +:+ of_chars (List.filter (fun c => negb (char_eqb c DASH)) (chars message_id)).

Definition mint_task_card (message_id : string) (p : RegisteredProject) (b : TaskBinding) (goal : string)
    (now : Z) (accepted : bool) : M DeskError Shared string :=
  let! home := lift (context (rp_hermes_home p) (NoHermesHome (rp_project_id p))) in
  let card_id := new_card_id message_id in
  let card := {| cb_card_id := card_id; cb_project_id := rp_project_id p; cb_task_id := tb_task_id b;
                 cb_run_id := ""; cb_generation := tb_generation b |} in
  mint_card (board_path home) card (tb_task_id b) goal now accepted ;;;
  ret card_id.

Definition addressing_note (card_id : string) : string :=
  "You are working on Asterism task card `" +:+ card_id +:+ "`. Report progress with the kanban tools, always passing task_id=" +:+
  quoted card_id +:+ ": kanban_heartbeat for what you are doing now, kanban_comment for a durable note, kanban_block with kind=" +:+
  quoted "needs_input" +:+ " when you need something answered, kanban_request_review when a result is ready to be looked at, and kanban_complete when the work is done. Nothing you write in an ordinary reply is read as task state.".
End Bridge.

Definition final_read_required (terminal_status : string) : bool := negb (terminal_status =? "")%string.
Definition kanban_env_value (project_id : string) : string := "asterism-project-" +:+ project_id.
