(* ===== verification/WorkdeskTheorems.v ===== *)
(** * WorkdeskTheorems: an agent's reports reach the outbox once each, and say
    only what the node minted. *)
From Stdlib Require Import Lia Sorted.
From stdpp Require Import gmap pretty.
From S2P Require Import Prelude Text Json Schema Remote RemoteFacts RemoteTheorems Inventory Protocol Channel Fs Workdesk.

(** ** Attachments *)

(** A command that names a task is never run as one that names none: only a
    missing or null attachment is absent, and an attachment is accepted exactly
    when it is an object with a text that is not blank and a generation that is
    an integer of 64 bits and not negative. *)
Theorem named_task_is_never_dropped payload :
  (from_payload payload = Absent <-> get "task" payload = None \/ get "task" payload = Some VNull)
  /\ forall b, from_payload payload = Attached b <->
       exists fields raw, get "task" payload = Some (VObject fields)
         /\ map_get "task_id" fields = Some (VString raw)
         /\ tb_task_id b = trimmed raw /\ tb_task_id b <> ""%string
         /\ (exists v, map_get "generation" fields = Some v /\ as_i64 v = Some (tb_generation b))
         /\ 0 <= tb_generation b.
Proof.
  unfold from_payload. destruct (get "task" payload) as [task|]; [|split; [by split; [left|]|]].
  2: { intros b. split; [done|]. by intros (f & r & ? & _). }
  destruct task as [| | | | |fields]; cbn [as_object].
  1: { split; [by split; [right|]|]. intros b. split; [done|]. by intros (f & r & ? & _). }
  1-4: split; [by split; [done|intros [|]]|]; intros b'; split; [done|]; by intros (f & r & ? & _).
  split.
  { split; [|by intros [|]]. destruct (map_get "task_id" fields ≫= as_str); [|done].
    destruct (_ =? _)%string; [done|]. destruct (map_get "generation" fields ≫= as_i64) as [z|]; [|done].
    by destruct (z <? 0). }
  intros b. split.
  - destruct (map_get "task_id" fields) as [v|] eqn:Et; cbn; [|done]. destruct v as [| | |raw| |]; cbn [as_str]; try done.
    fold (trimmed raw). destruct (String.eqb_spec (trimmed raw) ""); [done|].
    destruct (map_get "generation" fields) as [g|] eqn:Eg; cbn; [|done]. destruct (as_i64 g) as [z|] eqn:Ez; [|done].
    destruct (Z.ltb_spec z 0); [done|]. intros [= <-]. exists fields, raw. cbn. split_and!; try done. by exists g.
  - intros (f & raw & [= <-] & Et & Hid & Hne & (g & Eg & Ez) & Hpos). rewrite Et. cbn. fold (trimmed raw).
    rewrite <- Hid. destruct (String.eqb_spec (tb_task_id b) ""); [done|]. rewrite Eg. cbn. rewrite Ez.
    destruct (Z.ltb_spec (tb_generation b) 0); [lia|]. by destruct b.
Qed.

(** ** Report ids *)

Lemma card_of_report b stream seq report :
  ~ In COLON_SIGN (chars (cb_card_id b)) -> card_of (sr_report_id (stamp b stream seq report)) = cb_card_id b.
Proof.
  intros Hc. unfold card_of, stamp, split. cbn [sr_report_id]. rewrite chars_append.
  change (chars (":" +:+ ?t)) with (COLON_SIGN :: chars t). rewrite split_from_sep, split_from_last by done.
  cbn. by rewrite chars_of_chars.
Qed.

Definition report_id (card_id : string) (stream : ReportStream) (seq : Z) : string :=
  card_id +:+ ":" +:+ tag stream +:+ ":" +:+ decimal seq.
Lemma report_id_inj card s1 q1 s2 q2 : report_id card s1 q1 = report_id card s2 q2 -> s1 = s2 /\ q1 = q2.
Proof.
  unfold report_id. intros E. apply (inj (String.append card)) in E. apply (inj (String.append ":")) in E.
  destruct s1, s2; cbn in E; try done; (split; [done|]); injection E as E; exact (inj (pretty (A:=Z)) _ _ E).
Qed.

(** ** Every row once *)

Section Delivery.
Context `{SerdeJson} (b : CardBinding) (path : string).
Context (Hplain : ~ In COLON_SIGN (chars (cb_card_id b))).
Let card : string := cb_card_id b.

(** The report that a row of the board makes when the card's result and block
    kind are the given ones. *)
Definition row_reports (board : Board) (result block_kind : option string) (stream : ReportStream) (seq : Z)
    (report : AgentReport) : Prop :=
  match stream with
  | Event => exists ev kind payload, In ev (board_events board) /\ ev_task_id ev = card /\ ev_id ev = seq
      /\ ev_kind ev = CText kind /\ opt_text (ev_payload ev) = Ok payload
      /\ report_for_event kind payload result block_kind = Some report
  | Comment => exists co body, In co (board_comments board) /\ co_task_id co = card /\ co_id co = seq
      /\ co_body co = CText body /\ trimmed body <> ""%string /\ report = Note body
  end.
(** A row that is a report whatever the card's columns say. *)
Definition says (stream : ReportStream) (seq : Z) (board : Board) : Prop :=
  forall result block_kind, exists report, row_reports board result block_kind stream seq report.
(** The result and the block kind of the card. *)
Definition columns (board : Board) (result block_kind : option string) : Prop :=
  exists tasks t, board_tasks board = Some tasks /\ select_one (fun t => (t_id t =? card)%string) tasks = Some t
    /\ opt_text (t_result t) = Ok result /\ opt_text (t_block_kind t) = Ok block_kind.
Definition ids (stream : ReportStream) (board : Board) : list Z :=
  match stream with Event => List.map ev_id (board_events board) | Comment => List.map co_id (board_comments board) end.

(** The last number a table of a board has given out; new rows are numbered
    after it, and rows are not taken back ([INTEGER PRIMARY KEY AUTOINCREMENT]). *)
Context (last_id : Board -> ReportStream -> Z).
Record numbered (board : Board) : Prop := {
  nb_unique : forall stream, NoDup (ids stream board);
  nb_last : forall stream seq, In seq (ids stream board) -> seq <= last_id board stream
}.
Definition has_card (board : Board) : Prop :=
  exists tasks t, board_tasks board = Some tasks /\ select_one (fun t => (t_id t =? card)%string) tasks = Some t.
(** The column of the result is not null. *)
Definition has_result (board : Board) : Prop :=
  exists tasks t, board_tasks board = Some tasks /\ select_one (fun t => (t_id t =? card)%string) tasks = Some t
    /\ t_result t <> CNull.
Record extends (old new : Board) : Prop := {
  ex_card : has_card old -> has_card new;
  ex_numbered : numbered new;
  ex_last : forall stream, last_id old stream <= last_id new stream;
  ex_result : has_result old -> has_result new;
  ex_kept : forall result block_kind stream seq report,
    row_reports old result block_kind stream seq report -> row_reports new result block_kind stream seq report;
  ex_new : forall result block_kind stream seq report, row_reports new result block_kind stream seq report ->
    row_reports old result block_kind stream seq report \/ last_id old stream < seq
}.

Definition mark (stream : ReportStream) (k : CardRow) : Z :=
  match stream with Event => k_forwarded_event_seq k | Comment => k_forwarded_comment_seq k end.
Definition card_row (sh : Shared) : option CardRow := select_one (is_card card) (sh_cards sh).
(** The reports of this card in the outbox: their ids and their text. *)
Definition own_report (o : OutboxRow) : option (string * string) :=
  if (o_kind o =? OUTBOX_TASK_REPORT)%string then
    match o_correlation_id o with
    | Some id => if (card_of id =? card)%string then Some (id, o_payload o) else None
    | None => None
    end
  else None.
Definition queued_rows (sh : Shared) : list (string * string) := omap own_report (outbox (sh_db sh)).
Definition queued_ids (sh : Shared) : list string := List.map fst (queued_rows sh).
Definition queued (sh : Shared) (stream : ReportStream) (seq : Z) : Prop :=
  In (report_id card stream seq) (queued_ids sh).
(** The row is queued, and says this of the run and the task the card was minted for. *)
Definition queued_as (sh : Shared) (stream : ReportStream) (seq : Z) (report : AgentReport) : Prop :=
  In (report_id card stream seq, struct_to_string (stamped_fields (stamp b stream seq report))) (queued_rows sh).

(** The board of the card's project. *)
Definition home_board (sh : Shared) : option string :=
  match project (cb_project_id b) (sh_db sh) with
  | Ok (Some p) => board_path <$> rp_hermes_home p
  | _ => None
  end.

(** What the rest of the world does to the card, its reports and its board: rows
    are added to the board, with new numbers, and not changed or taken back, and a
    result that is there stays there. *)
Record fair (others : Shared -> Shared) : Prop := {
  fair_home : forall sh, home_board (others sh) = home_board sh;
  fair_run : forall sh, binding_for_run (cb_run_id b) (others sh) = binding_for_run (cb_run_id b) sh;
  fair_card : forall sh, card_row (others sh) = card_row sh;
  fair_reports : forall sh, queued_rows (others sh) = queued_rows sh;
  fair_board : forall sh board, numbered board -> sh_boards sh !! path = Some board ->
    exists board', sh_boards (others sh) !! path = Some board' /\ extends board board'
}.

Record delivering (sh : Shared) (k : CardRow) (board : Board) : Prop := {
  dl_home : home_board sh = Some path;
  dl_run : binding_for_run (cb_run_id b) sh = Some b;
  dl_row : card_row sh = Some k;
  dl_bound : k_binding k = b;
  dl_board : sh_boards sh !! path = Some board;
  dl_numbered : numbered board;
  dl_done : forall stream seq, says stream seq board -> 0 < seq -> seq <= mark stream k -> queued sh stream seq;
  dl_marked : forall stream seq, queued sh stream seq -> seq <= mark stream k;
  dl_once : NoDup (queued_ids sh);
  dl_below : forall stream, 0 <= mark stream k <= Z.max 0 (last_id board stream)
}.

Lemma extends_refl board : numbered board -> extends board board.
Proof. intros Hn. split; auto with lia. Qed.
Lemma extends_trans old mid new : extends old mid -> extends mid new -> extends old new.
Proof.
  intros H1 H2. split.
  - intros Hc. by apply (ex_card _ _ H2), (ex_card _ _ H1).
  - apply H2.
  - intros st. pose proof (ex_last _ _ H1 st). pose proof (ex_last _ _ H2 st). lia.
  - intros Hc. by apply (ex_result _ _ H2), (ex_result _ _ H1).
  - intros res bk st q r Hr. by apply (ex_kept _ _ H2), (ex_kept _ _ H1).
  - intros res bk st q r Hr. destruct (ex_new _ _ H2 _ _ _ _ _ Hr) as [Hm|]; [by apply (ex_new _ _ H1)|].
    right. pose proof (ex_last _ _ H1 st). lia.
Qed.
(** A row that is a report with the columns of a board is one with the columns of
    any later board. *)
Lemma columns_later old new res bk res' bk' st q r :
  extends old new -> columns old res bk -> columns new res' bk' -> row_reports old res bk st q r ->
  exists r', row_reports old res' bk' st q r'.
Proof.
  intros He (ts & t & H1 & H2 & H3 & _) (ts' & t' & H1' & H2' & H3' & _) Hr. destruct st; [|by exists r].
  destruct Hr as (ev & kind & payload & Hin & Ht & Hq & Hk & Hp & Hr).
  assert (res' = None -> res = None) as Hres.
  { intros ->. destruct (t_result t') eqn:E'; try done. destruct res as [x|]; [|done].
    destruct (ex_result _ _ He) as (ts2 & t2 & E1 & E2 & E3).
    - exists ts, t. split; [done|]. split; [done|]. by destruct (t_result t).
    - rewrite H1' in E1. injection E1 as <-. rewrite H2' in E2. injection E2 as <-. by rewrite E' in E3. }
  enough (exists r', report_for_event kind payload res' bk' = Some r') as [r' Hr']
    by (exists r'; by exists ev, kind, payload).
  unfold report_for_event in *. cbv zeta in *. destruct (kind =? "heartbeat")%string; [eauto|].
  destruct (kind =? "blocked")%string; [eauto|].
  destruct (payload_field payload "summary"); cbn [or_else] in *.
  - destruct (kind =? "review")%string; [eauto|]. destruct (_ || _); [eauto|done].
  - destruct res' as [x|]; [|rewrite (Hres eq_refl) in Hr];
      (destruct (kind =? "review")%string; [eauto|]; destruct (_ || _); [eauto|done]).
Qed.
Lemma ex_says old new stream seq : extends old new -> says stream seq new -> says stream seq old \/ last_id old stream < seq.
Proof.
  intros He Hs. destruct (Z.lt_ge_cases (last_id old stream) seq); [by right|left]. intros res bk.
  destruct (Hs res bk) as [r Hr]. exists r. destruct (ex_new _ _ He _ _ _ _ _ Hr); [done|lia].
Qed.
Lemma delivering_others others sh k board :
  fair others -> delivering sh k board -> exists board', delivering (others sh) k board' /\ extends board board'.
Proof.
  intros Hf [Hhome Hrun Hrow Hb Hbd Hn Hdone Hmk Ho Hbl]. destruct (fair_board _ Hf sh board Hn Hbd) as (board' & Hbd' & He).
  exists board'. split; [|done]. assert (forall st seq, queued (others sh) st seq <-> queued sh st seq) as Hq.
  { intros st seq. unfold queued, queued_ids. by rewrite (fair_reports _ Hf). }
  split; try done.
  - by rewrite (fair_home _ Hf).
  - by rewrite (fair_run _ Hf).
  - by rewrite (fair_card _ Hf).
  - apply He.
  - intros st seq Hs Hpos Hle. apply Hq. destruct (ex_says _ _ _ _ He Hs) as [Hold|Hlt]; [auto|].
    specialize (Hbl st). lia.
  - intros st seq Hs%Hq. auto.
  - unfold queued_ids. by rewrite (fair_reports _ Hf).
  - intros st. specialize (Hbl st). pose proof (ex_last _ _ He st). lia.
Qed.

(** *** Queueing one report *)

Definition Found : Type := ReportStream * Z * AgentReport.
Definition raised (lo : ReportStream -> Z) (stream : ReportStream) (seq : Z) : ReportStream -> Z :=
  fun st => if decide (st = stream) then seq else lo st.
(** The numbers of each stream rise, from above [lo] to at most [top]. *)
Fixpoint rising (top lo : ReportStream -> Z) (found : list Found) : Prop :=
  match found with
  | [] => True
  | (stream, seq, _) :: rest => lo stream < seq <= top stream /\ rising top (raised lo stream seq) rest
  end.
Definition marks (k : CardRow) : ReportStream -> Z := fun st => mark st k.

(** With the columns that were read: [found] is what the rows above the marks
    report, up to [top]. *)
Record pending (cols : option string * option string) (top : ReportStream -> Z) (found : list Found)
    (k : CardRow) (board : Board) : Prop := {
  pd_rising : rising top (marks k) found;
  pd_all : forall stream seq report, row_reports board (fst cols) (snd cols) stream seq report ->
    mark stream k < seq <= top stream -> In (stream, seq, report) found;
  pd_top : forall stream, top stream <= Z.max 0 (last_id board stream)
}.

Lemma rising_ext top lo lo' found : (forall st, lo st = lo' st) -> rising top lo found -> rising top lo' found.
Proof.
  revert lo lo'. induction found as [|[[st q] r] found IH]; intros lo lo' E; cbn [rising]; [done|].
  rewrite E. intros [Hq Hr]. split; [done|]. eapply IH; [|exact Hr]. intros st'. unfold raised. by destruct (decide _).
Qed.
Lemma rising_above top lo found st q r : rising top lo found -> In (st, q, r) found -> lo st < q.
Proof.
  revert lo. induction found as [|[[st' q'] r'] found IH]; intros lo; cbn [rising]; [done|].
  intros [Hq Hr] [[= <- <- <-]|Hin]; [lia|]. specialize (IH _ Hr Hin). unfold raised in IH. destruct (decide (st = st')) as [->|]; lia.
Qed.

Lemma marks_with_mark st q k : mark st k < q -> forall st', marks (with_mark st q k) st' = raised (marks k) st q st'.
Proof. intros Hq st'. unfold marks, raised. destruct (decide (st' = st)) as [->|]; destruct st; cbn in *; try lia; by destruct st'. Qed.

Lemma pending_next cols top st q r found k board :
  pending cols top ((st, q, r) :: found) k board -> pending cols top found (with_mark st q k) board.
Proof.
  intros [[Hq Hr] Hall Htop]. unfold marks in Hq. pose proof (marks_with_mark st q k ltac:(lia)) as Hm. split; [|..|done].
  - eapply rising_ext; [|exact Hr]. intros st'. by rewrite Hm.
  - intros st' q' r' Hs Hle. change (mark st' (with_mark st q k)) with (marks (with_mark st q k) st') in Hle.
    rewrite Hm in Hle. unfold raised in Hle. destruct (decide (st' = st)) as [->|Hne].
    + destruct (Hall st q' r' Hs ltac:(lia)) as [[= E _]|Hin]; [lia|done].
    + destruct (Hall st' q' r' Hs Hle) as [[= E _ _]|Hin]; [congruence|done].
Qed.

Lemma binding_of_updated f p run_id sh :
  (forall k, k_binding (f k) = k_binding k) ->
  binding_for_run run_id (on_cards (update_where p f) sh) = binding_for_run run_id sh.
Proof.
  intros Hf. unfold binding_for_run. cbn [on_cards sh_cards]. rewrite select_one_update_where.
  - destruct (select_one _ _) as [k|]; [|done]. cbn. destruct (p k); [by rewrite Hf|done].
  - intros k. unfold of_run. by rewrite Hf.
Qed.

Lemma enqueue_outcome sh k st q report now :
  card_row sh = Some k -> k_binding k = b ->
  match enqueue_report (stamp b st q report) st q now sh with
  | (Ok _, sh') => card_row sh' = Some (with_mark st q k) /\ queued_rows sh' = queued_rows sh ++
                     [(report_id card st q, struct_to_string (stamped_fields (stamp b st q report)))]
                   /\ sh_boards sh' = sh_boards sh /\ home_board sh' = home_board sh
                   /\ binding_for_run (cb_run_id b) sh' = binding_for_run (cb_run_id b) sh
  | (Err _, sh') => sh' = sh
  end.
Proof.
  intros Hrow Hb. unfold enqueue_report, transaction, bind, state. rewrite card_of_report by done.
  assert (List.existsb (bound_to_run (cb_card_id b) (stamp b st q report)) (sh_cards sh) = true) as ->.
  { apply existsb_exists. exists k. destruct (select_one_Some _ _ _ Hrow) as [Hin Hc]. split; [done|].
    unfold bound_to_run, is_card, of_run. cbn. by rewrite Hb, !String.eqb_refl, Z.eqb_refl. }
  cbn [negb]. destruct (sql_incr _) as [id|]; [|done].
  cbn [modify ret fst snd]. split; [|split; [|split; [done|split; [done|]]]].
  - unfold card_row. cbn [on_cards on_tables sh_cards]. rewrite select_one_update_where by done. fold (card_row sh). rewrite Hrow.
    destruct (select_one_Some _ _ _ Hrow) as [_ Hc]. cbn [fmap option_fmap option_map]. fold card. by rewrite Hc.
  - unfold queued_rows. cbn. rewrite omap_app. f_equal. unfold own_report. cbn.
    change (cb_card_id b +:+ ":" +:+ tag st +:+ ":" +:+ decimal q) with (sr_report_id (stamp b st q report)).
    rewrite card_of_report by done. fold card. rewrite String.eqb_refl. done.
  - etransitivity; [by apply binding_of_updated|done].
Qed.

(** What was above the marks [lo] when the pass began and is not above them any
    more is queued, as the columns that were read have it. *)
Definition progress (cols : option string * option string) (lo : ReportStream -> Z) (k : CardRow) (board : Board)
    (sh : Shared) : Prop :=
  forall stream seq report, row_reports board (fst cols) (snd cols) stream seq report ->
    0 < seq -> lo stream < seq <= mark stream k -> queued_as sh stream seq report.

(** The next report of a pass is the next row. *)
Lemma pending_first cols top st q r found k board st' q' r' :
  pending cols top ((st, q, r) :: found) k board -> row_reports board (fst cols) (snd cols) st' q' r' ->
  mark st' k < q' -> q' <= mark st' (with_mark st q k) -> st' = st /\ q' = q /\ r' = r.
Proof.
  intros Hp Hs Hlo Hle. pose proof (pd_rising _ _ _ _ _ Hp) as [[Hq Htop] Hr]. unfold marks in Hq.
  pose proof (marks_with_mark st q k Hq st') as Hm. unfold marks, raised in Hm. rewrite Hm in Hle.
  destruct (decide (st' = st)) as [->|]; [|lia].
  destruct (pd_all _ _ _ _ _ Hp st q' r' Hs ltac:(lia)) as [[= -> ->]|Hin]; [done|].
  pose proof (rising_above _ _ _ _ _ _ Hr Hin) as Ha. unfold raised in Ha. destruct (decide (st = st)); [lia|done].
Qed.

Lemma enqueue_delivers sh k board cols top lo st q report found now :
  delivering sh k board -> pending cols top ((st, q, report) :: found) k board -> progress cols lo k board sh ->
  match enqueue_report (stamp b st q report) st q now sh with
  | (Ok _, sh') => exists k', delivering sh' k' board /\ pending cols top found k' board /\ progress cols lo k' board sh'
  | (Err _, sh') => sh' = sh
  end.
Proof.
  intros Hd Hp Hg. pose proof (enqueue_outcome sh k st q report now (dl_row _ _ _ Hd) (dl_bound _ _ _ Hd)) as Ho.
  destruct (enqueue_report _ _ _ _ _) as [[id|e] sh']; [|done]. destruct Ho as (Hrow & Hq & Hbd & Hhm & Hrn).
  exists (with_mark st q k). pose proof (pd_rising _ _ _ _ _ Hp) as [[Hlo Htop] _].
  unfold marks in Hlo. pose proof (marks_with_mark st q k Hlo) as Hm. unfold marks, raised in Hm.
  assert (queued_ids sh' = queued_ids sh ++ [report_id card st q]) as Hids by (unfold queued_ids; by rewrite Hq, map_app).
  assert (forall st' q', queued sh' st' q' <-> queued sh st' q' \/ (st' = st /\ q' = q)) as Hiff.
  { intros st' q'. unfold queued. rewrite Hids, in_app_iff. split; [|intros [|[-> ->]]; [by left|right; by left]].
    intros [|[E|[]]]; [by left|]. apply report_id_inj in E as [-> ->]. by right. }
  split; [|split; [by eapply pending_next|]].
  - split; try done.
    + rewrite Hhm. apply Hd.
    + rewrite Hrn. apply Hd.
    + exact (dl_bound _ _ _ Hd).
    + rewrite Hbd. apply Hd.
    + apply Hd.
    + intros st' q' Hs Hpos Hle. apply Hiff.
      destruct (Z.le_gt_cases q' (mark st' k)) as [|Hgt]; [left; by eapply dl_done|]. right.
      destruct (Hs (fst cols) (snd cols)) as [r' Hr'].
      destruct (pending_first _ _ _ _ _ _ _ _ st' q' r' Hp Hr' ltac:(lia) Hle) as (? & ? & ?). done.
    + intros st' q' [Hs|[-> ->]]%Hiff; rewrite Hm.
      * pose proof (dl_marked _ _ _ Hd st' q' Hs). destruct (decide _) as [->|]; lia.
      * rewrite decide_True by done. lia.
    + rewrite Hids. apply list.NoDup_app. split; [apply Hd|]. split; [|apply NoDup_singleton].
      intros x Hx ->%list_elem_of_singleton. apply list_elem_of_In in Hx.
      pose proof (dl_marked _ _ _ Hd st q Hx). lia.
    + intros st'. rewrite Hm. pose proof (dl_below _ _ _ Hd st'). pose proof (dl_below _ _ _ Hd st).
      pose proof (pd_top _ _ _ _ _ Hp st). destruct (decide _) as [->|]; lia.
  - intros st' q' r' Hs Hpos Hle. unfold queued_as. rewrite Hq, in_app_iff.
    destruct (Z.le_gt_cases q' (mark st' k)) as [|Hgt]; [left; apply Hg; [done|done|lia]|]. right. left.
    destruct (pending_first _ _ _ _ _ _ _ _ st' q' r' Hp Hs ltac:(lia) ltac:(lia)) as (-> & -> & ->). done.
Qed.

(** *** Reading *)

Definition seqs (found : list Found) : list Z := List.map (fun f => snd (fst f)) found.
Definition within (stream : ReportStream) (lo top : Z) (found : list Found) : Prop :=
  Forall (fun f => fst (fst f) = stream /\ lo < snd (fst f) <= top) found /\ StronglySorted Z.lt (seqs found).

Lemma within_rising stream top lo found :
  within stream (lo stream) (top stream) found -> rising top lo found.
Proof.
  intros [Hall Hs]. revert lo Hall. induction found as [|[[st q] r] found IH]; intros lo Hall; cbn [rising]; [done|].
  pose proof (Forall_inv Hall) as [Hst Hq]. pose proof (Forall_inv_tail Hall) as Hall'. cbn in Hst, Hq. subst st. split; [done|]. apply StronglySorted_inv in Hs as [Hs' Hlt].
  apply IH; [done|]. rewrite List.Forall_forall in Hall' |- *. intros [[st' q'] r'] Hin. destruct (Hall' _ Hin) as [E Hq']. cbn in *.
  split; [done|]. unfold raised. rewrite decide_True by done. rewrite List.Forall_forall in Hlt.
  assert (q < q'); [|lia]. apply Hlt. unfold seqs. apply in_map_iff. exists (st', q', r'). split; [done|]. exact Hin.
Qed.
Lemma rising_streams top lo es cs :
  within Event (lo Event) (top Event) es -> within Comment (lo Comment) (top Comment) cs -> rising top lo (es ++ cs).
Proof.
  intros [Hall Hs] Hc. revert lo Hall Hc. induction es as [|[[st q] r] es IH]; intros lo Hall Hc; cbn [rising app];
    [by apply (within_rising Comment)|].
  pose proof (Forall_inv Hall) as [Hst Hq]. pose proof (Forall_inv_tail Hall) as Hall'. cbn in Hst, Hq. subst st. split; [done|]. apply StronglySorted_inv in Hs as [Hs' Hlt].
  apply IH; [done| |done]. rewrite List.Forall_forall in Hall' |- *. intros [[st' q'] r'] Hin. destruct (Hall' _ Hin) as [E Hq']. cbn in *.
  split; [done|]. unfold raised. rewrite decide_True by done. rewrite List.Forall_forall in Hlt.
  assert (q < q'); [|lia]. apply Hlt. unfold seqs. apply in_map_iff. exists (st', q', r'). split; [done|]. exact Hin.
Qed.

Lemma within_cons stream lo top q r found :
  lo < q <= top -> within stream q top found -> within stream lo top ((stream, q, r) :: found).
Proof.
  intros Hq [Hall Hs]. split.
  - constructor; [done|]. eapply List.Forall_impl; [|exact Hall]. intros [[st' q'] r'] [E' H']; cbn in *; split; [done|lia].
  - cbn. constructor; [done|]. apply List.Forall_forall. intros x Hx. unfold seqs in Hx. apply in_map_iff in Hx as (f & <- & Hf).
    rewrite List.Forall_forall in Hall. specialize (Hall _ Hf). lia.
Qed.
Lemma within_weaken stream lo lo' top found : lo' <= lo -> within stream lo top found -> within stream lo' top found.
Proof. intros Hle [Hall Hs]. split; [|done]. eapply List.Forall_impl; [|exact Hall]. intros [[st' q'] r'] [E' H']; cbn in *; split; [done|lia]. Qed.
Lemma within_nil stream lo top : within stream lo top [].
Proof. split; constructor. Qed.

Lemma read_events_spec rows result block_kind lo cursor found last :
  read_events rows result block_kind cursor = Ok (found, last) ->
  StronglySorted (fun x y => ev_id x < ev_id y) rows -> (forall ev, In ev rows -> lo < ev_id ev) ->
  cursor <= last /\ (last = cursor \/ In last (List.map ev_id rows)) /\ (forall ev, In ev rows -> ev_id ev <= last)
  /\ within Event lo last found
  /\ forall ev kind payload, In ev rows -> ev_kind ev = CText kind -> opt_text (ev_payload ev) = Ok payload ->
       forall report, report_for_event kind payload result block_kind = Some report -> In (Event, ev_id ev, report) found.
Proof.
  revert lo cursor found last. induction rows as [|ev rows IH]; intros lo cursor found last; cbn [read_events].
  { intros [= <- <-] _ _. split; [lia|]. split; [by left|]. split; [by intros ev []|]. split; [apply within_nil|]. by intros ev k p []. }
  intros E Hs Hlo. destruct (text_of_cell (ev_kind ev)) as [kind|] eqn:Ek; [|done].
  destruct (opt_text (ev_payload ev)) as [payload|] eqn:Ep; [|done].
  destruct (read_events rows result block_kind _) as [[fs l]|] eqn:Er; [|done]. injection E as <- <-.
  apply StronglySorted_inv in Hs as [Hs' Hall]. rewrite List.Forall_forall in Hall.
  destruct (IH (ev_id ev) _ _ _ Er Hs' Hall) as (Hc & Hl & Hle & Hw & Hsp). pose proof (Hlo ev (or_introl eq_refl)) as Hev.
  assert (ev_kind ev = CText kind) as Ek' by (destruct (ev_kind ev); cbn in Ek; congruence).
  split; [lia|]. split; [cbn; destruct Hl as [->|Hl]; [|by auto]; destruct (Z.max_spec cursor (ev_id ev)) as [[_ ->]|[_ ->]]; auto|].
  split; [intros ev' [<-|Hin]; [lia|by apply Hle]|].
  assert (within Event lo l fs) as Hw' by (by eapply within_weaken; [|exact Hw]; lia).
  split; [destruct (report_for_event _ _ _ _); [apply within_cons; [lia|done]|done]|].
  intros ev' kind' payload' [<-|Hin] Hk Hp r' Hr.
  - assert (kind' = kind) as -> by congruence. assert (payload' = payload) as -> by congruence.
    rewrite Hr. by left.
  - specialize (Hsp ev' kind' payload' Hin Hk Hp r' Hr). destruct (report_for_event kind payload _ _); [by right|done].
Qed.
Lemma read_comments_spec rows lo cursor found last :
  read_comments rows cursor = Ok (found, last) ->
  StronglySorted (fun x y => co_id x < co_id y) rows -> (forall co, In co rows -> lo < co_id co) ->
  cursor <= last /\ (last = cursor \/ In last (List.map co_id rows)) /\ (forall co, In co rows -> co_id co <= last)
  /\ within Comment lo last found
  /\ forall co body, In co rows -> co_body co = CText body -> trimmed body <> ""%string ->
       In (Comment, co_id co, Note body) found.
Proof.
  revert lo cursor found last. induction rows as [|co rows IH]; intros lo cursor found last; cbn [read_comments].
  { intros [= <- <-] _ _. split; [lia|]. split; [by left|]. split; [by intros co []|]. split; [apply within_nil|]. by intros co b' []. }
  intros E Hs Hlo. destruct (text_of_cell (co_body co)) as [body|] eqn:Ek; [|done].
  destruct (read_comments rows _) as [[fs l]|] eqn:Er; [|done]. injection E as <- <-.
  apply StronglySorted_inv in Hs as [Hs' Hall]. rewrite List.Forall_forall in Hall.
  destruct (IH (co_id co) _ _ _ Er Hs' Hall) as (Hc & Hl & Hle & Hw & Hsp). pose proof (Hlo co (or_introl eq_refl)) as Hev.
  assert (co_body co = CText body) as Ek' by (destruct (co_body co); cbn in Ek; congruence).
  split; [lia|]. split; [cbn; destruct Hl as [->|Hl]; [|by auto]; destruct (Z.max_spec cursor (co_id co)) as [[_ ->]|[_ ->]]; auto|].
  split; [intros co' [<-|Hin]; [lia|by apply Hle]|].
  assert (within Comment lo l fs) as Hw' by (by eapply within_weaken; [|exact Hw]; lia).
  split; [destruct (_ =? _)%string; [done|apply within_cons; [lia|done]]|].
  intros co' body' [<-|Hin] Hk Hb.
  - assert (body' = body) as -> by congruence. destruct (String.eqb_spec (trimmed body) ""); [done|by left].
  - specialize (Hsp co' body' Hin Hk Hb). destruct (_ =? _)%string; [done|by right].
Qed.

(** *** A pass *)

Lemma pending_others cols top found k old new :
  pending cols top found k old -> extends old new -> (forall st, 0 <= mark st k) -> pending cols top found k new.
Proof.
  intros [Hr Hall Ht] He Hpos. split; [done| |].
  - intros st q r Hs Hq. destruct (ex_new _ _ He _ _ st q r Hs) as [Hold|Hlt]; [auto|]. specialize (Ht st). specialize (Hpos st). lia.
  - intros st. specialize (Ht st). pose proof (ex_last _ _ He st). lia.
Qed.
Lemma pending_start cols k board :
  (forall st, mark st k <= Z.max 0 (last_id board st)) -> pending cols (marks k) [] k board.
Proof. intros Hb. split; [done| |done]. intros st q r _ Hq. unfold marks in Hq. lia. Qed.

Lemma strictly_sorted {R} (key : R -> Z) (p : R -> bool) rows :
  NoDup (List.map key rows) ->
  StronglySorted (fun x y => key x < key y) (order_by (fun x y => key x <=? key y) (select p rows)).
Proof.
  intros Hnd. assert (NoDup (List.map key (order_by (fun x y => key x <=? key y) (select p rows)))) as Hn.
  { rewrite (Permutation_map key (order_by_perm (fun x y => key x <=? key y) (select p rows))). clear -Hnd. unfold select. induction rows as [|x rows IH]; cbn in *; [constructor|]. inversion Hnd as [|? ? Hx Hr]; subst.
    destruct (p x); [|auto]. cbn. constructor; [|auto]. rewrite list_elem_of_In, in_map_iff in *.
    intros (y & E & Hy). apply Hx. exists y. by apply filter_In in Hy as [Hy _]. }
  pose proof (order_by_sorted (fun x y => key x <=? key y) (select p rows)) as Hs.
  specialize (Hs ltac:(intros x y; rewrite !Z.leb_le; lia) ltac:(intros x y z; rewrite !Z.leb_le; lia)). revert Hn. generalize dependent (order_by (fun x y => key x <=? key y) (select p rows)).
  intros l Hs. induction Hs as [|x l Hs IH Hall]; intros Hn; [constructor|]. cbn in Hn. inversion Hn as [|? ? Hx Hr]; subst.
  constructor; [auto|]. rewrite List.Forall_forall in Hall |- *. intros y Hy. specialize (Hall y Hy). apply Z.leb_le in Hall.
  assert (key x <> key y); [|lia]. intros E. apply Hx. rewrite E. by apply list_elem_of_In, in_map.
Qed.

(** The board as it was when the pass began, and the marks. *)
Context (start : Board) (k0 : CardRow).
Definition covers (top : ReportStream -> Z) (st : ReportStream) : Prop :=
  forall result block_kind q report, row_reports start result block_kind st q report -> 0 < q -> q <= top st.

Lemma read_events_pending k board result block_kind found last :
  numbered board -> extends start board -> (forall st, 0 <= mark st k <= Z.max 0 (last_id board st)) ->
  read_events (order_by (fun x y => ev_id x <=? ev_id y)
    (select (fun ev => (ev_task_id ev =? card)%string && (k_forwarded_event_seq k <? ev_id ev)) (board_events board)))
    result block_kind (k_forwarded_event_seq k) = Ok (found, last) ->
  within Event (mark Event k) last found /\ mark Event k <= last
  /\ pending (result, block_kind) (raised (marks k) Event last) found k board /\ covers (raised (marks k) Event last) Event.
Proof.
  intros Hn Hk Hm Er. set (rows := order_by _ _) in Er.
  assert (forall ev, In ev rows <-> In ev (board_events board) /\ ev_task_id ev = card /\ mark Event k < ev_id ev) as Hrows.
  { intros ev. unfold rows. rewrite In_order_by, In_select, andb_true_iff, String.eqb_eq, Z.ltb_lt. done. }
  destruct (read_events_spec rows result block_kind (mark Event k) _ _ _ Er) as (Hc & Hl & Hle & Hw & Hsp).
  { apply (strictly_sorted ev_id). apply (nb_unique _ Hn Event). }
  { by intros ev (_ & _ & Hlt)%Hrows. }
  split; [done|]. split; [done|].
  assert (forall st, raised (marks k) Event last st <= Z.max 0 (last_id board st)) as Htop.
  { intros st. unfold raised. pose proof (Hm st) as Hst. destruct (decide (st = Event)) as [->|]; [|unfold marks; lia].
    destruct Hl as [->|Hl]; [unfold mark in Hst; lia|]. apply in_map_iff in Hl as (ev & <- & Hin%Hrows).
    pose proof (nb_last _ Hn Event (ev_id ev) (in_map _ _ _ (proj1 Hin))). lia. }
  split; [split; [|..|done]|].
  - apply (within_rising Event). exact Hw.
  - intros st q r Hs Hq. unfold raised in Hq. destruct (decide (st = Event)) as [->|]; [|unfold marks in Hq; lia].
    destruct Hs as (ev & kind & payload & Hin & Ht & <- & Hkd & Hp & Hsay).
    apply (Hsp ev kind payload); [|done..]. apply Hrows. split; [done|]. split; [done|lia].
  - intros res bk q r Hs%(ex_kept _ _ Hk) Hq. unfold raised. rewrite decide_True by done.
    destruct Hs as (ev & kind & payload & Hin & Ht & <- & _).
    change (k_forwarded_event_seq k) with (mark Event k) in Hc.
    destruct (Z.le_gt_cases (ev_id ev) (mark Event k)); [lia|]. apply Hle, Hrows. split; [done|]. split; [done|lia].
Qed.

Lemma read_comments_pending cols k board last_event es found last :
  numbered board -> extends start board -> (forall st, 0 <= mark st k <= Z.max 0 (last_id board st)) ->
  within Event (mark Event k) last_event es -> pending cols (raised (marks k) Event last_event) es k board ->
  read_comments (order_by (fun x y => co_id x <=? co_id y)
    (select (fun co => (co_task_id co =? card)%string && (k_forwarded_comment_seq k <? co_id co)) (board_comments board)))
    (k_forwarded_comment_seq k) = Ok (found, last) ->
  let top := raised (raised (marks k) Event last_event) Comment last in
  mark Comment k <= last /\ pending cols top (es ++ found) k board /\ covers top Comment.
Proof.
  intros Hn Hk Hm Hwe Hp Er top. set (rows := order_by _ _) in Er.
  assert (forall co, In co rows <-> In co (board_comments board) /\ co_task_id co = card /\ mark Comment k < co_id co) as Hrows.
  { intros co. unfold rows. rewrite In_order_by, In_select, andb_true_iff, String.eqb_eq, Z.ltb_lt. done. }
  destruct (read_comments_spec rows (mark Comment k) _ _ _ Er) as (Hc & Hl & Hle & Hw & Hsp).
  { apply (strictly_sorted co_id). apply (nb_unique _ Hn Comment). }
  { by intros co (_ & _ & Hlt)%Hrows. }
  split; [done|].
  assert (forall st, top st <= Z.max 0 (last_id board st)) as Htop.
  { intros st. unfold top, raised at 1. destruct (decide (st = Comment)) as [->|]; [|apply (pd_top _ _ _ _ _ Hp)].
    pose proof (Hm Comment) as Hst. destruct Hl as [->|Hl]; [unfold mark in Hst; lia|].
    apply in_map_iff in Hl as (co & <- & Hin%Hrows).
    pose proof (nb_last _ Hn Comment (co_id co) (in_map _ _ _ (proj1 Hin))). lia. }
  split; [split; [|..|done]|].
  - by apply rising_streams.
  - intros st q r Hs Hq. rewrite in_app_iff. unfold top, raised at 1 in Hq.
    destruct (decide (st = Comment)) as [->|]; [right|left; by apply (pd_all _ _ _ _ _ Hp)].
    destruct Hs as (co & body & Hin & Ht & <- & Hkd & Hb & ->). apply (Hsp co body); [|done..].
    apply Hrows. split; [done|]. split; [done|lia].
  - intros res bk q r Hs%(ex_kept _ _ Hk) Hq. unfold top, raised at 1. rewrite decide_True by done.
    destruct Hs as (co & body & Hin & Ht & <- & _).
    change (k_forwarded_comment_seq k) with (mark Comment k) in Hc.
    destruct (Z.le_gt_cases (co_id co) (mark Comment k)); [lia|]. apply Hle, Hrows. split; [done|]. split; [done|lia].
Qed.

Definition fairly (w : World) : Prop :=
  List.Forall (fun c => match c with Proceed others => fair others | _ => True end) (chances w).
(** The card with its row [k], on a board that still has what it had, with
    [found] to be queued. *)
Definition at_work (cols : option string * option string) (top : ReportStream -> Z) (found : list Found)
    (k : CardRow) (sh : Shared) : Prop :=
  exists board, delivering sh k board /\ extends start board /\ pending cols top found k board
    /\ progress cols (marks k0) k board sh.
Definition sound (sh : Shared) : Prop := exists k board, delivering sh k board /\ extends start board.

Lemma at_work_sound cols top found k sh : at_work cols top found k sh -> sound sh.
Proof. intros (board & Hd & Hk & _). by exists k, board. Qed.
Lemma at_work_others cols top found k others sh :
  fair others -> at_work cols top found k sh -> at_work cols top found k (others sh).
Proof.
  intros Hf (board & Hd & Hk & Hp & Hg). destruct (delivering_others others sh k board Hf Hd) as (board' & Hd' & He).
  exists board'. split; [done|]. split; [by eapply extends_trans|]. split.
  - eapply pending_others; [done..|]. intros st. pose proof (dl_below _ _ _ Hd st). lia.
  - intros st q r Hs Hpos Hq. unfold queued_as. rewrite (fair_reports _ Hf). apply Hg; [|done..].
    destruct (ex_new _ _ He _ _ _ _ _ Hs) as [|Hlt]; [done|].
    pose proof (dl_below _ _ _ Hd st). pose proof (dl_below _ _ _ Hd' st). lia.
Qed.
(** Before anything is queued, the columns do not matter. *)
Lemma at_work_start cols cols' sh : at_work cols (marks k0) [] k0 sh -> at_work cols' (marks k0) [] k0 sh.
Proof.
  intros (board & Hd & Hk & _). exists board. split; [done|]. split; [done|]. split.
  - apply pending_start. intros st. apply (dl_below _ _ _ Hd).
  - intros st q r _ _ Hq. unfold marks in Hq. lia.
Qed.

(** From [P] the program keeps the card's bookkeeping sound wherever it ends,
    and establishes [Q] when it returns. *)
Definition passes {A} (P : Shared -> Prop) (m : Act A) (Q : A -> Shared -> Prop) : Prop :=
  forall w, fairly w -> P (shared w) ->
    let (r, w') := m w in fairly w' /\ sound (shared w') /\ match r with Ok a => Q a (shared w') | Err _ => True end.

Lemma passes_ret {A} (P : Shared -> Prop) (a : A) Q :
  (forall sh, P sh -> sound sh) -> (forall sh, P sh -> Q a sh) -> passes P (ret a) Q.
Proof. intros Hs HQ w Hw HP. split; [done|]. auto. Qed.
Lemma passes_bind {A B} P (m : Act A) (f : A -> Act B) R Q :
  passes P m R -> (forall a, passes (R a) (f a) Q) -> passes P (bind m f) Q.
Proof.
  intros Hm Hf w Hw HP. specialize (Hm w Hw HP). unfold bind. destruct (m w) as [[a|e] w1]; [|done].
  destruct Hm as (Hw1 & _ & HR). by apply Hf.
Qed.
Lemma passes_lift {A} (P : Shared -> Prop) (r : Result DeskError A) Q :
  (forall sh, P sh -> sound sh) -> (forall a sh, r = Ok a -> P sh -> Q a sh) -> passes P (lift r) Q.
Proof. intros Hs HQ w Hw HP. split; [done|]. split; [auto|]. cbn. destruct r; auto. Qed.
Lemma passes_pre {A} (P : Shared -> Prop) (X : Prop) P' (m : Act A) Q :
  (forall sh, P sh -> X /\ P' sh) -> (X -> passes P' m Q) -> passes P m Q.
Proof. intros Hp Hm w Hw HP. apply Hp in HP as [Hx HP']. by apply (Hm Hx). Qed.
Lemma passes_step {A} cols top found k (m : M DeskError Shared A) Q :
  (forall sh, at_work cols top found k sh ->
     match m sh with (Ok a, sh') => sound sh' /\ Q a sh' | (Err _, sh') => sound sh' end) ->
  passes (at_work cols top found k) (step m) Q.
Proof.
  intros Hm w Hw HP. unfold step. destruct w as [sh cs]. cbn [shared chances] in *. destruct cs as [|[others| |] cs].
  - specialize (Hm sh HP). cbn in *. destruct (m sh) as [[a|e] sh']; (split; [done|]); cbn; [by destruct Hm|done].
  - inversion Hw as [|? ? Hf Hw']; subst. specialize (Hm _ (at_work_others _ _ _ _ _ _ Hf HP)).
    destruct (m (others sh)) as [[a|e] sh']; (split; [done|]); cbn; [by destruct Hm|done].
  - inversion Hw as [|? ? _ Hw']; subst. split; [done|]. split; [by eapply at_work_sound|done].
  - inversion Hw as [|? ? _ Hw']; subst. split; [done|]. split; [by eapply at_work_sound|done].
Qed.
Lemma passes_look {A} cols top found k (f : Shared -> Result DeskError A) (T : A -> Shared -> Prop) :
  (forall sh a, at_work cols top found k sh -> f sh = Ok a -> T a sh) ->
  passes (at_work cols top found k) (step (query f)) (fun a sh => at_work cols top found k sh /\ T a sh).
Proof.
  intros HT. apply passes_step. intros sh Hs. unfold query. destruct (f sh) as [a|e] eqn:E; [|by eapply at_work_sound].
  split; [by eapply at_work_sound|]. auto.
Qed.

Lemma queue_passes found cols top k now :
  passes (at_work cols top found k) (queue_reports b now found) (fun _ sh => exists k', at_work cols top [] k' sh).
Proof.
  revert k. induction found as [|[[st q] r] found IH]; intros k; cbn [queue_reports].
  { apply passes_ret; [apply at_work_sound|eauto]. }
  apply passes_bind with (R := fun _ sh => exists k', at_work cols top found k' sh).
  { apply passes_step. intros sh (board & Hd & Hk & Hp & Hg).
    pose proof (enqueue_delivers sh k board cols top _ st q r found now Hd Hp Hg) as He.
    destruct (enqueue_report _ _ _ _ sh) as [[id|e] sh'].
    - destruct He as (k' & Hd' & Hp' & Hg'). split; [by exists k', board|]. exists k', board. auto.
    - subst sh'. by exists k, board. }
  intros _ w Hw [k' Hk']. specialize (IH k' w Hw Hk'). unfold bind.
  by destruct (queue_reports b now found w) as [[n|e] w'].
Qed.

(** Stepping the cursors to the end of the pass. *)
Lemma advance_delivers cols top k sh :
  at_work cols top [] k sh ->
  let sh' := snd (advance_marks card (top Event) (top Comment) sh) in
  let k' := with_marks (top Event) (top Comment) k in
  exists board, delivering sh' k' board /\ extends start board /\ progress cols (marks k0) k' board sh'.
Proof.
  intros (board & Hd & Hk & Hp & Hg) sh' k'. exists board.
  assert (forall st, mark st k' = Z.max (mark st k) (top st)) as Hm by by intros [].
  assert (forall st q, queued sh' st q <-> queued sh st q) as Hq by done.
  assert (forall st q r, row_reports board (fst cols) (snd cols) st q r -> q <= mark st k' -> q <= mark st k) as Hmk.
  { intros st q r Hs Hle. rewrite Hm in Hle. destruct (Z.le_gt_cases q (mark st k)); [done|].
    destruct (pd_all _ _ _ _ _ Hp st q r Hs ltac:(lia)). }
  split; [|split; [done|]].
  - split; try apply Hd.
    + rewrite <- (dl_run _ _ _ Hd). by apply binding_of_updated.
    + unfold card_row, sh', advance_marks, modify. cbn [snd on_cards sh_cards]. rewrite select_one_update_where by done.
      pose proof (dl_row _ _ _ Hd) as Hrow. unfold card_row in Hrow. rewrite Hrow.
      destruct (select_one_Some _ _ _ Hrow) as [_ Hc]. cbn [fmap option_fmap option_map]. by rewrite Hc.
    + intros st q Hs Hpos Hle. apply Hq. destruct (Hs (fst cols) (snd cols)) as [r Hr].
      eapply dl_done; [exact Hd|done..|]. by eapply Hmk.
    + intros st q Hs%Hq. rewrite Hm. pose proof (dl_marked _ _ _ Hd st q Hs). lia.
    + intros st. rewrite Hm. pose proof (dl_below _ _ _ Hd st). pose proof (pd_top _ _ _ _ _ Hp st). lia.
  - intros st q r Hs Hpos Hle. change (queued_as sh st q r). apply Hg; [done|done|]. split; [lia|]. by eapply Hmk; [|apply Hle].
Qed.

(** What a pass has to have queued: whatever the board reported when it began, in
    the words of the columns the card had then or later. *)
Definition all_queued (sh : Shared) : Prop :=
  forall result block_kind, columns start result block_kind ->
  forall st q report, row_reports start result block_kind st q report -> 0 < q -> mark st k0 < q ->
    exists board result' block_kind' report', extends start board /\ columns board result' block_kind'
      /\ row_reports start result' block_kind' st q report' /\ queued_as sh st q report'.

Lemma columns_of_card board sh c res bk :
  sh_boards sh !! path = Some board -> extends start board -> columns start res bk -> card_columns path card sh = Ok c ->
  exists res' bk', c = Some (res', bk') /\ columns board res' bk'.
Proof.
  intros Hb He (tasks0 & t0 & H1 & H2 & _). destruct (ex_card _ _ He) as (tasks & t & Ht & Hs); [by exists tasks0, t0|].
  unfold card_columns, board_at. rewrite Hb. cbn. rewrite Ht, Hs.
  destruct (text_of_cell _), (opt_text (t_result t)) as [res'|] eqn:E1, (opt_text (t_block_kind t)) as [bk'|] eqn:E2; try done.
  intros [= <-]. exists res', bk'. split; [done|]. by exists tasks, t.
Qed.

(** The columns that were read are those of the card at the beginning or later. *)
Definition read_columns (cols : option string * option string) : Prop :=
  forall result block_kind, columns start result block_kind ->
    exists board, extends start board /\ columns board (fst cols) (snd cols).

Lemma read_board_passes :
  passes (at_work (None, None) (marks k0) [] k0) (read_board path card (mark Event k0) (mark Comment k0))
    (fun pass sh => exists cols top, bp_event_cursor pass = top Event /\ bp_comment_cursor pass = top Comment
       /\ at_work cols top (bp_reports pass) k0 sh
       /\ ((exists result block_kind, columns start result block_kind) -> read_columns cols /\ forall st, covers top st)).
Proof.
  pose proof (at_work_sound (None, None) (marks k0) [] k0) as Hsound. unfold read_board. eapply passes_bind.
  { apply passes_look with (T := fun c _ => forall res bk, columns start res bk ->
      exists cols, c = Some cols /\ read_columns cols).
    intros sh c (board & Hd & Hk & _) Hcol res bk Hs.
    destruct (columns_of_card board sh c res bk (dl_board _ _ _ Hd) Hk Hs Hcol) as (res' & bk' & -> & Hc).
    exists (res', bk'). split; [done|]. intros ? ? _. by exists board. }
  intros [[res bk]|].
  2: { apply passes_ret; [by intros sh [Hs _]; apply Hsound|]. intros sh [Hs Hc]. exists (None, None), (marks k0). cbn.
       split; [done|]. split; [done|]. split; [done|]. intros (res & bk & Hh). by destruct (Hc _ _ Hh) as (? & ? & _). }
  set (cols := (res, bk)).
  set (rd := (exists result block_kind, columns start result block_kind) -> read_columns cols).
  eapply passes_bind with (R := fun events sh => rd /\ at_work cols (marks k0) [] k0 sh /\ forall es last,
        read_events events res bk (mark Event k0) = Ok (es, last) ->
        at_work cols (raised (marks k0) Event last) es k0 sh /\ within Event (mark Event k0) last es
        /\ mark Event k0 <= last /\ covers (raised (marks k0) Event last) Event).
  { apply passes_pre with (X := rd) (P' := at_work cols (marks k0) [] k0).
    { intros sh [Hs Hrd]. split; [|by apply (at_work_start (None, None))].
      intros (r' & b' & Hc). destruct (Hrd _ _ Hc) as (cols' & [= <-] & H'). exact H'. }
    intros Hr. apply passes_step.
    intros sh Hs. unfold query. destruct (events_after _ _ _ sh) as [events|e] eqn:Hev; [|by eapply at_work_sound].
    split; [by eapply at_work_sound|]. split; [done|]. split; [done|]. destruct Hs as (board & Hd & Hk & _ & Hg).
    intros es last Er. unfold events_after, board_at in Hev.
    rewrite (dl_board _ _ _ Hd) in Hev. injection Hev as <-.
    destruct (read_events_pending k0 board res bk es last (dl_numbered _ _ _ Hd) Hk (dl_below _ _ _ Hd) Er) as (Hw & Hle & Hp & Hcv).
    split; [by exists board|]. done. }
  intros events. eapply passes_bind with (R := fun r sh => let '(es, last) := r in
    rd /\ at_work cols (raised (marks k0) Event last) es k0 sh /\ within Event (mark Event k0) last es
    /\ mark Event k0 <= last /\ covers (raised (marks k0) Event last) Event).
  { apply passes_lift; [by intros sh (_ & Hs & _); eapply at_work_sound|]. intros [es last] sh Er (Hr & _ & Hs).
    split; [done|]. by apply Hs. }
  intros [es event_cursor].
  eapply passes_bind with (R := fun comments sh => rd /\ at_work cols (raised (marks k0) Event event_cursor) es k0 sh
    /\ forall cs last, read_comments comments (mark Comment k0) = Ok (cs, last) ->
      let top := raised (raised (marks k0) Event event_cursor) Comment last in
      at_work cols top (es ++ cs) k0 sh /\ covers top Comment /\ covers top Event).
  { apply passes_pre with (X := rd /\ within Event (mark Event k0) event_cursor es
        /\ covers (raised (marks k0) Event event_cursor) Event)
      (P' := at_work cols (raised (marks k0) Event event_cursor) es k0).
    { by intros sh (Hr & Hs & Hwi & _ & Hcv). }
    intros (Hr & Hwi & Hcv). apply passes_step.
    intros sh Hs. unfold query. destruct (comments_after _ _ _ sh) as [comments|e] eqn:Hev; [|by eapply at_work_sound].
    split; [by eapply at_work_sound|]. split; [done|]. split; [done|]. destruct Hs as (board & Hd & Hk & Hp & Hg).
    intros cs last Er. unfold comments_after, board_at in Hev. rewrite (dl_board _ _ _ Hd) in Hev. injection Hev as <-.
    destruct (read_comments_pending cols k0 board event_cursor es cs last (dl_numbered _ _ _ Hd) Hk (dl_below _ _ _ Hd) Hwi Hp Er)
      as (_ & Hp' & Hcv').
    split; [by exists board|]. split; [done|]. intros r' b' q r Hs Hq. by apply (Hcv r' b' q r). }
  intros comments. eapply passes_bind with (R := fun r sh => let '(cs, last) := r in
    let top := raised (raised (marks k0) Event event_cursor) Comment last in
    rd /\ at_work cols top (es ++ cs) k0 sh /\ covers top Comment /\ covers top Event).
  { apply passes_lift; [by intros sh (_ & Hs & _); eapply at_work_sound|]. intros [cs last] sh Er (Hr & _ & Hs).
    split; [done|]. by apply Hs. }
  intros [cs comment_cursor]. apply passes_ret; [by intros sh (_ & Hs & _); eapply at_work_sound|].
  intros sh (Hr & Hs & Hc1 & Hc2). exists cols. eexists. split; [|split; [|split; [exact Hs|]]]; [done..|].
  intros Hcol. split; [by apply Hr|]. by intros [].
Qed.

Lemma drain_passes now :
  passes (at_work (None, None) (marks k0) [] k0) (drain_card path b (mark Event k0) (mark Comment k0) now)
    (fun _ => all_queued).
Proof.
  unfold drain_card. fold card. eapply passes_bind; [apply read_board_passes|].
  intros pass w Hw (cols & top & Ee & Ec & Hs & Hcv). revert w Hw Hs. rewrite Ee, Ec.
  eapply passes_bind; [apply queue_passes|]. intros n w Hw [k' Hk']. revert w Hw Hk'.
  apply passes_bind with (R := fun _ sh => sound sh /\ all_queued sh).
  2: { intros _. apply passes_ret; by intros sh [Hso Hq]. }
  apply passes_step. intros sh Hs. pose proof (advance_delivers cols top k' sh Hs) as (board & Hd & Hk & Hg).
  cbn [advance_marks modify fst snd] in *.
  assert (sound (on_cards (update_where (is_card card) (with_marks (top Event) (top Comment))) sh)) as Hso by (by eexists _, board).
  split; [done|]. split; [done|]. intros res bk Hc st q r Hr Hpos Hlo.
  destruct Hcv as [Hrd Hcov]; [by exists res, bk|]. destruct (Hrd res bk Hc) as (board' & He' & Hc').
  destruct (columns_later start board' res bk (fst cols) (snd cols) st q r He' Hc Hc' Hr) as [r' Hr'].
  exists board', (fst cols), (snd cols), r'. split; [done|]. split; [done|]. split; [done|].
  apply Hg; [by apply (ex_kept _ _ Hk)|done|]. split; [done|]. specialize (Hcov st res bk q r Hr Hpos). destruct st; cbn; lia.
Qed.

(** Opening the registry only rewrites the text of old answers; before anything
    is queued that changes nothing here. *)
Lemma at_work_opened sh :
  at_work (None, None) (marks k0) [] k0 sh -> at_work (None, None) (marks k0) [] k0 (on_tables opened sh).
Proof.
  assert (forall db, List.map fst (omap own_report (outbox (opened db))) = List.map fst (omap own_report (outbox db))
            /\ projects (opened db) = projects db) as Ho.
  { intros db. apply (scrub_steps (fun db' => List.map fst (omap own_report (outbox db')) = List.map fst (omap own_report (outbox db))
      /\ projects db' = projects db)); [done| |done].
    intros db' id text [Eo Ep]. split; [|exact Ep]. rewrite <- Eo. clear. cbn [on_outbox outbox]. unfold update_where.
    assert (forall t, List.map fst (omap own_report t) = omap (fun o => fst <$> own_report o) t) as Hm.
    { intros t. induction t as [|o t IH]; [done|]. cbn. destruct (own_report o); cbn; by rewrite IH. }
    rewrite !Hm. induction (outbox db') as [|o t IH]; [done|]. cbn. rewrite IH.
    assert (forall text, fst <$> own_report (set_payload text o) = fst <$> own_report o) as Hs.
    { intros x. unfold own_report. cbn. by repeat case_match. }
    destruct (o_id o =? id); [|done]. specialize (Hs text). by rewrite Hs. }
  intros (board & [Hhome Hrun Hrow Hb Hbd Hn Hdone Hmk Hone Hbl] & Hk & _). exists board.
  assert (queued_ids (on_tables opened sh) = queued_ids sh) as Hids by apply (proj1 (Ho _)).
  split; [|split; [done|split; [apply pending_start; intros st; apply Hbl|]]].
  - split; try done.
    + rewrite <- Hhome. unfold home_board, project. cbn [on_tables sh_db]. by rewrite (proj2 (Ho _)).
    + intros st q Hs Hpos Hle. unfold queued. rewrite Hids. by apply Hdone.
    + intros st q Hq. unfold queued in Hq. rewrite Hids in Hq. by apply Hmk.
    + by rewrite Hids.
  - intros st q r _ _ Hq. unfold marks in Hq. lia.
Qed.

Lemma drain_run_passes now :
  passes (at_work (None, None) (marks k0) [] k0) (drain_run (cb_run_id b) now) (fun _ => all_queued).
Proof.
  pose proof (at_work_sound (None, None) (marks k0) [] k0) as Hsound. unfold drain_run.
  apply passes_bind with (R := fun _ => at_work (None, None) (marks k0) [] k0).
  { apply passes_step. intros sh Hs. pose proof (at_work_opened sh Hs) as Hs'. by split; [eapply at_work_sound|]. }
  intros _. eapply passes_bind with (R := fun found sh => at_work (None, None) (marks k0) [] k0 sh /\ found = Some b).
  { apply passes_step. intros sh Hs. split; [auto|]. split; [done|]. destruct Hs as (board & Hd & _). apply Hd. }
  intros found w Hw [Hs ->]. revert w Hw Hs.
  eapply passes_bind with (R := fun m sh => at_work (None, None) (marks k0) [] k0 sh /\ m = (mark Event k0, mark Comment k0)).
  { apply passes_step. intros sh Hs. split; [auto|]. split; [done|]. destruct Hs as (board & Hd & _).
    unfold forwarded_marks. fold card. pose proof (dl_row _ _ _ Hd) as Hr. unfold card_row in Hr. by rewrite Hr. }
  intros m w Hw [Hs ->]. revert w Hw Hs.
  eapply passes_bind with (R := fun p sh => at_work (None, None) (marks k0) [] k0 sh
    /\ forall p' home, p = Some p' -> rp_hermes_home p' = Some home -> board_path home = path).
  { apply passes_step. intros sh Hs. unfold query. destruct (map_err _ _) as [p|] eqn:E; [|auto]. split; [auto|]. split; [done|].
    intros p' home -> Hh. destruct Hs as (board & Hd & _). pose proof (dl_home _ _ _ Hd) as Hp. unfold home_board in Hp.
    destruct (project (cb_project_id b) (sh_db sh)) as [q|]; [|done]. injection E as ->. rewrite Hh in Hp. by injection Hp. }
  intros p. eapply passes_bind with (R := fun p' sh => at_work (None, None) (marks k0) [] k0 sh
    /\ forall home, rp_hermes_home p' = Some home -> board_path home = path).
  { apply passes_lift; [by intros sh [Hs _]; apply Hsound|]. intros p' sh E [Hs Hp]. split; [done|].
    intros home Hh. destruct p as [q|]; [|done]. injection E as ->. by apply (Hp p'). }
  intros p'. eapply passes_bind with (R := fun home sh => at_work (None, None) (marks k0) [] k0 sh /\ board_path home = path).
  { apply passes_lift; [by intros sh [Hs _]; apply Hsound|]. intros home sh E [Hs Hp]. split; [done|].
    apply Hp. destruct (rp_hermes_home p'); [|done]. by injection E as ->. }
  intros home w Hw [Hs E]. rewrite E. exact (drain_passes now w Hw Hs).
Qed.

(** C17. Whatever an agent reports on its card is queued exactly once. Reading a
    run's card leaves, wherever it fails or the process stops, no report queued twice
    and, up to the stored cursors, every row queued that is a report by itself (a
    heartbeat, a block, a comment, a completion or a review with a summary of its
    own). And a pass that succeeds has queued every row above the cursors that was a
    report on the board as the pass found it, those included whose text is the
    card's result, each under its own number, stamped with the run, task and
    generation the card was minted for and with what the row says, in the words of
    the columns of the card then or later; all this while the agent adds rows and
    the rest of the node works. It is assumed of the others that rows of the board
    are numbered upwards and neither changed nor taken back, that a result once
    written stays, and that nobody else touches this card's row and reports. (A
    completion without a summary that is written during the pass, between the look
    at the card and the look at its events, is not covered, and lost: see
    [completion_between_the_looks_is_lost].) *)
Theorem reports_are_queued_exactly_once now w :
  fairly w -> delivering (shared w) k0 start ->
  let (r, w') := drain_run (cb_run_id b) now w in
  (exists k' board, delivering (shared w') k' board /\ extends start board)
  /\ match r with Ok _ => all_queued (shared w') | Err _ => True end.
Proof.
  intros Hw Hd. pose proof (drain_run_passes now w Hw) as Hp.
  assert (at_work (None, None) (marks k0) [] k0 (shared w)) as Hs.
  { exists start. split; [done|]. split; [apply extends_refl, Hd|]. split.
    - apply pending_start. intros st. apply (dl_below _ _ _ Hd).
    - intros st q r _ _ Hq. unfold marks in Hq. lia. }
  specialize (Hp Hs). destruct (drain_run _ _ w) as [r w']. by destruct Hp as (_ & Hso & Hr).
Qed.
End Delivery.

(** ** What a report says *)

Section Stamping.
Context `{SerdeJson} (b : CardBinding) (now : Z).

Definition is_report (o : OutboxRow) : bool := (o_kind o =? OUTBOX_TASK_REPORT)%string.
Definition reports (sh : Shared) : list OutboxRow := select is_report (outbox (sh_db sh)).
(** Nobody else writes reports; apart from that the rest of the world may do
    anything, to the board above all. *)
Definition no_other_reporter (w : World) : Prop :=
  List.Forall (fun c => match c with Proceed others => forall sh, reports (others sh) = reports sh | _ => True end) (chances w).

(** A row that says who it is from by the binding alone. *)
Definition stamped_row (o : OutboxRow) : Prop :=
  exists stream seq report, let r := stamp b stream seq report in
    o_correlation_id o = Some (sr_report_id r) /\ o_payload o = struct_to_string (stamped_fields r)
    /\ sr_task_id r = cb_task_id b /\ sr_run_id r = cb_run_id b /\ sr_generation r = cb_generation b.

Definition reports_only {A} (m : Act A) : Prop :=
  forall w, no_other_reporter w -> let (_, w') := m w in
    no_other_reporter w' /\ exists new, reports (shared w') = reports (shared w) ++ new /\ Forall stamped_row new.

Lemma reports_only_ret {A} (a : A) : reports_only (ret a).
Proof. intros w Hw. split; [done|]. exists []. by rewrite app_nil_r. Qed.
Lemma reports_only_lift {A} (r : Result DeskError A) : reports_only (lift r).
Proof. intros w Hw. split; [done|]. exists []. by rewrite app_nil_r. Qed.
Lemma reports_only_bind {A B} (m : Act A) (f : A -> Act B) :
  reports_only m -> (forall a, reports_only (f a)) -> reports_only (bind m f).
Proof.
  intros Hm Hf w Hw. specialize (Hm w Hw). unfold bind. destruct (m w) as [[a|e] w1]; [|done].
  destruct Hm as (Hw1 & new & Hn & Hall). specialize (Hf a w1 Hw1). destruct (f a w1) as [r w2].
  destruct Hf as (Hw2 & new' & Hn' & Hall'). split; [done|]. exists (new ++ new').
  rewrite Hn', Hn, app_assoc. split; [done|]. by apply Forall_app.
Qed.
Lemma reports_only_step {A} (m : M DeskError Shared A) :
  (forall sh, exists new, reports (snd (m sh)) = reports sh ++ new /\ Forall stamped_row new) -> reports_only (step m).
Proof.
  intros Hm w Hw. unfold step. destruct w as [sh cs]. cbn [shared chances] in *. unfold no_other_reporter in *. cbn [chances] in Hw.
  destruct cs as [|[others| |] cs].
  - specialize (Hm sh). cbn in *. destruct (m sh) as [r sh']. by split.
  - inversion Hw as [|? ? Hf Hw']; subst. specialize (Hm (others sh)). rewrite Hf in Hm. destruct (m (others sh)) as [r sh']. by split.
  - inversion Hw as [|? ? _ Hw']; subst. split; [done|]. exists []. by rewrite app_nil_r.
  - inversion Hw as [|? ? _ Hw']; subst. split; [done|]. exists []. by rewrite app_nil_r.
Qed.
Lemma reports_only_query {A} (f : Shared -> Result DeskError A) : reports_only (step (query f)).
Proof. apply reports_only_step. intros sh. exists []. by rewrite app_nil_r. Qed.

Lemma enqueue_stamped stream seq report sh :
  exists new, reports (snd (enqueue_report (stamp b stream seq report) stream seq now sh)) = reports sh ++ new /\ Forall stamped_row new.
Proof.
  unfold enqueue_report, transaction, bind, state. destruct (negb _); [exists []; by rewrite app_nil_r|].
  destruct (sql_incr _) as [id|]; [|exists []; by rewrite app_nil_r]. cbn [modify ret fst snd]. unfold reports.
  cbn [on_cards on_tables sh_db on_outbox outbox]. rewrite select_app. eexists. split; [reflexivity|].
  cbn. constructor; [|constructor]. by exists stream, seq, report.
Qed.

(** A report says which task, run and generation it belongs to from the
    node's own record of the card, never from the board: however the agent or
    anybody else writes the board while it is read, everything a pass queues is
    stamped with exactly the card's binding. *)
Theorem reports_carry_the_minted_binding path after_event after_comment w :
  no_other_reporter w ->
  let (_, w') := drain_card path b after_event after_comment now w in
  exists new, reports (shared w') = reports (shared w) ++ new /\ Forall stamped_row new.
Proof.
  intros Hw. assert (reports_only (drain_card path b after_event after_comment now)) as Hd.
  { apply reports_only_bind.
    - unfold read_board. apply reports_only_bind; [apply reports_only_query|]. intros [[res bk]|]; [|apply reports_only_ret].
      apply reports_only_bind; [apply reports_only_query|]. intros events.
      apply reports_only_bind; [apply reports_only_lift|]. intros [es ec].
      apply reports_only_bind; [apply reports_only_query|]. intros comments.
      apply reports_only_bind; [apply reports_only_lift|]. intros [cs cc]. apply reports_only_ret.
    - intros pass. apply reports_only_bind.
      + induction (bp_reports pass) as [|[[st q] r] found IH]; cbn [queue_reports]; [apply reports_only_ret|].
        apply reports_only_bind; [apply reports_only_step, enqueue_stamped|]. intros _.
        apply reports_only_bind; [exact IH|]. intros n. apply reports_only_ret.
      + intros n. apply reports_only_bind; [|intros _; apply reports_only_ret].
        apply reports_only_step. intros sh. exists []. by rewrite app_nil_r. }
  specialize (Hd w Hw). destruct (drain_card _ _ _ _ _ w) as [r w']. apply Hd.
Qed.
End Stamping.

(** ** Sending *)

Section Outgoing.
Context {W : Type} `{SerdeJson} `{ErrorText} `{Environment} `{Service W}.

Definition frame_of (e : OutboxEntry) (id : string) (now : Z) : Envelope :=
  let f := Envelope_new id now (entry_type e) (oe_payload e) in
  match oe_correlation_id e with Some c => correlate c f | None => f end.

(** A report has no bound of its own.  One that no frame can carry ends the
    session that sends it, before anything behind it is sent; and since every
    session begins with the outbox, no later session gets further. *)
Lemma oversized_report_blocks_the_outbox e rest (c : Channel W) :
  (forall id now, encode (frame_of e id now) = None) ->
  let (r, c') := send_entries (e :: rest) c in
  ch_sent c' = ch_sent c /\ exists err, r = Err err /\ is_storage_error err = false.
Proof.
  intros Hbig. cbn [send_entries]. unfold bind, send, action. destruct (ch_fate c) as [|[g|] fates]; cbn.
  - split; [done|]. by eexists.
  - fold (frame_of e). specialize (Hbig (fresh_id (S (ch_made c))) (clock (S (ch_made c)))). unfold frame_of in Hbig.
    rewrite Hbig. split; [done|]. by eexists.
  - split; [done|]. by eexists.
Qed.
End Outgoing.

(** A report is queued however full the outbox is: reports alone can fill it to
    the depth at which every command is refused, and past it. *)
Lemma reports_pass_the_outbox_bound `{SerdeJson} r stream cursor now sh id sh' :
  enqueue_report r stream cursor now sh = (Ok id, sh') -> outbox_depth (sh_db sh') = outbox_depth (sh_db sh) + 1.
Proof.
  unfold enqueue_report, transaction, bind, Prelude.state. cbv beta iota zeta. destruct (negb _); [done|].
  destruct (sql_incr _); [|done]. cbn. intros [= _ <-]. unfold outbox_depth.
  cbn [sh_db on_cards on_tables outbox on_outbox]. rewrite changes_app. cbn. lia.
Qed.

(** ** A card and its board at which the theorems are applied,
    and what the channel does with its reports. *)

From S2P Require Import Registry RegistryFacts Evolution.

Module WorkdeskSamples.
Import Samples.
Definition real : FileSystem := {| canonicalize s := Some s; Inventory.is_dir _ := true |}.
(** A run that has ended, its project with a home, and a subscription to it. *)
Definition ended : Db :=
  snd (append_event id1 (JournalEvent_asterism "asterism.run.terminal" VNull) None clk
    (snd (upsert_subscription "demo" id1 0 50
      (snd (set_profile_runtime "demo" "/w/demo" "asterism-project-demo" "http://127.0.0.1:9000" "/w/demo/runtime.env" ProfileReady
        (snd (register_project real 50 "demo" "/srv/demo" None None None ManagedContainer db1))))))).

Definition binding : CardBinding :=
  {| cb_card_id := "ast-1"; cb_project_id := "demo"; cb_task_id := "task-7"; cb_run_id := id1; cb_generation := 3 |}.
Definition task : BoardTask :=
  {| t_id := "ast-1"; t_title := "task-7"; t_body := "do it"; t_status := CText "running"; t_result := CText "all done";
     t_block_kind := CNull; t_created_by := "asterism"; t_created_at := 60 |}.
(** The agent commented, tells that it is alive, and finishes. *)
Definition board : Board :=
  {| board_tasks := Some [task];
     board_events :=
       [{| ev_id := 1; ev_task_id := "ast-1"; ev_kind := CText "heartbeat"; ev_payload := CNull |};
        {| ev_id := 2; ev_task_id := "ast-9"; ev_kind := CText "completed"; ev_payload := CNull |};
        {| ev_id := 4; ev_task_id := "ast-1"; ev_kind := CText "completed"; ev_payload := CNull |}];
     board_comments := [{| co_id := 1; co_task_id := "ast-1"; co_body := CText "halfway" |}] |}.
Definition board_file : string := "/w/demo/kanban.db".
Definition minted : Shared :=
  snd (record_binding binding 70 {| sh_db := ended; sh_cards := []; sh_boards := {[board_file := board]} |}).
Definition row0 : CardRow :=
  {| k_binding := binding; k_created_at := 70; k_forwarded_event_seq := 0; k_forwarded_comment_seq := 0; k_closed_at := None |}.
(** The last number a table has given out. *)
Definition last_row (b : Board) (st : ReportStream) : Z := List.fold_right Z.max 0 (ids st b).

Lemma last_row_max l (x : Z) : In x l -> x <= List.fold_right Z.max 0 l.
Proof. induction l as [|y l IH]; cbn; [done|]. intros [->|Hin]; [lia|]. specialize (IH Hin). lia. Qed.
Lemma board_numbered b :
  (forall st, bool_decide (NoDup (ids st b)) = true) -> numbered last_row b.
Proof. intros Hn. split; [intros st; exact (proj1 (bool_decide_eq_true _) (Hn st))|]. intros st q. apply last_row_max. Qed.

Lemma minted_delivering : delivering binding board_file last_row minted row0 board.
Proof.
  assert (queued_ids binding minted = []) as Hq by (vm_compute; reflexivity).
  split; try (vm_compute; reflexivity).
  - by apply board_numbered; intros []; vm_compute.
  - intros st q _ Hpos Hle. destruct st; cbn in Hle; lia.
  - intros st q Hin. unfold queued in Hin. by rewrite Hq in Hin.
  - rewrite Hq. apply NoDup_nil_2.
  - intros []; vm_compute; split; congruence.
Qed.

(** The completion has no summary of its own; the card's result is its text. *)
Lemma reports_are_queued_exactly_once_witness :
  let (r, w') := drain_run id1 90 {| shared := minted; chances := [Proceed (fun sh => sh)] |} in
  r = Ok 3%nat
  /\ exists board' result block_kind report, extends binding last_row board board' /\ columns binding board' result block_kind
       /\ row_reports binding board result block_kind Event 4 report /\ queued_as binding (shared w') Event 4 report.
Proof.
  pose proof (reports_are_queued_exactly_once binding board_file ltac:(vm_compute; intuition congruence) last_row board row0 90
    {| shared := minted; chances := [Proceed (fun sh => sh)] |}) as Ht.
  assert (fst (drain_run id1 90 {| shared := minted; chances := [Proceed (fun sh => sh)] |}) = Ok 3%nat) as E by (vm_compute; reflexivity).
  change (cb_run_id binding) with id1 in Ht. destruct (drain_run id1 90 _) as [r w']. cbn [fst] in E. subst r. split; [done|].
  destruct Ht as [_ Hq].
  - constructor; [|constructor]. split; try done. intros sh b Hn Hb. exists b. split; [done|]. by apply extends_refl.
  - apply minted_delivering.
  - apply (Hq (Some "all done"%string) None) with (report := CompletionRequested "all done" []); [|..|reflexivity|reflexivity].
    + by exists [task], task.
    + eexists _, "completed"%string, None. split; [right; right; left; reflexivity|]. by repeat (split; [done|]).
Defined.

(** The same board before the agent finished, and the agent finishing: the result
    and the event that says so, at once. *)
Definition unfinished : Board :=
  {| board_tasks := Some [{| t_id := t_id task; t_title := t_title task; t_body := t_body task; t_status := t_status task;
       t_result := CNull; t_block_kind := t_block_kind task; t_created_by := t_created_by task; t_created_at := t_created_at task |}];
     board_events := firstn 2 (board_events board); board_comments := board_comments board |}.
Definition finishing : Chance := Proceed (on_board board_file board).
Definition nothing : Chance := Proceed (fun sh => sh).

(** When it finishes between the two looks of a pass, at the card and at its
    events, the completion is passed over, and no later pass queues it. *)
Lemma completion_between_the_looks_is_lost :
  let first := drain_run id1 90 {| shared := on_board board_file unfinished minted;
                 chances := [nothing; nothing; nothing; nothing; nothing; finishing] |} in
  let second := drain_run id1 91 (snd first) in
  fst first = Ok 2%nat /\ fst second = Ok 0%nat
  /\ sh_boards (shared (snd second)) !! board_file = Some board
  /\ row_reports binding board (Some "all done"%string) None Event 4 (CompletionRequested "all done" [])
  /\ queued_ids binding (shared (snd second)) = [report_id "ast-1" Event 1; report_id "ast-1" Comment 1].
Proof.
  intros first second. split; [vm_compute; reflexivity|]. split; [vm_compute; reflexivity|].
  split; [vm_compute; reflexivity|]. split; [|vm_compute; reflexivity].
  eexists _, "completed"%string, None. split; [right; right; left; reflexivity|]. by repeat (split; [done|]).
Qed.

Lemma reports_carry_the_minted_binding_witness :
  let (_, w') := drain_card board_file binding 0 0 90 {| shared := minted; chances := [Proceed (fun sh => on_board board_file board sh)] |} in
  exists new, reports (shared w') = reports minted ++ new /\ Forall (stamped_row binding) new.
Proof.
  apply (reports_carry_the_minted_binding binding 90 board_file 0 0
    {| shared := minted; chances := [Proceed (fun sh => on_board board_file board sh)] |}).
  constructor; [done|constructor].
Defined.

(** ** The bridge behind the channel *)

Definition Desk : Type := list CardRow * gmap string Board.
Definition run_bridge (m : M DeskError World unit) (w : Desk * Db) : Desk * Db :=
  let '((cards, boards), db) := w in
  let sh := shared (snd (m {| shared := {| sh_db := db; sh_cards := cards; sh_boards := boards |}; chances := [] |})) in
  ((sh_cards sh, sh_boards sh), sh_db sh).
#[export] Instance environment : Environment :=
  {| fresh_id := fun n => decimal (Z.of_nat n); clock := fun n => 1000 + Z.of_nat n; sha256 := fun s => [len s mod 256] |}.
#[export] Instance desk : Service Desk :=
  {| execute := fun _ w => (Some (Ok VNull), w);
     apply_finished_reauthorization := fun w => w;
     deliverable_device_code := fun w => (None, w);
     device_delivery_sent := fun _ w => w;
     device_delivery_acknowledged := fun _ w => w;
     cancel_undelivered := fun _ w => w;
     Channel.drain_task_board := fun run_id => run_bridge (Workdesk.drain_task_board run_id 1000);
     Channel.pump_task_boards := run_bridge (Workdesk.pump_task_boards 1000);
     heartbeat_payload := fun _ => VNull;
     journals := fun _ => [];
     delivered := fun _ => ∅;
     save_delivered := fun _ w => w |}.
Definition session : Channel Desk :=
  {| ch_db := ended; ch_host := (sh_cards minted, sh_boards minted); ch_fate := repeat (Some id) 40; ch_made := 0;
     ch_sent := []; ch_attempted := [] |}.

(** The board is read before the event that ends the run is sent, but what is
    read only goes into the outbox: the completion is sent after the ending. *)
Lemma completion_is_sent_after_the_ending :
  let (r, c) := pump_tick session in
  r = Ok tt /\ List.map message_type (ch_sent c)
    = [message_types.CLIENT_EVENT; message_types.CLIENT_TASK_REPORT; message_types.CLIENT_TASK_REPORT;
       message_types.CLIENT_TASK_REPORT].
Proof. vm_compute. auto. Qed.

(** A column with something else than text stops the card for good: nothing
    after it, and nothing before it, is ever forwarded. *)
Definition poisoned : Board :=
  {| board_tasks := Some [task];
     board_events := board_events board ++ [{| ev_id := 5; ev_task_id := "ast-1"; ev_kind := COther; ev_payload := CNull |}];
     board_comments := board_comments board |}.
Lemma odd_column_stops_the_card :
  let w := {| shared := on_board board_file poisoned minted; chances := [] |} in
  let (r, w') := drain_run id1 90 w in r = Err BadColumn /\ reports (shared w') = [].
Proof. vm_compute. auto. Qed.
End WorkdeskSamples.
