(* ===== verification/UpdateRequest.v ===== *)
(** * UpdateRequest: what an unprivileged daemon may ask the privileged updater
    for ([updaterequest.rs]), and the marker that says which release a runtime
    tree is ([runtimerelease.rs]).

    Both are small files read by root.  The file system is that of Fs.v, where
    every call may be refused and the process may stop at any of them; the
    clock is an argument, and starting the update unit is the class
    [Starter], an arbitrary answer with an arbitrary effect on the disk.  The
    theorems are in UpdateRequestTheorems.v. *)
From stdpp Require Import gmap.
From S2P Require Import Prelude Text Json Identifiers Protocol Fs UpdateOp.

Inductive VersionError : Type :=
| NamesNoVersion
| VersionTooLong
| NotAReleaseTag
| VersionAlphabet
| VersionDotDot
| NoVersionDigit.

(** The errors of both modules; the texts around an error are not kept. *)
Inductive UpdateError : Type :=
| OnFile (e : FsError)
| BadVersion (e : VersionError)
| BadOperation (e : IdError)
| Unreadable
| Stale (age : Z)
| HandoverNamesNothing
| UnitNotStarted (text : string)
| MarkerSchema
| MarkerRevision
| MarkerDigest
| MarkerPlatform
| MarkerTooLarge.

Definition on_file {A} (m : M FsError Disk A) : M UpdateError Disk A :=
  fun d => match m d with (Ok a, d') => (Ok a, d') | (Err e, d') => (Err (OnFile e), d') end.
Definition checking {E A} (f : E -> UpdateError) (r : Result E A) : M UpdateError Disk A :=
  lift (match r with Ok a => Ok a | Err e => Err (f e) end).

Class Starter : Type := { start_detached : string -> M FsError Disk (Result string unit) }.

Module updaterequest.

Definition MAX_VERSION : Z := 64.
Definition MAX_AGE_SECONDS : Z := 3600.
Definition UPDATE_UNIT : string := "asterism-update.service".

Record UpdateRequest : Type := {
  version : string;
  requested_at : Z;
  requested_by : option string;
  operation_id : option string
}.

Definition validate_version (v : string) : Result VersionError unit :=
  if (v =? "")%string then Err NamesNoVersion
  else if MAX_VERSION <? len v then Err VersionTooLong
  else if negb (str_starts_with "v" v) then Err NotAReleaseTag
  else if negb (all_chars (fun c => is_ascii_alphanumeric c || one_of ".-+_" c) v) then Err VersionAlphabet
  else if str_contains ".." v then Err VersionDotDot
  else if (len v <? 2)
          || negb (match List.tl (chars v) with c :: _ => is_ascii_digit c | [] => false end)
  then Err NoVersionDigit
  else Ok tt.

Definition validate_operation (o : option string) : Result IdError unit :=
  match o with Some id => validate_operation_id id | None => Ok tt end.

Definition new (v : string) (by_ op : option string) (now : Z) : Result UpdateError UpdateRequest :=
  match validate_version v with
  | Err e => Err (BadVersion e)
  | Ok _ =>
      match validate_operation op with
      | Err e => Err (BadOperation e)
      | Ok _ => Ok {| version := v; requested_at := now; requested_by := by_; operation_id := op |}
      end
  end.

Definition request_fields (r : UpdateRequest) : list (string * Value) :=
  [("version"%string, VString (version r)); ("requested_at"%string, integer (requested_at r))]
  ++ opt_field "requested_by" VString (requested_by r)
  ++ opt_field "operation_id" VString (operation_id r).
Definition request_of (fields : list (string * Value)) : option UpdateRequest :=
  v ← required (field as_str "version" fields);
  at_ ← required (field as_u64' "requested_at" fields);
  by_ ← optional (field (as_opt as_str) "requested_by" fields);
  op ← optional (field (as_opt as_str) "operation_id" fields);
  Some {| version := v; requested_at := at_; requested_by := by_; operation_id := op |}.

Section Files.
Context `{SerdeJson, Process}.

Definition staging (path : string) : string := with_extension path "incoming".
Definition encoded (r : UpdateRequest) : bytes := chars (struct_to_string_pretty (request_fields r)).

Definition write (path : string) (r : UpdateRequest) : M UpdateError Disk unit :=
  checking BadVersion (validate_version (version r)) ;;;
  on_file (
    match parent path with Some dir => create_dir_all dir | None => ret tt end ;;;
    Fs.write (staging path) (encoded r) ;;;
    rename (staging path) path).

(** [saturating_sub] on the seconds since the epoch. *)
Definition age (now requested : Z) : Z := Z.max 0 (now - requested).

Definition consume (path : string) (now : Z) : M UpdateError Disk (option UpdateRequest) :=
  let! raw := on_file (look (fun n => read n path)) in
  match raw with
  | Err NotFound => ret None
  | Err e => fail (OnFile (Io e))
  | Ok raw =>
      on_file (ignore_errors (remove_file path)) ;;;
      match struct_from_str (of_chars raw) ≫= request_of with
      | None => fail Unreadable
      | Some r =>
          checking BadVersion (validate_version (version r)) ;;;
          checking BadOperation (validate_operation (operation_id r)) ;;;
          if MAX_AGE_SECONDS <? age now (requested_at r) then fail (Stale (age now (requested_at r)))
          else ret (Some r)
      end
  end.

Inductive Apply : Type :=
| Requested (r : UpdateRequest)
| HandedOver (v : string).
Definition apply_version (a : Apply) : string :=
  match a with Requested r => version r | HandedOver v => v end.

Definition resolve (handed_over : option string) (path : string) (now : Z) :
    M UpdateError Disk (option Apply) :=
  match handed_over with
  | Some v =>
      if (v =? "")%string then fail HandoverNamesNothing
      else checking BadVersion (validate_version v) ;;; ret (Some (HandedOver v))
  | None => let! r := consume path now in ret (Requested <$> r)
  end.

Definition path_in (node_home : string) : string := path_join node_home "node/update-request.json".

Definition request `{Starter} (node_home v : string) (by_ op : option string) (now : Z) :
    M UpdateError Disk UpdateRequest :=
  let! r := lift (new v by_ op now) in
  let path := path_in node_home in
  write path r ;;;
  let! started := on_file (start_detached UPDATE_UNIT) in
  match started with
  | Ok _ => ret r
  | Err text => on_file (ignore_errors (remove_file path)) ;;; fail (UnitNotStarted text)
  end.
End Files.
End updaterequest.

Module runtimerelease.

Definition MARKER : string := "release.json".
Definition UNKNOWN : string := "unknown".
Definition SCHEMA : Z := 1.
Definition MAX_MARKER : Z := 4096.

Record RuntimeRelease : Type := {
  schema : Z;
  version : string;
  source_revision : string;
  platform : string;
  archive_sha256 : string
}.

(** [b.is_ascii_hexdigit()], and a length from an inclusive range. *)
Definition is_hexdigit (c : Ascii.ascii) : bool := is_ascii_digit c || between 65 70 c || between 97 102 c.
Definition hex (lo hi : Z) (value : string) : bool :=
  (lo <=? len value) && (len value <=? hi) && all_chars is_hexdigit value.

Definition validate (r : RuntimeRelease) : Result UpdateError unit :=
  if negb (schema r =? SCHEMA) then Err MarkerSchema
  else match updaterequest.validate_version (version r) with
       | Err e => Err (BadVersion e)
       | Ok _ =>
           if negb (hex 3 64 (source_revision r)) then Err MarkerRevision
           else if negb (hex 64 64 (archive_sha256 r)) then Err MarkerDigest
           else if (platform r =? "")%string || (32 <? len (platform r)) then Err MarkerPlatform
           else Ok tt
       end.

Definition marker_fields (r : RuntimeRelease) : list (string * Value) :=
  [("schema", integer (schema r)); ("version", VString (version r));
   ("source_revision", VString (source_revision r)); ("platform", VString (platform r));
   ("archive_sha256", VString (archive_sha256 r))]%string.
(** [deny_unknown_fields]. *)
Definition known (e : string * Value) : bool :=
  bool_decide (fst e ∈ ["schema"; "version"; "source_revision"; "platform"; "archive_sha256"]%string).
Definition marker_of (fields : list (string * Value)) : option RuntimeRelease :=
  if negb (List.forallb known fields) then None
  else
    s ← required (field (as_integer 0 (2 ^ 32 - 1)) "schema" fields);
    v ← required (field as_str "version" fields);
    rev ← required (field as_str "source_revision" fields);
    p ← required (field as_str "platform" fields);
    sha ← required (field as_str "archive_sha256" fields);
    Some {| schema := s; version := v; source_revision := rev; platform := p; archive_sha256 := sha |}.

Section Files.
Context `{SerdeJson, Process}.

Definition marker_path (tree : string) : string := path_join tree MARKER.
Definition marker_text (r : RuntimeRelease) : bytes := chars (struct_to_string_pretty (marker_fields r)).

Definition write_into (tree : string) (r : RuntimeRelease) : M UpdateError Disk unit :=
  lift (validate r) ;;;
  on_file (
    Fs.write (marker_path tree) (marker_text r) ;;;
    set_permissions (marker_path tree) 0x1A4).

Definition read (n : gmap string Node) (opt : string) : Result UpdateError (option RuntimeRelease) :=
  match Fs.read n (marker_path opt) with
  | Err NotFound => Ok None
  | Err e => Err (OnFile (Io e))
  | Ok raw =>
      if MAX_MARKER <? Z.of_nat (length raw) then Err MarkerTooLarge
      else match struct_from_str (of_chars raw) ≫= marker_of with
           | None => Err Unreadable
           | Some r => match validate r with Ok _ => Ok (Some r) | Err e => Err e end
           end
  end.

Definition reported (n : gmap string Node) (opt : string) : string :=
  match read n opt with Ok (Some r) => version r | _ => UNKNOWN end.
End Files.
End runtimerelease.
