(* ===== verification/UpdateRequestTheorems.v ===== *)
(** * UpdateRequestTheorems: what root acts on when it reads a request, how
    often, and what a reader of the two files can see. *)
From Stdlib Require Import Lia.
From stdpp Require Import gmap.
From S2P Require Import Prelude Text Json Identifiers Protocol Fs UpdateOp UpdateRequest.

(** ** Release tags *)

(** What a version may be when it reaches a URL and a file name. *)
Record release_tag (v : string) : Prop := {
  rt_head : exists c rest, chars v = $"v" ++ c :: rest /\ is_ascii_digit c = true;
  rt_short : len v <= 64;
  rt_chars c : In c (chars v) -> is_ascii_alphanumeric c = true \/ In c $".-+_";
  rt_climb : str_contains ".." v = false
}.

Lemma validate_version_spec v : updaterequest.validate_version v = Ok tt <-> release_tag v.
Proof.
  unfold updaterequest.validate_version, updaterequest.MAX_VERSION. split.
  - intros Hv. repeat split_if_in Hv; try done.
    apply String.eqb_neq in Heqb. apply Z.ltb_ge in Heqb0.
    apply negb_false_iff, starts_with_true in Heqb1 as [rest Hr].
    apply negb_false_iff in Heqb2. unfold all_chars in Heqb2. rewrite forallb_forall in Heqb2.
    apply orb_false_iff in Heqb4 as [_ Hd]. apply negb_false_iff in Hd. rewrite Hr in Hd. cbn in Hd.
    split; [|done| |done].
    + destruct rest as [|c rest]; [done|]. by exists c, rest.
    + intros c Hc. specialize (Heqb2 _ Hc). rewrite orb_true_iff, one_of_true in Heqb2. exact Heqb2.
  - intros [(c & rest & Hv & Hd) Hs Hc Hdd].
    assert (2 <= len v) as Hl
      by (unfold len; rewrite <- length_chars, Hv, length_app; cbn; lia).
    rewrite (proj2 (String.eqb_neq _ _)) by (intros ->; done).
    rewrite (proj2 (Z.ltb_ge _ _)) by lia. unfold str_starts_with. rewrite Hv at 1. cbn [negb].
    rewrite starts_with_app. cbn [negb].
    assert (all_chars (fun c => is_ascii_alphanumeric c || one_of ".-+_" c) v = true) as ->.
    { unfold all_chars. rewrite forallb_forall. intros x Hx. rewrite orb_true_iff, one_of_true. by apply Hc. }
    rewrite Hdd, Hv. cbn. rewrite Hd, (proj2 (Z.ltb_ge _ _)) by lia. done.
Qed.

(** A tag is one segment of a path or URL. *)
Lemma release_tag_segment v : release_tag v -> plain_name v /\ ~ In (Ascii.ascii_of_N 58) (chars v)
  /\ ~ In (Ascii.ascii_of_N 92) (chars v) /\ ~ In SP (chars v).
Proof.
  intros [(c & rest & Hv & Hd) Hs Hc Hdd]. split; [split|].
  - intros ->. done.
  - intros [Ha%alphanumeric_codes|Ho]%Hc; [cbn in Ha; lia|]. by repeat destruct Ho as [Ho|Ho].
  - repeat split; intros [Ha%alphanumeric_codes|Ho]%Hc; try (cbn in Ha; lia);
      by repeat destruct Ho as [Ho|Ho].
Qed.

(** ** Reading what was written *)

(** Nothing is there, or a regular file, perhaps behind links. *)
Definition writable (path : string) (n : gmap string Node) : Prop :=
  n !! path = None \/ holds_text path None n.

Lemma through_holds path body b f n n' :
  (forall x, f_kind (f x) = f_kind x) -> (forall x t, (forall u, body = Some u -> f_body x = u) -> b = Some t -> f_body (f x) = t) ->
  holds_text path body n -> through path f n = Ok (tt, n') -> holds_text path b n'.
Proof.
  intros Hf Hb (p & x & Hr & Hx & Hk & Ht). unfold through. rewrite Hr, Hx. intros [= <-].
  exists p, (f x). rewrite lookup_insert_eq, Hf.
  split; [apply (resolve_insert _ _ _ _ x); try done; rewrite ?Hf; congruence|].
  split_and!; try done. intros t Et. by apply Hb.
Qed.

Lemma leaves_through_holds path body b f P :
  (forall x, f_kind (f x) = f_kind x) -> (forall x t, (forall u, body = Some u -> f_body x = u) -> b = Some t -> f_body (f x) = t) ->
  (forall n, P n -> holds_text path body n) ->
  leaves P (syscall (through path f)) (fun r n => match r with Ok _ => holds_text path b n | Err _ => True end).
Proof.
  intros Hf Hb HP. apply leaves_syscall. intros n Hn. split; [done|]. split; [done|].
  destruct (through path f n) as [[[] n']|e] eqn:E; [|done]. eapply through_holds; eauto.
Qed.

Lemma write_then_read `{Process} path new :
  leaves (writable path) (Fs.write path new)
    (fun r n => match r with Ok _ => holds_text path (Some new) n | Err _ => True end).
Proof.
  unfold Fs.write. apply leaves_bind with (Q1 := fun _ => holds_text path None).
  - apply leaves_syscall. intros n Hn. split; [done|]. split; [done|]. destruct Hn as [Hn|Hn].
    + rewrite (resolve_absent _ _ _ Hn), Hn. eexists path, _.
      split; [eapply resolve_file; [apply lookup_insert_eq|done]|]. by rewrite lookup_insert_eq.
    + destruct Hn as (p & x & Hr & Hx & Hk & _). rewrite Hr, Hx, bool_decide_eq_false_2 by congruence.
      exists p, (with_body [] x). rewrite lookup_insert_eq.
      split; [by apply (resolve_insert _ _ _ _ x); try congruence; cbn; congruence|]. done.
  - intros _. apply leaves_through_holds with (body := None); [done| |done]. intros x t _ [= <-]. done.
Qed.

Module Requests.
Import updaterequest.

(** ** Consuming *)

Section Consume.
Context `{SerdeJson}.

(** What root may act on, given the time. *)
Record actionable (now : Z) (r : UpdateRequest) : Prop := {
  ac_version : release_tag (version r);
  ac_operation : forall op, operation_id r = Some op -> validate_operation_id op = Ok tt;
  ac_age : now - requested_at r <= MAX_AGE_SECONDS
}.

Lemma read_not_directory n path raw :
  read n path = Ok raw -> exists x, n !! path = Some x /\ f_kind x <> Directory.
Proof.
  unfold read, MAX_HOPS. cbn [Fs.resolve]. destruct (n !! path) as [x|] eqn:Ex; [|done].
  case_bool_decide as Hk; [by exists x; rewrite Hk|]. rewrite Ex.
  case_bool_decide as Hr; [|done]. exists x. by rewrite Hr.
Qed.

Lemma remove_outcome d path x :
  nodes d !! path = Some x -> f_kind x <> Directory ->
  exists f p, plan d = f ++ p /\
  match fst (remove_file path d) with
  | Ok _ => snd (remove_file path d) = {| nodes := delete path (nodes d); plan := p |}
  | Err Crashed => f = [Stops] /\ snd (remove_file path d) = {| nodes := nodes d; plan := p |}
  | Err _ => f = [Fails] /\ snd (remove_file path d) = {| nodes := nodes d; plan := p |}
  end.
Proof.
  intros Hx Hk. unfold remove_file, syscall. destruct (plan d) as [|[] p] eqn:Hp.
  - exists [], []. rewrite Hx, bool_decide_eq_false_2 by done. done.
  - exists [Goes], p. rewrite Hx, bool_decide_eq_false_2 by done. done.
  - by exists [Fails], p.
  - by exists [Stops], p.
Qed.

(** What consuming did, when it acts. *)
Lemma consume_acts path now d r d' :
  consume path now d = (Ok (Some r), d') ->
  actionable now r
  /\ (exists raw, read (nodes d) path = Ok raw /\ struct_from_str (of_chars raw) ≫= request_of = Some r)
  /\ (Fails ∈ plan d \/ (nodes d' = delete path (nodes d) /\ exists f, plan d = f ++ plan d')).
Proof.
  unfold consume. intros Hc. cbn in Hc. destruct (read (nodes d) path) as [raw|[]] eqn:Hr; try done.
  unfold bind at 1 in Hc. unfold on_file, ignore_errors in Hc.
  destruct (read_not_directory _ _ _ Hr) as (x & Hx & Hk).
  destruct (remove_outcome d path x Hx Hk) as (f & p & Hp & Hout).
  destruct (struct_from_str (of_chars raw) ≫= request_of) as [q|] eqn:Eq.
  2: { by destruct (remove_file path d) as [[[]|[]] d1]. }
  assert (forall d1, (checking BadVersion (validate_version (version q)) ;;;
      checking BadOperation (validate_operation (operation_id q)) ;;;
      if MAX_AGE_SECONDS <? age now (requested_at q) then fail (Stale (age now (requested_at q)))
      else ret (Some q)) d1 = (Ok (Some r), d') -> d' = d1 /\ q = r /\ actionable now r) as Hrest.
  { intros d1. unfold checking, lift. unfold bind at 1.
    destruct (validate_version (version q)) as [[]|] eqn:Ev; [|done]. unfold bind at 1.
    destruct (validate_operation (operation_id q)) as [[]|] eqn:Eo; [|done].
    destruct (MAX_AGE_SECONDS <? age now (requested_at q)) eqn:Ea; [done|].
    intros [= <- <-]. split; [done|]. split; [done|]. apply Z.ltb_ge in Ea. unfold age in Ea.
    split; [by apply validate_version_spec| |lia].
    intros op Hop. rewrite Hop in Eo. done. }
  split; [|split].
  - destruct (remove_file path d) as [[[]|[]] d1]; try done; by apply Hrest in Hc as (_ & _ & ?).
  - exists raw. split; [done|]. rewrite Eq.
    destruct (remove_file path d) as [[[]|[]] d1]; try done; by apply Hrest in Hc as (_ & -> & _).
  - destruct (remove_file path d) as [[[]|[]] d1]; cbn in Hout; try done.
    + apply Hrest in Hc as (-> & _ & _). subst d1. right. split; [done|]. by exists f.
    + left. destruct Hout as [-> _]. rewrite Hp. set_solver.
    + left. destruct Hout as [-> _]. rewrite Hp. set_solver.
Qed.

Lemma consume_absent path now d :
  nodes d !! path = None -> consume path now d = (Ok None, d).
Proof. intros Hn. unfold consume, read, MAX_HOPS. cbn. by rewrite Hn. Qed.

(** Consuming adds nothing to the disk, and uses up the plan from its front. *)
Lemma consume_plan path now d : exists f, plan d = f ++ plan (snd (consume path now d)).
Proof.
  unfold consume. cbn. destruct (read (nodes d) path) as [raw|[]] eqn:Hr; try (by exists []).
  unfold bind at 1. unfold on_file, ignore_errors.
  destruct (read_not_directory _ _ _ Hr) as (x & Hx & Hk).
  destruct (remove_outcome d path x Hx Hk) as (f & p & Hp & Hout).
  assert (exists f, plan d = f ++ plan (snd (remove_file path d))) as Hd.
  { exists f. rewrite Hp. destruct (remove_file path d) as [[[]|[]] d1]; cbn in Hout;
      first [by rewrite Hout | destruct Hout as [_ Hout]; by rewrite Hout]. }
  assert (forall q d1, snd ((checking BadVersion (validate_version (version q)) ;;;
      checking BadOperation (validate_operation (operation_id q)) ;;;
      if MAX_AGE_SECONDS <? age now (requested_at q) then fail (Stale (age now (requested_at q)))
      else ret (Some q)) d1) = d1) as Hrest.
  { intros q d1. unfold checking, lift. unfold bind at 1.
    destruct (validate_version _) as [[]|]; [|done]. unfold bind at 1.
    destruct (validate_operation _) as [[]|]; [|done]. by destruct (_ <? _). }
  destruct (remove_file path d) as [[[]|[]] d1]; cbv beta iota; try exact Hd;
    (destruct (struct_from_str (of_chars raw) ≫= request_of) as [q|];
     [rewrite (Hrest q)|]; exact Hd).
Qed.

(** The updater started again and again: what it acted on. *)
Fixpoint acted (path : string) (nows : list Z) (d : Disk) : list (Z * UpdateRequest) :=
  match nows with
  | [] => []
  | now :: nows =>
      let (r, d') := consume path now d in
      match r with Ok (Some q) => [(now, q)] | _ => [] end ++ acted path nows d'
  end.

Lemma acted_absent path nows d : nodes d !! path = None -> acted path nows d = [].
Proof. intros Hn. induction nows as [|now nows IH]; [done|]. cbn [acted]. rewrite consume_absent by done. exact IH. Qed.

End Consume.

(** C19. However often the updater is started, and wherever it is cut short, it acts
    on at most one request, and only on one that names a release tag and nothing else,
    a well-formed operation, and a time that is at most an hour before the updater's
    clock, whatever bytes the unprivileged account put in the file, as long as the
    system does not refuse to remove that file. A time after the updater's clock is
    accepted too, however far ahead, so a request dated in the future never grows
    stale ([future_request_never_expires]). *)
Theorem update_request_acts_at_most_once `{SerdeJson} path nows d :
  Fails ∉ plan d ->
  (length (acted path nows d) <= 1)%nat
  /\ Forall (fun e => actionable (fst e) (snd e)) (acted path nows d).
Proof.
  revert d. induction nows as [|now nows IH]; intros d Hd; [split; [cbn; lia|constructor]|].
  cbn [acted]. destruct (consume path now d) as [r d'] eqn:Hc.
  assert (Fails ∉ plan d') as Hd'.
  { destruct (consume_plan path now d) as [f Hf]. rewrite Hc in Hf. rewrite Hf in Hd. set_solver. }
  destruct r as [[q|]|e]; [|by apply IH..].
  apply consume_acts in Hc as (Ha & _ & [|[Hn _]]); [done|].
  rewrite acted_absent by (rewrite Hn; apply lookup_delete_eq). split; [done|].
  apply Forall_app; split; [by apply Forall_singleton|constructor].
Qed.

(** The second half of an update is told its release by the environment
    and the first by the file; either way what is installed is a release tag,
    which is one segment of a path and of a URL. *)
Theorem resolved_release_is_a_tag `{SerdeJson} handed path now d a d' :
  resolve handed path now d = (Ok (Some a), d') ->
  release_tag (apply_version a) /\ plain_name (apply_version a)
  /\ match handed with
     | Some v => a = HandedOver v /\ d' = d
     | None => exists r, a = Requested r /\ consume path now d = (Ok (Some r), d')
     end.
Proof.
  unfold resolve. intros Hr. destruct handed as [v|].
  - destruct (v =? "")%string; [done|]. unfold checking, lift, bind in Hr.
    destruct (validate_version v) as [[]|] eqn:Ev; [|done]. injection Hr as <- <-.
    apply validate_version_spec in Ev. split; [done|]. split; [by apply release_tag_segment|done].
  - unfold bind in Hr. destruct (consume path now d) as [[[r|]|e] d1] eqn:Hc; try done.
    injection Hr as <- <-. pose proof (consume_acts _ _ _ _ _ Hc) as ([Hv _ _] & _ & _).
    split; [done|]. split; [by apply release_tag_segment|]. by exists r.
Qed.

(** ** Writing *)

Section Write.
Context `{SerdeJsonLaws, Process}.

Record request_ok (r : UpdateRequest) : Prop := {
  ro_at : in_u64 (requested_at r);
  ro_version : validate_version (version r) = Ok tt;
  ro_operation : validate_operation (operation_id r) = Ok tt
}.

Lemma request_of_fields r : in_u64 (requested_at r) -> request_of (request_fields r) = Some r.
Proof.
  intros Hat. destruct r as [v t b o]. cbn in Hat.
  assert (as_u64' (integer t) = Some t) as Ht by (by apply as_integer_roundtrip).
  unfold request_of, request_fields. destruct b, o; cbn -[as_u64' as_opt integer]; rewrite Ht;
    reflexivity.
Qed.

Lemma request_fields_ok r e : In e (request_fields r) ->
  (depth (snd e) <= 126)%nat /\ integral (snd e) = true /\ ordered (snd e) = true.
Proof.
  unfold request_fields. rewrite !in_app_iff.
  intros [[<-|[<-|[]]]|[He|He]]; cbn -[integer]; [split; [lia|done]| |..].
  - unfold integer. destruct (_ <? _) eqn:?; cbn; (split; [lia|done]).
  - destruct (requested_by r); [|done]. destruct He as [<-|[]]. split; [cbn; lia|done].
  - destruct (operation_id r); [|done]. destruct He as [<-|[]]. split; [cbn; lia|done].
Qed.

Lemma encoded_decodes r :
  in_u64 (requested_at r) -> struct_from_str (of_chars (encoded r)) ≫= request_of = Some r.
Proof.
  intros Hr. unfold encoded. rewrite chars_of_chars, struct_from_str_pretty by apply request_fields_ok.
  by apply request_of_fields.
Qed.

(** The request file as a reader sees it: as before, or whole. *)
Definition whole (r : UpdateRequest) (x : Node) : Prop := f_kind x = RegularFile /\ f_body x = encoded r.

Lemma write_leaves path r o :
  staging path <> path -> parent path <> Some path -> parent path <> Some (staging path) ->
  (forall x, o = Some x -> f_kind x <> Directory) ->
  forall d, untouched path (staging path) o (nodes d) ->
    match fst (write path r d) with
    | Ok _ => exists x, nodes (snd (write path r d)) !! path = Some x /\ whole r x
    | Err _ => nodes (snd (write path r d)) !! path = o
    end.
Proof.
  intros Hst Hp1 Hp2 Ho d Hd.
  pose (m := (match parent path with Some dir => create_dir_all dir | None => ret tt end ;;;
    Fs.write (staging path) (encoded r) ;;; rename (staging path) path) : M FsError Disk unit).
  assert (write path r d = match validate_version (version r) with
                           | Ok _ => on_file m d
                           | Err e => (Err (BadVersion e), d)
                           end) as ->.
  { unfold write, checking, lift, bind at 1. by destruct (validate_version (version r)) as [[]|]. }
  destruct (validate_version (version r)) as [[]|]; [|by destruct Hd].
  assert (leaves (untouched path (staging path) o) m
    (fun res n => match res with
                  | Ok _ => exists x, n !! path = Some x /\ whole r x
                  | Err _ => n !! path = o end)) as Hm.
  2: { specialize (Hm d Hd). unfold on_file. by destruct (m d) as [[[]|e] d']. }
  unfold m. apply leaves_bind with (Q1 := fun _ => untouched path (staging path) o).
  { destruct (parent path) as [dir|]; [|by apply leaves_ret].
    apply leaves_syscall. intros n Hn. split; [apply Hn|]. split; [apply Hn|].
    assert (forall x, dir <> path -> dir <> staging path -> untouched path (staging path) o (<[dir := x]> n)) as Hi.
    { intros x Hx1 Hx2. destruct Hn as [Hn1 Hn2]. split; [by rewrite lookup_insert_ne|].
      intros y. rewrite lookup_insert_ne by done. apply Hn2. }
    destruct (Fs.resolve MAX_HOPS n dir) as [p|].
    - destruct (n !! p) as [x|]; [|apply Hn]. case_bool_decide; [done|apply Hn].
    - destruct (n !! dir) as [x|]; [apply Hn|]. apply Hi; congruence. }
  intros _. apply leaves_bind with (Q1 := fun _ => staged path (staging path) o (fun x => f_body x = encoded r)).
  { apply leaves_bind with (Q1 := fun _ => staged path (staging path) o (fun _ => True)).
    - by apply leaves_open.
    - intros _. by apply leaves_staged. }
  intros _. apply leaves_syscall. intros n (Hp & x & Hx & Hk & Hb). split; [done|]. split; [done|].
  rewrite Hx. assert (exists z, (<[path := x]> (delete (staging path) n)) !! path = Some z /\ whole r z) as Hz.
  { exists x. rewrite lookup_insert_eq. done. }
  destruct (n !! path) as [y|] eqn:Ey; [|exact Hz].
  case_bool_decide as Hdir; [|exact Hz]. rewrite <- Hp in Ho. by destruct (Ho y eq_refl).
Qed.

(** Wherever the daemon stops while writing a request, the updater finds
    the file as it was before or the whole request, never a part of one; and a
    request that was written is what the updater reads within the hour, after
    which it is gone. *)
Theorem request_is_written_whole_and_read_back path r d now :
  request_ok r -> staging path <> path -> parent path <> Some path -> parent path <> Some (staging path) ->
  untouched path (staging path) (nodes d !! path) (nodes d) ->
  (forall x, nodes d !! path = Some x -> f_kind x <> Directory) ->
  (forall res d', write path r d = (res, d') ->
     nodes d' !! path = nodes d !! path
     \/ (exists x, nodes d' !! path = Some x /\ whole r x))
  /\ (forall d', write path r d = (Ok tt, d') -> now - requested_at r <= MAX_AGE_SECONDS -> plan d' = [] ->
      exists d2, consume path now d' = (Ok (Some r), d2) /\ nodes d2 = delete path (nodes d')).
Proof.
  intros [Hat Hv Hop] Hst Hp1 Hp2 Hu Hdir. pose proof (write_leaves path r _ Hst Hp1 Hp2 Hdir d Hu) as Hw.
  split.
  - intros res d' E. rewrite E in Hw. cbn in Hw. destruct res; auto.
  - intros d' E Hage Hplan. rewrite E in Hw. cbn in Hw. destruct Hw as (x & Hx & Hk & Hb).
    assert (read (nodes d') path = Ok (encoded r)) as Hread.
    { unfold read. rewrite (resolve_file _ _ _ x), Hx by congruence.
      by rewrite bool_decide_eq_true_2, Hb. }
    unfold consume. cbn. rewrite Hread. unfold bind at 1. unfold on_file, ignore_errors, remove_file, syscall.
    rewrite Hplan, Hx, bool_decide_eq_false_2 by congruence. cbn [List.tl].
    rewrite encoded_decodes by done. unfold checking, lift, bind. rewrite Hv, Hop.
    unfold age. rewrite (proj2 (Z.ltb_ge _ _)) by (unfold MAX_AGE_SECONDS in *; lia).
    eexists. by split.
Qed.
End Write.

End Requests.

(** ** The marker of a runtime tree *)

Module Markers.
Import runtimerelease.

(** A marker that is believed names a release, a revision, a platform and the
    digest of an archive. *)
Record marker_ok (r : RuntimeRelease) : Prop := {
  mk_schema : schema r = SCHEMA;
  mk_version : release_tag (version r);
  mk_revision : 3 <= len (source_revision r) <= 64 /\ Forall (fun c => is_hexdigit c = true) (chars (source_revision r));
  mk_digest : len (archive_sha256 r) = 64 /\ Forall (fun c => is_hexdigit c = true) (chars (archive_sha256 r));
  mk_platform : platform r <> ""%string /\ len (platform r) <= 32
}.

Lemma hex_spec lo hi v :
  hex lo hi v = true <-> (lo <= len v <= hi) /\ Forall (fun c => is_hexdigit c = true) (chars v).
Proof.
  unfold hex, all_chars. rewrite !andb_true_iff, !Z.leb_le, forallb_forall, List.Forall_forall. tauto.
Qed.

Lemma validate_spec r : validate r = Ok tt <-> marker_ok r.
Proof.
  unfold validate. split.
  - intros Hv. split_if_in Hv; [done|]. apply negb_false_iff, Z.eqb_eq in Heqb.
    destruct (updaterequest.validate_version (version r)) as [[]|] eqn:Ev; [|done].
    repeat split_if_in Hv; try done.
    apply negb_false_iff, hex_spec in Heqb0 as [? ?]. apply negb_false_iff, hex_spec in Heqb1 as [? ?].
    apply orb_false_iff in Heqb2 as [Hp Hl]. apply String.eqb_neq in Hp. apply Z.ltb_ge in Hl.
    split; [done|by apply validate_version_spec|done|split; [lia|done]|done].
  - intros [Hs Hv Hr [Hd Hd'] [Hp Hl]]. rewrite Hs. cbn [negb Z.eqb].
    apply validate_version_spec in Hv as ->. rewrite (proj2 (hex_spec _ _ _) Hr).
    rewrite (proj2 (hex_spec 64 64 _)) by (split; [lia|done]).
    rewrite (proj2 (String.eqb_neq _ _) Hp), (proj2 (Z.ltb_ge _ _)) by lia. done.
Qed.

Section Files.
Context `{SerdeJsonLaws, Process}.

Lemma marker_of_fields r : schema r = SCHEMA -> marker_of (marker_fields r) = Some r.
Proof. intros Hs. destruct r as [s v rev p sha]. cbn in Hs. subst s. reflexivity. Qed.

Lemma marker_decodes r :
  schema r = SCHEMA -> struct_from_str (of_chars (marker_text r)) ≫= marker_of = Some r.
Proof.
  intros Hs. unfold marker_text. rewrite chars_of_chars, struct_from_str_pretty.
  - by apply marker_of_fields.
  - intros e He. unfold marker_fields in He. rewrite Hs in He.
    repeat destruct He as [<-|He]; try done; (split; [cbn; lia|done]).
Qed.

(** A tree is reported as the release whose marker was written into it,
    and a marker is only believed when it names a release, a revision and an
    archive digest; a tree without one is reported as unknown, and so is one
    whose marker cannot be believed. *)
Theorem marker_says_what_was_installed tree r :
  (forall d d', writable (marker_path tree) (nodes d) -> write_into tree r d = (Ok tt, d') -> Z.of_nat (length (marker_text r)) <= MAX_MARKER ->
     marker_ok r /\ read (nodes d') tree = Ok (Some r) /\ reported (nodes d') tree = version r)
  /\ (forall n q, read n tree = Ok (Some q) -> marker_ok q /\ reported n tree = version q)
  /\ (forall n, (forall q, read n tree <> Ok (Some q)) -> reported n tree = UNKNOWN).
Proof.
  split; [|split].
  - intros d d' Hd Hw Hlen. unfold write_into, lift in Hw. unfold bind at 1 in Hw.
    destruct (validate r) as [[]|] eqn:Ev; [|done]. apply validate_spec in Ev as Hok.
    assert (Fs.read (nodes d') (marker_path tree) = Ok (marker_text r)) as Hr.
    { unfold on_file in Hw. destruct ((Fs.write _ _ ;;; _) d) as [[[]|e] d1] eqn:E; [|done].
      injection Hw as <-. apply holds_text_read.
      assert (leaves (writable (marker_path tree)) (Fs.write (marker_path tree) (marker_text r) ;;;
        set_permissions (marker_path tree) 0x1A4)
        (fun res n => match res with Ok _ => holds_text (marker_path tree) (Some (marker_text r)) n | Err _ => True end)) as Hl.
      { eapply leaves_bind with (Q1 := fun _ => holds_text (marker_path tree) (Some (marker_text r)));
          [apply write_then_read|]. intros _.
        apply leaves_through_holds with (body := Some (marker_text r)); [done| |done].
        intros x t Hb [= <-]. by apply Hb. }
      specialize (Hl d Hd). by rewrite E in Hl. }
    assert (read (nodes d') tree = Ok (Some r)) as E.
    { unfold read. rewrite Hr, (proj2 (Z.ltb_ge _ _)), marker_decodes, Ev by (apply Hok || done). done. }
    split; [done|]. split; [done|]. unfold reported. by rewrite E.
  - intros n q Hq. unfold reported. rewrite Hq. split; [|done]. unfold read in Hq.
    destruct (Fs.read n (marker_path tree)) as [raw|[]]; try done. split_if_in Hq; [done|].
    destruct (struct_from_str (of_chars raw) ≫= marker_of) as [q'|]; [|done].
    destruct (validate q') as [[]|] eqn:Ev; [|done]. injection Hq as <-. by apply validate_spec.
  - intros n Hn. unfold reported. destruct (read n tree) as [[q|]|e] eqn:E; try done. by destruct (Hn q).
Qed.
End Files.
End Markers.

(** ** Concrete requests *)

Module UpdateRequestSamples.
Import Codec updaterequest Requests.

#[local] Instance root : Process := {| euid := 0; umask := 0x12 |}.
Definition path : string := "/n/node/update-request.json".
Definition asked (t : Z) : UpdateRequest :=
  {| version := "v1.2.3"; requested_at := t; requested_by := None; operation_id := Some "op-1" |}.
Definition folder : Node := {| f_kind := Directory; f_owner := 0; f_mode := 0x1ED; f_body := [] |}.
Definition file (body : bytes) : Node :=
  {| f_kind := RegularFile; f_owner := 7; f_mode := 0x1A4; f_body := body |}.
Definition empty (p : list Fate) : Disk := {| nodes := {[ "/n/node"%string := folder ]}; plan := p |}.
Definition waiting (t : Z) (p : list Fate) : Disk :=
  {| nodes := <[path := file (encoded (asked t))]> {[ "/n/node"%string := folder ]}; plan := p |}.

Lemma update_request_acts_at_most_once_witness :
  acted path [200; 300; 400]%Z (waiting 100 [Stops; Goes]) = [(300, asked 100)]%Z
  /\ (length (acted path [200; 300; 400]%Z (waiting 100 [Stops; Goes])) <= 1)%nat.
Proof.
  split; [vm_compute; reflexivity|].
  apply (update_request_acts_at_most_once path [200; 300; 400]%Z (waiting 100 [Stops; Goes])).
  vm_compute. set_solver.
Defined.

Lemma resolved_release_is_a_tag_witness :
  release_tag "v1.2.3" /\ plain_name "v1.2.3".
Proof.
  destruct (resolved_release_is_a_tag None path 200 (waiting 100 []) (Requested (asked 100))
              (snd (resolve None path 200 (waiting 100 [])))) as (H1 & H2 & _); [vm_compute; reflexivity|].
  by split.
Defined.

Lemma request_is_written_whole_and_read_back_witness :
  exists d2, consume path 200 (snd (write path (asked 100) (empty []))) = (Ok (Some (asked 100)), d2).
Proof.
  destruct (request_is_written_whole_and_read_back path (asked 100) (empty []) 200) as [_ Hr].
  1: by split.
  1,2,3: by vm_compute.
  1: by split; vm_compute.
  1: by vm_compute.
  destruct (Hr (snd (write path (asked 100) (empty [])))) as (d2 & Hd2 & _); [reflexivity|done|reflexivity|].
  by exists d2.
Defined.

(** When the system refuses to remove the file, the update is run again by the
    next start. *)
Lemma refused_removal_repeats_the_update :
  acted path [200; 300]%Z (waiting 100 [Fails]) = [(200, asked 100); (300, asked 100)]%Z.
Proof. vm_compute. reflexivity. Qed.

(** A request dated in the future does not grow stale: here it is acted on
    a hundred days later. *)
Lemma future_request_never_expires :
  acted path [8640000]%Z (waiting 9000000000 []) = [(8640000, asked 9000000000)]%Z.
Proof. vm_compute. reflexivity. Qed.

Import runtimerelease.
Definition release : RuntimeRelease :=
  {| schema := 1; version := "v1.2.3"; source_revision := "abc123"; platform := "linux/amd64";
     archive_sha256 := of_chars (List.repeat (Ascii.ascii_of_N 48) 64) |}.

Lemma marker_says_what_was_installed_witness :
  reported (nodes (snd (write_into "/n/node" release (empty [])))) "/n/node" = "v1.2.3"%string.
Proof.
  destruct (Markers.marker_says_what_was_installed "/n/node" release) as [Hw _].
  by apply (Hw (empty []) (snd (write_into "/n/node" release (empty [])))); [left| |]; vm_compute.
Defined.
End UpdateRequestSamples.
