(* ===== verification/Bundle.v ===== *)
(** * Bundle: the runtime bundle, what it claims and whether the bytes agree
    ([bundle.rs]).

    Reading a manifest is serde_json's, hashing SHA-256's and iterating over the
    members of an archive and unpacking one of them the tar crate's: these are
    parameters ([parse], [sha256] and the class [Tar]).  The order of the
    checks, the comparisons and the rule that every member lies in the runtime
    tree are the source's. *)
From Stdlib Require Import Lia.
From stdpp Require Import gmap.
From S2P Require Import Prelude Text Fs UpdateRequest.

Definition CHECKSUM_FILE : string := "SHA256SUMS.runtime".
Definition SUPPORTED_SCHEMA : Z := 1.

Record ArchiveRef : Type := { ar_name : string; ar_sha256 : string; ar_size_bytes : Z }.

Record Manifest : Type := {
  mf_schema : Z;
  mf_product : string;
  mf_version : string;
  mf_source_revision : string;
  mf_platform : string;
  mf_components : list (string * string);
  mf_runtime_image : string;
  mf_sqlite_journal_mode : string;
  mf_archive : ArchiveRef;
  mf_installed_size_bytes : Z;
  mf_install_root : string
}.

Inductive BundleError : Type :=
| ReadFailed (e : FsError)
| NotJson
| SchemaNotSupported
| NotTheRuntime
| OtherPlatform
| UnnamedRevision
| NoDigest
| ArchiveNotHere
| WrongSize (size : Z)
| DigestMismatch
| ChecksumDisagrees
| ChecksumMissing
| BrokenArchive (text : string)
| OutsideTheTree
| ClimbsOut.

Definition all_hex (s : string) : bool := all_chars runtimerelease.is_hexdigit s.

Definition accept (m : Manifest) (platform : string) : Result BundleError unit :=
  if negb (mf_schema m =? SUPPORTED_SCHEMA) then Err SchemaNotSupported
  else if negb (mf_product m =? "asterism-runtime")%string then Err NotTheRuntime
  else if negb (mf_platform m =? platform)%string then Err OtherPlatform
  else if (mf_source_revision m =? "")%string || (mf_source_revision m =? "unknown")%string
          || (mf_source_revision m =? "?")%string
  then Err UnnamedRevision
  else if negb (len (ar_sha256 (mf_archive m)) =? 64) || negb (all_hex (ar_sha256 (mf_archive m)))
  then Err NoDigest
  else Ok tt.

Definition from_manifest (m : Manifest) : runtimerelease.RuntimeRelease :=
  {| runtimerelease.schema := runtimerelease.SCHEMA;
     runtimerelease.version := mf_version m;
     runtimerelease.source_revision := mf_source_revision m;
     runtimerelease.platform := mf_platform m;
     runtimerelease.archive_sha256 := ar_sha256 (mf_archive m) |}.

(** [eq_ignore_ascii_case]. *)
Definition lowercase (s : string) : string := of_chars (List.map to_ascii_lowercase (chars s)).
Definition same_digest (a b : string) : bool := (lowercase a =? lowercase b)%string.

Record VerifiedBundle : Type := { vb_manifest : Manifest; vb_archive : string }.

(** ** Members of an archive *)

Inductive Component : Type := RootDir | CurDir | ParentDir | Normal (name : string).

(** [Path::components]: separators are runs of [/], and a [.] counts only at
    the start. *)
Definition inner (piece : bytes) : list Component :=
  match of_chars piece with
  | ""%string | "."%string => []
  | ".."%string => [ParentDir]
  | name => [Normal name]
  end.
Definition components (path : string) : list Component :=
  match split SLASH (chars path) with
  | [] => []
  | first :: rest =>
      match of_chars first with
      | ""%string => match rest with [] => [] | _ => [RootDir] end
      | "."%string => [CurDir]
      | _ => inner first
      end ++ List.concat (List.map inner rest)
  end.

Definition is_parent (c : Component) : bool := match c with ParentDir => true | _ => false end.
Definition member_is_inside_the_tree (path : string) : Result BundleError unit :=
  match components path with
  | Normal "asterism" :: _ => if List.existsb is_parent (components path) then Err ClimbsOut else Ok tt
  | _ => Err OutsideTheTree
  end.

(** An entry of a tar archive: the path it names, if it has a readable one, and
    what unpacking it into a directory does. *)
Record Member : Type := {
  mb_path : option string;
  unpack_in : string -> M FsError Disk unit
}.
(** [None] as a list is an archive that cannot be read, as an entry one that
    ended in the middle. *)
Class Tar : Type := { entries : bytes -> option (list (option Member)) }.

Section Bundles.
Context `{Process, Tar} (sha256 : bytes -> list Z) (parse : bytes -> option Manifest).

Definition hex (digest : list Z) : string := of_chars (List.concat (List.map (hex_fixed 2) digest)).
Definition sha256_file (n : gmap string Node) (path : string) : Result FsError string :=
  match read n path with Ok body => Ok (hex (sha256 body)) | Err e => Err (Io e) end.

Definition matches_archive (n : gmap string Node) (m : Manifest) (archive : string) : Result BundleError unit :=
  match read n archive with
  | Err e => Err (ReadFailed (Io e))
  | Ok body =>
      let size := Z.of_nat (length body) in
      if negb (size =? ar_size_bytes (mf_archive m)) then Err (WrongSize size)
      else match sha256_file n archive with
           | Err e => Err (ReadFailed e)
           | Ok actual =>
               if negb (same_digest actual (ar_sha256 (mf_archive m))) then Err DigestMismatch else Ok tt
           end
  end.

(** The first line of the list that names the archive. *)
Definition checksum_line (name : string) (line : bytes) : option string :=
  match split_once_str $"  " line with
  | Some (digest, file) =>
      if (of_chars (trim file) =? name)%string then Some (of_chars (trim digest)) else None
  | None => None
  end.
Fixpoint listed_in (name : string) (ls : list bytes) : option string :=
  match ls with
  | [] => None
  | l :: ls => match checksum_line name l with Some d => Some d | None => listed_in name ls end
  end.

Definition verify (n : gmap string Node) (directory platform : string) : Result BundleError VerifiedBundle :=
  match read_to_string n (path_join directory "manifest.json") with
  | Err e => Err (ReadFailed (Io e))
  | Ok text =>
      match parse text with
      | None => Err NotJson
      | Some m =>
          match accept m platform with
          | Err e => Err e
          | Ok _ =>
              let archive := path_join directory (ar_name (mf_archive m)) in
              if negb (is_file n archive) then Err ArchiveNotHere
              else match matches_archive n m archive with
                   | Err e => Err e
                   | Ok _ =>
                       match read_to_string n (path_join directory CHECKSUM_FILE) with
                       | Err e => Err (ReadFailed (Io e))
                       | Ok sums =>
                           match listed_in (ar_name (mf_archive m)) (lines sums) with
                           | Some digest =>
                               if same_digest digest (ar_sha256 (mf_archive m))
                               then Ok {| vb_manifest := m; vb_archive := archive |}
                               else Err ChecksumDisagrees
                           | None => Err ChecksumMissing
                           end
                       end
                   end
          end
      end
  end.

Definition on_bundle {A} (m : M FsError Disk A) : M BundleError Disk A :=
  fun d => match m d with (Ok a, d') => (Ok a, d') | (Err e, d') => (Err (ReadFailed e), d') end.

Fixpoint unpack_each (into : string) (ms : list (option Member)) : M BundleError Disk unit :=
  match ms with
  | [] => ret tt
  | None :: _ => fail (BrokenArchive "the archive ended in the middle of an entry")
  | Some m :: ms =>
      match mb_path m with
      | None => fail (BrokenArchive "an archive member has no readable path")
      | Some path =>
          lift (member_is_inside_the_tree path) ;;;
          on_bundle (unpack_in m into) ;;;
          unpack_each into ms
      end
  end.
Definition unpack (b : VerifiedBundle) (into : string) : M BundleError Disk string :=
  let! body := on_bundle (look (fun n => read n (vb_archive b))) in
  match body with
  | Err e => fail (ReadFailed (Io e))
  | Ok body =>
      on_bundle (create_dir_all into) ;;;
      match entries body with
      | None => fail (BrokenArchive "cannot read the archive")
      | Some ms => unpack_each into ms ;;; ret (path_join into "asterism")
      end
  end.
End Bundles.

(** ** What a verified bundle is *)

(** A bundle is only unpacked when its manifest is of the schema, product
    and platform asked for and names its revision, and the bytes of the archive
    have the length and the SHA-256 that the manifest declares, which is also
    what the separate checksum file lists for that archive. *)
Theorem verified_bundle_is_the_named_one sha256 parse n directory platform b :
  verify sha256 parse n directory platform = Ok b ->
  let m := vb_manifest b in
  mf_schema m = SUPPORTED_SCHEMA /\ mf_product m = "asterism-runtime"%string /\ mf_platform m = platform
  /\ mf_source_revision m <> ""%string /\ mf_source_revision m <> "unknown"%string
  /\ vb_archive b = path_join directory (ar_name (mf_archive m))
  /\ exists body sums listed,
       read n (vb_archive b) = Ok body
       /\ Z.of_nat (length body) = ar_size_bytes (mf_archive m)
       /\ lowercase (hex (sha256 body)) = lowercase (ar_sha256 (mf_archive m))
       /\ read_to_string n (path_join directory CHECKSUM_FILE) = Ok sums
       /\ listed_in (ar_name (mf_archive m)) (lines sums) = Some listed
       /\ lowercase listed = lowercase (hex (sha256 body)).
Proof.
  intros Hv. unfold verify in Hv.
  destruct (read_to_string n (path_join directory "manifest.json")) as [text|]; [|done].
  destruct (parse text) as [m|]; [|done]. destruct (accept m platform) as [[]|] eqn:Ha; [|done].
  destruct (is_file n _); [|done]. cbn [negb] in Hv.
  destruct (matches_archive sha256 n m _) as [[]|] eqn:Hm; [|done].
  destruct (read_to_string n (path_join directory CHECKSUM_FILE)) as [sums|] eqn:Hsums; [|done].
  destruct (listed_in _ _) as [listed|] eqn:Hl; [|done].
  destruct (same_digest listed _) eqn:Hd; [|done]. injection Hv as <-. cbn [vb_manifest vb_archive].
  unfold accept in Ha. repeat split_if_in Ha; try done.
  apply negb_false_iff, Z.eqb_eq in Heqb. apply negb_false_iff, String.eqb_eq in Heqb0, Heqb1.
  apply orb_false_iff in Heqb2 as [[H1 H2]%orb_false_iff _]. apply String.eqb_neq in H1, H2.
  unfold matches_archive, sha256_file in Hm. destruct (read n _) as [body|] eqn:Hr; [|done].
  split_if_in Hm; [done|]. apply negb_false_iff, Z.eqb_eq in Heqb2. split_if_in Hm; [done|].
  apply negb_false_iff, String.eqb_eq in Heqb4. apply String.eqb_eq in Hd.
  split_and!; try done. exists body, sums, listed. rewrite Hd. by split_and!.
Qed.
