(* ===== verification/RuntimeSwap.v ===== *)
(** * RuntimeSwap: replacing the runtime tree ([nodeinstall.rs] [RuntimeSwap],
    [install_runtime] and [recover_from_interrupted_install], with
    [nodesetup.rs] [own_as_root]).

    The trees are directories of the disk of Fs.v.  Removing a tree is one
    system call per entry, children first, so a removal that is refused or cut
    short leaves part of the tree.  Whether the launcher of the new runtime
    starts ([runtime_runs] beyond looking for the file) is an argument, and so
    are the service account and the id of the process. *)
From Stdlib Require Import Lia.
From stdpp Require Import gmap.
From S2P Require Import Prelude Text Json Fs UpdateRequest Bundle.

Inductive InstallError : Type :=
| OnTree (e : FsError)
| OnBundle (e : BundleError)
| OnMarker (e : UpdateError)
| NoParent
| NoLauncher
| CannotStart (text : string).

Definition on_tree {A} (m : M FsError Disk A) : M InstallError Disk A :=
  fun d => match m d with (Ok a, d') => (Ok a, d') | (Err e, d') => (Err (OnTree e), d') end.
(** The end of the process is not an error a program returns. *)
Definition crashed (e : InstallError) : bool :=
  match e with
  | OnTree Crashed | OnBundle (ReadFailed Crashed) | OnMarker (OnFile Crashed) => true
  | _ => false
  end.
Definition relabel {E A} (f : E -> InstallError) (m : M E Disk A) : M InstallError Disk A :=
  fun d => match m d with (Ok a, d') => (Ok a, d') | (Err e, d') => (Err (f e), d') end.

(** ** Trees *)

Definition longer_first (a b : string) : bool := Nat.leb (String.length b) (String.length a).
Definition keys_below (path : string) (n : gmap string Node) : list string :=
  order_by longer_first (List.filter (below path) (List.map fst (map_to_list n))).
Definition delete_entry (key : string) : M FsError Disk unit := syscall (fun n => Ok (tt, delete key n)).
Fixpoint delete_each (keys : list string) : M FsError Disk unit :=
  match keys with [] => ret tt | k :: ks => delete_entry k ;;; delete_each ks end.
(** [fs::remove_dir_all]: a directory with everything in it, or a link. *)
Definition remove_tree (path : string) : M FsError Disk unit :=
  let! n := look (fun n => n) in
  match n !! path with
  | None => fail (Io NotFound)
  | Some x =>
      if bool_decide (f_kind x = Directory) || bool_decide (f_kind x = Symlink)
      then delete_each (keys_below path n)
      else fail (Io IoFailed)
  end.

(** [fs::rename] of whatever is there. *)
Definition move (src dst : string) : M FsError Disk unit :=
  let! tree := look (fun n => match n !! src with
                              | Some x => bool_decide (f_kind x = Directory)
                              | None => false
                              end) in
  if tree : bool then rename_dir src dst else rename src dst.

(** [lchown] of an entry, and of everything [walkdir] finds. *)
Definition lchown (key : string) (uid : Z) : M FsError Disk unit :=
  syscall (fun n => match n !! key with
                    | Some x => Ok (tt, <[key := with_owner uid x]> n)
                    | None => Err NotFound
                    end).
Fixpoint lchown_each (keys : list string) (uid : Z) : M FsError Disk unit :=
  match keys with [] => ret tt | k :: ks => lchown k uid ;;; lchown_each ks uid end.
Definition own_as_root (service : option Z) (root : string) : M FsError Disk unit :=
  match service with
  | None => ret tt
  | Some _ => let! n := look (fun n => n) in lchown_each (List.rev (keys_below root n)) 0
  end.

(** ** The swap *)

Record Swap : Type := { sw_opt : string; sw_retired : option string }.

Definition roll_back (s : Swap) : M FsError Disk unit :=
  let! there := look (fun n => match sw_retired s with
                               | Some retired => if exists_ n retired then Some retired else None
                               | None => None
                               end) in
  match there with
  | Some retired =>
      ignore_errors (remove_tree (sw_opt s)) ;;;
      ignore_errors (move retired (sw_opt s)) ;;;
      ret tt
  | None =>
      let failed := with_extension (sw_opt s) "failed" in
      ignore_errors (remove_tree failed) ;;;
      let! moved := ignore_errors (move (sw_opt s) failed) in
      match moved with
      | Some _ => ret tt
      | None => ignore_errors (remove_tree (sw_opt s)) ;;; ret tt
      end
  end.

Definition commit (s : Swap) : M FsError Disk unit :=
  match sw_retired s with
  | Some retired => ignore_errors (remove_tree retired) ;;; ret tt
  | None => ret tt
  end.

Definition incoming_in (dir : string) : string := path_join dir ".asterism-incoming".
Definition retired_in (dir : string) : string := path_join dir ".asterism-previous".
Definition launcher (opt : string) : string := path_join opt "hermes/.venv/bin/hermes".

Section Install.
Context `{Process, SerdeJson, Tar} (service : option Z).

(** The result of running the launcher once it was found. *)
Definition runtime_runs (starts : Result string unit) (opt : string) : M InstallError Disk unit :=
  let! there := on_tree (look (fun n => is_file n (launcher opt))) in
  if negb there then fail NoLauncher
  else lift (match starts with Ok _ => Ok tt | Err text => Err (CannotStart text) end).

(** Mode, owners, and whether it starts at all. *)
Definition prove_runtime (starts : Result string unit) (opt : string) : M InstallError Disk unit :=
  on_tree (set_permissions opt 0x1ED) ;;;
  on_tree (own_as_root service opt) ;;;
  runtime_runs starts opt.

(** An error after the new tree is live: the previous one is put back first. *)
Definition or_roll_back (s : Swap) (m : M InstallError Disk unit) : M InstallError Disk unit :=
  fun d => match m d with
           | (Ok _, d') => (Ok tt, d')
           | (Err e, d') =>
               if crashed e then (Err e, d')
               else (on_tree (roll_back s) ;;; fail e) d'
           end.

(** Everything up to the new tree, with its marker, beside the live one. *)
Definition stage (b : VerifiedBundle) (dir : string) : M InstallError Disk string :=
  let incoming := incoming_in dir in
  on_tree (ignore_errors (remove_tree incoming)) ;;;
  on_tree (create_dir_all incoming) ;;;
  relabel OnBundle (unpack b incoming) ;;;
  let tree := path_join incoming "asterism" in
  relabel OnMarker (runtimerelease.write_into tree (from_manifest (vb_manifest b))) ;;;
  ret tree.

(** The two renames. *)
Definition swap_trees (opt tree dir : string) : M InstallError Disk Swap :=
  let retired := retired_in dir in
  on_tree (ignore_errors (remove_tree retired)) ;;;
  let! had_previous := on_tree (look (fun n => exists_ n opt)) in
  (if had_previous : bool then on_tree (move opt retired) else ret tt) ;;;
  fun d => match on_tree (move tree opt) d with
           | (Ok _, d') =>
               (on_tree (ignore_errors (remove_tree (incoming_in dir))) ;;;
                ret {| sw_opt := opt; sw_retired := if had_previous then Some retired else None |}) d'
           | (Err e, d') =>
               if crashed e then (Err e, d')
               else (let! gone := on_tree (look (fun n => negb (exists_ n opt))) in
                     (if had_previous && gone
                      then on_tree (ignore_errors (move retired opt)) ;;; ret tt
                      else ret tt) ;;;
                     fail e) d'
           end.

Definition install_runtime (b : VerifiedBundle) (opt : string) (starts : Result string unit) :
    M InstallError Disk Swap :=
  match parent opt with
  | None => fail NoParent
  | Some dir =>
      on_tree (create_dir_all dir) ;;;
      let! tree := stage b dir in
      let! s := swap_trees opt tree dir in
      or_roll_back s (prove_runtime starts opt) ;;;
      ret s
  end.
End Install.

(** ** Recovery *)

(** The direct entries of a directory, and those an earlier process staged in. *)
Definition entries_of (dir : string) (n : gmap string Node) : list string :=
  List.filter (fun k => match parent k with Some p => (p =? dir)%string | None => false end)
    (List.map fst (map_to_list n)).
Definition file_name (path : string) : string :=
  match split_once SLASH (List.rev (chars path)) with
  | Some (name, _) => of_chars (List.rev name)
  | None => path
  end.
Definition stale_staging (mine path : string) : bool :=
  str_starts_with ".asterism-install." (file_name path) && negb (file_name path =? mine)%string.
Fixpoint remove_trees (paths : list string) : M FsError Disk unit :=
  match paths with
  | [] => ret tt
  | p :: ps => ignore_errors (remove_tree p) ;;; remove_trees ps
  end.

(** What an interrupted install left, once a runtime is live. *)
Definition clear_leftovers (opt dir : string) (pid : Z) : M FsError Disk unit :=
  let! live := look (fun n => exists_ n opt) in
  (if live : bool then ignore_errors (remove_tree (retired_in dir)) ;;; ret tt else ret tt) ;;;
  ignore_errors (remove_tree (incoming_in dir)) ;;;
  let mine := ".asterism-install." +:+ decimal pid in
  let! left_over := look (fun n => List.filter (stale_staging mine) (entries_of dir n)) in
  remove_trees left_over.

Definition recover_from_interrupted_install (opt : string) (pid : Z) : M FsError Disk unit :=
  match parent opt with
  | None => ret tt
  | Some dir =>
      let! stranded := look (fun n => negb (exists_ n opt) && is_dir n (retired_in dir)) in
      (if stranded : bool then move (retired_in dir) opt else ret tt) ;;;
      clear_leftovers opt dir pid
  end.
