(* ===== verification/Trees.v ===== *)
(** * Trees: directories as wholes.

    Paths that do not meet, what a program over the disk can change, and what
    moving and removing a tree leave behind, undisturbed or not. *)
From Stdlib Require Import Lia.
From stdpp Require Import gmap.
From S2P Require Import Prelude Text Fs RuntimeSwap.

(** ** Paths that do not meet *)

Lemma append_split (a b c d : string) :
  a +:+ b = c +:+ d -> (String.length a <= String.length c)%nat -> exists r, c = a +:+ r /\ b = r +:+ d.
Proof.
  revert c. induction a as [|x a IH]; intros c Heq Hl; [by exists c|].
  destruct c as [|y c]; [cbn in Hl; lia|]. cbn in Heq. injection Heq as -> Heq.
  destruct (IH c Heq) as (r & -> & ->); [cbn in Hl; lia|]. by exists r.
Qed.

Lemma rooted_spec rel : rooted rel = true <-> rel = ""%string \/ exists r, rel = String SLASH r.
Proof.
  unfold rooted, str_starts_with. rewrite orb_true_iff, String.eqb_eq, starts_with_true. split.
  - intros [->|[r Hr]]; [by left|]. right. exists (of_chars r). apply string_chars_inj. rewrite Hr. cbn.
    by rewrite of_chars_chars.
  - intros [->|[r ->]]; [by left|]. right. by exists (chars r).
Qed.

Lemma rooted_prefix r s : rooted (r +:+ s) = true -> rooted r = true.
Proof.
  rewrite !rooted_spec. destruct r as [|c r]; [by left|]. intros [?|[q [= -> _]]]; [done|]. right. by exists r.
Qed.

Lemma below_common p q k : below p k = true -> below q k = true -> below p q = true \/ below q p = true.
Proof.
  intros (r & -> & Hr)%below_spec (s & Heq & Hs)%below_spec.
  destruct (Nat.le_ge_cases (String.length p) (String.length q)) as [Hl|Hl].
  - destruct (append_split _ _ _ _ Heq Hl) as (t & -> & ->). left. apply below_rel. by apply rooted_prefix in Hr.
  - symmetry in Heq. destruct (append_split _ _ _ _ Heq Hl) as (t & -> & ->). right. apply below_rel.
    by apply rooted_prefix in Hs.
Qed.

Lemma append_assoc' (a b c : string) : (a +:+ b) +:+ c = a +:+ (b +:+ c).
Proof. apply string_chars_inj. by rewrite !chars_append, app_assoc. Qed.

Lemma below_trans p q k : below p q = true -> below q k = true -> below p k = true.
Proof.
  intros (r & -> & Hr)%below_spec (s & -> & Hs)%below_spec. rewrite append_assoc'. apply below_rel.
  rewrite rooted_spec in *. destruct Hr as [->|[r' ->]]; [exact Hs|]. right. by exists (r' +:+ s).
Qed.

Lemma below_self p : below p p = true.
Proof. apply below_spec. exists ""%string. split; [|done]. apply string_chars_inj. by rewrite chars_append, app_nil_r. Qed.

Definition apart (p q : string) : Prop := below p q = false /\ below q p = false.

Lemma apart_keys p q k : apart p q -> below p k = true -> below q k = false.
Proof.
  intros [H1 H2] Hp. destruct (below q k) eqn:Hq; [|done].
  destruct (below_common _ _ _ Hp Hq); congruence.
Qed.

Lemma apart_sym p q : apart p q -> apart q p.
Proof. by intros []. Qed.

Lemma apart_child p q c : apart p q -> below p c = true -> apart c q.
Proof.
  intros [H1 H2] Hc. split.
  - destruct (below c q) eqn:E; [|done]. by rewrite (below_trans _ _ _ Hc E) in H1.
  - destruct (below q c) eqn:E; [|done]. destruct (below_common _ _ _ Hc E); congruence.
Qed.

Lemma plain_join_eq dir name : plain_dir dir -> plain_name name -> path_join dir name = dir +:+ ("/" +:+ name).
Proof.
  intros Hd Hn. rewrite path_join_plain by (done || by apply plain_name_relative). apply string_chars_inj.
  by rewrite !chars_append.
Qed.

Lemma join_below dir name : plain_dir dir -> plain_name name -> below dir (path_join dir name) = true.
Proof. intros Hd Hn. rewrite plain_join_eq by done. apply below_rel, rooted_spec. right. by exists name. Qed.

Lemma siblings_apart dir a b :
  plain_dir dir -> plain_name a -> plain_name b -> a <> b -> apart (path_join dir a) (path_join dir b).
Proof.
  intros Hd Ha Hb Hne.
  assert (forall x y, plain_name x -> plain_name y -> x <> y ->
    below (path_join dir x) (path_join dir y) = false) as Hone.
  { intros x y Hx Hy Hxy. destruct (below _ _) eqn:E; [|done].
    apply below_spec in E as (r & Heq & Hr). rewrite !plain_join_eq, !append_assoc' in Heq by done.
    apply (inj (String.append dir)), (inj (String.append "/")) in Heq.
    destruct r as [|c r]; [destruct Hxy; apply string_chars_inj; rewrite Heq, chars_append; cbn; by rewrite app_nil_r|].
    destruct Hy as [_ Hy]. destruct Hy. rewrite Heq, chars_append, in_app_iff. right. left.
    apply rooted_spec in Hr as [?|[q [= -> _]]]; done. }
  split; apply Hone; auto.
Qed.

(** ** What a program changes *)

Section Within.
Context {E : Type}.

(** Only the keys that satisfy [P]. *)
Definition within {A} (P : string -> bool) (m : M E Disk A) : Prop :=
  forall d k, P k = false -> nodes (snd (m d)) !! k = nodes d !! k.

Lemma within_ret {A} P (a : A) : within P (ret a).
Proof. done. Qed.
Lemma within_fail {A} P e : within P (fail e : M E Disk A).
Proof. done. Qed.
Lemma within_lift {A} P (r : Result E A) : within P (lift r).
Proof. done. Qed.
Lemma within_gets {A} P (f : Disk -> A) : within P (gets f).
Proof. done. Qed.
Lemma within_bind {A B} P (m : M E Disk A) (k : A -> M E Disk B) :
  within P m -> (forall a, within P (k a)) -> within P (bind m k).
Proof.
  intros Hm Hk d key HP. unfold bind. specialize (Hm d key HP).
  destruct (m d) as [[a|e] d1]; cbn in *; [|done]. by rewrite Hk.
Qed.
Lemma tree_within_weaken {A} P Q (m : M E Disk A) :
  (forall k, P k = true -> Q k = true) -> within P m -> within Q m.
Proof. intros H Hm d k HQ. apply Hm. destruct (P k) eqn:Hk; [|done]. apply H in Hk. congruence. Qed.
End Within.

Lemma within_syscall {A} P (f : gmap string Node -> Result IoError (A * gmap string Node)) :
  (forall n a n', f n = Ok (a, n') -> forall k, P k = false -> n' !! k = n !! k) -> within P (syscall f).
Proof.
  intros Hf d k HP. unfold syscall. destruct (plan d) as [|[] p]; cbn; try done;
    destruct (f (nodes d)) as [[a n']|e] eqn:E; cbn; try done; by eapply Hf.
Qed.
Lemma within_ignore {A} P (m : M FsError Disk A) : within P m -> within P (ignore_errors m).
Proof. intros Hm d k HP. unfold ignore_errors. specialize (Hm d k HP). by destruct (m d) as [[a|[]] d1]. Qed.
Lemma within_on_tree {A} P (m : M FsError Disk A) : within P m -> within P (on_tree m).
Proof. intros Hm d k HP. unfold on_tree. specialize (Hm d k HP). by destruct (m d) as [[a|e] d1]. Qed.

Lemma keys_below_below path n k : In k (keys_below path n) -> below path k = true.
Proof. unfold keys_below. rewrite In_order_by, filter_In. tauto. Qed.

Lemma within_delete_each P ks : (forall k, In k ks -> P k = true) -> within P (delete_each ks).
Proof.
  intros Hk. induction ks as [|k ks IH]; [done|]. cbn [delete_each]. apply within_bind.
  - apply within_syscall. intros n a n' [= <- <-] key HP. rewrite lookup_delete_ne; [done|].
    intros ->. specialize (Hk key (or_introl eq_refl)). congruence.
  - intros _. apply IH. intros key Hin. apply Hk. by right.
Qed.
Lemma within_remove_tree path : within (below path) (remove_tree path).
Proof.
  unfold remove_tree. intros d k HP. cbn. destruct (nodes d !! path) as [x|]; [|done].
  destruct (_ || _); [|done]. apply (within_delete_each (below path)); [|done]. apply keys_below_below.
Qed.
Lemma within_lchown_each P ks u : (forall k, In k ks -> P k = true) -> within P (lchown_each ks u).
Proof.
  intros Hk. induction ks as [|k ks IH]; [done|]. cbn [lchown_each]. apply within_bind.
  - apply within_syscall. intros n a n'. destruct (n !! k) as [x|]; [|done]. intros [= <- <-] key HP.
    rewrite lookup_insert_ne; [done|]. intros ->. specialize (Hk key (or_introl eq_refl)). congruence.
  - intros _. apply IH. intros key Hin. apply Hk. by right.
Qed.

(** ** Trees *)

(** The tree below a path, by relative names. *)
Definition Tree : Type := string -> option Node.
Definition holds (path : string) (t : Tree) (n : gmap string Node) : Prop :=
  forall rel, rooted rel = true -> n !! (path +:+ rel) = t rel.
Definition nothing : Tree := fun _ => None.
Definition subtree (path : string) (n : gmap string Node) : Tree := fun rel => n !! (path +:+ rel).
(** A directory with something in it or not. *)
Definition is_tree (t : Tree) : Prop := exists x, t ""%string = Some x /\ f_kind x = Directory.

Lemma append_empty (s : string) : s +:+ "" = s.
Proof. apply string_chars_inj. by rewrite chars_append, app_nil_r. Qed.

Lemma holds_root path t n : holds path t n -> n !! path = t ""%string.
Proof. intros Hh. specialize (Hh ""%string eq_refl). by rewrite append_empty in Hh. Qed.

Lemma holds_within {E A} path t P (m : M E Disk A) d :
  within P m -> (forall k, below path k = true -> P k = false) ->
  holds path t (nodes d) -> holds path t (nodes (snd (m d))).
Proof. intros Hm HP Hh rel Hr. rewrite Hm; [by apply Hh|]. by apply HP, below_rel. Qed.

Lemma holds_exists path t n : is_tree t -> holds path t n -> exists_ n path = true.
Proof. intros (x & Hx & Hk) Hh. apply (exists_file _ _ x); [|congruence]. by rewrite (holds_root _ _ _ Hh). Qed.

Lemma holds_nothing path n : holds path nothing n -> exists_ n path = false.
Proof. intros Hh. apply exists_absent. by rewrite (holds_root _ _ _ Hh). Qed.

Lemma holds_subtree path n : holds path (subtree path n) n.
Proof. by intros rel Hr. Qed.

Lemma holds_ext path t t' n : (forall rel, t rel = t' rel) -> holds path t n -> holds path t' n.
Proof. intros Ht Hh rel Hr. by rewrite <- Ht, Hh. Qed.

(** A tree moved to a free name. *)
Lemma move_tree_spec src dst n :
  apart src dst -> is_Some (n !! src) -> occupied_below dst n = false ->
  holds dst (subtree src n) (move_tree src dst n)
  /\ holds src nothing (move_tree src dst n)
  /\ (forall k, below src k = false -> below dst k = false -> move_tree src dst n !! k = n !! k).
Proof.
  intros [Hsd Hds] Hsome Hocc. unfold move_tree.
  set (moved := list_to_map _ : gmap string Node).
  assert (forall k x, moved !! k = Some x <->
    exists rel, rooted rel = true /\ k = dst +:+ rel /\ n !! (src +:+ rel) = Some x) as Hm
    by apply moved_lookup. clearbody moved.
  assert (forall k, below dst k = true -> k <> dst -> n !! k = None) as Hfree.
  { intros k Hk Hne. destruct (n !! k) as [x|] eqn:E; [|done]. unfold occupied_below in Hocc.
    assert (In (k, x) (map_to_list n)) as Hin by (by apply list_elem_of_In, elem_of_map_to_list).
    rewrite existsb_false in Hocc. specialize (Hocc _ Hin). cbn in Hocc. rewrite Hk in Hocc. cbn in Hocc.
    apply negb_false_iff, String.eqb_eq in Hocc. done. }
  split; [|split].
  - intros rel Hr. unfold subtree. destruct (n !! (src +:+ rel)) as [x|] eqn:E.
    + apply lookup_union_Some_l, Hm. eauto.
    + apply lookup_union_None. split.
      * destruct (moved !! (dst +:+ rel)) as [x|] eqn:Em; [|done].
        apply Hm in Em as (rel' & Hr' & ->%(inj (String.append dst)) & Hx). congruence.
      * apply map_lookup_filter_None. left. apply Hfree; [by apply below_rel|].
        intros Heq. rewrite <- (append_empty dst) in Heq at 2. apply (inj (String.append dst)) in Heq as ->.
        rewrite append_empty in E. destruct Hsome. congruence.
  - intros rel Hr. apply lookup_union_None. split.
    + destruct (moved !! (src +:+ rel)) as [x|] eqn:Em; [|done].
      apply Hm in Em as (rel' & Hr' & Heq & Hx). exfalso.
      assert (below dst (src +:+ rel) = true) as H1 by (rewrite Heq; by apply below_rel).
      assert (below src (src +:+ rel) = true) as H2 by (by apply below_rel).
      destruct (below_common _ _ _ H1 H2); congruence.
    + apply map_lookup_filter_None. right. intros x _. cbn. rewrite below_rel by done. done.
  - intros k Hs Hd. destruct (moved !! k) as [x|] eqn:Em.
    { apply Hm in Em as (rel & Hr & -> & _). by rewrite below_rel in Hd. }
    rewrite lookup_union_r by done. destruct (n !! k) as [x|] eqn:En.
    + by apply map_lookup_filter_Some.
    + apply map_lookup_filter_None. by left.
Qed.

(** The program that does it: all or nothing. *)
Record moved_to (src dst : string) (n n' : gmap string Node) : Prop := {
  mt_dst : holds dst (subtree src n) n';
  mt_src : holds src nothing n';
  mt_rest k : below src k = false -> below dst k = false -> n' !! k = n !! k
}.

Lemma move_outcome src dst x d :
  nodes d !! src = Some x -> f_kind x = Directory -> apart src dst ->
  match fst (move src dst d) with
  | Ok _ => moved_to src dst (nodes d) (nodes (snd (move src dst d)))
  | Err _ => nodes (snd (move src dst d)) = nodes d
  end.
Proof.
  intros Hx Hk Hap. unfold move, bind. cbn. rewrite Hx, bool_decide_eq_true_2 by done.
  unfold rename_dir, syscall. destruct (plan d) as [|[] p]; try done; cbn.
  all: rewrite Hx, (bool_decide_eq_true_2 _ Hk); cbn; destruct (occupied_below dst (nodes d)) eqn:Ho; [done|].
  all: destruct (move_tree_spec src dst (nodes d) Hap) as (H1 & H2 & H3); [by eexists|done|].
  all: destruct (nodes d !! dst) as [y|]; [case_bool_decide; [by split|done]|by split].
Qed.

(** Undisturbed, a move to a name that is free goes through. *)
Lemma move_calm src dst x d :
  nodes d !! src = Some x -> f_kind x = Directory -> apart src dst ->
  plan d = [] -> holds dst nothing (nodes d) ->
  fst (move src dst d) = Ok tt /\ plan (snd (move src dst d)) = [].
Proof.
  intros Hx Hk Hap Hp Hfree. unfold move, bind. cbn. rewrite Hx, bool_decide_eq_true_2 by done.
  unfold rename_dir, syscall. rewrite Hp, Hx, (bool_decide_eq_true_2 _ Hk). cbn.
  assert (occupied_below dst (nodes d) = false) as ->.
  { apply existsb_false. intros [k y] Hin%list_elem_of_In%elem_of_map_to_list. cbn.
    destruct (below dst k) eqn:Hb; [|done]. apply below_spec in Hb as (rel & -> & Hr).
    rewrite Hfree in Hin by done. done. }
  rewrite (holds_root _ _ _ Hfree). done.
Qed.

Lemma delete_each_other ks d k : ~ In k ks -> nodes (snd (delete_each ks d)) !! k = nodes d !! k.
Proof.
  intros Hk. apply (within_delete_each (fun x => bool_decide (x ∈ ks))).
  - intros x Hx. by apply bool_decide_eq_true_2, list_elem_of_In.
  - apply bool_decide_eq_false_2. by rewrite list_elem_of_In.
Qed.

Lemma delete_each_calm ks d :
  plan d = [] -> fst (delete_each ks d) = Ok tt /\ plan (snd (delete_each ks d)) = []
  /\ forall k, In k ks -> nodes (snd (delete_each ks d)) !! k = None.
Proof.
  revert d. induction ks as [|k ks IH]; intros d Hp; [done|]. cbn [delete_each].
  unfold bind, delete_entry, syscall. rewrite Hp. cbn [fst snd].
  set (d1 := {| nodes := delete k (nodes d); plan := [] |}). destruct (IH d1 eq_refl) as (H1 & H2 & H3).
  split; [done|]. split; [done|]. intros key [<-|Hin]; [|by apply H3].
  destruct (in_dec String.string_dec k ks) as [Hin|Hin]; [by apply H3|].
  rewrite delete_each_other by done. apply lookup_delete_eq.
Qed.

Lemma remove_tree_calm path x d :
  nodes d !! path = Some x -> f_kind x = Directory -> plan d = [] ->
  fst (remove_tree path d) = Ok tt /\ plan (snd (remove_tree path d)) = []
  /\ holds path nothing (nodes (snd (remove_tree path d))).
Proof.
  intros Hx Hk Hp. unfold remove_tree, bind. cbn [look gets]. rewrite Hx, (bool_decide_eq_true_2 _ Hk). cbn [orb].
  destruct (delete_each_calm (keys_below path (nodes d)) d Hp) as (H1 & H2 & H3).
  split; [done|]. split; [done|]. intros rel Hr.
  destruct (nodes d !! (path +:+ rel)) as [y|] eqn:Ey.
  - apply H3. unfold keys_below. rewrite In_order_by, filter_In. split; [|by apply below_rel].
    apply in_map_iff. exists (path +:+ rel, y). split; [done|]. by apply list_elem_of_In, elem_of_map_to_list.
  - destruct (in_dec String.string_dec (path +:+ rel) (keys_below path (nodes d))) as [Hin|Hin]; [by apply H3|].
    by rewrite delete_each_other.
Qed.

(** Removing, wherever it stops, leaves part of the tree. *)
Lemma delete_each_part ks d k :
  nodes (snd (delete_each ks d)) !! k = nodes d !! k \/ nodes (snd (delete_each ks d)) !! k = None.
Proof.
  revert d. induction ks as [|key ks IH]; intros d; [by left|]. cbn [delete_each].
  unfold bind, delete_entry, syscall. destruct (plan d) as [|[] p]; cbn [fst snd]; try (by left).
  all: match goal with |- context [delete_each _ ?d1] => destruct (IH d1) as [-> | ->] end; [|by right].
  all: cbn; destruct (decide (key = k)) as [->|Hne]; [right; apply lookup_delete_eq|left; by apply lookup_delete_ne].
Qed.

Lemma remove_tree_part path d k :
  nodes (snd (remove_tree path d)) !! k = nodes d !! k \/ nodes (snd (remove_tree path d)) !! k = None.
Proof.
  unfold remove_tree, bind. cbn [look gets]. destruct (nodes d !! path) as [x|]; [|by left].
  destruct (_ || _); [apply delete_each_part|by left].
Qed.

Lemma ignore_state {A} (m : M FsError Disk A) d : snd (ignore_errors m d) = snd (m d).
Proof. unfold ignore_errors. by destruct (m d) as [[a|[]] d1]. Qed.

(** ** With no failures to come *)

(** An undisturbed program stays undisturbed, and does not stop. *)
Definition steady {A} (m : M FsError Disk A) : Prop :=
  forall d, plan d = [] -> plan (snd (m d)) = [] /\ fst (m d) <> Err Crashed.

Lemma steady_syscall {A} (f : gmap string Node -> Result IoError (A * gmap string Node)) : steady (syscall f).
Proof. intros d Hp. unfold syscall. rewrite Hp. by destruct (f (nodes d)) as [[a n]|e]. Qed.
Lemma steady_ret {A} (a : A) : steady (ret a).
Proof. by intros d Hp. Qed.
Lemma steady_fail {A} e : e <> Crashed -> steady (fail e : M FsError Disk A).
Proof. intros He d Hp. split; [done|]. cbn. congruence. Qed.
Lemma steady_look {A} (f : gmap string Node -> A) : steady (look f).
Proof. by intros d Hp. Qed.
Lemma steady_bind {A B} (m : M FsError Disk A) (k : A -> M FsError Disk B) :
  steady m -> (forall a, steady (k a)) -> steady (bind m k).
Proof.
  intros Hm Hk d Hp. unfold bind. destruct (Hm d Hp) as [H1 H2].
  destruct (m d) as [[a|e] d1]; cbn in *; [by apply Hk|]. split; [done|]. congruence.
Qed.
Lemma steady_ignore {A} (m : M FsError Disk A) : steady m -> steady (ignore_errors m).
Proof.
  intros Hm d Hp. unfold ignore_errors. destruct (Hm d Hp) as [H1 H2]. by destruct (m d) as [[a|[]] d1].
Qed.
(** Nothing but the end of the process gets past a dropped error. *)
Lemma ignore_Err {A} (m : M FsError Disk A) d e : fst (ignore_errors m d) = Err e -> e = Crashed.
Proof. unfold ignore_errors. destruct (m d) as [[a|[]] d1]; cbn; congruence. Qed.
Lemma ignore_steady {A} (m : M FsError Disk A) d :
  steady m -> plan d = [] -> exists a, fst (ignore_errors m d) = Ok a /\ plan (snd (ignore_errors m d)) = [].
Proof.
  intros Hm Hp. destruct (steady_ignore m Hm d Hp) as [H1 H2].
  destruct (fst (ignore_errors m d)) as [a|e] eqn:E; [by exists a|]. by rewrite (ignore_Err _ _ _ E) in H2.
Qed.
Lemma steady_delete_each ks : steady (delete_each ks).
Proof.
  induction ks as [|k ks IH]; [apply steady_ret|]. cbn [delete_each].
  apply steady_bind; [apply steady_syscall|by intros _].
Qed.
Lemma steady_remove_tree path : steady (remove_tree path).
Proof.
  unfold remove_tree. apply steady_bind; [apply steady_look|]. intros n.
  destruct (n !! path) as [x|]; [|by apply steady_fail].
  destruct (_ || _); [apply steady_delete_each|by apply steady_fail].
Qed.
Lemma steady_move src dst : steady (move src dst).
Proof. unfold move. apply steady_bind; [apply steady_look|]. intros []; apply steady_syscall. Qed.
Lemma steady_lchown_each ks u : steady (lchown_each ks u).
Proof.
  induction ks as [|k ks IH]; [apply steady_ret|]. cbn [lchown_each].
  apply steady_bind; [apply steady_syscall|by intros _].
Qed.
