(* ===== verification/RuntimeSwapTheorems.v ===== *)
(** * RuntimeSwapTheorems: a host that has a runtime keeps one.

    What the trees on disk amount to is one of a few states ([Runtime]); the
    operations of RuntimeSwap.v, whatever calls are refused and wherever the
    process stops, move between them as [swap_step] says. *)
From Stdlib Require Import Lia.
From stdpp Require Import gmap.
From S2P Require Import Prelude Text Json Fs UpdateRequest UpdateRequestTheorems Bundle RuntimeSwap Trees.

(** The tar crate writes nothing outside the directory it unpacks into, and
    with no failures to come it brings none about. *)
Class TarLaws `{Tar} : Prop := {
  unpack_in_inside body ms m into :
    entries body = Some ms -> In (Some m) ms -> within (below into) (unpack_in m into);
  unpack_in_calm body ms m into d :
    entries body = Some ms -> In (Some m) ms -> plan d = [] -> plan (snd (unpack_in m into d)) = []
}.

(** ** The states of the runtime *)

(** [Live]: a directory is at the runtime's path.  [Parked]: nothing is, and the
    previous tree is beside it.  [Unproved]: the new tree is there, the previous
    one beside it.  [Broken]: what is left of a tree that was being removed is
    there, or nothing, and the previous one beside it. *)
Inductive Runtime : Type :=
| Live (t : Tree)
| Parked (old : Tree)
| Unproved (new old : Tree)
| Broken (part old : Tree).

(** Some of the entries of [whole], as they are there. *)
Definition part_of (part whole : Tree) : Prop := forall rel, rooted rel = true -> part rel = whole rel \/ part rel = None.
Definition directory_or_nothing (t : Tree) : Prop := t ""%string = None \/ is_tree t.

Ltac plain_name_here := split; [done | by apply not_in_chars].

Section Swap.
Context (dir : string) (Hdir : plain_dir dir).

Abbreviation opt := (path_join dir "asterism").
Abbreviation retired := (retired_in dir).
Abbreviation incoming := (incoming_in dir).

Definition shows (s : Runtime) (n : gmap string Node) : Prop :=
  match s with
  | Live t => is_tree t /\ holds opt t n
  | Parked old => is_tree old /\ holds opt nothing n /\ holds retired old n
  | Unproved new old => is_tree new /\ is_tree old /\ holds opt new n /\ holds retired old n
  | Broken part old => directory_or_nothing part /\ is_tree old /\ holds opt part n /\ holds retired old n
  end.

Lemma opt_retired : apart opt retired.
Proof. apply siblings_apart; [done|plain_name_here|plain_name_here|done]. Qed.
Lemma incoming_opt : apart incoming opt.
Proof. apply siblings_apart; [done|plain_name_here|plain_name_here|done]. Qed.
Lemma incoming_retired : apart incoming retired.
Proof. apply siblings_apart; [done|plain_name_here|plain_name_here|done]. Qed.
Lemma dir_not_below name : plain_name name -> below (path_join dir name) dir = false.
Proof.
  intros Hn. destruct (below _ _) eqn:E; [|done]. apply below_spec in E as (r & Heq & _).
  pose proof (path_join_longer dir name (plain_name_relative _ Hn) (proj1 Hn)) as Hl.
  rewrite Heq, string_length_append in Hl at 1. lia.
Qed.

(** What neither tree contains changes no state. *)
Lemma shows_same s n n' :
  (forall k, below opt k = true -> n' !! k = n !! k) -> (forall k, below retired k = true -> n' !! k = n !! k) ->
  shows s n -> shows s n'.
Proof.
  intros H1 H2.
  assert (forall t, holds opt t n -> holds opt t n') as Ho
    by (intros t Hh rel Hr; rewrite H1; [by apply Hh|by apply below_rel]).
  assert (forall t, holds retired t n -> holds retired t n') as Hr'
    by (intros t Hh rel Hr; rewrite H2; [by apply Hh|by apply below_rel]).
  destruct s; cbn; intuition.
Qed.

(** Only the previous tree may change. *)
Lemma live_within {E A} (m : M E Disk A) t d :
  within (below retired) m -> shows (Live t) (nodes d) -> shows (Live t) (nodes (snd (m d))).
Proof.
  intros Hm [Ht Hh]. split; [done|]. eapply holds_within; [exact Hm| |done].
  intros k Hk. by apply (apart_keys opt retired); [apply opt_retired|].
Qed.

(** ** Rolling back and committing *)

Definition the_swap : Swap := {| sw_opt := opt; sw_retired := Some retired |}.

Lemma moved_back old n n' :
  is_tree old -> holds retired old n -> moved_to retired opt n n' -> shows (Live old) n'.
Proof.
  intros Ht Hh [Hd _ _]. split; [done|]. intros rel Hr. rewrite (Hd rel Hr). unfold subtree. by apply Hh.
Qed.

Lemma move_back old d :
  is_tree old -> holds retired old (nodes d) ->
  match fst (move retired opt d) with
  | Ok _ => shows (Live old) (nodes (snd (move retired opt d)))
  | Err _ => nodes (snd (move retired opt d)) = nodes d
  end.
Proof.
  intros Ht Hh. pose proof Ht as (x & Hx & Hk). rewrite <- (holds_root _ _ _ Hh) in Hx.
  pose proof (move_outcome retired opt x d Hx Hk (apart_sym _ _ opt_retired)) as Hm.
  destruct (move retired opt d) as [[u|e] d']; cbn in *; [|done]. by eapply moved_back.
Qed.

(** After roll_back the previous tree is live, or at least whole, beside what the
    removal left of the new one. *)
Lemma roll_back_keeps new old d :
  shows (Unproved new old) (nodes d) ->
  let d' := snd (roll_back the_swap d) in
  shows (Live old) (nodes d') \/ exists part, part_of part new /\ shows (Broken part old) (nodes d').
Proof.
  intros (Hn & Ht & Ho & Hh). unfold roll_back, bind. cbn [look gets sw_retired the_swap sw_opt].
  rewrite (holds_exists _ _ _ Ht Hh).
  assert (within (below opt) (ignore_errors (remove_tree opt))) as Hw by apply within_ignore, within_remove_tree.
  assert (holds retired old (nodes (snd (ignore_errors (remove_tree opt) d)))) as Hh1.
  { eapply holds_within; [exact Hw| |done]. intros k Hk. by apply (apart_keys retired opt); [apply apart_sym, opt_retired|]. }
  assert (part_of (subtree opt (nodes (snd (ignore_errors (remove_tree opt) d)))) new) as Hpart.
  { intros rel Hr. rewrite <- (Ho rel Hr). unfold subtree, ignore_errors.
    pose proof (remove_tree_part opt d (opt +:+ rel)) as Hp. by destruct (remove_tree opt d) as [[u|[]] d1]. }
  assert (forall n, (forall k, n !! k = nodes (snd (ignore_errors (remove_tree opt) d)) !! k) ->
    exists part, part_of part new /\ shows (Broken part old) n) as Hbroken.
  { intros n Hsame. exists (subtree opt (nodes (snd (ignore_errors (remove_tree opt) d)))). split; [done|].
    split; [|split; [done|split; intros rel Hr; rewrite Hsame; [done|by apply Hh1]]].
    destruct (Hpart ""%string eq_refl) as [E|E]; [right|by left]. destruct Hn as (x & Hx & Hk). exists x. by rewrite E. }
  destruct (ignore_errors (remove_tree opt) d) as [[o|e] d1]; cbn [fst snd] in *; [|right; by apply Hbroken].
  pose proof (move_back old d1 Ht Hh1) as Hm. unfold ignore_errors.
  destruct (move retired opt d1) as [[u|[]] d2]; cbn [fst snd ret] in *; [by left| | |]; right; apply Hbroken; by rewrite Hm.
Qed.

(** Undisturbed, the previous tree is live again. *)
Lemma roll_back_calm new old d :
  shows (Unproved new old) (nodes d) -> plan d = [] ->
  fst (roll_back the_swap d) = Ok tt /\ shows (Live old) (nodes (snd (roll_back the_swap d))).
Proof.
  intros ((y & Hy & Hyk) & Ht & Hn & Hh) Hp. unfold roll_back, bind. cbn [look gets sw_retired the_swap sw_opt].
  rewrite (holds_exists _ _ _ Ht Hh). rewrite <- (holds_root _ _ _ Hn) in Hy.
  destruct (remove_tree_calm opt y d Hy Hyk Hp) as (H1 & H2 & H3).
  pose proof (within_remove_tree opt) as Hw.
  assert (holds retired old (nodes (snd (remove_tree opt d)))) as Hh1.
  { eapply holds_within; [exact Hw| |done]. intros k Hk. by apply (apart_keys retired opt); [apply apart_sym, opt_retired|]. }
  unfold ignore_errors. destruct (remove_tree opt d) as [[[]|e] d1]; [|done]. cbn [fst snd] in *.
  pose proof Ht as (x & Hx & Hk). rewrite <- (holds_root _ _ _ Hh1) in Hx.
  destruct (move_calm retired opt x d1 Hx Hk (apart_sym _ _ opt_retired) H2 H3) as [Hok _].
  pose proof (move_back old d1 Ht Hh1) as Hm.
  destruct (move retired opt d1) as [[[]|e] d2]; cbn in *; [|done]. by split.
Qed.

Lemma commit_keeps new old d :
  shows (Unproved new old) (nodes d) -> shows (Live new) (nodes (snd (commit the_swap d))).
Proof.
  intros (Hn & _ & Ho & _). unfold commit. cbn [sw_retired the_swap]. apply live_within; [|done].
  apply within_bind; [|by intros ?]. apply within_ignore, within_remove_tree.
Qed.

(** ** Installing *)

Section Install.
Context `{Process, SerdeJsonLaws, TarLaws} (b : VerifiedBundle) (service : option Z) (starts : Result string unit).

Abbreviation tree := (path_join incoming "asterism").
Abbreviation marker := (runtimerelease.marker_path tree).

(** Where the tree is staged there is a directory or nothing, and no link where
    its marker goes; unpacking the archive keeps that. *)
Definition plain_place (n : gmap string Node) : Prop :=
  (forall x, n !! tree = Some x -> f_kind x = Directory)
  /\ (forall x, n !! marker = Some x -> f_kind x = RegularFile).
Definition plain_bundle : Prop :=
  forall d r d', plain_place (nodes d) -> unpack b incoming d = (Ok r, d') -> plain_place (nodes d').

Lemma plain_place_part n n' :
  (forall k, below incoming k = true -> k <> incoming -> n' !! k = n !! k \/ n' !! k = None) ->
  tree <> incoming -> marker <> incoming -> below incoming tree = true -> below incoming marker = true ->
  plain_place n -> plain_place n'.
Proof.
  intros Hn Ht Hm Hbt Hbm [H1' H2']. split; intros x Hx.
  - destruct (Hn tree) as [E|E]; [done..| |congruence]. apply H1'. by rewrite <- E.
  - destruct (Hn marker) as [E|E]; [done..| |congruence]. apply H2'. by rewrite <- E.
Qed.

Lemma plain_incoming : plain_dir incoming.
Proof. apply plain_join. plain_name_here. Qed.
Lemma plain_tree : plain_dir tree.
Proof. apply plain_join. plain_name_here. Qed.
Lemma tree_below : below incoming tree = true.
Proof. apply join_below; [apply plain_incoming|plain_name_here]. Qed.
Lemma marker_below : below incoming marker = true.
Proof. eapply below_trans; [apply tree_below|]. apply join_below; [apply plain_tree|plain_name_here]. Qed.

Lemma longer_ne dir' name : plain_name name -> path_join dir' name <> dir'.
Proof.
  intros Hn Heq. pose proof (path_join_longer dir' name (plain_name_relative _ Hn) (proj1 Hn)) as Hl.
  rewrite Heq in Hl. lia.
Qed.
Lemma tree_ne : tree <> incoming.
Proof. apply longer_ne. plain_name_here. Qed.
Lemma marker_ne : marker <> incoming.
Proof.
  intros Heq. assert (below tree incoming = true) as Hb.
  { rewrite <- Heq at 2. apply join_below; [apply plain_tree|plain_name_here]. }
  apply below_spec in Hb as (r & Hr & _).
  pose proof (path_join_longer incoming "asterism" eq_refl) as Hl. rewrite Hr in Hl at 1.
  rewrite string_length_append in Hl. specialize (Hl ltac:(done)). lia.
Qed.
Lemma plain_place_keeps n n' :
  (forall k, below incoming k = true -> k <> incoming -> n' !! k = n !! k \/ n' !! k = None) ->
  plain_place n -> plain_place n'.
Proof. intros Hn. apply plain_place_part; [done|apply tree_ne|apply marker_ne|apply tree_below|apply marker_below]. Qed.

Lemma within_create P path : P path = true -> within P (create_dir_all path).
Proof.
  intros HP. apply within_syscall. intros n a n' Hf k Hk.
  assert (k <> path) as Hne by (intros ->; congruence).
  destruct (Fs.resolve MAX_HOPS n path) as [p|].
  - destruct (n !! p) as [x|]; [|done]. case_bool_decide; [|done]. by injection Hf as _ <-.
  - destruct (n !! path) as [x|]; [done|]. injection Hf as _ <-. by rewrite lookup_insert_ne.
Qed.
Lemma within_relabel {E A} P (f : E -> InstallError) (m : M E Disk A) : within P m -> within P (relabel f m).
Proof. intros Hm d k HP. unfold relabel. specialize (Hm d k HP). by destruct (m d) as [[a|e] d1]. Qed.
Lemma within_on_bundle {A} P (m : M FsError Disk A) : within P m -> within P (on_bundle m).
Proof. intros Hm d k HP. unfold on_bundle. specialize (Hm d k HP). by destruct (m d) as [[a|e] d1]. Qed.

Lemma within_unpack into : within (below into) (unpack b into).
Proof.
  unfold unpack. apply within_bind; [by apply within_on_bundle, within_gets|]. intros [body|e]; [|done].
  apply within_bind; [apply within_on_bundle, within_create, below_self|].
  intros _. destruct (entries body) as [ms|] eqn:Hms; [|done]. apply within_bind; [|done].
  assert (forall m, In (Some m) ms -> within (below into) (unpack_in m into)) as Hin by eauto using unpack_in_inside.
  clear Hms. induction ms as [|[m|] ms IH]; [done| |done]. cbn [unpack_each].
  destruct (mb_path m); [|done]. apply within_bind; [apply within_lift|]. intros _.
  apply within_bind; [apply within_on_bundle, Hin; by left|]. intros _. apply IH. intros m' Hm'. apply Hin. by right.
Qed.

(** Writing the marker changes it and nothing else. *)
Lemma marker_local n0 r :
  (forall x, n0 !! marker = Some x -> f_kind x = RegularFile) ->
  leaves (fun n => n = n0) (Fs.write marker r ;;; set_permissions marker 0x1A4)
    (fun res n => (forall k, k <> marker -> n !! k = n0 !! k)
       /\ match res with
          | Ok _ => exists x, n !! marker = Some x /\ f_kind x = RegularFile /\ f_body x = r
          | Err _ => True end).
Proof.
  intros Hk. set (Q := fun n : gmap string Node => (forall k, k <> marker -> n !! k = n0 !! k)
    /\ exists x, n !! marker = Some x /\ f_kind x = RegularFile).
  assert (forall f, (forall x, f_kind (f x) = f_kind x) -> forall n, Q n ->
    exists x, n !! marker = Some x /\ f_kind x = RegularFile
      /\ through marker f n = Ok (tt, <[marker := f x]> n) /\ Q (<[marker := f x]> n)) as Hthrough.
  { intros f Hf n [Ho (x & Hx & Hr)]. exists x. split; [done|]. split; [done|].
    split; [apply through_file; congruence|]. split.
    - intros k Hne. rewrite lookup_insert_ne by done. by apply Ho.
    - exists (f x). by rewrite lookup_insert_eq, Hf. }
  apply leaves_bind with (Q1 := fun _ n => Q n /\ exists x, n !! marker = Some x /\ f_body x = r).
  - apply leaves_bind with (Q1 := fun _ => Q).
    + apply leaves_syscall. intros n ->. split; [done|]. split; [done|].
      destruct (n0 !! marker) as [x|] eqn:Ex.
      * specialize (Hk x eq_refl). rewrite (resolve_file _ _ _ x), Ex by congruence.
        rewrite bool_decide_eq_false_2 by congruence. split.
        -- intros k Hne. by rewrite lookup_insert_ne.
        -- exists (with_body [] x). by rewrite lookup_insert_eq.
      * rewrite (resolve_absent _ _ _ Ex). split.
        -- intros k Hne. by rewrite lookup_insert_ne.
        -- eexists. by rewrite lookup_insert_eq.
    + intros _. apply leaves_syscall. intros n HQ. split; [by destruct HQ|]. split; [by destruct HQ|].
      destruct (Hthrough (with_body r) (fun _ => eq_refl) n HQ) as (x & Hx & Hr & -> & HQ'). split; [done|].
      exists (with_body r x). by rewrite lookup_insert_eq.
  - intros _. apply leaves_syscall. intros n [HQ (x & Hx & Hb)]. split; [by destruct HQ|]. split; [by destruct HQ|].
    destruct (Hthrough (with_mode 0x1A4) (fun _ => eq_refl) n HQ) as (y & Hy & Hr & -> & HQ'). split; [by destruct HQ'|].
    exists (with_mode 0x1A4 y). rewrite lookup_insert_eq. cbn. split; [done|]. split; [done|]. congruence.
Qed.

(** Staging finished: the marker is in the tree. *)
Definition finished (t : Tree) : Prop :=
  exists x, t ("/" +:+ runtimerelease.MARKER) = Some x /\ f_kind x = RegularFile
    /\ f_body x = runtimerelease.marker_text (from_manifest (vb_manifest b)).

Lemma shows_beside s n n' :
  (forall k, below incoming k = false -> n' !! k = n !! k) -> shows s n -> shows s n'.
Proof.
  intros Hn. apply shows_same; intros k Hk; apply Hn.
  - by apply (apart_keys opt incoming); [apply apart_sym, incoming_opt|].
  - by apply (apart_keys retired incoming); [apply apart_sym, incoming_retired|].
Qed.

Lemma stage_spec s d res d' :
  plain_bundle -> plain_place (nodes d) -> shows s (nodes d) -> stage b dir d = (res, d') ->
  shows s (nodes d')
  /\ forall t, res = Ok t -> t = tree /\ finished (subtree tree (nodes d'))
       /\ (forall x, nodes d' !! tree = Some x -> f_kind x = Directory).
Proof.
  intros Hplain Hpl Hs Hst. unfold stage in Hst.
  assert (forall A (m : M InstallError Disk A) d1, within (below incoming) m -> shows s (nodes d1) ->
    shows s (nodes (snd (m d1)))) as Hkeep.
  { intros A m d1 Hm. apply shows_beside. intros k Hk. by apply Hm. }
  unfold bind at 1 in Hst.
  pose proof (Hkeep _ _ d (within_on_tree _ _ (within_ignore _ _ (within_remove_tree incoming))) Hs) as H1'.
  assert (plain_place (nodes (snd (on_tree (ignore_errors (remove_tree incoming)) d)))) as Hpl1.
  { eapply plain_place_keeps; [|exact Hpl]. intros k _ _.
    assert (snd (on_tree (ignore_errors (remove_tree incoming)) d) = snd (remove_tree incoming d)) as ->.
    { rewrite <- ignore_state. unfold on_tree. by destruct (ignore_errors _ d) as [[a|e] d1]. }
    apply remove_tree_part. }
  destruct (on_tree (ignore_errors (remove_tree incoming)) d) as [[u1|e1] d1]; cbn [snd] in H1', Hpl1.
  2: { injection Hst as <- <-. by split. }
  unfold bind at 1 in Hst.
  pose proof (Hkeep _ (on_tree (create_dir_all incoming)) d1 (within_on_tree _ _ (within_create (below incoming) incoming (below_self _))) H1') as H2'.
  assert (plain_place (nodes (snd (on_tree (create_dir_all incoming) d1)))) as Hpl2.
  { eapply plain_place_keeps; [|exact Hpl1]. intros k _ Hne. left.
    apply (within_on_tree (fun k => (k =? incoming)%string)); [apply within_create, String.eqb_refl|].
    by apply String.eqb_neq. }
  destruct (on_tree (create_dir_all incoming) d1) as [[u2|e2] d2]; cbn [snd] in H2', Hpl2.
  2: { injection Hst as <- <-. by split. }
  unfold bind at 1 in Hst.
  pose proof (Hkeep _ _ d2 (within_relabel _ OnBundle _ (within_unpack incoming)) H2') as H3'.
  unfold relabel at 1 in Hst. unfold relabel at 1 in H3'.
  destruct (unpack b incoming d2) as [[u3|e3] d3] eqn:Hun; cbn [snd] in H3'.
  2: { injection Hst as <- <-. by split. }
  destruct (Hplain _ _ _ Hpl2 Hun) as [Hroot Hmark].
  unfold runtimerelease.write_into in Hst. unfold bind at 1, relabel in Hst. unfold bind at 1, lift in Hst.
  destruct (runtimerelease.validate (from_manifest (vb_manifest b))) as [[]|e4].
  2: { injection Hst as <- <-. by split. }
  pose proof (marker_local (nodes d3) (runtimerelease.marker_text (from_manifest (vb_manifest b))) Hmark d3 eq_refl) as Hm.
  unfold on_file in Hst. destruct ((Fs.write marker _ ;;; set_permissions marker _) d3) as [[[]|e5] d4]; cbn [fst snd] in Hm; cbn in Hst;
    injection Hst as <- <-; destruct Hm as [Hoth Hm].
  - assert (shows s (nodes d4)) as H4'.
    { eapply shows_beside; [|exact H3']. intros k Hk. apply Hoth. intros Heq. by rewrite Heq, marker_below in Hk. }
    split; [done|]. intros t [= <-]. split; [done|]. split.
    + unfold finished, subtree. unfold runtimerelease.marker_path in Hm.
      rewrite plain_join_eq in Hm by (apply plain_tree || plain_name_here). exact Hm.
    + intros x Hx. apply Hroot. rewrite <- Hoth; [done|]. intros Heq. unfold runtimerelease.marker_path in Heq.
      pose proof (path_join_longer tree runtimerelease.MARKER eq_refl) as Hl. rewrite <- Heq in Hl.
      assert (runtimerelease.MARKER <> ""%string) as Hne by done. specialize (Hl Hne). lia.
  - split; [|done]. eapply shows_beside; [|exact H3']. intros k Hk. apply Hoth. intros Heq. by rewrite Heq, marker_below in Hk.
Qed.

Lemma tree_retired : apart tree retired.
Proof. eapply apart_child; [apply incoming_retired|apply tree_below]. Qed.
Lemma tree_opt : apart tree opt.
Proof. eapply apart_child; [apply incoming_opt|apply tree_below]. Qed.

Lemma move_absent src dst d : nodes d !! src = None ->
  (exists e, fst (move src dst d) = Err e) /\ nodes (snd (move src dst d)) = nodes d.
Proof.
  intros Hn. unfold move, bind. cbn. rewrite Hn. unfold rename, syscall.
  destruct (plan d) as [|[] p]; cbn; rewrite ?Hn; cbn; split; eauto.
Qed.

(** The first rename. *)
Lemma move_aside old d :
  shows (Live old) (nodes d) ->
  match fst (move opt retired d) with
  | Ok _ => shows (Parked old) (nodes (snd (move opt retired d)))
            /\ (forall k, below tree k = true -> nodes (snd (move opt retired d)) !! k = nodes d !! k)
  | Err _ => nodes (snd (move opt retired d)) = nodes d
  end.
Proof.
  intros [Ht Hh]. pose proof Ht as (x & Hx & Hk). rewrite <- (holds_root _ _ _ Hh) in Hx.
  pose proof (move_outcome opt retired x d Hx Hk opt_retired) as Hm.
  destruct (move opt retired d) as [[u|e] d']; cbn [fst snd] in *; [|done]. destruct Hm as [Hd Hs Hr].
  split.
  - split; [done|]. split; [done|]. intros rel Hrel. rewrite (Hd rel Hrel). by apply Hh.
  - intros k Htk. apply Hr.
    + by apply (apart_keys tree opt); [apply tree_opt|].
    + by apply (apart_keys tree retired); [apply tree_retired|].
Qed.

(** The second. *)
Lemma move_in old d :
  shows (Parked old) (nodes d) -> (forall x, nodes d !! tree = Some x -> f_kind x = Directory) ->
  match fst (move tree opt d) with
  | Ok _ => shows (Unproved (subtree tree (nodes d)) old) (nodes (snd (move tree opt d)))
  | Err _ => nodes (snd (move tree opt d)) = nodes d
  end.
Proof.
  intros (Ht & Hn & Hh) Hroot. destruct (nodes d !! tree) as [x|] eqn:Hx.
  - specialize (Hroot x eq_refl). pose proof (move_outcome tree opt x d Hx Hroot tree_opt) as Hm.
    destruct (move tree opt d) as [[u|e] d']; cbn [fst snd] in *; [|done]. destruct Hm as [Hd Hs Hr].
    split; [exists x; split; [unfold subtree; by rewrite append_empty|done]|]. split; [done|]. split; [done|].
    intros rel Hrel. rewrite Hr; [by apply Hh|..].
    + apply (apart_keys retired tree); [apply apart_sym, tree_retired|by apply below_rel].
    + apply (apart_keys retired opt); [apply apart_sym, opt_retired|by apply below_rel].
  - destruct (move_absent tree opt d Hx) as [[e He] Hs]. by rewrite He.
Qed.

(** The same names, of the same kinds, with the same contents. *)
Definition content (o : option Node) : option (FileKind * bytes) := (fun x => (f_kind x, f_body x)) <$> o.
Definition like (t t' : Tree) : Prop := forall rel, rooted rel = true -> content (t rel) = content (t' rel).

Lemma like_trans t1 t2 t3 : like t1 t2 -> like t2 t3 -> like t1 t3.
Proof. intros H1' H2' rel Hr. rewrite (H1' rel Hr). by apply H2'. Qed.
Lemma like_same n n' : (forall k, below tree k = true -> n' !! k = n !! k) -> like (subtree tree n) (subtree tree n').
Proof. intros Hn rel Hr. unfold subtree. by rewrite Hn by (by apply below_rel). Qed.

(** The tree [t] was put in, and it is not proved yet. *)
Definition unproved (t old : Tree) (n : gmap string Node) : Prop :=
  exists new, like t new /\ shows (Unproved new old) n.
Definition broken (t old : Tree) (n : gmap string Node) : Prop :=
  exists new part, like t new /\ part_of part new /\ shows (Broken part old) n.
Definition afterwards (t old : Tree) (n : gmap string Node) : Prop :=
  shows (Live old) n \/ shows (Parked old) n \/ unproved t old n.

(** Putting the previous tree back when the new one could not be put in. *)
Lemma put_back old e d res d' :
  shows (Parked old) (nodes d) ->
  (let! gone := on_tree (look (fun n => negb (exists_ n opt))) in
   (if true && gone then on_tree (ignore_errors (move retired opt)) ;;; ret tt else ret tt) ;;;
   fail e : M InstallError Disk Swap) d = (res, d') ->
  (exists e', res = Err e') /\ (shows (Live old) (nodes d') \/ shows (Parked old) (nodes d'))
  /\ (plan d = [] -> shows (Live old) (nodes d') /\ plan d' = []).
Proof.
  intros Hs Hr. pose proof Hs as (Ht & Hn & Hh). unfold bind at 1 in Hr. cbn [on_tree look gets] in Hr.
  rewrite (holds_nothing _ _ Hn) in Hr. cbn [negb andb] in Hr. unfold bind, on_tree, ignore_errors in Hr.
  pose proof (move_back old d Ht Hh) as Hm.
  assert (plan d = [] -> fst (move retired opt d) = Ok tt /\ plan (snd (move retired opt d)) = []) as Hc.
  { intros Hp. pose proof Ht as (x & Hx & Hk). rewrite <- (holds_root _ _ _ Hh) in Hx.
    by apply (move_calm retired opt x); [| |apply apart_sym, opt_retired| |]. }
  destruct (move retired opt d) as [[[]|[]] d1]; cbn in Hr, Hm, Hc; injection Hr as <- <-;
    (split; [by eexists|split; [try (by left); right; rewrite Hm; done|]]);
    intros Hp; destruct (Hc Hp) as [? ?]; done.
Qed.

Lemma swap_trees_spec old d res d' :
  shows (Live old) (nodes d) -> (forall x, nodes d !! tree = Some x -> f_kind x = Directory) ->
  swap_trees opt tree dir d = (res, d') ->
  match res with
  | Ok s => s = the_swap /\ unproved (subtree tree (nodes d)) old (nodes d') /\ (plan d = [] -> plan d' = [])
  | Err _ => afterwards (subtree tree (nodes d)) old (nodes d') /\ (plan d = [] -> shows (Live old) (nodes d'))
  end.
Proof.
  intros Hs Hroot Hsw. unfold swap_trees in Hsw. unfold bind at 1 in Hsw. unfold on_tree at 1 in Hsw.
  pose proof (within_ignore _ _ (within_remove_tree retired)) as Hw.
  pose proof (live_within _ _ d Hw Hs) as Hs1.
  assert (forall k, below tree k = true -> nodes (snd (ignore_errors (remove_tree retired) d)) !! k = nodes d !! k) as Ht1.
  { intros k Hk. apply Hw. by apply (apart_keys tree retired); [apply tree_retired|]. }
  pose proof (steady_ignore _ (steady_remove_tree retired) d) as Hc1.
  destruct (ignore_errors (remove_tree retired) d) as [[o|e] d1]; cbn [fst snd] in *.
  2: { injection Hsw as <- <-. split; [by left|done]. }
  unfold bind at 1 in Hsw. cbn [on_tree look gets] in Hsw.
  rewrite (holds_exists opt old (nodes d1)) in Hsw by apply Hs1. unfold bind at 1 in Hsw. unfold on_tree at 1 in Hsw.
  pose proof (move_aside old d1 Hs1) as Hm1. pose proof (steady_move opt retired d1) as Hc2.
  destruct (move opt retired d1) as [[u|e] d2]; cbn [fst snd] in *.
  2: { injection Hsw as <- <-. rewrite Hm1. split; [by left|done]. }
  destruct Hm1 as [Hs2 Ht2].
  assert (forall k, below tree k = true -> nodes d2 !! k = nodes d !! k) as Ht by (intros k Hk; rewrite Ht2, Ht1; done).
  apply like_same in Ht as Hlike.
  assert (forall x, nodes d2 !! tree = Some x -> f_kind x = Directory) as Hroot2.
  { intros x Hx. apply Hroot. rewrite <- Ht; [done|apply below_self]. }
  pose proof (move_in old d2 Hs2 Hroot2) as Hm2. pose proof (steady_move tree opt d2) as Hc3.
  unfold on_tree at 1 in Hsw. destruct (move tree opt d2) as [[u2|e] d3]; cbn [fst snd] in *.
  - unfold bind at 1 in Hsw. unfold on_tree in Hsw.
    assert (shows (Unproved (subtree tree (nodes d2)) old) (nodes (snd (ignore_errors (remove_tree incoming) d3)))) as Hm3.
    { eapply shows_beside; [|exact Hm2]. intros k Hk. by apply (within_ignore _ _ (within_remove_tree incoming)). }
    pose proof (ignore_steady _ d3 (steady_remove_tree incoming)) as Hc4.
    destruct (ignore_errors (remove_tree incoming) d3) as [[o2|e] d4]; cbn [fst snd] in *; injection Hsw as <- <-.
    + split; [done|]. split; [by eexists|]. intros Hp. destruct Hc4 as (? & _ & ?); [apply Hc3, Hc2, Hc1, Hp|done].
    + split; [right; right; by eexists|]. intros Hp. by destruct Hc4 as (? & ? & _); [apply Hc3, Hc2, Hc1, Hp|].
  - destruct (crashed (OnTree e)) eqn:He.
    + injection Hsw as <- <-. rewrite Hm2. split; [right; by left|]. intros Hp. exfalso.
      destruct e; try done. by destruct (Hc3 (proj1 (Hc2 (proj1 (Hc1 Hp))))) as [_ ?].
    + rewrite <- Hm2 in Hs2. destruct (put_back old (OnTree e) d3 res d' Hs2 Hsw) as ([e' ->] & H5 & H6). split.
      * unfold afterwards. tauto.
      * intros Hp. apply H6, Hc3, Hc2, Hc1, Hp.
Qed.

(** Owners and modes of the new tree change, and nothing else. *)
Lemma unproved_keeps t old n n' :
  (forall k, below opt k = false -> n' !! k = n !! k) -> (forall k, content (n' !! k) = content (n !! k)) ->
  unproved t old n -> unproved t old n'.
Proof.
  intros Hout Hin (new & Hl & (x & Hx & Hk) & Ht & Hn & Hh). exists (subtree opt n'). split; [|split_and!].
  - apply (like_trans _ new); [done|]. intros rel Hr. unfold subtree. by rewrite Hin, Hn.
  - specialize (Hin opt). rewrite (holds_root _ _ _ Hn), Hx in Hin. unfold is_tree, subtree. rewrite append_empty.
    destruct (n' !! opt) as [y|]; [|done]. injection Hin as Hy _. exists y. by rewrite Hy.
  - done.
  - apply holds_subtree.
  - intros rel Hr. rewrite Hout; [by apply Hh|].
    by apply (apart_keys retired opt); [apply apart_sym, opt_retired|apply below_rel].
Qed.

Lemma content_insert (n : gmap string Node) key x y k :
  n !! key = Some x -> f_kind y = f_kind x -> f_body y = f_body x ->
  content (<[key := y]> n !! k) = content (n !! k).
Proof.
  intros Hx Hk Hb. destruct (decide (key = k)) as [<-|Hne].
  - rewrite lookup_insert_eq, Hx. cbn. by rewrite Hk, Hb.
  - by rewrite lookup_insert_ne.
Qed.

Lemma lchown_each_content ks u d k :
  content (nodes (snd (lchown_each ks u d)) !! k) = content (nodes d !! k).
Proof.
  revert d. induction ks as [|key ks IH]; intros d; [done|]. cbn [lchown_each]. unfold bind, lchown, syscall.
  destruct (plan d) as [|[] p]; cbn [fst snd]; try done.
  all: destruct (nodes d !! key) as [x|] eqn:Ex; cbn [fst snd]; [|done].
  all: rewrite IH; cbn [nodes]; by apply (content_insert _ _ x).
Qed.

Lemma prove_keeps t old d :
  unproved t old (nodes d) ->
  unproved t old (nodes (snd (prove_runtime service starts opt d)))
  /\ (plan d = [] -> plan (snd (prove_runtime service starts opt d)) = [] /\ forall e, fst (prove_runtime service starts opt d) = Err e -> crashed e = false).
Proof.
  intros Hu.
  assert (prove_runtime service starts opt d = match set_permissions opt 0x1ED d with
                      | (Ok _, d1) => match own_as_root service opt d1 with
                                      | (Ok _, d2) => runtime_runs starts opt d2
                                      | (Err e, d2) => (Err (OnTree e), d2)
                                      end
                      | (Err e, d1) => (Err (OnTree e), d1)
                      end) as ->.
  { unfold prove_runtime, bind at 1, on_tree at 1. destruct (set_permissions opt 0x1ED d) as [[u|e] d1]; [|done].
    unfold bind, on_tree at 1. by destruct (own_as_root service opt d1) as [[u2|e] d2]. }
  assert (unproved t old (nodes (snd (set_permissions opt 0x1ED d)))) as H1'.
  { pose proof Hu as (new & _ & (x & Hx & Hk) & _ & Hn & _). rewrite <- (holds_root _ _ _ Hn) in Hx.
    assert (forall p, unproved t old (nodes {| nodes := <[opt := with_mode 0x1ED x]> (nodes d); plan := p |})) as Hset.
    { intros p. eapply unproved_keeps; [| |exact Hu].
      - intros k Hb. cbn. rewrite lookup_insert_ne; [done|]. intros Heq. by rewrite <- Heq, below_self in Hb.
      - intros k. by apply (content_insert _ _ x). }
    unfold set_permissions, syscall. destruct (plan d) as [|[] p]; try done.
    all: rewrite (through_file _ _ x) by congruence; apply Hset. }
  pose proof (steady_syscall (through opt (with_mode 0x1ED)) d) as Hc1.
  unfold set_permissions in *. destruct (syscall _ d) as [[u|e] d1]; cbn [fst snd] in *.
  2: { split; [done|]. intros Hp. destruct (Hc1 Hp) as [Hpl Hne]. split; [done|]. intros e' [= <-]. by destruct e. }
  assert (unproved t old (nodes (snd (own_as_root service opt d1)))) as H2'.
  { unfold own_as_root. destruct service; [|done]. unfold bind. cbn [look gets].
    eapply unproved_keeps; [| |exact H1'].
    - intros k Hk. apply (within_lchown_each (below opt)); [|done]. intros key Hin%in_rev. by eapply keys_below_below.
    - intros k. apply lchown_each_content. }
  assert (steady (own_as_root service opt)) as Hc2.
  { unfold own_as_root. destruct service; [|apply steady_ret]. apply steady_bind; [apply steady_look|]. intros n.
    apply steady_lchown_each. }
  specialize (Hc2 d1).
  destruct (own_as_root service opt d1) as [[u2|e] d2]; cbn [fst snd] in *.
  2: { split; [done|]. intros Hp. destruct (Hc2 (proj1 (Hc1 Hp))) as [Hpl Hne]. split; [done|]. intros e' [= <-]. by destruct e. }
  unfold runtime_runs, bind. cbn [on_tree look gets]. destruct (is_file _ _); cbn [negb]; split; try done.
  - intros Hp. split; [apply Hc2, Hc1, Hp|]. destruct starts; cbn; [done|]. by intros e' [= <-].
  - intros Hp. split; [apply Hc2, Hc1, Hp|]. by intros e' [= <-].
Qed.

(** A tree that staging finished. *)
Definition staged_tree (t : Tree) : Prop :=
  finished t /\ exists d1 d2, stage b dir d1 = (Ok tree, d2) /\ t = subtree tree (nodes d2).

Lemma or_roll_back_spec t old d res d' :
  unproved t old (nodes d) -> or_roll_back the_swap (prove_runtime service starts opt) d = (res, d') ->
  match res with
  | Ok _ => unproved t old (nodes d')
  | Err _ => (unproved t old (nodes d') \/ shows (Live old) (nodes d') \/ broken t old (nodes d'))
             /\ (plan d = [] -> shows (Live old) (nodes d'))
  end.
Proof.
  intros Hu Ho. unfold or_roll_back in Ho. destruct (prove_keeps t old d Hu) as [Hk Hc].
  destruct (prove_runtime service starts opt d) as [[[]|e] d1]; cbn [fst snd] in *; [by injection Ho as <- <-|].
  destruct (crashed e) eqn:He.
  { injection Ho as <- <-. split; [by left|]. intros Hp. destruct (Hc Hp) as [_ Hn]. by rewrite (Hn e eq_refl) in He. }
  pose proof Hk as (new & Hlike & Hs).
  assert (shows (Live old) (nodes (snd (roll_back the_swap d1))) \/ broken t old (nodes (snd (roll_back the_swap d1)))) as Hr.
  { destruct (roll_back_keeps new old d1 Hs) as [?|(part & ? & ?)]; [by left|right; by exists new, part]. }
  assert (plan d1 = [] -> shows (Live old) (nodes (snd (roll_back the_swap d1)))) as Hrc
    by (intros Hp; by eapply roll_back_calm).
  unfold bind, on_tree in Ho. destruct (roll_back the_swap d1) as [[u|e2] d2]; cbn [fst snd] in *; injection Ho as <- <-.
  all: split; [tauto|]; intros Hp; by apply Hrc, Hc.
Qed.

Lemma stage_calm d : plan d = [] -> plan (snd (stage b dir d)) = [].
Proof.
  intros Hp.
  assert (forall E A B (m : M E Disk A) (k : A -> M E Disk B) d1,
    plan (snd (m d1)) = [] -> (forall a d2, plan d2 = [] -> plan (snd (k a d2)) = []) ->
    plan (snd ((let! a := m in k a) d1)) = []) as Hb.
  { intros E A B m k d1 Hm Hk. unfold bind. destruct (m d1) as [[a|e] d2]; cbn in *; auto. }
  assert (forall A (m : M FsError Disk A) d1, steady m -> plan d1 = [] -> plan (snd (on_tree m d1)) = []) as Ht.
  { intros A m d1 Hm Hp1. unfold on_tree. destruct (Hm d1 Hp1) as [Hq _]. by destruct (m d1) as [[a|e] d2]. }
  assert (forall A (m : M FsError Disk A) d1, steady m -> plan d1 = [] -> plan (snd (on_bundle m d1)) = []) as Hbu.
  { intros A m d1 Hm Hp1. unfold on_bundle. destruct (Hm d1 Hp1) as [Hq _]. by destruct (m d1) as [[a|e] d2]. }
  assert (forall E A (f : E -> InstallError) (m : M E Disk A) d1, plan (snd (m d1)) = [] -> plan (snd (relabel f m d1)) = []) as Hre.
  { intros E A f m d1 Hm. unfold relabel. by destruct (m d1) as [[a|e] d2]. }
  unfold stage. apply Hb; [apply Ht; [apply steady_ignore, steady_remove_tree|done]|]. intros _ d1 Hp1.
  apply Hb; [apply Ht; [apply steady_syscall|done]|]. intros _ d2 Hp2.
  apply Hb; [apply Hre|].
  - unfold unpack. apply Hb; [apply Hbu; [apply steady_look|done]|]. intros [body|e] d3 Hp3; [|done].
    apply Hb; [apply Hbu; [apply steady_syscall|done]|]. intros _ d4 Hp4.
    destruct (entries body) as [ms|] eqn:Hms; [|done]. apply Hb; [|done].
    assert (forall m d, In (Some m) ms -> plan d = [] -> plan (snd (unpack_in m incoming d)) = []) as Hin
      by eauto using unpack_in_calm.
    clear Hms. revert d4 Hp4. induction ms as [|[m|] ms IH]; intros d4 Hp4; [done| |done]. cbn [unpack_each].
    destruct (mb_path m) as [path|]; [|done]. apply Hb; [done|]. intros _ d5 Hp5. apply Hb.
    + unfold on_bundle. specialize (Hin m d5 (or_introl eq_refl) Hp5). by destruct (unpack_in m incoming d5) as [[a|e] d6].
    + intros _ d6 Hp6. apply IH; [|done]. intros m' d' Hm'. apply Hin. by right.
  - intros _ d3 Hp3. apply Hb; [|done]. apply Hre. unfold runtimerelease.write_into. apply Hb; [done|].
    intros _ d4 Hp4. unfold on_file.
    assert (steady (Fs.write marker (runtimerelease.marker_text (from_manifest (vb_manifest b))) ;;; set_permissions marker 0x1A4)) as Hst.
    { apply steady_bind; [apply steady_bind; [apply steady_syscall|intros _; apply steady_syscall]|].
      intros _. apply steady_syscall. }
    specialize (Hst d4 Hp4). destruct ((Fs.write marker _ ;;; _) d4) as [[a|e] d5]; cbn in *; by destruct Hst.
Qed.

Lemma install_spec old d res d' :
  plain_bundle -> plain_place (nodes d) -> shows (Live old) (nodes d) -> install_runtime service b opt starts d = (res, d') ->
  match res with
  | Ok s => s = the_swap /\ exists t, staged_tree t /\ unproved t old (nodes d')
  | Err _ => (shows (Live old) (nodes d') \/ shows (Parked old) (nodes d')
              \/ (exists t, staged_tree t /\ (unproved t old (nodes d') \/ broken t old (nodes d'))))
             /\ (plan d = [] -> shows (Live old) (nodes d'))
  end.
Proof.
  intros Hplain Hpl Hs Hi. unfold install_runtime in Hi. rewrite parent_join in Hi by (done || plain_name_here).
  unfold bind at 1 in Hi. unfold on_tree at 1 in Hi.
  assert (shows (Live old) (nodes (snd (create_dir_all dir d)))) as Hs1.
  { eapply (shows_same _ (nodes d)); [| |done]; intros k Hk;
      apply (within_create (fun k => (k =? dir)%string)); try (by apply String.eqb_refl);
      apply String.eqb_neq; intros Heq; rewrite Heq in Hk; unfold retired_in in Hk; by rewrite dir_not_below in Hk by plain_name_here. }
  assert (plain_place (nodes (snd (create_dir_all dir d)))) as Hpl1.
  { eapply plain_place_keeps; [|exact Hpl]. intros k Hk _. left.
    apply (within_create (fun k => (k =? dir)%string)); [by apply String.eqb_refl|].
    apply String.eqb_neq. intros Heq. rewrite Heq in Hk. unfold incoming_in in Hk.
    by rewrite dir_not_below in Hk by plain_name_here. }
  pose proof (steady_syscall _ d : plan d = [] -> plan (snd (create_dir_all dir d)) = [] /\ _) as Hc0.
  destruct (create_dir_all dir d) as [[u|e] d1]; cbn [fst snd] in *.
  2: { injection Hi as <- <-. split; [by left|done]. }
  unfold bind at 1 in Hi. pose proof (stage_calm d1) as Hc1. destruct (stage b dir d1) as [r2 d2] eqn:Hst.
  destruct (stage_spec _ _ _ _ Hplain Hpl1 Hs1 Hst) as [Hs2 Hok]. cbn [snd] in Hc1.
  destruct r2 as [t2|e2]; [|injection Hi as <- <-; split; [by left|done]].
  destruct (Hok t2 eq_refl) as (-> & Hfin & Hroot). clear Hok.
  unfold bind at 1 in Hi. destruct (swap_trees opt tree dir d2) as [r3 d3] eqn:Hsw.
  pose proof (swap_trees_spec old d2 r3 d3 Hs2 Hroot Hsw) as Hsp.
  assert (staged_tree (subtree tree (nodes d2))) as Hstaged by (split; [done|]; by exists d1, d2).
  destruct r3 as [s3|e3].
  2: { injection Hi as <- <-. destruct Hsp as [Haf Hcalm]. split; [|intros Hp; apply Hcalm, Hc1, Hc0, Hp].
       destruct Haf as [?|[?|?]]; [by left|right; by left|right; right; eexists; split; [done|by left]]. }
  destruct Hsp as (-> & Hu & Hc3). unfold bind at 1 in Hi.
  destruct (or_roll_back the_swap _ d3) as [r4 d4] eqn:Hrb.
  pose proof (or_roll_back_spec _ old d3 r4 d4 Hu Hrb) as Hor.
  destruct r4 as [u4|e4]; injection Hi as <- <-; [split; [done|]; by eexists|].
  destruct Hor as [Hcases Hcalm]. split; [|intros Hp; apply Hcalm, Hc3, Hc1, Hc0, Hp].
  destruct Hcases as [?|[?|?]]; [right; right|by left|right; right]; eexists; (split; [done|]); [by left|by right].
Qed.
End Install.

(** ** Recovering *)

Lemma parent_inv key : parent key = Some dir -> exists name, key = path_join dir name /\ file_name key = name /\ ~ In SLASH (chars name).
Proof.
  unfold parent, file_name. destruct (split_once SLASH (List.rev (chars key))) as [[name rest]|] eqn:E.
  - apply split_once_Some in E as [Hk Hn]. intros Hp. exists (of_chars (List.rev name)).
    assert (rest <> [] /\ of_chars (List.rev rest) = dir) as [Hr Hd].
    { destruct Hdir as [_ Hslash]. destruct name, rest; try done; injection Hp as <-; done. }
    assert (~ In SLASH (chars (of_chars (List.rev name)))) as Hn' by (rewrite of_chars_chars, <- in_rev; done).
    split; [|done]. apply string_chars_inj.
    assert (chars key = List.rev rest ++ [SLASH] ++ List.rev name) as ->.
    { rewrite <- (rev_involutive (chars key)), Hk, rev_app_distr. cbn. by rewrite <- app_assoc. }
    rewrite path_join_plain, !chars_append, <- Hd, !of_chars_chars; [done..|].
    destruct (str_starts_with "/" (of_chars (List.rev name))) eqn:Es; [|done].
    apply starts_with_true in Es as [r Hr']. destruct Hn'. rewrite Hr'. by left.
  - destruct (key =? "")%string; [done|]. intros [= <-]. by destruct Hdir.
Qed.

Lemma leftover_apart mine n p :
  In p (List.filter (stale_staging mine) (entries_of dir n)) -> apart p opt.
Proof.
  rewrite filter_In. unfold entries_of. rewrite filter_In. intros [[_ Hp] Hs].
  destruct (parent p) as [q|] eqn:Hpar; [|done]. apply String.eqb_eq in Hp as ->.
  destruct (parent_inv p Hpar) as (name & Hname & Hfile & Hsl). unfold stale_staging in Hs. rewrite Hfile in Hs.
  apply andb_true_iff in Hs as [[r Hr]%starts_with_true _]. rewrite Hname.
  apply siblings_apart; [done| |plain_name_here|].
  - split; [|done]. intros ->. done.
  - intros ->. done.
Qed.

Lemma clear_leftovers_keeps t pid d :
  shows (Live t) (nodes d) -> shows (Live t) (nodes (snd (clear_leftovers opt dir pid d))).
Proof.
  intros Hs. unfold clear_leftovers. unfold bind at 1. cbn [look gets].
  rewrite (holds_exists opt t) by apply Hs. unfold bind at 1.
  assert (forall A (m : M FsError Disk A) p d1, within (below p) m -> apart p opt -> shows (Live t) (nodes d1) ->
    shows (Live t) (nodes (snd (m d1)))) as Hkeep.
  { intros A m p d1 Hm Hap [Ht Hh]. split; [done|]. eapply holds_within; [exact Hm| |done].
    intros k Hk. by apply (apart_keys opt p); [apply apart_sym|]. }
  assert (forall p d1, apart p opt -> shows (Live t) (nodes d1) ->
    shows (Live t) (nodes (snd (ignore_errors (remove_tree p) d1)))) as Hone.
  { intros p d1. apply Hkeep, within_ignore, within_remove_tree. }
  assert (shows (Live t) (nodes (snd ((ignore_errors (remove_tree retired) ;;; ret tt) d)))) as H1'.
  { apply (Hkeep _ _ retired); [|apply apart_sym, opt_retired|done].
    apply within_bind; [apply within_ignore, within_remove_tree|by intros ?]. }
  destruct ((ignore_errors (remove_tree retired) ;;; ret tt) d) as [[u|e] d1]; cbn [fst snd] in *; [|done].
  unfold bind at 1. specialize (Hone incoming d1 incoming_opt H1') as H2'.
  destruct (ignore_errors (remove_tree incoming) d1) as [[o|e] d2]; cbn [fst snd] in *; [|done].
  unfold bind. cbn [look gets].
  pose proof (leftover_apart (".asterism-install." +:+ decimal pid) (nodes d2)) as Hl.
  generalize dependent d2. generalize dependent (List.filter (stale_staging (".asterism-install." +:+ decimal pid))).
  intros F d2 H2' Hl. generalize dependent (F (entries_of dir (nodes d2))). intros ps Hl. revert d2 H2'.
  induction ps as [|p ps IH]; intros d2 H2'; [done|]. cbn [remove_trees]. unfold bind.
  specialize (Hone p d2 (Hl p (or_introl eq_refl)) H2').
  destruct (ignore_errors (remove_tree p) d2) as [[o'|e] d3]; cbn [fst snd] in *; [|done].
  apply IH; [|done]. intros q Hq. apply Hl. by right.
Qed.

Lemma recover_spec pid s d res d' :
  shows s (nodes d) -> recover_from_interrupted_install opt pid d = (res, d') ->
  match s with
  | Live t | Unproved t _ => shows (Live t) (nodes d')
  | Parked old =>
      (shows (Live old) (nodes d') \/ (is_ok res = false /\ shows (Parked old) (nodes d')))
      /\ (plan d = [] -> shows (Live old) (nodes d'))
  | Broken part old =>
      match part ""%string with
      | Some _ => shows (Live part) (nodes d')
      | None => shows (Live old) (nodes d') \/ (is_ok res = false /\ shows (Broken part old) (nodes d'))
      end
  end.
Proof.
  intros Hs Hr. unfold recover_from_interrupted_install in Hr. rewrite parent_join in Hr by (done || plain_name_here).
  unfold bind at 1 in Hr. cbn [look gets] in Hr.
  assert (forall t, shows (Live t) (nodes d) -> shows (Live t) (nodes d')) as Hlive.
  { intros t Ht. rewrite (holds_exists opt t) in Hr by apply Ht. cbn [negb andb] in Hr. unfold bind in Hr. cbn [ret] in Hr.
    pose proof (clear_leftovers_keeps t pid d Ht) as Hk. by rewrite Hr in Hk. }
  assert (forall old, is_tree old -> holds retired old (nodes d) -> exists_ (nodes d) opt = false ->
    (shows (Live old) (nodes d') \/ (is_ok res = false /\ nodes d' = nodes d /\ fst (move retired opt d) <> Ok tt))) as Hback.
  { intros old Ht Hh He. rewrite He in Hr. pose proof Ht as (x & Hx & Hk). rewrite <- (holds_root _ _ _ Hh) in Hx.
    assert (is_dir (nodes d) retired = true) as Hd.
    { unfold is_dir, has_kind. rewrite (resolve_file _ _ _ x), Hx by congruence. by apply bool_decide_eq_true_2. }
    rewrite Hd in Hr. cbn [negb andb] in Hr. unfold bind in Hr. pose proof (move_back old d Ht Hh) as Hm.
    destruct (move retired opt d) as [[u|e] d1]; cbn [fst snd] in *.
    - left. pose proof (clear_leftovers_keeps old pid d1 Hm) as Hk'. by rewrite Hr in Hk'.
    - right. by injection Hr as <- <-. }
  destruct s as [t|old|new old|part old]; [by apply Hlive| |apply Hlive; by destruct Hs as (? & _ & ? & _)|].
  - destruct Hs as (Ht & Hn & Hh). destruct (Hback old Ht Hh (holds_nothing _ _ Hn)) as [Hl|(Hok & Hsame & Hf)]; [by auto|].
    split; [right; by rewrite Hsame|]. intros Hp. exfalso. apply Hf.
    pose proof Ht as (x & Hx & Hk). rewrite <- (holds_root _ _ _ Hh) in Hx.
    by apply (move_calm retired opt x); [| |apply apart_sym, opt_retired| |].
  - destruct Hs as (Hpart & Ht & Ho & Hh). destruct (part ""%string) as [x|] eqn:Ex.
    + apply Hlive. split; [|done]. destruct Hpart as [E|?]; [congruence|done].
    + destruct (Hback old Ht Hh) as [Hl|(Hok & Hsame & _)]; [|by left|right; by rewrite Hsame].
      apply exists_absent. by rewrite (holds_root _ _ _ Ho).
Qed.
End Swap.

(** ** The refinement *)

Inductive Op : Type := Install | RollBack | Commit | Recover.

(** [true] for an operation that returned without an error. *)
Inductive swap_step (staged : Tree -> Prop) : Op -> bool -> Runtime -> Runtime -> Prop :=
| step_installed new old : staged new -> swap_step staged Install true (Live old) (Unproved new old)
| step_kept old : swap_step staged Install false (Live old) (Live old)
| step_parked old : swap_step staged Install false (Live old) (Parked old)
| step_cut new old : staged new -> swap_step staged Install false (Live old) (Unproved new old)
| step_broken new part old : staged new -> part_of part new -> swap_step staged Install false (Live old) (Broken part old)
| step_rolled_back ok new old : swap_step staged RollBack ok (Unproved new old) (Live old)
| step_half ok new part old : part_of part new -> swap_step staged RollBack ok (Unproved new old) (Broken part old)
| step_committed ok new old : swap_step staged Commit ok (Unproved new old) (Live new)
| step_live ok t : swap_step staged Recover ok (Live t) (Live t)
| step_recovered ok old : swap_step staged Recover ok (Parked old) (Live old)
| step_stranded old : swap_step staged Recover false (Parked old) (Parked old)
| step_superseded ok new old : swap_step staged Recover ok (Unproved new old) (Live new)
| step_lost ok part old : is_tree part -> swap_step staged Recover ok (Broken part old) (Live part)
| step_mended ok part old : part ""%string = None -> swap_step staged Recover ok (Broken part old) (Live old)
| step_unmended part old : part ""%string = None -> swap_step staged Recover false (Broken part old) (Broken part old).

(** A node recovers first, whatever it finds; it installs over a directory at the
    runtime's path, and rolls back or commits what it has installed. *)
Definition starts_from (op : Op) (s : Runtime) : Prop :=
  match op, s with
  | Install, Live _ | RollBack, Unproved _ _ | Commit, Unproved _ _ | Recover, _ => True
  | _, _ => False
  end.

(** What an operation comes to when no call is refused or cut short. *)
Definition undisturbed (op : Op) (ok : bool) (s s' : Runtime) : Prop :=
  match op, s with
  | Install, Live old => ok = true \/ s' = Live old
  | RollBack, Unproved _ old => s' = Live old
  | Recover, Parked old => s' = Live old
  | _, _ => True
  end.

Section Refinement.
Context `{Process, SerdeJsonLaws, TarLaws} (b : VerifiedBundle) (service : option Z) (starts : Result string unit)
  (dir : string) (pid : Z).

Definition perform (op : Op) (d : Disk) : bool * Disk :=
  match op with
  | Install => let (r, d') := install_runtime service b (path_join dir "asterism") starts d in (is_ok r, d')
  | RollBack => let (r, d') := roll_back (the_swap dir) d in (is_ok r, d')
  | Commit => let (r, d') := commit (the_swap dir) d in (is_ok r, d')
  | Recover => let (r, d') := recover_from_interrupted_install (path_join dir "asterism") pid d in (is_ok r, d')
  end.

(** A tree with the names and contents of one that staging finished. *)
Definition staged_like (new : Tree) : Prop := exists t, staged_tree dir b t /\ like t new.

(** C11. Installing over a runtime, rolling back and committing what was installed,
    and recovering at the next start refine an abstract machine, whatever system
    call is refused and wherever the process stops.  While nothing rolls back, the
    runtime path holds the previous tree, or the new one with its marker, or
    nothing while the previous tree is whole beside it.  Rolling back (which a
    failed installation does too) can leave part of the new tree at the path, with
    the previous one still whole beside it.  Recovering keeps what is at the path
    and drops what is beside it, so an unproved new tree becomes the runtime; and so
    does a part that a roll back left, which is the one way to lose every whole tree.
    Where the path was already empty it brings the previous tree back, or fails and
    changes nothing.  Undisturbed, a failed installation and a roll back leave the
    previous runtime live, and recovering brings a parked one back.  Installing
    where there is no directory at the runtime's path is not part of this claim,
    which is about a host whose paths hold no links and an archive that is unpacked
    below the directory it is given and brings no links to them. *)
Theorem runtime_swap_refines op s d :
  plain_dir dir -> plain_bundle dir b -> plain_place dir (nodes d) -> shows dir s (nodes d) -> starts_from op s ->
  exists s', swap_step staged_like op (fst (perform op d)) s s' /\ shows dir s' (nodes (snd (perform op d)))
    /\ (plan d = [] -> undisturbed op (fst (perform op d)) s s').
Proof.
  intros Hdir Hplain Hpl Hs Hstart. destruct op; cbn [perform].
  - destruct s as [old| | |]; try done. destruct (install_runtime _ _ _ _ d) as [r d'] eqn:Hi.
    pose proof (install_spec dir Hdir b service starts old d r d' Hplain Hpl Hs Hi) as Hr.
    destruct r as [sw|e]; cbn [is_ok fst snd] in *.
    + destruct Hr as (_ & t & Hst & new & Hl & Hn). exists (Unproved new old).
      split; [constructor; by exists t|]. split; [done|]. by left.
    + destruct Hr as [Hr Hcalm]. destruct (decide (plan d = [])) as [Hp|Hp].
      { exists (Live old). split; [constructor|]. split; [by apply Hcalm|]. by right. }
      destruct Hr as [Hc|[Hc|(t & Hst & [(new & Hl & Hn)|(new & part & Hl & Hpart & Hn)])]].
      * exists (Live old). split; [constructor|]. by split.
      * exists (Parked old). split; [constructor|]. by split.
      * exists (Unproved new old). split; [constructor; by exists t|]. by split.
      * exists (Broken part old). split; [apply (step_broken _ new); [by exists t|done]|]. by split.
  - destruct s as [| |new old|]; try done.
    pose proof (roll_back_keeps dir Hdir new old d Hs) as Hk. pose proof (roll_back_calm dir Hdir new old d Hs) as Hc.
    destruct (roll_back (the_swap dir) d) as [r d']; cbn [fst snd] in *.
    destruct Hk as [Hk|(part & Hpart & Hk)]; [exists (Live old); split; [constructor|done]|].
    destruct (decide (plan d = [])) as [Hp|Hp].
    { exists (Live old). split; [constructor|]. split; [by apply Hc|done]. }
    exists (Broken part old). split; [by apply (step_half _ _ new)|]. by split.
  - destruct s as [| |new old|]; try done. pose proof (commit_keeps dir Hdir new old d Hs) as Hk.
    destruct (commit (the_swap dir) d) as [r d']. exists (Live new). split; [constructor|done].
  - destruct (recover_from_interrupted_install _ _ d) as [r d'] eqn:Hr.
    pose proof (recover_spec dir Hdir pid s d r d' Hs Hr) as Hk. cbn [fst snd].
    destruct s as [t|old|new old|part old].
    + exists (Live t). split; [constructor|done].
    + destruct Hk as [[Hk|[Hok Hk]] Hc]; [exists (Live old); split; [constructor|done]|].
      destruct (decide (plan d = [])) as [Hp|Hp].
      { exists (Live old). split; [constructor|]. split; [by apply Hc|done]. }
      exists (Parked old). rewrite Hok. split; [constructor|]. by split.
    + exists (Live new). split; [constructor|done].
    + destruct (part ""%string) as [x|] eqn:Ex.
      { exists (Live part). split; [constructor; by destruct Hk|done]. }
      destruct Hk as [Hk|[Hok Hk]]; [exists (Live old); split; [by constructor|done]|].
      exists (Broken part old). rewrite Hok. split; [by constructor|done].
Qed.
End Refinement.

(** ** A host with a runtime and an archive that replaces it. *)

Module RuntimeSwapSamples.
Import Codec.
#[export] Instance root : Process := {| euid := 0; umask := 0x12 |}.

Definition folder : Node := {| f_kind := Directory; f_owner := 0; f_mode := 0x1ED; f_body := [] |}.
Definition file (body : string) : Node :=
  {| f_kind := RegularFile; f_owner := 0; f_mode := 0x1ED; f_body := chars body |}.

(** The archive holds a launcher. *)
Definition place (rel : string) (x : Node) (into : string) : M FsError Disk unit :=
  syscall (fun n => Ok (tt, <[into +:+ rel := x]> n)).
Definition sample_members : list (option Member) :=
  [Some {| mb_path := Some "asterism"%string; unpack_in := place "/asterism" folder |};
   Some {| mb_path := Some "asterism/hermes/.venv/bin/hermes"%string;
           unpack_in := place "/asterism/hermes/.venv/bin/hermes" (file "new") |}].
#[export] Instance sample_tar : Tar := {| entries _ := Some sample_members |}.

Lemma place_within rel x into : rooted rel = true -> within (below into) (place rel x into).
Proof.
  intros Hr. apply within_syscall. intros n a n' [= <- <-] k Hk. rewrite lookup_insert_ne; [done|].
  intros <-. by rewrite below_rel in Hk.
Qed.

#[export] Instance sample_tar_laws : TarLaws.
Proof.
  split.
  - intros body ms m into [= <-] [[= <-]|[[= <-]|[]]]; by apply place_within.
  - intros body ms m into d [= <-] [[= <-]|[[= <-]|[]]] Hp; by apply steady_syscall.
Qed.

Definition manifest : Manifest :=
  {| mf_schema := 1; mf_product := "asterism-runtime"; mf_version := "v2.0.0"; mf_source_revision := "abc123";
     mf_platform := "linux/amd64"; mf_components := []; mf_runtime_image := ""; mf_sqlite_journal_mode := "wal";
     mf_archive := {| ar_name := "a.tar.gz"; ar_sha256 := of_chars (List.repeat (Ascii.ascii_of_N 48) 64); ar_size_bytes := 1 |};
     mf_installed_size_bytes := 1; mf_install_root := "/opt/asterism" |}.
Definition bundle : VerifiedBundle := {| vb_manifest := manifest; vb_archive := "/opt/a.tar.gz" |}.

Definition before : gmap string Node :=
  list_to_map [("/opt", folder); ("/opt/a.tar.gz", file "x"); ("/opt/asterism", folder);
               ("/opt/asterism/hermes/.venv/bin/hermes", file "old")]%string.
Definition old_tree : Tree := subtree "/opt/asterism" before.
Definition sample_host (p : list Fate) : Disk := {| nodes := before; plan := p |}.

Definition go (op : Op) (d : Disk) : bool * Disk := perform bundle (Some 7) (Ok tt) "/opt" 1 op d.
Definition launcher_body (d : Disk) (dir : string) : option bytes :=
  f_body <$> nodes d !! (dir +:+ "/hermes/.venv/bin/hermes").

Lemma opt_plain : plain_dir "/opt".
Proof. by split. Qed.

Lemma sample_plain : plain_bundle "/opt" bundle.
Proof.
  intros d r d' [Ht Hm] Hu.
  assert (forall d1 d2 (x : unit), unpack_each (incoming_in "/opt") sample_members d1 = (Ok x, d2) ->
    (forall k, k <> "/opt/.asterism-incoming/asterism" -> k <> "/opt/.asterism-incoming/asterism/hermes/.venv/bin/hermes" ->
       nodes d2 !! k = nodes d1 !! k)%string
    /\ nodes d2 !! "/opt/.asterism-incoming/asterism"%string = Some folder) as Hboth.
  { intros d1 d2 x. cbn [unpack_each sample_members]. unfold bind, lift, on_bundle, place, syscall. cbn.
    unfold member_is_inside_the_tree. vm_compute components. destruct (plan d1) as [|[] p1]; cbn; [|destruct p1 as [|[] p2]; cbn| |];
      try (intros [=]; fail).
    all: intros [= <- <-]; cbn; split; [|by rewrite lookup_insert_ne, lookup_insert_eq by done].
    all: intros k H1 H2; by rewrite !lookup_insert_ne by done. }
  unfold unpack in Hu. apply bind_Ok in Hu as (body & d1 & Hl & Hu). destruct body as [raw|e]; [|discriminate Hu].
  cbn in Hl. injection Hl as _ <-.
  apply bind_Ok in Hu as (u & d2 & Hc & Hu). cbn [entries sample_tar] in Hu.
  apply bind_Ok in Hu as (u' & d3 & He & Hr). injection Hr as _ <-.
  destruct (Hboth _ _ _ He) as [Hoth Hroot]. split.
  - intros x Hx. change (path_join _ _) with "/opt/.asterism-incoming/asterism"%string in Hx. rewrite Hroot in Hx. by injection Hx as <-.
  - intros x Hx.
    change (runtimerelease.marker_path _) with "/opt/.asterism-incoming/asterism/release.json"%string in Hx.
    rewrite Hoth in Hx by done. apply Hm.
    assert (nodes d2 !! "/opt/.asterism-incoming/asterism/release.json"%string
            = nodes d !! "/opt/.asterism-incoming/asterism/release.json"%string) as Heq.
    { pose proof (within_on_bundle _ _ (within_create (fun k => (k =? incoming_in "/opt")%string) (incoming_in "/opt")
        (String.eqb_refl _)) d "/opt/.asterism-incoming/asterism/release.json"%string eq_refl) as Hw.
      by rewrite Hc in Hw. }
    rewrite Heq in Hx. exact Hx.
Qed.

Lemma sample_shows : shows "/opt" (Live old_tree) before.
Proof. split; [by exists folder|]. by intros rel Hr. Qed.
Lemma sample_place : plain_place "/opt" before.
Proof. by split. Qed.

Lemma runtime_swap_refines_witness :
  exists s', swap_step (staged_like bundle "/opt") Install true (Live old_tree) s'
    /\ shows "/opt" s' (nodes (snd (go Install (sample_host [])))).
Proof.
  destruct (runtime_swap_refines bundle (Some 7) (Ok tt) "/opt" 1 Install (Live old_tree) (sample_host [])
              opt_plain sample_plain sample_place sample_shows I) as (s' & Hs & Hv & _).
  assert (fst (perform bundle (Some 7) (Ok tt) "/opt" 1 Install (sample_host [])) = true) as Hok by (vm_compute; reflexivity).
  rewrite Hok in Hs. exists s'. by split.
Defined.

(** The previous launcher and the new one. *)
Definition with_plan (p : list Fate) (d : Disk) : Disk := {| nodes := nodes d; plan := p |}.
Definition installed : Disk := snd (go Install (sample_host [])).
Definition OLD : option bytes := Some $"old".
Definition NEW : option bytes := Some $"new".
Definition launchers (d : Disk) : option bytes * option bytes :=
  (launcher_body d "/opt/asterism", launcher_body d "/opt/.asterism-previous").

Lemma launchers_after_install : launchers installed = (NEW, OLD).
Proof. vm_compute. reflexivity. Qed.

(** A roll back that is cut short leaves part of the new tree and the whole
    previous one; the next start takes the part for a runtime and removes the
    previous tree. *)
Lemma interrupted_roll_back_loses_the_runtime :
  let cut := snd (go RollBack (with_plan [Goes; Stops] installed)) in
  launchers cut = (None, OLD) /\ launchers (snd (go Recover (with_plan [] cut))) = (None, None).
Proof. vm_compute. by split. Qed.

(** A process that ends before the services were checked leaves both trees; the
    next start keeps the one that was never proved. *)
Lemma recovery_keeps_the_unproved_runtime :
  launchers (snd (go Recover installed)) = (NEW, None).
Proof. vm_compute. reflexivity. Qed.

(** A roll back that may not remove the new tree leaves it live and says
    nothing. *)
Lemma refused_roll_back_is_silent :
  let (ok, d) := go RollBack (with_plan [Fails] installed) in ok = true /\ launchers d = (NEW, OLD).
Proof. vm_compute. by split. Qed.

(** ** A downloaded bundle *)

Definition zero_digest (b : bytes) : list Z := List.repeat 0 32.
Definition downloaded : gmap string Node :=
  list_to_map [("/s/manifest.json", file "m"); ("/s/a.tar.gz", file "x");
               ("/s/SHA256SUMS.runtime", file (ar_sha256 (mf_archive manifest) +:+ "  a.tar.gz"))]%string.

Lemma verified_bundle_is_the_named_one_witness :
  exists body, read downloaded "/s/a.tar.gz" = Ok body
    /\ lowercase (hex (zero_digest body)) = lowercase (ar_sha256 (mf_archive manifest)).
Proof.
  destruct (verified_bundle_is_the_named_one zero_digest (fun _ => Some manifest) downloaded "/s" "linux/amd64"
              {| vb_manifest := manifest; vb_archive := "/s/a.tar.gz" |})
    as (_ & _ & _ & _ & _ & _ & body & _ & _ & Hr & _ & Hd & _); [vm_compute; reflexivity|].
  by exists body.
Defined.
End RuntimeSwapSamples.
