(* ===== verification/HostPaths.v ===== *)
(** * HostPaths: where everything lives on a host ([hostsetup.rs]
    [HostPaths]).  A prefix, empty on a real host, goes in front of every
    path. *)
From S2P Require Import Prelude Text Fs.

Module HostPaths.

Record HostPaths : Type := { prefix : string }.
Definition default_paths : HostPaths := {| prefix := "" |}.
Definition with_prefix (p : string) : HostPaths := {| prefix := p |}.
Definition under_prefix (h : HostPaths) : bool := negb (prefix h =? "")%string.

Definition at_ (h : HostPaths) (absolute : string) : string :=
  if (prefix h =? "")%string then absolute
  else path_join (prefix h) (of_chars (drop_while (char_eqb SLASH) (chars absolute))).

Definition node_binary (h : HostPaths) : string := at_ h "/usr/local/bin/asterism-node".
Definition env_file (h : HostPaths) : string := at_ h "/etc/asterism/asterism.env".
Definition state_root (h : HostPaths) : string := at_ h "/var/lib/asterism".
Definition hermes_home (h : HostPaths) : string := at_ h "/var/lib/asterism/hermes".
Definition project_root (h : HostPaths) : string := at_ h "/var/lib/asterism/projects".
Definition hermes_project_home_root (h : HostPaths) : string := at_ h "/var/lib/asterism/hermes-projects".
Definition credential_root (h : HostPaths) : string := at_ h "/var/lib/asterism/credentials".
Definition worker_template (h : HostPaths) : string := at_ h "/etc/systemd/system/asterism-hermes@.service".
Definition node_unit (h : HostPaths) : string := at_ h "/etc/systemd/system/asterism-node.service".
Definition sudoers_policy (h : HostPaths) : string := at_ h "/etc/sudoers.d/asterism-node".
Definition update_unit (h : HostPaths) : string := at_ h "/etc/systemd/system/asterism-update.service".
Definition update_request (h : HostPaths) : string := at_ h "/var/lib/asterism/node/update-request.json".
Definition shared_provider_credential (h : HostPaths) : string := at_ h "/var/lib/asterism/hermes/auth.json".
Definition etc_dir (h : HostPaths) : string := at_ h "/etc/asterism".
Definition opt_dir (h : HostPaths) : string := at_ h "/opt/asterism".
Definition hermes_dir (h : HostPaths) : string := at_ h "/opt/asterism/hermes".
Definition codex_dir (h : HostPaths) : string := at_ h "/opt/asterism/codex".
Definition node_home (h : HostPaths) : string := at_ h "/var/lib/asterism".
Definition node_state_dir (h : HostPaths) : string := at_ h "/var/lib/asterism/node".
Definition workspace (h : HostPaths) : string := at_ h "/srv/asterism/workspace".
Definition hermes_unit (h : HostPaths) : string := at_ h "/etc/systemd/system/asterism-hermes.service".
Definition codex_root (h : HostPaths) : string := at_ h "/var/lib/asterism/codex".
Definition codex_auth (h : HostPaths) : string := at_ h "/var/lib/asterism/codex/auth.json".
Definition legacy_codex_home (h : HostPaths) : string := at_ h "/var/lib/asterism/hermes/.codex".
Definition legacy_codex_auth (h : HostPaths) : string := at_ h "/var/lib/asterism/hermes/.codex/auth.json".
Definition hermes_config (h : HostPaths) : string := at_ h "/var/lib/asterism/hermes/config.yaml".
Definition systemd_dir (h : HostPaths) : string := at_ h "/etc/systemd/system".

End HostPaths.
