(* ===== verification/NodeSetup.v ===== *)
(** * NodeSetup: writing what a node needs onto a host ([nodesetup.rs], with
    the files of the registry from [registry.rs]).

    The texts of the units, of the sudoers policy and of the configuration are
    the source's.  [service] is the account the node runs as, [None] where this
    process may not give files away ([service_ids]); the group of a file is not
    modelled. *)
From stdpp Require Import gmap.
From S2P Require Import Prelude Text Fs CredentialHomes Host Profiles RuntimeSwap HostPaths.

(** [Iterator::find_map]. *)
Fixpoint first_some {A B} (f : A -> option B) (l : list A) : option B :=
  match l with
  | [] => None
  | x :: l => match f x with Some y => Some y | None => first_some f l end
  end.

Module nodesetup.

Definition SERVICE_ACCOUNT : string := "asterism".
Definition SYSTEMCTL_BIN : string := "/usr/bin/systemctl".
Definition REPO : string := "Patternity/asterism".

Record Settings : Type := { hermes_port : Z; control_plane : string }.

(** ** Rendering *)

Definition worker_template (paths : HostPaths.HostPaths) : string :=
  "# One Hermes worker for one Asterism project.
#
# The instance name is the project's generated profile — never its display name,
# so renaming a project cannot orphan its Hermes state, and never anything that
# arrived from the wire. Each instance has its own HERMES_HOME, so its sessions,
# memory and state database are separate files rather than rows filtered after
# retrieval.
#
# Installed but not enabled: the Node starts and stops instances by exact unit
# name. Pattern matching is deliberately absent from that path — a `pkill -f`
# pattern in this project's history once matched an unrelated process.
[Unit]
Description=Asterism Hermes worker for project profile %i
Documentation=https://github.com/" +:+ REPO +:+ "/blob/master/docs/deployment.md
After=network-online.target
Wants=network-online.target
# A configuration error should fail visibly rather than retry forever.
StartLimitIntervalSec=60
StartLimitBurst=5

[Service]
Type=simple
User=" +:+ SERVICE_ACCOUNT +:+ "
Group=" +:+ SERVICE_ACCOUNT +:+ "
# The profile home, not the project workspace: where tools run is Hermes'
# own terminal.cwd, set per profile in its generated config.
WorkingDirectory=" +:+ HostPaths.hermes_project_home_root paths +:+ "/%i
# HERMES_HOME, the loopback port and this worker's API key all arrive here, so
# the key stays out of ExecStart, out of the process table and out of
# `systemctl show`. Provisioning writes the file 0600, owned by the runtime user.
EnvironmentFile=" +:+ HostPaths.hermes_project_home_root paths +:+ "/%i/runtime.env
# The provider credential is the host's, reached through a link inside this
# worker's own Codex home. Set here rather than only in runtime.env so that a
# profile provisioned by an older Node acquires it on restart, without rewriting
# an environment file that also carries this worker's API key.
Environment=CODEX_HOME=" +:+ HostPaths.hermes_project_home_root paths +:+ "/%i/.codex
Environment=PATH=" +:+ HostPaths.codex_dir paths +:+ "/bin:" +:+ HostPaths.hermes_dir paths +:+ "/.venv/bin:/usr/local/bin:/usr/bin:/bin
ExecStart=" +:+ HostPaths.hermes_dir paths +:+ "/.venv/bin/hermes gateway
# Hermes handles SIGTERM and then exits 1, which systemd would otherwise record
# as failed after an ordinary stop. Restart=always keeps crash recovery
# regardless of exit status, so accepting 1 as clean loses nothing.
Restart=always
SuccessExitStatus=1
RestartSec=5
TimeoutStartSec=90
TimeoutStopSec=30
KillSignal=SIGTERM
NoNewPrivileges=yes
PrivateTmp=yes
ProtectKernelTunables=yes
ProtectControlGroups=yes
StandardOutput=journal
StandardError=journal
SyslogIdentifier=asterism-hermes-%i

[Install]
WantedBy=multi-user.target
".

Definition worker_sudoers : string :=
  "# Authority for the Asterism Node to supervise its own project workers.
#
# The Node runs as an unprivileged account and must start, stop, restart and
# query exactly one systemd template: the per-project Hermes worker. This file
# is the whole of that escalation, which is the point of writing it out rather
# than running the daemon as root.
#
# The unit argument is bounded twice over. The Node validates a profile name to
# lowercase letters, digits and dashes before it can become an instance name, and
# these rules accept nothing but that template. There is no shell in the path:
# the Node executes sudo directly with the unit as one argument.
#
# The second alias is one verb against one exact unit, with no wildcard at all:
# starting the updater. It appears twice because sudo matches a whole command
# line and the Node starts that unit without waiting for it -- `--no-block` is a
# second argument form of the same single permission, not a second permission.
# Both are listed so a Node rolled back to an older binary, which starts the unit
# the blocking way, is not left unable to update itself out of the version it was
# rolled back from. That unit runs as root and updates this host, so the
# question is what an attacker who owned the daemon could make it do. The answer
# is bounded deliberately: the request the daemon leaves behind carries a
# version and nothing else, and the release it is fetched from, the checksums it
# is verified against and the work performed are all fixed inside the updater,
# where the daemon cannot reach them. Starting this unit can move the host
# between published releases of this product. It cannot fetch from anywhere
# else, and it cannot run anything else.
#
# Install as /etc/sudoers.d/asterism-node with mode 0440, owned by root, and
# validate with `visudo -cf` before trusting it.
Cmnd_Alias ASTERISM_WORKER = \
    " +:+ SYSTEMCTL_BIN +:+ " start asterism-hermes@*.service, \
    " +:+ SYSTEMCTL_BIN +:+ " stop asterism-hermes@*.service, \
    " +:+ SYSTEMCTL_BIN +:+ " restart asterism-hermes@*.service, \
    " +:+ SYSTEMCTL_BIN +:+ " is-active asterism-hermes@*.service

Cmnd_Alias ASTERISM_UPDATE = \
    " +:+ SYSTEMCTL_BIN +:+ " start asterism-update.service, \
    " +:+ SYSTEMCTL_BIN +:+ " start --no-block asterism-update.service

" +:+ SERVICE_ACCOUNT +:+ " ALL=(root) NOPASSWD: ASTERISM_WORKER, ASTERISM_UPDATE
".

Definition update_unit (paths : HostPaths.HostPaths) : string :=
  "[Unit]
Description=Asterism Node update
Documentation=https://github.com/Patternity/asterism/blob/master/docs/node-operations.md
# The update replaces the runtime and restarts the services, so it must not race
# a boot that is still bringing them up.
After=network-online.target
Wants=network-online.target

[Service]
Type=oneshot
# Root, deliberately and only here. This is the single privileged step in a
# product whose daemon runs unprivileged, and it is one command with no
# arguments: everything it acts on is validated inside the binary.
User=root
RemainAfterExit=no
ExecStart=" +:+ HostPaths.node_binary paths +:+ " node apply-update --node-home " +:+ HostPaths.node_home paths +:+ "
# Long enough for a 518 MB runtime on a slow link, bounded so a wedged download
# does not hold a unit open forever.
TimeoutStartSec=1800
StandardOutput=journal
StandardError=journal
SyslogIdentifier=asterism-update

# No [Install] section. This unit is started on demand and must never be
# enabled: coming back at boot is exactly the behaviour that would turn one
# failed update into an endless one.
".

Definition node_unit (paths : HostPaths.HostPaths) : string :=
  "[Unit]
Description=Asterism Node
Documentation=https://github.com/" +:+ REPO +:+ "/blob/master/docs/installation.md
# Hermes first: the Node dials it. Ordering is not readiness, so the Node also
# retries — a unit that merely starts second would still race the runtime.
After=network-online.target asterism-hermes.service
Wants=network-online.target
Requires=asterism-hermes.service

[Service]
Type=simple
User=" +:+ SERVICE_ACCOUNT +:+ "
Group=" +:+ SERVICE_ACCOUNT +:+ "
SupplementaryGroups=docker
WorkingDirectory=" +:+ HostPaths.state_root paths +:+ "
EnvironmentFile=" +:+ HostPaths.env_file paths +:+ "
# No project is named. A freshly installed Node is capacity: it reconciles
# whatever the Control Plane has assigned to it and starts with nothing.
ExecStart=" +:+ HostPaths.node_binary paths +:+ " node serve --node-home " +:+ HostPaths.node_home paths +:+ "
Restart=always
RestartSec=5
TimeoutStopSec=30
KillSignal=SIGTERM
# Two directives are deliberately absent here, and both would break the same
# thing. The Node supervises one systemd unit per project through the narrow
# sudoers rule in /etc/sudoers.d/asterism-node, and NoNewPrivileges makes every
# setuid binary inert for this process and its children: it does not narrow that
# escalation, it removes it, and every project worker then fails before it runs.
# ProtectKernelTunables implies NoNewPrivileges, so it forbids the escalation
# just as completely while looking like an unrelated hardening choice --
# `systemctl show -p NoNewPrivileges` still answers `no`, which is how this
# survived review. The boundary is the sudoers rule: four verbs, one template.
PrivateTmp=yes
ProtectControlGroups=yes
StandardOutput=journal
StandardError=journal
SyslogIdentifier=asterism-node

[Install]
WantedBy=multi-user.target
".

Definition hermes_unit (paths : HostPaths.HostPaths) (settings : Settings) : string :=
  "[Unit]
Description=Asterism host-native Hermes agent runtime
Documentation=https://github.com/" +:+ REPO +:+ "/blob/master/docs/installation.md
After=network-online.target docker.service
Wants=network-online.target
Requires=docker.service
# Bound the restart loop so a configuration error fails visibly instead of
# retrying forever.
StartLimitIntervalSec=60
StartLimitBurst=5

[Service]
Type=simple
User=" +:+ SERVICE_ACCOUNT +:+ "
Group=" +:+ SERVICE_ACCOUNT +:+ "
SupplementaryGroups=docker
WorkingDirectory=" +:+ HostPaths.workspace paths +:+ "
# The API key reaches Hermes through the environment file, never through the
# command line, so it stays out of the process table and out of systemctl show.
EnvironmentFile=" +:+ HostPaths.env_file paths +:+ "
Environment=HOME=" +:+ HostPaths.state_root paths +:+ "
Environment=HERMES_HOME=" +:+ HostPaths.hermes_home paths +:+ "
Environment=HERMES_CONFIG_DIR=" +:+ HostPaths.hermes_home paths +:+ "
Environment=CODEX_HOME=" +:+ HostPaths.hermes_home paths +:+ "/.codex
Environment=API_SERVER_ENABLED=true
Environment=API_SERVER_HOST=127.0.0.1
Environment=API_SERVER_PORT=" +:+ decimal (hermes_port settings) +:+ "
Environment=PYTHONUNBUFFERED=1
Environment=PATH=" +:+ HostPaths.codex_dir paths +:+ "/bin:" +:+ HostPaths.hermes_dir paths +:+ "/.venv/bin:/usr/local/bin:/usr/bin:/bin
ExecStart=" +:+ HostPaths.hermes_dir paths +:+ "/.venv/bin/hermes gateway
# Hermes handles SIGTERM and then exits 1, which systemd would otherwise record
# as a failed unit after an ordinary `systemctl stop`. Restart=always keeps crash
# recovery regardless of exit status, so nothing is lost by accepting 1 as clean.
Restart=always
SuccessExitStatus=1
RestartSec=5
TimeoutStopSec=30
KillSignal=SIGTERM
NoNewPrivileges=yes
PrivateTmp=yes
ProtectKernelTunables=yes
ProtectControlGroups=yes
StandardOutput=journal
StandardError=journal
SyslogIdentifier=asterism-hermes

[Install]
WantedBy=multi-user.target
".

Definition hermes_config (paths : HostPaths.HostPaths) (settings : Settings) (journal_mode : string) : string :=
  "# Asterism-managed Hermes configuration.
#
# The API binds to loopback only: Asterism Node reaches it over 127.0.0.1 and
# nothing else may. No inbound public port is introduced by this installation.
api_server:
  enabled: true
  host: 127.0.0.1
  port: " +:+ decimal (hermes_port settings) +:+ "

terminal:
  backend: local
  cwd: " +:+ HostPaths.workspace paths +:+ "

model:
  provider: openai-codex

approvals:
  mode: manual

database:
  # Chosen from the SQLite the runtime actually links, not from what it ought to
  # link. See docs/installation.md for the threshold and why it matters.
  journal_mode: " +:+ journal_mode +:+ "
".

(** The lines of the environment file. *)
Definition env_lines (key : bytes) (port : Z) (node_home : string) : list bytes :=
  [$"# Asterism runtime environment. Contains a secret: keep mode 0640, root:" ++ chars SERVICE_ACCOUNT ++ $".";
   $"#";
   $"# One key under two names. The Node reads ASTERISM_HERMES_API_KEY; the Hermes API";
   $"# server reads API_SERVER_KEY and refuses to start without it, loopback bind";
   $"# included. Both must be the same value or the Node authenticates to nothing.";
   $"ASTERISM_HERMES_API_KEY=" ++ key;
   $"API_SERVER_KEY=" ++ key;
   $"ASTERISM_HERMES_PORT=" ++ chars (decimal port);
   $"ASTERISM_HERMES_URL=http://127.0.0.1:" ++ chars (decimal port);
   $"ASTERISM_NODE_HOME=" ++ chars node_home].

(** ** Files and directories *)

Inductive Owner : Type := ServiceAccount | RootReadableByService.

(** [fs::copy]: the destination is opened and truncated before the source is
    read, so a file copied onto itself is emptied. *)
Definition mode_at (n : gmap string Node) (path : string) : Z :=
  match Fs.resolve MAX_HOPS n path with Some p => default 0 (f_mode <$> n !! p) | None => 0 end.
Definition copy `{Process} (src dst : string) : M FsError Disk unit :=
  let! found := look (fun n => match read n src with Ok _ => Ok (mode_at n src) | Err e => Err e end) in
  match found with
  | Err e => fail (Io e)
  | Ok mode =>
      open_truncate dst ;;;
      set_permissions dst mode ;;;
      let! body := look (fun n => match read n src with Ok body => body | Err _ => [] end) in
      syscall (through dst (with_body body))
  end.

Section Files.
Context `{Process} (service : option Z).

Definition apply_owner (path : string) (owner : Owner) : M FsError Disk unit :=
  match service with
  | None => ret tt
  | Some uid => set_owner path (match owner with ServiceAccount => uid | RootReadableByService => 0 end)
  end.
Definition owned (path : string) (owner : option Owner) : M FsError Disk unit :=
  match owner with Some o => apply_owner path o | None => ret tt end.

Definition write_file (path : string) (contents : bytes) (mode : Z) (owner : option Owner) : M FsError Disk unit :=
  match parent path with Some dir => create_dir_all dir | None => ret tt end ;;;
  let temporary := with_extension path "asterism-new" in
  write temporary contents ;;;
  set_permissions temporary mode ;;;
  sync temporary ;;;
  owned temporary owner ;;;
  rename temporary path.

Definition ensure_directory (path : string) (mode : Z) (owner : option Owner) : M FsError Disk unit :=
  let! found := look (fun n => symlink_metadata n path) in
  match found with
  | Some x =>
      if bool_decide (f_kind x = Symlink)
      then fail (Refused (path +:+ " is a symlink; Node state must live on a real directory"))
      else if negb (bool_decide (f_kind x = Directory))
      then fail (Refused (path +:+ " exists but is not a directory; move it aside and try again"))
      else set_permissions path mode
  | None => create_dir_all path ;;; set_permissions path mode
  end ;;;
  owned path owner.

(** ** Giving a tree away *)

Definition is_folder (n : gmap string Node) (path : string) : bool :=
  match n !! path with Some x => bool_decide (f_kind x = Directory) | None => false end.

(** [depth] bounds the directories inside one another; [longest] is enough of
    it, since a path is longer than its directory. *)
Definition longest (n : gmap string Node) : nat :=
  List.fold_right (fun k m => Nat.max (String.length k) m) 0%nat (List.map fst (map_to_list n)).
Definition each (f : string -> M FsError Disk unit) : list string -> M FsError Disk unit :=
  fix go l := match l with [] => ret tt | x :: l => f x ;;; go l end.
Fixpoint give_tree (depth : nat) (root : string) : M FsError Disk unit :=
  apply_owner root ServiceAccount ;;;
  let! entries := look (fun n => if is_folder n root then entries_of root n else []) in
  each (fun path =>
          let! found := look (fun n => symlink_metadata n path) in
          match found with
          | None => fail (Io NotFound)
          | Some x =>
              if bool_decide (f_kind x = Symlink) then ret tt
              else if bool_decide (f_kind x = Directory) then
                match depth with O => fail (Refused "deeper than any path") | S depth => give_tree depth path end
              else apply_owner path ServiceAccount
          end) entries.
Definition give_tree_to_service_account (root : string) : M FsError Disk unit :=
  match service with
  | None => ret tt
  | Some _ => let! n := look (fun n => n) in give_tree (longest n) root
  end.

(** ** The host's credential *)

Inductive HostCredential : Type := AlreadyCanonical | Adopted | NotYetAuthorized.

(** [fs::hard_link]: a second name for the file. *)
Definition hard_link (src dst : string) : M FsError Disk unit :=
  syscall (fun n => match n !! src, n !! dst with
                    | Some x, None => if bool_decide (f_kind x = Directory) then Err IoFailed else Ok (tt, <[dst := x]> n)
                    | Some _, Some _ => Err AlreadyExists
                    | None, _ => Err NotFound
                    end).
(** What is set through one of two names of a file is set for both. *)
Definition both (a b : string) (f : Node -> Node) : M FsError Disk unit :=
  syscall (fun n => Ok (tt, alter f a (alter f b n))).

Definition is_plain (n : gmap string Node) (path : string) : bool :=
  match symlink_metadata n path with Some x => bool_decide (f_kind x = RegularFile) | None => false end.

Definition adopt (legacy canonical : string) : M FsError Disk unit :=
  let! linked := ignore_errors (hard_link legacy canonical) in
  match linked with
  | Some _ =>
      both legacy canonical (with_mode 0x180) ;;;
      match service with Some uid => both legacy canonical (with_owner uid) | None => ret tt end
  | None =>
      copy legacy canonical ;;;
      set_permissions canonical 0x180 ;;;
      apply_owner canonical ServiceAccount
  end.

Definition establish_host_credential (paths : HostPaths.HostPaths) (nonce : string) : M FsError Disk HostCredential :=
  let canonical := HostPaths.codex_auth paths in
  let legacy := HostPaths.legacy_codex_auth paths in
  ensure_directory (HostPaths.codex_root paths) 0x1C0 (Some ServiceAccount) ;;;
  let! canonical_is_file := look (fun n => is_plain n canonical) in
  let! outcome :=
    if canonical_is_file : bool then ret AlreadyCanonical
    else
      let! legacy_is_file := look (fun n => is_plain n legacy) in
      if legacy_is_file : bool then adopt legacy canonical ;;; ret Adopted
      else ret NotYetAuthorized in
  ensure_directory (HostPaths.legacy_codex_home paths) 0x1C0 (Some ServiceAccount) ;;;
  link_to_host_credential canonical legacy nonce ;;;
  ret outcome.

(** ** The registry's files ([registry.rs]) *)

Definition REGISTRY_FILE_MODE : Z := 0x180.
Definition REGISTRY_RELATIVE_PATH : string := "node/registry.db".
Definition registry_files (path : string) : list string := [path; path +:+ "-wal"; path +:+ "-shm"].
Definition secure_registry_file (file : string) : M FsError Disk (list (string * Z)) :=
  let! found := look (fun n => symlink_metadata n file) in
  match found with
  | None => ret []
  | Some x =>
      if negb (bool_decide (f_kind x = RegularFile))
      then fail (Refused (file +:+ " is not a regular file; refusing to treat it as the registry"))
      else
        let mode := Z.land (f_mode x) 0x1FF in
        if negb (mode =? REGISTRY_FILE_MODE)
        then set_permissions file REGISTRY_FILE_MODE ;;; ret [(file, mode)]
        else ret []
  end.
Fixpoint secure_each (files : list string) : M FsError Disk (list (string * Z)) :=
  match files with
  | [] => ret []
  | f :: fs => let! c := secure_registry_file f in
               let! cs := secure_each fs in
               ret (c ++ cs)
  end.
Definition secure_registry_files (path : string) : M FsError Disk (list (string * Z)) := secure_each (registry_files path).

Definition own_if_there (file : string) : M FsError Disk unit :=
  let! there := look (fun n => match symlink_metadata n file with Some _ => true | None => false end) in
  if there : bool then apply_owner file ServiceAccount else ret tt.
Definition secure_node_registry (paths : HostPaths.HostPaths) : M FsError Disk (list (string * Z)) :=
  let registry := path_join (HostPaths.node_home paths) REGISTRY_RELATIVE_PATH in
  let! changes := secure_registry_files registry in
  each own_if_there (registry_files registry) ;;;
  ret changes.

(** ** The environment file *)

Definition text_of (n : gmap string Node) (path : string) : bytes :=
  match read_to_string n path with Ok text => text | Err _ => [] end.
Definition value_of (name : bytes) (text : bytes) : option bytes := first_some (strip_prefix name) (lines text).
Definition existing_key (text : bytes) : option bytes :=
  match value_of $"ASTERISM_HERMES_API_KEY=" text with
  | Some found => if (match trim found with [] => true | _ => false end) then None else Some (trim found)
  | None => None
  end.
(** [random] is what the kernel answers when it is asked for 32 bytes. *)
Definition generate_key (random : option (list Z)) : Result FsError bytes :=
  match random with
  | Some bytes => Ok (List.concat (List.map (hex_fixed 2) bytes))
  | None => Err (Refused "cannot read randomness for the Hermes API key")
  end.
Definition write_env_file (paths : HostPaths.HostPaths) (settings : Settings) (random : option (list Z)) :
    M FsError Disk unit :=
  let path := HostPaths.env_file paths in
  let! existing := look (fun n => text_of n path) in
  let! key := match existing_key existing with Some k => ret k | None => lift (generate_key random) end in
  write_file path (unlines (env_lines key (hermes_port settings) (HostPaths.node_home paths))) 0x1A0
    (Some RootReadableByService).
End Files.
End nodesetup.
