(* ===== verification/NodeInstall.v ===== *)
(** * NodeInstall: putting a release onto a host ([nodeinstall.rs]).

    Commands, HTTP requests, free space, ports, randomness and the node's own
    health endpoint are the class [Machine]; the reader of manifests [parse] is
    serde_json's.  Times are in milliseconds.  What is said on the terminal and
    to the Control Plane is not modelled. *)
From stdpp Require Import gmap.
From S2P Require Import Prelude Text Json Fs Host Policy UpdateRequest Bundle RuntimeSwap HostPaths NodeSetup.

(** [installreport.rs]. *)
Inductive FailureCode : Type :=
| UnsupportedOs | UnsupportedArchitecture | InsufficientDisk | DownloadFailed | CodeDigestMismatch
| UnsupportedBundleSchema | PrerequisitesFailed | RuntimeInstallFailed | EnrollmentRejected
| ServiceStartFailed | HealthCheckFailed | InterruptedBySignal | InternalError | ReleaseMismatch
| ServicesNotConverged.

Record Failure : Type := { fl_code : FailureCode; fl_error : NodeError }.

Record Command : Type := { c_program : string; c_args : list string; c_env : list (string * string) }.
Record Output : Type := { o_success : bool; o_stdout : bytes; o_stderr : bytes }.

(** An HTTP response without an error status is its body in the pieces that
    arrive, the last of which may be an error. *)
Class Machine `{Supervisor} : Type := {
  http_get : string -> host -> Result string (list (Result string bytes)) * host;
  execute : Command -> host -> Result (option string) Output * host;
  statvfs : host -> string -> option Z;
  bindable : host -> Z -> bool;
  node_health : host -> Result string unit * host;
  randomness : host -> option (list Z);
  service_ids : host -> option Z;
  launches : host -> Result string unit;
  registry_opens : host -> Result (option string) unit * host;
  host_platform : string;
  process_id : Z
}.

Record Request : Type := {
  rq_control_plane : string;
  rq_version : string;
  rq_release_base : string;
  rq_skip_prerequisites : bool
}.

Module nodeinstall.

Definition UNITS : list string := ["asterism-hermes.service"; "asterism-node.service"]%string.
Definition REQUIRED_FREE_BYTES : Z := 5000000000.

Section Machine.
Context `{Machine, Process}.

Definition coded {E A} (code : FailureCode) (f : E -> NodeError) (m : Prog E A) : Prog Failure A :=
  mapping (fun e => {| fl_code := code; fl_error := f e |}) m.
Definition fails {A} (code : FailureCode) (message : string) : Prog Failure A :=
  throw {| fl_code := code; fl_error := Bail message |}.
Definition on_files {E A} (f : gmap string Node -> A) : Prog E A := gets (fun s => f (nodes (s_disk s))).
Definition asking {E A} (f : host -> A) : Prog E A := gets (fun s => f (s_host s)).

(** ** Before anything changes *)

Definition preflight (paths : HostPaths.HostPaths) (free_bytes : Z) : Prog Failure unit :=
  if (host_platform =? "unsupported")%string
  then fails UnsupportedArchitecture "Asterism has no runtime for this processor architecture"
  else
    let! systemd := on_files (fun n => is_dir n (HostPaths.systemd_dir paths)) in
    if negb systemd then fails UnsupportedOs "this host has no systemd, which the Node is supervised by"
    else if free_bytes <? REQUIRED_FREE_BYTES
    then fails InsufficientDisk (decimal (free_bytes / 1000000000) +:+ " GB free is not enough; the runtime needs "
                                   +:+ decimal (REQUIRED_FREE_BYTES / 1000000000) +:+ " GB")
    else ret tt.

(** A parent is a shorter path, so the length of the path is fuel enough. *)
Fixpoint free_from (fuel : nat) (h : host) (n : gmap string Node) (current : string) : Z :=
  match if exists_ n current then statvfs h current else None with
  | Some free => free
  | None =>
      match fuel, parent current with
      | S fuel, Some up => free_from fuel h n up
      | _, _ => 0
      end
  end.
Definition free_bytes {E} (path : string) : Prog E Z :=
  gets (fun s => free_from (S (String.length path)) (s_host s) (nodes (s_disk s)) path).

(** ** Staging *)

Definition staging_in (dir : string) : string := path_join dir (".asterism-install." +:+ decimal process_id).
Definition beside_the_runtime (paths : HostPaths.HostPaths) : M FsError Disk string :=
  match parent (HostPaths.opt_dir paths) with
  | None => fail (Refused "the runtime root has no parent directory")
  | Some dir =>
      create_dir_all dir ;;;
      ignore_errors (remove_tree (staging_in dir)) ;;;
      create_dir_all (staging_in dir) ;;;
      set_permissions (staging_in dir) 0x1C0 ;;;
      ret (staging_in dir)
  end.
(** The staging directory is dropped however its holder returns. *)
Definition staged {A} (path : string) (m : Prog Failure A) : Prog Failure A :=
  let! r := attempt m in
  coded InternalError (fun e => e) (on_disk (ignore_errors (remove_tree path))) ;;;
  match r with Ok a => ret a | Err e => throw e end.

(** ** Downloading *)

Definition get {E} (url : string) : Prog E (Result string (list (Result string bytes))) :=
  fun s => let (r, h) := http_get url (s_host s) in (Ok r, at_host h s).
Definition base_of (r : Request) : string :=
  of_chars (trim_end_matches (char_eqb SLASH) (chars (rq_release_base r))) +:+ "/" +:+ rq_version r.
(** [Response::bytes]. *)
Fixpoint all_bytes (pieces : list (Result string bytes)) : Result string bytes :=
  match pieces with
  | [] => Ok []
  | Err e :: _ => Err e
  | Ok b :: rest => match all_bytes rest with Ok bs => Ok (b ++ bs) | Err e => Err e end
  end.

Definition fetch_file (r : Request) (into name : string) : Prog Failure unit :=
  let! response := get (base_of r +:+ "/" +:+ name) in
  match response with
  | Err error => fails DownloadFailed ("cannot fetch " +:+ name +:+ " from release " +:+ rq_version r +:+ ": " +:+ error
                   +:+ ". That release may carry no runtime bundle; name one that does with --version or ASTERISM_VERSION.")
  | Ok pieces =>
      match all_bytes pieces with
      | Err error => fails DownloadFailed error
      | Ok body => coded InternalError (fun e => e) (on_disk (write (path_join into name) body))
      end
  end.

Context (sha256 : bytes -> list Z) (parse : bytes -> option Manifest).

Definition fetch_manifest (r : Request) (into : string) : Prog Failure Manifest :=
  fetch_file r into "manifest.json" ;;;
  fetch_file r into CHECKSUM_FILE ;;;
  let! text := on_files (fun n => read_to_string n (path_join into "manifest.json")) in
  match text with
  | Err e => throw {| fl_code := InternalError; fl_error := OnDisk (Io e) |}
  | Ok text =>
      match parse text with
      | None => fails UnsupportedBundleSchema "the bundle manifest is not readable JSON"
      | Some m => ret m
      end
  end.

Fixpoint save (destination : string) (pieces : list (Result string bytes)) : Prog Failure unit :=
  match pieces with
  | [] => ret tt
  | Err e :: _ => fails DownloadFailed e
  | Ok b :: rest =>
      coded InternalError (fun e => e)
        (on_disk (syscall (through destination (fun x => with_body (f_body x ++ b) x)))) ;;;
      save destination rest
  end.
Definition download_bundle (r : Request) (m : Manifest) (into : string) : Prog Failure unit :=
  let! response := get (base_of r +:+ "/" +:+ ar_name (mf_archive m)) in
  match response with
  | Err e => fails DownloadFailed e
  | Ok pieces =>
      let destination := path_join into (ar_name (mf_archive m)) in
      coded InternalError (fun e => e) (on_disk (open_truncate destination)) ;;;
      save destination pieces
  end.

(** ** What the runtime needs of the system *)

Definition output (c : Command) : Prog NodeError Output :=
  fun s => let (r, h) := execute c (s_host s) in (told r, at_host h s).
Definition command (program : string) (args : list string) : Command :=
  {| c_program := program; c_args := args; c_env := [] |}.
Definition said (o : Output) : string := of_chars (trim (o_stderr o)).
Definition run (program : string) (args : list string) : Prog NodeError unit :=
  let! o := output (command program args) in
  if o_success o then ret tt
  else throw (Bail (program +:+ " " +:+ default ""%string (head args) +:+ " failed: " +:+ said o)).
(** [map(|output| ...).unwrap_or(false)]. *)
Definition answers (c : Command) (f : Output -> bool) : Prog NodeError bool :=
  let! r := attempt (output c) in
  ret (match r with Ok o => f o | Err _ => false end).

Definition apt (args : list string) : Command :=
  {| c_program := "apt-get"; c_args := args;
     c_env := [("DEBIAN_FRONTEND", "noninteractive"); ("NEEDRESTART_MODE", "a")]%string |}.
Definition run_apt (args : list string) : Prog NodeError unit :=
  let! o := output (apt args) in
  if o_success o then ret tt
  else throw (Bail ("apt-get " +:+ default ""%string (head args) +:+ " failed: " +:+ said o)).
Definition account_exists (user : string) : Prog NodeError bool := answers (command "id" ["-u"%string; user]) o_success.
Definition ensure_libatomic : Prog NodeError unit :=
  let! present := answers (command "ldconfig" ["-p"%string]) (fun o => contains $"libatomic.so.1" (o_stdout o)) in
  if present : bool then ret tt
  else
    let! o := output (apt ["install"; "-y"; "-qq"; "libatomic1"]%string) in
    if o_success o then ret tt
    else throw (Bail ("cannot install libatomic1, which the Codex CLI's Node.js requires: " +:+ said o)).
Definition add_to_docker_group : Prog NodeError unit :=
  let! _ := attempt (run "usermod" ["-aG"; "docker"; nodesetup.SERVICE_ACCOUNT]%string) in ret tt.

Definition os_release_field (n : gmap string Node) (field : string) : option string :=
  match read_to_string n "/etc/os-release" with
  | Err _ => None
  | Ok text => (fun v => of_chars (trim_matches (fun c => (code c =? 34)%N) v))
                 <$> first_some (strip_prefix (chars field ++ $"=")) (lines text)
  end.
Definition install_docker : Prog NodeError unit :=
  let! distro := on_files (fun n => os_release_field n "ID") in
  match distro with
  | None => throw (Bail "cannot identify this distribution")
  | Some distro =>
      let! codename := on_files (fun n => os_release_field n "VERSION_CODENAME") in
      match codename with
      | None => throw (Bail "cannot identify this distribution release")
      | Some codename =>
          on_disk (create_dir_all "/etc/apt/keyrings") ;;;
          run "curl" ["-fsSL"; "https://download.docker.com/linux/" +:+ distro +:+ "/gpg"; "-o";
                      "/etc/apt/keyrings/docker.asc"]%string ;;;
          on_disk (set_permissions "/etc/apt/keyrings/docker.asc" 0x1A4) ;;;
          on_disk (write "/etc/apt/sources.list.d/docker.list"
            (chars ("deb [arch=amd64 signed-by=/etc/apt/keyrings/docker.asc] https://download.docker.com/linux/"
               +:+ distro +:+ " " +:+ codename +:+ " stable") ++ [NL])) ;;;
          run_apt ["update"; "-qq"]%string ;;;
          run_apt ["install"; "-y"; "-qq"; "docker-ce"; "docker-ce-cli"; "containerd.io"; "docker-buildx-plugin";
                   "docker-compose-plugin"]%string ;;;
          run "systemctl" ["enable"; "--now"; "docker"]%string
      end
  end.

Definition ensure_prerequisites : Prog NodeError unit :=
  let! there := account_exists nodesetup.SERVICE_ACCOUNT in
  (if there : bool then ret tt
   else run "useradd" ["--system"; "--user-group"; "--create-home"; "--home-dir"; "/var/lib/asterism"; "--shell";
                       "/usr/sbin/nologin"; nodesetup.SERVICE_ACCOUNT]%string) ;;;
  ensure_libatomic ;;;
  let! docker := answers (command "docker" ["info"%string]) o_success in
  if docker : bool then add_to_docker_group
  else install_docker ;;; add_to_docker_group.

(** ** Configuration *)

Definition reconcile_journal_mode (service : option Z) (config : string) (journal_mode : bytes) : M FsError Disk unit :=
  let! found := look (fun n => read_to_string n config) in
  match found with
  | Err e => fail (Io e)
  | Ok body =>
      if bool_decide (lookup body $"database" $"journal_mode" = Some journal_mode) then ret tt
      else nodesetup.write_file service config (set_setting body $"database" $"journal_mode" journal_mode) 0x180
             (Some nodesetup.ServiceAccount)
  end.

Definition PORT_NAME : bytes := $"ASTERISM_HERMES_PORT=".
Definition chosen_port (env : bytes) : option Z := nodesetup.value_of PORT_NAME env ≫= (fun v => parse_u16 (trim v)).
Definition candidates : list Z := List.map (fun i => 18642 + Z.of_nat i) (List.seq 0 59).
Definition pick_hermes_port {E} (paths : HostPaths.HostPaths) : Prog E Z :=
  gets (fun s =>
    match match read_to_string (nodes (s_disk s)) (HostPaths.env_file paths) with
          | Ok existing => chosen_port existing
          | Err _ => None
          end with
    | Some port => port
    | None => default 18642 (List.find (bindable (s_host s)) candidates)
    end).

Definition directories (paths : HostPaths.HostPaths) : list (string * Z * nodesetup.Owner) :=
  [(HostPaths.etc_dir paths, 0x1E8, nodesetup.RootReadableByService);
   (HostPaths.state_root paths, 0x1E8, nodesetup.ServiceAccount);
   (HostPaths.node_state_dir paths, 0x1C0, nodesetup.ServiceAccount);
   (HostPaths.hermes_home paths, 0x1C0, nodesetup.ServiceAccount);
   (HostPaths.project_root paths, 0x1C0, nodesetup.ServiceAccount);
   (HostPaths.hermes_project_home_root paths, 0x1C0, nodesetup.ServiceAccount);
   (HostPaths.workspace paths, 0x1ED, nodesetup.ServiceAccount)].
Fixpoint ensure_directories (service : option Z) (ds : list (string * Z * nodesetup.Owner)) : M FsError Disk unit :=
  match ds with
  | [] => ret tt
  | (path, mode, owner) :: ds =>
      nodesetup.ensure_directory service path mode (Some owner) ;;; ensure_directories service ds
  end.

Definition journal_mode_of (m : Manifest) : string :=
  let mode := mf_sqlite_journal_mode m in
  if (mode =? "wal")%string || (mode =? "delete")%string then mode else "delete".
Fixpoint reconcile_projects (service : option Z) (journal_mode : bytes) (homes : list string) : M FsError Disk unit :=
  match homes with
  | [] => ret tt
  | home :: homes =>
      let config := path_join home "config.yaml" in
      let! there := look (fun n => is_file n config) in
      (if there : bool then reconcile_journal_mode service config journal_mode else ret tt) ;;;
      reconcile_projects service journal_mode homes
  end.
Definition write_hermes_configs (service : option Z) (paths : HostPaths.HostPaths) (settings : nodesetup.Settings)
    (journal_mode : string) : M FsError Disk unit :=
  let! there := look (fun n => exists_ n (HostPaths.hermes_config paths)) in
  (if there : bool then reconcile_journal_mode service (HostPaths.hermes_config paths) (chars journal_mode)
   else nodesetup.write_file service (HostPaths.hermes_config paths)
          (chars (nodesetup.hermes_config paths settings journal_mode)) 0x180 (Some nodesetup.ServiceAccount)) ;;;
  let! homes := look (fun n => if is_dir n (HostPaths.hermes_project_home_root paths)
                               then entries_of (HostPaths.hermes_project_home_root paths) n else []) in
  reconcile_projects service (chars journal_mode) homes.

(** The units and the sudoers policy, which are root's. *)
Definition root_files (paths : HostPaths.HostPaths) (settings : nodesetup.Settings) : list (string * string * Z) :=
  [(HostPaths.hermes_unit paths, nodesetup.hermes_unit paths settings, 0x1A4);
   (HostPaths.node_unit paths, nodesetup.node_unit paths, 0x1A4);
   (HostPaths.worker_template paths, nodesetup.worker_template paths, 0x1A4);
   (HostPaths.update_unit paths, nodesetup.update_unit paths, 0x1A4);
   (HostPaths.sudoers_policy paths, nodesetup.worker_sudoers, 0x120)].
Fixpoint write_root_files (service : option Z) (fs : list (string * string * Z)) : M FsError Disk unit :=
  match fs with
  | [] => ret tt
  | (path, text, mode) :: fs => nodesetup.write_file service path (chars text) mode None ;;; write_root_files service fs
  end.

Definition write_configuration (service : option Z) (random : option (list Z)) (nonce : string)
    (paths : HostPaths.HostPaths) (settings : nodesetup.Settings) (m : Manifest) : M FsError Disk unit :=
  ensure_directories service (directories paths) ;;;
  nodesetup.secure_node_registry service paths ;;;
  nodesetup.establish_host_credential service paths nonce ;;;
  nodesetup.write_env_file service paths settings random ;;;
  write_hermes_configs service paths settings (journal_mode_of m) ;;;
  write_root_files service (root_files paths settings).

(** ** Installing *)

Context `{SerdeJson, Tar}.

(** The text of a refused manifest decides the code that is reported. *)
Definition refusal (m : Manifest) (e : BundleError) : string :=
  match e with
  | SchemaNotSupported => "bundle schema " +:+ decimal (mf_schema m) +:+ " is not supported by this build (expected "
                            +:+ decimal SUPPORTED_SCHEMA +:+ ")"
  | NotTheRuntime => "the manifest describes " +:+ mf_product m +:+ ", not the runtime"
  | OtherPlatform => "the bundle is for " +:+ mf_platform m +:+ ", not " +:+ host_platform
  | UnnamedRevision => "the manifest does not name the revision it was built from"
  | _ => "the manifest does not carry a SHA-256 digest for its archive"
  end.
Definition accepted (m : Manifest) : Prog Failure unit :=
  match accept m host_platform with
  | Ok _ => ret tt
  | Err e => fails (if str_contains "schema" (refusal m e) then UnsupportedBundleSchema else UnsupportedArchitecture)
               (refusal m e)
  end.

Definition bundle_text (e : BundleError) : NodeError :=
  match e with ReadFailed f => OnDisk f | _ => Bail "the bundle is not the one its manifest describes" end.
Definition verified (staging : string) : Prog Failure VerifiedBundle :=
  let! r := on_files (fun n => verify sha256 parse n staging host_platform) in
  coded CodeDigestMismatch bundle_text (checked (fun e => e) r).

Definition install_error (e : InstallError) : Outcome NodeError :=
  if crashed e then Ended else Failed (Bail "the runtime was not installed").
Definition on_runtime {A} (m : M InstallError Disk A) : Prog NodeError A :=
  fun s => let (r, d) := m (s_disk s) in
           (match r with Ok a => Ok a | Err e => Err (install_error e) end, at_disk d s).
Definition install_runtime_now (b : VerifiedBundle) (paths : HostPaths.HostPaths) : Prog NodeError Swap :=
  let! service := asking service_ids in
  let! starts := asking launches in
  on_runtime (install_runtime service b (HostPaths.opt_dir paths) starts).

(** A swap that is dropped uncommitted puts the previous runtime back. *)
Definition or_drop {A} (sw : Swap) (m : Prog Failure A) : Prog Failure A :=
  let! r := attempt m in
  match r with
  | Ok a => ret a
  | Err e => coded InternalError (fun e => e) (on_disk (roll_back sw)) ;;; throw e
  end.

Definition configure (r : Request) (paths : HostPaths.HostPaths) (m : Manifest) : Prog NodeError nodesetup.Settings :=
  let! port := pick_hermes_port paths in
  let settings := {| nodesetup.hermes_port := port; nodesetup.control_plane := rq_control_plane r |} in
  let! service := asking service_ids in
  let! random := asking randomness in
  let! x := draw in
  on_disk (write_configuration service random x paths settings m) ;;;
  ret settings.

Record Installed : Type := {
  in_settings : nodesetup.Settings;
  in_revision : string;
  in_version : string;
  in_swap : Swap
}.

Definition install_staged (r : Request) (paths : HostPaths.HostPaths) (staging : string) : Prog Failure Installed :=
  let! manifest := fetch_manifest r staging in
  accepted manifest ;;;
  download_bundle r manifest staging ;;;
  let! b := verified staging in
  (if rq_skip_prerequisites r then ret tt else coded PrerequisitesFailed (fun e => e) ensure_prerequisites) ;;;
  let! sw := coded RuntimeInstallFailed (fun e => e) (install_runtime_now b paths) in
  or_drop sw (
    let! settings := coded RuntimeInstallFailed (fun e => e) (configure r paths (vb_manifest b)) in
    ret {| in_settings := settings; in_revision := mf_source_revision (vb_manifest b);
           in_version := mf_version (vb_manifest b); in_swap := sw |}).

Definition install (r : Request) (paths : HostPaths.HostPaths) : Prog Failure Installed :=
  coded InternalError (fun e => e)
    (on_disk (recover_from_interrupted_install (HostPaths.opt_dir paths) process_id)) ;;;
  let! staging := coded InternalError (fun e => e) (on_disk (beside_the_runtime paths)) in
  staged staging (install_staged r paths staging).

(** ** Services *)

Fixpoint start_each (units : list string) : Prog NodeError unit :=
  match units with
  | [] => ret tt
  | u :: us => run "systemctl" ["enable"%string; u] ;;; run "systemctl" ["restart"%string; u] ;;; start_each us
  end.
Definition start_services (paths : HostPaths.HostPaths) : Prog NodeError unit :=
  if HostPaths.under_prefix paths then ret tt
  else run "systemctl" ["daemon-reload"%string] ;;; start_each UNITS.
Definition reload_units (paths : HostPaths.HostPaths) : Prog NodeError unit :=
  if HostPaths.under_prefix paths then ret tt else run "systemctl" ["daemon-reload"%string].

Definition ask_node {E} : Prog E (Result string unit) :=
  fun s => let (r, h) := node_health (s_host s) in (Ok r, at_host h s).
Fixpoint wait_rounds (n : nat) (deadline : Z) (last : option string) : Prog NodeError (option string) :=
  match n with
  | O => fail Unfinished
  | S n =>
      let! now := clock in
      if now <? deadline then
        let! r := ask_node in
        match r with
        | Ok _ => ret None
        | Err e => pause 2000 ;;; wait_rounds n deadline (Some e)
        end
      else ret (Some (default "no response"%string last))
  end.
Definition wait_until_healthy (rounds : nat) (paths : HostPaths.HostPaths) (patience : Z) : Prog NodeError unit :=
  if HostPaths.under_prefix paths then ret tt
  else
    let! now := clock in
    let! failed := wait_rounds rounds (now + patience) None in
    match failed with
    | None => ret tt
    | Some last => throw (Bail ("the Node did not answer within " +:+ decimal (patience / 1000) +:+ " seconds: " +:+ last))
    end.
End Machine.

(** ** The binary of a release *)

Definition node_archive_name (version platform : string) : string :=
  "asterism-node-" +:+ version +:+ "-"
    +:+ of_chars (List.map (fun c => if char_eqb c SLASH then Ascii.ascii_of_N 45 else c) (chars platform)) +:+ ".tar.gz".
Definition checksum_for (sums : bytes) (name : string) : option bytes :=
  first_some (fun line =>
    match split_once_str $"  " line with
    | Some (digest, file) => if (of_chars (trim file) =? name)%string
                             then Some (List.map to_ascii_lowercase (trim digest)) else None
    | None => None
    end) (lines sums).
End nodeinstall.
