(* ===== verification/StagedWrites.v ===== *)
(** * StagedWrites: writing a file under another name and renaming it.

    The node's binary, its units, its environment and its configuration are all
    replaced this way.  However the steps end, the file is the old one or the
    new one, and nothing but the two names is touched. *)
From stdpp Require Import gmap.
From S2P Require Import Prelude Text Fs.

(** A regular file, or nothing. *)
Definition spot (path : string) (n : gmap string Node) : Prop :=
  forall x, n !! path = Some x -> f_kind x = RegularFile.
(** The file holds these bytes with this mode. *)
Definition file_is (path : string) (body : bytes) (mode : Z) (n : gmap string Node) : Prop :=
  exists x, n !! path = Some x /\ f_kind x = RegularFile /\ f_body x = body /\ f_mode x = mode.
Definition same_off (ks : list string) (n n' : gmap string Node) : Prop :=
  forall k, ~ In k ks -> n' !! k = n !! k.

(** A fact beside the state. *)
Lemma leaves_given {A} (phi : Prop) P (m : M FsError Disk A) Q :
  (phi -> leaves P m Q) -> leaves (fun n => P n /\ phi) m Q.
Proof. intros Hm d [Hd Hphi]. by apply Hm. Qed.

Section Staged.
Context `{Process} (path st : string) (Hne : st <> path) (n0 : gmap string Node).

Definition working (q : Node -> Prop) (n : gmap string Node) : Prop :=
  same_off [st; path] n0 n /\ n !! path = n0 !! path /\ exists x, n !! st = Some x /\ f_kind x = RegularFile /\ q x.
Definition put (q : Node -> Prop) (r : Result FsError unit) (n : gmap string Node) : Prop :=
  same_off [st; path] n0 n /\ spot st n
  /\ match r with
     | Ok _ => exists x, n !! path = Some x /\ f_kind x = RegularFile /\ q x
     | Err _ => n !! path = n0 !! path
     end.

Lemma working_put q e n : working q n -> put q (Err e) n.
Proof. intros (Ho & Hp & x & Hx & Hk & _). split; [done|]. split; [|done]. intros y Hy. congruence. Qed.

Lemma working_insert q q' x n :
  working q n -> f_kind x = RegularFile -> q' x -> working q' (<[st := x]> n).
Proof.
  intros (Ho & Hp & _) Hk Hq. split; [|split].
  - intros k Hn. rewrite lookup_insert_ne; [by apply Ho|]. intros <-. apply Hn. by left.
  - by rewrite lookup_insert_ne.
  - exists x. by rewrite lookup_insert_eq.
Qed.

(** A file that was not there is the process's. *)
Definition created (x : Node) : Prop := n0 !! st = None -> f_owner x = euid.
Lemma put_open_owner q : spot st n0 ->
  leaves (fun n => n = n0) (open_truncate st)
    (fun r n => match r with Ok _ => working created n | Err e => put q (Err e) n end).
Proof.
  intros Hs.
  assert (forall e, put q (Err e) n0) as He by (intros e; split; [done|]; by split).
  assert (forall x, f_kind x = RegularFile -> created x -> working created (<[st := x]> n0)) as Hw.
  { intros x Hk Hc. split; [|split].
    - intros k Hn. rewrite lookup_insert_ne; [done|]. intros <-. apply Hn. by left.
    - by rewrite lookup_insert_ne.
    - exists x. by rewrite lookup_insert_eq. }
  apply leaves_syscall. intros n ->. split; [apply He|]. split; [apply He|].
  destruct (n0 !! st) as [x|] eqn:Ex.
  - pose proof (Hs x Ex) as Hk. rewrite (resolve_file _ _ _ x), Ex by congruence.
    rewrite bool_decide_eq_false_2 by congruence. apply Hw; [done|]. intros E. by rewrite E in Ex.
  - rewrite (resolve_absent _ _ _ Ex). by apply Hw.
Qed.
Lemma working_weaken (q q' : Node -> Prop) n : (forall x, q x -> q' x) -> working q n -> working q' n.
Proof. intros Hq (Ho & Hp & x & Hx & Hk & Hqx). split; [done|]. split; [done|]. exists x. auto. Qed.
Lemma put_open q : spot st n0 ->
  leaves (fun n => n = n0) (open_truncate st)
    (fun r n => match r with Ok _ => working (fun _ => True) n | Err e => put q (Err e) n end).
Proof.
  intros Hs. eapply leaves_mono; [by apply (put_open_owner q)|done|]. intros [[]|e] n; [|done]. by apply working_weaken.
Qed.

Lemma put_through q q' qe f : (forall x, f_kind (f x) = f_kind x) -> (forall x, q x -> q' (f x)) ->
  leaves (working q) (syscall (through st f))
    (fun r n => match r with Ok _ => working q' n | Err e => put qe (Err e) n end).
Proof.
  intros Hf Hq. apply leaves_syscall. intros n Hw.
  assert (forall e, put qe (Err e) n) as He by (intros e; by apply (working_put q)).
  split; [apply He|]. split; [apply He|]. pose proof Hw as (_ & _ & x & Hx & Hk & Hqx).
  rewrite (through_file _ _ x) by congruence. apply (working_insert q); [done| |by apply Hq]. by rewrite Hf.
Qed.

Lemma put_rename q : (forall x, n0 !! path = Some x -> f_kind x <> Directory) ->
  leaves (working q) (rename st path) (put q).
Proof.
  intros Hd. apply leaves_syscall. intros n Hw.
  assert (forall e, put q (Err e) n) as He by (intros e; by apply (working_put q)).
  split; [apply He|]. split; [apply He|]. destruct Hw as (Ho & Hp & x & Hx & Hk & Hq). rewrite Hx.
  assert (put q (Ok tt) (<[path := x]> (delete st n))) as Hput.
  { split; [|split].
    - intros k Hn. rewrite lookup_insert_ne, lookup_delete_ne; [by apply Ho|..]; intros <-; apply Hn; [by left|].
      right. by left.
    - intros y Hy. rewrite lookup_insert_ne, lookup_delete_eq in Hy by done. done.
    - exists x. by rewrite lookup_insert_eq. }
  destruct (n !! path) as [y|] eqn:Ey; [|done]. rewrite bool_decide_eq_false_2; [done|]. apply Hd. congruence.
Qed.

Lemma leaves_ignored {A} P (m : M FsError Disk A) (R : gmap string Node -> Prop) Q :
  leaves P m (fun _ => R) -> (forall n, R n -> Q (Err Crashed) n) -> (forall o n, R n -> Q (Ok o) n) ->
  leaves P (ignore_errors m) Q.
Proof.
  intros Hm H1' H2' d Hd. specialize (Hm d Hd). unfold ignore_errors.
  destruct (m d) as [[a|[]] d']; cbn in *; auto.
Qed.
End Staged.

