(* ===== verification/NodeSetupTheorems.v ===== *)
(** * NodeSetupTheorems: what is on a host after it was set up.

    Files that are replaced whole, the credential of the host, which no failure
    and no end of the process can lose, and the key and port that a repair
    keeps. *)
From Stdlib Require Import Lia.
From stdpp Require Import gmap.
From S2P Require Import Prelude Text Fs CredentialHomes Host Profiles ProfileTheorems RuntimeSwap HostPaths NodeSetup NodeInstall StagedWrites.

(** ** Replacing a file *)

Section Files.
Context `{Process} (service : option Z).
Implicit Types (n : gmap string Node).
Abbreviation tmp_of path := (Fs.with_extension path "asterism-new").

(** The directory is there, the file is none, and nothing but a file is in the
    way of its staged copy. *)
Record writable (path : string) (n : gmap string Node) : Prop := {
  wr_parent : exists dir x, parent path = Some dir /\ dir <> path /\ dir <> tmp_of path
                /\ n !! dir = Some x /\ f_kind x = Directory;
  wr_apart : tmp_of path <> path;
  wr_staged : spot (tmp_of path) n;
  wr_target x : n !! path = Some x -> f_kind x <> Directory
}.

Definition owner_of (owner : option nodesetup.Owner) : option Z :=
  match owner, service with
  | Some nodesetup.ServiceAccount, Some uid => Some uid
  | Some nodesetup.RootReadableByService, Some _ => Some 0
  | _, _ => None
  end.
Definition written (body : bytes) (mode : Z) (owner : option nodesetup.Owner) (fresh : bool) (x : Node) : Prop :=
  f_body x = body /\ f_mode x = mode
  /\ match owner_of owner with Some u => f_owner x = u | None => fresh = true -> f_owner x = euid end.

Lemma create_existing dir n0 x (Q : Result FsError unit -> gmap string Node -> Prop) :
  n0 !! dir = Some x -> f_kind x = Directory -> Q (Ok tt) n0 -> (forall e, Q (Err e) n0) ->
  leaves (fun n => n = n0) (create_dir_all dir) Q.
Proof.
  intros Hx Hk HQ He. apply leaves_syscall. intros n ->. split; [done|]. split; [done|].
  rewrite (resolve_file _ _ _ x), Hx by congruence. by rewrite bool_decide_eq_true_2.
Qed.

Lemma write_file_spec path body mode owner n0 :
  writable path n0 ->
  leaves (fun n => n = n0) (nodesetup.write_file service path body mode owner)
    (put path (tmp_of path) n0 (written body mode owner (bool_decide (n0 !! tmp_of path = None)))).
Proof.
  intros [(dir & x & Hp & _ & _ & Hx & Hk) Hne Hs Hd]. unfold nodesetup.write_file. rewrite Hp.
  set (Q := put path _ n0 _). set (W := working path (tmp_of path) n0).
  assert (forall e, Q (Err e) n0) as He by (intros e; split; [done|]; by split).
  assert (forall q f, (forall x, f_kind (f x) = f_kind x) -> forall q', (forall x, q x -> q' (f x)) ->
    leaves (W q) (syscall (through (tmp_of path) f))
      (fun r n => match r with Ok _ => W q' n | Err e => Q (Err e) n end)) as Hthrough.
  { intros q f Hf q' Hq. by apply put_through. }
  apply leaves_bind with (Q1 := fun _ n => n = n0); [by eapply create_existing|]. intros _.
  unfold Fs.write. apply leaves_bind with (Q1 := fun _ => W (fun y => f_body y = body /\ created (tmp_of path) n0 y)).
  { apply leaves_bind with (Q1 := fun _ => W (created (tmp_of path) n0)); [by apply put_open_owner|].
    intros _. apply Hthrough; [done|]. by intros y Hy. }
  intros _. set (q := fun y => f_body y = body /\ f_mode y = mode /\ created (tmp_of path) n0 y).
  apply leaves_bind with (Q1 := fun _ => W q). { apply Hthrough; [done|]. by intros y []. }
  intros _. apply leaves_bind with (Q1 := fun _ => W q). { by apply Hthrough. }
  intros _. apply leaves_bind with
    (Q1 := fun _ => W (written body mode owner (bool_decide (n0 !! tmp_of path = None)))).
  { assert (owner_of owner = None -> leaves (W q) (ret tt) (fun r n => match r with
      | Ok _ => W (written body mode owner (bool_decide (n0 !! tmp_of path = None))) n | Err e => Q (Err e) n end)) as Hret.
    { intros Ho. apply leaves_ret. intros n Hn. eapply working_weaken; [|exact Hn]. intros y (Hb & Hm & Hc).
      split; [done|]. split; [done|]. rewrite Ho. intros E%bool_decide_eq_true. by apply Hc. }
    unfold nodesetup.owned, nodesetup.apply_owner. unfold written, owner_of in *.
    destruct owner as [[]|]; destruct service as [uid|]; try by apply Hret.
    all: apply Hthrough; [done|]; by intros y (Hb & Hm & _). }
  intros _. by apply put_rename.
Qed.

(** *** A list of files *)

Definition names_of (path : string) : list string := [tmp_of path; path].
Definition all_names (fs : list (string * string * Z)) : list string :=
  List.concat (List.map (fun f => names_of (fst (fst f))) fs).
Lemma writable_off ks path n n' :
  same_off ks n n' -> (forall k, In k (names_of path) -> ~ In k ks) -> (forall dir, parent path = Some dir -> ~ In dir ks) ->
  writable path n -> writable path n'.
Proof.
  intros Ho Hk Hdir [(dir & x & Hp & Hn1 & Hn2 & Hx & Hf) Hne Hs Hd].
  assert (forall k, In k (names_of path) -> n' !! k = n !! k) as Hsame by (intros k Hin; apply Ho; auto).
  split; [|done|..].
  - exists dir, x. rewrite Ho by auto. done.
  - intros y Hy. rewrite Hsame in Hy by (by left). by apply Hs.
  - intros y Hy. rewrite Hsame in Hy by (right; by left). by apply Hd.
Qed.

Definition rendered (f : string * string * Z) (fresh : bool) (n : gmap string Node) : Prop :=
  let '(path, text, mode) := f in
  exists x, n !! path = Some x /\ f_kind x = RegularFile /\ written (chars text) mode None fresh x.

Lemma write_root_files_Ok fs d d' :
  List.Forall (fun f => writable (fst (fst f)) (nodes d)) fs -> NoDup (all_names fs) ->
  (forall f dir, In f fs -> parent (fst (fst f)) = Some dir -> ~ In dir (all_names fs)) ->
  nodeinstall.write_root_files service fs d = (Ok tt, d') ->
  List.Forall (fun f => rendered f (bool_decide (nodes d !! tmp_of (fst (fst f)) = None)) (nodes d')) fs
  /\ same_off (all_names fs) (nodes d) (nodes d').
Proof.
  revert d. induction fs as [|[[path text] mode] fs IH]; intros d Hw Hnd Hdir Hr.
  { injection Hr as <-. by split. }
  cbn [nodeinstall.write_root_files] in Hr. apply bind_Ok in Hr as ([] & d1 & H1 & Hr).
  unfold all_names in Hnd. cbn [List.map List.concat fst] in Hnd. apply list.NoDup_app in Hnd as (_ & Hdis & Hnd).
  assert (forall k, In k (names_of path) -> ~ In k (all_names fs)) as Hdis'.
  { intros k Hk Hin. apply (Hdis k); by apply list_elem_of_In. }
  inversion Hw as [|? ? Hw1 Hws]; subst. cbn [fst] in Hw1.
  pose proof (write_file_spec path (chars text) mode None (nodes d) Hw1 d eq_refl) as Hput. rewrite H1 in Hput.
  destruct Hput as (Ho & _ & x & Hx & Hk & Hq). cbn [fst snd] in *.
  assert (forall f, In f fs -> forall k, In k (names_of (fst (fst f))) -> In k (all_names fs)) as Hinn.
  { intros f Hf k Hk'. apply in_concat. exists (names_of (fst (fst f))). split; [|done].
    by apply (in_map (fun f => names_of (fst (fst f)))). }
  destruct (IH d1) as [Hall Hoff]; [|done|..|exact Hr|].
  - apply List.Forall_forall. intros f Hf. rewrite List.Forall_forall in Hws.
    apply (writable_off (names_of path) _ (nodes d)); [exact Ho|..|by apply Hws].
    + intros k Hk' Hin. apply (Hdis' k Hin). by eapply Hinn.
    + intros dir Hp Hin. apply (Hdir f dir); [by right|done|]. apply in_concat. exists (names_of path). split; [by left|done].
  - intros f dir Hf Hp Hin. apply (Hdir f dir); [by right|done|]. apply in_app_iff. by right.
  - split; [constructor|].
    + exists x. rewrite Hoff by (apply Hdis'; right; by left). done.
    + apply List.Forall_forall. intros f Hf. rewrite List.Forall_forall in Hall. specialize (Hall f Hf).
      rewrite <- (Ho (tmp_of (fst (fst f)))); [done|]. intros Hin. apply (Hdis' _ Hin). apply (Hinn f Hf). by left.
    + intros k Hk'. unfold all_names in Hk'. cbn [List.map List.concat fst] in Hk'. rewrite in_app_iff in Hk'.
      rewrite Hoff, Ho; tauto.
Qed.
End Files.

(** ** The host's credential *)

Definition credential_at (path : string) (b : bytes) (n : gmap string Node) : Prop :=
  exists x, n !! path = Some x /\ f_kind x = RegularFile /\ f_body x = b.

Section Credential.
Context `{Process} (service : option Z).
Implicit Types (n : gmap string Node).

(** Only the entry at [path] may have changed, and it is no link. *)
Definition there path n0 n : Prop := same_off [path] n0 n /\ exists x, n !! path = Some x /\ f_kind x <> Symlink.

Lemma there_through path f n0 :
  (forall x, f_kind (f x) = f_kind x) ->
  leaves (there path n0) (syscall (through path f))
    (fun r n => match r with Ok _ => there path n0 n | Err _ => same_off [path] n0 n end).
Proof.
  intros Hf. apply leaves_syscall. intros n (Hn & x & Hx & Hk). split; [done|]. split; [done|].
  rewrite (through_file _ _ x) by done. split; [|exists (f x); by rewrite lookup_insert_eq, Hf].
  intros k Hin. rewrite lookup_insert_ne; [by apply Hn|]. intros <-. apply Hin. by left.
Qed.

Lemma there_owned path o n0 :
  leaves (there path n0) (nodesetup.owned service path o) (fun _ n => same_off [path] n0 n).
Proof.
  unfold nodesetup.owned, nodesetup.apply_owner.
  destruct o as [o|]; [|by apply leaves_ret; intros n []].
  destruct service as [uid|]; [|by apply leaves_ret; intros n []].
  eapply leaves_mono; [by apply (there_through path (with_owner (match o with nodesetup.ServiceAccount => uid | _ => 0 end)))|done|].
  by intros [] n; [intros []|].
Qed.

(** A directory is made, or corrected in place: nothing else changes. *)
Lemma ensure_directory_keeps path mode o n0 :
  leaves (fun n => n = n0) (nodesetup.ensure_directory service path mode o) (fun _ n => same_off [path] n0 n).
Proof.
  unfold nodesetup.ensure_directory.
  apply leaves_bind with (Q1 := fun found n => n = n0 /\ found = n0 !! path). { apply leaves_look. by intros n ->. }
  intros found. apply leaves_given. intros ->.
  apply leaves_bind with (Q1 := fun _ => there path n0); [|intros _; apply there_owned].
  assert (leaves (there path n0) (set_permissions path mode)
    (fun r n => match r with Ok _ => there path n0 n | Err _ => same_off [path] n0 n end)) as Hset by by apply there_through.
  destruct (n0 !! path) as [x|] eqn:Ex.
  - case_bool_decide as Hl; [by apply leaves_fail; intros n ->|].
    case_bool_decide as Hf; cbn [negb]; [|by apply leaves_fail; intros n ->].
    eapply leaves_mono; [exact Hset| |done]. intros n ->. split; [done|]. by exists x.
  - apply leaves_bind with (Q1 := fun _ => there path n0); [|by intros _].
    apply leaves_syscall. intros n ->. split; [done|]. split; [done|]. rewrite (resolve_absent _ _ _ Ex), Ex.
    split; [|eexists; by rewrite lookup_insert_eq]. intros k Hin. rewrite lookup_insert_ne; [done|]. intros <-. apply Hin. by left.
Qed.

(** *** Adopting *)

Context (canonical legacy : string) (Hcl : canonical <> legacy) (b : bytes).

(** The credential can be read under one of its names. *)
Definition held n : Prop := credential_at canonical b n \/ credential_at legacy b n.

Lemma credential_off ks path n n' : same_off ks n n' -> ~ In path ks -> credential_at path b n -> credential_at path b n'.
Proof. intros Ho Hk (x & Hx & Hf). exists x. by rewrite Ho. Qed.

Lemma both_keeps f n0 : (forall x, f_kind (f x) = f_kind x) -> (forall x, f_body (f x) = f_body x) ->
  credential_at canonical b n0 ->
  leaves (fun n => n = n0) (nodesetup.both legacy canonical f) (fun _ n => credential_at canonical b n).
Proof.
  intros Hk Hb Hc. apply leaves_syscall. intros n ->. split; [done|]. split; [done|].
  destruct Hc as (x & Hx & Hxk & Hxb). exists (f x). rewrite lookup_alter_ne by done.
  rewrite lookup_alter_eq, Hx, Hk, Hb. done.
Qed.

Lemma copy_adopts n0 x :
  n0 !! canonical = None -> n0 !! legacy = Some x -> f_kind x = RegularFile -> f_body x = b ->
  leaves (fun n => n = n0) (nodesetup.copy legacy canonical)
    (fun r n => credential_at legacy b n /\ match r with Ok _ => credential_at canonical b n | Err _ => True end).
Proof.
  intros Hc Hx Hk Hb.
  set (W q := fun n => n !! legacy = Some x /\ exists y, n !! canonical = Some y /\ f_kind y = RegularFile /\ q y).
  assert (forall n, n !! legacy = Some x -> credential_at legacy b n) as Hl by (intros n Hn; by exists x).
  assert (forall n, n !! legacy = Some x -> read n legacy = Ok b) as Hread.
  { intros n Hn. unfold read. rewrite (resolve_file _ _ _ x), Hn by congruence. by rewrite bool_decide_eq_true_2, Hb. }
  assert (forall (q q' : Node -> Prop) f, (forall y, f_kind (f y) = f_kind y) -> (forall y, q y -> q' (f y)) ->
    leaves (W q) (syscall (through canonical f)) (fun r n => match r with Ok _ => W q' n
      | Err e => credential_at legacy b n /\ True end)) as Hthrough.
  { intros q q' f Hf Hq. apply leaves_syscall. intros n (Hn & y & Hy & Hyk & Hqy).
    split; [by split; [apply Hl|]|]. split; [by split; [apply Hl|]|]. rewrite (through_file _ _ y) by congruence.
    split; [by rewrite lookup_insert_ne|]. exists (f y). rewrite lookup_insert_eq, Hf. auto. }
  unfold nodesetup.copy. apply leaves_bind with (Q1 := fun r n => n = n0 /\ exists mode, r = Ok mode).
  { apply leaves_look. intros n ->. rewrite Hread by done. split; [done|]. by eexists. }
  intros r. apply leaves_given. intros [mode ->].
  apply leaves_bind with (Q1 := fun _ => W (fun _ => True)).
  { apply leaves_syscall. intros n ->. split; [by split; [apply Hl|]|]. split; [by split; [apply Hl|]|].
    rewrite (resolve_absent _ _ _ Hc), Hc. split; [by rewrite lookup_insert_ne|]. eexists. by rewrite lookup_insert_eq. }
  intros _. apply leaves_bind with (Q1 := fun _ => W (fun _ => True)); [by apply Hthrough|].
  intros _. apply leaves_bind with (Q1 := fun body n => W (fun _ => True) n /\ body = b).
  { apply leaves_look. intros n Hw. split; [done|]. by rewrite Hread by apply Hw. }
  intros body. apply leaves_given. intros ->.
  eapply leaves_mono; [by apply (Hthrough (fun _ => True) (fun y => f_body y = b))|done|].
  intros [] n; [|done]. intros (Hn & Hy). split; [by apply Hl|done].
Qed.

Lemma canonical_through f n0 : (forall x, f_kind (f x) = f_kind x) -> (forall x, f_body (f x) = f_body x) ->
  credential_at canonical b n0 ->
  leaves (fun n => n = n0) (syscall (through canonical f)) (fun _ n => credential_at canonical b n).
Proof.
  intros Hk Hb (x & Hx & Hxk & Hxb). apply leaves_syscall. intros n ->. split; [by exists x|]. split; [by exists x|].
  rewrite (through_file _ _ x) by congruence. exists (f x). by rewrite lookup_insert_eq, Hk, Hb.
Qed.

Lemma leaves_from {A} (P : gmap string Node -> Prop) (m : M FsError Disk A) Q :
  (forall n0, P n0 -> leaves (fun n => n = n0) m Q) -> leaves P m Q.
Proof. intros Hm d Hd. by apply (Hm (nodes d)). Qed.

Definition adopted (r : Result FsError unit) n : Prop :=
  held n /\ match r with Ok _ => credential_at canonical b n | Err _ => True end.
Lemma adopted_if r n : credential_at canonical b n -> adopted r n.
Proof. intros Hc. split; [by left|by destruct r]. Qed.

Lemma adopt_leaves n0 x :
  n0 !! canonical = None -> n0 !! legacy = Some x -> f_kind x = RegularFile -> f_body x = b ->
  leaves (fun n => n = n0) (nodesetup.adopt service legacy canonical) adopted.
Proof.
  intros Hc Hx Hk Hb. assert (credential_at legacy b n0) as Hl by by exists x.
  assert (forall f n1, (forall x, f_kind (f x) = f_kind x) -> (forall x, f_body (f x) = f_body x) ->
    credential_at canonical b n1 -> leaves (fun n => n = n1) (nodesetup.both legacy canonical f) (fun _ n => credential_at canonical b n)) as Hboth
    by (intros; by apply both_keeps).
  unfold nodesetup.adopt. apply leaves_bind with (Q1 := fun o n => match o with
    | Some _ => credential_at canonical b n | None => n = n0 end).
  { intros d Hd. unfold ignore_errors, nodesetup.hard_link, syscall.
    destruct (plan d) as [|[] p]; cbv beta iota zeta; try rewrite !Hd, Hx, Hc, bool_decide_eq_false_2 by congruence; cbn; [| |exact Hd|rewrite Hd; split; [by right|done]].
    all: exists x; by rewrite lookup_insert_eq. }
  intros [[]|].
  - apply leaves_bind with (Q1 := fun _ n => credential_at canonical b n).
    + apply leaves_from. intros n1 Hn1. eapply leaves_mono; [by apply Hboth|done|]. intros [] n Hn; [done|by apply adopted_if].
    + intros _. destruct service as [uid|].
      * apply leaves_from. intros n1 Hn1. eapply leaves_mono; [by apply Hboth|done|]. intros r n Hn. by apply adopted_if.
      * apply leaves_ret. intros n Hn. by apply adopted_if.
  - apply leaves_bind with (Q1 := fun _ n => credential_at canonical b n).
    { eapply leaves_mono; [by apply (copy_adopts n0 x)|done|]. intros [] n [Hle Hr]; [done|]. split; [by right|done]. }
    intros _. apply leaves_bind with (Q1 := fun _ n => credential_at canonical b n).
    { apply leaves_from. intros n1 Hn1. eapply leaves_mono; [by apply canonical_through|done|]. intros [] n Hn; [done|by apply adopted_if]. }
    intros _. unfold nodesetup.apply_owner. destruct service as [uid|].
    + apply leaves_from. intros n1 Hn1. eapply leaves_mono; [by apply canonical_through|done|]. intros r n Hn. by apply adopted_if.
    + apply leaves_ret. intros n Hn. by apply adopted_if.
Qed.

(** *** Linking *)

Lemma link_keeps dir nonce n0 :
  parent legacy = Some dir -> dir <> canonical ->
  path_join dir ("." +:+ CredentialHomes.file_name legacy +:+ ".asterism-" +:+ nonce) <> legacy ->
  credential_at canonical b n0 ->
  leaves (fun n => n = n0) (link_to_host_credential canonical legacy nonce) (fun _ n => credential_at canonical b n).
Proof.
  intros Hp Hdc Hst Hc. assert (forall e, leaves (fun n => n = n0) (fail (A := CredentialLink) e) (fun _ n => credential_at canonical b n)) as Hfail
    by (intros e; apply leaves_fail; by intros n ->).
  assert (forall l : CredentialLink, leaves (fun n => n = n0) (ret l) (fun _ n => credential_at canonical b n)) as Hret
    by (intros l; apply leaves_ret; by intros n ->).
  unfold link_to_host_credential. destruct (negb _); [done|]. destruct (existsb _ _); [done|].
  apply leaves_bind with (Q1 := fun found n => n = n0 /\ found = n0 !! legacy). { apply leaves_look. by intros n ->. }
  intros found. apply leaves_given. intros ->. destruct (n0 !! legacy) as [x|] eqn:Ex.
  - destruct (bool_decide _); [|done]. destruct (same_path _ _); [done|].
    apply leaves_bind with (Q1 := fun _ n => credential_at canonical b n); [|by intros _; apply leaves_ret].
    eapply leaves_mono; [by apply (swap_link_leaves canonical legacy nonce false dir n0)|done|].
    intros r n [[Hkeep _] _]. assert (credential_at canonical b n) as Hn.
    { destruct Hc as (y & Hy & Hyk). exists y. split; [|done]. by apply Hkeep. }
    by destruct r.
  - rewrite Hp. apply leaves_bind with (Q1 := fun _ n => credential_at canonical b n).
    { apply leaves_syscall. intros n ->. split; [done|]. split; [done|].
      destruct (Fs.resolve MAX_HOPS n0 dir) as [q|]; [destruct (n0 !! q); [destruct (bool_decide _)|]; done|].
      destruct (n0 !! dir); [done|]. destruct Hc as (y & Hy & Hyk). exists y. by rewrite lookup_insert_ne. }
    intros _. apply leaves_bind with (Q1 := fun _ n => credential_at canonical b n); [|by intros _; apply leaves_ret].
    apply leaves_syscall. intros n Hn. split; [done|]. split; [done|]. destruct (n !! legacy) as [y|]; [done|].
    destruct Hn as (y & Hy & Hyk). exists y. by rewrite lookup_insert_ne.
Qed.
End Credential.

(** The canonical file, or a plain file under the old name and nothing under
    the canonical one. *)
Definition authorized (paths : HostPaths.HostPaths) (b : bytes) (n : gmap string Node) : Prop :=
  credential_at (HostPaths.codex_auth paths) b n
  \/ (n !! HostPaths.codex_auth paths = None /\ credential_at (HostPaths.legacy_codex_auth paths) b n).

(** The provider credential of a host survives its installation: wherever
    establishing it fails or the process ends, its bytes are a plain file under
    the canonical name or under the old one, and when it returns they are under
    the canonical name and the host is not reported as unauthorized. *)
Theorem host_credential_is_never_lost `{Process} service nonce b d :
  let paths := HostPaths.default_paths in
  authorized paths b (nodes d) ->
  path_join (HostPaths.legacy_codex_home paths) (".auth.json.asterism-" +:+ nonce) <> HostPaths.legacy_codex_auth paths ->
  let (r, d') := nodesetup.establish_host_credential service paths nonce d in
  held (HostPaths.codex_auth paths) (HostPaths.legacy_codex_auth paths) b (nodes d')
  /\ match r with
     | Ok o => credential_at (HostPaths.codex_auth paths) b (nodes d') /\ o <> nodesetup.NotYetAuthorized
     | Err _ => True
     end.
Proof.
  intros paths Ha Hst.
  assert (forall k, In k [HostPaths.codex_root paths; HostPaths.legacy_codex_home paths] ->
            ~ In (HostPaths.codex_auth paths) [k] /\ ~ In (HostPaths.legacy_codex_auth paths) [k]) as Hdirs.
  { intros k [<-|[<-|[]]]; split; intros [E|[]]; discriminate E. }
  assert (parent (HostPaths.legacy_codex_auth paths) = Some (HostPaths.legacy_codex_home paths)) as Hp by reflexivity.
  assert (HostPaths.legacy_codex_home paths <> HostPaths.codex_auth paths) as Hdc by discriminate.
  assert (HostPaths.codex_auth paths <> HostPaths.legacy_codex_auth paths) as Hcl by discriminate.
  set (canonical := HostPaths.codex_auth paths) in *. set (legacy := HostPaths.legacy_codex_auth paths) in *.
  set (Q := fun (r : Result FsError nodesetup.HostCredential) n => held canonical legacy b n
    /\ match r with Ok o => credential_at canonical b n /\ o <> nodesetup.NotYetAuthorized | Err _ => True end).
  assert (forall e n, held canonical legacy b n -> Q (Err e) n) as Herr by by intros.
  assert (leaves (authorized paths b) (nodesetup.establish_host_credential service paths nonce) Q) as Hall.
  { unfold nodesetup.establish_host_credential. fold canonical legacy.
    assert (forall n, authorized paths b n -> held canonical legacy b n) as Hheld
      by (intros n [|[_ ?]]; [by left|by right]).
    apply leaves_bind with (Q1 := fun _ => authorized paths b).
    { apply leaves_from. intros n0 Hn0. eapply leaves_mono; [apply (ensure_directory_keeps service _ _ _ n0)|done|]. intros r n Ho.
      assert (authorized paths b n) as Hn.
      { destruct (Hdirs (HostPaths.codex_root paths)) as [H1 H2]; [by left|].
        destruct Hn0 as [Hn0|[Hc Hn0]]; [left; eapply credential_off; [exact Ho|done|done]|right; split; [|eapply credential_off; [exact Ho|done|done]]].
        fold canonical. rewrite Ho; done. }
      destruct r; [done|]. auto. }
    intros _. apply leaves_bind with (Q1 := fun plain n => authorized paths b n /\ plain = nodesetup.is_plain n canonical).
    { by apply leaves_look. }
    intros plain. apply leaves_bind with (Q1 := fun o n => credential_at canonical b n /\ o <> nodesetup.NotYetAuthorized).
    { apply leaves_from. intros n0 [[(x & Hx & Hk & Hb)|[Hc (x & Hx & Hk & Hb)]] ->]; fold canonical legacy in Hx.
      - unfold nodesetup.is_plain, symlink_metadata. rewrite Hx, bool_decide_eq_true_2 by done.
        apply leaves_ret. intros n ->. split; [by exists x|done].
      - fold canonical in Hc. unfold nodesetup.is_plain at 1, symlink_metadata. rewrite Hc.
        apply leaves_bind with (Q1 := fun plain n => n = n0 /\ plain = true).
        { apply leaves_look. intros n ->. unfold nodesetup.is_plain, symlink_metadata. rewrite Hx, bool_decide_eq_true_2 by done. done. }
        intros plain. apply leaves_given. intros ->.
        apply leaves_bind with (Q1 := fun _ n => credential_at canonical b n); [|intros _; by apply leaves_ret].
        eapply leaves_mono; [by apply (adopt_leaves service canonical legacy Hcl b n0 x)|done|].
        intros [] n [Hh Hr]; [done|]. by apply Herr. }
    intros o. apply leaves_bind with (Q1 := fun _ n => credential_at canonical b n /\ o <> nodesetup.NotYetAuthorized).
    { apply leaves_given. intros Ho. apply leaves_from. intros n0 Hn0.
      eapply leaves_mono; [apply (ensure_directory_keeps service _ _ _ n0)|done|]. intros r n Hoff.
      assert (credential_at canonical b n) as Hn.
      { eapply credential_off; [exact Hoff| |done]. apply Hdirs. right. by left. }
      destruct r; [done|]. apply Herr. by left. }
    intros _. apply leaves_given. intros Ho.
    apply leaves_bind with (Q1 := fun _ n => credential_at canonical b n).
    { apply leaves_from. intros n0 Hn0. eapply leaves_mono; [by apply (link_keeps canonical legacy Hcl b (HostPaths.legacy_codex_home paths) nonce n0)|done|].
      intros [] n Hn; [done|]. apply Herr. by left. }
    intros _. apply leaves_ret. intros n Hn. split; [by left|done]. }
  specialize (Hall d Ha). by destruct (nodesetup.establish_host_credential service paths nonce d) as [r d'].
Qed.

(** ** The environment file *)

Section Environment.
Context (key : bytes) (port : Z) (home : string) (Hkey : one_line key) (Hhome : one_line (chars home)).

Lemma ascii_line t :
  List.forallb (fun c => negb (char_eqb c NL || char_eqb c CR) && between 0 127 c) t = true -> one_line t.
Proof.
  intros Ht. rewrite forallb_forall in Ht. split.
  - split; intros Hin%Ht; discriminate Hin.
  - apply valid_utf8_plain, forallb_forall. intros c Hin%Ht. by apply andb_true_iff in Hin as [].
Qed.

Lemma env_one_line l : In l (nodesetup.env_lines key port home) -> one_line l.
Proof.
  pose proof (plain_one_line _ (decimal_plain port)) as Hd. unfold nodesetup.env_lines. intros Hin. cbn [In] in Hin.
  repeat (destruct Hin as [<-|Hin]; [repeat (apply one_line_app); try done; by apply ascii_line|]). done.
Qed.

Lemma env_lines_read : lines (unlines (nodesetup.env_lines key port home)) = nodesetup.env_lines key port home.
Proof. apply lines_unlines. intros l Hl. by apply env_one_line in Hl as []. Qed.
Lemma env_valid : valid_utf8 (unlines (nodesetup.env_lines key port home)) = true.
Proof. apply valid_utf8_unlines. intros l Hl. by apply env_one_line in Hl as []. Qed.

Lemma env_values :
  nodesetup.value_of $"ASTERISM_HERMES_API_KEY=" (unlines (nodesetup.env_lines key port home)) = Some key
  /\ nodesetup.value_of $"API_SERVER_KEY=" (unlines (nodesetup.env_lines key port home)) = Some key
  /\ nodesetup.value_of nodeinstall.PORT_NAME (unlines (nodesetup.env_lines key port home)) = Some (chars (decimal port)).
Proof.
  unfold nodesetup.value_of. rewrite env_lines_read. unfold nodesetup.env_lines. cbn [first_some].
  repeat split; by rewrite strip_prefix_app.
Qed.
End Environment.

(** Writing the environment of a host keeps its key: whatever key the file
    had before is the key it has afterwards, under both names, and a file with
    none gets a fresh one; the port that is written is the port the next
    installation will choose. *)
Theorem repair_keeps_key_and_port `{Process} service paths settings random d d' :
  let env := HostPaths.env_file paths in
  let before := nodesetup.text_of (nodes d) env in
  let after := nodesetup.text_of (nodes d') env in
  writable env (nodes d) -> one_line (chars (HostPaths.node_home paths)) ->
  0 <= nodesetup.hermes_port settings <= 65535 ->
  (forall k, nodesetup.existing_key before = Some k -> one_line k) ->
  (forall bs, random = Some bs -> bs <> []) ->
  nodesetup.write_env_file service paths settings random d = (Ok tt, d') ->
  exists key,
    nodesetup.existing_key after = Some key
    /\ nodesetup.value_of $"API_SERVER_KEY=" after = Some key
    /\ (forall k, nodesetup.existing_key before = Some k -> key = k)
    /\ nodeinstall.chosen_port after = Some (nodesetup.hermes_port settings)
    /\ same_off [Fs.with_extension env "asterism-new"; env] (nodes d) (nodes d').
Proof.
  intros env before after Hw Hhome Hport Hold Hrandom Hr. unfold nodesetup.write_env_file in Hr. fold env in Hr.
  apply bind_Ok in Hr as (text & d0 & Hl & Hr). injection Hl as <- <-. fold before in Hr.
  apply bind_Ok in Hr as (key & d1 & Hk & Hr).
  assert (one_line key /\ key <> [] /\ trim key = key /\ d1 = d
          /\ (forall k, nodesetup.existing_key before = Some k -> key = k)) as (Hline & Hne & Htrim & -> & Hsame).
  { destruct (nodesetup.existing_key before) as [k|] eqn:Ek.
    - injection Hk as <- <-. specialize (Hold k eq_refl). split; [done|]. unfold nodesetup.existing_key in Ek.
      destruct (nodesetup.value_of _ before) as [v|]; [|done]. destruct (trim v) as [|c t] eqn:Et; [done|].
      injection Ek as <-. rewrite <- Et, trim_idem. rewrite Et. split; [done|]. split; [done|]. split; [done|]. by intros k [= <-].
    - destruct random as [bs|]; [|done]. cbn in Hk. injection Hk as <- <-.
      pose proof (api_key_plain bs) as Hp. split; [by apply plain_one_line|]. split; [|split; [by apply trim_plain|done]].
      specialize (Hrandom bs eq_refl). destruct bs as [|z bs]; [done|]. done. }
  pose proof (write_file_spec service env (unlines (nodesetup.env_lines key (nodesetup.hermes_port settings) (HostPaths.node_home paths)))
    0x1A0 (Some nodesetup.RootReadableByService) (nodes d) Hw d eq_refl) as Hput. rewrite Hr in Hput.
  destruct Hput as (Ho & _ & x & Hx & Hxk & Hb & _). cbn [fst snd] in *.
  destruct (env_values key (nodesetup.hermes_port settings) (HostPaths.node_home paths) Hline Hhome) as (V1 & V2 & V3).
  assert (after = unlines (nodesetup.env_lines key (nodesetup.hermes_port settings) (HostPaths.node_home paths))) as Hafter.
  { unfold after, nodesetup.text_of, read_to_string, read. rewrite (resolve_file _ _ _ x), Hx, bool_decide_eq_true_2, Hb by congruence.
    by rewrite env_valid. }
  exists key. rewrite Hafter. unfold nodesetup.existing_key, nodeinstall.chosen_port. rewrite V1, V2, V3, Htrim.
  destruct key as [|c key]; [done|]. split; [done|]. split; [done|]. split; [done|]. split; [|done]. cbn [mbind option_bind].
  destruct (decimal_u16 (nodesetup.hermes_port settings) Hport) as [Hu _].
  rewrite trim_plain by apply decimal_plain. exact Hu.
Qed.

(** ** The configuration an installation renders is the one
    the node reads, and the journal mode is the only setting it takes over. *)

From S2P Require Import Policy Bundle.

(** ** Reading past lines that are known *)

(** What is found in the lines, or whether they end inside the section. *)
Fixpoint scan (section key : bytes) (b : bool) (ls : list bytes) : option bytes + bool :=
  match ls with
  | [] => inr b
  | raw :: rest =>
      match read_line raw with
      | Blank => scan section key b rest
      | Header w => scan section key (opens section w) rest
      | Child w =>
          if b then
            match strip_prefix (key ++ [COLON]) (trim w) with
            | Some v => let v := trim_matches is_quote (trim v) in inl (if is_empty v then None else Some v)
            | None => scan section key b rest
            end
          else scan section key b rest
      end
  end.
Lemma lookup_scan section key b ls rest :
  lookup_lines section key b (ls ++ rest) =
  match scan section key b ls with inl v => v | inr b' => lookup_lines section key b' rest end.
Proof.
  revert b. induction ls as [|raw ls IH]; intros b; [done|]. cbn [app scan]. rewrite lookup_cons.
  destruct (read_line raw) as [|w|w]; [apply IH..|]. destruct b; [|apply IH].
  destruct (strip_prefix _ _) as [v|]; [done|apply IH].
Qed.

Lemma unlines_app a b : unlines (a ++ b) = unlines a ++ unlines b.
Proof. unfold unlines. by rewrite map_app, concat_app. Qed.

(** ** A fresh configuration *)

Definition config_head : list bytes :=
  [$"# Asterism-managed Hermes configuration."; $"#";
   $"# The API binds to loopback only: Asterism Node reaches it over 127.0.0.1 and";
   $"# nothing else may. No inbound public port is introduced by this installation.";
   $"api_server:"; $"  enabled: true"; $"  host: 127.0.0.1"].
Definition config_tail (mode : string) : list bytes :=
  [[]; $"terminal:"; $"  backend: local"; $"  cwd: /srv/asterism/workspace"; []; $"model:";
   $"  provider: openai-codex"; []; $"approvals:"; $"  mode: manual"; []; $"database:";
   $"  # Chosen from the SQLite the runtime actually links, not from what it ought to";
   $"  # link. See docs/installation.md for the threshold and why it matters.";
   $"  journal_mode: " ++ chars mode].

Section Rendered.
Context (settings : nodesetup.Settings) (Hport : 0 <= nodesetup.hermes_port settings <= 65535).
Context (mode : string) (Hmode : mode = "wal"%string \/ mode = "delete"%string).
Abbreviation body := (chars (nodesetup.hermes_config HostPaths.default_paths settings mode)).
Abbreviation port_line := (setting $"  " $"port" (chars (decimal (nodesetup.hermes_port settings)))).

Lemma config_text : body = unlines (config_head ++ [port_line] ++ config_tail mode).
Proof.
  unfold nodesetup.hermes_config. rewrite !chars_append, !unlines_app.
  assert (unlines [port_line] = $"  port: " ++ chars (decimal (nodesetup.hermes_port settings)) ++ [NL]) as ->.
  { unfold unlines. cbn [List.map List.concat]. rewrite app_nil_r. unfold setting. by rewrite <- !app_assoc. }
  rewrite <- !app_assoc, (app_assoc (unlines config_head)).
  apply (f_equal2 (@app _)); [vm_compute; reflexivity|]. apply (f_equal2 (@app _)); [done|]. destruct Hmode as [->| ->]; vm_compute; reflexivity.
Qed.

Lemma digit_word c : is_ascii_digit c = true -> word_char c = true.
Proof. destruct c as [[] [] [] [] [] [] [] []]; vm_compute; congruence. Qed.
Lemma port_word : word (chars (decimal (nodesetup.hermes_port settings))) = true.
Proof.
  destruct (decimal_u16 _ Hport) as [Hu Hd]. unfold word. apply andb_true_iff. split; [by destruct (chars _)|].
  unfold all_chars in Hd. rewrite forallb_forall in *. intros c Hc. by apply digit_word, Hd.
Qed.

Lemma config_one_line l : In l (config_head ++ [port_line] ++ config_tail mode) -> one_line l.
Proof.
  rewrite !in_app_iff. intros [Hl|[[<-|[]]|Hl]].
  - cbn [In config_head] in Hl. repeat (destruct Hl as [<-|Hl]; [by apply ascii_line|]). done.
  - unfold setting. repeat apply one_line_app; [by apply ascii_line..|]. apply plain_one_line, decimal_plain.
  - assert (In l (config_tail "wal") \/ In l (config_tail "delete")) as Hl' by (destruct Hmode as [<-| <-]; auto).
    clear Hl. destruct Hl' as [Hl|Hl]; cbn [In config_tail] in Hl.
    all: repeat (destruct Hl as [<-|Hl]; [by apply ascii_line|]); done.
Qed.
Lemma config_lines : lines body = config_head ++ [port_line] ++ config_tail mode.
Proof. rewrite config_text. apply lines_unlines. intros l Hl. by apply config_one_line in Hl as []. Qed.
Lemma config_valid : valid_utf8 body = true.
Proof. rewrite config_text. apply valid_utf8_unlines. intros l Hl. by apply config_one_line in Hl as []. Qed.

Lemma config_lookup section key v :
  name key = true -> key <> $"port" ->
  match scan section key false config_head with
  | inl r => r = v
  | inr b => match scan section key b (config_tail mode) with inl r => r = v | inr _ => None = v end
  end ->
  lookup body section key = v.
Proof.
  intros Hk Hne Hv. unfold lookup. rewrite config_lines, lookup_scan. destruct (scan section key false config_head) as [r|b]; [done|].
  cbn [app]. rewrite lookup_setting_other by (done || apply port_word).
  rewrite <- (app_nil_r (config_tail mode)), lookup_scan. by destruct (scan section key b (config_tail mode)).
Qed.
End Rendered.

(** The configuration an installation renders is one the node accepts: it
    says the journal mode that was chosen and manual approvals, names no other
    runtime, and the start guard allows it without an override. *)
Theorem rendered_configuration_is_accepted settings m project :
  0 <= nodesetup.hermes_port settings <= 65535 ->
  let mode := nodeinstall.journal_mode_of m in
  let body := chars (nodesetup.hermes_config HostPaths.default_paths settings mode) in
  lookup body $"database" $"journal_mode" = Some (chars mode)
  /\ lookup body $"approvals" $"mode" = Some $"manual"
  /\ enforce_runtime_policy project (Some body) false = Some (Ok tt).
Proof.
  intros Hport mode body.
  assert (mode = "wal" \/ mode = "delete")%string as Hmode.
  { unfold mode, nodeinstall.journal_mode_of. destruct (String.eqb_spec (mf_sqlite_journal_mode m) "wal") as [->|]; [by left|].
    destruct (String.eqb_spec (mf_sqlite_journal_mode m) "delete") as [->|]; by right. }
  assert (lookup body $"approvals" $"mode" = Some $"manual") as Ha.
  { apply config_lookup; [done|done|done|done|]. destruct Hmode as [->| ->]; vm_compute; reflexivity. }
  assert (lookup body $"model" $"openai_runtime" = None) as Hr.
  { apply config_lookup; [done|done|done|done|]. destruct Hmode as [->| ->]; vm_compute; reflexivity. }
  split; [|split; [done|]].
  - apply config_lookup; [done|done|done|done|]. destruct Hmode as [->| ->]; vm_compute; reflexivity.
  - unfold enforce_runtime_policy, read_runtime_configuration. pose proof (config_valid settings mode Hmode) as Hv.
    fold body in Hv. rewrite Hv. unfold parse_runtime_configuration, enforce, evaluate, uses_native_codex. fold body. by rewrite Hr.
Qed.

(** ** An existing configuration *)

(** Reconciling the journal mode of a Hermes configuration changes nothing
    else in it: afterwards the mode is the one the installed runtime supports
    and every other setting reads as before. *)
Theorem journal_mode_is_reconciled `{Process} service config mode body d d' :
  writable config (nodes d) -> read_to_string (nodes d) config = Ok body -> ~ In CR body -> word mode = true ->
  nodeinstall.reconcile_journal_mode service config mode d = (Ok tt, d') ->
  exists body', read_to_string (nodes d') config = Ok body'
    /\ lookup body' $"database" $"journal_mode" = Some mode
    /\ (forall section key, name key = true -> ($"database", $"journal_mode") <> (section, key) ->
         lookup body' section key = lookup body section key)
    /\ same_off [Fs.with_extension config "asterism-new"; config] (nodes d) (nodes d').
Proof.
  intros Hw Hb Hcr Hm Hr. unfold nodeinstall.reconcile_journal_mode in Hr.
  apply bind_Ok in Hr as (found & d0 & Hl & Hr). cbn in Hl. injection Hl as <- <-. rewrite Hb in Hr.
  case_bool_decide as Hsame; [injection Hr as <-; by exists body|].
  pose proof (write_file_spec service config (set_setting body $"database" $"journal_mode" mode) 0x180
    (Some nodesetup.ServiceAccount) (nodes d) Hw d eq_refl) as Hput. rewrite Hr in Hput.
  destruct Hput as (Ho & _ & x & Hx & Hk & Hxb & _). cbn [fst snd] in *.
  exists (set_setting body $"database" $"journal_mode" mode). split; [|split; [by apply set_setting_lookup|split; [|done]]].
  - unfold read_to_string, read. rewrite (resolve_file _ _ _ x), Hx, bool_decide_eq_true_2, Hxb by congruence.
    rewrite set_setting_valid; [done..|]. unfold read_to_string in Hb. destruct (read (nodes d) config) as [raw|]; [|done].
    destruct (valid_utf8 raw) eqn:Ev; [|done]. by injection Hb as <-.
  - intros section key Hk' Hne. by apply set_setting_frame.
Qed.

(** ** Giving a tree to the service account follows no link. *)

(** A path below a directory, by parents. *)
Inductive inside (root : string) : string -> Prop :=
| inside_root : inside root root
| inside_child path dir : inside root dir -> parent path = Some dir -> inside root path.

Lemma parent_shorter path dir : parent path = Some dir -> (String.length dir < String.length path)%nat.
Proof.
  unfold parent. destruct (split_once SLASH (List.rev (chars path))) as [[name d]|] eqn:E.
  - apply split_once_Some in E as (E & _). apply (f_equal (@length _)) in E.
    rewrite length_rev, length_app, length_chars in E. cbn [length] in E.
    destruct d as [|c d]; [destruct name; [done|]; intros [= <-]; cbn in *; lia|].
    assert (forall s, String.length (of_chars s) = length s) as Hl.
    { intros s. by rewrite <- length_chars, of_chars_chars. }
    destruct name; intros [= <-]; rewrite Hl, ?length_app, ?length_rev; cbn [length] in *; lia.
  - destruct (String.eqb_spec path ""); [done|]. intros [= <-]. destruct path; [done|cbn; lia].
Qed.

Section Give.
Context `{Process} (uid : Z) (top : string) (n0 : gmap string Node).
Implicit Types (n : gmap string Node).

(** Nothing changed but the owner of entries of the tree that are no links. *)
Definition given n : Prop :=
  forall k, n !! k = n0 !! k
    \/ exists x, inside top k /\ n0 !! k = Some x /\ f_kind x <> Symlink /\ n !! k = Some (with_owner uid x).

Definition shallow (r : Result FsError unit) : Prop := r <> Err (Refused "deeper than any path").

Lemma given_owner path n x :
  given n -> inside top path -> n !! path = Some x -> f_kind x <> Symlink -> given (<[path := with_owner uid x]> n).
Proof.
  intros Hg Hi Hx Hk k. destruct (decide (k = path)) as [->|Hne]; [|rewrite lookup_insert_ne by done; apply Hg].
  rewrite lookup_insert_eq. right. destruct (Hg path) as [E|(y & _ & Ey & Hy & E)].
  - exists x. by rewrite <- E.
  - exists y. rewrite E in Hx. by injection Hx as <-.
Qed.

Lemma apply_owner_given path :
  inside top path ->
  leaves (fun n => given n /\ exists x, n !! path = Some x /\ f_kind x <> Symlink)
    (nodesetup.apply_owner (Some uid) path nodesetup.ServiceAccount) (fun r n => given n /\ shallow r).
Proof.
  intros Hi. apply leaves_syscall. intros n (Hg & x & Hx & Hk). split; [done|]. split; [done|].
  rewrite (through_file _ _ x) by done. split; [by apply given_owner|done].
Qed.

Lemma given_keys n k : given n -> (n !! k = None <-> n0 !! k = None).
Proof. intros Hg. destruct (Hg k) as [->|(x & _ & -> & _ & ->)]; done. Qed.
Lemma length_longest n k : is_Some (n !! k) -> (String.length k <= nodesetup.longest n)%nat.
Proof.
  intros [x Hx]. unfold nodesetup.longest.
  assert (In k (List.map fst (map_to_list n))) as Hin.
  { apply in_map_iff. exists (k, x). split; [done|]. by apply list_elem_of_In, elem_of_map_to_list. }
  induction (List.map fst (map_to_list n)) as [|k' l IH]; [done|]. cbn [List.fold_right].
  destruct Hin as [->|Hin]; [lia|]. specialize (IH Hin). lia.
Qed.

Lemma give_tree_given depth root :
  inside top root -> (nodesetup.longest n0 <= String.length root + depth)%nat ->
  leaves (fun n => given n /\ exists x, n !! root = Some x /\ f_kind x <> Symlink)
    (nodesetup.give_tree (Some uid) depth root) (fun r n => given n /\ shallow r).
Proof.
  revert root. induction depth as [|depth IH]; intros root Hi Hd; cbn [nodesetup.give_tree].
  all: apply leaves_bind with (Q1 := fun _ n => given n);
    [eapply leaves_mono; [by apply apply_owner_given|done|]; by intros [] n []|intros _].
  all: apply leaves_bind with (Q1 := fun es n => given n /\ forall e, In e es -> parent e = Some root /\ is_Some (n0 !! e)).
  all: try (apply leaves_look; intros n Hg; split; [done|]; destruct (nodesetup.is_folder n root); [|done];
    unfold entries_of; intros e [He Hp]%filter_In; destruct (parent e) as [p|]; [|done];
    apply String.eqb_eq in Hp as ->; split; [done|]; apply in_map_iff in He as ((k & x) & <- & Hkx);
    apply list_elem_of_In, elem_of_map_to_list in Hkx; cbn in *; destruct (n0 !! k) as [y|] eqn:E0; [done|];
    apply (given_keys n k Hg) in E0; congruence).
  all: intros es; apply leaves_given; intros Hes; induction es as [|e es IHe];
    [by apply leaves_ret|cbn [nodesetup.each]].
  all: destruct (Hes e) as [Hp Hin0]; [by left|]; pose proof (parent_shorter _ _ Hp) as Hlt;
    pose proof (length_longest n0 e Hin0) as Hle; assert (inside top e) as Hie by (by eapply inside_child).
  all: apply leaves_bind with (Q1 := fun _ n => given n); [|intros _; apply IHe; intros e' He'; apply Hes; by right].
  all: apply leaves_bind with (Q1 := fun found n => given n /\ found = n !! e); [by apply leaves_look|intros found].
  all: intros d [Hg ->]; destruct (nodes d !! e) as [x|] eqn:Ex; [|by split].
  all: case_bool_decide as Hl; [done|]; case_bool_decide as Hf.
  - exfalso. cbn in Hd. lia.
  - destruct (apply_owner_given e Hie d (conj Hg (ex_intro _ x (conj Ex Hl)))) as [Hg' Hs'].
    by destruct (nodesetup.apply_owner _ _ _ d) as [[] d'].
  - destruct (IH e Hie ltac:(lia) d (conj Hg (ex_intro _ x (conj Ex Hl)))) as [Hg' Hs'].
    by destruct (nodesetup.give_tree _ _ _ d) as [[] d'].
  - destruct (apply_owner_given e Hie d (conj Hg (ex_intro _ x (conj Ex Hl)))) as [Hg' Hs'].
    by destruct (nodesetup.apply_owner _ _ _ d) as [[] d'].
Qed.
End Give.

(** Giving a tree to the service account follows no link: however it ends,
    nothing has changed but the owner of entries inside the tree that are not
    links, so the target of a link planted there stays whose it was; and the
    walk never meets a tree deeper than it allows for. *)
Theorem given_tree_follows_no_link `{Process} service root d :
  (forall x, nodes d !! root = Some x -> f_kind x <> Symlink) ->
  let (r, d') := nodesetup.give_tree_to_service_account service root d in
  r <> Err (Refused "deeper than any path")
  /\ forall k, nodes d' !! k = nodes d !! k
       \/ exists uid x, service = Some uid /\ inside root k /\ nodes d !! k = Some x /\ f_kind x <> Symlink
           /\ nodes d' !! k = Some (with_owner uid x).
Proof.
  intros Hroot. unfold nodesetup.give_tree_to_service_account. destruct service as [uid|]; [|split; [done|by left]].
  unfold bind, look, gets. destruct (nodes d !! root) as [x|] eqn:Ex.
  - pose proof (give_tree_given uid root (nodes d) (nodesetup.longest (nodes d)) root (inside_root root) ltac:(lia) d) as Hg.
    destruct Hg as [Hg Hs]. { split; [by left|]. exists x. split; [done|]. by apply Hroot. }
    destruct (nodesetup.give_tree _ _ _ d) as [r d']. cbn [fst snd] in *. split; [done|]. intros k.
    destruct (Hg k) as [E|(y & Hy)]; [by left|right]. by exists uid, y.
  - assert (forall k : unit -> M FsError Disk unit, exists e d',
      bind (nodesetup.apply_owner (Some uid) root nodesetup.ServiceAccount) k d = (Err e, d')
      /\ nodes d' = nodes d /\ e <> Refused "deeper than any path") as Hfirst.
    { intros k. unfold bind, nodesetup.apply_owner, set_owner, syscall, through.
      rewrite (resolve_absent _ _ _ Ex). destruct (plan d) as [|[] p]; by eexists _, _. }
    destruct (nodesetup.longest (nodes d)); cbn [nodesetup.give_tree];
      match goal with |- context [bind _ ?k d] => destruct (Hfirst k) as (e & d' & -> & Hn & He) end.
    all: split; [congruence|]; intros k; left; by rewrite Hn.
Qed.

(** ** Waiting for the node ends, and what an answer means. *)

Section Wait.
Context `{Machine}.
(** Time passes while the installer sleeps, and never goes back. *)
Context (sleeping : forall d h, 0 <= d -> instant h + d <= instant (sleep d h)).
Context (asking_takes_time : forall h, instant h <= instant (snd (node_health h))).

(** The host the node answered on, among those the wait went through. *)
Lemma wait_rounds_ends n deadline last s :
  deadline - instant (s_host s) < 2000 * (Z.of_nat n - 1) -> (1 <= n)%nat ->
  match nodeinstall.wait_rounds n deadline last s with
  | (Ok None, _) => exists h, fst (node_health h) = Ok tt /\ instant h < deadline
  | (Ok (Some _), s') => deadline <= instant (s_host s')
  | (Err e, _) => False
  end.
Proof.
  revert last s. induction n as [|n IH]; intros last s Hn H1; [lia|]. cbn [nodeinstall.wait_rounds].
  unfold bind at 1, clock, gets. destruct (instant (s_host s) <? deadline) eqn:E; [|apply Z.ltb_ge in E; exact E].
  apply Z.ltb_lt in E. unfold bind, nodeinstall.ask_node, pause, modify, ret, state.
  pose proof (asking_takes_time (s_host s)) as Hask. destruct (node_health (s_host s)) as [r h] eqn:En. cbn [fst snd] in *.
  destruct r as [[]|e]; [by exists (s_host s); rewrite En|]. cbn [at_host s_host].
  pose proof (sleeping 2000 h ltac:(lia)) as Hs.
  match goal with |- context [nodeinstall.wait_rounds n deadline (Some e) ?s1] =>
    apply (IH (Some e) s1); cbn [s_host at_host]; lia end.
Qed.

(** Waiting for an installed node ends, after at most one round for every
    two seconds of patience and two more: with success only if the node
    answered in time, and with a failure only once the time is over. *)
Theorem installation_wait_ends rounds paths patience s :
  0 <= patience -> patience / 2000 + 2 <= Z.of_nat rounds ->
  match nodeinstall.wait_until_healthy rounds paths patience s with
  | (Ok _, _) => HostPaths.under_prefix paths = true
                 \/ exists h, fst (node_health h) = Ok tt /\ instant h < instant (s_host s) + patience
  | (Err (Failed _), s') => instant (s_host s) + patience <= instant (s_host s')
  | (Err _, _) => False
  end.
Proof.
  intros Hp Hr. unfold nodeinstall.wait_until_healthy. destruct (HostPaths.under_prefix paths); [by left|].
  unfold bind at 1, clock, gets. pose proof (wait_rounds_ends rounds (instant (s_host s) + patience) None s) as Hw.
  unfold bind. destruct (nodeinstall.wait_rounds _ _ _ s) as [[[last|]|e] s'].
  all: pose proof (Z.div_mod patience 2000 ltac:(lia)); pose proof (Z.mod_pos_bound patience 2000 ltac:(lia)).
  - apply Hw; lia.
  - right. apply Hw; lia.
  - exfalso. apply Hw; lia.
Qed.
End Wait.

(** ** A node that answers after five seconds *)

Module WaitSamples.
#[local] Instance ticking : Supervisor := {|
  host := Z;
  control _ _ h := (Ok tt, h);
  is_active _ h := (Ok true, h);
  main_pid _ h := (Ok None, h);
  healthy _ _ h := (true, h);
  instant h := h;
  sleep d h := h + d;
  nonce h := ("n"%string, h);
  meanwhile h db := (db, h)
|}.
#[local] Instance slow : Machine := {|
  http_get _ h := (Ok [], h);
  execute _ h := (Ok {| o_success := true; o_stdout := []; o_stderr := [] |}, h);
  statvfs _ _ := None;
  bindable _ _ := true;
  node_health h := (if 5000 <=? h then Ok tt else Err "no answer"%string, h);
  randomness _ := None;
  service_ids _ := None;
  launches _ := Ok tt;
  registry_opens h := (Ok tt, h);
  host_platform := "linux/amd64";
  process_id := 1
|}.
Definition waiting : Site :=
  {| s_db := Schema.empty_db; s_disk := {| nodes := ∅; plan := [] |}; s_host := 0; s_log := [] |}.

Lemma installation_wait_ends_witness :
  exists s', nodeinstall.wait_until_healthy 92 HostPaths.default_paths 180000 waiting = (Ok tt, s').
Proof.
  pose proof (installation_wait_ends (fun d h (_ : 0 <= d) => Z.le_refl (h + d)) (fun h => Z.le_refl h) 92 HostPaths.default_paths
    180000 waiting ltac:(lia)) as Hw.
  destruct (nodeinstall.wait_until_healthy 92 HostPaths.default_paths 180000 waiting) as [[[]|e] s'] eqn:E; [by exists s'|].
  exfalso. vm_compute in E. discriminate E.
Defined.
End WaitSamples.
