(* ===== verification/UpdateFinish.v ===== *)
(** * UpdateFinish: what must hold before an update may call itself finished,
    and how it puts the previous installation back ([updatefinish.rs], with
    [convergence.rs] [restart_and_converge] and, from [main.rs], [UpdateGuard]
    and the part of [run_lifecycle] that performs an update).

    Programs are those of Host.v: the disk, the service manager and the clock
    as one state.  What a round of waiting sees of the services is the class
    [Watcher]; the machine is that of NodeInstall.v.  SHA-256 is the argument [sha256].  The
    group of a file and the texts of errors are not modelled. *)
From Stdlib Require Import Lia.
From stdpp Require Import gmap.
From S2P Require Import Prelude Text Json Schema Convergence Fs Host Policy UpdateRequest Bundle RuntimeSwap HostPaths NodeSetup NodeInstall Workers.

(** The names of a path, for comparing it with the image of a process. *)
Definition names (path : string) : Path :=
  List.concat (List.map (fun c => match c with Normal s => [s] | ParentDir => [".."%string] | _ => [] end)
    (components path)).

Class Watcher `{Supervisor} : Type := {
  watch : host -> gmap string Node -> nat -> Control;
  ticks : host -> nat -> Z;
  watched : host -> host
}.

Definition NODE_UNIT : string := "asterism-node.service".
Definition HOST_HERMES_UNIT : string := "asterism-hermes.service".
Definition MAX_REPORTED : nat := 16.

Record UpdateEvidence : Type := {
  ev_target_release : string;
  ev_node_release : string;
  ev_runtime_release : string;
  ev_runtime_revision : string;
  ev_services : list Converged
}.

Inductive FailedCheck : Type := CheckInstall | CheckNodeBinary | CheckRuntimeRelease | CheckHealth | CheckServices.
Inductive RollbackOutcome : Type := Restored | Incomplete | NotAttempted.
#[export] Instance RollbackOutcome_eq_dec : EqDecision RollbackOutcome.
Proof. solve_decision. Defined.

Record FailureDetail : Type := {
  fd_check : FailedCheck;
  fd_services : list NotConverged;
  fd_found_runtime_release : option string;
  fd_rollback : RollbackOutcome;
  fd_rollback_services : list NotConverged
}.

Inductive RestartFailure : Type :=
| RestartRefused (role : Role) (e : NodeError)
| RestartNotConverged (all : list NotConverged).

Inductive VerificationFailure : Type :=
| NodeBinary (message : string)
| RuntimeReleaseMismatch (found : option string) (message : string)
| Services (failure : RestartFailure).

Definition detail (f : VerificationFailure) (rollback : RollbackOutcome) : FailureDetail :=
  let make check services found :=
    {| fd_check := check; fd_services := services; fd_found_runtime_release := found;
       fd_rollback := rollback; fd_rollback_services := [] |} in
  match f with
  | NodeBinary _ => make CheckNodeBinary [] None
  | RuntimeReleaseMismatch found _ => make CheckRuntimeRelease [] found
  | Services (RestartNotConverged all) => make CheckServices (firstn MAX_REPORTED all) None
  | Services (RestartRefused _ _) => make CheckServices [] None
  end.

Record TargetRelease : Type := { tr_version : string; tr_revision : string }.
Record BinaryIdentity : Type := { bi_installed : string; bi_running_image : string; bi_running_release : string }.
Definition of_this_process (installed software_version : string) : BinaryIdentity :=
  {| bi_installed := installed; bi_running_image := "/proc/self/exe"; bi_running_release := software_version |}.

(** ** Targets *)

Definition worker_targets (opt : string) (workers : list ManagedWorker) : list Target :=
  List.map (fun w => {| tg_unit := mw_unit w; tg_role := ProjectWorker (mw_project_id w);
                        tg_expect := RuntimeTree (names opt) |}) workers.
Definition service_targets (paths : HostPaths.HostPaths) (binary : string) (workers : list ManagedWorker) : list Target :=
  [{| tg_unit := NODE_UNIT; tg_role := NodeRole; tg_expect := ExpectedFile (names binary) |};
   {| tg_unit := HOST_HERMES_UNIT; tg_role := HostHermes; tg_expect := RuntimeTree (names (HostPaths.opt_dir paths)) |}]
  ++ worker_targets (HostPaths.opt_dir paths) workers.

Section Updates.
Context `{Watcher, !Machine, Process, SerdeJson} (sha256 : bytes -> list Z) (rounds : nat) (policy : Convergence.Policy).

(** ** Waiting for services *)

Definition converge_now {E} (targets : list Target) : Prog E (Result (list NotConverged) (list Converged)) :=
  fun s => match converge (watch (s_host s) (nodes (s_disk s))) (ticks (s_host s)) policy targets rounds (instant (s_host s)) with
           | Some r => (Ok r, at_host (watched (s_host s)) s)
           | None => (Err Unfinished, s)
           end.

Fixpoint restart_each (units : list (string * Role)) : Prog RestartFailure unit :=
  match units with
  | [] => ret tt
  | (u, role) :: rest => mapping (RestartRefused role) (ask Restart u) ;;; restart_each rest
  end.
Definition converged_or_fail (targets : list Target) : Prog RestartFailure (list Converged) :=
  let! r := converge_now targets in checked RestartNotConverged r.
Definition restart_and_converge (targets : list Target) : Prog RestartFailure (list Converged) :=
  restart_each (List.map (fun t => (tg_unit t, tg_role t)) targets) ;;;
  converged_or_fail targets.
Definition restart_project_workers (opt : string) (workers : list ManagedWorker) : Prog RestartFailure unit :=
  restart_and_converge (worker_targets opt workers) ;;; ret tt.

(** ** Verifying *)

Definition digest (n : gmap string Node) (path : string) : option string :=
  match sha256_file sha256 n path with Ok d => Some d | Err _ => None end.

Definition verify_binary (target : TargetRelease) (binary : BinaryIdentity) : Prog VerificationFailure unit :=
  if negb (bi_running_release binary =? tr_version target)%string
  then throw (NodeBinary ("the updater is " +:+ bi_running_release binary +:+ " but the update targets " +:+ tr_version target))
  else let! same := nodeinstall.on_files (fun n => match digest n (bi_installed binary), digest n (bi_running_image binary) with
                                       | Some a, Some b => (a =? b)%string
                                       | _, _ => false
                                       end) in
       if same : bool then ret tt
       else throw (NodeBinary ("the installed Node binary is not the " +:+ tr_version target +:+ " binary")).

Definition verify_runtime (opt : string) (target : TargetRelease) : Prog VerificationFailure unit :=
  let! found := nodeinstall.on_files (fun n => match runtimerelease.read n opt with Ok (Some r) => Some r | _ => None end) in
  match found with
  | Some r =>
      if (runtimerelease.version r =? tr_version target)%string
         && (runtimerelease.source_revision r =? tr_revision target)%string
      then ret tt
      else throw (RuntimeReleaseMismatch (Some (runtimerelease.version r))
             ("the live runtime is " +:+ runtimerelease.version r +:+ " rather than " +:+ tr_version target
                +:+ " at " +:+ tr_revision target))
  | None => throw (RuntimeReleaseMismatch None
             ("the live runtime is unmarked rather than " +:+ tr_version target +:+ " at " +:+ tr_revision target))
  end.

Definition verify_installation (paths : HostPaths.HostPaths) (target : TargetRelease) (binary : BinaryIdentity)
    (displaced : list ManagedWorker) : Prog VerificationFailure UpdateEvidence :=
  verify_binary target binary ;;;
  verify_runtime (HostPaths.opt_dir paths) target ;;;
  mapping Services (restart_each (List.map (fun w => (mw_unit w, ProjectWorker (mw_project_id w))) displaced)) ;;;
  let! services := mapping Services (converged_or_fail (service_targets paths (bi_installed binary) displaced)) in
  ret {| ev_target_release := tr_version target; ev_node_release := bi_running_release binary;
         ev_runtime_release := tr_version target; ev_runtime_revision := tr_revision target;
         ev_services := services |}.

(** ** The previous binary *)

Record PreviousBinary : Type := { pb_path : string; pb_sha256 : string }.
Definition parked_beside (binary : string) : string := Fs.with_extension binary "previous".

Definition find_previous (binary : string) (recorded : option string) : Prog NodeError PreviousBinary :=
  let path := parked_beside binary in
  let! found := nodeinstall.on_files (fun n => sha256_file sha256 n path) in
  let! sha := checked OnDisk found in
  match recorded with
  | Some r => if (r =? sha)%string then ret {| pb_path := path; pb_sha256 := sha |}
              else throw (Bail "the previous Node binary is not the one this update parked")
  | None => ret {| pb_path := path; pb_sha256 := sha |}
  end.

Definition restore_binary (b : PreviousBinary) (binary : string) : Prog NodeError unit :=
  let! found := nodeinstall.on_files (fun n => sha256_file sha256 n (pb_path b)) in
  let! now := checked OnDisk found in
  if negb (now =? pb_sha256 b)%string then throw (Bail "the previous Node binary changed after it was parked")
  else on_disk (
    let staged := Fs.with_extension binary "incoming" in
    nodesetup.copy (pb_path b) staged ;;;
    set_permissions staged 0x1ED ;;;
    rename staged binary).

(** ** The configuration *)

Record SavedFile : Type := { sf_path : string; sf_saved : option (bytes * Z * Z) }.
Record ConfigSnapshot : Type := { cs_files : list SavedFile; cs_journal_modes : list (string * bytes) }.

Definition metadata_of (n : gmap string Node) (path : string) : option Node :=
  resolve MAX_HOPS n path ≫= fun p => n !! p.

Definition save_file (n : gmap string Node) (path : string) : Result IoError SavedFile :=
  match read n path with
  | Ok body =>
      match metadata_of n path with
      | Some x => Ok {| sf_path := path; sf_saved := Some (body, Z.land (f_mode x) 0xFFF, f_owner x) |}
      | None => Err NotFound
      end
  | Err NotFound => Ok {| sf_path := path; sf_saved := None |}
  | Err e => Err e
  end.
Fixpoint save_files (n : gmap string Node) (paths : list string) : Result IoError (list SavedFile) :=
  match paths with
  | [] => Ok []
  | p :: ps => match save_file n p with
               | Err e => Err e
               | Ok f => match save_files n ps with Ok fs => Ok (f :: fs) | Err e => Err e end
               end
  end.
Definition saved_paths (paths : HostPaths.HostPaths) : list string :=
  [HostPaths.env_file paths; HostPaths.hermes_unit paths; HostPaths.node_unit paths;
   HostPaths.worker_template paths; HostPaths.update_unit paths; HostPaths.sudoers_policy paths].

Definition journal_mode_of (n : gmap string Node) (config : string) : option (string * bytes) :=
  match read_to_string n config with
  | Ok body => (fun mode => (config, mode)) <$> Policy.lookup body $"database" $"journal_mode"
  | Err _ => None
  end.
Definition hermes_configs (n : gmap string Node) (paths : HostPaths.HostPaths) : list string :=
  HostPaths.hermes_config paths
  :: (if is_dir n (HostPaths.hermes_project_home_root paths)
      then List.map (fun home => path_join home "config.yaml") (entries_of (HostPaths.hermes_project_home_root paths) n)
      else []).
Definition capture (n : gmap string Node) (paths : HostPaths.HostPaths) : Result IoError ConfigSnapshot :=
  match save_files n (saved_paths paths) with
  | Err e => Err e
  | Ok files => Ok {| cs_files := files; cs_journal_modes := omap (journal_mode_of n) (hermes_configs n paths) |}
  end.

Definition write_as (path : string) (body : bytes) (mode uid : Z) : M FsError Disk unit :=
  let staged := Fs.with_extension path "asterism-restore" in
  write staged body ;;;
  set_permissions staged mode ;;;
  ignore_errors (set_owner staged uid) ;;;
  rename staged path.

Definition restore_file (f : SavedFile) : M FsError Disk unit :=
  match sf_saved f with
  | Some (body, mode, uid) => write_as (sf_path f) body mode uid
  | None => fun d => match remove_file (sf_path f) d with
                     | (Err (Io NotFound), d') => (Ok tt, d')
                     | r => r
                     end
  end.
Definition restore_mode (config : string) (mode : bytes) : M FsError Disk unit :=
  let! found := Fs.look (fun n => (read_to_string n config, metadata_of n config)) in
  match found with
  | (Err e, _) => fail (Io e)
  | (Ok body, x) =>
      if bool_decide (Policy.lookup body $"database" $"journal_mode" = Some mode) then ret tt
      else match x with
           | None => fail (Io NotFound)
           | Some x => write_as config (Policy.set_setting body $"database" $"journal_mode" mode)
                         (Z.land (f_mode x) 0xFFF) (f_owner x)
           end
  end.
(** Every item is attempted, and the first error is kept. *)
Definition noting (first : option FsError) (m : M FsError Disk unit) : M FsError Disk (option FsError) :=
  fun d => match m d with
           | (Ok _, d') => (Ok first, d')
           | (Err Crashed, d') => (Err Crashed, d')
           | (Err e, d') => (Ok (match first with Some e0 => Some e0 | None => Some e end), d')
           end.
Fixpoint attempt_each (first : option FsError) (ms : list (M FsError Disk unit)) : M FsError Disk (option FsError) :=
  match ms with
  | [] => ret first
  | m :: ms => let! first' := noting first m in attempt_each first' ms
  end.
Definition restore_config (c : ConfigSnapshot) : M FsError Disk unit :=
  let! first := attempt_each None (List.map restore_file (cs_files c)
    ++ List.map (fun '(config, mode) => restore_mode config mode) (cs_journal_modes c)) in
  match first with Some e => fail e | None => ret tt end.

(** ** Putting the previous installation back *)

Record Rollback : Type := {
  rb_swap : option Swap;
  rb_config : option ConfigSnapshot;
  rb_binary : option PreviousBinary;
  rb_services_restarted : bool;
  rb_workers : list ManagedWorker
}.
Inductive Problem : Type :=
| ConfigurationProblem (e : NodeError)
| BinaryProblem (e : NodeError)
| ReloadProblem (e : NodeError)
| UnitProblem (unit : string) (e : NodeError).
Record RestoreReport : Type := {
  rr_outcome : RollbackOutcome;
  rr_problems : list Problem;
  rr_not_converged : list NotConverged
}.

(** A step whose failure becomes a problem. *)
Definition step (problem : NodeError -> Problem) (m : Prog NodeError unit) : Prog NodeError (list Problem) :=
  let! r := attempt m in
  ret (match r with Ok _ => [] | Err e => [problem e] end).
Fixpoint restart_noting (units : list string) : Prog NodeError (list Problem) :=
  match units with
  | [] => ret []
  | u :: us => let! p := step (UnitProblem u) (ask Restart u) in
               let! ps := restart_noting us in
               ret (p ++ ps)
  end.
Definition is_some {A} (o : option A) : bool := match o with Some _ => true | None => false end.

Definition restore_files (r : Rollback) (installed : string) : Prog NodeError (list Problem) :=
  match rb_swap r with Some s => on_disk (roll_back s) | None => ret tt end ;;;
  let! p1 := match rb_config r with
             | Some c => step ConfigurationProblem (on_disk (restore_config c))
             | None => ret []
             end in
  let! p2 := match rb_binary r with
             | Some b => step BinaryProblem (restore_binary b installed)
             | None => ret []
             end in
  ret (p1 ++ p2).
Definition restart_services (r : Rollback) (paths : HostPaths.HostPaths) : Prog NodeError (list Problem) :=
  if rb_services_restarted r || is_some (rb_swap r) || is_some (rb_binary r) then
    let! p1 := step ReloadProblem (nodeinstall.reload_units paths) in
    let! p2 := restart_noting nodeinstall.UNITS in
    let! p3 := if rb_services_restarted r || is_some (rb_swap r)
               then restart_noting (List.map mw_unit (rb_workers r)) else ret [] in
    ret (p1 ++ p2 ++ p3)
  else ret [].

Definition restore_previous_installation (r : Rollback) (paths : HostPaths.HostPaths) (installed : string) :
    Prog NodeError RestoreReport :=
  let! p1 := restore_files r installed in
  let! p2 := restart_services r paths in
  let! c := converge_now (service_targets paths installed (rb_workers r)) in
  let not_converged := match c with Ok _ => [] | Err all => all end in
  let problems := p1 ++ p2 in
  ret {| rr_outcome := match problems, not_converged with [], [] => Restored | _, _ => Incomplete end;
         rr_problems := problems; rr_not_converged := not_converged |}.

(** ** The guard of an update *)

Record UpdateGuard : Type := {
  ug_update : bool;
  ug_binary : option PreviousBinary;
  ug_binary_unrecoverable : bool;
  ug_config : option ConfigSnapshot;
  ug_workers : list ManagedWorker
}.
Record Abandoned : Type := {
  ab_swap : option Swap;
  ab_services_restarted : bool;
  ab_check : FailedCheck;
  ab_verification : option VerificationFailure
}.
Definition before_install : Abandoned :=
  {| ab_swap := None; ab_services_restarted := false; ab_check := CheckInstall; ab_verification := None |}.
Definition installed_with (s : option Swap) (restarted : bool) : Abandoned :=
  {| ab_swap := s; ab_services_restarted := restarted; ab_check := CheckInstall; ab_verification := None |}.
Definition at_check (c : FailedCheck) (a : Abandoned) : Abandoned :=
  {| ab_swap := ab_swap a; ab_services_restarted := ab_services_restarted a; ab_check := c;
     ab_verification := ab_verification a |}.
Definition with_verification (f : VerificationFailure) (a : Abandoned) : Abandoned :=
  {| ab_swap := ab_swap a; ab_services_restarted := ab_services_restarted a; ab_check := ab_check a;
     ab_verification := Some f |}.

(** What the environment of the process tells it: whether it was handed the
    update, the digest the first half recorded, its own file and its release. *)
Record Self : Type := {
  sl_handed_over : bool;
  sl_recorded_sha256 : option string;
  sl_current_exe : option string;
  sl_release : string
}.

Definition guard_new (update : bool) (self : Self) (paths : HostPaths.HostPaths) : Prog NodeError UpdateGuard :=
  if negb (update && negb (HostPaths.under_prefix paths))
  then ret {| ug_update := false; ug_binary := None; ug_binary_unrecoverable := false; ug_config := None; ug_workers := [] |}
  else
    let! binary := if sl_handed_over self
                   then let! found := attempt (match sl_current_exe self with
                                               | Some running => find_previous running (sl_recorded_sha256 self)
                                               | None => throw (Bail "cannot locate the running binary")
                                               end) in
                        ret (match found with Ok b => (Some b, false) | Err _ => (None, true) end)
                   else ret (None, false) in
    let! config := nodeinstall.on_files (fun n => match capture n paths with Ok c => Some c | Err _ => None end) in
    ret {| ug_update := true; ug_binary := fst binary; ug_binary_unrecoverable := snd binary;
           ug_config := config; ug_workers := [] |}.

Definition restore_previous_runtime (s : Swap) (workers : list ManagedWorker) : Prog NodeError unit :=
  on_disk (roll_back s) ;;;
  restart_noting (List.map mw_unit workers) ;;;
  ret tt.

(** What is reported before the process exits; [None] for an install or a
    repair, which report no detail. *)
Definition abandon (g : UpdateGuard) (paths : HostPaths.HostPaths) (a : Abandoned) : Prog NodeError (option FailureDetail) :=
  if negb (ug_update g) then
    match ab_swap a with Some s => restore_previous_runtime s (ug_workers g) | None => ret tt end ;;;
    ret None
  else
    let! report := restore_previous_installation
      {| rb_swap := ab_swap a; rb_config := ug_config g; rb_binary := ug_binary g;
         rb_services_restarted := ab_services_restarted a; rb_workers := ug_workers g |}
      paths (HostPaths.node_binary paths) in
    let outcome := if ug_binary_unrecoverable g then Incomplete else rr_outcome report in
    let base := match ab_verification a with
                | Some f => detail f outcome
                | None => {| fd_check := ab_check a; fd_services := []; fd_found_runtime_release := None;
                             fd_rollback := outcome; fd_rollback_services := [] |}
                end in
    ret (Some {| fd_check := fd_check base; fd_services := fd_services base;
                 fd_found_runtime_release := fd_found_runtime_release base; fd_rollback := fd_rollback base;
                 fd_rollback_services := firstn 16 (rr_not_converged report) |}).

(** ** Performing an update *)

Context `{Tar} (parse : bytes -> option Manifest) (request : Request).

Fixpoint active_of (ws : list ManagedWorker) : Prog NodeError (list ManagedWorker) :=
  match ws with
  | [] => ret []
  | w :: ws => let! b := ask_active (mw_unit w) in
               let! rest := active_of ws in
               ret (if b : bool then w :: rest else rest)
  end.
Definition active_project_workers (paths : HostPaths.HostPaths) : Prog NodeError (list ManagedWorker) :=
  if HostPaths.under_prefix paths then ret []
  else (fun s => let (r, h) := registry_opens (s_host s) in (told r, at_host h s)) ;;;
       let! ws := gets (fun s => managed_workers (s_db s)) in
       let! ws := checked (fun e => e) ws in
       active_of ws.

Definition install_self (self : Self) (paths : HostPaths.HostPaths) : Prog NodeError unit :=
  match sl_current_exe self with
  | None => throw (Bail "cannot locate the running binary")
  | Some running =>
      let target := HostPaths.node_binary paths in
      if (running =? target)%string then ret tt
      else on_disk (
        match parent target with Some dir => create_dir_all dir | None => ret tt end ;;;
        let staged := Fs.with_extension target "incoming" in
        nodesetup.copy running staged ;;;
        set_permissions staged 0x1ED ;;;
        rename staged target)
  end.

(** [hostsetup.rs]. *)
Inductive ExitCode : Type :=
| ExitOk | ExitUsage | ExitUnsupported | ExitDegraded | ExitNotInstalled | ExitAlreadyInstalled
| ExitVerificationFailed | ExitInterrupted.

(** How the command ends: with its evidence, which only an update has, or given
    up with what is reported. *)
Inductive Finish : Type :=
| Completed (evidence : option UpdateEvidence)
| GivenUp (code : FailureCode) (exit : ExitCode) (report : option FailureDetail).

Definition given_up (g : UpdateGuard) (paths : HostPaths.HostPaths) (code : FailureCode) (exit : ExitCode)
    (a : Abandoned) : Prog NodeError Finish :=
  let! d := abandon g paths a in ret (GivenUp code exit d).
(** A step of the command: its failure gives the command up. *)
Definition guarded {E A} (g : UpdateGuard) (paths : HostPaths.HostPaths) (m : Prog E A)
    (a : E -> FailureCode * ExitCode * Abandoned) (k : A -> Prog NodeError Finish) : Prog NodeError Finish :=
  let! r := attempt m in
  match r with
  | Ok x => k x
  | Err e => let '(code, exit, abandoned) := a e in given_up g paths code exit abandoned
  end.

Definition exit_of (code : FailureCode) : ExitCode :=
  match code with
  | CodeDigestMismatch => ExitVerificationFailed
  | UnsupportedBundleSchema | UnsupportedArchitecture | UnsupportedOs | InsufficientDisk => ExitUnsupported
  | _ => ExitDegraded
  end.

Definition with_workers (g : UpdateGuard) (ws : list ManagedWorker) : UpdateGuard :=
  {| ug_update := ug_update g; ug_binary := ug_binary g; ug_binary_unrecoverable := ug_binary_unrecoverable g;
     ug_config := ug_config g; ug_workers := ws |}.

(** The last step: proving an update, or bringing the workers of a repair
    forward, and only then discarding the previous runtime. *)
Definition finish (g : UpdateGuard) (self : Self) (paths : HostPaths.HostPaths) (i : nodeinstall.Installed) :
    Prog NodeError Finish :=
  let sw := nodeinstall.in_swap i in
  if ug_update g then
    let target := {| tr_version := nodeinstall.in_version i; tr_revision := nodeinstall.in_revision i |} in
    let binary := of_this_process (HostPaths.node_binary paths) (sl_release self) in
    guarded g paths (verify_installation paths target binary (ug_workers g))
      (fun f => (match f with Services _ => ServicesNotConverged | _ => ReleaseMismatch end, ExitDegraded,
                 with_verification f (installed_with (Some sw) true)))
      (fun ev => on_disk (commit sw) ;;; ret (Completed (Some ev)))
  else
    guarded g paths (match ug_workers g with
                     | [] => ret tt
                     | ws => restart_project_workers (HostPaths.opt_dir paths) ws
                     end)
      (fun _ => (ServicesNotConverged, ExitDegraded, installed_with (Some sw) true))
      (fun _ => on_disk (commit sw) ;;; ret (Completed None)).

Definition PATIENCE : Z := 180000.

(** An update or a repair, from the guard on. *)
Definition run_lifecycle (update : bool) (self : Self) (paths : HostPaths.HostPaths) : Prog NodeError Finish :=
  let! g0 := guard_new update self paths in
  let! free := nodeinstall.free_bytes (default "/"%string (parent (HostPaths.opt_dir paths))) in
  guarded g0 paths (nodeinstall.preflight paths free) (fun f => (fl_code f, ExitUnsupported, before_install)) (fun _ =>
  guarded g0 paths (active_project_workers paths) (fun _ => (InternalError, ExitDegraded, before_install)) (fun displaced =>
  let g := with_workers g0 displaced in
  guarded g paths (nodeinstall.install sha256 parse request paths)
    (fun f => (fl_code f, exit_of (fl_code f), before_install)) (fun i =>
  let sw := Some (nodeinstall.in_swap i) in
  guarded g paths (install_self self paths)
    (fun _ => (RuntimeInstallFailed, ExitDegraded, installed_with sw false)) (fun _ =>
  guarded g paths (nodeinstall.start_services paths)
    (fun _ => (ServiceStartFailed, ExitDegraded, installed_with sw true)) (fun _ =>
  guarded g paths (nodeinstall.wait_until_healthy rounds paths PATIENCE)
    (fun _ => (HealthCheckFailed, ExitDegraded, at_check CheckHealth (installed_with sw true))) (fun _ =>
  finish g self paths i)))))).
End Updates.
