(* ===== verification/UpdateFinishTheorems.v ===== *)
(** * UpdateFinishTheorems: what a finished update has proved, and what a
    report that the previous installation is restored says. *)
From Stdlib Require Import Lia.
From stdpp Require Import gmap.
From S2P Require Import Prelude Text Json Schema Convergence Fs Host Policy UpdateRequest Bundle RuntimeSwap HostPaths NodeSetup NodeInstall Workers Trees StagedWrites UpdateFinish.

(** ** Verifying *)

Section Verify.
Context `{Watcher, !Machine, Process, SerdeJson} (sha256 : bytes -> list Z) (rounds : nat) (policy : Convergence.Policy).

Lemma restart_each_Ok units s u s' :
  restart_each units s = (Ok u, s') ->
  s_disk s' = s_disk s /\ s_log s' = s_log s ++ List.map (fun e => Did Restart (fst e)) units.
Proof.
  revert s. induction units as [|[name role] units IH]; intros s Hr; [injection Hr as _ <-; by rewrite app_nil_r|].
  cbn [restart_each] in Hr. apply bind_Ok in Hr as ([] & s1 & Ha & Hr).
  unfold mapping, ask in Ha. destruct (control Restart name (s_host s)) as [r h].
  destruct r as [[]|[text|]]; cbn in Ha; try done. injection Ha as <-.
  apply IH in Hr as [Hd Hl]. split; [done|]. rewrite Hl. cbn. by rewrite <- app_assoc.
Qed.

Lemma mapping_Ok {E F A} (f : E -> F) (m : Prog E A) s a s' :
  mapping f m s = (Ok a, s') -> m s = (Ok a, s').
Proof. unfold mapping. destruct (m s) as [[x|[| |e]] s1]; try done. by intros [= <- <-]. Qed.

(** What one wait established. *)
Definition proved_at (s : Site) (targets : list Target) (l : list Converged) : Prop :=
  length l = length targets
  /\ forall k t, targets !! k = Some t ->
       exists pid seen, l !! k = Some {| cv_role := tg_role t; cv_main_pid := pid |}
         /\ settled (watch (s_host s) (nodes (s_disk s))) (ticks (s_host s)) policy t seen pid.

Lemma converge_now_Ok {E} targets s r s' :
  converge_now (E := E) rounds policy targets s = (Ok r, s') ->
  s_disk s' = s_disk s /\ s_log s' = s_log s /\ forall l, r = Ok l -> proved_at s targets l.
Proof.
  unfold converge_now. destruct (converge _ _ _ _ _ _) as [c|] eqn:Ec; [|done]. intros [= <- <-].
  split; [done|]. split; [done|]. intros l ->. by eapply converge_sound.
Qed.

(** Everything an update must agree on. *)
Record coherent (paths : HostPaths.HostPaths) (target : TargetRelease) (binary : BinaryIdentity)
    (n : gmap string Node) : Prop := {
  co_release : bi_running_release binary = tr_version target;
  co_binary : exists d, digest sha256 n (bi_installed binary) = Some d /\ digest sha256 n (bi_running_image binary) = Some d;
  co_runtime : exists r, runtimerelease.read n (HostPaths.opt_dir paths) = Ok (Some r)
                 /\ runtimerelease.version r = tr_version target /\ runtimerelease.source_revision r = tr_revision target
}.

(** What one verification established. *)
Definition verified (paths : HostPaths.HostPaths) (target : TargetRelease) (binary : BinaryIdentity)
    (displaced : list ManagedWorker) (s : Site) (ev : UpdateEvidence) (s' : Site) : Prop :=
  coherent paths target binary (nodes (s_disk s)) /\ s_disk s' = s_disk s
  /\ s_log s' = s_log s ++ List.map (fun w => Did Restart (mw_unit w)) displaced
  /\ (exists s1, s_disk s1 = s_disk s
        /\ proved_at s1 (service_targets paths (bi_installed binary) displaced) (ev_services ev))
  /\ ev_target_release ev = tr_version target /\ ev_node_release ev = tr_version target
  /\ ev_runtime_release ev = tr_version target /\ ev_runtime_revision ev = tr_revision target.

Lemma verify_facts paths target binary displaced s ev s' :
  verify_installation sha256 rounds policy paths target binary displaced s = (Ok ev, s') ->
  verified paths target binary displaced s ev s'.
Proof.
  intros Hv. unfold verify_installation in Hv. apply bind_Ok in Hv as ([] & s1 & Hs1 & Hv).
  apply bind_Ok in Hv as ([] & s2 & Hs2 & Hv). apply bind_Ok in Hv as ([] & s3 & Hs3 & Hv).
  apply bind_Ok in Hv as (services & s4 & Hs4 & Hv). injection Hv as <- <-.
  unfold verify_binary in Hs1. destruct (bi_running_release binary =? tr_version target)%string eqn:Er; [|done].
  apply String.eqb_eq in Er. cbn [negb] in Hs1. unfold bind, nodeinstall.on_files, gets in Hs1.
  destruct (digest sha256 (nodes (s_disk s)) (bi_installed binary)) as [d1|] eqn:E1; [|done].
  destruct (digest sha256 (nodes (s_disk s)) (bi_running_image binary)) as [d2|] eqn:E2; [|done].
  destruct (d1 =? d2)%string eqn:Ed; [|done]. apply String.eqb_eq in Ed as ->. injection Hs1 as <-.
  unfold verify_runtime, bind, nodeinstall.on_files, gets in Hs2.
  destruct (runtimerelease.read (nodes (s_disk s)) (HostPaths.opt_dir paths)) as [[r|]|] eqn:Em; try done.
  destruct (_ && _) eqn:Ev in Hs2; [|done]. injection Hs2 as <-. apply andb_true_iff in Ev as [Ev Erev].
  apply String.eqb_eq in Ev, Erev.
  apply mapping_Ok, restart_each_Ok in Hs3 as [Hd3 Hl3].
  apply mapping_Ok in Hs4. unfold converged_or_fail in Hs4. apply bind_Ok in Hs4 as (c & s5 & Hc & Hs4).
  apply converge_now_Ok in Hc as (Hd5 & Hl5 & Hp). destruct c as [l|all]; [|done]. injection Hs4 as <- <-.
  split; [split; [done|by exists d2|by exists r]|]. split; [congruence|].
  split; [rewrite Hl5, Hl3, map_map; done|]. split; [exists s3; auto|]. cbn. auto.
Qed.

(** An installation is only called verified when the running updater is
    the target release, the installed binary is byte for byte the running one,
    the marker of the live runtime names the target version and revision, every
    worker that was serving was restarted, and the node, the host's Hermes and
    each of those workers held one process executing the live file for the
    settling time; and the evidence says exactly that. *)
Theorem verified_installation_agrees paths target binary displaced s ev s' :
  verify_installation sha256 rounds policy paths target binary displaced s = (Ok ev, s') ->
  coherent paths target binary (nodes (s_disk s)) /\ s_disk s' = s_disk s
  /\ s_log s' = s_log s ++ List.map (fun w => Did Restart (mw_unit w)) displaced
  /\ (exists s1, s_disk s1 = s_disk s
        /\ proved_at s1 (service_targets paths (bi_installed binary) displaced) (ev_services ev))
  /\ ev_target_release ev = tr_version target /\ ev_node_release ev = tr_version target
  /\ ev_runtime_release ev = tr_version target /\ ev_runtime_revision ev = tr_revision target.
Proof. apply verify_facts. Qed.
End Verify.

(** ** Putting files back *)

Section Restore.
Context `{Process}.
Abbreviation st_of path := (Fs.with_extension path "asterism-restore").

Lemma write_as_spec path body mode uid n0 :
  st_of path <> path -> spot (st_of path) n0 -> (forall x, n0 !! path = Some x -> f_kind x <> Directory) ->
  leaves (fun n => n = n0) (write_as path body mode uid)
    (put path (st_of path) n0 (fun x => f_body x = body /\ f_mode x = mode)).
Proof.
  intros Hne Hs Hd. unfold write_as, Fs.write.
  apply leaves_bind with (Q1 := fun _ => working path (st_of path) n0 (fun x => f_body x = body)).
  { apply leaves_bind with (Q1 := fun _ => working path (st_of path) n0 (fun _ => True)).
    - by apply put_open.
    - intros _. by apply put_through. }
  intros _. apply leaves_bind with (Q1 := fun _ => working path (st_of path) n0 (fun x => f_body x = body /\ f_mode x = mode)).
  { by apply put_through. }
  intros _. apply leaves_bind with (Q1 := fun _ => working path (st_of path) n0 (fun x => f_body x = body /\ f_mode x = mode)).
  { apply leaves_ignored with (R := working path (st_of path) n0 (fun x => f_body x = body /\ f_mode x = mode)).
    - apply leaves_syscall. intros n Hw. split; [done|]. split; [done|].
      pose proof Hw as (_ & _ & x & Hx & Hk & Hq). rewrite (through_file _ _ x) by congruence.
      by apply (working_insert path (st_of path) Hne n0 (fun x => f_body x = body /\ f_mode x = mode)).
    - intros n Hw. by eapply working_put.
    - done. }
  intros _. by apply put_rename.
Qed.

(** ** Each item of a snapshot *)

(** What an item may change, and what it promises when it succeeds. *)
Record Item : Type := { it_run : M FsError Disk unit; it_keys : list string; it_done : gmap string Node -> Prop }.
Record item_ok (J : gmap string Node -> Prop) (i : Item) : Prop := {
  io_run n0 : J n0 -> leaves (fun n => n = n0) (it_run i)
    (fun r n => J n /\ same_off (it_keys i) n0 n /\ match r with Ok _ => it_done i n | Err _ => True end);
  io_local n n' : (forall k, In k (it_keys i) -> n' !! k = n !! k) -> it_done i n -> it_done i n'
}.

Lemma attempt_each_Ok J items first d d' :
  Forall (item_ok J) items -> NoDup (List.concat (List.map it_keys items)) -> J (nodes d) ->
  attempt_each first (List.map it_run items) d = (Ok None, d') ->
  first = None /\ J (nodes d') /\ Forall (fun i => it_done i (nodes d')) items
  /\ same_off (List.concat (List.map it_keys items)) (nodes d) (nodes d').
Proof.
  revert first d. induction items as [|i items IH]; intros first d Hit Hnd HJ Hr.
  { injection Hr as <- <-. by split_and!. }
  cbn [List.map attempt_each] in Hr. apply bind_Ok in Hr as (first1 & d1 & Hn & Hr).
  inversion Hit as [|? ? [Hrun Hloc] Hits]; subst. cbn [List.map List.concat] in Hnd.
  apply list.NoDup_app in Hnd as (_ & Hdis & Hnd).
  specialize (Hrun (nodes d) HJ d eq_refl). unfold noting in Hn.
  destruct (it_run i d) as [[[]|e] d2]; cbn [fst snd] in *.
  - injection Hn as <- <-. destruct Hrun as (HJ2 & Ho & Hd2).
    destruct (IH first d2 Hits Hnd HJ2 Hr) as (-> & HJ' & Hall & Hoff). split; [done|]. split; [done|].
    split; [|intros k Hk; cbn [List.map List.concat] in Hk; rewrite in_app_iff in Hk; rewrite Hoff, Ho; tauto].
    constructor; [|done]. eapply Hloc; [|exact Hd2]. intros k Hk. apply Hoff. intros Hin.
    by apply (Hdis k); apply list_elem_of_In.
  - exfalso. destruct e; [done|..]; injection Hn as <- <-; destruct Hrun as (HJ2 & _ & _);
      destruct first; by destruct (IH _ d2 Hits Hnd HJ2 Hr) as [? _].
Qed.

(** Names a snapshot writes to: no links or directories, and not twice. *)
Definition plain_at (path st : string) (n : gmap string Node) : Prop :=
  spot st n /\ (forall x, n !! path = Some x -> f_kind x <> Directory).
Definition config_paths (c : ConfigSnapshot) : list string :=
  List.map sf_path (cs_files c) ++ List.map fst (cs_journal_modes c).
Definition keys_of (path : string) : list string := [st_of path; path].
Definition config_keys (c : ConfigSnapshot) : list string := List.concat (List.map keys_of (config_paths c)).

Definition back (f : SavedFile) (n : gmap string Node) : Prop :=
  match sf_saved f with
  | Some (body, mode, _) => file_is (sf_path f) body mode n
  | None => n !! sf_path f = None
  end.
Definition saved_item (f : SavedFile) : Item :=
  {| it_run := restore_file f; it_keys := keys_of (sf_path f); it_done := back f |}.
Definition mode_item (e : string * bytes) : Item :=
  {| it_run := restore_mode (fst e) (snd e); it_keys := keys_of (fst e); it_done := fun _ => True |}.

Section Snapshot.
Context (P : list string) (HP : NoDup (List.concat (List.map keys_of P))).
Definition all_plain (n : gmap string Node) : Prop := forall p, In p P -> plain_at p (st_of p) n.

Lemma keys_distinct p q : In p P -> In q P -> st_of p <> q /\ (p <> q -> st_of p <> st_of q).
Proof.
  intros Hp Hq.
  assert (forall l, NoDup (List.concat (List.map keys_of l)) -> In p l -> In q l ->
    st_of p <> q /\ (p <> q -> st_of p <> st_of q)) as Hgen; [|by apply (Hgen P)].
  clear HP Hp Hq. induction l as [|x l IH]; [done|]. cbn [List.map List.concat]. intros (Hx & Hdis & Hnd)%list.NoDup_app.
  assert (forall y, In y l -> In y (List.concat (List.map keys_of l)) /\ In (st_of y) (List.concat (List.map keys_of l))) as Hin.
  { intros y Hy. assert (In (keys_of y) (List.map keys_of l)) as Hk by (by apply in_map).
    rewrite !in_concat. split; exists (keys_of y); (split; [done|]); [right; by left|by left]. }
  assert (forall k, In k (keys_of x) -> In k (List.concat (List.map keys_of l)) -> False) as Hd
    by (intros k Hk1 Hk2; apply (Hdis k); by apply list_elem_of_In).
  apply list.NoDup_cons in Hx as [Hx _]. rewrite list_elem_of_singleton in Hx.
  intros [->|Hp] [->|Hq].
  - done.
  - destruct (Hin q Hq) as [Hq1 Hq2]. split; [intros Heq|intros _ Heq]; (apply (Hd (st_of p)); [by left|by rewrite Heq]).
  - destruct (Hin p Hp) as [Hp1 Hp2]. split; [intros Heq|intros _ Heq].
    + apply (Hd q); [right; by left|by rewrite <- Heq].
    + apply (Hd (st_of q)); [by left|by rewrite <- Heq].
  - by apply IH.
Qed.

(** Putting one file back keeps the names plain. *)
Lemma put_plain p q n0 r n : In p P -> all_plain n0 -> put p (st_of p) n0 q r n -> all_plain n.
Proof.
  intros Hp HJ (Ho & Hs & Hr) y Hy. destruct (decide (y = p)) as [->|Hne].
  - split; [done|]. intros x Hx. destruct r as [u|e].
    + destruct Hr as (z & Hz & Hk & _). congruence.
    + rewrite Hr in Hx. by apply (HJ p).
  - destruct (keys_distinct p y Hp Hy) as [H1' H2']. destruct (keys_distinct y p Hy Hp) as [H3' H4'].
    assert (~ In y [st_of p; p]) as Hn1 by (intros [?|[?|[]]]; congruence).
    assert (~ In (st_of y) [st_of p; p]) as Hn2 by (intros [?|[?|[]]]; [by apply (H4' Hne)|congruence]).
    destruct (HJ y Hy) as [Hsp Hd]. unfold plain_at, spot. rewrite (Ho y Hn1), (Ho _ Hn2). by split.
Qed.

Lemma saved_item_ok f : In (sf_path f) P -> item_ok all_plain (saved_item f).
Proof.
  intros Hp. pose proof (proj1 (keys_distinct _ _ Hp Hp)) as Hne. split.
  - intros n0 HJ. destruct (HJ _ Hp) as [Hs Hd]. cbn [saved_item it_run it_keys it_done]. unfold restore_file, back.
    destruct (sf_saved f) as [[[body mode] uid]|].
    + eapply leaves_mono; [by apply (write_as_spec _ body mode uid n0)|done|]. intros r n Hput.
      split; [by eapply put_plain|]. pose proof Hput as (Ho & _ & Hr). split; [done|]. destruct r; [|done].
      destruct Hr as (x & Hx & Hk & Hb & Hm). by exists x.
    + intros d <-.
      assert (forall d1 r, remove_file (sf_path f) d = (r, d1) ->
        (nodes d1 = nodes d /\ match r with Ok _ => False | Err (Io NotFound) => nodes d !! sf_path f = None | Err _ => True end)
        \/ (r = Ok tt /\ nodes d1 = delete (sf_path f) (nodes d))) as Hrm.
      { intros d1 r. unfold remove_file, syscall. destruct (plan d) as [|[] p0]; try (intros [= <- <-]; by left).
        all: destruct (nodes d !! sf_path f) as [x|] eqn:Ex; [|intros [= <- <-]; by left].
        all: rewrite bool_decide_eq_false_2 by (by apply Hd); intros [= <- <-]; by right. }
      assert (forall n', n' = delete (sf_path f) (nodes d) -> all_plain n') as Hdel.
      { intros n' ->. intros y Hy. destruct (HJ y Hy) as [Hsy Hdy]. split; intros x Hx.
        - apply Hsy. by rewrite lookup_delete_Some in Hx; destruct Hx.
        - apply Hdy. by rewrite lookup_delete_Some in Hx; destruct Hx. }
      destruct (remove_file (sf_path f) d) as [r d1] eqn:Er. destruct (Hrm d1 r eq_refl) as [[Hn Hc]|[-> Hn]].
      * destruct r as [[]|[|[]|]]; cbn; rewrite ?Hn; try done.
      * cbn. split; [by apply Hdel|]. rewrite Hn. split; [|apply lookup_delete_eq].
        intros k Hk. apply lookup_delete_ne. intros <-. apply Hk. right. by left.
  - intros n n' Heq. cbn [saved_item it_keys it_done] in *. unfold back, file_is.
    assert (n' !! sf_path f = n !! sf_path f) as -> by (apply Heq; right; by left). done.
Qed.

Lemma mode_item_ok e : In (fst e) P -> item_ok all_plain (mode_item e).
Proof.
  intros Hp. pose proof (proj1 (keys_distinct _ _ Hp Hp)) as Hne. split; [|done].
  intros n0 HJ. destruct (HJ _ Hp) as [Hs Hd]. cbn [mode_item it_run it_keys it_done]. unfold restore_mode.
  assert (forall n, n = n0 -> all_plain n /\ same_off (keys_of (fst e)) n0 n /\ True) as Hstay by (by intros n ->).
  eapply leaves_bind with (Q1 := fun _ n => n = n0); [by apply leaves_look|].
  intros [[body|err] x]; [|apply leaves_fail; intros n Hn; by apply Hstay].
  case_bool_decide; [apply leaves_ret; intros n Hn; by apply Hstay|].
  destruct x as [x|]; [|apply leaves_fail; intros n Hn; by apply Hstay].
  eapply leaves_mono; [by apply write_as_spec|done|]. intros r n Hput. split; [by eapply put_plain|].
  split; [by destruct Hput|]. by destruct r.
Qed.
End Snapshot.

Lemma restore_config_Ok c d d' :
  NoDup (config_keys c) -> all_plain (config_paths c) (nodes d) -> restore_config c d = (Ok tt, d') ->
  Forall (fun f => back f (nodes d')) (cs_files c) /\ same_off (config_keys c) (nodes d) (nodes d').
Proof.
  intros Hnd HJ Hr. unfold restore_config in Hr. apply bind_Ok in Hr as (first & d1 & Ha & Hr).
  destruct first; [done|]. injection Hr as <-.
  set (items := List.map saved_item (cs_files c) ++ List.map mode_item (cs_journal_modes c)).
  assert (List.map it_run items = List.map restore_file (cs_files c)
    ++ List.map (fun '(config, mode) => restore_mode config mode) (cs_journal_modes c)) as Hrun.
  { unfold items. rewrite map_app, !map_map. f_equal. apply map_ext. by intros [k m]. }
  assert (List.concat (List.map it_keys items) = config_keys c) as Hkeys.
  { unfold items, config_keys, config_paths. by rewrite !map_app, !map_map. }
  rewrite <- Hrun in Ha. rewrite <- Hkeys in *.
  destruct (attempt_each_Ok (all_plain (config_paths c)) items None d d1) as (_ & _ & Hall & Hoff); try done.
  - apply List.Forall_forall. unfold items. intros i Hi. rewrite Hkeys in Hnd. apply in_app_iff in Hi as [Hi|Hi].
    + apply in_map_iff in Hi as (f & <- & Hf). apply saved_item_ok; [done|]. apply in_app_iff. left. by apply in_map.
    + apply in_map_iff in Hi as (e & <- & He). apply mode_item_ok; [done|]. apply in_app_iff. right. by apply in_map.
  - split; [|done]. apply List.Forall_forall. intros f Hf. rewrite List.Forall_forall in Hall.
    apply (Hall (saved_item f)). apply in_app_iff. left. by apply in_map.
Qed.
End Restore.

(** ** The binary *)

Section Binary.
Context `{Watcher, !Machine, Process} (sha256 : bytes -> list Z).

Abbreviation in_of path := (Fs.with_extension path "incoming").

Lemma copy_in_spec src binary x n0 :
  in_of binary <> binary -> plain_at binary (in_of binary) n0 ->
  n0 !! src = Some x -> f_kind x = RegularFile -> src <> in_of binary -> src <> binary ->
  leaves (fun n => n = n0) (nodesetup.copy src (in_of binary) ;;; set_permissions (in_of binary) 0x1ED ;;; rename (in_of binary) binary)
    (put binary (in_of binary) n0 (fun y => f_body y = f_body x)).
Proof.
  intros Hne [Hs Hd] Hx Hk Hsrc Hsrc'. set (W := working binary (in_of binary) n0).
  assert (forall n, same_off [in_of binary; binary] n0 n -> read n src = Ok (f_body x)) as Hread.
  { intros n Ho. assert (n !! src = Some x) as Hn by (rewrite Ho; [done|intros [|[|[]]]; congruence]).
    unfold read. rewrite (resolve_file _ _ _ x), Hn by congruence. by rewrite bool_decide_eq_true_2. }
  apply leaves_bind with (Q1 := fun _ => W (fun y => f_body y = f_body x)).
  - unfold nodesetup.copy. apply leaves_bind with (Q1 := fun r n => n = n0 /\ exists mode, r = Ok mode).
    { apply leaves_look. intros n ->. rewrite (Hread n0) by done. split; [done|]. by eexists. }
    intros r. apply leaves_given. intros [mode ->].
    apply leaves_bind with (Q1 := fun _ => W (fun _ => True)); [by apply put_open|]. intros _.
    apply leaves_bind with (Q1 := fun _ => W (fun _ => True)); [by apply put_through|]. intros _.
    apply leaves_bind with (Q1 := fun b n => W (fun _ => True) n /\ b = f_body x).
    { apply leaves_look. intros n Hw. split; [done|]. by rewrite (Hread n) by apply Hw. }
    intros b. apply leaves_given. intros ->. by apply put_through.
  - intros _. apply leaves_bind with (Q1 := fun _ => W (fun y => f_body y = f_body x)); [by apply put_through|].
    intros _. by apply put_rename.
Qed.

Lemma restore_binary_Ok b binary s s' :
  in_of binary <> binary -> plain_at binary (in_of binary) (nodes (s_disk s)) ->
  spot (pb_path b) (nodes (s_disk s)) -> pb_path b <> in_of binary -> pb_path b <> binary ->
  restore_binary sha256 b binary s = (Ok tt, s') ->
  digest sha256 (nodes (s_disk s')) binary = Some (pb_sha256 b)
  /\ same_off [in_of binary; binary] (nodes (s_disk s)) (nodes (s_disk s')).
Proof.
  intros Hne Hpl Hsp Hp1 Hp2 Hr. unfold restore_binary in Hr. apply bind_Ok in Hr as (found & s1 & Hf & Hr).
  injection Hf as Hnow <-. destruct found as [now|e]; [|done]. rewrite checked_Ok in Hr. destruct (now =? pb_sha256 b)%string eqn:Eq; [|done]. apply String.eqb_eq in Eq as ->.
  cbn [negb] in Hr. unfold sha256_file in Hnow.
  destruct (read (nodes (s_disk s)) (pb_path b)) as [body|] eqn:Hread; [|done]. injection Hnow as Hsha.
  assert (exists x, nodes (s_disk s) !! pb_path b = Some x /\ f_kind x = RegularFile /\ f_body x = body) as (x0 & Hx0 & Hk0 & <-).
  { unfold read in Hread. destruct (nodes (s_disk s) !! pb_path b) as [x0|] eqn:E0.
    - pose proof (Hsp x0 E0) as Hk0. rewrite (resolve_file _ _ _ x0), E0, bool_decide_eq_true_2 in Hread by congruence.
      injection Hread as <-. by exists x0.
    - by rewrite (resolve_absent _ _ _ E0) in Hread. }
  pose proof (copy_in_spec (pb_path b) binary x0 (nodes (s_disk s)) Hne Hpl Hx0 Hk0 Hp1 Hp2 (s_disk s) eq_refl) as Hput.
  unfold on_disk in Hr. destruct ((nodesetup.copy _ _ ;;; _) (s_disk s)) as [[[]|[]] d']; try discriminate Hr. injection Hr as <-.
  destruct Hput as (Ho & _ & x & Hx & Hk & Hb). cbn [fst snd] in *. split; [|done].
  unfold digest, sha256_file, read. cbn [s_disk at_disk]. rewrite (resolve_file _ _ _ x), Hx by congruence.
  by rewrite bool_decide_eq_true_2, Hb, Hsha.
Qed.
End Binary.

(** ** A truthful report *)

(** Where rolling back the runtime reaches. *)
Definition swap_roots (s : Swap) : list string :=
  sw_opt s :: Fs.with_extension (sw_opt s) "failed" :: match sw_retired s with Some r => [r] | None => [] end.
Definition under (roots : list string) (k : string) : bool := List.existsb (fun r => below r k) roots.

Lemma within_move src dst : within (fun k => below src k || below dst k) (move src dst).
Proof.
  unfold move. apply within_bind; [done|]. intros [].
  - apply within_syscall. intros n a n' Hf k [Hs Hd]%orb_false_iff. destruct (n !! src) as [x|]; [|done].
    assert (move_tree src dst n !! k = n !! k) as Hmove.
    { unfold move_tree. set (moved := list_to_map _ : gmap string Node).
      destruct (moved !! k) as [y|] eqn:Em.
      { apply moved_lookup in Em as (rel & Hr & -> & _). by rewrite below_rel in Hd. }
      rewrite lookup_union_r by done. destruct (n !! k) as [y|] eqn:En.
      - by apply map_lookup_filter_Some.
      - apply map_lookup_filter_None. by left. }
    destruct (_ || _); [done|]. destruct (n !! dst) as [y|]; [case_bool_decide; [|done]|]; by injection Hf as _ <-.
  - apply within_syscall. intros n a n' Hf k [Hs Hd]%orb_false_iff. destruct (n !! src) as [x|]; [|done].
    assert (src <> k) by (intros <-; by rewrite below_self in Hs).
    assert (dst <> k) by (intros <-; by rewrite below_self in Hd).
    destruct (n !! dst) as [y|]; [case_bool_decide; [done|]|]; injection Hf as _ <-;
      by rewrite lookup_insert_ne, lookup_delete_ne.
Qed.

Lemma within_roll_back s : within (under (swap_roots s)) (roll_back s).
Proof.
  assert (forall p, In p (swap_roots s) -> within (under (swap_roots s)) (ignore_errors (remove_tree p))) as Hrm.
  { intros p Hp. apply within_ignore. apply (tree_within_weaken (below p)); [|apply within_remove_tree].
    intros k Hk. apply existsb_exists. by exists p. }
  assert (forall p q, In p (swap_roots s) -> In q (swap_roots s) ->
    within (under (swap_roots s)) (ignore_errors (move p q))) as Hmv.
  { intros p q Hp Hq. apply within_ignore. eapply tree_within_weaken; [|apply within_move].
    intros k [Hk|Hk]%orb_true_iff; apply existsb_exists; eauto. }
  unfold roll_back. intros d. unfold bind at 1. cbn [look gets].
  destruct (sw_retired s) as [retired|] eqn:Er; [destruct (exists_ (nodes d) retired)|].
  - apply within_bind; [apply Hrm; by left|]. intros _. apply within_bind; [|by intros ?].
    apply Hmv; [|by left]. unfold swap_roots. rewrite Er. right. right. by left.
  - apply within_bind; [apply Hrm; right; by left|]. intros _. apply within_bind; [apply Hmv; [by left|right; by left]|].
    intros [[]|]; [done|]. apply within_bind; [apply Hrm; by left|by intros ?].
  - apply within_bind; [apply Hrm; right; by left|]. intros _. apply within_bind; [apply Hmv; [by left|right; by left]|].
    intros [[]|]; [done|]. apply within_bind; [apply Hrm; by left|by intros ?].
Qed.

Section Report.
Context `{Watcher, !Machine, Process, SerdeJson} (sha256 : bytes -> list Z) (rounds : nat) (policy : Convergence.Policy).

Definition rollback_keys (r : Rollback) (installed : string) : list string :=
  match rb_config r with Some c => config_keys c | None => [] end
  ++ [Fs.with_extension installed "incoming"; installed]
  ++ match rb_binary r with Some b => [pb_path b] | None => [] end.
(** Nothing that is put back is written twice, through a link, or inside the
    trees that roll back moves. *)
Record restorable (r : Rollback) (installed : string) (n : gmap string Node) : Prop := {
  rs_keys : NoDup (rollback_keys r installed);
  rs_config c : rb_config r = Some c -> all_plain (config_paths c) n;
  rs_binary : plain_at installed (Fs.with_extension installed "incoming") n;
  rs_parked b : rb_binary r = Some b -> spot (pb_path b) n;
  rs_apart sw k : rb_swap r = Some sw -> In k (rollback_keys r installed) -> under (swap_roots sw) k = false
}.

Lemma step_nil (p : NodeError -> Problem) m s l s' :
  step p m s = (Ok l, s') -> l = [] -> m s = (Ok tt, s').
Proof.
  unfold step. intros Hs ->. apply bind_Ok in Hs as (r & s1 & Ha & Hr). unfold attempt in Ha.
  destruct (m s) as [[[]|[| |e]] s2]; try done; injection Ha as <- <-; injection Hr as; subst; done.
Qed.

(** The services are restarted and watched, and no file is touched. *)
Lemma step_disk (p : NodeError -> Problem) m s l s' :
  (forall s1, s_disk (snd (m s1)) = s_disk s1) -> step p m s = (Ok l, s') -> s_disk s' = s_disk s.
Proof.
  intros Hm Hs. unfold step in Hs. apply bind_Ok in Hs as (r & s1 & Ha & Hr). injection Hr as _ <-.
  specialize (Hm s). unfold attempt in Ha. destruct (m s) as [[[]|[| |e]] s2]; try done; by injection Ha as _ <-.
Qed.
Lemma restart_noting_disk us s l s' : restart_noting us s = (Ok l, s') -> s_disk s' = s_disk s.
Proof.
  revert s l. induction us as [|u us IH]; intros s l Hr; [by injection Hr as _ <-|]. cbn [restart_noting] in Hr.
  apply bind_Ok in Hr as (p & s1 & Hs & Hr). apply bind_Ok in Hr as (ps & s2 & Hs2 & Hr). injection Hr as _ <-.
  apply IH in Hs2 as ->. eapply step_disk; [|exact Hs]. intros s3. unfold ask. by destruct (control _ _ _).
Qed.
Lemma run_disk program args s : s_disk (snd (nodeinstall.run program args s)) = s_disk s.
Proof.
  unfold nodeinstall.run, nodeinstall.output, bind. destruct (execute _ _) as [[o|[e|]] h]; cbn; [|done..].
  by destruct (o_success o).
Qed.
Lemma reload_disk paths s : s_disk (snd (nodeinstall.reload_units paths s)) = s_disk s.
Proof. unfold nodeinstall.reload_units. destruct (HostPaths.under_prefix paths); [done|apply run_disk]. Qed.

Lemma restart_services_disk r paths s l s' : restart_services r paths s = (Ok l, s') -> s_disk s' = s_disk s.
Proof.
  unfold restart_services. destruct (_ || _ || _); [|by intros [= _ <-]]. intros Hr.
  apply bind_Ok in Hr as (p1 & s1 & Hs1 & Hr). apply bind_Ok in Hr as (p2 & s2 & Hs2 & Hr).
  apply bind_Ok in Hr as (p3 & s3 & Hs3 & Hr). injection Hr as _ <-.
  assert (s_disk s3 = s_disk s2) as ->.
  { destruct (_ || _); [by eapply restart_noting_disk|by injection Hs3 as _ <-]. }
  apply restart_noting_disk in Hs2 as ->. eapply step_disk; [|exact Hs1].
  intros s4. apply reload_disk.
Qed.

Lemma all_plain_same c ks n n' :
  (forall k, In k (config_keys c) -> n' !! k = n !! k) -> ks = config_paths c -> all_plain ks n -> all_plain ks n'.
Proof.
  intros Hsame -> HJ p Hp. destruct (HJ p Hp) as [Hs Hd].
  assert (forall k, In k (keys_of p) -> n' !! k = n !! k) as Hk.
  { intros k Hk. apply Hsame. apply in_concat. exists (keys_of p). split; [by apply in_map|done]. }
  unfold plain_at, spot. rewrite (Hk (Fs.with_extension p "asterism-restore")), (Hk p) by (first [by left | by right; left]). by split.
Qed.

Lemma restore_files_nil r installed s s' :
  restorable r installed (nodes (s_disk s)) -> restore_files sha256 r installed s = (Ok [], s') ->
  (forall c f, rb_config r = Some c -> In f (cs_files c) -> back f (nodes (s_disk s')))
  /\ (forall b, rb_binary r = Some b -> digest sha256 (nodes (s_disk s')) installed = Some (pb_sha256 b))
  /\ (rb_binary r = None -> nodes (s_disk s') !! installed = nodes (s_disk s) !! installed).
Proof.
  intros [Hnd Hc Hb Hpk Hap] Hr. unfold restore_files in Hr.
  apply bind_Ok in Hr as ([] & s1 & H1' & Hr). apply bind_Ok in Hr as (p1 & s2 & H2' & Hr).
  apply bind_Ok in Hr as (p2 & s3 & H3' & Hr). injection Hr as Hp <-. apply app_eq_nil in Hp as [-> ->].
  assert (forall k, In k (rollback_keys r installed) -> nodes (s_disk s1) !! k = nodes (s_disk s) !! k) as Hk1.
  { intros k Hk. destruct (rb_swap r) as [sw|] eqn:Esw; [|by injection H1' as <-].
    pose proof (within_roll_back sw (s_disk s) k (Hap sw k eq_refl Hk)) as Hw.
    unfold on_disk in H1'. destruct (roll_back sw (s_disk s)) as [[[]|[]] d1]; try done. by injection H1' as <-. }
  unfold rollback_keys in *.
  set (inst := [Fs.with_extension installed "incoming"; installed] ++ match rb_binary r with Some b => [pb_path b] | None => [] end) in *.
  apply list.NoDup_app in Hnd as (Hndc & Hdis & Hndb).
  assert (Fs.with_extension installed "incoming" <> installed) as Hne.
  { intros Heq. apply list.NoDup_cons in Hndb as [Hn _]. apply Hn. rewrite Heq. apply list_elem_of_here. }
  assert (forall b, rb_binary r = Some b -> In (pb_path b) inst /\ pb_path b <> Fs.with_extension installed "incoming"
            /\ pb_path b <> installed) as Hpb.
  { intros b Eb. unfold inst in *. rewrite Eb in *. split; [cbn; tauto|].
    apply list.NoDup_cons in Hndb as [Hn1 [Hn2 _]%list.NoDup_cons]. rewrite list_elem_of_In in Hn1, Hn2. cbn in Hn1, Hn2.
    split; intros Heq; [apply Hn1|apply Hn2]; rewrite <- Heq; tauto. }
  assert (match rb_config r with
          | Some c => Forall (fun f => back f (nodes (s_disk s2))) (cs_files c)
          | None => True end
    /\ (forall k, In k inst -> nodes (s_disk s2) !! k = nodes (s_disk s1) !! k)) as [Hfiles Hinst].
  { destruct (rb_config r) as [c|]; [|by injection H2' as <-]. apply step_nil in H2'; [|done].
    unfold on_disk in H2'. destruct (restore_config c (s_disk s1)) as [[[]|[]] d2] eqn:Erc; try done.
    injection H2' as <-. cbn [s_disk at_disk].
    destruct (restore_config_Ok c (s_disk s1) d2 Hndc) as [Hall Hoff]; [|done|].
    - eapply (all_plain_same c); [|done|by apply Hc]. intros k Hk. apply Hk1, in_app_iff. by left.
    - split; [done|]. intros k Hk. apply Hoff. intros Hin. by apply (Hdis k); apply list_elem_of_In. }
  assert (plain_at installed (Fs.with_extension installed "incoming") (nodes (s_disk s2))) as Hb2.
  { unfold plain_at, spot. rewrite !Hinst, !Hk1; [exact Hb|..].
    all: unfold inst; rewrite ?in_app_iff; cbn; tauto. }
  assert ((forall k, ~ In k inst -> nodes (s_disk s3) !! k = nodes (s_disk s2) !! k)
    /\ forall b, rb_binary r = Some b -> digest sha256 (nodes (s_disk s3)) installed = Some (pb_sha256 b)) as [Hoff3 Hdig].
  { destruct (rb_binary r) as [b|]; [|injection H3' as <-; by split]. apply step_nil in H3'; [|done].
    destruct (Hpb b eq_refl) as (Hin & Hn1 & Hn2).
    destruct (restore_binary_Ok sha256 b installed s2 s3 Hne Hb2) as [Hd Ho]; [|done..|].
    { unfold spot. rewrite Hinst, Hk1; [by apply Hpk|by apply in_app_iff; right|done]. }
    split; [|by intros ? [= <-]]. intros k Hk. apply Ho. intros Hk'. apply Hk. unfold inst. cbn in *. tauto. }
  assert (In installed inst) as Hii by (unfold inst; cbn; tauto).
  assert (rb_binary r = None -> nodes (s_disk s3) !! installed = nodes (s_disk s) !! installed) as Hnone.
  { intros En. rewrite En in H3'. injection H3' as <-. rewrite Hinst, Hk1 by (try done; apply in_app_iff; by right). done. }
  split; [|done]. intros c f Ec Hf. rewrite Ec in *. rewrite List.Forall_forall in Hfiles. specialize (Hfiles f Hf).
  assert (nodes (s_disk s3) !! sf_path f = nodes (s_disk s2) !! sf_path f) as Hsame.
  { apply Hoff3. intros Hin. apply (Hdis (sf_path f)); [|by apply list_elem_of_In]. apply list_elem_of_In.
    apply in_concat. exists (keys_of (sf_path f)). split; [|right; by left]. apply in_map, in_app_iff. left. by apply in_map. }
  unfold back, file_is in *. by rewrite Hsame.
Qed.

(** C18. When giving up an update reports the previous installation restored,
    every configuration file it saved is back with its bytes and mode or is
    absent as it was; the installed node binary is the parked one by its digest if
    one was parked, and otherwise is left as it was; and the node, the host's
    Hermes and every worker held one process executing the file that is there for
    the settling time.  This is proved where nothing that is put back is written
    twice, through a link or inside the trees that the roll back moves: a link
    that the service account plants beside a configuration of its home makes the
    report untrue.  The report does not show that the previous runtime is back. *)
Theorem restored_report_is_true r paths installed s rep s' :
  restorable r installed (nodes (s_disk s)) ->
  restore_previous_installation sha256 rounds policy r paths installed s = (Ok rep, s') ->
  rr_outcome rep = Restored ->
  (forall c f, rb_config r = Some c -> In f (cs_files c) -> back f (nodes (s_disk s')))
  /\ match rb_binary r with
     | Some b => digest sha256 (nodes (s_disk s')) installed = Some (pb_sha256 b)
     | None => nodes (s_disk s') !! installed = nodes (s_disk s) !! installed
     end
  /\ exists s1 l, s_disk s1 = s_disk s' /\ proved_at policy s1 (service_targets paths installed (rb_workers r)) l.
Proof.
  intros Hready Hr Hout. unfold restore_previous_installation in Hr.
  apply bind_Ok in Hr as (p1 & s1 & H1' & Hr). apply bind_Ok in Hr as (p2 & s2 & H2' & Hr).
  apply bind_Ok in Hr as (c & s3 & H3' & Hr). injection Hr as <- <-. cbn [rr_outcome] in Hout.
  destruct (p1 ++ p2) as [|x xs] eqn:Ep; [|discriminate Hout].
  apply app_eq_nil in Ep as [-> ->].
  pose proof (restart_services_disk _ _ _ _ _ H2') as Hd2.
  pose proof H3' as Hcv. apply converge_now_Ok in Hcv as (Hd3 & _ & Hl).
  destruct (restore_files_nil _ _ _ _ Hready H1') as (Hf & Hb & Hn).
  rewrite Hd3, Hd2. split; [done|]. split; [destruct (rb_binary r); auto|]. exists s2.
  destruct c as [l|all].
  - exists l. split; [congruence|]. by apply Hl.
  - exfalso. destruct all as [|e all]; [|done]. unfold converge_now in H3'.
    destruct (converge _ _ _ _ _ _) as [res|] eqn:Ec; [|done]. injection H3' as -> _.
    by apply converge_failure_complete in Ec as [? _].
Qed.
End Report.

(** ** A completed update *)

Section Complete.
Context `{Watcher, !Machine, Process, SerdeJson, Tar} (sha256 : bytes -> list Z) (rounds : nat) (policy : Convergence.Policy)
  (parse : bytes -> option Manifest) (request : Request).

Lemma guarded_Completed {E A} g paths (m : Prog E A) a k s e s' :
  guarded sha256 rounds policy g paths m a k s = (Ok (Completed e), s') ->
  exists x s1, m s = (Ok x, s1) /\ k x s1 = (Ok (Completed e), s').
Proof.
  unfold guarded. intros Hg. apply bind_Ok in Hg as (r & s1 & Ha & Hg). destruct r as [x|err].
  - exists x, s1. split; [|done]. unfold attempt in Ha. destruct (m s) as [[y|[| |e']] s2]; try done.
    by injection Ha as -> ->.
  - destruct (a err) as [[code exit] ab]. unfold given_up in Hg. apply bind_Ok in Hg as (d & s2 & _ & Hg). done.
Qed.

Lemma guard_new_update self paths s g s' :
  HostPaths.under_prefix paths = false -> guard_new sha256 true self paths s = (Ok g, s') -> ug_update g = true /\ s' = s.
Proof.
  intros Hp. unfold guard_new. rewrite Hp. cbn [negb andb]. intros Hg. apply bind_Ok in Hg as (b & s1 & Hb & Hg).
  apply bind_Ok in Hg as (c & s2 & Hc & Hg). injection Hg as <- <-. injection Hc as _ <-. split; [done|].
  destruct (sl_handed_over self); [|by injection Hb as _ <-]. apply bind_Ok in Hb as (r & s3 & Hr & Hb). injection Hb as _ <-.
  destruct (sl_current_exe self) as [running|]; [|by injection Hr as _ <-].
  unfold attempt, find_previous, bind, nodeinstall.on_files, gets, checked in Hr.
  destruct (sha256_file _ _ _) as [d|]; [|by injection Hr as _ <-].
  cbn in Hr. destruct (sl_recorded_sha256 self) as [r'|]; [destruct (r' =? d)%string|]; by injection Hr as _ <-.
Qed.
Lemma preflight_reads paths free s u s' : nodeinstall.preflight paths free s = (Ok u, s') -> s' = s.
Proof.
  unfold nodeinstall.preflight, bind, nodeinstall.on_files, gets. destruct (_ =? _)%string; [done|].
  destruct (negb _); [done|]. destruct (_ <? _); [done|]. by intros [= _ <-].
Qed.

(** *** The workers an update displaces *)

(** Of [ws], those whose look says that they are active. *)
Definition active_ones (ws : list ManagedWorker) (looks : list bool) : list ManagedWorker :=
  List.map fst (List.filter snd (List.combine ws looks)).
(** From [s] to [s'] the service manager was asked about each managed worker of the
    registry in turn and nothing else was done; [displaced] are the active ones. *)
Definition sounded (s : Site) (displaced : list ManagedWorker) (s' : Site) : Prop :=
  exists ws looks, managed_workers (s_db s) = Ok ws /\ length looks = length ws
    /\ s_db s' = s_db s /\ s_disk s' = s_disk s
    /\ s_log s' = s_log s ++ List.map (fun e => Observed (mw_unit (fst e)) (snd e)) (List.combine ws looks)
    /\ displaced = active_ones ws looks.

Lemma active_of_looks ws s l s' :
  active_of ws s = (Ok l, s') ->
  exists looks, length looks = length ws /\ s_db s' = s_db s /\ s_disk s' = s_disk s
    /\ s_log s' = s_log s ++ List.map (fun e => Observed (mw_unit (fst e)) (snd e)) (List.combine ws looks)
    /\ l = active_ones ws looks.
Proof.
  revert s l. induction ws as [|w ws IH]; intros s l Ha.
  { injection Ha as <- <-. exists []. by rewrite app_nil_r. }
  cbn [active_of] in Ha. apply bind_Ok in Ha as (b & s1 & Hb & Ha). apply bind_Ok in Ha as (rest & s2 & Hr & Ha).
  injection Ha as <- <-. apply IH in Hr as (looks & Hlen & Hdb & Hd & Hl & ->). unfold ask_active in Hb.
  destruct (is_active (mw_unit w) (s_host s)) as [[b'|[]] h]; try done. injection Hb as -> <-. exists (b :: looks).
  cbn in *. rewrite Hlen, Hdb, Hd, Hl, <- app_assoc. split_and!; try done. by destruct b.
Qed.
Lemma active_workers_sounded paths s l s' :
  HostPaths.under_prefix paths = false -> active_project_workers paths s = (Ok l, s') -> sounded s l s'.
Proof.
  intros Hp. unfold active_project_workers. rewrite Hp. intros Ha. apply bind_Ok in Ha as ([] & s1 & Ho & Ha).
  destruct (registry_opens (s_host s)) as [r h]. injection Ho as _ <-.
  apply bind_Ok in Ha as (m & s2 & Hm & Ha). injection Hm as <- <-. apply bind_Ok in Ha as (ws & s3 & Hw & Ha).
  unfold checked in Hw. destruct (managed_workers _) as [ws'|] eqn:Em in Hw; [|done]. injection Hw as -> <-.
  apply active_of_looks in Ha as (looks & ? & ? & ? & ? & ?). by exists ws, looks.
Qed.

(** *** What an installation that returns has checked *)

Lemma attempt_returns {E F A} (m : Prog E A) s a s' :
  attempt (F := F) m s = (Ok (Ok a), s') -> m s = (Ok a, s').
Proof. unfold attempt. destruct (m s) as [[x|[| |e]] s1]; intros [=]; by subst. Qed.

(** The release [i] names is that of a bundle whose archive agreed with its
    manifest and with the list of checksums. *)
Definition from_verified_bundle (i : nodeinstall.Installed) : Prop :=
  exists n staging b, verify sha256 parse n staging host_platform = Ok b
    /\ nodeinstall.in_version i = mf_version (vb_manifest b)
    /\ nodeinstall.in_revision i = mf_source_revision (vb_manifest b).

(** The only tree that discarding the previous runtime may touch. *)
Definition previous_tree (paths : HostPaths.HostPaths) : option string := retired_in <$> parent (HostPaths.opt_dir paths).

Lemma install_runtime_now_swap b paths s sw s' :
  nodeinstall.install_runtime_now b paths s = (Ok sw, s') -> sw_retired sw = None \/ sw_retired sw = previous_tree paths.
Proof.
  unfold nodeinstall.install_runtime_now. intros Hi. apply bind_Ok in Hi as (u & s1 & _ & Hi).
  apply bind_Ok in Hi as (r & s2 & _ & Hi). unfold nodeinstall.on_runtime in Hi.
  destruct (install_runtime _ _ _ _ _) as [[x|e] d] eqn:E; [|done]. injection Hi as -> _.
  unfold install_runtime in E. unfold previous_tree. destruct (parent (HostPaths.opt_dir paths)) as [dir|]; [|done].
  apply bind_Ok in E as ([] & d1 & _ & E). apply bind_Ok in E as (tree & d2 & _ & E). apply bind_Ok in E as (x & d3 & Hx & E).
  apply bind_Ok in E as ([] & d4 & _ & E). injection E as -> _.
  unfold swap_trees in Hx. apply bind_Ok in Hx as (o & d5 & _ & Hx). apply bind_Ok in Hx as (had & d6 & _ & Hx).
  apply bind_Ok in Hx as ([] & d7 & _ & Hx). destruct (on_tree (move tree _) d7) as [[v|e'] d8].
  - apply bind_Ok in Hx as (o' & d9 & _ & Hx). injection Hx as <- _. destruct had; [by right|by left].
  - destruct (crashed e'); [done|]. apply bind_Ok in Hx as (g & d9 & _ & Hx). by apply bind_Ok in Hx as ([] & d10 & _ & Hx).
Qed.

Lemma install_staged_verified paths staging s i s' :
  nodeinstall.install_staged sha256 parse request paths staging s = (Ok i, s') ->
  from_verified_bundle i /\ (sw_retired (nodeinstall.in_swap i) = None \/ sw_retired (nodeinstall.in_swap i) = previous_tree paths).
Proof.
  unfold nodeinstall.install_staged. intros Hi. apply bind_Ok in Hi as (m & s1 & _ & Hi).
  apply bind_Ok in Hi as ([] & s2 & _ & Hi). apply bind_Ok in Hi as ([] & s3 & _ & Hi).
  apply bind_Ok in Hi as (b & s4 & Hb & Hi). apply bind_Ok in Hi as ([] & s5 & _ & Hi).
  apply bind_Ok in Hi as (sw & s6 & Hsw & Hi). apply mapping_Ok, install_runtime_now_swap in Hsw. unfold nodeinstall.or_drop in Hi.
  apply bind_Ok in Hi as ([x|e] & s7 & Ha & Hi); [|apply bind_Ok in Hi as ([] & s8 & _ & Hi); done].
  injection Hi as -> _. apply attempt_returns, bind_Ok in Ha as (settings & s8 & _ & Ha). injection Ha as <- _.
  unfold nodeinstall.verified in Hb. apply bind_Ok in Hb as (r & s9 & Hr & Hb). injection Hr as <- <-.
  apply mapping_Ok in Hb. unfold checked in Hb. destruct (verify _ _ _ _ _) as [b'|] eqn:Ev; [|done].
  injection Hb as -> _. split; [|exact Hsw]. by exists (nodes (s_disk s3)), staging, b.
Qed.

Lemma install_verified paths s i s' :
  nodeinstall.install sha256 parse request paths s = (Ok i, s') ->
  from_verified_bundle i /\ (sw_retired (nodeinstall.in_swap i) = None \/ sw_retired (nodeinstall.in_swap i) = previous_tree paths).
Proof.
  unfold nodeinstall.install. intros Hi. apply bind_Ok in Hi as ([] & s1 & _ & Hi).
  apply bind_Ok in Hi as (staging & s2 & _ & Hi). unfold nodeinstall.staged in Hi.
  apply bind_Ok in Hi as ([x|e] & s3 & Ha & Hi); apply bind_Ok in Hi as (o & s4 & _ & Hi); [|done].
  injection Hi as -> _. apply attempt_returns in Ha. by eapply install_staged_verified.
Qed.

Lemma commit_elsewhere sw paths k d :
  sw_retired sw = None \/ sw_retired sw = previous_tree paths ->
  (forall r, previous_tree paths = Some r -> below r k = false) -> nodes (snd (commit sw d)) !! k = nodes d !! k.
Proof.
  intros Hsw Hk. unfold commit. destruct (sw_retired sw) as [r|]; [|done]. destruct Hsw as [|Hr]; [done|].
  symmetry in Hr. specialize (Hk r Hr).
  change ((_ ;;; ret tt) d) with (bind (ignore_errors (remove_tree r)) (fun _ => ret tt) d).
  assert (within (below r) (ignore_errors (remove_tree r))) as Hw by apply within_ignore, within_remove_tree.
  specialize (Hw d k Hk). unfold bind. by destruct (ignore_errors (remove_tree r) d) as [[]].
Qed.

End Complete.

(** ** An update on a sample host, and what it can get
    wrong. *)

From S2P Require Import Evolution RuntimeSwapTheorems.
Import RuntimeSwapSamples.

Module UpdateFinishSamples.
Import Codec.
(** A service manager that obeys, and services that run the live files. *)
#[export] Instance obedient : Supervisor := {|
  host := unit;
  control _ _ h := (Ok tt, h);
  is_active _ h := (Ok true, h);
  main_pid _ h := (Ok (Some 2), h);
  healthy _ _ h := (true, h);
  instant _ := 0;
  sleep _ h := h;
  nonce h := ("n"%string, h);
  meanwhile h db := (db, h)
|}.
Definition node_exe : string := "/usr/local/bin/asterism-node".
Definition steady_control : Control := {|
  unit_status u := Some {| us_active_state := Active; us_main_pid := Some (if (u =? NODE_UNIT)%string then 1 else 2) |};
  process_image pid :=
    Some (if pid =? 1 then {| im_path := names node_exe; im_device := 1; im_inode := 1 |}
          else {| im_path := names "/opt/asterism/hermes/.venv/bin/hermes"; im_device := 1; im_inode := 2 |});
  metadata p := Some (if bool_decide (p = names node_exe) then (1, 1) else (1, 2))
|}.
#[export] Instance watcher : Watcher := {|
  watch _ _ _ := steady_control;
  ticks _ i := Z.of_nat i;
  watched h := h
|}.
#[export] Instance machine : Machine := {|
  http_get url h :=
    (Ok [Ok (if ends_with $"manifest.json" (chars url) then $"m"
             else if ends_with $"SHA256SUMS.runtime" (chars url)
             then chars (ar_sha256 (mf_archive manifest) +:+ "  a.tar.gz") else $"x")], h);
  execute _ h := (Ok {| o_success := true; o_stdout := []; o_stderr := [] |}, h);
  statvfs _ _ := Some 8000000000;
  bindable _ _ := true;
  node_health h := (Ok tt, h);
  randomness _ := Some (List.repeat 7 32);
  service_ids _ := Some 7;
  launches _ := Ok tt;
  registry_opens h := (Ok tt, h);
  host_platform := "linux/amd64";
  process_id := 1
|}.
Definition policy : Convergence.Policy := {| deadline := 20; interval := 1; settle := 2 |}.
(** Not a digest, but as long as the bytes are the same it says the same. *)
Definition sum (b : bytes) : list Z := List.map (fun c => Z.of_N (code c)) b.

Definition link (target : string) : Node :=
  {| f_kind := Symlink; f_owner := 0; f_mode := 0x1FF; f_body := chars target |}.
Definition marked (version : string) : Node :=
  file (of_chars (runtimerelease.marker_text
    {| runtimerelease.schema := 1; runtimerelease.version := version; runtimerelease.source_revision := "abc123";
       runtimerelease.platform := "linux/amd64"; runtimerelease.archive_sha256 := of_chars (List.repeat (Ascii.ascii_of_N 48) 64) |})).
Definition binaries : gmap string Node :=
  list_to_map [(node_exe, file "bin2"); ("/usr/local/bin/asterism-node.previous", file "bin1");
               ("/usr/local/bin", folder); ("/proc/self/exe", link node_exe);
               ("/etc/asterism/asterism.env", file "env1"); ("/etc/sudoers.d/asterism-node", file "sudo1")]%string.
Definition site (n : gmap string Node) (p : list Fate) : Site :=
  {| s_db := empty_db; s_disk := {| nodes := n; plan := p |}; s_host := tt; s_log := [] |}.

Definition paths : HostPaths.HostPaths := HostPaths.default_paths.
Definition workers : list ManagedWorker :=
  [{| mw_project_id := "p1"; mw_profile := "p1"; mw_unit := "asterism-hermes@p1.service" |}].
Definition target : TargetRelease := {| tr_version := "v2.0.0"; tr_revision := "abc123" |}.
Definition self : Self :=
  {| sl_handed_over := true; sl_recorded_sha256 := None; sl_current_exe := Some node_exe; sl_release := "v2.0.0" |}.

Definition updated : gmap string Node :=
  <["/opt/asterism/release.json"%string := marked "v2.0.0"]> (before ∪ binaries).

Definition verifying := verify_installation sum 9 policy paths target (of_this_process node_exe "v2.0.0") workers (site updated []).

Lemma verified_installation_agrees_witness :
  exists ev s', verifying = (Ok ev, s') /\ ev_runtime_release ev = "v2.0.0"%string /\ length (ev_services ev) = 3%nat.
Proof.
  destruct verifying as [r s'] eqn:E. destruct r as [ev|e]; [|vm_compute in E; discriminate E].
  exists ev, s'. split; [done|].
  destruct (verified_installation_agrees sum 9 policy paths target (of_this_process node_exe "v2.0.0") workers
              (site updated []) ev s' E) as (_ & _ & _ & (s1 & _ & Hl & _) & _ & _ & Hr & _).
  split; [exact Hr|]. rewrite Hl. reflexivity.
Defined.

(** ** Giving an update up *)

Definition snapshot : ConfigSnapshot :=
  {| cs_files := [{| sf_path := "/etc/asterism/asterism.env"; sf_saved := Some ($"env0", 0x1A0, 0) |};
                  {| sf_path := "/etc/sudoers.d/asterism-node"; sf_saved := None |}];
     cs_journal_modes := [] |}.
Definition parked : PreviousBinary :=
  {| pb_path := "/usr/local/bin/asterism-node.previous"; pb_sha256 := hex (sum $"bin1") |}.
Definition rollback (sw : option Swap) : Rollback :=
  {| rb_swap := sw; rb_config := Some snapshot; rb_binary := Some parked; rb_services_restarted := true;
     rb_workers := workers |}.
Definition restoring (sw : option Swap) (s : Site) := restore_previous_installation sum 9 policy (rollback sw) paths node_exe s.

Lemma sample_restorable : restorable (rollback (Some (the_swap "/opt"))) node_exe (nodes (s_disk (site updated []))).
Proof.
  split.
  - apply (bool_decide_unpack (NoDup (rollback_keys (rollback (Some (the_swap "/opt"))) node_exe))). vm_compute. exact I.
  - intros c [= <-] p Hp. cbn in Hp. destruct Hp as [<-|[<-|[]]]; split; intros x Hx; vm_compute in Hx; by inversion Hx.
  - split; intros x Hx; vm_compute in Hx; by inversion Hx.
  - intros b [= <-] x Hx. vm_compute in Hx. by injection Hx as <-.
  - intros sw k [= <-] Hk. vm_compute in Hk.
    repeat (destruct Hk as [<-|Hk]; [vm_compute; reflexivity|]). done.
Qed.

Lemma restored_report_is_true_witness :
  exists rep s', restoring (Some (the_swap "/opt")) (site updated []) = (Ok rep, s')
    /\ digest sum (nodes (s_disk s')) node_exe = Some (hex (sum $"bin1")).
Proof.
  destruct (restoring (Some (the_swap "/opt")) (site updated [])) as [r s'] eqn:E.
  destruct r as [rep|e]; [|vm_compute in E; discriminate E]. exists rep, s'. split; [done|].
  destruct (restored_report_is_true sum 9 policy (rollback (Some (the_swap "/opt"))) paths node_exe (site updated []) rep s')
    as (_ & Hb & _); [exact sample_restorable|exact E| |exact Hb].
  vm_compute in E. by injection E as <- _.
Defined.

(** ** Completing one *)

Definition request : Request :=
  {| rq_control_plane := ""; rq_version := "v2.0.0"; rq_release_base := "https://releases"; rq_skip_prerequisites := false |}.
Definition host_before : gmap string Node :=
  <["/etc/systemd/system"%string := folder]> (before ∪ binaries).
(** A node with one project, whose worker runs. *)
Definition busy : Site :=
  {| s_db := {| runs := []; run_events := []; run_approvals := []; remote_commands := []; outbox := []; outbox_sequence := 0;
       event_subscriptions := [];
       projects := [{| p_project_id := "p1"; p_workspace_path := "/srv/p1"; p_display_name := "p1"; p_enabled := 1;
         p_created_at := 0; p_metadata := None; p_runtime_endpoint := None; p_runtime_ownership := "managed_container";
         p_hermes_home := None; p_hermes_profile := Some "p1"%string; p_hermes_api_key_ref := None; p_profile_state := "ready";
         p_profile_failure := None; p_credential_id := None; p_model := None; p_suspended_at := None |}] |};
     s_disk := {| nodes := host_before; plan := [] |}; s_host := tt; s_log := [] |}.
Definition updating := run_lifecycle zero_digest 9 policy (fun _ => Some manifest) request true self paths busy.


(** ** What a report does not say *)

(** The new runtime, whose removal is refused, stays live, and the report says
    the previous installation is restored. *)
Definition half_done : gmap string Node := nodes installed ∪ binaries.
Lemma restored_without_the_runtime :
  match restoring (Some (the_swap "/opt")) (site half_done [Fails]) with
  | (Ok rep, s') =>
      rr_outcome rep = Restored
      /\ runtimerelease.reported (nodes (s_disk s')) "/opt/asterism" = "v2.0.0"%string
      /\ launchers (s_disk s') = (NEW, OLD)
  | _ => False
  end.
Proof. vm_compute. by split_and!. Qed.

(** Restoring the journal mode of a configuration in a home of the service
    account writes through a link planted beside it, with the rights of root. *)
Definition planted : gmap string Node :=
  list_to_map [("/var/lib/asterism/hermes/config.yaml", file "database:\n"); 
               ("/var/lib/asterism/hermes/config.asterism-restore", link "/etc/passwd");
               ("/etc/passwd", file "root")]%string.
Lemma restore_writes_through_a_link :
  (f_body <$> nodes (snd (restore_mode "/var/lib/asterism/hermes/config.yaml" $"wal" {| nodes := planted; plan := [] |}))
     !! "/etc/passwd"%string)
  = Some (Policy.set_setting (chars "database:\n") $"database" $"journal_mode" $"wal").
Proof. vm_compute. reflexivity. Qed.
End UpdateFinishSamples.
