(* ===== verification/NodeSetupSamples.v ===== *)
(** * NodeSetupSamples: setting up a sample host, and what it can get wrong. *)
From Stdlib Require Import Lia.
From stdpp Require Import gmap.
From S2P Require Import Prelude Text Json Schema Fs Host Policy Bundle RuntimeSwap RuntimeSwapTheorems HostPaths NodeSetup NodeInstall Profiles ProfileTheorems StagedWrites NodeSetupTheorems UpdateFinishTheorems.
Import RuntimeSwapSamples.
Import UpdateFinishSamples.

Definition home : HostPaths.HostPaths := HostPaths.default_paths.
Definition a_disk (l : list (string * Node)) (p : list Fate) : Disk := {| nodes := list_to_map l; plan := p |}.

(** ** The credential *)

Definition old_host : list (string * Node) :=
  [("/var/lib/asterism/hermes/.codex", folder); ("/var/lib/asterism/hermes/.codex/auth.json", file "token")]%string.
Definition establish (l : list (string * Node)) (p : list Fate) :=
  nodesetup.establish_host_credential (Some 7) home "n1" (a_disk l p).

Lemma host_credential_is_never_lost_witness :
  credential_at (HostPaths.codex_auth home) $"token" (nodes (snd (establish old_host []))).
Proof.
  pose proof (host_credential_is_never_lost (Some 7) "n1" $"token" (a_disk old_host [])) as Hc. cbv zeta in Hc.
  assert (fst (establish old_host []) = Ok nodesetup.Adopted) as E by (vm_compute; reflexivity).
  unfold establish in *. destruct (nodesetup.establish_host_credential _ _ _ _) as [r d']. cbn [fst snd] in *. subst r.
  destruct Hc as [_ [Hc _]]; [|done|exact Hc].
  right. split; [reflexivity|]. exists (file "token"). by repeat split.
Defined.

(** The old name of an adopted credential stays a file of its own name: what is
    written under the canonical name later does not reach it. *)
Lemma adopted_credential_is_not_linked :
  let (r, d) := establish old_host [] in
  r = Ok nodesetup.Adopted
  /\ (f_kind <$> nodes d !! HostPaths.legacy_codex_auth home) = Some RegularFile.
Proof. vm_compute. by split. Qed.

(** A canonical name that is a link to the old one: the credential is copied
    onto itself and emptied. *)
Lemma adoption_through_a_link_empties_the_credential :
  let (r, d) := establish (("/var/lib/asterism/codex/auth.json"%string, link "/var/lib/asterism/hermes/.codex/auth.json") :: old_host) [] in
  r = Ok nodesetup.Adopted
  /\ read (nodes d) (HostPaths.codex_auth home) = Ok []
  /\ read (nodes d) (HostPaths.legacy_codex_auth home) = Ok [].
Proof. vm_compute. by repeat split. Qed.

(** Where linking is refused and the copy is cut short, the next attempt takes
    the empty file for the credential. *)
Lemma interrupted_copy_becomes_the_credential :
  let (_, d) := establish old_host [Goes; Goes; Goes; Fails; Goes; Stops] in
  let (r, d') := nodesetup.establish_host_credential (Some 7) home "n1" {| nodes := nodes d; plan := [] |} in
  r = Ok nodesetup.AlreadyCanonical /\ read (nodes d') (HostPaths.codex_auth home) = Ok [].
Proof. vm_compute. by split. Qed.

(** ** Files *)

Definition settings : nodesetup.Settings := {| nodesetup.hermes_port := 18650; nodesetup.control_plane := "" |}.
Definition installed_host : list (string * Node) :=
  [("/etc/asterism", folder);
   ("/etc/asterism/asterism.env", file (of_chars (unlines (nodesetup.env_lines $"abc" 18642 "/var/lib/asterism"))))]%string.
Definition env_written := nodesetup.write_env_file (Some 7) home settings None (a_disk installed_host []).

Lemma env_writable : writable (HostPaths.env_file home) (nodes (a_disk installed_host [])).
Proof.
  split; [|discriminate|..].
  - exists "/etc/asterism"%string, folder. by repeat split.
  - intros x Hx. vm_compute in Hx. done.
  - intros x Hx. vm_compute in Hx. by injection Hx as <-.
Qed.

Lemma repair_keeps_key_and_port_witness :
  nodesetup.existing_key (nodesetup.text_of (nodes (snd env_written)) (HostPaths.env_file home)) = Some $"abc".
Proof.
  destruct env_written as [r d'] eqn:E.
  destruct (repair_keeps_key_and_port (Some 7) home settings None (a_disk installed_host []) d')
    as (key & Hk & _ & Hsame & _).
  - exact env_writable.
  - by apply ascii_line.
  - done.
  - intros k Hk. vm_compute in Hk. injection Hk as <-. by apply ascii_line.
  - done.
  - vm_compute in E. injection E as <- <-. vm_compute. reflexivity.
  - cbn [snd]. rewrite Hk. f_equal. apply Hsame. vm_compute. reflexivity.
Defined.

(** An environment file that is not text is read as none, and its key is
    replaced by a fresh one. *)
Lemma unreadable_environment_rotates_the_key :
  let old := unlines (nodesetup.env_lines $"abc" 18642 "/var/lib/asterism") ++ [Ascii.ascii_of_N 200] in
  let (r, d) := nodesetup.write_env_file (Some 7) home settings (Some [1; 2])
    (a_disk [("/etc/asterism"%string, folder); ("/etc/asterism/asterism.env"%string, file (of_chars old))] []) in
  r = Ok tt
  /\ nodesetup.existing_key (nodesetup.text_of (nodes d) (HostPaths.env_file home)) = Some $"0102".
Proof. vm_compute. by split. Qed.

Lemma rendered_configuration_is_accepted_witness :
  enforce_runtime_policy "p" (Some (chars (nodesetup.hermes_config home settings "wal"))) false = Some (Ok tt).
Proof. apply (rendered_configuration_is_accepted settings manifest "p"). done. Defined.

(** ** Journal modes *)

Definition hermes_home : string := "/var/lib/asterism/hermes".
Definition hermes_file : string := "/var/lib/asterism/hermes/config.yaml".
Definition old_config : string := of_chars (unlines [$"database:"; $"  journal_mode: delete"; $"approvals:"; $"  mode: manual"]).
Definition config_host : list (string * Node) := [(hermes_home, folder); (hermes_file, file old_config)].

Lemma journal_mode_is_reconciled_witness :
  exists body', read_to_string (nodes (snd (nodeinstall.reconcile_journal_mode (Some 7) hermes_file $"wal" (a_disk config_host [])))) hermes_file = Ok body'
    /\ lookup body' $"database" $"journal_mode" = Some $"wal"
    /\ lookup body' $"approvals" $"mode" = Some $"manual".
Proof.
  destruct (nodeinstall.reconcile_journal_mode (Some 7) hermes_file $"wal" (a_disk config_host [])) as [r d'] eqn:E.
  destruct (journal_mode_is_reconciled (Some 7) hermes_file $"wal" (chars old_config) (a_disk config_host []) d')
    as (body' & Hb & Hm & Hframe & _).
  - split; [|discriminate|..].
    + exists hermes_home, folder. by repeat split.
    + intros x Hx. vm_compute in Hx. done.
    + intros x Hx. vm_compute in Hx. by injection Hx as <-.
  - vm_compute. reflexivity.
  - intros Hin. vm_compute in Hin. intuition discriminate.
  - reflexivity.
  - vm_compute in E. injection E as <- <-. vm_compute. reflexivity.
  - exists body'. cbn [snd]. split; [exact Hb|]. split; [exact Hm|]. rewrite Hframe; [|reflexivity|discriminate].
    vm_compute. reflexivity.
Defined.

(** A link planted in the home of the service account where the configuration is
    staged: root writes the file it leads to, and gives it away. *)
Lemma staged_write_follows_a_link :
  let (r, d) := nodeinstall.reconcile_journal_mode (Some 7) hermes_file $"wal"
    (a_disk (("/var/lib/asterism/hermes/config.asterism-new"%string, link "/etc/shadow")
             :: ("/etc/shadow"%string, file "root") :: config_host) []) in
  r = Ok tt
  /\ (f_owner <$> nodes d !! "/etc/shadow"%string) = Some 7
  /\ (f_body <$> nodes d !! "/etc/shadow"%string) = Some (set_setting (chars old_config) $"database" $"journal_mode" $"wal").
Proof. vm_compute. by repeat split. Qed.

(** ** A tree with a link in it *)

Definition node_tree : list (string * Node) :=
  [("/n", folder); ("/n/identity", folder); ("/n/identity/key", file "k"); ("/n/identity/out", link "/etc/shadow");
   ("/etc/shadow", file "root")]%string.
Lemma given_tree_follows_no_link_witness :
  f_owner <$> nodes (snd (nodesetup.give_tree_to_service_account (Some 7) "/n" (a_disk node_tree []))) !! "/n/identity/out"%string = Some 0.
Proof.
  pose proof (given_tree_follows_no_link (Some 7) "/n" (a_disk node_tree [])) as Hg.
  destruct (nodesetup.give_tree_to_service_account _ _ _) as [r d'].
  destruct Hg as [_ Hg]; [intros x Hx; vm_compute in Hx; by injection Hx as <-|].
  destruct (Hg "/n/identity/out"%string) as [E|(uid & x & _ & _ & E & Hk & _)]; cbn [snd].
  - rewrite E. vm_compute. reflexivity.
  - exfalso. vm_compute in E. injection E as <-. by apply Hk.
Defined.

Lemma key_is_given :
  f_owner <$> nodes (snd (nodesetup.give_tree_to_service_account (Some 7) "/n" (a_disk node_tree []))) !! "/n/identity/key"%string = Some 7.
Proof. vm_compute. reflexivity. Qed.

(** ** Downloading *)

Definition with_archive (name product : string) : Manifest :=
  {| mf_schema := 1; mf_product := product; mf_version := "v2.0.0"; mf_source_revision := "abc123";
     mf_platform := "linux/amd64"; mf_components := []; mf_runtime_image := ""; mf_sqlite_journal_mode := "wal";
     mf_archive := {| ar_name := name; ar_sha256 := ar_sha256 (mf_archive manifest); ar_size_bytes := 1 |};
     mf_installed_size_bytes := 1; mf_install_root := "/opt/asterism" |}.

(** The name of the archive is taken from the manifest as it is: an absolute one
    leaves the staging directory, before anything was verified. *)
Lemma archive_name_leaves_the_staging_directory :
  let m := with_archive "/etc/passwd" "asterism-runtime" in
  let d := a_disk [("/etc/passwd"%string, file "root")] [] in
  accept m "linux/amd64" = Ok tt
  /\ (f_body <$> nodes (s_disk (snd (nodeinstall.download_bundle request m "/opt/.asterism-install.1" (site (nodes d) []))))
       !! "/etc/passwd"%string) = Some $"x".
Proof. vm_compute. by split. Qed.

(** A manifest of another product is reported as a processor that is not
    supported. *)
Lemma other_product_reads_as_other_architecture :
  match nodeinstall.accepted (with_archive "a.tar.gz" "other") (site ∅ []) with
  | (Err (Failed f), _) => fl_code f = UnsupportedArchitecture
  | _ => False
  end.
Proof. vm_compute. reflexivity. Qed.
