(* ===== verification/DeviceCode.v ===== *)
(** * DeviceCode: reading the link and the code out of what the provider's CLI
    prints ([provider.rs]: [strip_ansi], [parse_device_code], [is_user_code],
    [parse_expiry], [read_device_code]). *)
From Stdlib Require Import Lia.
From S2P Require Import Prelude Text.

Module devicecode.

(** Seconds. *)
Definition CODE_TIMEOUT : Z := 45.
Definition DEFAULT_EXPIRY : Z := 15 * 60.

Record DeviceCode : Type := {
  verification_uri : string;
  user_code : string;
  expires_in_seconds : Z
}.
#[export] Instance DeviceCode_eq_dec : EqDecision DeviceCode.
Proof. solve_decision. Defined.

(** ** Colours *)

Definition ESC : Ascii.ascii := Ascii.ascii_of_N 27.
Definition BRACKET : Ascii.ascii := Ascii.ascii_of_N 91.
Definition DASH : Ascii.ascii := Ascii.ascii_of_N 45.

(** Where [strip_ansi] is: copying, after an escape character, inside a CSI
    sequence, or in the rest of the one character another escape consumes. *)
Inductive Mode : Type := Copying | Escaped | InCsi | Consuming.

Fixpoint strip_from (m : Mode) (s : bytes) : bytes :=
  match s with
  | [] => []
  | c :: s' =>
      match m with
      | Copying => if char_eqb c ESC then strip_from Escaped s' else c :: strip_from Copying s'
      | Escaped => strip_from (if char_eqb c BRACKET then InCsi else Consuming) s'
      | InCsi => strip_from (if between 0x40 0x7e c then Copying else InCsi) s'
      | Consuming =>
          if is_continuation c then strip_from Consuming s'
          else if char_eqb c ESC then strip_from Escaped s' else c :: strip_from Copying s'
      end
  end.
Definition strip_ansi (text : bytes) : bytes := strip_from Copying text.

(** ** The code *)

(** [u64::from_str]. *)
Fixpoint u64_digits (acc : Z) (s : bytes) : option Z :=
  match s with
  | [] => Some acc
  | c :: s' =>
      if is_ascii_digit c then
        let v := acc * 10 + (Z.of_N (code c) - 48) in
        if v <? 2 ^ 64 then u64_digits v s' else None
      else None
  end.
Definition parse_u64 (s : bytes) : option Z :=
  match s with
  | [] => None
  | c :: s' =>
      if (code c =? 43)%N then match s' with [] => None | _ => u64_digits 0 s' end
      else u64_digits 0 s
  end.

Definition one_of (cs : bytes) (c : Ascii.ascii) : bool := List.existsb (char_eqb c) cs.

Definition is_user_code (line : bytes) : bool :=
  if negb ((6 <=? length line)%nat && (length line <=? 32)%nat) || negb (List.existsb (char_eqb DASH) line)
  then false
  else
    let groups := split DASH line in
    if (length groups <? 2)%nat then false
    else List.forallb (fun group => negb (bool_decide (group = []))
                                    && List.forallb (fun c => is_ascii_digit c || is_ascii_upper c) group) groups.

(** Products wrap as [u64] does. *)
Definition parse_expiry (plain : bytes) : option Z :=
  match split_once_str $"expires in " plain with
  | None => None
  | Some (_, rest) =>
      match split_whitespace rest with
      | amount :: unit_word :: _ =>
          match parse_u64 amount with
          | None => None
          | Some amount =>
              let unit_word := trim_end_matches (one_of $").,") unit_word in
              if starts_with $"second" unit_word then Some amount
              else if starts_with $"minute" unit_word then Some ((amount * 60) mod 2 ^ 64)
              else if starts_with $"hour" unit_word then Some ((amount * 3600) mod 2 ^ 64)
              else None
          end
      | _ => None
      end
  end.

Definition parse_device_code (text : bytes) : option DeviceCode :=
  let plain := strip_ansi text in
  match List.find (starts_with $"https://") (split_whitespace plain) with
  | None => None
  | Some word =>
      let uri := trim_end_matches (one_of $".,") word in
      match List.find is_user_code (List.map trim (lines plain)) with
      | None => None
      | Some found =>
          Some {| verification_uri := of_chars uri; user_code := of_chars found;
                  expires_in_seconds := default DEFAULT_EXPIRY (parse_expiry plain) |}
      end
  end.

(** ** The two streams *)

(** What [select!] sees next: a line or the end of a stream that is still open,
    a failed read, or the deadline. *)
Inductive Arrival : Type :=
| Line (text : bytes)
| StreamEnd
| ReadFailed (text : string)
| DeadlinePassed.

Definition TIMED_OUT : string :=
  "the provider CLI did not offer a code within " +:+ decimal CODE_TIMEOUT +:+ " seconds".
(** The last line that is not blank, trimmed. *)
Definition last_words (seen : bytes) : string :=
  match List.find (fun line => negb (bool_decide (trim line = []))) (List.rev (lines seen)) with
  | Some line => of_chars (trim line)
  | None => "it printed nothing"
  end.
Definition stopped (seen : bytes) : string :=
  "the provider CLI stopped without offering a code: " +:+ last_words seen.

(** [open] counts the streams that have not ended; [None] is still waiting. *)
Fixpoint read_from (open : nat) (seen : bytes) (arrivals : list Arrival) : option (Result string DeviceCode) :=
  match open with
  | O => Some (Err (stopped seen))
  | S one =>
      match arrivals with
      | [] => None
      | Line text :: rest =>
          let seen := seen ++ text ++ [NL] in
          match parse_device_code seen with
          | Some found => Some (Ok found)
          | None => read_from open seen rest
          end
      | StreamEnd :: rest => read_from one seen rest
      | ReadFailed text :: _ => Some (Err text)
      | DeadlinePassed :: _ => Some (Err TIMED_OUT)
      end
  end.
Definition read_device_code (arrivals : list Arrival) : option (Result string DeviceCode) :=
  read_from 2 [] arrivals.

(** ** What is read *)

Lemma stripped_no_escape m s : ~ In ESC (strip_from m s).
Proof.
  revert m. induction s as [|c s IH]; intros m; [by intros []|].
  destruct m; cbn [strip_from]; try apply IH.
  - destruct (char_eqb c ESC) eqn:E; [apply IH|]. intros [->|Hin]; [|by apply (IH Copying)].
    by rewrite char_eqb_refl in E.
  - destruct (is_continuation c); [apply IH|]. destruct (char_eqb c ESC) eqn:E; [apply IH|].
    intros [->|Hin]; [|by apply (IH Copying)]. by rewrite char_eqb_refl in E.
Qed.

Lemma strip_plain s : ~ In ESC s -> strip_from Copying s = s.
Proof.
  induction s as [|c s IH]; intros Hs; [done|]. cbn [strip_from].
  destruct (char_eqb c ESC) eqn:E; [apply char_eqb_eq in E as ->; destruct Hs; by left|].
  f_equal. apply IH. intros H. apply Hs. by right.
Qed.

(** A select-graphic-rendition sequence: what terminals read as a colour. *)
Definition colour (params : bytes) : bytes := ESC :: BRACKET :: params ++ $"m".
Definition parameter (c : Ascii.ascii) : bool := negb (between 0x40 0x7e c).

Lemma strip_csi params rest :
  List.forallb parameter params = true ->
  strip_from InCsi (params ++ $"m" ++ rest) = strip_from Copying rest.
Proof.
  induction params as [|c params IH]; cbn [List.forallb app strip_from].
  - done.
  - intros [Hc Hp]%andb_true_iff. unfold parameter in Hc. apply negb_true_iff in Hc as ->. auto.
Qed.

Lemma strip_colour before params rest :
  List.forallb parameter params = true -> ~ In ESC before ->
  strip_ansi (before ++ colour params ++ rest) = strip_ansi (before ++ rest).
Proof.
  intros Hp. unfold strip_ansi. induction before as [|c before IH]; intros Hb; cbn [app].
  - cbn [colour app strip_from]. rewrite char_eqb_refl. cbn [strip_from]. rewrite char_eqb_refl.
    by rewrite <- app_assoc, strip_csi.
  - cbn [strip_from]. destruct (char_eqb c ESC) eqn:E; [apply char_eqb_eq in E as ->; destruct Hb; by left|].
    f_equal. apply IH. intros H. apply Hb. by right.
Qed.

(** Where the CLI puts its colours does not matter: a colour sequence anywhere
    in the text is read as if it were not there, the code included. *)
Theorem colours_do_not_matter before params rest :
  List.forallb parameter params = true -> ~ In ESC before ->
  parse_device_code (before ++ colour params ++ rest) = parse_device_code (before ++ rest).
Proof. intros. unfold parse_device_code. by rewrite strip_colour. Qed.

Definition code_char (c : Ascii.ascii) : bool := is_ascii_digit c || is_ascii_upper c || char_eqb DASH c.

(** What holds of every piece holds of the whole, separators apart. *)
Lemma split_from_all (p : Ascii.ascii -> bool) d acc s :
  (forall g, In g (split_from d acc s) -> List.forallb p g = true) ->
  List.forallb (fun c => p c || char_eqb d c) s = true.
Proof.
  revert acc. induction s as [|c s IH]; intros acc Hg; [done|]. cbn [split_from] in Hg. cbn [List.forallb].
  apply andb_true_iff. destruct (char_eqb c d) eqn:E.
  - apply char_eqb_eq in E as ->. rewrite char_eqb_refl, orb_true_r. split; [done|].
    apply (IH []). intros g Hin. apply Hg. by right.
  - split; [|by apply (IH (acc ++ [c]))].
    assert (exists g, In g (split_from d (acc ++ [c]) s) /\ In c g) as (g & Hin & Hc).
    { clear. generalize (acc ++ [c]) (in_or_app acc [c] c (or_intror (or_introl eq_refl))). clear acc.
      induction s as [|c' s IH]; intros a Ha; cbn [split_from]; [exists a; cbn; auto|].
      destruct (char_eqb c' d); [exists a; cbn; auto|]. apply IH, in_or_app. by left. }
    specialize (Hg g Hin). rewrite forallb_forall in Hg. by rewrite (Hg c Hc).
Qed.

Lemma user_code_chars line :
  is_user_code line = true -> List.forallb code_char line = true /\ (6 <= length line <= 32)%nat.
Proof.
  unfold is_user_code. destruct (negb _ || _) eqn:E; [done|]. apply orb_false_iff in E as [E _].
  apply negb_false_iff, andb_true_iff in E as [H1%Nat.leb_le H2%Nat.leb_le].
  destruct (_ <? 2)%nat; [done|]. intros Hall. split; [|lia].
  apply (split_from_all (fun c => is_ascii_digit c || is_ascii_upper c) DASH []).
  intros g Hin. rewrite forallb_forall in Hall. specialize (Hall g Hin). by apply andb_true_iff in Hall as [_ ?].
Qed.

Lemma split_ws_chars acc s w c : In w (split_ws_from acc s) -> In c w -> In c acc \/ In c s.
Proof.
  revert acc w. remember (length s) as n eqn:Hn. assert (length s <= n)%nat as Hl by lia. clear Hn.
  revert s Hl. induction n as [|n IH]; intros s Hl acc w Hw Hc.
  - destruct s; [|cbn in Hl; lia]. cbn in Hw. unfold piece in Hw. destruct acc; [done|].
    destruct Hw as [<-|[]]. by left.
  - destruct s as [|a s]; [cbn in Hw; unfold piece in Hw; destruct acc; [done|]; destruct Hw as [<-|[]]; by left|].
    cbn [split_ws_from] in Hw. cbn in Hl.
    assert (forall r, (length r <= length s)%nat -> (forall x, In x r -> In x (a :: s)) ->
              In w (piece acc ++ split_ws_from [] r) -> In c acc \/ In c (a :: s)) as Hsep.
    { intros r Hr Hsub [Hp|Hp]%in_app_iff.
      - unfold piece in Hp. destruct acc; [done|]. destruct Hp as [<-|[]]. by left.
      - destruct (IH r ltac:(lia) [] w Hp Hc) as [[]|Hin]. right. auto. }
    assert (forall acc', (forall x, In x acc' -> In x acc \/ x = a) ->
              In w (split_ws_from acc' s) -> In c acc \/ In c (a :: s)) as Hgo.
    { intros acc' Ha Hp. destruct (IH s ltac:(lia) acc' w Hp Hc) as [Hin|Hin]; [|right; by right].
      destruct (Ha c Hin) as [?| ->]; [by left|right; by left]. }
    assert (forall x, In x (acc ++ [a]) -> In x acc \/ x = a) as Hsnoc.
    { intros x [Hx|[<-|[]]]%in_app_iff; auto. }
    repeat (case_match; try (eapply Hsep; [| |eassumption]; cbn; [lia|tauto]); try (eapply Hgo; eassumption)).
Qed.

Lemma drop_while_In f s (c : Ascii.ascii) : In c (drop_while f s) -> In c s.
Proof. induction s as [|a s IH]; [done|]. cbn. destruct (f a); [|done]. intros H. right. auto. Qed.

(** What a person is shown is clean: the code is a line of its own of what the
    CLI printed, six to thirty-two upper-case letters, digits and dashes, the
    link is an https link, and no terminal escape is left in either. *)
Theorem parsed_code_is_clean text d :
  parse_device_code text = Some d ->
  (exists line, In line (lines (strip_ansi text)) /\ chars (user_code d) = trim line)
  /\ List.forallb code_char (chars (user_code d)) = true
  /\ (6 <= length (chars (user_code d)) <= 32)%nat
  /\ ~ In ESC (chars (verification_uri d))
  /\ exists word, In word (split_whitespace (strip_ansi text)) /\ starts_with $"https://" word = true
                  /\ chars (verification_uri d) = trim_end_matches (one_of $".,") word.
Proof.
  unfold parse_device_code. destruct (List.find (starts_with _) _) as [word|] eqn:Ew; [|done].
  destruct (List.find is_user_code _) as [found|] eqn:Ef; [|done]. intros [= <-]. cbn.
  rewrite !of_chars_chars. apply find_some in Ew as [Hw Hs]. apply find_some in Ef as [Hf Hu].
  apply in_map_iff in Hf as (line & Ht & Hl). destruct (user_code_chars _ Hu) as [Hc Hlen].
  split; [by exists line|]. split; [done|]. split; [done|]. split; [|by exists word].
  intros Hin. assert (In ESC word) as Hin'.
  { unfold trim_end_matches in Hin. apply in_rev in Hin. apply in_rev.
    by apply drop_while_In in Hin. }
  destruct (split_ws_chars [] (strip_ansi text) word ESC Hw Hin') as [[]|H].
  by apply (stripped_no_escape Copying text).
Qed.

(** One stream that ends is not the end of the output: nothing is reported while
    the other is open, and what is reported is what the lines so far say. *)
Lemma read_from_Ok open seen arrivals d :
  read_from open seen arrivals = Some (Ok d) ->
  exists shown, parse_device_code (seen ++ shown) = Some d.
Proof.
  revert open seen. induction arrivals as [|a arrivals IH]; intros [|open] seen; cbn [read_from]; try done.
  destruct a as [text| | |]; try done.
  - destruct (parse_device_code (seen ++ text ++ [NL])) as [found|] eqn:E.
    + intros [= <-]. by eexists.
    + intros (shown & H)%IH. exists ((text ++ [NL]) ++ shown). by rewrite app_assoc.
  - apply IH.
Qed.

Module Samples.
Definition banner : bytes :=
  $"1. Open this link" ++ [NL] ++ colour $"94" ++ $"https://auth.example.com/device" ++ colour $"0" ++ [NL]
  ++ $"2. Enter this code (expires in 15 minutes)" ++ [NL] ++ $"   " ++ colour $"94" ++ $"RCB8-M9COT" ++ colour $"0" ++ [NL].
Definition parsed : DeviceCode :=
  {| verification_uri := "https://auth.example.com/device"; user_code := "RCB8-M9COT"; expires_in_seconds := 900 |}.

Example banner_is_read : parse_device_code banner = Some parsed.
Proof. vm_compute. reflexivity. Qed.
(** A stream that ends early, then the banner, line by line. *)
Example banner_is_read_in_lines :
  read_device_code (StreamEnd :: List.map Line (lines banner)) = Some (Ok parsed)
  /\ read_device_code [Line $"no network"; StreamEnd; StreamEnd]
     = Some (Err "the provider CLI stopped without offering a code: no network"%string).
Proof. split; vm_compute; reflexivity. Qed.

Lemma parsed_code_is_clean_witness : ~ In ESC (chars (verification_uri parsed)).
Proof. apply (parsed_code_is_clean banner parsed). vm_compute. reflexivity. Defined.
Lemma colours_do_not_matter_witness :
  parse_device_code ($"AAAA-BBBB " ++ colour $"94" ++ $"x") = parse_device_code ($"AAAA-BBBB " ++ $"x").
Proof. apply colours_do_not_matter; [reflexivity|]. cbn. intuition discriminate. Defined.
End Samples.
End devicecode.
