(* ===== verification/Provider.v ===== *)
(** * Provider: logging in to the model provider, one credential at a time
    ([provider.rs]).

    The state is what [Provider] holds behind its locks, the logins' child
    processes, and the disk.  A program takes one critical section after the
    other; before each of them the tasks that run beside it may have acted
    ([m_meanwhile]): a login's process ends, a reader task records the code its
    process printed or reports that there was none, a finished run reports its
    grant dead, Hermes writes to the disk.  Commands of the Control Plane come
    one after the other from one task.  Log lines are left out. *)
From stdpp Require Import gmap.
From S2P Require Import Prelude Text Fs Identifiers CredentialSwap Credentials CredentialHomes Schema Inventory.
From S2P Require Import Host DeviceCode.

Module provider.
Import devicecode.

Module ProviderState.
Inductive State : Type := Unavailable | Required | Authorizing | Authorized | Failed.
Definition as_str (st : State) : string :=
  match st with
  | Unavailable => "unavailable"
  | Required => "required"
  | Authorizing => "authorizing"
  | Authorized => "authorized"
  | Failed => "failed"
  end.
End ProviderState.

(** ** Data *)

Record ProviderPaths : Type := { hermes_home : string; hermes_binary : string }.
Definition on_this_host : ProviderPaths :=
  {| hermes_home := "/var/lib/asterism/hermes"; hermes_binary := "/opt/asterism/hermes/.venv/bin/hermes" |}.
Definition credential (paths : ProviderPaths) : string := path_join (hermes_home paths) "auth.json".
Definition holds_credential (paths : ProviderPaths) (n : gmap string Node) : bool := exists_ n (credential paths).

Inductive Delivery : Type := Pending | Sent (command_id : string) (deadline : Z) | Acknowledged.
#[export] Instance Delivery_eq_dec : EqDecision Delivery.
Proof. solve_decision. Defined.
Inductive Phase : Type := Producing | Waiting (code : DeviceCode) (delivery : Delivery).

(** [child] is the index of the login's process. *)
Record Attempt : Type := {
  child : nat;
  credential_id : string;
  generation : Z;
  command_id : option string;
  phase : Phase;
  reauth : option string
}.

Record FinishedReauthorization : Type := {
  fr_credential_id : string;
  fr_staging : string;
  fr_generation : Z
}.

Record AuthorizationRefusal : Type := { rf_code : string; rf_message : string }.
Definition refused (code message : string) : AuthorizationRefusal := {| rf_code := code; rf_message := message |}.
Definition in_progress (same_credential : bool) : AuthorizationRefusal :=
  refused "authorization_in_progress"
    (if same_credential then "this credential is already waiting for a browser approval"
     else "another authorization is already waiting for a browser approval on this Node").
Definition authorization_failed (message : string) : AuthorizationRefusal := refused "authorization_failed" message.

Record CredentialRefusal : Type := { cf_code : string; cf_message : string }.
Definition CredentialRefusal_new (code message : string) : CredentialRefusal :=
  {| cf_code := code; cf_message := message |}.

(** ** The processes *)

(** A killed process was running when the kill was sent. *)
Inductive ChildState : Type := ChildRunning | ChildEnded | ChildKilled.
#[export] Instance ChildState_eq_dec : EqDecision ChildState.
Proof. solve_decision. Defined.
Record Child : Type := {
  ch_arguments : list string;
  ch_environment : list (string * string);
  ch_credential_id : string;
  ch_generation : Z;
  ch_state : ChildState
}.
Definition child_in (st : ChildState) (c : Child) : Child :=
  {| ch_arguments := ch_arguments c; ch_environment := ch_environment c;
     ch_credential_id := ch_credential_id c; ch_generation := ch_generation c; ch_state := st |}.

Definition isolate (home : string) : list (string * string) :=
  [("HERMES_HOME", home); ("HOME", home); ("CODEX_HOME", path_join home ".codex");
   ("XDG_CONFIG_HOME", home); ("XDG_DATA_HOME", home); ("XDG_STATE_HOME", home);
   ("XDG_CACHE_HOME", path_join home "cache"); ("PYTHONUNBUFFERED", "1")]%string.
Definition login_arguments (provider_id credential_id : string) : list string :=
  ["auth"; "add"; provider_id; "--type"; "oauth"; "--label"; credential_id; "--no-browser"]%string.

(** ** The state *)

(** What is left of a reader task whose process printed no code. *)
Inductive Task : Type :=
| Settling (credential_id : string)
| Marking (credential_id : string) (st : CredentialState).

(** [pv_generation] counts the increments of the [AtomicU64]. *)
Record Provider : Type := {
  pv_attempt : option Attempt;
  pv_registry : list Credential;
  pv_finished : option FinishedReauthorization;
  pv_generation : Z;
  pv_children : list Child;
  pv_tasks : list Task;
  pv_disk : Disk;
  pv_step : nat
}.

Definition on_attempt (f : option Attempt -> option Attempt) (p : Provider) : Provider :=
  {| pv_attempt := f (pv_attempt p); pv_registry := pv_registry p; pv_finished := pv_finished p;
     pv_generation := pv_generation p; pv_children := pv_children p; pv_tasks := pv_tasks p;
     pv_disk := pv_disk p; pv_step := pv_step p |}.
Definition on_credentials (f : list Credential -> list Credential) (p : Provider) : Provider :=
  {| pv_attempt := pv_attempt p; pv_registry := f (pv_registry p); pv_finished := pv_finished p;
     pv_generation := pv_generation p; pv_children := pv_children p; pv_tasks := pv_tasks p;
     pv_disk := pv_disk p; pv_step := pv_step p |}.
Definition on_finished (f : option FinishedReauthorization -> option FinishedReauthorization) (p : Provider) : Provider :=
  {| pv_attempt := pv_attempt p; pv_registry := pv_registry p; pv_finished := f (pv_finished p);
     pv_generation := pv_generation p; pv_children := pv_children p; pv_tasks := pv_tasks p;
     pv_disk := pv_disk p; pv_step := pv_step p |}.
Definition bump_generation (p : Provider) : Provider :=
  {| pv_attempt := pv_attempt p; pv_registry := pv_registry p; pv_finished := pv_finished p;
     pv_generation := pv_generation p + 1; pv_children := pv_children p; pv_tasks := pv_tasks p;
     pv_disk := pv_disk p; pv_step := pv_step p |}.
Definition on_children (f : list Child -> list Child) (p : Provider) : Provider :=
  {| pv_attempt := pv_attempt p; pv_registry := pv_registry p; pv_finished := pv_finished p;
     pv_generation := pv_generation p; pv_children := f (pv_children p); pv_tasks := pv_tasks p;
     pv_disk := pv_disk p; pv_step := pv_step p |}.
Definition on_tasks (f : list Task -> list Task) (p : Provider) : Provider :=
  {| pv_attempt := pv_attempt p; pv_registry := pv_registry p; pv_finished := pv_finished p;
     pv_generation := pv_generation p; pv_children := pv_children p; pv_tasks := f (pv_tasks p);
     pv_disk := pv_disk p; pv_step := pv_step p |}.
Definition with_disk (d : Disk) (p : Provider) : Provider :=
  {| pv_attempt := pv_attempt p; pv_registry := pv_registry p; pv_finished := pv_finished p;
     pv_generation := pv_generation p; pv_children := pv_children p; pv_tasks := pv_tasks p;
     pv_disk := d; pv_step := pv_step p |}.
Definition next_step (p : Provider) : Provider :=
  {| pv_attempt := pv_attempt p; pv_registry := pv_registry p; pv_finished := pv_finished p;
     pv_generation := pv_generation p; pv_children := pv_children p; pv_tasks := pv_tasks p;
     pv_disk := pv_disk p; pv_step := S (pv_step p) |}.

(** The value of the [AtomicU64]. *)
Definition current_generation (p : Provider) : Z := pv_generation p mod 2 ^ 64.

Definition is_running (pid : nat) (p : Provider) : bool :=
  match pv_children p !! pid with
  | Some c => bool_decide (ch_state c = ChildRunning)
  | None => false
  end.
(** [start_kill], and what dropping a [Child] does. *)
Definition kill (pid : nat) (p : Provider) : Provider :=
  if is_running pid p then on_children (fun l => alter (child_in ChildKilled) pid l) p else p.

(** [attempt_in_flight]. *)
Definition in_flight (p : Provider) : option string :=
  match pv_attempt p with
  | Some a => if is_running (child a) p then Some (credential_id a) else None
  | None => None
  end.

(** [get_mut] and an assignment to what it found. *)
Definition amend (id : string) (f : Credential -> Credential) (l : list Credential) : list Credential :=
  default l (update_first (fun c => (cr_id c =? id)%string) f l).
Definition renamed (label : string) (now : Z) (c : Credential) : Credential :=
  {| cr_id := cr_id c; cr_provider_id := cr_provider_id c; cr_auth_method := cr_auth_method c;
     cr_label := label; cr_state := cr_state c; cr_storage := cr_storage c;
     cr_pool_entry := cr_pool_entry c; cr_generation := cr_generation c;
     cr_created_at := cr_created_at c; cr_updated_at := now |}.
(** [saturating_add] on [u64]. *)
Definition replaced (now : Z) (c : Credential) : Credential :=
  {| cr_id := cr_id c; cr_provider_id := cr_provider_id c; cr_auth_method := cr_auth_method c;
     cr_label := cr_label c; cr_state := Authorized; cr_storage := cr_storage c;
     cr_pool_entry := cr_pool_entry c; cr_generation := Z.min (cr_generation c + 1) (2 ^ 64 - 1);
     cr_created_at := cr_created_at c; cr_updated_at := now |}.

(** What happens around one critical section: what the tasks beside it did, the
    readings of the clock (seconds), random bytes, a uuid, why the login could
    not be spawned, whether it offered its output, and how the CLI answered. *)
Inductive Event : Type :=
| ChildEnds (pid : nat)
| CodePrinted (pid : nat) (code : DeviceCode)
| NoCodePrinted (pid : nat)
| TaskRuns (i : nat) (now : Z)
| GrantDead (credential_id : string) (generation now : Z)
| DiskChanges (n : gmap string Node).

Record Moment : Type := {
  m_meanwhile : list Event;
  m_clock : nat -> Z;
  m_random : list Z;
  m_nonce : string;
  m_spawn : option string;
  m_pipes : bool;
  m_cli : Result string (bool * bytes * bytes)
}.

Inductive ProviderError : Type :=
| BadId (e : IdError)
| BadLabel (e : LabelError)
| CliFailed (text : string)
| Refusing (message : string).

Definition label_error_text (e : LabelError) : string :=
  match e with
  | LabelLength => "a label must be between 1 and 64 characters"
  | LabelControl => "a label may not hold control characters"
  end.

Definition new_credential_id (bytes8 : list Z) : string :=
  "cred-" +:+ of_chars (List.concat (List.map (hex_fixed 2) bytes8)).

Definition unsettled (st : CredentialState) : CredentialState :=
  match st with Authorizing => AttemptFailed | other => other end.

(** A program over the provider. *)
Definition P (E A : Type) : Type := M (Outcome E) Provider A.
Definition throw {E A} (e : E) : P E A := fail (Failed e).
Definition mapping {E F A} (f : E -> F) (m : P E A) : P F A :=
  fun s => match m s with
           | (Ok a, s') => (Ok a, s')
           | (Err Ended, s') => (Err Ended, s')
           | (Err Unfinished, s') => (Err Unfinished, s')
           | (Err (Failed e), s') => (Err (Failed (f e)), s')
           end.
Definition attempting {E F A} (m : P E A) : P F (Result E A) :=
  fun s => match m s with
           | (Ok a, s') => (Ok (Ok a), s')
           | (Err Ended, s') => (Err Ended, s')
           | (Err Unfinished, s') => (Err Unfinished, s')
           | (Err (Failed e), s') => (Ok (Err e), s')
           end.
Definition checked {E F A} (f : E -> F) (r : Result E A) : P F A :=
  match r with Ok a => ret a | Err e => throw (f e) end.
Definition on_disk {A} (m : M FsError Disk A) : P FsError A :=
  fun s => let (r, d) := m (pv_disk s) in
           (match r with
            | Ok a => Ok a
            | Err Crashed => Err Ended
            | Err e => Err (Failed e)
            end, with_disk d s).
(** An error that is dropped. *)
Definition quietly {E A} (m : M FsError Disk A) : P E (Result FsError A) := attempting (on_disk m).

Section Provider.
Context `{Process} `{RegistryCodec} `{StoreCodec} (sha256 : string -> list Z).
Context (paths : ProviderPaths) (node_home release : string) (runtime_uid : Z).
(** How an error of the file system reads. *)
Context (describe : FsError -> string).
Context (env : nat -> Moment).

Definition credential_root : string := managed_root node_home.
Definition shared_pool : string := credential paths.
Definition capable (n : gmap string Node) : Snapshot := snapshot n (hermes_binary paths) release 0.

(** [Provider::new]. *)
Definition Provider_new (d : Disk) : Provider :=
  {| pv_attempt := None; pv_registry := load (registry_path node_home) (nodes d); pv_finished := None;
     pv_generation := 0; pv_children := []; pv_tasks := []; pv_disk := d; pv_step := 0 |}.

Definition persist {E} : P E unit :=
  let! l := gets pv_registry in
  let! _ := quietly (save (registry_path node_home) l) in
  ret tt.

Definition mark_now {E} (id : string) (st : CredentialState) (now : Z) : P E unit :=
  modify (on_credentials (amend id (with_state st now))) ;;;
  persist.

(** Dropping a [StagingHome] and an [Attempt]. *)
Definition drop_staging {E} (staging : option string) : P E unit :=
  match staging with
  | Some path => let! _ := quietly (staging_drop path) in ret tt
  | None => ret tt
  end.
Definition drop_attempt {E} (a : Attempt) : P E unit :=
  modify (kill (child a)) ;;; drop_staging (reauth a).
Definition drop_finished {E} (f : option FinishedReauthorization) : P E unit :=
  drop_staging (fr_staging <$> f).

(** [runtime_state], on the registry and the disk it finds. *)
Definition runtime_state_of (id : string) (l : list Credential) (n : gmap string Node) : CredentialState :=
  match get id l with
  | None => Required
  | Some c =>
      match credential_file credential_root id with
      | Err _ => Required
      | Ok store =>
          match verdict n store (cr_provider_id c) id with
          | Usable => Authorized
          | Dead _ => ReauthorizationRequired
          | VerdictMissing => RuntimeMissing
          | Unreadable => Required
          end
      end
  end.

(** ** The sections of the other tasks *)

Definition record_code {E} (g : Z) (id : string) (code : DeviceCode) : P E unit :=
  modify (on_attempt (fun o =>
    match o with
    | Some a => if (generation a =? g) && (credential_id a =? id)%string
                   && match phase a with Producing => true | _ => false end
                then Some {| child := child a; credential_id := credential_id a; generation := generation a;
                             command_id := command_id a; phase := Waiting code Pending; reauth := reauth a |}
                else o
    | None => None
    end)).

(** The locked part of [abandon_produced_nothing]: whether a replacement was
    abandoned, or [None] when the attempt is another one by now. *)
Definition abandon_section {E} (g : Z) : P E (option bool) :=
  let! a := gets pv_attempt in
  match a with
  | Some a =>
      if generation a =? g then
        modify (on_attempt (fun _ => None)) ;;;
        modify (kill (child a)) ;;;
        modify bump_generation ;;;
        drop_attempt a ;;;
        ret (Some (negb (bool_decide (reauth a = None))))
      else ret None
  | None => ret None
  end.

Definition report_grant_dead {E} (id : string) (g now : Z) : P E bool :=
  let! l := gets pv_registry in
  match get id l with
  | None => ret false
  | Some c =>
      if negb (cr_generation c =? g) then ret false
      else match cr_state c with
           | Reauthorizing | Authorizing | ReauthorizationRequired => ret false
           | _ => mark_now id ReauthorizationRequired now ;;; ret true
           end
  end.

Definition perform_event (e : Event) : P Empty_set unit :=
  match e with
  | ChildEnds pid =>
      modify (fun p => if is_running pid p then on_children (fun l => alter (child_in ChildEnded) pid l) p else p)
  | CodePrinted pid code =>
      let! l := gets pv_children in
      match l !! pid with
      | Some c => record_code (ch_generation c) (ch_credential_id c) code
      | None => ret tt
      end
  | NoCodePrinted pid =>
      let! l := gets pv_children in
      match l !! pid with
      | None => ret tt
      | Some c =>
          let! abandoned := abandon_section (ch_generation c) in
          match abandoned with
          | None => ret tt
          | Some replacing =>
              modify (on_tasks (fun t => t ++ [if replacing then Settling (ch_credential_id c)
                                               else Marking (ch_credential_id c) AttemptFailed]))
          end
      end
  | TaskRuns i now =>
      let! tasks := gets pv_tasks in
      match tasks !! i with
      | None => ret tt
      | Some (Settling id) =>
          let! p := state in
          modify (on_tasks (fun t => <[i := Marking id (runtime_state_of id (pv_registry p) (nodes (pv_disk p)))]> t))
      | Some (Marking id st) => modify (on_tasks (fun t => delete i t)) ;;; mark_now id st now
      end
  | GrantDead id g now => report_grant_dead id g now ;;; ret tt
  | DiskChanges n => modify (fun p => with_disk {| nodes := n; plan := plan (pv_disk p) |} p)
  end.

Fixpoint perform_events (es : list Event) : P Empty_set unit :=
  match es with
  | [] => ret tt
  | e :: es' => perform_event e ;;; perform_events es'
  end.

Definition infallible {E A} (m : P Empty_set A) : P E A := mapping (fun e : Empty_set => match e with end) m.

(** One critical section begins. *)
Definition tick {E} : P E Moment :=
  let! k := gets pv_step in
  infallible (perform_events (m_meanwhile (env k))) ;;;
  modify next_step ;;;
  ret (env k).
Definition disk_now {E} : P E (gmap string Node) := let! _ := tick in gets (fun p => nodes (pv_disk p)).

Definition mark {E} (id : string) (st : CredentialState) : P E unit :=
  let! m := tick in mark_now id st (m_clock m 0).
Definition runtime_state {E} (id : string) : P E CredentialState :=
  let! _ := tick in gets (fun p => runtime_state_of id (pv_registry p) (nodes (pv_disk p))).
Definition settle_reauthorization_failure {E} (id : string) : P E unit :=
  let! next := runtime_state id in mark id next.
Definition attempt_in_flight {E} : P E (option string) := let! _ := tick in gets in_flight.

(** [state]. *)
Definition provider_state {E} : P E ProviderState.State :=
  let! n := disk_now in
  ret (if negb (exists_ n (hermes_binary paths)) then ProviderState.Unavailable
       else if holds_credential paths n then ProviderState.Authorized
       else ProviderState.Required).

Definition authorize {A} : P ProviderError A :=
  throw (Refusing ("provider_authorization_retired: new credentials are authorized one at a time, " +:+
                   "each into its own home")).

(** ** Logins *)

(** The staging home is the caller's no longer: it is dropped with the attempt,
    or here when there will be none. *)
Definition begin_login (provider_id id home : string) (command : option string) (staging : option string) :
    P AuthorizationRefusal unit :=
  let! m := tick in
  let! p := state in
  match in_flight p with
  | Some running => drop_staging staging ;;; throw (in_progress (running =? id)%string)
  | None =>
      modify (on_attempt (fun _ => None)) ;;;
      match pv_attempt p with Some a => drop_attempt a | None => ret tt end ;;;
      modify bump_generation ;;;
      let! g := gets current_generation in
      match m_spawn m with
      | Some text => drop_staging staging ;;; throw (authorization_failed text)
      | None =>
          let! pid := gets (fun p => length (pv_children p)) in
          modify (on_children (fun l => l ++
            [{| ch_arguments := login_arguments provider_id id; ch_environment := isolate home;
                ch_credential_id := id; ch_generation := g; ch_state := ChildRunning |}])) ;;;
          if m_pipes m then
            modify (on_attempt (fun _ => Some
              {| child := pid; credential_id := id; generation := g; command_id := command;
                 phase := Producing; reauth := staging |}))
          else
            modify (kill pid) ;;; drop_staging staging ;;;
            throw (authorization_failed "the provider CLI offered no output to read")
      end
  end.

Definition deliverable_code {E} : P E (option (string * string * DeviceCode)) :=
  let! _ := tick in
  gets (fun p =>
    match pv_attempt p with
    | Some a =>
        match command_id a, phase a with
        | Some command, Waiting code delivery =>
            if bool_decide (delivery = Pending) then Some (command, credential_id a, code) else None
        | _, _ => None
        end
    | None => None
    end).

Definition abandon_attempt {E} : P E (option string) :=
  let! _ := tick in
  let! taken := gets pv_attempt in
  match taken with
  | None => ret None
  | Some a =>
      modify (on_attempt (fun _ => None)) ;;;
      modify bump_generation ;;;
      modify (kill (child a)) ;;;
      drop_attempt a ;;;
      ret (Some (credential_id a))
  end.

Definition cancel {E} : P E ProviderState.State := abandon_attempt ;;; provider_state.

(** Taking an attempt whose process has ended; [only_reauth] leaves first logins. *)
Definition take_ended {E} (only_reauth : bool) : P E (option Attempt) :=
  let! _ := tick in
  let! p := state in
  match pv_attempt p with
  | Some a =>
      if is_running (child a) p || (only_reauth && bool_decide (reauth a = None)) then ret None
      else modify (on_attempt (fun _ => None)) ;;; modify (kill (child a)) ;;; ret (Some a)
  | None => ret None
  end.
Definition park {E} (f : FinishedReauthorization) : P E unit :=
  let! _ := tick in
  let! old := gets pv_finished in
  modify (on_finished (fun _ => Some f)) ;;;
  drop_finished old.

Definition settle_attempt {E} : P E (option string) :=
  let! ended := take_ended false in
  match ended with
  | None => ret None
  | Some a =>
      let! current := (let! _ := tick in gets current_generation) in
      if negb (generation a =? current) then drop_staging (reauth a) ;;; ret None
      else match reauth a with
           | Some staging =>
               park {| fr_credential_id := credential_id a; fr_staging := staging; fr_generation := generation a |} ;;;
               ret None
           | None => ret (Some (credential_id a))
           end
  end.

Definition settle_finished_reauthorization {E} : P E unit :=
  let! ended := take_ended true in
  match ended with
  | None => ret tt
  | Some a =>
      let! current := (let! _ := tick in gets current_generation) in
      if negb (generation a =? current) then drop_staging (reauth a)
      else match reauth a with
           | Some staging =>
               park {| fr_credential_id := credential_id a; fr_staging := staging; fr_generation := generation a |}
           | None => ret tt
           end
  end.

Definition take_finished_reauthorization {E} : P E (option FinishedReauthorization) :=
  settle_finished_reauthorization ;;;
  let! _ := tick in
  let! f := gets pv_finished in
  modify (on_finished (fun _ => None)) ;;;
  ret f.

Definition generation_is_current (g : Z) (p : Provider) : bool := g =? current_generation p.

(** ** The CLI *)

Definition pool_list (provider_id : string) : P ProviderError (list PoolEntry) :=
  let! m := tick in
  match m_cli m with
  | Err text => throw (CliFailed text)
  | Ok (_, out, _) => ret (parse_pool_listing out)
  end.
Definition remove_text (stderr : bytes) : string :=
  "credential_runtime_missing: the provider runtime refused to remove the credential: " +:+ of_chars (trim stderr).
(** [pool_remove] and [home_remove] differ in the home the CLI is given. *)
Definition cli_remove : P ProviderError unit :=
  let! m := tick in
  match m_cli m with
  | Err text => throw (CliFailed text)
  | Ok (success, _, stderr) => if success : bool then ret tt else throw (Refusing (remove_text stderr))
  end.
Definition pool_remove (provider_id target : string) : P ProviderError unit := cli_remove.
Definition home_remove (provider_id id : string) : P ProviderError unit :=
  match home credential_root id with
  | Err e => throw (BadId e)
  | Ok _ => cli_remove
  end.

(** ** Credentials *)

(** The credentials that are judged by their own homes. *)
Definition candidates (flying : option string) (l : list Credential) : list (string * CredentialState) :=
  List.map (fun c => (cr_id c, cr_state c))
    (List.filter (fun c => bool_decide (cr_storage c = Isolated) && negb (bool_decide (cr_state c = Revoked))
                           && negb (bool_decide (flying = Some (cr_id c)))) l).
Fixpoint verdicts {E} (todo : list (string * CredentialState)) : P E (list (string * CredentialState)) :=
  match todo with
  | [] => ret []
  | (id, st) :: rest =>
      let! n := disk_now in
      let! next :=
        match inspect n credential_root id runtime_uid, st with
        | Ready, _ | CredentialMissing, _ => runtime_state id
        | _, Authorized => ret Required
        | _, _ => ret (unsettled st)
        end in
      let! others := verdicts rest in
      ret (if bool_decide (next = st) then others else (id, next) :: others)
  end.
(** The loop over the verdicts, with the reading of the clock it is at. *)
Fixpoint apply_verdicts (clock : nat -> Z) (k : nat) (vs : list (string * CredentialState)) (l : list Credential)
    (changed : bool) : list Credential * bool :=
  match vs with
  | [] => (l, changed)
  | (id, next) :: rest =>
      match get id l with
      | Some c =>
          if bool_decide (cr_state c = Revoked) then apply_verdicts clock k rest l changed
          else apply_verdicts clock (S k) rest (amend id (with_state next (clock k)) l) true
      | None => apply_verdicts clock k rest l changed
      end
  end.
Definition fail_unbound (finished : option string) (now : Z) (l : list Credential) : option (list Credential) :=
  match finished with
  | None => None
  | Some id =>
      match get id l with
      | Some c => if bool_decide (cr_state c = Authorizing) then Some (amend id (with_state AttemptFailed now) l)
                  else None
      | None => None
      end
  end.

Definition list_credentials : P ProviderError (list CredentialSummary) :=
  let! finished := settle_attempt in
  let! flying := attempt_in_flight in
  let! n := disk_now in
  let! pool := (if holds_credential paths n then
                  let! r := attempting (pool_list "openai-codex") in
                  ret (match r with Ok l => l | Err _ => [] end)
                else ret []) in
  let! judged := (let! _ := tick in gets (fun p => candidates flying (pv_registry p))) in
  let! vs := verdicts judged in
  let! m := tick in
  let! l := gets pv_registry in
  let (l1, c1) := reconcile sha256 "openai-codex" pool (m_clock m 0) l in
  let (l2, c2) := apply_verdicts (m_clock m) 1 vs l1 c1 in
  let (l3, c3) := match fail_unbound finished (m_clock m (2 + length vs)) l2 with
                  | Some l3 => (l3, true)
                  | None => (l2, c2)
                  end in
  modify (on_credentials (fun _ => l3)) ;;;
  (if c3 then persist else ret tt) ;;;
  ret (summaries l3).

(** The part of both logins that asks what this host supports. *)
Definition supported (n : gmap string Node) (provider_id auth_method : string) : Result AuthorizationRefusal unit :=
  match List.find (fun pc => (pc_id pc =? provider_id)%string) (sn_providers (capable n)) with
  | None => Err (refused "provider_not_supported" "this Node does not support that provider")
  | Some pc =>
      match pc_availability pc with
      | Unavailable => Err (refused "provider_unavailable" "that provider is not available on this Node")
      | Available =>
          if List.existsb (fun method => (auth_method_wire method =? auth_method)%string) (pc_auth_methods pc) then Ok tt
          else Err (refused "auth_method_not_supported"
                      "this Node does not support that way of authorizing that provider")
      end
  end.
Definition home_unavailable (e : FsError) : AuthorizationRefusal := refused "credential_home_unavailable" (describe e).

Definition new_credential (id provider_id auth_method label : string) (created updated : Z) : Credential :=
  {| cr_id := id; cr_provider_id := provider_id; cr_auth_method := auth_method; cr_label := label;
     cr_state := Authorizing; cr_storage := Isolated; cr_pool_entry := None; cr_generation := 0;
     cr_created_at := created; cr_updated_at := updated |}.

(** [authorize_credential] is [start_authorization]. *)
Definition start_authorization (provider_id auth_method label : string) (command : option string) :
    P AuthorizationRefusal string :=
  checked (fun e => refused "label_invalid" (label_error_text e)) (validate_label label) ;;;
  let label := of_chars (trim (chars label)) in
  let! n := disk_now in
  checked id (supported n provider_id auth_method) ;;;
  let! flying := attempt_in_flight in
  match flying with
  | Some _ => throw (in_progress false)
  | None =>
      let! held := (let! _ := tick in gets (fun p => length (pv_registry p))) in
      if (MAX_CREDENTIALS <=? held)%nat
      then throw (refused "credential_limit_reached"
                    ("this Node already holds " +:+ decimal (Z.of_nat MAX_CREDENTIALS) +:+ " credentials"))
      else
        let! m := tick in
        let id := new_credential_id (m_random m) in
        let! h := mapping home_unavailable (on_disk (create_home credential_root id runtime_uid)) in
        let! m := tick in
        modify (on_credentials (fun l => l ++
          [new_credential id provider_id auth_method label (m_clock m 0) (m_clock m 1)])) ;;;
        persist ;;;
        let! begun := attempting (begin_login provider_id id h command None) in
        match begun with
        | Ok _ => ret id
        | Err refusal => mark id AttemptFailed ;;; throw refusal
        end
  end.

Definition reauthorize_credential (id : string) (command : option string) : P AuthorizationRefusal unit :=
  checked (fun _ => refused "credential_id_invalid" "not a credential id") (validate_id id) ;;;
  let! found := (let! _ := tick in gets (fun p => get id (pv_registry p))) in
  match found with
  | None => throw (refused "credential_not_found" "this Node does not hold that credential")
  | Some c =>
      if negb (bool_decide (cr_storage c = Isolated))
      then throw (refused "credential_not_reauthorizable" "that credential is not one this Node can log in again")
      else
      let! flying := attempt_in_flight in
      match flying with
      | Some _ => throw (in_progress false)
      | None =>
          if negb (CredentialState.reauthorizable (cr_state c))
          then throw (refused "credential_not_reauthorizable"
                        "that credential is not in a state that can be logged in again")
          else
          let! n := disk_now in
          checked (fun r => r) (supported n (cr_provider_id c) (cr_auth_method c)) ;;;
          let! n := disk_now in
          match inspect n credential_root id runtime_uid with
          | Ready | CredentialMissing | CredentialUnreadable => ret tt
          | HomeMissing =>
              mapping home_unavailable (on_disk (create_home credential_root id runtime_uid)) ;;; ret tt
          | HomeInvalid =>
              throw (refused "credential_home_unavailable"
                       "this credential's home on the Node is not one it may use")
          end ;;;
          let! m := tick in
          let! staging := mapping home_unavailable (on_disk (staging_create node_home runtime_uid (m_nonce m))) in
          mark id Reauthorizing ;;;
          let! begun := attempting (begin_login (cr_provider_id c) id staging command (Some staging)) in
          match begun with
          | Ok _ => ret tt
          | Err refusal => settle_reauthorization_failure id ;;; throw refusal
          end
      end
  end.

Definition accept_reauthorization {E} (id : string) : P E unit :=
  let! m := tick in
  modify (on_credentials (amend id (replaced (m_clock m 0)))) ;;;
  persist.

Definition credential_facts {E} (id : string) : P E (option (string * string)) :=
  let! _ := tick in
  gets (fun p => (fun c => (cr_provider_id c, cr_auth_method c)) <$> get id (pv_registry p)).
Definition credential_generation {E} (id : string) : P E (option Z) :=
  let! _ := tick in gets (fun p => cr_generation <$> get id (pv_registry p)).

Definition cancel_credential (id : string) : P ProviderError unit :=
  checked BadId (validate_id id) ;;;
  let! a := (let! _ := tick in gets pv_attempt) in
  match a with
  | Some a => if negb (credential_id a =? id)%string
              then throw (Refusing "the login in flight belongs to a different credential") else ret tt
  | None => ret tt
  end ;;;
  let! a := (let! _ := tick in gets pv_attempt) in
  let! replacing :=
    (if match a with Some a => negb (bool_decide (reauth a = None)) | None => false end then ret true
     else let! _ := tick in
          gets (fun p => match get id (pv_registry p) with
                         | Some c => bool_decide (cr_state c = Reauthorizing)
                         | None => false
                         end)) in
  abandon_attempt ;;;
  if replacing : bool then settle_reauthorization_failure id else mark id AttemptFailed.

Definition rename_credential (id label : string) : P ProviderError unit :=
  checked BadId (validate_id id) ;;;
  checked BadLabel (validate_label label) ;;;
  let! m := tick in
  let! l := gets pv_registry in
  match get id l with
  | None => throw (Refusing "no such credential on this Node")
  | Some _ =>
      modify (on_credentials (amend id (renamed (of_chars (trim (chars label))) (m_clock m 0)))) ;;;
      persist
  end.

Definition revoke_credential (id : string) : P ProviderError unit :=
  checked BadId (validate_id id) ;;;
  let! found := (let! _ := tick in gets (fun p => get id (pv_registry p))) in
  match found with
  | None => throw (Refusing "no such credential on this Node")
  | Some c =>
      let! a := (let! _ := tick in gets pv_attempt) in
      match a with
      | Some a => if (credential_id a =? id)%string then abandon_attempt ;;; ret tt else ret tt
      | None => ret tt
      end ;;;
      match cr_storage c with
      | LegacySharedPool =>
          match cr_pool_entry c with
          | Some entry => pool_remove (cr_provider_id c) entry
          | None => ret tt
          end
      | Isolated =>
          let! n := disk_now in
          match inspect n credential_root id runtime_uid with
          | Ready => home_remove (cr_provider_id c) id
          | _ => ret tt
          end
      end ;;;
      mark id Revoked
  end.

(** ** Handing over the code *)

Definition delivery_sent {E} (id command : string) (deadline : Z) : P E bool :=
  let! _ := tick in
  let! a := gets pv_attempt in
  match a with
  | Some a =>
      if (credential_id a =? id)%string then
        match phase a with
        | Waiting code Pending =>
            modify (on_attempt (fun _ => Some
              {| child := child a; credential_id := credential_id a; generation := generation a;
                 command_id := command_id a; phase := Waiting code (Sent command deadline); reauth := reauth a |})) ;;;
            ret true
        | _ => ret false
        end
      else ret false
  | None => ret false
  end.

Definition acknowledge_delivery {E} (command : string) : P E bool :=
  let! _ := tick in
  let! a := gets pv_attempt in
  match a with
  | Some a =>
      match phase a with
      | Waiting code (Sent sent deadline) =>
          if (sent =? command)%string then
            modify (on_attempt (fun _ => Some
              {| child := child a; credential_id := credential_id a; generation := generation a;
                 command_id := command_id a; phase := Waiting code Acknowledged; reauth := reauth a |})) ;;;
            ret true
          else ret false
      | _ => ret false
      end
  | None => ret false
  end.

Definition undelivered (session_ended : bool) (now : Z) (ph : Phase) : bool :=
  match ph with
  | Producing => session_ended
  | Waiting _ Acknowledged => false
  | Waiting _ Pending => session_ended
  | Waiting _ (Sent _ deadline) => session_ended || (deadline <=? now)
  end.
Definition cancel_undelivered {E} (session_ended : bool) (now : Z) : P E (option string) :=
  let! a := (let! _ := tick in gets pv_attempt) in
  match a with
  | None => ret None
  | Some a =>
      if negb (undelivered session_ended now (phase a)) then ret None
      else
        let! r := attempting (cancel_credential (credential_id a)) in
        ret (match r with Ok _ => Some (credential_id a) | Err _ => None end)
  end.

(** ** Whether a project may use a credential *)

Definition usable (id : string) : P CredentialRefusal string :=
  let refuse {A} (code message : string) : P CredentialRefusal A := throw (CredentialRefusal_new code message) in
  if negb (is_ok (validate_id id)) then refuse "credential_id_invalid" "that is not a credential id"
  else
  let! found := (let! _ := tick in gets (fun p => get id (pv_registry p))) in
  match found with
  | None => refuse "credential_not_found" "this Node holds no such credential"
  | Some c =>
      if negb (bool_decide (cr_storage c = Isolated))
      then refuse "credential_not_isolated" "a credential in the shared pool cannot be selected by a project"
      else
      let! flying := attempt_in_flight in
      if bool_decide (flying = Some id)
      then refuse "credential_reauthorizing" "this credential is being logged in again; try this once it finishes"
      else
      match cr_state c with
      | Authorized => ret tt
      | Reauthorizing =>
          refuse "credential_reauthorizing" "this credential is being logged in again; try this once it finishes"
      | ReauthorizationRequired =>
          refuse "credential_reauthorization_required"
                 "this credential's provider access has ended; authorize it again"
      | RuntimeMissing =>
          refuse "credential_runtime_missing"
                 "this Node's runtime holds nothing for this credential; authorize it again"
      | _ => refuse "credential_not_authorized" "the credential is not authorized"
      end ;;;
      let! n := disk_now in
      if negb (List.existsb (fun pc => (pc_id pc =? cr_provider_id c)%string
                                       && match pc_availability pc with Available => true | Unavailable => false end)
                 (sn_providers (capable n)))
      then refuse "credential_provider_unavailable" "this Node cannot currently reach the credential's provider"
      else
      let! n := disk_now in
      match inspect n credential_root id runtime_uid with
      | Ready => ret (cr_provider_id c)
      | HomeMissing => refuse "credential_home_missing" "the credential's home is missing on this Node"
      | CredentialMissing => refuse "credential_unavailable" "the credential holds nothing; authorize it again"
      | HomeInvalid | CredentialUnreadable =>
          refuse "credential_unreadable" "the credential's store is not in a state a worker may read"
      end
  end.
End Provider.
End provider.
