(* ===== verification/ProviderLogins.v ===== *)
(** * ProviderLogins: at most one login runs, and a code belongs to the login that
    printed it ([provider.rs]). *)
From Stdlib Require Import Lia Sorted.
From stdpp Require Import gmap.
From S2P Require Import Prelude Text Fs Identifiers CredentialSwap Credentials CredentialTheorems CredentialHomes.
From S2P Require Import Schema Registry RegistryFacts Inventory Host DeviceCode System Sse RunLock Attachments.
From S2P Require Import ChatHistory Approvals Runner RunnerFacts Provider.
Import provider devicecode.

(** What every piece of a provider program does to the logins,
    the registry of credentials and the disk. *)

(** ** Relations that a program respects *)

Section Moves.
Context (R : Provider -> Provider -> Prop) `{!PreOrder R}.

Lemma moves_throw {E A} (e : E) : moves R (@throw E A e).
Proof. intros s. cbn. reflexivity. Qed.
Lemma moves_state {E} : moves R (@state (Outcome E) Provider).
Proof. intros s. cbn. reflexivity. Qed.
Lemma moves_mapping {E F A} (f : E -> F) (m : P E A) : moves R m -> moves R (mapping f m).
Proof. intros Hm s. specialize (Hm s). unfold mapping. by destruct (m s) as [[|[]]]. Qed.
Lemma moves_attempting {E F A} (m : P E A) : moves R m -> moves R (@attempting E F A m).
Proof. intros Hm s. specialize (Hm s). unfold attempting. by destruct (m s) as [[|[]]]. Qed.
Lemma moves_infallible {E A} (m : P Empty_set A) : moves R m -> moves R (@infallible E A m).
Proof. apply moves_mapping. Qed.
Lemma moves_checked {E F A} (f : E -> F) (r : Result E A) : moves R (checked f r).
Proof. destruct r; [apply moves_ret, _|apply moves_throw]. Qed.
End Moves.
#[export] Hint Resolve moves_throw moves_state moves_checked : moves.

(** As [moves_solve], through the handlers of these programs too. *)
Ltac provider_moves :=
  repeat (cbv zeta; match goal with
    | |- moves _ (bind _ _) => apply moves_bind; [apply _| |intros ?]
    | |- moves _ (mapping _ _) => apply moves_mapping
    | |- moves _ (attempting _) => apply moves_attempting
    | |- moves _ (infallible _) => apply moves_infallible
    | |- moves _ (let (_, _) := ?x in _) => destruct x
    | |- moves _ (match ?x with _ => _ end) => destruct x
    | |- moves _ _ => solve [auto with moves typeclass_instances]
    end).

(** ** Programs that leave a part of the state alone *)

Section Frame.
Context `{Process} `{RegistryCodec} `{StoreCodec} (sha256 : string -> list Z).
Context (paths : ProviderPaths) (node_home release : string) (runtime_uid : Z).
Context (describe : FsError -> string) (env : nat -> Moment).
Context (R : Provider -> Provider -> Prop) `{!PreOrder R}.
(** [R] does not look at the disk. *)
Context (Hdisk : forall p d, R p (with_disk d p)).

Lemma moves_on_disk {A} (m : M FsError Disk A) : moves R (on_disk m).
Proof. intros s. unfold on_disk. destruct (m (pv_disk s)) as [r d]. apply Hdisk. Qed.
Lemma moves_quietly {E A} (m : M FsError Disk A) : moves R (@quietly E A m).
Proof. apply moves_attempting, moves_on_disk. Qed.
Lemma moves_persist {E} : moves R (@persist _ _ node_home E).
Proof. unfold persist. pose proof (@moves_quietly). provider_moves. Qed.
Lemma moves_drop_staging {E} o : moves R (@drop_staging E o).
Proof. unfold drop_staging. pose proof (@moves_quietly). provider_moves. Qed.
Lemma moves_drop_finished {E} o : moves R (@drop_finished E o).
Proof. apply moves_drop_staging. Qed.

(** Nor at the credentials' rows. *)
Section Rows.
Context (Hrows : forall p id st now, R p (on_credentials (amend id (with_state st now)) p)).
Lemma moves_mark_now {E} id st now : moves R (@mark_now _ _ node_home E id st now).
Proof.
  unfold mark_now. apply moves_bind; [apply _| |intros _; apply moves_persist]. intros s. apply Hrows.
Qed.
Lemma moves_report {E} id g now : moves R (@report_grant_dead _ _ node_home E id g now).
Proof. unfold report_grant_dead. pose proof (@moves_mark_now). provider_moves. Qed.
End Rows.
End Frame.

(** What [R] says of the disk and of the rows is tried by computation and from
    the hints. *)
Create HintDb provider_frame.
Ltac frame_side := intros; solve [reflexivity | eauto with provider_frame].
#[export] Hint Extern 1 (moves _ (on_disk _)) => apply moves_on_disk; [frame_side..] : moves.
#[export] Hint Extern 1 (moves _ (quietly _)) => apply moves_quietly; [frame_side..] : moves.
#[export] Hint Extern 1 (moves _ (persist _)) => apply moves_persist; [apply _|frame_side..] : moves.
#[export] Hint Extern 1 (moves _ (drop_staging _)) => apply moves_drop_staging; [apply _|frame_side..] : moves.
#[export] Hint Extern 1 (moves _ (drop_finished _)) => apply moves_drop_finished; [apply _|frame_side..] : moves.
#[export] Hint Extern 1 (moves _ (mark_now _ _ _ _)) => apply moves_mark_now; [apply _|frame_side..] : moves.
#[export] Hint Extern 1 (moves _ (report_grant_dead _ _ _ _)) => apply moves_report; [apply _|frame_side..] : moves.

(** ** One critical section *)

Section Tick.
Context `{Process} `{RegistryCodec} `{StoreCodec} (node_home : string) (env : nat -> Moment).
Context (R : Provider -> Provider -> Prop) `{!PreOrder R}.

Lemma step_event e s : pv_step (snd (perform_event node_home e s)) = pv_step s.
Proof.
  revert s. set (same := fun s s' : Provider => pv_step s' = pv_step s).
  assert (PreOrder same) by (split; [done|]; intros ???; unfold same; congruence).
  change (moves same (perform_event node_home e)).
  destruct e; cbn [perform_event]; unfold record_code, abandon_section, drop_attempt; provider_moves;
    apply moves_modify; intros s; unfold kill, same; by repeat case_match.
Qed.

(** What the tasks beside a program do in its [k]th section. *)
Context (Hevent : forall e s, In e (m_meanwhile (env (pv_step s))) -> R s (snd (perform_event node_home e s))).
Context (Hstep : forall s, R s (next_step s)).

Lemma moves_events_at k es s :
  pv_step s = k -> (forall e, In e es -> In e (m_meanwhile (env k))) ->
  R s (snd (perform_events node_home es s)) /\ pv_step (snd (perform_events node_home es s)) = k.
Proof.
  revert s. induction es as [|e es IH]; intros s Hk Hin; cbn [perform_events]; [cbn; split; [reflexivity|done]|].
  unfold bind. pose proof (Hevent e s) as He. pose proof (step_event e s) as Hs.
  rewrite Hk in He. specialize (He (Hin e (or_introl eq_refl))).
  destruct (perform_event node_home e s) as [[[]|o] s1]; cbn [snd] in *; [|split; [done|congruence]].
  destruct (IH s1 ltac:(congruence) (fun e' He' => Hin e' (or_intror He'))) as [HR Hk'].
  split; [by etransitivity|done].
Qed.

Lemma moves_provider_tick {E} : moves R (@tick _ _ _ node_home env E).
Proof.
  intros s. unfold tick, bind at 1, gets at 1. unfold bind at 1, infallible, mapping.
  destruct (moves_events_at (pv_step s) (m_meanwhile (env (pv_step s))) s eq_refl (fun e He => He)) as [HR _].
  destruct (perform_events node_home _ s) as [[[]|[| |[]]] s1]; cbn [snd] in *; [|done..].
  unfold bind, modify, ret. cbn. etransitivity; [exact HR|apply Hstep].
Qed.
End Tick.

Section Logins.
Context (env : nat -> Moment).

(** A code the process [pid] printed, no later than the section [k]. *)
Definition printed (k pid : nat) (code : DeviceCode) : Prop :=
  exists j, (j <= k)%nat /\ In (CodePrinted pid code) (m_meanwhile (env j)).

(** But for the processes in [spare], what runs is the attempt's own process. *)
Record logins (spare : list nat) (p : Provider) : Prop := {
  lo_attempt a : pv_attempt p = Some a ->
    exists c, pv_children p !! child a = Some c /\ ch_credential_id c = credential_id a
              /\ ch_generation c = generation a /\ generation a = current_generation p;
  lo_running i c : pv_children p !! i = Some c -> ch_state c = ChildRunning ->
    (exists a, pv_attempt p = Some a /\ child a = i) \/ In i spare;
  lo_count : 0 <= pv_generation p;
  lo_sorted : pv_generation p < 2 ^ 64 -> StronglySorted Z.lt (ch_generation <$> pv_children p);
  lo_latest : pv_generation p < 2 ^ 64 -> Forall (fun c => ch_generation c <= pv_generation p) (pv_children p);
  lo_code a code d : pv_attempt p = Some a -> phase a = Waiting code d -> pv_generation p < 2 ^ 64 ->
    printed (pv_step p) (child a) code
}.
Definition logins_ok : Provider -> Prop := logins [].
Definition keeps_logins (p p' : Provider) : Prop := logins_ok p -> logins_ok p'.
#[export] Instance keeps_logins_preorder : PreOrder keeps_logins.
Proof. split; [by intros ??|]. intros a b c H1 H2 Ha. auto. Qed.

(** ** The parts of a section *)

Lemma logins_disk p d : keeps_logins p (with_disk d p).
Proof. intros [? ? ? ? ? ?]. by split. Qed.
Lemma logins_rows p f : keeps_logins p (on_credentials f p).
Proof. intros [? ? ? ? ? ?]. by split. Qed.
Lemma logins_tasks p f : keeps_logins p (on_tasks f p).
Proof. intros [? ? ? ? ? ?]. by split. Qed.
Lemma logins_finished p f : keeps_logins p (on_finished f p).
Proof. intros [? ? ? ? ? ?]. by split. Qed.
Lemma logins_step p : keeps_logins p (next_step p).
Proof.
  intros [? ? ? ? ? Hc]. split; try done. cbn. intros a code d Ha Hp Hb.
  destruct (Hc a code d Ha Hp Hb) as (j & Hj & Hin). exists j. split; [lia|done].
Qed.

Lemma alter_state (st : ChildState) i (l : list Child) j c :
  alter (child_in st) i l !! j = Some c ->
  exists c0, l !! j = Some c0 /\ ch_credential_id c = ch_credential_id c0 /\ ch_generation c = ch_generation c0
             /\ (if decide (i = j) then ch_state c = st else c = c0).
Proof.
  destruct (decide (i = j)) as [<-|Hne].
  - rewrite list_lookup_alter_eq. destruct (l !! i) as [c0|]; [|done]. intros [= <-]. by exists c0.
  - rewrite list_lookup_alter_ne by done. intros E. by exists c.
Qed.
Lemma alter_kept (st : ChildState) i (l : list Child) j c :
  l !! j = Some c -> exists c', alter (child_in st) i l !! j = Some c'
    /\ ch_credential_id c' = ch_credential_id c /\ ch_generation c' = ch_generation c.
Proof.
  intros E. destruct (decide (i = j)) as [<-|Hne].
  - rewrite list_lookup_alter_eq, E. by eexists.
  - rewrite list_lookup_alter_ne by done. by exists c.
Qed.
Lemma alter_generations (st : ChildState) i (l : list Child) :
  ch_generation <$> alter (child_in st) i l = ch_generation <$> l.
Proof. revert i. induction l as [|c l IH]; intros [|i]; cbn; [done..|]. f_equal. apply IH. Qed.

(** A process that ends, or is killed, is not spare any more. *)
Lemma logins_stop st i spare p :
  st <> ChildRunning -> logins (i :: spare) p -> logins spare (on_children (alter (child_in st) i) p).
Proof.
  intros Hst [Ha Hr Hn Hs Hl Hc]. split; cbn; try done.
  - intros a Ea. destruct (Ha a Ea) as (c & Ec & H1 & H2 & H3).
    destruct (alter_kept st i _ _ _ Ec) as (c' & Ec' & K1 & K2). exists c'.
    split_and!; [done|congruence|congruence|done].
  - intros j c Ec Hrun. apply alter_state in Ec as (c0 & Ec0 & _ & _ & Hdec).
    destruct (decide (i = j)) as [<-|Hne]; [congruence|]. subst c0.
    destruct (Hr j c Ec0 Hrun) as [?|[?|?]]; [by left|done|by right].
  - intros Hb. rewrite alter_generations. auto.
  - intros Hb. specialize (Hl Hb). rewrite Forall_lookup in *. intros j c Ec.
    apply alter_state in Ec as (c0 & Ec0 & _ & -> & _). eauto.
Qed.
Lemma logins_more i spare p : logins spare p -> logins (i :: spare) p.
Proof. intros [Ha Hr Hn Hs Hl Hc]. split; try done. intros j c E1 E2. destruct (Hr j c E1 E2); [by left|right; by right]. Qed.
Lemma logins_kill i spare p : logins (i :: spare) p -> logins spare (kill i p).
Proof.
  intros Hp. unfold kill. destruct (is_running i p) eqn:E; [by apply logins_stop|].
  destruct Hp as [Ha Hr Hn Hs Hl Hc]. split; try done. intros j c Ej Hrun.
  destruct (Hr j c Ej Hrun) as [?|[<-|?]]; [by left| |by right].
  unfold is_running in E. rewrite Ej in E. by rewrite bool_decide_eq_true_2 in E.
Qed.
Lemma keeps_kill i p : keeps_logins p (kill i p).
Proof. intros Hp. by apply logins_kill, logins_more. Qed.
Lemma logins_end i p : keeps_logins p (on_children (alter (child_in ChildEnded) i) p).
Proof. intros Hp. by apply logins_stop, logins_more. Qed.

Lemma logins_take a p : pv_attempt p = Some a -> logins_ok p -> logins [child a] (on_attempt (fun _ => None) p).
Proof.
  intros Ea [Ha Hr Hn Hs Hl Hc]. split; cbn; try done. intros i c Ec Hrun.
  destruct (Hr i c Ec Hrun) as [(a' & Ea' & <-)|[]]. right. left. congruence.
Qed.
Lemma logins_take_ended a p :
  pv_attempt p = Some a -> is_running (child a) p = false -> logins_ok p -> logins_ok (on_attempt (fun _ => None) p).
Proof.
  intros Ea En Hp. apply (logins_take a) in Hp as [Ha Hr Hn Hs Hl Hc]; [|done]. split; try done.
  intros i c Ec Hrun. destruct (Hr i c Ec Hrun) as [?|[<-|[]]]; [by left|].
  unfold is_running in En. cbn in Ec. rewrite Ec in En. by rewrite bool_decide_eq_true_2 in En.
Qed.
Lemma logins_bump spare p : pv_attempt p = None -> logins spare p -> logins spare (bump_generation p).
Proof.
  intros Ea [Ha Hr Hn Hs Hl Hc]. split; cbn; try congruence; try done.
  - lia.
  - intros Hb. apply Hs. lia.
  - intros Hb. eapply List.Forall_impl; [|apply Hl; lia]. cbn. intros c. lia.
Qed.

(** The attempt that is stored next to its new process. *)
Definition fresh_attempt (pid : nat) (id : string) (g : Z) command staging : Attempt :=
  {| child := pid; credential_id := id; generation := g; command_id := command; phase := Producing; reauth := staging |}.

Lemma logins_spawn p c :
  pv_attempt p = None -> ch_generation c = (pv_generation p + 1) mod 2 ^ 64 -> logins_ok p ->
  logins [length (pv_children p)] (on_children (fun l => l ++ [c]) (bump_generation p)).
Proof.
  intros Ea Eg Hp. pose proof Hp as [_ Hr Hn Hs Hl _].
  apply (logins_bump [] _ Ea) in Hp as [Ha' _ Hn' Hs' Hl' _]. split; cbn; try congruence; try done.
  - intros i c' Ec Hrun. apply lookup_app_Some in Ec as [Ec|[Hle Ec]].
    + destruct (Hr i c' Ec Hrun) as [(a & Ha & _)|[]]. congruence.
    + right. left. apply list_lookup_singleton_Some in Ec as [Ek _]. lia.
  - intros Hb. cbn in Hs'. rewrite fmap_app. rewrite Z.mod_small in Eg by (cbn in *; lia).
    assert (Forall (fun g => g < ch_generation c) (ch_generation <$> pv_children p)) as Hall.
    { rewrite Forall_fmap. eapply List.Forall_impl; [|apply Hl; lia]. cbn. intros x. lia. }
    revert Hall. generalize (Hs' Hb). clear. induction 1 as [|g l Hl IH Hg]; intros Hall; [by repeat constructor|].
    inversion_clear Hall as [|?? H1 H2]. cbn. constructor; [auto|]. apply List.Forall_app. split; [done|]. by repeat constructor.
  - intros Hb. apply List.Forall_app. split; [by apply Hl'|]. constructor; [|done].
    rewrite Eg, Z.mod_small; lia.
Qed.
Lemma logins_store p c command staging :
  pv_attempt p = None -> ch_generation c = (pv_generation p + 1) mod 2 ^ 64 -> logins_ok p ->
  logins_ok (on_attempt (fun _ => Some (fresh_attempt (length (pv_children p)) (ch_credential_id c) (ch_generation c) command staging))
    (on_children (fun l => l ++ [c]) (bump_generation p))).
Proof.
  intros Ea Eg Hp. apply (logins_spawn _ c Ea Eg) in Hp as [Ha Hr Hn Hs Hl Hc].
  split; cbn in *; try done.
  - intros a [= <-]. exists c. cbn. rewrite list_lookup_middle by done. done.
  - intros i c' Ec Hrun. destruct (Hr i c' Ec Hrun) as [?|[<-|[]]]; [naive_solver|]. left. by eexists.
  - intros a code d [= <-]. done.
Qed.

(** Another phase of the same login, with a code that its process printed. *)
Definition in_phase (ph : Phase) (a : Attempt) : Attempt :=
  {| child := child a; credential_id := credential_id a; generation := generation a;
     command_id := command_id a; phase := ph; reauth := reauth a |}.
Lemma logins_phase a code d p :
  pv_attempt p = Some a ->
  (pv_generation p < 2 ^ 64 -> printed (pv_step p) (child a) code) ->
  keeps_logins p (on_attempt (fun _ => Some (in_phase (Waiting code d) a)) p).
Proof.
  intros Ea Hprinted [Ha Hr Hn Hs Hl Hc]. split; cbn; try done.
  - intros a' [= <-]. apply (Ha a Ea).
  - intros i c Ec Hrun. destruct (Hr i c Ec Hrun) as [(a' & Ea' & Hi)|[]]. left. eexists. split; [done|]. cbn. congruence.
  - intros a' code' d' [= <-]. cbn. intros [= <- <-]. done.
Qed.

(** ** The sections *)

Context `{Process} `{RegistryCodec} `{StoreCodec} (sha256 : string -> list Z).
Context (paths : ProviderPaths) (node_home release : string) (runtime_uid : Z).
Context (describe : FsError -> string).

Hint Resolve logins_disk logins_rows : provider_frame.
Hint Extern 1 (moves keeps_logins (modify (kill _))) => apply moves_modify, keeps_kill : moves.
Hint Extern 1 (moves keeps_logins (modify (on_tasks _))) => apply moves_modify; intros ?; apply logins_tasks : moves.
Hint Extern 1 (moves keeps_logins (modify (on_finished _))) => apply moves_modify; intros ?; apply logins_finished : moves.
Hint Extern 1 (moves keeps_logins (modify (on_credentials _))) => apply moves_modify; intros ?; apply logins_rows : moves.
Hint Extern 1 (moves keeps_logins (modify (with_disk _))) => apply moves_modify; intros ?; apply logins_disk : moves.

(** A section that begins with changes of the state, seen from where they lead. *)
Lemma modify_first {E A} (f : Provider -> Provider) (k : unit -> P E A) s :
  (modify f ;;; k tt) s = k tt (f s).
Proof. done. Qed.

Lemma logins_drop {E} a spare p :
  logins (child a :: spare) p -> logins spare (snd (@drop_attempt E a p)).
Proof.
  intros Hp. unfold drop_attempt. rewrite (modify_first _ (fun _ => drop_staging (reauth a))).
  apply logins_kill in Hp. revert Hp. generalize (kill (child a) p). clear.
  intros q Hq. assert (logins spare q -> logins spare (snd (@drop_staging E (reauth a) q))) as HR; [|auto].
  set (R := fun q q' => logins spare q -> logins spare q').
  assert (PreOrder R) by (split; unfold R; [by intros ??|intros ??? H1 H2 ?; auto]).
  assert (forall p d, R p (with_disk d p)) by (intros ?? [? ? ? ? ? ?]; by split).
  apply (moves_drop_staging R); auto.
Qed.

Lemma same_generation p i j c c' :
  logins_ok p -> pv_generation p < 2 ^ 64 -> pv_children p !! i = Some c -> pv_children p !! j = Some c' ->
  ch_generation c = ch_generation c' -> i = j.
Proof.
  intros Hp Hb Ei Ej Eg. pose proof (lo_sorted _ _ Hp Hb) as Hs.
  assert (forall i j c c', pv_children p !! i = Some c -> pv_children p !! j = Some c' -> (i < j)%nat ->
            ch_generation c < ch_generation c') as Hlt.
  { clear -Hs. revert Hs. generalize (pv_children p). intros l. induction l as [|x l IH]; intros Hs [|i] [|j] c c' Ei Ej Hij;
      try done; try lia; cbn in Hs; inversion_clear Hs as [|?? Hs' Hall].
    - injection Ei as <-. rewrite List.Forall_forall in Hall. apply Hall, list_elem_of_In, list_elem_of_fmap.
      exists c'. split; [done|]. exact (list_elem_of_lookup_2 l j c' Ej).
    - apply (IH Hs' i j); [done|done|lia]. }
  destruct (lt_eq_lt_dec i j) as [[Hij| ->]|Hij]; [|done|].
  - pose proof (Hlt i j c c' Ei Ej Hij). lia.
  - pose proof (Hlt j i c' c Ej Ei Hij). lia.
Qed.

Lemma logins_record {E} pid c code p :
  pv_children p !! pid = Some c -> In (CodePrinted pid code) (m_meanwhile (env (pv_step p))) ->
  keeps_logins p (snd (@record_code E (ch_generation c) (ch_credential_id c) code p)).
Proof.
  intros Ec Hin Hp. unfold record_code, modify. cbn [snd].
  destruct (pv_attempt p) as [a|] eqn:Ea.
  2: { destruct p. cbn in Ea. subst. exact Hp. }
  destruct ((generation a =? ch_generation c) && (credential_id a =? ch_credential_id c)%string
            && match phase a with Producing => true | _ => false end) eqn:Eb.
  - replace (on_attempt _ p) with (on_attempt (fun _ => Some (in_phase (Waiting code Pending) a)) p).
    2: { unfold on_attempt. by rewrite Ea, Eb. }
    apply andb_true_iff in Eb as [[Eg%Z.eqb_eq _]%andb_true_iff _].
    apply logins_phase; [done| |done]. intros Hb. exists (pv_step p). split; [done|].
    destruct (lo_attempt _ _ Hp a Ea) as (c' & Ec' & _ & Eg' & _).
    by rewrite (same_generation p (child a) pid c' c Hp Hb Ec' Ec) by congruence.
  - replace (on_attempt _ p) with p; [done|]. destruct p. cbn in Ea. subst. unfold on_attempt. cbn. by rewrite Eb.
Qed.

Lemma logins_abandon_section {E} g : moves keeps_logins (@abandon_section E g).
Proof.
  intros p Hp. unfold abandon_section. unfold bind at 1, gets at 1. cbn [fst snd].
  destruct (pv_attempt p) as [a|] eqn:Ea; [|done]. destruct (generation a =? g); [|done].
  assert (logins_ok (snd (@drop_attempt E a (bump_generation (kill (child a) (on_attempt (fun _ => None) p)))))) as Hd.
  { apply logins_drop, logins_more, logins_bump; [unfold kill; by case_match|]. by apply logins_kill, logins_take. }
  unfold bind, modify. destruct (drop_attempt a _) as [[[]|]]; exact Hd.
Qed.

Lemma moves_at {E A} R (m : P E A) s : moves R m -> R s (snd (m s)).
Proof. auto. Qed.

Lemma logins_event e s :
  In e (m_meanwhile (env (pv_step s))) -> keeps_logins s (snd (perform_event node_home e s)).
Proof.
  intros Hin. destruct e as [pid|pid code|pid|i now|id g now|n]; cbn [perform_event].
  - unfold modify. cbn [snd]. case_match; [apply logins_end|done].
  - unfold bind, gets. destruct (pv_children s !! pid) as [c|] eqn:Ec; [|done]. by apply (logins_record pid).
  - apply (moves_at keeps_logins). pose proof (@logins_abandon_section Empty_set). provider_moves.
  - apply (moves_at keeps_logins). provider_moves.
  - apply (moves_at keeps_logins). provider_moves.
  - unfold modify. cbn [snd]. apply logins_disk.
Qed.

Lemma logins_tick {E} : moves keeps_logins (@tick _ _ _ node_home env E).
Proof. apply moves_provider_tick; [apply _|apply logins_event|apply logins_step]. Qed.
Hint Resolve logins_tick : moves.

Lemma logins_abandon_attempt {E} : moves keeps_logins (@abandon_attempt _ _ _ node_home env E).
Proof.
  unfold abandon_attempt. apply moves_bind; [apply _|auto with moves|intros _]. intros p Hp.
  unfold bind at 1, gets at 1. destruct (pv_attempt p) as [a|] eqn:Ea; [|done].
  assert (logins_ok (snd (@drop_attempt E a (kill (child a) (bump_generation (on_attempt (fun _ => None) p)))))) as Hd.
  { apply logins_drop, logins_more, logins_kill, logins_bump; [done|]. by apply logins_take. }
  unfold bind, modify. destruct (drop_attempt a _) as [[[]|]]; exact Hd.
Qed.

Lemma logins_take_ended_section {E} only : moves keeps_logins (@take_ended _ _ _ node_home env E only).
Proof.
  unfold take_ended. apply moves_bind; [apply _|auto with moves|intros _]. intros p Hp.
  unfold bind, state. destruct (pv_attempt p) as [a|] eqn:Ea; [|done].
  destruct (is_running (child a) p || _) eqn:Eb; [done|]. apply orb_false_iff in Eb as [Er _].
  unfold modify. cbn [snd]. by apply keeps_kill, (logins_take_ended a).
Qed.

Lemma logins_begin provider_id id home command staging :
  moves keeps_logins (begin_login node_home env provider_id id home command staging).
Proof.
  unfold begin_login. apply moves_bind; [apply _|auto with moves|intros m]. intros p Hp.
  unfold bind at 1, state at 1. destruct (in_flight p) as [running|] eqn:Ef.
  { revert p Hp Ef. intros p Hp _. revert Hp. apply (moves_at keeps_logins). provider_moves. }
  unfold bind at 1, modify at 1. set (p1 := on_attempt (fun _ => None) p).
  assert (logins_ok p1 /\ pv_attempt p1 = None) as [Hp1 Ha1].
  { split; [|done]. unfold p1. destruct (pv_attempt p) as [a|] eqn:Ea; [|by destruct p; cbn in *; subst].
    apply (logins_take_ended a); [done| |done]. unfold in_flight in Ef. rewrite Ea in Ef. by destruct (is_running (child a) p). }
  clearbody p1. clear Ef Hp. unfold bind at 1.
  match goal with |- context [let (_, _) := ?t in _] =>
    assert (exists r p2, t = (r, p2) /\ logins_ok p2 /\ pv_attempt p2 = None) as (r & p2 & -> & Hp2 & Ha2) end.
  { destruct (pv_attempt p) as [a|]; [|by eexists _, _].
    destruct (drop_attempt a p1) as [r p2] eqn:Ed. exists r, p2. split; [done|].
    assert (logins_ok (snd (@drop_attempt AuthorizationRefusal a p1))) as Hd by apply logins_drop, logins_more, Hp1.
    assert (pv_attempt (snd (@drop_attempt AuthorizationRefusal a p1)) = pv_attempt p1) as Hv.
    { unfold drop_attempt, bind, modify. destruct (reauth a) as [path|]; cbn [drop_staging].
      - unfold quietly, attempting, on_disk, bind. destruct (staging_drop path _) as [[|[]] d]; unfold kill; by case_match.
      - unfold kill. cbn. by case_match. }
    rewrite Ed in *. cbn in *. split; congruence || done. }
  destruct r as [[]|o]; [|done]. unfold bind at 1, modify at 1. unfold bind at 1, gets at 1.
  destruct (m_spawn m) as [text|].
  { assert (logins_ok (bump_generation p2)) as Hb by by apply logins_bump. revert Hb.
    apply (moves_at keeps_logins). provider_moves. }
  unfold bind at 1, gets at 1. unfold bind at 1, modify at 1. destruct (m_pipes m).
  - unfold modify. cbn [snd]. by apply (logins_store p2 {| ch_credential_id := id |}).
  - unfold bind at 1, modify at 1.
    assert (logins_ok (kill (length (pv_children p2)) (on_children (fun l => l ++
      [{| ch_arguments := login_arguments provider_id id; ch_environment := isolate home; ch_credential_id := id;
          ch_generation := current_generation (bump_generation p2); ch_state := ChildRunning |}]) (bump_generation p2)))) as Hk.
    { by apply logins_kill, logins_spawn. }
    revert Hk. apply (moves_at keeps_logins). provider_moves.
Qed.

Lemma logins_delivery {E} id command deadline : moves keeps_logins (@delivery_sent _ _ _ node_home env E id command deadline).
Proof.
  unfold delivery_sent. apply moves_bind; [apply _|auto with moves|intros _]. intros p Hp.
  unfold bind at 1, gets at 1. destruct (pv_attempt p) as [a|] eqn:Ea; [|done]. destruct (_ =? _)%string; [|done].
  destruct (phase a) as [|code []] eqn:Ep; try done. unfold bind, modify. cbn [snd].
  apply (logins_phase a code); [done| |done]. by apply (lo_code _ _ Hp a code Pending).
Qed.
Lemma logins_acknowledge {E} command : moves keeps_logins (@acknowledge_delivery _ _ _ node_home env E command).
Proof.
  unfold acknowledge_delivery. apply moves_bind; [apply _|auto with moves|intros _]. intros p Hp.
  unfold bind at 1, gets at 1. destruct (pv_attempt p) as [a|] eqn:Ea; [|done].
  destruct (phase a) as [|code [|sent d|]] eqn:Ep; try done. destruct (_ =? _)%string; [|done].
  unfold bind, modify. cbn [snd]. apply (logins_phase a code); [done| |done]. by apply (lo_code _ _ Hp a code (Sent sent d)).
Qed.
Hint Resolve logins_abandon_attempt logins_take_ended_section logins_begin logins_delivery logins_acknowledge : moves.

(** ** Every operation *)

(** The operations other parts of the node call, in any order. *)
Inductive Operation : Type :=
| ReadState
| CancelAll
| ListCredentials
| Authorize (provider_id auth_method label : string) (command : option string)
| Reauthorize (id : string) (command : option string)
| AcceptReauthorization (id : string)
| SettleFailure (id : string)
| CancelCredential (id : string)
| RenameCredential (id label : string)
| RevokeCredential (id : string)
| TakeFinished
| DeliverableCode
| DeliverySent (id command : string) (deadline : Z)
| AcknowledgeDelivery (command : string)
| CancelUndelivered (session_ended : bool) (now : Z)
| AskUsable (id : string).

Definition operate (o : Operation) (p : Provider) : Provider :=
  match o with
  | ReadState => snd (@provider_state _ _ _ paths node_home env Empty_set p)
  | CancelAll => snd (@cancel _ _ _ paths node_home env Empty_set p)
  | ListCredentials => snd (list_credentials sha256 paths node_home runtime_uid env p)
  | Authorize pr am label command =>
      snd (start_authorization paths node_home release runtime_uid describe env pr am label command p)
  | Reauthorize id command =>
      snd (reauthorize_credential paths node_home release runtime_uid describe env id command p)
  | AcceptReauthorization id => snd (@accept_reauthorization _ _ _ node_home env Empty_set id p)
  | SettleFailure id => snd (@settle_reauthorization_failure _ _ _ node_home env Empty_set id p)
  | CancelCredential id => snd (cancel_credential node_home env id p)
  | RenameCredential id label => snd (rename_credential node_home env id label p)
  | RevokeCredential id => snd (revoke_credential node_home runtime_uid env id p)
  | TakeFinished => snd (@take_finished_reauthorization _ _ _ node_home env Empty_set p)
  | DeliverableCode => snd (@deliverable_code _ _ _ node_home env Empty_set p)
  | DeliverySent id command deadline => snd (@delivery_sent _ _ _ node_home env Empty_set id command deadline p)
  | AcknowledgeDelivery command => snd (@acknowledge_delivery _ _ _ node_home env Empty_set command p)
  | CancelUndelivered ended now => snd (@cancel_undelivered _ _ _ node_home env Empty_set ended now p)
  | AskUsable id => snd (usable paths node_home release runtime_uid env id p)
  end.
Definition operated (os : list Operation) (p : Provider) : Provider :=
  List.fold_left (fun p o => operate o p) os p.

(** What the operations are made of, for a relation that the sections respect. *)
Section Operations.
Context (R : Provider -> Provider -> Prop) `{!PreOrder R}.
Context (Rdisk : forall p d, R p (with_disk d p)).
Context (Rrows : forall p id st now, R p (on_credentials (amend id (with_state st now)) p)).
Context (Rfinished : forall p f, R p (on_finished f p)).
Context (Rtick : forall E, moves R (@tick _ _ _ node_home env E)).
Context (Rabandon : forall E, moves R (@abandon_attempt _ _ _ node_home env E)).
Context (Rtake : forall E only, moves R (@take_ended _ _ _ node_home env E only)).
Context (Rbegin : forall pr id h c st, moves R (begin_login node_home env pr id h c st)).
Context (Rdelivery : forall E id c d, moves R (@delivery_sent _ _ _ node_home env E id c d)).
Context (Racknowledge : forall E c, moves R (@acknowledge_delivery _ _ _ node_home env E c)).
Context (Rlist : forall p pool now vs clock k c0 finished later l3 c3,
  (let (l1, c1) := reconcile sha256 "openai-codex" pool now (pv_registry p) in
   let (l2, c2) := apply_verdicts clock k vs l1 (c1 || c0) in
   match fail_unbound finished later l2 with Some l3 => (l3, true) | None => (l2, c2) end) = (l3, c3) ->
  R p (on_credentials (fun _ => l3) p)).
Context (Raccept : forall p id now, R p (on_credentials (amend id (replaced now)) p)).
Context (Rrename : forall p id label now, R p (on_credentials (amend id (renamed label now)) p)).
Context (Rstart : forall pr am label c,
  moves R (start_authorization paths node_home release runtime_uid describe env pr am label c)).

Hint Resolve Rdisk Rrows : provider_frame.
Hint Resolve Rtick Rabandon Rtake Rbegin Rdelivery Racknowledge : moves.
Hint Extern 1 (moves R (modify (on_finished _))) => apply moves_modify; intros ?; apply Rfinished : moves.

Lemma moves_disk_now {E} : moves R (@disk_now _ _ _ node_home env E).
Proof. unfold disk_now. provider_moves. Qed.
Lemma moves_mark {E} id st : moves R (@mark _ _ _ node_home env E id st).
Proof. unfold mark. provider_moves. Qed.
Lemma moves_runtime_state {E} id : moves R (@runtime_state _ _ _ node_home env E id).
Proof. unfold runtime_state. provider_moves. Qed.
Hint Resolve moves_disk_now moves_mark moves_runtime_state : moves.
Lemma moves_settle_failure {E} id : moves R (@settle_reauthorization_failure _ _ _ node_home env E id).
Proof. unfold settle_reauthorization_failure. provider_moves. Qed.
Lemma moves_in_flight {E} : moves R (@attempt_in_flight _ _ _ node_home env E).
Proof. unfold attempt_in_flight. provider_moves. Qed.
Lemma moves_park {E} f : moves R (@park _ _ _ node_home env E f).
Proof. unfold park. provider_moves. Qed.
Hint Resolve moves_settle_failure moves_in_flight moves_park : moves.
Lemma moves_settle_attempt {E} : moves R (@settle_attempt _ _ _ node_home env E).
Proof. unfold settle_attempt. provider_moves. Qed.
Lemma moves_settle_finished {E} : moves R (@settle_finished_reauthorization _ _ _ node_home env E).
Proof. unfold settle_finished_reauthorization. provider_moves. Qed.
Lemma moves_cli_remove : moves R (cli_remove node_home env).
Proof. unfold cli_remove. provider_moves. Qed.
Lemma moves_cancel_credential id : moves R (cancel_credential node_home env id).
Proof. unfold cancel_credential. provider_moves. Qed.
Lemma moves_verdicts {E} todo : moves R (@verdicts _ _ _ node_home runtime_uid env E todo).
Proof.
  induction todo as [|[id st] todo IH]; cbn [verdicts]; [auto with moves|]. provider_moves.
Qed.
Hint Resolve moves_settle_attempt moves_settle_finished moves_cli_remove moves_cancel_credential moves_verdicts : moves.

Lemma moves_list : moves R (list_credentials sha256 paths node_home runtime_uid env).
Proof.
  unfold list_credentials. do 7 (apply moves_bind; [apply _|unfold pool_list; provider_moves|intros ?]).
  intros p. unfold bind at 1, gets at 1.
  match goal with |- context [reconcile sha256 _ ?pool ?now (pv_registry p)] =>
    pose proof (fun vs clock k finished later l3 c3 => Rlist p pool now vs clock k false finished later l3 c3) as HL;
    destruct (reconcile sha256 "openai-codex" pool now (pv_registry p)) as [l1 c1] end.
  match goal with |- context [apply_verdicts ?clock ?k ?vs l1 c1] =>
    specialize (HL vs clock k); rewrite orb_false_r in HL; destruct (apply_verdicts clock k vs l1 c1) as [l2 c2] end.
  match goal with |- context [fail_unbound ?finished ?later l2] =>
    specialize (HL finished later);
    destruct (match fail_unbound finished later l2 with Some l3 => (l3, true) | None => (l2, c2) end) as [l3 c3] end.
  specialize (HL l3 c3 eq_refl). unfold bind at 1, modify at 1. etransitivity; [exact HL|].
  apply (moves_at R). provider_moves.
Qed.
Lemma moves_usable id : moves R (usable paths node_home release runtime_uid env id).
Proof. unfold usable. provider_moves. Qed.

Lemma moves_reauthorize id c : moves R (reauthorize_credential paths node_home release runtime_uid describe env id c).
Proof. unfold reauthorize_credential. provider_moves. Qed.

Lemma operate_moves o p : R p (operate o p).
Proof.
  destruct o; cbn [operate]; apply (moves_at R);
    unfold provider_state, cancel, take_finished_reauthorization, deliverable_code, cancel_undelivered, provider_state.
  all: try solve [provider_moves | apply moves_list | apply moves_reauthorize | apply moves_usable].
  - unfold accept_reauthorization. provider_moves. apply moves_modify. intros ?. apply Raccept.
  - unfold rename_credential. provider_moves. apply moves_modify. intros ?. apply Rrename.
  - unfold revoke_credential, pool_remove, home_remove. provider_moves.
Qed.
Lemma operated_moves os p : R p (operated os p).
Proof.
  revert p. induction os as [|o os IH]; intros p; [reflexivity|]. cbn. etransitivity; [apply operate_moves|apply IH].
Qed.
End Operations.

Lemma logins_operated os p : logins_ok p -> logins_ok (operated os p).
Proof.
  change (keeps_logins p (operated os p)). apply operated_moves; try apply _; intros; eauto using logins_disk, logins_rows,
    logins_finished with moves.
  unfold start_authorization, disk_now, attempt_in_flight, mark. provider_moves.
  apply moves_modify. intros ?. apply logins_rows.
Qed.

(** C13. At most one login runs on the host, and a device code is never mixed up
    with another login's: after any operations in any order, with processes
    ending and printing at any moment, every login process that still runs and
    was not killed is the one of the attempt in progress, and the code that
    attempt holds was printed by that very process. *)
Theorem one_login_at_a_time d os :
  let p := operated os (Provider_new node_home d) in
  (forall i j c c', pv_children p !! i = Some c -> pv_children p !! j = Some c' ->
     ch_state c = ChildRunning -> ch_state c' = ChildRunning -> i = j)
  /\ (forall i c, pv_children p !! i = Some c -> ch_state c = ChildRunning ->
       exists a, pv_attempt p = Some a /\ child a = i /\ credential_id a = ch_credential_id c)
  /\ (forall a code delivery, pv_attempt p = Some a -> phase a = Waiting code delivery -> pv_generation p < 2 ^ 64 ->
       printed (pv_step p) (child a) code).
Proof.
  intros p. assert (logins_ok p) as Hp.
  { apply logins_operated. split; cbn; try done. constructor. }
  clearbody p. assert (forall i c, pv_children p !! i = Some c -> ch_state c = ChildRunning ->
    exists a, pv_attempt p = Some a /\ child a = i /\ credential_id a = ch_credential_id c) as Hone.
  { intros i c Ec Hrun. destruct (lo_running _ _ Hp i c Ec Hrun) as [(a & Ea & <-)|[]]. exists a.
    destruct (lo_attempt _ _ Hp a Ea) as (c' & Ec' & H1' & _). rewrite Ec in Ec'. injection Ec' as <-. auto. }
  split; [|split; [done|apply (lo_code _ _ Hp)]].
  intros i j c c' Ei Ej Ri Rj. destruct (Hone i c Ei Ri) as (a & Ea & <- & _).
  destruct (Hone j c' Ej Rj) as (a' & Ea' & <- & _). congruence.
Qed.
End Logins.
