(* ===== verification/ProviderTheorems.v ===== *)
(** * ProviderTheorems: what becomes of the credentials' records, of late reports
    and of cancellations ([provider.rs]). *)
From Stdlib Require Import Lia Sorted.
From stdpp Require Import gmap.
From S2P Require Import Prelude Text Fs Identifiers CredentialSwap Credentials CredentialTheorems CredentialHomes.
From S2P Require Import Schema Registry RegistryFacts Inventory Host DeviceCode System Sse RunLock Attachments.
From S2P Require Import ChatHistory Approvals Runner RunnerFacts Provider ProviderLogins.
Import provider devicecode.

(** ** How the record of a credential may change *)

Definition u64_max : Z := 2 ^ 64 - 1.

Record same_credential (c c' : Credential) : Prop := {
  sc_id : cr_id c' = cr_id c;
  sc_provider : cr_provider_id c' = cr_provider_id c;
  sc_method : cr_auth_method c' = cr_auth_method c;
  sc_storage : cr_storage c' = cr_storage c;
  sc_created : cr_created_at c' = cr_created_at c;
  sc_generation : cr_generation c <= u64_max -> cr_generation c <= cr_generation c' <= u64_max
}.
#[export] Instance same_credential_preorder : PreOrder same_credential.
Proof.
  split.
  - intros c. by split.
  - intros a b c [] []. split; try congruence. intros Ha. specialize (sc_generation0 Ha). lia.
Qed.

(** Rows stay where they are; new ones come at the end. *)
Definition rows_evolve (l l' : list Credential) : Prop :=
  forall i c, l !! i = Some c -> exists c', l' !! i = Some c' /\ same_credential c c'.
#[export] Instance rows_evolve_preorder : PreOrder rows_evolve.
Proof.
  split.
  - intros l i c E. exists c. split; [done|reflexivity].
  - intros a b c H1 H2 i x E. destruct (H1 i x E) as (y & Ey & Hy). destruct (H2 i y Ey) as (z & Ez & Hz).
    exists z. split; [done|by etransitivity].
Qed.

Lemma rows_replace l1 c c' l2 : same_credential c c' -> rows_evolve (l1 ++ c :: l2) (l1 ++ c' :: l2).
Proof.
  intros Hc i x. destruct (decide (i < length l1)%nat) as [Hlt|Hge].
  - rewrite !lookup_app_l by done. intros E. exists x. split; [done|reflexivity].
  - rewrite !lookup_app_r by lia. destruct (i - length l1)%nat as [|k]; cbn.
    + intros [= <-]. eauto.
    + intros E. exists x. split; [done|reflexivity].
Qed.
Lemma rows_append l new : rows_evolve l (l ++ new).
Proof. intros i c E. exists c. rewrite lookup_app_l by (by eapply lookup_lt_Some). split; [done|reflexivity]. Qed.
Lemma rows_map f l : (forall c, same_credential c (f c)) -> rows_evolve l (List.map f l).
Proof. intros Hf i c E. exists (f c). change (List.map f l) with (f <$> l). rewrite list_lookup_fmap, E. auto. Qed.

Lemma rows_update_first q f l l' :
  (forall c, q c = true -> same_credential c (f c)) -> update_first q f l = Some l' ->
  rows_evolve l l' /\ length l' = length l.
Proof.
  intros Hf E. apply update_first_Some in E as (l1 & c & l2 & -> & Hq & ->).
  split; [by apply rows_replace, Hf|]. by rewrite !length_app.
Qed.
Lemma rows_amend id f l :
  (forall c, same_credential c (f c)) -> rows_evolve l (amend id f l) /\ length (amend id f l) = length l.
Proof.
  intros Hf. unfold amend. destruct (update_first _ f l) as [l'|] eqn:E; cbn; [|split; reflexivity].
  by eapply rows_update_first.
Qed.

Lemma same_with_state st now c : same_credential c (with_state st now c).
Proof. split; cbn; lia || done. Qed.
Lemma same_bound_to e now c : same_credential c (bound_to e now c).
Proof. split; cbn; lia || done. Qed.
Lemma same_renamed label now c : same_credential c (renamed label now c).
Proof. split; cbn; lia || done. Qed.
Lemma same_replaced now c : same_credential c (replaced now c).
Proof. split; cbn; try done. unfold u64_max. lia. Qed.
#[export] Hint Resolve same_with_state same_bound_to same_renamed same_replaced : core.

Section Rows.
Context (sha256 : string -> list Z).

Lemma rows_adopt pr pool now l :
  rows_evolve l (fst (adopt sha256 pr pool now l))
  /\ (length l <= MAX_CREDENTIALS -> length (fst (adopt sha256 pr pool now l)) <= MAX_CREDENTIALS)%nat.
Proof.
  revert l. induction pool as [|e pool IH]; intros l; cbn [adopt]; [split; [reflexivity|done]|].
  destruct (List.existsb _ l); [apply IH|]. destruct (update_first _ _ l) as [l'|] eqn:E; cbn [fst].
  - apply rows_update_first in E as [H1 H2]; [|auto]. destruct (IH l') as [H3 H4].
    split; [by etransitivity|]. rewrite H2 in H4. done.
  - destruct (Nat.leb_spec MAX_CREDENTIALS (length l)); cbn [fst]; [split; [reflexivity|done]|].
    destruct (IH (l ++ [adopted sha256 pr (pe_id e) now])) as [H3 H4]. split.
    + etransitivity; [apply rows_append|exact H3].
    + intros _. apply H4. rewrite length_app. cbn. lia.
Qed.
Lemma rows_reconcile pr pool now l l' changed :
  reconcile sha256 pr pool now l = (l', changed) ->
  rows_evolve l l' /\ (length l <= MAX_CREDENTIALS -> length l' <= MAX_CREDENTIALS)%nat.
Proof.
  unfold reconcile. destruct (rows_adopt pr pool now l) as [H1 H2].
  destruct (adopt sha256 pr pool now l) as [l1 c1]. cbn [fst] in *. intros [= <- _]. split.
  - etransitivity; [exact H1|]. apply rows_map. intros c. unfold judge. repeat case_match; auto; reflexivity.
  - by rewrite length_map.
Qed.
Lemma rows_verdicts clock k vs l c :
  rows_evolve l (fst (apply_verdicts clock k vs l c)) /\ length (fst (apply_verdicts clock k vs l c)) = length l.
Proof.
  revert k l c. induction vs as [|[id st] vs IH]; intros k l c; cbn [apply_verdicts fst]; [split; reflexivity|].
  destruct (get id l) as [x|]; [|apply IH]. case_bool_decide; [apply IH|].
  destruct (rows_amend id (with_state st (clock k)) l) as [H1 H2]; [auto|].
  destruct (IH (S k) (amend id (with_state st (clock k)) l) true) as [H3 H4].
  split; [by etransitivity|congruence].
Qed.
Lemma rows_fail_unbound o now l l' : fail_unbound o now l = Some l' -> rows_evolve l l' /\ length l' = length l.
Proof.
  unfold fail_unbound. destruct o as [id|]; [|done]. destruct (get id l); [|done]. case_bool_decide; [|done].
  intros [= <-]. apply rows_amend. auto.
Qed.
Lemma rows_listing l pool now vs clock k c0 finished later l3 c3 :
  (let (l1, c1) := reconcile sha256 "openai-codex" pool now l in
   let (l2, c2) := apply_verdicts clock k vs l1 (c1 || c0) in
   match fail_unbound finished later l2 with Some l3 => (l3, true) | None => (l2, c2) end) = (l3, c3) ->
  rows_evolve l l3 /\ (length l <= MAX_CREDENTIALS -> length l3 <= MAX_CREDENTIALS)%nat.
Proof.
  destruct (reconcile sha256 "openai-codex" pool now l) as [l1 c1] eqn:E1.
  apply rows_reconcile in E1 as [R1 B1]. pose proof (rows_verdicts clock k vs l1 (c1 || c0)) as [R2 B2].
  destruct (apply_verdicts clock k vs l1 (c1 || c0)) as [l2 c2]. cbn [fst] in *.
  destruct (fail_unbound finished later l2) as [l4|] eqn:E3; intros [= <- <-].
  - apply rows_fail_unbound in E3 as [R3 B3]. split; [do 2 (etransitivity; [eassumption|]); done|].
    intros Hl. rewrite B3, B2. auto.
  - split; [by etransitivity|]. intros Hl. rewrite B2. auto.
Qed.
End Rows.

(** ** Relations on the records alone *)

Section Records.
Context `{Process} `{RegistryCodec} `{StoreCodec} (sha256 : string -> list Z).
Context (paths : ProviderPaths) (node_home release : string) (runtime_uid : Z).
Context (describe : FsError -> string) (env : nat -> Moment).
Context (Q : list Credential -> list Credential -> Prop) `{!PreOrder Q}.
Context (Qstate : forall id st now l, Q l (amend id (with_state st now) l)).

Definition on_rows (p p' : Provider) : Prop := Q (pv_registry p) (pv_registry p').
#[local] Instance on_rows_preorder : PreOrder on_rows.
Proof. split; [intros p; unfold on_rows; reflexivity|]. intros a b c H2 H3. unfold on_rows in *. by etransitivity. Qed.

Lemma on_rows_same p p' : pv_registry p' = pv_registry p -> on_rows p p'.
Proof. unfold on_rows. intros ->. reflexivity. Qed.
Lemma rows_kill pid p : pv_registry (kill pid p) = pv_registry p.
Proof. unfold kill. by case_match. Qed.
Lemma on_rows_local {E} (f : Provider -> Provider) :
  (forall p, pv_registry (f p) = pv_registry p) -> moves on_rows (@modify (Outcome E) _ f).
Proof. intros Hf. apply moves_modify. intros p. by apply on_rows_same. Qed.

#[local] Hint Extern 1 (on_rows _ (with_disk _ _)) => by apply on_rows_same : provider_frame.
#[local] Hint Extern 1 (on_rows _ (on_credentials _ _)) => apply Qstate : provider_frame.
#[local] Hint Extern 2 (moves on_rows (modify _)) =>
  apply on_rows_local; intros ?; first [apply rows_kill | done | by case_match] : moves.

Lemma on_rows_event e p : on_rows p (snd (perform_event node_home e p)).
Proof.
  apply (moves_at on_rows). destruct e; cbn [perform_event]; unfold record_code, abandon_section, drop_attempt; provider_moves.
Qed.
Lemma on_rows_tick {E} : moves on_rows (@tick _ _ _ node_home env E).
Proof. apply moves_provider_tick; [apply _|intros; apply on_rows_event|intros; by apply on_rows_same]. Qed.
#[local] Hint Resolve on_rows_tick : moves.
Lemma on_rows_abandon {E} : moves on_rows (@abandon_attempt _ _ _ node_home env E).
Proof. unfold abandon_attempt, drop_attempt. provider_moves. Qed.
Lemma on_rows_take {E} only : moves on_rows (@take_ended _ _ _ node_home env E only).
Proof. unfold take_ended. provider_moves. Qed.
Lemma on_rows_begin pr id h c st : moves on_rows (begin_login node_home env pr id h c st).
Proof. unfold begin_login, drop_attempt. provider_moves. Qed.
Lemma on_rows_delivery {E} id c d : moves on_rows (@delivery_sent _ _ _ node_home env E id c d).
Proof. unfold delivery_sent. provider_moves. Qed.
Lemma on_rows_acknowledge {E} c : moves on_rows (@acknowledge_delivery _ _ _ node_home env E c).
Proof. unfold acknowledge_delivery. provider_moves. Qed.
Lemma on_rows_mark {E} id st : moves on_rows (@mark _ _ _ node_home env E id st).
Proof. unfold mark. provider_moves. Qed.

(** The operations that change rows in ways of their own. *)
Context (Qlist : forall l pool now vs clock k c0 finished later l3 c3,
  (let (l1, c1) := reconcile sha256 "openai-codex" pool now l in
   let (l2, c2) := apply_verdicts clock k vs l1 (c1 || c0) in
   match fail_unbound finished later l2 with Some l3 => (l3, true) | None => (l2, c2) end) = (l3, c3) -> Q l l3).
Context (Qaccept : forall id now l, Q l (amend id (replaced now) l)).
Context (Qrename : forall id label now l, Q l (amend id (renamed label now) l)).
Context (Qstart : forall pr am label c,
  moves on_rows (start_authorization paths node_home release runtime_uid describe env pr am label c)).
Lemma on_rows_operated os p :
  on_rows p (operated env sha256 paths node_home release runtime_uid describe os p).
Proof.
  apply operated_moves; try apply _; intros; try (by apply on_rows_same).
  - apply Qstate.
  - apply on_rows_tick.
  - apply on_rows_abandon.
  - apply on_rows_take.
  - apply on_rows_begin.
  - apply on_rows_delivery.
  - apply on_rows_acknowledge.
  - eapply Qlist; eassumption.
  - apply Qaccept.
  - apply Qrename.
  - apply Qstart.
Qed.
End Records.

Section Theorems.
Context `{Process} `{RegistryCodec} `{StoreCodec} (sha256 : string -> list Z).
Context (paths : ProviderPaths) (node_home release : string) (runtime_uid : Z).
Context (describe : FsError -> string) (env : nat -> Moment).

Abbreviation evolves := (on_rows rows_evolve).
#[local] Instance evolves_preorder : PreOrder evolves.
Proof. apply on_rows_preorder, _. Qed.
#[local] Hint Extern 1 (evolves _ (with_disk _ _)) => apply on_rows_same; first [done | apply _] : provider_frame.
#[local] Hint Extern 1 (evolves _ (on_credentials _ _)) => apply rows_amend; auto : provider_frame.

Lemma evolve_state id st now l : rows_evolve l (amend id (with_state st now) l).
Proof. apply rows_amend. auto. Qed.
Lemma evolve_tick {E} : moves evolves (@tick _ _ _ node_home env E).
Proof. apply on_rows_tick; [apply _|apply evolve_state]. Qed.
Lemma evolve_begin pr id h c st : moves evolves (begin_login node_home env pr id h c st).
Proof. apply on_rows_begin; [apply _|apply evolve_state]. Qed.
#[local] Hint Resolve evolve_tick evolve_begin : moves.
Lemma evolve_start pr am label c :
  moves evolves (start_authorization paths node_home release runtime_uid describe env pr am label c).
Proof.
  unfold start_authorization, disk_now, attempt_in_flight, mark. provider_moves.
  apply moves_modify. intros p. apply rows_append.
Qed.
Lemma evolve_operated os p :
  evolves p (operated env sha256 paths node_home release runtime_uid describe os p).
Proof.
  apply on_rows_operated; [apply _|apply evolve_state| | | |apply evolve_start].
  - intros. by eapply rows_listing.
  - intros. apply rows_amend. auto.
  - intros. apply rows_amend. auto.
Qed.

(** How many rows a program adds at most. *)
Definition grows {E A} (n : nat) (m : P E A) : Prop :=
  forall p, (length (pv_registry (snd (m p))) <= length (pv_registry p) + n)%nat.
Lemma grows_bind {E A B} n k (m : P E A) (f : A -> P E B) :
  grows n m -> (forall a, grows k (f a)) -> grows (n + k) (bind m f).
Proof.
  intros Hm Hf p. unfold bind. specialize (Hm p). destruct (m p) as [[a|e] p1]; cbn [snd] in *; [|lia].
  specialize (Hf a p1). lia.
Qed.
Definition no_longer (l l' : list Credential) : Prop := (length l' <= length l)%nat.
#[local] Instance no_longer_preorder : PreOrder no_longer.
Proof. unfold no_longer. split; [intros ?; lia|intros ?????; lia]. Qed.
Lemma no_longer_state id st now l : no_longer l (amend id (with_state st now) l).
Proof. unfold no_longer. destruct (rows_amend id (with_state st now) l) as [_ ->]; auto. Qed.
Lemma grows_none {E A} (m : P E A) : moves (on_rows no_longer) m -> grows 0 m.
Proof. intros Hm p. specialize (Hm p). unfold on_rows, no_longer in Hm. lia. Qed.

Abbreviation bounded := (on_rows (fun l l' => length l <= MAX_CREDENTIALS -> length l' <= MAX_CREDENTIALS)%nat).
#[local] Instance bounded_preorder : PreOrder (fun l l' : list Credential =>
  length l <= MAX_CREDENTIALS -> length l' <= MAX_CREDENTIALS)%nat.
Proof. split; [by intros l|]. intros a b c; auto. Qed.
#[local] Instance bounded_preorder' : PreOrder bounded.
Proof. apply on_rows_preorder, _. Qed.
Lemma bounded_of {E A} (m : P E A) : moves (on_rows no_longer) m -> moves bounded m.
Proof. intros Hm p. specialize (Hm p). unfold on_rows, no_longer in *. lia. Qed.

#[local] Instance no_longer_preorder' : PreOrder (on_rows no_longer).
Proof. apply on_rows_preorder, _. Qed.
#[local] Hint Extern 1 (on_rows no_longer _ (with_disk _ _)) => apply on_rows_same; first [done | apply _] : provider_frame.
#[local] Hint Extern 1 (on_rows no_longer _ (on_credentials _ _)) => apply no_longer_state : provider_frame.
Lemma nl_tick {E} : moves (on_rows no_longer) (@tick _ _ _ node_home env E).
Proof. apply on_rows_tick; [apply _|apply no_longer_state]. Qed.
Lemma nl_begin pr id h c st : moves (on_rows no_longer) (begin_login node_home env pr id h c st).
Proof. apply on_rows_begin; [apply _|apply no_longer_state]. Qed.
#[local] Hint Resolve nl_tick nl_begin : moves.

Lemma bounded_start pr am label c :
  moves bounded (start_authorization paths node_home release runtime_uid describe env pr am label c).
Proof.
  unfold start_authorization.
  do 3 (cbv zeta; apply moves_bind; [apply _|apply bounded_of; unfold disk_now; provider_moves|intros ?]).
  apply moves_bind; [apply _| |intros flying]; [apply bounded_of; unfold attempt_in_flight; provider_moves|].
  destruct flying as [x|]; [apply bounded_of; provider_moves|]. intros p Hp. unfold bind at 1.
  pose proof (@nl_tick AuthorizationRefusal p) as Ht. unfold bind at 1.
  destruct (tick node_home env p) as [[m|e] p1]; cbn [snd] in *; unfold on_rows, no_longer in Ht; [|lia].
  unfold gets at 1. destruct (Nat.leb_spec MAX_CREDENTIALS (length (pv_registry p1))); [cbn; lia|].
  enough (forall q, (length (pv_registry (snd ((let! m := tick node_home env in
     let id := new_credential_id (m_random m) in
     let! h := mapping (home_unavailable describe) (on_disk (create_home (credential_root node_home) id runtime_uid)) in
     let! m := tick node_home env in
     modify (on_credentials (fun l => l ++
       [new_credential id pr am (of_chars (trim (chars label))) (m_clock m 0) (m_clock m 1)])) ;;;
     persist node_home ;;;
     let! begun := attempting (begin_login node_home env pr id h c None) in
     match begun with
     | Ok _ => ret id
     | Err refusal => mark node_home env id AttemptFailed ;;; throw refusal
     end) q))) <= length (pv_registry q) + 1)%nat) as Hq by (specialize (Hq p1); cbv zeta in Hq; lia).
  apply (grows_bind 0 1); [apply grows_none; provider_moves|intros m'].
  apply (grows_bind 0 1); [apply grows_none; provider_moves|intros h].
  apply (grows_bind 0 1); [apply grows_none; provider_moves|intros m2].
  apply (grows_bind 1 0); [intros q; cbn; rewrite length_app; cbn; lia|intros _].
  apply grows_none. unfold mark. provider_moves.
Qed.

(** The records of credentials outlive everything that happens to a login:
    whatever operations are performed in whatever order, a credential keeps its
    place, its id, its provider, its method, its storage and its creation time,
    its generation never goes back, and the node never holds more than the
    sixteen it allows. *)
Theorem credentials_keep_their_identity os p :
  let p' := operated env sha256 paths node_home release runtime_uid describe os p in
  (forall i c, pv_registry p !! i = Some c -> exists c', pv_registry p' !! i = Some c' /\ same_credential c c')
  /\ (length (pv_registry p) <= MAX_CREDENTIALS -> length (pv_registry p') <= MAX_CREDENTIALS)%nat.
Proof.
  split; [apply evolve_operated|].
  apply (on_rows_operated sha256 paths node_home release runtime_uid describe env
           (fun l l' => length l <= MAX_CREDENTIALS -> length l' <= MAX_CREDENTIALS)%nat); try apply bounded_start.
  - intros. by destruct (rows_amend id (with_state st now) l) as [_ ->]; auto.
  - intros. by eapply rows_listing.
  - intros. by destruct (rows_amend id (replaced now) l) as [_ ->]; auto.
  - intros. by destruct (rows_amend id (renamed label now) l) as [_ ->]; auto.
Qed.

(** ** Late reports *)

Lemma get_first id l c : get id l = Some c <-> exists i, l !! i = Some c /\ cr_id c = id
  /\ forall j x, (j < i)%nat -> l !! j = Some x -> cr_id x <> id.
Proof.
  unfold get. split.
  - induction l as [|x l IH]; [done|]. cbn. destruct (String.eqb_spec (cr_id x) id) as [Hx|Hx].
    + intros [= ->]. exists 0%nat. split; [done|]. split; [done|]. intros j y Hj. lia.
    + intros (i & Hi & Hid & Hfirst)%IH. exists (S i). split; [done|]. split; [done|].
      intros [|j] y Hj; cbn; [by intros [= <-]|]. apply Hfirst. lia.
  - intros (i & Hi & Hid & Hfirst). revert i Hi Hfirst. induction l as [|x l IH]; [done|]. intros [|i] Hi Hfirst; cbn.
    + injection Hi as ->. by rewrite Hid, String.eqb_refl.
    + destruct (String.eqb_spec (cr_id x) id) as [Hx|Hx]; [by destruct (Hfirst 0%nat x); [lia|..]|].
      apply (IH i); [done|]. intros j y Hj. apply (Hfirst (S j)). lia.
Qed.

(** The row an id names stays the one it names. *)
Lemma get_evolves id l l' c :
  rows_evolve l l' -> get id l = Some c -> exists c', get id l' = Some c' /\ same_credential c c'.
Proof.
  intros Hev (i & Hi & Hid & Hfirst)%get_first. destruct (Hev i c Hi) as (c' & Hi' & Hsame).
  exists c'. split; [|done]. apply get_first. exists i. split; [done|]. split; [by rewrite (sc_id _ _ Hsame)|].
  intros j x Hj Hx. destruct (lookup_lt_is_Some_2 l j) as [y Hy].
  { apply lookup_lt_Some in Hi. lia. }
  destruct (Hev j y Hy) as (x' & Hx' & Hs). rewrite Hx in Hx'. injection Hx' as <-.
  rewrite (sc_id _ _ Hs). by apply (Hfirst j).
Qed.

Lemma update_first_get id f l c :
  get id l = Some c -> cr_id (f c) = cr_id c -> get id (amend id f l) = Some (f c).
Proof.
  unfold get, amend. induction l as [|x l IH]; [done|]. cbn. destruct (String.eqb_spec (cr_id x) id) as [Hx|Hx].
  - intros [= ->] Hf. cbn. by rewrite Hf, Hx, String.eqb_refl.
  - intros Hg Hf. specialize (IH Hg Hf). destruct (update_first _ f l) as [r|]; cbn in *;
      rewrite (proj2 (String.eqb_neq _ _) Hx); done.
Qed.

(** C14. A run never undoes a reauthorization it did not take part in: the report
    of a run that began under an older generation of a credential changes
    nothing once new material was accepted, whatever happened in between and
    since. *)
Theorem stale_report_changes_nothing id c p0 os p1 os' now :
  get id (pv_registry p0) = Some c -> 0 <= cr_generation c < u64_max ->
  @accept_reauthorization _ _ _ node_home env Empty_set id
    (operated env sha256 paths node_home release runtime_uid describe os p0) = (Ok tt, p1) ->
  let p2 := operated env sha256 paths node_home release runtime_uid describe os' p1 in
  @report_grant_dead _ _ node_home Empty_set id (cr_generation c) now p2 = (Ok false, p2).
Proof.
  intros Hg Hb Hacc p2. assert (exists c2, get id (pv_registry p2) = Some c2 /\ cr_generation c < cr_generation c2)
    as (c2 & Hg2 & Hlt).
  { destruct (get_evolves id _ _ c (evolve_operated os p0) Hg) as (ca & Hga & Hsa).
    revert Hacc. generalize dependent (operated env sha256 paths node_home release runtime_uid describe os p0).
    intros pa Hga. unfold accept_reauthorization. intros (m & pb & Ht & Hacc)%bind_Ok.
    pose proof (@evolve_tick Empty_set pa) as Hev. rewrite Ht in Hev. cbn [snd] in Hev.
    destruct (get_evolves id _ _ ca Hev Hga) as (cb & Hgb & Hsb).
    apply bind_Ok in Hacc as ([] & pc & [= <-] & Hp). subst.
    assert (pv_registry p1 = amend id (replaced (m_clock m 0)) (pv_registry pb)) as Hr.
    { assert (moves (on_rows eq) (@persist _ _ node_home Empty_set)) as Hper.
      { apply moves_persist; [apply on_rows_preorder, _|by intros]. }
      specialize (Hper (on_credentials (amend id (replaced (m_clock m 0))) pb)). rewrite Hp in Hper. by symmetry. }
    assert (get id (pv_registry p1) = Some (replaced (m_clock m 0) cb)) as Hg1.
    { rewrite Hr. by apply update_first_get. }
    destruct (get_evolves id _ _ _ (evolve_operated os' p1) Hg1) as (c2 & Hg2 & Hs2).
    exists c2. split; [exact Hg2|].
    pose proof (sc_generation _ _ Hsa). pose proof (sc_generation _ _ Hsb). pose proof (sc_generation _ _ Hs2) as Hlast.
    cbn [cr_generation replaced] in Hlast. unfold u64_max in *. lia. }
  clearbody p2. unfold report_grant_dead, bind, gets. rewrite Hg2.
  destruct (Z.eqb_spec (cr_generation c2) (cr_generation c)); [lia|]. done.
Qed.

(** ** What a usable credential is *)

Lemma evolve_disk_now {E} : moves evolves (@disk_now _ _ _ node_home env E).
Proof. unfold disk_now. provider_moves. Qed.

(** Nothing for the group or for others, and owned by [uid]. *)
Definition owner_only (x : Node) (uid : Z) : Prop :=
  f_owner x = uid /\ forall bit, 0 <= bit < 6 -> Z.testbit (f_mode x) bit = false.

(** The credential's directories and its store, none of them reached through a
    link: the root and the home are directories and the store [auth.json] is a
    regular file with something in it, all closed to everybody but the account. *)
Record private_material (n : gmap string Node) (root id : string) (uid : Z) : Prop := {
  pm_root : exists x, symlink_metadata n root = Some x /\ f_kind x = Directory /\ owner_only x uid;
  pm_home : exists x, symlink_metadata n (path_join root id) = Some x /\ f_kind x = Directory /\ owner_only x uid;
  pm_store : exists x, symlink_metadata n (path_join (path_join root id) "auth.json") = Some x
    /\ f_kind x = RegularFile /\ owner_only x uid /\ f_body x <> []
}.

Lemma no_group_or_others m : (Z.land m 0x3F =? 0) = true -> forall bit, 0 <= bit < 6 -> Z.testbit m bit = false.
Proof.
  intros E%Z.eqb_eq bit Hb. assert (Z.testbit (Z.land m 0x3F) bit = false) as Ht by (rewrite E; apply Z.bits_0).
  rewrite Z.land_spec in Ht. change 0x3F with (Z.ones 6) in Ht. rewrite Z.ones_spec_low in Ht by lia.
  by rewrite andb_true_r in Ht.
Qed.

Lemma check_private_dir_ok x uid what :
  is_ok (check_private_dir x uid what) = true -> f_kind x = Directory /\ owner_only x uid.
Proof.
  unfold check_private_dir. case_bool_decide; [done|]. case_bool_decide as Hk; [|done]. cbn [negb].
  destruct (Z.eqb_spec (f_owner x) uid); [|done]. cbn [negb].
  destruct (Z.land _ 0x3F =? 0) eqn:Em; [|done]. intros _. split; [done|]. split; [done|].
  intros bit Hb. pose proof (no_group_or_others _ Em bit Hb) as Ht. rewrite Z.land_spec in Ht.
  change 0x1FF with (Z.ones 9) in Ht. rewrite Z.ones_spec_low in Ht by lia. by rewrite andb_true_r in Ht.
Qed.

Lemma inspect_ready n root id uid : inspect n root id uid = Ready -> private_material n root id uid.
Proof.
  unfold inspect, home. destruct (validate_id id); [|done].
  destruct (symlink_metadata n root) as [x|] eqn:Er; [|done].
  destruct (is_ok _) eqn:E1; [|done]. cbn [negb].
  destruct (symlink_metadata n (path_join root id)) as [y|] eqn:Eh; [|done].
  destruct (is_ok (check_private_dir y _ _)) eqn:E2; [|done]. cbn [negb].
  destruct (symlink_metadata n (path_join (path_join root id) _)) as [z|] eqn:Es; [|done].
  case_bool_decide; [done|]. case_bool_decide as Hk; [|done]. cbn [orb negb].
  destruct (Z.eqb_spec (f_owner z) uid); [|done]. destruct (Z.land _ 0x3F =? 0) eqn:Em; [|done]. cbn [orb negb].
  case_bool_decide; [done|]. intros _. split.
  - exists x. by split; [|eapply check_private_dir_ok].
  - exists y. by split; [|eapply check_private_dir_ok].
  - exists z. split; [done|]. split; [done|]. split; [|done]. split; [done|]. by apply no_group_or_others.
Qed.


(** A confirmed code is never taken back: a login whose code the Control Plane
    acknowledged is left alone by the cancellation of undelivered codes, when the
    session ends and when deadlines pass. *)
Theorem acknowledged_code_is_kept a code ended now p m p1 :
  @tick _ _ _ node_home env Empty_set p = (Ok m, p1) -> pv_attempt p1 = Some a -> phase a = Waiting code Acknowledged ->
  cancel_undelivered node_home env ended now p = (Ok None : Result (Outcome Empty_set) _, p1).
Proof.
  intros Ht Ea Hp. unfold cancel_undelivered, bind at 1, bind at 1. rewrite Ht. unfold gets. rewrite Ea, Hp. done.
Qed.
End Theorems.

(** ** A host with one credential, at which the theorems about
    logins are applied, and two sequences of commands whose outcome is not what
    [provider.rs] says. *)

Module ProviderSamples.
#[export] Existing Instance CredentialSamples.codec.
#[export] Instance account : Process := {| euid := 7; umask := 0x12 |}.
(** A store that names the one credential of the host. *)
#[export] Instance store_codec : StoreCodec :=
  {| parse_store raw := if bool_decide (raw = $"store") then Some {["openai-codex"%string := [HomeSamples.record]]} else None |}.

Definition folder : Node := {| f_kind := Directory; f_owner := 7; f_mode := 0x1C0; f_body := [] |}.
Definition file : Node := {| f_kind := RegularFile; f_owner := 7; f_mode := 0x180; f_body := $"store" |}.
Definition host_paths : ProviderPaths := {| hermes_home := "/h"; hermes_binary := "/bin/hermes" |}.
Definition host_disk : Disk :=
  {| nodes := <["/bin/hermes" := file]> (<["/n" := folder]> (<["/n/node" := folder]> (<["/n/credentials" := folder]>
       (<["/n/credentials/cred-1" := folder]> (<["/n/credentials/cred-1/auth.json" := file]> ∅))))); plan := [] |}.

(** [calls k] is what happens beside the [k]th section. *)
Definition moment (es : list Event) : Moment :=
  {| m_meanwhile := es; m_clock := fun _ => 100; m_random := [1; 2; 3; 4; 5; 6; 7; 8]; m_nonce := "n1";
     m_spawn := None; m_pipes := true; m_cli := Ok (true, [], []) |}.
Definition beside (calls : nat -> list Event) (k : nat) : Moment := moment (calls k).
Definition alone : nat -> Moment := beside (fun _ => []).

Definition cred_1 (st : CredentialState) : Credential :=
  {| cr_id := "cred-1"; cr_provider_id := "openai-codex"; cr_auth_method := "device_authorization"; cr_label := "One";
     cr_state := st; cr_storage := Isolated; cr_pool_entry := None; cr_generation := 3; cr_created_at := 1; cr_updated_at := 1 |}.
Definition node_with (st : CredentialState) : Provider :=
  on_credentials (fun _ => [cred_1 st]) (Provider_new "/n" host_disk).

Definition run_all (env : nat -> Moment) (os : list Operation) (p : Provider) : Provider :=
  operated env (fun _ => [1; 2; 3; 4; 5; 6; 7; 8]) host_paths "/n" "r1" 7 (fun _ => "no home"%string) os p.
Definition state_of (p : Provider) : option CredentialState := cr_state <$> get "cred-1" (pv_registry p).

(** A replacement login whose process prints a code, and ends. *)
Definition code : DeviceCode :=
  {| verification_uri := "https://auth.example.com/device"; user_code := "RCB8-M9COT"; expires_in_seconds := 900 |}.
Definition login_ends (k : nat) : list Event :=
  if (k =? 7)%nat then [CodePrinted 0 code] else if (k =? 8)%nat then [ChildEnds 0] else [].
Definition relogin : list Operation := [Reauthorize "cred-1" (Some "cmd-1"%string); DeliverableCode].

Example login_is_waiting :
  let p := run_all (beside login_ends) relogin (node_with Authorized) in
  state_of p = Some Reauthorizing /\ in_flight p = Some "cred-1"%string
  /\ (phase <$> pv_attempt p) = Some (Waiting code Pending).
Proof. vm_compute. done. Qed.

(** A finished login that is parked is not withdrawn by a revocation: the
    material it staged still counts as current, and accepting it makes the
    revoked credential authorized again. *)
Lemma revoked_credential_comes_back :
  let p := run_all (beside login_ends) (relogin ++ [ListCredentials; RevokeCredential "cred-1"]) (node_with Authorized) in
  state_of p = Some Revoked
  /\ (exists f, pv_finished p = Some f /\ fr_credential_id f = "cred-1"%string
                /\ generation_is_current (fr_generation f) p = true)
  /\ state_of (run_all (beside login_ends) [TakeFinished; AcceptReauthorization "cred-1"] p) = Some Authorized.
Proof. split; [vm_compute; done|]. split; [eexists; vm_compute; done|]. vm_compute. done. Qed.

(** Cancelling a credential that no login is running for marks it failed: an
    authorized one stops being usable, a revoked one stops being revoked. *)
Lemma cancel_marks_idle_credential_failed :
  state_of (run_all alone [CancelCredential "cred-1"] (node_with Authorized)) = Some AttemptFailed
  /\ state_of (run_all alone [CancelCredential "cred-1"] (node_with Revoked)) = Some AttemptFailed.
Proof. split; vm_compute; done. Qed.

(** ** Witnesses *)


Lemma stale_report_changes_nothing_witness :
  let p1 := snd (@accept_reauthorization _ _ _ "/n" alone Empty_set "cred-1" (node_with Authorized)) in
  @report_grant_dead _ _ "/n" Empty_set "cred-1" 3 200 p1 = (Ok false, p1).
Proof.
  intros p1. assert (fst (@accept_reauthorization _ _ _ "/n" alone Empty_set "cred-1" (node_with Authorized)) = Ok tt) as Hok
    by (vm_compute; reflexivity).
  apply (stale_report_changes_nothing (fun _ => []) host_paths "/n" "r1" 7 (fun _ => ""%string) alone "cred-1"
           (cred_1 Authorized) (node_with Authorized) [] p1 [] 200); [reflexivity|done|].
  unfold p1. cbn [operated List.fold_left]. destruct (accept_reauthorization _ _ _ _) as [r q]. cbn in *. by subst.
Defined.
End ProviderSamples.
