(* ===== verification/ActiveRuns.v ===== *)
(** * ActiveRuns: which projects have no active run, and which are in Trash, as the
    registry changes.

    A call that does not create a run gives no project an active run, and a call
    that creates one concerns its own project only; a call that does not set
    [suspended_at] puts no project into Trash. *)
From Stdlib Require Import Lia Sorted.
From stdpp Require Import relations.
From S2P Require Import Prelude Text Json RunState Redact Schema Registry RegistryFacts Evolution.
From S2P Require Import Remote RemoteFacts Identifiers Inventory InventoryFacts System Sse RunLock.
From S2P Require Import Attachments ChatHistory Approvals Runner RunnerFacts.

(** ** Lists that correspond *)

Section Corresponding.
Context {R : Type} (ev : R -> R -> Prop).

Lemma Forall2_select p t t' :
  (forall a b, ev a b -> p b = p a) -> Forall2 ev t t' -> Forall2 ev (select p t) (select p t').
Proof.
  intros Hp. induction 1 as [|a b t t' Hab _ IH]; cbn; [constructor|].
  rewrite (Hp a b Hab). destruct (p a); [by constructor|done].
Qed.

Lemma Forall2_insert_by le a b t t' :
  (forall x x' y y', ev x x' -> ev y y' -> le x' y' = le x y) ->
  ev a b -> Forall2 ev t t' -> Forall2 ev (insert_by le a t) (insert_by le b t').
Proof.
  intros Hle Hab. induction 1 as [|x y t t' Hxy Ht IH]; cbn; [by repeat constructor|].
  rewrite (Hle a b x y Hab Hxy). destruct (le a x); repeat (constructor; try done).
Qed.

Lemma Forall2_order_by le t t' :
  (forall x x' y y', ev x x' -> ev y y' -> le x' y' = le x y) ->
  Forall2 ev t t' -> Forall2 ev (order_by le t) (order_by le t').
Proof.
  intros Hle. induction 1 as [|a b t t' Hab _ IH]; cbn; [constructor|]. by apply Forall2_insert_by.
Qed.

Lemma Forall2_limit n t t' : Forall2 ev t t' -> Forall2 ev (limit n t) (limit n t').
Proof. intros Ht. unfold limit. destruct (n <? 0); [done|]. by apply Forall2_take. Qed.

Lemma StronglySorted_app_earlier t t' : StronglySorted ev (t ++ t') -> forall a b, In a t -> In b t' -> ev a b.
Proof.
  induction t as [|x t IH]; [done|]. intros [Hs Hx]%StronglySorted_inv a b [<-|Ha] Hb; [|by apply IH].
  rewrite List.Forall_forall in Hx. apply Hx, in_app_iff. by right.
Qed.

Lemma rows_Forall2 t t' : rows_evolve ev t t' -> length t' = length t -> Forall2 ev t t'.
Proof.
  intros Hev Hlen. apply Forall2_same_length_lookup. split; [done|]. intros i a b Ha Hb.
  destruct (Hev i a Ha) as (b' & Hb' & Hab). congruence.
Qed.
End Corresponding.

Section ActiveRuns.
Context `{SerdeJson}.

(** ** Idle projects *)

Definition live_row (r : RunRow) : bool :=
  match RunStatus.parse (r_status r) with Ok st => RunStatus.is_active st | Err _ => false end.

(** The rows [list_runs] looks at. *)
Definition newest (project : string) (db : Db) : list RunRow :=
  limit 1000 (order_by (fun a b => r_created_at b <=? r_created_at a)
    (List.rev (select (fun r => (r_project_id r =? project)%string) (runs db)))).

Lemma In_newest project db r : In r (newest project db) -> In r (runs db) /\ r_project_id r = project.
Proof.
  unfold newest, limit. change (1000 <? 0) with false. cbv iota.
  intros Hin%list_elem_of_In%list.subseteq_take%list_elem_of_In.
  apply In_order_by, in_rev in Hin. apply In_select in Hin as [? E%String.eqb_eq]. done.
Qed.

Lemma idle_iff project db :
  wf db -> active_runs project db = [] <-> (forall r, In r (newest project db) -> live_row r = false).
Proof.
  intros Hwf.
  assert (forall r, In r (newest project db) -> load_run db (r_run_id r) = Some (map_run r)) as Hload.
  { intros r [Hin _]%In_newest. unfold load_run. by rewrite (proj2 (select_run _ _ _ Hwf) (conj Hin eq_refl)). }
  unfold active_runs. split.
  - intros Hnil r Hr. destruct (live_row r) eqn:El; [|done]. exfalso.
    cut (In (map_run r) []); [done|]. rewrite <- Hnil. apply -> in_rev. apply filter_In. split; [|done].
    apply list_elem_of_In, list_elem_of_omap. exists (r_run_id r). split; [|by apply Hload].
    by apply list_elem_of_In, in_map.
  - intros Hdead. destruct (List.filter _ _) as [|x l] eqn:E; [done|]. exfalso.
    assert (In x (x :: l)) as Hx by (by left). rewrite <- E in Hx. apply filter_In in Hx as [Hx Hl].
    apply list_elem_of_In, list_elem_of_omap in Hx as (id & Hid & Hx).
    apply list_elem_of_In, in_map_iff in Hid as (r & <- & Hr). rewrite (Hload r Hr) in Hx. injection Hx as <-.
    specialize (Hdead r Hr). unfold live_row in Hdead. cbn in Hl. congruence.
Qed.

(** The runs of [r]'s project, besides [r] itself, that were created no earlier. *)
Definition runs_since (r : RunRow) (db : Db) : list RunRow :=
  select (fun x => (r_project_id x =? r_project_id r)%string && (r_created_at r <=? r_created_at x)
                   && negb (r_run_id x =? r_run_id r)%string) (runs db).
(** [active_runs] looks at the newest 1000 runs of a project only.  A project at
    rest has no live run but such as are hidden behind 1000 newer ones; in
    particular it has none at all while it has no more than 1000 runs. *)
Definition at_rest (project : string) (db : Db) : Prop :=
  (forall r, In r (runs db) -> r_project_id r = project -> live_row r = true -> (1000 <= length (runs_since r db))%nat)
  /\ ((length (select (fun r => (r_project_id r =? project)%string) (runs db)) <= 1000)%nat ->
      forall r, In r (runs db) -> r_project_id r = project -> live_row r = false).

Lemma same_run_id db r x : wf db -> In r (runs db) -> In x (runs db) -> r_run_id x = r_run_id r -> x = r.
Proof. intros Hwf Hr Hx E. apply (NoDup_map_inj r_run_id (runs db)); try done. apply NoDup_ListNoDup, (wf_run_ids _ Hwf). Qed.
Lemma hidden_behind project db r :
  wf db -> In r (runs db) -> r_project_id r = project -> ~ In r (newest project db) ->
  (1000 <= length (runs_since r db))%nat.
Proof.
  intros Hwf Hr Hp Hout. unfold newest in Hout. set (le := fun a b => r_created_at b <=? r_created_at a) in Hout.
  set (rows := List.rev _) in Hout. change (limit 1000 (order_by le rows)) with (firstn (Z.to_nat 1000) (order_by le rows)) in Hout.
  set (first := firstn _ _) in Hout.
  assert (In r rows) as Hin. { apply -> in_rev. apply In_select. by rewrite Hp, String.eqb_refl. }
  assert (In r (skipn (Z.to_nat 1000) (order_by le rows))) as Hlater.
  { apply (In_order_by le) in Hin. rewrite <- (firstn_skipn (Z.to_nat 1000)) in Hin. by apply in_app_iff in Hin as [?|?]. }
  assert (length first = 1000%nat) as <-.
  { unfold first. rewrite firstn_length_le; [done|]. destruct (decide (length (order_by le rows) <= Z.to_nat 1000)%nat); [|lia].
    by rewrite skipn_all2 in Hlater. }
  apply NoDup_incl_length.
  - assert (NoDup (order_by le rows)) as Hnd.
    { rewrite order_by_perm. unfold rows. rewrite <- Permutation_rev. apply NoDup_ListNoDup, List.NoDup_filter, NoDup_ListNoDup.
      eapply NoDup_fmap_1, (wf_run_ids _ Hwf). }
    rewrite <- (firstn_skipn (Z.to_nat 1000)) in Hnd. apply list.NoDup_app in Hnd as [? _]. by apply NoDup_ListNoDup.
  - intros x Hx. assert (In x rows) as [Hxin Hxp%String.eqb_eq]%in_rev%In_select.
    { apply (In_order_by le). rewrite <- (firstn_skipn (Z.to_nat 1000)). apply in_app_iff. by left. }
    assert (le x r = true) as Hle.
    { refine (StronglySorted_app_earlier (fun a b => le a b = true) first _ _ x r Hx Hlater). unfold first. rewrite firstn_skipn.
      apply order_by_sorted; unfold le; intros *; rewrite !Z.leb_le; lia. }
    apply In_select. split; [done|]. rewrite Hxp, Hp, String.eqb_refl. unfold le in Hle. rewrite Hle. cbn.
    destruct (String.eqb_spec (r_run_id x) (r_run_id r)) as [E|]; [|done]. exfalso. apply Hout. by rewrite <- (same_run_id db r x).
Qed.
Lemma idle_at_rest project db : wf db -> active_runs project db = [] -> at_rest project db.
Proof.
  intros Hwf Hidle. pose proof (proj1 (idle_iff project db Hwf) Hidle) as Hdead. split.
  - intros r Hr Hp Hl. apply (hidden_behind project); try done. intros Hn. specialize (Hdead r Hn). congruence.
  - intros Hfew r Hr Hp. apply Hdead. unfold newest, limit. change (1000 <? 0) with false. cbv iota.
    rewrite firstn_all2.
    + apply In_order_by. apply -> in_rev. apply In_select. by rewrite Hp, String.eqb_refl.
    + rewrite (Permutation_length (order_by_perm _ _)), length_rev. lia.
Qed.

Lemma live_earlier r r' : run_ok r -> run_evolves r r' -> live_row r' = true -> live_row r = true.
Proof.
  intros [(st & Es & _) _] Hev. unfold live_row. rewrite Es.
  destruct (re_status _ _ Hev st Es) as (st' & -> & Hpath). unfold RunStatus.is_active.
  destruct (RunStatus.is_terminal st) eqn:Et; [|done].
  assert (st' = st) as ->; [|by rewrite Et].
  revert Et. induction Hpath as [|a b c Hab _ IH]; intros Et; [done|].
  apply validate_terminal in Hab; [|done]. subst b. by apply IH.
Qed.

Lemma newest_evolves project t t' db db' :
  runs db = t -> runs db' = t' -> Forall2 run_evolves t t' -> Forall2 run_evolves (newest project db) (newest project db').
Proof.
  intros <- <- Ht. apply Forall2_limit, Forall2_order_by.
  - intros x x' y y' Hx Hy. destruct (re_request _ _ Hx) as (_ & _ & _ & _ & _ & ->).
    by destruct (re_request _ _ Hy) as (_ & _ & _ & _ & _ & ->).
  - rewrite !rev_alt. apply Forall2_reverse, Forall2_select; [|done].
    intros a b Hab. by destruct (re_request _ _ Hab) as (-> & _).
Qed.

Lemma idle_evolves project db db' :
  wf db -> wf db' -> db_evolves db db' -> length (runs db') = length (runs db) ->
  active_runs project db = [] -> active_runs project db' = [].
Proof.
  intros Hwf Hwf' Hev Hlen. rewrite !idle_iff by done. intros Hdead r' Hr'.
  assert (Forall2 run_evolves (newest project db) (newest project db')) as Hall.
  { eapply newest_evolves; [done..|]. apply rows_Forall2; [apply Hev|done]. }
  apply list_elem_of_In, list_elem_of_lookup in Hr' as [i Hi].
  destruct (Forall2_lookup_r _ _ _ _ _ Hall Hi) as (r & Hr & Hre).
  assert (In r (newest project db)) as Hin by (apply list_elem_of_In, list_elem_of_lookup; eauto).
  specialize (Hdead r Hin). apply In_newest in Hin as [Hin _]. destruct (live_row r') eqn:El; [|done].
  apply (live_earlier r r') in El; [congruence| |done]. by apply Hwf.
Qed.

(** *** Calls *)

Definition creates (c : Call) : bool := match c with CreateRun _ _ _ _ => true | _ => false end.


Lemma apply_update_length id u now db :
  length (runs (snd (apply_update id u now db))) = length (runs db).
Proof.
  destruct (apply_update id u now db) as [res db'] eqn:E. apply apply_update_inv in E. cbn.
  destruct res; [|by subst]. destruct E as (row & st & _ & _ & _ & _ & ->). apply length_update_where.
Qed.

Lemma transaction_length {A} (m : M RegistryError Db A) db :
  (forall db, length (runs (snd (m db))) = length (runs db)) ->
  length (runs (snd (transaction m db))) = length (runs db).
Proof.
  intros Hm. apply (transaction_state (fun db' => length (runs db') = length (runs db))); [done|].
  intros a s' E. by rewrite <- (Hm db), E.
Qed.

Lemma run_call_length c db :
  group c = RunsGroup -> creates c = false -> length (runs (snd (perform c db))) = length (runs db).
Proof.
  destruct c; intros Hg Hc; try discriminate Hg; try discriminate Hc; cbn [perform outcome snd]; try done.
  - apply transaction_length. intros db0. unfold bind. pose proof (apply_update_length id u now db0) as Hl.
    destruct (apply_update id u now db0) as [[]]; exact Hl.
  - destruct (append_event id ev u t db) as [res db'] eqn:E. apply append_event_inv in E. cbn.
    destruct res as [[s|s]|e]; [|by destruct E as [-> _]|by subst].
    destruct E as (_ & row & _ & -> & _ & E). destruct u as [up|].
    + pose proof (apply_update_length id up (t_update t) (journalled id (event_row id ev (r_last_event_seq row + 1) (t_event t))
        (r_last_event_seq row + 1) (t_run t) db)) as Hl. rewrite E in Hl. cbn in Hl. rewrite Hl. apply length_update_where.
    + cbv zeta in E. rewrite E. apply length_update_where.
  - unfold record_approval_request, bind, Prelude.state, ret, fail, modify. by repeat split_if.
  - destruct (set_run_approval_policy id p actor now db) as [res db'] eqn:E.
    apply set_run_approval_policy_inv in E. cbn. destruct res as [[]|]; [|by subst..].
    destruct E as (row & st & _ & _ & _ & _ & ->). apply length_update_where.
Qed.

Lemma call_length c db : creates c = false -> length (runs (snd (perform c db))) = length (runs db).
Proof.
  intros Hc. destruct (group c) eqn:Eg; [by apply run_call_length|..].
  - by rewrite (kv_remote runs (fun _ _ => eq_refl) (fun _ _ _ => eq_refl) (fun _ _ => eq_refl) c db Eg).
  - by rewrite (kv_inventory runs (fun _ _ => eq_refl) c db Eg).
Qed.

Lemma idle_call c db project :
  node_ok db -> well_typed c -> creates c = false ->
  active_runs project db = [] -> active_runs project (snd (perform c db)) = [].
Proof.
  intros Hok Ht Hc. destruct (perform_ok c db Ht Hok) as (Hok' & Hev & _).
  apply idle_evolves; [apply Hok|apply Hok'|done|by apply call_length].
Qed.

(** A new run belongs to its own project only. *)
Lemma idle_created h now stamp req db project :
  node_ok db -> n_project_id req <> project ->
  active_runs project db = [] -> active_runs project (snd (create_run h now stamp req db)) = [].
Proof.
  intros Hok Hne. destruct (create_run h now stamp req db) as [res db'] eqn:E. cbn [snd].
  assert (wf db') as Hwf' by (replace db' with (snd (create_run h now stamp req db)) by (by rewrite E); apply create_run_wf, Hok).
  apply create_run_inv in E. destruct res as [[r|r]|e]; [|by destruct E as [-> _]|by subst].
  destruct E as (_ & _ & -> & _). rewrite !idle_iff; [|done|apply Hok].
  assert (newest project (on_runs (fun t => t ++ [new_row req (new_run_id h stamp) (request_fingerprint req) now]) db)
          = newest project db) as ->; [|done].
  unfold newest. cbn [on_runs runs]. rewrite select_app. cbn [select List.filter].
  cbn [new_row r_project_id]. destruct (String.eqb_spec (n_project_id req) project); [done|]. by rewrite app_nil_r.
Qed.

(** ** Projects in Trash *)

Definition in_trash (id : string) (db : Db) : Prop :=
  exists p, In p (projects db) /\ p_project_id p = id /\ is_Some (p_suspended_at p).

(** No project but [only] enters Trash. *)
Definition no_new_trash (only : string -> Prop) (db db' : Db) : Prop :=
  forall id, in_trash id db' -> in_trash id db \/ only id.
#[export] Instance no_new_trash_preorder only : PreOrder (no_new_trash only).
Proof. split; [by left|]. intros a b c H1 H2 id [Hid|?]%H2; [auto|by right]. Qed.

Lemma trash_same only f db : (forall db, projects (f db) = projects db) -> no_new_trash only db (f db).
Proof. intros Hf id. unfold in_trash. rewrite Hf. by left. Qed.

Lemma trash_update only p f db :
  (forall r, p_project_id (f r) = p_project_id r /\ (p_suspended_at (f r) = p_suspended_at r \/ (p r = true -> only (p_project_id r)))) ->
  no_new_trash only db (on_projects (update_where p f) db).
Proof.
  intros Hf id (r' & (r & Hr & ->)%In_update_where & Hid & Hs).
  destruct (Hf r) as [Hi Hsus]. destruct (p r) eqn:Ep; [|left; by exists r].
  destruct Hsus as [Hsus|Honly]; [|right; rewrite <- Hid, Hi; auto].
  left. exists r. split; [done|]. by rewrite <- Hi, <- Hsus.
Qed.

Definition suspends (c : Call) : option string := match c with SetSuspended id _ => Some id | _ => None end.

Section Trash.
Context (only : string -> Prop).

Lemma trash_update_project id f :
  (forall r, p_project_id (f r) = p_project_id r /\ (p_suspended_at (f r) = p_suspended_at r \/ only id)) ->
  moves (no_new_trash only) (update_project id f).
Proof.
  intros Hf. unfold update_project. moves_solve. apply moves_modify. intros db. apply trash_update.
  intros r. destruct (Hf r) as [Hi [Hs|Ho]]; (split; [done|]); [by left|]. right. by intros ->%is_project_true.
Qed.
Hint Extern 1 (moves _ (update_project _ _)) => apply trash_update_project; intros ?; (split; [done|by left]) : moves.

Lemma trash_profile_runtime id home profile endpoint key s :
  moves (no_new_trash only) (set_profile_runtime id home profile endpoint key s).
Proof.
  unfold set_profile_runtime. moves_solve. intros db. unfold Prelude.state. done.
Qed.
Hint Resolve trash_profile_runtime : moves.

Lemma trash_reserve n id range reserved occupied :
  moves (no_new_trash only) (reserve_attempts n (fun _ db => db) id range reserved occupied).
Proof.
  induction n as [|n IH]; cbn [reserve_attempts]; moves_solve.
  - apply moves_modify. reflexivity.
  - intros db. rewrite claim_state. apply trash_update. intros r. split; [done|by left].
Qed.

Lemma trash_delete id : moves (no_new_trash only) (unregister_project id).
Proof.
  intros db. destruct (unregister_project id db) as [res db'] eqn:E. apply unregister_project_inv in E. cbn.
  destruct res; [|by subst]. destruct E as [-> _]. intros q (p & [Hp _]%filter_In & ?). left. by exists p.
Qed.

Lemma trash_register fs now id workspace name metadata endpoint ownership :
  moves (no_new_trash only) (register_project fs now id workspace name metadata endpoint ownership).
Proof.
  unfold register_project, insert_project. moves_solve; [intros db; unfold Prelude.state; done| |].
  - apply moves_modify. intros db q (p & [Hp|[<-|[]]]%in_app_iff & Hid & Hs); [left; by exists p|]. by destruct Hs.
  - intros db. done.
Qed.
End Trash.

Lemma trash_call c db :
  no_new_trash (fun id => suspends c = Some id) db (snd (perform c db)).
Proof.
  destruct (group c) eqn:Eg.
  - intros id. unfold in_trash.
    rewrite (kv_registry projects (fun _ _ => eq_refl) (fun _ _ => eq_refl) (fun _ _ => eq_refl) c db Eg). by left.
  - intros id. unfold in_trash.
    rewrite (kv_remote projects (fun _ _ => eq_refl) (fun _ _ _ => eq_refl) (fun _ _ => eq_refl) c db Eg). by left.
  - destruct c; try discriminate Eg; cbn [perform outcome snd]; revert db.
    + apply trash_register.
    + apply trash_delete.
    + apply trash_profile_runtime.
    + apply trash_update_project. intros r. split; [done|by left].
    + change (moves (no_new_trash (fun q => None = Some q)) (bind_existing_profile id home profile endpoint key)).
      unfold bind_existing_profile. pose proof trash_profile_runtime. moves_solve.
    + apply trash_reserve.
    + intros db. apply trash_update. intros r. split; [done|by left].
    + change (moves (no_new_trash (fun q => None = Some q)) (set_project_runtime_endpoint id endpoint)).
      unfold set_project_runtime_endpoint. moves_solve; [|intros db; done].
      apply trash_update_project. intros r. split; [done|by left].
    + change (moves (no_new_trash (fun q => None = Some q)) (set_project_credential id credential)).
      unfold set_project_credential. moves_solve.
      apply trash_update_project. intros r. split; [done|by left].
    + change (moves (no_new_trash (fun q => None = Some q)) (set_project_model id model)).
      unfold set_project_model. moves_solve.
      apply trash_update_project. intros r. split; [done|by left].
    + apply trash_update_project. intros r. split; [done|by right].
Qed.
End ActiveRuns.
