(* ===== verification/Service.v ===== *)
(** * Service: the application service of the node ([service.rs]).

    Every operation works on the registry, which one mutex guards inside this
    process, and which other connections write to as well: workers, the control
    channel, the worker manager.  Before each statement of an operation the
    others may have acted: while the operation holds the mutex, only those who
    do not need it ([needs_registry]); while it holds the map of workers, only
    those who do not need that ([needs_workers]).  Log lines and the status page
    of the channel are left out. *)
From stdpp Require Import gmap.
From S2P Require Import Prelude Text Json RunState Redact Schema Registry Identifiers Remote Inventory System.
From S2P Require Import Protocol Sse RunLock Attachments ChatHistory Approvals Runner Reconcile Policy.
From S2P Require Import Fs CredentialSwap Credentials CredentialHomes Host Profiles DeviceCode Provider.
Import chathistory.

Module service.
Import provider.

Definition API_VERSION : string := "v1".
Record Limits : Type := {
  max_request_bytes : Z;
  max_events_per_query : Z;
  stream_page_size : Z;
  max_connections : Z;
  max_followers_per_run : Z;
  heartbeat_seconds : Z;
  history_max_turns : nat;
  history_max_bytes : nat
}.
Definition Limits_default : Limits :=
  {| max_request_bytes := 256 * 1024; max_events_per_query := 5000; stream_page_size := 256; max_connections := 64;
     max_followers_per_run := 8; heartbeat_seconds := 15; history_max_turns := DEFAULT_MAX_TURNS;
     history_max_bytes := DEFAULT_MAX_BYTES |}.

(** ** Errors *)

(** What [anyhow] carries here. *)
Inductive AnyError : Type :=
| FromRegistry (e : RegistryError)
| FromInventory (e : InvError)
| FromStatus (text : string)
| FromRunner (e : RunnerError).

Inductive ServiceError : Type :=
| BadRequest (code message : string)
| NotFound (code message : string)
| Conflict (code message : string)
| Gone (code message : string)
| Unprocessable (code message : string)
| Unavailable (code message : string)
| Internal (e : AnyError).

Definition code (e : ServiceError) : string :=
  match e with
  | BadRequest c _ | NotFound c _ | Conflict c _ | Gone c _ | Unprocessable c _ | Unavailable c _ => c
  | Internal _ => "internal_error"
  end.
Definition status (e : ServiceError) : Z :=
  match e with
  | BadRequest _ _ => 400
  | NotFound _ _ => 404
  | Conflict _ _ => 409
  | Gone _ _ => 410
  | Unprocessable _ _ => 422
  | Unavailable _ _ => 503
  | Internal _ => 500
  end.
Definition public_message (e : ServiceError) : string :=
  match e with
  | BadRequest _ m | NotFound _ m | Conflict _ m | Gone _ m | Unprocessable _ m | Unavailable _ m => m
  | Internal _ => "internal node error; see the daemon log"
  end.
Definition not_found (kind id : string) : ServiceError :=
  NotFound (if (kind =? "project")%string then "project_not_found" else "run_not_found")
    ("unknown " +:+ kind +:+ " " +:+ id).

(** [From<anyhow::Error>]. *)
Definition from_error (e : AnyError) : ServiceError :=
  match e with
  | FromRegistry (IdempotencyConflict project key existing) =>
      Conflict "idempotency_conflict"
        ("idempotency key " +:+ debug_str key +:+ " for project " +:+ project +:+ " was already used by run " +:+ existing
         +:+ " with a different request")
  | FromRegistry (Invalid t) =>
      Conflict "invalid_transition"
        ("invalid run transition " +:+ RunStatus.as_str (from t) +:+ " -> " +:+ RunStatus.as_str (to t))
  | other => Internal other
  end.

Definition PERSISTENT_APPROVAL_NOT_SUPPORTED : string := "persistent_approval_not_supported".
Definition EVENT_RUN_APPROVAL_POLICY_CHANGED : string := "run.approval_policy.changed".
Definition EVENT_APPROVAL_DECISION : string := "asterism.approval.decision".
Definition EVENT_CANCEL_REQUESTED : string := "asterism.cancel.requested".
Definition EVENT_RETRY_CREATED : string := "asterism.retry.created".
Definition EVENT_RETRY_OF : string := "asterism.retry.of".

(** [validate_identifier]. *)
Definition identifier_message (field : string) (e : IdError) : string :=
  match e with
  | IdLength => field +:+ " must be 1..=128 characters"
  | IdAlphabet => field +:+ " may only contain ASCII letters, digits, '-', '_' and '.'"
  | IdDotDot => field +:+ " must not contain '..'"
  end.
Definition checked_identifier (field value : string) : Result ServiceError unit :=
  match validate_identifier value with
  | Ok _ => Ok tt
  | Err e => Err (BadRequest "invalid_identifier" (identifier_message field e))
  end.

(** ** Data *)

Record CreateRun : Type := {
  cr_input : string;
  cr_session_id : option string;
  cr_instructions : option string;
  cr_idempotency_key : option string;
  cr_approval_policy : option RunApprovalPolicy;
  cr_actor : option string;
  cr_attachments : list attachments.Attachment
}.
Record RunCreated : Type := { created_run : RunRecord; idempotent_replay : bool }.
Record ProjectActivity : Type := {
  activity_project_id : string;
  active_run_id : option string;
  active_status : option string
}.
Definition is_busy (a : ProjectActivity) : bool := negb (is_null (active_run_id a)).

(** A call to the backend, with the request it answers or the run it stops. *)
Inductive BackendCall : Type :=
| ResolveApproval (run_id : string) (request_seq : Z) (base_url hermes_run_id choice : string)
| StopRun (run_id base_url hermes_run_id : string).
Class Backend : Type := {
  resolve_answer : list BackendCall -> string -> string -> Result string Value;
  stop_answer : list BackendCall -> string -> Result string Value
}.

(** A run's task in this process: its worker, and the credential and generation
    it began under. *)
Record SpawnedRun : Type := { sp_context : WorkerContext; sp_watched : option (string * Z) }.

Record NodeState : Type := {
  n_db : Db;
  n_logins : Provider;
  n_files : gmap string ProjectFiles;
  n_changes : gset string;
  n_workers : gset string;
  n_tasks : list SpawnedRun;
  n_draining : bool;
  n_calls : list BackendCall;
  n_notified : list string;
  n_step : nat
}.

Definition on_db (f : Db -> Db) (n : NodeState) : NodeState :=
  {| n_db := f (n_db n); n_logins := n_logins n; n_files := n_files n; n_changes := n_changes n;
     n_workers := n_workers n; n_tasks := n_tasks n; n_draining := n_draining n; n_calls := n_calls n;
     n_notified := n_notified n; n_step := n_step n |}.
Definition with_provider (p : Provider) (n : NodeState) : NodeState :=
  {| n_db := n_db n; n_logins := p; n_files := n_files n; n_changes := n_changes n;
     n_workers := n_workers n; n_tasks := n_tasks n; n_draining := n_draining n; n_calls := n_calls n;
     n_notified := n_notified n; n_step := n_step n |}.
Definition on_project_files (f : gmap string ProjectFiles -> gmap string ProjectFiles) (n : NodeState) : NodeState :=
  {| n_db := n_db n; n_logins := n_logins n; n_files := f (n_files n); n_changes := n_changes n;
     n_workers := n_workers n; n_tasks := n_tasks n; n_draining := n_draining n; n_calls := n_calls n;
     n_notified := n_notified n; n_step := n_step n |}.
Definition on_changes (f : gset string -> gset string) (n : NodeState) : NodeState :=
  {| n_db := n_db n; n_logins := n_logins n; n_files := n_files n; n_changes := f (n_changes n);
     n_workers := n_workers n; n_tasks := n_tasks n; n_draining := n_draining n; n_calls := n_calls n;
     n_notified := n_notified n; n_step := n_step n |}.
Definition on_workers (f : gset string -> gset string) (n : NodeState) : NodeState :=
  {| n_db := n_db n; n_logins := n_logins n; n_files := n_files n; n_changes := n_changes n;
     n_workers := f (n_workers n); n_tasks := n_tasks n; n_draining := n_draining n; n_calls := n_calls n;
     n_notified := n_notified n; n_step := n_step n |}.
Definition spawned (t : SpawnedRun) (n : NodeState) : NodeState :=
  {| n_db := n_db n; n_logins := n_logins n; n_files := n_files n; n_changes := n_changes n;
     n_workers := n_workers n; n_tasks := n_tasks n ++ [t]; n_draining := n_draining n; n_calls := n_calls n;
     n_notified := n_notified n; n_step := n_step n |}.
(** [begin_drain]. *)
Definition begin_drain (n : NodeState) : NodeState :=
  {| n_db := n_db n; n_logins := n_logins n; n_files := n_files n; n_changes := n_changes n;
     n_workers := n_workers n; n_tasks := n_tasks n; n_draining := true; n_calls := n_calls n;
     n_notified := n_notified n; n_step := n_step n |}.
Definition called (c : BackendCall) (n : NodeState) : NodeState :=
  {| n_db := n_db n; n_logins := n_logins n; n_files := n_files n; n_changes := n_changes n;
     n_workers := n_workers n; n_tasks := n_tasks n; n_draining := n_draining n; n_calls := n_calls n ++ [c];
     n_notified := n_notified n; n_step := n_step n |}.
Definition notified (id : string) (n : NodeState) : NodeState :=
  {| n_db := n_db n; n_logins := n_logins n; n_files := n_files n; n_changes := n_changes n;
     n_workers := n_workers n; n_tasks := n_tasks n; n_draining := n_draining n; n_calls := n_calls n;
     n_notified := n_notified n ++ [id]; n_step := n_step n |}.
Definition stepped (n : NodeState) : NodeState :=
  {| n_db := n_db n; n_logins := n_logins n; n_files := n_files n; n_changes := n_changes n;
     n_workers := n_workers n; n_tasks := n_tasks n; n_draining := n_draining n; n_calls := n_calls n;
     n_notified := n_notified n; n_step := S (n_step n) |}.

(** ** What the others do

    [Elsewhere] is a registry call over another connection.  A project's
    suspension and credential change only between [begin_credential_change] and
    [end_credential_change] for it ([DuringChange]).  [BeginChange], [EndChange],
    [Admit] and the rest are sections of the service itself in other tasks. *)
Inductive Action : Type :=
| Elsewhere (c : Call)
| DuringChange (project : string) (c : Call)
| BeginChange (project : string)
| EndChange (project : string)
| Admit (project : string) (checked : option string) (h : Registry.Host) (now stamp : Z) (request : NewRun)
| StartDrain
| TaskEnds (run_id : string)
| TaskStarts (run_id : string).
Definition needs_registry (a : Action) : bool :=
  match a with BeginChange _ | Admit _ _ _ _ _ _ => true | _ => false end.
Definition needs_workers (a : Action) : bool :=
  match a with TaskEnds _ | TaskStarts _ => true | _ => false end.

Record Beside : Type := {
  b_wall : Clock3;
  b_now : Z;
  b_stamp : Z;
  b_host : Registry.Host;
  b_passed : Z;
  b_meanwhile : list Action
}.

Definition S (E A : Type) : Type := M (Outcome E) NodeState A.
Definition throw {E A} (e : E) : S E A := fail (Failed e).
Definition mapping {E F A} (f : E -> F) (m : S E A) : S F A :=
  fun s => match m s with
           | (Ok a, s') => (Ok a, s')
           | (Err Ended, s') => (Err Ended, s')
           | (Err Unfinished, s') => (Err Unfinished, s')
           | (Err (Failed e), s') => (Err (Failed (f e)), s')
           end.
Definition attempting {E F A} (m : S E A) : S F (Result E A) :=
  fun s => match m s with
           | (Ok a, s') => (Ok (Ok a), s')
           | (Err Ended, s') => (Err Ended, s')
           | (Err Unfinished, s') => (Err Unfinished, s')
           | (Err (Failed e), s') => (Ok (Err e), s')
           end.
Definition checked {E F A} (f : E -> F) (r : Result E A) : S F A :=
  match r with Ok a => ret a | Err e => throw (f e) end.
Definition on_provider {E A} (m : P E A) : S E A :=
  fun s => let (r, p) := m (n_logins s) in (r, with_provider p s).

Definition json_i64 (z : Z) : Value := VNumber (if z <? 0 then NegInt z else PosInt z).
Definition json_strings (l : list string) : Value := VArray (List.map VString l).

Section Service.
Context `{SerdeJson} `{Process} `{RegistryCodec} `{StoreCodec} `{Backend} `{Hermes}.
(** The provider of this host ([Provider.v]), the account of this process, the
    state directory, the endpoint and key of the node itself, the limits. *)
Context (paths : ProviderPaths) (node_home release : string) (runtime_uid uid : Z) (provider_env : nat -> Moment).
Context (state_root base_url node_api_key : string) (limits : Limits).
(** The others, those beside a reconciliation, and how an error of the registry
    reads. *)
Context (env : nat -> Beside) (runner_env : nat -> Tick) (describe : RegistryError -> string).
Context (describe_node : NodeError -> string).

(** ** The run guard, on a state *)

Definition link_of (home : string) : string := path_join home CREDENTIAL_FILE.
(** The half of the guard that holds with the registry locked, from what it read. *)
Definition guard_verdict (changing : bool) (p : option RegisteredProject) (checked : option string)
    (n : gmap string Node) : Result ServiceError unit :=
  if match p with Some p => negb (is_null (rp_suspended_at p)) | None => false end
  then Err (Conflict "project_suspended" "this project is in Trash; restore it before starting work")
  else
    let assigned := p ≫= rp_credential_id in
    if changing || negb (bool_decide (assigned = checked))
    then Err (Conflict "credential_assignment_in_progress"
                "this project's credential is being changed; send this again when it finishes")
    else match p, assigned with
         | Some p, Some id =>
             let linked := match rp_hermes_home p with
                           | Some home => bool_decide (classify_link n (link_of home) (credential_root node_home)
                                                         (shared_pool paths) = IsolatedLink id)
                           | None => false
                           end in
             if linked then Ok tt
             else Err (Conflict "credential_link_invalid" "this project's worker is not linked to its assigned credential")
         | _, _ => Ok tt
         end.

Definition is_changing (project : string) (n : NodeState) : bool := bool_decide (project ∈ n_changes n).
Definition disk_of (n : NodeState) : gmap string Node := nodes (pv_disk (n_logins n)).
Definition guard_now (project : string) (checked : option string) (n : NodeState) : Result ServiceError unit :=
  match Inventory.project project (n_db n) with
  | Err e => Err (from_error (FromInventory e))
  | Ok p => guard_verdict (is_changing project n) p checked (disk_of n)
  end.

Definition perform_action (a : Action) (n : NodeState) : NodeState :=
  match a with
  | Elsewhere c => on_db (fun db => snd (System.perform c db)) n
  | DuringChange project c => if is_changing project n then on_db (fun db => snd (System.perform c db)) n else n
  | BeginChange project =>
      if is_changing project n || negb (bool_decide (active_runs project (n_db n) = [])) then n
      else on_changes (fun s => {[project]} ∪ s) n
  | EndChange project => on_changes (fun s => s ∖ {[project]}) n
  | Admit project checked h now stamp request =>
      match guard_now project checked n with
      | Ok _ => on_db (fun db => snd (Registry.create_run h now stamp request db)) n
      | Err _ => n
      end
  | StartDrain => begin_drain n
  | TaskEnds id => on_workers (fun s => s ∖ {[id]}) n
  | TaskStarts id => on_workers (fun s => {[id]} ∪ s) n
  end.

(** A statement begins; [may] says who can have acted. *)
Definition tick {E} (may : Action -> bool) : S E Beside :=
  fun n => let b := env (n_step n) in
           (Ok b, stepped (List.fold_left (fun n a => perform_action a n) (List.filter may (b_meanwhile b)) n)).
Definition anyone (a : Action) : bool := true.
Definition holding_registry (a : Action) : bool := negb (needs_registry a).
Definition holding_workers (a : Action) : bool := negb (needs_workers a).
Definition holding_both (a : Action) : bool := holding_registry a && holding_workers a.

(** Waiting for the registry's mutex. *)
Definition acquire {E} : S E unit := tick anyone ;;; ret tt.
(** One method of the registry, while the mutex is held. *)
Definition under {A} (m : Beside -> M RegistryError Db A) : S ServiceError A :=
  let! b := tick holding_registry in
  fun n => match m b (n_db n) with
           | (Ok a, db) => (Ok a, on_db (fun _ => db) n)
           | (Err e, db) => (Err (Failed (from_error (FromRegistry e))), on_db (fun _ => db) n)
           end.
Definition reading {E A} (f : Db -> A) : S E A := tick holding_registry ;;; gets (fun n => f (n_db n)).
Definition read_project (project : string) : S ServiceError (option RegisteredProject) :=
  let! r := reading (Inventory.project project) in
  checked (fun e => from_error (FromInventory e)) r.

Definition notify {E} (id : string) : S E unit := modify (notified id).

(** ** Ownership and routing *)

Definition load_owned (project_id run_id : string) : S ServiceError RunRecord :=
  checked id (checked_identifier "project_id" project_id) ;;;
  checked id (checked_identifier "run_id" run_id) ;;;
  let! found := reading (Registry.run run_id) in
  match found with
  | None => throw (not_found "run" run_id)
  | Some r => if negb (Registry.project_id r =? project_id)%string then throw (not_found "run" run_id) else ret r
  end.

Definition worker_api_key (reference : option string) (n : gmap string Node) : Result ServiceError string :=
  match reference with
  | Some path =>
      if (path =? "")%string then Ok node_api_key
      else match read_worker_key path uid n with
           | Ok key => Ok (of_chars key)
           | Err e => Err (Unavailable "project_profile_unavailable"
                             ("cannot read the worker credential for this project: " +:+ describe_node e))
           end
  | None => Ok node_api_key
  end.

(** [ok().flatten()]: a project that cannot be read is not registered. *)
Definition registered (project_id : string) (db : Db) : option RegisteredProject :=
  match Inventory.project project_id db with Ok p => p | Err _ => None end.
Definition route (project_id : string) (p : option RegisteredProject) (n : gmap string Node) :
    Result ServiceError (string * string) :=
  match p with
  | None => Err (Unavailable "project_not_registered" ("project " +:+ project_id +:+ " is not registered on this Node"))
  | Some p =>
      if negb (rp_enabled p) then Err (Unavailable "project_disabled" ("project " +:+ project_id +:+ " is disabled"))
      else if negb (ProfileState.runnable (rp_profile_state p))
      then Err (Unavailable "project_profile_unavailable"
                  ("project " +:+ project_id +:+ " is " +:+ ProfileState.as_str (rp_profile_state p) +:+ " and cannot accept runs"))
      else match rp_runtime_endpoint p with
           | None => Err (Unavailable "project_profile_unavailable" ("project " +:+ project_id +:+ " has no Hermes worker endpoint"))
           | Some endpoint =>
               match worker_api_key (rp_hermes_api_key_ref p) n with
               | Ok key => Ok (endpoint, key)
               | Err e => Err e
               end
           end
  end.
Definition project_runtime (may : Action -> bool) (project_id : string) : S ServiceError (string * string) :=
  tick may ;;;
  let! p := gets (fun n => registered project_id (n_db n)) in
  let! n := gets disk_of in
  checked id (route project_id p n).

Definition client_for (project_id : string) : S ServiceError string :=
  let! r := project_runtime anyone project_id in
  let (base_url, api_key) := r in
  match HermesClient_new base_url api_key with
  | Ok _ => ret base_url
  | Err e => throw (Unavailable "hermes_unavailable"
                      ("cannot address the Hermes endpoint: " +:+ error_text describe e))
  end.

(** The registry is held for the whole loop. *)
Fixpoint bind_each (hermes_home : string) (ps : list RegisteredProject) : S Empty_set (list string) :=
  match ps with
  | [] => ret []
  | p :: rest =>
      if negb (is_null (rp_hermes_home p)) then bind_each hermes_home rest
      else
        tick holding_registry ;;;
        let! bound := (fun n =>
          let (r, db) := bind_existing_profile (rp_project_id p) hermes_home (default_profile_name (rp_project_id p))
                           base_url "" (n_db n) in
          (Ok (match r with Ok b => b | Err _ => false end), on_db (fun _ => db) n)) in
        let! others := bind_each hermes_home rest in
        ret (if bound : bool then rp_project_id p :: others else others)
  end.
Definition bind_existing_profiles (hermes_home : string) : S Empty_set (list string) :=
  acquire ;;;
  let! r := reading list_projects in
  match r with
  | Err _ => ret []
  | Ok ps => bind_each hermes_home ps
  end.

(** ** Changing a project's worker *)

Definition begin_credential_change (project_id : string) : S string unit :=
  acquire ;;;
  let! active := reading (active_runs project_id) in
  let! changing := gets (is_changing project_id) in
  if changing : bool then throw "credential_assignment_in_progress"%string
  else if negb (bool_decide (active = [])) then throw "project_runs_active"%string
  else modify (on_changes (fun s => {[project_id]} ∪ s)).
Definition end_credential_change {E} (project_id : string) : S E unit := modify (on_changes (fun s => s ∖ {[project_id]})).
Definition begin_worker_change (project_id : string) : S string unit := begin_credential_change project_id.
Definition end_worker_change {E} (project_id : string) : S E unit := end_credential_change project_id.

Definition credential_usable_for_run (project_id : string) : S ServiceError (option string) :=
  acquire ;;;
  let! p := read_project project_id in
  match p ≫= rp_credential_id with
  | None => ret None
  | Some id =>
      let! usable := attempting (on_provider (provider.usable paths node_home release runtime_uid provider_env id)) in
      match usable with
      | Ok _ => ret (Some id)
      | Err refusal => throw (Conflict (cf_code refusal) (cf_message refusal))
      end
  end.

Definition credential_run_guard (project_id : string) (checked_id : option string) : S ServiceError unit :=
  let! changing := gets (is_changing project_id) in
  let! p := read_project project_id in
  let! n := gets disk_of in
  checked id (guard_verdict changing p checked_id n).

Definition credential_revoke (id : string) : S (ProviderError + string) unit :=
  checked (fun e => inl (BadId e)) (validate_id id) ;;;
  acquire ;;;
  let! users := reading (projects_using_credential id) in
  if negb (bool_decide (users = []))
  then throw (inr ("credential_in_use: " +:+ decimal (Z.of_nat (length users)) +:+
                   " project(s) use this credential; reassign them first")%string)
  else mapping inl (on_provider (revoke_credential node_home runtime_uid provider_env id)).

(** ** Supervising *)

(** The map of workers is held from the look into it to the end. *)
Definition supervise {E} (project_id run_id : string) : S E unit :=
  let! r := attempting (project_runtime anyone project_id) in
  match r with
  | Err _ => ret tt
  | Ok (url, key) =>
      tick anyone ;;;
      let! running := gets (fun n => bool_decide (run_id ∈ n_workers n)) in
      if running : bool then ret tt
      else
        let context := {| x_project_id := project_id; x_run_id := run_id; x_base_url := url; x_api_key := key;
                          x_history_limits := {| max_turns := history_max_turns limits;
                                                 max_bytes := history_max_bytes limits |} |} in
        tick holding_workers ;;;
        let! watched := gets (fun n => registered project_id (n_db n) ≫= rp_credential_id) in
        let! generation := match watched with
                           | Some id => on_provider (credential_generation node_home provider_env id)
                           | None => ret None
                           end in
        modify (spawned {| sp_context := context;
                           sp_watched := match watched, generation with
                                         | Some id, Some g => Some (id, g)
                                         | _, _ => None
                                         end |}) ;;;
        modify (on_workers (fun s => {[run_id]} ∪ s))
  end.

(** What the task does after its worker: ask the runtime's record, for the
    material that ran. *)
Definition reconcile_credential_after_run {E} (id : string) (generation now : Z) : S E unit :=
  let! st := on_provider (runtime_state node_home provider_env id) in
  if negb (bool_decide (st = ReauthorizationRequired)) then ret tt
  else on_provider (report_grant_dead node_home id generation now) ;;; ret tt.

(** ** Runs *)

Definition detect_runtime_kind (project_id : string) (n : gmap string Node) : string :=
  let config := path_join (path_join (path_join state_root project_id) "hermes") "config.yaml" in
  match read_runtime_configuration (match Fs.read n config with Ok body => Some body | Err _ => None end) with
  | Some c => if uses_native_codex c then "codex-app-server" else "hermes-loop"
  | None => "hermes-loop"
  end.

Definition policy_event (run_id : string) (p : RunApprovalPolicy) (actor : option string) (source : list (string * Value)) :
    JournalEvent :=
  JournalEvent_asterism EVENT_RUN_APPROVAL_POLICY_CHANGED
    (object ([("run_id", VString run_id); ("policy", VString (RunApprovalPolicy.as_str p));
              ("actor", null_or VString actor)]%string ++ source)).

Definition draining_refusal : ServiceError :=
  Unavailable "node_draining" "the node is shutting down and is not accepting new runs".

Definition create_run (project_id : string) (request : CreateRun) : S ServiceError RunCreated :=
  checked id (checked_identifier "project_id" project_id) ;;;
  if bool_decide (trim (chars (cr_input request)) = [])
  then throw (Unprocessable "empty_input" "input must not be empty")
  else
  let! draining := gets n_draining in
  if draining : bool then throw draining_refusal
  else
  let! kind := gets (fun n => detect_runtime_kind project_id (disk_of n)) in
  let! usable := credential_usable_for_run project_id in
  acquire ;;;
  credential_run_guard project_id usable ;;;
  let! p := read_project project_id in
  let! creation := under (fun b => Registry.create_run (b_host b) (b_now b) (b_stamp b)
    {| n_project_id := project_id; n_session_id := cr_session_id request;
       n_idempotency_key := cr_idempotency_key request; n_runtime_kind := kind; Registry.n_provider := None;
       n_model := p ≫= rp_model;
       n_request_payload := request_payload_of (cr_input request) (cr_instructions request) (cr_attachments request);
       n_retry_of_run_id := None |}) in
  let r := record creation in
  let new := is_new creation in
  match cr_approval_policy request with
  | Some policy =>
      if new && RunApprovalPolicy.bypasses_approval policy then
        acquire ;;;
        let! changed := under (fun b => Registry.set_run_approval_policy (Registry.run_id r) policy (cr_actor request) (b_now b)) in
        if changed : bool then
          under (fun b => append_event (Registry.run_id r)
            (policy_event (Registry.run_id r) policy (cr_actor request) [("source", VString "run_creation")]%string) None (b_wall b)) ;;;
          ret tt
        else ret tt
      else ret tt
  | None => ret tt
  end ;;;
  (if new then supervise project_id (Registry.run_id r) else ret tt) ;;;
  ret {| created_run := r; idempotent_replay := negb new |}.

Definition clamp (lo hi z : Z) : Z := Z.max lo (Z.min hi z).
Definition list_runs (project_id : string) (limit : Z) : S ServiceError (list RunRecord) :=
  checked id (checked_identifier "project_id" project_id) ;;;
  acquire ;;;
  reading (Registry.list_runs project_id (clamp 1 (max_events_per_query limits) limit)).

Definition get_run (project_id run_id : string) : S ServiceError RunRecord :=
  checked id (checked_identifier "project_id" project_id) ;;;
  checked id (checked_identifier "run_id" run_id) ;;;
  acquire ;;;
  load_owned project_id run_id.

Definition approvals (project_id run_id : string) : S ServiceError (list ApprovalRecord) :=
  acquire ;;;
  let! r := load_owned project_id run_id in
  reading (Registry.approvals (Registry.run_id r)).

Definition events (project_id run_id : string) (since_seq limit : Z) : S ServiceError (list StoredEvent) :=
  checked id (checked_identifier "project_id" project_id) ;;;
  checked id (checked_identifier "run_id" run_id) ;;;
  if since_seq <? 0 then throw (BadRequest "invalid_cursor" "since_seq must not be negative")
  else
  acquire ;;;
  let! r := load_owned project_id run_id in
  reading (events_since (Registry.run_id r) since_seq (clamp 1 (max_events_per_query limits) limit)).

Definition run_status (r : RunRecord) : Result ServiceError RunStatus :=
  match RunStatus.parse (Registry.status r) with
  | Ok st => Ok st
  | Err text => Err (Internal (FromStatus text))
  end.

Definition stream_page (run_id : string) (after_seq : Z) : S ServiceError (list StoredEvent * RunStatus) :=
  acquire ;;;
  let! found := reading (Registry.run run_id) in
  match found with
  | None => throw (not_found "run" run_id)
  | Some r =>
      let! es := reading (events_since run_id after_seq (stream_page_size limits)) in
      let! st := checked id (run_status r) in
      ret (es, st)
  end.

(** ** Approvals *)

(** The registry's own refusal reads as a run that is not active any more. *)
Definition set_run_approval_policy (project_id run_id : string) (policy : RunApprovalPolicy) (actor : option string) :
    S ServiceError Value :=
  acquire ;;;
  let! r := load_owned project_id run_id in
  if match RunStatus.parse (Registry.status r) with Ok st => RunStatus.is_terminal st | Err _ => false end
  then throw (Conflict "run_not_active" "this run has finished; its approval policy can no longer change")
  else
  let! changed := (let! b := tick holding_registry in
    fun n => match Registry.set_run_approval_policy (Registry.run_id r) policy actor (b_now b) (n_db n) with
             | (Ok c, db) => (Ok c, on_db (fun _ => db) n)
             | (Err e, db) => (Err (Failed (Conflict "run_not_active" (describe e))), on_db (fun _ => db) n)
             end) in
  (if changed : bool then
     let! b := tick holding_registry in
     (fun n => match append_event (Registry.run_id r) (policy_event (Registry.run_id r) policy actor []) None (b_wall b) (n_db n) with
               | (Ok _, db) => (Ok tt, on_db (fun _ => db) n)
               | (Err e, db) => (Err (Failed (Internal (FromRegistry e))), on_db (fun _ => db) n)
               end)
   else ret tt) ;;;
  let! state := reading (run_approval_policy (Registry.run_id r)) in
  let! state := checked (fun e => Internal (FromRegistry e)) state in
  ret (object [("run_id", VString (Registry.run_id r));
               ("approval_policy", VString (RunApprovalPolicy.as_str (RunState.policy state)));
               ("enabled_by", null_or VString (enabled_by state)); ("enabled_at", null_or json_i64 (enabled_at state));
               ("changed", VBool changed)]%string).

Definition APPROVAL_CHOICES : list string := ["once"; "session"; "deny"]%string.
Definition always_refusal : ServiceError :=
  Unprocessable PERSISTENT_APPROVAL_NOT_SUPPORTED
    ("persistent approvals are unavailable: Hermes would record this as a permanent command_allowlist rule that " +:+
     "Asterism cannot yet display or revoke. Use " +:+ debug_str "once" +:+ " or " +:+ debug_str "session" +:+ ".").

(** [runner::append_note] on the registry that is held. *)
Definition append_note (id event_type : string) (payload : Value) : S ServiceError Z :=
  let! outcome := under (fun b => append_event id
    {| j_event_type := event_type; j_source := SOURCE_ASTERISM; j_payload := payload; j_raw := None; j_dedupe_key := None |}
    None (b_wall b)) in
  ret (outcome_seq outcome).
Definition answer_payload (r : Result string Value) : Value :=
  match r with Ok v => v | Err text => object [("error", VString text)]%string end.

Definition resolve_approval (project_id run_id choice : string) : S ServiceError Value :=
  if (choice =? "always")%string then throw always_refusal
  else if negb (bool_decide (choice ∈ APPROVAL_CHOICES))
  then throw (Unprocessable "invalid_choice" ("unsupported approval choice " +:+ debug_str choice))
  else
  let! url := client_for project_id in
  acquire ;;;
  let! r := load_owned project_id run_id in
  let! pending := reading (pending_approval (Registry.run_id r)) in
  match pending with
  | None => throw (Conflict "no_pending_approval" "this run has no approval waiting for a decision")
  | Some pending =>
      match hermes_run_id r with
      | None => throw (Gone "backend_run_missing" "this run was never submitted to a backend")
      | Some hermes_id =>
          let! claimed := under (fun b => record_approval_decision (Registry.run_id r) (ar_request_seq pending) choice (b_now b)) in
          if negb claimed
          then throw (Conflict "approval_already_resolved" "a decision was already recorded for this approval")
          else
            let! before := gets n_calls in
            modify (called (ResolveApproval (Registry.run_id r) (ar_request_seq pending) url hermes_id choice)) ;;;
            let response := resolve_answer before hermes_id choice in
            let! seq := append_note (Registry.run_id r) EVENT_APPROVAL_DECISION
              (object [("choice", VString choice); ("response", answer_payload response)]%string) in
            under (fun _ => record_approval_resolution (Registry.run_id r) (ar_request_seq pending) seq) ;;;
            notify (Registry.run_id r) ;;;
            match response with
            | Err text => throw (Unavailable "hermes_unavailable"
                                   ("the decision was recorded but the backend rejected it: " +:+ text))
            | Ok _ => ret (object [("run_id", VString (Registry.run_id r));
                                   ("approval_id", json_i64 (ar_request_seq pending));
                                   ("choice", VString choice); ("applied", VBool true)]%string)
            end
      end
  end.

(** ** Cancelling and retrying *)

Definition cancel_run (project_id run_id : string) : S ServiceError Value :=
  let! url := client_for project_id in
  acquire ;;;
  let! r := load_owned project_id run_id in
  let! st := checked id (run_status r) in
  if RunStatus.is_terminal st
  then ret (object [("run_id", VString (Registry.run_id r)); ("status", VString (Registry.status r));
                    ("cancel_requested", VBool false); ("note", VString "run already reached a terminal state")]%string)
  else
  append_note (Registry.run_id r) EVENT_CANCEL_REQUESTED
    (object [("requested_status", VString (RunStatus.as_str st))]%string) ;;;
  match hermes_run_id r with
  | None =>
      let! updated := under (fun b => update_run (Registry.run_id r)
        (RunUpdate.with_terminal_reason "cancelled before submission to a backend" (RunUpdate.status Cancelled)) (b_now b)) in
      notify (Registry.run_id r) ;;;
      ret (object [("run_id", VString (Registry.run_id updated)); ("status", VString (Registry.status updated));
                   ("cancel_requested", VBool true)]%string)
  | Some hermes_id =>
      let! before := gets n_calls in
      modify (called (StopRun (Registry.run_id r) url hermes_id)) ;;;
      let payload := answer_payload (stop_answer before hermes_id) in
      append_note (Registry.run_id r) "asterism.cancel.response" payload ;;;
      notify (Registry.run_id r) ;;;
      ret (object [("run_id", VString (Registry.run_id r)); ("cancel_requested", VBool true);
                   ("backend_response", payload)]%string)
  end.

(** [json!] of an absent field is [null]. *)
Definition field_or_null (k : string) (v : Value) : Value := default VNull (Json.get k v).

Definition retry_request (project_id : string) (original : RunRecord) : NewRun :=
  {| n_project_id := project_id; n_session_id := session_id original; n_idempotency_key := None;
     n_runtime_kind := runtime_kind original; Registry.n_provider := Registry.provider original; n_model := Registry.model original;
     n_request_payload := object
       [("input", field_or_null "input" (request_payload original));
        ("instructions", field_or_null "instructions" (request_payload original));
        ("attachments", field_or_null "attachments" (request_payload original))]%string;
     n_retry_of_run_id := Some (Registry.run_id original) |}.

Definition retry_run (project_id run_id : string) : S ServiceError RunCreated :=
  let! draining := gets n_draining in
  if draining : bool then throw draining_refusal
  else
  let! usable := credential_usable_for_run project_id in
  acquire ;;;
  let! original := load_owned project_id run_id in
  let! st := checked id (run_status original) in
  if negb (RunStatus.is_terminal st)
  then throw (Conflict "run_active"
                ("run " +:+ Registry.run_id original +:+ " is " +:+ RunStatus.as_str st +:+ " and cannot be retried"))
  else if negb (RunStatus.is_retryable st)
  then throw (Conflict "run_not_retryable"
                ("run " +:+ Registry.run_id original +:+ " ended as " +:+ RunStatus.as_str st
                 +:+ "; only interrupted or lost runs may be retried"))
  else
  credential_run_guard project_id usable ;;;
  let! creation := under (fun b => Registry.create_run (b_host b) (b_now b) (b_stamp b) (retry_request project_id original)) in
  let replacement := record creation in
  under (fun b => append_event (Registry.run_id original)
    (JournalEvent_asterism EVENT_RETRY_CREATED
       (object [("replacement_run_id", VString (Registry.run_id replacement))]%string)) None (b_wall b)) ;;;
  under (fun b => append_event (Registry.run_id replacement)
    (JournalEvent_asterism EVENT_RETRY_OF
       (object [("original_run_id", VString (Registry.run_id original));
                ("original_status", VString (Registry.status original))]%string)) None (b_wall b)) ;;;
  notify (Registry.run_id original) ;;;
  supervise project_id (Registry.run_id replacement) ;;;
  ret {| created_run := replacement; idempotent_replay := false |}.

(** ** Reconciling *)

(** A reconciliation opens the registry itself, over the files of the project. *)
Definition reconcile_project_now (project_id : string) (handle : nat) : S ServiceError (list Reconciliation) :=
  fun n =>
    let w := {| w_db := n_db n; w_files := default {| lock_holder := None; active_file := None |} (n_files n !! project_id);
                w_calls := []; w_spawned := []; w_step := n_step n; w_mono := 0;
                observed_status := RunState.Running; failure_message := None |} in
    let (r, w') := reconcile_project runner_env project_id handle w in
    (match r with Ok os => Ok os | Err e => Err (Failed (Internal (FromRunner e))) end,
     on_project_files (fun m => <[project_id := w_files w']> m) (on_db (fun _ => w_db w') n)).
Definition outcome_value (o : Reconciliation) : Value :=
  object [("run_id", VString (rec_run_id o)); ("previous_status", VString (rec_previous_status o));
          ("new_status", VString (rec_new_status o)); ("note", VString (rec_note o))]%string.

Definition reconcile (project_id : string) (handle : nat) : S ServiceError (list Value) :=
  checked id (checked_identifier "project_id" project_id) ;;;
  let! _ := client_for project_id in
  let! outcomes := reconcile_project_now project_id handle in
  acquire ;;;
  let! runs := reading (resumable project_id) in
  match runs with
  | run_id :: _ => supervise project_id run_id
  | [] => ret tt
  end ;;;
  ret (List.map outcome_value outcomes).

Definition project_activity (project_id : string) : S ServiceError ProjectActivity :=
  checked id (checked_identifier "project_id" project_id) ;;;
  acquire ;;;
  let! active := reading (active_runs project_id) in
  let first := List.hd_error active in
  ret {| activity_project_id := project_id; active_run_id := Registry.run_id <$> first;
         active_status := Registry.status <$> first |}.

(** ** Shutting down *)

(** Milliseconds between two looks. *)
Definition DRAIN_POLL : Z := 100.
Fixpoint drain_rounds (rounds : nat) (now deadline : Z) : S Empty_set nat :=
  match rounds with
  | O => fail Unfinished
  | Datatypes.S rounds' =>
      let! b := tick anyone in
      let! remaining := gets (fun n => size (n_workers n)) in
      let now := now + b_passed b in
      if bool_decide (remaining = 0%nat) || (deadline <=? now) then ret remaining
      else drain_rounds rounds' (now + DRAIN_POLL) deadline
  end.
Definition drain (rounds : nat) (timeout : Z) : S Empty_set nat :=
  modify begin_drain ;;; drain_rounds rounds 0 timeout.
End Service.
End service.
