(* ===== verification/ServiceFacts.v ===== *)
(** * ServiceFacts: the invariant of the application service, and that every
    operation keeps it whatever the other tasks of the node do. *)
From Stdlib Require Import Lia.
From stdpp Require Import gmap relations.
From S2P Require Import Prelude Text Json RunState Redact Schema Registry RegistryFacts Evolution Identifiers.
From S2P Require Import Remote Inventory InventoryFacts System Protocol Sse RunLock Attachments ChatHistory Approvals.
From S2P Require Import Runner RunnerFacts Reconcile Policy Fs CredentialSwap Credentials CredentialHomes Host Profiles.
From S2P Require Import DeviceCode Provider ActiveRuns Service.
Import provider service.

(** ** Calls that neither create runs nor suspend projects *)

Definition quiet_call (c : Call) : Prop := well_typed c /\ creates c = false /\ suspends c = None.

Section Quiet.
Context `{SerdeJson} `{Hermes}.

Inductive quiet_step : Db -> Db -> Prop :=
| quiet c db : quiet_call c -> quiet_step db (snd (System.perform c db)).

Context (runner_env : nat -> Tick).
Definition quiet_env : Prop := forall k c, In c (Runner.meanwhile (runner_env k)) -> quiet_call c.
Context (Henv : quiet_env).

Definition quietly_moves (w w' : World) : Prop := rtc quiet_step (w_db w) (w_db w').
#[global] Instance quietly_moves_preorder : PreOrder quietly_moves.
Proof. split; [intros w; apply rtc_refl|]. intros a b c H1 H2. exact (transitivity (R := rtc quiet_step) H1 H2). Qed.

Lemma quiet_tick : moves quietly_moves (Runner.tick runner_env).
Proof.
  intros w. unfold quietly_moves, Runner.tick. cbn. pose proof (Henv (w_step w)) as Hq. revert Hq.
  generalize (w_db w) as db. induction (Runner.meanwhile (runner_env (w_step w))) as [|c cs IH]; intros db Hq; [apply rtc_refl|].
  cbn. eapply rtc_l; [apply (quiet c), Hq; by left|]. apply IH. intros c' Hc'. apply Hq. by right.
Qed.
Lemma quiet_local f : (forall w, w_db (f w) = w_db w) -> moves quietly_moves (@modify RunnerError World f).
Proof. intros Hf w. unfold quietly_moves. cbn. rewrite Hf. apply rtc_refl. Qed.
Lemma quiet_append id ev u : moves quietly_moves (registry runner_env (append_event id ev u)).
Proof.
  unfold registry. apply moves_bind; [apply _|apply quiet_tick|]. intros t w. unfold quietly_moves.
  pose proof (quiet (AppendEvent id ev u t) (w_db w) ltac:(done)) as Hq. cbn in Hq.
  destruct (append_event id ev u t (w_db w)) as [[a|e] db']; by apply rtc_once.
Qed.
Hint Resolve quiet_tick quiet_append : moves.
Hint Extern 1 (moves quietly_moves (modify _)) => apply quiet_local; done : moves.
Lemma quiet_read {A} (f : Db -> A) : moves quietly_moves (read_registry runner_env f).
Proof. unfold read_registry. moves_solve. Qed.
Lemma quiet_hermes c : moves quietly_moves (hermes_call runner_env c).
Proof. unfold hermes_call. moves_solve. Qed.
Hint Resolve quiet_read quiet_hermes : moves.

Lemma quiet_reconcile project handle : moves quietly_moves (reconcile_project runner_env project handle).
Proof.
  assert (forall r, moves quietly_moves (reconcile_run runner_env r)) by (intros r; unfold reconcile_run, try_run_status; moves_solve).
  assert (forall rs, moves quietly_moves (reconcile_runs runner_env rs))
    by (induction rs as [|r rs IH]; cbn [reconcile_runs]; moves_solve).
  unfold reconcile_project. moves_solve.
Qed.
End Quiet.

(** ** The invariant *)

(** The approval a forwarded decision answers. *)
Definition forwarded (c : BackendCall) : option (string * Z) :=
  match c with ResolveApproval id seq _ _ _ => Some (id, seq) | StopRun _ _ _ => None end.

(** The stored decision on an approval. *)
Definition decided (id : string) (seq : Z) (choice : string) (db : Db) : Prop :=
  exists a, In a (run_approvals db) /\ a_run_id a = id /\ a_request_seq a = seq /\ a_decision a = Some choice.

Section Invariant.
Context `{SerdeJson}.

(** A project whose worker is being changed, or that is in Trash, has no active
    run; no approval was forwarded twice, and what was forwarded is the decision
    that is stored. *)
Record service_ok (n : NodeState) : Prop := {
  sv_node : node_ok (n_db n);
  sv_changing p : p ∈ n_changes n -> active_runs p (n_db n) = [];
  sv_trash p : in_trash p (n_db n) -> active_runs p (n_db n) = [];
  sv_once : NoDup (omap forwarded (n_calls n));
  sv_decided id seq url hid choice :
    In (ResolveApproval id seq url hid choice) (n_calls n) -> decided id seq choice (n_db n)
}.

Lemma service_at_rest n p : service_ok n -> p ∈ n_changes n \/ in_trash p (n_db n) -> at_rest p (n_db n).
Proof.
  intros Hn Hp. apply idle_at_rest; [apply (no_runs _ (sv_node _ Hn))|].
  destruct Hp; [by apply (sv_changing _ Hn)|by apply (sv_trash _ Hn)].
Qed.

(** A run may be created for [project]. *)
Record free (project : string) (n : NodeState) : Prop := {
  fr_ok : service_ok n;
  fr_changing : project ∉ n_changes n;
  fr_trash : ~ in_trash project (n_db n)
}.

(** What the others may do: they make well-typed calls, do not create runs but
    through [Admit], and suspend a project only while they change it. *)
Definition fair_action (a : Action) : Prop :=
  match a with
  | Elsewhere c => quiet_call c
  | DuringChange project c => well_typed c /\ creates c = false /\ (suspends c = None \/ suspends c = Some project)
  | Admit project _ _ _ _ request => n_project_id request = project
  | _ => True
  end.

(** ** One change of the registry *)

Lemma decided_step c db id seq choice :
  node_ok db -> well_typed c -> decided id seq choice db -> decided id seq choice (snd (System.perform c db)).
Proof.
  intros Hok Ht (a & Hin & Hid & Hseq & Hd). destruct (perform_ok c db Ht Hok) as (_ & Hev & _).
  apply list_elem_of_In, list_elem_of_lookup in Hin as [i Hi].
  destruct (de_approvals _ _ Hev i a Hi) as (a' & Hi' & [[K1 K2] _ Hdec]). exists a'.
  split; [apply list_elem_of_In, list_elem_of_lookup; eauto|]. rewrite K1, K2. split; [done|]. split; [done|].
  destruct Hdec as [-> _]; [by rewrite Hd|done].
Qed.

(** A call that creates no run, and suspends no project but one that is being changed. *)
Lemma ok_call c n :
  well_typed c -> creates c = false -> (forall q, suspends c = Some q -> q ∈ n_changes n) ->
  service_ok n -> service_ok (on_db (fun db => snd (System.perform c db)) n).
Proof.
  intros Ht Hc Hs [Hn Hch Htr Ho Hd]. split; cbn [on_db n_db n_changes n_calls].
  - by apply perform_ok.
  - intros p Hp. apply idle_call; auto.
  - intros p Hp. apply idle_call; auto. apply trash_call in Hp as [Hp|Hp]; auto.
  - done.
  - intros. apply decided_step; eauto.
Qed.

Lemma free_call project c n :
  well_typed c -> creates c = false -> (forall q, suspends c = Some q -> q ∈ n_changes n) ->
  free project n -> free project (on_db (fun db => snd (System.perform c db)) n).
Proof.
  intros Ht Hc Hs [Hok Hch Htr]. split; [by apply ok_call|done|]. cbn. intros [Hp|Hp]%trash_call; auto.
Qed.

(** A run is created for a project that may have one. *)
Lemma ok_create h now stamp req n :
  free (n_project_id req) n -> service_ok (on_db (fun db => snd (Registry.create_run h now stamp req db)) n).
Proof.
  intros [[Hn Hch Htr Ho Hd] Hf Ht]. pose proof (perform_ok (System.CreateRun h now stamp req) (n_db n) I Hn) as Hp.
  destruct Hp as (Hn' & Hev & _). cbn [System.perform outcome snd] in Hn', Hev.
  split; cbn [on_db n_db n_changes n_calls]; [done| | |done|].
  - intros p Hp. apply idle_created; auto. congruence.
  - intros p Hp. assert (in_trash p (n_db n)) as Hp'.
    { pose proof (trash_call (System.CreateRun h now stamp req) (n_db n) p Hp) as [?|]; done. }
    apply idle_created; auto. congruence.
  - intros. apply (decided_step (System.CreateRun h now stamp req)); eauto. done.
Qed.

(** Changes of other parts of the node. *)
Definition same_parts (n n' : NodeState) : Prop :=
  n_db n' = n_db n /\ n_changes n' = n_changes n /\ n_calls n' = n_calls n.
Lemma ok_same n n' : same_parts n n' -> service_ok n -> service_ok n'.
Proof. intros (E1 & E2 & E3) []. split; by rewrite ?E1, ?E2, ?E3. Qed.
Lemma free_same project n n' : same_parts n n' -> free project n -> free project n'.
Proof. intros (E1 & E2 & E3) [Hok ? ?]. split; rewrite ?E1, ?E2; [by apply (ok_same n)|done..]. Qed.

Lemma ok_ended p n : service_ok n -> service_ok (on_changes (fun s => s ∖ {[p]}) n).
Proof. intros [? Hc ? ? ?]. split; cbn [on_changes n_db n_changes n_calls]; try done. intros q [? _]%elem_of_difference. auto. Qed.
Lemma ok_begun p n :
  active_runs p (n_db n) = [] -> service_ok n -> service_ok (on_changes (fun s => {[p]} ∪ s) n).
Proof. intros Hp [? Hc ? ? ?]. split; cbn [on_changes n_db n_changes n_calls]; try done. intros q [->%elem_of_singleton|?]%elem_of_union; auto. Qed.
Lemma free_ended project p n : free project n -> free project (on_changes (fun s => s ∖ {[p]}) n).
Proof. intros [Hok Hc Ht]. split; [by apply ok_ended| |done]. cbn. set_solver. Qed.
End Invariant.

(** ** The others *)

(** [I] is kept. *)
Definition stays (I : NodeState -> Prop) (n n' : NodeState) : Prop := I n -> I n'.
#[export] Instance stays_preorder I : PreOrder (stays I).
Proof. split; [by intros ??|]. intros a b c H1 H2 Ha. auto. Qed.

(** From [I] to [J] when the program returns; otherwise to [K]. *)
Definition takes {E A} (I : NodeState -> Prop) (m : S E A) (J K : NodeState -> Prop) : Prop :=
  forall n, I n -> match m n with (Ok _, n') => J n' | (Err _, n') => K n' end.
Lemma takes_bind {E A B} I J K L (m : S E A) (k : A -> S E B) :
  takes I m J L -> (forall a, takes J (k a) K L) -> takes I (bind m k) K L.
Proof.
  intros Hm Hk n Hn. specialize (Hm n Hn). unfold bind. destruct (m n) as [[a|e] n1]; [by apply Hk|done].
Qed.
Lemma takes_moves {E A} I K (m : S E A) : moves (stays I) m -> (forall n, I n -> K n) -> takes I m I K.
Proof. intros Hm HK n Hn. specialize (Hm n Hn). destruct (m n) as [[]]; [done|by apply HK]. Qed.
Lemma moves_takes {E A} I (m : S E A) : takes I m I I -> moves (stays I) m.
Proof. intros Hm n Hn. specialize (Hm n Hn). by destruct (m n) as [[]]. Qed.

Section Others.
Context `{SerdeJson} `{Process} `{RegistryCodec} `{StoreCodec} `{Backend} `{Hermes}.
Context (paths : ProviderPaths) (node_home : string) (env : nat -> Beside).

Lemma not_in_trash id db p :
  node_ok db -> Inventory.project id db = Ok p -> (forall r, p = Some r -> rp_suspended_at r = None) -> ~ in_trash id db.
Proof.
  intros Hok Hp Hs (row & Hin & Hid & Ht). revert Hp. unfold Inventory.project.
  rewrite (proj2 (select_project _ _ _ (no_inventory _ Hok)) (conj Hin Hid)).
  unfold map_project. destruct (ProfileState.parse _); [|done]. destruct (RuntimeOwnership.parse _); [|done].
  intros [= <-]. specialize (Hs _ eq_refl). cbn in Hs. rewrite Hs in Ht. by destruct Ht.
Qed.

Lemma guard_verdict_Ok ch p checked nodes :
  guard_verdict paths node_home ch p checked nodes = Ok tt ->
  ch = false /\ forall r, p = Some r -> rp_suspended_at r = None.
Proof.
  unfold guard_verdict. destruct p as [r|].
  - destruct (rp_suspended_at r) as [z|] eqn:Es; cbn; [done|]. destruct ch; cbn; [done|].
    intros _. split; [done|]. by intros r' [= <-].
  - destruct ch; cbn; [done|]. intros _. by split.
Qed.

Lemma guard_now_free project checked n :
  service_ok n -> guard_now paths node_home project checked n = Ok tt -> free project n.
Proof.
  intros Hok. unfold guard_now. destruct (Inventory.project project (n_db n)) as [p|] eqn:Ep; [|done].
  intros [Hc Hs]%guard_verdict_Ok. split; [done| |by eapply not_in_trash; [apply Hok|..]].
  unfold is_changing in Hc. by apply bool_decide_eq_false in Hc.
Qed.

Abbreviation perform_action := (perform_action paths node_home).

Lemma ok_action a n : fair_action a -> service_ok n -> service_ok (perform_action a n).
Proof.
  destruct a as [c|project c|project|project|project checked h now stamp request| |id|id]; cbn [fair_action service.perform_action].
  - intros (Ht & Hc & Hs) Hok. apply ok_call; try done. intros q. by rewrite Hs.
  - intros (Ht & Hc & Hs) Hok. destruct (is_changing project n) eqn:Ec; [|done].
    apply ok_call; try done. intros q Hq. destruct Hs as [Hs|Hs]; rewrite Hs in Hq; [done|]. injection Hq as <-.
    by apply bool_decide_eq_true in Ec.
  - intros _ Hok. destruct (is_changing project n); [done|]. cbn [orb].
    case_bool_decide as Ha; cbn [negb]; [|done]. by apply ok_begun.
  - intros _. apply ok_ended.
  - intros <- Hok. destruct (guard_now paths node_home _ checked n) as [[]|] eqn:Eg; [|done].
    by eapply ok_create, guard_now_free.
  - intros _. by apply ok_same.
  - intros _. by apply ok_same.
  - intros _. by apply ok_same.
Qed.

Lemma free_action a project n :
  fair_action a -> needs_registry a = false -> free project n -> free project (perform_action a n).
Proof.
  destruct a as [c|q c|q|q|q checked h now stamp request| |id|id];
    cbn [fair_action service.perform_action needs_registry]; try done.
  - intros (Ht & Hc & Hs) _ Hok. apply free_call; try done. intros r. by rewrite Hs.
  - intros (Ht & Hc & Hs) _ Hok. destruct (is_changing q n) eqn:Ec; [|done].
    apply free_call; try done. intros r Hr. destruct Hs as [Hs|Hs]; rewrite Hs in Hr; [done|]. injection Hr as <-.
    by apply bool_decide_eq_true in Ec.
  - intros _ _. apply free_ended.
  - intros _ _. by apply free_same.
  - intros _ _. by apply free_same.
  - intros _ _. by apply free_same.
Qed.

Context (Henv : forall k a, In a (b_meanwhile (env k)) -> fair_action a).
Abbreviation tick := (service.tick paths node_home env).

Lemma tick_stays {E} (I : NodeState -> Prop) may :
  (forall n a, fair_action a -> may a = true -> I n -> I (perform_action a n)) ->
  (forall n, I n -> I (stepped n)) -> moves (stays I) (@service.tick _ paths node_home env E may).
Proof.
  intros Ha Hs n Hn. unfold service.tick. cbn [snd]. apply Hs.
  assert (forall a, In a (List.filter may (b_meanwhile (env (n_step n)))) -> fair_action a /\ may a = true) as Hall.
  { intros a [Hin Hm]%filter_In. split; [by eapply Henv|done]. }
  revert Hall. generalize (List.filter may (b_meanwhile (env (n_step n)))) as l. intros l. revert n Hn.
  induction l as [|a l IH]; intros n Hn Hall; [done|]. cbn. apply IH.
  - destruct (Hall a (or_introl eq_refl)). by apply Ha.
  - intros a' Ha'. apply Hall. by right.
Qed.
Lemma tick_ok {E} may : moves (stays service_ok) (@service.tick _ paths node_home env E may).
Proof. apply tick_stays; [intros; by apply ok_action|]. intros n. by apply ok_same. Qed.
Lemma tick_free {E} project may :
  (forall a, may a = true -> needs_registry a = false) ->
  moves (stays (free project)) (@service.tick _ paths node_home env E may).
Proof. intros Hm. apply tick_stays; [intros; by apply free_action; auto|]. intros n. by apply free_same. Qed.

(** ** The pieces of the operations *)

Lemma stays_local {E} (I : NodeState -> Prop) (f : NodeState -> NodeState) :
  (forall n n', same_parts n n' -> I n -> I n') -> (forall n, same_parts n (f n)) ->
  moves (stays I) (@modify (Outcome E) NodeState f).
Proof. intros HI Hf. apply moves_modify. intros n Hn. by apply (HI n). Qed.
Lemma stays_provider {E A} (I : NodeState -> Prop) (m : P E A) :
  (forall n n', same_parts n n' -> I n -> I n') -> moves (stays I) (on_provider m).
Proof. intros HI n Hn. unfold on_provider. destruct (m (n_logins n)) as [r p]. by apply (HI n). Qed.

Section Handlers.
Context (R : NodeState -> NodeState -> Prop) `{!PreOrder R}.
Lemma smoves_throw {E A} (e : E) : moves R (@service.throw E A e).
Proof. intros s. cbn. reflexivity. Qed.
Lemma smoves_mapping {E F A} (f : E -> F) (m : S E A) : moves R m -> moves R (service.mapping f m).
Proof. intros Hm s. specialize (Hm s). unfold service.mapping. by destruct (m s) as [[|[]]]. Qed.
Lemma smoves_attempting {E F A} (m : S E A) : moves R m -> moves R (@service.attempting E F A m).
Proof. intros Hm s. specialize (Hm s). unfold service.attempting. by destruct (m s) as [[|[]]]. Qed.
Lemma smoves_checked {E F A} (f : E -> F) (r : Result E A) : moves R (service.checked f r).
Proof. destruct r; [apply moves_ret, _|apply smoves_throw]. Qed.
End Handlers.
End Others.
#[export] Hint Resolve smoves_throw smoves_checked : moves.
#[export] Hint Extern 1 (moves (stays service_ok) (on_provider _)) => apply stays_provider, ok_same : moves.
#[export] Hint Extern 1 (moves (stays service_ok) (modify _)) => apply stays_local; [apply ok_same|done] : moves.

Ltac service_moves :=
  repeat (cbv zeta; match goal with
    | |- moves _ (bind _ _) => apply moves_bind; [apply _| |intros ?]
    | |- moves _ (service.mapping _ _) => apply smoves_mapping
    | |- moves _ (service.attempting _) => apply smoves_attempting
    | |- moves _ (let (_, _) := ?x in _) => destruct x
    | |- moves _ (match ?x with _ => _ end) => destruct x
    | |- moves _ _ => solve [auto with moves typeclass_instances]
    end).
