(* ===== verification/ServiceTheorems.v ===== *)
(** * ServiceTheorems: what holds of the application service ([service.rs]). *)
From Stdlib Require Import Lia.
From stdpp Require Import gmap relations.
From S2P Require Import Prelude Text Json RunState Redact Schema Registry RegistryFacts Evolution Identifiers.
From S2P Require Import Remote Inventory InventoryFacts System Protocol Sse RunLock Attachments ChatHistory Approvals.
From S2P Require Import Runner RunnerFacts Reconcile Policy Fs CredentialSwap Credentials CredentialHomes Host Profiles.
From S2P Require Import DeviceCode Provider ActiveRuns Service ServiceFacts.
Import provider service.

(** ** Every operation keeps the invariant *)

(** The operations of the service, with their arguments. *)
Inductive Operation : Type :=
| OpBind (hermes_home : string)
| OpBeginChange (project : string)
| OpEndChange (project : string)
| OpRevoke (credential : string)
| OpAfterRun (credential : string) (generation now : Z)
| OpCreate (project : string) (request : service.CreateRun)
| OpList (project : string) (limit : Z)
| OpGet (project run : string)
| OpApprovals (project run : string)
| OpEvents (project run : string) (since limit : Z)
| OpPage (run : string) (after : Z)
| OpPolicy (project run : string) (policy : RunApprovalPolicy) (actor : option string)
| OpResolve (project run choice : string)
| OpCancel (project run : string)
| OpRetry (project run : string)
| OpReconcile (project : string) (handle : nat)
| OpActivity (project : string)
| OpDrain (rounds : nat) (timeout : Z).

Section Service.
Context `{SerdeJson} `{Process} `{RegistryCodec} `{StoreCodec} `{Backend} `{Hermes}.
Context (paths : ProviderPaths) (node_home release : string) (runtime_uid uid : Z) (provider_env : nat -> Moment).
Context (state_root base_url node_api_key : string) (limits : Limits).
Context (env : nat -> Beside) (runner_env : nat -> Tick) (describe : RegistryError -> string).
Context (describe_node : NodeError -> string).

Definition operate (o : Operation) (n : NodeState) : NodeState :=
  match o with
  | OpBind home => snd (bind_existing_profiles paths node_home base_url env home n)
  | OpBeginChange p => snd (begin_worker_change paths node_home env p n)
  | OpEndChange p => snd (@end_worker_change Empty_set p n)
  | OpRevoke id => snd (credential_revoke paths node_home runtime_uid provider_env env id n)
  | OpAfterRun id g now => snd (@reconcile_credential_after_run _ _ _ node_home provider_env Empty_set id g now n)
  | OpCreate p request => snd (service.create_run paths node_home release runtime_uid uid provider_env state_root
                                 node_api_key limits env describe_node p request n)
  | OpList p l => snd (service.list_runs paths node_home limits env p l n)
  | OpGet p r => snd (get_run paths node_home env p r n)
  | OpApprovals p r => snd (service.approvals paths node_home env p r n)
  | OpEvents p r s l => snd (service.events paths node_home limits env p r s l n)
  | OpPage r a => snd (stream_page paths node_home limits env r a n)
  | OpPolicy p r policy actor => snd (service.set_run_approval_policy paths node_home env describe p r policy actor n)
  | OpResolve p r choice => snd (service.resolve_approval paths node_home uid node_api_key env describe describe_node p r choice n)
  | OpCancel p r => snd (cancel_run paths node_home uid node_api_key env describe describe_node p r n)
  | OpRetry p r => snd (retry_run paths node_home release runtime_uid uid provider_env node_api_key limits env describe_node p r n)
  | OpReconcile p h => snd (reconcile paths node_home uid provider_env node_api_key limits env runner_env describe describe_node p h n)
  | OpActivity p => snd (project_activity paths node_home env p n)
  | OpDrain rounds timeout => snd (drain paths node_home env rounds timeout n)
  end.
Definition operated (os : list Operation) (n : NodeState) : NodeState :=
  List.fold_left (fun n o => operate o n) os n.

Section Keeps.
Context (Henv : forall k a, In a (b_meanwhile (env k)) -> fair_action a) (Hrunner : quiet_env runner_env).

Lemma ok_tick {E} may : moves (stays service_ok) (@service.tick _ paths node_home env E may).
Proof. by apply tick_ok. Qed.
Hint Resolve ok_tick : moves.

(** A method that is a quiet call, or leaves the registry alone. *)
Definition is_quiet {A} (m : M RegistryError Db A) : Prop :=
  exists c, quiet_call c /\ forall db, snd (m db) = snd (System.perform c db).

Lemma ok_quiet c n db :
  quiet_call c -> db = snd (System.perform c (n_db n)) -> service_ok n -> service_ok (service.on_db (fun _ => db) n).
Proof. intros (Ht & Hc & Hs) -> Hok. apply (ok_call c n); try done. intros q. by rewrite Hs. Qed.

Lemma ok_under {A} (m : Beside -> M RegistryError Db A) :
  (forall b, is_quiet (m b)) -> moves (stays service_ok) (under paths node_home env m).
Proof.
  intros Hm. unfold under. apply moves_bind; [apply _|apply ok_tick|]. intros b n Hn.
  destruct (Hm b) as (c & Hq & Hc). specialize (Hc (n_db n)).
  destruct (m b (n_db n)) as [[a|e] db]; by eapply ok_quiet.
Qed.
Lemma ok_reading {E A} (f : Db -> A) : moves (stays service_ok) (@reading _ paths node_home env E A f).
Proof. unfold reading. service_moves. Qed.
Lemma ok_acquire {E} : moves (stays service_ok) (@acquire _ paths node_home env E).
Proof. unfold acquire. service_moves. Qed.
Hint Resolve ok_reading ok_acquire : moves.

Lemma is_quiet_append id ev u t : is_quiet (append_event id ev u t).
Proof. by exists (AppendEvent id ev u t). Qed.
Lemma is_quiet_update id u now : is_quiet (update_run id u now).
Proof. by exists (UpdateRun id u now). Qed.
Lemma is_quiet_resolution id seq r : is_quiet (record_approval_resolution id seq r).
Proof. by exists (ApprovalResolution id seq r). Qed.
Lemma is_quiet_decision id seq d now : is_quiet (record_approval_decision id seq d now).
Proof. by exists (ApprovalDecision id seq d now). Qed.
Lemma is_quiet_policy id p actor now : is_quiet (Registry.set_run_approval_policy id p actor now).
Proof. by exists (SetApprovalPolicy id p actor now). Qed.
Hint Resolve is_quiet_append is_quiet_update is_quiet_resolution is_quiet_decision is_quiet_policy : moves.
Hint Extern 1 (moves (stays service_ok) (under _ _ _ _)) => apply ok_under; intros ?; auto with moves : moves.

Lemma ok_read_project p : moves (stays service_ok) (read_project paths node_home env p).
Proof. unfold read_project. service_moves. Qed.
Lemma ok_load_owned p r : moves (stays service_ok) (load_owned paths node_home env p r).
Proof. unfold load_owned. service_moves. Qed.
Lemma ok_runtime may p : moves (stays service_ok) (project_runtime paths node_home uid node_api_key env describe_node may p).
Proof. unfold project_runtime. service_moves. Qed.
Hint Resolve ok_read_project ok_load_owned ok_runtime : moves.
Lemma ok_client p : moves (stays service_ok) (client_for paths node_home uid node_api_key env describe describe_node p).
Proof. unfold client_for. service_moves. Qed.
Lemma ok_supervise {E} p r :
  moves (stays service_ok) (@supervise _ _ _ _ paths node_home uid provider_env node_api_key limits env describe_node E p r).
Proof. unfold supervise. service_moves. Qed.
Lemma ok_notify {E} id : moves (stays service_ok) (@notify E id).
Proof. unfold notify. service_moves. Qed.
Hint Resolve ok_notify : moves.
Lemma ok_append_note id t v : moves (stays service_ok) (service.append_note paths node_home env id t v).
Proof. unfold service.append_note. service_moves. Qed.
Hint Resolve ok_client ok_supervise ok_append_note : moves.

Lemma ok_binds home ps : moves (stays service_ok) (bind_each paths node_home base_url env home ps).
Proof.
  induction ps as [|p ps IH]; cbn [bind_each]; service_moves. intros n Hn.
  set (m := bind_existing_profile (rp_project_id p) home (default_profile_name (rp_project_id p)) base_url "").
  set (c := BindExistingProfile (rp_project_id p) home (default_profile_name (rp_project_id p)) base_url "").
  destruct (m (n_db n)) as [r db] eqn:E. apply (ok_quiet c n); [done| |done].
  unfold c. cbn [System.perform outcome snd]. fold m. by rewrite E.
Qed.
Lemma ok_begin p : moves (stays service_ok) (begin_worker_change paths node_home env p).
Proof.
  unfold begin_worker_change, begin_credential_change. apply moves_bind; [apply _|apply ok_acquire|intros _].
  intros n Hn. unfold bind at 1, reading, bind at 1. pose proof (ok_tick (E := string) holding_registry n Hn) as Hn1.
  destruct (service.tick paths node_home env holding_registry n) as [[b|e] n1]; [|done]. cbn [snd] in Hn1.
  unfold bind, gets. destruct (is_changing p n1); [done|].
  case_bool_decide as Ha; cbn [negb]; [|done]. cbn [snd modify]. by apply ok_begun.
Qed.
Lemma ok_reconcile_now p h : moves (stays service_ok) (reconcile_project_now runner_env p h).
Proof.
  intros n Hn. unfold reconcile_project_now. set (w := Build_World _ _ _ _ _ _ _ _).
  pose proof (quiet_reconcile runner_env Hrunner p h w) as Hq. unfold quietly_moves in Hq.
  destruct (reconcile_project runner_env p h w) as [r w']. cbn [snd] in *.
  apply (ok_same (service.on_db (fun _ => w_db w') n)); [done|].
  change (w_db w) with (n_db n) in Hq. clear w. remember (n_db n) as db eqn:E. revert n Hn E.
  induction Hq as [db|db db1 db2 [c db0 Hc] _ IH]; intros n Hn ->; [by destruct n|].
  apply (IH (service.on_db (fun _ => snd (System.perform c (n_db n))) n)); [|done]. by apply (ok_quiet c).
Qed.
Lemma ok_drain rounds now deadline : moves (stays service_ok) (drain_rounds paths node_home env rounds now deadline).
Proof. revert now. induction rounds as [|rounds IH]; intros now; cbn [drain_rounds]; service_moves. Qed.
Lemma ok_policy p r policy actor :
  moves (stays service_ok) (service.set_run_approval_policy paths node_home env describe p r policy actor).
Proof.
  unfold service.set_run_approval_policy. service_moves; intros n Hn;
    match goal with
    | |- context [Registry.set_run_approval_policy ?id ?p ?who ?t (n_db n)] => destruct (is_quiet_policy id p who t) as (c & Hq & Hc)
    | |- context [append_event ?id ?e ?u ?t (n_db n)] => destruct (is_quiet_append id e u t) as (c & Hq & Hc)
    end; specialize (Hc (n_db n)).
  - destruct (Registry.set_run_approval_policy _ _ _ _ (n_db n)) as [[]]; by apply (ok_quiet c).
  - destruct (append_event _ _ _ _ (n_db n)) as [[]]; by apply (ok_quiet c).
Qed.

(** *** Admitting a run *)

Lemma free_tick {E} p : moves (stays (free p)) (@service.tick _ paths node_home env E holding_registry).
Proof. apply tick_free; [done|]. intros a. apply negb_true_iff. Qed.

Lemma free_read_project p q : moves (stays (free p)) (read_project paths node_home env q).
Proof. unfold read_project, reading. pose proof (@free_tick). service_moves. Qed.

Lemma guard_frees p u :
  takes service_ok (credential_run_guard paths node_home env p u) (free p) service_ok.
Proof.
  intros n Hn. unfold credential_run_guard, bind at 1, gets at 1. destruct (is_changing p n) eqn:Ec.
  { pose proof (fun q : option RegisteredProject => guard_verdict_Ok paths node_home true q u) as Hg.
    revert n Hn Ec. intros n Hn _.
    match goal with |- match ?m n with _ => _ end => assert (moves (stays service_ok) m) as Hm by service_moves end.
    specialize (Hm n Hn). revert Hm. unfold bind. destruct (read_project paths node_home env p n) as [[q|e] n1]; [|done].
    unfold gets, service.checked. cbn. destruct (guard_verdict _ _ _ _ _ _) as [[]|] eqn:Eg; [|done].
    by apply Hg in Eg as [? _]. }
  unfold bind at 1, read_project, bind at 1, reading, bind at 1.
  set (I := fun n => service_ok n /\ p ∉ n_changes n).
  assert (moves (stays I) (@service.tick _ paths node_home env ServiceError holding_registry)) as Ht.
  { apply tick_stays; [done| |].
    - intros m a Ha Hm [Hok Hp]. split; [by apply ok_action|].
      destruct a; cbn; try done; cbn in Hm; try done;
        [destruct (is_changing project m); exact Hp|intros [? _]%elem_of_difference; done].
    - intros m [Hok Hp]. split; [by apply (ok_same m)|done]. }
  specialize (Ht n (conj Hn (proj1 (bool_decide_eq_false _) Ec))).
  destruct (service.tick paths node_home env holding_registry n) as [[b|e] n1]; destruct Ht as [Hok Hp]; [|done].
  unfold gets. destruct (Inventory.project p (n_db n1)) as [q|] eqn:Ep; cbn; [|done].
  unfold bind, gets. destruct (guard_verdict _ _ _ _ _ _) as [[]|] eqn:Eg; cbn; [|done].
  apply guard_verdict_Ok in Eg as [_ Hs]. split; [done..|]. by eapply not_in_trash; [apply Hok|..].
Qed.

Lemma create_keeps p (req : NewRun) :
  n_project_id req = p ->
  takes (free p) (under paths node_home env (fun b => Registry.create_run (b_host b) (b_now b) (b_stamp b) req))
    service_ok service_ok.
Proof.
  intros <- n Hn. unfold under, bind at 1. pose proof (free_tick (E := ServiceError) _ n Hn) as Hn1.
  destruct (service.tick paths node_home env holding_registry n) as [[b|e] n1]; [|apply Hn1]. cbn [snd] in Hn1.
  pose proof (ok_create (b_host b) (b_now b) (b_stamp b) req n1 Hn1) as Hok.
  unfold service.on_db in Hok. destruct (Registry.create_run _ _ _ req (n_db n1)) as [[c|e] db]; exact Hok.
Qed.

Lemma ok_usable p :
  moves (stays service_ok) (credential_usable_for_run paths node_home release runtime_uid provider_env env p).
Proof. unfold credential_usable_for_run. service_moves. Qed.
Hint Resolve ok_usable : moves.

(** The guard and the insertion are one critical section of the registry. *)
Lemma ok_insertion {A} p (req : NewRun) (k : RunCreation -> S ServiceError A) :
  n_project_id req = p -> (forall c, moves (stays service_ok) (k c)) ->
  takes (free p)
    (let! c := under paths node_home env (fun b => Registry.create_run (b_host b) (b_now b) (b_stamp b) req) in k c)
    service_ok service_ok.
Proof.
  intros Hreq Hk. eapply takes_bind; [by apply create_keeps|intros c]. by apply takes_moves.
Qed.
Lemma ok_admission {A} p u (rest : S ServiceError A) :
  takes (free p) rest service_ok service_ok ->
  moves (stays service_ok) (credential_run_guard paths node_home env p u ;;; rest).
Proof. intros Hr. apply moves_takes. eapply takes_bind; [apply guard_frees|by intros _]. Qed.

Lemma ok_create_run p request :
  moves (stays service_ok) (service.create_run paths node_home release runtime_uid uid provider_env state_root
                              node_api_key limits env describe_node p request).
Proof.
  unfold service.create_run. apply moves_bind; [apply _|auto with moves typeclass_instances|intros _].
  case_bool_decide; [auto with moves typeclass_instances|].
  apply moves_bind; [apply _|auto with moves typeclass_instances|intros [|]]; [auto with moves typeclass_instances|].
  do 3 (apply moves_bind; [apply _|by auto with moves typeclass_instances|intros ?]).
  apply ok_admission. eapply takes_bind; [apply takes_moves; [apply free_read_project|by intros n []]|intros q].
  apply ok_insertion; [done|]. intros c. service_moves.
Qed.

Lemma ok_retry_run p r :
  moves (stays service_ok) (retry_run paths node_home release runtime_uid uid provider_env node_api_key limits env
                              describe_node p r).
Proof.
  unfold retry_run. apply moves_bind; [apply _|auto with moves typeclass_instances|intros [|]];
    [auto with moves typeclass_instances|].
  do 4 (apply moves_bind; [apply _|by auto with moves typeclass_instances|intros ?]).
  do 2 (match goal with |- moves _ (if ?b then _ else _) => destruct b end; [by auto with moves typeclass_instances|]).
  apply ok_admission, ok_insertion; [done|]. intros c. service_moves.
Qed.

(** *** Forwarding a decision *)

(** Winning the decision means that it was open, so it was not forwarded yet. *)
Lemma ok_claim {A} id hid seq choice url (k : list BackendCall -> S ServiceError A) e :
  (forall before, moves (stays service_ok) (k before)) ->
  moves (stays service_ok)
    (let! claimed := under paths node_home env (fun b => record_approval_decision id seq choice (b_now b)) in
     if negb claimed then service.throw e
     else let! before := gets n_calls in
          modify (called (ResolveApproval id seq url hid choice)) ;;; k before).
Proof.
  intros Hk n Hn. unfold bind at 1, under, bind at 1.
  pose proof (ok_tick (E := ServiceError) holding_registry n Hn) as Hn1.
  destruct (service.tick paths node_home env holding_registry n) as [[b|o] n1]; [|done]. cbn [snd] in Hn1.
  set (db1 := n_db n1) in *. change (record_approval_decision id seq choice (b_now b) db1) with
    (Ok (changes (undecided id seq) (run_approvals db1) =? 1)%nat : Result RegistryError bool,
     on_approvals (update_where (undecided id seq) (decide_row choice (b_now b))) db1).
  set (db2 := on_approvals _ db1). cbv beta iota.
  assert (service_ok (service.on_db (fun _ => db2) n1)) as Hn2 by (by apply (ok_quiet (ApprovalDecision id seq choice (b_now b)))).
  destruct (Nat.eqb_spec (changes (undecided id seq) (run_approvals db1)) 1) as [Hc|]; [|exact Hn2]. cbn [negb].
  assert (exists a, In a (run_approvals db1) /\ undecided id seq a = true) as (a & Ha & Hu).
  { unfold changes in Hc. destruct (List.filter (undecided id seq) (run_approvals db1)) as [|a l] eqn:E; [done|].
    exists a. apply filter_In. rewrite E. by left. }
  pose proof Hu as [Hia Hnull]%andb_true_iff. apply andb_true_iff in Hia as [Hid%String.eqb_eq Hseq%Z.eqb_eq].
  unfold bind at 1, gets at 1, bind at 1, modify. cbn beta iota. apply Hk.
  destruct Hn2 as [Hok2 Hch2 Htr2 Ho2 Hd2]. split; try done; cbn [called n_calls service.on_db n_db].
  - rewrite omap_app. apply list.NoDup_app. split; [done|]. split; [|apply NoDup_singleton].
    intros key Hin Hk2%list_elem_of_singleton. apply list_elem_of_omap in Hin as (c & Hcall%list_elem_of_In & Hkey).
    destruct c as [id' seq' url' hid' choice'|]; [|done]. cbn in Hkey. injection Hkey as <-. injection Hk2 as -> ->.
    destruct (sv_decided _ Hn1 _ _ _ _ _ Hcall) as (a' & Ha' & Hid' & Hseq' & Hdec).
    assert (a' = a) as ->; [|by rewrite Hdec in Hnull].
    apply (NoDup_map_inj (fun a => (a_run_id a, a_request_seq a)) (run_approvals db1)); [|done|done|congruence].
    apply NoDup_ListNoDup, (wf_approval_keys _ (no_runs _ (sv_node _ Hn1))).
  - intros id' seq' url' hid' choice' [Hin|[[= <- <- <- <- <-]|[]]]%in_app_iff; [by eapply Hd2|].
    exists (decide_row choice (b_now b) a). split; [|done]. apply In_update_where. exists a. by rewrite Hu.
Qed.

Lemma ok_resolve p r choice :
  moves (stays service_ok)
    (service.resolve_approval paths node_home uid node_api_key env describe describe_node p r choice).
Proof.
  unfold service.resolve_approval. do 2 (match goal with |- moves _ (if ?b then _ else _) => destruct b end;
    [by auto with moves typeclass_instances|]).
  do 4 (apply moves_bind; [apply _|by auto with moves typeclass_instances|intros ?]).
  do 2 (match goal with |- moves _ (match ?o with _ => _ end) => destruct o end; [|by auto with moves typeclass_instances]).
  apply ok_claim. intros before. service_moves.
Qed.

(** *** The others *)

Lemma ok_list p l : moves (stays service_ok) (service.list_runs paths node_home limits env p l).
Proof. unfold service.list_runs. service_moves. Qed.
Lemma ok_get p r : moves (stays service_ok) (get_run paths node_home env p r).
Proof. unfold get_run. service_moves. Qed.
Lemma ok_revoke id : moves (stays service_ok) (credential_revoke paths node_home runtime_uid provider_env env id).
Proof. unfold credential_revoke. service_moves. Qed.
Lemma ok_cancel p r : moves (stays service_ok) (cancel_run paths node_home uid node_api_key env describe describe_node p r).
Proof.
  unfold cancel_run. service_moves. intros n [? ? ? Ho Hd]. split; try done; cbn [called n_calls n_db modify snd].
  - by rewrite omap_app, app_nil_r.
  - intros * [Hin|[?|[]]]%in_app_iff; [by eapply Hd|done].
Qed.

(** *** Any sequence of operations *)

Lemma ok_operate o n : service_ok n -> service_ok (operate o n).
Proof.
  revert n. destruct o as [home|p|p|id|id g now|p request|p l|p r|p r|p r since l|r after|p r policy actor|p r choice|p r|p r|p h|p|rounds timeout];
    cbn [operate].
  - change (moves (stays service_ok) (bind_existing_profiles paths node_home base_url env home)).
    unfold bind_existing_profiles. pose proof ok_binds. service_moves.
  - apply ok_begin.
  - intros n. apply ok_ended.
  - apply ok_revoke.
  - change (moves (stays service_ok)
      (@reconcile_credential_after_run _ _ _ node_home provider_env Empty_set id g now)).
    unfold reconcile_credential_after_run. service_moves.
  - apply ok_create_run.
  - apply ok_list.
  - apply ok_get.
  - change (moves (stays service_ok) (service.approvals paths node_home env p r)).
    unfold service.approvals. service_moves.
  - change (moves (stays service_ok) (service.events paths node_home limits env p r since l)).
    unfold service.events. service_moves.
  - change (moves (stays service_ok) (stream_page paths node_home limits env r after)). unfold stream_page. service_moves.
  - apply ok_policy.
  - apply ok_resolve.
  - apply ok_cancel.
  - apply ok_retry_run.
  - change (moves (stays service_ok) (reconcile paths node_home uid provider_env node_api_key limits env runner_env
      describe describe_node p h)). unfold reconcile. pose proof ok_reconcile_now. service_moves.
  - change (moves (stays service_ok) (project_activity paths node_home env p)). unfold project_activity. service_moves.
  - change (moves (stays service_ok) (drain paths node_home env rounds timeout)). unfold drain. pose proof ok_drain. service_moves.
Qed.

Lemma ok_operated os n : service_ok n -> service_ok (operated os n).
Proof. revert n. induction os as [|o os IH]; intros n Hn; [done|]. apply IH. by apply ok_operate. Qed.

(** C4. While a project's worker is being changed, and while the project is in Trash,
    it has no live run that is among its 1000 newest, so none at all while it has
    at most 1000 runs: whatever sequence of operations the service performs, and
    whatever the other tasks of the node do between its statements, a run is never
    admitted into a project whose worker is being changed or that is suspended,
    and no change begins while one of its 1000 newest runs is live.  A live run
    with at least 1000 newer runs of its project is not excluded: the registry
    does not look further back, so a change may begin beside it, although the
    code says that none begins while a run is in flight. *)
Theorem changed_and_suspended_projects_are_idle os n p :
  service_ok n ->
  p ∈ n_changes (operated os n) \/ in_trash p (n_db (operated os n)) ->
  at_rest p (n_db (operated os n)).
Proof. intros Hn%(ok_operated os). by apply service_at_rest. Qed.

(** C5. A decision on an approval is forwarded to the backend at most once, and what
    is forwarded is the decision the registry stores for it: whatever sequence of
    operations runs, and however the other tasks (automatic approvals among them)
    race for the same approval. *)
Theorem decisions_are_forwarded_once os n :
  service_ok n ->
  NoDup (omap forwarded (n_calls (operated os n)))
  /\ forall id seq url hid choice, In (ResolveApproval id seq url hid choice) (n_calls (operated os n)) ->
       decided id seq choice (n_db (operated os n)).
Proof. intros Hn%(ok_operated os). split; [apply (sv_once _ Hn)|apply (sv_decided _ Hn)]. Qed.
End Keeps.
End Service.
