(* ===== verification/ServiceRuns.v ===== *)
(** * ServiceRuns: whose runs an operation may touch, where a run is sent, what a
    retry leaves, and how the service shuts down ([service.rs]). *)
From Stdlib Require Import Lia.
From stdpp Require Import gmap relations.
From S2P Require Import Prelude Text Json RunState Redact Schema Registry RegistryFacts Evolution Identifiers.
From S2P Require Import Remote Inventory InventoryFacts System Protocol Sse RunLock Attachments ChatHistory Approvals.
From S2P Require Import Runner RunnerFacts Reconcile Policy Fs CredentialSwap Credentials CredentialHomes Host Profiles.
From S2P Require Import DeviceCode Provider ActiveRuns Service ServiceFacts.
Import provider service.

Section Runs.
Context `{SerdeJson} `{Process} `{RegistryCodec} `{StoreCodec} `{Backend} `{Hermes}.
Context (paths : ProviderPaths) (node_home release : string) (runtime_uid uid : Z) (provider_env : nat -> Moment).
Context (state_root base_url node_api_key : string) (limits : Limits).
Context (env : nat -> Beside) (runner_env : nat -> Tick) (describe : RegistryError -> string).
Context (describe_node : NodeError -> string).
Context (Henv : forall k a, In a (b_meanwhile (env k)) -> fair_action a).

(** ** What the others leave *)

(** One thing that happens without the operation: another task acts, a statement
    of this one begins, or the logins settle. *)
Inductive beside_step : NodeState -> NodeState -> Prop :=
| other_acts a n : fair_action a -> beside_step n (perform_action paths node_home a n)
| time_passes n : beside_step n (stepped n)
| logins_settle p n : beside_step n (with_provider p n).
Abbreviation beside := (rtc beside_step).

Lemma tick_beside {E} may : moves beside (@service.tick _ paths node_home env E may).
Proof.
  intros n. unfold service.tick. cbn [snd]. eapply rtc_r; [|apply time_passes].
  assert (forall a, In a (List.filter may (b_meanwhile (env (n_step n)))) -> fair_action a) as Hall.
  { intros a [Hin _]%filter_In. by eapply Henv. }
  revert Hall. generalize (List.filter may (b_meanwhile (env (n_step n)))) as l. intros l.
  revert n. induction l as [|a l IH]; intros n Hall; [apply rtc_refl|]. cbn.
  eapply rtc_l; [apply other_acts, Hall; by left|]. apply IH. intros a' Ha'. apply Hall. by right.
Qed.
Hint Resolve tick_beside : moves.

Lemma action_evolves a n :
  fair_action a -> node_ok (n_db n) -> db_evolves (n_db n) (n_db (perform_action paths node_home a n)).
Proof.
  destruct a as [c|q c|q|q|q checked h now stamp request| |id|id]; cbn [fair_action service.perform_action]; try done.
  - intros (Ht & _) Hok. by apply perform_ok.
  - intros (Ht & _) Hok. destruct (is_changing q n); [|done]. by apply perform_ok.
  - intros _ _. by destruct (_ || _).
  - intros _ _. destruct (guard_now paths node_home q checked n); [|done]. apply create_run_evolves.
Qed.

(** The run [r] exists, and is not one of [p]'s. *)
Record foreign (p r : string) (n : NodeState) : Prop := {
  fg_ok : service_ok n;
  fg_row : exists row, In row (runs (n_db n)) /\ r_run_id row = r /\ r_project_id row <> p
}.
Lemma foreign_beside p r n n' : beside n n' -> foreign p r n -> foreign p r n'.
Proof.
  induction 1 as [|n n1 n2 Hstep _ IH]; [done|]. intros [Hok (row & Hin & Hid & Hp)]. apply IH.
  destruct Hstep as [a n Ha|n|l n]; [|split; [by apply (ok_same n)|by exists row]..].
  split; [by apply ok_action|].
  apply list_elem_of_In, list_elem_of_lookup in Hin as [i Hi].
  destruct (de_runs _ _ (action_evolves a n Ha (sv_node _ Hok)) i row Hi) as (row' & Hi' & Hre). exists row'.
  split; [apply list_elem_of_In, list_elem_of_lookup; eauto|].
  destruct (re_request _ _ Hre) as (-> & _). by rewrite (re_id _ _ Hre).
Qed.

Lemma provider_beside {E A} (m : P E A) : moves beside (on_provider m).
Proof. intros n. unfold on_provider. destruct (m (n_logins n)). apply rtc_once, logins_settle. Qed.
Lemma reading_beside {E A} (f : Db -> A) : moves beside (@reading _ paths node_home env E A f).
Proof. unfold reading. service_moves. Qed.
Lemma acquire_beside {E} : moves beside (@acquire _ paths node_home env E).
Proof. unfold acquire. service_moves. Qed.
Hint Resolve reading_beside acquire_beside provider_beside : moves.
Lemma runtime_beside may p : moves beside (project_runtime paths node_home uid node_api_key env describe_node may p).
Proof. unfold project_runtime. service_moves. Qed.
Hint Resolve runtime_beside : moves.
Lemma usable_beside p :
  moves beside (credential_usable_for_run paths node_home release runtime_uid provider_env env p).
Proof. unfold credential_usable_for_run, read_project. service_moves. Qed.

(** ** A run of another project *)

(** What the environment itself does, and nothing else: at a statement of the
    operation the actions the environment has for that moment take place, but for
    those that wait for a lock ([may]); at a statement of the logins, theirs. *)
Inductive moment : NodeState -> NodeState -> Prop :=
| others_act (may : Action -> bool) n :
    moment n (stepped (List.fold_left (fun n a => perform_action paths node_home a n)
                         (List.filter may (b_meanwhile (env (n_step n)))) n))
| logins_move (E : Type) n :
    moment n (with_provider (snd (provider.tick (E := E) node_home provider_env (n_logins n))) n).
Abbreviation moments := (rtc moment).

Lemma moments_beside n n' : moments n n' -> beside n n'.
Proof.
  induction 1 as [|n n1 n2 Hm _ IH]; [done|]. etransitivity; [|exact IH]. destruct Hm as [may n|E n].
  - exact (tick_beside (E := ServiceError) may n).
  - apply rtc_once, logins_settle.
Qed.

(** When nobody else does anything, nothing changes but the logins. *)
Lemma moments_alone n n' :
  (forall k, b_meanwhile (env k) = []) -> moments n n' ->
  n_db n' = n_db n /\ n_files n' = n_files n /\ n_tasks n' = n_tasks n /\ n_changes n' = n_changes n
  /\ n_workers n' = n_workers n /\ n_calls n' = n_calls n /\ n_notified n' = n_notified n.
Proof.
  intros Hq. induction 1 as [|n n1 n2 Hm _ IH]; [done|]. destruct IH as (-> & -> & -> & -> & -> & -> & ->).
  destruct Hm as [may n|E n]; [|done]. by rewrite Hq.
Qed.

Lemma tick_moments {E} may : moves moments (@service.tick _ paths node_home env E may).
Proof. intros n. apply rtc_once, (others_act may). Qed.
Lemma reading_moments {E A} (f : Db -> A) : moves moments (@reading _ paths node_home env E A f).
Proof. pose proof @tick_moments. unfold reading. service_moves. Qed.
Lemma acquire_moments {E} : moves moments (@acquire _ paths node_home env E).
Proof. pose proof @tick_moments. unfold acquire. service_moves. Qed.
Lemma client_moments p : moves moments (client_for paths node_home uid node_api_key env describe describe_node p).
Proof. pose proof @tick_moments. pose proof @reading_moments. unfold client_for, project_runtime. service_moves. Qed.

Lemma logins_moments {E A} (m : P E A) :
  moves (rtc (fun p p' => exists E', p' = snd (provider.tick (E := E') node_home provider_env p))) m ->
  moves moments (on_provider m).
Proof.
  intros Hm n. specialize (Hm (n_logins n)). unfold on_provider. destruct (m (n_logins n)) as [r p']. cbn [snd] in *.
  assert (forall p n, n_logins n = p -> rtc (fun p p' => exists E', p' = snd (provider.tick (E := E') node_home provider_env p)) p p' ->
            moments n (with_provider p' n)) as Hall; [|by apply (Hall (n_logins n))].
  clear n Hm. intros p n Hp Hr. revert n Hp. induction Hr as [p|p p1 p2 [E' ->] _ IH]; intros n <-.
  - destruct n. apply rtc_refl.
  - eapply rtc_l; [apply (logins_move E')|]. exact (IH (with_provider _ n) eq_refl).
Qed.

Lemma usable_moments p :
  moves moments (credential_usable_for_run paths node_home release runtime_uid provider_env env p).
Proof.
  pose proof @tick_moments. pose proof @reading_moments.
  assert (forall id, moves moments (on_provider (provider.usable paths node_home release runtime_uid provider_env id))) as Hu.
  { intros id. apply logins_moments.
    set (R := rtc _). assert (PreOrder R) by (unfold R; apply _).
    assert (forall E, moves R (@provider.tick _ _ _ node_home provider_env E)) as Ht
      by (intros E q; apply rtc_once; by exists E).
    assert (forall E A (e : E), moves R (@provider.throw E A e)) as He by (intros E A e q; apply rtc_refl).
    unfold provider.usable, provider.attempt_in_flight, provider.disk_now. service_moves. }
  unfold credential_usable_for_run, read_project. pose proof @acquire_moments. service_moves.
Qed.

(** From where the run is foreign, the program ends with [Q], and all that changed
    is what the environment did at its moments. *)
Definition refused {A} (p r : string) (Q : Result (Outcome ServiceError) A -> Prop) (m : S ServiceError A) : Prop :=
  forall n, foreign p r n -> Q (fst (m n)) /\ moments n (snd (m n)).

Lemma refused_bind {A B} p r (Q : Result (Outcome ServiceError) B -> Prop) (m : S ServiceError A) (k : A -> S ServiceError B) :
  moves moments m -> (forall n e, fst (m n) = Err e -> Q (Err e)) -> (forall a, refused p r Q (k a)) ->
  refused p r Q (bind m k).
Proof.
  intros Hm He Hk n Hn. specialize (Hm n). specialize (He n). unfold bind.
  destruct (m n) as [[a|e] n1]; cbn [fst snd] in *; [|by eauto].
  destruct (Hk a n1) as [HQ Hb]; [by apply (foreign_beside _ _ n); [apply moments_beside|]|].
  split; [done|]. by etransitivity.
Qed.

Lemma load_owned_foreign {A} p r (k : RunRecord -> S ServiceError A) :
  validate_identifier p = Ok tt -> validate_identifier r = Ok tt ->
  refused p r (fun x => x = Err (Failed (not_found "run" r))) (bind (load_owned paths node_home env p r) k).
Proof.
  intros Hp Hr n Hn. unfold load_owned, checked_identifier. rewrite Hp, Hr. cbn [service.checked].
  unfold bind, ret, reading, bind. pose proof (tick_moments (E := ServiceError) holding_registry n) as Hb.
  destruct (service.tick paths node_home env holding_registry n) as [[b|e] n1] eqn:Et; [|done]. cbn [snd] in Hb. unfold gets.
  destruct (foreign_beside _ _ _ _ (moments_beside _ _ Hb) Hn) as [Hok (row & Hin & Hid & Hne)].
  unfold Registry.run, load_run. rewrite (proj2 (select_run _ _ _ (no_runs _ (sv_node _ Hok))) (conj Hin Hid)).
  cbn. destruct (String.eqb_spec (r_project_id row) p); [done|]. done.
Qed.

Definition unknown {A} (r : string) (x : Result (Outcome ServiceError) A) : Prop := x = Err (Failed (not_found "run" r)).
Definition not_done {A} (x : Result (Outcome ServiceError) A) : Prop := is_ok x = false.

Lemma refused_acquire {A} p r Q (k : unit -> S ServiceError A) :
  (forall u, refused p r Q (k u)) -> refused p r Q (bind (acquire paths node_home env) k).
Proof. intros Hk. apply refused_bind; [apply acquire_moments|done|done]. Qed.
Lemma refused_weaken {A} p r (Q Q' : Result (Outcome ServiceError) A -> Prop) m :
  (forall x, Q x -> Q' x) -> refused p r Q m -> refused p r Q' m.
Proof. intros HQ Hm n Hn. destruct (Hm n Hn). auto. Qed.
Lemma refused_owned {A} p r (k : RunRecord -> S ServiceError A) :
  validate_identifier p = Ok tt -> validate_identifier r = Ok tt ->
  refused p r not_done (bind (load_owned paths node_home env p r) k).
Proof. intros Hp Hr. eapply refused_weaken; [|by apply load_owned_foreign]. by intros x ->. Qed.

(** C12. A run of another project cannot be told from a run that does not exist: reading
    it, its approvals or its events, and changing its approval policy, all answer
    [run_not_found]; deciding its approval, cancelling and retrying it fail; and the
    operation itself sends nothing to a backend and neither writes nor announces
    anything: the state it leaves is exactly what the environment made of it at the
    moments that passed ([moments_alone]: when the others do nothing, nothing changed). *)
Theorem foreign_run_is_unknown p r choice policy actor since limit :
  validate_identifier p = Ok tt -> validate_identifier r = Ok tt -> 0 <= since ->
  refused p r (unknown r) (get_run paths node_home env p r)
  /\ refused p r (unknown r) (service.approvals paths node_home env p r)
  /\ refused p r (unknown r) (service.events paths node_home limits env p r since limit)
  /\ refused p r (unknown r) (service.set_run_approval_policy paths node_home env describe p r policy actor)
  /\ refused p r not_done (service.resolve_approval paths node_home uid node_api_key env describe describe_node p r choice)
  /\ refused p r not_done (cancel_run paths node_home uid node_api_key env describe describe_node p r)
  /\ refused p r not_done (retry_run paths node_home release runtime_uid uid provider_env node_api_key limits env
                             describe_node p r).
Proof.
  intros Hp Hr Hs. pose proof (fun A k => load_owned_foreign (A := A) p r k Hp Hr) as Hl.
  pose proof (fun A k => refused_owned (A := A) p r k Hp Hr) as Ho. split_and!.
  - unfold get_run, checked_identifier. rewrite Hp, Hr. cbn [service.checked]. apply refused_acquire. intros _ n Hn.
    destruct (Hl _ ret n Hn) as [HQ Hb]. unfold bind in HQ, Hb.
    destruct (load_owned paths node_home env p r n) as [[]]; done.
  - apply refused_acquire. intros _. apply Hl.
  - unfold service.events, checked_identifier. rewrite Hp, Hr. cbn [service.checked].
    destruct (Z.ltb_spec since 0); [lia|]. apply refused_acquire. intros _. apply Hl.
  - apply refused_acquire. intros _. apply Hl.
  - unfold service.resolve_approval. destruct (choice =? "always")%string; [by intros n Hn|].
    case_bool_decide; cbn [negb]; [|by intros n Hn]. apply refused_bind; [apply client_moments|done|]. intros url.
    apply refused_acquire. intros _. apply Ho.
  - apply refused_bind; [apply client_moments|done|]. intros url. apply refused_acquire. intros _. apply Ho.
  - unfold retry_run. apply refused_bind; [by intros n; apply rtc_refl|done|]. intros [|]; [by intros n Hn|].
    apply refused_bind; [apply usable_moments|done|]. intros u. apply refused_acquire. intros _. apply Ho.
Qed.

(** ** Where a run is sent *)

Lemma route_Ok p rp nodes url key :
  route uid node_api_key describe_node p rp nodes = Ok (url, key) ->
  exists r, rp = Some r /\ rp_enabled r = true /\ ProfileState.runnable (rp_profile_state r) = true
            /\ rp_runtime_endpoint r = Some url /\ worker_api_key uid node_api_key describe_node (rp_hermes_api_key_ref r) nodes = Ok key.
Proof.
  unfold route. destruct rp as [r|]; [|done]. destruct (rp_enabled r) eqn:Ee; cbn [negb]; [|done].
  destruct (ProfileState.runnable _) eqn:Er; cbn [negb]; [|done].
  destruct (rp_runtime_endpoint r) as [endpoint|] eqn:Eu; [|done].
  destruct (worker_api_key _ _ _ _ _) eqn:Ek; [|done]. intros [= <- <-]. by exists r.
Qed.

Lemma runtime_Ok p n url key n' :
  project_runtime paths node_home uid node_api_key env describe_node anyone p n = (Ok (url, key), n') ->
  beside n n' /\ exists r, registered p (n_db n') = Some r /\ rp_enabled r = true
    /\ ProfileState.runnable (rp_profile_state r) = true /\ rp_runtime_endpoint r = Some url
    /\ worker_api_key uid node_api_key describe_node (rp_hermes_api_key_ref r) (disk_of n') = Ok key.
Proof.
  unfold project_runtime. intros (b & n1 & Et & Hr)%bind_Ok.
  pose proof (tick_beside (E := ServiceError) anyone n) as Hb. rewrite Et in Hb. cbn [snd] in Hb.
  apply bind_Ok in Hr as (rp & n2 & [= <- <-] & Hr). apply bind_Ok in Hr as (d & n2 & [= <- <-] & Hr).
  destruct (route _ _ _ _ _ _) as [[u k]|] eqn:Er; [|done]. cbn in Hr. injection Hr as -> -> <-. split; [done|].
  by apply route_Ok in Er.
Qed.

(** The tasks of this process, and the workers of the whole. *)
Lemma beside_tasks n n' : beside n n' -> n_tasks n' = n_tasks n.
Proof.
  induction 1 as [|n n1 n2 Hstep _ IH]; [done|]. rewrite IH. destruct Hstep as [a n _|n|l n]; [|done..].
  destruct a; cbn; repeat case_match; done.
Qed.
(** Routing fails closed: when a run is supervised, either no task is started, or
    exactly one is, for this run and no other, while no worker of the run was
    known, and with the endpoint and the key of its own project: registered,
    enabled and in a runnable state when they were read.  There is no default
    endpoint. *)
Theorem supervision_fails_closed {E} p r n :
  let n' := snd (@supervise _ _ _ _ paths node_home uid provider_env node_api_key limits env describe_node E p r n) in
  n_tasks n' = n_tasks n
  \/ exists n1 n2 rp t, beside n n1 /\ beside n1 n2 /\ (r ∉ n_workers n2) /\ (r ∈ n_workers n')
       /\ n_tasks n' = n_tasks n ++ [t] /\ x_project_id (sp_context t) = p /\ x_run_id (sp_context t) = r
       /\ registered p (n_db n1) = Some rp /\ rp_enabled rp = true
       /\ ProfileState.runnable (rp_profile_state rp) = true
       /\ rp_runtime_endpoint rp = Some (x_base_url (sp_context t))
       /\ worker_api_key uid node_api_key describe_node (rp_hermes_api_key_ref rp) (disk_of n1) = Ok (x_api_key (sp_context t)).
Proof.
  intros n'. assert (n' = snd (@supervise _ _ _ _ paths node_home uid provider_env node_api_key limits env describe_node E p r n))
    as En by done. clearbody n'. revert En. unfold supervise, bind at 1, service.attempting. cbv beta.
  pose proof (runtime_beside anyone p n) as Hb. pose proof (runtime_Ok p n) as Hok.
  destruct (project_runtime paths node_home uid node_api_key env describe_node anyone p n) as [[[url key]|[| |e]] n1];
    cbn [snd] in Hb; [|intros ->; left; by apply beside_tasks..].
  destruct (Hok url key n1 eq_refl) as [_ (rp & Hrp & He & Hrun & Hurl & Hkey)].
  unfold bind at 1. pose proof (tick_beside (E := E) anyone n1) as Hb2.
  destruct (service.tick paths node_home env anyone n1) as [[b|e] n2]; cbn [snd] in Hb2;
    [|intros ->; left; apply beside_tasks; by etransitivity].
  unfold bind at 1, gets at 1. case_bool_decide as Hw; [intros ->; left; apply beside_tasks; by etransitivity|].
  cbv zeta. unfold bind at 1. pose proof (tick_beside (E := E) holding_workers n2) as Hb3.
  destruct (service.tick paths node_home env holding_workers n2) as [[b'|e] n3]; cbn [snd] in Hb3;
    [|intros ->; left; apply beside_tasks; repeat (etransitivity; [eassumption|]); done].
  assert (n_tasks n3 = n_tasks n) as Ht by (apply beside_tasks; repeat (etransitivity; [eassumption|]); done).
  unfold bind at 1, gets at 1. unfold bind at 1.
  match goal with |- context [?m n3] => assert (n_tasks (snd (m n3)) = n_tasks n3) as Hg end.
  { destruct (registered p (n_db n3) ≫= rp_credential_id); [|done]. unfold on_provider. by destruct (credential_generation _ _ _ _). }
  match goal with |- context [match ?m n3 with _ => _ end] => destruct (m n3) as [[g|e] n4] end; cbn [snd] in Hg;
    [|intros ->; left; cbn; congruence].
  intros ->. right. eexists n1, n2, rp, _. unfold bind, modify. cbn. rewrite Hg, Ht. split_and!; try done. set_solver.
Qed.

(** ** Shutting down *)

Lemma draining_beside n n' : beside n n' -> n_draining n = true -> n_draining n' = true.
Proof.
  induction 1 as [|n n1 n2 Hstep _ IH]; [done|]. intros Hd. apply IH. destruct Hstep as [a n _|n|l n]; [|done..].
  destruct a; cbn; repeat case_match; done.
Qed.

Lemma drain_rounds_end rounds now deadline n :
  (forall k, 0 <= b_passed (env k)) -> deadline <= now + DRAIN_POLL * Z.of_nat rounds ->
  exists n', drain_rounds paths node_home env (Datatypes.S rounds) now deadline n = (Ok (size (n_workers n')), n')
             /\ beside n n'.
Proof.
  intros Hp. revert now n. induction rounds as [|rounds IH]; intros now n Hd.
  all: cbn [drain_rounds]; unfold bind at 1; pose proof (tick_beside (E := Empty_set) anyone n) as Hb.
  all: unfold service.tick at 1; unfold service.tick in Hb; cbn [snd] in Hb; cbv beta iota zeta.
  all: set (n1 := stepped _) in *; unfold bind at 1, gets at 1; pose proof (Hp (n_step n)) as Hk.
  - destruct (Z.leb_spec deadline (now + b_passed (env (n_step n)))); [|lia].
    rewrite orb_true_r. by exists n1.
  - destruct (_ || _); [by exists n1|].
    destruct (IH (now + b_passed (env (n_step n)) + DRAIN_POLL) n1) as (n' & E & Hb'); [unfold DRAIN_POLL in *; lia|].
    exists n'. split; [exact E|by etransitivity].
Qed.

(** C31. Shutting down ends: within one look per [DRAIN_POLL] of the timeout [drain]
    returns, however the workers behave, with the number of workers that are still
    running; and from then on no run is accepted: creating and retrying are
    refused with [node_draining] and change nothing. *)
Theorem drain_ends_and_refuses rounds timeout n p r request :
  (forall k, 0 <= b_passed (env k)) -> timeout <= DRAIN_POLL * Z.of_nat rounds ->
  validate_identifier p = Ok tt -> trim (chars (cr_input request)) <> [] ->
  exists n', drain paths node_home env (Datatypes.S rounds) timeout n = (Ok (size (n_workers n')), n')
    /\ beside (begin_drain n) n'
    /\ service.create_run paths node_home release runtime_uid uid provider_env state_root node_api_key limits env
         describe_node p request n' = (Err (Failed draining_refusal), n')
    /\ retry_run paths node_home release runtime_uid uid provider_env node_api_key limits env describe_node p r n'
       = (Err (Failed draining_refusal), n').
Proof.
  intros Hp Hd Hid Hin. destruct (drain_rounds_end rounds 0 timeout (begin_drain n) Hp) as (n' & E & Hb); [lia|].
  exists n'. split; [exact E|]. split; [done|]. apply draining_beside in Hb; [|done].
  unfold service.create_run, retry_run, checked_identifier. rewrite Hid. cbn [service.checked].
  unfold bind at 1, ret at 1. rewrite bool_decide_eq_false_2 by done. unfold bind at 1, gets at 1. rewrite Hb.
  split; [done|]. unfold bind at 1, gets at 1. by rewrite Hb.
Qed.

(** ** Retrying *)

Lemma under_Ok {A} (m : Beside -> M RegistryError Db A) n a n' :
  under paths node_home env m n = (Ok a, n') ->
  exists b n1, beside n n1 /\ m b (n_db n1) = (Ok a, n_db n') /\ n' = service.on_db (fun _ => n_db n') n1.
Proof.
  unfold under. intros (b & n1 & Et & Hm)%bind_Ok.
  pose proof (tick_beside (E := ServiceError) holding_registry n) as Hb. rewrite Et in Hb. cbn [snd] in Hb.
  exists b, n1. destruct (m b (n_db n1)) as [[a'|e] db]; [|done]. injection Hm as <- <-. done.
Qed.

(** The registry stays well-formed and only moves forward. *)
Definition later (n n' : NodeState) : Prop :=
  node_ok (n_db n) -> node_ok (n_db n') /\ db_evolves (n_db n) (n_db n').
#[global] Instance later_preorder : PreOrder later.
Proof.
  split; [by intros n Hn|]. intros a b c Hab Hbc Ha. destruct (Hab Ha) as [Hb E1]. destruct (Hbc Hb) as [Hc E2].
  split; [done|by etransitivity].
Qed.
Lemma later_call c n db : well_typed c -> db = snd (System.perform c (n_db n)) -> later n (service.on_db (fun _ => db) n).
Proof. intros Ht -> Hn. destruct (perform_ok c (n_db n) Ht Hn) as (? & ? & _). done. Qed.
Lemma beside_later n n' : beside n n' -> later n n'.
Proof.
  induction 1 as [|n n1 n2 Hstep _ IH]; [done|]. etransitivity; [|exact IH]. intros Hn.
  destruct Hstep as [a n Ha|n|l n]; [|done..]. split; [|by apply action_evolves].
  destruct a as [c|q c|q|q|q checked h now stamp request| |id|id]; cbn [service.perform_action]; try done.
  - by apply perform_ok; [apply Ha|].
  - destruct (is_changing q n); [|done]. by apply perform_ok; [apply Ha|].
  - by destruct (_ || _).
  - destruct (guard_now paths node_home q checked n); [|done]. by apply (perform_ok (System.CreateRun h now stamp request)).
Qed.
Lemma moves_later {A} (m : S ServiceError A) : moves beside m -> moves later m.
Proof. intros Hm n. apply beside_later, Hm. Qed.
Lemma later_append id ev u t : moves later (under paths node_home env (fun b => append_event id (ev b) u (t b))).
Proof.
  unfold under. apply moves_bind; [apply _|apply moves_later, tick_beside|]. intros b n.
  pose proof (later_call (AppendEvent id (ev b) u (t b)) n) as Hl. cbn [System.perform outcome snd] in Hl.
  destruct (append_event id (ev b) u (t b) (n_db n)) as [[a|e] db]; by apply Hl.
Qed.

(** The row of a run at a later moment. *)
Lemma row_later n n' row :
  later n n' -> node_ok (n_db n) -> In row (runs (n_db n)) ->
  exists row', In row' (runs (n_db n')) /\ run_evolves row row'.
Proof.
  intros Hl Hn Hin. destruct (Hl Hn) as [_ Hev]. apply list_elem_of_In, list_elem_of_lookup in Hin as [i Hi].
  destruct (de_runs _ _ Hev i row Hi) as (row' & Hi' & Hre). exists row'.
  split; [apply list_elem_of_In, list_elem_of_lookup; eauto|done].
Qed.
Lemma terminal_later st row row' :
  run_evolves row row' -> RunStatus.parse (r_status row) = Ok st -> RunStatus.is_terminal st = true ->
  RunStatus.parse (r_status row') = Ok st.
Proof.
  intros Hre Hs Ht. destruct (re_status _ _ Hre st Hs) as (st' & -> & Hpath). f_equal. symmetry. revert Ht.
  induction Hpath as [|a b c Hab _ IH]; [done|]. intros Ht. apply validate_terminal in Hab; [|done]. subst b. by apply IH.
Qed.

Lemma load_owned_Ok p r n o n' :
  node_ok (n_db n) -> load_owned paths node_home env p r n = (Ok o, n') ->
  beside n n' /\ exists row, In row (runs (n_db n')) /\ r_run_id row = r /\ r_project_id row = p /\ o = map_run row.
Proof.
  intros Hn. unfold load_owned. intros (u1 & n1 & E & Hr)%bind_Ok.
  assert (n = n1) by (by destruct (checked_identifier _ _); injection E). subst n1. clear E.
  apply bind_Ok in Hr as (u2 & n1 & E & Hr).
  assert (n = n1) by (by destruct (checked_identifier _ _); injection E). subst n1. clear E.
  apply bind_Ok in Hr as (found & n1 & E & Hr). unfold reading in E. apply bind_Ok in E as (b & n2 & Et & [= <- ->]).
  pose proof (tick_beside (E := ServiceError) holding_registry n) as Hb. rewrite Et in Hb. cbn [snd] in Hb.
  destruct (beside_later _ _ Hb Hn) as [Hn1 _].
  unfold Registry.run, load_run in Hr. destruct (select_one (is_run r) (runs (n_db n1))) as [row|] eqn:Es; [|done].
  apply (select_run _ _ _ (no_runs _ Hn1)) in Es as [Hin Hid]. cbn in Hr.
  destruct (String.eqb_spec (r_project_id row) p) as [Hp|]; [|done]. injection Hr as <- <-. split; [done|]. by exists row.
Qed.

Lemma guard_beside p u : moves beside (credential_run_guard paths node_home env p u).
Proof. unfold credential_run_guard, read_project. service_moves. Qed.
Lemma supervise_later p r :
  moves later (@supervise _ _ _ _ paths node_home uid provider_env node_api_key limits env describe_node ServiceError p r).
Proof.
  unfold supervise. pose proof (fun m => moves_later (A := Beside) _ (tick_beside m)).
  pose proof (fun m p => moves_later _ (runtime_beside m p)).
  assert (forall A (m : P ServiceError A), moves later (on_provider m)) by (intros; apply moves_later, provider_beside).
  service_moves; apply moves_modify; by intros n Hn.
Qed.

(** The part of a retry after the guard, from where the ended run was found. *)
Lemma retry_tail p original n c n' :
  node_ok (n_db n) ->
  (let! creation := under paths node_home env
     (fun b => Registry.create_run (b_host b) (b_now b) (b_stamp b) (retry_request p original)) in
   under paths node_home env (fun b => append_event (Registry.run_id original)
     (JournalEvent_asterism EVENT_RETRY_CREATED
        (object [("replacement_run_id", VString (Registry.run_id (record creation)))]%string)) None (b_wall b)) ;;;
   under paths node_home env (fun b => append_event (Registry.run_id (record creation))
     (JournalEvent_asterism EVENT_RETRY_OF
        (object [("original_run_id", VString (Registry.run_id original));
                 ("original_status", VString (Registry.status original))]%string)) None (b_wall b)) ;;;
   notify (Registry.run_id original) ;;;
   supervise paths node_home uid provider_env node_api_key limits env describe_node p (Registry.run_id (record creation)) ;;;
   ret {| created_run := record creation; idempotent_replay := false |}) n = (Ok c, n') ->
  later n n' /\ idempotent_replay c = false
  /\ (forall row, In row (runs (n_db n)) -> r_run_id row <> Registry.run_id (created_run c))
  /\ exists row, In row (runs (n_db n')) /\ r_run_id row = Registry.run_id (created_run c) /\ r_project_id row = p
       /\ r_retry_of_run_id row = Some (Registry.run_id original)
       /\ r_request_payload row = to_string (value (redact (n_request_payload (retry_request p original))))
       /\ (r_session_id row = session_id original /\ r_runtime_kind row = runtime_kind original
           /\ r_provider row = Registry.provider original /\ r_model row = Registry.model original)
       /\ r_idempotency_key row = None.
Proof.
  intros Hn (creation & n2 & (b & n1 & Hb & Ec & En2)%under_Ok & Hr)%bind_Ok.
  destruct (beside_later _ _ Hb Hn) as [Hn1 Hev1].
  assert (later n1 n2) as Hl12.
  { rewrite En2. apply (later_call (System.CreateRun (b_host b) (b_now b) (b_stamp b) (retry_request p original))); [done|].
    cbn [System.perform outcome snd]. by rewrite Ec. }
  apply create_run_inv in Ec. destruct creation as [rec|rec]; [|by destruct Ec as (_ & row & ? & _)].
  destruct Ec as (_ & Hfresh & Hdb & ->). cbn [record] in Hr. set (row := new_row _ _ _ _) in *.
  match type of Hr with ?m n2 = _ => assert (moves later (bind m (fun _ => ret tt))) as Hrest end.
  { pose proof later_append. pose proof supervise_later.
    assert (forall id, moves later (@notify ServiceError id)) by (intros id m Hm; done). service_moves. }
  assert (later n2 n' /\ c = {| created_run := map_run row; idempotent_replay := false |}) as [Hl2 ->].
  { specialize (Hrest n2). unfold bind at 1 in Hrest. rewrite Hr in Hrest. split; [exact Hrest|]. clear Hrest.
    repeat (apply bind_Ok in Hr as (? & ? & _ & Hr)). by injection Hr. }
  destruct (Hl12 Hn1) as [Hn2 _]. split; [|split; [done|]].
  { etransitivity; [by apply beside_later|]. by etransitivity. }
  split.
  - intros r0 Hr0. destruct (row_later n n1 r0) as (r1 & Hin1 & Hre); [by apply beside_later|done..|].
    rewrite <- (re_id _ _ Hre). by apply Hfresh.
  - destruct (row_later n2 n' row) as (row' & Hin' & Hre); [done..| |].
    { rewrite Hdb. apply in_app_iff. right. by left. }
    exists row'. destruct (re_request _ _ Hre) as (-> & -> & _ & -> & -> & _). rewrite (re_id _ _ Hre).
    destruct (re_work _ _ Hre) as (-> & -> & -> & ->). done.
Qed.

(** C30. A retry that succeeds leaves the run it retries as it ended, interrupted or
    lost, and creates another one: with an id that no run had, of the same project
    and linked to the original; in the same session, on the same runtime, provider and
    model; asking for the input, the instructions and the attachments stored for the
    original (null where there are none), redacted once more, and for nothing else;
    and with no idempotency key. *)
Theorem retry_creates_a_linked_run p r n c n' :
  node_ok (n_db n) ->
  retry_run paths node_home release runtime_uid uid provider_env node_api_key limits env describe_node p r n = (Ok c, n') ->
  idempotent_replay c = false
  /\ (forall row, In row (runs (n_db n)) -> r_run_id row <> Registry.run_id (created_run c))
  /\ exists row original st, In row (runs (n_db n')) /\ In original (runs (n_db n'))
       /\ r_run_id row = Registry.run_id (created_run c) /\ r_run_id original = r
       /\ r_project_id row = p /\ r_project_id original = p /\ r_retry_of_run_id row = Some r
       /\ r_session_id row = r_session_id original /\ r_runtime_kind row = r_runtime_kind original
       /\ r_provider row = r_provider original /\ r_model row = r_model original
       /\ r_idempotency_key row = None
       /\ (let asked := default VNull (from_str (r_request_payload original)) in
           r_request_payload row = to_string (value (redact (VObject
             [("attachments", default VNull (Json.get "attachments" asked));
              ("input", default VNull (Json.get "input" asked));
              ("instructions", default VNull (Json.get "instructions" asked))]%string))))
       /\ RunStatus.parse (r_status original) = Ok st /\ (st = RunState.Interrupted \/ st = RunState.Lost).
Proof.
  intros Hn. unfold retry_run. intros (d & n0 & [= <- <-] & Hr)%bind_Ok. destruct (n_draining n); [done|].
  apply bind_Ok in Hr as (u & n1 & Eu & Hr).
  pose proof (beside_later _ _ (usable_beside p n)) as Hl1. rewrite Eu in Hl1. cbn [snd] in Hl1.
  apply bind_Ok in Hr as (u2 & n2 & Ea & Hr).
  pose proof (beside_later _ _ (acquire_beside (E := ServiceError) n1)) as Hl2. rewrite Ea in Hl2. cbn [snd] in Hl2.
  assert (later n n2) as Hl by (by etransitivity). destruct (Hl Hn) as [Hn2 _].
  apply bind_Ok in Hr as (original & n3 & Eo & Hr). apply load_owned_Ok in Eo as [Hb3 (o & Hin & Hid & Hp & ->)]; [|done].
  destruct (beside_later _ _ Hb3 Hn2) as [Hn3 _].
  apply bind_Ok in Hr as (st & n4 & Es & Hr). unfold run_status in Es. cbn [map_run Registry.status] in Es.
  destruct (RunStatus.parse (r_status o)) as [st'|] eqn:Est; [|done]. injection Es as -> <-.
  destruct (RunStatus.is_terminal st) eqn:Et; cbn [negb] in Hr; [|done].
  destruct (RunStatus.is_retryable st) eqn:Ert; cbn [negb] in Hr; [|done].
  apply bind_Ok in Hr as (u5 & n5 & Eg & Hr).
  pose proof (guard_beside p u n3) as Hb5. rewrite Eg in Hb5. cbn [snd] in Hb5. apply beside_later in Hb5.
  destruct (Hb5 Hn3) as [Hn5 _].
  apply retry_tail in Hr as (Hl6 & Hrep & Hfresh & row & Hrow & Hri & Hrp & Hro & Hpay & (Hse & Hrk & Hpv & Hmo) & Hik); [|done].
  assert (later n n5) as Hl5 by (etransitivity; [exact Hl|]; etransitivity; [by apply beside_later|done]).
  split; [done|]. split.
  { intros r0 Hr0. destruct (row_later n n5 r0) as (r1 & Hin1 & Hre); [done..|].
    rewrite <- (re_id _ _ Hre). by apply Hfresh. }
  destruct (row_later n3 n' o) as (o' & Hin' & Hre); [by etransitivity|done..|].
  destruct (re_request _ _ Hre) as (Ep & Epay & _). destruct (re_work _ _ Hre) as (Es & Ek & Epv & Em).
  cbn in Hse, Hrk, Hpv, Hmo. exists row, o', st. split_and!; try done; try congruence.
  - by rewrite (re_id _ _ Hre).
  - by rewrite Hro, <- Hid.
  - rewrite Hpay. unfold retry_request. cbn. by rewrite Epay.
  - by eapply terminal_later.
  - destruct st; try done; auto.
Qed.
End Runs.

(** ** A node with one project, at which the theorems about the
    application service are applied. *)

From S2P Require Import InventoryTheorems ProviderTheorems ServiceTheorems.
Import RunnerSamples.
Import Samples.
Import provider service ProviderSamples.

Module ServiceSamples.
#[export] Instance hermes : Hermes := backend "running".
#[export] Instance answers : Backend := {| resolve_answer _ _ _ := Ok VNull; stop_answer _ _ := Err "gone"%string |}.

Definition disk_fs : FileSystem := {| canonicalize := Some; Inventory.is_dir _ := true |}.
(** "demo" is registered and ready; so is "other". *)
Definition project_calls : list Call :=
  [RegisterProject disk_fs 10 "demo" "/w/demo" None None None ManagedContainer;
   SetProfileRuntime "demo" "/h/demo" "demo" "http://127.0.0.1:8642" "" ProfileReady;
   RegisterProject disk_fs 10 "other" "/w/other" None None None ManagedContainer;
   SetProfileRuntime "other" "/h/other" "other" "http://127.0.0.1:8643" "" ProfileReady].
(** A run that waits for a decision, and one that was interrupted. *)
Definition waiting_calls : list Call :=
  project_calls ++ live_calls ++ [AppendEvent id1 (ev "a") None clk; ApprovalRequest id1 1 (Some "rm"%string) None 300].
Definition interrupted_calls : list Call :=
  project_calls ++ live_calls ++ [UpdateRun id1 (RunUpdate.status RunState.Interrupted) 400].

Definition node (cs : list Call) : NodeState :=
  {| n_db := performed cs empty_db; n_logins := node_with Authorized; n_files := ∅; n_changes := ∅; n_workers := ∅;
     n_tasks := []; n_draining := false; n_calls := []; n_notified := []; n_step := 0 |}.

Lemma no_trash cs p : (forall c, In c cs -> suspends c = None) -> ~ in_trash p (performed cs empty_db).
Proof.
  intros Hs. assert (forall db, (forall q, ~ in_trash q db) -> ~ in_trash p (performed cs db)) as Hall.
  { induction cs as [|c cs IH]; intros db Hdb; [apply Hdb|]. cbn. apply IH; [intros c' Hc'; apply Hs; by right|].
    intros q [Hq|Hq]%trash_call; [by apply (Hdb q)|]. by rewrite Hs in Hq by (by left). }
  apply Hall. by intros q (r & [] & _).
Qed.
Lemma node_starts cs :
  (forall c, In c cs -> well_typed c /\ suspends c = None) -> service_ok (node cs).
Proof.
  intros Hc. split; try done.
  - apply sample_ok. intros c Hin. by apply Hc.
  - intros p Hp. exfalso. eapply no_trash, Hp. intros c Hin. by apply Hc.
  - constructor.
Qed.
Ltac sample_node := apply node_starts; intros c Hc; repeat (destruct Hc as [<-|Hc]; [by split|]); destruct Hc.
Lemma project_node_ok : service_ok (node project_calls).
Proof. sample_node. Qed.
Lemma waiting_node_ok : service_ok (node waiting_calls).
Proof. sample_node. Qed.
Lemma interrupted_node_ok : service_ok (node interrupted_calls).
Proof. sample_node. Qed.

(** A second run is asked for by another task, again and again from step [from] on. *)
Definition next_host : Registry.Host := {| urandom := Some [9; 9; 9; 9; 9; 9; 9; 9; 9; 9; 9; 9]; process_id := 7 |}.
Definition moment_of (acts : list Action) : Beside :=
  {| b_wall := clk; b_now := 500; b_stamp := 500; b_host := next_host; b_passed := 0; b_meanwhile := acts |}.
Definition insisting (from k : nat) : Beside :=
  moment_of (if (from <=? k)%nat then [Admit "demo" None Samples.host 100 100 req] else []).
Lemma insisting_fair from k a : In a (b_meanwhile (insisting from k)) -> fair_action a.
Proof. unfold insisting. destruct (from <=? k)%nat; cbn; [|done]. by intros [<-|[]]. Qed.
(** Another task decides every approval of the run. *)
Definition deciding (k : nat) : Beside :=
  moment_of (if (k =? 9)%nat then [Elsewhere (ApprovalDecision id1 1 "deny" 600)] else []).
Definition calm_node (k : nat) : Beside := moment_of [].
Lemma calm_node_fair k a : In a (b_meanwhile (calm_node k)) -> fair_action a.
Proof. by intros []. Qed.
Lemma deciding_fair k a : In a (b_meanwhile (deciding k)) -> fair_action a.
Proof. unfold deciding. destruct (k =? 9)%nat; cbn; [|done]. by intros [<-|[]]. Qed.
Lemma calm_quiet : quiet_env calm.
Proof. by intros k c []. Qed.

Definition texts (e : NodeError) : string := "".
Definition key : string := "0123456789abcdef".
Abbreviation run_ops env := (operated host_paths "/n" "r1" 7 7 alone "/state" "http://127.0.0.1:8642" key Limits_default
  env calm quiet_text texts).

(** ** Witnesses *)

Definition asked : service.CreateRun :=
  {| cr_input := "list the files"; cr_session_id := None; cr_instructions := None; cr_idempotency_key := None;
     cr_approval_policy := None; cr_actor := None; cr_attachments := [] |}.

Lemma changed_and_suspended_projects_are_idle_witness :
  let n := run_ops (insisting 2) [OpBeginChange "demo"; OpCreate "demo" asked; OpActivity "demo"] (node project_calls) in
  ("demo"%string ∈ n_changes n) /\ forall r, In r (runs (n_db n)) -> r_project_id r = "demo"%string -> ActiveRuns.live_row r = false.
Proof.
  cbv zeta. assert ("demo"%string ∈ n_changes (run_ops (insisting 2)
    [OpBeginChange "demo"; OpCreate "demo" asked; OpActivity "demo"] (node project_calls))) as Hin by (vm_compute; done).
  split; [exact Hin|].
  apply (changed_and_suspended_projects_are_idle host_paths "/n" "r1" 7 7 alone "/state" "http://127.0.0.1:8642" key
           Limits_default (insisting 2) calm quiet_text texts (insisting_fair 2) calm_quiet
           [OpBeginChange "demo"; OpCreate "demo" asked; OpActivity "demo"] (node project_calls) "demo");
    [apply project_node_ok|left; exact Hin|vm_compute; lia].
Defined.
(** A change begins although a run of the project is live: 1000 newer runs hide it. *)
Lemma change_begins_beside_a_live_run :
  let n := {| n_db := InventoryTheorems.aged_db; n_logins := node_with Authorized; n_files := ∅; n_changes := ∅; n_workers := ∅;
              n_tasks := []; n_draining := false; n_calls := []; n_notified := []; n_step := 0 |} in
  let r := begin_worker_change host_paths "/n" calm_node "demo" n in
  fst r = Ok tt /\ ("demo"%string ∈ n_changes (snd r))
  /\ In InventoryTheorems.live_row (runs (n_db (snd r))) /\ r_project_id InventoryTheorems.live_row = "demo"%string
  /\ ActiveRuns.live_row InventoryTheorems.live_row = true.
Proof. vm_compute. split_and!; try done. by left. Qed.

Lemma decisions_are_forwarded_once_witness :
  let n := run_ops deciding [OpResolve "demo" id1 "once"; OpResolve "demo" id1 "once"] (node waiting_calls) in
  n_calls n = [ResolveApproval id1 1 "http://127.0.0.1:8642" "h1" "once"] /\ NoDup (omap forwarded (n_calls n))
  /\ decided id1 1 "once" (n_db n).
Proof.
  cbv zeta. set (os := [OpResolve "demo" id1 "once"; OpResolve "demo" id1 "once"]%string).
  destruct (decisions_are_forwarded_once host_paths "/n" "r1" 7 7 alone "/state" "http://127.0.0.1:8642" key
           Limits_default deciding calm quiet_text texts deciding_fair calm_quiet os (node waiting_calls) waiting_node_ok)
    as [Honce Hdec].
  assert (n_calls (run_ops deciding os (node waiting_calls)) = [ResolveApproval id1 1 "http://127.0.0.1:8642" "h1" "once"])
    as Hcalls by (vm_compute; reflexivity).
  split; [exact Hcalls|]. split; [exact Honce|]. apply (Hdec id1 1 "http://127.0.0.1:8642" "h1" "once")%string.
  rewrite Hcalls. by left.
Defined.

Lemma id1_foreign : foreign "other" id1 (node waiting_calls).
Proof.
  split; [apply waiting_node_ok|]. exists (row_of (n_db (node waiting_calls))). split; [|vm_compute; done].
  refine (proj1 (select_one_Some (is_run id1) _ _ _)). vm_compute. reflexivity.
Qed.

Lemma foreign_run_is_unknown_witness :
  fst (get_run host_paths "/n" (insisting 0) "other" id1 (node waiting_calls)) = Err (Failed (not_found "run" id1)).
Proof.
  destruct (foreign_run_is_unknown host_paths "/n" "r1" 7 7 alone key Limits_default (insisting 0) quiet_text texts
              (insisting_fair 0) "other" id1 "once" Manual None 0 10) as [Hget _];
    [vm_compute; reflexivity|vm_compute; reflexivity|lia|].
  apply (Hget (node waiting_calls) id1_foreign).
Defined.

Lemma drain_ends_and_refuses_witness :
  exists n', drain host_paths "/n" calm_node 6 500 (node waiting_calls) = (Ok 0%nat, n')
    /\ service.create_run host_paths "/n" "r1" 7 7 alone "/state" key Limits_default calm_node texts "demo" asked n'
       = (Err (Failed draining_refusal), n').
Proof.
  destruct (drain_ends_and_refuses host_paths "/n" "r1" 7 7 alone "/state" key Limits_default calm_node texts
              calm_node_fair 5 500 (node waiting_calls) "demo" id1 asked) as (n' & E & _ & Hc & _);
    [intros k; cbn; lia|unfold DRAIN_POLL; lia|vm_compute; reflexivity|vm_compute; discriminate|].
  exists n'. split; [|exact Hc]. rewrite E. repeat f_equal.
  assert (fst (drain host_paths "/n" calm_node 6 500 (node waiting_calls)) = Ok 0%nat) as H0 by (vm_compute; reflexivity).
  rewrite E in H0. cbn [fst] in H0. by injection H0.
Defined.

Abbreviation retried :=
  (retry_run host_paths "/n" "r1" 7 7 alone key Limits_default calm_node texts "demo" id1 (node interrupted_calls)).
Lemma retry_creates_a_linked_run_witness :
  exists c n', retried = (Ok c, n') /\ idempotent_replay c = false
    /\ exists row original, In row (runs (n_db n')) /\ In original (runs (n_db n'))
         /\ r_run_id row = Registry.run_id (created_run c) /\ r_retry_of_run_id row = Some id1
         /\ r_run_id original = id1 /\ r_session_id row = r_session_id original.
Proof.
  assert (is_ok (fst retried) = true) as Hok by (vm_compute; reflexivity).
  destruct retried as [[c|e] n'] eqn:E; [|discriminate Hok]. exists c, n'. split; [reflexivity|].
  destruct (retry_creates_a_linked_run host_paths "/n" "r1" 7 7 alone key Limits_default calm_node texts calm_node_fair
              "demo" id1 (node interrupted_calls) c n')
    as (Hr & _ & row & o & st & Hin & Hino & Hid & Hido & _ & _ & Hlink & Hse & _);
    [apply interrupted_node_ok|exact E|].
  split; [exact Hr|]. exists row, o. split; [exact Hin|]. split; [exact Hino|]. split; [exact Hid|].
  split; [exact Hlink|]. split; [exact Hido|exact Hse].
Defined.
End ServiceSamples.
