(* ===== verification/Provisioning.v ===== *)
(** * Provisioning: building a project ([provisioning.rs]): its workspace, its
    Hermes home, its worker, and the health check that makes it ready.

    [git] is a program of the host: what it answers and what it leaves on disk
    is the class [Git].  The texts of system errors are an argument. *)
From stdpp Require Import gmap.
From S2P Require Import Prelude Text Json RunState Redact Schema Registry Identifiers Inventory System Sse RunLock.
From S2P Require Import Attachments ChatHistory Approvals Runner Fs CredentialHomes Host Profiles Workers.

Inductive WorkspaceMode : Type := Empty | Clone.
Module WorkspaceMode.
Definition parse (value : string) : Result string WorkspaceMode :=
  if (value =? "empty")%string then Ok Empty
  else if (value =? "clone")%string then Ok Clone
  else Err ("unsupported workspace mode " +:+ debug_str value).
Definition as_str (m : WorkspaceMode) : string := match m with Empty => "empty" | Clone => "clone" end.
End WorkspaceMode.

Inductive ProvisionFailure : Type :=
| RepositoryCloneFailed
| RepositoryAuthenticationUnavailable
| WorkspaceCreationFailed
| WorkspaceConflict
| ProjectInventoryConflict
| WorkspaceModeUnsupported
| ProfileProvisionFailed
| ProfileWorkerStartFailed
| ProfileWorkerUnhealthy
| ProfilePortExhausted
| ProvisioningGenerationMismatch.
Module ProvisionFailure.
Definition as_str (f : ProvisionFailure) : string :=
  match f with
  | RepositoryCloneFailed => "repository_clone_failed"
  | RepositoryAuthenticationUnavailable => "repository_authentication_unavailable"
  | WorkspaceCreationFailed => "workspace_creation_failed"
  | WorkspaceConflict => "workspace_conflict"
  | ProjectInventoryConflict => "project_inventory_conflict"
  | WorkspaceModeUnsupported => "workspace_mode_unsupported"
  | ProfileProvisionFailed => "profile_provision_failed"
  | ProfileWorkerStartFailed => "profile_worker_start_failed"
  | ProfileWorkerUnhealthy => "profile_worker_unhealthy"
  | ProfilePortExhausted => "profile_port_exhausted"
  | ProvisioningGenerationMismatch => "provisioning_generation_mismatch"
  end.
End ProvisionFailure.

Record WorkspaceSettings : Type := { ws_root : string; ws_forbidden : list string }.
Definition default_workspaces : WorkspaceSettings :=
  {| ws_root := "/var/lib/asterism/projects";
     ws_forbidden := ["/srv/asterism/deployment"; "/srv/asterism/control-plane"]%string |}.
Definition path_for (s : WorkspaceSettings) (project_id : string) : string := path_join (ws_root s) project_id.
Definition refuse_forbidden (s : WorkspaceSettings) (path : string) : Result string unit :=
  match List.find (path_within path) (ws_forbidden s) with
  | Some tree => Err ("refusing to create a project workspace inside " +:+ tree)
  | None => Ok tt
  end.

Record PreparedWorkspace : Type := { pw_path : string; pw_created : bool }.

(** [command.output()]: the program could not be run, or ended with a status and
    what it wrote to its standard error. *)
Class Git : Type := {
  git : list string -> option string -> gmap string Node -> Result string (bool * bytes) * gmap string Node
}.
Definition authentication_failure (stderr : bytes) : bool :=
  let lowered := lowercase stderr in
  List.existsb (fun s => contains (chars s) lowered)
    ["authentication failed"; "permission denied"; "could not read username"; "terminal prompts disabled"]%string.

(** What follows "clone" keeps the branch and the URL values of their own. *)
Definition clone_arguments (branch : option string) (url destination : string) : list string :=
  ["clone"; "--quiet"]%string
  ++ match branch with Some b => ["--branch"; b]%string | None => [] end
  ++ ["--"; url; destination]%string.

Record ProvisionRequest : Type := {
  pr_organization_id : string;
  pr_project_id : string;
  pr_node_project_id : string;
  pr_generation : Z;
  pr_mode : WorkspaceMode;
  pr_repository_url : option string;
  pr_branch : option string
}.
Inductive ProvisionOutcome : Type :=
| Provisioned (workspace_created : bool)
| ProvisionFailed (failure : ProvisionFailure) (message : string).

Section Provisioning.
Context `{SerdeJson} `{Process} `{Supervisor} `{Git}.
Context (describe : NodeError -> string) (fs : FileSystem) (pid : Z).

(** A program that fails with a typed failure and a text. *)
Definition Building (A : Type) : Type := Prog (ProvisionFailure * string) A.
Definition failing {A} (f : ProvisionFailure) (m : Prog NodeError A) : Building A :=
  mapping (fun e => (f, describe e)) m.

Definition run_git (arguments : list string) (directory : option string) : Prog NodeError (bool * bytes) :=
  fun s => let (r, n) := git arguments directory (nodes (s_disk s)) in
           let s' := at_disk {| nodes := n; plan := plan (s_disk s) |} s in
           match r with
           | Ok out => (Ok out, s')
           | Err text => (Err (Failed (Bail text)), s')
           end.

Definition canonical (path : string) : Building string :=
  Host.checked (fun e => (WorkspaceCreationFailed, describe e)) (context (canonicalize fs path) (OnDisk (Io NotFound))).

Definition staging_for (s : WorkspaceSettings) (project_id : string) : string :=
  path_join (ws_root s) (".provisioning-" +:+ project_id +:+ "-" +:+ decimal pid).

(** The closure [build] of [prepare_workspace]. *)
Definition build_workspace (staging : string) (mode : WorkspaceMode) (repository_url branch : option string) : Building unit :=
  failing WorkspaceCreationFailed (on_disk (create_dir_all staging)) ;;;
  match mode with
  | Empty =>
      let! out := failing WorkspaceCreationFailed (run_git ["init"; "--quiet"]%string (Some staging)) in
      if fst out : bool then ret tt else Host.throw (WorkspaceCreationFailed, "git init did not complete"%string)
  | Clone =>
      match repository_url with
      | None => Host.throw (WorkspaceModeUnsupported, "clone requires a repository"%string)
      | Some url =>
          let! out := failing RepositoryCloneFailed (run_git (clone_arguments branch url staging) None) in
          if fst out : bool then ret tt
          else Host.throw (if authentication_failure (snd out) then RepositoryAuthenticationUnavailable else RepositoryCloneFailed,
                      "the repository could not be cloned"%string)
      end
  end.

Definition discard {E} (staging : string) : Prog E unit :=
  fun s => match on_disk (ignore_errors (remove_dir_all staging)) s with
           | (Err Ended, s') => (Err Ended, s')
           | (_, s') => (Ok tt, s')
           end.

(** [create_dir_all] of a path some of whose ancestors may be missing too: the path
    and the directories above it, nearest first; those above the first that is there
    are left alone. *)
Fixpoint ancestry (fuel : nat) (path : string) : list string :=
  match fuel with
  | O => []
  | S fuel' =>
      path :: match parent path with
              | Some p => if (p =? "")%string || (p =? "/")%string then [] else ancestry fuel' p
              | None => []
              end
  end.
Fixpoint create_missing (ups : list string) : M FsError Disk unit :=
  match ups with
  | [] => ret tt
  | p :: rest =>
      let! there := look (fun n => Fs.is_dir n p) in
      if there : bool then ret tt else create_missing rest ;;; create_dir_all p
  end.
Definition create_dir_with_ancestors (path : string) : M FsError Disk unit :=
  create_missing (ancestry (String.length path) path).

Definition prepare_workspace (s : WorkspaceSettings) (project_id : string) (mode : WorkspaceMode)
    (repository_url branch : option string) : Building PreparedWorkspace :=
  let target := path_for s project_id in
  Host.checked (fun text => (WorkspaceConflict, text)) (refuse_forbidden s target) ;;;
  let! there := gets (fun st => Fs.is_dir (nodes (s_disk st)) (path_join target ".git")) in
  if there : bool then
    let! path := canonical target in
    ret {| pw_path := path; pw_created := false |}
  else
    failing WorkspaceCreationFailed (on_disk (create_dir_with_ancestors (ws_root s))) ;;;
    let staging := staging_for s project_id in
    discard staging ;;;
    let! built := attempt (build_workspace staging mode repository_url branch) in
    match built with
    | Err failure => discard staging ;;; Host.throw failure
    | Ok _ =>
        let! moved := attempt (on_disk (rename_dir staging target)) in
        match moved with
        | Err e => discard staging ;;; Host.throw (WorkspaceCreationFailed, describe e)
        | Ok _ =>
            let! path := canonical target in
            ret {| pw_path := path; pw_created := true |}
        end
    end.

(** ** The chain *)

(** The text of an error that the outcome is read from. *)
Definition error_text (settings : ProvisionSettings) (project_id : string) (e : NodeError) : string :=
  match e with
  | Bail message => message
  | OnRegistry NoFreePort =>
      "no free loopback port between " +:+ decimal (ps_first_port settings) +:+ " and " +:+ decimal (ps_last_port settings)
      +:+ " for project " +:+ project_id
  | other => describe other
  end.

Context (wm : WorkerManager) (rounds : nat) (elsewhere : nat -> Db -> Db) (occupied : Z -> bool) (random : list Z) (now : Z).

(** The registration, committed before the home is built.  The caller's lock is
    on a connection of its own, so the row read first may be another's by the
    time one is written. *)
Definition commit_registration (project_id workspace : string) : Prog Empty_set (option ProvisionOutcome) :=
  let! existing := attempt (on_registry (query (project project_id))) in
  match existing with
  | Ok (Some p) =>
      ret (if (rp_workspace_path p =? workspace)%string then None
           else Some (ProvisionFailed WorkspaceConflict "the project is registered against a different workspace"))
  | Ok None =>
      let! registered := attempt (on_registry (register_project fs now project_id workspace None None None ManagedContainer)) in
      ret (match registered with
           | Ok _ => None
           | Err e => Some (ProvisionFailed ProjectInventoryConflict (describe e))
           end)
  | Err e => ret (Some (ProvisionFailed ProjectInventoryConflict (describe e)))
  end.

Definition provision_project (workspaces : WorkspaceSettings) (profiles : ProvisionSettings) (request : ProvisionRequest) :
    Prog Empty_set ProvisionOutcome :=
  let project_id := pr_project_id request in
  let! prepared := attempt (prepare_workspace workspaces project_id (pr_mode request) (pr_repository_url request)
                              (pr_branch request)) in
  match prepared with
  | Err (failure, message) => ret (ProvisionFailed failure message)
  | Ok workspace =>
      let! refused := commit_registration project_id (pw_path workspace) in
      match refused with
      | Some outcome => ret outcome
      | None =>
          let! home := attempt (provision_project_profile profiles fs elsewhere occupied pid random project_id) in
          match home with
          | Err e =>
              ret (ProvisionFailed
                     (if str_contains "no free loopback port" (error_text profiles project_id e)
                      then ProfilePortExhausted else ProfileProvisionFailed)
                     "the project runtime could not be prepared")
          | Ok _ =>
              let! worker := attempt (ensure_running wm rounds project_id) in
              match worker with
              | Ok _ => ret (Provisioned (pw_created workspace))
              | Err e =>
                  let failure := if str_contains "did not become healthy" (error_text profiles project_id e)
                                 then ProfileWorkerUnhealthy else ProfileWorkerStartFailed in
                  let! _ := attempt (on_registry (set_profile_state project_id ProfileFailed
                                                    (Some (ProvisionFailure.as_str failure)))) in
                  ret (ProvisionFailed failure "the project runtime did not become healthy")
              end
          end
      end
  end.
End Provisioning.
