(* ===== verification/ProvisioningTheorems.v ===== *)
(** * ProvisioningTheorems: what building a project leaves on disk, when it says
    the project is there, and where a project id may lead it. *)
From Stdlib Require Import Lia.
From stdpp Require Import gmap pretty.
From S2P Require Import Prelude Text Json RunState Redact Schema Registry Identifiers Inventory InventoryFacts System Sse RunLock.
From S2P Require Import Attachments ChatHistory Approvals Runner RunnerFacts Fs RuntimeSwap Trees CredentialHomes Host Profiles ProfileTheorems Workers WorkerReauth.
From S2P Require Import Provisioning.

(** [git] writes below the directory it is run in, or the one it clones into. *)
Definition git_directory (arguments : list string) (directory : option string) : string :=
  default (List.last arguments "") directory.
Class GitLaws `{Git} : Prop := {
  git_confined arguments directory n k :
    below (git_directory arguments directory) k = false -> snd (git arguments directory n) !! k = n !! k
}.

Section Programs.
Context `{Supervisor} (R : Site -> Site -> Prop) `{!PreOrder R}.

Lemma hmoves_throw {E A} (e : E) : moves R (@Host.throw _ E A e).
Proof. intros s. cbn. reflexivity. Qed.
Lemma hmoves_mapping {E F A} (f : E -> F) (m : Prog E A) : moves R m -> moves R (Host.mapping f m).
Proof. intros Hm s. specialize (Hm s). unfold Host.mapping. by destruct (m s) as [[|[]]]. Qed.
Lemma hmoves_attempt {E F A} (m : Prog E A) : moves R m -> moves R (@attempt _ E F A m).
Proof. intros Hm s. specialize (Hm s). unfold attempt. by destruct (m s) as [[|[]]]. Qed.
Lemma hmoves_checked {E F A} (f : E -> F) (r : Result E A) : moves R (Host.checked f r).
Proof. destruct r; [apply moves_ret, _|apply hmoves_throw]. Qed.
End Programs.
#[export] Hint Resolve hmoves_throw hmoves_checked : moves.
Ltac host_moves :=
  repeat (cbv zeta; match goal with
    | |- moves _ (bind _ _) => apply moves_bind; [apply _| |intros ?]
    | |- moves _ (Host.mapping _ _) => apply hmoves_mapping
    | |- moves _ (failing _ _ _) => apply hmoves_mapping
    | |- moves _ (attempt _) => apply hmoves_attempt
    | |- moves _ (let (_, _) := ?x in _) => destruct x
    | |- moves _ (match ?x with _ => _ end) => destruct x
    | |- moves _ _ => solve [auto with moves typeclass_instances]
    end).

(** ** The workspace *)

Section Workspace.
Context `{SerdeJson} `{Process} `{Supervisor} `{GitLaws} (describe : NodeError -> string) (fs : FileSystem) (pid : Z).

(** Nothing but the keys that satisfy [P] changes, and the registry does not. *)
Definition only (P : string -> bool) (s s' : Site) : Prop :=
  s_db s' = s_db s /\ s_log s' = s_log s
  /\ forall k, P k = false -> nodes (s_disk s') !! k = nodes (s_disk s) !! k.
#[global] Instance only_preorder P : PreOrder (only P).
Proof.
  split; [done|]. intros a b c (A1 & A2 & A3) (B1 & B2 & B3). split; [congruence|]. split; [congruence|].
  intros k Hk. by rewrite B3, A3.
Qed.
Lemma only_weaken (P Q : string -> bool) s s' : (forall k, P k = true -> Q k = true) -> only P s s' -> only Q s s'.
Proof.
  intros HPQ (E1 & E2 & E3). split; [done|]. split; [done|]. intros k Hk. apply E3.
  destruct (P k) eqn:E; [|done]. apply HPQ in E. congruence.
Qed.

Lemma only_on_disk {A} P (m : M FsError Disk A) : within P m -> moves (only P) (on_disk m).
Proof.
  intros Hm s. unfold on_disk. specialize (Hm (s_disk s)). destruct (m (s_disk s)) as [[a|[]] d]; by split_and!.
Qed.
Lemma within_create_entry path : within (String.eqb path) (create_dir_all path).
Proof.
  apply within_syscall. intros n [] n'. destruct (resolve MAX_HOPS n path) as [p|].
  - destruct (n !! p) as [x|]; [|done]. case_bool_decide; [|done]. by intros [= <-].
  - destruct (n !! path); [done|]. intros [= <-] k Hk. apply lookup_insert_ne. intros <-. by rewrite String.eqb_refl in Hk.
Qed.
Lemma within_create_dir_all path : within (below path) (create_dir_all path).
Proof. eapply tree_within_weaken; [|apply within_create_entry]. intros k Hk. unfold below. by rewrite Hk. Qed.
Lemma within_rename_dir src dst :
  apart src dst -> within (fun k => below src k || below dst k) (rename_dir src dst).
Proof.
  intros Hap. apply within_syscall. intros n [] n' Hn k [Hs Hd]%orb_false_iff.
  destruct (n !! src) as [x|] eqn:Ex; [|done]. destruct (occupied_below dst n) eqn:Ho; [by rewrite orb_true_r in Hn|].
  destruct (move_tree_spec src dst n Hap) as (_ & _ & Hrest); [by eexists|done|].
  rewrite orb_false_r in Hn. destruct (bool_decide (f_kind x = Directory)); [|done].
  destruct (n !! dst) as [y|]; [case_bool_decide; [|done]|]; injection Hn as <-; by apply Hrest.
Qed.
Lemma within_remove_dir_all path : within (below path) (remove_dir_all path).
Proof.
  apply within_syscall. intros n [] n'. destruct (n !! path); [|done]. intros [= <-] k Hk.
  destruct (n !! k) as [x|] eqn:E; [by apply map_lookup_filter_Some|]. apply map_lookup_filter_None. by left.
Qed.
(** A call that fails changes nothing. *)
Lemma syscall_Err {A} (f : gmap string Node -> Result IoError (A * gmap string Node)) d e d' :
  syscall f d = (Err e, d') -> nodes d' = nodes d.
Proof.
  unfold syscall. destruct (plan d) as [|[] l]; try (by intros [= _ <-]);
    destruct (f (nodes d)) as [[a n]|er]; by intros [= _ <-].
Qed.
Lemma rename_dir_Err P src dst s e s' : on_disk (rename_dir src dst) s = (Err e, s') -> only P s s'.
Proof.
  unfold on_disk. destruct (rename_dir src dst (s_disk s)) as [r d] eqn:E. destruct r as [[]|er]; [done|].
  intros [= _ <-]. apply syscall_Err in E. split_and!; try done. cbn. by rewrite E.
Qed.
Lemma only_git P arguments directory :
  (forall k, below (git_directory arguments directory) k = true -> P k = true) ->
  moves (only P) (run_git arguments directory).
Proof.
  intros HP s. unfold run_git. pose proof (git_confined arguments directory (nodes (s_disk s))) as Hg.
  destruct (git arguments directory (nodes (s_disk s))) as [r n]. cbn [snd] in Hg.
  assert (forall k, P k = false -> n !! k = nodes (s_disk s) !! k) as Hk.
  { intros k Hk. apply Hg. destruct (below _ k) eqn:E; [|done]. apply HP in E. congruence. }
  destruct r; by split_and!.
Qed.

Abbreviation staging project := (staging_for pid project).
Lemma only_create_missing ups P :
  (forall p, In p ups -> P p = true) -> moves (only P) (on_disk (create_missing ups)).
Proof.
  intros HP. apply only_on_disk. induction ups as [|p ups IH]; cbn [create_missing]; [by intros d|].
  apply within_bind; [by intros d|]. intros [|]; [by intros d|].
  apply within_bind; [apply IH; intros q Hq; apply HP; by right|]. intros _.
  eapply tree_within_weaken; [|apply within_create_entry]. intros k Hk. apply String.eqb_eq in Hk as <-.
  apply HP. by left.
Qed.
Lemma only_discard {E} path : moves (only (below path)) (@discard _ E path).
Proof.
  intros s. unfold discard. pose proof (only_on_disk _ _ (within_ignore _ _ (within_remove_dir_all path)) s) as Ho.
  by destruct (on_disk _ s) as [[|[]]].
Qed.
Lemma only_build path mode url branch : moves (only (below path)) (build_workspace describe path mode url branch).
Proof.
  unfold build_workspace. pose proof (only_on_disk _ _ (within_create_dir_all path)).
  assert (forall branch url, moves (only (below path)) (run_git (clone_arguments branch url path) None)).
  { intros b u. apply only_git. intros k. unfold git_directory, clone_arguments. cbn [default].
    destruct b; cbn; done. }
  assert (moves (only (below path)) (run_git ["init"; "--quiet"]%string (Some path))) by (by apply only_git).
  host_moves.
Qed.

(** *** Where the names lead *)

Lemma workspace_staging_plain project :
  plain_name project -> plain_name (".provisioning-" +:+ project +:+ "-" +:+ decimal pid).
Proof.
  intros [_ Hp]. split; [done|]. rewrite !chars_append, !in_app_iff.
  intros [Hin|[Hin|[Hin|Hin]]]; [by repeat (destruct Hin as [Hin|Hin]; [discriminate Hin|])|done| |].
  - by repeat (destruct Hin as [Hin|Hin]; [discriminate Hin|]).
  - by apply decimal_slash in Hin.
Qed.
Lemma staging_is_apart settings project :
  plain_dir (ws_root settings) -> plain_name project ->
  apart (staging_for pid settings project) (path_for settings project).
Proof.
  intros Hr Hp. apply siblings_apart; [done|by apply workspace_staging_plain|done|].
  intros Heq. apply (f_equal String.length) in Heq. rewrite !string_length_append in Heq. cbn in Heq. lia.
Qed.

(** What a preparation may change: the entries of the root and of the directories
    above it, the staging directory and the workspace. *)
Definition towards (path k : string) : bool := List.existsb (String.eqb k) (ancestry (String.length path) path).
Definition preparing (settings : WorkspaceSettings) (project k : string) : bool :=
  towards (ws_root settings) k || below (staging_for pid settings project) k || below (path_for settings project) k.

Lemma parent_length p q : parent p = Some q -> q <> "/"%string -> (String.length q < String.length p)%nat.
Proof.
  unfold parent. destruct (split_once SLASH (List.rev (chars p))) as [[name dir]|] eqn:E.
  - apply split_once_Some in E as [E _]. apply (f_equal length) in E. rewrite length_rev, length_app, length_chars in E.
    cbn [length] in E. intros Hq Hne.
    assert (q = of_chars (List.rev dir)) as -> by (destruct name, dir; congruence).
    rewrite <- length_chars, of_chars_chars, length_rev. lia.
  - destruct (String.eqb_spec p ""); [done|]. intros [= <-] _. destruct p; [done|]. cbn. lia.
Qed.
Lemma ancestry_shorter n path q : In q (ancestry n path) -> (String.length q <= String.length path)%nat.
Proof.
  revert path. induction n as [|n IH]; intros path; cbn [ancestry]; [done|]. intros [<-|Hin]; [done|].
  destruct (parent path) as [p|] eqn:Ep; [|done]. destruct (String.eqb_spec p ""); [done|].
  destruct (String.eqb_spec p "/"); [done|]. apply IH in Hin. apply parent_length in Ep; [|done]. lia.
Qed.
Lemma towards_shorter path k : towards path k = true -> (String.length k <= String.length path)%nat.
Proof. unfold towards. intros (q & Hq & ->%String.eqb_eq)%existsb_exists. by eapply ancestry_shorter. Qed.

Section Prepare.
Context (settings : WorkspaceSettings) (project : string) (mode : WorkspaceMode) (url branch : option string).
Context (Hroot : plain_dir (ws_root settings)) (Hproject : plain_name project).
Abbreviation target := (path_for settings project).
Abbreviation staging_dir := (staging_for pid settings project).
Abbreviation prepare := (prepare_workspace describe fs pid settings project mode url branch).

Lemma moves_only {E A} (P Q : string -> bool) (m : Prog E A) :
  (forall k, P k = true -> Q k = true) -> moves (only P) m -> moves (only Q) m.
Proof. intros HPQ Hm s. eapply only_weaken; [exact HPQ|apply Hm]. Qed.

(** Before the rename, the workspace is not touched either. *)
Definition staging_only (k : string) : bool := towards (ws_root settings) k || below staging_dir k.
Lemma staged_preparing k : staging_only k = true -> preparing settings project k = true.
Proof. unfold staging_only, preparing. intros ->. done. Qed.
Lemma only_workspace_root : moves (only staging_only) (on_disk (create_dir_with_ancestors (ws_root settings))).
Proof.
  apply only_create_missing. intros k Hk. unfold staging_only, towards. apply orb_true_iff. left.
  apply existsb_exists. exists k. split; [done|apply String.eqb_refl].
Qed.
Lemma only_staging {E A} (m : Prog E A) : moves (only (below staging_dir)) m -> moves (only staging_only) m.
Proof. apply moves_only. intros k Hk. unfold staging_only. by rewrite Hk, orb_true_r. Qed.

(** What was built at the staging directory is at the workspace, all of it. *)
Definition moved_whole (s0 s' : Site) : Prop :=
  exists built, only staging_only s0 built /\ holds target (subtree staging_dir (nodes (s_disk built))) (nodes (s_disk s')).

(** Every end of a preparation that began at [s0]: it leaves the workspace as it
    was, unless what was built was moved there whole; then only the path of the
    workspace was left to look up. *)
Definition leaves_well (s0 : Site) (r : Result (Outcome (ProvisionFailure * string)) PreparedWorkspace * Site) : Prop :=
  only (preparing settings project) s0 (snd r)
  /\ match fst r with
     | Ok w => snd r = s0 /\ pw_created w = false \/ moved_whole s0 (snd r) /\ pw_created w = true
     | Err _ => only staging_only s0 (snd r) \/ moved_whole s0 (snd r) /\ canonicalize fs target = None
     end.
Lemma well_staged s0 e s : only staging_only s0 s -> leaves_well s0 (Err e, s).
Proof. intros Ho. split; [|by left]. eapply only_weaken; [apply staged_preparing|done]. Qed.
Lemma well_bind {A} (m : Building A) (k : A -> Building PreparedWorkspace) s0 s :
  only staging_only s0 s -> moves (only staging_only) m ->
  (forall a s1, only staging_only s0 s1 -> leaves_well s0 (k a s1)) -> leaves_well s0 (bind m k s).
Proof.
  intros Hs Hm Hk. specialize (Hm s). unfold bind. destruct (m s) as [[a|e] s1]; cbn [snd] in Hm.
  - apply Hk. by etransitivity.
  - apply well_staged. by etransitivity.
Qed.
Lemma well_failed failure s0 s :
  only staging_only s0 s -> leaves_well s0 ((discard staging_dir ;;; Host.throw failure) s).
Proof.
  intros Hs. apply well_bind; [done|apply only_staging, only_discard|]. intros _ s1 Hs1. by apply well_staged.
Qed.

Lemma rename_dir_Ok src dst s s' :
  apart src dst -> on_disk (rename_dir src dst) s = (Ok tt, s') ->
  holds dst (subtree src (nodes (s_disk s))) (nodes (s_disk s')).
Proof.
  intros Hap. unfold on_disk. destruct (rename_dir src dst (s_disk s)) as [r d] eqn:E. destruct r as [[]|[]]; try done.
  intros [= <-]. cbn. revert E. unfold rename_dir, syscall. destruct (plan (s_disk s)) as [|[] l]; try done;
    destruct (nodes (s_disk s) !! src) as [x|] eqn:Ex; try done;
    destruct (occupied_below dst (nodes (s_disk s))) eqn:Ho; rewrite ?orb_true_r, ?orb_false_r; try done;
    (destruct (bool_decide (f_kind x = Directory)); [|done]); cbn [negb];
    destruct (move_tree_spec src dst (nodes (s_disk s)) Hap) as (Hm & _); try done; try (by eexists);
    (destruct (nodes (s_disk s) !! dst) as [y|]; [case_bool_decide; [|done]|]); by intros [= <-].
Qed.

Lemma prepare_leaves s : leaves_well s (prepare s).
Proof.
  unfold prepare_workspace. destruct (refuse_forbidden settings target) as [[]|]; [|by apply well_staged].
  cbn [Host.checked]. unfold bind at 1, ret at 1, bind at 1, gets at 1. destruct (Fs.is_dir _ _).
  { unfold canonical. destruct (canonicalize fs target); [|by apply well_staged]. split; [done|]. by left. }
  apply well_bind; [done|apply hmoves_mapping, only_workspace_root|]. intros _ s1 Hs1.
  apply well_bind; [done|apply only_staging, only_discard|]. intros _ s2 Hs2.
  apply well_bind; [done|apply only_staging, hmoves_attempt, only_build|]. intros [[]|failure] s3 Hs3; [|by apply well_failed].
  pose proof (staging_is_apart settings project Hroot Hproject) as Hap.
  pose proof (only_on_disk _ _ (within_rename_dir _ _ Hap) s3) as Hmv.
  pose proof (rename_dir_Err staging_only staging_dir target s3) as Herr.
  pose proof (rename_dir_Ok staging_dir target s3) as Hdone.
  unfold bind at 1, attempt. destruct (on_disk (rename_dir staging_dir target) s3) as [[[]|[]] s4];
    try (apply well_staged; etransitivity; [exact Hs3|by eapply Herr]).
  - assert (only (preparing settings project) s s4) as Ho.
    { etransitivity; [eapply only_weaken; [apply staged_preparing|exact Hs3]|]. eapply only_weaken; [|exact Hmv].
      intros k [Hk|Hk]%orb_true_iff; unfold preparing; rewrite Hk; [by rewrite orb_true_r|by rewrite !orb_true_r]. }
    assert (moved_whole s s4) as Hw by (exists s3; split; [done|by apply Hdone]).
    unfold canonical. destruct (canonicalize fs target) as [c|] eqn:Ec; (split; [exact Ho|]); cbn; by right.
  - apply well_failed. etransitivity; [exact Hs3|by eapply Herr].
Qed.

Lemma prepare_reuses s :
  Fs.is_dir (nodes (s_disk s)) (path_join target ".git") = true -> snd (prepare s) = s.
Proof.
  intros Hg. unfold prepare_workspace. destruct (refuse_forbidden settings target) as [[]|]; [|done].
  cbn [Host.checked]. unfold bind at 1, ret at 1, bind at 1, gets at 1. rewrite Hg. unfold canonical.
  by destruct (canonicalize fs target).
Qed.
End Prepare.

End Workspace.

(** ** The outcome *)

Section Outcome.
Context `{SerdeJson} `{Process} `{Supervisor} `{Git} (describe : NodeError -> string) (fs : FileSystem) (pid : Z).
Context (wm : WorkerManager) (rounds : nat) (elsewhere : nat -> Db -> Db) (occupied : Z -> bool) (random : list Z) (now : Z).

Definition row (id : string) (db : Db) : option ProjectRow := select_one (is_project id) (projects db).
(** The other tasks of the node leave the project's row as it is. *)
Definition row_settled (id : string) : Prop := forall h db, row id (fst (meanwhile h db)) = row id db.

(** What does not use the registry leaves it. *)
Definition same_db (s s' : Site) : Prop := s_db s' = s_db s.
#[export] Instance same_db_preorder : PreOrder same_db.
Proof. split; [done|]. intros a b c Hab Hbc. unfold same_db in *. congruence. Qed.
Lemma same_db_disk {A} (m : M FsError Disk A) : moves same_db (on_disk m).
Proof. intros s. unfold on_disk, same_db. by destruct (m (s_disk s)) as [[|[]]]. Qed.
Lemma same_db_ask v u : moves same_db (ask v u).
Proof. intros s. unfold ask, same_db. by destruct (control _ _ _). Qed.
Lemma same_db_active u : moves same_db (ask_active u).
Proof. intros s. unfold ask_active, same_db. by destruct (is_active _ _) as [[|[]]]. Qed.
Lemma same_db_health {E} endpoint key : moves same_db (@ask_health _ E endpoint key).
Proof. intros s. unfold ask_health, same_db. by destruct (healthy _ _ _). Qed.
Lemma same_db_draw {E} : moves same_db (@draw _ E).
Proof. intros s. unfold draw, same_db. by destruct (nonce _). Qed.
Lemma same_db_pause {E} d : moves same_db (@pause _ E d).
Proof. by intros s. Qed.
Lemma same_db_clock {E} : moves same_db (@clock _ E).
Proof. by intros s. Qed.
Lemma same_db_key path : moves same_db (worker_key wm path).
Proof. by intros s. Qed.
Lemma same_db_fail {E A} e : moves same_db (@fail (Outcome E) Site A e).
Proof. by intros s. Qed.
Hint Resolve same_db_disk same_db_ask same_db_active same_db_health same_db_draw same_db_pause same_db_clock
  same_db_key same_db_fail : moves.
Lemma same_db_wait {E} endpoint key deadline n : moves same_db (@wait_until _ wm E n deadline endpoint key).
Proof. induction n as [|n IH]; cbn [wait_until]; host_moves. Qed.
Hint Resolve same_db_wait : moves.
Lemma same_db_wait_healthy {E} endpoint key : moves same_db (@wait_healthy _ wm rounds E endpoint key).
Proof. unfold wait_healthy. host_moves. Qed.
Lemma same_db_reconcile b live : moves same_db (reconcile_binding wm b live).
Proof. unfold reconcile_binding, ignoring, reconcile_credentials. host_moves. Qed.
Hint Resolve same_db_wait_healthy same_db_reconcile : moves.

Lemma changes_found {R} (q : R -> bool) t : changes q t = 0%nat <-> select_one q t = None.
Proof.
  unfold changes, select_one. induction t as [|r t IH]; cbn; [done|]. by destruct (q r).
Qed.
Lemma update_project_row id f db :
  (forall p, p_project_id (f p) = p_project_id p) ->
  match update_project id f db with
  | (Ok _, db') => exists p, row id db = Some p /\ row id db' = Some (f p)
  | (Err _, db') => row id db' = None
  end.
Proof.
  intros Hf. unfold update_project, gets, modify, bind, row. cbn [fst snd projects on_projects].
  assert (forall r, is_project id (f r) = is_project id r) as Hid by (intros r; unfold is_project; by rewrite Hf).
  destruct (Nat.eqb_spec (changes (is_project id) (projects db)) 0) as [Hz|Hz]; cbn [fail ret projects on_projects];
    unfold fail, ret; cbn [projects on_projects]; rewrite select_one_update_where by done.
  - apply changes_found in Hz. by rewrite Hz.
  - destruct (select_one _ _) as [p|] eqn:E; [|by apply changes_found in E]. exists p. split; [done|].
    apply find_some in E as [_ E]. cbn. by rewrite E.
Qed.

(** The row [ensure_running] looked its endpoint up in. *)
Lemma binding_row id db b :
  binding id db = Ok b ->
  exists p, row id db = Some p /\ p_runtime_endpoint p = Some (wb_endpoint b) /\ p_enabled p <> 0.
Proof.
  unfold binding, project, row. destruct (select_one _ _) as [p|]; [|done]. unfold map_project.
  destruct (ProfileState.parse _); [|done]. destruct (RuntimeOwnership.parse _); [|done]. cbn.
  destruct (Z.eqb_spec (p_enabled p) 0); [done|]. cbn [negb]. destruct (p_hermes_profile p) as [profile|]; [|done].
  destruct (profile =? HOST_PROFILE)%string; [done|]. destruct (p_runtime_endpoint p) as [endpoint|] eqn:E; [|done].
  destruct (p_hermes_api_key_ref p) as [ref|]; [|done]. destruct (ref =? "")%string; [done|].
  destruct (unit_name profile); [|done]. intros [= <-]. by exists p.
Qed.

(** A project that is up: its row says ready, and the last thing that happened on
    the host is that an endpoint answered, which is the endpoint of the row, enabled,
    unless another task changed the row meanwhile. *)
Definition serving (id : string) (s : Site) : Prop :=
  exists p endpoint log, row id (s_db s) = Some p /\ p_profile_state p = "ready" /\ p_profile_failure p = None
    /\ s_log s = log ++ [Answered endpoint true]
    /\ (row_settled id -> p_enabled p <> 0 /\ p_runtime_endpoint p = Some endpoint).

Lemma set_state_last id st f s :
  let (r, s') := on_registry (set_profile_state id st f) s in
  s_log s' = s_log s /\
  match r with
  | Ok _ => exists p p', row id (fst (meanwhile (s_host s) (s_db s))) = Some p /\ row id (s_db s') = Some p'
      /\ p_profile_state p' = ProfileState.as_str st /\ p_profile_failure p' = f
      /\ p_enabled p' = p_enabled p /\ p_runtime_endpoint p' = p_runtime_endpoint p
  | Err _ => row id (s_db s') = None
  end.
Proof.
  unfold on_registry. destruct (meanwhile _ _) as [db h]. cbn [fst]. unfold set_profile_state.
  set (f0 := fun p : ProjectRow => _). pose proof (update_project_row id f0 db ltac:(done)) as Hu.
  destruct (update_project id f0 db) as [[]]; (split; [done|]); cbn; [|done].
  destruct Hu as (p & Hp & Hp'). by exists p, (f0 p).
Qed.

Lemma ensure_running_serves id s b s' :
  ensure_running wm rounds id s = (Ok b, s') -> serving id s'.
Proof.
  unfold ensure_running.
  intros (b0 & s0 & Hb & Hk)%bind_Ok. unfold read_registry in Hb. destruct (meanwhile (s_host s) (s_db s)) as [db h].
  destruct (binding id db) as [b1|] eqn:Eb; [|done]. injection Hb as <- <-.
  apply binding_row in Eb as (p & Hp & He & Hen). set (s0 := at_host h (at_db db s)) in *.
  assert (row id (s_db s0) = Some p) as Hr0 by done. clearbody s0. clear Hp.
  apply bind_Ok in Hk as (key & s1 & H1k & Hk). pose proof (same_db_key (wb_api_key_ref b1) s0) as D1. rewrite H1k in D1.
  apply bind_Ok in Hk as (active & s2 & H2k & Hk). pose proof (same_db_active (wb_unit b1) s1) as D2. rewrite H2k in D2.
  apply bind_Ok in Hk as ([] & s3 & H3k & Hk). pose proof (same_db_reconcile b1 active s2) as D3. rewrite H3k in D3.
  apply bind_Ok in Hk as ([] & s4 & H4k & Hk).
  assert (moves same_db (if active then ret tt else ask Start (wb_unit b1))) as D4 by host_moves.
  specialize (D4 s3). rewrite H4k in D4.
  apply bind_Ok in Hk as (up & s5 & H5k & Hk). pose proof (same_db_wait_healthy (E := NodeError) (wb_endpoint b1) key s4) as D5.
  destruct (adds_wait_healthy wm rounds (E := NodeError) (wb_endpoint b1) key s4) as [_ (new & Hl & Hw)].
  rewrite H5k in D5, Hl, Hw. cbn [fst snd] in *. unfold same_db in *.
  destruct up.
  2: { apply bind_Ok in Hk as (? & ? & _ & Hk). done. }
  apply bind_Ok in Hk as ([] & s6 & H6k & Hk). injection Hk as _ <-.
  pose proof (set_state_last id ProfileReady None s5) as Hs. rewrite H6k in Hs.
  destruct Hs as [Hls (q & p' & Hq & Hp' & Hst & Hf & Hen' & He')]. destruct Hw as [k ->].
  exists p', (wb_endpoint b1). eexists. split_and!; [done..| |].
  - rewrite Hls, Hl, app_assoc. reflexivity.
  - intros Hset. rewrite Hset, D5, D4, D3, D2, D1, Hr0 in Hq. injection Hq as <-. by rewrite Hen', He'.
Qed.

(** The failures a program may end with. *)
Definition raises {E A} (P : E -> Prop) (m : Prog E A) : Prop := forall s e, fst (m s) = Err (Failed e) -> P e.
Lemma raises_bind {E A B} (P : E -> Prop) (m : Prog E A) (k : A -> Prog E B) :
  raises P m -> (forall a, raises P (k a)) -> raises P (bind m k).
Proof.
  intros Hm Hk s e. unfold bind. specialize (Hm s). destruct (m s) as [[a|o] s1]; cbn [fst] in *; [apply Hk|].
  intros [= ->]. by apply Hm.
Qed.
Lemma raises_mapping {E F A} (P : F -> Prop) (f : E -> F) (m : Prog E A) : (forall e, P (f e)) -> raises P (Host.mapping f m).
Proof. intros HP s e. unfold Host.mapping. destruct (m s) as [[|[]]]; by intros [= <-]. Qed.
Lemma raises_attempt {E F A} (P : F -> Prop) (m : Prog E A) : raises P (attempt m).
Proof. intros s e. unfold attempt. by destruct (m s) as [[|[]]]. Qed.
Lemma raises_throw {E A} (P : E -> Prop) e : P e -> raises P (@Host.throw _ E A e).
Proof. by intros HP s ? [= <-]. Qed.
Lemma raises_ret {E A} (P : E -> Prop) (a : A) : raises P (ret a).
Proof. by intros s e. Qed.
Lemma raises_gets {E A} (P : E -> Prop) (f : Site -> A) : raises P (gets f).
Proof. by intros s e. Qed.
Lemma raises_discard {E} (P : E -> Prop) staging : raises P (discard staging).
Proof. intros s e. unfold discard. by destruct (on_disk _ s) as [[|[]]]. Qed.
Lemma raises_attempted {E F A B} (P : F -> Prop) (Q : E -> Prop) (m : Prog E A) (k : Result E A -> Prog F B) :
  raises Q m -> (forall a, raises P (k (Ok a))) -> (forall e, Q e -> raises P (k (Err e))) -> raises P (bind (attempt m) k).
Proof.
  intros Hm Ha He s e. unfold bind, attempt. specialize (Hm s). destruct (m s) as [[a|[]] s1]; cbn [fst] in *; try done.
  - apply Ha.
  - by apply He, Hm.
Qed.

(** The failures of a worker are not those of a workspace. *)
Definition of_worker (f : ProvisionFailure) : Prop := f = ProfileWorkerUnhealthy \/ f = ProfileWorkerStartFailed.
Lemma build_raises staging mode url branch :
  raises (fun e => ~ of_worker (fst e)) (build_workspace describe staging mode url branch).
Proof.
  unfold build_workspace. repeat first
    [apply raises_bind; [|intros ?]|apply raises_mapping; intros ? [|]; done|apply raises_ret
    |apply raises_throw; by intros [|]|case_match].
  all: apply raises_throw; cbn; by intros [|].
Qed.
Lemma prepare_raises settings project mode url branch :
  raises (fun e => ~ of_worker (fst e)) (prepare_workspace describe fs pid settings project mode url branch).
Proof.
  assert (forall path, raises (fun e => ~ of_worker (fst e)) (canonical describe fs path)) as Hc.
  { intros path. unfold canonical. destruct (canonicalize fs path); [apply raises_ret|]. apply raises_throw. by intros [|]. }
  unfold prepare_workspace. apply raises_bind; [|intros _; apply raises_bind; [apply raises_gets|intros []]].
  - destruct (refuse_forbidden _ _); [apply raises_ret|]. apply raises_throw. by intros [|].
  - apply raises_bind; [done|]. intros path. apply raises_ret.
  - apply raises_bind; [apply raises_mapping; by intros ? [|]|intros _].
    apply raises_bind; [apply raises_discard|intros _]. eapply raises_attempted; [apply build_raises| |].
    + intros []. apply raises_bind; [apply raises_attempt|]. intros [[]|e].
      * apply raises_bind; [done|]. intros path. apply raises_ret.
      * apply raises_bind; [apply raises_discard|intros _]. apply raises_throw. by intros [|].
    + intros failure Hf. apply raises_bind; [apply raises_discard|intros _]. by apply raises_throw.
Qed.
Lemma commit_refuses id workspace s o s' :
  commit_registration describe fs now id workspace s = (Ok (Some o), s') ->
  exists f m, o = ProvisionFailed f m /\ ~ of_worker f.
Proof.
  unfold commit_registration. intros (existing & s1 & _ & Hk)%bind_Ok. destruct existing as [[p|]|e].
  - destruct (_ =? _)%string; [done|]. injection Hk as <- _. eexists _, _. split; [done|]. by intros [|].
  - apply bind_Ok in Hk as (registered & s2 & _ & Hk). destruct registered; [done|]. injection Hk as <- _.
    eexists _, _. split; [done|]. by intros [|].
  - injection Hk as <- _. eexists _, _. split; [done|]. by intros [|].
Qed.

(** C16. The outcome of provisioning is what the node recorded and saw.  A project
    reported provisioned is ready in the registry, without a failure, and the last
    thing that happened on the host was its endpoint answering; that the row is still
    enabled and still has that endpoint holds if no other task, such as a command of
    the operator, changed the row between the look at it and the end. One reported
    with a failed worker is recorded as failed, for that reason, if its row is still
    there, so a retry and the inventory see the same. *)
Theorem provisioning_outcome_is_recorded workspaces profiles request s :
  match provision_project describe fs pid wm rounds elsewhere occupied random now workspaces profiles request s with
  | (Ok (Provisioned _), s') => serving (pr_project_id request) s'
  | (Ok (ProvisionFailed f _), s') => of_worker f -> forall p, row (pr_project_id request) (s_db s') = Some p ->
      p_profile_state p = "failed" /\ p_profile_failure p = Some (ProvisionFailure.as_str f)
  | (Err _, _) => True
  end.
Proof.
  unfold provision_project. unfold bind at 1, attempt at 1.
  pose proof (prepare_raises workspaces (pr_project_id request) (pr_mode request) (pr_repository_url request)
                (pr_branch request) s) as Hp.
  destruct (prepare_workspace _ _ _ _ _ _ _ _ s) as [[w|[| |[f m]]] s1]; try done; cbn [fst] in Hp.
  2: { intros Hf. by specialize (Hp _ eq_refl). }
  unfold bind at 1. pose proof (commit_refuses (pr_project_id request) (pw_path w) s1) as Hw.
  destruct (commit_registration _ _ _ _ _ s1) as [[[o|]|] s2]; [|clear Hw Hp s1; rename s2 into s1|done].
  { destruct (Hw o s2 eq_refl) as (f & m & -> & Hf). intros Hf'. by destruct (Hf Hf'). }
  unfold bind at 1, attempt at 1.
  destruct (provision_project_profile _ _ _ _ _ _ _ s1) as [[home|[| |e]] s2]; try done.
  2: { intros Hf. destruct (str_contains _ _); by destruct Hf. }
  unfold bind at 1, attempt at 1.
  pose proof (ensure_running_serves (pr_project_id request) s2) as Hr.
  destruct (ensure_running _ _ _ s2) as [[b|[| |e]] s3]; try done.
  { by apply (Hr b). }
  clear Hr. set (f := if str_contains _ _ then _ else _).
  pose proof (set_state_last (pr_project_id request) ProfileFailed (Some (ProvisionFailure.as_str f)) s3) as Hs.
  unfold bind, attempt. destruct (on_registry _ s3) as [[[]|[]] s4]; try done; destruct Hs as [_ Hs]; intros _ p Hrow.
  - destruct Hs as (q & p' & _ & Hp' & Hst & Hf & _). rewrite Hp' in Hrow. by injection Hrow as <-.
  - congruence.
Qed.
End Outcome.

(** ** A project built on an empty host with a [git] that
    makes a repository, at which the theorems about provisioning are applied;
    and where an identifier that was not checked leads. *)

From S2P Require Import WorkerSamples.
Import Json.Codec.

Module ProvisioningSamples.
(** A repository is a [.git] directory; one URL needs a password. *)
#[export] Instance tool : Git := {|
  git arguments directory n :=
    if bool_decide ("https://private"%string ∈ arguments)
    then (Ok (false, chars "fatal: Authentication failed"), n)
    else (Ok (true, []), <[git_directory arguments directory +:+ "/.git" := folder]> n)
|}.
#[export] Instance tool_laws : GitLaws.
Proof.
  constructor. intros arguments directory n k Hk. cbn [git tool]. case_bool_decide; [done|]. cbn [snd].
  apply lookup_insert_ne. intros <-. by rewrite below_rel in Hk.
Qed.

Definition said (e : NodeError) : string := "an error".
Definition workspaces : WorkspaceSettings := {| ws_root := "/v"; ws_forbidden := ws_forbidden default_workspaces |}.
Definition empty_site : Site := {| s_db := empty_db; s_disk := s_disk bare; s_host := quiet; s_log := [] |}.
Definition wanted (id : string) (mode : WorkspaceMode) (url : option string) : ProvisionRequest :=
  {| pr_organization_id := "org"; pr_project_id := id; pr_node_project_id := id; pr_generation := 1; pr_mode := mode;
     pr_repository_url := url; pr_branch := Some "main"%string |}.
Abbreviation provision s r :=
  (provision_project said real 40 manager enough (fun _ db => db) (fun _ => false) (seqZ 0 32) 70 workspaces settings r s).
Definition unanswered : Site :=
  {| s_db := empty_db; s_disk := s_disk bare;
     s_host := {| m_up := ∅; m_starts := 0; m_time := 0; m_refused := []; m_answers := false |}; s_log := [] |}.

Lemma machine_row id : row_settled id.
Proof. done. Qed.


Lemma provisioning_outcome_is_recorded_witness :
  fst (provision empty_site (wanted "demo" Empty None)) = Ok (Provisioned true)
  /\ serving "demo" (snd (provision empty_site (wanted "demo" Empty None))) /\ row_settled "demo".
Proof.
  pose proof (provisioning_outcome_is_recorded said real 40 manager enough (fun _ db => db) (fun _ => false) (seqZ 0 32) 70
    workspaces settings (wanted "demo" Empty None) empty_site) as Hp.
  assert (fst (provision empty_site (wanted "demo" Empty None)) = Ok (Provisioned true)) as E by (vm_compute; reflexivity).
  destruct (provision empty_site (wanted "demo" Empty None)) as [r s']. cbn [fst snd] in *. subst r. split; [done|]. split; [exact Hp|apply machine_row].
Defined.

(** A worker that never answers: the project is recorded as failed. *)
Lemma unhealthy_project_is_failed :
  let (r, s') := provision unanswered (wanted "demo" Empty None) in
  r = Ok (ProvisionFailed ProfileWorkerUnhealthy "the project runtime did not become healthy")
  /\ (p_profile_failure <$> row "demo" (s_db s')) = Some (Some "profile_worker_unhealthy"%string).
Proof. vm_compute. auto. Qed.

(** The workspace is made before the identifier is looked at: one that is a path
    of its own makes a directory outside the root, which stays. *)
Lemma unchecked_id_leaves_the_root :
  let (r, s') := provision empty_site (wanted "/etc/project" Empty None) in
  is_ok (validate_identifier "/etc/project") = false
  /\ (exists f m, r = Ok (ProvisionFailed f m))
  /\ nodes (s_disk empty_site) !! "/etc/project"%string = None
  /\ is_Some (nodes (s_disk s') !! "/etc/project"%string).
Proof. vm_compute. split_and!; eauto. Qed.
(** The trees that are out of bounds are compared by name: a step up is not taken. *)
Lemma forbidden_tree_is_reached_by_a_step_up :
  refuse_forbidden default_workspaces (path_for default_workspaces "../../../../srv/asterism/deployment/x") = Ok tt
  /\ is_ok (refuse_forbidden default_workspaces "/srv/asterism/deployment/x") = false.
Proof. vm_compute. auto. Qed.
End ProvisioningSamples.
