(* ===== verification/Commands.v ===== *)
(** * Commands: what a command of the Control Plane does ([control.rs],
    [execute_with_delivery] and everything it calls).

    The dispatcher joins the parts that are modelled on their own: the
    application service ([Service.v]) with its logins, the worker manager on the
    host ([Workers.v]), provisioning ([Provisioning.v]), the task boards
    ([Workdesk.v]) and the update request ([UpdateRequest.v]).  [Daemon] holds
    their state once, each sees its part of it.

    [expect] on a command that names no project is a panic: it ends the task
    that serves the channel ([Ended]).  Log lines and the status page of the
    channel are left out. *)
From stdpp Require Import gmap.
From S2P Require Import Prelude Text Json RunState Redact Schema Registry Identifiers Remote Inventory System.
From S2P Require Import Protocol Sse RunLock Attachments ChatHistory Approvals Runner Reconcile Policy.
From S2P Require Import Fs CredentialSwap Credentials CredentialHomes Host Profiles DeviceCode Provider Service.
From S2P Require Import Workers Workdesk UpdateRequest Provisioning.

Module control.
Import provider service.

(** ** State *)

Record Daemon `{Supervisor} : Type := {
  d_node : NodeState;
  d_host : host;
  d_log : list HostEvent;
  d_cards : list CardRow;
  d_boards : gmap string Board
}.

(** The fields of the node's configuration that commands read. *)
Record NodeConfig : Type := {
  cfg_project_root : string;
  cfg_hermes_project_home_root : string;
  cfg_hermes_shared_auth : string;
  cfg_codex_auth : string;
  cfg_hermes_profile_port_start : Z;
  cfg_hermes_profile_port_end : Z;
  cfg_hermes_url : string;
  cfg_hermes_home : string
}.
(** What does not change while the daemon runs. *)
Record Setup : Type := {
  su_config : NodeConfig;
  su_paths : ProviderPaths;
  su_node_home : string;
  su_release : string;
  su_runtime_uid : Z;
  su_uid : Z;
  su_pid : Z;
  su_state_root : string;
  su_api_key : string;
  su_limits : Limits;
  su_instance_id : string;
  su_fs : FileSystem;
  su_rounds : nat
}.
(** What the rest of the world does and answers at each step. *)
Record Around : Type := {
  ar_env : nat -> Beside;
  ar_logins : nat -> Moment;
  ar_hash : string -> list Z;
  ar_unopened : nat -> option string;
  ar_message_id : nat -> string;
  ar_accepted : nat -> bool;
  ar_occupied : nat -> Z -> bool;
  ar_random : nat -> list Z;
  ar_elsewhere : nat -> nat -> Db -> Db;
  ar_channel : nat -> Value
}.
(** How errors read. *)
Record Texts : Type := {
  tx_registry : RegistryError -> string;
  tx_inventory : InvError -> string;
  tx_remote : RemoteError -> string;
  tx_node : NodeError -> string;
  tx_fs : FsError -> string;
  tx_provider : ProviderError -> string;
  tx_attachment : attachments.AttachmentError -> string;
  tx_update : UpdateError -> string
}.

Definition error (code : ErrorCode) (message : string) : ProtocolError := {| pe_code := code; pe_message := message |}.
Definition command_failed (message : string) : ProtocolError := error CommandFailed message.
Definition service_error (e : ServiceError) : ProtocolError := command_failed (code e +:+ ": " +:+ public_message e).

(** ** Fields of a payload *)

Definition field_str (name : string) (payload : Value) : option string := Json.get name payload ≫= as_str.
Definition string_field (payload : Value) (name : string) : option string :=
  match field_str name payload with
  | Some value => if (value =? "")%string then None else Some value
  | None => None
  end.
Definition required_str (payload : Value) (name : string) : Result ProtocolError string :=
  context (field_str name payload) (error MalformedFrame (name +:+ " is required")).
Definition payload_version (payload : Value) : Z := default 0 (Json.get "version" payload ≫= as_u64).

(** ** Records on the wire *)

Definition opt_i64 (z : option Z) : Value := null_or json_i64 z.
Definition run_value (r : RunRecord) : Value :=
  object [("run_id", VString (run_id r)); ("project_id", VString (Registry.project_id r));
          ("session_id", null_or VString (session_id r)); ("idempotency_key", null_or VString (idempotency_key r));
          ("runtime_kind", VString (runtime_kind r)); ("provider", null_or VString (Registry.provider r));
          ("model", null_or VString (Registry.model r)); ("status", VString (Registry.status r));
          ("created_at", json_i64 (created_at r)); ("started_at", opt_i64 (started_at r));
          ("updated_at", json_i64 (updated_at r)); ("finished_at", opt_i64 (finished_at r));
          ("last_event_seq", json_i64 (last_event_seq r)); ("terminal_reason", null_or VString (terminal_reason r));
          ("error_code", null_or VString (error_code r)); ("error_message", null_or VString (error_message r));
          ("hermes_run_id", null_or VString (hermes_run_id r)); ("request_payload", request_payload r);
          ("result_payload", null_or id (result_payload r)); ("recovery_note", null_or VString (recovery_note r));
          ("retry_of_run_id", null_or VString (retry_of_run_id r))]%string.
Definition summary_value (c : CredentialSummary) : Value :=
  object [("id", VString (cs_id c)); ("provider_id", VString (cs_provider_id c));
          ("auth_method", VString (cs_auth_method c)); ("label", VString (cs_label c)); ("state", VString (cs_state c));
          ("storage", VString (cs_storage c)); ("created_at", VNumber (PosInt (cs_created_at c)));
          ("updated_at", VNumber (PosInt (cs_updated_at c)))]%string.
Definition availability_value (a : Availability) : Value :=
  VString match a with Available => "available" | Credentials.Unavailable => "unavailable" end.
Definition capability_value (c : ProviderCapability) : Value :=
  object ([("id", VString (pc_id c)); ("display_name", VString (pc_display_name c));
           ("auth_methods", VArray (List.map (fun m => VString (auth_method_wire m)) (pc_auth_methods c)));
           ("availability", availability_value (pc_availability c))]%string
          ++ match pc_unavailable_reason c with
             | Some LauncherMissing => [("unavailable_reason", VString "runtime_missing")]%string
             | None => []
             end
          ++ [("models", VArray (List.map (fun m =>
                 object [("id", VString (mc_id m)); ("display_name", VString (mc_display_name m))]%string) (pc_models c)))]%string).
Definition snapshot_value (s : Snapshot) : Value :=
  object [("schema_version", VNumber (PosInt (sn_schema_version s))); ("runtime_release", VString (sn_runtime_release s));
          ("reported_at", VNumber (PosInt (sn_reported_at s)));
          ("providers", VArray (List.map capability_value (sn_providers s)))]%string.

(** [Provider::capabilities]. *)
Definition provider_features : Value :=
  object [("kind", VString "openai-codex"); ("device_authorization", VBool true); ("reauthorization", VBool true);
          ("reauthorization_command_version", VNumber (PosInt 1))]%string.
(** [Node::capabilities], with the status page and the snapshot of this moment. *)
Definition capabilities_value (su : Setup) (channel : Value) (s : Snapshot) : Value :=
  let yes := VBool true in
  let no := VBool false in
  let num z := VNumber (PosInt z) in
  object
    [("api_version", VString API_VERSION);
     ("registry_schema_version", num 11);
     ("node_instance_id", VString (su_instance_id su));
     ("transport", object [("kind", VString "unix_socket_http"); ("inbound_tcp", no)]);
     ("runtime_kinds", json_strings ["hermes-loop"]);
     ("projects", object
        [("multi_project", yes); ("project_runtime", VString "hermes_home"); ("project_provisioning", yes);
         ("project_memory_isolation", yes); ("project_session_isolation", yes); ("project_workspace_routing", yes);
         ("workspace_modes", json_strings ["empty"; "clone"]); ("provision_command_version", num 1);
         ("credential_assignment", yes); ("credential_assignment_command_version", num 1);
         ("model_selection", yes); ("model_selection_command_version", num 1);
         ("suspension", yes); ("suspension_command_version", num 1)]);
     ("workdesk", object [("structured_reports", yes); ("report_command_version", num 1)]);
     ("experimental_runtime_kinds", json_strings ["codex-app-server"]);
     ("approvals", object
        [("supported", yes); ("choices", json_strings ["once"; "session"; "deny"]);
         ("run_approval_policy", json_strings ["manual"; "allow_all_for_run"])]);
     ("attachments", object
        [("run_attachments", json_strings ["image_url"]); ("max_per_message", num (Z.of_nat attachments.MAX_ATTACHMENTS));
         ("delayed_decisions", yes); ("at_most_once", yes)]);
     ("replay", object
        [("supported", yes); ("cursor", VString "seq"); ("last_event_id_header", yes);
         ("query_parameter", VString "since_seq"); ("terminal_replay_without_backend", yes)]);
     ("updates", object [("managed", yes); ("command_version", num 1)]);
     ("cancellation", object [("supported", yes); ("idempotent", yes)]);
     ("retry", object
        [("supported", yes); ("retryable_statuses", json_strings ["interrupted"; "lost"]); ("creates_new_run", yes);
         ("link_field", VString "retry_of_run_id")]);
     ("concurrency", object [("active_runs_per_project", num 1); ("policy", VString "single_flight")]);
     ("control_plane", channel);
     ("provider", provider_features);
     ("provider_capabilities", snapshot_value s);
     ("protocol", object
        [("versions", VArray (List.map num SUPPORTED_VERSIONS)); ("outbound_only", yes); ("inbound_listener", no)]);
     ("limits", object
        [("max_request_bytes", num (max_request_bytes (su_limits su)));
         ("max_events_per_query", json_i64 (max_events_per_query (su_limits su)));
         ("max_followers_per_run", num (max_followers_per_run (su_limits su)));
         ("heartbeat_seconds", num (heartbeat_seconds (su_limits su)))])]%string.

(** ** Programs over the daemon *)

Section Commands.
Context `{SerdeJson} `{Process} `{RegistryCodec} `{StoreCodec} `{Backend} `{Supervisor} `{Git} `{Starter}.
Context (su : Setup) (ar : Around) (tx : Texts).

Definition C (E A : Type) : Type := M (Outcome E) Daemon A.
Definition throw {E A} (e : E) : C E A := fail (Failed e).
Definition mapping {E F A} (f : E -> F) (m : C E A) : C F A :=
  fun d => match m d with
           | (Ok a, d') => (Ok a, d')
           | (Err Ended, d') => (Err Ended, d')
           | (Err Unfinished, d') => (Err Unfinished, d')
           | (Err (Failed e), d') => (Err (Failed (f e)), d')
           end.
Definition attempting {E F A} (m : C E A) : C F (Result E A) :=
  fun d => match m d with
           | (Ok a, d') => (Ok (Ok a), d')
           | (Err Ended, d') => (Err Ended, d')
           | (Err Unfinished, d') => (Err Unfinished, d')
           | (Err (Failed e), d') => (Ok (Err e), d')
           end.
Definition checked {E A} (r : Result E A) : C E A :=
  match r with Ok a => ret a | Err e => throw e end.
(** [Option::expect]. *)
Definition expected {E A} (o : option A) : C E A :=
  match o with Some a => ret a | None => fail Ended end.

Definition with_node (n : NodeState) (d : Daemon) : Daemon :=
  {| d_node := n; d_host := d_host d; d_log := d_log d; d_cards := d_cards d; d_boards := d_boards d |}.
Definition on_service {E A} (m : S E A) : C E A :=
  fun d => let (r, n) := m (d_node d) in (r, with_node n d).
Definition on_logins {E A} (m : P E A) : C E A := on_service (on_provider m).

(** The registry and the disk as the worker manager sees them. *)
Definition site (d : Daemon) : Site :=
  {| s_db := n_db (d_node d); s_disk := pv_disk (n_logins (d_node d)); s_host := d_host d; s_log := d_log d |}.
Definition with_site (s : Site) (d : Daemon) : Daemon :=
  let n := d_node d in
  {| d_node := with_provider (with_disk (s_disk s) (n_logins n)) (on_db (fun _ => s_db s) n);
     d_host := s_host s; d_log := s_log s; d_cards := d_cards d; d_boards := d_boards d |}.
Definition on_site {E A} (m : Prog E A) : C E A :=
  fun d => let (r, s) := m (site d) in (r, with_site s d).

(** The cards and boards; their failures are only logged. *)
Definition on_desk {E A} (m : M DeskError Shared A) : C E (Result DeskError A) :=
  fun d => let (r, sh) := m {| sh_db := n_db (d_node d); sh_cards := d_cards d; sh_boards := d_boards d |} in
           (Ok r, {| d_node := on_db (fun _ => sh_db sh) (d_node d); d_host := d_host d; d_log := d_log d;
                     d_cards := sh_cards sh; d_boards := sh_boards sh |}).
Definition on_update {A} (m : M UpdateError Disk A) : C UpdateError A :=
  fun d => let n := d_node d in
           let (r, disk) := m (pv_disk (n_logins n)) in
           (match r with
            | Ok a => Ok a
            | Err (OnFile Crashed) => Err Ended
            | Err e => Err (Failed e)
            end, with_node (with_provider (with_disk disk (n_logins n)) n) d).

(** ** The parts, with what this node is set to *)

Abbreviation paths := (su_paths su).
Abbreviation node_home := (su_node_home su).
Abbreviation env := (ar_env ar).
Abbreviation logins := (ar_logins ar).

Definition now_step {E} : C E nat := gets (fun d => n_step (d_node d)).
(** The others act, and a reading of the clock. *)
Definition look {E} : C E Beside := on_service (service.tick paths node_home env anyone).
(** [Registry::open]: a connection of its own. *)
Definition open_registry : C string unit :=
  let! k := now_step in
  match ar_unopened ar k with
  | Some text => throw text
  | None => look ;;; modify (fun d => with_node (on_db (fun db => snd (scrub_device_authorization_history true db)) (d_node d)) d)
  end.
Definition opened_or_internal : C ProtocolError unit := mapping (error Protocol.Internal) open_registry.
Definition unreadable (text : string) : ReassignFailure := refusal "project_state_unreadable" (Bail text).

(** [refused] of the two performers. *)
Definition refused_with (code : string) : ReassignFailure := refusal code (Bail "").

Definition profile_settings : ProvisionSettings :=
  let c := su_config su in
  {| ps_home_root := cfg_hermes_project_home_root c; ps_shared_auth := cfg_hermes_shared_auth c;
     ps_codex_auth := cfg_codex_auth c; ps_credential_root := provider.credential_root node_home;
     ps_first_port := cfg_hermes_profile_port_start c; ps_last_port := cfg_hermes_profile_port_end c;
     ps_reserved_ports := match endpoint_port (cfg_hermes_url c) with Some p => [p] | None => [] end;
     ps_production_home := cfg_hermes_home c; ps_runtime_uid := su_uid su |}.
Definition worker_manager : WorkerManager :=
  {| wm_timings := default_timings; wm_runtime_uid := ps_runtime_uid profile_settings;
     wm_credentials := Some (credentials profile_settings) |}.

Definition begin_worker_change (project_id : string) : C string unit :=
  on_service (service.begin_worker_change paths node_home env project_id).
Definition end_worker_change {E} (project_id : string) : C E unit := on_service (service.end_worker_change project_id).
Definition begin_credential_change (project_id : string) : C string unit :=
  on_service (service.begin_credential_change paths node_home env project_id).
Definition end_credential_change {E} (project_id : string) : C E unit :=
  on_service (service.end_credential_change project_id).
Definition credential_usable (id : string) : C CredentialRefusal string :=
  on_logins (usable paths node_home (su_release su) (su_runtime_uid su) logins id).
Definition supports_model (n : gmap string Node) (provider_id model : string) : bool :=
  supports (snapshot n (hermes_binary on_this_host) (su_release su) 0) provider_id model.

(** ** Provisioning *)

Definition provision_request (payload : Value) (project_id : string) (mode : WorkspaceMode) : ProvisionRequest :=
  {| pr_organization_id := default "" (field_str "organization_id" payload);
     pr_project_id := project_id;
     pr_node_project_id := default project_id (field_str "node_project_id" payload);
     pr_generation := default 0 (Json.get "provisioning_generation" payload ≫= as_u64);
     pr_mode := mode;
     pr_repository_url := field_str "repository_url" payload;
     pr_branch := field_str "branch" payload |}.
Definition provision_value (command_id : string) (r : ProvisionRequest) (o : ProvisionOutcome) : Value :=
  let common :=
    [("event_version", VNumber (PosInt 1)); ("command_id", VString command_id);
     ("organization_id", VString (pr_organization_id r)); ("project_id", VString (pr_project_id r));
     ("node_project_id", VString (pr_node_project_id r));
     ("provisioning_generation", VNumber (PosInt (pr_generation r)))]%string in
  match o with
  | Provisioned workspace_created =>
      object (("outcome", VString "provisioned") :: common ++
        [("runtime_kind", VString "hermes_home"); ("workspace_mode", VString (WorkspaceMode.as_str (pr_mode r)));
         ("workspace_created", VBool workspace_created); ("capability_version", VNumber (PosInt 1))])%string
  | ProvisionFailed failure message =>
      object (("outcome", VString "failed") :: common ++
        [("failure", VString (ProvisionFailure.as_str failure)); ("message", VString message)])%string
  end.

Definition provision_project (cmd : RemoteCommand) : C ProtocolError Value :=
  let payload := command_payload cmd in
  let version := payload_version payload in
  if negb (version =? 1) then throw (command_failed ("unsupported project.provision version " +:+ decimal version))
  else
  let! project_id := checked (context (field_str "project_id" payload) (command_failed "project_id is required")) in
  let! mode := checked (map_err command_failed (WorkspaceMode.parse (default "empty"%string (field_str "workspace_mode" payload)))) in
  opened_or_internal ;;;
  let! b := look in
  let! k := now_step in
  let request := provision_request payload project_id mode in
  let workspaces := {| ws_root := cfg_project_root (su_config su); ws_forbidden := ws_forbidden default_workspaces |} in
  let! outcome := mapping (fun e : Empty_set => match e with end)
    (on_site (Provisioning.provision_project (tx_node tx) (su_fs su) (su_pid su) worker_manager (su_rounds su)
                (ar_elsewhere ar k) (ar_occupied ar k) (ar_random ar k) (b_now b) workspaces profile_settings request)) in
  ret (provision_value (Protocol.command_id cmd) request outcome).

(** ** Changing a project's worker *)

(** What may be asked of a project whose worker this node runs. *)
Definition ready_project (p : RegisteredProject) : bool :=
  RuntimeOwnership.owns_container (rp_runtime_ownership p) && negb (is_null (rp_hermes_profile p))
  && match rp_profile_state p with ProfileReady => true | _ => false end.

(** One transition, from a connection of its own. *)
Definition manage {A} (m : Z -> Prog ReassignFailure A) : C ReassignFailure A :=
  mapping unreadable open_registry ;;;
  let! b := look in
  on_site (m (b_now b)).

Definition perform_credential_assignment (p : RegisteredProject) (requested : option string) :
    C ReassignFailure Reassignment :=
  let project_id := rp_project_id p in
  if match requested with Some id => negb (is_ok (validate_id id)) | None => false end
  then throw (refused_with "credential_id_invalid")
  else if negb (ready_project p) then throw (refused_with "project_not_ready")
  else
  match requested with
  | Some id => mapping (fun r => refused_with (cf_code r)) (credential_usable id) ;;; ret tt
  | None => ret tt
  end ;;;
  mapping refused_with (begin_credential_change project_id) ;;;
  let! result := attempting (manage (fun _ => reassign_credential worker_manager (su_rounds su) project_id requested)) in
  end_credential_change project_id ;;;
  checked result.

Definition perform_model_selection (p : RegisteredProject) (model : string) : C ReassignFailure (ModelSelection * string) :=
  let project_id := rp_project_id p in
  if negb (is_ok (validate_model_id model)) then throw (refused_with "model_id_invalid")
  else if negb (ready_project p) then throw (refused_with "project_not_ready")
  else
  match rp_credential_id p with
  | None => throw (refused_with "credential_not_assigned")
  | Some id =>
      let! provider_id := mapping (fun r => refused_with (cf_code r)) (credential_usable id) in
      let! n := gets (fun d => disk_of (d_node d)) in
      if negb (supports_model n provider_id model) then throw (refused_with "model_not_supported")
      else
      mapping refused_with (begin_worker_change project_id) ;;;
      let! result := attempting (manage (fun _ => select_model worker_manager (su_rounds su) project_id model)) in
      end_worker_change project_id ;;;
      let! selection := checked result in
      ret (selection, provider_id)
  end.

(** The generation a change is made for. *)
Definition generation_of (name : string) (payload : Value) : Result ProtocolError Z :=
  context (Json.get name payload ≫= as_u64) (error MalformedFrame (name +:+ " is required")).
Definition named_project (what : string) (project : option RegisteredProject) : Result ProtocolError RegisteredProject :=
  context project (error ProjectNotRegistered (what +:+ " names no project on this Node")).
Definition refusal_value (project_id : string) (generation : string * Z) (f : ReassignFailure) : Value :=
  object [("outcome", VString "failed"); ("event_version", VNumber (PosInt 1)); ("project_id", VString project_id);
          (fst generation, VNumber (PosInt (snd generation))); ("failure", VString (Workers.rf_code f));
          ("restored", VBool (rf_restored f))]%string.

Definition assign_project_credential (cmd : RemoteCommand) (project : option RegisteredProject) : C ProtocolError Value :=
  let payload := command_payload cmd in
  let version := payload_version payload in
  if negb (version =? 1)
  then throw (command_failed ("unsupported project.credential.assign version " +:+ decimal version))
  else
  let! generation := checked (generation_of "assignment_generation" payload) in
  let! requested := checked (match Json.get "credential_id" payload with
    | Some VNull => Ok None
    | Some (VString id) => Ok (Some id)
    | _ => Err (error MalformedFrame "credential_id is required: an id, or null for the shared pool")
    end) in
  let! p := checked (named_project "project.credential.assign" project) in
  let! outcome := attempting (perform_credential_assignment p requested) in
  ret match outcome with
      | Ok reassignment =>
          object [("outcome", VString "applied"); ("event_version", VNumber (PosInt 1));
                  ("project_id", VString (rp_project_id p)); ("assignment_generation", VNumber (PosInt generation));
                  ("changed", VBool match reassignment with ReassignApplied => true | ReassignUnchanged => false end)]%string
      | Err failure => refusal_value (rp_project_id p) ("assignment_generation"%string, generation) failure
      end.

Definition select_project_model (cmd : RemoteCommand) (project : option RegisteredProject) : C ProtocolError Value :=
  let payload := command_payload cmd in
  let version := payload_version payload in
  if negb (version =? 1)
  then throw (command_failed ("unsupported project.model.select version " +:+ decimal version))
  else
  let! generation := checked (generation_of "selection_generation" payload) in
  let! model := checked (context (string_field payload "model") (error MalformedFrame "model is required")) in
  let! p := checked (named_project "project.model.select" project) in
  let! outcome := attempting (perform_model_selection p model) in
  ret match outcome with
      | Ok (selection, provider_id) =>
          object [("outcome", VString "applied"); ("event_version", VNumber (PosInt 1));
                  ("project_id", VString (rp_project_id p)); ("selection_generation", VNumber (PosInt generation));
                  ("provider_id", VString provider_id); ("model", VString model);
                  ("changed", VBool match selection with ModelApplied => true | ModelUnchanged => false end)]%string
      | Err failure => refusal_value (rp_project_id p) ("selection_generation"%string, generation) failure
      end.

Definition change_project_lifecycle (cmd : RemoteCommand) (project : option RegisteredProject) (suspend : bool) :
    C ProtocolError Value :=
  let! p := checked (named_project (command cmd) project) in
  let project_id := rp_project_id p in
  mapping (fun code => command_failed (code +:+ ": the project is busy")) (begin_worker_change project_id) ;;;
  let! result := attempting (manage (fun now =>
    if suspend then suspend_worker project_id now else resume_worker worker_manager (su_rounds su) project_id)) in
  end_worker_change project_id ;;;
  match result with
  | Ok worker => ret (object [("event_version", VNumber (PosInt 1)); ("project_id", VString project_id);
                              ("suspended", VBool suspend); ("worker", VString (lifecycle_wire worker))]%string)
  | Err failure => throw (command_failed (Workers.rf_code failure +:+ ": the worker did not reach the state asked for"))
  end.

(** ** Logins *)

Definition authorize_credential (cmd : RemoteCommand) : C ProtocolError Value :=
  let payload := command_payload cmd in
  let! provider_id := checked (required_str payload "provider_id") in
  let! auth_method := checked (required_str payload "auth_method") in
  let! label := checked (required_str payload "label") in
  let! id := mapping (fun r => command_failed (provider.rf_code r +:+ ": " +:+ rf_message r))
    (on_logins (start_authorization paths node_home (su_release su) (su_runtime_uid su) (tx_fs tx) logins
                  provider_id auth_method label (Some (Protocol.command_id cmd)))) in
  ret (durable_result id None).
Definition reauthorize_credential (cmd : RemoteCommand) : C ProtocolError Value :=
  let! id := checked (required_str (command_payload cmd) "credential_id") in
  mapping (fun r => command_failed (provider.rf_code r +:+ ": " +:+ rf_message r))
    (on_logins (provider.reauthorize_credential paths node_home (su_release su) (su_runtime_uid su) (tx_fs tx) logins
                  id (Some (Protocol.command_id cmd)))) ;;;
  ret (durable_result id None).

Fixpoint end_each {E} (projects : list string) : C E unit :=
  match projects with
  | [] => ret tt
  | p :: rest => end_worker_change p ;;; end_each rest
  end.
(** Every project is blocked, or none stays so; [begun] are those that are. *)
Fixpoint begin_each {E} (begun projects : list string) : C E bool :=
  match projects with
  | [] => ret true
  | p :: rest =>
      let! r := attempting (begin_worker_change p) in
      match r with
      | Err _ => end_each begun ;;; ret false
      | Ok _ => begin_each (begun ++ [p]) rest
      end
  end.

Definition perform_reauthorization (f : FinishedReauthorization) : C (string * bool * nat) nat :=
  let id := fr_credential_id f in
  let! facts := on_logins (credential_facts node_home logins id) in
  match facts with
  | None => throw ("credential_not_found"%string, true, 0%nat)
  | Some (provider_id, auth_method) =>
      let staged := staging_store (fr_staging f) in
      let! n := gets (fun d => disk_of (d_node d)) in
      match accept_staged n staged provider_id id auth_method with
      | Err rejection => throw (rejection_code rejection, true, 0%nat)
      | Ok _ =>
          on_service (service.acquire paths node_home env) ;;;
          let! projects := on_service (service.reading paths node_home env (projects_using_credential id)) in
          let! begun := begin_each [] projects in
          if negb begun then throw ("project_runs_active"%string, true, 0%nat)
          else
          match CredentialHomes.home (provider.credential_root node_home) id with
          | Err _ => end_each projects ;;; throw ("credential_home_unavailable"%string, true, 0%nat)
          | Ok home =>
              let! result := attempting (manage (fun _ =>
                swap_credential_material worker_manager (su_rounds su) projects home staged (su_runtime_uid su))) in
              end_each projects ;;;
              match result with
              | Ok _ => on_site (Host.attempt (Host.on_disk (CredentialSwap.accept home))) ;;; ret (length projects)
              | Err failure => throw (Workers.rf_code failure, rf_restored failure, length projects)
              end
          end
      end
  end.

(** Dropping [finished] removes what it staged. *)
Definition apply_finished_reauthorization {E} : C E unit :=
  let! finished := on_logins (take_finished_reauthorization node_home logins) in
  match finished with
  | None => ret tt
  | Some f =>
      let id := fr_credential_id f in
      let! current := gets (fun d => generation_is_current (fr_generation f) (n_logins (d_node d))) in
      (if negb current then on_logins (settle_reauthorization_failure node_home logins id)
       else
         let! r := attempting (perform_reauthorization f) in
         match r with
         | Ok _ => on_logins (accept_reauthorization node_home logins id)
         | Err _ => on_logins (settle_reauthorization_failure node_home logins id)
         end) ;;;
      on_logins (drop_finished (Some f))
  end.

(** ** Runs *)

Definition serving {A} (m : S ServiceError A) : C ProtocolError A := mapping service_error (on_service m).

(** The note the agent is given with its card. *)
Definition with_note (input card_id : string) : string :=
  input +:+ of_chars [NL; NL] +:+ addressing_note card_id.
Definition malformed_task (reason : MalformedTask) (task_id : option string) : ProtocolError :=
  error MalformedFrame
    (MalformedTask.slug reason +:+ ": " +:+ MalformedTask.message reason
     +:+ match task_id with Some id => " (task " +:+ id +:+ ")" | None => "" end).

(** A card for the run, when a task is attached; without one the run goes on
    unreported. *)
Definition mint (p : RegisteredProject) (attachment : TaskAttachment) (input : string) :
    C ProtocolError (string * option string) :=
  match attachment with
  | Attached b =>
      let! moment := look in
      let! k := now_step in
      let! minted := on_desk (mint_task_card (ar_message_id ar k) p b input (b_now moment) (ar_accepted ar k)) in
      ret match minted with
          | Ok card_id => (with_note input card_id, Some card_id)
          | Err _ => (input, None)
          end
  | _ => ret (input, None)
  end.
(** The binding, once the run has its id; a failure is only logged. *)
Definition bind_card (p : RegisteredProject) (attachment : TaskAttachment) (card : option string) (run : string) :
    C ProtocolError unit :=
  match attachment, card with
  | Attached b, Some card_id =>
      opened_or_internal ;;;
      let! moment := look in
      let! _ := on_desk (record_binding
        {| cb_card_id := card_id; cb_project_id := rp_project_id p; cb_task_id := tb_task_id b; cb_run_id := run;
           cb_generation := tb_generation b |} (b_now moment)) in
      ret tt
  | _, _ => ret tt
  end.
(** The request, with the fields in the order they are read. *)
Definition run_request (payload : Value) (input : string) : Result ProtocolError CreateRun :=
  match match string_field payload "approval_policy" with
        | None => Ok None
        | Some value => match RunApprovalPolicy.parse value with
                        | Ok policy => Ok (Some policy)
                        | Err text => Err (error MalformedFrame text)
                        end
        end with
  | Err e => Err e
  | Ok policy =>
      match attachments.parse (Json.get "attachments" payload) with
      | Err e => Err (error MalformedFrame (tx_attachment tx e))
      | Ok items =>
          Ok {| cr_input := input; cr_session_id := string_field payload "session_id";
                cr_instructions := string_field payload "instructions";
                cr_idempotency_key := string_field payload "idempotency_key"; cr_approval_policy := policy;
                cr_actor := string_field payload "actor"; cr_attachments := items |}
      end
  end.

Definition create_run (payload : Value) (p : RegisteredProject) : C ProtocolError Value :=
  let! input := checked (required_str payload "input") in
  let attachment := from_payload payload in
  match attachment with
  | Malformed reason task_id => throw (malformed_task reason task_id)
  | _ =>
      let! minted := mint p attachment input in
      let (input, card) := (minted : string * option string) in
      let! request := checked (run_request payload input) in
      let! created := serving (service.create_run paths node_home (su_release su) (su_runtime_uid su) (su_uid su) logins
        (su_state_root su) (su_api_key su) (su_limits su) env (tx_node tx) (rp_project_id p) request) in
      let r := created_run created in
      bind_card p attachment card (Registry.run_id r) ;;;
      ret (object [("run_id", VString (Registry.run_id r)); ("status", VString (Registry.status r));
                   ("model", null_or VString (Registry.model r));
                   ("idempotent_replay", VBool (idempotent_replay created))]%string)
  end.

Definition change_approval_policy (payload : Value) (p : RegisteredProject) : C ProtocolError Value :=
  let! run_id := checked (required_str payload "run_id") in
  let! text := checked (required_str payload "policy") in
  let! policy := checked (map_err (error MalformedFrame) (RunApprovalPolicy.parse text)) in
  serving (service.set_run_approval_policy paths node_home env (tx_registry tx) (rp_project_id p) run_id policy
             (string_field payload "actor")).

Definition list_runs (payload : Value) (p : RegisteredProject) : C ProtocolError Value :=
  let limit := default 50 (Json.get "limit" payload ≫= as_i64) in
  let! runs := serving (service.list_runs paths node_home (su_limits su) env (rp_project_id p) limit) in
  ret (object [("runs", VArray (List.map run_value runs))]%string).
Definition get_run (payload : Value) (p : RegisteredProject) : C ProtocolError Value :=
  let! run_id := checked (required_str payload "run_id") in
  let! r := serving (service.get_run paths node_home env (rp_project_id p) run_id) in
  ret (object [("run", run_value r)]%string).
Definition cancel_run (payload : Value) (p : RegisteredProject) : C ProtocolError Value :=
  let! run_id := checked (required_str payload "run_id") in
  serving (service.cancel_run paths node_home (su_uid su) (su_api_key su) env (tx_registry tx) (tx_node tx)
             (rp_project_id p) run_id).
Definition retry_run (payload : Value) (p : RegisteredProject) : C ProtocolError Value :=
  let! run_id := checked (required_str payload "run_id") in
  let! created := serving (service.retry_run paths node_home (su_release su) (su_runtime_uid su) (su_uid su) logins
    (su_api_key su) (su_limits su) env (tx_node tx) (rp_project_id p) run_id) in
  ret (object [("run_id", VString (Registry.run_id (created_run created)));
               ("retry_of_run_id", null_or VString (retry_of_run_id (created_run created)))]%string).
Definition resolve_approval (payload : Value) (p : RegisteredProject) : C ProtocolError Value :=
  let! run_id := checked (required_str payload "run_id") in
  let! choice := checked (required_str payload "choice") in
  serving (service.resolve_approval paths node_home (su_uid su) (su_api_key su) env (tx_registry tx) (tx_node tx)
             (rp_project_id p) run_id choice).

(** ** Events *)

(** A call of the inbox and outbox, on the connection that was opened. *)
Definition on_remote {A} (m : Z -> M RemoteError Db A) : C ProtocolError A :=
  let! b := look in
  fun d => match m (b_now b) (n_db (d_node d)) with
           | (Ok a, db) => (Ok a, with_node (on_db (fun _ => db) (d_node d)) d)
           | (Err e, db) => (Err (Failed (error Protocol.Internal (tx_remote tx e))), with_node (on_db (fun _ => db) (d_node d)) d)
           end.
Definition subscribe (payload : Value) (p : RegisteredProject) : C ProtocolError Value :=
  let! run_id := checked (required_str payload "run_id") in
  let from_seq := default 0 (Json.get "from_seq" payload ≫= as_i64) in
  serving (service.get_run paths node_home env (rp_project_id p) run_id) ;;;
  opened_or_internal ;;;
  let! s := on_remote (fun now => upsert_subscription (rp_project_id p) run_id from_seq now) in
  ret (object [("subscribed", VBool true); ("run_id", VString (es_run_id s)); ("acked_seq", json_i64 (es_acked_seq s))]%string).
Definition unsubscribe (payload : Value) : C ProtocolError Value :=
  let! run_id := checked (required_str payload "run_id") in
  opened_or_internal ;;;
  on_remote (fun _ => remove_subscription run_id) ;;;
  ret (object [("unsubscribed", VBool true); ("run_id", VString run_id)]%string).

(** ** Credentials and updates *)

(** A provider call whose failure reads as [code]. *)
Definition provider_call {A} (code : string) (m : P ProviderError A) : C ProtocolError A :=
  mapping (fun e => command_failed (code +:+ ": " +:+ tx_provider tx e)) (on_logins m).
Definition revoke_text (e : ProviderError + string) : string :=
  match e with inl e => tx_provider tx e | inr text => text end.
Definition list_credentials : C ProtocolError Value :=
  let! l := provider_call "credentials_unavailable"
    (provider.list_credentials (ar_hash ar) paths node_home (su_runtime_uid su) logins) in
  ret (object [("credentials", VArray (List.map summary_value l))]%string).
Definition cancel_credential (payload : Value) : C ProtocolError Value :=
  let! id := checked (required_str payload "credential_id") in
  provider_call "credential_cancel_failed" (provider.cancel_credential node_home logins id) ;;;
  ret (object [("cancelled", VBool true)]%string).
Definition rename_credential (payload : Value) : C ProtocolError Value :=
  let! id := checked (required_str payload "credential_id") in
  let! label := checked (required_str payload "label") in
  provider_call "credential_rename_failed" (provider.rename_credential node_home logins id label) ;;;
  ret (object [("renamed", VBool true)]%string).
Definition revoke_credential (payload : Value) : C ProtocolError Value :=
  let! id := checked (required_str payload "credential_id") in
  mapping (fun e => command_failed ("credential_revoke_failed: " +:+ revoke_text e))
    (on_service (service.credential_revoke paths node_home (su_runtime_uid su) logins env id)) ;;;
  ret (object [("revoked", VBool true)]%string).

Definition state_value (st : ProviderState.State) : Value := object [("state", VString (ProviderState.as_str st))]%string.
Definition provider_status : C ProtocolError Value :=
  let! st := on_logins (provider_state paths node_home logins) in ret (state_value st).
(** [authorize] never answers with a code. *)
Definition provider_authorize : C ProtocolError Value := provider_call "provider_authorization_failed" authorize.
Definition provider_cancel : C ProtocolError Value :=
  let! st := on_logins (provider.cancel paths node_home logins) in ret (state_value st).

Definition UPDATE_NOTE : string :=
  "the update runs in its own unit and restarts this Node; its result is the version this Node reports next".
Definition node_update (payload : Value) : C ProtocolError Value :=
  let! version := checked (context (field_str "version" payload) (error MalformedFrame "version is required")) in
  let! b := look in
  let! r := mapping (fun e => command_failed ("update_refused: " +:+ tx_update tx e))
    (on_update (updaterequest.request (su_state_root su) version (field_str "requested_by" payload)
                  (field_str "operation_id" payload) (b_now b))) in
  ret (object [("accepted", VBool true); ("version", VString (updaterequest.version r)); ("note", VString UPDATE_NOTE)]%string).

(** ** The dispatcher *)

Definition list_projects : C ProtocolError Value :=
  opened_or_internal ;;;
  look ;;;
  let! r := gets (fun d => Inventory.list_projects (n_db (d_node d))) in
  let! ps := checked (map_err (fun e => error Protocol.Internal (tx_inventory tx e)) r) in
  ret (object [("projects", VArray (List.map remote_view ps))]%string).
Definition capabilities : C ProtocolError Value :=
  let! k := now_step in
  let! n := gets (fun d => disk_of (d_node d)) in
  let! b := look in
  ret (capabilities_value su (ar_channel ar k) (snapshot n (hermes_binary on_this_host) (su_release su) (b_now b))).
Definition node_drain : C ProtocolError Value :=
  modify (fun d => with_node (begin_drain (d_node d)) d) ;;;
  look ;;;
  let! active := gets (fun d => size (n_workers (d_node d))) in
  ret (object [("draining", VBool true); ("active_runs", VNumber (PosInt (Z.of_nat active)))]%string).

(** The project a command names, as this node has it. *)
Definition resolve (project_id : option string) : C ProtocolError (option RegisteredProject) :=
  match project_id with
  | None => ret None
  | Some id =>
      opened_or_internal ;;;
      look ;;;
      let! r := gets (fun d => resolve_remote_project id (n_db (d_node d))) in
      let! found := checked (map_err (fun e => error Protocol.Internal (tx_inventory tx e)) r) in
      match found with
      | Some p => ret (Some p)
      | None => throw (error ProjectNotRegistered ("project " +:+ debug_str id +:+ " is not registered on this Node"))
      end
  end.

Definition execute (cmd : RemoteCommand) : C ProtocolError Value :=
  let name := command cmd in
  let payload := command_payload cmd in
  if (name =? "project.provision")%string then provision_project cmd
  else
  let! project := resolve (command_project_id cmd) in
  let within (handler : RegisteredProject -> C ProtocolError Value) := let! p := expected project in handler p in
  if (name =? "capabilities.get")%string then capabilities
  else if (name =? "project.model.select")%string then select_project_model cmd project
  else if (name =? "project.suspend")%string then change_project_lifecycle cmd project true
  else if (name =? "project.resume")%string then change_project_lifecycle cmd project false
  else if (name =? "project.credential.assign")%string then assign_project_credential cmd project
  else if (name =? "provider.status")%string then provider_status
  else if (name =? "provider.authorize")%string then provider_authorize
  else if (name =? "provider.cancel")%string then provider_cancel
  else if (name =? "credentials.list")%string then list_credentials
  else if (name =? "credentials.cancel")%string then cancel_credential payload
  else if (name =? "credentials.rename")%string then rename_credential payload
  else if (name =? "credentials.revoke")%string then revoke_credential payload
  else if (name =? "node.update")%string then node_update payload
  else if (name =? "projects.list")%string then list_projects
  else if (name =? "runs.create")%string then within (create_run payload)
  else if (name =? "runs.approval_policy")%string then within (change_approval_policy payload)
  else if (name =? "runs.list")%string then within (list_runs payload)
  else if (name =? "runs.get")%string then within (get_run payload)
  else if (name =? "runs.cancel")%string then within (cancel_run payload)
  else if (name =? "runs.retry")%string then within (retry_run payload)
  else if (name =? "approvals.resolve")%string then within (resolve_approval payload)
  else if (name =? "events.subscribe")%string then within (subscribe payload)
  else if (name =? "events.unsubscribe")%string then unsubscribe payload
  else if (name =? "node.drain")%string then node_drain
  else throw (error UnknownCommand ("command " +:+ debug_str name +:+ " is not implemented")).

Definition execute_with_delivery (cmd : RemoteCommand) : C ProtocolError Value :=
  if (command cmd =? "credentials.authorize")%string then authorize_credential cmd
  else if (command cmd =? "credentials.reauthorize")%string then reauthorize_credential cmd
  else execute cmd.
End Commands.
End control.
