(* ===== verification/CommandFacts.v ===== *)
(** * CommandFacts: what commands do to the registry, step by step.

    A relation [R] on registries that every call of the registry respects is
    respected by every operation of the worker manager, of provisioning, of the
    service and of the command dispatcher, whatever else happens in between. *)
From Stdlib Require Import Lia.
From stdpp Require Import gmap relations.
From S2P Require Import Prelude Text Json RunState Redact Schema Registry RegistryFacts Evolution Identifiers.
From S2P Require Import Remote RemoteFacts Inventory InventoryFacts System Protocol Sse RunLock Attachments ChatHistory Approvals.
From S2P Require Import Runner RunnerFacts Reconcile Policy Fs CredentialSwap Credentials CredentialHomes Host Profiles.
From S2P Require Import DeviceCode Provider ActiveRuns Service ServiceFacts Workers Workdesk UpdateRequest Provisioning.
From S2P Require Import ProvisioningTheorems Commands.
Import provider service control.

(** What a connection other than the service's own may do to [id]: anything but
    create runs or suspend other projects. *)
Definition worker_call (may : string -> Prop) (c : Call) : Prop :=
  well_typed c /\ creates c = false /\ forall q, suspends c = Some q -> may q.

(** The row [claim] writes. *)
Definition claimed `{SerdeJson} (id : string) (port : Z) (db : Db) : Db :=
  on_projects (update_where (claimable id (endpoint_of port) db) (endpoint_row (Some (endpoint_of port)))) db.

(** ** On the host *)

Section Site.
Context `{SerdeJson} `{Process} `{Supervisor} `{Git}.
Context (R : Db -> Db -> Prop) `{!PreOrder R} (may : string -> Prop).
Context (Hcall : forall c db, worker_call may c -> R db (snd (System.perform c db))).
Context (Hclaim : forall id port db, 0 <= port <= 65535 -> R db (claimed id port db)).
Context (Hsup : forall h db, R db (fst (meanwhile h db))).

Definition Rs (s s' : Site) : Prop := R (s_db s) (s_db s').
#[export] Instance Rs_preorder : PreOrder Rs.
Proof. split; unfold Rs; [intros s; reflexivity|]. intros a b c Hab Hbc. by etransitivity. Qed.

Lemma rs_same {E A} (m : Prog E A) : moves same_db m -> moves Rs m.
Proof. intros Hm s. specialize (Hm s). unfold same_db in Hm. unfold Rs. by rewrite Hm. Qed.
Lemma rs_registry {A} (m : M InvError Db A) : (forall db, R db (snd (m db))) -> moves Rs (on_registry m).
Proof.
  intros Hm s. unfold on_registry, Rs. pose proof (Hsup (s_host s) (s_db s)) as Hs.
  destruct (meanwhile _ _) as [db h]. cbn [fst] in Hs. specialize (Hm db). destruct (m db) as [r db']. cbn in *. by etransitivity.
Qed.
Lemma rs_call {A} (m : M InvError Db A) c :
  worker_call may c -> (forall db, snd (m db) = snd (System.perform c db)) -> moves Rs (on_registry m).
Proof. intros Hc Hm. apply rs_registry. intros db. rewrite Hm. by apply Hcall. Qed.
Lemma rs_query {A} (f : Db -> Result InvError A) : moves Rs (on_registry (query f)).
Proof. apply rs_registry. intros db. unfold query. by destruct (f db). Qed.
Lemma rs_read {A} (f : Db -> Result NodeError A) : moves Rs (Workers.read_registry f).
Proof.
  intros s. unfold Workers.read_registry, Rs. pose proof (Hsup (s_host s) (s_db s)) as Hs.
  destruct (meanwhile _ _) as [db h]. by destruct (f db).
Qed.
Lemma rs_state id st f : moves Rs (on_registry (set_profile_state id st f)).
Proof. by apply (rs_call _ (SetProfileState id st f)). Qed.
Lemma rs_runtime id home profile endpoint key st : moves Rs (on_registry (set_profile_runtime id home profile endpoint key st)).
Proof. by apply (rs_call _ (SetProfileRuntime id home profile endpoint key st)). Qed.
Lemma rs_credential id c : moves Rs (on_registry (set_project_credential id c)).
Proof. by apply (rs_call _ (SetCredential id c)). Qed.
Lemma rs_model id m : moves Rs (on_registry (set_project_model id m)).
Proof. by apply (rs_call _ (SetModel id m)). Qed.
Lemma rs_release id : moves Rs (on_registry (release_endpoint id)).
Proof. by apply (rs_call _ (ReleaseEndpoint id)). Qed.
Lemma rs_register fs now id w : moves Rs (on_registry (register_project fs now id w None None None ManagedContainer)).
Proof. by apply (rs_call _ (RegisterProject fs now id w None None None ManagedContainer)). Qed.
Lemma rs_suspend id t : may id -> moves Rs (on_registry (set_project_suspended id t)).
Proof. intros Hid. apply (rs_call _ (SetSuspended id t)); [|done]. split_and!; [done..|]. by intros q [= <-]. Qed.
Lemma rs_reserve elsewhere id first last reserved occupied :
  0 <= first -> last <= 65535 -> (forall k db, R db (elsewhere k db)) ->
  moves Rs (on_registry (reserve_endpoint elsewhere id first last reserved occupied)).
Proof.
  intros Hf Hl He. apply rs_registry. unfold reserve_endpoint.
  assert (forall port, In port (port_range first last) -> 0 <= port <= 65535) as Hr.
  { intros port Hp%In_port_range. lia. }
  induction (Nat.max _ 1) as [|n IH]; intros db; [cbn; reflexivity|]. cbn [reserve_attempts]. unfold bind at 1, gets at 1.
  destruct (select_one _ _) as [p|]; [|cbn; reflexivity]. destruct (p_runtime_endpoint p); [cbn; reflexivity|].
  unfold bind at 1, gets at 1. destruct (List.find _ _) as [port|] eqn:Ef; [|cbn; reflexivity].
  apply find_some in Ef as [Hin _]. unfold bind at 1, modify at 1. unfold bind at 1. rewrite claim_state.
  etransitivity; [apply He|]. etransitivity; [apply (Hclaim id port); auto|]. fold (claimed id port (elsewhere n db)).
  destruct (Nat.eqb _ 1); [cbn; reflexivity|]. apply IH.
Qed.

(** *** The worker manager and provisioning *)

Context (wm : WorkerManager) (rounds : nat).
Hint Resolve rs_query rs_read rs_state rs_runtime rs_credential rs_model rs_release rs_register : moves.
Hint Extern 1 (moves Rs _) => apply rs_same; solve [auto with moves] : moves.
Hint Resolve same_db_disk same_db_ask same_db_active same_db_health same_db_draw same_db_pause same_db_clock
  same_db_key same_db_fail same_db_wait_healthy same_db_reconcile : moves.
Lemma same_db_pid u : moves same_db (ask_pid u).
Proof. intros s. unfold ask_pid, same_db. by destruct (main_pid _ _). Qed.
Lemma same_db_gets {E A} (f : Site -> A) : moves same_db (@gets (Outcome E) Site A f).
Proof. by intros s. Qed.
Hint Resolve same_db_pid same_db_gets : moves.
Ltac site_moves :=
  repeat (cbv zeta; match goal with
    | |- moves _ (bind _ _) => apply moves_bind; [apply _| |intros ?]
    | |- moves _ (Host.mapping _ _) => apply hmoves_mapping
    | |- moves _ (coded _ _) => apply hmoves_mapping
    | |- moves _ (Workers.infallible _) => apply hmoves_mapping
    | |- moves _ (failing _ _ _) => apply hmoves_mapping
    | |- moves _ (attempt _) => apply hmoves_attempt
    | |- moves _ (ignoring _) => unfold ignoring
    | |- moves _ (succeeds _) => unfold succeeds
    | |- moves _ (let (_, _) := ?x in _) => destruct x
    | |- moves _ (match ?x with _ => _ end) => destruct x
    | |- moves _ _ => solve [auto with moves typeclass_instances]
    end).

Lemma rs_ensure_running id : moves Rs (ensure_running wm rounds id).
Proof. unfold ensure_running. site_moves. Qed.
Lemma rs_project id : moves Rs (project_or_refusal id).
Proof. unfold project_or_refusal. site_moves. Qed.
Lemma rs_binding id : moves Rs (ready_binding wm id).
Proof. unfold ready_binding. site_moves. Qed.
Lemma rs_new_process u p text : moves Rs (new_process u p text).
Proof. unfold new_process. site_moves. Qed.
Lemma rs_pid_if active u : moves Rs (pid_if active u).
Proof. unfold pid_if. site_moves. Qed.
Hint Resolve rs_ensure_running rs_project rs_binding rs_new_process rs_pid_if : moves.
Lemma rs_suspend_worker id now : may id -> moves Rs (suspend_worker id now).
Proof. intros Hid. pose proof (rs_suspend id (Some now) Hid). unfold suspend_worker. site_moves. Qed.
Lemma rs_resume_worker id : may id -> moves Rs (resume_worker wm rounds id).
Proof. intros Hid. pose proof (rs_suspend id None Hid). unfold resume_worker. site_moves. Qed.
Lemma rs_start_and_check b key p f o : moves Rs (start_and_check wm rounds b key p f o).
Proof. unfold start_and_check. site_moves. Qed.
Hint Resolve rs_start_and_check : moves.
Lemma rs_transition {A} (applied : A) switch restore :
  moves Rs switch -> moves Rs restore -> moves Rs (transition applied switch restore).
Proof. intros ? ?. unfold transition. site_moves. Qed.
Lemma rs_reassign id requested : moves Rs (reassign_credential wm rounds id requested).
Proof.
  unfold reassign_credential. site_moves. apply rs_transition.
  - unfold switch_credential, apply_links. site_moves.
  - unfold restore_credential. site_moves.
Qed.
Lemma rs_select id model : moves Rs (select_model wm rounds id model).
Proof.
  unfold select_model. site_moves. apply rs_transition.
  - unfold switch_model. site_moves.
  - unfold restore_model. site_moves.
Qed.
Lemma rs_swap ids home staged uid : moves Rs (swap_credential_material wm rounds ids home staged uid).
Proof.
  assert (moves Rs (swap_targets wm ids)) by (induction ids as [|id ids IH]; cbn [swap_targets]; site_moves).
  assert (forall ts, moves Rs (stop_targets ts)) by (induction ts as [|t ts IH]; cbn [stop_targets]; site_moves).
  assert (forall ts, moves Rs (start_and_prove wm rounds ts)) by (induction ts as [|t ts IH]; cbn [start_and_prove]; site_moves).
  assert (forall ts, moves Rs (restart_all wm rounds ts)) by (induction ts as [|t ts IH]; cbn [restart_all]; site_moves).
  assert (forall ts, moves Rs (stop_quietly ts)) by (induction ts as [|t ts IH]; cbn [stop_quietly]; site_moves).
  unfold swap_credential_material, prove_or_roll_back. site_moves.
Qed.

Context (describe : NodeError -> string) (fs : FileSystem) (pid : Z) (elsewhere : nat -> Db -> Db) (occupied : Z -> bool).
Context (random : list Z) (now : Z) (Helse : forall k db, R db (elsewhere k db)).
Lemma rs_profile s id :
  0 <= ps_first_port s -> ps_last_port s <= 65535 ->
  moves Rs (provision_project_profile s fs elsewhere occupied pid random id).
Proof.
  intros Hf Hl. pose proof (rs_reserve elsewhere id (ps_first_port s) (ps_last_port s) (ps_reserved_ports s) occupied Hf Hl Helse).
  unfold provision_project_profile, construct_home, abandon. site_moves.
Qed.
Lemma rs_prepare s id mode url branch : moves Rs (prepare_workspace describe fs pid s id mode url branch).
Proof.
  apply rs_same. assert (forall args dir, moves same_db (run_git args dir)).
  { intros args dir st. unfold run_git, same_db. destruct (git _ _ _) as [[|] ?]; done. }
  assert (forall E path, moves same_db (@discard _ E path)).
  { intros E path st. unfold discard. pose proof (same_db_disk (ignore_errors (remove_dir_all path)) st) as Hd.
    by destruct (Host.on_disk _ st) as [[|[]]]. }
  unfold prepare_workspace, build_workspace, canonical. site_moves.
Qed.
Hint Resolve rs_prepare : moves.
Lemma rs_provision w s r :
  0 <= ps_first_port s -> ps_last_port s <= 65535 ->
  moves Rs (Provisioning.provision_project describe fs pid wm rounds elsewhere occupied random now w s r).
Proof.
  intros Hf Hl. pose proof (rs_profile s (pr_project_id r) Hf Hl).
  unfold Provisioning.provision_project, commit_registration. site_moves.
Qed.
End Site.

(** ** In the service *)

Definition typed_action (a : Action) : Prop :=
  match a with Elsewhere c | DuringChange _ c => well_typed c | _ => True end.

Section Service.
Context `{SerdeJson} `{Process} `{RegistryCodec} `{StoreCodec} `{Backend}.
Context (paths : ProviderPaths) (node_home release : string) (runtime_uid uid : Z) (provider_env : nat -> Moment).
Context (state_root node_api_key : string) (limits : Limits).
Context (env : nat -> Beside) (describe : RegistryError -> string) (describe_node : NodeError -> string).
Context (R : Db -> Db -> Prop) `{!PreOrder R}.
Context (Hcall : forall c db, well_typed c -> R db (snd (System.perform c db))).
Context (Henv : forall k a, In a (b_meanwhile (env k)) -> typed_action a).

Definition Rn (n n' : NodeState) : Prop := R (n_db n) (n_db n').
#[export] Instance Rn_preorder : PreOrder Rn.
Proof. split; unfold Rn; [intros n; reflexivity|]. intros a b c Hab Hbc. by etransitivity. Qed.

Lemma rn_action a n : typed_action a -> Rn n (perform_action paths node_home a n).
Proof.
  unfold Rn. destruct a as [c|p c|p|p|p checked h now stamp req| |id|id]; cbn [perform_action typed_action]; intros Ht.
  - by apply Hcall.
  - destruct (is_changing p n); [by apply Hcall|reflexivity].
  - destruct (_ || _); cbn; reflexivity.
  - cbn. reflexivity.
  - destruct (guard_now _ _ _ _ _); [|reflexivity]. by apply (Hcall (System.CreateRun h now stamp req)).
  - cbn. reflexivity.
  - cbn. reflexivity.
  - cbn. reflexivity.
Qed.
Lemma rn_tick {E} allowed : moves Rn (@service.tick _ paths node_home env E allowed).
Proof.
  intros n. unfold service.tick. cbn [snd].
  assert (forall a, In a (List.filter allowed (b_meanwhile (env (n_step n)))) -> typed_action a) as Hall.
  { intros a [Hin _]%filter_In. by eapply Henv. }
  revert Hall. generalize (List.filter allowed (b_meanwhile (env (n_step n)))) as l. intros l. generalize n.
  induction l as [|a l IH]; intros n1 Hall; [cbn; unfold Rn; cbn; reflexivity|]. cbn [List.fold_left].
  etransitivity; [apply (rn_action a); apply Hall; by left|]. apply IH. intros a' Ha'. apply Hall. by right.
Qed.
Lemma rn_under {A} (m : Beside -> M RegistryError Db A) :
  (forall b, exists c, well_typed c /\ forall db, snd (m b db) = snd (System.perform c db)) ->
  moves Rn (under paths node_home env m).
Proof.
  intros Hm. unfold under. apply moves_bind; [apply _|apply rn_tick|]. intros b n. destruct (Hm b) as (c & Ht & Hc).
  specialize (Hc (n_db n)). unfold Rn. pose proof (Hcall c (n_db n) Ht) as HR. rewrite <- Hc in HR.
  by destruct (m b (n_db n)) as [[|] db].
Qed.
Lemma rn_local {E} (f : NodeState -> NodeState) : (forall n, n_db (f n) = n_db n) -> moves Rn (@modify (Outcome E) NodeState f).
Proof. intros Hf n. unfold Rn. cbn. by rewrite Hf. Qed.
Lemma rn_provider {E A} (m : P E A) : moves Rn (on_provider m).
Proof. intros n. unfold on_provider, Rn. by destruct (m (n_logins n)). Qed.

Lemma call_append id ev u t : exists c, well_typed c /\ forall db, snd (append_event id ev u t db) = snd (System.perform c db).
Proof. by exists (AppendEvent id ev u t). Qed.
Lemma call_update id u now : exists c, well_typed c /\ forall db, snd (update_run id u now db) = snd (System.perform c db).
Proof. by exists (UpdateRun id u now). Qed.
Lemma call_resolution id seq r :
  exists c, well_typed c /\ forall db, snd (record_approval_resolution id seq r db) = snd (System.perform c db).
Proof. by exists (ApprovalResolution id seq r). Qed.
Lemma call_decision id seq d now :
  exists c, well_typed c /\ forall db, snd (record_approval_decision id seq d now db) = snd (System.perform c db).
Proof. by exists (ApprovalDecision id seq d now). Qed.
Lemma call_policy id p actor now :
  exists c, well_typed c /\ forall db, snd (Registry.set_run_approval_policy id p actor now db) = snd (System.perform c db).
Proof. by exists (SetApprovalPolicy id p actor now). Qed.
Lemma call_create h now stamp req :
  exists c, well_typed c /\ forall db, snd (Registry.create_run h now stamp req db) = snd (System.perform c db).
Proof. by exists (System.CreateRun h now stamp req). Qed.

Hint Resolve rn_tick rn_provider call_append call_update call_resolution call_decision call_policy call_create : moves.
Hint Extern 1 (moves Rn (modify _)) => apply rn_local; done : moves.
Hint Extern 1 (moves Rn (under _ _ _ _)) => apply rn_under; intros ?; auto with moves : moves.
Lemma rn_reading {E A} (f : Db -> A) : moves Rn (@reading _ paths node_home env E A f).
Proof. unfold reading. service_moves. Qed.
Lemma rn_acquire {E} : moves Rn (@acquire _ paths node_home env E).
Proof. unfold acquire. service_moves. Qed.
Hint Resolve rn_reading rn_acquire : moves.
Lemma rn_read_project p : moves Rn (read_project paths node_home env p).
Proof. unfold read_project. service_moves. Qed.
Lemma rn_load_owned p r : moves Rn (load_owned paths node_home env p r).
Proof. unfold load_owned. service_moves. Qed.
Lemma rn_runtime allowed p : moves Rn (project_runtime paths node_home uid node_api_key env describe_node allowed p).
Proof. unfold project_runtime. service_moves. Qed.
Hint Resolve rn_read_project rn_load_owned rn_runtime : moves.
Lemma rn_client p : moves Rn (client_for paths node_home uid node_api_key env describe describe_node p).
Proof. unfold client_for. service_moves. Qed.
Lemma rn_notify {E} id : moves Rn (@notify E id).
Proof. unfold notify. service_moves. Qed.
Lemma rn_supervise {E} p r :
  moves Rn (@supervise _ _ _ _ paths node_home uid provider_env node_api_key limits env describe_node E p r).
Proof. unfold supervise. service_moves. Qed.
Lemma rn_append_note id t v : moves Rn (service.append_note paths node_home env id t v).
Proof. unfold service.append_note. service_moves. Qed.
Lemma rn_usable p : moves Rn (credential_usable_for_run paths node_home release runtime_uid provider_env env p).
Proof. unfold credential_usable_for_run. service_moves. Qed.
Lemma rn_guard p c : moves Rn (credential_run_guard paths node_home env p c).
Proof. unfold credential_run_guard. service_moves. Qed.
Hint Resolve rn_client rn_notify rn_supervise rn_append_note rn_usable rn_guard : moves.
Lemma rn_create p request :
  moves Rn (service.create_run paths node_home release runtime_uid uid provider_env state_root node_api_key limits env
              describe_node p request).
Proof. unfold service.create_run. service_moves. Qed.
Lemma rn_list p l : moves Rn (service.list_runs paths node_home limits env p l).
Proof. unfold service.list_runs. service_moves. Qed.
Lemma rn_get p r : moves Rn (service.get_run paths node_home env p r).
Proof. unfold service.get_run. service_moves. Qed.
Lemma rn_policy p r policy actor : moves Rn (service.set_run_approval_policy paths node_home env describe p r policy actor).
Proof.
  unfold service.set_run_approval_policy. service_moves; intros n; unfold Rn;
    match goal with
    | |- context [Registry.set_run_approval_policy ?id ?p ?who ?t (n_db n)] =>
        pose proof (Hcall (SetApprovalPolicy id p who t) (n_db n) I) as HR
    | |- context [append_event ?id ?e ?u ?t (n_db n)] => pose proof (Hcall (AppendEvent id e u t) (n_db n) I) as HR
    end; cbn [System.perform outcome snd] in HR.
  - by destruct (Registry.set_run_approval_policy _ _ _ _ (n_db n)) as [[]].
  - by destruct (append_event _ _ _ _ (n_db n)) as [[]].
Qed.
Lemma rn_resolve p r choice :
  moves Rn (service.resolve_approval paths node_home uid node_api_key env describe describe_node p r choice).
Proof. unfold service.resolve_approval. service_moves. Qed.
Lemma rn_cancel p r : moves Rn (service.cancel_run paths node_home uid node_api_key env describe describe_node p r).
Proof. unfold service.cancel_run. service_moves. Qed.
Lemma rn_retry p r :
  moves Rn (service.retry_run paths node_home release runtime_uid uid provider_env node_api_key limits env describe_node p r).
Proof. unfold service.retry_run. service_moves. Qed.
Lemma rn_begin p : moves Rn (service.begin_credential_change paths node_home env p).
Proof. unfold service.begin_credential_change. service_moves. Qed.
Lemma rn_end {E} p : moves Rn (@service.end_credential_change E p).
Proof. unfold service.end_credential_change. service_moves. Qed.
Lemma rn_revoke id : moves Rn (service.credential_revoke paths node_home runtime_uid provider_env env id).
Proof. unfold service.credential_revoke. service_moves. Qed.
End Service.

(** ** In the dispatcher *)

Section Combinators.
Context `{Supervisor} (R : Daemon -> Daemon -> Prop) `{!PreOrder R}.
Lemma cmoves_throw {E A} (e : E) : moves R (@control.throw _ E A e).
Proof. intros s. cbn. reflexivity. Qed.
Lemma cmoves_mapping {E F A} (f : E -> F) (m : C E A) : moves R m -> moves R (control.mapping f m).
Proof. intros Hm s. specialize (Hm s). unfold control.mapping. by destruct (m s) as [[|[]]]. Qed.
Lemma cmoves_attempting {E F A} (m : C E A) : moves R m -> moves R (@control.attempting _ E F A m).
Proof. intros Hm s. specialize (Hm s). unfold control.attempting. by destruct (m s) as [[|[]]]. Qed.
Lemma cmoves_checked {E A} (r : Result E A) : moves R (control.checked r).
Proof. destruct r; [apply moves_ret, _|apply cmoves_throw]. Qed.
Lemma cmoves_expected {E A} (o : option A) : moves R (@expected _ E A o).
Proof. destruct o; intros s; cbn; reflexivity. Qed.
End Combinators.
#[export] Hint Resolve cmoves_throw cmoves_checked cmoves_expected : moves.
Ltac command_moves :=
  repeat (cbv zeta; match goal with
    | |- moves _ (bind _ _) => apply moves_bind; [apply _| |intros ?]
    | |- moves _ (control.mapping _ _) => apply cmoves_mapping
    | |- moves _ (control.attempting _) => apply cmoves_attempting
    | |- moves _ (let (_, _) := ?x in _) => destruct x
    | |- moves _ (match ?x with _ => _ end) => destruct x
    | |- moves _ _ => solve [auto with moves typeclass_instances]
    end).

Section Commands.
Context `{SerdeJson} `{Process} `{RegistryCodec} `{StoreCodec} `{Backend} `{Supervisor} `{Git} `{Starter}.
Context (su : Setup) (ar : Around) (tx : Texts).
Context (R : Db -> Db -> Prop) `{!PreOrder R}.
Context (Hcall : forall c db, well_typed c -> R db (snd (System.perform c db))).
Context (Hclaim : forall id port db, 0 <= port <= 65535 -> R db (claimed id port db)).
Context (Henv : forall k a, In a (b_meanwhile (ar_env ar k)) -> typed_action a).
Context (Hsup : forall h db, R db (fst (meanwhile h db))) (Helse : forall k j db, R db (ar_elsewhere ar k j db)).
Context (Hports : 0 <= cfg_hermes_profile_port_start (su_config su) /\ cfg_hermes_profile_port_end (su_config su) <= 65535).

Definition Rd (d d' : Daemon) : Prop := R (n_db (d_node d)) (n_db (d_node d')).
#[export] Instance Rd_preorder : PreOrder Rd.
Proof. split; unfold Rd; [intros d; reflexivity|]. intros a b c Hab Hbc. by etransitivity. Qed.

Lemma rd_service {E A} (m : S E A) : moves (Rn R) m -> moves Rd (on_service m).
Proof. intros Hm d. specialize (Hm (d_node d)). unfold on_service, Rd. by destruct (m (d_node d)). Qed.
Lemma rd_logins {E A} (m : P E A) : moves Rd (on_logins m).
Proof. apply rd_service, rn_provider, _. Qed.
Lemma rd_site {E A} (m : Prog E A) : moves (Rs R) m -> moves Rd (on_site m).
Proof. intros Hm d. specialize (Hm (site d)). unfold on_site, Rd. by destruct (m (site d)). Qed.
Lemma rd_desk {E A} (m : M DeskError Shared A) :
  (forall sh, sh_db (snd (m sh)) = sh_db sh) -> moves Rd (@on_desk _ E A m).
Proof.
  intros Hm d. unfold on_desk, Rd. set (sh := Build_Shared _ _ _). specialize (Hm sh).
  destruct (m sh) as [r sh']. cbn in *. by rewrite Hm.
Qed.
Lemma rd_update {A} (m : M UpdateError Disk A) : moves Rd (on_update m).
Proof. intros d. unfold on_update, Rd. by destruct (m _) as [[|[]]]. Qed.
Lemma rd_gets {E A} (f : Daemon -> A) : moves Rd (@gets (Outcome E) Daemon A f).
Proof. intros d. unfold Rd. cbn. reflexivity. Qed.
Lemma rd_look {E} : moves Rd (@control.look _ _ su ar E).
Proof. unfold control.look. apply rd_service, rn_tick; [done..|apply _|done|done]. Qed.

Hint Resolve rd_logins rd_update rd_gets rd_look : moves.
Lemma rd_step {E} : moves Rd (@now_step _ E).
Proof. apply rd_gets. Qed.
Hint Resolve rd_step : moves.
Lemma rd_open : moves Rd (open_registry su ar).
Proof.
  unfold open_registry. command_moves. intros d. unfold Rd. cbn. by apply (Hcall (ScrubHistory true)).
Qed.
Hint Resolve rd_open : moves.
Lemma rd_opened : moves Rd (opened_or_internal su ar).
Proof. unfold opened_or_internal. command_moves. Qed.
Lemma rd_serving {A} (m : S ServiceError A) : moves (Rn R) m -> moves Rd (serving m).
Proof. intros Hm. unfold serving. apply cmoves_mapping, rd_service, Hm. Qed.
Lemma rd_begin p : moves Rd (control.begin_credential_change su ar p).
Proof. unfold control.begin_credential_change. by apply rd_service, rn_begin; [apply _|..]. Qed.
Lemma rd_begin_worker p : moves Rd (control.begin_worker_change su ar p).
Proof. apply rd_begin. Qed.
Lemma rd_end {E} p : moves Rd (@control.end_credential_change _ E p).
Proof. apply rd_service, rn_end, _. Qed.
Lemma rd_end_worker {E} p : moves Rd (@control.end_worker_change _ E p).
Proof. apply rd_end. Qed.
Lemma rd_usable id : moves Rd (credential_usable su ar id).
Proof. apply rd_logins. Qed.
Hint Resolve rd_opened rd_serving rd_begin rd_begin_worker rd_end rd_end_worker rd_usable : moves.

Definition anything (c : Call) (db : Db) : worker_call (fun _ => True) c -> R db (snd (System.perform c db)) :=
  fun Hc => Hcall c db (proj1 Hc).
Lemma rd_manage {A} (m : Z -> Prog ReassignFailure A) :
  (forall now, moves (Rs R) (m now)) -> moves Rd (manage su ar m).
Proof.
  intros Hm. unfold manage. command_moves. by apply rd_site.
Qed.
Lemma rd_provision cmd : moves Rd (control.provision_project su ar tx cmd).
Proof.
  destruct Hports as [Hf Hl]. unfold control.provision_project. command_moves.
  apply rd_site, (rs_provision R (fun _ => True)); auto using anything.
Qed.
Lemma rd_assign cmd p : moves Rd (assign_project_credential su ar cmd p).
Proof.
  unfold assign_project_credential, perform_credential_assignment. command_moves;
    apply rd_manage; intros _; apply (rs_reassign R (fun _ => True)); auto using anything.
Qed.
Lemma rd_select cmd p : moves Rd (select_project_model su ar cmd p).
Proof.
  unfold select_project_model, perform_model_selection. command_moves.
  apply rd_manage; intros _; apply (rs_select R (fun _ => True)); auto using anything.
Qed.
Lemma rd_lifecycle cmd p suspend : moves Rd (change_project_lifecycle su ar cmd p suspend).
Proof.
  unfold change_project_lifecycle. command_moves. apply rd_manage. intros now. destruct suspend.
  - apply (rs_suspend_worker R (fun _ => True)); auto using anything.
  - apply (rs_resume_worker R (fun _ => True)); auto using anything.
Qed.
Hint Resolve rd_provision rd_assign rd_select rd_lifecycle : moves.

Lemma rd_authorize cmd : moves Rd (authorize_credential su ar tx cmd).
Proof. unfold authorize_credential. command_moves. Qed.
Lemma rd_reauthorize cmd : moves Rd (control.reauthorize_credential su ar tx cmd).
Proof. unfold control.reauthorize_credential. command_moves. Qed.
Lemma rd_end_each {E} ps : moves Rd (@end_each _ E ps).
Proof. induction ps as [|p ps IH]; cbn [end_each]; command_moves. Qed.
Hint Resolve rd_end_each : moves.
Lemma rd_begin_each {E} begun ps : moves Rd (@begin_each _ _ su ar E begun ps).
Proof. revert begun. induction ps as [|p ps IH]; intros begun; cbn [begin_each]; command_moves. Qed.
Hint Resolve rd_begin_each : moves.
Lemma rd_perform_reauthorization f : moves Rd (perform_reauthorization su ar f).
Proof.
  assert (forall E A (g : Db -> A), moves Rd (@on_service _ E A (reading (su_paths su) (su_node_home su) (ar_env ar) g))).
  { intros. by apply rd_service, rn_reading; [apply _|..]. }
  assert (forall E, moves Rd (@on_service _ E unit (acquire (su_paths su) (su_node_home su) (ar_env ar)))).
  { intros. by apply rd_service, rn_acquire; [apply _|..]. }
  unfold perform_reauthorization. command_moves.
  - apply rd_manage. intros _. apply (rs_swap R); auto.
  - apply rd_site, rs_same; [apply _|]. apply hmoves_attempt, same_db_disk.
Qed.
Hint Resolve rd_perform_reauthorization : moves.
Lemma rd_apply_finished {E} : moves Rd (@control.apply_finished_reauthorization _ _ _ _ _ su ar E).
Proof. unfold control.apply_finished_reauthorization. command_moves. Qed.

(** *** Runs, events and the rest *)

Lemma mint_card_db path b title goal now ok sh : sh_db (snd (mint_card path b title goal now ok sh)) = sh_db sh.
Proof. unfold mint_card, bind, Prelude.state. cbn. destruct (sh_boards sh !! path) as [bd|]; [|done]. destruct (board_tasks bd); [|done]. by destruct ok. Qed.
Lemma mint_task_card_db mid p b goal now ok sh : sh_db (snd (mint_task_card mid p b goal now ok sh)) = sh_db sh.
Proof.
  unfold mint_task_card, bind at 1, lift. destruct (context _ _) as [home|]; [|done]. unfold bind.
  set (card := Build_CardBinding _ _ _ _ _). pose proof (mint_card_db (board_path home) card (tb_task_id b) goal now ok sh) as Hm.
  by destruct (mint_card _ _ _ _ _ _ sh) as [[]].
Qed.
Lemma record_binding_db b now sh : sh_db (snd (record_binding b now sh)) = sh_db sh.
Proof. unfold record_binding, bind, Prelude.state. cbn. by repeat split_if. Qed.
Hint Resolve mint_task_card_db record_binding_db : moves.
Hint Extern 1 (moves Rd (on_desk _)) => apply rd_desk; auto with moves : moves.
Lemma rd_mint p a input : moves Rd (mint su ar p a input).
Proof. unfold mint. command_moves. Qed.
Lemma rd_bind_card p a card run : moves Rd (bind_card su ar p a card run).
Proof. unfold bind_card. command_moves. Qed.
Hint Resolve rd_mint rd_bind_card : moves.
Lemma rd_create payload p : moves Rd (control.create_run su ar tx payload p).
Proof. unfold control.create_run. command_moves; apply rd_serving; by apply rn_create; [apply _|..]. Qed.
Lemma rd_policy payload p : moves Rd (change_approval_policy su ar tx payload p).
Proof. unfold change_approval_policy. command_moves. apply rd_serving. by apply rn_policy; [apply _|..]. Qed.
Lemma rd_list payload p : moves Rd (control.list_runs su ar payload p).
Proof. unfold control.list_runs. command_moves. apply rd_serving. by apply rn_list; [apply _|..]. Qed.
Lemma rd_get payload p : moves Rd (control.get_run su ar payload p).
Proof. unfold control.get_run. command_moves. apply rd_serving. by apply rn_get; [apply _|..]. Qed.
Lemma rd_cancel payload p : moves Rd (control.cancel_run su ar tx payload p).
Proof. unfold control.cancel_run. command_moves. apply rd_serving. by apply rn_cancel; [apply _|..]. Qed.
Lemma rd_retry payload p : moves Rd (control.retry_run su ar tx payload p).
Proof. unfold control.retry_run. command_moves. apply rd_serving. by apply rn_retry; [apply _|..]. Qed.
Lemma rd_resolve payload p : moves Rd (control.resolve_approval su ar tx payload p).
Proof. unfold control.resolve_approval. command_moves. apply rd_serving. by apply rn_resolve; [apply _|..]. Qed.
Lemma rd_remote {A} (m : Z -> M RemoteError Db A) :
  (forall now db, R db (snd (m now db))) -> moves Rd (on_remote su ar tx m).
Proof.
  intros Hm. unfold on_remote. command_moves. intros d. unfold Rd. specialize (Hm (b_now a) (n_db (d_node d))).
  by destruct (m _ _) as [[|] db].
Qed.
Lemma rd_subscribe payload p : moves Rd (subscribe su ar tx payload p).
Proof.
  unfold subscribe. command_moves.
  - apply rd_serving. by apply rn_get; [apply _|..].
  - apply rd_remote. intros now db.
    match goal with |- context [upsert_subscription ?p ?r ?f now db] => apply (Hcall (UpsertSubscription p r f now) db I) end.
Qed.
Lemma rd_unsubscribe payload : moves Rd (unsubscribe su ar tx payload).
Proof. unfold unsubscribe. command_moves. apply rd_remote. intros now db. by apply (Hcall (RemoveSubscription _)). Qed.
Lemma rd_provider_call {A} code (m : P ProviderError A) : moves Rd (provider_call tx code m).
Proof. unfold provider_call. command_moves. Qed.
Hint Resolve rd_create rd_policy rd_list rd_get rd_cancel rd_retry rd_resolve rd_subscribe rd_unsubscribe rd_provider_call : moves.
Lemma rd_revoke payload : moves Rd (control.revoke_credential su ar tx payload).
Proof. unfold control.revoke_credential. command_moves. apply rd_service. by apply rn_revoke; [apply _|..]. Qed.
Lemma rd_projects : moves Rd (control.list_projects su ar tx).
Proof. unfold control.list_projects. command_moves. Qed.
Lemma rd_drain : moves Rd (node_drain su ar).
Proof. unfold node_drain. command_moves. intros d. unfold Rd. cbn. reflexivity. Qed.
Lemma rd_resolve_project id : moves Rd (resolve su ar tx id).
Proof. unfold resolve. command_moves. Qed.
Lemma rd_reads :
  moves Rd (provider_status su ar) /\ moves Rd (provider_cancel su ar) /\ moves Rd (control.list_credentials su ar tx)
  /\ (forall payload, moves Rd (control.cancel_credential su ar tx payload))
  /\ (forall payload, moves Rd (control.rename_credential su ar tx payload))
  /\ (forall payload, moves Rd (node_update su ar tx payload)) /\ moves Rd (capabilities su ar)
  /\ moves Rd (provider_authorize tx).
Proof.
  unfold provider_status, provider_cancel, control.list_credentials, control.cancel_credential, control.rename_credential,
    node_update, capabilities, provider_authorize.
  split_and!; intros; command_moves.
Qed.
Hint Resolve rd_revoke rd_projects rd_drain rd_resolve_project : moves.
Lemma rd_execute cmd : moves Rd (execute su ar tx cmd).
Proof.
  destruct rd_reads as (? & ? & ? & ? & ? & ? & ? & ?). unfold execute. cbv zeta.
  destruct (_ =? _)%string; [apply rd_provision|]. apply moves_bind; [apply _|apply rd_resolve_project|intros project].
  repeat (destruct (_ =? _)%string; [command_moves|]). command_moves.
Qed.
Lemma rd_execute_with_delivery cmd : moves Rd (execute_with_delivery su ar tx cmd).
Proof.
  unfold execute_with_delivery. pose proof (rd_execute cmd). pose proof (rd_authorize cmd). pose proof (rd_reauthorize cmd).
  command_moves.
Qed.
End Commands.
