(* ===== verification/CommandTheorems.v ===== *)
(** * CommandTheorems: what holds of the whole node as it executes commands. *)
From Stdlib Require Import Lia.
From stdpp Require Import gmap relations.
From S2P Require Import Prelude Text Json RunState Redact Schema Registry RegistryFacts Evolution Identifiers.
From S2P Require Import Remote RemoteFacts Inventory InventoryFacts System Protocol UpdateOp Channel ChannelTheorems.
From S2P Require Import Sse RunLock Attachments ChatHistory Approvals Runner RunnerFacts Reconcile Policy Fs CredentialSwap.
From S2P Require Import Credentials CredentialHomes Host Profiles DeviceCode Provider ActiveRuns Service ServiceFacts.
From S2P Require Import Workers Workdesk UpdateRequest Provisioning ProvisioningTheorems Commands CommandFacts.
Import devicecode provider service control.

(** The node behind the channel.

    The dispatcher of [Commands.v], the logins, the task boards and the update
    journal answer what the channel asks ([Channel.Service]), and keep the laws
    its theorems are proved from. *)

(** ** The instance *)

Record NodeHost `{Supervisor} : Type := {
  h_daemon : Daemon;
  h_journals : list (string * bytes);
  h_delivered : Delivered
}.

(** [device_delivery::ACKNOWLEDGEMENT_TIMEOUT], in milliseconds. *)
Definition ACKNOWLEDGEMENT_TIMEOUT : Z := 20000.

Section Node.
Context `{SerdeJson} `{Process} `{RegistryCodec} `{StoreCodec} `{Backend} `{Supervisor} `{Git} `{Starter}.
Context (su : Setup) (ar : Around) (tx : Texts).
(** What happens beside a read of the boards, the clock for deadlines, the state
    of the connection and the version of this build. *)
Context (beside : nat -> list Chance) (instants : nat -> Z) (connection : nat -> string) (version : string).

Definition with_daemon (d : Daemon) (h : NodeHost) : NodeHost :=
  {| h_daemon := d; h_journals := h_journals h; h_delivered := h_delivered h |}.
(** The registry is the one the channel sees. *)
Definition at_registry (db : Db) (d : Daemon) : Daemon := with_node (service.on_db (fun _ => db) (d_node d)) d.
Definition run_daemon {E A} (m : C E A) (w : NodeHost * Db) : Result (Outcome E) A * (NodeHost * Db) :=
  let (r, d) := m (at_registry (snd w) (h_daemon (fst w))) in (r, (with_daemon d (fst w), n_db (d_node d))).
Definition run_logins {A} (m : P Empty_set A) (h : NodeHost) : Result (Outcome Empty_set) A * NodeHost :=
  let (r, d) := on_logins m (h_daemon h) in (r, with_daemon d h).
Definition step_of (h : NodeHost) : nat := n_step (d_node (h_daemon h)).

Definition node_execute (cmd : RemoteCommand) (w : NodeHost * Db) : option (Result ProtocolError Value) * (NodeHost * Db) :=
  let (r, w') := run_daemon (execute_with_delivery su ar tx cmd) w in
  (match r with
   | Ok v => Some (Ok v)
   | Err (Failed e) => Some (Err e)
   | Err _ => None
   end, w').
Definition node_apply (w : NodeHost * Db) : NodeHost * Db :=
  snd (run_daemon (@control.apply_finished_reauthorization _ _ _ _ _ su ar Empty_set) w).
Definition node_code (h : NodeHost) : option DeviceDelivery * NodeHost :=
  let (r, h') := run_logins (deliverable_code (su_node_home su) (ar_logins ar)) h in
  (match r with
   | Ok (Some (command, credential, code)) =>
       Some {| dd_command_id := command; dd_credential_id := credential; dd_verification_uri := verification_uri code;
               dd_user_code := user_code code; dd_expires_in_seconds := expires_in_seconds code |}
   | _ => None
   end, h').
Definition node_sent (d : DeviceDelivery) (h : NodeHost) : NodeHost :=
  snd (run_logins (delivery_sent (su_node_home su) (ar_logins ar) (dd_credential_id d) (dd_command_id d)
                     (instants (step_of h) + ACKNOWLEDGEMENT_TIMEOUT)) h).
Definition node_acknowledged (command : string) (h : NodeHost) : NodeHost :=
  snd (run_logins (acknowledge_delivery (su_node_home su) (ar_logins ar) command) h).
Definition node_cancel (session_ended : bool) (h : NodeHost) : NodeHost :=
  snd (run_logins (provider.cancel_undelivered (su_node_home su) (ar_logins ar) session_ended (instants (step_of h))) h).

(** The boards, on the tables of the node. *)
Definition run_boards (m : Workdesk.Act unit) (w : NodeHost * Db) : NodeHost * Db :=
  let d := h_daemon (fst w) in
  let sh := shared (snd (m {| shared := {| sh_db := snd w; sh_cards := d_cards d; sh_boards := d_boards d |};
                              chances := beside (step_of (fst w)) |})) in
  (with_daemon {| d_node := d_node d; d_host := d_host d; d_log := d_log d; d_cards := sh_cards sh;
                  d_boards := sh_boards sh |} (fst w), sh_db sh).
Definition now_of (h : NodeHost) : Z := b_now (ar_env ar (step_of h)).

Definition node_heartbeat (w : NodeHost * Db) : Value :=
  let n := d_node (h_daemon (fst w)) in
  object [("instance_id", VString (su_instance_id su)); ("connection_state", VString (connection (n_step n)));
          ("registered_projects", VNumber (PosInt match Inventory.list_projects (snd w) with
                                                 | Ok ps => Z.of_nat (length ps)
                                                 | Err _ => 0
                                                 end));
          ("active_runs", VNumber (PosInt (Z.of_nat (size (n_workers n))))); ("draining", VBool (n_draining n));
          ("software_version", VString version)]%string.

Definition node_service : Channel.Service NodeHost := {|
  Channel.execute := node_execute;
  Channel.apply_finished_reauthorization := node_apply;
  Channel.deliverable_device_code := node_code;
  Channel.device_delivery_sent := node_sent;
  Channel.device_delivery_acknowledged := node_acknowledged;
  Channel.cancel_undelivered := node_cancel;
  Channel.drain_task_board run := fun w => run_boards (Workdesk.drain_task_board run (now_of (fst w))) w;
  Channel.pump_task_boards := fun w => run_boards (Workdesk.pump_task_boards (now_of (fst w))) w;
  Channel.heartbeat_payload := node_heartbeat;
  Channel.journals := h_journals;
  Channel.delivered := h_delivered;
  Channel.save_delivered d := fun h => {| h_daemon := h_daemon h; h_journals := h_journals h; h_delivered := d |}
|}.
End Node.

From S2P Require Import InventoryTheorems.
Import provider service control.

(** ** A claimed port is a registry call *)

Section Claim.
Context `{SerdeJson}.

Lemma update_where_same {R} (p q : R -> bool) f t :
  (forall r, In r t -> p r = q r) -> update_where p f t = update_where q f t.
Proof. intros Hpq. unfold update_where. apply map_ext_in. intros r Hr. by rewrite Hpq. Qed.
Lemma set_endpoint_state id endpoint db p :
  validate_runtime_endpoint endpoint = Ok tt -> In p (projects db) -> p_project_id p = id ->
  snd (System.perform (SetRuntimeEndpoint id (Some endpoint)) db)
  = on_projects (update_where (is_project id) (endpoint_row (Some endpoint))) db.
Proof.
  intros Hv Hin Hid. cbn [System.perform outcome snd]. unfold set_project_runtime_endpoint. rewrite lift_then.
  cbn [validate_opt]. rewrite Hv. unfold bind at 1.
  destruct (update_project id (endpoint_row (Some endpoint)) db) as [res db'] eqn:E. apply update_project_inv in E.
  destruct res as [u|e]; [|by destruct E as (_ & _ & Hno); destruct (Hno p Hin)]. destruct E as [-> _].
  unfold bind, query, lift. by repeat case_match.
Qed.

Lemma claim_is_call id port db :
  inventory_ok db -> 0 <= port <= 65535 ->
  claimed id port db = db \/ claimed id port db = snd (System.perform (SetRuntimeEndpoint id (Some (endpoint_of port))) db).
Proof.
  intros Hok Hport. destruct (endpoint_roundtrip port Hport) as [_ Hv]. unfold claimed.
  assert ((forall p, In p (projects db) -> claimable id (endpoint_of port) db p = false) ->
    on_projects (update_where (claimable id (endpoint_of port) db) (endpoint_row (Some (endpoint_of port)))) db = db) as Hsame.
  { intros Hno. unfold on_projects. rewrite update_where_id; [by destruct db|]. intros p Hp Hc. by rewrite (Hno p Hp) in Hc. }
  destruct (List.existsb (fun other => sql_eq (p_runtime_endpoint other) (endpoint_of port)) (projects db)) eqn:Ex.
  { left. apply Hsame. intros p _. unfold claimable. by rewrite Ex, andb_false_r. }
  destruct (select_one (is_project id) (projects db)) as [p|] eqn:Es.
  2: { left. apply Hsame. intros p Hp. unfold claimable. by rewrite (select_one_None _ _ _ Es Hp). }
  pose proof Es as [Hin Hid]%(select_project db id p Hok).
  assert (forall q, In q (projects db) -> is_project id q = true -> q = p) as Huniq.
  { intros q Hq Hi%is_project_true. pose proof (proj2 (select_project db id q Hok) (conj Hq Hi)) as E. congruence. }
  destruct (p_runtime_endpoint p) as [e|] eqn:Ee.
  - left. apply Hsame. intros q Hq. unfold claimable. destruct (is_project id q) eqn:Ei; [|done]. by rewrite (Huniq q Hq Ei), Ee.
  - right. rewrite (set_endpoint_state id (endpoint_of port) db p Hv Hin Hid). unfold on_projects. f_equal.
    apply update_where_same. intros q Hq. unfold claimable. rewrite Ex. destruct (is_project id q) eqn:Ei; [|done].
    by rewrite (Huniq q Hq Ei), Ee.
Qed.
End Claim.

(** ** The other tasks *)

(** They work through registry calls. *)
Definition by_calls `{SerdeJson} (f : Db -> Db) : Prop := forall db, rtc call_step db (f db).

Record calm `{SerdeJson} `{Supervisor} (su : Setup) (ar : Around) : Prop := {
  calm_env : forall k a, In a (b_meanwhile (ar_env ar k)) -> typed_action a;
  calm_host : forall h, by_calls (fun db => fst (meanwhile h db));
  calm_elsewhere : forall k j, by_calls (ar_elsewhere ar k j);
  calm_ports : 0 <= cfg_hermes_profile_port_start (su_config su) /\ cfg_hermes_profile_port_end (su_config su) <= 65535
}.

(** ** The laws of the channel *)

Section Laws.
Context `{SerdeJson} `{Process} `{RegistryCodec} `{StoreCodec} `{Backend} `{Supervisor} `{Git} `{Starter}.
Context (su : Setup) (ar : Around) (tx : Texts) (Hcalm : calm su ar).
Context (beside : nat -> list Chance) (instants : nat -> Z) (connection : nat -> string) (version : string).

Definition inbox_kept (db db' : Db) : Prop := remote_ok db -> remote_ok db' /\ remote_evolves db db'.
#[local] Instance inbox_kept_preorder : PreOrder inbox_kept.
Proof.
  split; [by intros db|]. intros a b c Hab Hbc Ha. destruct (Hab Ha) as [Hb Hv]. destruct (Hbc Hb) as [Hc Hv'].
  split; [done|by etransitivity].
Qed.
Lemma calls_keep_inbox db db' : rtc call_step db db' -> inbox_kept db db'.
Proof. induction 1 as [|a b c [k db0 _] _ IH]; [reflexivity|]. etransitivity; [|exact IH]. intros Hok. by apply call_respects. Qed.

(** Others write to the boards and, through registry calls, to the tables. *)
Definition fair_chance (c : Chance) : Prop :=
  match c with Proceed others => forall sh, inbox_kept (sh_db sh) (sh_db (others sh)) | _ => True end.
Context (Hbeside : forall k, Forall fair_chance (beside k)).

Definition board_kept (w w' : World) : Prop :=
  Forall fair_chance (chances w) -> Forall fair_chance (chances w') /\ inbox_kept (sh_db (shared w)) (sh_db (shared w')).
#[local] Instance board_kept_preorder : PreOrder board_kept.
Proof.
  split; [intros w Hw; split; [done|reflexivity]|]. intros a b c Hab Hbc Ha. destruct (Hab Ha) as [Hb Hv].
  destruct (Hbc Hb) as [Hc Hv']. split; [done|by etransitivity].
Qed.
Lemma step_kept {A} (m : M DeskError Shared A) :
  (forall sh, inbox_kept (sh_db sh) (sh_db (snd (m sh)))) -> moves board_kept (step m).
Proof.
  intros Hm w Hw. unfold step. destruct (chances w) as [|[others| |] rest] eqn:E; [|pose proof (Forall_inv Hw) as Hc; pose proof (Forall_inv_tail Hw) as Hrest..].
  - specialize (Hm (shared w)). destruct (m (shared w)) as [r sh]. by split.
  - specialize (Hm (others (shared w))). specialize (Hc (shared w)). destruct (m (others (shared w))) as [r sh].
    split; [done|]. cbn in *. by etransitivity.
  - split; [done|reflexivity].
  - split; [done|reflexivity].
Qed.
Lemma unchanged_kept {A} (m : M DeskError Shared A) :
  (forall sh, sh_db (snd (m sh)) = sh_db sh) -> moves board_kept (step m).
Proof. intros Hm. apply step_kept. intros sh. by rewrite Hm. Qed.
Lemma enqueue_report_kept r stream cursor now : moves board_kept (step (enqueue_report r stream cursor now)).
Proof.
  apply step_kept. intros sh Hok. unfold enqueue_report, transaction, bind, Prelude.state. cbv beta iota zeta.
  destruct (negb _); [done|]. destruct (sql_incr _) as [id|] eqn:Ei; [|done]. cbn.
  unfold sql_incr in Ei. destruct (_ <? _); [|done]. injection Ei as <-. split; [by apply outbox_snoc_ok|apply outbox_snoc_evolves].
Qed.
Lemma opened_kept : moves board_kept (step (modify (on_tables opened))).
Proof. apply step_kept. intros sh Hok. cbn. unfold opened. split; [by apply scrub_ok|apply scrub_evolves]. Qed.
Lemma query_kept {A} (f : Shared -> Result DeskError A) : moves board_kept (step (query f)).
Proof. apply unchanged_kept. intros sh. unfold query. by destruct (f sh). Qed.
Lemma gets_kept {A} (f : Shared -> A) : moves board_kept (step (gets f)).
Proof. by apply unchanged_kept. Qed.
Lemma marks_kept card e c : moves board_kept (step (advance_marks card e c)).
Proof. by apply unchanged_kept. Qed.
Lemma lift_kept {A} (r : Result DeskError A) : moves board_kept (lift r).
Proof. intros w Hw. destruct r; (split; [done|reflexivity]). Qed.
Lemma swallow_kept {A} (m : Workdesk.Act A) : moves board_kept m -> moves board_kept (swallow m).
Proof. intros Hm w. specialize (Hm w). unfold swallow. by destruct (m w) as [[a|[]] w']. Qed.
Hint Resolve enqueue_report_kept opened_kept query_kept gets_kept marks_kept lift_kept : moves.
Ltac board_moves :=
  repeat (cbv zeta; match goal with
    | |- moves _ (bind _ _) => apply moves_bind; [apply _| |intros ?]
    | |- moves _ (let (_, _) := ?x in _) => destruct x
    | |- moves _ (match ?x with _ => _ end) => destruct x
    | |- moves _ (ret _) => apply moves_ret, _
    | |- moves _ _ => solve [auto with moves typeclass_instances]
    end).
Lemma queue_kept b now reports : moves board_kept (queue_reports b now reports).
Proof. induction reports as [|[[stream seq] report] rest IH]; cbn [queue_reports]; board_moves. Qed.
Hint Resolve queue_kept : moves.
Lemma drain_kept run now : moves board_kept (Workdesk.drain_task_board run now).
Proof. unfold Workdesk.drain_task_board. apply swallow_kept. unfold drain_run, drain_card, read_board. board_moves. Qed.
Hint Resolve drain_kept : moves.
Lemma pump_kept now : moves board_kept (Workdesk.pump_task_boards now).
Proof.
  assert (forall cards, moves board_kept (drain_each now cards)).
  { induction cards as [|[[b e] c] cards IH]; cbn [drain_each]; board_moves. }
  unfold Workdesk.pump_task_boards. apply swallow_kept. board_moves.
Qed.

Abbreviation node := (node_service su ar tx beside instants connection version).

Lemma daemon_respects {E A} (m : C E A) : moves (Rd inbox_kept) m -> respects (fun w : NodeHost * Db => snd (run_daemon m w)).
Proof.
  intros Hm [h db] Hok. unfold run_daemon. specialize (Hm (at_registry db (h_daemon h))).
  cbn [fst snd]. destruct (m _) as [r d]. by apply Hm.
Qed.
Lemma boards_respect (m : Z -> Workdesk.Act unit) :
  (forall now, moves board_kept (m now)) -> respects (fun w : NodeHost * Db => run_boards beside (m (now_of ar (fst w))) w).
Proof.
  intros Hm [h db] Hok. unfold run_boards. cbn [fst snd]. set (w := Build_World _ _).
  destruct (Hm (now_of ar h) w (Hbeside _)) as [_ Hk]. by apply Hk.
Qed.

(** The node keeps the laws that the theorems on the channel are proved from. *)
#[global] Instance node_laws : @ServiceLaws NodeHost node.
Proof.
  destruct Hcalm as [Henv Hhost Helse Hports].
  assert (forall c db, well_typed c -> inbox_kept db (snd (System.perform c db))) as Hc by (intros c db _ Hok; by apply call_respects).
  assert (forall id port db, 0 <= port <= 65535 -> inbox_kept db (claimed id port db)) as Hcl.
  { intros id port db _ Hok. split; [by apply (remote_ok_ext db)|by apply remote_evolves_ext]. }
  assert (forall h db, inbox_kept db (fst (meanwhile h db))) as Hh by (intros; apply calls_keep_inbox, Hhost).
  assert (forall k j db, inbox_kept db (ar_elsewhere ar k j db)) as He by (intros; apply calls_keep_inbox, Helse).
  constructor.
  - intros cmd w Hok. pose proof (daemon_respects _ (rd_execute_with_delivery su ar tx inbox_kept Hc Hcl Henv Hh He Hports cmd) w Hok) as Hr.
    cbn [Channel.execute node_service]. unfold node_execute. cbv beta in Hr. by destruct (run_daemon _ w) as [r w'].
  - apply daemon_respects, rd_apply_finished; auto with typeclass_instances.
  - intros run w Hok. cbn [Channel.drain_task_board node_service].
    exact (boards_respect (Workdesk.drain_task_board run) (drain_kept run) w Hok).
  - intros w Hok. cbn [Channel.pump_task_boards node_service].
    exact (boards_respect Workdesk.pump_task_boards pump_kept w Hok).
Qed.
End Laws.
