(* ===== verification/CommandSafety.v ===== *)
(** * CommandSafety: commands keep the invariant of the service: a project that
    is being changed, or is in Trash, has no active run. *)
From Stdlib Require Import Lia.
From stdpp Require Import gmap relations.
From S2P Require Import Prelude Text Json RunState Redact Schema Registry RegistryFacts Evolution Identifiers.
From S2P Require Import Remote RemoteFacts Inventory InventoryFacts System Protocol UpdateOp.
From S2P Require Import Sse RunLock Attachments ChatHistory Approvals Runner RunnerFacts Reconcile Policy Fs CredentialSwap.
From S2P Require Import Credentials CredentialHomes Host Profiles DeviceCode Provider ActiveRuns Service ServiceFacts ServiceTheorems.
From S2P Require Import Workers Workdesk UpdateRequest Provisioning ProvisioningTheorems Commands CommandFacts CommandTheorems.
Import provider service control.

(** What the others may do: fair actions in the service, quiet calls while the
    worker manager works. *)
Record orderly `{SerdeJson} `{Supervisor} (su : Setup) (ar : Around) : Prop := {
  or_env : forall k a, In a (b_meanwhile (ar_env ar k)) -> fair_action a;
  or_host : forall h db, rtc quiet_step db (fst (meanwhile h db));
  or_elsewhere : forall k j db, rtc quiet_step db (ar_elsewhere ar k j db);
  or_ports : 0 <= cfg_hermes_profile_port_start (su_config su) /\ cfg_hermes_profile_port_end (su_config su) <= 65535
}.

Section Kept.
Context `{SerdeJson}.

(** The registry may become this one, in a node that changes the projects that
    satisfy [may]. *)
Definition kept_while (may : string -> Prop) (db db' : Db) : Prop :=
  forall n, n_db n = db -> (forall p, may p -> p ∈ n_changes n) -> service_ok n -> service_ok (service.on_db (fun _ => db') n).
#[export] Instance kept_while_preorder may : PreOrder (kept_while may).
Proof.
  split; [by intros db n <- _; destruct n|]. intros a b c Hab Hbc n Hn Hm Hok. specialize (Hab n Hn Hm Hok).
  exact (Hbc (service.on_db (fun _ => b) n) eq_refl Hm Hab).
Qed.
Lemma kept_call may c db : worker_call may c -> kept_while may db (snd (System.perform c db)).
Proof. intros (Ht & Hc & Hs) n <- Hm Hok. apply (ok_call c n); auto. Qed.
Lemma kept_claim may id port db : 0 <= port <= 65535 -> kept_while may db (claimed id port db).
Proof.
  intros Hp n <- Hm Hok. destruct (claim_is_call id port (n_db n) (no_inventory _ (sv_node _ Hok)) Hp) as [->| ->].
  - by destruct n.
  - apply (kept_call may (SetRuntimeEndpoint id (Some (endpoint_of port))) (n_db n)); done.
Qed.
Lemma kept_quiet may db db' : rtc quiet_step db db' -> kept_while may db db'.
Proof.
  induction 1 as [|a b c [k db0 (Ht & Hc & Hs)] _ IH]; [reflexivity|]. etransitivity; [|exact IH].
  apply kept_call. split_and!; [done..|]. intros q. by rewrite Hs.
Qed.
End Kept.

Section Commands.
Context `{SerdeJson} `{Process} `{RegistryCodec} `{StoreCodec} `{Backend} `{Supervisor} `{Git} `{Starter}.
Context (su : Setup) (ar : Around) (tx : Texts) (Hor : orderly su ar).

Definition dok (d : Daemon) : Prop := service_ok (d_node d).
Definition keeps_ok (d d' : Daemon) : Prop := dok d -> dok d'.
#[local] Instance keeps_ok_preorder : PreOrder keeps_ok.
Proof. split; [intros d Hd; exact Hd|]. intros a b c Hab Hbc Ha. unfold keeps_ok in *. auto. Qed.

Lemma dk_service {E A} (m : S E A) : moves (stays service_ok) m -> moves keeps_ok (on_service m).
Proof. intros Hm d Hd. specialize (Hm (d_node d) Hd). unfold on_service, dok. by destruct (m (d_node d)). Qed.
Lemma dk_logins {E A} (m : P E A) : moves keeps_ok (on_logins m).
Proof. apply dk_service, stays_provider, ok_same. Qed.
Lemma dk_site may {E A} (m : Prog E A) d :
  moves (Rs (kept_while may)) m -> (forall p, may p -> p ∈ n_changes (d_node d)) -> dok d -> dok (snd (on_site m d)).
Proof.
  intros Hm Hch Hd. specialize (Hm (site d)). unfold on_site, dok. destruct (m (site d)) as [r s]. cbn in *.
  apply (ok_same (service.on_db (fun _ => s_db s) (d_node d))); [done|]. by apply Hm.
Qed.
Lemma dk_site_none {E A} (m : Prog E A) : moves (Rs (kept_while (fun _ => False))) m -> moves keeps_ok (on_site m).
Proof. intros Hm d Hd. by apply (dk_site (fun _ => False)). Qed.
Lemma dk_desk {E A} (m : M DeskError Shared A) :
  (forall sh, sh_db (snd (m sh)) = sh_db sh) -> moves keeps_ok (@on_desk _ E A m).
Proof.
  intros Hm d Hd. unfold on_desk, dok. set (sh := Build_Shared _ _ _). specialize (Hm sh). destruct (m sh) as [r sh'].
  cbn in *. rewrite Hm. unfold dok in Hd. by destruct (d_node d).
Qed.
Lemma dk_update {A} (m : M UpdateError Disk A) : moves keeps_ok (on_update m).
Proof. intros d Hd. unfold on_update, dok. destruct (m _) as [r disk]. cbn. by apply (ok_same (d_node d)). Qed.
Lemma dk_gets {E A} (f : Daemon -> A) : moves keeps_ok (@gets (Outcome E) Daemon A f).
Proof. intros d Hd. exact Hd. Qed.
Lemma dk_look {E} : moves keeps_ok (@control.look _ _ su ar E).
Proof. apply dk_service, ok_tick. apply Hor. Qed.
Lemma dk_remote {A} (m : Z -> M RemoteError Db A) :
  (forall now, exists c, quiet_call c /\ forall db, snd (m now db) = snd (System.perform c db)) ->
  moves keeps_ok (on_remote su ar tx m).
Proof.
  intros Hm. unfold on_remote. apply moves_bind; [apply _|apply dk_look|]. intros b d Hd.
  destruct (Hm (b_now b)) as (c & Hq & Hc). specialize (Hc (n_db (d_node d))).
  destruct (m _ _) as [[a|e] db]; by apply (ok_quiet c).
Qed.
Hint Resolve dk_logins dk_update dk_gets dk_look : moves.
Lemma dk_open : moves keeps_ok (open_registry su ar).
Proof.
  unfold open_registry, now_step. command_moves. intros d Hd. cbn. by apply (ok_quiet (ScrubHistory true)).
Qed.
Hint Resolve dk_open : moves.

Lemma dk_opened : moves keeps_ok (opened_or_internal su ar).
Proof. unfold opened_or_internal. command_moves. Qed.
Lemma dk_step {E} : moves keeps_ok (@now_step _ E).
Proof. apply dk_gets. Qed.
Lemma dk_serving {A} (m : S ServiceError A) : moves (stays service_ok) m -> moves keeps_ok (serving m).
Proof. intros Hm. unfold serving. apply cmoves_mapping, dk_service, Hm. Qed.
Lemma dk_begin p : moves keeps_ok (control.begin_credential_change su ar p).
Proof. apply dk_service, ok_begin. apply Hor. Qed.
Lemma dk_begin_worker p : moves keeps_ok (control.begin_worker_change su ar p).
Proof. apply dk_begin. Qed.
Lemma dk_end {E} p : moves keeps_ok (@control.end_credential_change _ E p).
Proof.
  apply dk_service. intros n Hn. unfold service.end_credential_change. cbn [snd modify]. by apply ok_ended.
Qed.
Lemma dk_end_worker {E} p : moves keeps_ok (@control.end_worker_change _ E p).
Proof. apply dk_end. Qed.
Lemma dk_usable id : moves keeps_ok (credential_usable su ar id).
Proof. apply dk_logins. Qed.
Hint Resolve dk_opened dk_step dk_begin dk_begin_worker dk_end dk_end_worker dk_usable : moves.

(** While nothing is suspended, the worker manager keeps the invariant whatever
    is being changed. *)
Abbreviation unsuspended := (kept_while (fun _ => False)).
Lemma host_kept may h db : kept_while may db (fst (meanwhile h db)).
Proof. apply kept_quiet, (or_host _ _ Hor). Qed.
Lemma elsewhere_kept may k j db : kept_while may db (ar_elsewhere ar k j db).
Proof. apply kept_quiet, (or_elsewhere _ _ Hor). Qed.
Lemma dk_manage {A} (m : Z -> Prog ReassignFailure A) :
  (forall now, moves (Rs unsuspended) (m now)) -> moves keeps_ok (manage su ar m).
Proof. intros Hm. unfold manage. command_moves. by apply dk_site_none. Qed.
Lemma dk_provision cmd : moves keeps_ok (control.provision_project su ar tx cmd).
Proof.
  destruct (or_ports _ _ Hor) as [Hf Hl]. unfold control.provision_project. command_moves.
  apply dk_site_none, (rs_provision unsuspended (fun _ => False)); auto using kept_call, kept_claim, host_kept, elsewhere_kept.
Qed.
Lemma dk_assign cmd p : moves keeps_ok (assign_project_credential su ar cmd p).
Proof.
  unfold assign_project_credential, perform_credential_assignment. command_moves;
    apply dk_manage; intros _; apply (rs_reassign unsuspended (fun _ => False)); auto using kept_call, kept_claim, host_kept.
Qed.
Lemma dk_select cmd p : moves keeps_ok (select_project_model su ar cmd p).
Proof.
  unfold select_project_model, perform_model_selection. command_moves.
  apply dk_manage; intros _; apply (rs_select unsuspended (fun _ => False)); auto using kept_call, kept_claim, host_kept.
Qed.
Lemma dk_end_each {E} ps : moves keeps_ok (@end_each _ E ps).
Proof. induction ps as [|p ps IH]; cbn [end_each]; command_moves. Qed.
Hint Resolve dk_end_each : moves.
Lemma dk_begin_each {E} begun ps : moves keeps_ok (@begin_each _ _ su ar E begun ps).
Proof. revert begun. induction ps as [|p ps IH]; intros begun; cbn [begin_each]; command_moves. Qed.
Hint Resolve dk_begin_each : moves.
Lemma dk_perform_reauthorization f : moves keeps_ok (perform_reauthorization su ar f).
Proof.
  assert (forall E A (g : Db -> A), moves keeps_ok (@on_service _ E A (reading (su_paths su) (su_node_home su) (ar_env ar) g))).
  { intros. apply dk_service, ok_reading, Hor. }
  assert (forall E, moves keeps_ok (@on_service _ E unit (acquire (su_paths su) (su_node_home su) (ar_env ar)))).
  { intros. apply dk_service, ok_acquire, Hor. }
  unfold perform_reauthorization. command_moves.
  - apply dk_manage. intros _. apply (rs_swap unsuspended); auto using host_kept.
  - apply dk_site_none, rs_same; [apply _|]. apply hmoves_attempt, same_db_disk.
Qed.
Hint Resolve dk_perform_reauthorization : moves.
Lemma dk_apply_finished {E} : moves keeps_ok (@control.apply_finished_reauthorization _ _ _ _ _ su ar E).
Proof. unfold control.apply_finished_reauthorization. command_moves. Qed.

Hint Resolve mint_task_card_db record_binding_db : moves.
Hint Extern 1 (moves keeps_ok (on_desk _)) => apply dk_desk; auto with moves : moves.
Lemma dk_create payload p : moves keeps_ok (control.create_run su ar tx payload p).
Proof. unfold control.create_run, mint, bind_card. command_moves; apply dk_serving, ok_create_run, Hor. Qed.
Lemma dk_policy payload p : moves keeps_ok (change_approval_policy su ar tx payload p).
Proof. unfold change_approval_policy. command_moves. apply dk_serving, ok_policy, Hor. Qed.
Lemma dk_list payload p : moves keeps_ok (control.list_runs su ar payload p).
Proof. unfold control.list_runs. command_moves. apply dk_serving, ok_list, Hor. Qed.
Lemma dk_get payload p : moves keeps_ok (control.get_run su ar payload p).
Proof. unfold control.get_run. command_moves. apply dk_serving, ok_get, Hor. Qed.
Lemma dk_cancel payload p : moves keeps_ok (control.cancel_run su ar tx payload p).
Proof. unfold control.cancel_run. command_moves. apply dk_serving, ok_cancel, Hor. Qed.
Lemma dk_retry payload p : moves keeps_ok (control.retry_run su ar tx payload p).
Proof. unfold control.retry_run. command_moves. apply dk_serving, ok_retry_run, Hor. Qed.
Lemma dk_resolve payload p : moves keeps_ok (control.resolve_approval su ar tx payload p).
Proof. unfold control.resolve_approval. command_moves. apply dk_serving, ok_resolve, Hor. Qed.
Lemma dk_subscribe payload p : moves keeps_ok (subscribe su ar tx payload p).
Proof.
  unfold subscribe. command_moves.
  - apply dk_serving, ok_get, Hor.
  - apply dk_remote. intros now. eexists (UpsertSubscription _ _ _ now). split; [done|]. intros db. reflexivity.
Qed.
Lemma dk_unsubscribe payload : moves keeps_ok (unsubscribe su ar tx payload).
Proof.
  unfold unsubscribe. command_moves. apply dk_remote. intros now. eexists (RemoveSubscription _). split; [done|].
  intros db. reflexivity.
Qed.
Lemma dk_provider_call {A} code (m : P ProviderError A) : moves keeps_ok (provider_call tx code m).
Proof. unfold provider_call. command_moves. Qed.
Lemma dk_revoke payload : moves keeps_ok (control.revoke_credential su ar tx payload).
Proof. unfold control.revoke_credential. command_moves. apply dk_service, ok_revoke, Hor. Qed.
Lemma dk_drain : moves keeps_ok (node_drain su ar).
Proof. unfold node_drain. command_moves. intros d Hd. by apply (ok_same (d_node d)). Qed.
Hint Resolve dk_provision dk_assign dk_select dk_create dk_policy dk_list dk_get dk_cancel dk_retry dk_resolve dk_subscribe
  dk_unsubscribe dk_provider_call dk_revoke dk_drain : moves.

(** *** Moving a project to Trash and back *)

(** Nobody else ends the change of this project. *)
Definition own_change (p : string) : Prop := forall k, ~ In (EndChange p) (b_meanwhile (ar_env ar k)).
Definition changing (p : string) (d : Daemon) : Prop := dok d /\ p ∈ n_changes (d_node d).
Definition keeps_change (p : string) (d d' : Daemon) : Prop := changing p d -> changing p d'.
#[local] Instance keeps_change_preorder p : PreOrder (keeps_change p).
Proof. split; [intros d Hd; exact Hd|]. intros a b c Hab Hbc Ha. unfold keeps_change in *. auto. Qed.

Lemma change_outlives_action p a n :
  a <> EndChange p -> p ∈ n_changes n -> p ∈ n_changes (perform_action (su_paths su) (su_node_home su) a n).
Proof.
  intros Ha Hp. destruct a as [c|q c|q|q|q checked h now stamp req| |id|id]; cbn [perform_action];
    repeat case_match; try done; cbn; set_solver.
Qed.
Lemma change_outlives_others p l n :
  ~ In (EndChange p) l -> p ∈ n_changes n ->
  p ∈ n_changes (List.fold_left (fun n a => perform_action (su_paths su) (su_node_home su) a n) l n).
Proof.
  revert n. induction l as [|a l IH]; intros n Hl Hp; [done|]. cbn [List.fold_left]. cbn [In] in Hl. apply IH; [tauto|].
  apply change_outlives_action; [|done]. intros ->. tauto.
Qed.
Lemma look_keeps_change {E} p : own_change p -> moves (keeps_change p) (@control.look _ _ su ar E).
Proof.
  intros Hown d [Hd Hp]. split; [by apply dk_look|]. unfold control.look, on_service, service.tick. cbn.
  apply change_outlives_others; [|done]. intros [Hin _]%filter_In. by eapply Hown.
Qed.
Lemma open_keeps_change p : own_change p -> moves (keeps_change p) (open_registry su ar).
Proof.
  intros Hown. pose proof (fun E => @look_keeps_change E p Hown). unfold open_registry, now_step. command_moves.
  intros d [Hd Hp]. split; [|done]. cbn. by apply (ok_quiet (ScrubHistory true)).
Qed.
Lemma site_keeps_change {E A} p (m : Prog E A) : moves (Rs (kept_while (eq p))) m -> moves (keeps_change p) (on_site m).
Proof.
  intros Hm d [Hd Hp]. split; [apply (dk_site (eq p)); [done|by intros q <-|done]|].
  unfold on_site. by destruct (m (site d)).
Qed.
Lemma manage_keeps_change {A} p (m : Z -> Prog ReassignFailure A) :
  own_change p -> (forall now, moves (Rs (kept_while (eq p))) (m now)) -> moves (keeps_change p) (manage su ar m).
Proof.
  intros Hown Hm. pose proof (fun E => @look_keeps_change E p Hown). pose proof (open_keeps_change p Hown).
  unfold manage. command_moves. by apply site_keeps_change.
Qed.
Lemma begin_starts_change p d d' :
  dok d -> control.begin_worker_change su ar p d = (Ok tt, d') -> changing p d'.
Proof.
  intros Hd E. pose proof (dk_begin_worker p d Hd) as Hd'. rewrite E in Hd'. split; [done|].
  unfold control.begin_worker_change, on_service in E. destruct (service.begin_worker_change _ _ _ p (d_node d)) as [r n] eqn:Es.
  injection E as -> <-. cbn. unfold service.begin_worker_change, service.begin_credential_change in Es.
  apply bind_Ok in Es as (? & n1 & _ & Es). apply bind_Ok in Es as (active & n2 & _ & Es).
  apply bind_Ok in Es as (c & n3 & _ & Es). destruct c; [done|]. destruct (negb _); [done|]. injection Es as <-. cbn. set_solver.
Qed.
Lemma dk_lifecycle cmd project suspend :
  (forall p, project = Some p -> own_change (rp_project_id p)) ->
  moves keeps_ok (change_project_lifecycle su ar cmd project suspend).
Proof.
  intros Hown d Hd. unfold change_project_lifecycle. destruct project as [p|]; [|exact Hd]. specialize (Hown p eq_refl).
  unfold named_project, context, checked, control.mapping, control.attempting, bind, ret. cbv beta iota zeta.
  pose proof (dk_begin_worker (rp_project_id p) d Hd) as Hb.
  destruct (control.begin_worker_change su ar (rp_project_id p) d) as [[[]|[]] d1] eqn:Eb; try exact Hb.
  apply begin_starts_change in Eb; [|done].
  set (m := fun now => if suspend then suspend_worker (rp_project_id p) now else resume_worker (worker_manager su) (su_rounds su) (rp_project_id p)).
  assert (changing (rp_project_id p) (snd (manage su ar m d1))) as [Hm _].
  { apply manage_keeps_change; [done| |done]. intros now. unfold m.
    destruct suspend; [apply (rs_suspend_worker (kept_while (eq (rp_project_id p))) (eq (rp_project_id p)))
                      |apply (rs_resume_worker (kept_while (eq (rp_project_id p))) (eq (rp_project_id p)))];
      auto using kept_call, host_kept. }
  destruct (manage su ar m d1) as [[w|[]] d2]; cbn [snd] in Hm; try exact Hm;
    pose proof (@dk_end_worker ProtocolError (rp_project_id p) d2 Hm) as He;
    destruct (control.end_worker_change (rp_project_id p) d2) as [[|] d3]; exact He.
Qed.

(** *** The dispatcher *)

Lemma map_project_id p r : map_project p = Ok r -> rp_project_id r = p_project_id p.
Proof.
  unfold map_project. destruct (ProfileState.parse _); [|done]. destruct (RuntimeOwnership.parse _); [|done]. by intros [= <-].
Qed.
Lemma resolve_remote_id id db p : resolve_remote_project id db = Ok (Some p) -> rp_project_id p = id.
Proof.
  unfold resolve_remote_project, project. destruct (validate_identifier id); [|done].
  destruct (select_one _ _) as [q|] eqn:Es; [|done]. apply select_one_Some in Es as [_ Hq%is_project_true].
  destruct (map_project q) as [r|] eqn:Er; [|done]. apply map_project_id in Er. destruct (rp_enabled r); [|done].
  intros [= <-]. congruence.
Qed.
Lemma resolved_is_named project_id d p d' :
  resolve su ar tx project_id d = (Ok (Some p), d') -> project_id = Some (rp_project_id p).
Proof.
  unfold resolve. destruct project_id as [id|]; [|done]. intros E.
  apply bind_Ok in E as (? & d1 & _ & E). apply bind_Ok in E as (? & d2 & _ & E). apply bind_Ok in E as (r & d3 & Er & E).
  injection Er as <- <-. apply bind_Ok in E as (found & d4 & Ef & E). destruct found as [q|]; [|done].
  injection E as -> <-. f_equal. symmetry. apply (resolve_remote_id id (n_db (d_node d2))).
  destruct (resolve_remote_project id (n_db (d_node d2))); [|done]. by injection Ef as -> _.
Qed.
Lemma dk_resolve_project id : moves keeps_ok (resolve su ar tx id).
Proof. unfold resolve. command_moves. Qed.
Lemma dk_reads :
  moves keeps_ok (provider_status su ar) /\ moves keeps_ok (provider_cancel su ar)
  /\ moves keeps_ok (control.list_credentials su ar tx)
  /\ (forall payload, moves keeps_ok (control.cancel_credential su ar tx payload))
  /\ (forall payload, moves keeps_ok (control.rename_credential su ar tx payload))
  /\ (forall payload, moves keeps_ok (node_update su ar tx payload)) /\ moves keeps_ok (capabilities su ar)
  /\ moves keeps_ok (provider_authorize tx) /\ moves keeps_ok (control.list_projects su ar tx)
  /\ (forall cmd, moves keeps_ok (authorize_credential su ar tx cmd))
  /\ (forall cmd, moves keeps_ok (control.reauthorize_credential su ar tx cmd)).
Proof.
  unfold provider_status, provider_cancel, control.list_credentials, control.cancel_credential, control.rename_credential,
    node_update, capabilities, provider_authorize, control.list_projects, authorize_credential, control.reauthorize_credential.
  split_and!; intros; command_moves.
Qed.
Lemma dk_execute cmd :
  (forall p, command_project_id cmd = Some p -> own_change p) -> moves keeps_ok (execute su ar tx cmd).
Proof.
  intros Hown d Hd. destruct dk_reads as (? & ? & ? & ? & ? & ? & ? & ? & ? & _). unfold execute. cbv zeta.
  destruct (_ =? _)%string; [by apply dk_provision|].
  unfold bind at 1. pose proof (dk_resolve_project (command_project_id cmd) d Hd) as Hr.
  destruct (resolve su ar tx (command_project_id cmd) d) as [[project|e] d1] eqn:E; [|exact Hr]. cbn [snd] in Hr.
  assert (forall p, project = Some p -> own_change (rp_project_id p)) as Hp.
  { intros p ->. by apply Hown, (resolved_is_named _ d p d1). }
  pose proof (fun suspend => dk_lifecycle cmd project suspend Hp). revert d1 Hr E.
  match goal with |- forall d1, dok d1 -> _ -> dok (snd (?m d1)) => enough (moves keeps_ok m) as Hm end.
  { intros d1 Hr _. by apply Hm. }
  repeat (destruct (_ =? _)%string; [command_moves|]). command_moves.
Qed.

(** The invariant of the service, and what it says of the projects it is about. *)
Definition keeps_order (n : NodeState) : Prop :=
  service_ok n /\ forall p, p ∈ n_changes n \/ in_trash p (n_db n) -> at_rest p (n_db n).

End Commands.

(** ** A node with two projects, at which the theorems about
    commands are applied; and what a command without its project does. *)

From S2P Require Import ProviderTheorems ServiceRuns WorkerSamples.
Import RunnerSamples.
Import Samples.
Import Json.Codec ProtocolSamples provider service control ProviderSamples ServiceSamples.

Module CommandSamples.
#[export] Existing Instance WorkerSamples.machine.
#[export] Existing Instance ProvisioningSamples.tool.
#[export] Instance starter : Starter := {| start_detached _ := ret (Ok tt) |}.

Definition config : NodeConfig :=
  {| cfg_project_root := "/v"; cfg_hermes_project_home_root := "/w"; cfg_hermes_shared_auth := "/a/auth.json";
     cfg_codex_auth := "/a/codex.json"; cfg_hermes_profile_port_start := 9000; cfg_hermes_profile_port_end := 9010;
     cfg_hermes_url := "http://127.0.0.1:8642"; cfg_hermes_home := "/h" |}.
Definition setup : Setup :=
  {| su_config := config; su_paths := host_paths; su_node_home := "/n"; su_release := "r1"; su_runtime_uid := 7; su_uid := 7;
     su_pid := 40; su_state_root := "/state"; su_api_key := key; su_limits := Limits_default; su_instance_id := "i1";
     su_fs := WorkerSamples.real; su_rounds := WorkerSamples.enough |}.
Definition around (others : nat -> Beside) : Around :=
  {| ar_env := others; ar_logins := alone; ar_hash _ := []; ar_unopened _ := None; ar_message_id _ := "m1"; ar_accepted _ := true;
     ar_occupied _ _ := false; ar_random _ := seqZ 0 32; ar_elsewhere _ _ db := db; ar_channel _ := VNull |}.
Definition wording : Texts :=
  {| tx_registry _ := ""; tx_inventory _ := ""; tx_remote _ := ""; tx_node _ := ""; tx_fs _ := ""; tx_provider _ := "";
     tx_attachment _ := ""; tx_update _ := "" |}.

Definition daemon (cs : list Call) : Daemon :=
  {| d_node := node cs; d_host := WorkerSamples.quiet; d_log := []; d_cards := []; d_boards := ∅ |}.
Definition asking (name : string) (project : option string) (payload : Value) : RemoteCommand :=
  {| Protocol.command_id := "cmd-1"; command := name; command_project_id := project; command_payload := payload |}.
Abbreviation commanded others cmd d := (execute_with_delivery setup (around others) wording cmd d).
Definition suspend_demo : RemoteCommand := asking "project.suspend" (Some "demo"%string) (object []).

Lemma fair_is_typed a : fair_action a -> typed_action a.
Proof. destruct a; try done; [by intros []|by intros []]. Qed.
Lemma around_calm others :
  (forall k a, In a (b_meanwhile (others k)) -> fair_action a) -> CommandTheorems.calm setup (around others).
Proof.
  intros Hf. split; [|intros h db; apply rtc_refl|intros k j db; apply rtc_refl|by split].
  intros k a Ha. by eapply fair_is_typed, Hf.
Qed.
Lemma around_orderly others :
  (forall k a, In a (b_meanwhile (others k)) -> fair_action a) -> orderly setup (around others).
Proof. intros Hf. split; [exact Hf|intros h db; apply rtc_refl|intros k j db; apply rtc_refl|by split]. Qed.

(** The node of these samples keeps the laws of the channel. *)
Definition sample_laws := node_laws setup (around (insisting 4)) wording (around_calm _ (insisting_fair 4)) (fun _ => [])
  (fun _ => 0) (fun _ => "up"%string) "1.0" (fun _ => List.Forall_nil _).

(** A frame is let through that names no project, though its command needs one:
    the task that serves the channel ends. *)
Lemma command_without_project_ends_the_task :
  Protocol.validate (asking "runs.list" None (object [])) = Ok tt
  /\ fst (commanded calm_node (asking "runs.list" None (object [])) (daemon project_calls)) = Err Ended.
Proof. vm_compute. done. Qed.
(** A task card is minted before the rest of the frame is read: the frame is
    refused and the card stays. *)
Definition malformed_run : RemoteCommand :=
  asking "runs.create" (Some "demo"%string)
    (object [("input", VString "list the files"); ("approval_policy", VString "whenever");
             ("task", object [("task_id", VString "t1"); ("generation", VNumber (PosInt 1))])]%string).
Lemma refused_run_leaves_its_card :
  let (r, d) := commanded calm_node malformed_run (daemon project_calls) in
  match r with Err (Failed e) => pe_code e = MalformedFrame | _ => False end
  /\ size (d_boards d) = 1%nat /\ d_cards d = [] /\ runs (n_db (d_node d)) = [].
Proof. vm_compute. split_and!; done. Qed.
End CommandSamples.
